(* ===== verification/_CoqProject ===== *)
-Q . S2P
Prelude.v
Utf8.v
Cbor.v
CborFacts.v
Protocol.v
ProtocolFacts.v
Budget.v
Admission.v
Policy.v
Validate.v
Codec.v
CodecFacts.v
Binding.v
BindingFacts.v
Counting.v
IoClock.v
Stream.v
StreamFacts.v
Duplex.v
StreamAsync.v
Sequenced.v
SequencedFacts.v
SequencedLink.v
SequencedLive.v
SequencedAccount.v
Mux.v
MuxFacts.v
MuxSteps.v
MuxRun.v
MuxCancel.v
MuxBind.v
MuxAsync.v
PoolTypes.v
SetupClock.v
SetupFacts.v
Pool.v
PoolSteps.v
PoolMoves.v
PoolCalls.v
PoolRun.v
PoolDrain.v
PoolCapacity.v
PoolSchedule.v
PoolService.v
PoolSamples.v
Text.v
TextFacts.v
RemoteAdmission.v
RemoteAdmissionFacts.v
Operation.v
RemoteTable.v
ConnBinding.v
Cells.v
Host.v
HostRun.v
HostCharge.v
HostAdmission.v
HostSamples.v
Domain.v
DomainFacts.v
Instance.v
InstanceRun.v
InstanceOwed.v
InstanceSamples.v
Driver.v
RemoteCore.v
RemoteMux.v
RemoteFacts.v
RemoteBackend.v
RemoteRun.v
RemoteSession.v
RemoteSamples.v
RemoteAccount.v
Served.v
ServedFacts.v
ReceiverRun.v
ServedEffect.v
ServedSamples.v
Exchange.v
