(* ===== verification/Prelude.v ===== *)
(** * A verification of the git transport

    The repository is a Rust workspace.  [src/src] is the transport library: a
    canonical CBOR coder, the generated wire types, a bounded codec, capability
    binding, and deterministic machines, each driven by its host through plain calls
    and a millisecond clock: the stream (one side of an open byte stream), the
    sequenced profile (ordered delivery over a lossy link), the multiplexer (the
    requests and streams of a session) and the connection pool (leases of connections
    to requests).  [src/crates/gwz-connection] composes them into a service: a host
    admits operations and gives each a binding; an endpoint instance runs a pool of
    connections behind an adapter; and over a carrier a core's handle, whose exchanges
    are messages, meets a client's receiver, which serves them with its own host.  This
    development models the machines and the tables and state machines around them, and
    proves what they promise whatever their hosts, peers, adapters and carriers do.

    ** How the code is written down

    - A method on [&mut self] is a function to [result A E * S]: Rust keeps what
      was written before an early return, so the state stands beside the result.
      The notations [try] and [call] of this file are the [?] operator.
    - Machine integers are [Z], with wrap-around, saturation and checked
      operations written out ([wrapping_add_u64], [saturating_add_u64],
      [checked_add_u64], [as_u64], ...); [usize] has 64 bits.
    - A [BTreeMap] is a [gmap] read through [entries], [keys] and [values], which
      are in key order; a [Vec] or [VecDeque] is a list; a [String] is a string of
      UTF-8 bytes.  Structs are records with the update [s <| f := v |>].
    - A panic ([expect], an index, [unreachable!]) is recorded in the machine that
      has one to record ([panicked] of the pool) or is its own outcome.
    - An object that several holders share ([Arc] of a lock or an atomic) is kept once,
      in a store under a number, and the holders have the number.  A critical section
      is one function; a run is any interleaving of them.
    - A future is the function of its poll.  A waker is a number, [will_wake] is
      equality, and what a call wakes is part of its result.
    - What a component calls outside (an adapter, a clock, a lane, a client's owner) is
      a type class over a state of its own, which may answer anything.  Where a theorem
      speaks of what was asked of the outside, an instance puts a log beside that state
      ([recorded], [watched], [noted]); the code under it is unchanged.

    ** The transport library

    - [Prelude]: results, integers, options, record update, ordered maps and
      their lemmas; [Utf8]: [from_utf8] and the character classes; [Counting]: sums and
      numbers of map entries.
    - [Cbor], [CborFacts]: cbor.rs.  Decoding inverts encoding on encodable trees of at
      most the nesting bound; what decodes to an
      ordered tree re-encodes to the same bytes; nesting is bounded; and the
      decoder accepts input that is not canonical.
    - [Protocol], [ProtocolFacts]: protocol.rs, a module per wire type; the
      interfaces [Reads] and [Shaped], with an instance per type, say that the
      reader inverts the writer and that trees are canonical and shallow.
    - [Budget], [Admission], [Policy], [Validate], [Codec], [CodecFacts]:
      budget.rs, admission.rs, policy.rs and codec.  The typed admission walk
      charges exactly the encoded length ([Visits] per type), the byte scan admits
      whatever the walk admits, so an admitted message encodes and decodes to
      itself, also under negotiated limits.
    - [Binding], [BindingFacts]: binding.rs.  An accepted offer verifies at the
      host to the same binding, never widens either side and loses nothing that
      is common.
    - [IoClock], [Stream], [StreamFacts], [Duplex]: stream.  Bounds of one machine
      under any calls; the first outcome stands; two machines joined by ordered
      delivery deliver a prefix of what was written, and an end of stream only
      after all of it.
    - [Sequenced], [SequencedFacts], [SequencedLink], [SequencedLive],
      [SequencedAccount]: sequenced.rs.  Order and exactly-once application over a
      link that reorders, repeats and drops; progress, where the host applies what it is
      given; exact accounts.
    - [Mux], [MuxFacts], [MuxSteps], [MuxRun], [MuxCancel], [MuxBind]: mux.  The
      invariant; every call as a sequence of small changes; bounds, isolation of
      requests, increasing openings, cancellation that ends, the handshake and
      the all-or-nothing of errors.
    - [StreamAsync], [MuxAsync]: stream/asynchronous.rs and mux/asynchronous.rs.  Each
      call, poll and drop is one critical section.  In every interleaving of them no
      waiter sleeps when it could go on.
    - [PoolTypes], [SetupClock], [SetupFacts], [Pool]: the data of pool/mod.rs, the
      setup clock of pool/setup_clock, and the machine of pool/machine.rs,
      allocation.rs, lifecycle.rs, limit.rs, clock.rs and setup.rs.  How a setup
      ends is decided once, and its network budget is exact.
    - [PoolSteps], [PoolMoves], [PoolCalls], [PoolRun]: the pool's calls as
      sequences of nineteen kinds of change, [consistent], which ties requests to
      entries, and runs of all calls: no panic, ended leases stale for good, slots
      held until the host disposes of them.
    - [PoolCapacity]: the capacities of the pool and of each session, in runs that retire
      a scope only while nothing is served on it, as in [PoolRun]; [PoolSchedule]: the
      scheduler is work-conserving but for requests that wait for a preferred connection; [PoolDrain]: commands end,
      a stopped pool only drains, and drains to the end; [PoolService]: exclusive
      leases and expiry; [PoolSamples]: concrete runs, among them one on which
      retiring a credential scope makes the pool panic.

    ** The connection crate

    - [Text], [TextFacts]: what the crate uses of [str] and of the addresses of
      [std::net]; an address parses back from its own text.
    - [RemoteAdmission], [RemoteAdmissionFacts]: remote/admission.rs.  What a prefix
      allowance admits stays under it, the class rule is exact, and a destination's
      text is the allowance of exactly that destination.
    - [Operation], [RemoteTable], [ConnBinding], [Cells]: operation.rs, remote/table.rs
      with the bounds of remote/lane.rs, binding.rs, cell.rs and the signal of pump.rs.
      A message the table makes for a valid context and identity has the shape its
      reader checks; neither the exchange nor the configuration enforces that they are.
    - [Host], [HostRun], [HostCharge], [HostAdmission], [HostSamples]: host/shared.rs,
      host/shared/admit.rs, admission.rs and the operation of exchange.rs.  Every
      interleaving keeps the account of slots; a seal is for good; a binding ends once,
      after its last exchange; the registry of instances stays within its limit; the
      retained charge is bounded under concurrent reservations; a refused acquisition
      has given everything back.  One run shows an admission asleep beside free slots.
    - [Domain], [DomainFacts]: domain.rs, with the close job of host/shared/close.rs and
      the offers of host/shared.rs.  The budget is exact; a ticket is confirmed, and its
      waiters woken, when the work is disposed; a complete close leaves nothing behind.
      The seal of a host whose close job and whose offer are both refused drops its
      adapters, and the ticket it reports is never confirmed.
    - [Driver]: the task of pump.rs.  It misses no notification and no stop, and its loss
      seals the host.
    - [Instance], [InstanceRun], [InstanceOwed], [InstanceSamples]: instance/, with
      disposal.rs and the types of ports.rs.  An https connection serves the scope it
      was set up for and no other, and passes between bindings only by a proof for the
      second; no caller is forgotten; failing the instance answers all of them.
    - [RemoteCore], [RemoteMux], [RemoteFacts], [RemoteBackend], [RemoteRun],
      [RemoteSession], [RemoteAccount], [RemoteSamples]: remote/core.rs,
      remote/backend.rs and remote/stream.rs, the core's handle.  A registration is
      decided once; an ended binding is silent; a loss told without effect had none;
      slots, names and wakeups are exact.
    - [Served], [ServedFacts], [ReceiverRun], [ServedEffect], [ServedSamples]:
      remote/served.rs and remote/receiver.rs, the client's side.  The client's owner is
      asked for nothing its own invocation does not grant; calls, bindings and rules
      stay together and the tables bounded; a push cut short and told without effect
      had no byte taken.  [ServedSamples] joins a core's handle and a client's receiver
      by their messages, and shows a call that ends before it is admitted and is
      answered all the same.
    - [Exchange]: exchange.rs and exchange/stream.rs, the openings, exchanges and byte
      streams over an instance, or over the calls of [RemoteBackend].  A dropped
      [write_all] of a local stream can be resumed from the stream's count; a response
      head comes once.

    ** Interfaces and parameters

    Sizes of Rust types are the class [Layout].  The host's apply callback of the
    sequenced receiver, the build feature [unstable_sequenced] and the readings
    [source] of the setup clocks' time sources are parameters; nothing is assumed
    of them but that readings are 64-bit where the network budget is computed.
    Setup clocks are shared handles: their states live in a heap inside the pool,
    and a run may change them between two calls in any way ([ClocksMove]).
    [Ports] is the outside of an endpoint instance (adapter, clock, exchanges, cancelled
    flags), [Owner] the client's host as the receiver's bindings call it, [ClientLane]
    the client's end of a carrier with the calls it has sent, and [Lane.t] what the
    core's lane answers during one pump.  No theorem assumes anything of them except
    what its statement says.

    ** Fuel

    Item loops of the CBOR decoder and the UTF-8 scan carry the length of their
    input, the preflight scan the nesting bound plus two, and the drain of a
    sequenced stream the number of messages it holds; each is what the loop can
    use at most.  Taking the pool's commands ends within two for each connection
    plus one, as [actions_terminate] proves.  A carrier's pump takes the messages that
    have arrived, and what a binding collects is bounded by the room of the outbox.  A
    served binding handles as many messages as its multiplexer holds, which is all of
    them ([actions_taken]).  Loops whose end is the outside's to decide (completions of
    an adapter, arrivals of a client's lane) take any fuel, and the theorems are for
    all of it.

    ** Not modelled

    The async adapter of the pool (pool/asynchronous.rs), which is handles and wakers
    around the modelled machine; the tasks that drive the carrier-backed handle and the
    receiver, and the crate's handles, which only call the modelled operations; fakes and
    tests; texts of errors and of [Debug]; accessors that only return a field; and the
    generated descriptions under protocol/. *)
From Stdlib Require Export ZArith Lia Bool String Strings.Byte.
From stdpp Require Export base tactics gmap strings list list_numbers sorting numbers.

#[export] Set Default Goal Selector "!".
Open Scope Z_scope.

(** ** Results

    [result] is Rust's [Result].  A fallible method that takes [&mut self]
    becomes a function to [result A E * S]: Rust keeps what it has already
    written to [self] when it returns early, so the state is returned beside
    the result and not inside its [Ok] case. *)

Inductive result (A E : Type) : Type :=
| Ok (a : A)
| Err (e : E).
Arguments Ok {A E} a.
Arguments Err {A E} e.

Declare Scope rust_scope.
Delimit Scope rust_scope with rust.
Open Scope rust_scope.

(** The [?] operator on a pure result. *)
Notation "'try' x ':=' r 'in' k" :=
  (match r with Ok x => k | Err e => Err e end)
  (at level 10, x pattern, r at level 100, k at level 200) : rust_scope.

(** [?] on a pure result inside a method: the early return keeps the state [s]. *)
Notation "'try' x ':=' r 'at' s 'in' k" :=
  (match r with Ok x => k | Err e => (Err e, s) end)
  (at level 10, x pattern, r at level 100, s at level 100, k at level 200) : rust_scope.

(** [?] on a call of another method of the same state. *)
Notation "'call' x ',' s ':=' c 'in' k" :=
  (match c with (Ok x, s) => k | (Err e, s) => (Err e, s) end)
  (at level 10, x pattern, s name, c at level 100, k at level 200) : rust_scope.

Definition is_ok {A E} (r : result A E) : bool :=
  match r with Ok _ => true | Err _ => false end.

Definition map_err {A E F} (f : E -> F) (r : result A E) : result A F :=
  match r with Ok a => Ok a | Err e => Err (f e) end.

Definition ok_or {A E} (o : option A) (e : E) : result A E :=
  match o with Some a => Ok a | None => Err e end.

(** [Option] combinators of the Rust standard library. *)
Definition is_some {A} (o : option A) : bool :=
  match o with Some _ => true | None => false end.
Definition is_none {A} (o : option A) : bool := negb (is_some o).
Definition is_some_and {A} (o : option A) (p : A -> bool) : bool :=
  match o with Some a => p a | None => false end.
Definition is_none_or {A} (o : option A) (p : A -> bool) : bool :=
  match o with Some a => p a | None => true end.
Definition unwrap_or {A} (o : option A) (d : A) : A :=
  match o with Some a => a | None => d end.
Definition and_then {A B} (o : option A) (f : A -> option B) : option B :=
  match o with Some a => f a | None => None end.
Definition opt_filter {A} (o : option A) (p : A -> bool) : option A :=
  match o with Some a => if p a then Some a else None | None => None end.

(** The least of two optional deadlines, where [None] is no deadline. *)
Definition opt_min (a b : option Z) : option Z :=
  match a, b with
  | Some x, Some y => Some (Z.min x y)
  | Some x, None => Some x
  | None, y => y
  end.

(** ** Machine integers

    [i64], [u64] and [usize] values are [Z]; [usize] has 64 bits.  Casts and
    unchecked arithmetic wrap, the checked and saturating operations of the
    standard library are written out. *)

Abbreviation I64_MAX := 9223372036854775807.
Abbreviation I64_MIN := (-9223372036854775808).
Abbreviation U64_MAX := 18446744073709551615.
Abbreviation I32_MAX := 2147483647.
Abbreviation U32_MAX := 4294967295.

Definition as_u64 (z : Z) : Z := z mod (U64_MAX + 1).
Definition as_usize (z : Z) : Z := as_u64 z.
Definition as_i64 (z : Z) : Z :=
  let m := as_u64 z in if m <=? I64_MAX then m else m - (U64_MAX + 1).

Definition i64_add (a b : Z) : Z := as_i64 (a + b).
Definition i64_sub (a b : Z) : Z := as_i64 (a - b).
Definition usize_add (a b : Z) : Z := as_usize (a + b).
Definition usize_sub (a b : Z) : Z := as_usize (a - b).

Definition checked_add_i64 (a b : Z) : option Z :=
  if (I64_MIN <=? a + b) && (a + b <=? I64_MAX) then Some (a + b) else None.
Definition checked_add_u64 (a b : Z) : option Z :=
  if a + b <=? U64_MAX then Some (a + b) else None.
Definition checked_mul_i64 (a b : Z) : option Z :=
  if (I64_MIN <=? a * b) && (a * b <=? I64_MAX) then Some (a * b) else None.
Definition checked_mul_u64 (a b : Z) : option Z :=
  if a * b <=? U64_MAX then Some (a * b) else None.
Definition saturating_add_u64 (a b : Z) : Z := Z.min (a + b) U64_MAX.
Definition saturating_sub_u64 (a b : Z) : Z := Z.max (a - b) 0.
Definition saturating_mul_u64 (a b : Z) : Z := Z.min (a * b) U64_MAX.
Definition saturating_add_i64 (a b : Z) : Z := Z.max I64_MIN (Z.min (a + b) I64_MAX).
Definition wrapping_add_u64 (a b : Z) : Z := as_u64 (a + b).

Definition in_u64 (z : Z) : Prop := 0 <= z <= U64_MAX.
Definition in_i64 (z : Z) : Prop := I64_MIN <= z <= I64_MAX.

Lemma as_u64_id (z : Z) : 0 <= z <= U64_MAX -> as_u64 z = z.
Proof. intros H. unfold as_u64. apply Z.mod_small. lia. Qed.

Lemma as_usize_id (z : Z) : 0 <= z <= U64_MAX -> as_usize z = z.
Proof. apply as_u64_id. Qed.

Lemma as_i64_id (z : Z) : I64_MIN <= z <= I64_MAX -> as_i64 z = z.
Proof.
  intros H. unfold as_i64, as_u64. destruct (Z.leb_spec 0 z) as [Hz|Hz].
  - rewrite Z.mod_small by lia. destruct (Z.leb_spec z I64_MAX); lia.
  - rewrite <- (Z_mod_plus_full z 1), Z.mod_small by lia.
    destruct (Z.leb_spec (z + 1 * (U64_MAX + 1)) I64_MAX); lia.
Qed.

Lemma as_u64_range (z : Z) : in_u64 (as_u64 z).
Proof. unfold in_u64, as_u64. pose proof (Z.mod_pos_bound z (U64_MAX + 1)). lia. Qed.

(** [norm_int] removes the wrap-around of casts and unchecked arithmetic
    wherever [lia] shows that the exact value is in range. *)
Ltac norm_int :=
  unfold i64_add, i64_sub, usize_add, usize_sub in *;
  repeat match goal with
  | |- context [as_i64 ?z] => rewrite (as_i64_id z) by lia
  | |- context [as_usize ?z] => rewrite (as_usize_id z) by lia
  | |- context [as_u64 ?z] => rewrite (as_u64_id z) by lia
  | H : context [as_i64 ?z] |- _ => rewrite (as_i64_id z) in H by lia
  | H : context [as_usize ?z] |- _ => rewrite (as_usize_id z) in H by lia
  | H : context [as_u64 ?z] |- _ => rewrite (as_u64_id z) in H by lia
  end.

Lemma checked_add_i64_Some (a b c : Z) :
  checked_add_i64 a b = Some c <-> c = a + b /\ in_i64 (a + b).
Proof.
  unfold checked_add_i64, in_i64.
  destruct (_ && _) eqn:E; split; intros H; simplify_eq; [lia | | lia].
  by destruct H as [-> _].
Qed.

Lemma checked_add_i64_None (a b : Z) :
  checked_add_i64 a b = None <-> ~ in_i64 (a + b).
Proof. unfold checked_add_i64, in_i64. destruct (_ && _) eqn:E; split; intros H; simplify_eq; try done; lia. Qed.

Lemma checked_add_u64_Some (a b c : Z) :
  checked_add_u64 a b = Some c <-> c = a + b /\ a + b <= U64_MAX.
Proof.
  unfold checked_add_u64.
  destruct (_ <=? _) eqn:E; split; intros H; simplify_eq; [lia | | lia]. by destruct H as [-> _].
Qed.

(** ** Bytes, lengths and strings *)

#[export] Instance byte_eq_dec : EqDecision byte := Byte.byte_eq_dec.

Abbreviation len l := (Z.of_nat (length l)).
(** [String::len] counts bytes; a Rocq [string] is its UTF-8 byte sequence. *)
Definition slen (s : string) : Z := Z.of_nat (String.length s).
Definition str_is_empty (s : string) : bool :=
  match s with EmptyString => true | _ => false end.

Lemma str_is_empty_slen (s : string) : str_is_empty s = (slen s =? 0).
Proof.
  unfold slen. destruct s; [reflexivity|]. cbn [str_is_empty String.length].
  symmetry. apply Z.eqb_neq. lia.
Qed.

Lemma slen_nonneg (s : string) : 0 <= slen s.
Proof. unfold slen. lia. Qed.

(** Membership and quantifiers over vectors. *)
Definition contains {A} `{EqDecision A} (x : A) (l : list A) : bool := bool_decide (x ∈ l).

Lemma contains_spec {A} `{EqDecision A} (x : A) (l : list A) : contains x l = true <-> x ∈ l.
Proof. apply bool_decide_eq_true. Qed.

Lemma existsb_elem {A} (p : A -> bool) (l : list A) :
  existsb p l = true <-> exists x, x ∈ l /\ p x = true.
Proof.
  rewrite existsb_exists. split; intros (x & Hx & Hp); exists x; split; auto;
    by apply list_elem_of_In.
Qed.

Lemma forallb_elem {A} (p : A -> bool) (l : list A) :
  forallb p l = true <-> forall x, x ∈ l -> p x = true.
Proof.
  rewrite forallb_forall. split; intros H x Hx; apply H; by apply list_elem_of_In.
Qed.

(** ** Record update

    [s <| f := v |>] is [s] with its field [f] set to [v].  A record opts in
    with an [Eta] instance that rebuilds it field by field; the setter of a
    projection is then found by abstracting the projection out of it. *)

Class Eta (R : Type) := eta_of : R -> R.
Class Over {R T : Type} (proj : R -> T) := over : (T -> T) -> R -> R.
Arguments over {R T} proj {_} _ _ /.

Ltac derive_over :=
  lazymatch goal with
  | |- @Over ?R ?T ?proj =>
      let inst := constr:(_ : Eta R) in
      let body := eval hnf in inst in
      lazymatch eval pattern proj in body with
      | ?g _ =>
          let e := eval cbv beta in
            (fun (f : T -> T) (r : R) => g (fun r' : R => f (proj r')) r) in
          exact e
      end
  end.
#[export] Hint Extern 1 (Over _) => derive_over : typeclass_instances.

Declare Scope record_scope.
Delimit Scope record_scope with record.
Open Scope record_scope.
Notation "s <| f := v |>" := (over f (fun _ => v) s)
  (at level 1, f at level 10, left associativity) : record_scope.

(** ** Ordered maps

    A [BTreeMap] is a [gmap] whose iterations go through [entries], the list
    of its bindings in ascending key order.  [KeyOrder] is what the key type
    promises. *)

Class KeyOrder (K : Type) `{EqDecision K} := {
  key_le : relation K;
  key_le_dec :: RelDecision key_le;
  key_le_total :: Total key_le;
  key_le_trans :: Transitive key_le;
  key_le_antisymm :: AntiSymm (=) key_le;
}.

#[export] Program Instance Z_key_order : KeyOrder Z := {| key_le := Z.le |}.
Solve All Obligations with (repeat intros ?; lia).

Section ordered_maps.
Context {K V : Type} `{KeyOrder K, Countable K}.

Definition entry_le (a b : K * V) : Prop := key_le a.1 b.1.
#[export] Instance entry_le_dec : RelDecision entry_le.
Proof. intros a b. unfold entry_le. apply _. Defined.

Definition entries (m : gmap K V) : list (K * V) := merge_sort entry_le (map_to_list m).
Definition keys (m : gmap K V) : list K := (entries m).*1.
Definition values (m : gmap K V) : list V := (entries m).*2.

#[export] Instance entry_le_total : Total entry_le.
Proof. intros a b. unfold entry_le. apply (total key_le). Qed.
#[export] Instance entry_le_trans : Transitive entry_le.
Proof. intros a b c. unfold entry_le. apply (transitivity (R := key_le)). Qed.

Lemma entries_Permutation (m : gmap K V) : entries m ≡ₚ map_to_list m.
Proof. apply merge_sort_Permutation. Qed.

Lemma elem_of_entries (m : gmap K V) (k : K) (v : V) :
  (k, v) ∈ entries m <-> m !! k = Some v.
Proof. rewrite entries_Permutation. apply elem_of_map_to_list. Qed.

Lemma elem_of_values (m : gmap K V) (v : V) : v ∈ values m <-> exists k, m !! k = Some v.
Proof.
  unfold values. rewrite list_elem_of_fmap. split.
  - intros ([k v'] & -> & Hin). exists k. by apply elem_of_entries.
  - intros (k & Hk). exists (k, v). split; [done|]. by apply elem_of_entries.
Qed.

Lemma elem_of_keys (m : gmap K V) (k : K) : k ∈ keys m <-> is_Some (m !! k).
Proof.
  unfold keys. rewrite list_elem_of_fmap. split.
  - intros ([k' v] & -> & Hin). exists v. by apply elem_of_entries.
  - intros (v & Hv). exists (k, v). split; [done|]. by apply elem_of_entries.
Qed.

Lemma NoDup_keys (m : gmap K V) : NoDup (keys m).
Proof. unfold keys. rewrite entries_Permutation. apply NoDup_fst_map_to_list. Qed.

Lemma entries_sorted (m : gmap K V) : StronglySorted entry_le (entries m).
Proof. apply StronglySorted_merge_sort; apply _. Qed.

Lemma entries_empty : entries (∅ : gmap K V) = [].
Proof. unfold entries. by rewrite map_to_list_empty. Qed.

Lemma entries_insert_perm (m : gmap K V) (k : K) (v : V) :
  m !! k = None -> entries (<[k:=v]> m) ≡ₚ (k, v) :: entries m.
Proof. intros Hk. rewrite !entries_Permutation. by apply map_to_list_insert. Qed.

Lemma entries_delete_perm (m : gmap K V) (k : K) (v : V) :
  m !! k = Some v -> entries m ≡ₚ (k, v) :: entries (delete k m).
Proof. intros Hk. rewrite !entries_Permutation. symmetry. by apply map_to_list_delete. Qed.

Lemma length_entries (m : gmap K V) : length (entries m) = size m.
Proof. rewrite entries_Permutation. apply length_map_to_list. Qed.

Lemma entries_nil (m : gmap K V) : entries m = [] <-> m = ∅.
Proof.
  split; intros Hm; [|subst; apply entries_empty].
  apply map_size_empty_inv. by rewrite <- length_entries, Hm.
Qed.
End ordered_maps.

(** Sums over the entries of a map do not depend on the iteration order. *)
Definition sum_Z (l : list Z) : Z := foldr Z.add 0 l.

Lemma sum_Z_app (l k : list Z) : sum_Z (l ++ k) = sum_Z l + sum_Z k.
Proof. unfold sum_Z. induction l as [|x l IH]; cbn; [lia|]. rewrite IH. lia. Qed.

(** A sublist of a sorted list. *)
Lemma sorted_sublist (l k : list Z) : sublist l k -> StronglySorted Z.lt k -> StronglySorted Z.lt l.
Proof.
  induction 1 as [|x l k Hs IH|x l k Hs IH]; intros Hk; [done|apply StronglySorted_inv in Hk as [Hk Hx]; constructor; [by apply IH|]|].
  - apply list.Forall_forall. intros y Hy. rewrite list.Forall_forall in Hx. apply Hx. by eapply elem_of_sublist.
  - apply StronglySorted_inv in Hk as [Hk _]. by apply IH.
Qed.

Lemma sum_Z_perm (l k : list Z) : l ≡ₚ k -> sum_Z l = sum_Z k.
Proof. unfold sum_Z. induction 1; cbn; lia. Qed.

Lemma sum_Z_nonneg (l : list Z) : (forall x, x ∈ l -> 0 <= x) -> 0 <= sum_Z l.
Proof.
  induction l as [|x l IH]; intros Hl; [done|]. change (0 <= x + sum_Z l).
  pose proof (Hl x ltac:(left)). assert (0 <= sum_Z l) by (apply IH; intros; apply Hl; by right). lia.
Qed.

(** ** Automation *)

Create HintDb rust.
Create Rewrite HintDb rust.
#[export] Hint Rewrite andb_true_iff orb_false_iff orb_true_iff negb_true_iff negb_false_iff
  @bool_decide_eq_true @bool_decide_eq_false Z.ltb_lt Z.ltb_ge Z.leb_le Z.leb_gt Z.eqb_eq Z.eqb_neq
  @contains_spec : rust.

(** Turn boolean guards in the context into propositions. *)
Ltac bprop := autorewrite with rust in *; destruct_and?; destruct_or?.

(** Split the innermost test or match of a definition's body. *)
Ltac step_match :=
  match goal with
  | |- context [match ?x with _ => _ end] =>
      lazymatch x with context [match _ with _ => _ end] => fail | _ => destruct x eqn:? end
  | H : context [match ?x with _ => _ end] |- _ =>
      lazymatch x with context [match _ with _ => _ end] => fail | _ => destruct x eqn:? end
  end.
