(* ===== verification/Utf8.v ===== *)
(** * UTF-8 text

    What the sources use of Rust's [str]: [core::str::from_utf8] with its
    [error_len], the characters of a string, and the character classes
    [char::is_control], [char::is_whitespace] and their ASCII forms.  A Rust
    [String] is a Rocq [string] that holds its UTF-8 bytes. *)
From S2P Require Import Prelude.

Definition Z_of_byte (b : byte) : Z := Z.of_N (Byte.to_N b).
Definition byte_of_Z (z : Z) : byte :=
  match Byte.of_N (Z.to_N (z mod 256)) with Some b => b | None => x00 end.

Lemma Z_of_byte_range (b : byte) : 0 <= Z_of_byte b <= 255.
Proof. unfold Z_of_byte. pose proof (Byte.to_N_bounded b). lia. Qed.

Lemma Z_of_byte_of_Z (z : Z) : Z_of_byte (byte_of_Z z) = z mod 256.
Proof.
  unfold Z_of_byte, byte_of_Z. pose proof (Z.mod_pos_bound z 256 ltac:(lia)).
  destruct (Byte.of_N _) eqn:E.
  - apply Byte.to_of_N in E. rewrite E. lia.
  - apply Byte.of_N_None_iff in E. lia.
Qed.

Lemma byte_of_Z_of_byte (b : byte) : byte_of_Z (Z_of_byte b) = b.
Proof.
  unfold byte_of_Z. pose proof (Z_of_byte_range b). rewrite Z.mod_small by lia.
  unfold Z_of_byte. rewrite N2Z.id, Byte.of_to_N. done.
Qed.

Definition bytes_of (s : string) : list byte := list_byte_of_string s.

Lemma length_bytes_of (s : string) : length (bytes_of s) = String.length s.
Proof.
  unfold bytes_of. induction s as [|a s IH]; [done|].
  change (S (length (list_byte_of_string s)) = S (String.length s)). by rewrite IH.
Qed.

(** ** [from_utf8] *)

Inductive Utf8Result :=
| Utf8Ok (chars : list Z)
| Utf8Err (error_len : option Z).

Definition cont (b : Z) : bool := (0x80 <=? b) && (b <=? 0xBF).

(** The second byte a three- or four-byte lead accepts. *)
Definition second3 (b0 b1 : Z) : bool :=
  if b0 =? 0xE0 then (0xA0 <=? b1) && (b1 <=? 0xBF)
  else if b0 =? 0xED then (0x80 <=? b1) && (b1 <=? 0x9F)
  else cont b1.
Definition second4 (b0 b1 : Z) : bool :=
  if b0 =? 0xF0 then (0x90 <=? b1) && (b1 <=? 0xBF)
  else if b0 =? 0xF4 then (0x80 <=? b1) && (b1 <=? 0x8F)
  else cont b1.

(** One character: its code point and the bytes after it, or [error_len]. *)
Definition next_char (bs : list Z) : option (sum (Z * list Z) (option Z)) :=
  match bs with
  | [] => None
  | b0 :: r0 =>
      Some (
      if b0 <? 0x80 then inl (b0, r0)
      else if (0xC2 <=? b0) && (b0 <=? 0xDF) then
        match r0 with
        | [] => inr None
        | b1 :: r1 =>
            if cont b1 then inl ((b0 - 0xC0) * 64 + (b1 - 0x80), r1) else inr (Some 1)
        end
      else if (0xE0 <=? b0) && (b0 <=? 0xEF) then
        match r0 with
        | [] => inr None
        | b1 :: r1 =>
            if negb (second3 b0 b1) then inr (Some 1) else
            match r1 with
            | [] => inr None
            | b2 :: r2 =>
                if cont b2
                then inl (((b0 - 0xE0) * 64 + (b1 - 0x80)) * 64 + (b2 - 0x80), r2)
                else inr (Some 2)
            end
        end
      else if (0xF0 <=? b0) && (b0 <=? 0xF4) then
        match r0 with
        | [] => inr None
        | b1 :: r1 =>
            if negb (second4 b0 b1) then inr (Some 1) else
            match r1 with
            | [] => inr None
            | b2 :: r2 =>
                if negb (cont b2) then inr (Some 2) else
                match r2 with
                | [] => inr None
                | b3 :: r3 =>
                    if cont b3
                    then inl ((((b0 - 0xF0) * 64 + (b1 - 0x80)) * 64 + (b2 - 0x80)) * 64
                              + (b3 - 0x80), r3)
                    else inr (Some 3)
                end
            end
        end
      else inr (Some 1))
  end.

(** A character takes at least one byte, so the length bounds the scan. *)
Fixpoint utf8_scan (fuel : nat) (bs : list Z) : Utf8Result :=
  match fuel with
  | O => Utf8Ok []
  | S f =>
      match next_char bs with
      | None => Utf8Ok []
      | Some (inr e) => Utf8Err e
      | Some (inl (c, rest)) =>
          match utf8_scan f rest with
          | Utf8Ok cs => Utf8Ok (c :: cs)
          | Utf8Err e => Utf8Err e
          end
      end
  end.

Definition from_utf8 (bs : list byte) : Utf8Result :=
  utf8_scan (length bs) (map Z_of_byte bs).

Definition valid_utf8 (bs : list byte) : bool :=
  match from_utf8 bs with Utf8Ok _ => true | Utf8Err _ => false end.

(** [str::chars]; the bytes of a [String] are always valid. *)
Definition chars (s : string) : list Z :=
  match from_utf8 (bytes_of s) with Utf8Ok cs => cs | Utf8Err _ => [] end.

(** ** Character classes *)

(** [char::is_control]: general category Cc. *)
Definition is_control (c : Z) : bool :=
  ((0 <=? c) && (c <=? 0x1F)) || ((0x7F <=? c) && (c <=? 0x9F)).

(** [char::is_whitespace]: the Unicode property White_Space. *)
Definition is_whitespace (c : Z) : bool :=
  ((0x09 <=? c) && (c <=? 0x0D)) || (c =? 0x20) || (c =? 0x85) || (c =? 0xA0)
  || (c =? 0x1680) || ((0x2000 <=? c) && (c <=? 0x200A)) || (c =? 0x2028) || (c =? 0x2029)
  || (c =? 0x202F) || (c =? 0x205F) || (c =? 0x3000).

Definition is_ascii (b : Z) : bool := b <=? 0x7F.
Definition is_ascii_control (b : Z) : bool := (b <=? 0x1F) || (b =? 0x7F).
(** [u8::is_ascii_whitespace]: space, tab, line feed, form feed, carriage return. *)
Definition is_ascii_whitespace (b : Z) : bool :=
  (b =? 0x20) || (b =? 0x09) || (b =? 0x0A) || (b =? 0x0C) || (b =? 0x0D).
Definition is_ascii_digit (b : Z) : bool := (0x30 <=? b) && (b <=? 0x39).
Definition is_ascii_alphabetic (b : Z) : bool :=
  ((0x41 <=? b) && (b <=? 0x5A)) || ((0x61 <=? b) && (b <=? 0x7A)).
Definition is_ascii_alphanumeric (b : Z) : bool := is_ascii_alphabetic b || is_ascii_digit b.
Definition is_ascii_hexdigit (b : Z) : bool :=
  is_ascii_digit b || ((0x41 <=? b) && (b <=? 0x46)) || ((0x61 <=? b) && (b <=? 0x66)).

(** The bytes and the characters of a string, as numbers. *)
Definition sbytes (s : string) : list Z := map Z_of_byte (bytes_of s).

(** [str::contains] of one ASCII character. *)
Definition contains_char (c : Z) (s : string) : bool := contains c (sbytes s).

(** Membership in the characters of an ASCII literal. *)
Definition among (lit : string) (c : Z) : bool := contains c (sbytes lit).

Example from_utf8_ascii : chars "a@b" = [97; 64; 98].
Proof. reflexivity. Qed.
Example from_utf8_two : from_utf8 [xc2; x85] = Utf8Ok [0x85].
Proof. reflexivity. Qed.
Example from_utf8_cut : from_utf8 [xe2; x82] = Utf8Err None.
Proof. reflexivity. Qed.
Example from_utf8_bad : from_utf8 [xed; xa0; x80] = Utf8Err (Some 1).
Proof. reflexivity. Qed.
