(* ===== verification/Cbor.v ===== *)
(** * The CBOR substrate (src/src/cbor.rs)

    The value tree, its deterministic encoder and the fail-closed, bounded
    decoder.  The decoder reads a suffix of the input where the source carries
    an offset into it; its nesting recursion is structural on the room left
    under the depth bound, and the item loops carry the length of the input as
    fuel, which every item shortens.

    Floats are their 64-bit patterns.  The products and sums of
    [f16_bits_to_f64] are exact, so they are written as the pattern of the
    exact dyadic value. *)
From S2P Require Import Prelude Utf8.

Inductive Cbor : Type :=
| Int (n : Z)
| Float (bits : Z)
| Bytes (b : list byte)
| Text (s : string)
| Array (a : list Cbor)
| Map (m : list (Z * Cbor))
| Bool (b : bool)
| Null.

Inductive MapKey := KeyInt (n : Z) | KeyText (s : string) | KeyBool (b : bool).

Inductive DecodeError :=
| Truncated
| TrailingBytes
| InvalidUtf8
| UnsupportedInfo (info : Z)
| UnsupportedMajor (major : Z)
| NonIntegerMapKey
| DuplicateMapKey (key : MapKey)
| IntOverflow
| NonCanonicalInt (value : Z)
| NegativeMapKey (key : Z)
| MissingKey (key : Z)
| WrongType (expected : string)
| UnknownEnum (enum_name : string) (value : Z)
| TooDeep (limit : Z)
| TooLarge (len limit : Z).

Definition DEFAULT_MAX_DEPTH : Z := 32.
Definition MAX_DEPTH_CEILING : Z := 128.

(** ** Accessors *)

Definition is_map (c : Cbor) : bool := match c with Map _ => true | _ => false end.
Definition is_null (c : Cbor) : bool := match c with Null => true | _ => false end.

Fixpoint assoc (key : Z) (m : list (Z * Cbor)) : option Cbor :=
  match m with
  | [] => None
  | (k, v) :: m' => if k =? key then Some v else assoc key m'
  end.

Definition try_get (c : Cbor) (key : Z) : result Cbor DecodeError :=
  match c with
  | Map m => match assoc key m with Some v => Ok v | None => Err (MissingKey key) end
  | _ => Err (WrongType "map")
  end.
Definition try_get_opt (c : Cbor) (key : Z) : result (option Cbor) DecodeError :=
  match c with
  | Map m => Ok (assoc key m)
  | _ => Err (WrongType "map")
  end.
Definition try_int (c : Cbor) : result Z DecodeError :=
  match c with Int n => Ok n | _ => Err (WrongType "int") end.
Definition try_text (c : Cbor) : result string DecodeError :=
  match c with Text s => Ok s | _ => Err (WrongType "text") end.
Definition try_bytes (c : Cbor) : result (list byte) DecodeError :=
  match c with Bytes b => Ok b | _ => Err (WrongType "bytes") end.
Definition try_bool (c : Cbor) : result bool DecodeError :=
  match c with Bool b => Ok b | _ => Err (WrongType "bool") end.
Definition try_array (c : Cbor) : result (list Cbor) DecodeError :=
  match c with Array a => Ok a | _ => Err (WrongType "array") end.

(** [iter().map(f).collect::<Result<Vec<_>, _>>()]: stops at the first error. *)
Fixpoint collect {A B E} (f : A -> result B E) (l : list A) : result (list B) E :=
  match l with
  | [] => Ok []
  | x :: l' => try y := f x in try ys := collect f l' in Ok (y :: ys)
  end.

(** ** Heads and big-endian arguments *)

Fixpoint be_bytes (k : nat) (n : Z) : list byte :=
  match k with
  | O => []
  | S k' => byte_of_Z (n / 256 ^ Z.of_nat k') :: be_bytes k' n
  end.
Definition be_value (l : list byte) : Z :=
  fold_left (fun acc b => acc * 256 + Z_of_byte b) l 0.

Definition head (major n : Z) : list byte :=
  let mt := Z.shiftl major 5 in
  if n <? 24 then [byte_of_Z (Z.lor mt n)]
  else if n <? 0x100 then byte_of_Z (Z.lor mt 24) :: be_bytes 1 n
  else if n <? 0x10000 then byte_of_Z (Z.lor mt 25) :: be_bytes 2 n
  else if n <? 0x100000000 then byte_of_Z (Z.lor mt 26) :: be_bytes 4 n
  else byte_of_Z (Z.lor mt 27) :: be_bytes 8 n.

(** ** Floats *)

Definition round_shift_right (value shift : Z) : Z :=
  if shift =? 0 then value
  else if 128 <=? shift then 0
  else
    let quotient := Z.shiftr value shift in
    let remainder := Z.land value (Z.shiftl 1 shift - 1) in
    let halfway := Z.shiftl 1 (shift - 1) in
    if (halfway <? remainder) || ((remainder =? halfway) && (Z.land quotient 1 =? 1))
    then quotient + 1 else quotient.

Definition f64_to_f16_bits (bits : Z) : option Z :=
  let sign := Z.land (Z.shiftr bits 48) 0x8000 in
  let exp := Z.land (Z.shiftr bits 52) 0x7ff in
  let frac := Z.land bits 0xfffffffffffff in
  if exp =? 0x7ff then Some (if frac =? 0 then Z.lor sign 0x7c00 else 0x7e00)
  else if exp =? 0 then Some sign
  else
    let e := exp - 1023 in
    let mant := Z.lor (Z.shiftl 1 52) frac in
    if e <? -14 then
      let sub := round_shift_right mant (28 - e) in
      if sub =? 0 then Some sign
      else if 0x400 <=? sub then Some (Z.lor sign 0x0400)
      else Some (Z.lor sign sub)
    else if 15 <? e then None
    else
      let sig := round_shift_right mant 42 in
      if sig =? 0x800 then
        if 31 <=? e + 15 + 1 then None
        else Some (Z.lor (Z.lor sign (Z.shiftl (e + 15 + 1) 10)) (0x400 - 0x400))
      else Some (Z.lor (Z.lor sign (Z.shiftl (e + 15) 10)) (sig - 0x400)).

(** The pattern of [m * 2^e], for [0 < m < 2^53] and a normal result. *)
Definition dyadic_bits (m e : Z) : Z :=
  let k := Z.log2 m in
  Z.shiftl (k + e + 1023) 52 + (Z.shiftl m (52 - k) - Z.shiftl 1 52).

Definition f16_bits_to_f64 (bits : Z) : Z :=
  let sign := if Z.land bits 0x8000 =? 0 then 0 else Z.shiftl 1 63 in
  let exp := Z.land (Z.shiftr bits 10) 0x1f in
  let frac := Z.land bits 0x3ff in
  if exp =? 0 then
    if frac =? 0 then sign else sign + dyadic_bits frac (-24)
  else if exp =? 0x1f then
    if frac =? 0 then sign + 0x7ff0000000000000 else 0x7ff8000000000000
  else sign + dyadic_bits (0x400 + frac) (exp - 25).

(** [f32::from_bits(bits) as f64]. *)
Definition f32_bits_to_f64 (bits : Z) : Z :=
  let sign := if Z.land bits 0x80000000 =? 0 then 0 else Z.shiftl 1 63 in
  let exp := Z.land (Z.shiftr bits 23) 0xff in
  let frac := Z.land bits 0x7fffff in
  if exp =? 0 then
    if frac =? 0 then sign else sign + dyadic_bits frac (-149)
  else if exp =? 0xff then
    if frac =? 0 then sign + 0x7ff0000000000000
    else sign + Z.lor 0x7ff8000000000000 (Z.shiftl frac 29)
  else sign + dyadic_bits (0x800000 + frac) (exp - 150).

(** [value as f32] for a value that is not NaN: round to nearest, ties to even. *)
Definition f64_as_f32_bits (bits : Z) : Z :=
  let sign := Z.shiftl (Z.shiftr bits 63) 31 in
  let exp := Z.land (Z.shiftr bits 52) 0x7ff in
  let frac := Z.land bits 0xfffffffffffff in
  if exp =? 0x7ff then sign + 0x7f800000
  else if exp =? 0 then sign
  else
    let e := exp - 1023 in
    let mant := Z.lor (Z.shiftl 1 52) frac in
    if e <? -126 then sign + round_shift_right mant (29 + (-126 - e))
    else if 127 <? e then sign + 0x7f800000
    else sign + Z.shiftl (e + 127) 23 + (round_shift_right mant 29 - 0x800000).

Definition is_nan (bits : Z) : bool :=
  (Z.land (Z.shiftr bits 52) 0x7ff =? 0x7ff) && negb (Z.land bits 0xfffffffffffff =? 0).

Definition enc_float (bits : Z) : list byte :=
  if is_nan bits then [xf9; x7e; x00]
  else
    let wide :=
      let single := f64_as_f32_bits bits in
      if f32_bits_to_f64 single =? bits then xfa :: be_bytes 4 single
      else xfb :: be_bytes 8 bits in
    match f64_to_f16_bits bits with
    | Some half => if f16_bits_to_f64 half =? bits then xf9 :: be_bytes 2 half else wide
    | None => wide
    end.

(** ** Encoder *)

(** [sort_by_key]: a stable sort on the keys. *)
Fixpoint insert_by_key {A} (k : Z) (v : A) (l : list (Z * A)) : list (Z * A) :=
  match l with
  | [] => [(k, v)]
  | (k', v') :: l' =>
      if k <=? k' then (k, v) :: l else (k', v') :: insert_by_key k v l'
  end.
Fixpoint sort_by_key {A} (l : list (Z * A)) : list (Z * A) :=
  match l with
  | [] => []
  | (k, v) :: l' => insert_by_key k v (sort_by_key l')
  end.

Definition enc_entry (e : Z * list byte) : list byte := head 0 (as_u64 e.1) ++ e.2.

Fixpoint enc (v : Cbor) : list byte :=
  match v with
  | Int n => if 0 <=? n then head 0 n else head 1 (-1 - n)
  | Float x => enc_float x
  | Bytes b => head 2 (len b) ++ b
  | Text s => head 3 (len (bytes_of s)) ++ bytes_of s
  | Array a => head 4 (len a) ++ concat (map enc a)
  | Map m =>
      head 5 (len m) ++
      concat (map enc_entry (sort_by_key (map (fun e => (e.1, enc e.2)) m)))
  | Bool b => [if b then xf5 else xf4]
  | Null => [xf6]
  end.

Definition encode (v : Cbor) : list byte := enc v.

(** ** Decoder *)

Definition take_bytes (bs : list byte) (n : Z) : result (list byte * list byte) DecodeError :=
  if len bs <? n then Err Truncated
  else Ok (take (Z.to_nat n) bs, drop (Z.to_nat n) bs).

Definition read_arg (bs : list byte) (info : Z) : result (Z * list byte) DecodeError :=
  if info <? 24 then Ok (info, bs)
  else
    let wide (k : Z) (shorter : Z) :=
      try (b, rest) := take_bytes bs k in
      if be_value b <=? shorter then Err (NonCanonicalInt (be_value b))
      else Ok (be_value b, rest) in
    if info =? 24 then wide 1 23
    else if info =? 25 then wide 2 0xFF
    else if info =? 26 then wide 4 0xFFFF
    else if info =? 27 then wide 8 0xFFFFFFFF
    else Err (UnsupportedInfo info).

Section loops.
Variable dec1 : list byte -> result (Cbor * list byte) DecodeError.

(** [for _ in 0..n] over array items. *)
Fixpoint dec_items (fuel : nat) (n : Z) (bs : list byte)
    : result (list Cbor * list byte) DecodeError :=
  if n =? 0 then Ok ([], bs)
  else
    match fuel with
    | O => Err Truncated
    | S f =>
        try (v, bs1) := dec1 bs in
        try (vs, bs2) := dec_items f (n - 1) bs1 in
        Ok (v :: vs, bs2)
    end.

(** [for _ in 0..n] over map entries: the key is read and checked first. *)
Fixpoint dec_entries (fuel : nat) (n : Z) (seen : list Z) (bs : list byte)
    : result (list (Z * Cbor) * list byte) DecodeError :=
  if n =? 0 then Ok ([], bs)
  else
    match fuel with
    | O => Err Truncated
    | S f =>
        try (k, bs1) := dec1 bs in
        match k with
        | Int i =>
            if i <? 0 then Err (NegativeMapKey i)
            else if contains i seen then Err (DuplicateMapKey (KeyInt i))
            else
              try (v, bs2) := dec1 bs1 in
              try (vs, bs3) := dec_entries f (n - 1) (i :: seen) bs2 in
              Ok ((i, v) :: vs, bs3)
        | _ => Err NonIntegerMapKey
        end
    end.
End loops.

(** [room] is [limit - depth]: how many more arrays and maps may open. *)
Fixpoint dec (limit : Z) (room : nat) (bs : list byte)
    : result (Cbor * list byte) DecodeError :=
  match bs with
  | [] => Err Truncated
  | initial :: bs =>
      let major := Z.shiftr (Z_of_byte initial) 5 in
      let info := Z.land (Z_of_byte initial) 0x1f in
      if major =? 0 then
        try (n, rest) := read_arg bs info in
        if n <=? I64_MAX then Ok (Int n, rest) else Err IntOverflow
      else if major =? 1 then
        try (n, rest) := read_arg bs info in
        if n <=? I64_MAX then Ok (Int (-1 - n), rest) else Err IntOverflow
      else if major =? 2 then
        try (n, rest) := read_arg bs info in
        try (b, rest) := take_bytes rest n in
        Ok (Bytes b, rest)
      else if major =? 3 then
        try (n, rest) := read_arg bs info in
        try (b, rest) := take_bytes rest n in
        if valid_utf8 b then Ok (Text (string_of_list_byte b), rest) else Err InvalidUtf8
      else if major =? 4 then
        try (n, rest) := read_arg bs info in
        match room with
        | O => Err (TooDeep limit)
        | S room' =>
            try (a, rest) := dec_items (dec limit room') (length rest) n rest in
            Ok (Array a, rest)
        end
      else if major =? 5 then
        try (n, rest) := read_arg bs info in
        match room with
        | O => Err (TooDeep limit)
        | S room' =>
            try (m, rest) := dec_entries (dec limit room') (length rest) n [] rest in
            Ok (Map m, rest)
        end
      else if major =? 7 then
        if info =? 20 then Ok (Bool false, bs)
        else if info =? 21 then Ok (Bool true, bs)
        else if info =? 22 then Ok (Null, bs)
        else if info =? 25 then
          try (b, rest) := take_bytes bs 2 in Ok (Float (f16_bits_to_f64 (be_value b)), rest)
        else if info =? 26 then
          try (b, rest) := take_bytes bs 4 in Ok (Float (f32_bits_to_f64 (be_value b)), rest)
        else if info =? 27 then
          try (b, rest) := take_bytes bs 8 in Ok (Float (be_value b), rest)
        else Err (UnsupportedInfo info)
      else Err (UnsupportedMajor major)
  end.

(** The caller's [max_depth] is at least 1, as the source asserts. *)
Definition try_decode_with (data : list byte) (max_depth : Z) (max_encoded_len : option Z)
    : result Cbor DecodeError :=
  let limit := Z.min max_depth MAX_DEPTH_CEILING in
  if is_some_and max_encoded_len (fun bound => bound <? len data)
  then Err (TooLarge (len data) (unwrap_or max_encoded_len 0))
  else
    try (v, rest) := dec limit (Z.to_nat limit) data in
    match rest with [] => Ok v | _ => Err TrailingBytes end.

Definition try_decode (data : list byte) : result Cbor DecodeError :=
  try_decode_with data DEFAULT_MAX_DEPTH None.

Definition try_decode_max (data : list byte) (max_encoded_len : Z) : result Cbor DecodeError :=
  try_decode_with data DEFAULT_MAX_DEPTH (Some max_encoded_len).

Example enc_half : enc (Float 0x3ff0000000000000) = [xf9; x3c; x00].
Proof. reflexivity. Qed.
Example enc_single : enc (Float 0x40f86a0000000000) = [xfa; x47; xc3; x50; x00].
Proof. reflexivity. Qed.
Example enc_double : enc (Float 0x3ff199999999999a) = xfb :: [x3f; xf1; x99; x99; x99; x99; x99; x9a].
Proof. reflexivity. Qed.
Example dec_map_example :
  try_decode [xa2; x01; x18; x2a; x02; x82; xf5; x20]
  = Ok (Map [(1, Int 42); (2, Array [Bool true; Int (-1)])]).
Proof. reflexivity. Qed.
