(* ===== verification/CborFacts.v ===== *)
(** * Facts of the CBOR substrate

    Decoding inverts encoding on every tree of the wire subset, and a tree the
    decoder accepts re-encodes to the input exactly when its map keys ascend
    and it has no floats: the decoder checks neither. *)
From S2P Require Import Prelude Utf8 Cbor.

(** ** Induction over nested trees *)

Section Cbor_induction.
Variable P : Cbor -> Prop.
Hypothesis H_int : forall n, P (Int n).
Hypothesis H_float : forall x, P (Float x).
Hypothesis H_bytes : forall b, P (Bytes b).
Hypothesis H_text : forall s, P (Text s).
Hypothesis H_array : forall a, Forall P a -> P (Array a).
Hypothesis H_map : forall m, Forall (fun e => P e.2) m -> P (Map m).
Hypothesis H_bool : forall b, P (Bool b).
Hypothesis H_null : P Null.

Fixpoint Cbor_tree_ind (c : Cbor) : P c :=
  match c with
  | Int n => H_int n
  | Float x => H_float x
  | Bytes b => H_bytes b
  | Text s => H_text s
  | Array a =>
      H_array a ((fix go (l : list Cbor) : Forall P l :=
        match l with
        | [] => Forall_nil_2 P
        | x :: l' => Forall_cons_2 P x l' (Cbor_tree_ind x) (go l')
        end) a)
  | Map m =>
      H_map m ((fix go (l : list (Z * Cbor)) : Forall (fun e => P e.2) l :=
        match l with
        | [] => Forall_nil_2 _
        | e :: l' => Forall_cons_2 (fun e => P e.2) e l' (Cbor_tree_ind e.2) (go l')
        end) m)
  | Bool b => H_bool b
  | Null => H_null
  end.
End Cbor_induction.

(** ** The wire subset, nesting depth and canonical order *)

Definition key_ok (k : Z) : bool := (0 <=? k) && (k <=? I64_MAX).

Fixpoint no_dup_keys (l : list Z) : bool :=
  match l with [] => true | k :: l' => negb (contains k l') && no_dup_keys l' end.

(** Trees the encoder maps into the wire subset: [i64] integers, distinct
    non-negative keys, UTF-8 text; floats are not in this subset. *)
Fixpoint encodable (c : Cbor) : bool :=
  match c with
  | Int n => (I64_MIN <=? n) && (n <=? I64_MAX)
  | Float _ => false
  | Bytes b => len b <=? U64_MAX
  | Text s => (len (bytes_of s) <=? U64_MAX) && valid_utf8 (bytes_of s)
  | Array a => (len a <=? U64_MAX) && forallb encodable a
  | Map m =>
      (len m <=? U64_MAX) && no_dup_keys (map fst m) && forallb key_ok (map fst m)
      && forallb (fun e => encodable e.2) m
  | Bool _ | Null => true
  end.

Definition max_list (l : list nat) : nat := foldr Nat.max 0%nat l.

Fixpoint depth (c : Cbor) : nat :=
  match c with
  | Array a => S (max_list (map depth a))
  | Map m => S (max_list (map (fun e => depth e.2) m))
  | _ => 0%nat
  end.

(** The tree with every map in ascending key order. *)
Fixpoint canon (c : Cbor) : Cbor :=
  match c with
  | Array a => Array (map canon a)
  | Map m => Map (sort_by_key (map (fun e => (e.1, canon e.2)) m))
  | c => c
  end.

Fixpoint ascending (l : list Z) : bool :=
  match l with
  | k :: (k' :: _) as l' => (k <? k') && ascending l'
  | _ => true
  end.

(** No float, and every map in ascending key order. *)
Fixpoint ordered (c : Cbor) : bool :=
  match c with
  | Float _ => false
  | Array a => forallb ordered a
  | Map m => ascending (map fst m) && forallb (fun e => ordered e.2) m
  | _ => true
  end.

(** ** Sorting *)

Definition on_values {A B} (f : A -> B) (l : list (Z * A)) : list (Z * B) :=
  map (fun e => (e.1, f e.2)) l.

Lemma insert_by_key_on_values {A B} (f : A -> B) k v l :
  insert_by_key k (f v) (on_values f l) = on_values f (insert_by_key k v l).
Proof.
  induction l as [|[k' v'] l IH]; [done|]. cbn. case_match; [done|]. cbn. f_equal. apply IH.
Qed.

Lemma sort_by_key_on_values {A B} (f : A -> B) l :
  sort_by_key (on_values f l) = on_values f (sort_by_key l).
Proof.
  induction l as [|[k v] l IH]; [done|]. change (on_values f ((k, v) :: l)) with ((k, f v) :: on_values f l).
  cbn [sort_by_key]. rewrite IH. apply insert_by_key_on_values.
Qed.

Lemma insert_by_key_perm {A} k (v : A) l : insert_by_key k v l ≡ₚ (k, v) :: l.
Proof.
  induction l as [|[k' v'] l IH]; [done|]. cbn. case_match; [done|]. rewrite IH. constructor.
Qed.

Lemma sort_by_key_perm {A} (l : list (Z * A)) : sort_by_key l ≡ₚ l.
Proof. induction l as [|[k v] l IH]; [done|]. cbn. by rewrite insert_by_key_perm, IH. Qed.

Lemma ascending_cons k l : ascending (k :: l) = true ->
  ascending l = true /\ (forall k', k' ∈ l -> k < k').
Proof.
  revert k. induction l as [|k0 l IH]; intros k H; [split; [done|]; intros ? Hin; by apply elem_of_nil in Hin|].
  cbn in H. apply andb_true_iff in H as [H1 H2]. split; [done|].
  intros k' Hin. apply elem_of_cons in Hin as [->|Hin]; [lia|].
  destruct (IH k0 H2) as [_ Hlt]. specialize (Hlt _ Hin). lia.
Qed.

Lemma sort_by_key_ascending {A} (l : list (Z * A)) :
  ascending (map fst l) = true -> sort_by_key l = l.
Proof.
  induction l as [|[k v] l IH]; intros H; [done|]. cbn [map fst] in H.
  destruct (ascending_cons _ _ H) as [Ha Hlt]. cbn [sort_by_key]. rewrite IH by done.
  destruct l as [|[k' v'] l]; [done|]. cbn.
  specialize (Hlt k' ltac:(left)). by rewrite (proj2 (Z.leb_le k k')) by lia.
Qed.

Lemma no_dup_keys_spec l : no_dup_keys l = true <-> NoDup l.
Proof.
  induction l as [|k l IH]; cbn; [split; [constructor|done]|].
  rewrite andb_true_iff, negb_true_iff, IH, list.NoDup_cons. unfold contains.
  pose proof (bool_decide_eq_false (k ∈ l)). tauto.
Qed.

(** ** Heads *)

Lemma fold_be_bytes k n acc :
  fold_left (fun acc b => acc * 256 + Z_of_byte b) (be_bytes k n) acc
  = acc * 256 ^ Z.of_nat k + n mod 256 ^ Z.of_nat k.
Proof.
  revert acc. induction k as [|k IH]; intros acc; cbn [be_bytes fold_left].
  { rewrite Z.mod_1_r. lia. }
  rewrite IH, Z_of_byte_of_Z, Nat2Z.inj_succ, Z.pow_succ_r by lia.
  rewrite (Z.mul_comm 256 (256 ^ Z.of_nat k)), Z.rem_mul_r by lia. ring.
Qed.

Lemma be_value_bytes k n : 0 <= n < 256 ^ Z.of_nat k -> be_value (be_bytes k n) = n.
Proof. intros H. unfold be_value. rewrite fold_be_bytes, Z.mod_small; lia. Qed.

Lemma length_be_bytes k n : length (be_bytes k n) = k.
Proof. induction k; cbn; congruence. Qed.

Lemma lead_byte_all :
  forallb (fun m => forallb (fun k =>
    Z_of_byte (byte_of_Z (Z.lor (Z.shiftl m 5) k)) =? m * 32 + k) (seqZ 0 32)) (seqZ 0 8) = true.
Proof. vm_compute. reflexivity. Qed.

Lemma lead_byte m k : 0 <= m < 8 -> 0 <= k < 32 ->
  Z_of_byte (byte_of_Z (Z.lor (Z.shiftl m 5) k)) = m * 32 + k.
Proof.
  intros Hm Hk. pose proof lead_byte_all as H.
  rewrite forallb_elem in H. specialize (H m (proj2 (elem_of_seqZ 0 8 m) ltac:(lia))). cbn beta in H.
  rewrite forallb_elem in H. specialize (H k (proj2 (elem_of_seqZ 0 32 k) ltac:(lia))). cbn beta in H.
  lia.
Qed.

Lemma lead_major m k : 0 <= k < 32 -> Z.shiftr (m * 32 + k) 5 = m.
Proof.
  intros Hk. rewrite Z.shiftr_div_pow2 by lia. change (2 ^ 5) with 32.
  rewrite Z.add_comm, Z.div_add, Z.div_small by lia. lia.
Qed.

Lemma lead_info m k : 0 <= k < 32 -> Z.land (m * 32 + k) 0x1f = k.
Proof.
  intros Hk. change 0x1f with (Z.ones 5). rewrite Z.land_ones by lia. change (2 ^ 5) with 32.
  rewrite Z.add_comm, Z.mod_add, Z.mod_small by lia. done.
Qed.

Lemma take_bytes_app (a rest : list byte) n : n = len a -> take_bytes (a ++ rest) n = Ok (a, rest).
Proof.
  intros ->. unfold take_bytes. rewrite length_app.
  rewrite (proj2 (Z.ltb_ge _ _)) by lia. rewrite Nat2Z.id, take_app_length, drop_app_length. done.
Qed.

Lemma take_bytes_Ok bs n a rest : 0 <= n -> take_bytes bs n = Ok (a, rest) ->
  bs = a ++ rest /\ len a = n.
Proof.
  unfold take_bytes. intros Hn H. case_match eqn:E; [done|]. apply Z.ltb_ge in E. simplify_eq.
  rewrite take_drop, length_take. split; [done|]. lia.
Qed.

(** A head splits into its lead byte and its argument bytes, which
    [read_arg] reads back. *)
Lemma head_read major n : 0 <= major < 8 -> 0 <= n <= U64_MAX ->
  exists b args, head major n = b :: args
    /\ Z.shiftr (Z_of_byte b) 5 = major
    /\ forall rest, read_arg (args ++ rest) (Z.land (Z_of_byte b) 0x1f) = Ok (n, rest).
Proof.
  intros Hm Hn. unfold head, read_arg.
  repeat (case_match; [|]);
    eexists _, _; (split; [reflexivity|]);
    rewrite lead_byte, lead_major, lead_info by lia; (split; [done|]); intros rest.
  all: try (rewrite (proj2 (Z.ltb_lt _ 24)) by lia; done).
  all: cbn -[take_bytes be_value be_bytes].
  all: rewrite take_bytes_app by (rewrite length_be_bytes; lia).
  all: rewrite be_value_bytes by (cbn; lia).
  all: rewrite (proj2 (Z.leb_gt _ _)) by lia; done.
Qed.

Lemma length_head major n : (1 <= length (head major n))%nat.
Proof. unfold head. repeat case_match; cbn; lia. Qed.

(** ** Decoding inverts encoding *)

Lemma enc_nonempty c : (1 <= length (enc c))%nat.
Proof.
  destruct c; cbn [enc]; rewrite ?length_app; try (pose proof (length_head 2 (len b)));
    try (pose proof (length_head 3 (len (bytes_of s)))); try (pose proof (length_head 4 (len a)));
    try (pose proof (length_head 5 (len m))); try lia.
  - destruct (0 <=? n); apply length_head.
  - unfold enc_float. repeat case_match; cbn; lia.
  - cbn. lia.
  - cbn. lia.
Qed.

Lemma concat_enc_length {A} (f : A -> list byte) (l : list A) :
  (forall x, x ∈ l -> (1 <= length (f x))%nat) -> (length l <= length (concat (map f l)))%nat.
Proof.
  induction l as [|x l IH]; intros H; [done|]. cbn. rewrite length_app.
  pose proof (H x ltac:(left)). assert (length l <= length (concat (map f l)))%nat by
    (apply IH; intros; apply H; by right). lia.
Qed.

(** What the decoder must do on one tree, whatever follows it. *)
Definition decodes (limit : Z) (room : nat) (c : Cbor) : Prop :=
  forall rest, dec limit room (enc c ++ rest) = Ok (canon c, rest).

Lemma dec_items_enc limit room a rest fuel :
  Forall (decodes limit room) a -> (length a <= fuel)%nat ->
  dec_items (dec limit room) fuel (len a) (concat (map enc a) ++ rest)
  = Ok (map canon a, rest).
Proof.
  intros Ha. revert fuel. induction Ha as [|c a Hc Ha IH]; intros fuel Hf.
  { by destruct fuel. }
  destruct fuel as [|f]; [cbn in Hf; lia|]. cbn [dec_items map concat length].
  rewrite (proj2 (Z.eqb_neq _ _)) by lia. rewrite <- app_assoc, Hc.
  replace (Z.of_nat (S (length a)) - 1) with (len a) by lia.
  rewrite IH by (cbn in Hf; lia). done.
Qed.

Lemma enc_key k : key_ok k = true -> head 0 (as_u64 k) = enc (Int k).
Proof.
  unfold key_ok. intros Hk. cbn. rewrite as_u64_id by lia. by rewrite (proj2 (Z.leb_le 0 k)) by lia.
Qed.

Lemma dec_int limit room n rest : I64_MIN <= n <= I64_MAX ->
  dec limit room (enc (Int n) ++ rest) = Ok (Int n, rest).
Proof.
  intros Hn. cbn [enc]. destruct (Z.leb_spec 0 n) as [H|H].
  - destruct (head_read 0 n ltac:(lia) ltac:(lia)) as (b & args & -> & Hmaj & Hread).
    destruct room; cbn -[read_arg]; rewrite Hmaj; cbn -[read_arg]; rewrite Hread;
      by rewrite (proj2 (Z.leb_le n _)) by lia.
  - destruct (head_read 1 (-1 - n) ltac:(lia) ltac:(lia)) as (b & args & -> & Hmaj & Hread).
    destruct room; cbn -[read_arg]; rewrite Hmaj; cbn -[read_arg]; rewrite Hread;
      rewrite (proj2 (Z.leb_le (-1 - n) _)) by lia; do 3 f_equal; lia.
Qed.

Definition enc_pair (e : Z * Cbor) : list byte := head 0 (as_u64 e.1) ++ enc e.2.

Lemma enc_map_sorted m :
  enc (Map m) = head 5 (len m) ++ concat (map enc_pair (sort_by_key m)).
Proof.
  cbn [enc]. f_equal. f_equal. change (map (fun e => (e.1, enc e.2)) m) with (on_values enc m).
  rewrite sort_by_key_on_values. unfold on_values. by rewrite map_map.
Qed.

Lemma dec_entries_enc limit room m rest : forall fuel seen,
  Forall (fun e => decodes limit room e.2) m -> forallb key_ok (map fst m) = true ->
  NoDup (map fst m) -> (forall k, k ∈ map fst m -> k ∉ seen) -> (length m <= fuel)%nat ->
  dec_entries (dec limit room) fuel (len m) seen (concat (map enc_pair m) ++ rest)
  = Ok (on_values canon m, rest).
Proof.
  induction m as [|[k c] m IH]; intros fuel seen Hm Hk Hnd Hseen Hf.
  { by destruct fuel. }
  destruct fuel as [|f]; [cbn in Hf; lia|]. inversion Hm as [|?? Hc Hm']; subst. cbn in Hc.
  cbn [map fst forallb] in Hk. apply andb_true_iff in Hk as [Hk Hks].
  cbn [map fst] in Hnd. apply list.NoDup_cons in Hnd as [Hni Hnd].
  cbn [dec_entries map concat length]. rewrite (proj2 (Z.eqb_neq _ _)) by lia.
  unfold enc_pair at 1. cbn [fst snd]. rewrite <- !app_assoc, enc_key by done.
  assert (0 <= k <= I64_MAX) as Hkr by (unfold key_ok in Hk; lia).
  rewrite dec_int by lia. rewrite (proj2 (Z.ltb_ge k 0)) by lia.
  assert (contains k seen = false) as ->.
  { unfold contains. apply bool_decide_eq_false, Hseen. left. }
  rewrite Hc. replace (Z.of_nat (S (length m)) - 1) with (len m) by lia.
  rewrite IH; [done|done|done|done| |cbn in Hf; lia].
  intros k' Hk'. rewrite elem_of_cons. intros [->|Hin]; [done|].
  apply (Hseen k'); [by right|done].
Qed.

Lemma max_list_le l n x : (max_list l <= n)%nat -> x ∈ l -> (x <= n)%nat.
Proof.
  induction l as [|y l IH]; intros Hn Hx; [by apply elem_of_nil in Hx|].
  cbn in Hn. apply elem_of_cons in Hx as [->|Hx]; [lia|]. apply IH; [|done]. unfold max_list in *. lia.
Qed.

Lemma dec_enc c : encodable c = true -> forall limit room, (depth c <= room)%nat -> decodes limit room c.
Proof.
  induction c as [n|x|b|s|a IH|m IH|b|] using Cbor_tree_ind; intros Hw limit room Hd rest;
    cbn [encodable] in Hw; try done.
  - apply dec_int. lia.
  - cbn [enc]. destruct (head_read 2 (len b) ltac:(lia) ltac:(lia)) as (h & args & -> & Hmaj & Hread).
    rewrite <- app_assoc. destruct room; cbn -[read_arg take_bytes]; rewrite Hmaj; cbn -[read_arg take_bytes];
      rewrite Hread, take_bytes_app; done.
  - cbn [enc]. apply andb_true_iff in Hw as [Hl Hu].
    destruct (head_read 3 (len (bytes_of s)) ltac:(lia) ltac:(lia)) as (h & args & -> & Hmaj & Hread).
    rewrite <- app_assoc. destruct room; cbn -[read_arg take_bytes valid_utf8]; rewrite Hmaj;
      cbn -[read_arg take_bytes valid_utf8]; rewrite Hread, take_bytes_app, Hu by done;
      unfold bytes_of; by rewrite string_of_list_byte_of_string.
  - cbn [depth] in Hd. destruct room as [|room]; [lia|]. apply andb_true_iff in Hw as [Hl Hw].
    cbn [enc]. destruct (head_read 4 (len a) ltac:(lia) ltac:(lia)) as (h & args & -> & Hmaj & Hread).
    rewrite <- app_assoc. cbn -[read_arg dec_items]. rewrite Hmaj. cbn -[read_arg dec_items].
    rewrite Hread, dec_items_enc; [done| |].
    + rewrite forallb_elem in Hw. rewrite list.Forall_forall in IH |- *. intros c Hc.
      apply IH; [done|by apply Hw|]. apply (max_list_le (map depth a)); [lia|].
      by apply (list_elem_of_fmap_2 depth).
    + rewrite length_app. pose proof (concat_enc_length enc a ltac:(intros; apply enc_nonempty)). lia.
  - cbn [depth] in Hd. destruct room as [|room]; [lia|].
    apply andb_true_iff in Hw as [Hw Hv]. apply andb_true_iff in Hw as [Hw Hk].
    apply andb_true_iff in Hw as [Hl Hnd]. apply no_dup_keys_spec in Hnd.
    rewrite enc_map_sorted.
    destruct (head_read 5 (len m) ltac:(lia) ltac:(lia)) as (h & args & -> & Hmaj & Hread).
    rewrite <- app_assoc. cbn -[read_arg dec_entries]. rewrite Hmaj. cbn -[read_arg dec_entries].
    rewrite Hread. pose proof (sort_by_key_perm m) as Hp.
    rewrite <- (Permutation_length Hp) at 1.
    rewrite dec_entries_enc.
    + do 3 f_equal. change (map (fun e => (e.1, canon e.2)) m) with (on_values canon m).
      by rewrite sort_by_key_on_values.
    + rewrite Hp. rewrite forallb_elem in Hv. rewrite list.Forall_forall in IH |- *. intros e He.
      apply IH; [done|by apply Hv|].
      apply (max_list_le (map (fun e => depth e.2) m)); [lia|].
      by apply (list_elem_of_fmap_2 (fun e : Z * Cbor => depth e.2)).
    + rewrite forallb_elem in Hk |- *. intros k Hkin. apply Hk. by rewrite <- Hp.
    + by rewrite Hp.
    + intros k _. apply not_elem_of_nil.
    + rewrite length_app. pose proof (concat_enc_length enc_pair (sort_by_key m)) as Hc.
      enough (length (sort_by_key m) <= length (concat (map enc_pair (sort_by_key m))))%nat by lia.
      apply Hc. intros e _. unfold enc_pair. rewrite length_app. pose proof (enc_nonempty e.2). lia.
  - destruct room, b; done.
  - destruct room; done.
Qed.

Lemma canon_ordered c : ordered c = true -> canon c = c.
Proof.
  induction c as [n|x|b|s|a IH|m IH|b|] using Cbor_tree_ind; intros Ho; try done; cbn in *.
  - f_equal. rewrite forallb_elem in Ho. rewrite list.Forall_forall in IH.
    induction a as [|c a IHa]; [done|]. cbn. f_equal.
    + apply IH; [left|]. apply Ho. left.
    + apply IHa; intros x Hx; [apply IH|apply Ho]; by right.
  - apply andb_true_iff in Ho as [Ha Ho].
    change (map (fun e => (e.1, canon e.2)) m) with (on_values canon m).
    rewrite sort_by_key_on_values, sort_by_key_ascending by done. f_equal.
    rewrite forallb_elem in Ho. rewrite list.Forall_forall in IH. clear Ha.
    induction m as [|[k c] m IHm]; [done|]. cbn. f_equal.
    + f_equal. apply (IH (k, c)); [left|]. apply (Ho (k, c)). left.
    + apply IHm; intros x Hx; [apply IH|apply Ho]; by right.
Qed.

(** ** Accepted input re-encodes to itself when its keys ascend *)

Lemma be_value_acc l acc :
  fold_left (fun acc b => acc * 256 + Z_of_byte b) l acc = acc * 256 ^ len l + be_value l.
Proof.
  unfold be_value. revert acc. induction l as [|b l IH]; intros acc; [cbn; lia|].
  cbn [fold_left]. rewrite IH, (IH (0 * 256 + Z_of_byte b)). cbn [length].
  rewrite Nat2Z.inj_succ, Z.pow_succ_r by lia. ring.
Qed.

Lemma be_value_cons b l : be_value (b :: l) = Z_of_byte b * 256 ^ len l + be_value l.
Proof. unfold be_value at 1. cbn [fold_left]. rewrite be_value_acc. f_equal. Qed.

Lemma be_value_range l : 0 <= be_value l < 256 ^ len l.
Proof.
  induction l as [|b l IH]; [cbn; lia|]. rewrite be_value_cons. cbn [length].
  rewrite Nat2Z.inj_succ, Z.pow_succ_r by lia. pose proof (Z_of_byte_range b). nia.
Qed.

Lemma be_bytes_high k j a n : (k <= j)%nat -> be_bytes k (a * 256 ^ Z.of_nat j + n) = be_bytes k n.
Proof.
  revert j. induction k as [|k IH]; intros j Hj; [done|]. cbn [be_bytes]. rewrite IH by lia. f_equal.
  unfold byte_of_Z. f_equal. f_equal. f_equal.
  replace (Z.of_nat j) with ((Z.of_nat j - Z.of_nat k - 1) + 1 + Z.of_nat k) by lia.
  rewrite !Z.pow_add_r, Z.mul_assoc, Z.div_add_l by lia.
  rewrite Z.pow_1_r, Z.mul_assoc, Z.add_comm, Z.mod_add by lia. done.
Qed.

Lemma be_bytes_value l : be_bytes (length l) (be_value l) = l.
Proof.
  induction l as [|b l IH]; [done|]. cbn [length be_bytes]. rewrite be_value_cons.
  rewrite be_bytes_high, IH by lia. f_equal.
  pose proof (be_value_range l). rewrite Z.div_add_l, Z.div_small by lia.
  rewrite Z.add_0_r. apply byte_of_Z_of_byte.
Qed.

Lemma lead_split (b : byte) :
  Z_of_byte b = Z.shiftr (Z_of_byte b) 5 * 32 + Z.land (Z_of_byte b) 0x1f
  /\ 0 <= Z.shiftr (Z_of_byte b) 5 < 8 /\ 0 <= Z.land (Z_of_byte b) 0x1f < 32.
Proof.
  pose proof (Z_of_byte_range b). change 0x1f with (Z.ones 5).
  rewrite Z.land_ones, Z.shiftr_div_pow2 by lia. change (2 ^ 5) with 32.
  pose proof (Z.div_mod (Z_of_byte b) 32). pose proof (Z.mod_pos_bound (Z_of_byte b) 32). lia.
Qed.

Lemma lead_byte_of (b : byte) m i : Z.shiftr (Z_of_byte b) 5 = m -> Z.land (Z_of_byte b) 0x1f = i ->
  byte_of_Z (Z.lor (Z.shiftl m 5) i) = b.
Proof.
  intros Hm Hi. destruct (lead_split b) as (Hs & Hmr & Hir). rewrite Hm in *. rewrite Hi in *.
  rewrite <- (byte_of_Z_of_byte b), Hs, <- (lead_byte m i) by lia.
  by rewrite byte_of_Z_of_byte.
Qed.

Lemma head_wide (b : byte) m i k (l : list byte) shorter :
  Z.shiftr (Z_of_byte b) 5 = m -> Z.land (Z_of_byte b) 0x1f = i -> length l = k ->
  shorter < be_value l ->
  (i, k, shorter) ∈ [(24, 1%nat, 23); (25, 2%nat, 0xFF); (26, 4%nat, 0xFFFF); (27, 8%nat, 0xFFFFFFFF)] ->
  b :: l = head m (be_value l).
Proof.
  intros Hm Hi Hk Hs Hin. pose proof (be_value_range l) as Hr. rewrite Hk in Hr.
  pose proof (lead_byte_of b m i Hm Hi) as Hb. pose proof (be_bytes_value l) as Hl. rewrite Hk in Hl. clear Hk.
  unfold head. repeat (apply elem_of_cons in Hin as [Hin|Hin]); [..|by apply elem_of_nil in Hin];
    simplify_eq; cbn -[be_value be_bytes Z_of_byte] in Hr.
  all: repeat (rewrite (proj2 (Z.ltb_ge _ _)) by lia); try (rewrite (proj2 (Z.ltb_lt _ _)) by lia).
  all: rewrite Hl; f_equal; by rewrite Hb.
Qed.

Definition wide_forms : list (Z * nat * Z) :=
  [(24, 1%nat, 23); (25, 2%nat, 0xFF); (26, 4%nat, 0xFFFF); (27, 8%nat, 0xFFFFFFFF)].

Lemma wide_sound (b : byte) bs k shorter n rest :
  (Z.land (Z_of_byte b) 0x1f, Z.to_nat k, shorter) ∈ wide_forms ->
  (try (b, rest) := take_bytes bs k in
   if be_value b <=? shorter then Err (NonCanonicalInt (be_value b)) else Ok (be_value b, rest))
  = Ok (n, rest) ->
  b :: bs = head (Z.shiftr (Z_of_byte b) 5) n ++ rest /\ 0 <= n <= U64_MAX.
Proof.
  intros Hin Hk. destruct (take_bytes bs k) as [[l r]|] eqn:Et; [|done].
  case_match eqn:Es; [done|]. apply Z.leb_gt in Es. simplify_eq.
  assert (0 <= k <= 8) by (unfold wide_forms in Hin;
    repeat (apply elem_of_cons in Hin as [Hin|Hin]); [..|by apply elem_of_nil in Hin]; injection Hin; lia).
  apply take_bytes_Ok in Et as [-> Hl]; [|lia]. pose proof (be_value_range l) as Hr.
  rewrite <- (head_wide b (Z.shiftr (Z_of_byte b) 5) (Z.land (Z_of_byte b) 0x1f) (Z.to_nat k) l shorter);
    [|done|done|lia|done|done].
  split; [done|]. rewrite Hl in Hr.
  assert (256 ^ k <= 256 ^ 8) by (apply Z.pow_le_mono_r; lia). lia.
Qed.

Lemma read_arg_sound (b : byte) bs n rest :
  read_arg bs (Z.land (Z_of_byte b) 0x1f) = Ok (n, rest) ->
  b :: bs = head (Z.shiftr (Z_of_byte b) 5) n ++ rest /\ 0 <= n <= U64_MAX.
Proof.
  intros H. destruct (lead_split b) as (_ & _ & Hi). unfold read_arg in H.
  case_match eqn:E24.
  { simplify_eq. unfold head. rewrite E24, (lead_byte_of b _ _ eq_refl eq_refl).
    split; [done|lia]. }
  repeat match type of H with
  | (if ?i =? ?c then _ else _) = _ =>
      destruct (Z.eqb_spec i c) as [E|_]; [eapply wide_sound; [|exact H]; rewrite E; unfold wide_forms; set_solver +|]
  end.
  done.
Qed.

(** ** Soundness of the decoder on ordered trees *)

Lemma dec_int_range limit room bs n rest : dec limit room bs = Ok (Int n, rest) -> in_i64 n.
Proof.
  unfold in_i64. destruct bs as [|b bs]; destruct room; cbn -[read_arg take_bytes]; intros H; try done;
    repeat (case_match; try done); simplify_eq;
    match goal with Hr : read_arg _ _ = Ok _ |- _ => apply read_arg_sound in Hr as [_ ?] end; lia.
Qed.

Definition reencodes (limit : Z) (room : nat) : Prop := forall bs v rest,
  dec limit room bs = Ok (v, rest) -> ordered v = true -> bs = enc v ++ rest.

Lemma dec_items_sound limit room : reencodes limit room -> forall fuel n bs a rest, 0 <= n ->
  dec_items (dec limit room) fuel n bs = Ok (a, rest) -> forallb ordered a = true ->
  bs = concat (map enc a) ++ rest /\ len a = n.
Proof.
  intros Hdec. induction fuel as [|f IH]; intros n bs a rest Hn H Ho; cbn [dec_items] in H;
    destruct (Z.eqb_spec n 0) as [->|Hn0]; simplify_eq; try done.
  destruct (dec limit room bs) as [[v bs1]|] eqn:E1; [|done].
  destruct (dec_items _ f (n - 1) bs1) as [[vs bs2]|] eqn:E2; [|done]. simplify_eq.
  cbn [forallb] in Ho. apply andb_true_iff in Ho as [Hv Hvs].
  pose proof (Hdec _ _ _ E1 Hv) as Eb. apply IH in E2 as [-> Hl]; [|lia|done].
  cbn. rewrite <- app_assoc, <- Eb. split; [done|]. lia.
Qed.

Lemma dec_entries_sound limit room : reencodes limit room -> forall fuel n seen bs m rest, 0 <= n ->
  dec_entries (dec limit room) fuel n seen bs = Ok (m, rest) ->
  forallb (fun e => ordered e.2) m = true ->
  bs = concat (map enc_pair m) ++ rest /\ len m = n.
Proof.
  intros Hdec. induction fuel as [|f IH]; intros n seen bs m rest Hn H Ho; cbn [dec_entries] in H;
    destruct (Z.eqb_spec n 0) as [->|Hn0]; simplify_eq; try done.
  destruct (dec limit room bs) as [[[i| | | | | | | ] bs1]|] eqn:E1; try done.
  destruct (Z.ltb_spec i 0); [done|]. destruct (contains i seen); [done|].
  destruct (dec limit room bs1) as [[v bs2]|] eqn:E2; [|done].
  destruct (dec_entries _ f (n - 1) _ bs2) as [[vs bs3]|] eqn:E3; [|done]. simplify_eq.
  cbn [forallb] in Ho. apply andb_true_iff in Ho as [Hv Hvs].
  pose proof (dec_int_range _ _ _ _ _ E1) as Hr. unfold in_i64 in Hr.
  pose proof (Hdec _ _ _ E1 eq_refl) as Ek. pose proof (Hdec _ _ _ E2 Hv) as Ev.
  apply IH in E3 as [-> Hl]; [|lia|done].
  cbn [map concat length]. unfold enc_pair at 1. cbn [fst snd].
  rewrite enc_key by (unfold key_ok; lia). rewrite <- !app_assoc, <- Ev, <- Ek. split; [done|]. lia.
Qed.

Lemma simple_byte (b : byte) info : Z.shiftr (Z_of_byte b) 5 = 7 -> Z.land (Z_of_byte b) 0x1f = info ->
  b = byte_of_Z (Z.lor (Z.shiftl 7 5) info).
Proof. intros Hm Hi. symmetry. by apply lead_byte_of. Qed.

Lemma enc_map_ordered m : ascending (map fst m) = true ->
  enc (Map m) = head 5 (len m) ++ concat (map enc_pair m).
Proof. intros Ha. by rewrite enc_map_sorted, sort_by_key_ascending. Qed.

Lemma dec_sound limit room : reencodes limit room.
Proof.
  induction room as [|room IH]; intros bs v rest H Ho; destruct bs as [|b bs]; try done;
    destruct (lead_split b) as (_ & Hm & _);
    cbn -[read_arg take_bytes be_value valid_utf8 dec_items dec_entries] in H;
    repeat match type of H with
    | (if Z.shiftr _ 5 =? ?c then _ else _) = _ => destruct (Z.eqb_spec (Z.shiftr (Z_of_byte b) 5) c) as [Em|?]
    end; try done.
  all: repeat (case_match; try done); simplify_eq; try done.
  all: try match goal with Hr : read_arg _ _ = Ok _ |- _ =>
    apply read_arg_sound in Hr as [Hr Hn]; rewrite Em in Hr; rewrite Hr end.
  all: try match goal with Ht : take_bytes _ _ = Ok _ |- _ => apply take_bytes_Ok in Ht as [-> Hl]; [|lia] end.
  all: try match goal with Hi : (Z.land _ 0x1f =? _) = true |- _ =>
    apply Z.eqb_eq, (simple_byte _ _ Em) in Hi; by rewrite Hi end.
  all: try match goal with Hi : dec_entries _ _ _ _ _ = Ok (?m, _) |- _ =>
    cbn in Ho; apply andb_true_iff in Ho as [Ha Ho]; rewrite enc_map_ordered by done;
    apply (dec_entries_sound _ _ IH) in Hi as [-> Hl]; [|lia|done] end.
  all: cbn [enc].
  all: try match goal with Hi : dec_items _ _ _ _ = Ok _ |- _ =>
    apply (dec_items_sound _ _ IH) in Hi as [-> Hl]; [|lia|done] end.
  all: try (rewrite (proj2 (Z.leb_le 0 _)) by lia; done).
  all: try (rewrite (proj2 (Z.leb_gt 0 _)) by lia; do 2 f_equal; lia).
  all: unfold bytes_of; rewrite ?list_byte_of_string_of_list_byte, Hl, <- app_assoc; done.
Qed.

(** ** The depth bound *)

Lemma max_list_bound l n : (forall x, x ∈ l -> (x <= n)%nat) -> (max_list l <= n)%nat.
Proof.
  induction l as [|y l IH]; intros H; cbn; [lia|]. pose proof (H y ltac:(left)).
  assert (max_list l <= n)%nat by (apply IH; intros; apply H; by right). unfold max_list in *. lia.
Qed.

Lemma dec_items_depth (dec1 : list byte -> result (Cbor * list byte) DecodeError) d :
  (forall bs v rest, dec1 bs = Ok (v, rest) -> (depth v <= d)%nat) ->
  forall fuel n bs a rest, dec_items dec1 fuel n bs = Ok (a, rest) -> (max_list (map depth a) <= d)%nat.
Proof.
  intros Hd. induction fuel as [|f IH]; intros n bs a rest H; cbn [dec_items] in H;
    repeat (case_match; try done); simplify_eq; try (cbn; lia).
  match goal with H1 : dec1 _ = Ok _ |- _ => apply Hd in H1 end.
  match goal with H2 : dec_items _ _ _ _ = Ok _ |- _ => apply IH in H2 end. cbn. unfold max_list in *. lia.
Qed.

Lemma dec_entries_depth (dec1 : list byte -> result (Cbor * list byte) DecodeError) d :
  (forall bs v rest, dec1 bs = Ok (v, rest) -> (depth v <= d)%nat) ->
  forall fuel n seen bs m rest, dec_entries dec1 fuel n seen bs = Ok (m, rest) ->
  (max_list (map (fun e => depth e.2) m) <= d)%nat.
Proof.
  intros Hd. induction fuel as [|f IH]; intros n seen bs m rest H; cbn [dec_entries] in H;
    repeat (case_match; try done); simplify_eq; try (cbn; lia).
  repeat match goal with H1 : dec1 _ = Ok _ |- _ => apply Hd in H1 end.
  match goal with H2 : dec_entries _ _ _ _ _ = Ok _ |- _ => apply IH in H2 end. cbn. unfold max_list in *. lia.
Qed.

Lemma dec_depth limit room : forall bs v rest, dec limit room bs = Ok (v, rest) -> (depth v <= room)%nat.
Proof.
  induction room as [|room IH]; intros bs v rest H; destruct bs as [|b bs]; try done;
    cbn -[read_arg take_bytes be_value valid_utf8 dec_items dec_entries] in H;
    repeat (case_match; try done); simplify_eq; cbn [depth]; try lia.
  - match goal with H1 : dec_items _ _ _ _ = Ok _ |- _ => apply (dec_items_depth _ _ IH) in H1 end. lia.
  - match goal with H1 : dec_entries _ _ _ _ _ = Ok _ |- _ => apply (dec_entries_depth _ _ IH) in H1 end. lia.
Qed.

(** ** The coder *)

Lemma try_decode_with_Ok data max_depth bound v : try_decode_with data max_depth bound = Ok v ->
  exists limit room, dec limit room data = Ok (v, []) /\ room = Z.to_nat (Z.min max_depth MAX_DEPTH_CEILING).
Proof.
  unfold try_decode_with. intros H. exists (Z.min max_depth MAX_DEPTH_CEILING). cbv zeta in H.
  destruct (is_some_and _ _); [done|]. eexists. split; [|reflexivity].
  destruct (dec _ _ data) as [[v' [|b rest]]|]; [|done|done]. by injection H as ->.
Qed.

Lemma try_decode_eq data : try_decode data = try_decode_with data DEFAULT_MAX_DEPTH None.
Proof. reflexivity. Qed.

(** C38: decoding inverts encoding: a tree of [i64] integers, UTF-8 text and distinct non-negative
    keys, nested at most 32 deep, comes back with its map entries in ascending key order. *)
Theorem decode_encode c : encodable c = true -> (depth c <= 32)%nat -> try_decode (encode c) = Ok (canon c).
Proof.
  intros He Hd. unfold try_decode, try_decode_with, encode, DEFAULT_MAX_DEPTH, MAX_DEPTH_CEILING, is_some_and.
  change (Z.to_nat (Z.min 32 128)) with 32%nat.
  pose proof (dec_enc c He (Z.min 32 128) 32%nat Hd []) as H. rewrite app_nil_r in H. by rewrite H.
Qed.

Lemma decode_encode_witness :
  try_decode (encode (Map [(7, Text "hi"%string); (2, Array [Int (-3); Null])]))
  = Ok (Map [(2, Array [Int (-3); Null]); (7, Text "hi"%string)]).
Proof.
  apply (decode_encode (Map [(7, Text "hi"%string); (2, Array [Int (-3); Null])])).
  - vm_compute. reflexivity.
  - cbn. lia.
Defined.

(** The wire form is unique: bytes that decode to a tree with ascending keys and no floats are
    that tree's encoding, so no two byte strings mean the same ordered tree. *)
Theorem decode_reencode data v : try_decode data = Ok v -> ordered v = true -> encode v = data.
Proof.
  intros H Ho. rewrite try_decode_eq in H. destruct (try_decode_with_Ok _ _ _ _ H) as (limit & room & Hd & _).
  rewrite (dec_sound _ _ _ _ _ Hd Ho). symmetry. apply app_nil_r.
Qed.

Lemma decode_reencode_witness : encode (Map [(1, Int 500); (2, Bool true)]) = [xa2; x01; x19; x01; xf4; x02; xf5].
Proof. apply decode_reencode; vm_compute; reflexivity. Defined.

(** Re-encoding does not give the bytes back in general: the decoder also accepts map keys out
    of order, and floats wider than they need to be. *)
Theorem decode_not_canonical :
  (exists data v, try_decode data = Ok v /\ encodable v = true /\ encode v <> data)
  /\ (exists data x, try_decode data = Ok (Float x) /\ encode (Float x) <> data).
Proof.
  split.
  - exists [xa2; x02; x00; x01; x00], (Map [(2, Int 0); (1, Int 0)]). by vm_compute.
  - exists (xfb :: [x3f; xf0; x00; x00; x00; x00; x00; x00]), 0x3ff0000000000000. by vm_compute.
Qed.

(** decoding is bounded: whatever the input, an accepted tree nests no deeper than the caller's
    bound and never deeper than the ceiling of 128. *)
Theorem decode_depth data max_depth bound v : try_decode_with data max_depth bound = Ok v ->
  Z.of_nat (depth v) <= Z.max 0 (Z.min max_depth MAX_DEPTH_CEILING).
Proof.
  intros H. destruct (try_decode_with_Ok _ _ _ _ H) as (limit & room & Hd & ->). apply dec_depth in Hd. lia.
Qed.

Lemma decode_depth_witness : Z.of_nat (depth (Array [Array [Int 1]])) <= Z.max 0 (Z.min 2 MAX_DEPTH_CEILING).
Proof. apply (decode_depth [x81; x81; x01] 2 None). vm_compute. reflexivity. Defined.
