(* ===== verification/Protocol.v ===== *)
(** * The wire protocol (src/src/protocol.rs)

    One module per generated enum and struct, with its wire numbers, its CBOR
    form and its default.  A struct's fields keep their names and order; the
    CBOR form of an absent optional field is [Null], and a field added after
    the first release may also be missing ([get_opt]). *)
From S2P Require Import Prelude Utf8 Cbor.

(** The three ways generated code reads a field of a map. *)
Definition get {A} (c : Cbor) (key : Z) (f : Cbor -> result A DecodeError) : result A DecodeError :=
  try v := try_get c key in f v.
Definition get_nullable {A} (c : Cbor) (key : Z) (f : Cbor -> result A DecodeError)
    : result (option A) DecodeError :=
  try v := try_get c key in
  if is_null v then Ok None else try x := f v in Ok (Some x).
Definition get_opt {A} (c : Cbor) (key : Z) (f : Cbor -> result A DecodeError)
    : result (option A) DecodeError :=
  try v := try_get_opt c key in
  match v with
  | None => Ok None
  | Some v => if is_null v then Ok None else try x := f v in Ok (Some x)
  end.
Definition as_array {A} (f : Cbor -> result A DecodeError) (c : Cbor) : result (list A) DecodeError :=
  try a := try_array c in collect f a.
Definition as_enum {A} (from_wire : Z -> result A DecodeError) (c : Cbor) : result A DecodeError :=
  try n := try_int c in from_wire n.

Module MessageKind.
Inductive t :=
| Bind
| Bound
| BindRejected
| Open
| Opened
| OpenFailed
| Data
| Window
| Flush
| Flushed
| EndWrite
| Close
| Closed
| Cancel
| Failed
| CheckIdentity
| IdentityChecked
| IdentityCheckFailed.
#[global] Instance eq_dec : EqDecision t.
Proof. solve_decision. Defined.
Definition default : t := Bind.
Definition wire (self : t) : Z :=
  match self with
  | Bind => 1
  | Bound => 2
  | BindRejected => 3
  | Open => 4
  | Opened => 5
  | OpenFailed => 6
  | Data => 7
  | Window => 8
  | Flush => 9
  | Flushed => 10
  | EndWrite => 11
  | Close => 12
  | Closed => 13
  | Cancel => 14
  | Failed => 15
  | CheckIdentity => 16
  | IdentityChecked => 17
  | IdentityCheckFailed => 18
  end.
Definition from_wire (v : Z) : result t DecodeError :=
  match v with
  | 1 => Ok Bind
  | 2 => Ok Bound
  | 3 => Ok BindRejected
  | 4 => Ok Open
  | 5 => Ok Opened
  | 6 => Ok OpenFailed
  | 7 => Ok Data
  | 8 => Ok Window
  | 9 => Ok Flush
  | 10 => Ok Flushed
  | 11 => Ok EndWrite
  | 12 => Ok Close
  | 13 => Ok Closed
  | 14 => Ok Cancel
  | 15 => Ok Failed
  | 16 => Ok CheckIdentity
  | 17 => Ok IdentityChecked
  | 18 => Ok IdentityCheckFailed
  | _ => Err (UnknownEnum "MessageKind" v)
  end.
End MessageKind.

Module EndpointRole.
Inductive t :=
| Local
| Driver.
#[global] Instance eq_dec : EqDecision t.
Proof. solve_decision. Defined.
Definition default : t := Local.
Definition wire (self : t) : Z :=
  match self with
  | Local => 1
  | Driver => 2
  end.
Definition from_wire (v : Z) : result t DecodeError :=
  match v with
  | 1 => Ok Local
  | 2 => Ok Driver
  | _ => Err (UnknownEnum "EndpointRole" v)
  end.
End EndpointRole.

Module Scheme.
Inductive t :=
| Ssh
| Https.
#[global] Instance eq_dec : EqDecision t.
Proof. solve_decision. Defined.
Definition default : t := Ssh.
Definition wire (self : t) : Z :=
  match self with
  | Ssh => 1
  | Https => 2
  end.
Definition from_wire (v : Z) : result t DecodeError :=
  match v with
  | 1 => Ok Ssh
  | 2 => Ok Https
  | _ => Err (UnknownEnum "Scheme" v)
  end.
End Scheme.

Module AuthPolicy.
Inductive t :=
| SshAmbient
| SshExplicit
| Anonymous
| Gh
| WindowsConfigured
| WindowsDefault.
#[global] Instance eq_dec : EqDecision t.
Proof. solve_decision. Defined.
Definition default : t := SshAmbient.
Definition wire (self : t) : Z :=
  match self with
  | SshAmbient => 1
  | SshExplicit => 2
  | Anonymous => 3
  | Gh => 4
  | WindowsConfigured => 5
  | WindowsDefault => 6
  end.
Definition from_wire (v : Z) : result t DecodeError :=
  match v with
  | 1 => Ok SshAmbient
  | 2 => Ok SshExplicit
  | 3 => Ok Anonymous
  | 4 => Ok Gh
  | 5 => Ok WindowsConfigured
  | 6 => Ok WindowsDefault
  | _ => Err (UnknownEnum "AuthPolicy" v)
  end.
End AuthPolicy.

Module GitService.
Inductive t :=
| UploadPackAdvertisement
| UploadPackExchange
| ReceivePackAdvertisement
| ReceivePackExchange.
#[global] Instance eq_dec : EqDecision t.
Proof. solve_decision. Defined.
Definition default : t := UploadPackAdvertisement.
Definition wire (self : t) : Z :=
  match self with
  | UploadPackAdvertisement => 1
  | UploadPackExchange => 2
  | ReceivePackAdvertisement => 3
  | ReceivePackExchange => 4
  end.
Definition from_wire (v : Z) : result t DecodeError :=
  match v with
  | 1 => Ok UploadPackAdvertisement
  | 2 => Ok UploadPackExchange
  | 3 => Ok ReceivePackAdvertisement
  | 4 => Ok ReceivePackExchange
  | _ => Err (UnknownEnum "GitService" v)
  end.
End GitService.

Module IdentityMode.
Inductive t :=
| Ambient
| ExplicitKey
| CredentialsDisabled.
#[global] Instance eq_dec : EqDecision t.
Proof. solve_decision. Defined.
Definition default : t := Ambient.
Definition wire (self : t) : Z :=
  match self with
  | Ambient => 1
  | ExplicitKey => 2
  | CredentialsDisabled => 3
  end.
Definition from_wire (v : Z) : result t DecodeError :=
  match v with
  | 1 => Ok Ambient
  | 2 => Ok ExplicitKey
  | 3 => Ok CredentialsDisabled
  | _ => Err (UnknownEnum "IdentityMode" v)
  end.
End IdentityMode.

Module ErrorCode.
Inductive t :=
| UnsupportedVersion
| UnsupportedOperation
| Unavailable
| InvalidRequest
| Capacity
| Timeout
| Cancelled
| Authentication
| Trust
| Io
| Protocol
| CarrierLost
| RepositoryRefused.
#[global] Instance eq_dec : EqDecision t.
Proof. solve_decision. Defined.
Definition default : t := UnsupportedVersion.
Definition wire (self : t) : Z :=
  match self with
  | UnsupportedVersion => 1
  | UnsupportedOperation => 2
  | Unavailable => 3
  | InvalidRequest => 4
  | Capacity => 5
  | Timeout => 6
  | Cancelled => 7
  | Authentication => 8
  | Trust => 9
  | Io => 10
  | Protocol => 11
  | CarrierLost => 12
  | RepositoryRefused => 13
  end.
Definition from_wire (v : Z) : result t DecodeError :=
  match v with
  | 1 => Ok UnsupportedVersion
  | 2 => Ok UnsupportedOperation
  | 3 => Ok Unavailable
  | 4 => Ok InvalidRequest
  | 5 => Ok Capacity
  | 6 => Ok Timeout
  | 7 => Ok Cancelled
  | 8 => Ok Authentication
  | 9 => Ok Trust
  | 10 => Ok Io
  | 11 => Ok Protocol
  | 12 => Ok CarrierLost
  | 13 => Ok RepositoryRefused
  | _ => Err (UnknownEnum "ErrorCode" v)
  end.
End ErrorCode.

Module SetupFailureCause.
Inductive t :=
| Stall
| Aggregate
| Interaction
| Allocation
| ConnectionRefused
| NotFound
| AddressNotAvailable.
#[global] Instance eq_dec : EqDecision t.
Proof. solve_decision. Defined.
Definition default : t := Stall.
Definition wire (self : t) : Z :=
  match self with
  | Stall => 1
  | Aggregate => 2
  | Interaction => 3
  | Allocation => 4
  | ConnectionRefused => 5
  | NotFound => 6
  | AddressNotAvailable => 7
  end.
Definition from_wire (v : Z) : result t DecodeError :=
  match v with
  | 1 => Ok Stall
  | 2 => Ok Aggregate
  | 3 => Ok Interaction
  | 4 => Ok Allocation
  | 5 => Ok ConnectionRefused
  | 6 => Ok NotFound
  | 7 => Ok AddressNotAvailable
  | _ => Err (UnknownEnum "SetupFailureCause" v)
  end.
End SetupFailureCause.

Module HelperFailureCause.
Inductive t :=
| PipeFailure
| OutputLimit
| ControlCharacter
| UsernameColon
| NotUtf8
| MissingNewline
| MissingField
| MalformedOutput
| NoHelper
| Declined
| ConfigurationRefused.
#[global] Instance eq_dec : EqDecision t.
Proof. solve_decision. Defined.
Definition default : t := PipeFailure.
Definition wire (self : t) : Z :=
  match self with
  | PipeFailure => 1
  | OutputLimit => 2
  | ControlCharacter => 3
  | UsernameColon => 4
  | NotUtf8 => 5
  | MissingNewline => 6
  | MissingField => 7
  | MalformedOutput => 8
  | NoHelper => 9
  | Declined => 10
  | ConfigurationRefused => 11
  end.
Definition from_wire (v : Z) : result t DecodeError :=
  match v with
  | 1 => Ok PipeFailure
  | 2 => Ok OutputLimit
  | 3 => Ok ControlCharacter
  | 4 => Ok UsernameColon
  | 5 => Ok NotUtf8
  | 6 => Ok MissingNewline
  | 7 => Ok MissingField
  | 8 => Ok MalformedOutput
  | 9 => Ok NoHelper
  | 10 => Ok Declined
  | 11 => Ok ConfigurationRefused
  | _ => Err (UnknownEnum "HelperFailureCause" v)
  end.
End HelperFailureCause.

Module CapacityCause.
Inductive t :=
| ServerThrottle
| ServerRetryAfter
| Local.
#[global] Instance eq_dec : EqDecision t.
Proof. solve_decision. Defined.
Definition default : t := ServerThrottle.
Definition wire (self : t) : Z :=
  match self with
  | ServerThrottle => 1
  | ServerRetryAfter => 2
  | Local => 3
  end.
Definition from_wire (v : Z) : result t DecodeError :=
  match v with
  | 1 => Ok ServerThrottle
  | 2 => Ok ServerRetryAfter
  | 3 => Ok Local
  | _ => Err (UnknownEnum "CapacityCause" v)
  end.
End CapacityCause.

Module CapacitySignal.
Inductive t :=
| Http429
| Http503.
#[global] Instance eq_dec : EqDecision t.
Proof. solve_decision. Defined.
Definition default : t := Http429.
Definition wire (self : t) : Z :=
  match self with
  | Http429 => 1
  | Http503 => 2
  end.
Definition from_wire (v : Z) : result t DecodeError :=
  match v with
  | 1 => Ok Http429
  | 2 => Ok Http503
  | _ => Err (UnknownEnum "CapacitySignal" v)
  end.
End CapacitySignal.

Module Effect.
Inductive t :=
| None
| Possible.
#[global] Instance eq_dec : EqDecision t.
Proof. solve_decision. Defined.
Definition default : t := None.
Definition wire (self : t) : Z :=
  match self with
  | None => 1
  | Possible => 2
  end.
Definition from_wire (v : Z) : result t DecodeError :=
  match v with
  | 1 => Ok None
  | 2 => Ok Possible
  | _ => Err (UnknownEnum "Effect" v)
  end.
End Effect.

Module Disposition.
Inductive t :=
| Reusable
| Discarded.
#[global] Instance eq_dec : EqDecision t.
Proof. solve_decision. Defined.
Definition default : t := Reusable.
Definition wire (self : t) : Z :=
  match self with
  | Reusable => 1
  | Discarded => 2
  end.
Definition from_wire (v : Z) : result t DecodeError :=
  match v with
  | 1 => Ok Reusable
  | 2 => Ok Discarded
  | _ => Err (UnknownEnum "Disposition" v)
  end.
End Disposition.

Module AuthMethod.
Inductive t :=
| None
| SshAgent
| SshKey
| Gh
| Sspi.
#[global] Instance eq_dec : EqDecision t.
Proof. solve_decision. Defined.
Definition default : t := None.
Definition wire (self : t) : Z :=
  match self with
  | None => 1
  | SshAgent => 2
  | SshKey => 3
  | Gh => 4
  | Sspi => 5
  end.
Definition from_wire (v : Z) : result t DecodeError :=
  match v with
  | 1 => Ok None
  | 2 => Ok SshAgent
  | 3 => Ok SshKey
  | 4 => Ok Gh
  | 5 => Ok Sspi
  | _ => Err (UnknownEnum "AuthMethod" v)
  end.
End AuthMethod.

Module NativeSource.
Inductive t :=
| Configured
| CurrentLogon.
#[global] Instance eq_dec : EqDecision t.
Proof. solve_decision. Defined.
Definition default : t := Configured.
Definition wire (self : t) : Z :=
  match self with
  | Configured => 1
  | CurrentLogon => 2
  end.
Definition from_wire (v : Z) : result t DecodeError :=
  match v with
  | 1 => Ok Configured
  | 2 => Ok CurrentLogon
  | _ => Err (UnknownEnum "NativeSource" v)
  end.
End NativeSource.

Module NativeScheme.
Inductive t :=
| Negotiate
| Ntlm
| Digest.
#[global] Instance eq_dec : EqDecision t.
Proof. solve_decision. Defined.
Definition default : t := Negotiate.
Definition wire (self : t) : Z :=
  match self with
  | Negotiate => 1
  | Ntlm => 2
  | Digest => 3
  end.
Definition from_wire (v : Z) : result t DecodeError :=
  match v with
  | 1 => Ok Negotiate
  | 2 => Ok Ntlm
  | 3 => Ok Digest
  | _ => Err (UnknownEnum "NativeScheme" v)
  end.
End NativeScheme.

Module NativeObservation.
Inductive t :=
| NotStarted
| Unresolved
| Selected.
#[global] Instance eq_dec : EqDecision t.
Proof. solve_decision. Defined.
Definition default : t := NotStarted.
Definition wire (self : t) : Z :=
  match self with
  | NotStarted => 1
  | Unresolved => 2
  | Selected => 3
  end.
Definition from_wire (v : Z) : result t DecodeError :=
  match v with
  | 1 => Ok NotStarted
  | 2 => Ok Unresolved
  | 3 => Ok Selected
  | _ => Err (UnknownEnum "NativeObservation" v)
  end.
End NativeObservation.

Module NativeMechanism.
Inductive t :=
| Kerberos
| Ntlm.
#[global] Instance eq_dec : EqDecision t.
Proof. solve_decision. Defined.
Definition default : t := Kerberos.
Definition wire (self : t) : Z :=
  match self with
  | Kerberos => 1
  | Ntlm => 2
  end.
Definition from_wire (v : Z) : result t DecodeError :=
  match v with
  | 1 => Ok Kerberos
  | 2 => Ok Ntlm
  | _ => Err (UnknownEnum "NativeMechanism" v)
  end.
End NativeMechanism.

Module NativeFacts.
Record t := mk {
  source : NativeSource.t;
  scheme : NativeScheme.t;
  observation : NativeObservation.t;
  mechanism : option NativeMechanism.t;
  authoritative : bool;
}.
#[global] Instance eq_dec : EqDecision t.
Proof. solve_decision. Defined.
#[global] Instance eta : Eta t :=
  fun r => mk (r.(source)) (r.(scheme)) (r.(observation)) (r.(mechanism)) (r.(authoritative)).
Definition default : t :=
  mk NativeSource.default NativeScheme.default NativeObservation.default None false.
Definition to_cbor (self : t) : Cbor :=
  Map [
    (1, Int (NativeSource.wire (self.(source))));
    (2, Int (NativeScheme.wire (self.(scheme))));
    (3, Int (NativeObservation.wire (self.(observation))));
    (4, match self.(mechanism) with Some v => Int (NativeMechanism.wire (v)) | None => Null end);
    (5, Bool (self.(authoritative)))
  ].
Definition from_cbor (c : Cbor) : result t DecodeError :=
  try x_source := get c 1 (as_enum NativeSource.from_wire) in
  try x_scheme := get c 2 (as_enum NativeScheme.from_wire) in
  try x_observation := get c 3 (as_enum NativeObservation.from_wire) in
  try x_mechanism := get_nullable c 4 (as_enum NativeMechanism.from_wire) in
  try x_authoritative := get c 5 try_bool in
  Ok (mk x_source x_scheme x_observation x_mechanism x_authoritative).
(** The generated [decode] applies the depth bound 32 and no length bound. *)
Definition decode (bytes : list byte) : result t DecodeError :=
  try c := try_decode_with bytes 32 None in from_cbor c.
End NativeFacts.

Module Limits.
Record t := mk {
  encoded_frame : Z;
  data_payload : Z;
  metadata_bytes : Z;
  nesting : Z;
  collection_entries : Z;
  decode_allocation : Z;
  queued_bytes : Z;
  queued_frames : Z;
  receive_window : Z;
  control_reserve_bytes : Z;
  control_reserve_frames : Z;
}.
#[global] Instance eq_dec : EqDecision t.
Proof. solve_decision. Defined.
#[global] Instance eta : Eta t :=
  fun r => mk (r.(encoded_frame)) (r.(data_payload)) (r.(metadata_bytes)) (r.(nesting)) (r.(collection_entries)) (r.(decode_allocation)) (r.(queued_bytes)) (r.(queued_frames)) (r.(receive_window)) (r.(control_reserve_bytes)) (r.(control_reserve_frames)).
Definition default : t :=
  mk 0 0 0 0 0 0 0 0 0 0 0.
Definition to_cbor (self : t) : Cbor :=
  Map [
    (1, Int self.(encoded_frame));
    (2, Int self.(data_payload));
    (3, Int self.(metadata_bytes));
    (4, Int self.(nesting));
    (5, Int self.(collection_entries));
    (6, Int self.(decode_allocation));
    (7, Int self.(queued_bytes));
    (8, Int self.(queued_frames));
    (9, Int self.(receive_window));
    (10, Int self.(control_reserve_bytes));
    (11, Int self.(control_reserve_frames))
  ].
Definition from_cbor (c : Cbor) : result t DecodeError :=
  try x_encoded_frame := get c 1 try_int in
  try x_data_payload := get c 2 try_int in
  try x_metadata_bytes := get c 3 try_int in
  try x_nesting := get c 4 try_int in
  try x_collection_entries := get c 5 try_int in
  try x_decode_allocation := get c 6 try_int in
  try x_queued_bytes := get c 7 try_int in
  try x_queued_frames := get c 8 try_int in
  try x_receive_window := get c 9 try_int in
  try x_control_reserve_bytes := get c 10 try_int in
  try x_control_reserve_frames := get c 11 try_int in
  Ok (mk x_encoded_frame x_data_payload x_metadata_bytes x_nesting x_collection_entries x_decode_allocation x_queued_bytes x_queued_frames x_receive_window x_control_reserve_bytes x_control_reserve_frames).
(** The generated [decode] applies the depth bound 32 and no length bound. *)
Definition decode (bytes : list byte) : result t DecodeError :=
  try c := try_decode_with bytes 32 None in from_cbor c.
End Limits.

Module Bind.
Record t := mk {
  versions : list Z;
  role : EndpointRole.t;
  schemes : list Scheme.t;
  policies : list AuthPolicy.t;
  receive_limits : Limits.t;
}.
#[global] Instance eq_dec : EqDecision t.
Proof. solve_decision. Defined.
#[global] Instance eta : Eta t :=
  fun r => mk (r.(versions)) (r.(role)) (r.(schemes)) (r.(policies)) (r.(receive_limits)).
Definition default : t :=
  mk [] EndpointRole.default [] [] Limits.default.
Definition to_cbor (self : t) : Cbor :=
  Map [
    (1, Array (map (fun x => Int x) (self.(versions))));
    (2, Int (EndpointRole.wire (self.(role))));
    (3, Array (map (fun x => Int (Scheme.wire (x))) (self.(schemes))));
    (4, Array (map (fun x => Int (AuthPolicy.wire (x))) (self.(policies))));
    (5, Limits.to_cbor (self.(receive_limits)))
  ].
Definition from_cbor (c : Cbor) : result t DecodeError :=
  try x_versions := get c 1 (as_array try_int) in
  try x_role := get c 2 (as_enum EndpointRole.from_wire) in
  try x_schemes := get c 3 (as_array (as_enum Scheme.from_wire)) in
  try x_policies := get c 4 (as_array (as_enum AuthPolicy.from_wire)) in
  try x_receive_limits := get c 5 Limits.from_cbor in
  Ok (mk x_versions x_role x_schemes x_policies x_receive_limits).
(** The generated [decode] applies the depth bound 32 and no length bound. *)
Definition decode (bytes : list byte) : result t DecodeError :=
  try c := try_decode_with bytes 32 None in from_cbor c.
End Bind.

Module Bound.
Record t := mk {
  version : Z;
  endpoint_id : string;
  role : EndpointRole.t;
  schemes : list Scheme.t;
  policies : list AuthPolicy.t;
  receive_limits : Limits.t;
  trust_owner : string;
}.
#[global] Instance eq_dec : EqDecision t.
Proof. solve_decision. Defined.
#[global] Instance eta : Eta t :=
  fun r => mk (r.(version)) (r.(endpoint_id)) (r.(role)) (r.(schemes)) (r.(policies)) (r.(receive_limits)) (r.(trust_owner)).
Definition default : t :=
  mk 0 "" EndpointRole.default [] [] Limits.default "".
Definition to_cbor (self : t) : Cbor :=
  Map [
    (1, Int self.(version));
    (2, Text (self.(endpoint_id)));
    (3, Int (EndpointRole.wire (self.(role))));
    (4, Array (map (fun x => Int (Scheme.wire (x))) (self.(schemes))));
    (5, Array (map (fun x => Int (AuthPolicy.wire (x))) (self.(policies))));
    (6, Limits.to_cbor (self.(receive_limits)));
    (7, Text (self.(trust_owner)))
  ].
Definition from_cbor (c : Cbor) : result t DecodeError :=
  try x_version := get c 1 try_int in
  try x_endpoint_id := get c 2 try_text in
  try x_role := get c 3 (as_enum EndpointRole.from_wire) in
  try x_schemes := get c 4 (as_array (as_enum Scheme.from_wire)) in
  try x_policies := get c 5 (as_array (as_enum AuthPolicy.from_wire)) in
  try x_receive_limits := get c 6 Limits.from_cbor in
  try x_trust_owner := get c 7 try_text in
  Ok (mk x_version x_endpoint_id x_role x_schemes x_policies x_receive_limits x_trust_owner).
(** The generated [decode] applies the depth bound 32 and no length bound. *)
Definition decode (bytes : list byte) : result t DecodeError :=
  try c := try_decode_with bytes 32 None in from_cbor c.
End Bound.

Module RetryAttempt.
Record t := mk {
  attempt : Z;
  attempts : Z;
}.
#[global] Instance eq_dec : EqDecision t.
Proof. solve_decision. Defined.
#[global] Instance eta : Eta t :=
  fun r => mk (r.(attempt)) (r.(attempts)).
Definition default : t :=
  mk 0 0.
Definition to_cbor (self : t) : Cbor :=
  Map [
    (1, Int self.(attempt));
    (2, Int self.(attempts))
  ].
Definition from_cbor (c : Cbor) : result t DecodeError :=
  try x_attempt := get c 1 try_int in
  try x_attempts := get c 2 try_int in
  Ok (mk x_attempt x_attempts).
(** The generated [decode] applies the depth bound 32 and no length bound. *)
Definition decode (bytes : list byte) : result t DecodeError :=
  try c := try_decode_with bytes 32 None in from_cbor c.
End RetryAttempt.

Module CapacityDetail.
Record t := mk {
  cause : CapacityCause.t;
  scheme : option Scheme.t;
  host : option string;
  port : option Z;
  limit_applied : option Z;
  max_per_host : option Z;
  elapsed_ms : option Z;
  last_signal : option CapacitySignal.t;
  retry_after_ms : option Z;
}.
#[global] Instance eq_dec : EqDecision t.
Proof. solve_decision. Defined.
#[global] Instance eta : Eta t :=
  fun r => mk (r.(cause)) (r.(scheme)) (r.(host)) (r.(port)) (r.(limit_applied)) (r.(max_per_host)) (r.(elapsed_ms)) (r.(last_signal)) (r.(retry_after_ms)).
Definition default : t :=
  mk CapacityCause.default None None None None None None None None.
Definition to_cbor (self : t) : Cbor :=
  Map [
    (1, Int (CapacityCause.wire (self.(cause))));
    (2, match self.(scheme) with Some v => Int (Scheme.wire (v)) | None => Null end);
    (3, match self.(host) with Some v => Text (v) | None => Null end);
    (4, match self.(port) with Some v => Int v | None => Null end);
    (5, match self.(limit_applied) with Some v => Int v | None => Null end);
    (6, match self.(max_per_host) with Some v => Int v | None => Null end);
    (7, match self.(elapsed_ms) with Some v => Int v | None => Null end);
    (8, match self.(last_signal) with Some v => Int (CapacitySignal.wire (v)) | None => Null end);
    (9, match self.(retry_after_ms) with Some v => Int v | None => Null end)
  ].
Definition from_cbor (c : Cbor) : result t DecodeError :=
  try x_cause := get c 1 (as_enum CapacityCause.from_wire) in
  try x_scheme := get_opt c 2 (as_enum Scheme.from_wire) in
  try x_host := get_opt c 3 try_text in
  try x_port := get_opt c 4 try_int in
  try x_limit_applied := get_opt c 5 try_int in
  try x_max_per_host := get_opt c 6 try_int in
  try x_elapsed_ms := get_opt c 7 try_int in
  try x_last_signal := get_opt c 8 (as_enum CapacitySignal.from_wire) in
  try x_retry_after_ms := get_opt c 9 try_int in
  Ok (mk x_cause x_scheme x_host x_port x_limit_applied x_max_per_host x_elapsed_ms x_last_signal x_retry_after_ms).
(** The generated [decode] applies the depth bound 32 and no length bound. *)
Definition decode (bytes : list byte) : result t DecodeError :=
  try c := try_decode_with bytes 32 None in from_cbor c.
End CapacityDetail.

Module FailureDetail.
Record t := mk {
  helper_cause : option HelperFailureCause.t;
  pipe_kind : option string;
  schemes : option (list string);
  retry_attempt : option RetryAttempt.t;
  helper_budget_ms : option Z;
  capacity : option CapacityDetail.t;
}.
#[global] Instance eq_dec : EqDecision t.
Proof. solve_decision. Defined.
#[global] Instance eta : Eta t :=
  fun r => mk (r.(helper_cause)) (r.(pipe_kind)) (r.(schemes)) (r.(retry_attempt)) (r.(helper_budget_ms)) (r.(capacity)).
Definition default : t :=
  mk None None None None None None.
Definition to_cbor (self : t) : Cbor :=
  Map [
    (1, match self.(helper_cause) with Some v => Int (HelperFailureCause.wire (v)) | None => Null end);
    (2, match self.(pipe_kind) with Some v => Text (v) | None => Null end);
    (3, match self.(schemes) with Some v => Array (map (fun x => Text (x)) (v)) | None => Null end);
    (4, match self.(retry_attempt) with Some v => RetryAttempt.to_cbor (v) | None => Null end);
    (5, match self.(helper_budget_ms) with Some v => Int v | None => Null end);
    (6, match self.(capacity) with Some v => CapacityDetail.to_cbor (v) | None => Null end)
  ].
Definition from_cbor (c : Cbor) : result t DecodeError :=
  try x_helper_cause := get_opt c 1 (as_enum HelperFailureCause.from_wire) in
  try x_pipe_kind := get_opt c 2 try_text in
  try x_schemes := get_opt c 3 (as_array try_text) in
  try x_retry_attempt := get_opt c 4 RetryAttempt.from_cbor in
  try x_helper_budget_ms := get_opt c 5 try_int in
  try x_capacity := get_opt c 6 CapacityDetail.from_cbor in
  Ok (mk x_helper_cause x_pipe_kind x_schemes x_retry_attempt x_helper_budget_ms x_capacity).
(** The generated [decode] applies the depth bound 32 and no length bound. *)
Definition decode (bytes : list byte) : result t DecodeError :=
  try c := try_decode_with bytes 32 None in from_cbor c.
End FailureDetail.

Module Destination.
Record t := mk {
  scheme : Scheme.t;
  host : string;
  port : Z;
  path : string;
  ssh_username : option string;
  https_username : option string;
}.
#[global] Instance eq_dec : EqDecision t.
Proof. solve_decision. Defined.
#[global] Instance eta : Eta t :=
  fun r => mk (r.(scheme)) (r.(host)) (r.(port)) (r.(path)) (r.(ssh_username)) (r.(https_username)).
Definition default : t :=
  mk Scheme.default "" 0 "" None None.
Definition to_cbor (self : t) : Cbor :=
  Map [
    (1, Int (Scheme.wire (self.(scheme))));
    (2, Text (self.(host)));
    (3, Int self.(port));
    (4, Text (self.(path)));
    (5, match self.(ssh_username) with Some v => Text (v) | None => Null end);
    (6, match self.(https_username) with Some v => Text (v) | None => Null end)
  ].
Definition from_cbor (c : Cbor) : result t DecodeError :=
  try x_scheme := get c 1 (as_enum Scheme.from_wire) in
  try x_host := get c 2 try_text in
  try x_port := get c 3 try_int in
  try x_path := get c 4 try_text in
  try x_ssh_username := get_nullable c 5 try_text in
  try x_https_username := get_opt c 6 try_text in
  Ok (mk x_scheme x_host x_port x_path x_ssh_username x_https_username).
(** The generated [decode] applies the depth bound 32 and no length bound. *)
Definition decode (bytes : list byte) : result t DecodeError :=
  try c := try_decode_with bytes 32 None in from_cbor c.
End Destination.

Module Identity.
Record t := mk {
  mode : IdentityMode.t;
  key_path : option string;
  path_base : option string;
}.
#[global] Instance eq_dec : EqDecision t.
Proof. solve_decision. Defined.
#[global] Instance eta : Eta t :=
  fun r => mk (r.(mode)) (r.(key_path)) (r.(path_base)).
Definition default : t :=
  mk IdentityMode.default None None.
Definition to_cbor (self : t) : Cbor :=
  Map [
    (1, Int (IdentityMode.wire (self.(mode))));
    (2, match self.(key_path) with Some v => Text (v) | None => Null end);
    (3, match self.(path_base) with Some v => Text (v) | None => Null end)
  ].
Definition from_cbor (c : Cbor) : result t DecodeError :=
  try x_mode := get c 1 (as_enum IdentityMode.from_wire) in
  try x_key_path := get_nullable c 2 try_text in
  try x_path_base := get_nullable c 3 try_text in
  Ok (mk x_mode x_key_path x_path_base).
(** The generated [decode] applies the depth bound 32 and no length bound. *)
Definition decode (bytes : list byte) : result t DecodeError :=
  try c := try_decode_with bytes 32 None in from_cbor c.
End Identity.

Module Deadlines.
Record t := mk {
  allocation_ms : Z;
  connect_ms : Z;
  io_ms : Z;
  interaction_ms : Z;
  cleanup_ms : Z;
}.
#[global] Instance eq_dec : EqDecision t.
Proof. solve_decision. Defined.
#[global] Instance eta : Eta t :=
  fun r => mk (r.(allocation_ms)) (r.(connect_ms)) (r.(io_ms)) (r.(interaction_ms)) (r.(cleanup_ms)).
Definition default : t :=
  mk 0 0 0 0 0.
Definition to_cbor (self : t) : Cbor :=
  Map [
    (1, Int self.(allocation_ms));
    (2, Int self.(connect_ms));
    (3, Int self.(io_ms));
    (4, Int self.(interaction_ms));
    (5, Int self.(cleanup_ms))
  ].
Definition from_cbor (c : Cbor) : result t DecodeError :=
  try x_allocation_ms := get c 1 try_int in
  try x_connect_ms := get c 2 try_int in
  try x_io_ms := get c 3 try_int in
  try x_interaction_ms := get c 4 try_int in
  try x_cleanup_ms := get c 5 try_int in
  Ok (mk x_allocation_ms x_connect_ms x_io_ms x_interaction_ms x_cleanup_ms).
(** The generated [decode] applies the depth bound 32 and no length bound. *)
Definition decode (bytes : list byte) : result t DecodeError :=
  try c := try_decode_with bytes 32 None in from_cbor c.
End Deadlines.

Module Open.
Record t := mk {
  endpoint_id : string;
  operation_id : string;
  destination : Destination.t;
  service : GitService.t;
  identity : Identity.t;
  policy : AuthPolicy.t;
  deadlines : Deadlines.t;
  receive_limits : Limits.t;
}.
#[global] Instance eq_dec : EqDecision t.
Proof. solve_decision. Defined.
#[global] Instance eta : Eta t :=
  fun r => mk (r.(endpoint_id)) (r.(operation_id)) (r.(destination)) (r.(service)) (r.(identity)) (r.(policy)) (r.(deadlines)) (r.(receive_limits)).
Definition default : t :=
  mk "" "" Destination.default GitService.default Identity.default AuthPolicy.default Deadlines.default Limits.default.
Definition to_cbor (self : t) : Cbor :=
  Map [
    (1, Text (self.(endpoint_id)));
    (2, Text (self.(operation_id)));
    (3, Destination.to_cbor (self.(destination)));
    (4, Int (GitService.wire (self.(service))));
    (5, Identity.to_cbor (self.(identity)));
    (6, Int (AuthPolicy.wire (self.(policy))));
    (7, Deadlines.to_cbor (self.(deadlines)));
    (8, Limits.to_cbor (self.(receive_limits)))
  ].
Definition from_cbor (c : Cbor) : result t DecodeError :=
  try x_endpoint_id := get c 1 try_text in
  try x_operation_id := get c 2 try_text in
  try x_destination := get c 3 Destination.from_cbor in
  try x_service := get c 4 (as_enum GitService.from_wire) in
  try x_identity := get c 5 Identity.from_cbor in
  try x_policy := get c 6 (as_enum AuthPolicy.from_wire) in
  try x_deadlines := get c 7 Deadlines.from_cbor in
  try x_receive_limits := get c 8 Limits.from_cbor in
  Ok (mk x_endpoint_id x_operation_id x_destination x_service x_identity x_policy x_deadlines x_receive_limits).
(** The generated [decode] applies the depth bound 32 and no length bound. *)
Definition decode (bytes : list byte) : result t DecodeError :=
  try c := try_decode_with bytes 32 None in from_cbor c.
End Open.

Module CheckIdentity.
Record t := mk {
  endpoint_id : string;
  operation_id : string;
  identity : Identity.t;
  timeout_ms : Z;
}.
#[global] Instance eq_dec : EqDecision t.
Proof. solve_decision. Defined.
#[global] Instance eta : Eta t :=
  fun r => mk (r.(endpoint_id)) (r.(operation_id)) (r.(identity)) (r.(timeout_ms)).
Definition default : t :=
  mk "" "" Identity.default 0.
Definition to_cbor (self : t) : Cbor :=
  Map [
    (1, Text (self.(endpoint_id)));
    (2, Text (self.(operation_id)));
    (3, Identity.to_cbor (self.(identity)));
    (4, Int self.(timeout_ms))
  ].
Definition from_cbor (c : Cbor) : result t DecodeError :=
  try x_endpoint_id := get c 1 try_text in
  try x_operation_id := get c 2 try_text in
  try x_identity := get c 3 Identity.from_cbor in
  try x_timeout_ms := get c 4 try_int in
  Ok (mk x_endpoint_id x_operation_id x_identity x_timeout_ms).
(** The generated [decode] applies the depth bound 32 and no length bound. *)
Definition decode (bytes : list byte) : result t DecodeError :=
  try c := try_decode_with bytes 32 None in from_cbor c.
End CheckIdentity.

Module IdentityChecked.
Record t := mk {}.
#[global] Instance eq_dec : EqDecision t.
Proof. solve_decision. Defined.
#[global] Instance eta : Eta t :=
  fun r => mk .
Definition default : t :=
  mk .
Definition to_cbor (self : t) : Cbor :=
  Map [].
Definition from_cbor (c : Cbor) : result t DecodeError :=
  if negb (is_map c) then Err (WrongType "map") else Ok mk.
(** The generated [decode] applies the depth bound 32 and no length bound. *)
Definition decode (bytes : list byte) : result t DecodeError :=
  try c := try_decode_with bytes 32 None in from_cbor c.
End IdentityChecked.

Module Facts.
Record t := mk {
  method : AuthMethod.t;
  credential_offered : bool;
  authenticated : option bool;
  key_fingerprint : option string;
  http_status : option Z;
  ssh_exit_status : option Z;
  native : option NativeFacts.t;
}.
#[global] Instance eq_dec : EqDecision t.
Proof. solve_decision. Defined.
#[global] Instance eta : Eta t :=
  fun r => mk (r.(method)) (r.(credential_offered)) (r.(authenticated)) (r.(key_fingerprint)) (r.(http_status)) (r.(ssh_exit_status)) (r.(native)).
Definition default : t :=
  mk AuthMethod.default false None None None None None.
Definition to_cbor (self : t) : Cbor :=
  Map [
    (1, Int (AuthMethod.wire (self.(method))));
    (2, Bool (self.(credential_offered)));
    (3, match self.(authenticated) with Some v => Bool (v) | None => Null end);
    (4, match self.(key_fingerprint) with Some v => Text (v) | None => Null end);
    (5, match self.(http_status) with Some v => Int v | None => Null end);
    (6, match self.(ssh_exit_status) with Some v => Int v | None => Null end);
    (7, match self.(native) with Some v => NativeFacts.to_cbor (v) | None => Null end)
  ].
Definition from_cbor (c : Cbor) : result t DecodeError :=
  try x_method := get c 1 (as_enum AuthMethod.from_wire) in
  try x_credential_offered := get c 2 try_bool in
  try x_authenticated := get_nullable c 3 try_bool in
  try x_key_fingerprint := get_nullable c 4 try_text in
  try x_http_status := get_nullable c 5 try_int in
  try x_ssh_exit_status := get_nullable c 6 try_int in
  try x_native := get_opt c 7 NativeFacts.from_cbor in
  Ok (mk x_method x_credential_offered x_authenticated x_key_fingerprint x_http_status x_ssh_exit_status x_native).
(** The generated [decode] applies the depth bound 32 and no length bound. *)
Definition decode (bytes : list byte) : result t DecodeError :=
  try c := try_decode_with bytes 32 None in from_cbor c.
End Facts.

Module Failure.
Record t := mk {
  code : ErrorCode.t;
  effect : Effect.t;
  facts : option Facts.t;
  setup_cause : option SetupFailureCause.t;
  detail : option FailureDetail.t;
}.
#[global] Instance eq_dec : EqDecision t.
Proof. solve_decision. Defined.
#[global] Instance eta : Eta t :=
  fun r => mk (r.(code)) (r.(effect)) (r.(facts)) (r.(setup_cause)) (r.(detail)).
Definition default : t :=
  mk ErrorCode.default Effect.default None None None.
Definition to_cbor (self : t) : Cbor :=
  Map [
    (1, Int (ErrorCode.wire (self.(code))));
    (2, Int (Effect.wire (self.(effect))));
    (3, match self.(facts) with Some v => Facts.to_cbor (v) | None => Null end);
    (4, match self.(setup_cause) with Some v => Int (SetupFailureCause.wire (v)) | None => Null end);
    (5, match self.(detail) with Some v => FailureDetail.to_cbor (v) | None => Null end)
  ].
Definition from_cbor (c : Cbor) : result t DecodeError :=
  try x_code := get c 1 (as_enum ErrorCode.from_wire) in
  try x_effect := get c 2 (as_enum Effect.from_wire) in
  try x_facts := get_opt c 3 Facts.from_cbor in
  try x_setup_cause := get_opt c 4 (as_enum SetupFailureCause.from_wire) in
  try x_detail := get_opt c 5 FailureDetail.from_cbor in
  Ok (mk x_code x_effect x_facts x_setup_cause x_detail).
(** The generated [decode] applies the depth bound 32 and no length bound. *)
Definition decode (bytes : list byte) : result t DecodeError :=
  try c := try_decode_with bytes 32 None in from_cbor c.
End Failure.

Module Opened.
Record t := mk {
  connection_id : string;
  reused : bool;
  endpoint_id : string;
  trust_owner : string;
  facts : Facts.t;
  receive_limits : Limits.t;
}.
#[global] Instance eq_dec : EqDecision t.
Proof. solve_decision. Defined.
#[global] Instance eta : Eta t :=
  fun r => mk (r.(connection_id)) (r.(reused)) (r.(endpoint_id)) (r.(trust_owner)) (r.(facts)) (r.(receive_limits)).
Definition default : t :=
  mk "" false "" "" Facts.default Limits.default.
Definition to_cbor (self : t) : Cbor :=
  Map [
    (1, Text (self.(connection_id)));
    (2, Bool (self.(reused)));
    (3, Text (self.(endpoint_id)));
    (4, Text (self.(trust_owner)));
    (5, Facts.to_cbor (self.(facts)));
    (6, Limits.to_cbor (self.(receive_limits)))
  ].
Definition from_cbor (c : Cbor) : result t DecodeError :=
  try x_connection_id := get c 1 try_text in
  try x_reused := get c 2 try_bool in
  try x_endpoint_id := get c 3 try_text in
  try x_trust_owner := get c 4 try_text in
  try x_facts := get c 5 Facts.from_cbor in
  try x_receive_limits := get c 6 Limits.from_cbor in
  Ok (mk x_connection_id x_reused x_endpoint_id x_trust_owner x_facts x_receive_limits).
(** The generated [decode] applies the depth bound 32 and no length bound. *)
Definition decode (bytes : list byte) : result t DecodeError :=
  try c := try_decode_with bytes 32 None in from_cbor c.
End Opened.

Module Data.
Record t := mk {
  offset : Z;
  payload : list byte;
}.
#[global] Instance eq_dec : EqDecision t.
Proof. solve_decision. Defined.
#[global] Instance eta : Eta t :=
  fun r => mk (r.(offset)) (r.(payload)).
Definition default : t :=
  mk 0 [].
Definition to_cbor (self : t) : Cbor :=
  Map [
    (1, Int self.(offset));
    (2, Bytes (self.(payload)))
  ].
Definition from_cbor (c : Cbor) : result t DecodeError :=
  try x_offset := get c 1 try_int in
  try x_payload := get c 2 try_bytes in
  Ok (mk x_offset x_payload).
(** The generated [decode] applies the depth bound 32 and no length bound. *)
Definition decode (bytes : list byte) : result t DecodeError :=
  try c := try_decode_with bytes 32 None in from_cbor c.
End Data.

Module Window.
Record t := mk {
  max_offset : Z;
}.
#[global] Instance eq_dec : EqDecision t.
Proof. solve_decision. Defined.
#[global] Instance eta : Eta t :=
  fun r => mk (r.(max_offset)).
Definition default : t :=
  mk 0.
Definition to_cbor (self : t) : Cbor :=
  Map [
    (1, Int self.(max_offset))
  ].
Definition from_cbor (c : Cbor) : result t DecodeError :=
  try x_max_offset := get c 1 try_int in
  Ok (mk x_max_offset).
(** The generated [decode] applies the depth bound 32 and no length bound. *)
Definition decode (bytes : list byte) : result t DecodeError :=
  try c := try_decode_with bytes 32 None in from_cbor c.
End Window.

Module Barrier.
Record t := mk {
  barrier_id : Z;
  offset : Z;
}.
#[global] Instance eq_dec : EqDecision t.
Proof. solve_decision. Defined.
#[global] Instance eta : Eta t :=
  fun r => mk (r.(barrier_id)) (r.(offset)).
Definition default : t :=
  mk 0 0.
Definition to_cbor (self : t) : Cbor :=
  Map [
    (1, Int self.(barrier_id));
    (2, Int self.(offset))
  ].
Definition from_cbor (c : Cbor) : result t DecodeError :=
  try x_barrier_id := get c 1 try_int in
  try x_offset := get c 2 try_int in
  Ok (mk x_barrier_id x_offset).
(** The generated [decode] applies the depth bound 32 and no length bound. *)
Definition decode (bytes : list byte) : result t DecodeError :=
  try c := try_decode_with bytes 32 None in from_cbor c.
End Barrier.

Module EndWrite.
Record t := mk {
  final_offset : Z;
}.
#[global] Instance eq_dec : EqDecision t.
Proof. solve_decision. Defined.
#[global] Instance eta : Eta t :=
  fun r => mk (r.(final_offset)).
Definition default : t :=
  mk 0.
Definition to_cbor (self : t) : Cbor :=
  Map [
    (1, Int self.(final_offset))
  ].
Definition from_cbor (c : Cbor) : result t DecodeError :=
  try x_final_offset := get c 1 try_int in
  Ok (mk x_final_offset).
(** The generated [decode] applies the depth bound 32 and no length bound. *)
Definition decode (bytes : list byte) : result t DecodeError :=
  try c := try_decode_with bytes 32 None in from_cbor c.
End EndWrite.

Module Close.
Record t := mk {
  final_offset : Z;
}.
#[global] Instance eq_dec : EqDecision t.
Proof. solve_decision. Defined.
#[global] Instance eta : Eta t :=
  fun r => mk (r.(final_offset)).
Definition default : t :=
  mk 0.
Definition to_cbor (self : t) : Cbor :=
  Map [
    (1, Int self.(final_offset))
  ].
Definition from_cbor (c : Cbor) : result t DecodeError :=
  try x_final_offset := get c 1 try_int in
  Ok (mk x_final_offset).
(** The generated [decode] applies the depth bound 32 and no length bound. *)
Definition decode (bytes : list byte) : result t DecodeError :=
  try c := try_decode_with bytes 32 None in from_cbor c.
End Close.

Module Closed.
Record t := mk {
  disposition : Disposition.t;
  unread_response_discarded : bool;
  facts : Facts.t;
  failure : option Failure.t;
}.
#[global] Instance eq_dec : EqDecision t.
Proof. solve_decision. Defined.
#[global] Instance eta : Eta t :=
  fun r => mk (r.(disposition)) (r.(unread_response_discarded)) (r.(facts)) (r.(failure)).
Definition default : t :=
  mk Disposition.default false Facts.default None.
Definition to_cbor (self : t) : Cbor :=
  Map [
    (1, Int (Disposition.wire (self.(disposition))));
    (2, Bool (self.(unread_response_discarded)));
    (3, Facts.to_cbor (self.(facts)));
    (4, match self.(failure) with Some v => Failure.to_cbor (v) | None => Null end)
  ].
Definition from_cbor (c : Cbor) : result t DecodeError :=
  try x_disposition := get c 1 (as_enum Disposition.from_wire) in
  try x_unread_response_discarded := get c 2 try_bool in
  try x_facts := get c 3 Facts.from_cbor in
  try x_failure := get_nullable c 4 Failure.from_cbor in
  Ok (mk x_disposition x_unread_response_discarded x_facts x_failure).
(** The generated [decode] applies the depth bound 32 and no length bound. *)
Definition decode (bytes : list byte) : result t DecodeError :=
  try c := try_decode_with bytes 32 None in from_cbor c.
End Closed.

Module Cancel.
Record t := mk {
  reason : ErrorCode.t;
}.
#[global] Instance eq_dec : EqDecision t.
Proof. solve_decision. Defined.
#[global] Instance eta : Eta t :=
  fun r => mk (r.(reason)).
Definition default : t :=
  mk ErrorCode.default.
Definition to_cbor (self : t) : Cbor :=
  Map [
    (1, Int (ErrorCode.wire (self.(reason))))
  ].
Definition from_cbor (c : Cbor) : result t DecodeError :=
  try x_reason := get c 1 (as_enum ErrorCode.from_wire) in
  Ok (mk x_reason).
(** The generated [decode] applies the depth bound 32 and no length bound. *)
Definition decode (bytes : list byte) : result t DecodeError :=
  try c := try_decode_with bytes 32 None in from_cbor c.
End Cancel.

Module Envelope.
Record t := mk {
  version : Z;
  session_id : string;
  stream_id : Z;
  kind : MessageKind.t;
  message_seq : option Z;
  bind : option Bind.t;
  bound : option Bound.t;
  bind_rejected : option Failure.t;
  open : option Open.t;
  opened : option Opened.t;
  open_failed : option Failure.t;
  data : option Data.t;
  window : option Window.t;
  flush : option Barrier.t;
  flushed : option Barrier.t;
  end_write : option EndWrite.t;
  close : option Close.t;
  closed : option Closed.t;
  cancel : option Cancel.t;
  failed : option Failure.t;
  check_identity : option CheckIdentity.t;
  identity_checked : option IdentityChecked.t;
  identity_check_failed : option Failure.t;
}.
#[global] Instance eq_dec : EqDecision t.
Proof. solve_decision. Defined.
#[global] Instance eta : Eta t :=
  fun r => mk (r.(version)) (r.(session_id)) (r.(stream_id)) (r.(kind)) (r.(message_seq)) (r.(bind)) (r.(bound)) (r.(bind_rejected)) (r.(open)) (r.(opened)) (r.(open_failed)) (r.(data)) (r.(window)) (r.(flush)) (r.(flushed)) (r.(end_write)) (r.(close)) (r.(closed)) (r.(cancel)) (r.(failed)) (r.(check_identity)) (r.(identity_checked)) (r.(identity_check_failed)).
Definition default : t :=
  mk 0 "" 0 MessageKind.default None None None None None None None None None None None None None None None None None None None.
Definition to_cbor (self : t) : Cbor :=
  Map [
    (1, Int self.(version));
    (2, Text (self.(session_id)));
    (3, Int self.(stream_id));
    (4, Int (MessageKind.wire (self.(kind))));
    (5, match self.(message_seq) with Some v => Int v | None => Null end);
    (10, match self.(bind) with Some v => Bind.to_cbor (v) | None => Null end);
    (11, match self.(bound) with Some v => Bound.to_cbor (v) | None => Null end);
    (12, match self.(bind_rejected) with Some v => Failure.to_cbor (v) | None => Null end);
    (13, match self.(open) with Some v => Open.to_cbor (v) | None => Null end);
    (14, match self.(opened) with Some v => Opened.to_cbor (v) | None => Null end);
    (15, match self.(open_failed) with Some v => Failure.to_cbor (v) | None => Null end);
    (16, match self.(data) with Some v => Data.to_cbor (v) | None => Null end);
    (17, match self.(window) with Some v => Window.to_cbor (v) | None => Null end);
    (18, match self.(flush) with Some v => Barrier.to_cbor (v) | None => Null end);
    (19, match self.(flushed) with Some v => Barrier.to_cbor (v) | None => Null end);
    (20, match self.(end_write) with Some v => EndWrite.to_cbor (v) | None => Null end);
    (21, match self.(close) with Some v => Close.to_cbor (v) | None => Null end);
    (22, match self.(closed) with Some v => Closed.to_cbor (v) | None => Null end);
    (23, match self.(cancel) with Some v => Cancel.to_cbor (v) | None => Null end);
    (24, match self.(failed) with Some v => Failure.to_cbor (v) | None => Null end);
    (25, match self.(check_identity) with Some v => CheckIdentity.to_cbor (v) | None => Null end);
    (26, match self.(identity_checked) with Some v => IdentityChecked.to_cbor (v) | None => Null end);
    (27, match self.(identity_check_failed) with Some v => Failure.to_cbor (v) | None => Null end)
  ].
Definition from_cbor (c : Cbor) : result t DecodeError :=
  try x_version := get c 1 try_int in
  try x_session_id := get c 2 try_text in
  try x_stream_id := get c 3 try_int in
  try x_kind := get c 4 (as_enum MessageKind.from_wire) in
  try x_message_seq := get_opt c 5 try_int in
  try x_bind := get_nullable c 10 Bind.from_cbor in
  try x_bound := get_nullable c 11 Bound.from_cbor in
  try x_bind_rejected := get_nullable c 12 Failure.from_cbor in
  try x_open := get_nullable c 13 Open.from_cbor in
  try x_opened := get_nullable c 14 Opened.from_cbor in
  try x_open_failed := get_nullable c 15 Failure.from_cbor in
  try x_data := get_nullable c 16 Data.from_cbor in
  try x_window := get_nullable c 17 Window.from_cbor in
  try x_flush := get_nullable c 18 Barrier.from_cbor in
  try x_flushed := get_nullable c 19 Barrier.from_cbor in
  try x_end_write := get_nullable c 20 EndWrite.from_cbor in
  try x_close := get_nullable c 21 Close.from_cbor in
  try x_closed := get_nullable c 22 Closed.from_cbor in
  try x_cancel := get_nullable c 23 Cancel.from_cbor in
  try x_failed := get_nullable c 24 Failure.from_cbor in
  try x_check_identity := get_opt c 25 CheckIdentity.from_cbor in
  try x_identity_checked := get_opt c 26 IdentityChecked.from_cbor in
  try x_identity_check_failed := get_opt c 27 Failure.from_cbor in
  Ok (mk x_version x_session_id x_stream_id x_kind x_message_seq x_bind x_bound x_bind_rejected x_open x_opened x_open_failed x_data x_window x_flush x_flushed x_end_write x_close x_closed x_cancel x_failed x_check_identity x_identity_checked x_identity_check_failed).
(** The generated [decode] applies the depth bound 32 and no length bound. *)
Definition decode (bytes : list byte) : result t DecodeError :=
  try c := try_decode_with bytes 32 None in from_cbor c.
End Envelope.
