(* ===== verification/ProtocolFacts.v ===== *)
(** * Properties of the wire types

    Two interfaces, with one instance per wire type: [Reads] says that the
    generated reader inverts the generated writer, [Shaped] that the writer's
    trees are in canonical key order and of bounded depth.  Together with the
    laws of the CBOR coder they give the typed round trip. *)
From S2P Require Import Prelude Utf8 Cbor CborFacts Protocol.

Class Reads {A} (to : A -> Cbor) (from : Cbor -> result A DecodeError) : Prop := {
  reads : forall v, from (to v) = Ok v;
  reads_nonnull : forall v, is_null (to v) = false;
}.

Class Shaped {A} (to : A -> Cbor) (d : nat) : Prop := {
  shaped_ordered : forall v, ordered (to v) = true;
  shaped_depth : forall v, (depth (to v) <= d)%nat;
}.

(** ** Fields of a map *)

Lemma get_ok {A} (to : A -> Cbor) from `{!Reads to from} m k v :
  assoc k m = Some (to v) -> get (Map m) k from = Ok v.
Proof. intros H. unfold get. cbn. rewrite H. apply reads. Qed.

Lemma get_nullable_ok {A} (to : A -> Cbor) from `{!Reads to from} m k o :
  assoc k m = Some (match o with Some v => to v | None => Null end) ->
  get_nullable (Map m) k from = Ok o.
Proof.
  intros H. unfold get_nullable. cbn. rewrite H. destruct o as [v|]; [|done].
  by rewrite reads_nonnull, reads.
Qed.

Lemma get_opt_ok {A} (to : A -> Cbor) from `{!Reads to from} m k o :
  assoc k m = Some (match o with Some v => to v | None => Null end) ->
  get_opt (Map m) k from = Ok o.
Proof.
  intros H. unfold get_opt. cbn. rewrite H. destruct o as [v|]; [|done].
  by rewrite reads_nonnull, reads.
Qed.

Lemma collect_map {A} (to : A -> Cbor) from `{!Reads to from} l : collect from (map to l) = Ok l.
Proof. induction l as [|v l IH]; [done|]. cbn. by rewrite reads, IH. Qed.

Lemma ordered_map m : ascending (map fst m) = true -> Forall (fun e => ordered e.2 = true) m ->
  ordered (Map m) = true.
Proof.
  intros Ha Hm. cbn. rewrite Ha. apply forallb_elem. intros e He.
  rewrite list.Forall_forall in Hm. by apply Hm.
Qed.

Lemma depth_map m d : Forall (fun e => (depth e.2 <= d)%nat) m -> (depth (Map m) <= S d)%nat.
Proof.
  intros Hm. cbn. apply le_n_S, max_list_bound. intros x Hx.
  apply list_elem_of_fmap in Hx as (e & -> & He). rewrite list.Forall_forall in Hm. by apply Hm.
Qed.

(** ** Scalars and lists *)

#[export] Instance int_reads : Reads Int try_int.
Proof. by split. Qed.
#[export] Instance text_reads : Reads Text try_text.
Proof. by split. Qed.
#[export] Instance bytes_reads : Reads Bytes try_bytes.
Proof. by split. Qed.
#[export] Instance bool_reads : Reads Bool try_bool.
Proof. by split. Qed.
#[export] Instance array_reads {A} (to : A -> Cbor) from `{!Reads to from} :
  Reads (fun l => Array (map to l)) (as_array from).
Proof. split; [|done]. intros l. unfold as_array. cbn. apply collect_map, _. Qed.

#[export] Instance int_shaped {A} (f : A -> Z) : Shaped (fun v => Int (f v)) 0.
Proof. by split. Qed.
#[export] Instance text_shaped : Shaped Text 0.
Proof. by split. Qed.
#[export] Instance bytes_shaped : Shaped Bytes 0.
Proof. by split. Qed.
#[export] Instance bool_shaped : Shaped Bool 0.
Proof. by split. Qed.
#[export] Instance array_shaped {A} (to : A -> Cbor) d `{!Shaped to d} :
  Shaped (fun l => Array (map to l)) (S d).
Proof.
  split; intros l; cbn.
  - apply forallb_elem. intros c Hc. apply list_elem_of_fmap in Hc as (v & -> & _). apply shaped_ordered.
  - apply le_n_S, max_list_bound. intros n Hn. apply list_elem_of_fmap in Hn as (c & -> & Hc).
    apply list_elem_of_fmap in Hc as (v & -> & _). apply shaped_depth.
Qed.

(** Read a struct field by field: every reader finds its key. *)
Ltac read_field :=
  match goal with
  | |- context [get (Map ?m) ?k ?f] => erewrite (get_ok _ f m k) by reflexivity
  | |- context [get_nullable (Map ?m) ?k ?f] => erewrite (get_nullable_ok _ f m k) by reflexivity
  | |- context [get_opt (Map ?m) ?k ?f] => erewrite (get_opt_ok _ f m k) by reflexivity
  end.
Ltac reads_fields :=
  split; [|done]; intros v;
  match goal with |- ?from (?to v) = _ => unfold from, to end;
  repeat read_field; by destruct v.

Ltac shaped_leaf :=
  first [done | apply Nat.le_0_l
        | apply (shaped_ordered (to := fun l => Array (map _ l)))
        | etrans; [apply (shaped_depth (to := fun l => Array (map _ l))) | lia]
        | apply shaped_ordered | etrans; [apply shaped_depth | lia]].
Ltac shaped_value := cbn [snd]; first [shaped_leaf | case_match; shaped_leaf].
Ltac shaped_fields :=
  split; intros v; match goal with |- context [?to v] => unfold to end;
  [apply ordered_map; [reflexivity|] | apply depth_map];
  repeat (apply list.Forall_cons; split; [shaped_value|]); apply list.Forall_nil; done.

(** ** Enums and structs *)

#[export] Instance MessageKind_reads : Reads (fun v => Int (MessageKind.wire v)) (as_enum MessageKind.from_wire).
Proof. by split; intros []. Qed.
#[export] Instance EndpointRole_reads : Reads (fun v => Int (EndpointRole.wire v)) (as_enum EndpointRole.from_wire).
Proof. by split; intros []. Qed.
#[export] Instance Scheme_reads : Reads (fun v => Int (Scheme.wire v)) (as_enum Scheme.from_wire).
Proof. by split; intros []. Qed.
#[export] Instance AuthPolicy_reads : Reads (fun v => Int (AuthPolicy.wire v)) (as_enum AuthPolicy.from_wire).
Proof. by split; intros []. Qed.
#[export] Instance GitService_reads : Reads (fun v => Int (GitService.wire v)) (as_enum GitService.from_wire).
Proof. by split; intros []. Qed.
#[export] Instance IdentityMode_reads : Reads (fun v => Int (IdentityMode.wire v)) (as_enum IdentityMode.from_wire).
Proof. by split; intros []. Qed.
#[export] Instance ErrorCode_reads : Reads (fun v => Int (ErrorCode.wire v)) (as_enum ErrorCode.from_wire).
Proof. by split; intros []. Qed.
#[export] Instance SetupFailureCause_reads : Reads (fun v => Int (SetupFailureCause.wire v)) (as_enum SetupFailureCause.from_wire).
Proof. by split; intros []. Qed.
#[export] Instance HelperFailureCause_reads : Reads (fun v => Int (HelperFailureCause.wire v)) (as_enum HelperFailureCause.from_wire).
Proof. by split; intros []. Qed.
#[export] Instance CapacityCause_reads : Reads (fun v => Int (CapacityCause.wire v)) (as_enum CapacityCause.from_wire).
Proof. by split; intros []. Qed.
#[export] Instance CapacitySignal_reads : Reads (fun v => Int (CapacitySignal.wire v)) (as_enum CapacitySignal.from_wire).
Proof. by split; intros []. Qed.
#[export] Instance Effect_reads : Reads (fun v => Int (Effect.wire v)) (as_enum Effect.from_wire).
Proof. by split; intros []. Qed.
#[export] Instance Disposition_reads : Reads (fun v => Int (Disposition.wire v)) (as_enum Disposition.from_wire).
Proof. by split; intros []. Qed.
#[export] Instance AuthMethod_reads : Reads (fun v => Int (AuthMethod.wire v)) (as_enum AuthMethod.from_wire).
Proof. by split; intros []. Qed.
#[export] Instance NativeSource_reads : Reads (fun v => Int (NativeSource.wire v)) (as_enum NativeSource.from_wire).
Proof. by split; intros []. Qed.
#[export] Instance NativeScheme_reads : Reads (fun v => Int (NativeScheme.wire v)) (as_enum NativeScheme.from_wire).
Proof. by split; intros []. Qed.
#[export] Instance NativeObservation_reads : Reads (fun v => Int (NativeObservation.wire v)) (as_enum NativeObservation.from_wire).
Proof. by split; intros []. Qed.
#[export] Instance NativeMechanism_reads : Reads (fun v => Int (NativeMechanism.wire v)) (as_enum NativeMechanism.from_wire).
Proof. by split; intros []. Qed.

#[export] Instance NativeFacts_reads : Reads NativeFacts.to_cbor NativeFacts.from_cbor.
Proof. reads_fields. Qed.
#[export] Instance NativeFacts_shaped : Shaped NativeFacts.to_cbor 1.
Proof. shaped_fields. Qed.
#[export] Instance Limits_reads : Reads Limits.to_cbor Limits.from_cbor.
Proof. reads_fields. Qed.
#[export] Instance Limits_shaped : Shaped Limits.to_cbor 1.
Proof. shaped_fields. Qed.
#[export] Instance Bind_reads : Reads Bind.to_cbor Bind.from_cbor.
Proof. reads_fields. Qed.
#[export] Instance Bind_shaped : Shaped Bind.to_cbor 2.
Proof. shaped_fields. Qed.
#[export] Instance Bound_reads : Reads Bound.to_cbor Bound.from_cbor.
Proof. reads_fields. Qed.
#[export] Instance Bound_shaped : Shaped Bound.to_cbor 2.
Proof. shaped_fields. Qed.
#[export] Instance RetryAttempt_reads : Reads RetryAttempt.to_cbor RetryAttempt.from_cbor.
Proof. reads_fields. Qed.
#[export] Instance RetryAttempt_shaped : Shaped RetryAttempt.to_cbor 1.
Proof. shaped_fields. Qed.
#[export] Instance CapacityDetail_reads : Reads CapacityDetail.to_cbor CapacityDetail.from_cbor.
Proof. reads_fields. Qed.
#[export] Instance CapacityDetail_shaped : Shaped CapacityDetail.to_cbor 1.
Proof. shaped_fields. Qed.
#[export] Instance FailureDetail_reads : Reads FailureDetail.to_cbor FailureDetail.from_cbor.
Proof. reads_fields. Qed.
#[export] Instance FailureDetail_shaped : Shaped FailureDetail.to_cbor 2.
Proof. shaped_fields. Qed.
#[export] Instance Destination_reads : Reads Destination.to_cbor Destination.from_cbor.
Proof. reads_fields. Qed.
#[export] Instance Destination_shaped : Shaped Destination.to_cbor 1.
Proof. shaped_fields. Qed.
#[export] Instance Identity_reads : Reads Identity.to_cbor Identity.from_cbor.
Proof. reads_fields. Qed.
#[export] Instance Identity_shaped : Shaped Identity.to_cbor 1.
Proof. shaped_fields. Qed.
#[export] Instance Deadlines_reads : Reads Deadlines.to_cbor Deadlines.from_cbor.
Proof. reads_fields. Qed.
#[export] Instance Deadlines_shaped : Shaped Deadlines.to_cbor 1.
Proof. shaped_fields. Qed.
#[export] Instance Open_reads : Reads Open.to_cbor Open.from_cbor.
Proof. reads_fields. Qed.
#[export] Instance Open_shaped : Shaped Open.to_cbor 2.
Proof. shaped_fields. Qed.
#[export] Instance CheckIdentity_reads : Reads CheckIdentity.to_cbor CheckIdentity.from_cbor.
Proof. reads_fields. Qed.
#[export] Instance CheckIdentity_shaped : Shaped CheckIdentity.to_cbor 2.
Proof. shaped_fields. Qed.
#[export] Instance IdentityChecked_reads : Reads IdentityChecked.to_cbor IdentityChecked.from_cbor.
Proof. reads_fields. Qed.
#[export] Instance IdentityChecked_shaped : Shaped IdentityChecked.to_cbor 1.
Proof. shaped_fields. Qed.
#[export] Instance Facts_reads : Reads Facts.to_cbor Facts.from_cbor.
Proof. reads_fields. Qed.
#[export] Instance Facts_shaped : Shaped Facts.to_cbor 2.
Proof. shaped_fields. Qed.
#[export] Instance Failure_reads : Reads Failure.to_cbor Failure.from_cbor.
Proof. reads_fields. Qed.
#[export] Instance Failure_shaped : Shaped Failure.to_cbor 3.
Proof. shaped_fields. Qed.
#[export] Instance Opened_reads : Reads Opened.to_cbor Opened.from_cbor.
Proof. reads_fields. Qed.
#[export] Instance Opened_shaped : Shaped Opened.to_cbor 3.
Proof. shaped_fields. Qed.
#[export] Instance Data_reads : Reads Data.to_cbor Data.from_cbor.
Proof. reads_fields. Qed.
#[export] Instance Data_shaped : Shaped Data.to_cbor 1.
Proof. shaped_fields. Qed.
#[export] Instance Window_reads : Reads Window.to_cbor Window.from_cbor.
Proof. reads_fields. Qed.
#[export] Instance Window_shaped : Shaped Window.to_cbor 1.
Proof. shaped_fields. Qed.
#[export] Instance Barrier_reads : Reads Barrier.to_cbor Barrier.from_cbor.
Proof. reads_fields. Qed.
#[export] Instance Barrier_shaped : Shaped Barrier.to_cbor 1.
Proof. shaped_fields. Qed.
#[export] Instance EndWrite_reads : Reads EndWrite.to_cbor EndWrite.from_cbor.
Proof. reads_fields. Qed.
#[export] Instance EndWrite_shaped : Shaped EndWrite.to_cbor 1.
Proof. shaped_fields. Qed.
#[export] Instance Close_reads : Reads Close.to_cbor Close.from_cbor.
Proof. reads_fields. Qed.
#[export] Instance Close_shaped : Shaped Close.to_cbor 1.
Proof. shaped_fields. Qed.
#[export] Instance Closed_reads : Reads Closed.to_cbor Closed.from_cbor.
Proof. reads_fields. Qed.
#[export] Instance Closed_shaped : Shaped Closed.to_cbor 4.
Proof. shaped_fields. Qed.
#[export] Instance Cancel_reads : Reads Cancel.to_cbor Cancel.from_cbor.
Proof. reads_fields. Qed.
#[export] Instance Cancel_shaped : Shaped Cancel.to_cbor 1.
Proof. shaped_fields. Qed.
#[export] Instance Envelope_reads : Reads Envelope.to_cbor Envelope.from_cbor.
Proof. reads_fields. Qed.
#[export] Instance Envelope_shaped : Shaped Envelope.to_cbor 5.
Proof. shaped_fields. Qed.

(** ** From trees to bytes *)

(** Encoding and decoding a canonical tree of bounded depth gives it back. *)
Lemma try_decode_enc c : encodable c = true -> ordered c = true -> (depth c <= 32)%nat ->
  try_decode (encode c) = Ok c.
Proof.
  intros He Ho Hd. unfold try_decode, try_decode_with, encode, DEFAULT_MAX_DEPTH, MAX_DEPTH_CEILING, is_some_and.
  pose proof (dec_enc c He 32 32%nat Hd []) as Hdec. rewrite app_nil_r in Hdec.
  change (Z.to_nat (Z.min 32 128)) with 32%nat. change (Z.min 32 128) with 32.
  rewrite Hdec. by rewrite canon_ordered.
Qed.

Lemma try_decode_writer {A} (to : A -> Cbor) d `{!Shaped to d} v : (d <= 32)%nat ->
  encodable (to v) = true -> try_decode (encode (to v)) = Ok (to v).
Proof.
  intros Hd He. apply try_decode_enc; [done | apply shaped_ordered |].
  pose proof (shaped_depth (to := to) v). lia.
Qed.
