(* ===== verification/Budget.v ===== *)
(** * The admission budget (src/src/budget.rs)

    A typed walk over a message charges its exact canonical encoded length and
    a conservative allocation estimate against negotiated limits.  Sizes of
    Rust types are not fixed by the language: they are the [Layout] the
    definitions take, with the bounds the arithmetic relies on. *)
From S2P Require Import Prelude Utf8 Cbor Protocol.

(** [std::mem::size_of] of the types whose size the sources charge. *)
Class Layout := {
  size_of_cbor : Z;
  size_of_stream_state : Z;
  size_of_pending : Z;
  layout_cbor : 0 <= size_of_cbor <= 4096;
  layout_stream_state : 0 <= size_of_stream_state <= 65536;
  layout_pending : 0 <= size_of_pending <= 65536;
}.

(** Sizes a 64-bit build has, for evaluating the definitions. *)
Definition layout64 : Layout.
Proof. refine {| size_of_cbor := 32; size_of_stream_state := 1688; size_of_pending := 1560 |}; lia. Defined.

(** src/src/codec.rs: the error type and the hard ceilings. *)
Module CodecError.
Inductive t := FrameTooLarge | Bounds | InvalidMessage | UnsupportedVersion | Malformed.
#[global] Instance eq_dec : EqDecision t.
Proof. solve_decision. Defined.
End CodecError.

Definition MAX_FRAME : Z := 128 * 1024.
Definition MAX_BOOTSTRAP : Z := 64 * 1024.
Definition MAX_DATA : Z := 64 * 1024.
Definition MAX_METADATA : Z := 16 * 1024.
Definition MAX_DEPTH : Z := 16.
Definition MAX_ENTRIES : Z := 256.
Definition MAX_ALLOCATION : Z := 512 * 1024.
Definition MAX_BOOTSTRAP_ALLOCATION : Z := 256 * 1024.

Module Budget.
Record t := mk {
  encoded : Z;
  allocation : Z;
  entries : Z;
  bootstrap : bool;
  limits : Limits.t;
}.
#[global] Instance eta : Eta t :=
  fun r => mk (r.(encoded)) (r.(allocation)) (r.(entries)) (r.(bootstrap)) (r.(limits)).

Section budget.
Context {L : Layout}.

(** The length of a CBOR head with this argument. *)
Definition head (value : Z) : Z :=
  if value <=? 23 then 1
  else if value <=? 255 then 2
  else if value <=? 65535 then 3
  else if value <=? 0xffffffff then 5
  else 9.

Definition new (bootstrap : bool) (limits : Limits.t) : t := mk 0 0 0 bootstrap limits.

Definition charge (encoded' allocation' : Z) (b : t) : result t CodecError.t :=
  try e := ok_or (checked_add_u64 b.(encoded) encoded') CodecError.Bounds in
  let b := b <| encoded := e |> in
  try a := ok_or (checked_add_u64 b.(allocation) allocation') CodecError.Bounds in
  let b := b <| allocation := a |> in
  let frame := as_usize b.(limits).(Limits.encoded_frame) in
  let allocation_limit := as_usize b.(limits).(Limits.decode_allocation) in
  let '(max_frame, max_allocation) :=
    if b.(bootstrap)
    then (Z.min frame MAX_BOOTSTRAP, Z.min allocation_limit MAX_BOOTSTRAP_ALLOCATION)
    else (frame, allocation_limit) in
  if max_frame <? b.(encoded) then Err CodecError.Bounds
  else
    try total := ok_or (checked_add_u64 b.(allocation) b.(encoded)) CodecError.Bounds in
    if max_allocation <? total then Err CodecError.Bounds else Ok b.

Definition node (depth encoded' : Z) (b : t) : result t CodecError.t :=
  try n := ok_or (checked_add_u64 b.(entries) 1) CodecError.Bounds in
  let b := b <| entries := n |> in
  if (as_usize b.(limits).(Limits.nesting) <? depth)
     || (as_usize b.(limits).(Limits.collection_entries) <? b.(entries))
  then Err CodecError.Bounds
  else charge encoded' (4 * size_of_cbor + 32) b.

Definition scalar (depth : Z) (b : t) : result t CodecError.t := node depth 1 b.

Definition integer (value depth : Z) (b : t) : result t CodecError.t :=
  let argument := if value <? 0 then Z.abs value - 1 else as_u64 value in
  node depth (head argument) b.

Definition key (tag : Z) (b : t) : result t CodecError.t := charge (head tag) 32 b.

Definition bytes (length max depth : Z) (b : t) : result t CodecError.t :=
  let negotiated :=
    if max =? MAX_DATA then b.(limits).(Limits.data_payload)
    else b.(limits).(Limits.metadata_bytes) in
  if Z.min max (as_usize negotiated) <? length then Err CodecError.Bounds
  else
    try b := node depth (head length) b in
    try quad := ok_or (checked_mul_u64 length 4) CodecError.Bounds in
    charge length quad b.

Definition container (count depth : Z) (b : t) : result t CodecError.t :=
  try b := node depth (head count) b in
  if saturating_sub_u64 (as_usize b.(limits).(Limits.collection_entries)) b.(entries) <? count
  then Err CodecError.Bounds
  else Ok b.

Definition total_charge (b : t) : result Z CodecError.t :=
  ok_or (checked_add_u64 b.(encoded) b.(allocation)) CodecError.Bounds.
End budget.
End Budget.
