(* ===== verification/Admission.v ===== *)
(** * Typed admission (src/src/admission.rs)

    One visitor per message type: it charges the fields of its struct in tag
    order against the [Budget], which stops the walk at the first limit it
    passes. *)
From S2P Require Import Prelude Utf8 Cbor Protocol Budget.
Import Budget.

Section visitors.
Context {L : Layout}.

(** [for item in list]: the walk stops at the first refusal. *)
Fixpoint for_each {A} (f : A -> Budget.t -> result Budget.t CodecError.t) (l : list A) (b : Budget.t)
    : result Budget.t CodecError.t :=
  match l with
  | [] => Ok b
  | x :: l' => try b := f x b in for_each f l' b
  end.

Definition visit_nativefacts (value : NativeFacts.t) (depth : Z) (b : Budget.t) : result Budget.t CodecError.t :=
  try b := container 5 depth b in
  try b := key 1 b in
  try b := integer (NativeSource.wire value.(NativeFacts.source)) (depth + 1) b in
  try b := key 2 b in
  try b := integer (NativeScheme.wire value.(NativeFacts.scheme)) (depth + 1) b in
  try b := key 3 b in
  try b := integer (NativeObservation.wire value.(NativeFacts.observation)) (depth + 1) b in
  try b := key 4 b in
  try b := match value.(NativeFacts.mechanism) with
    | Some item => integer (NativeMechanism.wire item) (depth + 1) b
    | None => scalar (depth + 1) b
    end in
  try b := key 5 b in
  try b := scalar (depth + 1) b in
  Ok b.

Definition visit_limits (value : Limits.t) (depth : Z) (b : Budget.t) : result Budget.t CodecError.t :=
  try b := container 11 depth b in
  try b := key 1 b in
  try b := integer value.(Limits.encoded_frame) (depth + 1) b in
  try b := key 2 b in
  try b := integer value.(Limits.data_payload) (depth + 1) b in
  try b := key 3 b in
  try b := integer value.(Limits.metadata_bytes) (depth + 1) b in
  try b := key 4 b in
  try b := integer value.(Limits.nesting) (depth + 1) b in
  try b := key 5 b in
  try b := integer value.(Limits.collection_entries) (depth + 1) b in
  try b := key 6 b in
  try b := integer value.(Limits.decode_allocation) (depth + 1) b in
  try b := key 7 b in
  try b := integer value.(Limits.queued_bytes) (depth + 1) b in
  try b := key 8 b in
  try b := integer value.(Limits.queued_frames) (depth + 1) b in
  try b := key 9 b in
  try b := integer value.(Limits.receive_window) (depth + 1) b in
  try b := key 10 b in
  try b := integer value.(Limits.control_reserve_bytes) (depth + 1) b in
  try b := key 11 b in
  try b := integer value.(Limits.control_reserve_frames) (depth + 1) b in
  Ok b.

Definition visit_bind (value : Bind.t) (depth : Z) (b : Budget.t) : result Budget.t CodecError.t :=
  try b := container 5 depth b in
  try b := key 1 b in
  try b := container (len value.(Bind.versions)) (depth + 1) b in
  try b := for_each (fun item b => integer item (depth + 1 + 1) b) value.(Bind.versions) b in
  try b := key 2 b in
  try b := integer (EndpointRole.wire value.(Bind.role)) (depth + 1) b in
  try b := key 3 b in
  try b := container (len value.(Bind.schemes)) (depth + 1) b in
  try b := for_each (fun item b => integer (Scheme.wire item) (depth + 1 + 1) b) value.(Bind.schemes) b in
  try b := key 4 b in
  try b := container (len value.(Bind.policies)) (depth + 1) b in
  try b := for_each (fun item b => integer (AuthPolicy.wire item) (depth + 1 + 1) b) value.(Bind.policies) b in
  try b := key 5 b in
  try b := visit_limits value.(Bind.receive_limits) (depth + 1) b in
  Ok b.

Definition visit_bound (value : Bound.t) (depth : Z) (b : Budget.t) : result Budget.t CodecError.t :=
  try b := container 7 depth b in
  try b := key 1 b in
  try b := integer value.(Bound.version) (depth + 1) b in
  try b := key 2 b in
  try b := bytes (slen (value.(Bound.endpoint_id))) MAX_METADATA (depth + 1) b in
  try b := key 3 b in
  try b := integer (EndpointRole.wire value.(Bound.role)) (depth + 1) b in
  try b := key 4 b in
  try b := container (len value.(Bound.schemes)) (depth + 1) b in
  try b := for_each (fun item b => integer (Scheme.wire item) (depth + 1 + 1) b) value.(Bound.schemes) b in
  try b := key 5 b in
  try b := container (len value.(Bound.policies)) (depth + 1) b in
  try b := for_each (fun item b => integer (AuthPolicy.wire item) (depth + 1 + 1) b) value.(Bound.policies) b in
  try b := key 6 b in
  try b := visit_limits value.(Bound.receive_limits) (depth + 1) b in
  try b := key 7 b in
  try b := bytes (slen (value.(Bound.trust_owner))) MAX_METADATA (depth + 1) b in
  Ok b.

Definition visit_retryattempt (value : RetryAttempt.t) (depth : Z) (b : Budget.t) : result Budget.t CodecError.t :=
  try b := container 2 depth b in
  try b := key 1 b in
  try b := integer value.(RetryAttempt.attempt) (depth + 1) b in
  try b := key 2 b in
  try b := integer value.(RetryAttempt.attempts) (depth + 1) b in
  Ok b.

Definition visit_capacitydetail (value : CapacityDetail.t) (depth : Z) (b : Budget.t) : result Budget.t CodecError.t :=
  try b := container 9 depth b in
  try b := key 1 b in
  try b := integer (CapacityCause.wire value.(CapacityDetail.cause)) (depth + 1) b in
  try b := key 2 b in
  try b := match value.(CapacityDetail.scheme) with
    | Some item => integer (Scheme.wire item) (depth + 1) b
    | None => scalar (depth + 1) b
    end in
  try b := key 3 b in
  try b := match value.(CapacityDetail.host) with
    | Some item => bytes (slen (item)) MAX_METADATA (depth + 1) b
    | None => scalar (depth + 1) b
    end in
  try b := key 4 b in
  try b := match value.(CapacityDetail.port) with
    | Some item => integer item (depth + 1) b
    | None => scalar (depth + 1) b
    end in
  try b := key 5 b in
  try b := match value.(CapacityDetail.limit_applied) with
    | Some item => integer item (depth + 1) b
    | None => scalar (depth + 1) b
    end in
  try b := key 6 b in
  try b := match value.(CapacityDetail.max_per_host) with
    | Some item => integer item (depth + 1) b
    | None => scalar (depth + 1) b
    end in
  try b := key 7 b in
  try b := match value.(CapacityDetail.elapsed_ms) with
    | Some item => integer item (depth + 1) b
    | None => scalar (depth + 1) b
    end in
  try b := key 8 b in
  try b := match value.(CapacityDetail.last_signal) with
    | Some item => integer (CapacitySignal.wire item) (depth + 1) b
    | None => scalar (depth + 1) b
    end in
  try b := key 9 b in
  try b := match value.(CapacityDetail.retry_after_ms) with
    | Some item => integer item (depth + 1) b
    | None => scalar (depth + 1) b
    end in
  Ok b.

Definition visit_failuredetail (value : FailureDetail.t) (depth : Z) (b : Budget.t) : result Budget.t CodecError.t :=
  try b := container 6 depth b in
  try b := key 1 b in
  try b := match value.(FailureDetail.helper_cause) with
    | Some item => integer (HelperFailureCause.wire item) (depth + 1) b
    | None => scalar (depth + 1) b
    end in
  try b := key 2 b in
  try b := match value.(FailureDetail.pipe_kind) with
    | Some item => bytes (slen (item)) MAX_METADATA (depth + 1) b
    | None => scalar (depth + 1) b
    end in
  try b := key 3 b in
  try b := match value.(FailureDetail.schemes) with
    | Some item => try b := container (len item) (depth + 1) b in for_each (fun item b => bytes (slen (item)) MAX_METADATA (depth + 1 + 1) b) item b
    | None => scalar (depth + 1) b
    end in
  try b := key 4 b in
  try b := match value.(FailureDetail.retry_attempt) with
    | Some item => visit_retryattempt item (depth + 1) b
    | None => scalar (depth + 1) b
    end in
  try b := key 5 b in
  try b := match value.(FailureDetail.helper_budget_ms) with
    | Some item => integer item (depth + 1) b
    | None => scalar (depth + 1) b
    end in
  try b := key 6 b in
  try b := match value.(FailureDetail.capacity) with
    | Some item => visit_capacitydetail item (depth + 1) b
    | None => scalar (depth + 1) b
    end in
  Ok b.

Definition visit_facts (value : Facts.t) (depth : Z) (b : Budget.t) : result Budget.t CodecError.t :=
  try b := container 7 depth b in
  try b := key 1 b in
  try b := integer (AuthMethod.wire value.(Facts.method)) (depth + 1) b in
  try b := key 2 b in
  try b := scalar (depth + 1) b in
  try b := key 3 b in
  try b := match value.(Facts.authenticated) with
    | Some item => scalar (depth + 1) b
    | None => scalar (depth + 1) b
    end in
  try b := key 4 b in
  try b := match value.(Facts.key_fingerprint) with
    | Some item => bytes (slen (item)) MAX_METADATA (depth + 1) b
    | None => scalar (depth + 1) b
    end in
  try b := key 5 b in
  try b := match value.(Facts.http_status) with
    | Some item => integer item (depth + 1) b
    | None => scalar (depth + 1) b
    end in
  try b := key 6 b in
  try b := match value.(Facts.ssh_exit_status) with
    | Some item => integer item (depth + 1) b
    | None => scalar (depth + 1) b
    end in
  try b := key 7 b in
  try b := match value.(Facts.native) with
    | Some item => visit_nativefacts item (depth + 1) b
    | None => scalar (depth + 1) b
    end in
  Ok b.

Definition visit_failure (value : Failure.t) (depth : Z) (b : Budget.t) : result Budget.t CodecError.t :=
  try b := container 5 depth b in
  try b := key 1 b in
  try b := integer (ErrorCode.wire value.(Failure.code)) (depth + 1) b in
  try b := key 2 b in
  try b := integer (Effect.wire value.(Failure.effect)) (depth + 1) b in
  try b := key 3 b in
  try b := match value.(Failure.facts) with
    | Some item => visit_facts item (depth + 1) b
    | None => scalar (depth + 1) b
    end in
  try b := key 4 b in
  try b := match value.(Failure.setup_cause) with
    | Some item => integer (SetupFailureCause.wire item) (depth + 1) b
    | None => scalar (depth + 1) b
    end in
  try b := key 5 b in
  try b := match value.(Failure.detail) with
    | Some item => visit_failuredetail item (depth + 1) b
    | None => scalar (depth + 1) b
    end in
  Ok b.

Definition visit_destination (value : Destination.t) (depth : Z) (b : Budget.t) : result Budget.t CodecError.t :=
  try b := container 6 depth b in
  try b := key 1 b in
  try b := integer (Scheme.wire value.(Destination.scheme)) (depth + 1) b in
  try b := key 2 b in
  try b := bytes (slen (value.(Destination.host))) MAX_METADATA (depth + 1) b in
  try b := key 3 b in
  try b := integer value.(Destination.port) (depth + 1) b in
  try b := key 4 b in
  try b := bytes (slen (value.(Destination.path))) MAX_METADATA (depth + 1) b in
  try b := key 5 b in
  try b := match value.(Destination.ssh_username) with
    | Some item => bytes (slen (item)) MAX_METADATA (depth + 1) b
    | None => scalar (depth + 1) b
    end in
  try b := key 6 b in
  try b := match value.(Destination.https_username) with
    | Some item => bytes (slen (item)) MAX_METADATA (depth + 1) b
    | None => scalar (depth + 1) b
    end in
  Ok b.

Definition visit_identity (value : Identity.t) (depth : Z) (b : Budget.t) : result Budget.t CodecError.t :=
  try b := container 3 depth b in
  try b := key 1 b in
  try b := integer (IdentityMode.wire value.(Identity.mode)) (depth + 1) b in
  try b := key 2 b in
  try b := match value.(Identity.key_path) with
    | Some item => bytes (slen (item)) MAX_METADATA (depth + 1) b
    | None => scalar (depth + 1) b
    end in
  try b := key 3 b in
  try b := match value.(Identity.path_base) with
    | Some item => bytes (slen (item)) MAX_METADATA (depth + 1) b
    | None => scalar (depth + 1) b
    end in
  Ok b.

Definition visit_deadlines (value : Deadlines.t) (depth : Z) (b : Budget.t) : result Budget.t CodecError.t :=
  try b := container 5 depth b in
  try b := key 1 b in
  try b := integer value.(Deadlines.allocation_ms) (depth + 1) b in
  try b := key 2 b in
  try b := integer value.(Deadlines.connect_ms) (depth + 1) b in
  try b := key 3 b in
  try b := integer value.(Deadlines.io_ms) (depth + 1) b in
  try b := key 4 b in
  try b := integer value.(Deadlines.interaction_ms) (depth + 1) b in
  try b := key 5 b in
  try b := integer value.(Deadlines.cleanup_ms) (depth + 1) b in
  Ok b.

Definition visit_open (value : Open.t) (depth : Z) (b : Budget.t) : result Budget.t CodecError.t :=
  try b := container 8 depth b in
  try b := key 1 b in
  try b := bytes (slen (value.(Open.endpoint_id))) MAX_METADATA (depth + 1) b in
  try b := key 2 b in
  try b := bytes (slen (value.(Open.operation_id))) MAX_METADATA (depth + 1) b in
  try b := key 3 b in
  try b := visit_destination value.(Open.destination) (depth + 1) b in
  try b := key 4 b in
  try b := integer (GitService.wire value.(Open.service)) (depth + 1) b in
  try b := key 5 b in
  try b := visit_identity value.(Open.identity) (depth + 1) b in
  try b := key 6 b in
  try b := integer (AuthPolicy.wire value.(Open.policy)) (depth + 1) b in
  try b := key 7 b in
  try b := visit_deadlines value.(Open.deadlines) (depth + 1) b in
  try b := key 8 b in
  try b := visit_limits value.(Open.receive_limits) (depth + 1) b in
  Ok b.

Definition visit_checkidentity (value : CheckIdentity.t) (depth : Z) (b : Budget.t) : result Budget.t CodecError.t :=
  try b := container 4 depth b in
  try b := key 1 b in
  try b := bytes (slen (value.(CheckIdentity.endpoint_id))) MAX_METADATA (depth + 1) b in
  try b := key 2 b in
  try b := bytes (slen (value.(CheckIdentity.operation_id))) MAX_METADATA (depth + 1) b in
  try b := key 3 b in
  try b := visit_identity value.(CheckIdentity.identity) (depth + 1) b in
  try b := key 4 b in
  try b := integer value.(CheckIdentity.timeout_ms) (depth + 1) b in
  Ok b.

Definition visit_identitychecked (value : IdentityChecked.t) (depth : Z) (b : Budget.t) : result Budget.t CodecError.t :=
  try b := container 0 depth b in
  Ok b.

Definition visit_opened (value : Opened.t) (depth : Z) (b : Budget.t) : result Budget.t CodecError.t :=
  try b := container 6 depth b in
  try b := key 1 b in
  try b := bytes (slen (value.(Opened.connection_id))) MAX_METADATA (depth + 1) b in
  try b := key 2 b in
  try b := scalar (depth + 1) b in
  try b := key 3 b in
  try b := bytes (slen (value.(Opened.endpoint_id))) MAX_METADATA (depth + 1) b in
  try b := key 4 b in
  try b := bytes (slen (value.(Opened.trust_owner))) MAX_METADATA (depth + 1) b in
  try b := key 5 b in
  try b := visit_facts value.(Opened.facts) (depth + 1) b in
  try b := key 6 b in
  try b := visit_limits value.(Opened.receive_limits) (depth + 1) b in
  Ok b.

Definition visit_data (value : Data.t) (depth : Z) (b : Budget.t) : result Budget.t CodecError.t :=
  try b := container 2 depth b in
  try b := key 1 b in
  try b := integer value.(Data.offset) (depth + 1) b in
  try b := key 2 b in
  try b := bytes (len (value.(Data.payload))) MAX_DATA (depth + 1) b in
  Ok b.

Definition visit_window (value : Window.t) (depth : Z) (b : Budget.t) : result Budget.t CodecError.t :=
  try b := container 1 depth b in
  try b := key 1 b in
  try b := integer value.(Window.max_offset) (depth + 1) b in
  Ok b.

Definition visit_barrier (value : Barrier.t) (depth : Z) (b : Budget.t) : result Budget.t CodecError.t :=
  try b := container 2 depth b in
  try b := key 1 b in
  try b := integer value.(Barrier.barrier_id) (depth + 1) b in
  try b := key 2 b in
  try b := integer value.(Barrier.offset) (depth + 1) b in
  Ok b.

Definition visit_endwrite (value : EndWrite.t) (depth : Z) (b : Budget.t) : result Budget.t CodecError.t :=
  try b := container 1 depth b in
  try b := key 1 b in
  try b := integer value.(EndWrite.final_offset) (depth + 1) b in
  Ok b.

Definition visit_close (value : Close.t) (depth : Z) (b : Budget.t) : result Budget.t CodecError.t :=
  try b := container 1 depth b in
  try b := key 1 b in
  try b := integer value.(Close.final_offset) (depth + 1) b in
  Ok b.

Definition visit_closed (value : Closed.t) (depth : Z) (b : Budget.t) : result Budget.t CodecError.t :=
  try b := container 4 depth b in
  try b := key 1 b in
  try b := integer (Disposition.wire value.(Closed.disposition)) (depth + 1) b in
  try b := key 2 b in
  try b := scalar (depth + 1) b in
  try b := key 3 b in
  try b := visit_facts value.(Closed.facts) (depth + 1) b in
  try b := key 4 b in
  try b := match value.(Closed.failure) with
    | Some item => visit_failure item (depth + 1) b
    | None => scalar (depth + 1) b
    end in
  Ok b.

Definition visit_cancel (value : Cancel.t) (depth : Z) (b : Budget.t) : result Budget.t CodecError.t :=
  try b := container 1 depth b in
  try b := key 1 b in
  try b := integer (ErrorCode.wire value.(Cancel.reason)) (depth + 1) b in
  Ok b.

Definition visit_envelope (value : Envelope.t) (depth : Z) (b : Budget.t) : result Budget.t CodecError.t :=
  try b := container 23 depth b in
  try b := key 1 b in
  try b := integer value.(Envelope.version) (depth + 1) b in
  try b := key 2 b in
  try b := bytes (slen (value.(Envelope.session_id))) MAX_METADATA (depth + 1) b in
  try b := key 3 b in
  try b := integer value.(Envelope.stream_id) (depth + 1) b in
  try b := key 4 b in
  try b := integer (MessageKind.wire value.(Envelope.kind)) (depth + 1) b in
  try b := key 5 b in
  try b := match value.(Envelope.message_seq) with
    | Some item => integer item (depth + 1) b
    | None => scalar (depth + 1) b
    end in
  try b := key 10 b in
  try b := match value.(Envelope.bind) with
    | Some item => visit_bind item (depth + 1) b
    | None => scalar (depth + 1) b
    end in
  try b := key 11 b in
  try b := match value.(Envelope.bound) with
    | Some item => visit_bound item (depth + 1) b
    | None => scalar (depth + 1) b
    end in
  try b := key 12 b in
  try b := match value.(Envelope.bind_rejected) with
    | Some item => visit_failure item (depth + 1) b
    | None => scalar (depth + 1) b
    end in
  try b := key 13 b in
  try b := match value.(Envelope.open) with
    | Some item => visit_open item (depth + 1) b
    | None => scalar (depth + 1) b
    end in
  try b := key 14 b in
  try b := match value.(Envelope.opened) with
    | Some item => visit_opened item (depth + 1) b
    | None => scalar (depth + 1) b
    end in
  try b := key 15 b in
  try b := match value.(Envelope.open_failed) with
    | Some item => visit_failure item (depth + 1) b
    | None => scalar (depth + 1) b
    end in
  try b := key 16 b in
  try b := match value.(Envelope.data) with
    | Some item => visit_data item (depth + 1) b
    | None => scalar (depth + 1) b
    end in
  try b := key 17 b in
  try b := match value.(Envelope.window) with
    | Some item => visit_window item (depth + 1) b
    | None => scalar (depth + 1) b
    end in
  try b := key 18 b in
  try b := match value.(Envelope.flush) with
    | Some item => visit_barrier item (depth + 1) b
    | None => scalar (depth + 1) b
    end in
  try b := key 19 b in
  try b := match value.(Envelope.flushed) with
    | Some item => visit_barrier item (depth + 1) b
    | None => scalar (depth + 1) b
    end in
  try b := key 20 b in
  try b := match value.(Envelope.end_write) with
    | Some item => visit_endwrite item (depth + 1) b
    | None => scalar (depth + 1) b
    end in
  try b := key 21 b in
  try b := match value.(Envelope.close) with
    | Some item => visit_close item (depth + 1) b
    | None => scalar (depth + 1) b
    end in
  try b := key 22 b in
  try b := match value.(Envelope.closed) with
    | Some item => visit_closed item (depth + 1) b
    | None => scalar (depth + 1) b
    end in
  try b := key 23 b in
  try b := match value.(Envelope.cancel) with
    | Some item => visit_cancel item (depth + 1) b
    | None => scalar (depth + 1) b
    end in
  try b := key 24 b in
  try b := match value.(Envelope.failed) with
    | Some item => visit_failure item (depth + 1) b
    | None => scalar (depth + 1) b
    end in
  try b := key 25 b in
  try b := match value.(Envelope.check_identity) with
    | Some item => visit_checkidentity item (depth + 1) b
    | None => scalar (depth + 1) b
    end in
  try b := key 26 b in
  try b := match value.(Envelope.identity_checked) with
    | Some item => visit_identitychecked item (depth + 1) b
    | None => scalar (depth + 1) b
    end in
  try b := key 27 b in
  try b := match value.(Envelope.identity_check_failed) with
    | Some item => visit_failure item (depth + 1) b
    | None => scalar (depth + 1) b
    end in
  Ok b.

Definition allocation_charge (value : Envelope.t) (limits : Limits.t) : result Z CodecError.t :=
  let budget := Budget.new (value.(Envelope.stream_id) =? 0) limits in
  try budget := visit_envelope value 0 budget in
  Budget.total_charge budget.

Definition envelope (value : Envelope.t) (limits : Limits.t) : result unit CodecError.t :=
  try _ := allocation_charge value limits in Ok tt.
End visitors.
