(* ===== verification/Policy.v ===== *)
(** * The capability relation (src/src/policy.rs)

    Which authentication policy goes with which scheme and identity, and which
    flat capability lists denote only such pairs. *)
From S2P Require Import Prelude Utf8 Cbor Protocol.

Definition allows (scheme : Scheme.t) (policy : AuthPolicy.t) (identity : IdentityMode.t) : bool :=
  match scheme, policy, identity with
  | Scheme.Ssh, AuthPolicy.SshAmbient, IdentityMode.Ambient
  | Scheme.Ssh, AuthPolicy.SshExplicit, IdentityMode.ExplicitKey
  | Scheme.Https, AuthPolicy.Anonymous, IdentityMode.CredentialsDisabled
  | Scheme.Https, AuthPolicy.Gh, IdentityMode.Ambient
  | Scheme.Https, AuthPolicy.WindowsConfigured, IdentityMode.Ambient
  | Scheme.Https, AuthPolicy.WindowsDefault, IdentityMode.Ambient => true
  | _, _, _ => false
  end.

Definition native (policy : AuthPolicy.t) : bool :=
  match policy with
  | AuthPolicy.WindowsConfigured | AuthPolicy.WindowsDefault => true
  | _ => false
  end.

Definition supports (scheme : Scheme.t) (policy : AuthPolicy.t) : bool :=
  existsb (fun identity => allows scheme policy identity)
    [IdentityMode.Ambient; IdentityMode.ExplicitKey; IdentityMode.CredentialsDisabled].

Definition is_nil {A} (l : list A) : bool := match l with [] => true | _ => false end.

Lemma is_nil_false {A} (l : list A) : is_nil l = false <-> l ≠ [].
Proof. by destruct l. Qed.

Definition capabilities (schemes : list Scheme.t) (policies : list AuthPolicy.t) : bool :=
  negb (is_nil schemes) && negb (is_nil policies)
  && forallb (fun s => existsb (fun p => supports s p) policies) schemes
  && forallb (fun p => existsb (fun s => supports s p) schemes) policies.

(** Every policy is offered by exactly one scheme, under exactly one identity. *)
Lemma allows_unique s p i s' i' :
  allows s p i = true -> allows s' p i' = true -> s = s' /\ i = i'.
Proof. by destruct s, p, i, s', i'. Qed.

Lemma supports_allows s p : supports s p = true <-> exists i, allows s p i = true.
Proof.
  unfold supports. rewrite existsb_elem. split.
  - intros (i & _ & Hi). by exists i.
  - intros (i & Hi). exists i. split; [|done]. destruct i; set_solver.
Qed.

(** The lists of [capabilities] are closed: each member has a partner. *)
Lemma capabilities_spec ss ps : capabilities ss ps = true <->
  ss ≠ [] /\ ps ≠ [] /\ (forall s, s ∈ ss -> exists p, p ∈ ps /\ supports s p = true)
  /\ (forall p, p ∈ ps -> exists s, s ∈ ss /\ supports s p = true).
Proof.
  unfold capabilities. rewrite !andb_true_iff, !negb_true_iff, !forallb_elem, !is_nil_false.
  assert (Hs : forall s, existsb (supports s) ps = true <-> exists p, p ∈ ps /\ supports s p = true)
    by (intros; apply existsb_elem).
  assert (Hp : forall p, existsb (fun s => supports s p) ss = true <-> exists s, s ∈ ss /\ supports s p = true)
    by (intros; apply existsb_elem).
  setoid_rewrite Hs. setoid_rewrite Hp. tauto.
Qed.
