(* ===== verification/Validate.v ===== *)
(** * Structural validation (src/src/codec/validate.rs, failure_detail.rs, https_shape.rs)

    What a message must satisfy before any budget is charged: the limits, the
    envelope's shape, and the closed vocabulary of failure details. *)
From S2P Require Import Prelude Utf8 Cbor Protocol Budget Policy.

(** ** Limits *)

Definition limits (value : Limits.t) : result unit CodecError.t :=
  let fields := [
    value.(Limits.encoded_frame); value.(Limits.data_payload); value.(Limits.metadata_bytes);
    value.(Limits.nesting); value.(Limits.collection_entries); value.(Limits.decode_allocation);
    value.(Limits.queued_bytes); value.(Limits.queued_frames); value.(Limits.receive_window);
    value.(Limits.control_reserve_bytes); value.(Limits.control_reserve_frames)] in
  if existsb (fun v => v <=? 0) fields
     || (MAX_FRAME <? value.(Limits.encoded_frame))
     || (MAX_DATA <? value.(Limits.data_payload))
     || (MAX_METADATA <? value.(Limits.metadata_bytes))
     || (MAX_DEPTH <? value.(Limits.nesting))
     || (MAX_ENTRIES <? value.(Limits.collection_entries))
     || (MAX_ALLOCATION <? value.(Limits.decode_allocation))
     || (4 * 1024 * 1024 <? value.(Limits.queued_bytes))
     || (64 <? value.(Limits.queued_frames))
     || (value.(Limits.queued_bytes) <? value.(Limits.receive_window))
     || (value.(Limits.queued_bytes) <=? value.(Limits.control_reserve_bytes))
     || (value.(Limits.queued_frames) <=? value.(Limits.control_reserve_frames))
  then Err CodecError.Bounds
  else Ok tt.

(** ** Percent-decoded control characters *)

Definition hex (byte : Z) : option Z :=
  if (0x30 <=? byte) && (byte <=? 0x39) then Some (byte - 0x30)
  else if (0x61 <=? byte) && (byte <=? 0x66) then Some (byte - 0x61 + 10)
  else if (0x41 <=? byte) && (byte <=? 0x46) then Some (byte - 0x41 + 10)
  else None.

(** One step of the scan: the next decoded byte and the bytes after it. *)
Definition decode_percent (bytes : list Z) : option (Z * list Z) :=
  match bytes with
  | [] => None
  | 0x25 :: ((a :: b :: rest) as tail) =>
      match hex a, hex b with
      | Some a, Some b => Some (a * 16 + b, rest)
      | _, _ => Some (0x25, tail)
      end
  | byte :: rest => Some (byte, rest)
  end.

Fixpoint decoded_control_scan (fuel : nat) (bytes utf8 : list Z) (invalid unicode_control : bool) : bool :=
  match fuel with
  | O => unicode_control && negb invalid && is_nil utf8
  | S f =>
      match decode_percent bytes with
      | None => unicode_control && negb invalid && is_nil utf8
      | Some (byte, rest) =>
          if is_ascii_control byte then true
          else if invalid then decoded_control_scan f rest utf8 invalid unicode_control
          else
            let utf8 := utf8 ++ [byte] in
            match utf8_scan (length utf8) utf8 with
            | Utf8Ok text =>
                decoded_control_scan f rest [] invalid (unicode_control || existsb is_control text)
            | Utf8Err error_len =>
                decoded_control_scan f rest utf8
                  (is_some error_len || (len utf8 =? 4)) unicode_control
            end
      end
  end.

Definition has_decoded_control (value : string) : bool :=
  decoded_control_scan (S (String.length value)) (sbytes value) [] false false.

(** ** Failure details *)

Definition capacity_host (value : string) : bool :=
  if str_is_empty value || (255 <? slen value) then false
  else if contains_char 0x3A value
  then forallb (fun byte => is_ascii_hexdigit byte || among ":." byte) (sbytes value)
  else forallb (fun byte => is_ascii_alphanumeric byte || among "-._" byte) (sbytes value).

Definition scheme_token (value : string) : bool :=
  negb (str_is_empty value) && (slen value <=? 32)
  && forallb (fun byte => is_ascii_alphanumeric byte || among "!#$%&'*+-.^_`|~" byte) (sbytes value).

Definition pipe_kinds : list string := [
  "NotFound"; "PermissionDenied"; "ConnectionRefused"; "ConnectionReset"; "HostUnreachable";
  "NetworkUnreachable"; "ConnectionAborted"; "NotConnected"; "AddrInUse"; "AddrNotAvailable";
  "NetworkDown"; "BrokenPipe"; "AlreadyExists"; "WouldBlock"; "NotADirectory"; "IsADirectory";
  "DirectoryNotEmpty"; "ReadOnlyFilesystem"; "FilesystemLoop"; "StaleNetworkFileHandle";
  "InvalidInput"; "InvalidData"; "TimedOut"; "WriteZero"; "StorageFull"; "NotSeekable";
  "QuotaExceeded"; "FileTooLarge"; "ResourceBusy"; "ExecutableFileBusy"; "Deadlock";
  "CrossesDevices"; "TooManyLinks"; "InvalidFilename"; "ArgumentListTooLong"; "Interrupted";
  "Unsupported"; "UnexpectedEof"; "OutOfMemory"; "Other"]%string.

Definition pipe_kind (value : string) : bool := contains value pipe_kinds.

Definition in_range (lo hi v : Z) : bool := (lo <=? v) && (v <=? hi).

Definition capacity (failure : Failure.t) (detail : FailureDetail.t) (capacity : CapacityDetail.t)
    : result unit CodecError.t :=
  if negb (bool_decide (failure.(Failure.code) = ErrorCode.Capacity))
     || is_some detail.(FailureDetail.helper_cause)
     || is_some detail.(FailureDetail.pipe_kind)
     || is_some detail.(FailureDetail.schemes)
     || is_some detail.(FailureDetail.helper_budget_ms)
  then Err CodecError.InvalidMessage
  else
    let named := [is_some capacity.(CapacityDetail.scheme); is_some capacity.(CapacityDetail.host);
                  is_some capacity.(CapacityDetail.port)] in
    let any := existsb id named in
    let all := forallb id named in
    if bool_decide (capacity.(CapacityDetail.cause) = CapacityCause.Local) then
      if any
         || is_some detail.(FailureDetail.retry_attempt)
         || is_some capacity.(CapacityDetail.limit_applied)
         || is_some capacity.(CapacityDetail.max_per_host)
         || is_some capacity.(CapacityDetail.elapsed_ms)
         || is_some capacity.(CapacityDetail.last_signal)
         || is_some capacity.(CapacityDetail.retry_after_ms)
      then Err CodecError.InvalidMessage
      else Ok tt
    else
      match capacity.(CapacityDetail.max_per_host) with
      | None => Err CodecError.InvalidMessage
      | Some ceiling =>
          if (any && negb all)
             || is_none_or capacity.(CapacityDetail.elapsed_ms) (fun ms => ms <? 0)
             || is_some_and capacity.(CapacityDetail.retry_after_ms) (fun ms => ms <? 0)
             || (bool_decide (capacity.(CapacityDetail.cause) = CapacityCause.ServerRetryAfter)
                 && is_none capacity.(CapacityDetail.retry_after_ms))
             || negb (in_range 1 U32_MAX ceiling)
             || is_some_and capacity.(CapacityDetail.limit_applied)
                  (fun limit => (limit <? 1) || (ceiling <? limit))
             || is_some_and capacity.(CapacityDetail.port) (fun port => negb (in_range 1 65535 port))
             || is_some_and capacity.(CapacityDetail.host) (fun host => negb (capacity_host host))
          then Err CodecError.InvalidMessage
          else Ok tt
      end.

Definition failure_detail (failure : Failure.t) : result unit CodecError.t :=
  match failure.(Failure.detail) with
  | None => Ok tt
  | Some detail =>
      try _ :=
        match detail.(FailureDetail.helper_budget_ms) with
        | Some allowance =>
            let bounded :=
              match failure.(Failure.setup_cause) with
              | Some SetupFailureCause.Interaction => in_range 1 120000 allowance
              | Some SetupFailureCause.Allocation => in_range 0 86400000 allowance
              | _ => false
              end in
            if negb (bool_decide (failure.(Failure.code) = ErrorCode.Timeout))
               || negb (bool_decide (failure.(Failure.effect) = Effect.None))
               || negb bounded
               || is_some detail.(FailureDetail.helper_cause)
               || is_some detail.(FailureDetail.pipe_kind)
               || is_some detail.(FailureDetail.schemes)
            then Err CodecError.InvalidMessage else Ok tt
        | None => Ok tt
        end in
      if is_some detail.(FailureDetail.helper_cause) && is_some detail.(FailureDetail.schemes)
      then Err CodecError.InvalidMessage
      else
        try _ :=
          match detail.(FailureDetail.helper_cause), detail.(FailureDetail.pipe_kind) with
          | Some HelperFailureCause.PipeFailure, Some kind =>
              if pipe_kind kind then Ok tt else Err CodecError.InvalidMessage
          | Some HelperFailureCause.PipeFailure, None => Err CodecError.InvalidMessage
          | _, Some _ => Err CodecError.InvalidMessage
          | _, None => Ok tt
          end in
        if is_some_and detail.(FailureDetail.schemes)
             (fun schemes => (4 <? len schemes) || existsb (fun scheme => negb (scheme_token scheme)) schemes)
        then Err CodecError.InvalidMessage
        else if is_some_and detail.(FailureDetail.retry_attempt)
             (fun count => (count.(RetryAttempt.attempt) <=? 0)
                || (count.(RetryAttempt.attempts) <? count.(RetryAttempt.attempt))
                || (U32_MAX <? count.(RetryAttempt.attempts)))
        then Err CodecError.InvalidMessage
        else
          match detail.(FailureDetail.capacity) with
          | Some c => capacity failure detail c
          | None => Ok tt
          end
  end.

(** ** Parts of the envelope *)

Definition bind_rejection (failure : Failure.t) : result unit CodecError.t :=
  if negb (match failure.(Failure.code) with
           | ErrorCode.UnsupportedVersion | ErrorCode.UnsupportedOperation | ErrorCode.Capacity
           | ErrorCode.InvalidRequest | ErrorCode.Cancelled => true
           | _ => false
           end)
     || negb (bool_decide (failure.(Failure.effect) = Effect.None))
     || is_some failure.(Failure.facts)
     || is_some failure.(Failure.detail)
  then Err CodecError.InvalidMessage
  else Ok tt.

Definition failure_has_v2_fields (failure : Failure.t) : bool :=
  is_some failure.(Failure.facts) || bool_decide (failure.(Failure.code) = ErrorCode.RepositoryRefused).

Definition valid_identity (value : Identity.t) : bool :=
  if negb (bool_decide (value.(Identity.mode) = IdentityMode.ExplicitKey))
  then is_none value.(Identity.key_path) && is_none value.(Identity.path_base)
  else
    is_some_and value.(Identity.key_path) (fun path => negb (str_is_empty path) && negb (contains_char 0 path))
    && is_none_or value.(Identity.path_base) (fun base => negb (str_is_empty base) && negb (contains_char 0 base)).

Definition native_facts (facts : Facts.t) (version : Z) : result unit CodecError.t :=
  if negb (Bool.eqb (bool_decide (facts.(Facts.method) = AuthMethod.Sspi)) (is_some facts.(Facts.native)))
  then Err CodecError.InvalidMessage
  else
    match facts.(Facts.native) with
    | None => Ok tt
    | Some native =>
        if (version =? 1) || is_some facts.(Facts.key_fingerprint) || is_some facts.(Facts.ssh_exit_status)
        then Err CodecError.InvalidMessage
        else
          let valid :=
            match native.(NativeFacts.observation) with
            | NativeObservation.NotStarted =>
                is_none native.(NativeFacts.mechanism) && negb native.(NativeFacts.authoritative)
                && negb facts.(Facts.credential_offered)
            | NativeObservation.Unresolved =>
                bool_decide (native.(NativeFacts.scheme) = NativeScheme.Negotiate)
                && is_none native.(NativeFacts.mechanism) && negb native.(NativeFacts.authoritative)
            | NativeObservation.Selected =>
                match native.(NativeFacts.scheme), native.(NativeFacts.mechanism) with
                | NativeScheme.Negotiate, Some _ => true
                | NativeScheme.Ntlm, Some NativeMechanism.Ntlm => true
                | _, _ => false
                end
            end in
          if negb valid
             || (bool_decide (native.(NativeFacts.scheme) = NativeScheme.Digest)
                 && (negb (bool_decide (native.(NativeFacts.source) = NativeSource.Configured))
                     || negb (bool_decide (native.(NativeFacts.observation) = NativeObservation.NotStarted))))
             || (bool_decide (facts.(Facts.authenticated) = Some true)
                 && (negb facts.(Facts.credential_offered)
                     || negb (bool_decide (native.(NativeFacts.observation) = NativeObservation.Selected))
                     || negb native.(NativeFacts.authoritative)))
          then Err CodecError.InvalidMessage
          else Ok tt
    end.

(** [value.port.to_string().len()] for a port, which is at most 65535. *)
Definition port_digits (port : Z) : Z :=
  if port <? 10 then 1 else if port <? 100 then 2 else if port <? 1000 then 3
  else if port <? 10000 then 4 else 5.

Definition starts_with_bracket (s : string) : bool :=
  match sbytes s with 0x5B :: _ => true | _ => false end.

Definition destination (value : Destination.t) : result unit CodecError.t :=
  if str_is_empty value.(Destination.host)
     || existsb (fun c => is_control c || is_whitespace c || among "@/?#\" c) (chars value.(Destination.host))
     || negb (in_range 1 65535 value.(Destination.port))
     || str_is_empty value.(Destination.path)
     || contains_char 0 value.(Destination.path)
  then Err CodecError.InvalidMessage
  else
    let https := bool_decide (value.(Destination.scheme) = Scheme.Https) in
    if https
       && (is_some value.(Destination.ssh_username)
           || contains_char 0x3F value.(Destination.path) || contains_char 0x23 value.(Destination.path))
    then Err CodecError.InvalidMessage
    else
      try _ :=
        if https then
          let username := value.(Destination.https_username) in
          if is_some_and username (fun value =>
               str_is_empty value || (18000 <? slen value)
               || negb (forallb is_ascii (sbytes value))
               || existsb (fun byte => is_ascii_control byte || is_ascii_whitespace byte
                                       || among "@:/?#\" byte) (sbytes value)
               || has_decoded_control value)
             || (18000 <? slen value.(Destination.path))
             || has_decoded_control value.(Destination.path)
          then Err CodecError.InvalidMessage
          else
            let brackets :=
              if contains_char 0x3A value.(Destination.host)
                 && negb (starts_with_bracket value.(Destination.host)) then 2 else 0 in
            let port :=
              if value.(Destination.port) =? 443 then 0 else 1 + port_digits value.(Destination.port) in
            let selector := match username with None => 0 | Some value => slen value + 1 end in
            if 18000 <? 8 + slen value.(Destination.host) + brackets + port + selector
                        + slen value.(Destination.path)
            then Err CodecError.InvalidMessage
            else Ok tt
        else if is_some value.(Destination.https_username) then Err CodecError.InvalidMessage
        else Ok tt in
      if bool_decide (value.(Destination.scheme) = Scheme.Ssh)
         && is_none_or value.(Destination.ssh_username)
              (fun s => str_is_empty s || existsb is_control (chars s))
      then Err CodecError.InvalidMessage
      else Ok tt.

(** ** The envelope *)

(** [Option::into_iter().flatten()] over a row of optional parts. *)
Definition flatten {A} (l : list (option A)) : list A := omap id l.

(** [for x in xs { f(x)?; }] *)
Fixpoint each {A E} (f : A -> result unit E) (l : list A) : result unit E :=
  match l with
  | [] => Ok tt
  | x :: l => try _ := f x in each f l
  end.

(** [if let Some(x) = o { body }] as a statement. *)
Definition when {A E} (o : option A) (f : A -> result unit E) : result unit E :=
  match o with Some x => f x | None => Ok tt end.

(** [if guard { return Err(e); }] *)
Definition refuse {E} (guard : bool) (e : E) : result unit E := if guard then Err e else Ok tt.

Definition bodies (value : Envelope.t) : list bool := [
  is_some value.(Envelope.bind); is_some value.(Envelope.bound); is_some value.(Envelope.bind_rejected);
  is_some value.(Envelope.open); is_some value.(Envelope.opened); is_some value.(Envelope.open_failed);
  is_some value.(Envelope.data); is_some value.(Envelope.window); is_some value.(Envelope.flush);
  is_some value.(Envelope.flushed); is_some value.(Envelope.end_write); is_some value.(Envelope.close);
  is_some value.(Envelope.closed); is_some value.(Envelope.cancel); is_some value.(Envelope.failed);
  is_some value.(Envelope.check_identity); is_some value.(Envelope.identity_checked);
  is_some value.(Envelope.identity_check_failed)].

Definition bind_body (bind : Bind.t) : result unit CodecError.t :=
  try _ := refuse (is_nil bind.(Bind.versions)
                   || negb (capabilities bind.(Bind.schemes) bind.(Bind.policies)))
             CodecError.InvalidMessage in
  limits bind.(Bind.receive_limits).

Definition bound_body (bound : Bound.t) : result unit CodecError.t :=
  try _ := refuse (negb (in_range 1 3 bound.(Bound.version))
                   || str_is_empty bound.(Bound.endpoint_id)
                   || str_is_empty bound.(Bound.trust_owner)
                   || negb (capabilities bound.(Bound.schemes) bound.(Bound.policies))
                   || ((bound.(Bound.version) =? 1) && existsb native bound.(Bound.policies)))
             CodecError.InvalidMessage in
  limits bound.(Bound.receive_limits).

Definition open_body (version : Z) (open : Open.t) : result unit CodecError.t :=
  try _ := limits open.(Open.receive_limits) in
  try _ := destination open.(Open.destination) in
  try _ := refuse (str_is_empty open.(Open.endpoint_id) || str_is_empty open.(Open.operation_id))
             CodecError.InvalidMessage in
  try _ := refuse (negb (valid_identity open.(Open.identity))) CodecError.InvalidMessage in
  try _ := refuse (negb (allows open.(Open.destination).(Destination.scheme) open.(Open.policy)
                           open.(Open.identity).(Identity.mode))) CodecError.InvalidMessage in
  try _ := refuse ((version =? 1) && native open.(Open.policy)) CodecError.InvalidMessage in
  let d := open.(Open.deadlines) in
  refuse (existsb (fun v => v <=? 0)
            [d.(Deadlines.allocation_ms); d.(Deadlines.interaction_ms); d.(Deadlines.cleanup_ms)]
          || existsb (fun v => negb (in_range 0 I32_MAX v)) [d.(Deadlines.connect_ms); d.(Deadlines.io_ms)])
    CodecError.InvalidMessage.

Definition check_identity_body (check : CheckIdentity.t) : result unit CodecError.t :=
  refuse (str_is_empty check.(CheckIdentity.endpoint_id)
          || str_is_empty check.(CheckIdentity.operation_id)
          || (check.(CheckIdentity.timeout_ms) <=? 0)
          || (I32_MAX <? check.(CheckIdentity.timeout_ms))
          || negb (bool_decide (check.(CheckIdentity.identity).(Identity.mode) = IdentityMode.ExplicitKey))
          || negb (valid_identity check.(CheckIdentity.identity)))
    CodecError.InvalidMessage.

Definition opened_body (opened : Opened.t) : result unit CodecError.t :=
  try _ := limits opened.(Opened.receive_limits) in
  refuse (str_is_empty opened.(Opened.connection_id)
          || str_is_empty opened.(Opened.endpoint_id)
          || str_is_empty opened.(Opened.trust_owner)
          || (opened.(Opened.reused) && opened.(Opened.facts).(Facts.credential_offered)
              && negb (match opened.(Opened.facts).(Facts.method) with
                       | AuthMethod.Gh | AuthMethod.Sspi => true | _ => false end)))
    CodecError.InvalidMessage.

(** The ranges of the data-phase bodies. *)
Definition out_of_range (value : Envelope.t) : bool :=
  is_some_and value.(Envelope.data) (fun v =>
    (v.(Data.offset) <? 0) || is_none (checked_add_i64 v.(Data.offset) (as_i64 (len v.(Data.payload)))))
  || is_some_and value.(Envelope.window) (fun v => v.(Window.max_offset) <? 0)
  || is_some_and value.(Envelope.flush) (fun v => (v.(Barrier.offset) <? 0) || (v.(Barrier.barrier_id) <=? 0))
  || is_some_and value.(Envelope.flushed) (fun v => (v.(Barrier.offset) <? 0) || (v.(Barrier.barrier_id) <=? 0))
  || is_some_and value.(Envelope.end_write) (fun v => v.(EndWrite.final_offset) <? 0)
  || is_some_and value.(Envelope.close) (fun v => v.(Close.final_offset) <? 0).

Definition envelope (value : Envelope.t) : result unit CodecError.t :=
  let version := value.(Envelope.version) in
  try _ := refuse (negb (in_range 1 3 version)) CodecError.UnsupportedVersion in
  try _ := refuse (str_is_empty value.(Envelope.session_id) || (128 <? slen value.(Envelope.session_id)))
             CodecError.InvalidMessage in
  let bodies := bodies value in
  let kind := MessageKind.wire value.(Envelope.kind) in
  try _ := refuse (negb (Nat.eqb (length (filter (fun present => present = true) bodies)) 1)
                   || negb (nth (Z.to_nat (kind - 1)) bodies false))
             CodecError.InvalidMessage in
  try _ := refuse (((kind <=? 3) && (negb (value.(Envelope.stream_id) =? 0) || negb (version =? 1)))
                   || ((3 <? kind) && (value.(Envelope.stream_id) <=? 0)))
             CodecError.InvalidMessage in
  try _ := refuse
             (if (version =? 3) && (0 <? value.(Envelope.stream_id))
              then is_none_or value.(Envelope.message_seq)
                     (fun sequence => (sequence <=? 0) || (sequence =? I64_MAX))
              else is_some value.(Envelope.message_seq))
             CodecError.InvalidMessage in
  try _ := refuse ((16 <=? kind) && (version <? 2)) CodecError.UnsupportedVersion in
  try _ := when value.(Envelope.bind) bind_body in
  try _ := when value.(Envelope.bound) bound_body in
  try _ := when value.(Envelope.bind_rejected) bind_rejection in
  try _ := each failure_detail (flatten [
             value.(Envelope.bind_rejected); value.(Envelope.open_failed); value.(Envelope.failed);
             value.(Envelope.identity_check_failed);
             and_then value.(Envelope.closed) Closed.failure]) in
  try _ := each (fun facts => native_facts facts version) (flatten [
             option_map Opened.facts value.(Envelope.opened);
             option_map Closed.facts value.(Envelope.closed);
             and_then value.(Envelope.bind_rejected) Failure.facts;
             and_then value.(Envelope.open_failed) Failure.facts;
             and_then value.(Envelope.failed) Failure.facts]) in
  try _ := refuse ((version =? 1)
                   && (is_some_and value.(Envelope.open_failed) failure_has_v2_fields
                       || is_some_and value.(Envelope.failed) failure_has_v2_fields))
             CodecError.InvalidMessage in
  try _ := when value.(Envelope.identity_check_failed) (fun failure =>
             refuse (negb (bool_decide (failure.(Failure.effect) = Effect.None))
                     || is_some failure.(Failure.facts)) CodecError.InvalidMessage) in
  try _ := when value.(Envelope.closed) (fun closed =>
             refuse (is_some_and closed.(Closed.failure) (fun failure =>
               is_some failure.(Failure.facts)
               || ((version =? 1) && bool_decide (failure.(Failure.code) = ErrorCode.RepositoryRefused))))
               CodecError.InvalidMessage) in
  try _ := when value.(Envelope.open) (open_body version) in
  try _ := when value.(Envelope.check_identity) check_identity_body in
  try _ := when value.(Envelope.opened) opened_body in
  try _ := refuse (out_of_range value) CodecError.InvalidMessage in
  refuse (is_some_and value.(Envelope.cancel) (fun cancel =>
            negb (match cancel.(Cancel.reason) with ErrorCode.Cancelled | ErrorCode.Timeout => true
                  | _ => false end)))
    CodecError.InvalidMessage.
