(* ===== verification/Codec.v ===== *)
(** * The bounded codec (src/src/codec.rs, src/src/codec/preflight.rs)

    [Preflight] scans encoded bytes for lengths, nesting, entry counts and an
    allocation charge before the allocating decoder runs.  [Codec] composes it
    with the typed admission, the structural validation and the CBOR coder. *)
From S2P Require Import Prelude Utf8 Cbor Protocol Budget Admission Policy Validate.

(** src/src/binding.rs: the limits the unnegotiated entry points apply. *)
Definition default_limits : Limits.t := {|
  Limits.encoded_frame := 131072;
  Limits.data_payload := 65536;
  Limits.metadata_bytes := 16384;
  Limits.nesting := 16;
  Limits.collection_entries := 256;
  Limits.decode_allocation := 524288;
  Limits.queued_bytes := 4194304;
  Limits.queued_frames := 64;
  Limits.receive_window := 1048576;
  Limits.control_reserve_bytes := 65536;
  Limits.control_reserve_frames := 8;
|}.

Module Preflight.
(** The scan's mutable part; [input] and [limits] never change. *)
Record Scan := mk {
  at_ : Z;
  entries : Z;
  allocation : Z;
  bootstrap : bool;
}.
#[global] Instance eta_scan : Eta Scan :=
  fun r => mk (r.(at_)) (r.(entries)) (r.(allocation)) (r.(bootstrap)).

Section scan.
Context {L : Layout}.
Variable input : list byte.
Variable limits : Limits.t.

Definition take (count : Z) (s : Scan) : result (list byte * Scan) CodecError.t :=
  try end_ := ok_or (checked_add_u64 s.(at_) count) CodecError.Bounds in
  if end_ <=? len input
  then Ok (firstn (Z.to_nat count) (skipn (Z.to_nat s.(at_)) input), s <| at_ := end_ |>)
  else Err CodecError.Malformed.

Definition head (s : Scan) : result ((Z * Z) * Scan) CodecError.t :=
  try (first, s) := take 1 s in
  let byte := be_value first in
  let info := Z.land byte 31 in
  try (value, s) :=
    if info <=? 23 then Ok (info, s)
    else
      let argument (count : Z) := try (b, s) := take count s in Ok (be_value b, s) in
      if info =? 24 then argument 1
      else if info =? 25 then argument 2
      else if info =? 26 then argument 4
      else if info =? 27 then argument 8
      else Err CodecError.Malformed in
  Ok ((Z.shiftr byte 5, value), s).

Definition charge (bytes : Z) (s : Scan) : result Scan CodecError.t :=
  try a := ok_or (checked_add_u64 s.(allocation) bytes) CodecError.Bounds in
  let s := s <| allocation := a |> in
  if as_usize limits.(Limits.decode_allocation) <? s.(allocation) then Err CodecError.Bounds else Ok s.

(** [for _ in 0..count] *)
Fixpoint repeat (count : nat) (body : Scan -> result Scan CodecError.t) (s : Scan)
    : result Scan CodecError.t :=
  match count with
  | O => Ok s
  | S n => try s := body s in repeat n body s
  end.

(** [fuel] is more than the nesting the limits leave: the test on [depth]
    always comes first. *)
Fixpoint item (fuel : nat) (depth parent : Z) (data_payload : bool) (s : Scan)
    : result Scan CodecError.t :=
  match fuel with
  | O => Err CodecError.Bounds
  | S fuel =>
      if as_usize limits.(Limits.nesting) <? depth then Err CodecError.Bounds
      else
        let s := s <| entries := usize_add s.(entries) 1 |> in
        if as_usize limits.(Limits.collection_entries) <? s.(entries) then Err CodecError.Bounds
        else
          try s := charge (4 * size_of_cbor + 32) s in
          try ((major, argument), s) := head s in
          let s :=
            if (depth =? 1) && (parent =? 3) && (major =? 0) && (argument =? 0)
            then s <| bootstrap := true |> else s in
          if (major =? 0) || (major =? 1) || (major =? 7) then Ok s
          else if (major =? 2) || (major =? 3) then
            let max :=
              if (major =? 2) && data_payload then as_usize limits.(Limits.data_payload)
              else as_usize limits.(Limits.metadata_bytes) in
            if max <? argument then Err CodecError.Bounds
            else
              try quad := ok_or (checked_mul_u64 argument 4) CodecError.Bounds in
              try s := charge quad s in
              try (_, s) := take argument s in
              Ok s
          else if (major =? 4) || (major =? 5) then
            if saturating_sub_u64 (as_usize limits.(Limits.collection_entries)) s.(entries) <? argument
            then Err CodecError.Bounds
            else
              repeat (Z.to_nat argument) (fun s =>
                if major =? 5 then
                  try ((key_major, key), s) := head s in
                  if negb (key_major =? 0) then Err CodecError.Malformed
                  else
                    try s := charge 32 s in
                    item fuel (depth + 1) key ((depth =? 1) && (parent =? 16) && (key =? 2)) s
                else item fuel (depth + 1) 0 false s) s
          else Err CodecError.Malformed
  end.

Definition check : result unit CodecError.t :=
  if as_usize limits.(Limits.encoded_frame) <? len input then Err CodecError.FrameTooLarge
  else
    let scan := mk 0 0 (len input) false in
    try scan := item (Z.to_nat (as_usize limits.(Limits.nesting)) + 2) 0 0 false scan in
    if scan.(bootstrap)
       && ((MAX_BOOTSTRAP <? len input) || (MAX_BOOTSTRAP_ALLOCATION <? scan.(allocation)))
    then Err CodecError.Bounds
    else if negb (scan.(at_) =? len input) then Err CodecError.Malformed
    else Ok tt.
End scan.
End Preflight.

Module Codec.
Section codec.
Context {L : Layout}.

Definition admit_limited (message : Envelope.t) (limits : Limits.t) : result unit CodecError.t :=
  try _ := Validate.limits limits in
  try _ := Validate.envelope message in
  Admission.envelope message limits.

Definition admit_message (message : Envelope.t) : result unit CodecError.t :=
  admit_limited message default_limits.

Definition allocation_charge (message : Envelope.t) (limits : Limits.t) : result Z CodecError.t :=
  try _ := Validate.limits limits in
  try _ := Validate.envelope message in
  Admission.allocation_charge message limits.

Definition check_bootstrap (message : Envelope.t) (length : Z) : result unit CodecError.t :=
  if (message.(Envelope.stream_id) =? 0) && (MAX_BOOTSTRAP <? length)
  then Err CodecError.FrameTooLarge
  else Ok tt.

Definition encode (message : Envelope.t) : result (list byte) CodecError.t :=
  try _ := admit_message message in
  let bytes := Cbor.encode (Envelope.to_cbor message) in
  try _ := Preflight.check bytes default_limits in
  try _ := check_bootstrap message (len bytes) in
  Ok bytes.

Definition decode_limited (bytes : list byte) (limits : Limits.t) : result Envelope.t CodecError.t :=
  try _ := Validate.limits limits in
  try _ := Preflight.check bytes limits in
  try tree := map_err (fun _ => CodecError.Malformed) (try_decode bytes) in
  try message := map_err (fun _ => CodecError.Malformed) (Envelope.from_cbor tree) in
  try _ := Validate.envelope message in
  try _ := check_bootstrap message (len bytes) in
  Ok message.

Definition decode (bytes : list byte) : result Envelope.t CodecError.t :=
  decode_limited bytes default_limits.

Definition encode_limited (message : Envelope.t) (limits : Limits.t) : result (list byte) CodecError.t :=
  try _ := Validate.limits limits in
  try _ := admit_limited message limits in
  try bytes := encode message in
  try _ := Preflight.check bytes limits in
  Ok bytes.
End codec.
End Codec.
