(* ===== verification/CodecFacts.v ===== *)
(** * Admission, preflight and the codec round trip

    [walk] is the admission walk over a CBOR tree.  Each typed visitor equals
    [walk] on the tree its value encodes to ([Visits]); [walk] charges exactly
    the encoded length; and what [walk] admits the byte scan admits too.  So an
    admitted message always encodes, and decodes to itself. *)
From S2P Require Import Prelude Utf8 Cbor CborFacts Protocol ProtocolFacts Budget Admission Policy Validate Codec.

(** ** The walk over a tree *)

Section walk.
Context {L : Layout}.

(** Envelope.data (tag 16), then Data.payload (tag 2). *)
Definition payload_at (depth parent key : Z) : bool := (depth =? 1) && (parent =? 16) && (key =? 2).

Fixpoint walk (c : Cbor) (depth parent : Z) (payload : bool) (b : Budget.t)
    : result Budget.t CodecError.t :=
  match c with
  | Int n => Budget.integer n depth b
  | Float _ => Err CodecError.Malformed
  | Bytes l => Budget.bytes (len l) (if payload then MAX_DATA else MAX_METADATA) depth b
  | Text s => Budget.bytes (slen s) MAX_METADATA depth b
  | Array a =>
      try b := Budget.container (len a) depth b in
      for_each (fun c b => walk c (depth + 1) 0 false b) a b
  | Map m =>
      try b := Budget.container (len m) depth b in
      for_each (fun e b =>
        try b := Budget.key e.1 b in walk e.2 (depth + 1) e.1 (payload_at depth parent e.1) b) m b
  | Bool _ | Null => Budget.scalar depth b
  end.

Definition walk_entry (depth parent : Z) (e : Z * Cbor) (b : Budget.t) :=
  try b := Budget.key e.1 b in walk e.2 (depth + 1) e.1 (payload_at depth parent e.1) b.

(** ** The typed visitors *)

(** A visitor below the envelope agrees with [walk], away from the payload. *)
Class Visits {A} (to : A -> Cbor) (visit : A -> Z -> Budget.t -> result Budget.t CodecError.t) : Prop :=
  visits : forall v depth parent b, 1 <= depth -> (depth =? 1) && (parent =? 16) = false ->
    visit v depth b = walk (to v) depth parent false b.

(** One field of a struct's visitor, against one entry of its map. *)
Lemma visit_entry depth parent k c m b
    (X K : Budget.t -> result Budget.t CodecError.t) :
  (forall b, X b = walk c (depth + 1) k (payload_at depth parent k) b) ->
  (forall b, K b = for_each (walk_entry depth parent) m b) ->
  (try b := Budget.key k b in try b := X b in K b) = for_each (walk_entry depth parent) ((k, c) :: m) b.
Proof.
  intros HX HK. cbn [for_each]. unfold walk_entry at 1. cbn [fst snd].
  destruct (Budget.key k b) as [b1|e]; [|done]. rewrite HX.
  destruct (walk _ _ _ _ b1) as [b2|e]; [|done]. apply HK.
Qed.

Lemma visit_map depth parent payload m b (K : Budget.t -> result Budget.t CodecError.t) :
  (forall b, K b = for_each (walk_entry depth parent) m b) ->
  (try b := Budget.container (len m) depth b in K b) = walk (Map m) depth parent payload b.
Proof.
  intros HK. cbn [walk]. destruct (Budget.container _ _ b) as [b1|e]; [|done]. apply HK.
Qed.

Lemma visit_array {A} (to : A -> Cbor) (visit : A -> Budget.t -> result Budget.t CodecError.t)
    (l : list A) depth parent payload b :
  (forall v b, visit v b = walk (to v) (depth + 1) 0 false b) ->
  (try b := Budget.container (len l) depth b in for_each visit l b)
  = walk (Array (map to l)) depth parent payload b.
Proof.
  intros Hv. cbn [walk]. rewrite length_map. destruct (Budget.container _ _ b) as [b1|e]; [|done].
  clear b. revert b1. induction l as [|v l IH]; intros b; [done|]. cbn [for_each map].
  rewrite <- Hv. destruct (visit v b) as [b1|e]; [|done]. apply IH.
Qed.

Lemma visit_entry_array {A} (to : A -> Cbor) (visit : A -> Budget.t -> result Budget.t CodecError.t)
    (l : list A) depth parent k m b (K : Budget.t -> result Budget.t CodecError.t) :
  (forall v b, visit v b = walk (to v) (depth + 1 + 1) 0 false b) ->
  (forall b, K b = for_each (walk_entry depth parent) m b) ->
  (try b := Budget.key k b in
   try b := Budget.container (len l) (depth + 1) b in
   try b := for_each visit l b in K b)
  = for_each (walk_entry depth parent) ((k, Array (map to l)) :: m) b.
Proof.
  intros Hv HK. rewrite <- (visit_entry depth parent k _ m b
    (fun b => try b := Budget.container (len l) (depth + 1) b in for_each visit l b) K).
  - destruct (Budget.key k b) as [b1|e]; [|done]. by destruct (Budget.container _ _ b1).
  - intros b'. by apply visit_array.
  - done.
Qed.

Lemma payload_at_false depth parent k :
  (depth =? 1) && (parent =? 16) = false -> payload_at depth parent k = false.
Proof. unfold payload_at. by intros ->. Qed.

Lemma below_first depth parent : 1 <= depth -> (depth + 1 =? 1) && (parent =? 16) = false.
Proof. intros H. by rewrite (proj2 (Z.eqb_neq (depth + 1) 1)) by lia. Qed.
End walk.

(** Walk a struct's visitor and its map side by side. *)
Ltac visit_value :=
  intros ?; cbn [fst snd];
  first [ reflexivity
        | rewrite payload_at_false by done; apply visits; [lia | by first [apply below_first; lia | done]]
        | rewrite payload_at_false by done; case_match;
          first [ reflexivity
                | apply visit_array; reflexivity
                | apply visits; [lia | by first [apply below_first; lia | done]]] ].
Ltac visit_step :=
  intros ?;
  lazymatch goal with
  | |- _ = for_each (walk_entry ?d ?p) ((?k, Array (map ?to ?l)) :: ?m) ?b =>
      eapply (visit_entry_array to _ l d p k m b); [reflexivity|]
  | |- _ = for_each (walk_entry ?d ?p) ((?k, ?c) :: ?m) ?b =>
      eapply (visit_entry d p k c m b); [visit_value|]
  end.
Ltac visit_struct :=
  lazymatch goal with |- _ = walk (Map ?m) ?d ?p ?pl ?b => refine (visit_map d p pl m b _ _) end;
  repeat visit_step; try reflexivity.
Ltac head_of t := lazymatch t with ?f _ => head_of f | _ => t end.
Ltac visit_fields :=
  intros v depth parent b Hd Hp;
  match goal with |- ?visit v depth b = walk (?to v) _ _ _ _ =>
    let visit := head_of visit in unfold visit, to end;
  visit_struct.

Section visitors.
Context {L : Layout}.

#[export] Instance NativeFacts_visits : Visits NativeFacts.to_cbor visit_nativefacts.
Proof. visit_fields. Qed.
#[export] Instance Limits_visits : Visits Limits.to_cbor visit_limits.
Proof. visit_fields. Qed.
#[export] Instance Bind_visits : Visits Bind.to_cbor visit_bind.
Proof. visit_fields. Qed.
#[export] Instance Bound_visits : Visits Bound.to_cbor visit_bound.
Proof. visit_fields. Qed.
#[export] Instance RetryAttempt_visits : Visits RetryAttempt.to_cbor visit_retryattempt.
Proof. visit_fields. Qed.
#[export] Instance CapacityDetail_visits : Visits CapacityDetail.to_cbor visit_capacitydetail.
Proof. visit_fields. Qed.
#[export] Instance FailureDetail_visits : Visits FailureDetail.to_cbor visit_failuredetail.
Proof. visit_fields. Qed.
#[export] Instance Destination_visits : Visits Destination.to_cbor visit_destination.
Proof. visit_fields. Qed.
#[export] Instance Identity_visits : Visits Identity.to_cbor visit_identity.
Proof. visit_fields. Qed.
#[export] Instance Deadlines_visits : Visits Deadlines.to_cbor visit_deadlines.
Proof. visit_fields. Qed.
#[export] Instance Open_visits : Visits Open.to_cbor visit_open.
Proof. visit_fields. Qed.
#[export] Instance CheckIdentity_visits : Visits CheckIdentity.to_cbor visit_checkidentity.
Proof. visit_fields. Qed.
#[export] Instance IdentityChecked_visits : Visits IdentityChecked.to_cbor visit_identitychecked.
Proof. visit_fields. Qed.
#[export] Instance Facts_visits : Visits Facts.to_cbor visit_facts.
Proof. visit_fields. Qed.
#[export] Instance Failure_visits : Visits Failure.to_cbor visit_failure.
Proof. visit_fields. Qed.
#[export] Instance Opened_visits : Visits Opened.to_cbor visit_opened.
Proof. visit_fields. Qed.
#[export] Instance Window_visits : Visits Window.to_cbor visit_window.
Proof. visit_fields. Qed.
#[export] Instance Barrier_visits : Visits Barrier.to_cbor visit_barrier.
Proof. visit_fields. Qed.
#[export] Instance EndWrite_visits : Visits EndWrite.to_cbor visit_endwrite.
Proof. visit_fields. Qed.
#[export] Instance Close_visits : Visits Close.to_cbor visit_close.
Proof. visit_fields. Qed.
#[export] Instance Closed_visits : Visits Closed.to_cbor visit_closed.
Proof. visit_fields. Qed.
#[export] Instance Cancel_visits : Visits Cancel.to_cbor visit_cancel.
Proof. visit_fields. Qed.

Lemma visit_data_walk v b : visit_data v 1 b = walk (Data.to_cbor v) 1 16 false b.
Proof. unfold visit_data, Data.to_cbor. visit_struct. Qed.

(** The envelope's visitor is the walk over the tree it encodes to. *)
Lemma visit_envelope_walk v b : visit_envelope v 0 b = walk (Envelope.to_cbor v) 0 0 false b.
Proof.
  unfold visit_envelope, Envelope.to_cbor. visit_struct. intros ?.
  lazymatch goal with |- _ = for_each _ ((?k, ?c) :: ?m) ?b =>
    eapply (visit_entry 0 0 k c m b) end.
  - intros ?. case_match; [apply visit_data_walk | reflexivity].
  - repeat visit_step. reflexivity.
Qed.
End visitors.

(** ** What the walk charges *)

Section exact.
Context {L : Layout}.

Definition max_frame (b : Budget.t) : Z :=
  let frame := as_usize b.(Budget.limits).(Limits.encoded_frame) in
  if b.(Budget.bootstrap) then Z.min frame MAX_BOOTSTRAP else frame.
Definition max_allocation (b : Budget.t) : Z :=
  let allocation := as_usize b.(Budget.limits).(Limits.decode_allocation) in
  if b.(Budget.bootstrap) then Z.min allocation MAX_BOOTSTRAP_ALLOCATION else allocation.

(** The budget has stayed inside its limits. *)
Definition within (b : Budget.t) : Prop :=
  b.(Budget.encoded) <= max_frame b /\ b.(Budget.allocation) + b.(Budget.encoded) <= max_allocation b.

(** [b'] is [b] after charges of [n] encoded bytes in all. *)
Definition grows (n : Z) (b b' : Budget.t) : Prop :=
  b'.(Budget.encoded) = b.(Budget.encoded) + n
  /\ b.(Budget.allocation) <= b'.(Budget.allocation)
  /\ b.(Budget.entries) <= b'.(Budget.entries)
  /\ b'.(Budget.limits) = b.(Budget.limits) /\ b'.(Budget.bootstrap) = b.(Budget.bootstrap)
  /\ (within b -> within b').

Lemma grows_trans n m b b1 b2 : grows n b b1 -> grows m b1 b2 -> grows (n + m) b b2.
Proof. unfold grows. intuition (try lia; congruence). Qed.

Lemma grows_refl b : grows 0 b b.
Proof. unfold grows. split_and!; [lia.. | done | done | done]. Qed.

(** A single charge. *)
Lemma charge_spec e a b b' : Budget.charge e a b = Ok b' ->
  b' = b <| Budget.encoded := b.(Budget.encoded) + e |> <| Budget.allocation := b.(Budget.allocation) + a |>
  /\ within b'.
Proof.
  unfold Budget.charge, ok_or, within, max_frame, max_allocation. intros H.
  destruct (checked_add_u64 _ e) eqn:He; [|done]. apply checked_add_u64_Some in He as [-> _].
  destruct (checked_add_u64 _ a) eqn:Ha; [|done]. apply checked_add_u64_Some in Ha as [-> _].
  cbn in *. destruct (Budget.bootstrap b) eqn:Hb; cbn in H; (case_match eqn:H1; [done|]);
    (destruct (checked_add_u64 _ _) eqn:Ht; [|done]); apply checked_add_u64_Some in Ht as [-> _];
    (case_match eqn:H2; [done|]); simplify_eq; cbn; rewrite ?Hb; split; try done; lia.
Qed.

Lemma node_spec depth e b b' : Budget.node depth e b = Ok b' ->
  b' = b <| Budget.encoded := b.(Budget.encoded) + e |>
         <| Budget.allocation := b.(Budget.allocation) + (4 * size_of_cbor + 32) |>
         <| Budget.entries := b.(Budget.entries) + 1 |>
  /\ within b' /\ depth <= as_usize b.(Budget.limits).(Limits.nesting)
  /\ b.(Budget.entries) + 1 <= as_usize b.(Budget.limits).(Limits.collection_entries).
Proof.
  unfold Budget.node, ok_or. intros H.
  destruct (checked_add_u64 _ 1) eqn:He; [|done]. apply checked_add_u64_Some in He as [-> _].
  cbn in H. case_match eqn:Hg; [done|]. apply charge_spec in H as [-> Hw]. cbn.
  apply orb_false_iff in Hg as [??]. repeat split; [by apply Hw | by apply Hw | lia | lia].
Qed.

Lemma charge_grows e a b b' : 0 <= a -> Budget.charge e a b = Ok b' -> grows e b b'.
Proof. intros Ha H. apply charge_spec in H as [-> Hw]. unfold grows; cbn. repeat split; try lia; apply Hw. Qed.

Lemma node_grows depth e b b' : Budget.node depth e b = Ok b' -> grows e b b'.
Proof.
  intros H. apply node_spec in H as (-> & Hw & _). pose proof layout_cbor.
  unfold grows; cbn. repeat split; try lia; apply Hw.
Qed.

(** [bytes] charges its head and its content. *)
Lemma bytes_grows n max depth b b' : 0 <= n -> Budget.bytes n max depth b = Ok b' ->
  grows (Budget.head n + n) b b'.
Proof.
  unfold Budget.bytes. intros Hn H. case_match; [done|].
  destruct (Budget.node _ _ b) as [b1|] eqn:H1; [|done]. apply node_grows in H1.
  destruct (checked_mul_u64 n 4) eqn:Hm; [|done]. cbn in H. unfold checked_mul_u64 in Hm.
  case_match; simplify_eq. apply charge_grows in H; [|lia]. by eapply grows_trans.
Qed.

Lemma container_grows n depth b b' : Budget.container n depth b = Ok b' -> grows (Budget.head n) b b'.
Proof.
  unfold Budget.container. intros H. destruct (Budget.node _ _ b) as [b1|] eqn:H1; [|done].
  case_match; [done|]. simplify_eq. by apply node_grows in H1.
Qed.

Lemma for_each_grows {A} (f : A -> Budget.t -> result Budget.t CodecError.t) (bs : A -> list byte) l b b' :
  Forall (fun x => forall b b', f x b = Ok b' -> grows (len (bs x)) b b') l ->
  for_each f l b = Ok b' -> grows (len (concat (map bs l))) b b'.
Proof.
  intros Hl. revert b. induction Hl as [|x l Hx Hl IH]; intros b H; cbn in *.
  - simplify_eq. apply grows_refl.
  - destruct (f x b) as [b1|] eqn:H1; [|done]. rewrite length_app, Nat2Z.inj_add.
    eapply grows_trans; [by apply Hx | by apply IH].
Qed.

Lemma length_head_budget major n : 0 <= n -> len (Cbor.head major n) = Budget.head n.
Proof.
  intros Hn. unfold Cbor.head, Budget.head.
  destruct (Z.ltb_spec n 24), (Z.leb_spec n 23); try lia; [done|].
  destruct (Z.ltb_spec n 256), (Z.leb_spec n 255); try lia; [done|].
  destruct (Z.ltb_spec n 65536), (Z.leb_spec n 65535); try lia; [done|].
  destruct (Z.ltb_spec n 4294967296), (Z.leb_spec n 4294967295); try lia; done.
Qed.

Lemma encodable_entry m k c : encodable (Map m) = true -> (k, c) ∈ m ->
  0 <= k <= I64_MAX /\ encodable c = true.
Proof.
  intros He Hc. cbn [encodable] in He. apply andb_true_iff in He as [He Hv].
  apply andb_true_iff in He as [_ Hk]. rewrite forallb_elem in Hk. rewrite forallb_elem in Hv.
  pose proof (Hk k (list_elem_of_fmap_2 fst _ _ Hc)) as H. unfold key_ok in H.
  split; [lia | apply (Hv (k, c) Hc)].
Qed.

Lemma entry_grows depth parent k c b b' : 0 <= k <= I64_MAX ->
  (forall b b', walk c (depth + 1) k (payload_at depth parent k) b = Ok b' -> grows (len (enc c)) b b') ->
  walk_entry depth parent (k, c) b = Ok b' -> grows (len (enc_pair (k, c))) b b'.
Proof.
  unfold walk_entry, enc_pair. cbn [fst snd]. intros Hk Hc H.
  destruct (Budget.key k b) as [b1|] eqn:H1; [|done].
  rewrite length_app, Nat2Z.inj_add, as_u64_id, length_head_budget by lia.
  eapply grows_trans; [|by apply Hc]. apply charge_grows in H1; [done|lia].
Qed.

(** The walk charges exactly the length of the canonical encoding. *)
Lemma walk_grows c : encodable c = true -> ordered c = true -> forall depth parent payload b b',
  walk c depth parent payload b = Ok b' -> grows (len (enc c)) b b'.
Proof.
  induction c as [n|x|l|s|a IH|m IH|x|] using Cbor_tree_ind; intros He Ho depth parent payload b b' H;
    cbn [encodable ordered] in He, Ho; try done.
  - cbn [walk] in H. unfold Budget.integer in H. cbn [enc].
    destruct (Z.ltb_spec n 0), (Z.leb_spec 0 n); try lia; rewrite length_head_budget by lia.
    + replace (-1 - n) with (Z.abs n - 1) by lia. by apply node_grows in H.
    + rewrite as_u64_id in H by lia. by apply node_grows in H.
  - cbn [walk] in H. cbn [enc]. rewrite length_app, Nat2Z.inj_add, length_head_budget by lia.
    eapply bytes_grows; [lia|done].
  - cbn [walk] in H. cbn [enc]. rewrite length_app, Nat2Z.inj_add, length_head_budget by lia.
    replace (len (bytes_of s)) with (slen s) by (unfold slen; by rewrite length_bytes_of).
    eapply bytes_grows; [apply slen_nonneg|done].
  - cbn [walk] in H. destruct (Budget.container _ _ b) as [b1|] eqn:H1; [|done].
    cbn [enc]. rewrite length_app, Nat2Z.inj_add, length_head_budget by lia.
    apply container_grows in H1. eapply grows_trans; [done|]. eapply for_each_grows; [|done].
    apply andb_true_iff in He as [_ He]. rewrite forallb_elem in He. rewrite forallb_elem in Ho.
    rewrite list.Forall_forall in IH |- *. intros c Hc b2 b3. apply IH; auto.
  - cbn [walk] in H. destruct (Budget.container _ _ b) as [b1|] eqn:H1; [|done].
    apply andb_true_iff in Ho as [Ha Ho]. rewrite enc_map_ordered by done.
    rewrite length_app, Nat2Z.inj_add, length_head_budget by lia.
    apply container_grows in H1. eapply grows_trans; [done|]. eapply for_each_grows; [|done].
    rewrite forallb_elem in Ho. rewrite list.Forall_forall in IH |- *.
    intros [k c] Hc b2 b3 H2. destruct (encodable_entry _ _ _ He Hc) as [Hk Hec].
    apply (entry_grows depth parent k c b2 b3 Hk); [|done]. intros b4 b5.
    apply (IH (k, c) Hc); [done | apply (Ho (k, c) Hc)].
  - cbn [walk] in H. by apply node_grows in H.
  - cbn [walk] in H. by apply node_grows in H.
Qed.

(** Without a bound on the message's integers, a walk still only spends. *)
Definition spends (b b' : Budget.t) : Prop :=
  b.(Budget.encoded) <= b'.(Budget.encoded) /\ b.(Budget.allocation) <= b'.(Budget.allocation)
  /\ b'.(Budget.limits) = b.(Budget.limits) /\ b'.(Budget.bootstrap) = b.(Budget.bootstrap)
  /\ (within b -> within b').

Lemma grows_spends n b b' : 0 <= n -> grows n b b' -> spends b b'.
Proof. unfold grows, spends. intros Hn (?&?&_&?&?&?). split_and!; try done; lia. Qed.

Lemma spends_trans b b1 b2 : spends b b1 -> spends b1 b2 -> spends b b2.
Proof. unfold spends. intros (?&?&?&?&?) (?&?&?&?&?). split_and!; try lia; try congruence. auto. Qed.

Lemma head_nonneg n : 0 <= Budget.head n.
Proof. unfold Budget.head. repeat case_match; lia. Qed.

Lemma for_each_spends {A} (f : A -> Budget.t -> result Budget.t CodecError.t) l b b' :
  Forall (fun x => forall b b', f x b = Ok b' -> spends b b') l -> for_each f l b = Ok b' -> spends b b'.
Proof.
  intros Hl. revert b. induction Hl as [|x l Hx Hl IH]; intros b H; cbn in *.
  - simplify_eq. by apply (grows_spends 0), grows_refl.
  - destruct (f x b) as [b1|] eqn:H1; [|done]. eapply spends_trans; [by apply Hx | by apply IH].
Qed.

Lemma walk_spends c : forall depth parent payload b b',
  walk c depth parent payload b = Ok b' -> spends b b'.
Proof.
  induction c as [n|x|l|s|a IH|m IH|x|] using Cbor_tree_ind; intros depth parent payload b b' H; cbn [walk] in H; try done.
  - apply node_grows in H. eapply grows_spends; [|done]. apply head_nonneg.
  - apply bytes_grows in H; [|lia]. eapply grows_spends; [|done]. pose proof (head_nonneg (len l)). lia.
  - apply bytes_grows in H; [|apply slen_nonneg]. eapply grows_spends; [|done].
    pose proof (head_nonneg (slen s)). pose proof (slen_nonneg s). lia.
  - destruct (Budget.container _ _ b) as [b1|] eqn:H1; [|done]. apply container_grows in H1.
    eapply spends_trans; [eapply grows_spends; [apply head_nonneg | done]|].
    eapply for_each_spends; [|done]. eapply list.Forall_impl; [exact IH|]. cbn. eauto.
  - destruct (Budget.container _ _ b) as [b1|] eqn:H1; [|done]. apply container_grows in H1.
    eapply spends_trans; [eapply grows_spends; [apply head_nonneg | done]|].
    eapply for_each_spends; [|done]. eapply list.Forall_impl; [exact IH|]. cbn. intros [k c] Hc b2 b3 H2. cbn [fst snd] in *.
    destruct (Budget.key k b2) as [b4|] eqn:H4; [|done]. apply charge_grows in H4; [|lia].
    eapply spends_trans; [eapply grows_spends; [apply head_nonneg | done] | eauto].
  - apply node_grows in H. by eapply grows_spends; [|done].
  - apply node_grows in H. by eapply grows_spends; [|done].
Qed.
End exact.

(** ** What the walk admits, the byte scan admits *)

Section scan.
Context {L : Layout}.
Variable input : list byte.
Variable limits : Limits.t.
Hypothesis input_len : len input <= U64_MAX.

(** The bytes the scan has not read. *)
Definition unread (s : Preflight.Scan) : list byte := skipn (Z.to_nat s.(Preflight.at_)) input.

(** Scan and budget agree at an item boundary; the scan charged the input first. *)
Record sim (s : Preflight.Scan) (b : Budget.t) : Prop := {
  sim_at : 0 <= s.(Preflight.at_) <= len input;
  sim_entries : s.(Preflight.entries) = b.(Budget.entries);
  sim_nonneg : 0 <= b.(Budget.entries) /\ 0 <= b.(Budget.allocation);
  sim_allocation : s.(Preflight.allocation) = len input + b.(Budget.allocation);
  sim_limits : b.(Budget.limits) = limits;
}.

Lemma scan_take s a rest : 0 <= s.(Preflight.at_) <= len input -> unread s = a ++ rest ->
  let s' := s <| Preflight.at_ := s.(Preflight.at_) + len a |> in
  Preflight.take input (len a) s = Ok (a, s')
  /\ unread s' = rest /\ 0 <= s'.(Preflight.at_) <= len input.
Proof.
  intros Hat Hun s'. assert (Hlen : s.(Preflight.at_) + len a <= len input).
  { apply (f_equal length) in Hun. unfold unread in Hun. rewrite length_skipn, length_app in Hun. lia. }
  unfold Preflight.take, ok_or. destruct (checked_add_u64 _ _) eqn:Ha.
  2:{ unfold checked_add_u64 in Ha. case_match; [done|lia]. }
  apply checked_add_u64_Some in Ha as [-> _]. rewrite (proj2 (Z.leb_le _ _)) by lia.
  unfold unread in *. rewrite Hun. cbn. split_and!; [|..].
  - by rewrite Nat2Z.id, firstn_app, Nat.sub_diag, firstn_all, firstn_O, app_nil_r.
  - rewrite Z2Nat.inj_add, Nat2Z.id, Nat.add_comm, <- skipn_skipn, Hun by lia.
    by rewrite skipn_app, Nat.sub_diag, skipn_all.
  - lia.
  - lia.
Qed.

Lemma be_value_single b : be_value [b] = Z_of_byte b.
Proof. done. Qed.

Lemma scan_head s major n rest : 0 <= major < 8 -> 0 <= n <= U64_MAX ->
  0 <= s.(Preflight.at_) <= len input -> unread s = Cbor.head major n ++ rest ->
  let s' := s <| Preflight.at_ := s.(Preflight.at_) + len (Cbor.head major n) |> in
  Preflight.head input s = Ok ((major, n), s')
  /\ unread s' = rest /\ 0 <= s'.(Preflight.at_) <= len input.
Proof.
  intros Hm Hn Hat Hun s'. destruct (scan_take s (Cbor.head major n) rest Hat Hun) as (_ & Hrest & Hat').
  split; [|done]. unfold s'. clear s' Hrest Hat'.
  unfold Cbor.head in *. repeat case_match; unfold Preflight.head.
  all: match type of Hun with _ = (?b :: ?args) ++ _ =>
         destruct (scan_take s [b] (args ++ rest) Hat Hun) as (Ht & Hun1 & Hat1);
         change (len [b]) with 1 in *; rewrite Ht; clear Ht end.
  all: rewrite be_value_single, lead_byte, lead_major, lead_info by lia.
  1: { rewrite (proj2 (Z.leb_le _ 23)) by lia. done. }
  all: cbn -[Preflight.take be_value be_bytes Z.add].
  all: match type of Hun1 with _ = be_bytes ?k ?m ++ _ =>
         let H := fresh in
         destruct (scan_take _ (be_bytes k m) rest Hat1 Hun1) as (H & _ & _);
         rewrite (length_be_bytes k) in H;
         let k' := eval compute in (Z.of_nat k) in change (Z.of_nat k) with k' in H;
         cbn -[Preflight.take be_value be_bytes Z.add] in H; rewrite H end.
  all: rewrite be_value_bytes by (cbn; lia); by rewrite <- Z.add_assoc.
Qed.

(** What is left to charge fits the allocation limit. *)
Definition fits (b : Budget.t) : Prop :=
  len input + b.(Budget.allocation) <= as_usize limits.(Limits.decode_allocation).

Definition mark (cond : bool) (s : Preflight.Scan) : Preflight.Scan :=
  if cond then s <| Preflight.bootstrap := true |> else s.

(** A scanning step does on the bytes [bs] what the budget step [f] did, and
    raises the bootstrap mark when [mk] says so. *)
Definition follows (body : Preflight.Scan -> result Preflight.Scan CodecError.t)
    (f : Budget.t -> result Budget.t CodecError.t) (bs : list byte) (mk : bool) : Prop :=
  forall b b' s rest, f b = Ok b' -> sim s b -> unread s = bs ++ rest -> fits b' ->
  exists s', body s = Ok s' /\ sim s' b' /\ unread s' = rest
    /\ s'.(Preflight.bootstrap) = s.(Preflight.bootstrap) || mk.

Lemma scan_charge n s : 0 <= n -> 0 <= s.(Preflight.allocation) ->
  s.(Preflight.allocation) + n <= as_usize limits.(Limits.decode_allocation) ->
  Preflight.charge limits n s = Ok (s <| Preflight.allocation := s.(Preflight.allocation) + n |>).
Proof.
  intros Hn Ha H. unfold Preflight.charge, ok_or.
  pose proof (as_u64_range limits.(Limits.decode_allocation)) as Hr. unfold in_u64, as_usize in *.
  destruct (checked_add_u64 _ _) eqn:Hc.
  - apply checked_add_u64_Some in Hc as [-> _]. cbn. by rewrite (proj2 (Z.ltb_ge _ _)) by lia.
  - unfold checked_add_u64 in Hc. case_match; [done|lia].
Qed.

(** The tests, charge and head that open every item. *)
Lemma scan_node depth major n b b1 s rest :
  0 <= major < 8 -> 0 <= n <= U64_MAX -> Budget.node depth (Budget.head n) b = Ok b1 ->
  sim s b -> unread s = Cbor.head major n ++ rest -> fits b1 ->
  exists s1 s2,
    depth <= as_usize limits.(Limits.nesting)
    /\ usize_add s.(Preflight.entries) 1 = b1.(Budget.entries)
    /\ b1.(Budget.entries) <= as_usize limits.(Limits.collection_entries)
    /\ Preflight.charge limits (4 * size_of_cbor + 32) (s <| Preflight.entries := b1.(Budget.entries) |>) = Ok s1
    /\ Preflight.head input s1 = Ok ((major, n), s2)
    /\ sim s2 b1 /\ unread s2 = rest /\ s2.(Preflight.bootstrap) = s.(Preflight.bootstrap).
Proof.
  intros Hm Hn Hnode [Hat Hent Hnn Hall Hlim] Hun Hfit.
  apply node_spec in Hnode as (-> & _ & Hd & He). rewrite Hlim in Hd, He.
  pose proof (as_u64_range limits.(Limits.collection_entries)) as Hr. unfold in_u64, as_usize in *.
  unfold fits in Hfit. cbn in Hfit. pose proof layout_cbor.
  set (s0 := s <| Preflight.entries := b.(Budget.entries) + 1 |>).
  set (s1 := s0 <| Preflight.allocation := s0.(Preflight.allocation) + (4 * size_of_cbor + 32) |>).
  assert (Hc : Preflight.charge limits (4 * size_of_cbor + 32) s0 = Ok s1) by (apply scan_charge; cbn; lia).
  destruct (scan_head s1 major n rest Hm Hn Hat Hun) as (Hh & Hr1 & Hat1).
  eexists s1, _. split_and!; try done; cbn.
  - unfold usize_add. rewrite as_usize_id; lia.
  - constructor; cbn in *; lia || done.
Qed.

Lemma sim_mark cond s b : sim s b -> sim (mark cond s) b.
Proof. intros []. by destruct cond. Qed.
Lemma unread_mark cond s : unread (mark cond s) = unread s.
Proof. by destruct cond. Qed.
Lemma bootstrap_mark cond s : (mark cond s).(Preflight.bootstrap) = s.(Preflight.bootstrap) || cond.
Proof. destruct cond; cbn; [by rewrite orb_true_r | by rewrite orb_false_r]. Qed.

Lemma repeat_follows {A} body (f : A -> Budget.t -> result Budget.t CodecError.t) bs mk (l : list A) :
  Forall (fun x => follows body (f x) (bs x) (mk x)) l ->
  Forall (fun x => forall b b', f x b = Ok b' -> grows (len (bs x)) b b') l ->
  follows (Preflight.repeat (length l) body) (for_each f l) (concat (map bs l)) (existsb mk l).
Proof.
  intros Hf Hg. induction l as [|x l IH]; intros b b' s rest H Hs Hu Hfit; cbn in H, Hu |- *.
  - simplify_eq. exists s. by rewrite orb_false_r.
  - apply list.Forall_cons in Hf as [Hx Hf]. apply list.Forall_cons in Hg as [Hgx Hg].
    destruct (f x b) as [b1|] eqn:Hb; [|done]. rewrite <- app_assoc in Hu.
    assert (fits b1). { apply (for_each_grows f bs) in H as (_ & ? & _); [|done]. unfold fits in *. lia. }
    destruct (Hx b b1 s _ Hb Hs Hu) as (s1 & -> & Hs1 & Hu1 & Hb1); [done|].
    destruct (IH Hf Hg b1 b' s1 rest H Hs1 Hu1 Hfit) as (s2 & -> & Hs2 & Hu2 & Hb2).
    exists s2. by rewrite Hb2, Hb1, orb_assoc.
Qed.

(** The part of [Preflight.item] after the head. *)
Definition item_body (fuel : nat) (depth parent : Z) (payload : bool) (major argument : Z)
    (s : Preflight.Scan) : result Preflight.Scan CodecError.t :=
  if (major =? 0) || (major =? 1) || (major =? 7) then Ok s
  else if (major =? 2) || (major =? 3) then
    let max :=
      if (major =? 2) && payload then as_usize limits.(Limits.data_payload)
      else as_usize limits.(Limits.metadata_bytes) in
    if max <? argument then Err CodecError.Bounds
    else
      try quad := ok_or (checked_mul_u64 argument 4) CodecError.Bounds in
      try s := Preflight.charge limits quad s in
      try (_, s) := Preflight.take input argument s in
      Ok s
  else if (major =? 4) || (major =? 5) then
    if saturating_sub_u64 (as_usize limits.(Limits.collection_entries)) s.(Preflight.entries) <? argument
    then Err CodecError.Bounds
    else
      Preflight.repeat (Z.to_nat argument) (fun s =>
        if major =? 5 then
          try ((key_major, key), s) := Preflight.head input s in
          if negb (key_major =? 0) then Err CodecError.Malformed
          else
            try s := Preflight.charge limits 32 s in
            Preflight.item input limits fuel (depth + 1) key ((depth =? 1) && (parent =? 16) && (key =? 2)) s
        else Preflight.item input limits fuel (depth + 1) 0 false s) s
  else Err CodecError.Malformed.

Definition zero_id (depth parent major argument : Z) : bool :=
  (depth =? 1) && (parent =? 3) && (major =? 0) && (argument =? 0).

Lemma item_open fuel depth parent payload major n b b1 s rest :
  0 <= major < 8 -> 0 <= n <= U64_MAX -> Budget.node depth (Budget.head n) b = Ok b1 ->
  sim s b -> unread s = Cbor.head major n ++ rest -> fits b1 ->
  exists s2, Preflight.item input limits (S fuel) depth parent payload s
             = item_body fuel depth parent payload major n s2
    /\ sim s2 b1 /\ unread s2 = rest
    /\ s2.(Preflight.bootstrap) = s.(Preflight.bootstrap) || zero_id depth parent major n.
Proof.
  intros Hm Hn Hnode Hs Hun Hfit.
  destruct (scan_node _ _ _ _ _ _ _ Hm Hn Hnode Hs Hun Hfit) as (s1 & s2 & Hd & He & Hle & Hc & Hh & Hs2 & Hu & Hb).
  exists (mark (zero_id depth parent major n) s2).
  rewrite unread_mark, bootstrap_mark, Hb. split_and!; try done; [|by apply sim_mark].
  cbn [Preflight.item]. rewrite (proj2 (Z.ltb_ge _ depth)) by lia. rewrite He.
  cbv beta zeta. change (Preflight.entries (s <| Preflight.entries := b1.(Budget.entries) |>)) with b1.(Budget.entries).
  rewrite (proj2 (Z.ltb_ge _ b1.(Budget.entries))) by lia. rewrite Hc, Hh. reflexivity.
Qed.

(** Byte and text strings. *)
Lemma item_bytes fuel depth parent payload major (l : list byte) :
  major = 2 \/ major = 3 -> len l <= U64_MAX ->
  follows (Preflight.item input limits (S fuel) depth parent payload)
    (Budget.bytes (len l) (if (major =? 2) && payload then MAX_DATA else MAX_METADATA) depth)
    (Cbor.head major (len l) ++ l) false.
Proof.
  intros Hm Hl b b' s rest H Hs Hun Hfit. rewrite <- app_assoc in Hun. unfold Budget.bytes in H.
  case_match eqn:Hmax; [done|]. destruct (Budget.node _ _ b) as [b1|] eqn:Hn; [|done].
  destruct (checked_mul_u64 _ 4) eqn:Hq; [|done]. cbn in H.
  assert (z = len l * 4 /\ len l * 4 <= U64_MAX) as [-> Hq'].
  { unfold checked_mul_u64 in Hq. case_match; simplify_eq. lia. }
  destruct (charge_spec _ _ _ _ H) as [-> _]. unfold fits in Hfit. cbn in Hfit.
  destruct (item_open fuel depth parent payload major (len l) b b1 s (l ++ rest)) as (s2 & -> & Hs2 & Hu2 & Hb2);
    [lia | lia | done | done | done | unfold fits; lia |].
  destruct Hs2 as [Hat Hent Hnn Hall Hlim]. rewrite (sim_limits _ _ Hs) in Hmax.
  assert (Hguard : ((if (major =? 2) && payload then as_usize limits.(Limits.data_payload)
                     else as_usize limits.(Limits.metadata_bytes)) <? len l) = false).
  { apply Z.ltb_ge in Hmax. apply Z.ltb_ge. 
    destruct Hm as [->| ->]; cbn [Z.eqb Pos.eqb andb] in *; [destruct payload|];
      [change (MAX_DATA =? MAX_DATA) with true in Hmax | change (MAX_METADATA =? MAX_DATA) with false in Hmax..]; lia. }
  unfold item_body. replace ((major =? 0) || (major =? 1) || (major =? 7)) with false by lia.
  replace ((major =? 2) || (major =? 3)) with true by lia. cbv zeta. rewrite Hguard.
  rewrite Hq. cbn [ok_or]. rewrite scan_charge by lia.
  match goal with |- context [Preflight.take input _ ?s3] =>
    destruct (scan_take s3 l rest Hat Hu2) as (-> & Hu3 & Hat3) end.
  eexists. split_and!; [done | constructor; cbn in *; lia || done | done |].
  cbn. rewrite Hb2. unfold zero_id. by replace (major =? 0) with false by lia; rewrite !andb_false_r.
Qed.

Lemma walk_depth c depth parent payload b b' : walk c depth parent payload b = Ok b' ->
  depth <= as_usize b.(Budget.limits).(Limits.nesting).
Proof.
  destruct c; cbn [walk]; unfold Budget.integer, Budget.bytes, Budget.container, Budget.scalar; intros H;
    try done; repeat (case_match; try done);
    match goal with Hn : Budget.node _ _ _ = Ok _ |- _ => by apply node_spec in Hn as (_ & _ & ? & _) end.
Qed.

Lemma container_spec n depth b b1 : Budget.container n depth b = Ok b1 ->
  Budget.node depth (Budget.head n) b = Ok b1
  /\ n <= saturating_sub_u64 (as_usize b1.(Budget.limits).(Limits.collection_entries)) b1.(Budget.entries).
Proof.
  unfold Budget.container. intros H. destruct (Budget.node _ _ b) as [b2|]; [|done].
  case_match eqn:Hc; [done|]. simplify_eq. split; [done|]. lia.
Qed.

(** Where the scan raises its bootstrap mark: on the envelope's stream id 0. *)
Definition is_zero (c : Cbor) : bool := match c with Int n => n =? 0 | _ => false end.
Definition boots (depth parent : Z) (c : Cbor) : bool :=
  ((depth =? 1) && (parent =? 3) && is_zero c)
  || match c with
     | Map m => existsb (fun e => (depth =? 0) && (e.1 =? 3) && is_zero e.2) m
     | _ => false
     end.

Lemma boots_child depth k c : 0 <= depth -> boots (depth + 1) k c = (depth =? 0) && (k =? 3) && is_zero c.
Proof.
  intros Hd. unfold boots. replace (depth + 1 =? 1) with (depth =? 0) by lia.
  destruct c; cbn; rewrite ?orb_false_r; try done.
  replace (existsb _ m) with false; [by rewrite orb_false_r|].
  symmetry. apply not_true_is_false. rewrite existsb_elem. intros (e & _ & He). lia.
Qed.

Lemma existsb_const {A} (l : list A) : existsb (fun _ => false) l = false.
Proof. by induction l. Qed.

(** A container: its head, then one scanning step per element. *)
Lemma item_container {A} fuel depth parent payload major (l : list A) f bs mk body :
  major = 4 \/ major = 5 -> len l <= U64_MAX ->
  (forall s, item_body fuel depth parent payload major (len l) s
    = if saturating_sub_u64 (as_usize limits.(Limits.collection_entries)) s.(Preflight.entries) <? len l
      then Err CodecError.Bounds else Preflight.repeat (length l) body s) ->
  Forall (fun x => follows body (f x) (bs x) (mk x)) l ->
  Forall (fun x => forall b b', f x b = Ok b' -> grows (len (bs x)) b b') l ->
  follows (Preflight.item input limits (S fuel) depth parent payload)
    (fun b => try b := Budget.container (len l) depth b in for_each f l b)
    (Cbor.head major (len l) ++ concat (map bs l)) (existsb mk l).
Proof.
  intros Hm Hl Hbody Hf Hg b b' s rest H Hs Hun Hfit. rewrite <- app_assoc in Hun.
  destruct (Budget.container _ _ b) as [b1|] eqn:Hc; [|done]. apply container_spec in Hc as [Hn Hcount].
  pose proof (for_each_grows f bs l b1 b' Hg H) as (_ & Hmono & _).
  destruct (item_open fuel depth parent payload major (len l) b b1 s _ ltac:(lia) ltac:(lia) Hn Hs Hun)
    as (s2 & -> & Hs2 & Hu2 & Hb2); [unfold fits in *; lia|].
  rewrite Hbody, (sim_entries _ _ Hs2), <- (sim_limits _ _ Hs2), (proj2 (Z.ltb_ge _ (len l))) by lia.
  destruct (repeat_follows body f bs mk l Hf Hg b1 b' s2 rest H Hs2 Hu2 Hfit) as (s3 & -> & Hs3 & Hu3 & Hb3).
  exists s3. rewrite Hb3, Hb2. unfold zero_id. replace (major =? 0) with false by lia.
  by rewrite andb_false_r, orb_false_r.
Qed.

(** A map entry: its key, the key's charge, its value. *)
Lemma entry_follows fuel depth parent k c mk : 0 <= k <= I64_MAX ->
  follows (Preflight.item input limits fuel (depth + 1) k (payload_at depth parent k))
    (walk c (depth + 1) k (payload_at depth parent k)) (enc c) mk ->
  (forall b b', walk c (depth + 1) k (payload_at depth parent k) b = Ok b' -> grows (len (enc c)) b b') ->
  follows (fun s =>
      try ((key_major, key), s) := Preflight.head input s in
      if negb (key_major =? 0) then Err CodecError.Malformed
      else
        try s := Preflight.charge limits 32 s in
        Preflight.item input limits fuel (depth + 1) key ((depth =? 1) && (parent =? 16) && (key =? 2)) s)
    (walk_entry depth parent (k, c)) (enc_pair (k, c)) mk.
Proof.
  intros Hk Hc Hg b b' s rest H Hs Hun Hfit. unfold walk_entry in H. unfold enc_pair in Hun.
  cbn [fst snd] in *. rewrite as_u64_id, <- app_assoc in Hun by lia.
  destruct (Budget.key k b) as [b1|] eqn:Hb; [|done]. apply charge_spec in Hb as [-> _].
  destruct (Hg _ _ H) as (_ & Hmono & _). destruct Hs as [Hat Hent Hnn Hall Hlim].
  destruct (scan_head s 0 k _ ltac:(lia) ltac:(lia) Hat Hun) as (-> & Hu1 & Hat1). cbn [Z.eqb negb].
  cbn in Hmono. unfold fits in Hfit. rewrite scan_charge by (cbn; lia).
  fold (payload_at depth parent k). match goal with |- context [Preflight.item _ _ _ _ _ _ ?s2] =>
    apply (Hc _ b' s2 rest H) end; [|exact Hu1|exact Hfit].
  constructor; cbn in *; lia || done.
Qed.

(** An item that is its head alone. *)
Lemma leaf_follows fuel depth parent payload major n f bs mk :
  major = 0 \/ major = 1 \/ major = 7 -> 0 <= n <= U64_MAX ->
  (forall b, f b = Budget.node depth (Budget.head n) b) -> bs = Cbor.head major n ->
  zero_id depth parent major n = mk ->
  follows (Preflight.item input limits (S fuel) depth parent payload) f bs mk.
Proof.
  intros Hm Hn Hf -> <- b b' s rest H Hs Hun Hfit. rewrite Hf in H.
  destruct (item_open fuel depth parent payload major n b b' s rest ltac:(lia) Hn H Hs Hun Hfit)
    as (s2 & -> & Hs2 & Hu2 & Hb2).
  exists s2. unfold item_body. by replace ((major =? 0) || (major =? 1) || (major =? 7)) with true by lia.
Qed.

Lemma item_walk c : encodable c = true -> ordered c = true -> forall fuel depth parent payload,
  0 <= depth -> as_usize limits.(Limits.nesting) < Z.of_nat fuel + depth ->
  follows (Preflight.item input limits fuel depth parent payload) (walk c depth parent payload) (enc c)
    (boots depth parent c).
Proof.
  induction c as [n|x|l|t|a IH|m IH|x|] using Cbor_tree_ind; intros He Ho fuel depth parent payload Hd Hf.
  all: destruct fuel as [|fuel]; [by intros b b' s rest H Hs; apply walk_depth in H; rewrite (sim_limits _ _ Hs) in H; lia|].
  - cbn in He. apply (leaf_follows fuel depth parent payload (if 0 <=? n then 0 else 1) (if 0 <=? n then n else -1 - n)).
    + case_match; auto.
    + case_match; lia.
    + cbn [walk]. unfold Budget.integer. intros b.
      destruct (Z.leb_spec 0 n), (Z.ltb_spec n 0); try lia;
        [by rewrite as_u64_id by lia | by replace (-1 - n) with (Z.abs n - 1) by lia].
    + cbn [enc]. by case_match.
    + unfold zero_id, boots, is_zero. rewrite orb_false_r, <- andb_assoc. f_equal. case_match; cbn; lia.
  - done.
  - cbn in He. unfold boots. cbn [is_zero]. rewrite andb_false_r. cbn [walk enc].
    apply (item_bytes fuel depth parent payload 2); [auto|lia].
  - cbn [encodable] in He. unfold boots. cbn [is_zero]. rewrite andb_false_r. cbn [walk enc].
    unfold slen. rewrite <- length_bytes_of. apply (item_bytes fuel depth parent payload 3); [auto|lia].
  - cbn [encodable ordered] in He, Ho. apply andb_true_iff in He as [Hl He].
    rewrite forallb_elem in He. rewrite forallb_elem in Ho. rewrite list.Forall_forall in IH.
    replace (boots depth parent (Array a)) with (existsb (fun _ : Cbor => false) a)
      by (unfold boots; cbn [is_zero]; rewrite andb_false_r; apply existsb_const).
    cbn [walk enc]. apply (item_container fuel depth parent payload 4 a _ enc) with
      (body := Preflight.item input limits fuel (depth + 1) 0 false); [auto | lia | | |].
    + intros s. unfold item_body. by rewrite Nat2Z.id.
    + apply list.Forall_forall. intros c Hc.
      replace false with (boots (depth + 1) 0 c) at 2 by (rewrite boots_child by lia; cbn; by rewrite andb_false_r).
      apply IH; auto; lia.
    + apply list.Forall_forall. intros c Hc b b'. apply walk_grows; auto.
  - cbn [ordered] in Ho. apply andb_true_iff in Ho as [Ha Ho]. rewrite forallb_elem in Ho.
    rewrite list.Forall_forall in IH. rewrite enc_map_ordered by done.
    unfold boots. cbn [is_zero]. rewrite andb_false_r. cbn [orb walk].
    apply (item_container fuel depth parent payload 5 m (walk_entry depth parent) enc_pair) with
      (body := fun s =>
        try ((key_major, key), s) := Preflight.head input s in
        if negb (key_major =? 0) then Err CodecError.Malformed
        else
          try s := Preflight.charge limits 32 s in
          Preflight.item input limits fuel (depth + 1) key ((depth =? 1) && (parent =? 16) && (key =? 2)) s);
      [auto | cbn in He; lia | | |].
    + intros s. unfold item_body. by rewrite Nat2Z.id.
    + apply list.Forall_forall. intros [k c] Hc. destruct (encodable_entry _ _ _ He Hc) as [Hk Hec].
      cbn [fst snd]. rewrite <- boots_child by done. apply entry_follows; [done| |].
      * apply (IH (k, c) Hc); [done | apply (Ho (k, c) Hc) | lia | lia].
      * intros b b'. apply walk_grows; [done | apply (Ho (k, c) Hc)].
    + apply list.Forall_forall. intros [k c] Hc b b'. destruct (encodable_entry _ _ _ He Hc) as [Hk Hec].
      apply entry_grows; [done|]. intros b1 b2. apply walk_grows; [done | apply (Ho (k, c) Hc)].
  - apply (leaf_follows fuel depth parent payload 7 (if x then 21 else 20)); auto; [case_match; lia | by destruct x | by destruct x |].
    unfold zero_id, boots, is_zero. by rewrite !andb_false_r.
  - apply (leaf_follows fuel depth parent payload 7 22); auto; [lia|].
    unfold zero_id, boots, is_zero. by rewrite !andb_false_r.
Qed.
End scan.

(** ** Larger limits admit more *)

Section wider.
Context {L : Layout}.

(** [l'] is at least as wide as [l] in what the admission walk tests. *)
Record wider (l l' : Limits.t) : Prop := {
  wide_frame : as_usize l.(Limits.encoded_frame) <= as_usize l'.(Limits.encoded_frame);
  wide_data : as_usize l.(Limits.data_payload) <= as_usize l'.(Limits.data_payload);
  wide_metadata : as_usize l.(Limits.metadata_bytes) <= as_usize l'.(Limits.metadata_bytes);
  wide_nesting : as_usize l.(Limits.nesting) <= as_usize l'.(Limits.nesting);
  wide_entries : as_usize l.(Limits.collection_entries) <= as_usize l'.(Limits.collection_entries);
  wide_allocation : as_usize l.(Limits.decode_allocation) <= as_usize l'.(Limits.decode_allocation);
}.

(** A budget step that succeeds still does under wider limits, with the same charges. *)
Definition widens (f : Budget.t -> result Budget.t CodecError.t) : Prop :=
  forall b b' l', f b = Ok b' -> wider b.(Budget.limits) l' ->
  f (b <| Budget.limits := l' |>) = Ok (b' <| Budget.limits := l' |>)
  /\ b'.(Budget.limits) = b.(Budget.limits).

Lemma widens_bind f g : widens f -> widens g -> widens (fun b => try b := f b in g b).
Proof.
  intros Hf Hg b b' l' H Hw. destruct (f b) as [b1|] eqn:H1; [|done].
  destruct (Hf b b1 l' H1 Hw) as [-> Hl]. rewrite <- Hl in Hw |- *. by apply Hg.
Qed.

Lemma widens_charge e a : widens (Budget.charge e a).
Proof.
  intros b b' l' H [Hf _ _ _ _ Ha]. unfold Budget.charge, ok_or in *. cbn in *.
  destruct (checked_add_u64 _ e); [|done]. cbn in *. destruct (checked_add_u64 _ a); [|done]. cbn in *.
  destruct (Budget.bootstrap b); cbn in *; (case_match eqn:E1; [done|]);
    (rewrite (proj2 (Z.ltb_ge _ _)) by lia); (destruct (checked_add_u64 _ _); [|done]);
    (case_match eqn:E2; [done|]); (rewrite (proj2 (Z.ltb_ge _ _)) by lia); by simplify_eq.
Qed.

Lemma widens_node depth e : widens (Budget.node depth e).
Proof.
  intros b b' l' H Hw. pose proof Hw as [_ _ _ Hn He _]. unfold Budget.node, ok_or in *. cbn in *.
  destruct (checked_add_u64 _ 1); [|done]. cbn in *. case_match eqn:Hg; [done|].
  apply orb_false_iff in Hg as [??]. rewrite !(proj2 (Z.ltb_ge _ _)) by lia. cbn [orb].
  by apply (widens_charge _ _ _ _ l' H).
Qed.

Lemma widens_container n depth : widens (Budget.container n depth).
Proof.
  intros b b' l' H Hw. unfold Budget.container in *. destruct (Budget.node _ _ b) as [b1|] eqn:Hn; [|done].
  destruct (widens_node _ _ b b1 l' Hn Hw) as [-> Hl]. case_match eqn:Hc; [done|]. simplify_eq. cbn.
  unfold saturating_sub_u64 in *. rewrite Hl in Hc. destruct Hw as [_ _ _ _ He _].
  by rewrite (proj2 (Z.ltb_ge _ _)) by lia.
Qed.

Lemma widens_bytes n max depth : widens (Budget.bytes n max depth).
Proof.
  intros b b' l' H Hw. unfold Budget.bytes in *. case_match eqn:Hc; [done|].
  rewrite (proj2 (Z.ltb_ge _ _)).
  - refine (widens_bind _ (fun b => try quad := ok_or (checked_mul_u64 n 4) CodecError.Bounds in
      Budget.charge n quad b) (widens_node _ _) _ b b' l' H Hw).
    intros b1 b2 l1. destruct (checked_mul_u64 n 4); [|done]. apply widens_charge.
  - destruct Hw as [_ Hd Hm _ _ _]. revert Hc. cbn. destruct (max =? MAX_DATA); intros; lia.
Qed.

Lemma widens_for_each {A} (f : A -> Budget.t -> result Budget.t CodecError.t) l :
  Forall (fun x => widens (f x)) l -> widens (for_each f l).
Proof.
  induction 1 as [|x l Hx Hl IH]; cbn.
  - intros b b' l' H Hw. by simplify_eq.
  - by apply (widens_bind (f x) (for_each f l)).
Qed.

Lemma widens_walk c : forall depth parent payload, widens (walk c depth parent payload).
Proof.
  induction c as [n|x|l|t|a IH|m IH|x|] using Cbor_tree_ind; intros depth parent payload; cbn [walk].
  - apply widens_node.
  - done.
  - apply widens_bytes.
  - apply widens_bytes.
  - apply widens_bind; [apply widens_container|]. apply widens_for_each.
    eapply list.Forall_impl; [exact IH|]. cbn. intros c Hc. apply Hc.
  - apply widens_bind; [apply widens_container|]. apply widens_for_each.
    eapply list.Forall_impl; [exact IH|]. cbn. intros [k c] Hc. apply widens_bind; [apply widens_charge | apply Hc].
  - apply widens_node.
  - apply widens_node.
Qed.

Lemma limits_spec l : Validate.limits l = Ok tt ->
  1 <= l.(Limits.encoded_frame) <= MAX_FRAME /\ 1 <= l.(Limits.data_payload) <= MAX_DATA
  /\ 1 <= l.(Limits.metadata_bytes) <= MAX_METADATA /\ 1 <= l.(Limits.nesting) <= MAX_DEPTH
  /\ 1 <= l.(Limits.collection_entries) <= MAX_ENTRIES /\ 1 <= l.(Limits.decode_allocation) <= MAX_ALLOCATION
  /\ 1 <= l.(Limits.queued_bytes) <= 4 * 1024 * 1024 /\ 1 <= l.(Limits.queued_frames) <= 64
  /\ 1 <= l.(Limits.receive_window) <= l.(Limits.queued_bytes)
  /\ 1 <= l.(Limits.control_reserve_bytes) < l.(Limits.queued_bytes)
  /\ 1 <= l.(Limits.control_reserve_frames) < l.(Limits.queued_frames).
Proof.
  unfold Validate.limits. cbn [existsb]. intros H. case_match eqn:Hg; [done|].
  rewrite !orb_false_iff, !Z.ltb_ge, !Z.leb_gt in Hg. destruct_and?. lia.
Qed.

Lemma limits_intro l :
  1 <= l.(Limits.encoded_frame) <= MAX_FRAME -> 1 <= l.(Limits.data_payload) <= MAX_DATA ->
  1 <= l.(Limits.metadata_bytes) <= MAX_METADATA -> 1 <= l.(Limits.nesting) <= MAX_DEPTH ->
  1 <= l.(Limits.collection_entries) <= MAX_ENTRIES -> 1 <= l.(Limits.decode_allocation) <= MAX_ALLOCATION ->
  1 <= l.(Limits.queued_bytes) <= 4 * 1024 * 1024 -> 1 <= l.(Limits.queued_frames) <= 64 ->
  1 <= l.(Limits.receive_window) <= l.(Limits.queued_bytes) ->
  1 <= l.(Limits.control_reserve_bytes) < l.(Limits.queued_bytes) ->
  1 <= l.(Limits.control_reserve_frames) < l.(Limits.queued_frames) ->
  Validate.limits l = Ok tt.
Proof.
  intros. unfold Validate.limits. cbn [existsb]. case_match eqn:Hg; [|done].
  rewrite !orb_true_iff, !Z.ltb_lt, !Z.leb_le in Hg. lia.
Qed.

Lemma default_wider l : Validate.limits l = Ok tt -> wider l default_limits.
Proof.
  intros H. apply limits_spec in H.
  unfold MAX_FRAME, MAX_DATA, MAX_METADATA, MAX_DEPTH, MAX_ENTRIES, MAX_ALLOCATION in H.
  constructor; cbn -[as_usize]; rewrite !as_usize_id by lia; lia.
Qed.
End wider.

(** ** The codec *)

Section codec.
Context {L : Layout}.

(** What Rust's types guarantee of a message: its integers are [i64] and its
    strings are UTF-8. *)
Definition well_typed (m : Envelope.t) : bool := encodable (Envelope.to_cbor m).

Lemma boots_envelope m : boots 0 0 (Envelope.to_cbor m) = (m.(Envelope.stream_id) =? 0).
Proof.
  unfold boots, Envelope.to_cbor. cbn [existsb fst snd is_zero Z.eqb Pos.eqb andb orb]. by rewrite orb_false_r.
Qed.

Lemma within_new boot l : Validate.limits l = Ok tt -> within (Budget.new boot l).
Proof.
  intros Hl. apply limits_spec in Hl.
  unfold MAX_FRAME, MAX_DATA, MAX_METADATA, MAX_DEPTH, MAX_ENTRIES, MAX_ALLOCATION in Hl.
  unfold within, max_frame, max_allocation, Budget.new, MAX_BOOTSTRAP, MAX_BOOTSTRAP_ALLOCATION.
  cbn -[as_usize Z.mul]. rewrite !as_usize_id by lia. case_match; lia.
Qed.

(** The final budget of an admitted message: its exact encoded length, inside the limits. *)
(** What a message is charged, whatever its integers are. *)
Lemma allocation_charge_range m l n : Codec.allocation_charge m l = Ok n ->
  Validate.limits l = Ok tt /\ Validate.envelope m = Ok tt /\ 0 <= n <= l.(Limits.decode_allocation).
Proof.
  unfold Codec.allocation_charge. intros H. destruct (Validate.limits l) as [[]|] eqn:Hl; [|done].
  destruct (Validate.envelope m) as [[]|]; [|done]. split_and!; try done;
    unfold Admission.allocation_charge in H; rewrite visit_envelope_walk in H;
    (destruct (walk _ _ _ _ _) as [b|] eqn:Hw; [|done]); apply walk_spends in Hw as (?&?&Hlim&Hb&Hin);
    unfold Budget.total_charge, ok_or in H; (destruct (checked_add_u64 _ _) eqn:Hc; [|done]);
    apply checked_add_u64_Some in Hc as [-> _]; injection H as <-; cbn in *; [lia|].
  destruct (Hin (within_new _ _ Hl)) as [_ Ha]. unfold max_allocation in Ha. rewrite Hlim, Hb in Ha. cbn in Ha.
  apply limits_spec in Hl. unfold MAX_ALLOCATION in Hl. rewrite as_usize_id in Ha by lia. case_match; lia.
Qed.

Lemma admission_budget m l : well_typed m = true -> Validate.limits l = Ok tt ->
  Admission.envelope m l = Ok tt ->
  exists b, walk (Envelope.to_cbor m) 0 0 false (Budget.new (m.(Envelope.stream_id) =? 0) l) = Ok b
    /\ b.(Budget.encoded) = len (encode (Envelope.to_cbor m)) /\ within b
    /\ b.(Budget.limits) = l /\ b.(Budget.bootstrap) = (m.(Envelope.stream_id) =? 0).
Proof.
  intros He Hl H. unfold Admission.envelope, Admission.allocation_charge in H.
  rewrite visit_envelope_walk in H. destruct (walk _ _ _ _ _) as [b|] eqn:Hw; [|done].
  exists b. apply walk_grows in Hw; [|done|apply shaped_ordered].
  destruct Hw as (Henc & _ & _ & Hlim & Hboot & Hwithin).
  split_and!; [done | exact Henc | apply Hwithin, within_new, Hl | exact Hlim | exact Hboot].
Qed.

Lemma admission_preflight m l : well_typed m = true -> Validate.limits l = Ok tt ->
  Admission.envelope m l = Ok tt ->
  Preflight.check (encode (Envelope.to_cbor m)) l = Ok tt
  /\ Codec.check_bootstrap m (len (encode (Envelope.to_cbor m))) = Ok tt.
Proof.
  intros He Hl H. destruct (admission_budget m l He Hl H) as (b & Hw & Henc & [Hfr Hal] & Hlim & Hboot).
  unfold max_frame, max_allocation in *. rewrite Hlim, Hboot in *. rewrite Henc in *.
  set (input := encode _) in *.
  pose proof (as_u64_range l.(Limits.encoded_frame)) as Hrf. unfold in_u64 in Hrf.
  destruct (item_walk input l ltac:(unfold as_usize in *; case_match; lia) (Envelope.to_cbor m) He
    (shaped_ordered m) (Z.to_nat (as_usize l.(Limits.nesting)) + 2) 0 0 false ltac:(lia) ltac:(lia)
    _ b (Preflight.mk 0 0 (len input) false) [] Hw) as (s & Hs & [Hat Hent _ Hall _] & Hun & Hbs).
  - constructor; cbn; lia || done.
  - rewrite app_nil_r. reflexivity.
  - unfold fits. case_match; lia.
  - clearbody input. rewrite boots_envelope in Hbs. cbn in Hbs.
    assert (Hend : s.(Preflight.at_) = len input).
    { unfold unread in Hun. apply (f_equal length) in Hun. rewrite length_skipn in Hun. cbn in Hun. lia. }
    unfold Preflight.check, Codec.check_bootstrap. rewrite (proj2 (Z.ltb_ge _ (len input))) by (case_match; lia).
    rewrite Hs, Hbs, Hend, Z.eqb_refl, Hall. unfold MAX_BOOTSTRAP, MAX_BOOTSTRAP_ALLOCATION in *.
    destruct (_ =? 0); cbn [andb negb]; [|done].
    by rewrite !(proj2 (Z.ltb_ge _ _)) by lia.
Qed.

Lemma decode_encoded m l : well_typed m = true -> Validate.envelope m = Ok tt ->
  Validate.limits l = Ok tt -> Admission.envelope m l = Ok tt ->
  Codec.decode_limited (encode (Envelope.to_cbor m)) l = Ok m.
Proof.
  intros He Hv Hl Ha. destruct (admission_preflight m l He Hl Ha) as [Hp Hb].
  unfold Codec.decode_limited. rewrite Hl, Hp, (try_decode_writer Envelope.to_cbor 5) by (done || lia).
  cbn [map_err]. rewrite reads. cbn [map_err]. by rewrite Hv, Hb.
Qed.

Lemma admit_limited_spec m l : Codec.admit_limited m l = Ok tt ->
  Validate.limits l = Ok tt /\ Validate.envelope m = Ok tt /\ Admission.envelope m l = Ok tt.
Proof.
  unfold Codec.admit_limited. intros H. destruct (Validate.limits l) as [[]|]; [|done].
  by destruct (Validate.envelope m) as [[]|].
Qed.

(** Negotiated limits only narrow what the defaults admit. *)
Lemma admission_default m l : well_typed m = true -> Validate.limits l = Ok tt ->
  Admission.envelope m l = Ok tt -> Admission.envelope m default_limits = Ok tt.
Proof.
  intros He Hl H. destruct (admission_budget m l He Hl H) as (b & Hw & Henc & [Hfr Hal] & Hlim & Hboot).
  destruct (widens_walk _ _ _ _ _ b default_limits Hw (default_wider l Hl)) as [Hw' _].
  unfold Admission.envelope, Admission.allocation_charge. rewrite visit_envelope_walk.
  change (Budget.new (m.(Envelope.stream_id) =? 0) default_limits)
    with ((Budget.new (m.(Envelope.stream_id) =? 0) l) <| Budget.limits := default_limits |>).
  rewrite Hw'. unfold Budget.total_charge, ok_or. cbn.
  destruct (checked_add_u64 _ _) eqn:Hc; [done|]. exfalso. unfold checked_add_u64 in Hc.
  case_match eqn:Hg; [done|]. unfold max_allocation in Hal.
  pose proof (as_u64_range b.(Budget.limits).(Limits.decode_allocation)) as Hr. unfold in_u64, as_usize in *.
  case_match; lia.
Qed.

(** An admitted message always encodes: the bytes pass the preflight scan and the bootstrap
    bound that the typed admission stands for, and decoding them gives the message back. *)
Theorem encode_decode m : well_typed m = true -> Codec.admit_message m = Ok tt ->
  exists bytes, Codec.encode m = Ok bytes /\ Codec.decode bytes = Ok m.
Proof.
  intros He Ha. pose proof (admit_limited_spec _ _ Ha) as (Hl & Hv & Hadm).
  destruct (admission_preflight m _ He Hl Hadm) as [Hp Hb].
  exists (encode (Envelope.to_cbor m)). split; [|by apply decode_encoded].
  unfold Codec.encode. by rewrite Ha, Hp, Hb.
Qed.

(** C16: under negotiated limits, which the defaults contain, a message admitted for sending
    always encodes, and a receiver with the same limits decodes it to the same message. *)
Theorem encode_decode_limited m l : well_typed m = true -> Codec.admit_limited m l = Ok tt ->
  exists bytes, Codec.encode_limited m l = Ok bytes /\ Codec.decode_limited bytes l = Ok m
    /\ len bytes <= l.(Limits.encoded_frame).
Proof.
  intros He Ha. pose proof (admit_limited_spec _ _ Ha) as (Hl & Hv & Hadm).
  pose proof (admission_default m l He Hl Hadm) as Hd.
  assert (Hld : Validate.limits default_limits = Ok tt) by reflexivity.
  destruct (admission_preflight m l He Hl Hadm) as [Hp _].
  destruct (admission_preflight m _ He Hld Hd) as [Hpd Hbd].
  exists (encode (Envelope.to_cbor m)). split_and!; [|by apply decode_encoded|].
  - unfold Codec.encode_limited, Codec.encode. rewrite Hl, Ha.
    unfold Codec.admit_message, Codec.admit_limited. by rewrite Hld, Hv, Hd, Hpd, Hbd, Hp.
  - unfold Preflight.check in Hp. case_match eqn:Hf; [done|]. apply limits_spec in Hl.
    unfold MAX_FRAME in Hl. rewrite as_usize_id in Hf by lia. lia.
Qed.

(** C37: the admission walk over a typed message, which never builds the tree, charges exactly the
    length of the canonical encoding, and its allocation charge is that length plus what the byte
    scan charges. *)
Theorem admission_exact m l b : well_typed m = true -> Validate.limits l = Ok tt ->
  visit_envelope m 0 (Budget.new (m.(Envelope.stream_id) =? 0) l) = Ok b ->
  b.(Budget.encoded) = len (encode (Envelope.to_cbor m))
  /\ b.(Budget.encoded) <= l.(Limits.encoded_frame)
  /\ b.(Budget.encoded) + b.(Budget.allocation) <= l.(Limits.decode_allocation)
  /\ (m.(Envelope.stream_id) = 0 -> b.(Budget.encoded) <= MAX_BOOTSTRAP
      /\ b.(Budget.encoded) + b.(Budget.allocation) <= MAX_BOOTSTRAP_ALLOCATION).
Proof.
  intros He Hl H. rewrite visit_envelope_walk in H.
  apply walk_grows in H; [|done|apply shaped_ordered]. destruct H as (Henc & _ & _ & Hlim & Hb & Hin).
  destruct (Hin (within_new _ _ Hl)) as [Hf Ha]. unfold max_frame, max_allocation in *.
  rewrite Hlim, Hb in *. cbn [Budget.new Budget.bootstrap Budget.limits Budget.encoded] in *.
  apply limits_spec in Hl. unfold MAX_FRAME, MAX_ALLOCATION in Hl. rewrite !as_usize_id in Hf, Ha by lia.
  split_and!; [exact Henc | case_match; lia | case_match; lia |].
  intros H0. rewrite H0 in *. cbn [Z.eqb] in *. lia.
Qed.
End codec.

(** A stream message and a binding offer, to evaluate the theorems on. *)
Definition sample_data : Envelope.t :=
  Envelope.default
    <| Envelope.version := 3 |> <| Envelope.session_id := "s-1"%string |> <| Envelope.stream_id := 7 |>
    <| Envelope.kind := MessageKind.Data |> <| Envelope.message_seq := Some 2 |>
    <| Envelope.data := Some (Data.mk 300 [x68; x69]) |>.

Lemma encode_decode_witness : exists bytes,
  Codec.encode (L := layout64) sample_data = Ok bytes /\ Codec.decode (L := layout64) bytes = Ok sample_data.
Proof. apply (encode_decode (L := layout64) sample_data); vm_compute; reflexivity. Defined.

Definition narrow_limits : Limits.t :=
  default_limits <| Limits.encoded_frame := 4096 |> <| Limits.decode_allocation := 65536 |>.

Lemma encode_decode_limited_witness : exists bytes,
  Codec.encode_limited (L := layout64) sample_data narrow_limits = Ok bytes
  /\ Codec.decode_limited (L := layout64) bytes narrow_limits = Ok sample_data /\ len bytes <= 4096.
Proof. apply (encode_decode_limited (L := layout64) sample_data narrow_limits); vm_compute; reflexivity. Defined.

Lemma admission_exact_witness :
  Budget.encoded (Budget.mk 62 4980 26 false narrow_limits) = len (encode (Envelope.to_cbor sample_data)).
Proof.
  apply (admission_exact (L := layout64) sample_data narrow_limits); vm_compute; reflexivity.
Defined.
