(* ===== verification/Binding.v ===== *)
(** * Capability binding (src/src/binding.rs, and sequenced.rs's [valid_limits])

    A host offers versions, schemes, policies and limits; an endpoint accepts
    the best common subset; the host verifies the answer before it installs the
    binding.  [unstable_sequenced] is the build feature that makes profile 3
    bindable: the definitions take it, so both builds are covered. *)
From S2P Require Import Prelude Utf8 Cbor CborFacts Protocol ProtocolFacts Budget Admission Policy Validate Codec CodecFacts.

Definition offer (session_id : string) (role : EndpointRole.t) : Envelope.t :=
  Envelope.default
    <| Envelope.version := 1 |>
    <| Envelope.session_id := session_id |>
    <| Envelope.stream_id := 0 |>
    <| Envelope.kind := MessageKind.Bind |>
    <| Envelope.bind := Some {|
         Bind.versions := [1];
         Bind.role := role;
         Bind.schemes := [Scheme.Ssh; Scheme.Https];
         Bind.policies := [AuthPolicy.SshAmbient; AuthPolicy.SshExplicit; AuthPolicy.Anonymous; AuthPolicy.Gh];
         Bind.receive_limits := default_limits |} |>.

Module EndpointConfig.
Record t := mk {
  endpoint_id : string;
  role : EndpointRole.t;
  schemes : list Scheme.t;
  policies : list AuthPolicy.t;
  limits : Limits.t;
  trust_owner : string;
}.
End EndpointConfig.

Module Binding.
Record t := mk {
  session_id : string;
  bound : Bound.t;
}.
#[global] Instance eq_dec : EqDecision t.
Proof. solve_decision. Defined.
Definition endpoint_id (self : t) : string := self.(bound).(Bound.endpoint_id).
Definition limits (self : t) : Limits.t := self.(bound).(Bound.receive_limits).
Definition profile_version (self : t) : Z := self.(bound).(Bound.version).
Definition trust_owner (self : t) : string := self.(bound).(Bound.trust_owner).
End Binding.

Definition failure (code : ErrorCode.t) : Failure.t := {|
  Failure.code := code;
  Failure.effect := Effect.None;
  Failure.facts := None;
  Failure.setup_cause := None;
  Failure.detail := None;
|}.

Definition usable (limits : Limits.t) : result unit Failure.t :=
  refuse ((limits.(Limits.encoded_frame) <? 4096)
          || (limits.(Limits.metadata_bytes) <? 256)
          || (limits.(Limits.nesting) <? 10)
          || (limits.(Limits.collection_entries) <? 128)
          || (limits.(Limits.decode_allocation) <? 65536)
          || (limits.(Limits.control_reserve_bytes) <? 4096)
          || (limits.(Limits.control_reserve_frames) <? 2)
          || (i64_sub limits.(Limits.queued_bytes) limits.(Limits.control_reserve_bytes)
              <? i64_add limits.(Limits.encoded_frame) limits.(Limits.decode_allocation))
          || (i64_sub limits.(Limits.queued_frames) limits.(Limits.control_reserve_frames) <? 2)
          || (i64_sub limits.(Limits.queued_bytes) limits.(Limits.control_reserve_bytes)
              <? limits.(Limits.receive_window)))
    (failure ErrorCode.UnsupportedOperation).

Definition no_greater (a b : Limits.t) : bool :=
  forallb (fun p => p.1 <=? p.2) [
    (a.(Limits.encoded_frame), b.(Limits.encoded_frame));
    (a.(Limits.data_payload), b.(Limits.data_payload));
    (a.(Limits.metadata_bytes), b.(Limits.metadata_bytes));
    (a.(Limits.nesting), b.(Limits.nesting));
    (a.(Limits.collection_entries), b.(Limits.collection_entries));
    (a.(Limits.decode_allocation), b.(Limits.decode_allocation));
    (a.(Limits.queued_bytes), b.(Limits.queued_bytes));
    (a.(Limits.queued_frames), b.(Limits.queued_frames));
    (a.(Limits.receive_window), b.(Limits.receive_window));
    (a.(Limits.control_reserve_bytes), b.(Limits.control_reserve_bytes));
    (a.(Limits.control_reserve_frames), b.(Limits.control_reserve_frames))].

Definition minimum (a b : Limits.t) : Limits.t := {|
  Limits.encoded_frame := Z.min a.(Limits.encoded_frame) b.(Limits.encoded_frame);
  Limits.data_payload := Z.min a.(Limits.data_payload) b.(Limits.data_payload);
  Limits.metadata_bytes := Z.min a.(Limits.metadata_bytes) b.(Limits.metadata_bytes);
  Limits.nesting := Z.min a.(Limits.nesting) b.(Limits.nesting);
  Limits.collection_entries := Z.min a.(Limits.collection_entries) b.(Limits.collection_entries);
  Limits.decode_allocation := Z.min a.(Limits.decode_allocation) b.(Limits.decode_allocation);
  Limits.queued_bytes := Z.min a.(Limits.queued_bytes) b.(Limits.queued_bytes);
  Limits.queued_frames := Z.min a.(Limits.queued_frames) b.(Limits.queued_frames);
  Limits.receive_window := Z.min a.(Limits.receive_window) b.(Limits.receive_window);
  Limits.control_reserve_bytes := Z.min a.(Limits.control_reserve_bytes) b.(Limits.control_reserve_bytes);
  Limits.control_reserve_frames := Z.min a.(Limits.control_reserve_frames) b.(Limits.control_reserve_frames);
|}.

(** [Iterator::max] on versions. *)
Fixpoint max_of (l : list Z) : option Z :=
  match l with
  | [] => None
  | x :: l => Some (match max_of l with Some y => Z.max x y | None => x end)
  end.

(** [retain] and [filter(..).collect()] with a boolean test. *)
Definition keep {A} (p : A -> bool) (l : list A) : list A := filter (fun x => p x = true) l.

(** src/src/sequenced.rs: what profile 3 asks of the limits. *)
Module SequencedError.
Inductive t :=
| InvalidMessage | WrongSession | Capacity | WouldBlock | Protocol | GapTimeout | ApplyRejected | Closed.
#[global] Instance eq_dec : EqDecision t.
Proof. solve_decision. Defined.
End SequencedError.

Section binding.
Context {L : Layout}.

Definition RECORD_CHARGE : Z := size_of_stream_state + 256.
Definition FRAME_OVERHEAD : Z := size_of_pending + 128.

Definition valid_limits (limits : Limits.t) : result unit SequencedError.t :=
  try _ := map_err (fun _ => SequencedError.Capacity)
             (Codec.admit_limited (offer "probe" EndpointRole.Local) limits) in
  try worst := ok_or (and_then (checked_add_i64 limits.(Limits.encoded_frame) limits.(Limits.decode_allocation))
                       (fun sum => checked_add_i64 sum (as_i64 FRAME_OVERHEAD))) SequencedError.Capacity in
  try required := ok_or (and_then (and_then (checked_mul_i64 worst 2)
                          (fun sum => checked_add_i64 sum limits.(Limits.control_reserve_bytes)))
                          (fun sum => checked_add_i64 sum (as_i64 RECORD_CHARGE))) SequencedError.Capacity in
  refuse ((limits.(Limits.queued_bytes) <? required)
          || (limits.(Limits.queued_frames) <? i64_add limits.(Limits.control_reserve_frames) 2))
    SequencedError.Capacity.

(** The two [profile] modules. *)
Variable unstable_sequenced : bool.

Definition BINDABLE : list Z := if unstable_sequenced then [1; 2; 3] else [1; 2].

Definition profile_admit (version : Z) (limits : Limits.t) : result unit Failure.t :=
  if unstable_sequenced then
    if version =? 3
    then map_err (fun _ => failure ErrorCode.UnsupportedOperation) (valid_limits limits)
    else Ok tt
  else Ok tt.

Definition invalid {A} (r : result A CodecError.t) : result A Failure.t :=
  map_err (fun _ => failure ErrorCode.InvalidRequest) r.

Definition check_open (self : Binding.t) (message : Envelope.t) : result unit Failure.t :=
  let bound := self.(Binding.bound) in
  try _ := invalid (Codec.admit_limited message bound.(Bound.receive_limits)) in
  try open := ok_or message.(Envelope.open) (failure ErrorCode.InvalidRequest) in
  try _ := refuse (negb (message.(Envelope.version) =? bound.(Bound.version)))
             (failure ErrorCode.UnsupportedVersion) in
  try _ := refuse (negb (bool_decide (message.(Envelope.kind) = MessageKind.Open))
                   || negb (bool_decide (message.(Envelope.session_id) = self.(Binding.session_id)))
                   || negb (bool_decide (open.(Open.endpoint_id) = bound.(Bound.endpoint_id))))
             (failure ErrorCode.Unavailable) in
  try _ := refuse (negb (contains open.(Open.destination).(Destination.scheme) bound.(Bound.schemes))
                   || negb (contains open.(Open.policy) bound.(Bound.policies))
                   || negb (no_greater open.(Open.receive_limits) bound.(Bound.receive_limits)))
             (failure ErrorCode.UnsupportedOperation) in
  usable open.(Open.receive_limits).

Definition check_identity (self : Binding.t) (message : Envelope.t) : result unit Failure.t :=
  let bound := self.(Binding.bound) in
  try _ := invalid (Codec.admit_limited message bound.(Bound.receive_limits)) in
  try check := ok_or message.(Envelope.check_identity) (failure ErrorCode.InvalidRequest) in
  try _ := refuse (negb (match bound.(Bound.version) with 2 | 3 => true | _ => false end)
                   || negb (message.(Envelope.version) =? bound.(Bound.version)))
             (failure ErrorCode.UnsupportedVersion) in
  try _ := refuse (negb (bool_decide (message.(Envelope.kind) = MessageKind.CheckIdentity))
                   || negb (bool_decide (message.(Envelope.session_id) = self.(Binding.session_id)))
                   || negb (bool_decide (check.(CheckIdentity.endpoint_id) = bound.(Bound.endpoint_id)))
                   || str_is_empty check.(CheckIdentity.operation_id)
                   || (check.(CheckIdentity.timeout_ms) <=? 0)
                   || (I32_MAX <? check.(CheckIdentity.timeout_ms))
                   || negb (bool_decide (check.(CheckIdentity.identity).(Identity.mode) = IdentityMode.ExplicitKey)))
             (failure ErrorCode.InvalidRequest) in
  refuse (is_none_or check.(CheckIdentity.identity).(Identity.key_path) str_is_empty)
    (failure ErrorCode.InvalidRequest).

(** The version and the capability lists an endpoint answers with. *)
Definition select_version (bind : Bind.t) : option Z :=
  max_of (keep (fun candidate => contains candidate bind.(Bind.versions)) BINDABLE).

Definition select (self : EndpointConfig.t) (bind : Bind.t) (version : Z)
    : list Scheme.t * list AuthPolicy.t :=
  let schemes := keep (fun s => contains s bind.(Bind.schemes)) self.(EndpointConfig.schemes) in
  let policies := keep (fun p => contains p bind.(Bind.policies)) self.(EndpointConfig.policies) in
  let policies := if version =? 1 then keep (fun policy => negb (native policy)) policies else policies in
  let schemes := keep (fun s => existsb (fun p => supports s p) policies) schemes in
  let policies := keep (fun p => existsb (fun s => supports s p) schemes) policies in
  (schemes, policies).

Definition accept (self : EndpointConfig.t) (message : Envelope.t)
    : result (Envelope.t * Binding.t) Failure.t :=
  try _ := refuse (negb (capabilities self.(EndpointConfig.schemes) self.(EndpointConfig.policies)))
             (failure ErrorCode.UnsupportedOperation) in
  try _ := invalid (Codec.admit_message message) in
  try bind := ok_or message.(Envelope.bind) (failure ErrorCode.InvalidRequest) in
  try _ := refuse (negb (bool_decide (bind.(Bind.role) = self.(EndpointConfig.role))))
             (failure ErrorCode.UnsupportedOperation) in
  try version := ok_or (select_version bind) (failure ErrorCode.UnsupportedVersion) in
  try _ := invalid (Validate.limits self.(EndpointConfig.limits)) in
  let '(schemes, policies) := select self bind version in
  try _ := refuse (is_nil schemes || is_nil policies) (failure ErrorCode.UnsupportedOperation) in
  let receive_limits := minimum bind.(Bind.receive_limits) self.(EndpointConfig.limits) in
  try _ := usable receive_limits in
  try _ := profile_admit version receive_limits in
  let bound := {|
    Bound.version := version;
    Bound.endpoint_id := self.(EndpointConfig.endpoint_id);
    Bound.role := self.(EndpointConfig.role);
    Bound.schemes := schemes;
    Bound.policies := policies;
    Bound.receive_limits := receive_limits;
    Bound.trust_owner := self.(EndpointConfig.trust_owner) |} in
  let reply := Envelope.default
    <| Envelope.version := 1 |>
    <| Envelope.session_id := message.(Envelope.session_id) |>
    <| Envelope.stream_id := 0 |>
    <| Envelope.kind := MessageKind.Bound |>
    <| Envelope.bound := Some bound |> in
  try _ := invalid (Codec.admit_message reply) in
  Ok (reply, Binding.mk message.(Envelope.session_id) bound).

Definition verify (offer reply : Envelope.t) : result Binding.t Failure.t :=
  try _ := invalid (Codec.admit_message offer) in
  try _ := invalid (Codec.admit_message reply) in
  try requested := ok_or offer.(Envelope.bind) (failure ErrorCode.InvalidRequest) in
  try bound := ok_or reply.(Envelope.bound) (failure ErrorCode.Unavailable) in
  try _ := refuse (negb (bool_decide (reply.(Envelope.session_id) = offer.(Envelope.session_id)))
                   || negb (bool_decide (bound.(Bound.role) = requested.(Bind.role)))
                   || negb (contains bound.(Bound.version) BINDABLE)
                   || negb (contains bound.(Bound.version) requested.(Bind.versions))
                   || negb (forallb (fun v => contains v requested.(Bind.schemes)) bound.(Bound.schemes))
                   || negb (forallb (fun v => contains v requested.(Bind.policies)) bound.(Bound.policies))
                   || negb (no_greater bound.(Bound.receive_limits) requested.(Bind.receive_limits)))
             (failure ErrorCode.InvalidRequest) in
  try _ := usable bound.(Bound.receive_limits) in
  try _ := profile_admit bound.(Bound.version) bound.(Bound.receive_limits) in
  Ok (Binding.mk reply.(Envelope.session_id) bound).
End binding.
