(* ===== verification/BindingFacts.v ===== *)
(** * Properties of capability binding *)
From S2P Require Import Prelude Utf8 Cbor CborFacts Protocol ProtocolFacts Budget Admission Policy Validate Codec CodecFacts Binding.

(** ** Guards *)

Lemma refuse_Ok {E} (g : bool) (e : E) : refuse g e = Ok tt <-> g = false.
Proof. by destruct g. Qed.

Lemma elem_of_keep {A} (p : A -> bool) (l : list A) x : x ∈ keep p l <-> p x = true /\ x ∈ l.
Proof. unfold keep. by rewrite (list_elem_of_filter (fun x => p x = true)). Qed.

Lemma max_of_Some l x : max_of l = Some x -> x ∈ l /\ forall y, y ∈ l -> y <= x.
Proof.
  revert x. induction l as [|z l IH]; intros x H; [done|]. cbn in H. injection H as <-.
  destruct (max_of l) as [y|] eqn:Hm.
  - destruct (IH y eq_refl) as [Hin Hle]. split.
    + destruct (Z.max_spec z y) as [[_ ->]|[_ ->]]; [by right | left].
    + intros w Hw. apply elem_of_cons in Hw as [->|Hw]; [lia|]. specialize (Hle w Hw). lia.
  - destruct l; [|done]. split; [left|]. intros w Hw. apply list_elem_of_singleton in Hw. lia.
Qed.

(** ** Limits *)

Lemma no_greater_spec a b : no_greater a b = true <->
  a.(Limits.encoded_frame) <= b.(Limits.encoded_frame)
  /\ a.(Limits.data_payload) <= b.(Limits.data_payload)
  /\ a.(Limits.metadata_bytes) <= b.(Limits.metadata_bytes)
  /\ a.(Limits.nesting) <= b.(Limits.nesting)
  /\ a.(Limits.collection_entries) <= b.(Limits.collection_entries)
  /\ a.(Limits.decode_allocation) <= b.(Limits.decode_allocation)
  /\ a.(Limits.queued_bytes) <= b.(Limits.queued_bytes)
  /\ a.(Limits.queued_frames) <= b.(Limits.queued_frames)
  /\ a.(Limits.receive_window) <= b.(Limits.receive_window)
  /\ a.(Limits.control_reserve_bytes) <= b.(Limits.control_reserve_bytes)
  /\ a.(Limits.control_reserve_frames) <= b.(Limits.control_reserve_frames).
Proof. unfold no_greater. cbn [forallb fst snd]. rewrite !andb_true_iff, !Z.leb_le. tauto. Qed.

Lemma minimum_no_greater a b : no_greater (minimum a b) a = true /\ no_greater (minimum a b) b = true.
Proof. rewrite !no_greater_spec. cbn. split_and!; lia. Qed.

(** The meet of two valid limits is valid: a reserve that fits both queues fits the smaller one. *)
Lemma minimum_valid a b : Validate.limits a = Ok tt -> Validate.limits b = Ok tt ->
  Validate.limits (minimum a b) = Ok tt.
Proof. intros Ha Hb. apply limits_spec in Ha, Hb. destruct_and!. apply limits_intro; cbn [Limits.encoded_frame Limits.data_payload minimum Limits.metadata_bytes Limits.nesting Limits.collection_entries Limits.decode_allocation Limits.queued_bytes Limits.queued_frames Limits.receive_window Limits.control_reserve_bytes Limits.control_reserve_frames]; lia. Qed.

(** ** Capabilities *)

Section facts.
Context {L : Layout}.
Variable unstable_sequenced : bool.


Lemma select_elem cfg bind version s p : let '(schemes, policies) := select cfg bind version in
  (s ∈ schemes -> s ∈ cfg.(EndpointConfig.schemes) /\ s ∈ bind.(Bind.schemes)
     /\ exists q, q ∈ policies /\ supports s q = true)
  /\ (p ∈ policies -> p ∈ cfg.(EndpointConfig.policies) /\ p ∈ bind.(Bind.policies)
     /\ (version = 1 -> native p = false) /\ exists t, t ∈ schemes /\ supports t p = true)
  /\ (s ∈ cfg.(EndpointConfig.schemes) -> s ∈ bind.(Bind.schemes) ->
      p ∈ cfg.(EndpointConfig.policies) -> p ∈ bind.(Bind.policies) ->
      supports s p = true -> (version = 1 -> native p = false) -> s ∈ schemes /\ p ∈ policies).
Proof.
  unfold select. set (ss := keep _ cfg.(EndpointConfig.schemes)). set (ps := keep _ cfg.(EndpointConfig.policies)).
  set (ps1 := if version =? 1 then _ else ps). set (ss1 := keep _ ss).
  assert (Hps : forall q, q ∈ ps1 <-> q ∈ cfg.(EndpointConfig.policies) /\ q ∈ bind.(Bind.policies)
    /\ (version = 1 -> native q = false)).
  { intros q. unfold ps1. destruct (Z.eqb_spec version 1); rewrite ?elem_of_keep; unfold ps;
      rewrite elem_of_keep, contains_spec, ?negb_true_iff; tauto. }
  assert (Hss : forall t, t ∈ ss1 <-> t ∈ cfg.(EndpointConfig.schemes) /\ t ∈ bind.(Bind.schemes)
    /\ exists q, q ∈ ps1 /\ supports t q = true).
  { intros t. unfold ss1, ss. rewrite !elem_of_keep, contains_spec, existsb_elem. tauto. }
  assert (Hpf : forall q, q ∈ keep (fun p => existsb (fun s => supports s p) ss1) ps1
    <-> q ∈ ps1 /\ exists t, t ∈ ss1 /\ supports t q = true).
  { intros q. rewrite elem_of_keep, existsb_elem. tauto. }
  split_and!.
  - intros Hs. pose proof Hs as Hs'. apply Hss in Hs as (H1 & H2 & q & Hq & Hsq). split_and!; [done|done|].
    exists q. rewrite Hpf. eauto.
  - rewrite Hpf, Hps. tauto.
  - intros H1 H2 H3 H4 H5 H6. rewrite Hpf.
    assert (p ∈ ps1) by (by apply Hps). assert (s ∈ ss1) by (apply Hss; eauto). eauto.
Qed.

(** What an accepted offer fixes. *)
Lemma accept_spec cfg message reply binding : accept unstable_sequenced cfg message = Ok (reply, binding) ->
  exists bind version, message.(Envelope.bind) = Some bind
    /\ bind.(Bind.role) = cfg.(EndpointConfig.role)
    /\ select_version unstable_sequenced bind = Some version
    /\ Codec.admit_message message = Ok tt /\ Codec.admit_message reply = Ok tt
    /\ Validate.limits cfg.(EndpointConfig.limits) = Ok tt
    /\ (select cfg bind version).1 <> [] /\ (select cfg bind version).2 <> []
    /\ usable binding.(Binding.bound).(Bound.receive_limits) = Ok tt
    /\ profile_admit unstable_sequenced version binding.(Binding.bound).(Bound.receive_limits) = Ok tt
    /\ binding = Binding.mk message.(Envelope.session_id) {|
         Bound.version := version;
         Bound.endpoint_id := cfg.(EndpointConfig.endpoint_id);
         Bound.role := cfg.(EndpointConfig.role);
         Bound.schemes := (select cfg bind version).1;
         Bound.policies := (select cfg bind version).2;
         Bound.receive_limits := minimum bind.(Bind.receive_limits) cfg.(EndpointConfig.limits);
         Bound.trust_owner := cfg.(EndpointConfig.trust_owner) |}
    /\ reply.(Envelope.session_id) = message.(Envelope.session_id)
    /\ reply.(Envelope.bound) = Some binding.(Binding.bound).
Proof.
  unfold accept, invalid, ok_or. intros H.
  destruct (refuse _ _) as [[]|]; [|done].
  destruct (Codec.admit_message message) as [[]|] eqn:Hadm; [|done]. cbn [map_err] in H.
  destruct (Envelope.bind message) as [bind|]; [|done].
  destruct (refuse _ _) as [[]|] eqn:Hrole in H; [|done]. apply refuse_Ok in Hrole.
  destruct (select_version unstable_sequenced bind) as [version|] eqn:Hver; [|done].
  destruct (Validate.limits _) as [[]|] eqn:Hl; [|done]. cbn [map_err] in H.
  destruct (select cfg bind version) as [ss ps] eqn:Hsel.
  destruct (refuse _ _) as [[]|] eqn:Hne in H; [|done]. apply refuse_Ok in Hne.
  destruct (usable _) as [[]|] eqn:Hu; [|done].
  destruct (profile_admit _ _ _) as [[]|] eqn:Hp; [|done].
  destruct (Codec.admit_message _) as [[]|] eqn:Hr in H; [|done]. cbn [map_err] in H. injection H as <- <-.
  apply orb_false_iff in Hne as [Hs1 Hp1]. apply is_nil_false in Hs1, Hp1.
  apply negb_false_iff, bool_decide_eq_true in Hrole.
  exists bind, version. cbn [Binding.bound Bound.receive_limits]. rewrite Hsel. by split_and!.
Qed.

(** A validated open names an allowed triple. *)
Lemma open_allowed message open l : Codec.admit_limited message l = Ok tt ->
  message.(Envelope.open) = Some open ->
  allows open.(Open.destination).(Destination.scheme) open.(Open.policy)
    open.(Open.identity).(Identity.mode) = true.
Proof.
  intros H Ho. apply admit_limited_spec in H as (_ & H & _). unfold Validate.envelope in H.
  repeat (case_match; [|done]). rewrite Ho in *. cbn [when] in *. unfold open_body in *.
  repeat match goal with Hb : (try _ := ?r in _) = Ok _ |- _ => destruct r as [[]|] eqn:?; [|done] end.
  repeat match goal with Hr : refuse _ _ = Ok tt |- _ => apply refuse_Ok in Hr end.
  by apply negb_false_iff.
Qed.

Lemma select_version_spec bind version : select_version unstable_sequenced bind = Some version ->
  version ∈ BINDABLE unstable_sequenced /\ version ∈ bind.(Bind.versions)
  /\ forall v, v ∈ BINDABLE unstable_sequenced -> v ∈ bind.(Bind.versions) -> v <= version.
Proof.
  intros H. apply max_of_Some in H as [Hin Hmax]. apply elem_of_keep in Hin as [Hc Hb].
  apply contains_spec in Hc. split_and!; [done|done|]. intros v Hv Hv'. apply Hmax, elem_of_keep.
  by rewrite contains_spec.
Qed.

Lemma bind_limits message bind : Codec.admit_message message = Ok tt -> message.(Envelope.bind) = Some bind ->
  Validate.limits bind.(Bind.receive_limits) = Ok tt.
Proof.
  intros H Hb. apply admit_limited_spec in H as (_ & H & _). unfold Validate.envelope in H.
  repeat (case_match; [|done]). rewrite Hb in *. cbn [when] in *. unfold bind_body in *.
  repeat (case_match; try done).
  all: match goal with H : Validate.limits (Bind.receive_limits _) = Ok ?u |- _ => by destruct u end.
Qed.

Lemma accept_verifies_spec cfg message reply binding :
  accept unstable_sequenced cfg message = Ok (reply, binding) -> verify unstable_sequenced message reply = Ok binding.
Proof.
  intros H. apply accept_spec in H
    as (bind & version & Hb & Hrole & Hver & Hadm & Hadr & _ & _ & _ & Hu & Hp & -> & Hsid & Hbound).
  apply select_version_spec in Hver as (Hv1 & Hv2 & _). cbn [Binding.bound Bound.receive_limits] in *.
  unfold verify, invalid, ok_or. rewrite Hadm, Hadr, Hb, Hbound, Hsid. cbn [map_err].
  match goal with |- context [refuse ?g _] => replace g with false end.
  - cbn [refuse Bound.receive_limits Bound.version]. by rewrite Hu, Hp.
  - symmetry. cbn [Bound.role Bound.version Bound.schemes Bound.policies Bound.receive_limits].
    rewrite !orb_false_iff, !negb_false_iff, !bool_decide_eq_true, !contains_spec, !forallb_elem.
    split_and!; try done; [| |apply minimum_no_greater].
    + intros s Hs. apply contains_spec. pose proof (select_elem cfg bind version s AuthPolicy.Gh) as Hsel.
      destruct (select _ _ _) as [ss ps]. by apply Hsel.
    + intros p Hpin. apply contains_spec. pose proof (select_elem cfg bind version Scheme.Ssh p) as Hsel.
      destruct (select _ _ _) as [ss ps]. by apply Hsel.
Qed.

(** C36: the host's check admits what the endpoint answers: whatever offer an endpoint accepts, its
    reply verifies against that offer, and both sides then hold the same binding. *)
Theorem accept_verifies cfg message reply binding :
  accept unstable_sequenced cfg message = Ok (reply, binding) -> verify unstable_sequenced message reply = Ok binding.
Proof. apply accept_verifies_spec. Qed.

(** A binding never widens: its limits are valid, usable and no greater than either side's, its
    version is the highest that both sides know, and every bound scheme and policy is one that both
    sides listed, has a partner in the binding, and is not native under profile 1. *)
Theorem accept_narrows cfg message reply binding : accept unstable_sequenced cfg message = Ok (reply, binding) ->
  exists bind, message.(Envelope.bind) = Some bind /\
  let bound := binding.(Binding.bound) in
  Validate.limits bound.(Bound.receive_limits) = Ok tt
  /\ usable bound.(Bound.receive_limits) = Ok tt
  /\ no_greater bound.(Bound.receive_limits) bind.(Bind.receive_limits) = true
  /\ no_greater bound.(Bound.receive_limits) cfg.(EndpointConfig.limits) = true
  /\ (bound.(Bound.version) ∈ bind.(Bind.versions)
      /\ forall v, v ∈ BINDABLE unstable_sequenced -> v ∈ bind.(Bind.versions) -> v <= bound.(Bound.version))
  /\ capabilities bound.(Bound.schemes) bound.(Bound.policies) = true
  /\ (forall s, s ∈ bound.(Bound.schemes) -> s ∈ cfg.(EndpointConfig.schemes) /\ s ∈ bind.(Bind.schemes))
  /\ (forall p, p ∈ bound.(Bound.policies) -> p ∈ cfg.(EndpointConfig.policies)
       /\ p ∈ bind.(Bind.policies) /\ (bound.(Bound.version) = 1 -> native p = false)).
Proof.
  intros H. apply accept_spec in H
    as (bind & version & Hb & Hrole & Hver & Hadm & Hadr & Hl & Hs0 & Hp0 & Hu & _ & -> & _ & _).
  apply select_version_spec in Hver as (_ & Hv2 & Hmax).
  exists bind. cbn [Binding.bound Bound.receive_limits Bound.version Bound.schemes Bound.policies] in *.
  pose proof (fun s p => select_elem cfg bind version s p) as Hsel.
  destruct (select cfg bind version) as [ss ps]. cbn [fst snd] in *.
  destruct (minimum_no_greater bind.(Bind.receive_limits) cfg.(EndpointConfig.limits)) as [Hm1 Hm2].
  split_and!; try done.
  - apply minimum_valid; [|done]. exact (bind_limits message bind Hadm Hb).
  - apply capabilities_spec. split_and!; try done.
    + intros s Hs. by destruct (Hsel s AuthPolicy.Gh) as [Hq _]; apply Hq in Hs as (_ & _ & ?).
    + intros p Hp. by destruct (Hsel Scheme.Ssh p) as (_ & Hq & _); apply Hq in Hp as (_ & _ & _ & ?).
  - intros s Hs. by apply (Hsel s AuthPolicy.Gh) in Hs as (? & ? & _).
  - intros p Hp. by apply (Hsel Scheme.Ssh p) in Hp as (? & ? & ? & _).
Qed.

(** An endpoint drops no capability that both sides can use: a scheme and a policy that both
    list and that fit each other are both bound (a native policy only above profile 1). *)
Theorem accept_keeps_common cfg message reply binding bind s p :
  accept unstable_sequenced cfg message = Ok (reply, binding) -> message.(Envelope.bind) = Some bind ->
  s ∈ cfg.(EndpointConfig.schemes) -> s ∈ bind.(Bind.schemes) ->
  p ∈ cfg.(EndpointConfig.policies) -> p ∈ bind.(Bind.policies) -> supports s p = true ->
  (binding.(Binding.bound).(Bound.version) = 1 -> native p = false) ->
  s ∈ binding.(Binding.bound).(Bound.schemes) /\ p ∈ binding.(Binding.bound).(Bound.policies).
Proof.
  intros H Hb' Hs1 Hs2 Hp1 Hp2 Hsp Hnat. apply accept_spec in H
    as (bind' & version & Hb & _ & _ & _ & _ & _ & _ & _ & _ & _ & -> & _ & _).
  assert (bind' = bind) as -> by congruence.
  cbn [Binding.bound Bound.version Bound.schemes Bound.policies] in *.
  pose proof (select_elem cfg bind version s p) as Hsel. destruct (select _ _ _) as [ss ps].
  by apply Hsel.
Qed.

(** an open that passes the binding's check asks for nothing outside it: it names this session,
    endpoint and version, a bound scheme and policy that the policy relation allows together with
    its identity, and limits that are usable and no greater than the bound ones. *)
Theorem check_open_within self message : check_open self message = Ok tt ->
  exists open, message.(Envelope.open) = Some open /\
  let bound := self.(Binding.bound) in
  message.(Envelope.version) = bound.(Bound.version)
  /\ message.(Envelope.session_id) = self.(Binding.session_id)
  /\ open.(Open.endpoint_id) = bound.(Bound.endpoint_id)
  /\ open.(Open.destination).(Destination.scheme) ∈ bound.(Bound.schemes)
  /\ open.(Open.policy) ∈ bound.(Bound.policies)
  /\ allows open.(Open.destination).(Destination.scheme) open.(Open.policy)
       open.(Open.identity).(Identity.mode) = true
  /\ no_greater open.(Open.receive_limits) bound.(Bound.receive_limits) = true
  /\ usable open.(Open.receive_limits) = Ok tt.
Proof.
  unfold check_open, invalid, ok_or. intros H.
  destruct (Codec.admit_limited _ _) as [[]|] eqn:Hadm; [|done]. cbn [map_err] in H.
  destruct (Envelope.open message) as [open|] eqn:Hopen; [|done].
  destruct (refuse _ _) as [[]|] eqn:Hv in H; [|done]. apply refuse_Ok in Hv.
  destruct (refuse _ _) as [[]|] eqn:Hk in H; [|done]. apply refuse_Ok in Hk.
  destruct (refuse _ _) as [[]|] eqn:Hc in H; [|done]. apply refuse_Ok in Hc.
  rewrite !orb_false_iff, !negb_false_iff, ?bool_decide_eq_true, ?contains_spec in *.
  apply Z.eqb_eq in Hv. destruct_and?. exists open. split_and!; try done.
  exact (open_allowed message open _ Hadm Hopen).
Qed.
End facts.

(** ** A negotiation to evaluate the theorems on *)

Definition sample_offer : Envelope.t :=
  let o := offer "session"%string EndpointRole.Local in
  o <| Envelope.bind := option_map (fun b => b <| Bind.versions := [1; 3; 2] |>) o.(Envelope.bind) |>.

Definition sample_config : EndpointConfig.t := {|
  EndpointConfig.endpoint_id := "endpoint"%string;
  EndpointConfig.role := EndpointRole.Local;
  EndpointConfig.schemes := [Scheme.Https; Scheme.Ssh];
  EndpointConfig.policies := [AuthPolicy.Gh; AuthPolicy.SshAmbient; AuthPolicy.WindowsDefault];
  EndpointConfig.limits := default_limits <| Limits.receive_window := 4096 |>;
  EndpointConfig.trust_owner := "owner"%string;
|}.

Definition sample_binding : Binding.t := Binding.mk "session" {|
  Bound.version := 3;
  Bound.endpoint_id := "endpoint"%string;
  Bound.role := EndpointRole.Local;
  Bound.schemes := [Scheme.Https; Scheme.Ssh];
  Bound.policies := [AuthPolicy.Gh; AuthPolicy.SshAmbient];
  Bound.receive_limits := default_limits <| Limits.receive_window := 4096 |>;
  Bound.trust_owner := "owner"%string |}.

Definition sample_reply : Envelope.t := Envelope.default
  <| Envelope.version := 1 |> <| Envelope.session_id := "session"%string |>
  <| Envelope.kind := MessageKind.Bound |> <| Envelope.bound := Some sample_binding.(Binding.bound) |>.

Definition sample_open : Envelope.t := Envelope.default
  <| Envelope.version := 3 |> <| Envelope.session_id := "session"%string |> <| Envelope.stream_id := 1 |>
  <| Envelope.kind := MessageKind.Open |> <| Envelope.message_seq := Some 1 |>
  <| Envelope.open := Some {|
       Open.endpoint_id := "endpoint"%string;
       Open.operation_id := "op"%string;
       Open.destination := Destination.default
         <| Destination.scheme := Scheme.Https |> <| Destination.host := "example.org"%string |>
         <| Destination.port := 443 |> <| Destination.path := "/repo"%string |>;
       Open.service := GitService.default;
       Open.identity := Identity.default <| Identity.mode := IdentityMode.Ambient |>;
       Open.policy := AuthPolicy.Gh;
       Open.deadlines := Deadlines.mk 1000 1000 1000 1000 1000;
       Open.receive_limits := sample_binding.(Binding.bound).(Bound.receive_limits) |} |>.

Lemma accept_verifies_witness :
  verify (L := layout64) true sample_offer sample_reply = Ok sample_binding.
Proof. apply (accept_verifies (L := layout64) true sample_config). vm_compute. reflexivity. Defined.

Lemma accept_narrows_witness : exists bind, sample_offer.(Envelope.bind) = Some bind
  /\ no_greater sample_binding.(Binding.bound).(Bound.receive_limits) bind.(Bind.receive_limits) = true.
Proof.
  destruct (accept_narrows (L := layout64) true sample_config sample_offer sample_reply sample_binding)
    as (bind & Hb & _ & _ & Hn & _).
  - vm_compute. reflexivity.
  - exists bind. split; [exact Hb | exact Hn].
Defined.

Lemma accept_keeps_common_witness :
  Scheme.Https ∈ [Scheme.Https; Scheme.Ssh] /\ AuthPolicy.Gh ∈ [AuthPolicy.Gh; AuthPolicy.SshAmbient].
Proof.
  apply (accept_keeps_common (L := layout64) true sample_config sample_offer sample_reply sample_binding
    (match sample_offer.(Envelope.bind) with Some b => b | None => Bind.default end)).
  - vm_compute. reflexivity.
  - reflexivity.
  - apply (bool_decide_eq_true_1 _). vm_compute. reflexivity.
  - apply (bool_decide_eq_true_1 _). vm_compute. reflexivity.
  - apply (bool_decide_eq_true_1 _). vm_compute. reflexivity.
  - apply (bool_decide_eq_true_1 _). vm_compute. reflexivity.
  - reflexivity.
  - reflexivity.
Defined.

Lemma check_open_within_witness : exists open, sample_open.(Envelope.open) = Some open
  /\ open.(Open.policy) ∈ sample_binding.(Binding.bound).(Bound.policies).
Proof.
  destruct (check_open_within (L := layout64) sample_binding sample_open) as (open & Ho & H).
  - vm_compute. reflexivity.
  - exists open. split; [exact Ho | apply H].
Defined.
