(* ===== verification/Counting.v ===== *)
(** * Counting

    How many values of a map, or members of a list, satisfy a test, and how the number
    changes with an insertion, a removal or an update. *)
From S2P Require Import Prelude Binding.

(** ** Counting the values of a map *)

Section count.
Context {K V : Type} `{KeyOrder K, Countable K}.

Definition count_values (q : V -> bool) (m : gmap K V) : Z := len (keep q (values m)).
Definition one_if (b : bool) : Z := if b then 1 else 0.

Lemma count_perm (q : V -> bool) (l k : list V) : l ≡ₚ k -> len (keep q l) = len (keep q k).
Proof. intros Hl. unfold keep. by rewrite Hl. Qed.

Lemma count_cons (q : V -> bool) (v : V) (l : list V) : len (keep q (v :: l)) = one_if (q v) + len (keep q l).
Proof. unfold keep, one_if. rewrite filter_cons. destruct (q v); [rewrite decide_True by done|rewrite decide_False by done]; cbn [length]; lia. Qed.

Lemma count_nonneg (q : V -> bool) (m : gmap K V) : 0 <= count_values q m.
Proof. unfold count_values. lia. Qed.

Lemma count_new q m k v : m !! k = None -> count_values q (<[k := v]> m) = count_values q m + one_if (q v).
Proof.
  intros Hk. unfold count_values, values. rewrite (count_perm q _ (v :: (Prelude.entries m).*2)).
  - rewrite count_cons. lia.
  - by rewrite (entries_insert_perm m k v Hk).
Qed.

Lemma count_old q m k v : m !! k = Some v -> count_values q m = count_values q (delete k m) + one_if (q v).
Proof.
  intros Hk. rewrite <- (count_new q (delete k m) k v) by apply lookup_delete_eq. by rewrite insert_delete_id.
Qed.

Lemma count_update q m k v v' : m !! k = Some v ->
  count_values q (<[k := v']> m) = count_values q m + one_if (q v') - one_if (q v).
Proof.
  intros Hk. rewrite <- insert_delete_eq, count_new by apply lookup_delete_eq. rewrite (count_old q m k v Hk). lia.
Qed.

Lemma count_update_le q m k v v' : m !! k = Some v -> (q v' = true -> q v = true) ->
  count_values q (<[k := v']> m) <= count_values q m.
Proof.
  intros Hk Hq. rewrite (count_update q m k v v' Hk). unfold one_if. destruct (q v'); [rewrite Hq by done|destruct (q v)]; lia.
Qed.

Lemma count_delete_le q m k : count_values q (delete k m) <= count_values q m.
Proof.
  destruct (m !! k) as [v|] eqn:Hk; [|by rewrite delete_id]. rewrite (count_old q m k v Hk). unfold one_if. destruct (q v); lia.
Qed.

Lemma count_subseteq q (m m' : gmap K V) : m ⊆ m' -> count_values q m <= count_values q m'.
Proof.
  intros Hm. unfold count_values, values.
  assert (Hs : (Prelude.entries m).*2 ⊆+ (Prelude.entries m').*2).
  { rewrite !entries_Permutation. apply fmap_submseteq, map_to_list_submseteq. done. }
  apply submseteq_Permutation in Hs as [k Hk]. rewrite (count_perm q _ _ Hk). unfold keep. rewrite list.filter_app, length_app. lia.
Qed.

Lemma count_all (m : gmap K V) : count_values (fun _ => true) m = Z.of_nat (size m).
Proof.
  unfold count_values, values, keep. rewrite <- length_entries, <- (length_fmap snd). f_equal. f_equal.
  induction (Prelude.entries m).*2 as [|v l IH]; [done|]. rewrite filter_cons. cbn. by rewrite IH.
Qed.
End count.

(** ** Tests on lists *)

Lemma keep_every {A} (p : A -> bool) (l : list A) : (forall x, x ∈ l -> p x = true) -> keep p l = l.
Proof.
  induction l as [|x l IH]; intros H; [done|]. unfold keep in *. rewrite filter_cons, decide_True by (apply H; left).
  f_equal. apply IH. intros y Hy. apply H. by right.
Qed.

Lemma sublist_map_keep {A B} (f : A -> B) p (l : list A) : sublist (map f (keep p l)) (map f l).
Proof.
  induction l as [|x l IH]; [constructor|]. unfold keep in *. rewrite filter_cons. destruct (decide _); cbn; by constructor.
Qed.
