(* ===== verification/IoClock.v ===== *)
(** * The stream's I/O clock (src/src/stream/io_clock.rs)

    Two budgets, one running at a time: network progress and helper
    interaction.  Times are [u64] milliseconds of the host's monotonic clock. *)
From S2P Require Import Prelude Utf8 Cbor Protocol.

(** src/src/stream/mod.rs: the error type of streams. *)
Module StreamError.
Inductive t :=
| WouldBlock | InvalidConfig | Protocol | Cancelled | CarrierLost | Timeout | WrongState | WriteClosed
| Closed | WrongSide | WaiterCapacity
| PeerFailed (code : ErrorCode.t) (effect : Effect.t).
#[global] Instance eq_dec : EqDecision t.
Proof. solve_decision. Defined.
End StreamError.

Module IoState.
Inductive t := Idle | Network | Backpressure | Interaction.
#[global] Instance eq_dec : EqDecision t.
Proof. solve_decision. Defined.
End IoState.

Module IoStatus.
Record t := mk {
  state : IoState.t;
  remaining_network_ms : Z;
  remaining_interaction_ms : Z;
  active_deadline : option Z;
}.
End IoStatus.

Module IoClock.
Record t := mk {
  state : IoState.t;
  network_remaining_ms : Z;
  interaction_remaining_ms : Z;
  deadline : option Z;
}.
#[global] Instance eta : Eta t :=
  fun r => mk (r.(state)) (r.(network_remaining_ms)) (r.(interaction_remaining_ms)) (r.(deadline)).

Definition new (network_ms interaction_ms : Z) : t := mk IoState.Idle network_ms interaction_ms None.

Definition account (now : Z) (self : t) : t :=
  match self.(deadline) with
  | None => self
  | Some deadline' =>
      let remaining := saturating_sub_u64 deadline' now in
      let self :=
        match self.(state) with
        | IoState.Network => self <| network_remaining_ms := remaining |>
        | IoState.Interaction => self <| interaction_remaining_ms := remaining |>
        | IoState.Idle | IoState.Backpressure => self
        end in
      self <| deadline := None |>
  end.

Definition set_state (now : Z) (state' : IoState.t) (self : t) : t :=
  if bool_decide (self.(state) = state') then self
  else
    let self := account now self in
    let self := self <| state := state' |> in
    self <| deadline :=
      match state' with
      | IoState.Network =>
          if 0 <? self.(network_remaining_ms)
          then Some (saturating_add_u64 now self.(network_remaining_ms)) else None
      | IoState.Interaction => Some (saturating_add_u64 now self.(interaction_remaining_ms))
      | IoState.Idle | IoState.Backpressure => None
      end |>.

(** [progress] fails, with the clock unchanged, outside the network state. *)
Definition progress (now bytes timeout_ms : Z) (self : t) : result t StreamError.t :=
  if bytes =? 0 then Ok self
  else if negb (bool_decide (self.(state) = IoState.Network)) then Err StreamError.WrongState
  else
    Ok (self <| network_remaining_ms := timeout_ms |>
             <| deadline := if 0 <? timeout_ms then Some (saturating_add_u64 now timeout_ms) else None |>).

Definition stop (now : Z) (self : t) : t := (account now self) <| state := IoState.Idle |>.

Definition due (now : Z) (self : t) : bool := is_some_and self.(deadline) (fun deadline => deadline <=? now).

Definition status (now : Z) (self : t) : IoStatus.t :=
  let left (remaining : Z) :=
    match self.(deadline) with Some at_ => saturating_sub_u64 at_ now | None => remaining end in
  let '(network, interaction) :=
    match self.(state) with
    | IoState.Network => (left self.(network_remaining_ms), self.(interaction_remaining_ms))
    | IoState.Interaction => (self.(network_remaining_ms), left self.(interaction_remaining_ms))
    | IoState.Idle | IoState.Backpressure => (self.(network_remaining_ms), self.(interaction_remaining_ms))
    end in
  IoStatus.mk self.(state) network interaction self.(deadline).

(** ** Properties *)

(** Only a running state has a deadline. *)
Definition wf (self : t) : Prop :=
  0 <= self.(network_remaining_ms) /\ 0 <= self.(interaction_remaining_ms)
  /\ match self.(state), self.(deadline) with
     | (IoState.Idle | IoState.Backpressure), Some _ => False
     | _, Some at_ => 0 <= at_
     | _, None => True
     end.

(** What is left of both budgets, as [status] reports it. *)
Definition left_ms (now : Z) (self : t) : Z * Z :=
  let s := status now self in (s.(IoStatus.remaining_network_ms), s.(IoStatus.remaining_interaction_ms)).

Lemma wf_new n i : 0 <= n -> 0 <= i -> wf (new n i).
Proof. done. Qed.

Lemma wf_account now self : wf self -> wf (account now self).
Proof.
  unfold wf, account, saturating_sub_u64. intros (Hn & Hi & Hd).
  destruct self as [s n i [d|]]; [|done]. destruct s; cbn in *; split_and!; try done; lia.
Qed.

Lemma wf_set_state now s self : 0 <= now -> wf self -> wf (set_state now s self).
Proof.
  intros Hnow H. unfold set_state. case_bool_decide; [done|]. apply (wf_account now) in H as (Hn & Hi & _).
  set (a := account now self) in *. clearbody a. unfold wf, saturating_add_u64.
  destruct s; cbn; split_and!; try done; try lia. destruct (0 <? _); [lia|done].
Qed.

Lemma wf_stop now self : wf self -> wf (stop now self).
Proof.
  intros H. unfold stop. pose proof (wf_account now self H) as (Hn & Hi & _). unfold wf. cbn.
  split_and!; try done. unfold account. destruct self as [s n i [d|]]; [|done]. by destruct s.
Qed.

Lemma wf_progress now bytes timeout self self' : 0 <= now -> 0 <= timeout ->
  wf self -> progress now bytes timeout self = Ok self' -> wf self'.
Proof.
  unfold progress. intros Hnow Ht (Hn & Hi & Hd) H. case_match; simplify_eq; [done|].
  destruct (negb _) eqn:Hs; simplify_eq. apply negb_false_iff, bool_decide_eq_true in Hs.
  unfold wf, saturating_add_u64. cbn. rewrite Hs. split_and!; try done. destruct (0 <? _); [lia|done].
Qed.

(** Stopping, or switching to another activity, keeps exactly what was left of both budgets. *)
Lemma left_account now self : wf self -> left_ms now (account now self) = left_ms now self.
Proof.
  intros (Hn & Hi & Hd). destruct self as [s n i [d|]]; [|done].
  destruct s; cbn in *; done.
Qed.

Lemma left_set_state now s self : wf self -> now + self.(network_remaining_ms) <= U64_MAX ->
  now + self.(interaction_remaining_ms) <= U64_MAX ->
  match self.(deadline) with Some at_ => at_ <= U64_MAX | None => True end -> 0 <= now ->
  left_ms now (set_state now s self) = left_ms now self.
Proof.
  intros Hwf Hb1 Hb2 Hb3 Hnow. unfold set_state. case_bool_decide; [done|].
  rewrite <- (left_account now self Hwf). pose proof (wf_account now self Hwf) as Hw.
  assert (Hd : (account now self).(deadline) = None).
  { unfold account. destruct self as [s' n i [d|]]; [|done]. by destruct s'. }
  assert (Hn : now + (account now self).(network_remaining_ms) <= Z.max now U64_MAX
    /\ now + (account now self).(interaction_remaining_ms) <= Z.max now U64_MAX).
  { unfold account, saturating_sub_u64. destruct self as [s' n i [d|]]; [|cbn in *; lia].
    destruct s'; cbn in *; lia. }
  destruct (account now self) as [s' n i d]. cbn in Hd, Hn |- *. subst d. destruct Hw as (Hwn & Hwi & _).
  cbn in Hwn, Hwi. unfold left_ms, status, saturating_add_u64, saturating_sub_u64.
  destruct s, s'; cbn; try done; try (destruct (Z.ltb_spec 0 n); cbn; [|done]); f_equal; lia.
Qed.
End IoClock.
