(* ===== verification/Stream.v ===== *)
(** * The stream machine (src/src/stream/mod.rs, state.rs, machine.rs, outgoing.rs, incoming.rs)

    One side of an open stream: two bounded byte queues, credit windows, flush
    barriers, half-close, close handshake, terminal errors and timers.  Methods
    that take [&mut self] return the new machine beside their result. *)
From S2P Require Import Prelude Utf8 Cbor Protocol Budget Admission Policy Validate Codec Binding IoClock.

Module Side.
Inductive t := Initiator | Endpoint.
#[global] Instance eq_dec : EqDecision t.
Proof. solve_decision. Defined.
End Side.

Module Config.
Record t := mk {
  session_id : string;
  stream_id : Z;
  side : Side.t;
  profile_version : Z;
  receive_limits : Limits.t;
  peer_limits : Limits.t;
  send_buffer : Z;
  receive_window : Z;
  peer_receive_window : Z;
  max_payload : Z;
  coalesce_delay_ms : Z;
  close_timeout_ms : Z;
  io_timeout_ms : Z;
  interaction_budget_ms : Z;
  max_waiters : Z;
}.
#[global] Instance eta : Eta t :=
  fun r => mk (r.(session_id)) (r.(stream_id)) (r.(side)) (r.(profile_version)) (r.(receive_limits))
    (r.(peer_limits)) (r.(send_buffer)) (r.(receive_window)) (r.(peer_receive_window)) (r.(max_payload))
    (r.(coalesce_delay_ms)) (r.(close_timeout_ms)) (r.(io_timeout_ms)) (r.(interaction_budget_ms))
    (r.(max_waiters)).

Definition new (session_id : string) (stream_id : Z) (side : Side.t) : t := {|
  session_id := session_id; stream_id := stream_id; side := side;
  profile_version := 1;
  receive_limits := default_limits; peer_limits := default_limits;
  send_buffer := 65536; receive_window := 65536; peer_receive_window := 65536; max_payload := 16384;
  coalesce_delay_ms := 100; close_timeout_ms := 5000; io_timeout_ms := 3000;
  interaction_budget_ms := 120000; max_waiters := 64;
|}.

Section validate.
Context {L : Layout}.

Definition invalid_config {A E} (r : result A E) : result A StreamError.t :=
  map_err (fun _ => StreamError.InvalidConfig) r.

Definition probe (self : t) : Envelope.t := Envelope.default
  <| Envelope.version := 1 |>
  <| Envelope.session_id := self.(session_id) |>
  <| Envelope.stream_id := self.(stream_id) |>
  <| Envelope.kind := MessageKind.Data |>
  <| Envelope.data := Some {|
       Data.offset := i64_sub I64_MAX (as_i64 self.(max_payload));
       Data.payload := replicate (Z.to_nat self.(max_payload)) x00 |} |>.

Definition validate (self : t) : result unit StreamError.t :=
  try _ := each (fun limits =>
             try _ := invalid_config (Validate.limits limits) in
             invalid_config (usable limits)) [self.(receive_limits); self.(peer_limits)] in
  try _ := refuse (str_is_empty self.(session_id)
                   || (128 <? slen self.(session_id))
                   || (self.(stream_id) <=? 0)
                   || negb (in_range 1 2 self.(profile_version))
                   || (self.(send_buffer) =? 0)
                   || (4 * 1024 * 1024 <? self.(send_buffer))
                   || (self.(receive_window) =? 0)
                   || (4 * 1024 * 1024 <? self.(receive_window))
                   || (self.(peer_receive_window) =? 0)
                   || (4 * 1024 * 1024 <? self.(peer_receive_window))
                   || (self.(max_payload) =? 0)
                   || (65536 <? self.(max_payload))
                   || (self.(close_timeout_ms) =? 0)
                   || (I32_MAX <? self.(io_timeout_ms))
                   || (86400000 <? self.(interaction_budget_ms))
                   || (self.(max_waiters) =? 0)
                   || (1024 <? self.(max_waiters))
                   || (self.(receive_limits).(Limits.receive_window) <? as_i64 self.(receive_window))
                   || (self.(peer_limits).(Limits.receive_window) <? as_i64 self.(peer_receive_window))
                   || (Z.min self.(receive_limits).(Limits.data_payload) self.(peer_limits).(Limits.data_payload)
                       <? as_i64 self.(max_payload))
                   || (i64_sub self.(peer_limits).(Limits.queued_bytes)
                         self.(peer_limits).(Limits.control_reserve_bytes) <? as_i64 self.(send_buffer)))
             StreamError.InvalidConfig in
  each (fun limits => invalid_config (Codec.admit_limited (probe self) limits))
    [self.(receive_limits); self.(peer_limits)].
End validate.
End Config.

Module CloseResult.
Record t := mk {
  disposition : Disposition.t;
  unread_response_discarded : bool;
  facts : Facts.t;
}.
End CloseResult.

Module PendingFlush.
Record t := mk {
  id : Z;
  offset : Z;
  sent : bool;
}.
#[global] Instance eta : Eta t := fun r => mk (r.(id)) (r.(offset)) (r.(sent)).
End PendingFlush.

Module Snapshot.
Record t := mk {
  send_buffer : Z;
  received_buffer : Z;
  peak_send_buffer : Z;
  peak_received_buffer : Z;
  sent : Z;
  received : Z;
  consumed : Z;
  peer_limit : Z;
  advertised_limit : Z;
  end_sent : bool;
  end_received : bool;
  terminal : bool;
}.
End Snapshot.

Module Stream.
Record t := mk {
  config : Config.t;
  send : list byte;
  recv : list byte;
  now : Z;
  io : IoClock.t;
  batch_deadline : option Z;
  force_send : bool;
  sent : Z;
  received : Z;
  consumed : Z;
  peer_limit : Z;
  advertised_limit : Z;
  end_requested : bool;
  end_sent : bool;
  end_received : bool;
  flush : option PendingFlush.t;
  flush_serial : Z;
  flush_acked : Z;
  peer_flush : option Barrier.t;
  peer_flush_serial : Z;
  close_deadline : option Z;
  close_sent : bool;
  close_received : bool;
  discarding : bool;
  discarded : bool;
  close_pending : option Closed.t;
  completed : option CloseResult.t;
  error : option StreamError.t;
  failure_facts : option Facts.t;
  retained_failure : option Failure.t;
  terminal_message : option Envelope.t;
  peak_send : Z;
  peak_recv : Z;
  revision : Z;
}.
#[global] Instance eta : Eta t :=
  fun r => mk (r.(config)) (r.(send)) (r.(recv)) (r.(now)) (r.(io)) (r.(batch_deadline)) (r.(force_send))
    (r.(sent)) (r.(received)) (r.(consumed)) (r.(peer_limit)) (r.(advertised_limit)) (r.(end_requested))
    (r.(end_sent)) (r.(end_received)) (r.(flush)) (r.(flush_serial)) (r.(flush_acked)) (r.(peer_flush))
    (r.(peer_flush_serial)) (r.(close_deadline)) (r.(close_sent)) (r.(close_received)) (r.(discarding))
    (r.(discarded)) (r.(close_pending)) (r.(completed)) (r.(error)) (r.(failure_facts))
    (r.(retained_failure)) (r.(terminal_message)) (r.(peak_send)) (r.(peak_recv)) (r.(revision)).

Definition is_empty {A} (l : list A) : bool := is_nil l.

Section machine.
Context {L : Layout}.

Definition new (config : Config.t) : result t StreamError.t :=
  try _ := Config.validate config in
  Ok {|
    config := config;
    send := []; recv := []; now := 0;
    io := IoClock.new config.(Config.io_timeout_ms) config.(Config.interaction_budget_ms);
    batch_deadline := None; force_send := false;
    sent := 0; received := 0; consumed := 0;
    peer_limit := as_i64 config.(Config.peer_receive_window);
    advertised_limit := as_i64 config.(Config.receive_window);
    end_requested := false; end_sent := false; end_received := false;
    flush := None; flush_serial := 0; flush_acked := 0;
    peer_flush := None; peer_flush_serial := 0;
    close_deadline := None; close_sent := false; close_received := false;
    discarding := false; discarded := false;
    close_pending := None; completed := None; error := None;
    failure_facts := None; retained_failure := None; terminal_message := None;
    peak_send := 0; peak_recv := 0; revision := 0;
  |}.

Definition live (self : t) : result unit StreamError.t :=
  match self.(error) with
  | Some error => Err error
  | None => if is_some self.(completed) then Err StreamError.Closed else Ok tt
  end.

Definition touch (self : t) : t := self <| revision := wrapping_add_u64 self.(revision) 1 |>.

Definition envelope (self : t) (kind : MessageKind.t) : Envelope.t := Envelope.default
  <| Envelope.version := self.(config).(Config.profile_version) |>
  <| Envelope.session_id := self.(config).(Config.session_id) |>
  <| Envelope.stream_id := self.(config).(Config.stream_id) |>
  <| Envelope.kind := kind |>.

(** The message a notifying failure leaves for the peer. *)
Definition failure_message (self : t) (error : StreamError.t) : Envelope.t :=
  let timeout := bool_decide (error = StreamError.Timeout) in
  let cancelled := bool_decide (error = StreamError.Cancelled) in
  if ((cancelled || timeout) && bool_decide (self.(config).(Config.side) = Side.Initiator)) || cancelled
  then (envelope self MessageKind.Cancel) <| Envelope.cancel := Some
         (Cancel.mk (if timeout then ErrorCode.Timeout else ErrorCode.Cancelled)) |>
  else (envelope self MessageKind.Failed) <| Envelope.failed := Some {|
         Failure.code := if timeout then ErrorCode.Timeout else ErrorCode.Protocol;
         Failure.effect := Effect.Possible;
         Failure.facts := None;
         Failure.setup_cause := None;
         Failure.detail := None |} |>.

Definition fail (error' : StreamError.t) (notify : bool) (self : t) : t :=
  if is_some self.(error) || is_some self.(completed) then self
  else
    let self := self
      <| error := Some error' |> <| send := [] |> <| flush := None |> <| peer_flush := None |>
      <| close_pending := None |> <| batch_deadline := None |> <| io := IoClock.stop self.(now) self.(io) |> in
    let self := if notify then self <| terminal_message := Some (failure_message self error') |> else self in
    touch self.

Definition expire_io_if_due (self : t) : result unit StreamError.t * t :=
  if is_some_and self.(close_deadline) (fun at_ => at_ <=? self.(now)) || IoClock.due self.(now) self.(io)
  then (Err StreamError.Timeout, fail StreamError.Timeout true self)
  else (Ok tt, self).

Definition stop_io_clock (self : t) : t := self <| io := IoClock.stop self.(now) self.(io) |>.

(** ** Application operations *)

Definition write (input : list byte) (self : t) : result Z StreamError.t * t :=
  try _ := live self at self in
  if self.(end_requested) then (Err StreamError.WriteClosed, self)
  else if is_empty input then (Ok 0, self)
  else if is_some self.(flush) then (Err StreamError.WouldBlock, self)
  else
    let count := Z.min (len input) (usize_sub self.(config).(Config.send_buffer) (len self.(send))) in
    if count =? 0 then (Err StreamError.WouldBlock, self)
    else if is_none (and_then (checked_add_i64 self.(sent) (as_i64 (len self.(send))))
                       (fun v => checked_add_i64 v (as_i64 count)))
    then (Err StreamError.Protocol, fail StreamError.Protocol true self)
    else
      let self :=
        if is_empty self.(send)
        then self <| batch_deadline := Some (saturating_add_u64 self.(now) self.(config).(Config.coalesce_delay_ms)) |>
        else self in
      let self := self <| send := self.(send) ++ firstn (Z.to_nat count) input |> in
      let self := self <| peak_send := Z.max self.(peak_send) (len self.(send)) |> in
      (Ok count, touch self).

(** [room] is the length of the output slice; the result is what was copied. *)
Definition read (room : Z) (self : t) : result (list byte) StreamError.t * t :=
  if room =? 0 then (Ok [], self)
  else
    let self := if negb (is_empty self.(send)) && negb self.(force_send)
                then touch (self <| force_send := true |>) else self in
    if negb (is_empty self.(recv)) then
      let count := Z.min room (len self.(recv)) in
      let out := firstn (Z.to_nat count) self.(recv) in
      let self := self <| recv := skipn (Z.to_nat count) self.(recv) |>
                       <| consumed := i64_add self.(consumed) (as_i64 count) |> in
      (Ok out, touch self)
    else
      match self.(error) with
      | Some error => (Err error, self)
      | None =>
          if self.(discarding) || is_some self.(completed) then (Err StreamError.Closed, self)
          else if self.(end_received) then (Ok [], self)
          else (Err StreamError.WouldBlock, self)
      end.

Definition start_flush (self : t) : result Z StreamError.t * t :=
  try _ := live self at self in
  match self.(flush) with
  | Some flush => (Ok flush.(PendingFlush.id), self)
  | None =>
      if self.(end_sent) then (Err StreamError.WriteClosed, self)
      else
        try serial := ok_or (checked_add_i64 self.(flush_serial) 1) StreamError.Protocol at self in
        let self := self <| flush_serial := serial |> in
        try offset := ok_or (checked_add_i64 self.(sent) (as_i64 (len self.(send)))) StreamError.Protocol at self in
        let self := self
          <| flush := Some (PendingFlush.mk self.(flush_serial) offset false) |>
          <| force_send := true |> in
        (Ok self.(flush_serial), touch self)
  end.

Definition flush_complete (ticket : Z) (self : t) : result bool StreamError.t :=
  match self.(error) with
  | Some error => Err error
  | None => Ok (ticket <=? self.(flush_acked))
  end.

Definition end_write (self : t) : result unit StreamError.t * t :=
  try _ := live self at self in
  if self.(end_requested) then (Ok tt, self)
  else (Ok tt, touch (self <| end_requested := true |> <| force_send := true |>)).

Definition start_close (self : t) : result unit StreamError.t * t :=
  if is_some self.(completed) then (Ok tt, self)
  else
    try _ := live self at self in
    if negb (bool_decide (self.(config).(Config.side) = Side.Initiator)) then (Err StreamError.WrongSide, self)
    else if is_some self.(close_deadline) then (Ok tt, self)
    else
      let self := stop_io_clock self in
      let self := self
        <| close_deadline := Some (saturating_add_u64 self.(now) self.(config).(Config.close_timeout_ms)) |>
        <| discarding := true |>
        <| discarded := self.(discarded) || negb (is_empty self.(recv)) |>
        <| consumed := i64_add self.(consumed) (as_i64 (len self.(recv))) |>
        <| recv := [] |> in
      call _, self := end_write self in
      (Ok tt, touch self).

Definition complete_close_with_failure (disposition : Disposition.t) (facts : Facts.t)
    (failure : option Failure.t) (self : t) : result unit StreamError.t * t :=
  try _ := live self at self in
  if negb (bool_decide (self.(config).(Config.side) = Side.Endpoint)) then (Err StreamError.WrongSide, self)
  else if negb self.(close_received) || negb self.(end_sent) || negb self.(end_received)
          || negb (is_empty self.(recv)) || is_some self.(peer_flush) || is_some self.(flush)
  then (Err StreamError.WouldBlock, self)
  else if is_some self.(close_pending) then (Ok tt, self)
  else
    let message := (envelope self MessageKind.Closed) <| Envelope.closed := Some {|
      Closed.disposition := disposition;
      Closed.facts := facts;
      Closed.unread_response_discarded := self.(discarded);
      Closed.failure := failure |} |> in
    try _ := map_err (fun _ => StreamError.Protocol)
               (Codec.admit_limited message self.(config).(Config.peer_limits)) at self in
    (Ok tt, touch (self <| close_pending := message.(Envelope.closed) |>)).

Definition complete_close (disposition : Disposition.t) (facts : Facts.t) (self : t)
    : result unit StreamError.t * t :=
  complete_close_with_failure disposition facts None self.

Definition complete_close_failure (disposition : Disposition.t) (facts : Facts.t) (code : ErrorCode.t)
    (effect : Effect.t) (self : t) : result unit StreamError.t * t :=
  complete_close_with_failure disposition facts (Some {|
    Failure.code := code; Failure.effect := effect; Failure.facts := None;
    Failure.setup_cause := None; Failure.detail := None |}) self.

Definition fail_terminal (failure : Failure.t) (self : t) : result unit StreamError.t * t :=
  try _ := live self at self in
  if negb (bool_decide (self.(config).(Config.side) = Side.Endpoint)) then (Err StreamError.WrongSide, self)
  else
    let message := (envelope self MessageKind.Failed) <| Envelope.failed := Some failure |> in
    try _ := map_err (fun _ => StreamError.Protocol)
               (Codec.admit_limited message self.(config).(Config.peer_limits)) at self in
    let self := self <| failure_facts := failure.(Failure.facts) |> in
    let self := fail (StreamError.PeerFailed failure.(Failure.code) failure.(Failure.effect)) false self in
    (Ok tt, self <| terminal_message := Some message |>).

Definition close_result (self : t) : result CloseResult.t StreamError.t :=
  match self.(error) with
  | Some error => Err error
  | None => ok_or self.(completed) StreamError.WouldBlock
  end.

Definition cancel (self : t) : t := fail StreamError.Cancelled true self.

Definition disconnect (self : t) : t :=
  let self := fail StreamError.CarrierLost false self in
  touch (self <| terminal_message := None |>).

(** ** Time *)

Definition set_io_state (state : IoState.t) (self : t) : result unit StreamError.t * t :=
  if negb (bool_decide (self.(config).(Config.side) = Side.Endpoint)) then (Err StreamError.WrongSide, self)
  else
    try _ := live self at self in
    if is_some self.(close_deadline) || self.(close_received) then (Err StreamError.WrongState, self)
    else
      call _, self := expire_io_if_due self in
      let before := IoClock.status self.(now) self.(io) in
      let self := self <| io := IoClock.set_state self.(now) state self.(io) |> in
      if bool_decide (before.(IoStatus.state) = state) then (Ok tt, self)
      else if IoClock.due self.(now) self.(io)
      then (Err StreamError.Timeout, fail StreamError.Timeout true self)
      else (Ok tt, self).

Definition record_io_progress (bytes : Z) (self : t) : result unit StreamError.t * t :=
  if negb (bool_decide (self.(config).(Config.side) = Side.Endpoint)) then (Err StreamError.WrongSide, self)
  else
    try _ := live self at self in
    if is_some self.(close_deadline) || self.(close_received) then (Err StreamError.WrongState, self)
    else
      call _, self := expire_io_if_due self in
      try io' := IoClock.progress self.(now) bytes self.(config).(Config.io_timeout_ms) self.(io) at self in
      (Ok tt, self <| io := io' |>).

Definition io_status (self : t) : IoStatus.t := IoClock.status self.(now) self.(io).

Definition advance (now_ms : Z) (self : t) : t :=
  if now_ms <? self.(now) then self
  else
    let was_due := is_some_and self.(batch_deadline) (fun at_ => at_ <=? self.(now)) in
    let self := self <| now := now_ms |> in
    if is_some self.(error) || is_some self.(completed) then self
    else if is_some_and self.(close_deadline) (fun at_ => at_ <=? self.(now)) || IoClock.due self.(now) self.(io)
    then fail StreamError.Timeout true self
    else if negb was_due && is_some_and self.(batch_deadline) (fun at_ => at_ <=? self.(now))
    then touch self
    else self.

Definition next_deadline (self : t) : option Z :=
  if is_some self.(error) || is_some self.(completed) then None
  else
    let batch := opt_filter self.(batch_deadline) (fun at_ => (self.(now) <? at_) && negb self.(force_send)) in
    opt_min (opt_min self.(io).(IoClock.deadline) batch) self.(close_deadline).

Definition stats (self : t) : Snapshot.t := {|
  Snapshot.send_buffer := len self.(send);
  Snapshot.received_buffer := len self.(recv);
  Snapshot.peak_send_buffer := self.(peak_send);
  Snapshot.peak_received_buffer := self.(peak_recv);
  Snapshot.sent := self.(sent);
  Snapshot.received := self.(received);
  Snapshot.consumed := self.(consumed);
  Snapshot.peer_limit := self.(peer_limit);
  Snapshot.advertised_limit := self.(advertised_limit);
  Snapshot.end_sent := self.(end_sent);
  Snapshot.end_received := self.(end_received);
  Snapshot.terminal := is_some self.(error) || is_some self.(completed);
|}.

(** ** Incoming messages *)

Definition accept_data (data : Data.t) (self : t) : result unit StreamError.t * t :=
  try end_ := ok_or (checked_add_i64 data.(Data.offset) (as_i64 (len data.(Data.payload)))) StreamError.Protocol
    at self in
  if self.(end_received) || negb (data.(Data.offset) =? self.(received)) || is_empty data.(Data.payload)
     || (self.(config).(Config.max_payload) <? len data.(Data.payload)) || (self.(advertised_limit) <? end_)
  then (Err StreamError.Protocol, self)
  else if self.(discarding) then
    (Ok tt, self <| consumed := end_ |> <| discarded := true |> <| received := end_ |>)
  else if self.(config).(Config.receive_window) <? usize_add (len self.(recv)) (len data.(Data.payload))
  then (Err StreamError.Protocol, self)
  else
    let self := self <| recv := self.(recv) ++ data.(Data.payload) |> in
    let self := self <| peak_recv := Z.max self.(peak_recv) (len self.(recv)) |> in
    (Ok tt, self <| received := end_ |>).

Definition accept_flush (barrier : Barrier.t) (self : t) : result unit StreamError.t * t :=
  if is_some self.(peer_flush) || (barrier.(Barrier.barrier_id) <=? self.(peer_flush_serial))
     || negb (barrier.(Barrier.offset) =? self.(received)) || self.(end_received)
  then (Err StreamError.Protocol, self)
  else (Ok tt, self <| peer_flush_serial := barrier.(Barrier.barrier_id) |> <| peer_flush := Some barrier |>).

Definition accept_flushed (barrier : Barrier.t) (self : t) : result unit StreamError.t * t :=
  match self.(flush) with
  | None => (Err StreamError.Protocol, self)
  | Some pending =>
      if negb pending.(PendingFlush.sent) || negb (pending.(PendingFlush.id) =? barrier.(Barrier.barrier_id))
         || negb (pending.(PendingFlush.offset) =? barrier.(Barrier.offset))
      then (Err StreamError.Protocol, self)
      else (Ok tt, self <| flush_acked := pending.(PendingFlush.id) |> <| flush := None |>)
  end.

Definition accept_close (close : option Close.t) (self : t) : result unit StreamError.t * t :=
  if negb (bool_decide (self.(config).(Config.side) = Side.Endpoint)) || negb self.(end_received)
  then (Err StreamError.Protocol, self)
  else
    try close := ok_or close StreamError.Protocol at self in
    if negb (close.(Close.final_offset) =? self.(received)) then (Err StreamError.Protocol, self)
    else if self.(close_received) then (Ok tt, self)
    else
      let self := stop_io_clock (self <| close_received := true |>) in
      (Ok tt, self <| close_deadline :=
        Some (saturating_add_u64 self.(now) self.(config).(Config.close_timeout_ms)) |>).

Definition accept_closed (closed : option Closed.t) (self : t) : result unit StreamError.t * t :=
  if negb (bool_decide (self.(config).(Config.side) = Side.Initiator)) || negb self.(close_sent)
     || negb self.(end_received)
  then (Err StreamError.Protocol, self)
  else
    try closed := ok_or closed StreamError.Protocol at self in
    match closed.(Closed.failure) with
    | Some failure =>
        let self := self <| failure_facts := Some closed.(Closed.facts) |> in
        let self := fail (StreamError.PeerFailed failure.(Failure.code) failure.(Failure.effect)) false self in
        (Ok tt, self <| retained_failure := Some failure |>)
    | None =>
        (Ok tt, self <| completed := Some {|
           CloseResult.disposition := closed.(Closed.disposition);
           CloseResult.unread_response_discarded :=
             self.(discarded) || closed.(Closed.unread_response_discarded);
           CloseResult.facts := closed.(Closed.facts) |} |>)
    end.

(** Every accepted message touches the revision, except a window that does not
    grow the credit, which returns before it. *)
Definition accept (message : Envelope.t) (self : t) : result unit StreamError.t * t :=
  if negb (bool_decide (message.(Envelope.session_id) = self.(config).(Config.session_id)))
     || negb (message.(Envelope.stream_id) =? self.(config).(Config.stream_id))
     || negb (message.(Envelope.version) =? self.(config).(Config.profile_version))
  then (Err StreamError.Protocol, self)
  else
    try _ := map_err (fun _ => StreamError.Protocol)
               (Codec.admit_limited message self.(config).(Config.receive_limits)) at self in
    let body {A} (o : option A) := ok_or o StreamError.Protocol in
    let finish (r : result unit StreamError.t * t) : result unit StreamError.t * t :=
      call _, self := r in (Ok tt, touch self) in
    match message.(Envelope.kind) with
    | MessageKind.Data =>
        try data := body message.(Envelope.data) at self in finish (accept_data data self)
    | MessageKind.Window =>
        try window := body message.(Envelope.window) at self in
        let limit := window.(Window.max_offset) in
        if limit <=? self.(peer_limit) then (Ok tt, self)
        else if saturating_add_i64 self.(sent) (as_i64 self.(config).(Config.peer_receive_window)) <? limit
        then (Err StreamError.Protocol, self)
        else finish (Ok tt, self <| peer_limit := limit |>)
    | MessageKind.Flush =>
        try barrier := body message.(Envelope.flush) at self in finish (accept_flush barrier self)
    | MessageKind.Flushed =>
        try barrier := body message.(Envelope.flushed) at self in finish (accept_flushed barrier self)
    | MessageKind.EndWrite =>
        try end_ := body message.(Envelope.end_write) at self in
        if negb (end_.(EndWrite.final_offset) =? self.(received)) then (Err StreamError.Protocol, self)
        else finish (Ok tt, self <| end_received := true |>)
    | MessageKind.Close => finish (accept_close message.(Envelope.close) self)
    | MessageKind.Closed => finish (accept_closed message.(Envelope.closed) self)
    | MessageKind.Cancel =>
        try cancel := body message.(Envelope.cancel) at self in
        finish (Ok tt, fail (if bool_decide (cancel.(Cancel.reason) = ErrorCode.Timeout)
                             then StreamError.Timeout else StreamError.Cancelled) false self)
    | MessageKind.Failed =>
        try failure := body message.(Envelope.failed) at self in
        let self := self <| failure_facts := failure.(Failure.facts) |> in
        let self := fail (StreamError.PeerFailed failure.(Failure.code) failure.(Failure.effect)) false self in
        finish (Ok tt, self <| retained_failure := Some failure |>)
    | _ => (Err StreamError.Protocol, self)
    end.

Definition receive (message : Envelope.t) (self : t) : result unit StreamError.t * t :=
  if is_some self.(error) || is_some self.(completed) then (Ok tt, self)
  else
    call _, self := expire_io_if_due self in
    match accept message self with
    | (Ok _, self) => (Ok tt, self)
    | (Err e, self) => (Err e, fail StreamError.Protocol true self)
    end.

(** ** Outgoing messages *)

Definition next_message (self : t) : option Envelope.t * t :=
  match self.(terminal_message) with
  | Some message => (Some message, touch (self <| terminal_message := None |>))
  | None =>
  if is_some self.(error) || is_some self.(completed) then (None, self)
  else
  let sink_offset :=
    if bool_decide (self.(config).(Config.side) = Side.Initiator) then self.(received) else self.(consumed) in
  if is_some_and self.(peer_flush) (fun barrier => barrier.(Barrier.offset) <=? sink_offset) then
    (Some ((envelope self MessageKind.Flushed) <| Envelope.flushed := self.(peer_flush) |>),
     touch (self <| peer_flush := None |>))
  else
  let limit := saturating_add_i64 self.(consumed) (as_i64 self.(config).(Config.receive_window)) in
  if self.(advertised_limit) <? limit then
    (Some ((envelope self MessageKind.Window) <| Envelope.window := Some (Window.mk limit) |>),
     touch (self <| advertised_limit := limit |>))
  else
  match self.(close_pending) with
  | Some closed =>
      (Some ((envelope self MessageKind.Closed) <| Envelope.closed := Some closed |>),
       touch (self <| close_pending := None |>
                   <| completed := Some {|
                        CloseResult.disposition := closed.(Closed.disposition);
                        CloseResult.unread_response_discarded := closed.(Closed.unread_response_discarded);
                        CloseResult.facts := closed.(Closed.facts) |} |>))
  | None =>
  match opt_filter self.(flush) (fun flush => negb flush.(PendingFlush.sent)
                                   && (self.(sent) =? flush.(PendingFlush.offset))) with
  | Some flush' =>
      (Some ((envelope self MessageKind.Flush) <| Envelope.flush :=
               Some (Barrier.mk flush'.(PendingFlush.id) flush'.(PendingFlush.offset)) |>),
       touch (self <| flush := Some (flush' <| PendingFlush.sent := true |>) |>))
  | None =>
  let eligible := self.(force_send)
    || (self.(config).(Config.max_payload) <=? len self.(send))
    || (len self.(send) =? self.(config).(Config.send_buffer))
    || is_some_and self.(batch_deadline) (fun at_ => at_ <=? self.(now)) in
  let credit := as_usize (i64_sub self.(peer_limit) self.(sent)) in
  if negb (is_empty self.(send)) && eligible && (0 <? credit) then
    let count := Z.min (Z.min (len self.(send)) self.(config).(Config.max_payload)) credit in
    let data := Data.mk self.(sent) (firstn (Z.to_nat count) self.(send)) in
    let self := self <| send := skipn (Z.to_nat count) self.(send) |>
                     <| sent := i64_add self.(sent) (as_i64 count) |> in
    let self := if is_empty self.(send)
                then self <| batch_deadline := None |> <| force_send := false |> else self in
    (Some ((envelope self MessageKind.Data) <| Envelope.data := Some data |>), touch self)
  else if self.(end_requested) && negb self.(end_sent) && is_empty self.(send) then
    (Some ((envelope self MessageKind.EndWrite) <| Envelope.end_write := Some (EndWrite.mk self.(sent)) |>),
     touch (self <| end_sent := true |>))
  else if bool_decide (self.(config).(Config.side) = Side.Initiator) && is_some self.(close_deadline)
          && self.(end_sent) && negb self.(close_sent) then
    (Some ((envelope self MessageKind.Close) <| Envelope.close := Some (Close.mk self.(sent)) |>),
     touch (self <| close_sent := true |>))
  else (None, self)
  end end end.
End machine.
End Stream.
