(* ===== verification/StreamFacts.v ===== *)
(** * The stream machine's invariant

    Queues, credit and offsets of one machine, kept by every operation, whatever
    the peer sends and however the host calls it. *)
From S2P Require Import Prelude Utf8 Cbor CborFacts Protocol ProtocolFacts Budget Admission Policy Validate Codec CodecFacts Binding BindingFacts IoClock Stream.
Import Stream.

(** ** Configurations *)

(** The unsigned fields are unsigned. *)
Definition unsigned (c : Config.t) : Prop :=
  0 <= c.(Config.send_buffer) /\ 0 <= c.(Config.receive_window) /\ 0 <= c.(Config.peer_receive_window)
  /\ 0 <= c.(Config.max_payload) /\ 0 <= c.(Config.coalesce_delay_ms) /\ 0 <= c.(Config.close_timeout_ms)
  /\ 0 <= c.(Config.io_timeout_ms) /\ 0 <= c.(Config.interaction_budget_ms).

(** What validation leaves of them. *)
Record sane (c : Config.t) : Prop := {
  sane_send : 1 <= c.(Config.send_buffer) <= 4194304;
  sane_window : 1 <= c.(Config.receive_window) <= 4194304;
  sane_peer : 1 <= c.(Config.peer_receive_window) <= 4194304;
  sane_payload : 1 <= c.(Config.max_payload) <= 65536;
  sane_io : 0 <= c.(Config.io_timeout_ms) /\ 0 <= c.(Config.interaction_budget_ms);
}.

Lemma validate_sane {L : Layout} c : unsigned c -> Config.validate c = Ok tt -> sane c.
Proof.
  intros Hu H. unfold unsigned in Hu. unfold Config.validate in H.
  destruct (each _ _) as [[]|] in H; [|done].
  destruct (refuse _ _) as [[]|] eqn:Hr in H; [|done]. apply refuse_Ok in Hr.
  rewrite !orb_false_iff, !Z.ltb_ge, !Z.eqb_neq in Hr. destruct_and?. constructor; lia.
Qed.

(** ** The invariant *)

Record inv (s : t) : Prop := {
  inv_config : sane s.(config);
  inv_send : len s.(send) <= s.(peak_send) <= s.(config).(Config.send_buffer);
  inv_recv : len s.(recv) <= s.(peak_recv) <= s.(config).(Config.receive_window);
  inv_sent : 0 <= s.(sent) <= s.(peer_limit);
  inv_credit : s.(peer_limit) <= I64_MAX;
  inv_total : s.(sent) + len s.(send) <= I64_MAX;
  inv_consumed : 0 <= s.(consumed);
  inv_received : s.(received) = s.(consumed) + len s.(recv);
  inv_advertised : s.(received) <= s.(advertised_limit);
  inv_window : s.(advertised_limit) <= Z.min (s.(consumed) + s.(config).(Config.receive_window)) I64_MAX;
  inv_discarding : s.(discarding) = true -> s.(recv) = [];
  inv_flush : forall f, s.(flush) = Some f ->
    f.(PendingFlush.offset) = s.(sent) + len s.(send) /\ f.(PendingFlush.id) = s.(flush_serial)
    /\ (f.(PendingFlush.sent) = true -> s.(send) = []);
  inv_serial : 0 <= s.(flush_acked) <= s.(flush_serial) /\ s.(flush_serial) <= I64_MAX;
  inv_pending_serial : s.(flush) <> None -> s.(flush_acked) < s.(flush_serial);
  inv_peer_flush : forall b, s.(peer_flush) = Some b ->
    b.(Barrier.offset) <= s.(received) /\ b.(Barrier.barrier_id) = s.(peer_flush_serial);
  inv_end_sent : s.(end_sent) = true -> s.(end_requested) = true /\ s.(send) = [];
  inv_close_sent : s.(close_sent) = true -> s.(end_sent) = true /\ s.(config).(Config.side) = Side.Initiator;
  inv_one_end : s.(error) = None \/ s.(completed) = None;
  inv_error : s.(error) <> None -> s.(send) = [] /\ s.(flush) = None /\ s.(peer_flush) = None
    /\ s.(close_pending) = None;
  inv_close_pending : s.(close_pending) <> None -> s.(close_received) = true /\ s.(end_received) = true;
  inv_close_received : s.(close_received) = true -> s.(end_received) = true;
  inv_terminal : s.(terminal_message) <> None -> s.(error) <> None;
  inv_terminal_kind : forall m, s.(terminal_message) = Some m ->
    m.(Envelope.kind) = MessageKind.Cancel \/ m.(Envelope.kind) = MessageKind.Failed;
  inv_io : IoClock.wf s.(io);
  inv_now : 0 <= s.(now);
}.

Lemma inv_touch s : inv s -> inv (touch s).
Proof. by intros []. Qed.

(** Rebuild the invariant of an updated machine field by field. *)
Ltac use_hyps :=
  repeat match goal with H : ?A -> _, H' : ?A |- _ => specialize (H H') end; destruct_and?.
Ltac inv_goal :=
  first [ assumption
        | match goal with
          | |- (_ <= _)%Z => lia | |- (_ <= _)%Z /\ _ => lia | |- @eq Z _ _ => lia
          | |- ?x <> ?x -> _ => intros H; by destruct H
          | |- None = Some _ -> _ => discriminate
          | |- forall x, None = Some x -> _ => discriminate
          end
        | solve [left; congruence | right; congruence]
        | solve [intros; use_hyps; split_and?; first [assumption | congruence | lia]]
        | solve [intros; simplify_eq/=; use_hyps; split_and?; first [assumption | congruence | lia | eauto 3]]
        | solve [let b := fresh in let Hb := fresh in intros b Hb;
                 match goal with H : forall b, peer_flush _ = Some b -> _ |- _ => specialize (H b Hb) end;
                 intuition lia] ].
Ltac inv_solve :=
  constructor; cbn -[Z.min Z.max Z.add IoClock.stop IoClock.set_state] in *; try inv_goal.

Lemma failure_message_kind s e :
  (failure_message s e).(Envelope.kind) = MessageKind.Cancel
  \/ (failure_message s e).(Envelope.kind) = MessageKind.Failed.
Proof. unfold failure_message. case_match; auto. Qed.

Lemma inv_fail e n s : inv s -> inv (fail e n s).
Proof.
  intros H. unfold fail. destruct (is_some (error s) || is_some (completed s)) eqn:Hl; [done|].
  apply orb_false_iff in Hl as [He Hc]. destruct (error s) eqn:Herr; [done|]. destruct (completed s) eqn:Hco; [done|].
  apply inv_touch. destruct H. destruct n; inv_solve; try (by apply IoClock.wf_stop).
  intros m Hm. injection Hm as <-. apply failure_message_kind.
Qed.

Lemma live_Ok s : live s = Ok tt -> s.(error) = None /\ s.(completed) = None.
Proof. unfold live. destruct (error s); [done|]. by destruct (completed s). Qed.

Lemma live_result s r : live s = Ok r -> live s = Ok tt.
Proof. by destruct r. Qed.

Ltac use_live :=
  match goal with |- context [live ?s] =>
    let E := fresh "Elive" in destruct (live s) as [[]|] eqn:E; [apply live_Ok in E as [Hlive_error Hlive_completed]|done] end.

Section ops.
Context {L : Layout}.

Lemma inv_new c s : unsigned c -> new c = Ok s -> inv s.
Proof.
  intros Hu H. unfold new in H. destruct (Config.validate c) as [[]|] eqn:Hv; [|done]. injection H as <-.
  pose proof (validate_sane c Hu Hv) as Hs. pose proof Hs as []. unfold unsigned in Hu.
  inv_solve; norm_int; try lia. apply IoClock.wf_new; lia.
Qed.

Lemma length_firstn_Z {A} (n : Z) (l : list A) : 0 <= n -> len (firstn (Z.to_nat n) l) = Z.min n (len l).
Proof. intros Hn. rewrite length_firstn. lia. Qed.
Lemma length_skipn_Z {A} (n : Z) (l : list A) : 0 <= n <= len l -> len (skipn (Z.to_nat n) l) = len l - n.
Proof. intros Hn. rewrite length_skipn. lia. Qed.
Lemma length_app_Z {A} (l k : list A) : len (l ++ k) = len l + len k.
Proof. rewrite length_app. lia. Qed.

Lemma inv_write input s : inv s -> inv (write input s).2.
Proof.
  intros H. unfold write. use_live.
  destruct (end_requested s) eqn:He; [done|]. destruct (is_empty input) eqn:Hi; [done|].
  destruct (is_some (flush s)) eqn:Hf; [done|]. destruct H.
  assert (Hc : usize_sub (Config.send_buffer (config s)) (len (send s)) = Config.send_buffer (config s) - len (send s))
    by (destruct inv_config0; norm_int; lia). rewrite Hc.
  set (count := Z.min _ _). destruct (count =? 0) eqn:Hz; [done|].
  destruct (is_none _) eqn:Ho; [by apply inv_fail|]. apply inv_touch.
  assert (Hr : sent s + len (send s) + count <= I64_MAX).
  { destruct inv_config0. unfold is_none, and_then in Ho. destruct (checked_add_i64 _ _) eqn:H1; [|done].
    apply checked_add_i64_Some in H1 as [-> _]. destruct (checked_add_i64 (_ + _) _) eqn:H2; [|done].
    apply checked_add_i64_Some in H2 as [_ H2]. unfold in_i64 in H2. revert H2.
    rewrite !as_i64_id by (unfold count; lia). lia. }
  assert (Hl : 0 <= count <= len input) by (unfold count; destruct inv_config0; lia).
  assert (Hb : count <= Config.send_buffer (config s) - len (send s)) by (unfold count; lia).
  clearbody count. destruct (flush s) eqn:Hfl; [done|].
  destruct (is_empty (send s)); inv_solve; rewrite length_app_Z, length_firstn_Z by lia; lia.
Qed.

Lemma inv_read room s : 0 <= room -> inv s -> inv (read room s).2.
Proof.
  intros Hroom H. unfold read. destruct (room =? 0) eqn:Hz; [done|].
  match goal with |- context [if ?b then touch ?x else s] => set (s1 := if b then touch x else s) end.
  assert (H1 : inv s1).
  { unfold s1. case_match; [|done]. apply inv_touch. destruct H. inv_solve. }
  clearbody s1. destruct (negb (is_empty (recv s1))) eqn:Hr; [|by repeat case_match].
  apply inv_touch. destruct H1. set (count := Z.min _ _).
  assert (Hc : 0 <= count <= len (recv s1)) by (unfold count; lia). clearbody count.
  pose proof (length_skipn_Z count (recv s1) Hc). pose proof inv_config0 as [].
  assert (consumed s1 + count <= I64_MAX) by lia.
  assert (i64_add (consumed s1) (as_i64 count) = consumed s1 + count) as Heq by (norm_int; lia).
  inv_solve; rewrite ?Heq; try lia. intros Hd. rewrite (inv_discarding0 Hd) in *. by rewrite skipn_nil.
Qed.

Lemma inv_start_flush s : inv s -> inv (start_flush s).2.
Proof.
  intros H. unfold start_flush. use_live. destruct (flush s) eqn:Hf; [done|].
  destruct (end_sent s) eqn:He; [done|]. unfold ok_or.
  destruct (checked_add_i64 (flush_serial s) 1) eqn:Hs; [|done]. apply checked_add_i64_Some in Hs as [-> Hs].
  unfold in_i64 in Hs. destruct H. pose proof inv_config0 as [].
  destruct (checked_add_i64 _ _) eqn:Ho; cbn in Ho.
  - apply checked_add_i64_Some in Ho as [-> _]. rewrite as_i64_id by lia. apply inv_touch. inv_solve.
  - inv_solve.
Qed.

Lemma inv_end_write s : inv s -> inv (end_write s).2.
Proof.
  intros H. unfold end_write. use_live. destruct (end_requested s) eqn:He; [done|].
  apply inv_touch. destruct H. inv_solve.
Qed.

Lemma inv_start_close s : inv s -> inv (start_close s).2.
Proof.
  intros H. unfold start_close. destruct (is_some (completed s)); [done|]. use_live.
  destruct (negb _); [done|]. destruct (is_some (close_deadline s)); [done|].
  match goal with |- context [end_write ?s0] => set (s1 := s0); assert (H1 : inv s1) end.
  { unfold s1. destruct H. pose proof inv_config0 as []. inv_solve; norm_int; try lia. by apply IoClock.wf_stop. }
  apply inv_end_write in H1. destruct (end_write s1) as [[]]; [by apply inv_touch|done].
Qed.

Lemma inv_complete_close d f o s : inv s -> inv (complete_close_with_failure d f o s).2.
Proof.
  intros H. unfold complete_close_with_failure. use_live. destruct (negb _); [done|].
  destruct (negb (close_received s) || _ || _ || _ || _ || _) eqn:Hg; [done|].
  destruct (is_some (close_pending s)); [done|]. destruct (map_err _ _); [|done].
  apply inv_touch. destruct H. rewrite !orb_false_iff, !negb_false_iff in Hg. destruct_and?. inv_solve.
Qed.

Lemma inv_fail_terminal f s : inv s -> inv (fail_terminal f s).2.
Proof.
  intros H. unfold fail_terminal. use_live. destruct (negb _); [done|]. destruct (map_err _ _); [|done].
  assert (H1 : inv (s <| failure_facts := Failure.facts f |>)) by (destruct H; inv_solve).
  apply (inv_fail (StreamError.PeerFailed (Failure.code f) (Failure.effect f)) false) in H1.
  unfold fail in *. cbn -[touch] in *. rewrite Hlive_error, Hlive_completed in *. cbn in *. destruct H1. inv_solve.
Qed.

Lemma inv_disconnect s : inv s -> inv (disconnect s).
Proof.
  intros H. unfold disconnect. apply inv_touch. apply (inv_fail StreamError.CarrierLost false) in H.
  destruct H. inv_solve.
Qed.

Lemma inv_expire s : inv s -> inv (expire_io_if_due s).2.
Proof. intros H. unfold expire_io_if_due. case_match; [by apply inv_fail|done]. Qed.

Lemma inv_set_io_state st s : inv s -> inv (set_io_state st s).2.
Proof.
  intros H. unfold set_io_state. destruct (negb _); [done|]. use_live. destruct (_ || _); [done|].
  apply inv_expire in H. destruct (expire_io_if_due s) as [[] s1]; [|done]. cbn [snd] in H.
  assert (H1 : inv (s1 <| io := IoClock.set_state (now s1) st (io s1) |>)).
  { destruct H. inv_solve. by apply IoClock.wf_set_state. }
  repeat case_match; try done. by apply inv_fail.
Qed.

Lemma inv_record_io_progress n s : inv s -> inv (record_io_progress n s).2.
Proof.
  intros H. unfold record_io_progress. destruct (negb _); [done|]. use_live. destruct (_ || _); [done|].
  apply inv_expire in H. destruct (expire_io_if_due s) as [[] s1]; [|done]. cbn [snd] in H.
  destruct (IoClock.progress _ _ _ _) as [io'|] eqn:Hp; [|done]. destruct H.
  apply IoClock.wf_progress in Hp; [inv_solve|done|apply inv_config0|done].
Qed.

Lemma inv_advance n s : inv s -> inv (advance n s).
Proof.
  intros H. unfold advance. destruct (n <? now s) eqn:Hn; [done|].
  assert (H1 : inv (s <| now := n |>)) by (destruct H; inv_solve).
  repeat case_match; try done; [by apply inv_fail | by apply inv_touch].
Qed.

(** ** Incoming and outgoing messages *)

Lemma inv_accept_data d s : inv s -> s.(error) = None -> inv (accept_data d s).2.
Proof.
  intros H He. unfold accept_data, ok_or. destruct (checked_add_i64 _ _) eqn:Hc; [|done].
  apply checked_add_i64_Some in Hc as [-> Hc]. unfold in_i64 in Hc. destruct (_ || _) eqn:Hg; [done|].
  rewrite !orb_false_iff, negb_false_iff, Z.eqb_eq, !Z.ltb_ge in Hg. destruct_and?.
  pose proof H as []. pose proof inv_config0 as []. rewrite as_i64_id in * by lia.
  destruct (discarding s) eqn:Hd.
  - inv_solve; rewrite (inv_discarding0 eq_refl) in *; cbn in *; try lia.
  - destruct (_ <? _) eqn:Hw; [done|]. unfold usize_add in Hw. rewrite as_usize_id in Hw by lia.
    inv_solve; rewrite length_app_Z; lia.
Qed.

Lemma inv_finish (r : result unit StreamError.t * t) :
  inv r.2 -> inv (call _, self := r in ((Ok tt : result unit StreamError.t), touch self)).2.
Proof. destruct r as [[[]|] s]; cbn; [apply inv_touch|done]. Qed.

Lemma inv_accept m s : inv s -> s.(error) = None -> s.(completed) = None -> inv (accept m s).2.
Proof.
  intros H He Hc. unfold accept. destruct (_ || _); [done|].
  destruct (map_err _ _); [|done]. destruct (Envelope.kind m); try done; unfold ok_or.
  - destruct (Envelope.data m) as [d|] eqn:Hd; [|done]. by apply inv_finish, inv_accept_data.
  - destruct (Envelope.window m) as [w|]; [|done]. destruct (_ <=? _) eqn:H1; [done|].
    destruct (_ <? _) eqn:H2; [done|]. apply inv_touch. unfold saturating_add_i64 in H2. destruct H. inv_solve.
  - destruct (Envelope.flush m) as [b|]; [|done]. apply inv_finish. unfold accept_flush.
    destruct (_ || _) eqn:Hg; [done|].
    rewrite !orb_false_iff, negb_false_iff, Z.eqb_eq in Hg. destruct_and?. destruct H. inv_solve.
  - destruct (Envelope.flushed m) as [b|]; [|done]. apply inv_finish. unfold accept_flushed.
    destruct (flush s) as [f|] eqn:Hf; [|done]. destruct (_ || _) eqn:Hg; [done|]. destruct H.
    destruct (inv_flush0 f Hf) as (_ & Hid & _). inv_solve.
  - destruct (Envelope.end_write m) as [w|]; [|done]. destruct (negb _); [done|]. apply inv_touch.
    destruct H. inv_solve.
  - apply inv_finish. unfold accept_close. destruct (_ || _) eqn:Hg; [done|].
    destruct (Envelope.close m) as [c|]; [|done]. cbn [ok_or]. destruct (negb (_ =? _)); [exact H|].
    destruct (close_received s) eqn:Hcr; [exact H|]. rewrite orb_false_iff, !negb_false_iff in Hg. destruct_and?. 
    destruct H. inv_solve. by apply IoClock.wf_stop.
  - apply inv_finish. unfold accept_closed. destruct (_ || _) eqn:Hg; [done|].
    destruct (Envelope.closed m) as [c|]; [|done]. cbn. destruct (Closed.failure c) as [f|].
    + assert (H1 : inv (s <| failure_facts := Some (Closed.facts c) |>)) by (destruct H; inv_solve).
      eapply inv_fail in H1. destruct H1. cbn [snd]. inv_solve.
    + destruct H. inv_solve.
  - destruct (Envelope.cancel m) as [c|]; [|done]. by apply inv_touch, inv_fail.
  - destruct (Envelope.failed m) as [f|]; [|done]. apply inv_touch.
    assert (H1 : inv (s <| failure_facts := Failure.facts f |>)) by (destruct H; inv_solve).
    eapply inv_fail in H1. destruct H1. inv_solve.
Qed.

Lemma expire_live s s1 : s.(error) = None -> s.(completed) = None -> expire_io_if_due s = (Ok tt, s1) -> s1 = s.
Proof. unfold expire_io_if_due. intros _ _ H. case_match; by simplify_eq. Qed.

Lemma terminal_false s : is_some s.(error) || is_some s.(completed) = false ->
  s.(error) = None /\ s.(completed) = None.
Proof. destruct (error s), (completed s); done. Qed.

Lemma inv_receive m s : inv s -> inv (receive m s).2.
Proof.
  intros H. unfold receive. destruct (_ || _) eqn:Ht; [done|]. apply terminal_false in Ht as [He Hc].
  pose proof (inv_expire s H) as H1. destruct (expire_io_if_due s) as [[[]|] s1] eqn:Hx; [|done].
  apply expire_live in Hx as ->; [|done|done]. pose proof (inv_accept m s H He Hc) as H2.
  destruct (accept m s) as [[[]|e] s2]; [done | by apply inv_fail].
Qed.

Lemma credit_eq s : inv s -> as_usize (i64_sub s.(peer_limit) s.(sent)) = s.(peer_limit) - s.(sent).
Proof. intros []. norm_int; lia. Qed.

Lemma inv_send_data s count : inv s -> s.(error) = None ->
  1 <= count -> count <= len s.(send) -> count <= s.(peer_limit) - s.(sent) ->
  inv (s <| send := skipn (Z.to_nat count) s.(send) |> <| sent := i64_add s.(sent) (as_i64 count) |>).
Proof.
  intros H He H1 H2 H3. pose proof (length_skipn_Z count s.(send) ltac:(lia)) as Hl. destruct H.
  assert (i64_add (sent s) (as_i64 count) = sent s + count) as Heq by (norm_int; lia).
  inv_solve; rewrite ?Heq, ?Hl; try lia.
  - intros f Hf. destruct (inv_flush0 f Hf) as (Ho & Hi & Hs). split_and!; [lia|done|].
    intros Hf'. rewrite (Hs Hf') in *. cbn in *. lia.
  - intros Hes. destruct (inv_end_sent0 Hes) as [_ Hs]. rewrite Hs in *. cbn in *. lia.
Qed.

Lemma inv_next_message s : inv s -> inv (next_message s).2.
Proof.
  intros H. unfold next_message. pose proof H as []. destruct (terminal_message s) eqn:Ht.
  { apply inv_touch. inv_solve. }
  destruct (_ || _) eqn:Hl; [done|]. apply terminal_false in Hl as [He Hc].
  destruct (is_some_and (peer_flush s) _); [apply inv_touch; inv_solve|].
  destruct (_ <? _) eqn:Hw.
  { apply inv_touch. apply Z.ltb_lt in Hw. unfold saturating_add_i64 in *. pose proof inv_config0 as [].
    rewrite as_i64_id in * by lia. inv_solve. }
  destruct (close_pending s) as [c|] eqn:Hcp; [apply inv_touch; inv_solve|].
  destruct (opt_filter _ _) as [f|] eqn:Hf.
  { apply inv_touch. unfold opt_filter in Hf. destruct (flush s) as [f'|] eqn:Hfl; [|done].
    destruct (_ && _) eqn:Hg in Hf; [|done]. injection Hf as ->. apply andb_true_iff in Hg as [Hg1 Hg2].
    destruct (inv_flush0 f eq_refl) as (Ho & Hi & Hs). assert (send s = []) as Hnil.
    { destruct (send s); [done|]. cbn in *. lia. }
    inv_solve. }
  rewrite credit_eq by done. destruct (_ && (0 <? _)) eqn:Hd.
  - apply inv_touch. apply andb_true_iff in Hd as [Hd Hcr]. apply andb_true_iff in Hd as [Hne _].
    pose proof inv_config0 as []. set (count := Z.min _ _).
    assert (1 <= len (send s)) by (destruct (send s); [done | cbn; lia]).
    assert (H1 : inv (s <| send := skipn (Z.to_nat count) (send s) |> <| sent := i64_add (sent s) (as_i64 count) |>))
      by (apply inv_send_data; unfold count; done || lia).
    case_match; [|done]. clear - H1. destruct H1. inv_solve.
  - destruct (_ && is_empty (send s)) eqn:Hew.
    + apply inv_touch. apply andb_true_iff in Hew as [Hew Hs]. apply andb_true_iff in Hew as [Her _].
      assert (send s = []) by (by destruct (send s)). inv_solve.
    + destruct (_ && negb (close_sent s)) eqn:Hcl; [|done]. apply inv_touch.
      rewrite !andb_true_iff, bool_decide_eq_true in Hcl. inv_solve.
Qed.
End ops.

(** ** Runs of a machine *)

(** Everything a host can do to a machine. *)
Inductive op :=
| Write (input : list byte)
| Read (room : N)
| StartFlush
| EndWrite
| StartClose
| CompleteClose (disposition : Disposition.t) (facts : Facts.t)
| CompleteCloseFailure (disposition : Disposition.t) (facts : Facts.t) (code : ErrorCode.t) (effect : Effect.t)
| FailTerminal (failure : Failure.t)
| Cancel
| Disconnect
| SetIoState (state : IoState.t)
| RecordIoProgress (bytes : N)
| Advance (now_ms : N)
| NextMessage
| Receive (message : Envelope.t).

Section runs.
Context {L : Layout}.

Definition step (o : op) (s : t) : t :=
  match o with
  | Write input => (write input s).2
  | Read room => (read (Z.of_N room) s).2
  | StartFlush => (start_flush s).2
  | EndWrite => (end_write s).2
  | StartClose => (start_close s).2
  | CompleteClose d f => (complete_close d f s).2
  | CompleteCloseFailure d f c e => (complete_close_failure d f c e s).2
  | FailTerminal f => (fail_terminal f s).2
  | Cancel => cancel s
  | Disconnect => disconnect s
  | SetIoState st => (set_io_state st s).2
  | RecordIoProgress n => (record_io_progress (Z.of_N n) s).2
  | Advance n => advance (Z.of_N n) s
  | NextMessage => (next_message s).2
  | Receive m => (receive m s).2
  end.

Definition run (ops : list op) (s : t) : t := fold_left (fun s o => step o s) ops s.

Lemma inv_step o s : inv s -> inv (step o s).
Proof.
  intros H. destruct o; cbn [step].
  - by apply inv_write.
  - apply inv_read; [lia|done].
  - by apply inv_start_flush.
  - by apply inv_end_write.
  - by apply inv_start_close.
  - by apply inv_complete_close.
  - by apply inv_complete_close.
  - by apply inv_fail_terminal.
  - by apply inv_fail.
  - by apply inv_disconnect.
  - by apply inv_set_io_state.
  - by apply inv_record_io_progress.
  - by apply inv_advance.
  - by apply inv_next_message.
  - by apply inv_receive.
Qed.

Lemma inv_run ops s : inv s -> inv (run ops s).
Proof. revert s. induction ops as [|o ops IH]; intros s H; [done|]. apply IH. by apply inv_step. Qed.

(** ** Terminal outcomes *)

(** [s'] keeps the terminal outcome of [s], if it has one. *)
Definition keeps_end (s s' : t) : Prop :=
  (forall e, s.(error) = Some e -> s'.(error) = Some e)
  /\ (forall r, s.(completed) = Some r -> s'.(completed) = Some r /\ s'.(error) = s.(error)).

Lemma keeps_end_refl s : keeps_end s s.
Proof. by split. Qed.

Lemma keeps_end_live s s' : s.(error) = None -> s.(completed) = None -> keeps_end s s'.
Proof. intros He Hc. split; [by rewrite He | by rewrite Hc]. Qed.

Lemma fail_terminated e n s : is_some s.(error) || is_some s.(completed) = true -> fail e n s = s.
Proof. unfold fail. by intros ->. Qed.

Lemma keeps_end_step o s : keeps_end s (step o s).
Proof.
  destruct (is_some (error s) || is_some (completed s)) eqn:Ht.
  2:{ apply terminal_false in Ht as [??]. by apply keeps_end_live. }
  assert (Hl : exists e, live s = Err e).
  { unfold live. destruct (error s); [eauto|]. destruct (completed s); [eauto|done]. }
  destruct Hl as [e Hl]. destruct o; cbn [step].
  - unfold write. rewrite Hl. by split.
  - unfold read. destruct (_ =? 0); [by split|]. destruct (negb (is_empty (send s)) && _);
      (destruct (negb _); [by split|]); repeat case_match; by split.
  - unfold start_flush. rewrite Hl. by split.
  - unfold end_write. rewrite Hl. by split.
  - unfold start_close. rewrite Hl. case_match; by split.
  - unfold complete_close, complete_close_with_failure. rewrite Hl. by split.
  - unfold complete_close_failure, complete_close_with_failure. rewrite Hl. by split.
  - unfold fail_terminal. rewrite Hl. by split.
  - unfold cancel. rewrite fail_terminated by done. by split.
  - unfold disconnect. rewrite fail_terminated by done. by split.
  - unfold set_io_state. rewrite Hl. case_match; by split.
  - unfold record_io_progress. rewrite Hl. case_match; by split.
  - unfold advance. case_match; [by split|]. cbn. rewrite Ht. by split.
  - unfold next_message. rewrite Ht. case_match; by split.
  - unfold receive. rewrite Ht. by split.
Qed.

Lemma keeps_end_trans s s1 s2 : keeps_end s s1 -> keeps_end s1 s2 -> keeps_end s s2.
Proof.
  intros [He1 Hc1] [He2 Hc2]. split; [auto|]. intros r Hr. destruct (Hc1 r Hr) as [Hr1 He].
  destruct (Hc2 r Hr1) as [Hr2 He']. split; [done|congruence].
Qed.

Lemma keeps_end_run ops s : keeps_end s (run ops s).
Proof.
  revert s. induction ops as [|o ops IH]; intros s; [apply keeps_end_refl|].
  eapply keeps_end_trans; [apply (keeps_end_step o) | apply IH].
Qed.
End runs.

Section theorems.
Context {L : Layout}.

(** A stream machine stays inside its bounds.  After any sequence of calls and messages, however
    hostile the peer: both queues and their recorded peaks are within the configured buffers, what was
    sent is within the credit the peer granted, the credit granted to the peer is what the receive
    buffer can take, every received byte is either consumed or still queued, and no offset passes
    [i64::MAX]. *)
Theorem stream_bounds c s0 ops : unsigned c -> new c = Ok s0 -> let s := run ops s0 in
  len s.(send) <= s.(peak_send) <= s.(config).(Config.send_buffer)
  /\ len s.(recv) <= s.(peak_recv) <= s.(config).(Config.receive_window)
  /\ 0 <= s.(sent) <= s.(peer_limit) /\ s.(sent) + len s.(send) <= I64_MAX
  /\ s.(received) = s.(consumed) + len s.(recv)
  /\ s.(received) <= s.(advertised_limit) <= s.(consumed) + s.(config).(Config.receive_window)
  /\ s.(advertised_limit) <= I64_MAX.
Proof.
  intros Hu H s. pose proof (inv_run ops s0 (inv_new c s0 Hu H)) as Hi. fold s in Hi. clearbody s.
  destruct Hi. split_and!; lia.
Qed.

(** The first terminal outcome wins.  Once a machine has failed or completed its close, no later
    call, timer or message changes that outcome, and a completed close never turns into an error. *)
Theorem first_outcome_wins ops s :
  (forall e, s.(error) = Some e -> (run ops s).(error) = Some e)
  /\ (forall r, s.(completed) = Some r -> s.(error) = None ->
        (run ops s).(completed) = Some r /\ (run ops s).(error) = None).
Proof.
  destruct (keeps_end_run ops s) as [He Hc]. split; [done|].
  intros r Hr Hn. destruct (Hc r Hr) as [H1 H2]. split; congruence.
Qed.

(** flush tickets are sound: a flush is reported complete only for a ticket at or before the last
    acknowledged one, never for the flush still pending. *)
Theorem pending_flush_incomplete c s0 ops f : unsigned c -> new c = Ok s0 ->
  (run ops s0).(flush) = Some f -> flush_complete f.(PendingFlush.id) (run ops s0) <> Ok true.
Proof.
  intros Hu H Hf. pose proof (inv_run ops s0 (inv_new c s0 Hu H)) as Hi. set (s := run ops s0) in *. clearbody s.
  destruct (inv_flush s Hi f Hf) as (_ & Hid & _). pose proof (inv_pending_serial s Hi ltac:(congruence)) as Hlt.
  unfold flush_complete. rewrite Hid. destruct (error s); [done|]. intros [= Hle]. lia.
Qed.
End theorems.

(** A fresh machine to evaluate the theorems on. *)
Definition plain_config : Config.t := Config.new "session"%string 9 Side.Initiator.

Definition plain_machine : t :=
  match new (L := layout64) plain_config with
  | Ok s => s
  | Err _ => mk plain_config [] [] 0 (IoClock.new 0 0) None false 0 0 0 0 0 false false false None 0 0 None 0
      None false false false false None None None None None None 0 0 0
  end.

Lemma plain_unsigned : unsigned plain_config.
Proof. unfold unsigned. cbn. lia. Qed.

Lemma plain_new : new (L := layout64) plain_config = Ok plain_machine.
Proof. vm_compute. reflexivity. Qed.

Lemma stream_bounds_witness :
  let s := run (L := layout64) [Write [x61; x62]; EndWrite; NextMessage] plain_machine in
  0 <= s.(sent) <= s.(peer_limit) /\ s.(sent) = 2.
Proof.
  split; [|vm_compute; reflexivity].
  exact (proj1 (proj2 (proj2 (stream_bounds (L := layout64) plain_config plain_machine
    [Write [x61; x62]; EndWrite; NextMessage] plain_unsigned plain_new)))).
Defined.

Lemma pending_flush_incomplete_witness :
  flush_complete 1 (run (L := layout64) [Write [x61; x62]; StartFlush] plain_machine) <> Ok true.
Proof.
  apply (pending_flush_incomplete (L := layout64) plain_config plain_machine [Write [x61; x62]; StartFlush]
    (PendingFlush.mk 1 2 false) plain_unsigned plain_new).
  vm_compute. reflexivity.
Defined.
