(* ===== verification/Duplex.v ===== *)
(** * Two stream machines joined by ordered delivery

    The composition the host builds (src/src/stream/asynchronous.rs drives each
    half of it): two machines, a queue of messages in each direction, and an
    arbitrary interleaving of application calls, timers, message pumping and
    delivery.  What a side reads is always a prefix of what the other wrote, and
    a clean end of stream is only ever seen after all of it. *)
From S2P Require Import Prelude Utf8 Cbor CborFacts Protocol ProtocolFacts Budget Admission Policy Validate Codec CodecFacts Binding BindingFacts IoClock Stream StreamFacts.
Import Stream.

(** The bytes a message carries into the stream. *)
Definition payload (m : Envelope.t) : list byte :=
  match m.(Envelope.kind), m.(Envelope.data) with
  | MessageKind.Data, Some d => d.(Data.payload)
  | _, _ => []
  end.
Definition payloads (q : list Envelope.t) : list byte := concat (map payload q).

Section duplex.
Context {L : Layout}.

(** What an operation moved between the application and the machine. *)
Definition wrote (o : op) (s : t) : list byte :=
  match o with
  | Write input => match (write input s).1 with Ok count => firstn (Z.to_nat count) input | Err _ => [] end
  | _ => []
  end.
Definition got (o : op) (s : t) : list byte :=
  match o with
  | Read room => match (read (Z.of_N room) s).1 with Ok out => out | Err _ => [] end
  | _ => []
  end.

(** Application calls and timers: everything but the two message operations. *)
Definition local (o : op) : bool :=
  match o with NextMessage | Receive _ => false | _ => true end.

Record sys := mk_sys {
  a : t;  b : t;                                  (* the two machines *)
  ab : list Envelope.t;  ba : list Envelope.t;    (* in flight, oldest first *)
  wa : list byte;  wb : list byte;                (* accepted from each application *)
  ra : list byte;  rb : list byte;                (* handed to each application *)
}.

Inductive action :=
| DoA (o : op) | DoB (o : op)
| PumpA | PumpB
| DeliverA | DeliverB.

Definition act (x : action) (y : sys) : sys :=
  match x with
  | DoA o => if local o then mk_sys (step o y.(a)) y.(b) y.(ab) y.(ba)
      (y.(wa) ++ wrote o y.(a)) y.(wb) (y.(ra) ++ got o y.(a)) y.(rb) else y
  | DoB o => if local o then mk_sys y.(a) (step o y.(b)) y.(ab) y.(ba)
      y.(wa) (y.(wb) ++ wrote o y.(b)) y.(ra) (y.(rb) ++ got o y.(b)) else y
  | PumpA => let '(m, s) := next_message y.(a) in
      mk_sys s y.(b) (y.(ab) ++ option_list m) y.(ba) y.(wa) y.(wb) y.(ra) y.(rb)
  | PumpB => let '(m, s) := next_message y.(b) in
      mk_sys y.(a) s y.(ab) (y.(ba) ++ option_list m) y.(wa) y.(wb) y.(ra) y.(rb)
  | DeliverA => match y.(ba) with
      | [] => y
      | m :: q => mk_sys (receive m y.(a)).2 y.(b) y.(ab) q y.(wa) y.(wb) y.(ra) y.(rb)
      end
  | DeliverB => match y.(ab) with
      | [] => y
      | m :: q => mk_sys y.(a) (receive m y.(b)).2 q y.(ba) y.(wa) y.(wb) y.(ra) y.(rb)
      end
  end.

Definition acts (xs : list action) (y : sys) : sys := fold_left (fun y x => act x y) xs y.

Definition start (sa sb : t) : sys := mk_sys sa sb [] [] [] [] [] [].

(** ** Effects of one machine's steps *)

Lemma fail_same e n s : let s' := fail e n s in
  s'.(recv) = s.(recv) /\ s'.(received) = s.(received) /\ s'.(sent) = s.(sent)
  /\ s'.(end_sent) = s.(end_sent) /\ s'.(end_received) = s.(end_received)
  /\ s'.(discarding) = s.(discarding)
  /\ (s'.(error) = None -> s' = s).
Proof. unfold fail. destruct (_ || _); [done|]. by destruct n. Qed.

(** [s'] is [s] as far as the byte stream goes, unless it failed. *)
Record quiet (s s' : t) : Prop := {
  quiet_recv : s'.(recv) = s.(recv);
  quiet_received : s'.(received) = s.(received);
  quiet_sent : s'.(sent) = s.(sent);
  quiet_end_sent : s'.(end_sent) = s.(end_sent);
  quiet_discarding : s'.(discarding) = s.(discarding);
  quiet_end_received : s'.(end_received) = s.(end_received);
  quiet_send : s'.(error) = None -> s'.(send) = s.(send);
}.

Lemma quiet_refl s : quiet s s.
Proof. by constructor. Qed.

Lemma quiet_fail e n s s0 : quiet s0 s -> quiet s0 (fail e n s).
Proof.
  intros []. destruct (fail_same e n s) as (H1 & H2 & H3 & H4 & H5 & H6 & H7).
  constructor; try congruence. intros He. pose proof (H7 He) as Heq. rewrite Heq in He |- *. auto.
Qed.

Lemma quiet_expire s : quiet s (expire_io_if_due s).2.
Proof. unfold expire_io_if_due. case_match; [apply quiet_fail|]; apply quiet_refl. Qed.

Definition moves (o : op) : bool :=
  match o with Write _ | Read _ | StartClose | NextMessage | Receive _ => true | _ => false end.

Lemma quiet_step o s : moves o = false -> quiet s (step o s).
Proof.
  destruct o; intros Hm; try done; cbn [step].
  - unfold start_flush. repeat case_match; by constructor.
  - unfold end_write. repeat case_match; by constructor.
  - unfold complete_close, complete_close_with_failure. repeat case_match; by constructor.
  - unfold complete_close_failure, complete_close_with_failure. repeat case_match; by constructor.
  - unfold fail_terminal. destruct (live s); [|by constructor]. destruct (negb _); [by constructor|].
    destruct (map_err _ _); [|by constructor].
    pose proof (quiet_fail (StreamError.PeerFailed (Failure.code failure) (Failure.effect failure)) false
      (s <| failure_facts := Failure.facts failure |>) s ltac:(by constructor)) as []. by constructor.
  - apply quiet_fail, quiet_refl.
  - unfold disconnect. pose proof (quiet_fail StreamError.CarrierLost false s s (quiet_refl s)) as []. by constructor.
  - unfold set_io_state. destruct (negb _); [by constructor|]. destruct (live s); [|by constructor].
    destruct (_ || _); [by constructor|]. pose proof (quiet_expire s) as He.
    destruct (expire_io_if_due s) as [[] s1]; [|done]. cbn [snd] in He.
    assert (quiet s (s1 <| io := IoClock.set_state (now s1) state (io s1) |>)) by (destruct He; by constructor).
    repeat case_match; try done. by apply quiet_fail.
  - unfold record_io_progress. destruct (negb _); [by constructor|]. destruct (live s); [|by constructor].
    destruct (_ || _); [by constructor|]. pose proof (quiet_expire s) as He.
    destruct (expire_io_if_due s) as [[] s1]; [|done]. cbn [snd] in He.
    case_match; [|done]. destruct He. by constructor.
  - unfold advance. repeat case_match; try by constructor. apply quiet_fail. by constructor.
Qed.

Lemma write_effect input s : inv s -> let s' := (write input s).2 in
  s'.(recv) = s.(recv) /\ s'.(received) = s.(received) /\ s'.(sent) = s.(sent)
  /\ s'.(end_sent) = s.(end_sent) /\ s'.(end_received) = s.(end_received) /\ s'.(discarding) = s.(discarding)
  /\ (s'.(error) = None -> s'.(send) = s.(send) ++ wrote (Write input) s)
  /\ (s.(end_sent) = true -> wrote (Write input) s = []).
Proof.
  intros H s'. subst s'. unfold wrote, write.
  destruct (live s); [|by rewrite app_nil_r]. destruct (end_requested s) eqn:He; [by rewrite app_nil_r|].
  assert (Hes : end_sent s = true -> False).
  { intros Hes. destruct (inv_end_sent s H Hes) as [? _]. congruence. }
  destruct (is_empty input); [by rewrite app_nil_r|].
  destruct (is_some (flush s)); [by rewrite app_nil_r|]. destruct (_ =? 0); [by rewrite app_nil_r|].
  destruct (is_none _).
  - destruct (fail_same StreamError.Protocol true s) as (H1 & H2 & H3 & H4 & H5 & H6 & H7). cbn [fst snd].
    split_and!; try done. intros Herr. rewrite (H7 Herr). by rewrite app_nil_r.
  - cbn [fst snd]. destruct (is_empty (send s)); split_and!; try done; by intros ?%Hes.
Qed.

Lemma read_effect room s : inv s -> 0 <= room ->
  let s' := (read room s).2 in let out := match (read room s).1 with Ok o => o | Err _ => [] end in
  s.(recv) = out ++ s'.(recv) /\ s'.(received) = s.(received) /\ s'.(sent) = s.(sent)
  /\ s'.(end_sent) = s.(end_sent) /\ s'.(end_received) = s.(end_received) /\ s'.(discarding) = s.(discarding)
  /\ s'.(send) = s.(send) /\ s'.(error) = s.(error) /\ s'.(completed) = s.(completed).
Proof.
  intros H Hr. unfold read. destruct (room =? 0); [done|].
  match goal with |- context [if ?b then touch ?x else s] => set (s1 := if b then touch x else s) end.
  assert (Hs : s1.(recv) = s.(recv) /\ s1.(received) = s.(received) /\ s1.(sent) = s.(sent)
    /\ s1.(end_sent) = s.(end_sent) /\ s1.(end_received) = s.(end_received) /\ s1.(discarding) = s.(discarding)
    /\ s1.(send) = s.(send) /\ s1.(error) = s.(error) /\ s1.(completed) = s.(completed))
    by (unfold s1; by case_match).
  clearbody s1. destruct Hs as (Hs1 & Hs2 & Hs3 & Hs4 & Hs5 & Hs6 & Hs7 & Hs8 & Hs9).
  destruct (negb (is_empty (recv s1))) eqn:He.
  - cbn. rewrite take_drop. by rewrite Hs1.
  - assert (recv s1 = []) as Hnil by (by destruct (recv s1)).
    destruct (error s1) eqn:E1; [|destruct (discarding s1 || _); [|destruct (end_received s1) eqn:E2]];
      cbn; split_and!; congruence.
Qed.

Lemma start_close_effect s : let s' := (start_close s).2 in
  s'.(received) = s.(received) /\ s'.(sent) = s.(sent) /\ s'.(end_sent) = s.(end_sent)
  /\ s'.(end_received) = s.(end_received) /\ s'.(send) = s.(send) /\ s'.(error) = s.(error)
  /\ s'.(completed) = s.(completed)
  /\ ((s'.(recv) = s.(recv) /\ s'.(discarding) = s.(discarding)) \/ (s'.(recv) = [] /\ s'.(discarding) = true)).
Proof.
  unfold start_close. destruct (is_some (completed s)); [cbn; by auto 10|].
  destruct (live s) as [[]|] eqn:El; [|cbn; by auto 10]. destruct (negb _); [cbn; by auto 10|].
  destruct (is_some (close_deadline s)); [cbn; by auto 10|].
  unfold end_write, live in *. cbn. destruct (error s) eqn:He; [done|]. destruct (is_some (completed s)); [done|].
  destruct (end_requested s); cbn; rewrite ?He; auto 10.
Qed.

Lemma step_live o s : (step o s).(error) = None -> s.(error) = None.
Proof.
  intros He. destruct (error s) as [e|] eqn:Herr; [|reflexivity].
  rewrite (proj1 (keeps_end_step o s) e Herr) in He. discriminate He.
Qed.

(** An application call or timer, seen from the outgoing stream. *)
Lemma sender_step o s : inv s -> o <> NextMessage -> (forall m, o <> Receive m) -> let s' := step o s in
  s'.(sent) = s.(sent) /\ s'.(end_sent) = s.(end_sent)
  /\ (s'.(error) = None -> s.(error) = None /\ s'.(send) = s.(send) ++ wrote o s)
  /\ (s.(end_sent) = true -> wrote o s = []).
Proof.
  intros H Hn Hr s'. pose proof (step_live o s) as Hlive.
  destruct (moves o) eqn:Hm.
  - destruct o; try discriminate Hm; [| | | by destruct Hn | by destruct (Hr message)]; subst s'; cbn [step] in *.
    + destruct (write_effect input s H) as (_ & _ & H3 & H4 & _ & _ & H7 & H8). split_and!; auto.
    + destruct (read_effect (Z.of_N room) s H ltac:(lia)) as (_ & _ & H3 & H4 & _ & _ & H7 & H8 & _).
      cbn [wrote]. rewrite app_nil_r, H7. by split_and!; auto.
    + destruct (start_close_effect s) as (_ & H2 & H3 & _ & H5 & _).
      cbn [wrote]. rewrite app_nil_r, H5. by split_and!; auto.
  - destruct (quiet_step o s Hm). assert (wrote o s = []) as -> by (destruct o; first [discriminate Hm | reflexivity]).
    rewrite app_nil_r. split_and!; auto.
Qed.

(** The same, seen from the incoming stream. *)
Lemma receiver_step o s : inv s -> local o = true -> let s' := step o s in
  s'.(received) = s.(received) /\ s'.(end_received) = s.(end_received)
  /\ ((s.(recv) = got o s ++ s'.(recv) /\ s'.(discarding) = s.(discarding))
      \/ (got o s = [] /\ s'.(recv) = [] /\ s'.(discarding) = true)).
Proof.
  intros H Hl s'. destruct (moves o) eqn:Hm.
  - destruct o; try discriminate Hm; try discriminate Hl; subst s'; cbn [step].
    + destruct (write_effect input s H) as (-> & -> & _ & _ & -> & -> & _). auto.
    + destruct (read_effect (Z.of_N room) s H ltac:(lia)) as (H1 & -> & _ & _ & -> & -> & _). auto.
    + destruct (start_close_effect s) as (-> & _ & _ & -> & _ & _ & _ & [[-> ->]|[-> ->]]); cbn; auto 10.
  - subst s'. destruct (quiet_step o s Hm) as [-> -> _ _ -> -> _]. assert (got o s = []) as -> by (destruct o; first [discriminate Hm | reflexivity]). auto.
Qed.

Ltac control_message :=
  cbn; rewrite ?orb_false_r; split_and!; try done; try lia; by intros ? [= <-].

(** Pumping a message: it takes its bytes off the front of the send queue. *)
Lemma next_message_effect s : inv s -> let '(om, s') := next_message s in
  s'.(error) = s.(error) /\ s'.(recv) = s.(recv) /\ s'.(received) = s.(received)
  /\ s'.(discarding) = s.(discarding) /\ s'.(end_received) = s.(end_received)
  /\ (s'.(completed) = None -> s.(completed) = None)
  /\ s.(send) = payloads (option_list om) ++ s'.(send)
  /\ s'.(sent) = s.(sent) + len (payloads (option_list om))
  /\ s'.(end_sent) = s.(end_sent) || match om with
       | Some m => bool_decide (m.(Envelope.kind) = MessageKind.EndWrite) | None => false end
  /\ (forall m, om = Some m -> m.(Envelope.kind) = MessageKind.EndWrite -> s.(send) = [] /\ s.(error) = None).
Proof.
  intros H. unfold next_message. destruct (terminal_message s) as [m|] eqn:Ht.
  { destruct (inv_terminal_kind s H m Ht) as [Hk|Hk]; unfold payloads, payload; cbn; rewrite !Hk; cbn;
      rewrite ?orb_false_r; split_and!; try done; try lia; intros ? [= <-]; congruence. }
  destruct (_ || _) eqn:Hl; [cbn; rewrite ?orb_false_r; split_and!; done || lia|].
  apply terminal_false in Hl as [He Hc].
  destruct (is_some_and (peer_flush s) _); [control_message|].
  destruct (_ <? _); [control_message|].
  destruct (close_pending s) as [c|]; [control_message|].
  destruct (opt_filter _ _) as [f|]; [control_message|].
  rewrite credit_eq by done. destruct (_ && (0 <? _)) eqn:Hd.
  - apply andb_true_iff in Hd as [Hd Hcr]. apply andb_true_iff in Hd as [Hne _]. set (count := Z.min _ _).
    pose proof (inv_config s H) as []. pose proof (inv_sent s H). pose proof (inv_credit s H).
    assert (Hct : 0 <= count <= len (send s)) by (unfold count; lia).
    assert (sent s + count <= I64_MAX) by (unfold count; lia). clearbody count.
    assert (i64_add (sent s) (as_i64 count) = sent s + count) as Heq by (norm_int; lia).
    pose proof (length_firstn_Z count (send s) ltac:(lia)) as Hl.
    cbn -[Z.add]. destruct (is_empty (drop _ _)); cbn -[Z.add]; rewrite app_nil_r, take_drop, Heq, orb_false_r;
      split_and!; try done; try lia; by intros ? [= <-].
  - destruct (_ && is_empty (send s)) eqn:Hew.
    + apply andb_true_iff in Hew as [_ Hnil]. cbn. rewrite orb_true_r. split_and!; try done; [lia|].
      intros _ _ _. by destruct (send s).
    + destruct (_ && negb (close_sent s)); [control_message|]. cbn. rewrite orb_false_r. split_and!; done || lia.
Qed.

Lemma accept_data_effect d s : inv s -> (accept_data d s).1 = Ok tt -> let s' := (accept_data d s).2 in
  s'.(received) = s.(received) + len d.(Data.payload) /\ s.(end_received) = false
  /\ s'.(recv) = (if s.(discarding) then s.(recv) else s.(recv) ++ d.(Data.payload))
  /\ s'.(discarding) = s.(discarding) /\ s'.(end_received) = s.(end_received)
  /\ s'.(sent) = s.(sent) /\ s'.(end_sent) = s.(end_sent) /\ s'.(send) = s.(send).
Proof.
  intros H. unfold accept_data, ok_or. destruct (checked_add_i64 _ _) eqn:Hc; [|done].
  apply checked_add_i64_Some in Hc as [-> _]. destruct (_ || _) eqn:Hg; [done|].
  rewrite !orb_false_iff, negb_false_iff, Z.eqb_eq, !Z.ltb_ge in Hg. destruct_and?.
  pose proof (inv_config s H) as []. rewrite as_i64_id by lia.
  destruct (discarding s) eqn:Hd; [intros _; cbn; split_and!; done || lia|].
  destruct (_ <? _); [done|]. intros _. cbn. rewrite Hd. split_and!; done || lia.
Qed.

Lemma accept_data_refused d s e : (accept_data d s).1 = Err e -> (accept_data d s).2 = s.
Proof. unfold accept_data. by repeat (case_match; try done). Qed.

Lemma accept_data_live d s : s.(error) = None -> (accept_data d s).2.(error) = None.
Proof. unfold accept_data. intros He. by repeat (case_match; try done). Qed.

(** What delivering [m] to [s] may do to the two byte streams. *)
Definition delivered (m : Envelope.t) (s s' : t) : Prop :=
  s'.(sent) = s.(sent) /\ s'.(end_sent) = s.(end_sent)
  /\ (s'.(error) = None -> s'.(send) = s.(send))
  /\ (s'.(error) <> None /\ s'.(recv) = s.(recv)
      \/ s'.(error) = None /\ s'.(received) = s.(received) + len (payload m)
         /\ s'.(discarding) = s.(discarding)
         /\ s'.(recv) = (if s.(discarding) then s.(recv) else s.(recv) ++ payload m)
         /\ (payload m <> [] -> s.(end_received) = false)
         /\ (s'.(end_received) = true -> s.(end_received) = true \/ m.(Envelope.kind) = MessageKind.EndWrite)).

Lemma fail_live e n s : s.(error) = None -> s.(completed) = None -> (fail e n s).(error) = Some e.
Proof. unfold fail. intros -> ->. by destruct n. Qed.

Lemma effect_failed m e n s : s.(error) = None -> s.(completed) = None -> delivered m s (fail e n s).
Proof.
  intros He Hc. pose proof (fail_live e n s He Hc) as Hf.
  destruct (fail_same e n s) as (H1 & H2 & H3 & H4 & H5 & H6 & H7). unfold delivered. rewrite Hf.
  split_and!; try done. by left.
Qed.

(** A step that leaves the streams alone, for a message without bytes. *)
Lemma effect_control m s s' : quiet s s' -> payload m = [] -> delivered m s s'.
Proof.
  intros [] Hp. unfold delivered. rewrite Hp. cbn [length Z.of_nat].
  split_and!; try done. destruct (error s') eqn:He; [by left|]. right.
  rewrite app_nil_r. split_and!; try done; [lia | by case_match | rewrite quiet_end_received0; auto].
Qed.

(** An accepted message has its effect, a refused one none. *)
Lemma accept_effect m s : inv s -> s.(error) = None -> s.(completed) = None ->
  match accept m s with (Ok _, s') => delivered m s s' | (Err _, s') => s' = s end.
Proof.
  intros H He Hc. unfold accept. destruct (_ || _); [done|]. destruct (map_err _ _); [|done].
  destruct (Envelope.kind m) eqn:Hk; try done; unfold ok_or.
  all: try assert (Hp : payload m = []) by (unfold payload; by rewrite Hk).
  - destruct (Envelope.data m) as [d|] eqn:Hd; [|done]. pose proof (accept_data_effect d s H) as Ha.
    pose proof (accept_data_refused d s) as Hr. pose proof (accept_data_live d s) as Hl.
    destruct (accept_data d s) as [[[]|e] s1]; [|exact (Hr e eq_refl)].
    destruct (Ha eq_refl) as (H1 & H2 & H3 & H4 & H5 & H6 & H7 & H8). cbn [fst snd] in *.
    assert (Hpay : payload m = Data.payload d) by (unfold payload; by rewrite Hk, Hd).
    unfold delivered. rewrite Hpay. split_and!; try done. right. split_and!; try done; [exact (Hl He)|].
    intros. left. cbn in *. congruence.
  - destruct (Envelope.window m) as [w|]; [|done].
    destruct (_ <=? _); [apply effect_control; auto; by constructor|].
    destruct (_ <? _); [done|]. apply effect_control; auto. by constructor.
  - destruct (Envelope.flush m) as [f|]; [|done]. unfold accept_flush.
    destruct (_ || _); [done|]. apply effect_control; auto. by constructor.
  - destruct (Envelope.flushed m) as [f|]; [|done]. unfold accept_flushed.
    destruct (flush s); [|done]. destruct (_ || _); [done|]. apply effect_control; auto. by constructor.
  - destruct (Envelope.end_write m) as [w|]; [|done]. destruct (negb _); [done|]. unfold delivered.
    rewrite Hp. cbn. split_and!; try done. right. rewrite app_nil_r. split_and!; try done; [lia|by case_match|auto].
  - unfold accept_close. destruct (_ || _); [done|]. destruct (Envelope.close m); [|done]. cbn [ok_or].
    destruct (negb (_ =? _)); [done|]. destruct (close_received s); apply effect_control; auto; by constructor.
  - unfold accept_closed. destruct (_ || _); [done|]. destruct (Envelope.closed m) as [c|]; [|done]. cbn [ok_or].
    destruct (Closed.failure c) as [f|].
    + apply effect_control; auto.
      pose proof (quiet_fail (StreamError.PeerFailed (Failure.code f) (Failure.effect f)) false
        (s <| failure_facts := Some (Closed.facts c) |>) s ltac:(by constructor)) as []. by constructor.
    + apply effect_control; auto. by constructor.
  - destruct (Envelope.cancel m) as [c|]; [|done]. apply effect_control; auto.
    match goal with |- quiet s (touch (fail ?e ?n s)) =>
      pose proof (quiet_fail e n s s (quiet_refl s)) as [] end. by constructor.
  - destruct (Envelope.failed m) as [f|]; [|done]. apply effect_control; auto.
    pose proof (quiet_fail (StreamError.PeerFailed (Failure.code f) (Failure.effect f)) false
      (s <| failure_facts := Failure.facts f |>) s ltac:(by constructor)) as []. by constructor.
Qed.

(** Delivering a message to a live machine: it fails, or the message's bytes join the stream. *)
Lemma receive_effect m s : inv s -> s.(error) = None -> s.(completed) = None ->
  delivered m s (receive m s).2.
Proof.
  intros H He Hc. unfold receive. rewrite He, Hc. cbn [is_some orb].
  unfold expire_io_if_due. destruct (_ || _); [by apply effect_failed|].
  pose proof (accept_effect m s H He Hc) as Ha. destruct (accept m s) as [[[]|e] s1]; [exact Ha|].
  cbn in Ha. subst s1. by apply effect_failed.
Qed.

(** ** One direction *)

Lemma payloads_app q q' : payloads (q ++ q') = payloads q ++ payloads q'.
Proof. unfold payloads. by rewrite map_app, concat_app. Qed.

(** An end of stream in flight follows all the data. *)
Fixpoint ends (end_sent : bool) (q : list Envelope.t) : Prop :=
  match q with
  | [] => True
  | m :: q => (m.(Envelope.kind) = MessageKind.EndWrite -> payloads q = [] /\ end_sent = true) /\ ends end_sent q
  end.

Lemma ends_app es es' q m : ends es q -> (es = true -> es' = true) ->
  (es = true -> payloads (option_list m) = []) ->
  (forall e, m = Some e -> e.(Envelope.kind) = MessageKind.EndWrite -> es' = true) ->
  ends es' (q ++ option_list m).
Proof.
  intros Hq Hes Hp Hm. induction q as [|x q IH]; cbn [ends app] in *.
  - destruct m as [m|]; cbn; [|done]. split; [|done]. intros Hk. split; [done|]. by apply (Hm m).
  - destruct Hq as [Hx Hq]. split; [|auto]. intros Hk. destruct (Hx Hk) as [Hpq He].
    rewrite payloads_app, Hpq, (Hp He). auto.
Qed.

(** [O] is what the sender has put on the wire, [I] what the receiver has accepted of it. *)
Record link (s r : t) (q : list Envelope.t) (W R : list byte) : Prop := {
  link_out : exists O, O `prefix_of` W /\ len O = s.(sent)
    /\ (s.(error) = None -> W = O ++ s.(send))
    /\ (s.(end_sent) = true -> O = W)
    /\ (R ++ r.(recv)) `prefix_of` O
    /\ (r.(error) = None -> r.(completed) = None ->
        exists I, O = I ++ payloads q /\ len I = r.(received)
          /\ (r.(discarding) = false -> I = R ++ r.(recv))
          /\ (r.(end_received) = true -> payloads q = [] /\ s.(end_sent) = true)
          /\ ends s.(end_sent) q);
}.

Lemma link_start s r : s.(sent) = 0 -> s.(send) = [] -> s.(end_sent) = false ->
  r.(recv) = [] -> r.(received) = 0 -> r.(end_received) = false -> link s r [] [] [].
Proof.
  intros H1 H2 H3 H4 H5 H6. constructor. exists []. rewrite H1, H2, H3, H4, H5, H6. split_and!; try done.
  intros _ _. by exists [].
Qed.

(** The sender's application or timer acts. *)
Lemma link_sender o s r q W R : inv s -> local o = true -> link s r q W R ->
  link (step o s) r q (W ++ wrote o s) R.
Proof.
  intros Hs Hl [(O & HO & Hlen & Hsend & Hend & Hr & Hlive)].
  destruct (sender_step o s Hs) as (H1 & H2 & H3 & H4); [intros Heq; by rewrite Heq in Hl | intros m Heq; by rewrite Heq in Hl |].
  constructor. exists O. rewrite H1, H2. split_and!; try done.
  - etrans; [exact HO|]. by apply prefix_app_r.
  - intros He. destruct (H3 He) as [He' ->]. by rewrite app_assoc, <- (Hsend He').
  - intros He. rewrite (H4 He), app_nil_r. auto.
Qed.

(** The sender hears from its peer. *)
Lemma link_sender_receive m s r q W R : inv s -> link s r q W R -> link (receive m s).2 r q W R.
Proof.
  intros Hs [(O & HO & Hlen & Hsend & Hend & Hr & Hlive)].
  destruct (is_some (error s) || is_some (completed s)) eqn:Ht.
  { unfold receive. rewrite Ht. constructor. by exists O. }
  apply terminal_false in Ht as [He Hc]. destruct (receive_effect m s Hs He Hc) as (H1 & H2 & H3 & _).
  constructor. exists O. rewrite H1, H2. split_and!; try done. intros He'. rewrite (H3 He'). auto.
Qed.

(** The sender pumps. *)
Lemma link_pump s r q W R : inv s -> link s r q W R ->
  let '(om, s') := next_message s in link s' r (q ++ option_list om) W R.
Proof.
  intros Hs [(O & HO & Hlen & Hsend & Hend & Hr & Hlive)].
  pose proof (next_message_effect s Hs) as Hn. destruct (next_message s) as [om s'].
  destruct Hn as (H1 & _ & _ & _ & _ & _ & H7 & H8 & H9 & H10).
  set (P := payloads (option_list om)) in *.
  assert (HP : P <> [] -> s.(error) = None /\ s.(end_sent) = false).
  { intros Hne. assert (s.(send) <> []) by (rewrite H7; by destruct P). split.
    - destruct (error s) eqn:He; [|done]. destruct (inv_error s Hs) as [Hnil _]; [congruence|done].
    - apply not_true_is_false. intros Hes. by destruct (inv_end_sent s Hs Hes). }
  assert (HW : P <> [] -> W = O ++ P ++ s'.(send)).
  { intros Hne. destruct (HP Hne) as [He _]. rewrite <- H7. auto. }
  constructor. exists (O ++ P). rewrite H1, H8, H9, length_app_Z. split_and!.
  - destruct P as [|x P'] eqn:HPe; [by rewrite app_nil_r|]. rewrite HW by done. rewrite app_assoc. apply prefix_app_r.
    done.
  - lia.
  - intros He. rewrite (Hsend He), H7. by rewrite app_assoc.
  - intros Hes. apply orb_true_iff in Hes as [Hes|Hes].
    + rewrite (Hend Hes). destruct P eqn:HPe; [by rewrite app_nil_r|]. destruct HP as [_ ?]; [done|congruence].
    + destruct om as [m|]; [|done]. apply bool_decide_eq_true in Hes. destruct (H10 m eq_refl Hes) as [Hnil He].
      rewrite (Hsend He), Hnil. rewrite Hnil in H7. symmetry in H7. apply app_eq_nil in H7 as [-> _]. done.
  - by apply prefix_app_r.
  - intros Hre Hrc. destruct (Hlive Hre Hrc) as (I & HI & HIl & HId & HIe & HIq).
    exists I. rewrite payloads_app, HI, <- app_assoc. split_and!; try done.
    + intros Her. destruct (HIe Her) as [Hpq Hes]. rewrite Hpq, Hes. split; [|done].
      destruct P eqn:HPe; [done|]. destruct HP as [_ ?]; [done|congruence].
    + eapply ends_app; [exact HIq | by intros -> | |].
      * intros Hes. fold P. destruct P eqn:HPe; [done|]. destruct HP as [_ ?]; [done|congruence].
      * intros e -> Hk. by rewrite bool_decide_eq_true_2, orb_true_r.
Qed.

Lemma step_completed o s : (step o s).(completed) = None -> s.(completed) = None.
Proof.
  intros He. destruct (completed s) as [r|] eqn:Hc; [|reflexivity].
  destruct (proj2 (keeps_end_step o s) r Hc) as [H _]. rewrite H in He. discriminate He.
Qed.

(** The receiver's application or timer acts. *)
Lemma link_receiver o s r q W R : inv r -> local o = true -> link s r q W R ->
  link s (step o r) q W (R ++ got o r).
Proof.
  intros Hi Hl [(O & HO & Hlen & Hsend & Hend & Hr & Hlive)].
  destruct (receiver_step o r Hi Hl) as (H1 & H2 & H3). constructor. exists O. rewrite H1, H2.
  assert (Hpre : ((R ++ got o r) ++ (step o r).(recv)) `prefix_of` O).
  { destruct H3 as [[H3 _]|(-> & -> & _)]; [by rewrite <- app_assoc, <- H3|].
    rewrite !app_nil_r. etrans; [|exact Hr]. by apply prefix_app_r. }
  split_and!; try done. intros He Hc.
  destruct (Hlive (step_live o r He) (step_completed o r Hc)) as (I & HI & HIl & HId & HIe & HIq).
  exists I. split_and!; try done. intros Hd.
  destruct H3 as [[H3 H4]|(_ & _ & H4)]; [|congruence]. rewrite H4 in Hd. by rewrite <- app_assoc, <- H3, <- HId.
Qed.

(** The receiver pumps a message of its own. *)
Lemma link_receiver_pump s r q W R : inv r -> link s r q W R -> link s (next_message r).2 q W R.
Proof.
  intros Hi [(O & HO & Hlen & Hsend & Hend & Hr & Hlive)].
  pose proof (next_message_effect r Hi) as Hn. destruct (next_message r) as [om r'].
  destruct Hn as (H1 & H2 & H3 & H4 & H5 & H6 & _). cbn [snd]. constructor. exists O.
  rewrite H1, H2, H3, H4, H5. split_and!; try done. intros He Hc. apply Hlive; auto.
Qed.

(** The receiver takes the oldest message in flight. *)
Lemma link_deliver m s r q W R : inv s -> inv r -> link s r (m :: q) W R -> link s (receive m r).2 q W R.
Proof.
  intros Hs Hi [(O & HO & Hlen & Hsend & Hend & Hr & Hlive)].
  destruct (is_some (error r) || is_some (completed r)) eqn:Ht.
  { unfold receive. rewrite Ht. constructor. exists O. cbn [snd]. split_and!; try done.
    intros He Hc. rewrite He, Hc in Ht. discriminate Ht. }
  apply terminal_false in Ht as [He Hc]. destruct (receive_effect m r Hi He Hc) as (_ & _ & _ & Hd).
  destruct (Hlive He Hc) as (I & HI & HIl & HId & HIe & [HIm HIq]).
  change (payloads (m :: q)) with (payload m ++ payloads q) in *.
  constructor. exists O. split_and!; try done.
  - destruct Hd as [[_ ->]|(_ & _ & _ & -> & _)]; [done|]. destruct (discarding r) eqn:Hdi; [done|].
    rewrite HI, HId by done. rewrite !app_assoc. by apply prefix_app_r.
  - intros He' Hc'. destruct Hd as [[Hn _]|(_ & H1 & H2 & H3 & H4 & H5)]; [congruence|].
    exists (I ++ payload m). rewrite H1, H2, H3, length_app_Z. split_and!.
    + by rewrite <- app_assoc.
    + lia.
    + intros Hdi. rewrite Hdi, HId by done. by rewrite app_assoc.
    + intros Her. destruct (H5 Her) as [Her'|Hk].
      * destruct (HIe Her') as [Hp Hes]. apply app_eq_nil in Hp as [_ Hp]. done.
      * auto.
    + done.
Qed.

(** When a read with room returns no bytes. *)
Lemma read_eof room r : inv r -> 0 < room -> (read room r).1 = Ok [] ->
  r.(recv) = [] /\ r.(error) = None /\ r.(completed) = None /\ r.(discarding) = false /\ r.(end_received) = true.
Proof.
  intros Hi Hroom. unfold read. destruct (Z.eqb_spec room 0); [lia|].
  match goal with |- context [if ?b then touch ?x else r] => set (r1 := if b then touch x else r) end.
  assert (Hs : r1.(recv) = r.(recv) /\ r1.(error) = r.(error) /\ r1.(completed) = r.(completed)
    /\ r1.(discarding) = r.(discarding) /\ r1.(end_received) = r.(end_received)) by (unfold r1; by case_match).
  clearbody r1. destruct Hs as (<- & <- & <- & <- & <-). destruct (recv r1) as [|x l] eqn:Hrecv; cbn [is_empty is_nil negb].
  - destruct (error r1); [done|]. destruct (discarding r1); [done|]. destruct (completed r1); [done|]. cbn.
    destruct (end_received r1); done.
  - intros H. cbn [fst] in H. injection H as H. apply (f_equal length) in H.
    rewrite length_firstn in H. cbn [length] in H. lia.
Qed.

(** ** Both directions *)

Record ok (y : sys) : Prop := {
  ok_a : inv y.(a);
  ok_b : inv y.(b);
  ok_ab : link y.(a) y.(b) y.(ab) y.(wa) y.(rb);
  ok_ba : link y.(b) y.(a) y.(ba) y.(wb) y.(ra);
}.

Lemma ok_act x y : ok y -> ok (act x y).
Proof.
  intros [Ha Hb Hab Hba]. destruct x; cbn [act].
  - destruct (local o) eqn:Hl; [|done]. constructor; cbn.
    + by apply inv_step.
    + done.
    + by apply link_sender.
    + by apply link_receiver.
  - destruct (local o) eqn:Hl; [|done]. constructor; cbn.
    + done.
    + by apply inv_step.
    + by apply link_receiver.
    + by apply link_sender.
  - pose proof (link_pump _ _ _ _ _ Ha Hab) as H1. pose proof (link_receiver_pump _ _ _ _ _ Ha Hba) as H2.
    pose proof (inv_next_message _ Ha) as H3. destruct (next_message (a y)) as [om s']. by constructor.
  - pose proof (link_pump _ _ _ _ _ Hb Hba) as H1. pose proof (link_receiver_pump _ _ _ _ _ Hb Hab) as H2.
    pose proof (inv_next_message _ Hb) as H3. destruct (next_message (b y)) as [om s']. by constructor.
  - destruct (ba y) as [|m q] eqn:Hq; [by constructor; rewrite ?Hq|]. constructor; cbn.
    + by apply inv_receive.
    + done.
    + by apply link_sender_receive.
    + by apply link_deliver.
  - destruct (ab y) as [|m q] eqn:Hq; [by constructor; rewrite ?Hq|]. constructor; cbn.
    + done.
    + by apply inv_receive.
    + by apply link_deliver.
    + by apply link_sender_receive.
Qed.

Lemma ok_acts xs y : ok y -> ok (acts xs y).
Proof. revert y. induction xs as [|x xs IH]; intros y H; [done|]. apply IH. by apply ok_act. Qed.

Lemma ok_start ca cb sa sb : unsigned ca -> unsigned cb -> new ca = Ok sa -> new cb = Ok sb -> ok (start sa sb).
Proof.
  intros Hua Hub Ha Hb. pose proof (inv_new ca sa Hua Ha) as Hia. pose proof (inv_new cb sb Hub Hb) as Hib.
  unfold new in Ha, Hb. destruct (Config.validate ca) as [[]|]; [|done]. destruct (Config.validate cb) as [[]|]; [|done].
  injection Ha as <-. injection Hb as <-. constructor; cbn; try done; by apply link_start.
Qed.
End duplex.

(** ** Theorems *)

Section theorems.
Context {L : Layout}.

(** C1: delivery is exact.  For every pair of valid configurations and every interleaving of
    application calls, timers, failures, pumping and delivery, what each side has read is a prefix of
    what the other side's application wrote: no byte is lost, repeated, reordered or invented. *)
Theorem read_is_prefix ca cb sa sb xs :
  unsigned ca -> unsigned cb -> new ca = Ok sa -> new cb = Ok sb ->
  let y := acts xs (start sa sb) in
  y.(rb) `prefix_of` y.(wa) /\ y.(ra) `prefix_of` y.(wb).
Proof.
  intros Hua Hub Ha Hb y.
  destruct (ok_acts xs _ (ok_start ca cb sa sb Hua Hub Ha Hb)) as [_ _ [(O & HO & _ & _ & _ & Hr & _)] [(O' & HO' & _ & _ & _ & Hr' & _)]].
  split; [transitivity O | transitivity O']; try done; eapply prefix_app_l; done.
Qed.

(** C2: end of stream is never early.  When a read with room returns no bytes, the other side has ended
    its writing and everything its application wrote has been read. *)
Theorem eof_is_complete ca cb sa sb xs room :
  unsigned ca -> unsigned cb -> new ca = Ok sa -> new cb = Ok sb -> 0 < room ->
  let y := acts xs (start sa sb) in
  (read room y.(b)).1 = Ok [] -> y.(rb) = y.(wa) /\ y.(a).(end_sent) = true.
Proof.
  intros Hua Hub Ha Hb Hroom y Hread.
  pose proof (ok_acts xs _ (ok_start ca cb sa sb Hua Hub Ha Hb)) as Hok. fold y in Hok. clearbody y.
  destruct Hok as [_ Hib [(O & HO & _ & _ & Hend & Hr & Hlive)] _]. destruct (read_eof room (b y) Hib Hroom Hread) as (H1 & H2 & H3 & H4 & H5).
  destruct (Hlive H2 H3) as (I & HI & _ & HId & HIe & _). destruct (HIe H5) as [Hp Hes].
  split; [|done]. rewrite <- (Hend Hes), HI, Hp, app_nil_r, (HId H4), H1. by rewrite app_nil_r.
Qed.
End theorems.

(** A session to evaluate the theorems on: the initiator sends five bytes and ends its writing. *)
Definition sample_side (side : Side.t) : Config.t :=
  (Config.new "s"%string 1 side)
    <| Config.max_payload := 3 |> <| Config.send_buffer := 16 |>
    <| Config.receive_window := 4 |> <| Config.peer_receive_window := 4 |>.

Definition sample_machine (side : Side.t) : t :=
  match new (L := layout64) (sample_side side) with
  | Ok s => s
  | Err _ => mk (sample_side side) [] [] 0 (IoClock.new 0 0) None false 0 0 0 0 0 false false false None 0 0 None 0
      None false false false false None None None None None None 0 0 0
  end.

Definition sample_acts : list action :=
  [DoA (Write [x68; x65; x6c; x6c; x6f]); DoA EndWrite; PumpA; DeliverB; DoB (Read 2); PumpB; DeliverA;
   PumpA; DeliverB; DoB (Read 8); PumpB; DeliverA; PumpA; DeliverB].

Lemma sample_unsigned side : unsigned (sample_side side).
Proof. unfold unsigned. cbn. lia. Qed.

Lemma read_is_prefix_witness :
  [x68; x65; x6c; x6c; x6f] `prefix_of` [x68; x65; x6c; x6c; x6f].
Proof.
  refine (proj1 (read_is_prefix (L := layout64) (sample_side Side.Initiator) (sample_side Side.Endpoint)
    (sample_machine Side.Initiator) (sample_machine Side.Endpoint) sample_acts
    (sample_unsigned _) (sample_unsigned _) _ _)); vm_compute; reflexivity.
Defined.

Lemma eof_is_complete_witness :
  (acts (L := layout64) sample_acts
     (start (sample_machine Side.Initiator) (sample_machine Side.Endpoint))).(rb) = [x68; x65; x6c; x6c; x6f].
Proof.
  refine (proj1 (eof_is_complete (L := layout64) (sample_side Side.Initiator) (sample_side Side.Endpoint)
    (sample_machine Side.Initiator) (sample_machine Side.Endpoint) sample_acts 1
    (sample_unsigned _) (sample_unsigned _) _ _ _ _)); vm_compute; reflexivity.
Defined.
