(* ===== verification/StreamAsync.v ===== *)
(** * A stream shared by futures

    The library's stream/asynchronous.rs: a stream machine behind a lock, the calls of
    the application and of the message endpoint, and the slots that wait on it.  Each
    call is one critical section; a waker is a number, and what a call wakes is part of
    its result.  A slot may be polled for something else each time, as the code allows.
    Whoever waits is woken by the machine's revision, so what is shown is that a change
    that lets anybody go on touches it. *)
From S2P Require Import Prelude Utf8 Cbor CborFacts Protocol ProtocolFacts Budget Admission Policy Validate Codec CodecFacts Binding BindingFacts Counting IoClock Stream StreamFacts.
Import Stream.

(** What a poll asks of the machine, and what it gets. *)
Module StreamWait.
Inductive t :=
| Read (room : N)
| Write (input : list byte)
| Flush (ticket : Z)
| EndWrite
| Close
| NextMessage.
End StreamWait.
Module StreamOut.
Inductive t :=
| Bytes (data : list byte)
| Count (n : Z)
| Unit
| Closed (r : CloseResult.t)
| Message (m : option Envelope.t).
End StreamOut.

Module Registration.
Record t := mk { waker : Z; dispatcher : bool }.
End Registration.
Module StreamShared.
Record t := mk {
  machine : Stream.t;
  waiters : gmap Z Registration.t;
  serial : Z;
  owners : Z;
}.
#[global] Instance eta : Eta t := fun r => mk (r.(machine)) (r.(waiters)) (r.(serial)) (r.(owners)).
(** A [Waiter]: its place in the table, if it has one, and whose it is. *)
Module Waiter.
Record t := mk { id : option Z; dispatcher : bool }.
End Waiter.

Section shared.
Context {L : Layout}.

Definition new (config : Config.t) : result t StreamError.t :=
  try m := Stream.new config in Ok (mk m ∅ 0 1).
(** The wakers of all the waiters but one, if the revision has changed. *)
Definition wakes (before : Z) (except : option Z) (self : t) : list Z :=
  if negb (before =? self.(machine).(revision))
  then map (fun e : Z * Registration.t => e.2.(Registration.waker))
         (keep (fun e : Z * Registration.t => negb (bool_decide (Some e.1 = except))) (entries self.(waiters)))
  else [].
Definition change {T} (action : Stream.t -> T * Stream.t) (self : t) : T * list Z * t :=
  let before := self.(machine).(revision) in
  let '(result, m) := action self.(machine) in
  let self := self <| machine := m |> in
  (result, wakes before None self, self).

Definition action (on : StreamWait.t) (m : Stream.t) : result StreamOut.t StreamError.t * Stream.t :=
  match on with
  | StreamWait.Read room => let '(r, m) := read (Z.of_N room) m in (match r with Ok data => Ok (StreamOut.Bytes data) | Err e => Err e end, m)
  | StreamWait.Write input => let '(r, m) := write input m in (match r with Ok n => Ok (StreamOut.Count n) | Err e => Err e end, m)
  | StreamWait.Flush ticket =>
      (match flush_complete ticket m with
       | Ok true => Ok StreamOut.Unit
       | Ok false => Err StreamError.WouldBlock
       | Err e => Err e
       end, m)
  | StreamWait.EndWrite =>
      (match live m with Ok _ => if m.(end_sent) then Ok StreamOut.Unit else Err StreamError.WouldBlock | Err e => Err e end, m)
  | StreamWait.Close => (match close_result m with Ok r => Ok (StreamOut.Closed r) | Err e => Err e end, m)
  | StreamWait.NextMessage =>
      match next_message m with
      | (Some message, m) => (Ok (StreamOut.Message (Some message)), m)
      | (None, m) => (if (stats m).(Snapshot.terminal) then Ok (StreamOut.Message None) else Err StreamError.WouldBlock, m)
      end
  end.

(** [Waiter::poll]: pending ([None]) or the result; the waiter; what it wakes. *)
Definition occupied (dispatcher : bool) (self : t) : Z :=
  count_values (fun r => Bool.eqb r.(Registration.dispatcher) dispatcher) self.(waiters).
Definition limit (dispatcher : bool) (self : t) : Z := if dispatcher then 1 else self.(machine).(config).(Config.max_waiters).
Definition enrol (waker : Z) (waiter : Waiter.t) (self : t) : option Z * t :=
  let '(id, self) := match waiter.(Waiter.id) with
                     | Some id => (Some id, self)
                     | None =>
                         if (limit waiter.(Waiter.dispatcher) self <=? occupied waiter.(Waiter.dispatcher) self) || (self.(serial) =? U64_MAX)
                         then (None, self)
                         else (Some (self.(serial) + 1), self <| serial := self.(serial) + 1 |>)
                     end in
  (id, match id with
       | Some id => self <| waiters := <[id := Registration.mk waker waiter.(Waiter.dispatcher)]> self.(waiters) |>
       | None => self
       end).
Definition poll (on : StreamWait.t) (waiter : Waiter.t) (waker : Z) (self : t)
    : option (result StreamOut.t StreamError.t) * Waiter.t * list Z * t :=
  let before := self.(machine).(revision) in
  let '(result, m) := action on self.(machine) in
  let self := self <| machine := m |> in
  match result with
  | Err StreamError.WouldBlock =>
      let '(id, self) := enrol waker waiter self in
      (if is_some id then None else Some (Err StreamError.WaiterCapacity),
       Waiter.mk id waiter.(Waiter.dispatcher), wakes before id self, self)
  | result =>
      let self := match waiter.(Waiter.id) with Some id => self <| waiters := delete id self.(waiters) |> | None => self end in
      (Some result, Waiter.mk None waiter.(Waiter.dispatcher), wakes before None self, self)
  end.
Definition drop_waiter (waiter : Waiter.t) (self : t) : t :=
  match waiter.(Waiter.id) with Some id => self <| waiters := delete id self.(waiters) |> | None => self end.
(** The last application handle cancels the stream. *)
Definition drop_stream (self : t) : list Z * t :=
  let last := self.(owners) =? 1 in
  let self := self <| owners := usize_sub self.(owners) 1 |> in
  if last then let '(_, wakes, self) := change (fun m => (tt, cancel m)) self in (wakes, self) else ([], self).
End shared.
End StreamShared.

Section stir.
Context {L : Layout}.
Import StreamShared.

(** ** What touches the revision *)

Definition blocked (on : StreamWait.t) (m : Stream.t) : Prop := (action on m).1 = Err StreamError.WouldBlock.
Definition over (m : Stream.t) : bool := is_some m.(error) || is_some m.(completed).
Definition due (m : Stream.t) : bool := is_some_and m.(batch_deadline) (fun at_ => at_ <=? m.(now)).
(** A change nobody waits for: the clocks, without the batch coming due. *)
Definition idle_change (m m' : Stream.t) : Prop :=
  exists n i k, m' = m <| now := n |> <| io := i |> <| flush_serial := k |> /\ (due m' = due m \/ over m = true).
Definition touched (k : Z) (m m' : Stream.t) : Prop := m'.(revision) = as_u64 (m.(revision) + k) /\ m'.(config) = m.(config).
Definition stirred (m m' : Stream.t) : Prop := exists k, 1 <= k <= 4 /\ touched k m m'.
Definition stirs (m m' : Stream.t) : Prop := stirred m m' \/ idle_change m m'.

Lemma idle_refl m : idle_change m m.
Proof. exists (now m), (io m), (flush_serial m). split; [by destruct m|by left]. Qed.
(** What a read answers. *)
Definition readable (room : Z) (m : Stream.t) : result (list byte) StreamError.t :=
  if room =? 0 then Ok []
  else if negb (is_empty m.(recv)) then Ok (firstn (Z.to_nat (Z.min room (len m.(recv)))) m.(recv))
  else match m.(error) with
       | Some e => Err e
       | None => if m.(discarding) || is_some m.(completed) then Err StreamError.Closed
                 else if m.(end_received) then Ok [] else Err StreamError.WouldBlock
       end.
Lemma read_readable room m : (read room m).1 = readable room m.
Proof.
  unfold read, readable. destruct (room =? 0); [done|]. destruct (_ && negb (force_send m)); cbn; (destruct (negb (is_empty (recv m))); [done|]);
    (destruct (error m); [done|]); (destruct (discarding m || _); [done|]); by destruct (end_received m).
Qed.
Lemma read_action room m : (action (StreamWait.Read room) m).1
  = match readable (Z.of_N room) m with Ok data => Ok (StreamOut.Bytes data) | Err e => Err e end.
Proof. cbn [action]. rewrite <- read_readable. by destruct (read (Z.of_N room) m). Qed.
Lemma idle_blocked on m m' : idle_change m m' -> blocked on m -> blocked on m'.
Proof.
  intros (n & i & k & -> & Hd) Hb. unfold blocked in *. destruct on; [by rewrite read_action in *|..]; cbn [action] in *.
  - revert Hb. unfold write, live. cbn. destruct (error m); [done|]. destruct (is_some (completed m)); [done|]. destruct (end_requested m); [done|].
    destruct (is_empty input); [done|]. destruct (is_some (flush m)); [done|]. destruct (_ =? 0); [done|]. by destruct (is_none _).
  - exact Hb.
  - exact Hb.
  - exact Hb.
  - destruct (over m) eqn:Ho.
    { exfalso. unfold next_message in Hb. unfold over in Ho. rewrite Ho in Hb. destruct (terminal_message m); [done|]. cbn in Hb. by rewrite Ho in Hb. }
    destruct Hd as [Hd|Hd]; [|congruence]. unfold due in Hd. cbn in Hd. unfold over in Ho. revert Hb. unfold next_message, stats, envelope. cbn. rewrite Ho, Hd.
    destruct (terminal_message m); [done|]. destruct (is_some_and (peer_flush m) _); [done|]. destruct (_ <? _); [done|].
    destruct (close_pending m); [done|]. destruct (opt_filter _ _); [done|]. destruct (negb (is_empty (send m)) && _ && _); [done|].
    destruct (_ && _ && is_empty (send m)); [done|]. destruct (_ && negb (close_sent m)); [done|]. cbn. by rewrite Ho.
Qed.
Lemma next_message_none m m' : next_message m = (None, m') -> m' = m.
Proof.
  unfold next_message. destruct (terminal_message m); [done|]. destruct (_ || _); [by intros [= <-]|]. destruct (is_some_and _ _); [done|].
  destruct (_ <? _); [done|]. destruct (close_pending m); [done|]. destruct (opt_filter _ _); [done|].
  destruct (negb (is_empty (send m)) && _ && _); [done|]. destruct (_ && _ && is_empty (send m)); [done|].
  destruct (_ && negb (close_sent m)); [done|]. by intros [= <-].
Qed.
Lemma read_again room m : blocked (StreamWait.Read room) m -> blocked (StreamWait.Read room) (action (StreamWait.Read room) m).2.
Proof.
  unfold blocked. rewrite !read_action. cbn [action]. intros Hb.
  assert (Hs : (read (Z.of_N room) m).2 = m \/ (read (Z.of_N room) m).2 = touch (m <| force_send := true |>)).
  { revert Hb. unfold readable, read. destruct (_ =? 0); [done|]. destruct (_ && negb (force_send m)); cbn; (destruct (negb (is_empty (recv m))); [done|]);
      (destruct (error m); [auto|]); (destruct (discarding m || _); [done|]); destruct (end_received m); auto. }
  destruct (read (Z.of_N room) m) as [r m']; cbn in *. by destruct Hs as [->| ->].
Qed.
(** A slot that finds nothing would find nothing again. *)
Lemma blocked_again on m : blocked on m -> blocked on (action on m).2.
Proof.
  destruct on as [room|input|ticket| | |]; [apply read_again|..]; intros Hb; unfold blocked in *; cbn [action] in *; try exact Hb.
  - assert (Hw : (write input m).1 = Err StreamError.WouldBlock -> (write input m).2 = m).
    { unfold write. destruct (live m); [|done]. destruct (end_requested m); [done|]. destruct (is_empty input); [done|].
      destruct (is_some (flush m)); [done|]. destruct (_ =? 0); [done|]. by destruct (is_none _). }
    destruct (write input m) as [[n|e] m'] eqn:He; [done|]. cbn in Hb, Hw. injection Hb as ->. rewrite (Hw eq_refl) in He |- *. cbn [snd]. by rewrite He.
  - destruct (next_message m) as [[|] m'] eqn:Hn; [done|]. cbn in *. apply next_message_none in Hn as Hm. subst m'. by rewrite Hn.
Qed.

(** *** Every operation *)

Lemma touched_stirs k m m' : 1 <= k <= 4 -> touched k m m' -> stirs m m'.
Proof. intros Hk H. left. by exists k. Qed.
Definition same_mark (m m' : Stream.t) : Prop := m'.(revision) = m.(revision) /\ m'.(config) = m.(config).
Lemma touched_first m m' : same_mark m m' -> touched 1 m (touch m').
Proof. intros [H1 H2]. split; cbn; [by rewrite H1|done]. Qed.
Lemma touched_next k m m' : touched k m m' -> touched (k + 1) m (touch m').
Proof. intros [H1 H2]. split; [|done]. cbn. rewrite H1. unfold wrapping_add_u64, as_u64. rewrite Zplus_mod_idemp_l. f_equal. lia. Qed.
Lemma touched_same k m m' m'' : same_mark m' m'' -> touched k m m' -> touched k m m''.
Proof. unfold touched, same_mark. intuition congruence. Qed.
Lemma stirs_refl m : stirs m m.
Proof. right. apply idle_refl. Qed.
Lemma stirs_first m m' : same_mark m m' -> stirs m (touch m').
Proof. intros H. apply (touched_stirs 1); [lia|]. by apply touched_first. Qed.
Lemma live_not_over m r : live m = Ok r -> over m = false.
Proof. unfold live, over. destruct (error m); [done|]. by destruct (completed m). Qed.
Lemma touched_fail e notify m m' : same_mark m m' -> over m' = false -> touched 1 m (fail e notify m').
Proof. intros Hr Ho. unfold fail. unfold over in Ho. rewrite Ho. apply touched_first. by destruct notify. Qed.
Lemma stirs_fail e notify m : stirs m (fail e notify m).
Proof. destruct (over m) eqn:Ho; [unfold fail; unfold over in Ho; rewrite Ho; apply stirs_refl|]. apply (touched_stirs 1); [lia|]. by apply touched_fail. Qed.

Lemma stirs_write input m : stirs m (write input m).2.
Proof.
  unfold write. destruct (live m) eqn:Hl; [|apply stirs_refl]. destruct (end_requested m); [apply stirs_refl|]. destruct (is_empty input); [apply stirs_refl|].
  destruct (is_some (flush m)); [apply stirs_refl|]. destruct (_ =? 0); [apply stirs_refl|]. destruct (is_none _); [apply stirs_fail|].
  cbn [snd]. apply stirs_first. by destruct (is_empty (send m)).
Qed.
Lemma stirs_read room m : stirs m (read room m).2.
Proof.
  unfold read. destruct (room =? 0); [apply stirs_refl|]. destruct (_ && negb (force_send m)).
  - set (m1 := touch _). assert (H1 : touched 1 m m1) by (by apply touched_first). destruct (negb _).
    + apply (touched_stirs 2); [lia|]. apply (touched_next 1). by apply (touched_same 1 m m1).
    + apply (touched_stirs 1) in H1; [|lia]. destruct (error m1); [done|]. destruct (discarding m1 || _); [done|]. by destruct (end_received m1).
  - destruct (negb _); [by apply stirs_first|]. pose proof (stirs_refl m). destruct (error m); [done|]. destruct (discarding m || _); [done|]. by destruct (end_received m).
Qed.
Lemma stirs_start_flush m : stirs m (start_flush m).2.
Proof.
  unfold start_flush. destruct (live m); [|apply stirs_refl]. destruct (flush m); [apply stirs_refl|]. destruct (end_sent m); [apply stirs_refl|].
  destruct (ok_or _ _) as [serial|]; [|apply stirs_refl]. destruct (ok_or _ _); [by apply stirs_first|].
  right. exists (now m), (io m), serial. split; [by destruct m|by left].
Qed.
Lemma end_write_spec m : (end_write m).2 = m \/ touched 1 m (end_write m).2.
Proof. unfold end_write. destruct (live m); [|by left]. destruct (end_requested m); [by left|]. right. by apply touched_first. Qed.
Lemma stirs_start_close m : stirs m (start_close m).2.
Proof.
  unfold start_close. destruct (is_some (completed m)); [apply stirs_refl|]. destruct (live m) eqn:Hl; [|apply stirs_refl].
  destruct (negb _); [apply stirs_refl|]. destruct (is_some (close_deadline m)); [apply stirs_refl|].
  set (m1 := _ <| recv := [] |>). assert (E1 : same_mark m m1) by done. assert (El : live m1 = live m) by done.
  assert (He : (end_write m1).1 = Ok tt). { unfold end_write. rewrite El, Hl. by destruct (end_requested m1). }
  pose proof (end_write_spec m1) as H. destruct (end_write m1) as [r m2]. cbn in He, H. subst r. cbn [snd]. destruct H as [->|H]; [by apply stirs_first|].
  apply (touched_stirs 2); [lia|]. apply (touched_next 1). destruct H as [H1 H2], E1 as [E1 E2]. split; [by rewrite H1, E1|by rewrite H2, E2].
Qed.
Lemma stirs_complete disposition facts failure m : stirs m (complete_close_with_failure disposition facts failure m).2.
Proof.
  unfold complete_close_with_failure. destruct (live m); [|apply stirs_refl]. destruct (negb _); [apply stirs_refl|]. destruct (_ || _); [apply stirs_refl|].
  destruct (is_some (close_pending m)); [apply stirs_refl|]. destruct (map_err _ _); [by apply stirs_first|apply stirs_refl].
Qed.
Lemma stirs_fail_terminal failure m : stirs m (fail_terminal failure m).2.
Proof.
  unfold fail_terminal. destruct (live m) eqn:Hl; [|apply stirs_refl]. destruct (negb _); [apply stirs_refl|]. destruct (map_err _ _); [|apply stirs_refl].
  apply (touched_stirs 1); [lia|]. set (m1 := m <| failure_facts := _ |>).
  apply (touched_same 1 m (fail (StreamError.PeerFailed (Failure.code failure) (Failure.effect failure)) false m1)); [done|].
  apply touched_fail; [done|]. by apply live_not_over in Hl.
Qed.
Lemma stirs_disconnect m : stirs m (disconnect m).
Proof.
  unfold disconnect. destruct (over m) eqn:Ho.
  - unfold fail. unfold over in Ho. rewrite Ho. by apply stirs_first.
  - apply (touched_stirs 2); [lia|]. apply (touched_next 1).
    apply (touched_same 1 m (fail StreamError.CarrierLost false m)); [done|]. by apply touched_fail.
Qed.
Lemma expire_io_spec m : let r := expire_io_if_due m in (is_ok r.1 = true /\ r.2 = m) \/ (is_ok r.1 = false /\ r.2 = fail StreamError.Timeout true m).
Proof. unfold expire_io_if_due. destruct (_ || _); [by right|by left]. Qed.
Lemma idle_io m i : idle_change m (m <| io := i |>).
Proof. exists (now m), i, (flush_serial m). split; [by destruct m|by left]. Qed.
Lemma stirs_set_io_state state m : stirs m (set_io_state state m).2.
Proof.
  unfold set_io_state. destruct (negb _); [apply stirs_refl|]. destruct (live m) eqn:Hl; [|apply stirs_refl]. destruct (_ || _); [apply stirs_refl|].
  pose proof (expire_io_spec m) as He. destruct (expire_io_if_due m) as [[[]|e] m1]; cbn in He.
  - destruct He as [[_ ->]|[? _]]; [|done]. set (m2 := m <| io := _ |>). destruct (bool_decide _); [right; apply idle_io|].
    destruct (IoClock.due _ _); [|right; apply idle_io]. apply (touched_stirs 1); [lia|]. apply touched_fail; [done|]. by apply live_not_over in Hl.
  - destruct He as [[? _]|[_ ->]]; [done|]. apply stirs_fail.
Qed.
Lemma stirs_record bytes m : stirs m (record_io_progress bytes m).2.
Proof.
  unfold record_io_progress. destruct (negb _); [apply stirs_refl|]. destruct (live m) eqn:Hl; [|apply stirs_refl]. destruct (_ || _); [apply stirs_refl|].
  pose proof (expire_io_spec m) as He. destruct (expire_io_if_due m) as [[[]|e] m1]; cbn in He.
  - destruct He as [[_ ->]|[? _]]; [|done]. destruct (IoClock.progress _ _ _ _); [right; apply idle_io|apply stirs_refl].
  - destruct He as [[? _]|[_ ->]]; [done|]. apply stirs_fail.
Qed.
Lemma stirs_advance n m : stirs m (advance n m).
Proof.
  unfold advance. destruct (n <? now m) eqn:Hn; [apply stirs_refl|]. apply Z.ltb_ge in Hn. set (m1 := m <| now := n |>).
  assert (Hidle : due m1 = due m \/ over m = true -> idle_change m m1).
  { intros H. exists n, (io m), (flush_serial m). split; [by destruct m|done]. }
  destruct (_ || is_some (completed m1)) eqn:Ho; [right; apply Hidle; by right|].
  destruct (_ || IoClock.due _ _); [apply (touched_stirs 1); [lia|]; by apply touched_fail|].
  destruct (negb _ && _) eqn:Hd; [by apply stirs_first|]. right. apply Hidle. left. unfold due. change (batch_deadline m1) with (batch_deadline m) in *.
  destruct (batch_deadline m) as [at_|]; cbn in *; [|done]. destruct (Z.leb_spec at_ (now m)); destruct (Z.leb_spec at_ n); done || lia.
Qed.
Lemma stirs_next_message m : stirs m (next_message m).2.
Proof.
  unfold next_message. destruct (terminal_message m); [by apply stirs_first|]. destruct (_ || _); [apply stirs_refl|].
  destruct (is_some_and _ _); [by apply stirs_first|]. destruct (_ <? _); [by apply stirs_first|]. destruct (close_pending m); [by apply stirs_first|].
  destruct (opt_filter _ _); [by apply stirs_first|]. destruct (negb (is_empty (send m)) && _ && _).
  { cbn [snd]. apply stirs_first. by case_match. }
  destruct (_ && _ && is_empty (send m)); [by apply stirs_first|]. destruct (_ && negb (close_sent m)); [by apply stirs_first|apply stirs_refl].
Qed.

(** A message that is accepted touches, unless it changes nothing; one that is refused
    leaves the machine as far as it came, and the caller ends it. *)
Definition accepted (m : Stream.t) (c : result unit StreamError.t * Stream.t) : Prop :=
  match c.1 with
  | Ok _ => c.2 = m \/ exists k, 1 <= k <= 2 /\ touched k m c.2
  | Err _ => same_mark m c.2 /\ over c.2 = false
  end.
Lemma accepted_finish m (r : result unit StreamError.t * Stream.t) : over m = false ->
  match r.1 with Ok _ => same_mark m r.2 \/ touched 1 m r.2 | Err _ => r.2 = m end ->
  accepted m (match r with (Ok _, s) => (Ok tt, touch s) | (Err e, s) => (Err e, s) end).
Proof.
  intros Ho H. destruct r as [[[]|e] m']; cbn in *; unfold accepted; cbn; [|by subst m'].
  right. destruct H as [H|H]; [exists 1; split; [lia|by apply touched_first]|exists 2; split; [lia|by apply (touched_next 1)]].
Qed.
Lemma stream_accepts m message : over m = false -> accepted m (accept message m).
Proof.
  intros Ho. unfold accept. assert (Herr : forall e, accepted m (Err e, m)) by done. destruct (_ || _); [done|]. destruct (map_err _ _); [|done].
  destruct (Envelope.kind message); try done.
  - destruct (ok_or _ _); [|done]. apply accepted_finish; [done|]. unfold accept_data. destruct (ok_or _ _); [|done]. destruct (_ || _); [done|].
    destruct (discarding m); [by left|]. destruct (_ <? _); [done|]. by left.
  - destruct (ok_or _ _); [|done]. destruct (_ <=? _); [by left|]. destruct (_ <? _); [done|]. apply (accepted_finish m (Ok tt, _)); [done|by left].
  - destruct (ok_or _ _); [|done]. apply accepted_finish; [done|]. unfold accept_flush. destruct (_ || _); [done|]. by left.
  - destruct (ok_or _ _); [|done]. apply accepted_finish; [done|]. unfold accept_flushed. destruct (flush m); [|done]. destruct (_ || _); [done|]. by left.
  - destruct (ok_or _ _); [|done]. destruct (negb _); [done|]. apply (accepted_finish m (Ok tt, _)); [done|by left].
  - apply accepted_finish; [done|]. unfold accept_close. destruct (_ || _); [done|]. destruct (ok_or _ _); [|done]. destruct (negb _); [done|].
    destruct (close_received m); by left.
  - apply accepted_finish; [done|]. unfold accept_closed. destruct (_ || _); [done|]. destruct (ok_or _ _) as [closed|]; [|done].
    destruct (Closed.failure closed) as [f|]; [|by left]. right. set (m1 := m <| failure_facts := _ |>).
    apply (touched_same 1 m (fail (StreamError.PeerFailed (Failure.code f) (Failure.effect f)) false m1)); [done|]. by apply touched_fail.
  - destruct (ok_or _ _) as [c|]; [|done]. apply (accepted_finish m (Ok tt, _)); [done|]. right. by apply touched_fail.
  - destruct (ok_or _ _) as [f|]; [|done]. set (m1 := m <| failure_facts := _ |>). apply (accepted_finish m (Ok tt, _)); [done|]. right.
    apply (touched_same 1 m (fail (StreamError.PeerFailed (Failure.code f) (Failure.effect f)) false m1)); [done|]. by apply touched_fail.
Qed.
Lemma stirs_receive message m : stirs m (receive message m).2.
Proof.
  unfold receive. destruct (_ || is_some (completed m)) eqn:Ho; [apply stirs_refl|].
  pose proof (expire_io_spec m) as He. destruct (expire_io_if_due m) as [[[]|e] m1]; cbn in He.
  - destruct He as [[_ ->]|[? _]]; [|done]. pose proof (stream_accepts m message Ho) as H. unfold accepted in H.
    destruct (accept message m) as [[[]|e] m']; cbn in *.
    + destruct H as [->|(k & Hk & H)]; [apply stirs_refl|]. apply (touched_stirs k); [lia|done].
    + destruct H as [H1 H2]. apply (touched_stirs 1); [lia|]. by apply touched_fail.
  - destruct He as [[? _]|[_ ->]]; [done|]. apply stirs_fail.
Qed.
Lemma stirs_step o m : stirs m (step o m).
Proof.
  destruct o; cbn [step].
  - apply stirs_write.
  - apply stirs_read.
  - apply stirs_start_flush.
  - destruct (end_write_spec m) as [->|H]; [apply stirs_refl|]. apply (touched_stirs 1); [lia|done].
  - apply stirs_start_close.
  - apply stirs_complete.
  - apply stirs_complete.
  - apply stirs_fail_terminal.
  - apply stirs_fail.
  - apply stirs_disconnect.
  - apply stirs_set_io_state.
  - apply stirs_record.
  - apply stirs_advance.
  - apply stirs_next_message.
  - apply stirs_receive.
Qed.
Lemma stirs_action on m : stirs m (action on m).2.
Proof.
  destruct on as [room|input|ticket| | |]; cbn [action]; try apply stirs_refl.
  - pose proof (stirs_read (Z.of_N room) m). by destruct (read _ m).
  - pose proof (stirs_write input m). by destruct (write _ m).
  - pose proof (stirs_next_message m) as H. by destruct (next_message m) as [[|] m'].
Qed.

(** The revision tells a change that somebody may wait for. *)
Lemma stirs_revision m m' : 0 <= m.(revision) <= U64_MAX -> stirs m m' -> (revision m =? revision m') = true ->
  forall on, blocked on m -> blocked on m'.
Proof.
  intros Hr [(k & Hk & H & _)|H] He on Hb; [|by eapply idle_blocked]. apply Z.eqb_eq in He. rewrite He in H. exfalso. unfold as_u64 in H.
  assert (Hm : (revision m' + k) mod 2 ^ 64 = revision m' mod 2 ^ 64) by (rewrite (Z.mod_small (revision m')); [done|lia]).
  assert (Hz : k mod 2 ^ 64 = 0). { replace k with (revision m' + k - revision m') by lia. rewrite Zminus_mod, Hm, Z.sub_diag. done. }
  rewrite Z.mod_small in Hz; lia.
Qed.
Lemma stirs_range m m' : 0 <= m.(revision) <= U64_MAX -> stirs m m' -> 0 <= m'.(revision) <= U64_MAX.
Proof.
  intros Hr [(k & _ & -> & _)|(n & i & s & -> & _)]; [|done]. apply as_u64_range.
Qed.
Lemma stirs_config m m' : stirs m m' -> m'.(config) = m.(config).
Proof. intros [(k & _ & _ & H)|(n & i & s & -> & _)]; done. Qed.
End stir.

(** ** Runs *)

(** A slot: its waiter, and what its last poll waited for, with that poll's waker and
    the number of wakes there had been, if it was pending. *)
Module SSlot.
Record t := mk { waiter : StreamShared.Waiter.t; polled : option (StreamWait.t * Z * nat) }.
End SSlot.
Module SWorld.
Record t := mk { shared : StreamShared.t; slots : gmap Z SSlot.t; woken : list Z }.
End SWorld.
Module SAStep.
Inductive t :=
(** A call of the application or of the endpoint that does not wait. *)
| Calls (o : op)
| Looks
| Starts (slot : Z) (dispatcher : bool)
| Polls (slot : Z) (on : StreamWait.t) (waker : Z)
| Drops (slot : Z)
| ClonesStream
| DropsStream.
End SAStep.

Section run.
Context {L : Layout}.
Import StreamShared.

Definition sa_poll (f : Z) (on : StreamWait.t) (waker : Z) (w : SWorld.t) : SWorld.t :=
  match w.(SWorld.slots) !! f with
  | None => w
  | Some slot =>
      let '(result, waiter, wakes, self) := poll on slot.(SSlot.waiter) waker w.(SWorld.shared) in
      let woken := w.(SWorld.woken) ++ wakes in
      let polled := match result with None => Some (on, waker, length woken) | Some _ => None end in
      SWorld.mk self (<[f := SSlot.mk waiter polled]> w.(SWorld.slots)) woken
  end.
Definition after (w : SWorld.t) (r : list Z * StreamShared.t) : SWorld.t :=
  SWorld.mk r.2 w.(SWorld.slots) (w.(SWorld.woken) ++ r.1).
Definition sa_step (s : SAStep.t) (w : SWorld.t) : SWorld.t :=
  let self := w.(SWorld.shared) in
  match s with
  | SAStep.Calls o => let '(_, wakes, self) := change (fun m => (tt, step o m)) self in after w (wakes, self)
  | SAStep.Looks => let '(_, wakes, self) := change (fun m => (tt, m)) self in after w (wakes, self)
  | SAStep.Starts f dispatcher =>
      if is_some (w.(SWorld.slots) !! f) then w
      else SWorld.mk self (<[f := SSlot.mk (Waiter.mk None dispatcher) None]> w.(SWorld.slots)) w.(SWorld.woken)
  | SAStep.Polls f on waker => sa_poll f on waker w
  | SAStep.Drops f =>
      match w.(SWorld.slots) !! f with
      | Some slot => SWorld.mk (drop_waiter slot.(SSlot.waiter) self) (delete f w.(SWorld.slots)) w.(SWorld.woken)
      | None => w
      end
  | SAStep.ClonesStream => if 0 <? self.(owners) then after w ([], self <| owners := usize_add self.(owners) 1 |>) else w
  | SAStep.DropsStream => if 0 <? self.(owners) then after w (drop_stream self) else w
  end.
Definition sa_run (steps : list SAStep.t) (w : SWorld.t) : SWorld.t := foldl (fun w s => sa_step s w) w steps.
Definition sa_start (self : StreamShared.t) : SWorld.t := SWorld.mk self ∅ [].

(** ** The invariant *)

Definition waits (slots : gmap Z SSlot.t) (m : Stream.t) (woken : list Z) (id : Z) (r : Registration.t) : Prop :=
  exists f slot on since, slots !! f = Some slot /\ slot.(SSlot.waiter) = Waiter.mk (Some id) r.(Registration.dispatcher)
    /\ slot.(SSlot.polled) = Some (on, r.(Registration.waker), since) /\ (since <= length woken)%nat
    /\ (r.(Registration.waker) ∈ drop since woken \/ blocked on m).
Record sgood (w : SWorld.t) : Prop := {
  sg_revision : 0 <= w.(SWorld.shared).(machine).(revision) <= U64_MAX;
  sg_serial : 0 <= w.(SWorld.shared).(serial) <= U64_MAX;
  sg_id : forall f slot id, w.(SWorld.slots) !! f = Some slot -> slot.(SSlot.waiter).(Waiter.id) = Some id ->
    id <= w.(SWorld.shared).(serial) /\ is_Some (w.(SWorld.shared).(waiters) !! id);
  sg_inj : forall f f' slot slot' id, w.(SWorld.slots) !! f = Some slot -> w.(SWorld.slots) !! f' = Some slot' ->
    slot.(SSlot.waiter).(Waiter.id) = Some id -> slot'.(SSlot.waiter).(Waiter.id) = Some id -> f = f';
  sg_polled : forall f slot, w.(SWorld.slots) !! f = Some slot -> is_Some slot.(SSlot.polled) -> is_Some slot.(SSlot.waiter).(Waiter.id);
  sg_waits : forall id r, w.(SWorld.shared).(waiters) !! id = Some r ->
    waits w.(SWorld.slots) w.(SWorld.shared).(machine) w.(SWorld.woken) id r;
  sg_room : forall dispatcher, occupied dispatcher w.(SWorld.shared) <= Z.max 0 (limit dispatcher w.(SWorld.shared));
}.

Lemma elem_of_wakes before except self waker : waker ∈ wakes before except self <->
  (before =? revision (machine self)) = false
  /\ exists id r, waiters self !! id = Some r /\ Some id <> except /\ r.(Registration.waker) = waker.
Proof.
  unfold wakes. destruct (before =? _) eqn:Hb; cbn.
  { split; [by intros ?%elem_of_nil|by intros [? _]]. }
  rewrite list_elem_of_fmap. split.
  - intros ([id r] & -> & Hin). apply elem_of_keep in Hin as [Hk Hin]. apply elem_of_entries in Hin. cbn in *. split; [done|].
    exists id, r. split_and!; try done. intros He. by rewrite bool_decide_true in Hk.
  - intros (_ & id & r & Hr & Hne & <-). exists (id, r). split; [done|]. apply elem_of_keep. cbn. rewrite bool_decide_false by done.
    split; [done|]. by apply elem_of_entries.
Qed.

(** A waiter that a change of the machine does not concern, or wakes. *)
Lemma waits_on slots m m' woken wk id r : 0 <= m.(revision) <= U64_MAX -> stirs m m' -> waits slots m woken id r ->
  ((revision m =? revision m') = false -> r.(Registration.waker) ∈ wk) -> waits slots m' (woken ++ wk) id r.
Proof.
  intros Hr Hs (f & slot & on & since & J1 & J2 & J3 & J4 & J5) Hw. exists f, slot, on, since. split_and!; try done.
  - rewrite length_app. lia.
  - rewrite drop_app_le by done. destruct (revision m =? revision m') eqn:He.
    + destruct J5 as [J5|J5]; [left; apply elem_of_app; by left|]. right. by apply (stirs_revision m).
    + left. apply elem_of_app. right. by apply Hw.
Qed.

Lemma sgood_put w f slot m' ws serial' ow slot' wk : sgood w -> w.(SWorld.slots) !! f = Some slot ->
  stirs w.(SWorld.shared).(machine) m' -> w.(SWorld.shared).(serial) <= serial' <= U64_MAX ->
  match slot'.(SSlot.waiter).(Waiter.id) with
  | Some id => id <= serial' /\ (slot.(SSlot.waiter).(Waiter.id) = Some id \/ w.(SWorld.shared).(serial) < id)
      /\ exists on waker, ws !! id = Some (Registration.mk waker slot'.(SSlot.waiter).(Waiter.dispatcher))
           /\ slot'.(SSlot.polled) = Some (on, waker, length (w.(SWorld.woken) ++ wk)) /\ blocked on m'
  | None => slot'.(SSlot.polled) = None
  end ->
  (forall id r, Some id <> slot'.(SSlot.waiter).(Waiter.id) ->
     ws !! id = Some r <-> w.(SWorld.shared).(waiters) !! id = Some r /\ slot.(SSlot.waiter).(Waiter.id) <> Some id) ->
  (forall id r, ws !! id = Some r -> Some id <> slot'.(SSlot.waiter).(Waiter.id) ->
     (revision w.(SWorld.shared).(machine) =? revision m') = false -> r.(Registration.waker) ∈ wk) ->
  (forall d, count_values (fun r => Bool.eqb r.(Registration.dispatcher) d) ws <= Z.max 0 (limit d w.(SWorld.shared))) ->
  sgood (SWorld.mk (StreamShared.mk m' ws serial' ow) (<[f := slot']> w.(SWorld.slots)) (w.(SWorld.woken) ++ wk)).
Proof.
  intros [G1 G2 G3 G4 G5 G6 G7] Hf Hs Hser Hown Hws Hwk Hroom.
  assert (Hold : forall f0 s0 id, SWorld.slots w !! f0 = Some s0 -> f0 <> f -> s0.(SSlot.waiter).(Waiter.id) = Some id ->
    Some id <> slot'.(SSlot.waiter).(Waiter.id)).
  { intros f0 s0 id H0 Hne Hid Heq. destruct (G3 f0 s0 id H0 Hid) as [Hle _]. rewrite <- Heq in Hown. destruct Hown as (_ & [Hi|Hi] & _); [|lia].
    apply Hne. by apply (G4 f0 f s0 slot id). }
  split; cbn [SWorld.shared SWorld.slots SWorld.woken machine waiters serial owners].
  - by apply (stirs_range _ _ G1 Hs).
  - lia.
  - intros f0 s0 id H0 Hid. apply lookup_insert_Some in H0 as [[<- <-]|[Hne H0]].
    + rewrite Hid in Hown. destruct Hown as (H1 & _ & on & waker & H2 & _). split; [done|]. by eexists.
    + destruct (G3 f0 s0 id H0 Hid) as [H1 [r Hr]]. split; [lia|]. exists r. apply Hws; [by eapply Hold|]. split; [done|]. intros Hi. apply Hne.
      by apply (G4 f f0 slot s0 id).
  - intros f1 f2 s1 s2 id H1 H2 I1 I2. apply lookup_insert_Some in H1 as [[<- <-]|[N1 H1]], H2 as [[<- <-]|[N2 H2]]; [done|..].
    + by destruct (Hold f2 s2 id H2 (not_eq_sym N2) I2).
    + by destruct (Hold f1 s1 id H1 (not_eq_sym N1) I1).
    + by apply (G4 f1 f2 s1 s2 id).
  - intros f0 s0 H0 Hp. apply lookup_insert_Some in H0 as [[<- <-]|[Hne H0]]; [|by apply (G5 f0)].
    destruct (Waiter.id (SSlot.waiter slot')); [by eexists|]. rewrite Hown in Hp. by destruct Hp.
  - intros id r Hr. destruct (decide (Some id = slot'.(SSlot.waiter).(Waiter.id))) as [Hid|Hid].
    + rewrite <- Hid in Hown. destruct Hown as (_ & _ & on & waker & H2 & H3 & H4). rewrite Hr in H2. injection H2 as ->.
      exists f, slot', on, (length (SWorld.woken w ++ wk)). rewrite lookup_insert_eq. split_and!; try done; [|by right].
      rewrite Hid. by destruct (SSlot.waiter slot').
    + pose proof Hr as Hr'. apply Hws in Hr as [Hr Hn]; [|done].
      destruct (waits_on _ _ m' _ wk id r G1 Hs (G6 id r Hr) (Hwk id r Hr' Hid)) as (f0 & s0 & on & since & J1 & J2 & J3 & J4 & J5).
      exists f0, s0, on, since. split_and!; try done. rewrite lookup_insert_ne; [done|]. intros <-. apply Hn. assert (s0 = slot) as -> by congruence. by rewrite J2.
  - intros d. unfold occupied, limit in *. cbn. rewrite (stirs_config _ _ Hs). apply Hroom.
Qed.

Lemma sgood_change w m' ow : sgood w -> stirs w.(SWorld.shared).(machine) m' ->
  sgood (let self := w.(SWorld.shared) <| machine := m' |> <| owners := ow |> in
         after w (wakes (revision w.(SWorld.shared).(machine)) None self, self)).
Proof.
  intros [G1 G2 G3 G4 G5 G6 G7] Hs. cbn zeta. split; cbn; try done.
  - by apply (stirs_range _ _ G1 Hs).
  - intros id r Hr. apply (waits_on _ (machine (SWorld.shared w))); [done|done|by apply G6|]. intros He. apply elem_of_wakes. split; [exact He|]. exists id, r. by split_and!.
  - intros d. unfold occupied, limit in *. cbn. rewrite (stirs_config _ _ Hs). apply G7.
Qed.

Lemma sgood_ready w f slot m' : sgood w -> w.(SWorld.slots) !! f = Some slot -> stirs w.(SWorld.shared).(machine) m' ->
  let self := drop_waiter slot.(SSlot.waiter) (w.(SWorld.shared) <| machine := m' |>) in
  sgood (SWorld.mk self (<[f := SSlot.mk (Waiter.mk None slot.(SSlot.waiter).(Waiter.dispatcher)) None]> w.(SWorld.slots))
          (w.(SWorld.woken) ++ wakes (revision w.(SWorld.shared).(machine)) None self)).
Proof.
  intros Hg Hf Hs self. set (ws := match Waiter.id (SSlot.waiter slot) with Some id => delete id (waiters (SWorld.shared w)) | None => waiters (SWorld.shared w) end).
  assert (Hself : self = StreamShared.mk m' ws (serial (SWorld.shared w)) (owners (SWorld.shared w))).
  { unfold self, ws, drop_waiter. by destruct (Waiter.id (SSlot.waiter slot)). }
  rewrite Hself. pose proof Hg as [G1 G2 G3 G4 G5 G6 G7]. apply (sgood_put w f slot); try done.
  - lia.
  - intros id r _. unfold ws. destruct (Waiter.id (SSlot.waiter slot)) as [k|]; [rewrite lookup_delete_Some|]; split; intuition congruence.
  - intros id r Hr _ He. apply elem_of_wakes. split; [exact He|]. exists id, r. by split_and!.
  - intros d. specialize (G7 d). unfold occupied in G7. unfold ws. destruct (Waiter.id (SSlot.waiter slot)) as [k|]; [|done].
    etrans; [apply count_delete_le|done].
Qed.

Lemma sgood_pending w f slot m' on waker id serial' : sgood w -> w.(SWorld.slots) !! f = Some slot -> stirs w.(SWorld.shared).(machine) m' ->
  blocked on m' -> let d := slot.(SSlot.waiter).(Waiter.dispatcher) in
  (slot.(SSlot.waiter).(Waiter.id) = Some id /\ serial' = w.(SWorld.shared).(serial)
   \/ slot.(SSlot.waiter).(Waiter.id) = None /\ id = w.(SWorld.shared).(serial) + 1 /\ serial' = id /\ id <= U64_MAX
      /\ occupied d w.(SWorld.shared) < limit d w.(SWorld.shared)) ->
  let self := StreamShared.mk m' (<[id := Registration.mk waker d]> w.(SWorld.shared).(waiters)) serial' w.(SWorld.shared).(owners) in
  let woken := w.(SWorld.woken) ++ wakes (revision w.(SWorld.shared).(machine)) (Some id) self in
  sgood (SWorld.mk self (<[f := SSlot.mk (Waiter.mk (Some id) d) (Some (on, waker, length woken))]> w.(SWorld.slots)) woken).
Proof.
  intros Hg Hf Hs Hb d Hid self woken. pose proof Hg as [G1 G2 G3 G4 G5 G6 G7].
  assert (Hd : slot.(SSlot.waiter).(Waiter.id) = Some id -> exists wk0, waiters (SWorld.shared w) !! id = Some (Registration.mk wk0 d)).
  { intros Hi. destruct (G3 f slot id Hf Hi) as [_ [[wk0 d0] Hr]]. exists wk0. destruct (G6 id _ Hr) as (f0 & s0 & on0 & since & J1 & J2 & _).
    assert (f0 = f) as -> by (apply (G4 f0 f s0 slot id); try done; by rewrite J2). assert (s0 = slot) as -> by congruence. unfold d. by rewrite Hr, J2. }
  assert (Hfresh : slot.(SSlot.waiter).(Waiter.id) = None -> id = serial (SWorld.shared w) + 1 -> waiters (SWorld.shared w) !! id = None).
  { intros _ ->. destruct (waiters (SWorld.shared w) !! _) as [r|] eqn:Hr; [|done]. destruct (G6 _ r Hr) as (f0 & s0 & on0 & since & J1 & J2 & _).
    assert (Hx : s0.(SSlot.waiter).(Waiter.id) = Some (serial (SWorld.shared w) + 1)) by (by rewrite J2). destruct (G3 f0 s0 _ J1 Hx). lia. }
  apply (sgood_put w f slot); try done.
  - destruct Hid as [[_ ->]|(_ & -> & -> & ? & _)]; lia.
  - cbn. split; [|split].
    + destruct Hid as [[Hi ->]|(_ & -> & -> & ? & _)]; [|lia]. by destruct (G3 f slot id Hf Hi).
    + destruct Hid as [[Hi _]|(_ & -> & _)]; [by left|right; lia].
    + exists on, waker. rewrite lookup_insert_eq. by split_and!.
  - intros i r Hne. cbn in Hne. rewrite lookup_insert_ne by congruence. split; [|by intros [? _]]. intros Hr. split; [done|].
    destruct Hid as [[Hi _]|(Hi & _)]; rewrite Hi; [congruence|done].
  - intros i r Hr Hne He. apply elem_of_wakes. split; [exact He|]. exists i, r. by split_and!.
  - intros d0. specialize (G7 d0) as G7'. unfold occupied in G7'. destruct Hid as [[Hi _]|(Hi & He & _ & _ & Ho)].
    + destruct (Hd Hi) as [wk0 Hr]. etrans; [apply (count_update_le _ _ _ _ _ Hr); done|done].
    + rewrite (count_new _ _ _ _ (Hfresh Hi He)). unfold one_if. cbn. unfold occupied in Ho. destruct (Bool.eqb d d0) eqn:Ed; [|lia].
      apply Bool.eqb_prop in Ed as <-. lia.
Qed.

Lemma sgood_poll f on waker w : sgood w -> sgood (sa_poll f on waker w).
Proof.
  intros Hg. unfold sa_poll. destruct (SWorld.slots w !! f) as [slot|] eqn:Hf; [|done]. unfold poll.
  pose proof (stirs_action on (machine (SWorld.shared w))) as Hs. pose proof (blocked_again on (machine (SWorld.shared w))) as Hb. unfold blocked at 1 in Hb.
  destruct (action on (machine (SWorld.shared w))) as [answer m'] eqn:Ha. cbn [fst snd] in Hs, Hb.
  pose proof (sgood_ready w f slot m' Hg Hf Hs) as Hready. unfold drop_waiter in Hready. cbn zeta in Hready.
  destruct answer as [v|e]; [exact Hready|]. destruct e; try exact Hready. specialize (Hb eq_refl). clear Hready. unfold enrol.
  destruct (Waiter.id (SSlot.waiter slot)) as [id|] eqn:Hid.
  - exact (sgood_pending w f slot m' on waker id _ Hg Hf Hs Hb (or_introl (conj Hid eq_refl))).
  - destruct (_ || _) eqn:Hc.
    + pose proof (sgood_ready w f slot m' Hg Hf Hs) as Hready. unfold drop_waiter in Hready. rewrite Hid in Hready. exact Hready.
    + apply orb_false_iff in Hc as [H1 H2]. apply Z.leb_gt in H1. apply Z.eqb_neq in H2. pose proof (sg_serial _ Hg) as Hser. cbn in H2.
      assert (H3 : occupied (Waiter.dispatcher (SSlot.waiter slot)) (SWorld.shared w) < limit (Waiter.dispatcher (SSlot.waiter slot)) (SWorld.shared w)).
      { unfold occupied, limit in *. cbn in H1. by rewrite (stirs_config _ _ Hs) in H1. }
      assert (H4 : serial (SWorld.shared w) + 1 <= U64_MAX) by lia.
      exact (sgood_pending w f slot m' on waker _ _ Hg Hf Hs Hb (or_intror (conj Hid (conj eq_refl (conj eq_refl (conj H4 H3)))))).
Qed.

Lemma sgood_drop w f slot : sgood w -> w.(SWorld.slots) !! f = Some slot ->
  sgood (SWorld.mk (drop_waiter slot.(SSlot.waiter) w.(SWorld.shared)) (delete f w.(SWorld.slots)) w.(SWorld.woken)).
Proof.
  intros [G1 G2 G3 G4 G5 G6 G7] Hf. set (sh := SWorld.shared w) in *.
  assert (Hw : forall id r, waiters (drop_waiter (SSlot.waiter slot) sh) !! id = Some r <-> waiters sh !! id = Some r /\ slot.(SSlot.waiter).(Waiter.id) <> Some id).
  { intros id r. unfold drop_waiter. destruct (Waiter.id (SSlot.waiter slot)) as [k|]; cbn; [rewrite lookup_delete_Some|]; split; intuition congruence. }
  assert (Hc : forall d, occupied d (drop_waiter (SSlot.waiter slot) sh) <= Z.max 0 (limit d (drop_waiter (SSlot.waiter slot) sh))).
  { intros d. specialize (G7 d). unfold occupied, drop_waiter in *. destruct (Waiter.id (SSlot.waiter slot)); [|done]. cbn. etrans; [apply count_delete_le|done]. }
  assert (Hsh : machine (drop_waiter (SSlot.waiter slot) sh) = machine sh /\ serial (drop_waiter (SSlot.waiter slot) sh) = serial sh)
    by (unfold drop_waiter; by destruct (Waiter.id (SSlot.waiter slot))).
  revert Hw Hc Hsh. generalize (drop_waiter (SSlot.waiter slot) sh). intros sh' Hw Hc [S1 S2].
  assert (Hin : forall f' s', delete f (SWorld.slots w) !! f' = Some s' -> f' <> f /\ SWorld.slots w !! f' = Some s').
  { intros f' s' H. apply lookup_delete_Some in H as [? ?]. by split. }
  split; cbn [SWorld.shared SWorld.slots SWorld.woken]; rewrite ?S1, ?S2; try done.
  - intros f' s' id H1 H2. destruct (Hin _ _ H1) as [Hne H1']. destruct (G3 f' s' id H1' H2) as [H3 [r Hr]]. split; [done|]. exists r. apply Hw.
    split; [done|]. intros Hi. apply Hne. by apply (G4 f' f s' slot id).
  - intros f1 f2 s1 s2 id H1 H2. destruct (Hin _ _ H1) as [_ ?], (Hin _ _ H2) as [_ ?]. by apply (G4 f1 f2 s1 s2 id).
  - intros f' s' H1. destruct (Hin _ _ H1) as [_ ?]. by apply (G5 f').
  - intros id r Hr. apply Hw in Hr as [Hr Hne]. destruct (G6 id r Hr) as (f' & s' & on & since & J1 & J2 & J3 & J4 & J5). exists f', s', on, since.
    split_and!; try done. rewrite lookup_delete_ne; [done|]. intros <-. apply Hne. assert (s' = slot) as -> by congruence. by rewrite J2.
Qed.

Lemma sgood_step s w : sgood w -> sgood (sa_step s w).
Proof.
  intros Hg. assert (Hsame : forall ow, sgood (after w ([], w.(SWorld.shared) <| owners := ow |>))).
  { intros ow. destruct Hg as [G1 G2 G3 G4 G5 G6 G7]. unfold after. cbn [fst snd]. rewrite app_nil_r. by split. }
  destruct s; cbn [sa_step].
  - pose proof (sgood_change w (step o (machine (SWorld.shared w))) (owners (SWorld.shared w)) Hg (stirs_step o _)) as H. exact H.
  - pose proof (sgood_change w (machine (SWorld.shared w)) (owners (SWorld.shared w)) Hg (stirs_refl _)) as H. exact H.
  - destruct (SWorld.slots w !! slot) as [s|] eqn:Hf; [done|]. cbn [is_some]. destruct Hg as [G1 G2 G3 G4 G5 G6 G7].
    split; cbn [SWorld.shared SWorld.slots SWorld.woken]; try done.
    + intros f' s' id H1 H2. apply lookup_insert_Some in H1 as [[<- <-]|[_ H1]]; [done|by eapply G3].
    + intros f1 f2 s1 s2 id H1 H2 I1 I2. apply lookup_insert_Some in H1 as [[<- <-]|[_ H1]]; [done|].
      apply lookup_insert_Some in H2 as [[<- <-]|[_ H2]]; [done|by eapply G4].
    + intros f' s' H1 H2. apply lookup_insert_Some in H1 as [[<- <-]|[_ H1]]; [by destruct H2|by eapply G5].
    + intros id r Hr. destruct (G6 id r Hr) as (f' & s' & on & since & J1 & J2 & J3 & J4 & J5). exists f', s', on, since.
      split_and!; try done. rewrite lookup_insert_ne; [done|]. intros <-. congruence.
  - by apply sgood_poll.
  - destruct (SWorld.slots w !! slot) as [s|] eqn:Hf; [|done]. by apply sgood_drop.
  - destruct (0 <? _); [apply Hsame|done].
  - destruct (0 <? _); [|done]. unfold drop_stream. destruct (_ =? 1); [|apply Hsame].
    exact (sgood_change w (cancel (machine (SWorld.shared w))) _ Hg (stirs_fail _ _ _)).
Qed.

Lemma sgood_run c self steps : StreamShared.new c = Ok self -> sgood (sa_run steps (sa_start self)).
Proof.
  intros Hn. assert (H0 : sgood (sa_start self)).
  { unfold StreamShared.new in Hn. destruct (Stream.new c) as [m|] eqn:Hm; [|done]. injection Hn as <-.
    unfold Stream.new in Hm. destruct (Config.validate c); [|done]. injection Hm as <-. split; cbn; try done; try lia.
    intros d. unfold occupied, count_values, values. cbn. rewrite entries_empty. cbn. lia. }
  unfold sa_run. revert H0. generalize (sa_start self). induction steps as [|s steps IH]; intros w Hg; [done|]. cbn. by apply IH, sgood_step.
Qed.

(** C23: No slot that waits on a shared stream sleeps when it could go on.  In every
    interleaving of calls, polls and drops, a slot whose last poll was pending has been
    woken since by the waker of that poll, or a poll for the same would still find
    nothing.  The readers, writers and closers waiting are within [max_waiters], the
    dispatcher is alone, and every entry of the table is that of a slot that waits. *)
Theorem stream_no_lost_wakeup c self steps : StreamShared.new c = Ok self ->
  let w := sa_run steps (sa_start self) in
  (forall f slot on waker since, w.(SWorld.slots) !! f = Some slot -> slot.(SSlot.polled) = Some (on, waker, since) ->
     waker ∈ drop since w.(SWorld.woken) \/ (action on w.(SWorld.shared).(machine)).1 = Err StreamError.WouldBlock)
  /\ (forall dispatcher, occupied dispatcher w.(SWorld.shared) <= Z.max 0 (limit dispatcher w.(SWorld.shared)))
  /\ forall id, is_Some (w.(SWorld.shared).(waiters) !! id) -> exists f slot, w.(SWorld.slots) !! f = Some slot
       /\ slot.(SSlot.waiter).(Waiter.id) = Some id /\ is_Some slot.(SSlot.polled).
Proof.
  intros Hn w. pose proof (sgood_run c self steps Hn) as Hg. fold w in Hg. clearbody w. destruct Hg as [G1 G2 G3 G4 G5 G6 G7]. split_and!; [|done|].
  - intros f slot on waker since Hf Hp. destruct (G5 f slot Hf) as [id Hid]; [by eexists|]. destruct (G3 f slot id Hf Hid) as [_ [r Hr]].
    destruct (G6 id r Hr) as (f' & s' & on' & sn & J1 & J2 & J3 & J4 & J5). assert (f' = f) as -> by (apply (G4 f' f s' slot id); try done; by rewrite J2).
    assert (s' = slot) as -> by congruence. rewrite Hp in J3. by injection J3 as -> -> ->.
  - intros id [r Hr]. destruct (G6 id r Hr) as (f' & s' & on' & sn & J1 & J2 & J3 & _). exists f', s'. split_and!; [done|by rewrite J2|by rewrite J3].
Qed.
End run.

(** ** A run *)

#[local] Existing Instance layout64.
Definition plain_shared : StreamShared.t := StreamShared.mk plain_machine ∅ 0 1.
(** A reader waits, then the dispatcher; the write wakes them both. *)
Definition stream_steps : list SAStep.t :=
  [SAStep.Starts 1 false; SAStep.Polls 1 (StreamWait.Read 10) 7; SAStep.Starts 2 true; SAStep.Polls 2 StreamWait.NextMessage 8;
   SAStep.Calls (Write [x61]); SAStep.Calls EndWrite; SAStep.Polls 2 StreamWait.NextMessage 9].
Definition stream_world : SWorld.t := sa_run stream_steps (sa_start plain_shared).

Example stream_woken : stream_world.(SWorld.woken) = [7; 8; 7; 8; 7].
Proof. vm_compute. reflexivity. Qed.
Lemma stream_no_lost_wakeup_witness : exists slot, stream_world.(SWorld.slots) !! 1 = Some slot
  /\ slot.(SSlot.polled) = Some (StreamWait.Read 10, 7, 0%nat)
  /\ (7 ∈ drop 0 stream_world.(SWorld.woken)
      \/ (StreamShared.action (StreamWait.Read 10) stream_world.(SWorld.shared).(StreamShared.machine)).1 = Err StreamError.WouldBlock).
Proof.
  exists (SSlot.mk (StreamShared.Waiter.mk (Some 1) false) (Some (StreamWait.Read 10, 7, 0%nat))). split; [vm_compute; reflexivity|]. split; [reflexivity|].
  destruct (stream_no_lost_wakeup plain_config plain_shared stream_steps) as [H _]; [vm_compute; reflexivity|].
  apply (H 1 (SSlot.mk (StreamShared.Waiter.mk (Some 1) false) (Some (StreamWait.Read 10, 7, 0%nat)))); [vm_compute; reflexivity|reflexivity].
Defined.
