(* ===== verification/Sequenced.v ===== *)
(** * The sequenced profile (src/src/sequenced.rs)

    [Outbound] numbers one direction's messages per stream as they enter a
    bounded queue; [Receiver] puts one direction's messages back in order under
    reorder and memory bounds and applies each once.  The host's apply callback
    is the parameter [apply]; it threads the host's own state. *)
From S2P Require Import Prelude Utf8 Cbor Protocol Budget Admission Policy Validate Codec Binding.

Definition MAX_LIFETIME_STREAMS : Z := 4096.
Definition MAX_ACTIVE_STREAMS : Z := 64.
Definition MAX_REORDER_PER_STREAM : Z := 8.
Definition MAX_REORDER_PER_BINDING : Z := 32.
Definition GAP_TIMEOUT_MS : Z := 30000.

Module Direction.
Inductive t := Initiator | Endpoint.
#[global] Instance eq_dec : EqDecision t.
Proof. solve_decision. Defined.
End Direction.

Module ApplyError.
Inductive t := WouldBlock | Rejected.
End ApplyError.

Module Status.
Inductive t := Buffered | Applied | Superseded | AlreadyResolved.
#[global] Instance eq_dec : EqDecision t.
Proof. solve_decision. Defined.
End Status.

Module Resolution.
Record t := mk {
  stream_id : Z;
  message_seq : Z;
  status : Status.t;
}.
End Resolution.

Module Report.
Record t := mk {
  submitted : Status.t;
  resolved : list Resolution.t;
}.
End Report.

Definition first_kind (direction : Direction.t) (kind : MessageKind.t) : bool :=
  match direction with
  | Direction.Initiator =>
      match kind with MessageKind.Open | MessageKind.CheckIdentity => true | _ => false end
  | Direction.Endpoint =>
      match kind with
      | MessageKind.Opened | MessageKind.OpenFailed | MessageKind.IdentityChecked
      | MessageKind.IdentityCheckFailed | MessageKind.Failed => true
      | _ => false
      end
  end.

Definition abortive (kind : MessageKind.t) : bool :=
  match kind with
  | MessageKind.OpenFailed | MessageKind.IdentityCheckFailed | MessageKind.Failed | MessageKind.Cancel => true
  | _ => false
  end.

Definition sender_final (kind : MessageKind.t) : bool :=
  abortive kind || match kind with MessageKind.Closed | MessageKind.IdentityChecked => true | _ => false end.

(** ** Outbound *)

Module Outbound.
Record t := mk {
  session_id : string;
  direction : Direction.t;
  limits : Limits.t;
  max_queued : Z;
  queue : list (Envelope.t * Z);
  queued_charge : Z;
  next : gmap Z Z;
  ended : gmap Z bool;
  close_sent : gset Z;
}.
#[global] Instance eta : Eta t :=
  fun r => mk (r.(session_id)) (r.(direction)) (r.(limits)) (r.(max_queued)) (r.(queue)) (r.(queued_charge))
    (r.(next)) (r.(ended)) (r.(close_sent)).
End Outbound.

(** ** Receiver *)

Module Pending.
Record t := mk {
  message : Envelope.t;
  charge : Z;
}.
End Pending.

Module StreamState.
Record t := mk {
  expected : Z;
  pending : gmap Z Pending.t;
  gap_since : option Z;
  opening : option Envelope.t;
  terminal : option (Z * Envelope.t);
}.
#[global] Instance eta : Eta t :=
  fun r => mk (r.(expected)) (r.(pending)) (r.(gap_since)) (r.(opening)) (r.(terminal)).
Definition new : t := mk 1 ∅ None None None.
End StreamState.

Module Receiver.
Record t := mk {
  session_id : string;
  direction : Direction.t;
  limits : Limits.t;
  streams : gmap Z StreamState.t;
  buffered_frames : Z;
  buffered_charge : Z;
  retained_charge : Z;
  failed : bool;
}.
#[global] Instance eta : Eta t :=
  fun r => mk (r.(session_id)) (r.(direction)) (r.(limits)) (r.(streams)) (r.(buffered_frames))
    (r.(buffered_charge)) (r.(retained_charge)) (r.(failed)).
End Receiver.

Section sequenced.
Context {L : Layout}.

Definition charge (message : Envelope.t) (limits : Limits.t) : result Z SequencedError.t :=
  map_err (fun _ => SequencedError.InvalidMessage) (Codec.allocation_charge message limits).

Definition map_len {V} (m : gmap Z V) : Z := Z.of_nat (size m).

(** *** Sending *)

Definition outbound_new (session_id : string) (direction : Direction.t) (limits : Limits.t) (max_queued : Z)
    : result Outbound.t SequencedError.t :=
  try _ := valid_limits limits in
  try _ := refuse (str_is_empty session_id || (max_queued =? 0)
                   || (as_usize (i64_sub limits.(Limits.queued_frames) limits.(Limits.control_reserve_frames))
                       <? max_queued)) SequencedError.Capacity in
  Ok (Outbound.mk session_id direction limits max_queued [] 0 ∅ ∅ ∅).

Definition enqueue (message : Envelope.t) (self : Outbound.t) : result Z SequencedError.t * Outbound.t :=
  let stream_id := message.(Envelope.stream_id) in
  let kind := message.(Envelope.kind) in
  if negb (bool_decide (message.(Envelope.session_id) = self.(Outbound.session_id)))
  then (Err SequencedError.WrongSession, self)
  else if negb (message.(Envelope.version) =? 3) || (stream_id <=? 0) || is_some message.(Envelope.message_seq)
  then (Err SequencedError.InvalidMessage, self)
  else if is_some (self.(Outbound.ended) !! stream_id) then (Err SequencedError.Closed, self)
  else if bool_decide (stream_id ∈ self.(Outbound.close_sent))
          && negb (match kind with
                   | MessageKind.Window | MessageKind.Flushed | MessageKind.Cancel | MessageKind.Failed => true
                   | _ => false end)
  then (Err SequencedError.Protocol, self)
  else
    let new_stream := is_none (self.(Outbound.next) !! stream_id) in
    if new_stream && (MAX_LIFETIME_STREAMS <=? map_len self.(Outbound.next))
    then (Err SequencedError.Capacity, self)
    else if new_stream
            && (MAX_ACTIVE_STREAMS <=? saturating_sub_u64 (map_len self.(Outbound.next)) (map_len self.(Outbound.ended)))
    then (Err SequencedError.Capacity, self)
    else if new_stream && negb (first_kind self.(Outbound.direction) kind)
    then (Err SequencedError.Protocol, self)
    else
      let sequence := unwrap_or (self.(Outbound.next) !! stream_id) 1 in
      try next' := ok_or (checked_add_i64 sequence 1) SequencedError.Capacity at self in
      let message := message <| Envelope.message_seq := Some sequence |> in
      try base := charge message self.(Outbound.limits) at self in
      let frame_charge := saturating_add_u64 base FRAME_OVERHEAD in
      let control := negb (bool_decide (kind = MessageKind.Data)) in
      let limits := self.(Outbound.limits) in
      let frame_limit := usize_add self.(Outbound.max_queued)
        (if control then as_usize limits.(Limits.control_reserve_frames) else 0) in
      let byte_limit := as_usize (i64_sub limits.(Limits.queued_bytes)
        (if control then 0 else limits.(Limits.control_reserve_bytes))) in
      if (frame_limit <=? len self.(Outbound.queue))
         || (byte_limit <? saturating_add_u64 self.(Outbound.queued_charge) frame_charge)
      then (Err SequencedError.WouldBlock, self)
      else
        let self := self
          <| Outbound.queued_charge := usize_add self.(Outbound.queued_charge) frame_charge |>
          <| Outbound.queue := self.(Outbound.queue) ++ [(message, frame_charge)] |>
          <| Outbound.next := <[stream_id := next']> self.(Outbound.next) |> in
        let self := if bool_decide (kind = MessageKind.Close)
          then self <| Outbound.close_sent := {[stream_id]} ∪ self.(Outbound.close_sent) |> else self in
        let self := if sender_final kind
          then self <| Outbound.ended := <[stream_id := true]> self.(Outbound.ended) |> else self in
        (Ok sequence, self).

Definition pop (self : Outbound.t) : option Envelope.t * Outbound.t :=
  match self.(Outbound.queue) with
  | [] => (None, self)
  | (message, charge) :: queue =>
      (Some message, self <| Outbound.queue := queue |>
                          <| Outbound.queued_charge := usize_sub self.(Outbound.queued_charge) charge |>)
  end.

(** *** Accounting *)

Definition available_bytes (self : Receiver.t) : Z :=
  as_usize (i64_sub self.(Receiver.limits).(Limits.queued_bytes) self.(Receiver.limits).(Limits.control_reserve_bytes)).

Definition predecessor_reserve (self : Receiver.t) : Z :=
  usize_add (as_usize (i64_add self.(Receiver.limits).(Limits.encoded_frame)
                         self.(Receiver.limits).(Limits.decode_allocation))) FRAME_OVERHEAD.

Definition records (self : Receiver.t) : Z :=
  saturating_mul_u64 (saturating_add_u64 (map_len self.(Receiver.streams)) 1) RECORD_CHARGE.

Definition check_retain (charge releasing : Z) (self : Receiver.t) : result unit SequencedError.t :=
  let required := saturating_add_u64 (saturating_add_u64
    (saturating_add_u64 (records self) self.(Receiver.retained_charge))
    (saturating_sub_u64 self.(Receiver.buffered_charge) releasing)) charge in
  refuse (available_bytes self <? required) SequencedError.WouldBlock.

Definition uncharge (charge : Z) (self : Receiver.t) : Receiver.t :=
  self <| Receiver.buffered_frames := usize_sub self.(Receiver.buffered_frames) 1 |>
       <| Receiver.buffered_charge := usize_sub self.(Receiver.buffered_charge) charge |>.

(** [message.message_seq.unwrap()]: messages reach the places that unwrap it
    only from [submit], which has checked that it is there. *)
Definition seq_of (message : Envelope.t) : Z := unwrap_or message.(Envelope.message_seq) 0.

Definition buffer (state : StreamState.t) (message : Envelope.t) (charge now_ms : Z) (out_of_order : bool)
    (self : Receiver.t) : result unit SequencedError.t * (StreamState.t * Receiver.t) :=
  let out_of_order_count :=
    len (filter (fun sequence => state.(StreamState.expected) < sequence) (keys state.(StreamState.pending))) in
  if out_of_order
     && ((MAX_REORDER_PER_STREAM <=? out_of_order_count)
         || (MAX_REORDER_PER_BINDING <=? self.(Receiver.buffered_frames)))
  then (Err SequencedError.WouldBlock, (state, self))
  else
    let reserve := if out_of_order then predecessor_reserve self else 0 in
    if (available_bytes self <?
          saturating_add_u64 (saturating_add_u64 (saturating_add_u64
            (saturating_add_u64 self.(Receiver.buffered_charge) self.(Receiver.retained_charge))
            (records self)) charge) reserve)
       || (as_usize (i64_sub self.(Receiver.limits).(Limits.queued_frames)
                       self.(Receiver.limits).(Limits.control_reserve_frames))
           <? usize_add (usize_add self.(Receiver.buffered_frames) 1) (if out_of_order then 1 else 0))
    then (Err SequencedError.WouldBlock, (state, self))
    else
      let self := self
        <| Receiver.buffered_frames := usize_add self.(Receiver.buffered_frames) 1 |>
        <| Receiver.buffered_charge := usize_add self.(Receiver.buffered_charge) charge |> in
      let state := state
        <| StreamState.gap_since := Some (unwrap_or state.(StreamState.gap_since) now_ms) |>
        <| StreamState.pending := <[seq_of message := Pending.mk message charge]> state.(StreamState.pending) |> in
      (Ok tt, (state, self)).

Definition mark_applied (state : StreamState.t) (message : Envelope.t) (charge : Z) (self : Receiver.t)
    : result unit SequencedError.t * (StreamState.t * Receiver.t) :=
  let sequence := seq_of message in
  let final := sender_final message.(Envelope.kind) in
  let '(state, self) :=
    if (sequence =? 1) && negb final
    then (state <| StreamState.opening := Some message |>,
          self <| Receiver.retained_charge := usize_add self.(Receiver.retained_charge) charge |>)
    else (state, self) in
  match checked_add_i64 sequence 1 with
  | None => (Err SequencedError.Capacity, (state, self))
  | Some next =>
      let state := state <| StreamState.expected := next |> in
      if final then
        if bool_decide (state.(StreamState.pending) <> ∅) then (Err SequencedError.Protocol, (state, self))
        else
          (Ok tt, (state <| StreamState.terminal := Some (sequence, message) |>,
                   if negb (sequence =? 1)
                   then self <| Receiver.retained_charge := usize_add self.(Receiver.retained_charge) charge |>
                   else self))
      else (Ok tt, (state, self))
  end.

(** *** Receiving *)

Variable App : Type.
Variable apply : Envelope.t -> App -> result unit ApplyError.t * App.

(** The mutable places of a delivery: the stream, the receiver, the host, and what was resolved. *)
Definition place : Type := StreamState.t * Receiver.t * App * list Resolution.t.

(** [while let Some(pending) = state.pending.remove(&state.expected)]: every
    turn that goes on applies, and so removes, one pending message; [fuel] is
    their number. *)
Fixpoint drain_pending (fuel : nat) (stream_id : Z) (p : place) : result unit SequencedError.t * place :=
  let '(state, self, app, resolved) := p in
  let finish (state : StreamState.t) (self : Receiver.t) (app : App) (resolved : list Resolution.t) :=
    let state := if bool_decide (state.(StreamState.pending) = ∅)
                 then state <| StreamState.gap_since := None |> else state in
    ((Ok tt : result unit SequencedError.t), (state, self, app, resolved)) in
  match state.(StreamState.pending) !! state.(StreamState.expected) with
  | None => finish state self app resolved
  | Some pending =>
      let removed := state <| StreamState.pending := delete state.(StreamState.expected) state.(StreamState.pending) |> in
      if sender_final pending.(Pending.message).(Envelope.kind)
         && negb (bool_decide (removed.(StreamState.pending) = ∅))
      then (Err SequencedError.Protocol, (state, self, app, resolved))
      else
        match apply pending.(Pending.message) app with
        | (Ok _, app) =>
            let self := uncharge pending.(Pending.charge) self in
            match mark_applied removed pending.(Pending.message) pending.(Pending.charge) self with
            | (Err e, (state, self)) => (Err e, (state, self, app, resolved))
            | (Ok _, (state, self)) =>
                let resolved := resolved ++
                  [Resolution.mk stream_id (seq_of pending.(Pending.message)) Status.Applied] in
                match fuel with
                | O => finish state self app resolved
                | S fuel => drain_pending fuel stream_id (state, self, app, resolved)
                end
            end
        | (Err ApplyError.WouldBlock, app) => finish state self app resolved
        | (Err ApplyError.Rejected, app) => (Err SequencedError.ApplyRejected, (removed, self, app, resolved))
        end
  end.

Definition drain (stream_id : Z) (p : place) : result unit SequencedError.t * place :=
  let '(state, _, _, _) := p in drain_pending (size state.(StreamState.pending)) stream_id p.

Definition report (submitted : Status.t) (resolved : list Resolution.t) : result Report.t SequencedError.t :=
  Ok (Report.mk submitted resolved).

(** The answer for a stream whose terminal message is known. *)
Definition submit_terminal (state : StreamState.t) (message : Envelope.t) (sequence terminal_sequence : Z)
    (terminal : Envelope.t) : result Report.t SequencedError.t :=
  if (sequence =? 1) && is_some_and state.(StreamState.opening) (fun opening => negb (bool_decide (opening = message)))
  then Err SequencedError.Protocol
  else if sequence <? terminal_sequence then
    report (if sequence <? state.(StreamState.expected) then Status.AlreadyResolved else Status.Superseded) []
  else if (sequence =? terminal_sequence) && bool_decide (message = terminal)
  then report Status.AlreadyResolved []
  else Err SequencedError.Protocol.

(** An abortive message ahead of its turn ends the stream and supersedes what is buffered. *)
Definition submit_abort (state : StreamState.t) (message : Envelope.t) (sequence frame_charge : Z)
    (self : Receiver.t) (app : App) : result Report.t SequencedError.t * (StreamState.t * Receiver.t * App) :=
  let stream_id := message.(Envelope.stream_id) in
  let pending := entries state.(StreamState.pending) in
  if existsb (fun e => (e.1 <? sequence) && sender_final e.2.(Pending.message).(Envelope.kind)) pending
  then (Err SequencedError.Protocol, (state, self, app))
  else if existsb (fun e => saturating_add_i64 sequence 1 <=? e.1) pending
  then (Err SequencedError.Protocol, (state, self, app))
  else
    let superseded_charge := as_usize (sum_Z (map (fun e => e.2.(Pending.charge)) pending)) in
    match check_retain frame_charge superseded_charge self with
    | Err e => (Err e, (state, self, app))
    | Ok _ =>
        match apply message app with
        | (Err ApplyError.WouldBlock, app) => (Err SequencedError.WouldBlock, (state, self, app))
        | (Err ApplyError.Rejected, app) => (Err SequencedError.ApplyRejected, (state, self, app))
        | (Ok _, app) =>
            let resolved := map (fun e => Resolution.mk stream_id e.1 Status.Superseded) pending in
            let self := fold_left (fun self e => uncharge e.2.(Pending.charge) self) pending self in
            let state := state
              <| StreamState.pending := ∅ |>
              <| StreamState.terminal := Some (sequence, message) |>
              <| StreamState.gap_since := None |> in
            let self := self <| Receiver.retained_charge := usize_add self.(Receiver.retained_charge) frame_charge |> in
            (report Status.Applied (resolved ++ [Resolution.mk stream_id sequence Status.Applied]),
             (state, self, app))
        end
    end.

Definition submit_inner (state : StreamState.t) (message : Envelope.t) (sequence frame_charge now_ms : Z)
    (self : Receiver.t) (app : App) : result Report.t SequencedError.t * (StreamState.t * Receiver.t * App) :=
  let stream_id := message.(Envelope.stream_id) in
  let kind := message.(Envelope.kind) in
  match state.(StreamState.terminal) with
  | Some (terminal_sequence, terminal) =>
      (submit_terminal state message sequence terminal_sequence terminal, (state, self, app))
  | None =>
  if sequence <? state.(StreamState.expected) then
    if (sequence =? 1) && negb (bool_decide (state.(StreamState.opening) = Some message))
    then (Err SequencedError.Protocol, (state, self, app))
    else (report Status.AlreadyResolved [], (state, self, app))
  else
  match state.(StreamState.pending) !! sequence with
  | Some pending =>
      if negb (bool_decide (pending.(Pending.message) = message))
      then (Err SequencedError.Protocol, (state, self, app))
      else (report Status.Buffered [], (state, self, app))
  | None =>
  if (sequence =? 1) && negb (first_kind self.(Receiver.direction) kind)
  then (Err SequencedError.Protocol, (state, self, app))
  else if (state.(StreamState.expected) <? sequence) && abortive kind
          && (is_some state.(StreamState.opening)
              || (bool_decide (self.(Receiver.direction) = Direction.Initiator)
                  && bool_decide (kind = MessageKind.Cancel)))
  then submit_abort state message sequence frame_charge self app
  else if state.(StreamState.expected) <? sequence then
    match buffer state message frame_charge now_ms true self with
    | (Err e, (state, self)) => (Err e, (state, self, app))
    | (Ok _, (state, self)) => (report Status.Buffered [], (state, self, app))
    end
  else if sender_final kind && bool_decide (state.(StreamState.pending) <> ∅)
  then (Err SequencedError.Protocol, (state, self, app))
  else
    match (if (sequence =? 1) || sender_final kind then check_retain frame_charge 0 self else Ok tt) with
    | Err e => (Err e, (state, self, app))
    | Ok _ =>
        match apply message app with
        | (Err ApplyError.Rejected, app) => (Err SequencedError.ApplyRejected, (state, self, app))
        | (Err ApplyError.WouldBlock, app) =>
            match buffer state message frame_charge now_ms false self with
            | (Err e, (state, self)) => (Err e, (state, self, app))
            | (Ok _, (state, self)) => (report Status.Buffered [], (state, self, app))
            end
        | (Ok _, app) =>
            match mark_applied state message frame_charge self with
            | (Err e, (state, self)) => (Err e, (state, self, app))
            | (Ok _, (state, self)) =>
                match drain stream_id (state, self, app, [Resolution.mk stream_id sequence Status.Applied]) with
                | (Err e, (state, self, app, _)) => (Err e, (state, self, app))
                | (Ok _, (state, self, app, resolved)) => (report Status.Applied resolved, (state, self, app))
                end
            end
        end
    end
  end end.

Definition receiver_new (session_id : string) (direction : Direction.t) (limits : Limits.t)
    : result Receiver.t SequencedError.t :=
  try _ := valid_limits limits in
  try _ := refuse (str_is_empty session_id) SequencedError.InvalidMessage in
  Ok (Receiver.mk session_id direction limits ∅ 0 0 0 false).

Definition register (stream_id : Z) (self : Receiver.t) : result unit SequencedError.t * Receiver.t :=
  if self.(Receiver.failed) then (Err SequencedError.Closed, self)
  else if (stream_id <=? 0) || is_some (self.(Receiver.streams) !! stream_id)
  then (Err SequencedError.Protocol, self)
  else
    let active := len (filter (fun state => state.(StreamState.terminal) = None) (values self.(Receiver.streams))) in
    if (MAX_LIFETIME_STREAMS <=? map_len self.(Receiver.streams)) || (MAX_ACTIVE_STREAMS <=? active)
    then (Err SequencedError.Capacity, self)
    else if available_bytes self <?
              saturating_add_u64 (saturating_add_u64 (saturating_add_u64 (records self)
                self.(Receiver.retained_charge)) self.(Receiver.buffered_charge)) (predecessor_reserve self)
    then (Err SequencedError.Capacity, self)
    else (Ok tt, self <| Receiver.streams := <[stream_id := StreamState.new]> self.(Receiver.streams) |>).

Definition advance (now_ms : Z) (self : Receiver.t) : result unit SequencedError.t * Receiver.t :=
  if self.(Receiver.failed) then (Err SequencedError.Closed, self)
  else if existsb (fun state => is_some_and state.(StreamState.gap_since)
                     (fun start => saturating_add_u64 start GAP_TIMEOUT_MS <=? now_ms))
            (values self.(Receiver.streams))
  then (Err SequencedError.GapTimeout, self <| Receiver.failed := true |>)
  else (Ok tt, self).

(** [matches!(result, Err(Protocol | ApplyRejected))] *)
Definition fatal {A} (r : result A SequencedError.t) : bool :=
  match r with Err (SequencedError.Protocol | SequencedError.ApplyRejected) => true | _ => false end.

Definition put_back {A} (r : result A SequencedError.t) (stream_id : Z) (state : StreamState.t)
    (self : Receiver.t) : Receiver.t :=
  let self := self <| Receiver.streams := <[stream_id := state]> self.(Receiver.streams) |> in
  if fatal r then self <| Receiver.failed := true |> else self.

Definition submit (message : Envelope.t) (now_ms : Z) (self : Receiver.t) (app : App)
    : result Report.t SequencedError.t * (Receiver.t * App) :=
  match advance now_ms self with
  | (Err e, self) => (Err e, (self, app))
  | (Ok _, self) =>
  if negb (bool_decide (message.(Envelope.session_id) = self.(Receiver.session_id)))
  then (Err SequencedError.WrongSession, (self, app))
  else if negb (message.(Envelope.version) =? 3) || (message.(Envelope.stream_id) <=? 0)
  then (Err SequencedError.InvalidMessage, (self, app))
  else
    match message.(Envelope.message_seq) with
    | None => (Err SequencedError.InvalidMessage, (self, app))
    | Some sequence =>
    match charge message self.(Receiver.limits) with
    | Err e => (Err e, (self, app))
    | Ok base =>
        let frame_charge := saturating_add_u64 base FRAME_OVERHEAD in
        let stream_id := message.(Envelope.stream_id) in
        match self.(Receiver.streams) !! stream_id with
        | None => (Err SequencedError.Protocol, (self, app))
        | Some state =>
            let self := self <| Receiver.streams := delete stream_id self.(Receiver.streams) |> in
            let '(result, (state, self, app)) :=
              submit_inner state message sequence frame_charge now_ms self app in
            (result, (put_back result stream_id state self, app))
        end
    end end
  end.

Definition retry (stream_id now_ms : Z) (self : Receiver.t) (app : App)
    : result Report.t SequencedError.t * (Receiver.t * App) :=
  match advance now_ms self with
  | (Err e, self) => (Err e, (self, app))
  | (Ok _, self) =>
      match self.(Receiver.streams) !! stream_id with
      | None => (Err SequencedError.Protocol, (self, app))
      | Some state =>
          let self := self <| Receiver.streams := delete stream_id self.(Receiver.streams) |> in
          let '(drained, (state, self, app, resolved)) := drain stream_id (state, self, app, []) in
          let result :=
            try _ := drained in
            report (if is_nil resolved
                    then if bool_decide (state.(StreamState.pending) = ∅)
                         then Status.AlreadyResolved else Status.Buffered
                    else Status.Applied) resolved in
          (result, (put_back result stream_id state self, app))
      end
  end.
End sequenced.
