(* ===== verification/SequencedFacts.v ===== *)
(** * Order and exactly-once application in the sequenced profile *)
From S2P Require Import Prelude Utf8 Cbor CborFacts Protocol ProtocolFacts Budget Admission Policy Validate Codec CodecFacts Binding BindingFacts Sequenced.

(** ** Applied messages *)

Section order.
Context {L : Layout}.
Context {Host : Type}.
Variable host_apply : Envelope.t -> Host -> result unit ApplyError.t * Host.

(** The host's callback, with a record of the messages it accepted. *)
Definition logged : Type := Host * list Envelope.t.
Definition apply_logged (m : Envelope.t) (h : logged) : result unit ApplyError.t * logged :=
  match host_apply m h.1 with
  | (Ok u, h') => (Ok u, (h', h.2 ++ [m]))
  | (Err e, h') => (Err e, (h', h.2))
  end.

Definition on_stream (k : Z) (log : list Envelope.t) : list Envelope.t :=
  filter (fun m => m.(Envelope.stream_id) = k) log.

Definition seqs (l : list Envelope.t) : list Z := map seq_of l.

(** What the peer may have sent. *)
Variable Sent : Envelope.t -> Prop.

(** A message of stream [k] with a usable sequence number. *)
Definition numbered (k : Z) (m : Envelope.t) : Prop :=
  m.(Envelope.stream_id) = k /\ exists s, m.(Envelope.message_seq) = Some s /\ 1 <= s < I64_MAX.

Definition ongoing (m : Envelope.t) : Prop := sender_final m.(Envelope.kind) = false.

(** What was applied on a stream is its messages [1 .. expected - 1] in order; a
    terminal message is the last, and is ahead of its turn only if it aborts. *)
Record ordered_stream (k : Z) (st : StreamState.t) (log : list Envelope.t) : Prop := {
  os_expected : 1 <= st.(StreamState.expected) <= I64_MAX;
  os_pending : forall s p, st.(StreamState.pending) !! s = Some p ->
    numbered k p.(Pending.message) /\ p.(Pending.message).(Envelope.message_seq) = Some s
    /\ st.(StreamState.expected) <= s /\ Sent p.(Pending.message);
  os_open : st.(StreamState.terminal) = None ->
    seqs log = seqZ 1 (st.(StreamState.expected) - 1) /\ Forall ongoing log;
  os_terminal : forall t m, st.(StreamState.terminal) = Some (t, m) ->
    st.(StreamState.pending) = ∅ /\ numbered k m /\ m.(Envelope.message_seq) = Some t
    /\ sender_final m.(Envelope.kind) = true
    /\ exists l, log = l ++ [m] /\ Forall ongoing l
       /\ ((st.(StreamState.expected) = t + 1 /\ seqs l = seqZ 1 (t - 1))
           \/ (st.(StreamState.expected) < t /\ abortive m.(Envelope.kind) = true
               /\ seqs l = seqZ 1 (st.(StreamState.expected) - 1)));
}.

Lemma on_stream_app k l m : m.(Envelope.stream_id) = k -> on_stream k (l ++ [m]) = on_stream k l ++ [m].
Proof. intros Hm. unfold on_stream. rewrite list.filter_app. f_equal. by rewrite filter_cons_True. Qed.

Lemma on_stream_other k l m : m.(Envelope.stream_id) <> k -> on_stream k (l ++ [m]) = on_stream k l.
Proof. intros Hm. unfold on_stream. rewrite list.filter_app, filter_cons_False by done. by rewrite filter_nil, app_nil_r. Qed.

Lemma numbered_seq k m : numbered k m -> 1 <= seq_of m < I64_MAX.
Proof. intros (_ & s & Hs & ?). unfold seq_of. by rewrite Hs. Qed.

Lemma seqs_app l m : seqs (l ++ [m]) = seqs l ++ [seq_of m].
Proof. unfold seqs. by rewrite map_app. Qed.

Lemma seqZ_snoc n : 1 <= n -> seqZ 1 (n - 1) ++ [n] = seqZ 1 n.
Proof.
  intros Hn. replace n with ((n - 1) + 1) at 3 by lia. rewrite seqZ_app by lia.
  f_equal. replace (1 + (n - 1)) with n by lia. done.
Qed.

(** Applying the expected message. *)
Lemma mark_applied_order k st m c self log : ordered_stream k st log -> st.(StreamState.terminal) = None ->
  numbered k m -> seq_of m = st.(StreamState.expected) ->
  (forall s p, st.(StreamState.pending) !! s = Some p -> s <> st.(StreamState.expected)) ->
  (sender_final m.(Envelope.kind) = true -> st.(StreamState.pending) = ∅) ->
  exists st' self', mark_applied st m c self = (Ok tt, (st', self'))
    /\ ordered_stream k st' (log ++ [m]) /\ st'.(StreamState.pending) = st.(StreamState.pending)
    /\ st'.(StreamState.gap_since) = st.(StreamState.gap_since)
    /\ self'.(Receiver.streams) = self.(Receiver.streams)
    /\ st'.(StreamState.expected) = st.(StreamState.expected) + 1
    /\ (st'.(StreamState.terminal) = None <-> sender_final m.(Envelope.kind) = false).
Proof.
  intros [Hexp Hpend Hopen _] Hterm Hm Hs Hne Hfin. pose proof (numbered_seq k m Hm) as Hr.
  destruct (Hopen Hterm) as [Hopen' Hgo]. clear Hopen. rename Hopen' into Hopen. unfold mark_applied. rewrite Hs in *.
  assert (Hadd : checked_add_i64 (StreamState.expected st) 1 = Some (StreamState.expected st + 1)).
  { apply checked_add_i64_Some. unfold in_i64. lia. }
  assert (Hseq : seqs (log ++ [m]) = seqZ 1 (StreamState.expected st)).
  { rewrite seqs_app, Hopen, Hs. apply seqZ_snoc. lia. }
  assert (Hord : forall st', StreamState.expected st' = StreamState.expected st + 1 ->
    StreamState.pending st' = StreamState.pending st -> StreamState.terminal st' =
      (if sender_final (Envelope.kind m) then Some (StreamState.expected st, m) else None) ->
    ordered_stream k st' (log ++ [m])).
  { intros st' H1 H2 H3. constructor; rewrite ?H1, ?H2, ?H3.
    - lia.
    - intros s p Hp. destruct (Hpend s p Hp) as (? & ? & ? & ?). specialize (Hne s p Hp). split_and!; try done. lia.
    - destruct (sender_final (Envelope.kind m)) eqn:Hf; [done|]. intros _. split; [rewrite Hseq; f_equal; lia|].
      apply Forall_app. by repeat constructor.
    - intros t m'. destruct (sender_final (Envelope.kind m)) eqn:Hf; [|done]. intros [= <- <-].
      split_and!; auto.
      + destruct Hm as (_ & s & Hms & _). unfold seq_of in Hs. rewrite Hms in *. cbn in Hs. congruence.
      + exists log. split_and!; try done. by left. }
  destruct ((StreamState.expected st =? 1) && negb (sender_final (Envelope.kind m))); rewrite Hadd;
    destruct (sender_final (Envelope.kind m)) eqn:Hf.
  all: try (rewrite bool_decide_eq_false_2 by (cbn; rewrite Hfin by done; congruence)).
  all: eexists _, _; split; [reflexivity|]; split_and!; try done; try (apply Hord; done); try (by rewrite ?Hterm).
  all: try (destruct (negb _); done).
Qed.

(** The parts of a receiver that no delivery changes. *)
Definition fixed (self : Receiver.t) := (self.(Receiver.failed), self.(Receiver.limits)).

(** What a delivery on stream [k] leaves of the receiver and the log. *)
Record advances (k : Z) (self self' : Receiver.t) (log log' : list Envelope.t) : Prop := {
  ad_streams : self'.(Receiver.streams) = self.(Receiver.streams);
  ad_fixed : fixed self' = fixed self;
  ad_other : forall j, j <> k -> on_stream j log' = on_stream j log;
  ad_sent : Forall Sent log -> Forall Sent log';
}.

Lemma advances_refl k self log : advances k self self log log.
Proof. by constructor. Qed.

Lemma advances_trans k s1 s2 s3 l1 l2 l3 :
  advances k s1 s2 l1 l2 -> advances k s2 s3 l2 l3 -> advances k s1 s3 l1 l3.
Proof.
  intros [H1 H2 H3 H4] [H5 H6 H7 H8]. constructor; [congruence|congruence| |auto].
  intros j Hj. rewrite H7 by done. auto.
Qed.

Lemma advances_apply k self self' log m :
  self'.(Receiver.streams) = self.(Receiver.streams) -> fixed self' = fixed self ->
  m.(Envelope.stream_id) = k -> Sent m -> advances k self self' log (log ++ [m]).
Proof.
  intros Hs Hf Hm HS. constructor; [done|done| |].
  - intros j Hj. apply on_stream_other. congruence.
  - intros Hl. apply Forall_app. by repeat constructor.
Qed.

Lemma mark_applied_kept st m c self :
  fixed (mark_applied st m c self).2.2 = fixed self.
Proof. unfold mark_applied. repeat case_match; by simplify_eq. Qed.

(** Dropping the expected message from the buffer. *)
Lemma ordered_removed k st log : ordered_stream k st log ->
  ordered_stream k (st <| StreamState.pending := delete (StreamState.expected st) (StreamState.pending st) |>) log.
Proof.
  intros [H1 H2 H3 H4]. constructor; cbn; try done.
  - intros s p Hp. apply lookup_delete_Some in Hp as [_ Hp]. eauto.
  - intros t m Ht. destruct (H4 t m Ht) as (Hp & H5). split; [|done]. rewrite Hp. apply delete_empty.
Qed.

Lemma ordered_gap k st log g : ordered_stream k st log -> ordered_stream k (st <| StreamState.gap_since := g |>) log.
Proof. intros [H1 H2 H3 H4]. by constructor. Qed.

Lemma drain_order fuel : forall k st self h log resolved,
  ordered_stream k st (on_stream k log) ->
  let '(_, (st', self', h', _)) := drain_pending logged apply_logged fuel k (st, self, (h, log), resolved) in
  ordered_stream k st' (on_stream k h'.2) /\ advances k self self' log h'.2.
Proof.
  induction fuel as [|fuel IH]; intros k st self h log resolved Hst; cbn [drain_pending].
  all: destruct (StreamState.pending st !! StreamState.expected st) as [p|] eqn:Hp;
    [|destruct (bool_decide (StreamState.pending st = ∅)); (split; [try apply ordered_gap; done | apply advances_refl])].
  all: destruct (os_pending k st _ Hst _ _ Hp) as (Hnum & Hseq & _ & HS).
  all: assert (Hterm : StreamState.terminal st = None)
    by (destruct (StreamState.terminal st) as [[t m]|] eqn:Ht; [|done];
        destruct (os_terminal k st _ Hst t m Ht) as (He & _); rewrite He in Hp; done).
  all: destruct (sender_final _ && negb _) eqn:Hfin; [split; [done | apply advances_refl]|].
  all: pose proof (ordered_removed k st _ Hst) as Hrem.
  all: unfold apply_logged at 1; cbn [fst snd];
    destruct (host_apply (Pending.message p) h) as [[[]|[]] h1];
    [| destruct (bool_decide (StreamState.pending st = ∅)); (split; [try apply ordered_gap; done | apply advances_refl])
     | split; [done | apply advances_refl]].
  all: destruct (mark_applied_order k (st <| StreamState.pending := delete (StreamState.expected st) (StreamState.pending st) |>)
      (Pending.message p) (Pending.charge p) (uncharge (Pending.charge p) self) (on_stream k log))
      as (st1 & self1 & Hmark & Ho & _ & _ & Hstr & _);
    [ done | done | done | unfold seq_of; by rewrite Hseq
    | cbn; intros s q Hq; apply lookup_delete_Some in Hq as [Hne _]; congruence
    | cbn; intros Hf; rewrite Hf in Hfin; cbn in Hfin; apply negb_false_iff, bool_decide_eq_true in Hfin; done |].
  all: pose proof (mark_applied_kept (st <| StreamState.pending := delete (StreamState.expected st) (StreamState.pending st) |>)
      (Pending.message p) (Pending.charge p) (uncharge (Pending.charge p) self)) as Hkept.
  all: rewrite Hmark in Hkept |- *; cbn [fst snd] in Hkept.
  all: rewrite <- on_stream_app in Ho by apply Hnum.
  all: assert (Hadv : advances k self self1 log (log ++ [Pending.message p])) by (apply advances_apply; [done|done|apply Hnum|done]).
  - destruct (bool_decide (StreamState.pending st1 = ∅)); (split; [try apply ordered_gap; done | done]).
  - specialize (IH k st1 self1 h1 (log ++ [Pending.message p])
      (resolved ++ [Resolution.mk k (seq_of (Pending.message p)) Status.Applied]) Ho).
    destruct (drain_pending _ _ _ _ _) as [r [[[st2 self2] h2] res2]]. destruct IH as [H1 H2].
    split; [done|]. by eapply advances_trans.
Qed.

Lemma buffer_order k st m c now ooo self log : ordered_stream k st log -> st.(StreamState.terminal) = None ->
  numbered k m -> Sent m -> st.(StreamState.expected) <= seq_of m ->
  let '(_, (st', self')) := buffer st m c now ooo self in
  ordered_stream k st' log /\ self'.(Receiver.streams) = self.(Receiver.streams)
  /\ fixed self' = fixed self.
Proof.
  intros Hst Ht Hm HS Hle. unfold buffer. destruct (ooo && _); [done|]. destruct (_ || _); [done|].
  split; [|done]. destruct Hst as [H1 H2 H3 H4]. constructor; cbn; try done; [|congruence].
  intros s p Hp. apply lookup_insert_Some in Hp as [[<- <-]|[_ Hp]]; [|eauto]. cbn.
  split_and!; try done. destruct Hm as (_ & s & Hs & _). unfold seq_of. by rewrite Hs.
Qed.

Lemma fold_uncharge_kept (l : list (Z * Pending.t)) self :
  let self' := fold_left (fun self e => uncharge e.2.(Pending.charge) self) l self in
  self'.(Receiver.streams) = self.(Receiver.streams) /\ fixed self' = fixed self.
Proof. revert self. induction l as [|e l IH]; intros self; [done|]. cbn [fold_left]. destruct (IH (uncharge (Pending.charge e.2) self)). by split. Qed.

Lemma submit_abort_order k st m fc self h log : ordered_stream k st (on_stream k log) ->
  st.(StreamState.terminal) = None -> numbered k m -> Sent m ->
  st.(StreamState.expected) < seq_of m -> abortive m.(Envelope.kind) = true ->
  let '(_, (st', self', h')) := submit_abort logged apply_logged st m (seq_of m) fc self (h, log) in
  ordered_stream k st' (on_stream k h'.2) /\ advances k self self' log h'.2.
Proof.
  intros Hst Ht Hm HS Hlt Hab. unfold submit_abort.
  destruct (existsb _ _); [split; [done | apply advances_refl]|].
  destruct (existsb _ _); [split; [done | apply advances_refl]|].
  destruct (check_retain _ _ _); [|split; [done | apply advances_refl]].
  unfold apply_logged. cbn [fst snd].
  destruct (host_apply m h) as [[[]|[]] h1]; [|split; [done | apply advances_refl]..].
  split.
  - cbn [snd]. rewrite on_stream_app by apply Hm. destruct Hst as [H1 _ H3 _]. specialize (H3 Ht) as [H3 H4].
    constructor; cbn; [done | by intros s p Hp; rewrite lookup_empty in Hp | done |].
    intros t m' [= <- <-]. split_and!; try done.
    + destruct Hm as (_ & s & Hs & _). unfold seq_of. by rewrite Hs.
    + unfold sender_final. by rewrite Hab.
    + eexists. split_and!; try done. by right.
  - cbn [snd]. match goal with |- context [fold_left ?f ?l self] => destruct (fold_uncharge_kept l self) as [Hk1 Hk2] end.
    apply advances_apply; [exact Hk1 | exact Hk2 | apply Hm | done].
Qed.

Lemma submit_inner_order k st m fc now self h log : ordered_stream k st (on_stream k log) ->
  numbered k m -> Sent m ->
  let '(_, (st', self', h')) := submit_inner logged apply_logged st m (seq_of m) fc now self (h, log) in
  ordered_stream k st' (on_stream k h'.2) /\ advances k self self' log h'.2.
Proof.
  intros Hst Hm HS. unfold submit_inner.
  destruct (StreamState.terminal st) as [[t tm]|] eqn:Ht; [split; [done | apply advances_refl]|].
  destruct (seq_of m <? StreamState.expected st) eqn:Hlt.
  { destruct (_ && _); (split; [done | apply advances_refl]). }
  destruct (StreamState.pending st !! seq_of m) as [p|] eqn:Hp.
  { destruct (negb _); (split; [done | apply advances_refl]). }
  destruct ((seq_of m =? 1) && _); [split; [done | apply advances_refl]|].
  destruct (_ && (is_some _ || _)) eqn:Habort.
  { apply andb_true_iff in Habort as [Habort _]. apply andb_true_iff in Habort as [Hgt Hab].
    apply submit_abort_order; try done. lia. }
  destruct (StreamState.expected st <? seq_of m) eqn:Hgt.
  { pose proof (buffer_order k st m fc now true self _ Hst Ht Hm HS ltac:(lia)) as Hb.
    destruct (buffer _ _ _ _ _ _) as [[[]|] [st1 self1]]; destruct Hb as (H1 & H2 & H3);
      (split; [done|by constructor]). }
  assert (Heq : seq_of m = StreamState.expected st) by lia.
  destruct (sender_final _ && _) eqn:Hfin; [split; [done | apply advances_refl]|].
  match goal with |- context [match ?c with Ok _ => _ | Err e => (Err e, (st, self, (h, log))) end] =>
    destruct c; [|split; [done | apply advances_refl]] end.
  unfold apply_logged at 1. cbn [fst snd]. destruct (host_apply m h) as [[[]|[]] h1].
  - destruct (mark_applied_order k st m fc self (on_stream k log)) as (st1 & self1 & Hmark & Ho & _ & _ & Hstr & _);
      [done | done | done | done | intros s q Hq ->; congruence | |].
    { intros Hf. rewrite Hf in Hfin. cbn in Hfin. apply bool_decide_eq_false in Hfin. by apply dec_stable. }
    pose proof (mark_applied_kept st m fc self) as Hkept. rewrite Hmark in Hkept |- *. cbn [fst snd] in Hkept.
    rewrite <- on_stream_app in Ho by apply Hm. unfold drain.
    pose proof (drain_order (size (StreamState.pending st1)) k st1 self1 h1 (log ++ [m])
      [Resolution.mk k (seq_of m) Status.Applied] Ho) as Hd. rewrite (proj1 Hm).
    destruct (drain_pending _ _ _ _ _) as [[[]|e] [[[st2 self2] h2] res2]]; destruct Hd as [H1 H2];
      (split; [done|]; eapply advances_trans; [|done]; apply advances_apply; [done|done|apply Hm|done]).
  - pose proof (buffer_order k st m fc now false self _ Hst Ht Hm HS ltac:(lia)) as Hb.
    destruct (buffer _ _ _ _ _ _) as [[[]|] [st1 self1]]; destruct Hb as (H1 & H2 & H3);
      (split; [done|by constructor]).
  - split; [done | apply advances_refl].
Qed.

(** ** Runs of a receiver *)

Inductive rop :=
| Register (stream_id : Z)
| AdvanceTo (now_ms : Z)
| Submit (message : Envelope.t) (now_ms : Z)
| Retry (stream_id now_ms : Z).

Definition rstep (o : rop) (y : Receiver.t * logged) : Receiver.t * logged :=
  match o with
  | Register k => ((register k y.1).2, y.2)
  | AdvanceTo now => ((advance now y.1).2, y.2)
  | Submit m now => (submit logged apply_logged m now y.1 y.2).2
  | Retry k now => (retry logged apply_logged k now y.1 y.2).2
  end.
Definition rrun (ops : list rop) (y : Receiver.t * logged) : Receiver.t * logged :=
  fold_left (fun y o => rstep o y) ops y.

(** Submissions come from the peer; a sequence number is an [i64]. *)
Definition submitted_ok (o : rop) : Prop :=
  match o with Submit m _ => Sent m /\ in_i64 (seq_of m) | _ => True end.

(** Every stream's applied messages are in order; nothing was applied elsewhere. *)
Record ordered_all (y : Receiver.t * logged) : Prop := {
  oa_streams : forall k st, y.1.(Receiver.streams) !! k = Some st -> ordered_stream k st (on_stream k y.2.2);
  oa_none : forall k, y.1.(Receiver.streams) !! k = None -> on_stream k y.2.2 = [];
  oa_sent : Forall Sent y.2.2;
}.

Lemma advance_streams now self : ((advance now self).2).(Receiver.streams) = self.(Receiver.streams).
Proof. unfold advance. repeat case_match; done. Qed.

Lemma ordered_same self self' h : self'.(Receiver.streams) = self.(Receiver.streams) ->
  ordered_all (self, h) -> ordered_all (self', h).
Proof. intros Hs [H1 H2 H3]. constructor; cbn in *; rewrite ?Hs; done. Qed.

Lemma put_back_streams {A} (r : result A SequencedError.t) k st self :
  (put_back r k st self).(Receiver.streams) = <[k := st]> self.(Receiver.streams).
Proof. unfold put_back. by destruct (fatal r). Qed.

(** Putting a stream back after a delivery on it. *)
Lemma ordered_put_back {A} (r : result A SequencedError.t) self0 self1 self2 k st st' log h' :
  ordered_all (self0, log) -> self0.(Receiver.streams) !! k = Some st ->
  self1.(Receiver.streams) = delete k self0.(Receiver.streams) ->
  ordered_stream k st' (on_stream k h'.2) -> advances k self1 self2 log.2 h'.2 ->
  ordered_all (put_back r k st' self2, h').
Proof.
  intros [H1 H2 H3] Hk Hdel Ho [Ha1 _ Ha3 Ha4]. constructor; cbn [fst snd] in *; rewrite ?put_back_streams, ?Ha1, ?Hdel.
  - intros j sj. destruct (decide (j = k)) as [->|Hj].
    + rewrite lookup_insert_eq. by intros [= <-].
    + rewrite lookup_insert_ne, lookup_delete_ne, Ha3 by done. auto.
  - intros j. destruct (decide (j = k)) as [->|Hj]; [by rewrite lookup_insert_eq|].
    rewrite lookup_insert_ne, lookup_delete_ne, Ha3 by done. auto.
  - auto.
Qed.

Lemma charge_sequence m l n s : charge m l = Ok n -> m.(Envelope.version) = 3 -> 0 < m.(Envelope.stream_id) ->
  m.(Envelope.message_seq) = Some s -> 0 < s /\ s <> I64_MAX.
Proof.
  unfold charge, Codec.allocation_charge. intros H Hv Hs Hm.
  destruct (Validate.limits l); [|done]. destruct (Validate.envelope m) as [[]|] eqn:He; [|done].
  unfold Validate.envelope in He.
  do 5 match type of He with (try _ := ?r in _) = Ok _ => destruct r as [[]|] eqn:?; [|done] end.
  match goal with Hr : refuse (if _ then _ else _) _ = Ok tt |- _ => apply refuse_Ok in Hr; rename Hr into Hg end.
  rewrite Hv, Hm, (proj2 (Z.ltb_lt 0 _) Hs) in Hg. cbn in Hg. lia.
Qed.

Lemma ordered_submit m now self h : submitted_ok (Submit m now) -> ordered_all (self, h) ->
  ordered_all (submit logged apply_logged m now self h).2.
Proof.
  intros [HS Hi] Ho. unfold submit. pose proof (advance_streams now self) as Hadv.
  destruct (advance now self) as [[[]|e] self0]; cbn [snd] in Hadv.
  2:{ by apply (ordered_same self). }
  pose proof (ordered_same self self0 h Hadv Ho) as Ho0.
  destruct (negb _); [done|]. destruct (_ || _) eqn:Hg; [done|].
  destruct (Envelope.message_seq m) as [s|] eqn:Hs; [|done].
  destruct (charge m _) as [base|] eqn:Hc; [|done].
  destruct (Receiver.streams self0 !! _) as [st|] eqn:Hst; [|done].
  apply orb_false_iff in Hg as [Hv Hid].
  destruct (charge_sequence m _ base s Hc ltac:(lia) ltac:(lia) Hs) as [Hpos Hmax].
  assert (Hsq : seq_of m = s) by (unfold seq_of; by rewrite Hs). unfold in_i64 in Hi.
  assert (Hn : numbered (Envelope.stream_id m) m) by (split; [done|]; exists s; split; [done|lia]).
  destruct h as [h log]. rewrite <- Hsq.
  match goal with |- context [submit_inner _ _ st m _ ?fc now ?self1 _] =>
    pose proof (submit_inner_order (Envelope.stream_id m) st m fc now self1 h log
      (oa_streams _ Ho0 _ _ Hst) Hn HS) as Hin;
    destruct (submit_inner _ _ st m _ fc now self1 _) as [r [[st' self2] h']] end.
  destruct Hin as [H1 H2]. cbn [snd].
  refine (ordered_put_back _ self0 _ self2 _ st st' (h, log) h' Ho0 Hst _ H1 H2). reflexivity.
Qed.

Lemma ordered_retry k now self h : ordered_all (self, h) ->
  ordered_all (retry logged apply_logged k now self h).2.
Proof.
  intros Ho. unfold retry. pose proof (advance_streams now self) as Hadv.
  destruct (advance now self) as [[[]|e] self0]; cbn [snd] in Hadv.
  2:{ by apply (ordered_same self). }
  pose proof (ordered_same self self0 h Hadv Ho) as Ho0.
  destruct (Receiver.streams self0 !! k) as [st|] eqn:Hst; [|done]. unfold drain. destruct h as [h log].
  match goal with |- context [drain_pending _ _ ?f k (st, ?self1, _, [])] =>
    pose proof (drain_order f k st self1 h log [] (oa_streams _ Ho0 _ _ Hst)) as Hin;
    destruct (drain_pending _ _ f k _) as [r [[[st' self2] h'] res]] end.
  destruct Hin as [H1 H2]. cbn [snd].
  refine (ordered_put_back _ self0 _ self2 _ st st' (h, log) h' Ho0 Hst _ H1 H2). reflexivity.
Qed.

Lemma ordered_rstep o y : submitted_ok o -> ordered_all y -> ordered_all (rstep o y).
Proof.
  intros Hok Ho. destruct o; destruct y as [self h]; cbn [rstep fst snd].
  - unfold register. destruct (Receiver.failed self); [done|]. destruct (_ || _) eqn:Hg; [done|].
    repeat (case_match; [exact Ho|]). destruct Ho as [H1 H2 H3].
    apply orb_false_iff in Hg as [_ Hn]. cbn [fst snd] in *.
    assert (Hnone : Receiver.streams self !! stream_id = None) by (by destruct (_ !! _)).
    constructor; cbn.
    + intros j st. destruct (decide (j = stream_id)) as [->|Hj].
      * rewrite lookup_insert_eq. intros [= <-]. rewrite H2 by done. constructor; cbn; try done.
      * rewrite lookup_insert_ne by done. auto.
    + intros j. destruct (decide (j = stream_id)) as [->|Hj]; [by rewrite lookup_insert_eq|].
      rewrite lookup_insert_ne by done. auto.
    + done.
  - apply (ordered_same self); [apply advance_streams | done].
  - by apply ordered_submit.
  - by apply ordered_retry.
Qed.

Lemma ordered_rrun ops y : Forall submitted_ok ops -> ordered_all y -> ordered_all (rrun ops y).
Proof.
  intros Hops. revert y. induction Hops as [|o ops Ho Hops IH]; intros y Hy; [done|].
  apply IH. by apply ordered_rstep.
Qed.

Lemma ordered_new session d l r h : receiver_new session d l = Ok r -> ordered_all (r, (h, [])).
Proof.
  unfold receiver_new. intros H. destruct (valid_limits l); [|done]. destruct (refuse _ _); [|done].
  injection H as <-. constructor; cbn; try done.
Qed.

(** What one stream's applied messages look like in a reachable receiver. *)
Lemma ordered_log k y : ordered_all y ->
  let log := on_stream k y.2.2 in
  exists n l, 0 <= n /\ seqs l = seqZ 1 n /\ Forall ongoing l /\ Forall Sent log
    /\ (log = l \/ exists m, log = l ++ [m] /\ sender_final m.(Envelope.kind) = true
          /\ (seq_of m = n + 1 \/ (n + 1 < seq_of m /\ abortive m.(Envelope.kind) = true))).
Proof.
  intros [H1 H2 H3]. cbn zeta.
  assert (Hs : Forall Sent (on_stream k y.2.2)).
  { apply list.Forall_forall. intros m Hm. apply list_elem_of_filter in Hm as [_ Hm].
    by apply (proj1 (list.Forall_forall _ _) H3). }
  destruct (Receiver.streams y.1 !! k) as [st|] eqn:Hk.
  2:{ exists 0, []. rewrite (H2 k Hk) in *. split_and!; try done. by left. }
  destruct (H1 k st Hk) as [He _ Ho Ht]. destruct (StreamState.terminal st) as [[t m]|] eqn:Hterm.
  - destruct (Ht t m eq_refl) as (_ & Hn & Hm & Hf & l & Hl & Hgo & Hcase).
    pose proof (numbered_seq k m Hn) as Hr. unfold seq_of in Hr. rewrite Hm in Hr. cbn in Hr.
    destruct Hcase as [[Hx Hq]|(Hx & Hab & Hq)].
    + exists (t - 1), l. split_and!; try done; [lia|]. right. exists m. split_and!; try done. left. unfold seq_of. rewrite Hm. cbn. lia.
    + exists (StreamState.expected st - 1), l. split_and!; try done; [lia|]. right. exists m. split_and!; try done.
      right. split; [|done]. unfold seq_of. rewrite Hm. cbn. lia.
  - destruct (Ho eq_refl) as [Hq Hgo]. exists (StreamState.expected st - 1), (on_stream k y.2.2).
    split_and!; try done; [lia|]. by left.
Qed.
End order.

(** Whatever is submitted, in whatever order and however often, and whenever the host blocks or
    rejects, the messages applied on a stream are numbers 1, 2, 3, … each once and in order; only an
    abortive message may overtake, and nothing is applied after a message that ends its sender. *)
Theorem apply_in_order {L : Layout} {Host} (host_apply : Envelope.t -> Host -> result unit ApplyError.t * Host)
    session d l r h ops k :
  receiver_new session d l = Ok r ->
  Forall (submitted_ok (fun _ => True)) ops ->
  let log := on_stream k (rrun host_apply ops (r, (h, []))).2.2 in
  exists n applied, 0 <= n /\ seqs applied = seqZ 1 n /\ Forall ongoing applied
    /\ (log = applied \/ exists m, log = applied ++ [m] /\ sender_final m.(Envelope.kind) = true
          /\ (seq_of m = n + 1 \/ (n + 1 < seq_of m /\ abortive m.(Envelope.kind) = true))).
Proof.
  intros Hr Hops. cbn zeta.
  destruct (ordered_log (fun _ => True) k (rrun host_apply ops (r, (h, [])))) as (n & l' & H1 & H2 & H3 & _ & H4).
  - apply ordered_rrun; [done|]. by apply (ordered_new _ session d l).
  - by exists n, l'.
Qed.


(** ** A concrete run *)

Definition sample_receiver (d : Direction.t) : Receiver.t :=
  Receiver.mk "session" d default_limits ∅ 0 0 0 false.

Definition sample_window : Envelope.t := Envelope.default
  <| Envelope.version := 3 |> <| Envelope.session_id := "session"%string |> <| Envelope.stream_id := 1 |>
  <| Envelope.kind := MessageKind.Window |> <| Envelope.message_seq := Some 2 |>
  <| Envelope.window := Some (Window.mk 10) |>.

Definition sample_host (m : Envelope.t) (n : Z) : result unit ApplyError.t * Z := (Ok tt, n + 1).

(** The second message arrives first. *)
Definition sample_ops : list rop := [Register 1; Submit sample_window 0; Submit sample_open 1].

Lemma apply_in_order_witness :
  receiver_new (L := layout64) "session" Direction.Initiator default_limits = Ok (sample_receiver Direction.Initiator)
  /\ exists n applied, 0 <= n /\ seqs applied = seqZ 1 n /\ Forall ongoing applied
  /\ (on_stream 1 (rrun (L := layout64) sample_host sample_ops (sample_receiver Direction.Initiator, (0, []))).2.2 = applied
      \/ exists m, on_stream 1 (rrun (L := layout64) sample_host sample_ops (sample_receiver Direction.Initiator, (0, []))).2.2
           = applied ++ [m] /\ sender_final m.(Envelope.kind) = true
         /\ (seq_of m = n + 1 \/ (n + 1 < seq_of m /\ abortive m.(Envelope.kind) = true))).
Proof.
  split; [vm_compute; reflexivity|].
  apply (apply_in_order (L := layout64) sample_host "session" Direction.Initiator default_limits).
  - vm_compute. reflexivity.
  - repeat constructor; cbn; unfold in_i64; lia.
Defined.
