(* ===== verification/SequencedLink.v ===== *)
(** * A sequenced sender and receiver over an unordered link

    The sender's queue numbers messages without gaps; joined to a receiver by a
    link that may reorder and repeat, what the host is given is what was sent. *)
From S2P Require Import Prelude Utf8 Cbor CborFacts Protocol ProtocolFacts Budget Admission Policy Validate Codec CodecFacts Binding BindingFacts Sequenced SequencedFacts.

(** ** The sender *)

Section outbound.
Context {L : Layout}.

Inductive oop :=
| Enqueue (message : Envelope.t)
| Pop.

(** A sender with the messages it has handed to the link. *)
Definition ostep (o : oop) (y : Outbound.t * list Envelope.t) : Outbound.t * list Envelope.t :=
  match o with
  | Enqueue m => ((enqueue m y.1).2, y.2)
  | Pop => match pop y.1 with
           | (Some m, self) => (self, y.2 ++ [m])
           | (None, self) => (self, y.2)
           end
  end.
Definition orun (ops : list oop) (y : Outbound.t * list Envelope.t) : Outbound.t * list Envelope.t :=
  fold_left (fun y o => ostep o y) ops y.

(** Everything that has a number: what the link was given and what is queued. *)
Definition sent (y : Outbound.t * list Envelope.t) : list Envelope.t := y.2 ++ y.1.(Outbound.queue).*1.
Definition next_seq (self : Outbound.t) (k : Z) : Z := unwrap_or (self.(Outbound.next) !! k) 1.

(** A frame's bytes count in the queue with the record that holds it. *)
Lemma charge_range m l n : charge m l = Ok n -> 0 <= saturating_add_u64 n FRAME_OVERHEAD.
Proof.
  unfold charge, map_err. intros H. destruct (Codec.allocation_charge m l) eqn:Hc; [|done]. injection H as <-.
  apply allocation_charge_range in Hc as (_ & _ & Hn). unfold saturating_add_u64, FRAME_OVERHEAD.
  pose proof layout_pending. lia.
Qed.

Record out_inv (y : Outbound.t * list Envelope.t) : Prop := {
  oi_limits : Validate.limits y.1.(Outbound.limits) = Ok tt;
  oi_max : 1 <= y.1.(Outbound.max_queued)
    <= y.1.(Outbound.limits).(Limits.queued_frames) - y.1.(Outbound.limits).(Limits.control_reserve_frames);
  oi_next : forall k, 1 <= next_seq y.1 k <= I64_MAX /\ seqs (on_stream k (sent y)) = seqZ 1 (next_seq y.1 k - 1);
  oi_some : Forall (fun m => is_Some m.(Envelope.message_seq)) (sent y);
  oi_open : forall k, y.1.(Outbound.ended) !! k = None -> Forall ongoing (on_stream k (sent y));
  oi_ended : forall k e, y.1.(Outbound.ended) !! k = Some e ->
    exists l m, on_stream k (sent y) = l ++ [m] /\ Forall ongoing l /\ ~ ongoing m;
  oi_charge : y.1.(Outbound.queued_charge) = sum_Z y.1.(Outbound.queue).*2;
  oi_nonneg : Forall (fun c => 0 <= c) y.1.(Outbound.queue).*2;
  oi_bytes : y.1.(Outbound.queued_charge) <= y.1.(Outbound.limits).(Limits.queued_bytes);
  oi_frames : len y.1.(Outbound.queue) <= y.1.(Outbound.limits).(Limits.queued_frames);
}.

(** What an accepted message leaves behind. *)
Lemma enqueue_spec m self s self' : enqueue m self = (Ok s, self') ->
  exists c, s = next_seq self m.(Envelope.stream_id) /\ s + 1 <= I64_MAX
  /\ self.(Outbound.ended) !! m.(Envelope.stream_id) = None
  /\ 0 <= c /\ len self.(Outbound.queue) < usize_add self.(Outbound.max_queued)
       (if bool_decide (m.(Envelope.kind) = MessageKind.Data) then 0
        else as_usize self.(Outbound.limits).(Limits.control_reserve_frames))
  /\ saturating_add_u64 self.(Outbound.queued_charge) c <= as_usize (i64_sub self.(Outbound.limits).(Limits.queued_bytes)
       (if bool_decide (m.(Envelope.kind) = MessageKind.Data)
        then self.(Outbound.limits).(Limits.control_reserve_bytes) else 0))
  /\ self'.(Outbound.queue) = self.(Outbound.queue) ++ [(m <| Envelope.message_seq := Some s |>, c)]
  /\ self'.(Outbound.queued_charge) = usize_add self.(Outbound.queued_charge) c
  /\ self'.(Outbound.next) = <[m.(Envelope.stream_id) := s + 1]> self.(Outbound.next)
  /\ self'.(Outbound.ended) = (if sender_final m.(Envelope.kind)
       then <[m.(Envelope.stream_id) := true]> self.(Outbound.ended) else self.(Outbound.ended))
  /\ self'.(Outbound.limits) = self.(Outbound.limits) /\ self'.(Outbound.max_queued) = self.(Outbound.max_queued).
Proof.
  unfold enqueue, next_seq. intros H.
  destruct (negb _); [done|]. destruct (_ || _); [done|].
  destruct (Outbound.ended self !! _) eqn:He; [done|]. cbn [is_some] in H.
  do 4 (match type of H with (if ?c then _ else _) = _ => destruct c; [done|] end).
  destruct (checked_add_i64 _ 1) as [nx|] eqn:Hn; [|done]. apply checked_add_i64_Some in Hn as [-> Hn]. cbn [ok_or] in H.
  destruct (charge _ _) as [base|] eqn:Hc; [|done]. apply charge_range in Hc.
  match type of H with (if ?c then _ else _) = _ => destruct c eqn:Hg; [done|] end.
  apply orb_false_iff in Hg as [Hg1 Hg2]. unfold in_i64 in Hn. rewrite !if_negb in Hg1, Hg2.
  injection H as <- <-. exists (saturating_add_u64 base FRAME_OVERHEAD).
  destruct (bool_decide (_ = MessageKind.Close)), (sender_final _); cbn in *; split_and!; try done; lia.
Qed.

Lemma enqueue_refused m self e self' : enqueue m self = (Err e, self') -> self' = self.
Proof. unfold enqueue. intros H. repeat (case_match; simplify_eq; try done). Qed.

Lemma on_stream_id k m s : on_stream k [m <| Envelope.message_seq := s |>]
  = if decide (m.(Envelope.stream_id) = k) then [m <| Envelope.message_seq := s |>] else [].
Proof. unfold on_stream. rewrite filter_cons, filter_nil. cbn. by destruct (decide _). Qed.

Lemma on_stream_cat k l l' : on_stream k (l ++ l') = on_stream k l ++ on_stream k l'.
Proof. apply list.filter_app. Qed.

(** The history grows by the numbered message. *)
Lemma out_inv_enqueue m s self self' wire : out_inv (self, wire) -> enqueue m self = (Ok s, self') ->
  out_inv (self', wire).
Proof.
  intros [Hl Hmax Hnext Hsome Hopen Hend Hch Hnn Hby Hfr] He.
  destruct (enqueue_spec m self s self' He) as (c & Hs & Hs1 & Hne & Hc & Hf & Hb & Hq & Hqc & Hn & Hen & Hlim & Hm).
  pose proof (limits_spec _ Hl) as Hls. cbn [fst snd] in *.
  assert (Hsent : sent (self', wire) = sent (self, wire) ++ [m <| Envelope.message_seq := Some s |>]).
  { unfold sent. cbn [fst snd]. by rewrite Hq, fmap_app, app_assoc. }
  assert (Hsum : 0 <= sum_Z (Outbound.queue self).*2).
  { apply sum_Z_nonneg. intros x Hx. by apply (proj1 (list.Forall_forall _ _) Hnn). }
  unfold saturating_add_u64 in Hb.
  assert (Hb' : Outbound.queued_charge self + c <= Limits.queued_bytes (Outbound.limits self)).
  { destruct (bool_decide _); norm_int; lia. }
  constructor; cbn [fst snd]; setoid_rewrite Hsent || rewrite ?Hlim, ?Hm; try done.
  - intros k. unfold next_seq. rewrite Hn, on_stream_cat, on_stream_id. cbn [fst]. specialize (Hnext k) as [Hr Hsq].
    unfold next_seq in Hr, Hsq, Hs. destruct (decide (Envelope.stream_id m = k)) as [Hk|Hk].
    + subst k. rewrite lookup_insert_eq. cbn [unwrap_or]. rewrite <- Hs in *. split; [lia|].
      rewrite seqs_app, Hsq. unfold seq_of at 1. cbn [Envelope.message_seq over unwrap_or].
      rewrite seqZ_snoc by lia. f_equal. lia.
    + rewrite lookup_insert_ne by done. by rewrite app_nil_r.
  - apply Forall_app. split; [done|]. by repeat constructor.
  - intros k. rewrite Hen, on_stream_cat, on_stream_id. intros Hk.
    destruct (sender_final (Envelope.kind m)) eqn:Hfin; destruct (decide (Envelope.stream_id m = k)) as [Hid|Hid].
    + subst k. by rewrite lookup_insert_eq in Hk.
    + rewrite app_nil_r. rewrite lookup_insert_ne in Hk by done. auto.
    + apply Forall_app. split; [auto|]. by repeat constructor.
    + rewrite app_nil_r. auto.
  - intros k e. rewrite Hen, on_stream_cat, on_stream_id. intros Hk.
    destruct (sender_final (Envelope.kind m)) eqn:Hfin; destruct (decide (Envelope.stream_id m = k)) as [Hid|Hid].
    + subst k. eexists _, _. split; [done|]. split; [by apply Hopen|]. unfold ongoing. cbn. by rewrite Hfin.
    + rewrite app_nil_r. rewrite lookup_insert_ne in Hk by done. eauto.
    + subst k. congruence.
    + rewrite app_nil_r. eauto.
  - rewrite Hq, Hqc, fmap_app, sum_Z_app, <- Hch. norm_int. cbn. lia.
  - rewrite Hq, fmap_app. apply Forall_app. split; [done|]. by repeat constructor.
  - rewrite Hqc. norm_int. lia.
  - rewrite Hq, length_app. cbn [length]. destruct (bool_decide _); norm_int; lia.
Qed.

Lemma out_inv_pop self self' m wire : out_inv (self, wire) -> pop self = (Some m, self') -> out_inv (self', wire ++ [m]).
Proof.
  intros [Hl Hmax Hnext Hsome Hopen Hend Hch Hnn Hby Hfr] He. unfold pop in He.
  destruct (Outbound.queue self) as [|[m' c] q] eqn:Hq; [done|]. injection He as -> <-.
  cbn [fst snd] in *. rewrite Hq in *.
  assert (Hsent : sent (self <| Outbound.queue := q |>
      <| Outbound.queued_charge := usize_sub (Outbound.queued_charge self) c |>, wire ++ [m]) = sent (self, wire)).
  { unfold sent. cbn. by rewrite Hq, <- app_assoc. }
  pose proof (limits_spec _ Hl) as Hls. cbn [fmap list_fmap] in Hch, Hnn. apply list.Forall_cons in Hnn as [Hc Hnn]. cbn [snd] in Hc.
  change (sum_Z _) with (c + sum_Z q.*2) in Hch.
  assert (0 <= sum_Z q.*2) by (apply sum_Z_nonneg; intros x Hx; by apply (proj1 (list.Forall_forall _ _) Hnn)).
  constructor; cbn [fst snd]; try (setoid_rewrite Hsent); try assumption; cbn -[sum_Z]; norm_int; cbn in Hfr; lia.
Qed.

Lemma final_is_last y k i m : out_inv y -> on_stream k (sent y) !! i = Some m ->
  sender_final m.(Envelope.kind) = true -> S i = length (on_stream k (sent y)).
Proof.
  intros Hy Hi Hf. destruct (Outbound.ended y.1 !! k) as [e|] eqn:He.
  - destruct (oi_ended y Hy k e He) as (a & m' & Ha & Hgo & _). rewrite Ha in *.
    apply lookup_app_Some in Hi as [Hi|[Hge Hi]].
    + apply list_elem_of_lookup_2 in Hi. pose proof (proj1 (list.Forall_forall _ _) Hgo m Hi). unfold ongoing in *. congruence.
    + apply list_lookup_singleton_Some in Hi as [Hi _]. rewrite length_app. cbn. lia.
  - apply list_elem_of_lookup_2 in Hi. pose proof (proj1 (list.Forall_forall _ _) (oi_open y Hy k He) m Hi). unfold ongoing in *. congruence.
Qed.

Lemma out_inv_step o y : out_inv y -> out_inv (ostep o y).
Proof.
  intros Hy. destruct y as [self wire], o as [m|]; cbn [ostep fst snd].
  - destruct (enqueue m self) as [[s|e] self'] eqn:He; cbn [snd]; [by eapply out_inv_enqueue|].
    by rewrite (enqueue_refused _ _ _ _ He).
  - destruct (pop self) as [[m|] self'] eqn:He; [by eapply out_inv_pop|].
    unfold pop in He. destruct (Outbound.queue self) as [|[??]?]; [|done]. by injection He as <-.
Qed.

Lemma out_inv_run ops y : out_inv y -> out_inv (orun ops y).
Proof. revert y. induction ops as [|o ops IH]; intros y Hy; [done|]. apply IH. by apply out_inv_step. Qed.

Lemma valid_limits_spec l : valid_limits l = Ok tt -> Validate.limits l = Ok tt.
Proof.
  unfold valid_limits. intros H. destruct (Codec.admit_limited _ l) as [[]|] eqn:Ha; [|done].
  by apply admit_limited_spec in Ha as (Hl & _).
Qed.

Lemma out_inv_new session d l n self : 0 <= n -> outbound_new session d l n = Ok self -> out_inv (self, []).
Proof.
  unfold outbound_new. intros Hn0 H. destruct (valid_limits l) as [[]|] eqn:Hv; [|done].
  apply valid_limits_spec in Hv. pose proof (limits_spec _ Hv) as Hls.
  destruct (refuse _ _) as [[]|] eqn:Hg; [|done]. apply refuse_Ok in Hg. injection H as <-.
  rewrite !orb_false_iff, Z.eqb_neq, Z.ltb_ge in Hg. destruct Hg as [[_ Hz] Hn]. norm_int.
  constructor; cbn; try done; try lia.
Qed.
End outbound.

(** ** The joined pair *)

(** A list numbered from 1 holds its [i]-th message at [i - 1]. *)
Lemma seqs_lookup (v : list Envelope.t) M i m : seqs v = seqZ 1 M -> v !! i = Some m -> seq_of m = 1 + Z.of_nat i.
Proof.
  intros Hv Hi. pose proof (f_equal (fun x : list Z => x !! i) Hv) as Hvi. cbn beta in Hvi. unfold seqs in Hvi.
  rewrite list_lookup_fmap, Hi in Hvi. cbn in Hvi. symmetry in Hvi. apply lookup_seqZ in Hvi. lia.
Qed.

Lemma seqs_length (v : list Envelope.t) M : 0 <= M -> seqs v = seqZ 1 M -> len v = M.
Proof.
  intros HM Hv. apply (f_equal length) in Hv. unfold seqs in Hv. rewrite length_map, length_seqZ in Hv. lia.
Qed.

(** Of two lists numbered from 1, one drawn from the other is its beginning. *)
Lemma numbered_prefix (l w : list Envelope.t) n N : seqs l = seqZ 1 n -> seqs w = seqZ 1 N ->
  (forall m, m ∈ l -> m ∈ w) -> l `prefix_of` w.
Proof.
  intros Hl Hw Hin.
  assert (Hat : forall i m, l !! i = Some m -> w !! i = Some m).
  { intros i m Hi. pose proof (seqs_lookup l n i m Hl Hi) as H1.
    destruct (proj1 (list_elem_of_lookup w m) (Hin m (list_elem_of_lookup_2 _ _ _ Hi))) as [j Hj].
    pose proof (seqs_lookup w N j m Hw Hj) as H2. by replace i with j by lia. }
  replace l with (take (length l) w); [apply prefix_take|].
  apply list_eq. intros i. destruct (l !! i) as [m|] eqn:Hi.
  - rewrite lookup_take_lt by (eapply lookup_lt_Some; exact Hi). auto.
  - apply lookup_take_ge. by apply lookup_ge_None.
Qed.

Section link.
Context {L : Layout} {Host : Type}.
Variable host_apply : Envelope.t -> Host -> result unit ApplyError.t * Host.

(** The link hands over what the sender gave it: any of it, in any order, any number of times. *)
Definition carried (wire : list Envelope.t) : rop -> Prop := submitted_ok (fun m => m ∈ wire).

(** Numbers of what the link was given. *)
Lemma wire_seqs y k : out_inv y ->
  exists N, 0 <= N /\ seqs (on_stream k y.2) = seqZ 1 N /\ on_stream k y.2 `prefix_of` on_stream k (sent y).
Proof.
  intros Hy. destruct (oi_next y Hy k) as [Hn Hs]. unfold sent in *. rewrite on_stream_cat in *.
  exists (len (on_stream k y.2)). split_and!; [lia| |by eexists].
  unfold seqs in Hs |- *. rewrite map_app in Hs. apply (f_equal (take (length (on_stream k y.2)))) in Hs.
  rewrite take_app_le, take_ge in Hs by (rewrite length_map; lia). rewrite Hs.
  assert (Hlen : len (on_stream k y.2) <= next_seq y.1 k - 1).
  { destruct (oi_next y Hy k) as [_ Hs']. unfold sent in Hs'. rewrite on_stream_cat in Hs'.
    apply seqs_length in Hs'; [|lia]. rewrite length_app in Hs'. lia. }
  apply list_eq. intros i. destruct (decide (i < length (on_stream k y.2))%nat) as [Hi|Hi].
  - rewrite lookup_take_lt by done. rewrite !lookup_seqZ_lt by lia. done.
  - rewrite lookup_take_ge by lia. symmetry. apply lookup_seqZ_ge. lia.
Qed.

(** What reached the host on one stream, against what the sender gave the link. *)
Lemma link_log k out ops y : out_inv out -> Forall (carried out.2) ops -> ordered_all (fun m => m ∈ out.2) y ->
  let log := on_stream k (rrun host_apply ops y).2.2 in
  exists l, l `prefix_of` on_stream k out.2
    /\ (log = l \/ exists m, log = l ++ [m] /\ m ∈ on_stream k out.2
          /\ (log `prefix_of` on_stream k out.2 \/ abortive m.(Envelope.kind) = true)).
Proof.
  intros Hout Hops Hy. cbn zeta. pose proof (ordered_rrun host_apply _ ops y Hops Hy) as Hrun.
  destruct (ordered_log _ k _ Hrun) as (n & l & Hn & Hl & Hgo & Hsent & Hlog).
  destruct (wire_seqs out k Hout) as (N & HN & HwN & _).
  assert (Hin : forall m, m ∈ on_stream k (rrun host_apply ops y).2.2 -> m ∈ on_stream k out.2).
  { intros m Hm. pose proof (proj1 (list.Forall_forall _ _) Hsent m Hm) as Hw. cbn in Hw.
    apply list_elem_of_filter in Hm as [Hk _]. by apply list_elem_of_filter. }
  exists l. destruct Hlog as [Hlog|(m & Hlog & Hf & Hcase)]; rewrite Hlog in *.
  - split; [|by left]. by apply (numbered_prefix l _ n N).
  - assert (Hp : l `prefix_of` on_stream k out.2).
    { apply (numbered_prefix l _ n N); try done. intros x Hx. apply Hin, elem_of_app. by left. }
    split; [done|]. right. exists m. split_and!; [done | apply Hin, elem_of_app; right; by left |].
    destruct Hcase as [Hseq|[_ Hab]]; [left|by right].
    apply (numbered_prefix _ _ (n + 1) N); try done. rewrite seqs_app, Hl, Hseq.
    replace (seqZ 1 n) with (seqZ 1 (n + 1 - 1)) by (f_equal; lia). apply seqZ_snoc. lia.
Qed.
End link.

(** C3: joined by a link that may drop, repeat and reorder, a sender and a receiver of the sequenced
    profile give the host, on every stream, a prefix of what was sent, in order and each message once;
    the one exception is that an abortive message may be applied early, as the last one. *)
Theorem delivered_is_prefix {L : Layout} {Host} (host_apply : Envelope.t -> Host -> result unit ApplyError.t * Host)
    session d l n out session' d' l' r oops rops h k :
  0 <= n -> outbound_new session d l n = Ok out -> receiver_new session' d' l' = Ok r ->
  Forall (carried (orun oops (out, [])).2) rops ->
  let wire := on_stream k (orun oops (out, [])).2 in
  let log := on_stream k (rrun host_apply rops (r, (h, []))).2.2 in
  log `prefix_of` wire
  \/ exists applied m, log = applied ++ [m] /\ applied `prefix_of` wire /\ m ∈ wire /\ abortive m.(Envelope.kind) = true.
Proof.
  intros Hn Hout Hr Hops. cbn zeta.
  destruct (link_log host_apply k _ rops (r, (h, [])) (out_inv_run oops _ (out_inv_new _ _ _ _ _ Hn Hout)) Hops)
    as (a & Hp & [->|(m & Hlog & Hm & [Hpre|Hab])]); [by eapply ordered_new | by left | by left |].
  right. by exists a, m.
Qed.

(** A sender numbers a stream's messages 1, 2, 3, … as it accepts them, so its queue and what left
    it never have a gap; nothing follows a message that ends the stream; and the queue keeps within the
    negotiated frames and bytes, its running charge exact. *)
Theorem outbound_numbers {L : Layout} session d l n out oops k :
  0 <= n -> outbound_new session d l n = Ok out ->
  let y := orun oops (out, []) in
  seqs (on_stream k (sent y)) = seqZ 1 (next_seq y.1 k - 1)
  /\ (forall i m, on_stream k (sent y) !! i = Some m -> sender_final m.(Envelope.kind) = true ->
        S i = length (on_stream k (sent y)))
  /\ y.1.(Outbound.queued_charge) = sum_Z y.1.(Outbound.queue).*2
  /\ y.1.(Outbound.queued_charge) <= y.1.(Outbound.limits).(Limits.queued_bytes)
  /\ len y.1.(Outbound.queue) <= y.1.(Outbound.limits).(Limits.queued_frames).
Proof.
  intros Hn Hout. cbn zeta. set (y := orun oops (out, [])).
  assert (Hy : out_inv y) by (eapply out_inv_run, out_inv_new; done).
  split_and!; [apply oi_next | | apply oi_charge | apply oi_bytes | apply oi_frames]; try done.
  intros i m. by apply final_is_last.
Qed.

(** ** A concrete link *)

Definition sample_outbound : Outbound.t := Outbound.mk "session" Direction.Initiator default_limits 4 [] 0 ∅ ∅ ∅.
Definition sample_sends : list oop :=
  [Enqueue (sample_open <| Envelope.message_seq := None |>); Enqueue (sample_window <| Envelope.message_seq := None |>); Pop; Pop].

Lemma sample_wire : (orun (L := layout64) sample_sends (sample_outbound, [])).2 = [sample_open; sample_window].
Proof. vm_compute. reflexivity. Qed.

Lemma sample_carried : Forall (carried (orun (L := layout64) sample_sends (sample_outbound, [])).2) sample_ops.
Proof.
  rewrite sample_wire.
  constructor; [exact I|]. constructor; [|constructor; [|constructor]].
  - split; [right; left|]. unfold in_i64. cbn. lia.
  - split; [left|]. unfold in_i64. cbn. lia.
Qed.

Lemma delivered_is_prefix_witness :
  let wire := on_stream 1 (orun (L := layout64) sample_sends (sample_outbound, [])).2 in
  let log := on_stream 1 (rrun (L := layout64) sample_host sample_ops (sample_receiver Direction.Initiator, (0, []))).2.2 in
  log `prefix_of` wire
  \/ exists applied m, log = applied ++ [m] /\ applied `prefix_of` wire /\ m ∈ wire /\ abortive m.(Envelope.kind) = true.
Proof.
  apply (delivered_is_prefix (L := layout64) sample_host "session" Direction.Initiator default_limits 4 sample_outbound
    "session" Direction.Initiator default_limits (sample_receiver Direction.Initiator) sample_sends sample_ops 0 1).
  - lia.
  - vm_compute. reflexivity.
  - vm_compute. reflexivity.
  - apply sample_carried.
Defined.

Lemma outbound_numbers_witness :
  seqs (on_stream 1 (sent (orun (L := layout64) sample_sends (sample_outbound, [])))) = [1; 2].
Proof.
  destruct (outbound_numbers (L := layout64) "session" Direction.Initiator default_limits 4 sample_outbound sample_sends 1)
    as [H _]; [lia | vm_compute; reflexivity |].
  etransitivity; [exact H|]. vm_compute. reflexivity.
Defined.
