(* ===== verification/SequencedLive.v ===== *)
(** * Progress of the sequenced profile

    A receiver keeps what it has accepted: a message it answered [Ok] for is
    applied as soon as its predecessors have been accepted too. *)
From S2P Require Import Prelude Utf8 Cbor CborFacts Protocol ProtocolFacts Budget Admission Policy Validate Codec CodecFacts Binding BindingFacts Sequenced SequencedFacts SequencedLink.

Section live.
Context {L : Layout} {Host : Type}.
Variable host_apply : Envelope.t -> Host -> result unit ApplyError.t * Host.
Hypothesis accepts : forall m h, (host_apply m h).1 = Ok tt.
Variable Sent : Envelope.t -> Prop.

(** Message [s] of a stream is applied, buffered, or no longer matters. *)
Definition covered (st : StreamState.t) (s : Z) : Prop :=
  s < st.(StreamState.expected) \/ is_Some (st.(StreamState.pending) !! s) \/ st.(StreamState.terminal) <> None.

Definition drained (st : StreamState.t) : Prop :=
  st.(StreamState.terminal) = None -> st.(StreamState.pending) !! st.(StreamState.expected) = None.

Definition progress (st st' : StreamState.t) : Prop := forall s, covered st s -> covered st' s.

Lemma progress_refl st : progress st st.
Proof. by intros s. Qed.
#[local] Hint Resolve progress_refl : core.
Lemma progress_trans st1 st2 st3 : progress st1 st2 -> progress st2 st3 -> progress st1 st3.
Proof. intros H1 H2 s Hs. by apply H2, H1. Qed.

Lemma progress_gap st g : progress st (st <| StreamState.gap_since := g |>).
Proof. by intros s. Qed.

(** One message applied and taken from the buffer. *)
Lemma progress_applied st st' : st.(StreamState.terminal) = None ->
  st'.(StreamState.pending) = delete st.(StreamState.expected) st.(StreamState.pending) ->
  st'.(StreamState.expected) = st.(StreamState.expected) + 1 -> progress st st'.
Proof.
  intros Ht Hp He s [Hs|[Hs|Hs]]; [left; lia | | done]. unfold covered. rewrite Hp, He.
  destruct (decide (s = StreamState.expected st)) as [->|Hne]; [left; lia|].
  right. left. by rewrite lookup_delete_ne.
Qed.

Lemma accepted_by m h : exists h', host_apply m h = (Ok tt, h').
Proof. pose proof (accepts m h) as H. destruct (host_apply m h) as [r h']. cbn in H. subst r. by exists h'. Qed.

Lemma drain_live fuel : forall k st self h log resolved,
  ordered_stream Sent k st (on_stream k log) -> (size st.(StreamState.pending) <= fuel)%nat ->
  let '(r, (st', self', h', _)) := drain_pending logged (apply_logged host_apply) fuel k (st, self, (h, log), resolved) in
  progress st st' /\ (match r with Ok _ => drained st' | Err e => e = SequencedError.Protocol end).
Proof.
  induction fuel as [|fuel IH]; intros k st self h log resolved Hst Hsz; cbn [drain_pending];
    destruct (StreamState.pending st !! StreamState.expected st) as [p|] eqn:Hp;
    try (destruct (bool_decide (StreamState.pending st = ∅)); (split; [by intros s | by intros _])).
  { apply Nat.le_0_r, map_size_empty_inv in Hsz. by rewrite Hsz, lookup_empty in Hp. }
  destruct (os_pending Sent k st _ Hst _ _ Hp) as (Hnum & Hseq & _ & HS).
  assert (Hterm : StreamState.terminal st = None)
    by (destruct (StreamState.terminal st) as [[t m]|] eqn:Ht; [|done];
        destruct (os_terminal Sent k st _ Hst t m Ht) as (He & _); rewrite He in Hp; done).
  destruct (sender_final _ && negb _) eqn:Hfin; [by split|].
  pose proof (ordered_removed Sent k st _ Hst) as Hrem.
  unfold apply_logged at 1. cbn [fst snd]. destruct (accepted_by (Pending.message p) h) as [h1 ->].
  destruct (mark_applied_order Sent k (st <| StreamState.pending := delete (StreamState.expected st) (StreamState.pending st) |>)
      (Pending.message p) (Pending.charge p) (uncharge (Pending.charge p) self) (on_stream k log))
      as (st1 & self1 & Hmark & Ho & Hpend & _ & Hstr & He & _);
    [ done | done | done | unfold seq_of; by rewrite Hseq
    | cbn; intros s q Hq; apply lookup_delete_Some in Hq as [Hne _]; congruence
    | cbn; intros Hf; rewrite Hf in Hfin; cbn in Hfin; apply negb_false_iff, bool_decide_eq_true in Hfin; done |].
  rewrite Hmark. rewrite <- on_stream_app in Ho by apply Hnum. cbn in Hpend, He.
  assert (Hsz1 : (size (StreamState.pending st1) <= fuel)%nat).
  { rewrite Hpend. rewrite map_size_delete, Hp. cbn in Hsz |- *. lia. }
  specialize (IH k st1 self1 h1 (log ++ [Pending.message p])
      (resolved ++ [Resolution.mk k (seq_of (Pending.message p)) Status.Applied]) Ho Hsz1).
  destruct (drain_pending _ _ _ _ _) as [r [[[st2 self2] h2] res2]]. destruct IH as [H1 H2].
  split; [|done]. eapply progress_trans; [|done]. by apply progress_applied.
Qed.

Ltac kept := split; [apply progress_refl | split; done].

Lemma submit_inner_live k st m fc now self h log :
  ordered_stream Sent k st (on_stream k log) -> numbered k m -> Sent m ->
  let '(r, (st', self', h')) := submit_inner logged (apply_logged host_apply) st m (seq_of m) fc now self (h, log) in
  progress st st' /\ (match r with Ok _ => covered st' (seq_of m) | Err _ => True end)
  /\ (drained st -> fatal r = false -> drained st').
Proof.
  intros Hst Hm HS. unfold submit_inner.
  destruct (StreamState.terminal st) as [[t tm]|] eqn:Ht.
  { split_and!; [done | | done]. destruct (submit_terminal _ _ _ _ _); [|done]. right. right. by rewrite Ht. }
  destruct (seq_of m <? StreamState.expected st) eqn:Hlt.
  { destruct (_ && _); (split_and!; [done | | done]); [done|]. left. lia. }
  destruct (StreamState.pending st !! seq_of m) as [p|] eqn:Hp.
  { destruct (negb _); (split_and!; [done | | done]); [done|]. right. left. by rewrite Hp. }
  destruct ((seq_of m =? 1) && _); [kept|].
  destruct (_ && (is_some _ || _)) eqn:Habort.
  { unfold submit_abort. destruct (existsb _ _); [kept|]. destruct (existsb _ _); [kept|].
    destruct (check_retain _ _ _); [|kept]. unfold apply_logged. cbn [fst snd].
    destruct (accepted_by m h) as [h1 ->]. split_and!; [intros s _|..|done]; right; right; done. }
  destruct (StreamState.expected st <? seq_of m) eqn:Hgt.
  { unfold buffer. cbn [andb].
    do 2 match goal with |- context [if ?c then (Err SequencedError.WouldBlock, _) else _] => destruct c; [kept|] end.
    split_and!.
    - intros s [Hs|[Hs|Hs]]; [by left | right; left | by right; right]. cbn. apply lookup_insert_is_Some'. by right.
    - right. left. cbn. by rewrite lookup_insert_eq.
    - intros Hd _ _. cbn. rewrite lookup_insert_ne by lia. by apply Hd. }
  assert (Heq : seq_of m = StreamState.expected st) by lia.
  destruct (sender_final _ && _) eqn:Hfin; [kept|].
  match goal with |- context [match ?c with Ok _ => _ | Err e => (Err e, (st, self, (h, log))) end] =>
    destruct c; [|kept] end.
  unfold apply_logged at 1. cbn [fst snd]. destruct (accepted_by m h) as [h1 ->].
  destruct (mark_applied_order Sent k st m fc self (on_stream k log)) as (st1 & self1 & Hmark & Ho & Hpend & _ & _ & He & _);
    [done | done | done | done | intros s q Hq ->; congruence | |].
  { intros Hf. rewrite Hf in Hfin. cbn in Hfin. apply bool_decide_eq_false in Hfin. by apply dec_stable. }
  rewrite Hmark. rewrite <- on_stream_app in Ho by apply Hm. unfold drain.
  pose proof (drain_live (size (StreamState.pending st1)) k st1 self1 h1 (log ++ [m])
    [Resolution.mk k (seq_of m) Status.Applied] Ho ltac:(done)) as Hd. rewrite (proj1 Hm).
  assert (H1 : progress st st1).
  { apply progress_applied; [done| |done]. rewrite Hpend, delete_id; [done|]. by rewrite <- Heq. }
  assert (Hcov : covered st1 (seq_of m)) by (left; lia).
  destruct (drain_pending _ _ _ _ _) as [[[]|e] [[[st2 self2] h2] res2]]; destruct Hd as [Hp2 Hd2].
  - split_and!; [by eapply progress_trans | by apply Hp2 | done].
  - split_and!; [by eapply progress_trans | done |]. by subst e.
Qed.

(** ** Runs *)

(** The messages a run submitted and the receiver answered [Ok] for. *)
Fixpoint accepted (ops : list rop) (y : Receiver.t * @logged Host) : list Envelope.t :=
  match ops with
  | [] => []
  | o :: ops =>
      match o with
      | Submit m now => match (submit logged (apply_logged host_apply) m now y.1 y.2).1 with Ok _ => [m] | Err _ => [] end
      | _ => []
      end ++ accepted ops (rstep host_apply o y)
  end.

Record live_all (acc : list Envelope.t) (y : Receiver.t * @logged Host) : Prop := {
  la_covered : forall m, m ∈ acc ->
    exists st, y.1.(Receiver.streams) !! m.(Envelope.stream_id) = Some st /\ covered st (seq_of m);
  la_drained : y.1.(Receiver.failed) = false -> forall k st, y.1.(Receiver.streams) !! k = Some st -> drained st;
}.

Lemma live_same acc self self' h h' : live_all acc (self, h) ->
  self'.(Receiver.streams) = self.(Receiver.streams) ->
  (self'.(Receiver.failed) = false -> self.(Receiver.failed) = false) -> live_all acc (self', h').
Proof. intros [H1 H2] Hs Hf. constructor; cbn [fst snd] in *; rewrite Hs; [done | eauto]. Qed.

Lemma advance_failed now self :
  ((advance now self).2).(Receiver.failed) = false -> self.(Receiver.failed) = false.
Proof. unfold advance. destruct (Receiver.failed self) eqn:Hf; [cbn; congruence|]. by destruct (existsb _ _). Qed.

(** Putting a stream back after it made progress. *)
Lemma live_put_back {A} (r : result A SequencedError.t) acc k self0 self2 st st' h h' :
  live_all acc (self0, h) -> self0.(Receiver.streams) !! k = Some st ->
  self2.(Receiver.streams) = delete k self0.(Receiver.streams) ->
  self2.(Receiver.failed) = self0.(Receiver.failed) ->
  progress st st' -> (drained st -> fatal r = false -> drained st') ->
  live_all acc (put_back r k st' self2, h').
Proof.
  intros [H1 H2] Hk Hs Hf Hp Hd. cbn [fst snd] in *. constructor; cbn [fst snd]; rewrite put_back_streams, Hs, insert_delete_eq.
  - intros m Hm. destruct (H1 m Hm) as (s1 & Hs1 & Hc). destruct (decide (Envelope.stream_id m = k)) as [Heq|Hne].
    + subst k. rewrite lookup_insert_eq. exists st'. split; [done|]. apply Hp. by replace st with s1 by congruence.
    + rewrite lookup_insert_ne by done. eauto.
  - unfold put_back. destruct (fatal r) eqn:Hfr; cbn; [done|]. rewrite Hf. intros Hf0 j sj.
    destruct (decide (j = k)) as [->|Hne].
    + rewrite lookup_insert_eq. intros [= <-]. eauto.
    + rewrite lookup_insert_ne by done. eauto.
Qed.

Lemma live_submit acc m now self h : submitted_ok Sent (Submit m now) -> ordered_all Sent (self, h) ->
  live_all acc (self, h) ->
  let '(r, y') := submit logged (apply_logged host_apply) m now self h in
  live_all (match r with Ok _ => [m] | Err _ => [] end ++ acc) y'.
Proof.
  intros [HS Hi] Ho Hl. unfold submit. pose proof (advance_streams now self) as Hadv.
  pose proof (advance_failed now self) as Hfl.
  destruct (advance now self) as [[[]|e] self0]; cbn [snd] in Hadv, Hfl.
  2:{ by apply (live_same acc self self0 h h). }
  pose proof (ordered_same Sent self self0 h Hadv Ho) as Ho0.
  pose proof (live_same acc self self0 h h Hl Hadv Hfl) as Hl0.
  destruct (negb _); [done|]. destruct (_ || _) eqn:Hg; [done|].
  destruct (Envelope.message_seq m) as [s|] eqn:Hs; [|done].
  destruct (charge m _) as [base|] eqn:Hc; [|done].
  destruct (Receiver.streams self0 !! _) as [st|] eqn:Hst; [|done].
  apply orb_false_iff in Hg as [Hv Hid].
  destruct (charge_sequence m _ base s Hc ltac:(lia) ltac:(lia) Hs) as [Hpos Hmax].
  assert (Hsq : seq_of m = s) by (unfold seq_of; by rewrite Hs). unfold in_i64 in Hi.
  assert (Hn : numbered (Envelope.stream_id m) m) by (split; [done|]; exists s; split; [done|lia]).
  destruct h as [h log]. rewrite <- Hsq.
  match goal with |- context [submit_inner _ _ st m _ ?fc now ?self1 _] =>
    pose proof (submit_inner_live (Envelope.stream_id m) st m fc now self1 h log
      (oa_streams _ _ Ho0 _ _ Hst) Hn HS) as Hin;
    pose proof (submit_inner_order host_apply Sent (Envelope.stream_id m) st m fc now self1 h log
      (oa_streams _ _ Ho0 _ _ Hst) Hn HS) as Hor;
    destruct (submit_inner _ _ st m _ fc now self1 _) as [r [[st' self2] h']] end.
  destruct Hin as (H1 & H2 & H3). destruct Hor as (_ & [H4 H5 _ _]). cbn in H4. injection H5 as H5 _. cbn in H5.
  pose proof (live_put_back r acc _ self0 self2 st st' (h, log) h' Hl0 Hst H4 H5 H1 H3) as Hl'.
  destruct r as [rep|e]; [|done]. destruct Hl' as [Hl1 Hl2]. constructor; [|done].
  intros x [->|Hx]%elem_of_cons; [|by apply Hl1]. cbn [fst snd].
  rewrite put_back_streams, lookup_insert_eq. by exists st'.
Qed.

Lemma live_retry acc k now self h : ordered_all Sent (self, h) -> live_all acc (self, h) ->
  live_all acc (retry logged (apply_logged host_apply) k now self h).2.
Proof.
  intros Ho Hl. unfold retry. pose proof (advance_streams now self) as Hadv.
  pose proof (advance_failed now self) as Hfl.
  destruct (advance now self) as [[[]|e] self0]; cbn [snd] in Hadv, Hfl.
  2:{ by apply (live_same acc self self0 h h). }
  pose proof (ordered_same Sent self self0 h Hadv Ho) as Ho0.
  pose proof (live_same acc self self0 h h Hl Hadv Hfl) as Hl0.
  destruct (Receiver.streams self0 !! k) as [st|] eqn:Hst; [|done]. unfold drain. destruct h as [h log].
  match goal with |- context [drain_pending _ _ ?f k (st, ?self1, _, [])] =>
    pose proof (drain_live f k st self1 h log [] (oa_streams _ _ Ho0 _ _ Hst) ltac:(done)) as Hin;
    pose proof (drain_order host_apply Sent f k st self1 h log [] (oa_streams _ _ Ho0 _ _ Hst)) as Hor;
    destruct (drain_pending _ _ f k _) as [r [[[st' self2] h'] res]] end.
  destruct Hin as (H1 & H2). destruct Hor as (_ & [H4 H5 _ _]). cbn in H4. injection H5 as H5 _. cbn in H5. cbn [snd].
  apply (live_put_back _ acc _ self0 self2 st st' (h, log) h' Hl0 Hst H4 H5 H1).
  intros _ Hf. destruct r as [[]|e]; [done|]. by subst e.
Qed.

Lemma live_rstep acc o y : submitted_ok Sent o -> ordered_all Sent y -> live_all acc y ->
  live_all (accepted [o] y ++ acc) (rstep host_apply o y).
Proof.
  intros Hok Ho Hl. destruct y as [self h], o as [k|now|m now|k now]; cbn [accepted rstep fst snd app].
  - unfold register. destruct (Receiver.failed self) eqn:Hf; [done|]. destruct (_ || _) eqn:Hg; [done|].
    repeat (case_match; [exact Hl|]). apply orb_false_iff in Hg as [_ Hn].
    assert (Hnone : Receiver.streams self !! k = None) by (by destruct (_ !! _)).
    destruct Hl as [H1 H2]. constructor; cbn in *.
    + intros m Hm. destruct (H1 m Hm) as (st & Hst & Hc). exists st. split; [|done].
      rewrite lookup_insert_ne; [done|]. intros ->. congruence.
    + intros _ j st. destruct (decide (j = k)) as [->|Hj].
      * rewrite lookup_insert_eq. by intros [= <-].
      * rewrite lookup_insert_ne by done. eauto.
  - apply (live_same acc self _ h h Hl); [apply advance_streams | apply advance_failed].
  - rewrite app_nil_r. pose proof (live_submit acc m now self h Hok Ho Hl) as Hs.
    by destruct (submit _ _ _ _ _ _) as [r y'].
  - by apply live_retry.
Qed.

Lemma live_rrun ops acc y : Forall (submitted_ok Sent) ops -> ordered_all Sent y -> live_all acc y ->
  live_all (rev (accepted ops y) ++ acc) (rrun host_apply ops y).
Proof.
  intros Hops. revert acc y. induction Hops as [|o ops Ho Hops IH]; intros acc y Hy Hl; [done|].
  change (rrun host_apply (o :: ops) y) with (rrun host_apply ops (rstep host_apply o y)).
  cbn [accepted].
  pose proof (IH _ _ (ordered_rstep host_apply Sent o y Ho Hy) (live_rstep acc o y Ho Hy Hl)) as Hr.
  cbn [accepted] in Hr. rewrite app_nil_r in Hr. rewrite rev_app_distr, <- app_assoc.
  destruct o as [k|now|m now|k now]; cbn [rev app] in *; try done.
  by destruct (submit _ _ _ _ _ _).1.
Qed.

Lemma live_new session d l r (h : Host) : receiver_new session d l = Ok r -> live_all [] (r, (h, [])).
Proof.
  unfold receiver_new. intros H. destruct (valid_limits l); [|done]. destruct (refuse _ _); [|done].
  injection H as <-. constructor; cbn; [by intros m Hm%elem_of_nil | done].
Qed.
End live.

(** A stream whose sent messages are all covered was applied whole, or aborted. *)
Lemma live_stream_log {L : Layout} {Host} k out acc (y : Receiver.t * @logged Host) :
  out_inv out -> ordered_all (fun m => m ∈ out.2) y -> y.1.(Receiver.failed) = false -> live_all acc y ->
  (forall m, m ∈ on_stream k out.2 -> m ∈ acc) ->
  on_stream k y.2.2 = on_stream k out.2
  \/ exists m, m ∈ on_stream k y.2.2 /\ abortive m.(Envelope.kind) = true.
Proof.
  intros Hoi [Hos Hnone Hsent] Hfail [Hcov Hdr] Hall. specialize (Hdr Hfail).
  destruct (wire_seqs out k Hoi) as (N & HN & HwN & Hpre).
  assert (Hin : forall m, m ∈ on_stream k y.2.2 -> m ∈ on_stream k out.2).
  { intros m [Hk Hm]%list_elem_of_filter. apply list_elem_of_filter. split; [done|].
    apply (proj1 (list.Forall_forall _ _) Hsent m Hm). }
  assert (Hat : forall m, m ∈ on_stream k out.2 ->
    exists st, Receiver.streams y.1 !! k = Some st /\ covered st (seq_of m)).
  { intros m Hm. destruct (Hcov m (Hall m Hm)) as (st & Hst & Hc).
    apply list_elem_of_filter in Hm as [Hk _]. rewrite Hk in Hst. by exists st. }
  destruct (Receiver.streams y.1 !! k) as [st|] eqn:Hk.
  2:{ left. rewrite Hnone by done. destruct (on_stream k out.2) as [|m w]; [done|].
      destruct (Hat m ltac:(by left)) as (st & Hst & _). congruence. }
  specialize (Hos k st Hk). destruct (StreamState.terminal st) as [[t m]|] eqn:Ht.
  - destruct (os_terminal _ _ _ _ Hos t m Ht) as (_ & Hnum & Hms & Hf & l & Hl & _ & [[He Hs]|(_ & Hab & _)]).
    2:{ right. exists m. split; [|done]. rewrite Hl. apply elem_of_app. right. by left. }
    left. pose proof (numbered_seq k m Hnum) as Hr. unfold seq_of in Hr. rewrite Hms in Hr. cbn in Hr.
    assert (Hp : l ++ [m] `prefix_of` on_stream k out.2).
    { apply (numbered_prefix _ _ t N); [|done|by rewrite <- Hl]. rewrite seqs_app, Hs. unfold seq_of. rewrite Hms. apply seqZ_snoc. cbn. lia. }
    rewrite Hl. apply prefix_length_eq; [done|].
    pose proof (final_is_last out k (length l) m Hoi) as Hlast. rewrite length_app. cbn.
    pose proof (prefix_length _ _ Hpre) as Hlen. rewrite <- Hlast in Hlen; [lia | | done].
    apply (prefix_lookup_Some (on_stream k out.2)); [|done]. apply (prefix_lookup_Some (l ++ [m])); [|done].
    by rewrite lookup_app_r, Nat.sub_diag by lia.
  - left. destruct (os_open _ _ _ _ Hos Ht) as [Hs _]. pose proof (os_expected _ _ _ _ Hos) as Hr.
    apply prefix_length_eq; [by eapply numbered_prefix|].
    assert (HlenN : len (on_stream k out.2) = N) by (by apply seqs_length).
    assert (Hlenl : len (on_stream k y.2.2) = StreamState.expected st - 1) by (apply seqs_length; [lia|done]).
    destruct (decide (N <= StreamState.expected st - 1)) as [Hle|Hgt]; [lia|].
    destruct (lookup_lt_is_Some_2 (on_stream k out.2) (Z.to_nat (StreamState.expected st - 1))) as [m Hm]; [lia|].
    pose proof (seqs_lookup _ _ _ _ HwN Hm) as Hsm.
    destruct (Hat m) as (st' & [= <-] & Hc); [by eapply list_elem_of_lookup_2|].
    replace (seq_of m) with (StreamState.expected st) in Hc by lia.
    destruct Hc as [Hc|[[p Hc]|Hc]]; [lia | | done]. by rewrite (Hdr k st Hk Ht) in Hc.
Qed.

(** C15: nothing a receiver accepted is lost.  When the host applies whatever it is given and the binding
    has not failed, a stream all of whose sent messages were accepted, in any order and between any
    other traffic, has been applied whole, in the order sent, unless an abortive message ended it. *)
Theorem all_delivered {L : Layout} {Host} (host_apply : Envelope.t -> Host -> result unit ApplyError.t * Host)
    session d l n out session' d' l' r oops rops h k :
  (forall m h, (host_apply m h).1 = Ok tt) ->
  0 <= n -> outbound_new session d l n = Ok out -> receiver_new session' d' l' = Ok r ->
  Forall (carried (orun oops (out, [])).2) rops ->
  let wire := on_stream k (orun oops (out, [])).2 in
  let final := rrun host_apply rops (r, (h, [])) in
  (forall m, m ∈ wire -> m ∈ accepted host_apply rops (r, (h, []))) ->
  final.1.(Receiver.failed) = false ->
  on_stream k final.2.2 = wire
  \/ exists m, m ∈ on_stream k final.2.2 /\ abortive m.(Envelope.kind) = true.
Proof.
  intros Hacc Hn Hout Hr Hops. cbn zeta. intros Hall Hfail.
  pose proof (out_inv_run oops _ (out_inv_new _ _ _ _ _ Hn Hout)) as Hoi.
  pose proof (ordered_rrun host_apply _ rops _ Hops (ordered_new _ _ _ _ _ h Hr)) as Hrun.
  assert (Hl0 : live_all [] (r, (h, []))) by (by eapply live_new).
  pose proof (live_rrun host_apply Hacc _ rops [] _ Hops (ordered_new _ _ _ _ _ h Hr) Hl0) as Hlive.
  set (final := rrun host_apply rops (r, (h, []))) in *.
  destruct (live_stream_log k _ _ final Hoi Hrun Hfail Hlive) as [Hlog|Hab]; [|by left|by right].
  intros m Hm. apply elem_of_app. left. apply list_elem_of_In, in_rev. rewrite rev_involutive. by apply list_elem_of_In, Hall.
Qed.

Lemma sample_accepted :
  accepted (L := layout64) sample_host sample_ops (sample_receiver Direction.Initiator, (0, [])) = [sample_window; sample_open].
Proof. vm_compute. reflexivity. Qed.

(** Both messages of the sample link are accepted, the second before the first. *)
Lemma all_delivered_witness :
  let wire := on_stream 1 (orun (L := layout64) sample_sends (sample_outbound, [])).2 in
  let final := rrun (L := layout64) sample_host sample_ops (sample_receiver Direction.Initiator, (0, [])) in
  on_stream 1 final.2.2 = wire
  \/ exists m, m ∈ on_stream 1 final.2.2 /\ abortive m.(Envelope.kind) = true.
Proof.
  apply (all_delivered (L := layout64) sample_host "session" Direction.Initiator default_limits 4 sample_outbound
    "session" Direction.Initiator default_limits (sample_receiver Direction.Initiator) sample_sends sample_ops 0 1).
  - intros m h. reflexivity.
  - lia.
  - vm_compute. reflexivity.
  - vm_compute. reflexivity.
  - apply sample_carried.
  - intros m. rewrite sample_accepted, sample_wire. intros [_ Hm]%list_elem_of_filter. revert Hm.
    intros [->|[->|Hm%elem_of_nil]%elem_of_cons]%elem_of_cons; [right; left | left | done].
  - vm_compute. reflexivity.
Defined.
