(* ===== verification/SequencedAccount.v ===== *)
(** * The accounts of the sequenced receiver

    The receiver bounds what it holds by three running counters.  They are
    exact sums over its streams, their arithmetic never wraps, and together
    they stay inside the bytes and frames the binding agreed. *)
From S2P Require Import Prelude Utf8 Cbor CborFacts Protocol ProtocolFacts Budget Admission Policy Validate Codec CodecFacts Binding BindingFacts Sequenced SequencedFacts SequencedLink.

(** ** Sums over a map *)

Section sums.
Context {V : Type}.
Definition total (f : V -> Z) (m : gmap Z V) : Z := sum_Z (map f (values m)).

Lemma total_insert f (m : gmap Z V) k v : m !! k = None -> total f (<[k:=v]> m) = f v + total f m.
Proof.
  intros Hk. unfold total, values.
  rewrite (sum_Z_perm _ (map f (((k, v) :: entries m).*2))); [done|].
  apply Permutation_map, fmap_Permutation. by apply entries_insert_perm.
Qed.

Lemma total_delete f (m : gmap Z V) k v : m !! k = Some v -> total f m = f v + total f (delete k m).
Proof. intros Hk. rewrite <- (total_insert f (delete k m) k v) by apply lookup_delete_eq. by rewrite insert_delete_id. Qed.

Lemma total_empty f : total f (∅ : gmap Z V) = 0.
Proof. unfold total, values. by rewrite entries_empty. Qed.

Lemma total_nonneg f (m : gmap Z V) : (forall k v, m !! k = Some v -> 0 <= f v) -> 0 <= total f m.
Proof.
  intros Hf. apply sum_Z_nonneg. intros x (v & -> & Hv)%list_elem_of_fmap.
  apply elem_of_values in Hv as [k Hk]. eauto.
Qed.
End sums.

Section account.
Context {L : Layout}.

(** What a message counts for. *)
Definition frame_of (l : Limits.t) (m : Envelope.t) : Z :=
  match charge m l with Ok n => saturating_add_u64 n FRAME_OVERHEAD | Err _ => 0 end.
Lemma frame_of_range l m : Validate.limits l = Ok tt -> 0 <= frame_of l m <= MAX_ALLOCATION + 65536 + 128.
Proof.
  intros Hl. unfold frame_of. destruct (charge m l) as [n|] eqn:Hc; [|unfold MAX_ALLOCATION; lia].
  pose proof (charge_range _ _ _ Hc). unfold charge, map_err in Hc. destruct (Codec.allocation_charge m l) eqn:Ha; [|done].
  injection Hc as ->. apply allocation_charge_range in Ha as (_ & _ & Hn). apply limits_spec in Hl.
  unfold saturating_add_u64, FRAME_OVERHEAD in *. pose proof layout_pending. lia.
Qed.

Definition frames (st : StreamState.t) : Z := map_len st.(StreamState.pending).
Definition held (st : StreamState.t) : Z := total Pending.charge st.(StreamState.pending).

(** A stream's opening and terminal messages are kept to recognise repeats;
    the terminal is charged unless it is the stream's first message. *)
Definition kept (l : Limits.t) (st : StreamState.t) : Z :=
  match st.(StreamState.opening) with Some m => frame_of l m | None => 0 end
  + match st.(StreamState.terminal) with Some (t, m) => if t =? 1 then 0 else frame_of l m | None => 0 end.

(** A stream taken out of its receiver for a delivery, against the counters. *)
Record balanced (st : StreamState.t) (self : Receiver.t) : Prop := {
  ba_limits : Validate.limits self.(Receiver.limits) = Ok tt;
  ba_frames : self.(Receiver.buffered_frames) = frames st + total frames self.(Receiver.streams);
  ba_held : self.(Receiver.buffered_charge) = held st + total held self.(Receiver.streams);
  ba_kept : self.(Receiver.retained_charge)
    = kept self.(Receiver.limits) st + total (kept self.(Receiver.limits)) self.(Receiver.streams);
  ba_charge : forall s p, st.(StreamState.pending) !! s = Some p ->
    p.(Pending.charge) = frame_of self.(Receiver.limits) p.(Pending.message);
  ba_opening : st.(StreamState.expected) = 1 -> st.(StreamState.opening) = None;
  ba_rest : 0 <= total frames self.(Receiver.streams) /\ 0 <= total held self.(Receiver.streams)
    /\ 0 <= total (kept self.(Receiver.limits)) self.(Receiver.streams);
  ba_bytes : (map_len self.(Receiver.streams) + 1) * RECORD_CHARGE + self.(Receiver.retained_charge)
    + self.(Receiver.buffered_charge)
    <= self.(Receiver.limits).(Limits.queued_bytes) - self.(Receiver.limits).(Limits.control_reserve_bytes);
  ba_count : self.(Receiver.buffered_frames)
    <= self.(Receiver.limits).(Limits.queued_frames) - self.(Receiver.limits).(Limits.control_reserve_frames);
}.

Lemma frames_nonneg st : 0 <= frames st.
Proof. unfold frames, map_len. lia. Qed.

Lemma held_nonneg st l : Validate.limits l = Ok tt -> (forall s p, st.(StreamState.pending) !! s = Some p ->
    p.(Pending.charge) = frame_of l p.(Pending.message)) -> 0 <= held st.
Proof. intros Hl Hp. apply total_nonneg. intros s p Hs. rewrite (Hp s p Hs). by apply frame_of_range. Qed.

Lemma kept_nonneg st l : Validate.limits l = Ok tt -> 0 <= kept l st.
Proof.
  intros Hl. unfold kept. pose proof (fun m => proj1 (frame_of_range l m Hl)) as Hf.
  destruct (StreamState.opening st) as [m|], (StreamState.terminal st) as [[t m']|]; try destruct (t =? 1);
    try pose proof (Hf m); try pose proof (Hf m'); lia.
Qed.

Lemma record_charge_range : 256 <= RECORD_CHARGE <= 65536 + 256.
Proof. unfold RECORD_CHARGE. pose proof layout_stream_state. lia. Qed.

(** The available bytes and frames, with their arithmetic exact. *)
Lemma available_exact self : Validate.limits self.(Receiver.limits) = Ok tt ->
  available_bytes self = self.(Receiver.limits).(Limits.queued_bytes) - self.(Receiver.limits).(Limits.control_reserve_bytes).
Proof. intros Hl. apply limits_spec in Hl. unfold available_bytes. norm_int. lia. Qed.

(** The counters of a balanced stream, for [lia]. *)
Lemma balanced_facts st self : balanced st self ->
  0 <= frames st /\ 0 <= held st /\ 0 <= kept self.(Receiver.limits) st
  /\ 0 <= self.(Receiver.buffered_frames) <= 64 /\ 0 <= self.(Receiver.buffered_charge) <= 4194304
  /\ 0 <= self.(Receiver.retained_charge) <= 4194304
  /\ 0 <= (map_len self.(Receiver.streams) + 1) * RECORD_CHARGE <= 4194304
  /\ records self = (map_len self.(Receiver.streams) + 1) * RECORD_CHARGE
  /\ available_bytes self
     = self.(Receiver.limits).(Limits.queued_bytes) - self.(Receiver.limits).(Limits.control_reserve_bytes)
  /\ 0 <= available_bytes self <= 4194304.
Proof.
  intros H. pose proof (ba_limits _ _ H) as Hl. pose proof (limits_spec _ Hl) as Hs.
  pose proof (held_nonneg _ _ Hl (ba_charge _ _ H)). pose proof (kept_nonneg st _ Hl). pose proof (frames_nonneg st).
  pose proof record_charge_range. rewrite (available_exact _ Hl).
  destruct H as [_ Hf Hh Hk _ _ (?&?&?) Hb Hc]. unfold records, saturating_mul_u64, saturating_add_u64, map_len in *.
  assert (0 <= (Z.of_nat (size (Receiver.streams self)) + 1) * RECORD_CHARGE) by nia.
  split_and!; lia.
Qed.

Lemma frames_delete st s p : st.(StreamState.pending) !! s = Some p ->
  frames (st <| StreamState.pending := delete s (StreamState.pending st) |>) = frames st - 1.
Proof.
  intros Hp. unfold frames, map_len. cbn. rewrite map_size_delete, Hp. cbn.
  pose proof (map_size_non_empty_iff (StreamState.pending st)) as Hne.
  destruct (size (StreamState.pending st)) eqn:Hs; [|lia].
  apply map_size_empty_inv in Hs. by rewrite Hs, lookup_empty in Hp.
Qed.

(** Taking a message out of the buffer. *)
Lemma uncharge_balanced st self s p : balanced st self -> st.(StreamState.pending) !! s = Some p ->
  balanced (st <| StreamState.pending := delete s (StreamState.pending st) |>) (uncharge p.(Pending.charge) self)
  /\ (uncharge p.(Pending.charge) self).(Receiver.buffered_charge) = self.(Receiver.buffered_charge) - p.(Pending.charge).
Proof.
  intros H Hp. pose proof (balanced_facts _ _ H) as Hf. destruct H as [Hl Hfr Hh Hk Hc Ho Hr Hb Hn].
  pose proof (frame_of_range _ (Pending.message p) Hl) as Hpr. rewrite <- (Hc s p Hp) in Hpr.
  pose proof (frames_delete st s p Hp) as Hfd.
  set (st' := st <| StreamState.pending := delete s (StreamState.pending st) |>) in *.
  assert (Hhd : held st' = held st - Pending.charge p).
  { unfold held. cbn. rewrite (total_delete _ _ s p Hp). lia. }
  assert (Hc' : forall s' p', st'.(StreamState.pending) !! s' = Some p' ->
    p'.(Pending.charge) = frame_of self.(Receiver.limits) p'.(Pending.message)).
  { cbn. intros s' p' [_ Hp']%lookup_delete_Some. eauto. }
  assert (Hkd : kept (Receiver.limits self) st' = kept (Receiver.limits self) st) by done.
  assert (Ho' : st'.(StreamState.expected) = 1 -> st'.(StreamState.opening) = None) by done.
  pose proof (held_nonneg _ _ Hl Hc') as Hh0. pose proof (frames_nonneg st') as Hf0. clearbody st'.
  unfold uncharge. split; [|cbn; norm_int; lia].
  constructor; cbn [Receiver.limits Receiver.buffered_frames Receiver.buffered_charge Receiver.retained_charge
    Receiver.streams over]; norm_int; try done; lia.
Qed.

(** Applying the expected message, when there is room to keep it. *)
Lemma mark_applied_balanced st m self st' self' : balanced st self -> st.(StreamState.terminal) = None ->
  seq_of m = st.(StreamState.expected) -> 1 <= seq_of m ->
  (seq_of m = 1 \/ sender_final m.(Envelope.kind) = true ->
   (map_len self.(Receiver.streams) + 1) * RECORD_CHARGE + self.(Receiver.retained_charge)
    + self.(Receiver.buffered_charge) + frame_of self.(Receiver.limits) m
    <= self.(Receiver.limits).(Limits.queued_bytes) - self.(Receiver.limits).(Limits.control_reserve_bytes)) ->
  mark_applied st m (frame_of self.(Receiver.limits) m) self = (Ok tt, (st', self')) -> balanced st' self'.
Proof.
  intros H Ht Hs H1 Hroom Hm. pose proof (balanced_facts _ _ H) as Hf. destruct H as [Hl Hfr Hh Hk Hc Ho Hr Hb Hn].
  pose proof (frame_of_range _ m Hl) as Hpr. unfold MAX_ALLOCATION in Hpr. unfold mark_applied in Hm.
  destruct (Z.eqb_spec (seq_of m) 1) as [Hone|Hone]; destruct (sender_final _) eqn:Hfin; cbn [andb negb] in Hm;
    (destruct (checked_add_i64 _ 1) eqn:Hadd; [|done]); apply checked_add_i64_Some in Hadd as [-> _];
    try (destruct (bool_decide _); [done|]); injection Hm as <- <-;
    (constructor; cbn -[total frames held kept]; try done; norm_int; try lia).
  all: unfold kept in Hk, Hf |- *; cbn -[total]; rewrite ?Ht, ?Hone in *; cbn -[total] in *; rewrite ?Ho in * by lia; try lia.
  all: try (rewrite (proj2 (Z.eqb_neq _ _) Hone); lia).
Qed.

(** Room that a check has found. *)
Lemma check_retain_room st self c releasing : balanced st self -> 0 <= c <= 1048576 ->
  0 <= releasing <= self.(Receiver.buffered_charge) -> check_retain c releasing self = Ok tt ->
  (map_len self.(Receiver.streams) + 1) * RECORD_CHARGE + self.(Receiver.retained_charge)
    + (self.(Receiver.buffered_charge) - releasing) + c
    <= self.(Receiver.limits).(Limits.queued_bytes) - self.(Receiver.limits).(Limits.control_reserve_bytes).
Proof.
  intros H Hc Hr Hk. pose proof (balanced_facts _ _ H) as Hf. unfold check_retain in Hk. apply refuse_Ok in Hk.
  destruct Hf as (_ & _ & _ & _ & ? & ? & ? & Hrec & Hav & _). rewrite Hrec, Hav in Hk.
  unfold saturating_add_u64, saturating_sub_u64 in Hk. lia.
Qed.

(** Buffering a message: its charge moves the counters by as much. *)
Lemma buffer_balanced st m self now ooo st' self' : balanced st self ->
  st.(StreamState.pending) !! seq_of m = None ->
  buffer st m (frame_of self.(Receiver.limits) m) now ooo self = (Ok tt, (st', self')) -> balanced st' self'.
Proof.
  intros H Hnone Hb. pose proof (balanced_facts _ _ H) as Hf. destruct H as [Hl Hfr Hh Hk Hc Ho Hr Hby Hn].
  pose proof (frame_of_range _ m Hl) as Hpr. unfold MAX_ALLOCATION in Hpr. pose proof (limits_spec _ Hl) as Hls.
  unfold buffer in Hb. destruct (ooo && _); [done|]. destruct (_ || _) eqn:Hg; [done|]. injection Hb as <- <-.
  destruct Hf as (? & ? & ? & ? & ? & ? & ? & Hrec & Hav & ?). rewrite Hrec, Hav in Hg.
  apply orb_false_iff in Hg as [Hg1 Hg2]. unfold saturating_add_u64 in Hg1.
  assert (Hpre : 0 <= (if ooo then predecessor_reserve self else 0)).
  { destruct ooo; [|lia]. unfold predecessor_reserve, usize_add. apply as_u64_range. }
  match goal with |- balanced ?x _ => set (st' := x) end.
  assert (Hhd : held st' = frame_of (Receiver.limits self) m + held st).
  { unfold held. cbn. by rewrite total_insert. }
  assert (Hfd : frames st' = frames st + 1).
  { unfold frames, map_len. cbn. rewrite map_size_insert_None by done. lia. }
  assert (Hkd : kept (Receiver.limits self) st' = kept (Receiver.limits self) st) by done.
  assert (Hc' : forall s p, st'.(StreamState.pending) !! s = Some p ->
    p.(Pending.charge) = frame_of self.(Receiver.limits) p.(Pending.message)).
  { cbn. intros s p [[<- <-]|[_ Hp]]%lookup_insert_Some; [done|eauto]. }
  assert (Ho' : st'.(StreamState.expected) = 1 -> st'.(StreamState.opening) = None) by done.
  clearbody st'.
  constructor; cbn [Receiver.limits Receiver.buffered_frames Receiver.buffered_charge Receiver.retained_charge
    Receiver.streams over]; norm_int; try done; try lia.
  destruct ooo; norm_int; lia.
Qed.

Lemma buffer_kept st m c now ooo self e st' self' :
  buffer st m c now ooo self = (Err e, (st', self')) -> (st', self') = (st, self).
Proof. unfold buffer. repeat case_match; by intros [= <- <- <-]. Qed.

(** Dropping the whole buffer of a stream. *)
Lemma fold_uncharge_exact (l : list (Z * Pending.t)) : forall self,
  Forall (fun e => 0 <= e.2.(Pending.charge)) l ->
  len l <= self.(Receiver.buffered_frames) <= 64 ->
  sum_Z (map (fun e => e.2.(Pending.charge)) l) <= self.(Receiver.buffered_charge) <= 4194304 ->
  let self' := fold_left (fun self e => uncharge e.2.(Pending.charge) self) l self in
  self' = self <| Receiver.buffered_frames := self.(Receiver.buffered_frames) - len l |>
               <| Receiver.buffered_charge := self.(Receiver.buffered_charge) - sum_Z (map (fun e => e.2.(Pending.charge)) l) |>.
Proof.
  induction l as [|e l IH]; intros self Hl Hn Hc; cbn zeta.
  - cbn. rewrite !Z.sub_0_r. by destruct self.
  - apply list.Forall_cons in Hl as [He Hl]. cbn [fold_left map length] in *.
    change (sum_Z (?x :: ?k)) with (x + sum_Z k) in *.
    assert (0 <= sum_Z (map (fun e => Pending.charge e.2) l)).
    { apply sum_Z_nonneg. intros x (e' & -> & He')%list_elem_of_fmap. by apply (proj1 (list.Forall_forall _ _) Hl). }
    rewrite IH; unfold uncharge; cbn -[sum_Z]; norm_int; try lia; try done. f_equal; lia.
Qed.

Lemma held_entries st : held st = sum_Z (map (fun e => e.2.(Pending.charge)) (entries st.(StreamState.pending))).
Proof. unfold held, total, values. f_equal. rewrite <- list_fmap_compose. done. Qed.

Context {Host : Type}.
Variable host_apply : Envelope.t -> Host -> result unit ApplyError.t * Host.
Abbreviation ordered := (ordered_stream (fun _ => True)).

Lemma balanced_gap st self g : balanced st self -> balanced (st <| StreamState.gap_since := g |>) self.
Proof. by intros [H1 H2 H3 H4 H5 H6 H7 H8 H9]. Qed.

Lemma drain_balanced fuel : forall k st self h log resolved,
  ordered k st (on_stream k log) -> balanced st self ->
  let '(r, (st', self', _, _)) := drain_pending logged (apply_logged host_apply) fuel k (st, self, (h, log), resolved) in
  fatal r = false -> balanced st' self'.
Proof.
  induction fuel as [|fuel IH]; intros k st self h log resolved Hst Hb; cbn [drain_pending].
  all: destruct (StreamState.pending st !! StreamState.expected st) as [p|] eqn:Hp;
    [|destruct (bool_decide (StreamState.pending st = ∅)); intros _; by try apply balanced_gap].
  all: destruct (os_pending _ k st _ Hst _ _ Hp) as (Hnum & Hseq & _ & _).
  all: assert (Hterm : StreamState.terminal st = None)
    by (destruct (StreamState.terminal st) as [[t m]|] eqn:Ht; [|done];
        destruct (os_terminal _ k st _ Hst t m Ht) as (He & _); rewrite He in Hp; done).
  all: destruct (sender_final _ && negb _) eqn:Hfin; [done|].
  all: pose proof (ordered_removed _ k st _ Hst) as Hrem.
  all: unfold apply_logged at 1; cbn [fst snd];
    destruct (host_apply (Pending.message p) h) as [[[]|[]] h1];
    [| destruct (bool_decide (StreamState.pending st = ∅)); intros _; by try apply balanced_gap | done].
  all: destruct (mark_applied_order (fun _ => True) k (st <| StreamState.pending := delete (StreamState.expected st) (StreamState.pending st) |>)
      (Pending.message p) (Pending.charge p) (uncharge (Pending.charge p) self) (on_stream k log))
      as (st1 & self1 & Hmark & Ho & _ & _ & Hstr & _);
    [ done | done | done | unfold seq_of; by rewrite Hseq
    | cbn; intros s q Hq; apply lookup_delete_Some in Hq as [Hne _]; congruence
    | cbn; intros Hf; rewrite Hf in Hfin; cbn in Hfin; apply negb_false_iff, bool_decide_eq_true in Hfin; done |].
  all: destruct (uncharge_balanced st self _ p Hb Hp) as [Hb1 Hbc].
  all: pose proof (ba_bytes _ _ Hb) as Hby; pose proof (ba_charge _ _ Hb _ _ Hp) as Hch;
    pose proof (numbered_seq k _ Hnum) as Hsn.
  all: assert (Hb2 : balanced st1 self1) by
    (eapply mark_applied_balanced; [exact Hb1 | done | unfold seq_of; by rewrite Hseq | lia
     | intros _; rewrite Hbc; change (Receiver.limits (uncharge (Pending.charge p) self)) with (Receiver.limits self);
       rewrite <- Hch; cbn in Hby |- *; lia
     | change (Receiver.limits (uncharge (Pending.charge p) self)) with (Receiver.limits self); rewrite <- Hch; exact Hmark]).
  all: rewrite Hmark; rewrite <- on_stream_app in Ho by apply Hnum.
  - destruct (bool_decide (StreamState.pending st1 = ∅)); intros _; by try apply balanced_gap.
  - specialize (IH k st1 self1 h1 (log ++ [Pending.message p])
      (resolved ++ [Resolution.mk k (seq_of (Pending.message p)) Status.Applied]) Ho Hb2).
    by destruct (drain_pending _ _ _ _ _) as [r [[[st2 self2] h2] res2]].
Qed.

Lemma submit_abort_balanced k st m self h log : ordered k st (on_stream k log) -> balanced st self ->
  st.(StreamState.terminal) = None -> 1 < seq_of m ->
  let '(_, (st', self', _)) :=
    submit_abort logged (apply_logged host_apply) st m (seq_of m) (frame_of self.(Receiver.limits) m) self (h, log) in
  balanced st' self'.
Proof.
  intros Hst Hb Ht Hs. unfold submit_abort. destruct (existsb _ _); [done|]. destruct (existsb _ _); [done|].
  pose proof (balanced_facts _ _ Hb) as Hf. pose proof (frame_of_range _ m (ba_limits _ _ Hb)) as Hpr.
  unfold MAX_ALLOCATION in Hpr. rewrite <- held_entries.
  assert (Hh : held st <= Receiver.buffered_charge self).
  { pose proof (ba_held _ _ Hb). pose proof (ba_rest _ _ Hb). lia. }
  assert (Hfr : frames st <= Receiver.buffered_frames self).
  { pose proof (ba_frames _ _ Hb). pose proof (ba_rest _ _ Hb). lia. }
  rewrite as_usize_id by lia. destruct (check_retain _ _ _) as [[]|] eqn:Hk; [|done].
  apply (check_retain_room st) in Hk; [|done|lia|lia].
  unfold apply_logged. cbn [fst snd]. destruct (host_apply m h) as [[[]|[]] h1]; [|done|done].
  assert (Hfold := fold_uncharge_exact (entries (StreamState.pending st)) self). cbn zeta in Hfold.
  rewrite <- held_entries in Hfold. unfold frames, map_len in *. rewrite length_entries in Hfold.
  rewrite Hfold; [| |lia|lia].
  2:{ apply list.Forall_forall. intros [s p] Hp. apply elem_of_entries in Hp. cbn.
      rewrite (ba_charge _ _ Hb s p Hp). apply frame_of_range, (ba_limits _ _ Hb). }
  destruct Hb as [Hl Hfr' Hh' Hk' Hc Ho Hr Hby Hn]. unfold frames, map_len in *.
  match goal with |- balanced ?x _ => set (st' := x) end.
  assert (Hhd : held st' = 0) by (unfold held; cbn -[total]; apply total_empty).
  assert (Hkd : kept (Receiver.limits self) st' = kept (Receiver.limits self) st + frame_of (Receiver.limits self) m).
  { unfold kept. cbn. rewrite Ht. rewrite (proj2 (Z.eqb_neq (seq_of m) 1)) by lia. lia. }
  assert (Hfd : frames st' = 0) by done.
  assert (Hc' : forall s p, st'.(StreamState.pending) !! s = Some p ->
    p.(Pending.charge) = frame_of self.(Receiver.limits) p.(Pending.message)) by (by intros s p; cbn; rewrite lookup_empty).
  assert (Ho' : st'.(StreamState.expected) = 1 -> st'.(StreamState.opening) = None) by done.
  clearbody st'.
  constructor; cbn [Receiver.limits Receiver.buffered_frames Receiver.buffered_charge Receiver.retained_charge
    Receiver.streams over]; unfold frames, map_len in *; norm_int; try done; lia.
Qed.

Lemma submit_inner_balanced k st m now self h log : ordered k st (on_stream k log) -> balanced st self ->
  numbered k m ->
  let '(r, (st', self', _)) :=
    submit_inner logged (apply_logged host_apply) st m (seq_of m) (frame_of self.(Receiver.limits) m) now self (h, log) in
  fatal r = false -> balanced st' self'.
Proof.
  intros Hst Hb Hm. unfold submit_inner. pose proof (numbered_seq k m Hm) as Hsn.
  pose proof (os_expected _ _ _ _ Hst) as Hex.
  destruct (StreamState.terminal st) as [[t tm]|] eqn:Ht; [done|].
  destruct (seq_of m <? StreamState.expected st) eqn:Hlt; [by destruct (_ && _)|].
  destruct (StreamState.pending st !! seq_of m) as [p|] eqn:Hp; [by destruct (negb _)|].
  destruct ((seq_of m =? 1) && _); [done|].
  destruct (_ && (is_some _ || _)) eqn:Habort.
  { apply andb_true_iff in Habort as [Habort _]. apply andb_true_iff in Habort as [Hgt _].
    pose proof (submit_abort_balanced k st m self h log Hst Hb Ht ltac:(lia)) as Ha.
    by destruct (submit_abort _ _ _ _ _ _ _ _) as [r [[st' self'] h']]. }
  destruct (StreamState.expected st <? seq_of m) eqn:Hgt.
  { pose proof (fun st' self' => buffer_balanced st m self now true st' self' Hb Hp) as Hbuf.
    pose proof (buffer_kept st m (frame_of (Receiver.limits self) m) now true self) as Hke.
    destruct (buffer _ _ _ _ _ _) as [[[]|e] [st1 self1]]; [intros _; by apply Hbuf|]. by injection (Hke e st1 self1 eq_refl) as -> ->. }
  assert (Heq : seq_of m = StreamState.expected st) by lia.
  destruct (sender_final _ && _) eqn:Hfin; [done|].
  destruct (if (seq_of m =? 1) || _ then _ else _) as [[]|] eqn:Hroom; [|done].
  unfold apply_logged at 1. cbn [fst snd]. destruct (host_apply m h) as [[[]|[]] h1]; [| |done].
  2:{ pose proof (fun st' self' => buffer_balanced st m self now false st' self' Hb Hp) as Hbuf.
    pose proof (buffer_kept st m (frame_of (Receiver.limits self) m) now false self) as Hke.
    destruct (buffer _ _ _ _ _ _) as [[[]|e] [st1 self1]]; [intros _; by apply Hbuf|]. by injection (Hke e st1 self1 eq_refl) as -> ->. }
  destruct (mark_applied_order (fun _ => True) k st m (frame_of (Receiver.limits self) m) self (on_stream k log))
    as (st1 & self1 & Hmark & Ho & _ & _ & Hstr & _); [done | done | done | done | intros s q Hq ->; congruence | |].
  { intros Hf. rewrite Hf in Hfin. cbn in Hfin. apply bool_decide_eq_false in Hfin. by apply dec_stable. }
  assert (Hb1 : balanced st1 self1).
  { eapply mark_applied_balanced; [exact Hb | done | done | lia | | exact Hmark]. intros Hneed.
    assert (Hc : check_retain (frame_of (Receiver.limits self) m) 0 self = Ok tt).
    { destruct Hneed as [Hn|Hn]; rewrite Hn in Hroom; cbn in Hroom; [done|]. by rewrite orb_true_r in Hroom. }
    pose proof (frame_of_range _ m (ba_limits _ _ Hb)) as Hpr. unfold MAX_ALLOCATION in Hpr.
    pose proof (balanced_facts _ _ Hb) as Hf. apply (check_retain_room st) in Hc; [lia|done|lia|lia]. }
  rewrite Hmark. rewrite <- on_stream_app in Ho by apply Hm. unfold drain.
  pose proof (drain_balanced (size (StreamState.pending st1)) k st1 self1 h1 (log ++ [m])
    [Resolution.mk k (seq_of m) Status.Applied] Ho Hb1) as Hd. rewrite (proj1 Hm).
  by destruct (drain_pending _ _ _ _ _) as [[[]|e] [[[st2 self2] h2] res2]].
Qed.

(** ** The receiver *)

Record stream_charged (l : Limits.t) (st : StreamState.t) : Prop := {
  sc_charge : forall s p, st.(StreamState.pending) !! s = Some p -> p.(Pending.charge) = frame_of l p.(Pending.message);
  sc_opening : st.(StreamState.expected) = 1 -> st.(StreamState.opening) = None;
}.

Record accounted (self : Receiver.t) : Prop := {
  ac_limits : Validate.limits self.(Receiver.limits) = Ok tt;
  ac_streams : forall k st, self.(Receiver.streams) !! k = Some st -> stream_charged self.(Receiver.limits) st;
  ac_frames : self.(Receiver.buffered_frames) = total frames self.(Receiver.streams);
  ac_held : self.(Receiver.buffered_charge) = total held self.(Receiver.streams);
  ac_kept : self.(Receiver.retained_charge) = total (kept self.(Receiver.limits)) self.(Receiver.streams);
  ac_bytes : map_len self.(Receiver.streams) * RECORD_CHARGE + self.(Receiver.retained_charge) + self.(Receiver.buffered_charge)
    <= self.(Receiver.limits).(Limits.queued_bytes) - self.(Receiver.limits).(Limits.control_reserve_bytes);
  ac_count : self.(Receiver.buffered_frames)
    <= self.(Receiver.limits).(Limits.queued_frames) - self.(Receiver.limits).(Limits.control_reserve_frames);
}.

Lemma totals_nonneg l (m : gmap Z StreamState.t) : Validate.limits l = Ok tt ->
  (forall k st, m !! k = Some st -> stream_charged l st) ->
  0 <= total frames m /\ 0 <= total held m /\ 0 <= total (kept l) m.
Proof.
  intros Hl Hm. split_and!; apply total_nonneg; intros k st Hk.
  - apply frames_nonneg.
  - by eapply held_nonneg, sc_charge, Hm.
  - by apply kept_nonneg.
Qed.

Lemma map_len_delete {V} (m : gmap Z V) k v : m !! k = Some v -> map_len (delete k m) + 1 = map_len m.
Proof.
  intros Hk. rewrite <- (insert_delete_id m k v Hk) at 2. unfold map_len.
  rewrite map_size_insert_None by apply lookup_delete_eq. lia.
Qed.

(** Taking a stream out of a receiver, and putting it back. *)
Lemma take_out self k st : accounted self -> self.(Receiver.streams) !! k = Some st ->
  balanced st (self <| Receiver.streams := delete k (Receiver.streams self) |>).
Proof.
  intros [Hl Hs Hf Hh Hk Hb Hc] Hst. destruct (Hs k st Hst) as [H1 H2].
  rewrite (total_delete _ _ k st Hst) in Hf. rewrite (total_delete _ _ k st Hst) in Hh.
  rewrite (total_delete _ _ k st Hst) in Hk. pose proof (map_len_delete _ _ _ Hst).
  constructor; cbn -[total frames held kept]; try done.
  - apply totals_nonneg; [done|]. intros j sj [_ Hj]%lookup_delete_Some. eauto.
  - nia.
Qed.

Lemma bring_back {A} (r : result A SequencedError.t) self0 self2 k st' : accounted self0 ->
  self2.(Receiver.streams) = delete k self0.(Receiver.streams) -> self2.(Receiver.limits) = self0.(Receiver.limits) ->
  balanced st' self2 -> accounted (put_back r k st' self2).
Proof.
  intros [Hl Hs _ _ _ _ _] Hdel Hlim [Hl' Hf Hh Hk Hc Ho Hr Hb Hn].
  assert (Hnone : Receiver.streams self2 !! k = None) by (rewrite Hdel; apply lookup_delete_eq).
  assert (Hsize : map_len (<[k := st']> (Receiver.streams self2)) = map_len (Receiver.streams self2) + 1).
  { unfold map_len. rewrite map_size_insert_None by done. lia. }
  assert (Hgoal : accounted (self2 <| Receiver.streams := <[k := st']> (Receiver.streams self2) |>)).
  { constructor; cbn -[total frames held kept]; rewrite ?total_insert by done; try done.
    - intros j sj [[<- <-]|[Hne Hj]]%lookup_insert_Some; [by constructor|].
      rewrite Hdel in Hj. apply lookup_delete_Some in Hj as [_ Hj]. rewrite Hlim. eauto.
    - rewrite Hsize. nia. }
  unfold put_back. destruct (fatal r); [|done]. by destruct Hgoal.
Qed.


(** ** Runs *)

Definition sound (y : Receiver.t * @logged Host) : Prop :=
  ordered_all (fun _ => True) y /\ (y.1.(Receiver.failed) = false -> accounted y.1).

Lemma accounted_failed self b : accounted self -> accounted (self <| Receiver.failed := b |>).
Proof. by intros [H1 H2 H3 H4 H5 H6 H7]. Qed.

Lemma advance_ok now self self' : advance now self = (Ok tt, self') -> self' = self /\ self.(Receiver.failed) = false.
Proof. unfold advance. destruct (Receiver.failed self); [done|]. destruct (existsb _ _); [done|]. by intros [= <-]. Qed.

Lemma advance_err now self e self' : advance now self = (Err e, self') ->
  self'.(Receiver.failed) = true.
Proof. unfold advance. destruct (Receiver.failed self) eqn:Hf; [by intros [= <- <-]|]. by destruct (existsb _ _); intros [= <- <-]. Qed.

Lemma put_back_failed {A} (r : result A SequencedError.t) k st self :
  (put_back r k st self).(Receiver.failed) = false -> fatal r = false.
Proof. unfold put_back. by destruct (fatal r). Qed.

Lemma accounted_submit m now self h : submitted_ok (fun _ => True) (Submit m now) -> sound (self, h) ->
  let y' := (submit logged (apply_logged host_apply) m now self h).2 in
  y'.1.(Receiver.failed) = false -> accounted y'.1.
Proof.
  intros [_ Hi] [Ho Ha]. unfold submit. destruct (advance now self) as [[[]|e] self0] eqn:Hadv.
  2:{ apply advance_err in Hadv. cbn. congruence. }
  apply advance_ok in Hadv as [-> Hf]. specialize (Ha Hf). cbn [fst] in Ha.
  destruct (negb _); [done|]. destruct (_ || _) eqn:Hg; [done|].
  destruct (Envelope.message_seq m) as [s|] eqn:Hs; [|done].
  destruct (charge m _) as [base|] eqn:Hc; [|done].
  destruct (Receiver.streams self !! _) as [st|] eqn:Hst; [|done].
  apply orb_false_iff in Hg as [Hv Hid].
  destruct (charge_sequence m _ base s Hc ltac:(lia) ltac:(lia) Hs) as [Hpos Hmax].
  assert (Hsq : seq_of m = s) by (unfold seq_of; by rewrite Hs). unfold in_i64 in Hi.
  assert (Hn : numbered (Envelope.stream_id m) m) by (split; [done|]; exists s; split; [done|lia]).
  assert (Hfr : saturating_add_u64 base FRAME_OVERHEAD = frame_of (Receiver.limits self) m) by (unfold frame_of; by rewrite Hc).
  pose proof (take_out self _ st Ha Hst) as Hb. destruct h as [h log]. rewrite <- Hsq, Hfr.
  match type of Hb with balanced _ ?self1 =>
    pose proof (submit_inner_balanced (Envelope.stream_id m) st m now self1 h log (oa_streams _ _ Ho _ _ Hst) Hb Hn) as Hin;
    pose proof (submit_inner_order host_apply (fun _ => True) (Envelope.stream_id m) st m
      (frame_of (Receiver.limits self1) m) now self1 h log (oa_streams _ _ Ho _ _ Hst) Hn I) as Hor;
    change (Receiver.limits self1) with (Receiver.limits self) in Hin, Hor;
    destruct (submit_inner _ _ st m _ _ now self1 _) as [r [[st' self2] h']] end.
  destruct Hor as (_ & [H4 H5 _ _]). injection H5 as _ H5. cbn zeta. cbn [fst snd]. intros Hok.
  apply (bring_back r self self2); try done. apply Hin. by apply put_back_failed in Hok.
Qed.

Lemma accounted_retry k now self h : sound (self, h) ->
  let y' := (retry logged (apply_logged host_apply) k now self h).2 in
  y'.1.(Receiver.failed) = false -> accounted y'.1.
Proof.
  intros [Ho Ha]. unfold retry. destruct (advance now self) as [[[]|e] self0] eqn:Hadv.
  2:{ apply advance_err in Hadv. cbn. congruence. }
  apply advance_ok in Hadv as [-> Hf]. specialize (Ha Hf). cbn [fst] in Ha.
  destruct (Receiver.streams self !! k) as [st|] eqn:Hst; [|done]. unfold drain. destruct h as [h log].
  pose proof (take_out self _ st Ha Hst) as Hb.
  match goal with |- context [drain_pending _ _ ?f k (st, ?self1, _, [])] =>
    pose proof (drain_balanced f k st self1 h log [] (oa_streams _ _ Ho _ _ Hst) Hb) as Hin;
    pose proof (drain_order host_apply (fun _ => True) f k st self1 h log [] (oa_streams _ _ Ho _ _ Hst)) as Hor;
    destruct (drain_pending _ _ f k _) as [r [[[st' self2] h'] res]] end.
  destruct Hor as (_ & [H4 H5 _ _]). injection H5 as _ H5. cbn zeta. cbn [fst snd]. intros Hok.
  apply (bring_back _ self self2); try done. apply Hin. apply put_back_failed in Hok. by destruct r.
Qed.

Lemma accounted_register k self : accounted self -> accounted (register k self).2.
Proof.
  intros Ha. unfold register. destruct (Receiver.failed self); [done|]. destruct (_ || _) eqn:Hg; [done|].
  destruct ((MAX_LIFETIME_STREAMS <=? _) || _) eqn:Hcap; [done|].
  destruct (available_bytes self <? _) eqn:Hroom; [done|]. cbn [snd].
  apply orb_false_iff in Hg as [_ Hn]. assert (Hnone : Receiver.streams self !! k = None) by (by destruct (_ !! _)).
  apply orb_false_iff in Hcap as [Hlife _]. unfold MAX_LIFETIME_STREAMS in Hlife.
  destruct Ha as [Hl Hs Hf Hh Hk Hb Hc]. rewrite (available_exact _ Hl) in Hroom.
  assert (Hrec : records self = (map_len (Receiver.streams self) + 1) * RECORD_CHARGE).
  { pose proof record_charge_range. unfold records, saturating_mul_u64, saturating_add_u64, map_len in *. nia. }
  assert (Hpre : 0 <= predecessor_reserve self) by apply as_u64_range.
  pose proof (totals_nonneg _ _ Hl Hs) as (? & ? & ?). pose proof (limits_spec _ Hl) as Hls.
  rewrite Hrec in Hroom. unfold saturating_add_u64 in Hroom.
  assert (Hsize : map_len (<[k := StreamState.new]> (Receiver.streams self)) = map_len (Receiver.streams self) + 1).
  { unfold map_len. rewrite map_size_insert_None by done. lia. }
  constructor; cbn -[total frames held kept]; rewrite ?total_insert by done; try done.
  - intros j sj [[<- <-]|[Hne Hj]]%lookup_insert_Some; [|eauto]. constructor; [|done]. intros s p. cbn. by rewrite lookup_empty.
  - rewrite Hsize. lia.
Qed.

Lemma sound_rstep o y : submitted_ok (fun _ => True) o -> sound y -> sound (rstep host_apply o y).
Proof.
  intros Hok Hy. split; [apply ordered_rstep; [done | apply Hy]|]. destruct y as [self h], o as [k|now|m now|k now]; cbn [rstep fst snd].
  - intros Hf. apply accounted_register, Hy. revert Hf. cbn. unfold register.
    destruct (Receiver.failed self) eqn:Hfs; [|done]. cbn. congruence.
  - unfold advance. destruct (Receiver.failed self) eqn:Hf; [cbn; congruence|].
    destruct (existsb _ _); [done|]. intros _. by apply Hy.
  - by apply accounted_submit.
  - by apply accounted_retry.
Qed.

Lemma sound_rrun ops y : Forall (submitted_ok (fun _ => True)) ops -> sound y -> sound (rrun host_apply ops y).
Proof.
  intros Hops. revert y. induction Hops as [|o ops Ho Hops IH]; intros y Hy; [done|].
  apply IH. by apply sound_rstep.
Qed.

Lemma sound_new session d l r h : receiver_new session d l = Ok r -> sound (r, (h, [])).
Proof.
  intros H. split; [by eapply ordered_new|]. intros _. unfold receiver_new in H.
  destruct (valid_limits l) as [[]|] eqn:Hv; [|done]. destruct (refuse _ _); [|done]. injection H as <-.
  apply valid_limits_spec in Hv. pose proof (limits_spec _ Hv).
  constructor; cbn -[total frames held kept]; rewrite ?total_empty; try done;
    unfold map_len; rewrite ?map_size_empty; lia.
Qed.
End account.

(** While a receiver has not failed, its counters are exact: frames and bytes buffered are the sums
    over its streams, and what it keeps, with a record per stream and what it buffers, stays inside the
    bytes and frames the limits leave beside the control reserve, whatever is submitted. *)
Theorem receiver_accounts {L : Layout} {Host} (host_apply : Envelope.t -> Host -> result unit ApplyError.t * Host)
    session d l r h ops :
  receiver_new session d l = Ok r -> Forall (submitted_ok (fun _ => True)) ops ->
  let self := (rrun host_apply ops (r, (h, []))).1 in
  self.(Receiver.failed) = false ->
  self.(Receiver.buffered_frames) = total frames self.(Receiver.streams)
  /\ self.(Receiver.buffered_charge) = total held self.(Receiver.streams)
  /\ self.(Receiver.retained_charge) = total (kept self.(Receiver.limits)) self.(Receiver.streams)
  /\ map_len self.(Receiver.streams) * RECORD_CHARGE + self.(Receiver.retained_charge) + self.(Receiver.buffered_charge)
     <= self.(Receiver.limits).(Limits.queued_bytes) - self.(Receiver.limits).(Limits.control_reserve_bytes)
  /\ self.(Receiver.buffered_frames)
     <= self.(Receiver.limits).(Limits.queued_frames) - self.(Receiver.limits).(Limits.control_reserve_frames).
Proof.
  intros Hr Hops. cbn zeta. intros Hf.
  destruct (sound_rrun host_apply ops _ Hops (sound_new _ _ _ _ h Hr)) as [_ Ha].
  destruct (Ha Hf) as [_ _ H1 H2 H3 H4 H5]. by split_and!.
Qed.

Lemma receiver_accounts_witness :
  (rrun (L := layout64) sample_host sample_ops (sample_receiver Direction.Initiator, (0, []))).1.(Receiver.buffered_frames) = 0.
Proof.
  destruct (receiver_accounts (L := layout64) sample_host "session" Direction.Initiator default_limits
    (sample_receiver Direction.Initiator) 0 sample_ops) as [H _].
  - vm_compute. reflexivity.
  - repeat constructor; cbn; unfold in_i64; lia.
  - vm_compute. reflexivity.
  - etransitivity; [exact H|]. vm_compute. reflexivity.
Defined.

Definition sample_refusal : Envelope.t := Envelope.default
  <| Envelope.version := 3 |> <| Envelope.session_id := "session"%string |> <| Envelope.stream_id := 1 |>
  <| Envelope.kind := MessageKind.OpenFailed |> <| Envelope.message_seq := Some 1 |>
  <| Envelope.open_failed := Some (Failure.default <| Failure.code := ErrorCode.Io |> <| Failure.effect := Effect.Possible |>) |>.

(** A message that ends its stream as the very first one is kept for the life of the binding, after
    a check that there is room for it, but its charge is not added to what is kept: after an endpoint
    refuses an open, the receiver holds the refusal and counts nothing for it. *)
Theorem first_terminal_not_counted :
  let self := (rrun (L := layout64) sample_host [Register 1; Submit sample_refusal 0]
                 (sample_receiver Direction.Endpoint, (0, []))).1 in
  self.(Receiver.failed) = false
  /\ option_map StreamState.terminal (self.(Receiver.streams) !! 1) = Some (Some (1, sample_refusal))
  /\ 0 < frame_of (L := layout64) self.(Receiver.limits) sample_refusal
  /\ self.(Receiver.retained_charge) = 0.
Proof. vm_compute. split_and!; reflexivity. Qed.
