(* ===== verification/Mux.v ===== *)
(** * The multiplexer (src/src/mux/mod.rs, src/src/mux/routing.rs)

    One session's requests and streams over bounded queues of attachments: the
    bootstrap handshake, routing of stream messages to the request that opened
    them, cancellation and its deadlines.  The methods that take [&mut self]
    return the new machine beside their result. *)
From S2P Require Import Prelude Utf8 Cbor Protocol Budget Admission Policy Validate Codec Binding.

Module MuxError.
Inductive t := InvalidRequest | Capacity | WouldBlock | Protocol | Rejected | Closed | WrongState.
#[global] Instance eq_dec : EqDecision t.
Proof. solve_decision. Defined.
End MuxError.

Module Phase.
Inductive t := Unbound | Binding | Rejecting | Ready | Closed.
#[global] Instance eq_dec : EqDecision t.
Proof. solve_decision. Defined.
End Phase.

Module MuxConfig.
Record t := mk {
  limits : Limits.t;
  role : EndpointRole.t;
  max_requests : Z;
  max_streams : Z;
  bootstrap_timeout_ms : Z;
  cleanup_timeout_ms : Z;
  max_check_ms : Z;
}.
Definition default : t := mk default_limits EndpointRole.Driver 256 64 5000 5000 120000.
End MuxConfig.

Module MuxRequest.
Record t := mk {
  operation : option string;
  sealed : bool;
  cleanup_deadline : option Z;
}.
#[global] Instance eta : Eta t := fun r => mk (r.(operation)) (r.(sealed)) (r.(cleanup_deadline)).
End MuxRequest.

Module Kind.
Inductive t := Check | Opening | Stream.
#[global] Instance eq_dec : EqDecision t.
Proof. solve_decision. Defined.
End Kind.

Module Route.
Record t := mk {
  request : string;
  kind : Kind.t;
  scheme : option Scheme.t;
  policy : option AuthPolicy.t;
  deadline : option Z;
  cancel : option ErrorCode.t;
}.
#[global] Instance eta : Eta t :=
  fun r => mk (r.(request)) (r.(kind)) (r.(scheme)) (r.(policy)) (r.(deadline)) (r.(cancel)).
End Route.

Definition Attachment : Type := string * Envelope.t.

Definition identifier (value : string) : bool :=
  negb (str_is_empty value) && (slen value <=? 128) && negb (existsb is_control (chars value)).

Definition terminal (kind : MessageKind.t) : bool :=
  match kind with
  | MessageKind.BindRejected | MessageKind.OpenFailed | MessageKind.IdentityChecked
  | MessageKind.IdentityCheckFailed | MessageKind.Failed | MessageKind.Closed => true
  | _ => false
  end.

(** ** Queues *)

Module Queued.
Record t := mk {
  attachment : Attachment;
  charge : Z;
  control : bool;
}.
End Queued.

Module Queue.
Record t := mk {
  items : list Queued.t;
  bytes : Z;
  data_bytes : Z;
  data_frames : Z;
}.
#[global] Instance eta : Eta t := fun r => mk (r.(items)) (r.(bytes)) (r.(data_bytes)) (r.(data_frames)).
Definition default : t := mk [] 0 0 0.

Definition can_push (charge : Z) (control : bool) (limits : Limits.t) (self : t) : bool :=
  (usize_add self.(bytes) charge <=? as_usize limits.(Limits.queued_bytes))
  && (len self.(items) <? as_usize limits.(Limits.queued_frames))
  && (control
      || ((usize_add self.(data_bytes) charge
             <=? as_usize (i64_sub limits.(Limits.queued_bytes) limits.(Limits.control_reserve_bytes)))
          && (self.(data_frames)
                <? as_usize (i64_sub limits.(Limits.queued_frames) limits.(Limits.control_reserve_frames))))).

Definition push (item : Attachment) (charge : Z) (control : bool) (self : t) : t :=
  let self := self <| items := self.(items) ++ [Queued.mk item charge control] |>
                   <| bytes := usize_add self.(bytes) charge |> in
  if control then self
  else self <| data_bytes := usize_add self.(data_bytes) charge |>
            <| data_frames := usize_add self.(data_frames) 1 |>.

Definition pop (self : t) : option Attachment * t :=
  match self.(items) with
  | [] => (None, self)
  | entry :: rest =>
      let self := self <| items := rest |> <| bytes := usize_sub self.(bytes) entry.(Queued.charge) |> in
      (Some entry.(Queued.attachment),
       if entry.(Queued.control) then self
       else self <| data_bytes := usize_sub self.(data_bytes) entry.(Queued.charge) |>
                 <| data_frames := usize_sub self.(data_frames) 1 |>)
  end.

Definition has_terminal (request : string) (self : t) : bool :=
  existsb (fun q => bool_decide (q.(Queued.attachment).1 = request)
                    && terminal q.(Queued.attachment).2.(Envelope.kind)) self.(items).

(** The counters of a list of items, as [discard] and [cancel] sum them again. *)
Definition is_data (q : Queued.t) : bool := negb q.(Queued.control).
Definition recount (items' : list Queued.t) : t :=
  mk items' (as_usize (sum_Z (map Queued.charge items')))
    (as_usize (sum_Z (map Queued.charge (keep is_data items')))) (len (keep is_data items')).

Definition discard (request : string) (self : t) : t :=
  recount (keep (fun entry =>
    negb (bool_decide (entry.(Queued.attachment).1 = request))
    || terminal entry.(Queued.attachment).2.(Envelope.kind)
    || match entry.(Queued.attachment).2.(Envelope.kind) with
       | MessageKind.Open | MessageKind.CheckIdentity | MessageKind.Bind | MessageKind.Bound
       | MessageKind.BindRejected => true
       | _ => false
       end) self.(items)).

(** [cancel]'s own filter of the endpoint's actions. *)
Definition discard_actions (request : string) (self : t) : t :=
  recount (keep (fun q => negb (bool_decide (q.(Queued.attachment).1 = request))
                          || terminal q.(Queued.attachment).2.(Envelope.kind)) self.(items)).
End Queue.

Module Mux.
Record t := mk {
  config : MuxConfig.t;
  session : string;
  endpoint : option EndpointConfig.t;
  phase : Phase.t;
  binding : option Binding.t;
  offer : option Attachment;
  acknowledgement : option Attachment;
  rejection : option Failure.t;
  bootstrap_deadline : option Z;
  requests : gmap string MuxRequest.t;
  used_requests : gset string;
  routes : gmap Z Route.t;
  highest_id : Z;
  outbound : Queue.t;
  actions : Queue.t;
  now : Z;
}.
#[global] Instance eta : Eta t :=
  fun r => mk (r.(config)) (r.(session)) (r.(endpoint)) (r.(phase)) (r.(binding)) (r.(offer)) (r.(acknowledgement))
    (r.(rejection)) (r.(bootstrap_deadline)) (r.(requests)) (r.(used_requests)) (r.(routes)) (r.(highest_id))
    (r.(outbound)) (r.(actions)) (r.(now)).

Section mux.
Context {L : Layout}.
Variable unstable_sequenced : bool.

Definition new (session : string) (endpoint : option EndpointConfig.t) (config : MuxConfig.t)
    : result t MuxError.t :=
  if negb (identifier session)
     || (config.(MuxConfig.max_requests) =? 0) || (4096 <? config.(MuxConfig.max_requests))
     || (config.(MuxConfig.max_streams) =? 0) || (1024 <? config.(MuxConfig.max_streams))
     || (config.(MuxConfig.bootstrap_timeout_ms) =? 0) || (config.(MuxConfig.cleanup_timeout_ms) =? 0)
     || (config.(MuxConfig.max_check_ms) =? 0) || (120000 <? config.(MuxConfig.max_check_ms))
     || negb (is_ok (usable config.(MuxConfig.limits))) || negb (is_ok (Validate.limits config.(MuxConfig.limits)))
     || is_some_and endpoint (fun e =>
          negb (bool_decide (e.(EndpointConfig.role) = config.(MuxConfig.role)))
          || str_is_empty e.(EndpointConfig.endpoint_id) || str_is_empty e.(EndpointConfig.trust_owner)
          || negb (capabilities e.(EndpointConfig.schemes) e.(EndpointConfig.policies))
          || negb (is_ok (Validate.limits e.(EndpointConfig.limits)))
          || negb (no_greater e.(EndpointConfig.limits) config.(MuxConfig.limits)))
  then Err MuxError.InvalidRequest
  else Ok (mk config session endpoint Phase.Unbound None None None None None ∅ ∅ ∅ 0 Queue.default Queue.default 0).

Definition initiator (session : string) (config : MuxConfig.t) : result t MuxError.t := new session None config.
Definition endpoint_new (session : string) (endpoint : EndpointConfig.t) (config : MuxConfig.t)
  : result t MuxError.t := new session (Some endpoint) config.

Definition live (self : t) : result unit MuxError.t :=
  if bool_decide (self.(phase) = Phase.Closed) then Err MuxError.Closed else Ok tt.

Definition live_request (request : string) (self : t) : result unit MuxError.t :=
  try _ := live self in
  if is_none_or (self.(requests) !! request) MuxRequest.sealed
  then Err MuxError.InvalidRequest else Ok tt.

Definition disconnect (self : t) : t :=
  self <| phase := Phase.Closed |> <| binding := None |> <| offer := None |> <| acknowledgement := None |>
       <| requests := ∅ |> <| routes := ∅ |> <| outbound := Queue.default |> <| actions := Queue.default |>.

(** The limits in force: the binding's once there is one. *)
Definition limits_of (self : t) : Limits.t :=
  match self.(binding) with Some b => Binding.limits b | None => self.(config).(MuxConfig.limits) end.

Definition enqueue (item : Attachment) (outgoing : bool) (self : t) : result unit MuxError.t * t :=
  if negb (identifier item.1) then (Err MuxError.InvalidRequest, self)
  else
    let limits := limits_of self in
    try base := map_err (fun _ => MuxError.Protocol) (Codec.allocation_charge item.2 limits) at self in
    let charge := usize_add (usize_add base (slen item.1)) 128 in
    let control := negb (match item.2.(Envelope.kind) with
                         | MessageKind.Data | MessageKind.Open | MessageKind.CheckIdentity => true
                         | _ => false end) in
    let queue := if outgoing then self.(outbound) else self.(actions) in
    if negb (Queue.can_push charge control limits queue) then (Err MuxError.WouldBlock, self)
    else
      let queue := Queue.push item charge control queue in
      (Ok tt, if outgoing then self <| outbound := queue |> else self <| actions := queue |>).

Definition register (request : string) (operation : option string) (self : t) : result unit MuxError.t * t :=
  try _ := live self at self in
  if bool_decide (self.(phase) = Phase.Rejecting) then (Err MuxError.Rejected, self)
  else if negb (identifier request) || bool_decide (request ∈ self.(used_requests))
          || is_some_and operation (fun o => negb (identifier o))
          || (is_none self.(endpoint) && is_none operation)
  then (Err MuxError.InvalidRequest, self)
  else if Z.of_nat (size self.(used_requests)) =? self.(config).(MuxConfig.max_requests)
  then (Err MuxError.Capacity, self)
  else (Ok tt, self <| used_requests := {[request]} ∪ self.(used_requests) |>
                    <| requests := <[request := MuxRequest.mk operation false None]> self.(requests) |>).

(** The offer [begin] makes: profile 2 and the native policies. *)
Definition session_offer (self : t) : Envelope.t :=
  let offer := Binding.offer self.(session) self.(config).(MuxConfig.role) in
  match offer.(Envelope.bind) with
  | Some body =>
      offer <| Envelope.bind := Some (body
        <| Bind.versions := [2] |>
        <| Bind.policies := body.(Bind.policies) ++ [AuthPolicy.WindowsConfigured; AuthPolicy.WindowsDefault] |>
        <| Bind.receive_limits := self.(config).(MuxConfig.limits) |>) |>
  | None => offer
  end.

Definition begin (request : string) (self : t) : result unit MuxError.t * t :=
  try _ := live_request request self at self in
  if is_some self.(endpoint) then (Err MuxError.WrongState, self)
  else
    match self.(phase) with
    | Phase.Unbound =>
        let item := (request, session_offer self) in
        call _, self := enqueue item true self in
        (Ok tt, self <| offer := Some item |> <| phase := Phase.Binding |>
          <| bootstrap_deadline := Some (saturating_add_u64 self.(now) self.(config).(MuxConfig.bootstrap_timeout_ms)) |>)
    | Phase.Binding | Phase.Ready => (Ok tt, self)
    | Phase.Rejecting => (Err MuxError.Rejected, self)
    | Phase.Closed => (Err MuxError.Closed, self)
    end.

Definition message (id : Z) (kind : MessageKind.t) (self : t) : result Envelope.t MuxError.t :=
  try _ := live self in
  if negb (bool_decide (self.(phase) = Phase.Ready)) then Err MuxError.WrongState
  else Ok (Envelope.default
    <| Envelope.version := 2 |> <| Envelope.session_id := self.(session) |>
    <| Envelope.stream_id := id |> <| Envelope.kind := kind |>).

(** *** Checks on routed messages *)

Definition validate_open (message : Envelope.t) (self : t) : result unit MuxError.t :=
  try bound := ok_or self.(binding) MuxError.WrongState in
  if bool_decide (message.(Envelope.kind) = MessageKind.Open)
  then map_err (fun _ => MuxError.Protocol) (check_open bound message)
  else map_err (fun _ => MuxError.Protocol) (check_identity bound message).

Definition validate_transition (state : Kind.t) (message : MessageKind.t) (outgoing : bool) (self : t)
    : result unit MuxError.t :=
  let from_endpoint := Bool.eqb (is_some self.(endpoint)) outgoing in
  let valid :=
    match state with
    | Kind.Check =>
        if from_endpoint
        then match message with MessageKind.IdentityChecked | MessageKind.IdentityCheckFailed => true | _ => false end
        else bool_decide (message = MessageKind.Cancel)
    | Kind.Opening =>
        if from_endpoint
        then match message with MessageKind.Opened | MessageKind.OpenFailed => true | _ => false end
        else bool_decide (message = MessageKind.Cancel)
    | Kind.Stream =>
        match message with
        | MessageKind.Data | MessageKind.Window | MessageKind.Flush | MessageKind.Flushed
        | MessageKind.EndWrite | MessageKind.Failed => true
        | MessageKind.Close | MessageKind.Cancel => negb from_endpoint
        | MessageKind.Closed => from_endpoint
        | _ => false
        end
    end in
  if valid then Ok tt else Err MuxError.Protocol.

(** One body's facts against the route it answers. *)
Definition validate_facts (facts : Facts.t) (id : Z) (self : t) : result unit MuxError.t :=
  try route := ok_or (self.(routes) !! id) MuxError.Protocol in
  let https := bool_decide (route.(Route.scheme) = Some Scheme.Https) in
  if bool_decide (facts.(Facts.method) = AuthMethod.Gh) && https
     && negb (match route.(Route.policy) with
              | Some (AuthPolicy.Gh | AuthPolicy.WindowsConfigured) => true | _ => false end)
  then Err MuxError.Protocol
  else if bool_decide (facts.(Facts.method) = AuthMethod.Sspi)
          && (negb https || negb (is_some_and route.(Route.policy) native)
              || (bool_decide (route.(Route.policy) = Some AuthPolicy.WindowsDefault)
                  && is_some_and facts.(Facts.native)
                       (fun n => bool_decide (n.(NativeFacts.source) = NativeSource.Configured))))
  then Err MuxError.Protocol
  else Ok tt.

(** The facts a message carries, in the order the loop visits them. *)
Definition all_facts (message : Envelope.t) : list Facts.t :=
  omap id [option_map Opened.facts message.(Envelope.opened);
           option_map Closed.facts message.(Envelope.closed);
           and_then message.(Envelope.open_failed) Failure.facts;
           and_then message.(Envelope.failed) Failure.facts].

Fixpoint try_each {A E} (f : A -> result unit E) (l : list A) : result unit E :=
  match l with
  | [] => Ok tt
  | x :: l => try _ := f x in try_each f l
  end.

Definition validate_opened (message : Envelope.t) (self : t) : result unit MuxError.t :=
  try _ := try_each (fun facts => validate_facts facts message.(Envelope.stream_id) self) (all_facts message) in
  match message.(Envelope.opened) with
  | None => Ok tt
  | Some opened =>
      try bound := ok_or self.(binding) MuxError.Protocol in
      if negb (bool_decide (opened.(Opened.endpoint_id) = Binding.endpoint_id bound))
         || negb (bool_decide (opened.(Opened.trust_owner) = Binding.trust_owner bound))
         || negb (no_greater opened.(Opened.receive_limits) (Binding.limits bound))
      then Err MuxError.Protocol
      else if opened.(Opened.reused) && opened.(Opened.facts).(Facts.credential_offered) then
        try route := ok_or (self.(routes) !! message.(Envelope.stream_id)) MuxError.Protocol in
        let credential_method :=
          (match route.(Route.policy) with
           | Some (AuthPolicy.Gh | AuthPolicy.WindowsConfigured) => true | _ => false end
           && bool_decide (opened.(Opened.facts).(Facts.method) = AuthMethod.Gh))
          || (is_some_and route.(Route.policy) native
              && bool_decide (opened.(Opened.facts).(Facts.method) = AuthMethod.Sspi)) in
        if negb (bool_decide (route.(Route.scheme) = Some Scheme.Https)) || negb credential_method
        then Err MuxError.Protocol else Ok tt
      else Ok tt
  end.

(** Callers have looked the route up: the [expect] finds it. *)
Definition transition (message : Envelope.t) (self : t) : t :=
  let id := message.(Envelope.stream_id) in
  match message.(Envelope.kind) with
  | MessageKind.Opened =>
      self <| routes := alter (fun route => route <| Route.kind := Kind.Stream |>) id self.(routes) |>
  | MessageKind.Closed | MessageKind.Failed | MessageKind.OpenFailed
  | MessageKind.IdentityChecked | MessageKind.IdentityCheckFailed =>
      self <| routes := delete id self.(routes) |>
  | _ => self
  end.

(** *** The initiator's requests *)

Definition start (request : string) (kind : Kind.t) (timeout : option Z) (fill : Envelope.t -> Envelope.t)
    (self : t) : result Z MuxError.t * t :=
  if is_some self.(endpoint) || negb (bool_decide (self.(phase) = Phase.Ready)) then (Err MuxError.WrongState, self)
  else if self.(config).(MuxConfig.max_streams) <=? Z.of_nat (size self.(routes)) then (Err MuxError.Capacity, self)
  else
    try id := ok_or (checked_add_i64 self.(highest_id) 1) MuxError.Capacity at self in
    try message := message id MessageKind.Open self at self in
    let message := fill message in
    try _ := validate_open message self at self in
    let scheme := option_map (fun open => open.(Open.destination).(Destination.scheme)) message.(Envelope.open) in
    let policy := option_map Open.policy message.(Envelope.open) in
    call _, self := enqueue (request, message) true self in
    (Ok id, self <| highest_id := id |>
      <| routes := <[id := Route.mk request kind scheme policy
           (option_map (fun t => saturating_add_u64 self.(now) t) timeout) None]> self.(routes) |>).

(** [self.requests[request]]: [live_request] has found it. *)
Definition operation_of (request : string) (self : t) : option string :=
  and_then (self.(requests) !! request) MuxRequest.operation.

Definition check_identity_request (request : string) (identity : Identity.t) (timeout_ms : Z) (self : t)
    : result Z MuxError.t * t :=
  try _ := live_request request self at self in
  if (timeout_ms =? 0) || (self.(config).(MuxConfig.max_check_ms) <? timeout_ms) then (Err MuxError.InvalidRequest, self)
  else
    try bound := ok_or self.(binding) MuxError.WrongState at self in
    try operation := ok_or (operation_of request self) MuxError.WrongState at self in
    let body := {|
      CheckIdentity.endpoint_id := Binding.endpoint_id bound;
      CheckIdentity.operation_id := operation;
      CheckIdentity.identity := identity;
      CheckIdentity.timeout_ms := as_i64 timeout_ms |} in
    start request Kind.Check (Some timeout_ms)
      (fun m => m <| Envelope.kind := MessageKind.CheckIdentity |> <| Envelope.check_identity := Some body |>) self.

Definition open (request : string) (open : Open.t) (self : t) : result Z MuxError.t * t :=
  try _ := live_request request self at self in
  if negb (bool_decide (operation_of request self = Some open.(Open.operation_id)))
  then (Err MuxError.InvalidRequest, self)
  else start request Kind.Opening None (fun m => m <| Envelope.open := Some open |>) self.

Definition send (request : string) (message : Envelope.t) (self : t) : result unit MuxError.t * t :=
  try _ := live self at self in
  try route := ok_or (self.(routes) !! message.(Envelope.stream_id)) MuxError.InvalidRequest at self in
  if negb (bool_decide (route.(Route.request) = request))
     || negb (bool_decide (message.(Envelope.session_id) = self.(session)))
     || negb (message.(Envelope.version) =? 2)
  then (Err MuxError.InvalidRequest, self)
  else
    try _ := validate_transition route.(Route.kind) message.(Envelope.kind) true self at self in
    try _ := validate_opened message self at self in
    try bound := ok_or self.(binding) MuxError.WrongState at self in
    try _ := map_err (fun _ => MuxError.Protocol) (Codec.admit_limited message (Binding.limits bound)) at self in
    call _, self := enqueue (request, message) true self in
    (Ok tt, transition message self).

(** *** Taking messages *)

Definition next_action (self : t) : option Attachment * t :=
  let '(item, queue) := Queue.pop self.(actions) in (item, self <| actions := queue |>).

Definition pop_outbound (self : t) : option Attachment * t :=
  let '(item, queue) := Queue.pop self.(outbound) in (item, self <| outbound := queue |>).

(** What an endpoint answers for a route it gives up. *)
Definition route_failure (kind : Kind.t) (code : ErrorCode.t) : Failure.t := {|
  Failure.code := code;
  Failure.effect := if bool_decide (kind = Kind.Check) then Effect.None else Effect.Possible;
  Failure.facts := None;
  Failure.setup_cause := None;
  Failure.detail := None |}.

Definition fail_message (kind : Kind.t) (failure : Failure.t) (message : Envelope.t) : Envelope.t :=
  match kind with
  | Kind.Check => message <| Envelope.kind := MessageKind.IdentityCheckFailed |>
                          <| Envelope.identity_check_failed := Some failure |>
  | Kind.Opening => message <| Envelope.kind := MessageKind.OpenFailed |> <| Envelope.open_failed := Some failure |>
  | Kind.Stream => message <| Envelope.kind := MessageKind.Failed |> <| Envelope.failed := Some failure |>
  end.

(** The first route whose cancellation may leave: its opening is not queued any more. *)
Definition pending_cancel (self : t) : option (Z * Route.t) :=
  hd_error (keep (fun e => is_some e.2.(Route.cancel)
    && negb (existsb (fun q => (q.(Queued.attachment).2.(Envelope.stream_id) =? e.1)
                               && match q.(Queued.attachment).2.(Envelope.kind) with
                                  | MessageKind.Open | MessageKind.CheckIdentity => true
                                  | _ => false end) self.(outbound).(Queue.items)))
    (entries self.(routes))).

Definition next_message (self : t) : option Attachment * t :=
  if bool_decide (self.(phase) = Phase.Rejecting) then
    let '(reply, self) := pop_outbound self in (reply, disconnect self)
  else if is_some_and (hd_error self.(outbound).(Queue.items))
            (fun q => q.(Queued.attachment).2.(Envelope.stream_id) =? 0)
  then pop_outbound self
  else
    match pending_cancel self with
    | None => pop_outbound self
    | Some (id, route) =>
        let req := route.(Route.request) in
        match route.(Route.cancel), message id MessageKind.Cancel self with
        | Some reason, Ok m =>
            if is_none self.(endpoint)
            then (Some (req, m <| Envelope.cancel := Some (Cancel.mk reason) |>),
                  self <| routes := alter (fun r => r <| Route.cancel := None |>) id self.(routes) |>)
            else (Some (req, fail_message route.(Route.kind) (route_failure route.(Route.kind) reason) m),
                  self <| routes := delete id self.(routes) |>)
        | _, _ => (None, self)
        end
    end.

(** *** Cancelling *)

Definition routes_of (request : string) (self : t) : list Z :=
  keys (filter (fun e : Z * Route.t => e.2.(Route.request) = request) self.(routes)).

Fixpoint cancel_each (ids : list Z) (request : string) (self : t) : result unit MuxError.t * t :=
  match ids with
  | [] => (Ok tt, self)
  | id :: ids =>
      try m := message id MessageKind.Cancel self at self in
      match enqueue (request, m <| Envelope.cancel := Some (Cancel.mk ErrorCode.Cancelled) |>) false self with
      | (Ok _, self) => cancel_each ids request self
      | (Err _, self) => (Err MuxError.Closed, disconnect self)
      end
  end.

(** Every route of the request is marked, with the cleanup time as its deadline. *)
Definition mark_cancelled (request : string) (self : t) : t :=
  let deadline := saturating_add_u64 self.(now) self.(config).(MuxConfig.cleanup_timeout_ms) in
  self <| routes := (fun route => if bool_decide (route.(Route.request) = request)
            then route <| Route.cancel := Some ErrorCode.Cancelled |> <| Route.deadline := Some deadline |>
            else route) <$> self.(routes) |>.

Definition cancel (request : string) (self : t) : result unit MuxError.t * t :=
  try _ := live self at self in
  if bool_decide (self.(phase) = Phase.Binding) && is_some_and self.(offer) (fun v => bool_decide (v.1 = request))
  then (Ok tt, disconnect self)
  else
    try row := ok_or (self.(requests) !! request) MuxError.InvalidRequest at self in
    if row.(MuxRequest.sealed) then (Ok tt, self)
    else
      let row := row <| MuxRequest.sealed := true |>
        <| MuxRequest.cleanup_deadline :=
             Some (saturating_add_u64 self.(now) self.(config).(MuxConfig.cleanup_timeout_ms)) |> in
      let self := self <| requests := <[request := row]> self.(requests) |>
                       <| outbound := Queue.discard request self.(outbound) |> in
      if is_some self.(endpoint) then
        let ids := routes_of request self in
        let self := self <| actions := Queue.discard_actions request self.(actions) |> in
        call _, self := cancel_each ids request self in
        (Ok tt, mark_cancelled request self)
      else (Ok tt, mark_cancelled request self).

Definition finish (request : string) (self : t) : result unit MuxError.t * t :=
  call _, self := cancel request self in
  if existsb (fun r => bool_decide (r.(Route.request) = request)) (values self.(routes))
     || Queue.has_terminal request self.(outbound) || Queue.has_terminal request self.(actions)
  then (Err MuxError.WouldBlock, self)
  else (Ok tt, self <| requests := delete request self.(requests) |>).

(** *** Time *)

(** The routes whose deadline has come, each told to both sides; a message
    that cannot be made or queued ends the loop. *)
Fixpoint expire (ids : list Z) (self : t) : t :=
  match ids with
  | [] => self
  | id :: ids =>
      match self.(routes) !! id with
      | None => self
      | Some route =>
          let req := route.(Route.request) in
          let code := if is_some_and (self.(requests) !! req) MuxRequest.sealed
                      then ErrorCode.Cancelled else ErrorCode.Timeout in
          match message id MessageKind.Failed self with
          | Err _ => self
          | Ok m =>
              let terminal := fail_message route.(Route.kind) (route_failure route.(Route.kind) code) m in
              let cancel := m <| Envelope.kind := MessageKind.Cancel |>
                              <| Envelope.cancel := Some (Cancel.mk code) |> in
              let endpoint := is_some self.(endpoint) in
              match enqueue (req, terminal) endpoint self with
              | (Err _, self) => disconnect self
              | (Ok _, self) =>
                  match enqueue (req, cancel) (negb endpoint) self with
                  | (Err _, self) => disconnect self
                  | (Ok _, self) => expire ids (self <| routes := delete id self.(routes) |>)
                  end
              end
          end
      end
  end.

Definition expired_routes (self : t) : list Z :=
  keys (filter (fun e : Z * Route.t => is_some_and e.2.(Route.deadline) (fun t => t <=? self.(now)) = true) self.(routes)).

Definition advance (now' : Z) (self : t) : t :=
  let self := self <| now := Z.max self.(now) now' |> in
  if existsb (fun e => is_some_and e.2.(MuxRequest.cleanup_deadline) (fun t => t <=? self.(now))
                       && (Queue.has_terminal e.1 self.(outbound) || Queue.has_terminal e.1 self.(actions)))
       (map_to_list self.(requests))
  then disconnect self
  else if is_some_and self.(bootstrap_deadline) (fun t =>
            match self.(phase) with Phase.Binding | Phase.Rejecting => true | _ => false end && (t <=? self.(now)))
  then disconnect self
  else expire (expired_routes self) self.

(** *** Receiving (routing.rs) *)

Definition reject_binding (request : string) (failure : Failure.t) (self : t) : result unit MuxError.t * t :=
  try _ := map_err (fun _ => MuxError.Protocol) (Validate.bind_rejection failure) at self in
  let reply := Envelope.default
    <| Envelope.version := 1 |> <| Envelope.session_id := self.(session) |> <| Envelope.stream_id := 0 |>
    <| Envelope.kind := MessageKind.BindRejected |> <| Envelope.bind_rejected := Some failure |> in
  call _, self := enqueue (request, reply) true self in
  (Ok tt, self <| rejection := Some failure |> <| phase := Phase.Rejecting |>
    <| bootstrap_deadline := Some (saturating_add_u64 self.(now) self.(config).(MuxConfig.bootstrap_timeout_ms)) |>).

(** An endpoint's answer to the offer. *)
Definition bootstrap_endpoint (endpoint : EndpointConfig.t) (item : Attachment) (self : t)
    : result unit MuxError.t * t :=
  let '(request, message) := item in
  if negb (bool_decide (self.(phase) = Phase.Unbound)) then (Err MuxError.Protocol, self)
  else if is_none_or message.(Envelope.bind) (fun b => negb (contains 2 b.(Bind.versions)))
  then reject_binding request (failure ErrorCode.UnsupportedVersion) self
  else
    match accept unstable_sequenced endpoint message with
    | Err failure => reject_binding request failure self
    | Ok (reply, bound) =>
        if is_none_or reply.(Envelope.bound) (fun b => negb (b.(Bound.version) =? 2))
        then (Err MuxError.Protocol, self)
        else
          call _, self := enqueue (request, reply) true self in
          (Ok tt, self <| acknowledgement := Some (request, reply) |> <| binding := Some bound |>
                       <| phase := Phase.Ready |>)
    end.

(** An initiator's reading of the answer. *)
Definition bootstrap_initiator (item : Attachment) (self : t) : result unit MuxError.t * t :=
  let '(request, message) := item in
  if bool_decide (self.(phase) = Phase.Ready) && bool_decide (self.(acknowledgement) = Some item) then (Ok tt, self)
  else if negb (bool_decide (self.(phase) = Phase.Binding)) then (Err MuxError.Protocol, self)
  else
    try offer := ok_or self.(offer) MuxError.Protocol at self in
    if negb (bool_decide (request = offer.1)) then (Err MuxError.Protocol, self)
    else if bool_decide (message.(Envelope.kind) = MessageKind.BindRejected) then
      try failure := ok_or message.(Envelope.bind_rejected) MuxError.Protocol at self in
      try _ := map_err (fun _ => MuxError.Protocol) (Validate.bind_rejection failure) at self in
      (Ok tt, disconnect (self <| rejection := Some failure |>))
    else
      try bound := map_err (fun _ => MuxError.Protocol) (verify unstable_sequenced offer.2 message) at self in
      if is_none_or message.(Envelope.bound) (fun b => negb (b.(Bound.version) =? 2))
      then (Err MuxError.Protocol, self)
      else (Ok tt, self <| binding := Some bound |> <| acknowledgement := Some item |>
                        <| bootstrap_deadline := None |> <| phase := Phase.Ready |>).

Definition bootstrap (item : Attachment) (self : t) : result unit MuxError.t * t :=
  let '(request, message) := item in
  if is_none self.(endpoint) && bool_decide (self.(phase) = Phase.Ready)
     && bool_decide (self.(acknowledgement) = Some item)
  then (Ok tt, self)
  else
    try _ := map_err (fun _ => MuxError.Protocol) (live_request request self) at self in
    match self.(endpoint) with
    | Some endpoint =>
        if bool_decide (message.(Envelope.kind) = MessageKind.Bind) then bootstrap_endpoint endpoint item self
        else (Err MuxError.Protocol, self)
    | None => bootstrap_initiator item self
    end.

(** A new stream at the endpoint. *)
Definition receive_open (item : Attachment) (self : t) : result unit MuxError.t * t :=
  let '(request, message) := item in
  if is_none self.(endpoint) then (Err MuxError.Protocol, self)
  else if message.(Envelope.stream_id) <=? self.(highest_id) then (Ok tt, self)
  else
    try _ := map_err (fun _ => MuxError.Protocol) (live_request request self) at self in
    if Z.of_nat (size self.(routes)) =? self.(config).(MuxConfig.max_streams) then (Err MuxError.Capacity, self)
    else
      try _ := validate_open message self at self in
      try parts := match message.(Envelope.open) with
        | Some open => Ok (open.(Open.operation_id), Kind.Opening, None)
        | None =>
            try check := ok_or message.(Envelope.check_identity) MuxError.Protocol in
            if self.(config).(MuxConfig.max_check_ms) <? as_u64 check.(CheckIdentity.timeout_ms)
            then Err MuxError.Protocol
            else Ok (check.(CheckIdentity.operation_id), Kind.Check, Some (as_u64 check.(CheckIdentity.timeout_ms)))
        end at self in
      let '(operation, kind, timeout) := parts in
      if negb (identifier operation)
         || is_some_and (operation_of request self) (fun op => negb (bool_decide (op = operation)))
      then (Err MuxError.Protocol, self)
      else
        call _, self := enqueue item false self in
        (Ok tt, self
          <| requests := alter (fun row => row <| MuxRequest.operation := Some operation |>) request self.(requests) |>
          <| highest_id := message.(Envelope.stream_id) |>
          <| routes := <[message.(Envelope.stream_id) := Route.mk request kind
               (option_map (fun open => open.(Open.destination).(Destination.scheme)) message.(Envelope.open))
               (option_map Open.policy message.(Envelope.open))
               (option_map (fun t => saturating_add_u64 self.(now) t) timeout) None]> self.(routes) |>).

Definition receive_in (item : Attachment) (self : t) : result unit MuxError.t * t :=
  let '(request, message) := item in
  if negb (identifier request) then (Err MuxError.Protocol, self)
  else
    try _ := map_err (fun _ => MuxError.Protocol) (Codec.admit_limited message (limits_of self)) at self in
    if message.(Envelope.stream_id) =? 0 then bootstrap item self
    else if negb (bool_decide (self.(phase) = Phase.Ready)) || negb (message.(Envelope.version) =? 2)
    then (Err MuxError.Protocol, self)
    else if match message.(Envelope.kind) with MessageKind.Open | MessageKind.CheckIdentity => true | _ => false end
    then receive_open item self
    else
      match self.(routes) !! message.(Envelope.stream_id) with
      | None =>
          if message.(Envelope.stream_id) <=? self.(highest_id) then (Ok tt, self) else (Err MuxError.Protocol, self)
      | Some route =>
          if negb (bool_decide (route.(Route.request) = request)) then (Err MuxError.Protocol, self)
          else
            try _ := validate_transition route.(Route.kind) message.(Envelope.kind) false self at self in
            try _ := validate_opened message self at self in
            call _, self := enqueue item false self in
            (Ok tt, transition message self)
      end.

Definition receive (item : Attachment) (self : t) : result unit MuxError.t * t :=
  try _ := live self at self in
  if negb (bool_decide (item.2.(Envelope.session_id) = self.(session))) then (Ok tt, self)
  else
    match receive_in item self with
    | (Err ((MuxError.Protocol | MuxError.InvalidRequest | MuxError.Capacity) as e), self) => (Err e, disconnect self)
    | other => other
    end.
End mux.
End Mux.
