(* ===== verification/MuxFacts.v ===== *)
(** * Invariants of the multiplexer *)
From S2P Require Import Prelude Utf8 Cbor CborFacts Protocol ProtocolFacts Budget Admission Policy Validate Codec CodecFacts Binding BindingFacts Mux.

(** ** Queues *)

Lemma keep_app {A} (p : A -> bool) (l k : list A) : keep p (l ++ k) = keep p l ++ keep p k.
Proof. apply list.filter_app. Qed.

Lemma keep_Forall {A} (P : A -> Prop) (p : A -> bool) (l : list A) : Forall P l -> Forall P (keep p l).
Proof. intros H. apply list.Forall_forall. intros x Hx. apply elem_of_keep in Hx as [_ Hx]. by apply (proj1 (list.Forall_forall _ _) H). Qed.

Lemma length_keep {A} (p : A -> bool) (l : list A) : (length (keep p l) <= length l)%nat.
Proof. apply length_filter. Qed.

Lemma sum_charges_app (l k : list Queued.t) :
  sum_Z (map Queued.charge (l ++ k)) = sum_Z (map Queued.charge l) + sum_Z (map Queued.charge k).
Proof. induction l as [|x l IH]; [done|]. cbn [app map]. change (sum_Z (?a :: ?b)) with (a + sum_Z b). lia. Qed.

Lemma sum_charges_snoc l item c control :
  sum_Z (map Queued.charge (l ++ [Queued.mk item c control])) = sum_Z (map Queued.charge l) + c.
Proof. rewrite sum_charges_app. cbn. lia. Qed.

Definition unsigned_charges (l : list Queued.t) : Prop := Forall (fun q => 0 <= q.(Queued.charge)) l.

Lemma sum_charges_nonneg l : unsigned_charges l -> 0 <= sum_Z (map Queued.charge l).
Proof.
  intros H. apply sum_Z_nonneg. intros x (q & -> & Hq)%list_elem_of_fmap. by apply (proj1 (list.Forall_forall _ _) H).
Qed.

(** Dropping items drops charge. *)
Lemma sum_keep_le (p : Queued.t -> bool) l : unsigned_charges l ->
  sum_Z (map Queued.charge (keep p l)) <= sum_Z (map Queued.charge l).
Proof.
  induction 1 as [|x l Hx Hl IH]; [done|]. unfold keep in *. rewrite filter_cons. cbn [map].
  change (sum_Z (?a :: ?b)) with (a + sum_Z b). destruct (decide _); cbn [map];
    try change (sum_Z (?a :: ?b)) with (a + sum_Z b); lia.
Qed.

Lemma keep_comm {A} (p q : A -> bool) (l : list A) : keep p (keep q l) = keep q (keep p l).
Proof.
  induction l as [|x l IH]; [done|]. unfold keep in *. rewrite !filter_cons.
  destruct (decide (q x = true)), (decide (p x = true)); rewrite ?filter_cons;
    repeat (destruct (decide _); try done); by rewrite ?IH.
Qed.

(** The counters are exact; everything stays inside [cfg], and bulk traffic
    leaves the control reserve of the limits in force free. *)
Record queue_ok (cfg lim : Limits.t) (q : Queue.t) : Prop := {
  qo_bytes : q.(Queue.bytes) = sum_Z (map Queued.charge q.(Queue.items));
  qo_data : q.(Queue.data_bytes) = sum_Z (map Queued.charge (keep Queue.is_data q.(Queue.items)));
  qo_frames : q.(Queue.data_frames) = len (keep Queue.is_data q.(Queue.items));
  qo_nonneg : unsigned_charges q.(Queue.items);
  qo_total : q.(Queue.bytes) <= cfg.(Limits.queued_bytes);
  qo_count : len q.(Queue.items) <= cfg.(Limits.queued_frames);
  qo_reserve : q.(Queue.data_bytes) <= lim.(Limits.queued_bytes) - lim.(Limits.control_reserve_bytes)
    /\ q.(Queue.data_frames) <= lim.(Limits.queued_frames) - lim.(Limits.control_reserve_frames);
}.

Definition quiet (q : Queue.t) : Prop := keep Queue.is_data q.(Queue.items) = [].

Lemma queue_ok_default cfg lim : Validate.limits cfg = Ok tt -> Validate.limits lim = Ok tt ->
  queue_ok cfg lim Queue.default.
Proof. intros H1 H2. apply limits_spec in H1, H2. constructor; cbn; try done; [constructor|lia..]. Qed.

(** A queue without bulk traffic is within any limits. *)
Lemma queue_ok_quiet cfg lim lim' q : Validate.limits lim' = Ok tt -> quiet q -> queue_ok cfg lim q -> queue_ok cfg lim' q.
Proof.
  intros Hl Hq [H1 H2 H3 H4 H5 H6 H7]. apply limits_spec in Hl. constructor; try done.
  unfold quiet in Hq. rewrite H2, H3, Hq. cbn. lia.
Qed.

Lemma keep_data_cons e l :
  keep Queue.is_data (e :: l) = (if e.(Queued.control) then [] else [e]) ++ keep Queue.is_data l.
Proof.
  unfold keep. rewrite filter_cons. destruct (decide (Queue.is_data e = true)) as [H|H]; unfold Queue.is_data in H;
    by destruct (Queued.control e).
Qed.

Lemma keep_data_snoc l item c control : keep Queue.is_data (l ++ [Queued.mk item c control])
  = keep Queue.is_data l ++ (if control then [] else [Queued.mk item c control]).
Proof. rewrite keep_app, keep_data_cons. by destruct control. Qed.

Lemma push_ok cfg lim q item c control :
  Validate.limits cfg = Ok tt -> Validate.limits lim = Ok tt -> no_greater lim cfg = true ->
  0 <= c <= 1048576 -> queue_ok cfg lim q -> Queue.can_push c control lim q = true ->
  queue_ok cfg lim (Queue.push item c control q).
Proof.
  intros Hc Hl Hn Hr [H1 H2 H3 H4 H5 H6 H7] Hp. apply limits_spec in Hc, Hl. apply no_greater_spec in Hn.
  pose proof (sum_charges_nonneg _ H4). pose proof (sum_charges_nonneg _ (keep_Forall _ Queue.is_data _ H4)).
  assert (Hd : Queue.data_frames q <= 64) by lia.
  unfold Queue.can_push in Hp. rewrite !andb_true_iff, orb_true_iff, andb_true_iff in Hp.
  destruct Hp as [[Hp1 Hp2] Hp3]. norm_int.
  unfold Queue.push. destruct control; constructor;
    cbn [Queue.items Queue.bytes Queue.data_bytes Queue.data_frames over];
    rewrite ?keep_data_snoc, ?app_nil_r, ?sum_charges_snoc, ?length_app, <- ?H1, <- ?H2;
    try (apply Forall_app; split; [done | repeat constructor; cbn; lia]); norm_int; cbn [length]; try done; lia.
Qed.

Lemma pop_ok cfg lim q : Validate.limits cfg = Ok tt -> queue_ok cfg lim q -> queue_ok cfg lim (Queue.pop q).2.
Proof.
  intros Hc H. pose proof H as [H1 H2 H3 H4 H5 H6 H7]. apply limits_spec in Hc. unfold Queue.pop.
  destruct (Queue.items q) as [|e rest] eqn:Hi; [done|].
  apply list.Forall_cons in H4 as [He Hrest]. pose proof (sum_charges_nonneg _ Hrest).
  pose proof (sum_charges_nonneg _ (keep_Forall _ Queue.is_data _ Hrest)). pose proof (length_keep Queue.is_data rest).
  pose proof (sum_keep_le Queue.is_data rest Hrest).
  cbn [map] in H1. change (sum_Z (?a :: ?b)) with (a + sum_Z b) in H1. cbn [length] in H6.
  rewrite keep_data_cons in H2, H3.
  destruct (Queued.control e); cbn [app map length] in H2, H3; try change (sum_Z (?a :: ?b)) with (a + sum_Z b) in H2;
    constructor; cbn [snd Queue.items Queue.bytes Queue.data_bytes Queue.data_frames over]; norm_int; try done; lia.
Qed.

Lemma recount_ok cfg lim q p : Validate.limits cfg = Ok tt -> queue_ok cfg lim q ->
  queue_ok cfg lim (Queue.recount (keep p q.(Queue.items))).
Proof.
  intros Hc [H1 H2 H3 H4 H5 H6 H7]. apply limits_spec in Hc.
  pose proof (sum_keep_le p _ H4). pose proof (sum_charges_nonneg _ (keep_Forall _ p _ H4)).
  pose proof (keep_Forall _ Queue.is_data _ H4) as Hd.
  pose proof (sum_keep_le p _ Hd). pose proof (sum_charges_nonneg _ (keep_Forall _ p _ Hd)).
  pose proof (sum_keep_le Queue.is_data _ H4).
  pose proof (length_keep p (Queue.items q)). pose proof (length_keep p (keep Queue.is_data (Queue.items q))).
  constructor; cbn [Queue.recount Queue.items Queue.bytes Queue.data_bytes Queue.data_frames];
    rewrite ?(keep_comm Queue.is_data p); norm_int; try done; try lia. by apply keep_Forall.
Qed.

Lemma recount_quiet q p : quiet q -> quiet (Queue.recount (keep p q.(Queue.items))).
Proof. unfold quiet, Queue.recount. cbn [Queue.items]. rewrite keep_comm. by intros ->. Qed.

Lemma pop_quiet q : quiet q -> quiet (Queue.pop q).2.
Proof.
  unfold quiet, Queue.pop. destruct (Queue.items q) as [|e rest] eqn:Hi; [cbn [snd]; by rewrite Hi|].
  rewrite keep_data_cons. destruct (Queued.control e); [|done]. done.
Qed.

Lemma push_quiet q item c : quiet q -> quiet (Queue.push item c true q).
Proof. unfold quiet, Queue.push. cbn [Queue.items over]. rewrite keep_data_snoc. by intros ->. Qed.

(** ** The machine *)

Section facts.
Context {L : Layout}.
Variable unstable_sequenced : bool.
Import Mux.

(** Which request each stream id was opened for.  An id is used once, so this
    never changes; every queued message of a stream belongs to its request. *)
Definition filed (own : gmap Z string) (item : Attachment) : Prop :=
  item.2.(Envelope.stream_id) <> 0 -> own !! item.2.(Envelope.stream_id) = Some item.1.

Definition owns (own : gmap Z string) (routes : gmap Z Route.t) (highest : Z) (out act : Queue.t) : Prop :=
  (forall id r, routes !! id = Some r -> own !! id = Some r.(Route.request))
  /\ (forall id, is_Some (own !! id) -> 0 < id <= highest)
  /\ Forall (fun q => filed own q.(Queued.attachment)) out.(Queue.items)
  /\ Forall (fun q => filed own q.(Queued.attachment)) act.(Queue.items).

Lemma filed_push own item c control q : Forall (fun q => filed own q.(Queued.attachment)) q.(Queue.items) ->
  filed own item -> Forall (fun q => filed own q.(Queued.attachment)) (Queue.push item c control q).(Queue.items).
Proof. intros Hq Hi. unfold Queue.push. destruct control; cbn; apply Forall_app; split; try done; by repeat constructor. Qed.

Lemma filed_pop own q : Forall (fun q => filed own q.(Queued.attachment)) q.(Queue.items) ->
  Forall (fun q => filed own q.(Queued.attachment)) (Queue.pop q).2.(Queue.items)
  /\ (forall item, (Queue.pop q).1 = Some item -> filed own item).
Proof.
  intros Hq. unfold Queue.pop. destruct (Queue.items q) as [|e rest] eqn:Hi; [cbn; by rewrite Hi|].
  apply list.Forall_cons in Hq as [He Hr]. destruct (Queued.control e); (split; [done|]); by intros item [= <-].
Qed.

Record inv (own : gmap Z string) (self : Mux.t) : Prop := {
  mi_limits : Validate.limits self.(config).(MuxConfig.limits) = Ok tt;
  mi_streams : Z.of_nat (size self.(routes)) <= self.(config).(MuxConfig.max_streams);
  mi_endpoint : forall e, self.(endpoint) = Some e ->
    no_greater e.(EndpointConfig.limits) self.(config).(MuxConfig.limits) = true;
  mi_ready : self.(phase) = Phase.Ready <-> is_Some self.(binding);
  mi_bound : forall b, self.(binding) = Some b ->
    Validate.limits (Binding.limits b) = Ok tt /\ no_greater (Binding.limits b) self.(config).(MuxConfig.limits) = true;
  mi_out : queue_ok self.(config).(MuxConfig.limits) (limits_of self) self.(outbound);
  mi_act : queue_ok self.(config).(MuxConfig.limits) (limits_of self) self.(actions);
  mi_quiet : self.(binding) = None -> quiet self.(outbound) /\ quiet self.(actions);
  mi_routes : forall id r, self.(routes) !! id = Some r ->
    0 < id <= self.(highest_id) /\ is_Some (self.(requests) !! r.(Route.request));
  mi_unbound : self.(binding) = None -> self.(routes) = ∅;
  mi_offer : forall o, self.(offer) = Some o -> o.2 = session_offer self;
  mi_highest : 0 <= self.(highest_id) <= I64_MAX;
  mi_used : forall k, is_Some (self.(requests) !! k) -> k ∈ self.(used_requests);
  mi_requests : Z.of_nat (size self.(used_requests)) <= self.(config).(MuxConfig.max_requests);
  mi_closed : self.(phase) = Phase.Closed -> self.(requests) = ∅ /\ self.(outbound) = Queue.default
    /\ self.(actions) = Queue.default;
  mi_own : owns own self.(routes) self.(highest_id) self.(outbound) self.(actions);
}.

Lemma limits_of_valid own self : inv own self -> Validate.limits (limits_of self) = Ok tt
  /\ no_greater (limits_of self) self.(config).(MuxConfig.limits) = true.
Proof.
  intros H. unfold limits_of. destruct (binding self) as [b|] eqn:Hb; [by apply (mi_bound _ _ H)|].
  split; [apply (mi_limits _ _ H)|]. apply no_greater_spec. lia.
Qed.

(** What a queued message is charged. *)
Definition bulk (kind : MessageKind.t) : bool :=
  match kind with MessageKind.Data | MessageKind.Open | MessageKind.CheckIdentity => true | _ => false end.

Lemma mux_enqueue_spec item outgoing self r self' : enqueue item outgoing self = (r, self') ->
  match r with
  | Err e => self' = self
      /\ (e = MuxError.InvalidRequest \/ e = MuxError.Protocol \/ e = MuxError.WouldBlock)
  | Ok _ => exists c, 0 <= c <= 1048576 /\ Codec.allocation_charge item.2 (limits_of self) = Ok (c - 128 - slen item.1)
      /\ identifier item.1 = true
      /\ Queue.can_push c (negb (bulk item.2.(Envelope.kind))) (limits_of self)
           (if outgoing then self.(outbound) else self.(actions)) = true
      /\ self' = (if outgoing
           then self <| outbound := Queue.push item c (negb (bulk item.2.(Envelope.kind))) self.(outbound) |>
           else self <| actions := Queue.push item c (negb (bulk item.2.(Envelope.kind))) self.(actions) |>)
  end.
Proof.
  unfold enqueue. intros H. destruct (identifier item.1) eqn:Hid; cbn [negb] in H; [|injection H as <- <-; auto].
  destruct (Codec.allocation_charge item.2 (limits_of self)) as [n|e] eqn:Hc; cbn [map_err] in H; [|injection H as <- <-; auto].
  pose proof (allocation_charge_range _ _ _ Hc) as (Hl & _ & Hn). apply limits_spec in Hl.
  assert (Hlen : 0 <= slen item.1 <= 128).
  { unfold identifier in Hid. pose proof (slen_nonneg item.1). apply andb_true_iff in Hid as [Hid _].
    apply andb_true_iff in Hid as [_ Hid]. lia. }
  unfold MAX_ALLOCATION in Hl. unfold usize_add in H.
  rewrite (as_usize_id (n + slen item.1)), (as_usize_id (_ + 128)) in H by lia.
  fold (bulk (Envelope.kind item.2)) in H.
  destruct (Queue.can_push _ _ _ _) eqn:Hp; cbn [negb] in H; injection H as <- <-; [|auto].
  exists (n + slen item.1 + 128). split_and!; try lia; try done; [f_equal; lia |]. by destruct outgoing.
Qed.

(** Queueing keeps the invariant; before there is a binding only control messages are queued. *)
Lemma inv_enqueue own item outgoing self r self' : inv own self -> enqueue item outgoing self = (r, self') ->
  self.(phase) <> Phase.Closed ->
  (self.(binding) = None -> bulk item.2.(Envelope.kind) = false) -> filed own item -> inv own self'.
Proof.
  intros H He Hlive Hb Hfiled. apply mux_enqueue_spec in He. destruct r as [[]|e]; [|by destruct He as [-> _]].
  destruct He as (c & Hc & _ & _ & Hp & ->). destruct (limits_of_valid own self H) as [Hl Hn].
  pose proof H as [H1 H2 H3 H4 H5 H6 H7 H8 H9 H10 H11 H12 H13 H14 H15 H16].
  destruct outgoing; constructor; cbn [config routes endpoint phase binding outbound actions requests offer highest_id
    used_requests over]; try done; try (by apply push_ok).
  1, 3: intros Hnone; destruct (H8 Hnone) as [Hq1 Hq2]; rewrite (Hb Hnone); split; try done; by apply push_quiet.
  all: destruct H16 as (Ho1 & Ho2 & Ho3 & Ho4); split_and!; try done; by apply filed_push.
Qed.

(** What a refused or accepted message leaves alone. *)
Lemma enqueue_same item outgoing self r self' : enqueue item outgoing self = (r, self') ->
  exists o a, self' = self <| outbound := o |> <| actions := a |>.
Proof.
  intros He. apply mux_enqueue_spec in He. destruct r as [[]|e].
  - destruct He as (c & _ & _ & _ & _ & ->). destruct outgoing; [eexists _, (actions self) | eexists (outbound self), _]; reflexivity.
  - destruct He as [-> _]. exists (outbound self), (actions self). by destruct self.
Qed.

Lemma mux_inv_disconnect own self : inv own self -> inv own (disconnect self).
Proof.
  intros [H1 H2 H3 H4 H5 H6 H7 H8 H9 H10 H11 H12 H13 H14 H15 H16].
  constructor; cbn; try done; try (by apply queue_ok_default).
  - rewrite map_size_empty. lia.
  - by intros k [? ?].
  - destruct H16 as (_ & Ho & _). split_and!; try done; constructor.
Qed.

Lemma mux_inv_new session e cfg self : new session e cfg = Ok self -> 0 <= cfg.(MuxConfig.max_requests) ->
  0 <= cfg.(MuxConfig.max_streams) -> inv ∅ self.
Proof.
  unfold new. intros H Hr Hs. case_match eqn:Hg; [done|]. injection H as <-. rewrite !orb_false_iff in Hg.
  destruct Hg as [[_ Hl] He]. apply negb_false_iff in Hl.
  assert (Hv : Validate.limits (MuxConfig.limits cfg) = Ok tt) by (by destruct (Validate.limits _) as [[]|]).
  constructor; cbn; try done; try (by apply queue_ok_default).
  - intros e0 ->. cbn in He. rewrite !orb_false_iff in He. destruct He as [_ He]. by apply negb_false_iff.
  - by intros k [? ?].
  - split_and!; try (by intros id [? ?]); constructor.
Qed.

Lemma inv_register own request operation self : inv own self -> inv own (register request operation self).2.
Proof.
  intros H. unfold register. destruct (live self) as [[]|] eqn:Hlive; [|done].
  case_bool_decide as Hrej; [done|]. destruct (_ || _) eqn:Hg; [done|]. destruct (_ =? _) eqn:Hfull; [done|].
  rewrite !orb_false_iff, bool_decide_eq_false in Hg. destruct Hg as [[[_ Hnew] _] _].
  destruct H as [H1 H2 H3 H4 H5 H6 H7 H8 H9 H10 H11 H12 H13 H14 H15 H16].
  constructor; cbn; try done.
  - intros id r Hid. destruct (H9 id r Hid) as [Ha Hb]. split; [done|]. by apply lookup_insert_is_Some'; right.
  - intros k [<-|[_ Hk]]%lookup_insert_is_Some; [set_solver|]. specialize (H13 k Hk). set_solver.
  - rewrite size_union by set_solver. rewrite size_singleton. lia.
  - intros Hc. unfold live in Hlive. by rewrite Hc in Hlive.
Qed.

Lemma live_phase self : live self = Ok tt -> self.(phase) <> Phase.Closed.
Proof. unfold live. by case_bool_decide. Qed.

Lemma live_request_live request self : live_request request self = Ok tt ->
  self.(phase) <> Phase.Closed /\ is_Some (self.(requests) !! request).
Proof.
  unfold live_request. destruct (live self) as [[]|] eqn:Hl; [|done]. intros H. split; [by apply live_phase|].
  destruct (requests self !! request); [by eexists|done].
Qed.

Lemma inv_begin own request self : inv own self -> inv own (begin request self).2.
Proof.
  intros H. unfold begin. destruct (live_request request self) as [[]|] eqn:Hlr; [|done].
  apply live_request_live in Hlr as [Hlive _]. destruct (endpoint self) eqn:He; [done|]. cbn [is_some].
  destruct (phase self) eqn:Hph; try done.
  destruct (enqueue _ true self) as [r self1] eqn:Hq.
  assert (Hi : inv own self1) by (eapply inv_enqueue; [done|done|congruence|by intros _|by intros Hz]).
  destruct (enqueue_same _ _ _ _ _ Hq) as (o & a & ->). destruct r as [[]|]; [|done].
  destruct Hi as [H1 H2 H3 H4 H5 H6 H7 H8 H9 H10 H11 H12 H13 H14 H15 H16]. cbn in *.
  constructor; cbn; try done.
  - split; [done|]. intros Hb. apply H4 in Hb. congruence.
  - by intros x [= <-].
Qed.

(** A new stream: its opening is queued, its route made, and its id spent. *)
Lemma inv_new_stream own self self1 outgoing m id route : inv own self -> self.(binding) <> None ->
  self.(highest_id) < id <= I64_MAX -> Z.of_nat (size self.(routes)) < self.(config).(MuxConfig.max_streams) ->
  is_Some (self.(requests) !! route.(Route.request)) -> m.(Envelope.stream_id) = id ->
  enqueue (route.(Route.request), m) outgoing self = (Ok tt, self1) ->
  inv (<[id := route.(Route.request)]> own)
    (self1 <| highest_id := id |> <| routes := <[id := route]> self1.(routes) |>)
  /\ own ⊆ <[id := route.(Route.request)]> own.
Proof.
  intros H Hb Hid Hsz Hreq Hm He. apply mux_enqueue_spec in He as (c & Hc & _ & _ & Hp & ->).
  destruct (limits_of_valid own self H) as [Hl Hn].
  pose proof H as [H1 H2 H3 H4 H5 H6 H7 H8 H9 H10 H11 H12 H13 H14 H15 (Ho1 & Ho2 & Ho3 & Ho4)].
  assert (Hnone : routes self !! id = None).
  { destruct (routes self !! id) as [r|] eqn:Hr; [|done]. destruct (H9 id r Hr). lia. }
  assert (Hown : own !! id = None).
  { destruct (own !! id) as [r|] eqn:Hr; [|done]. destruct (Ho2 id ltac:(by eexists)). lia. }
  assert (Hph : phase self <> Phase.Closed).
  { intros Hph. destruct (binding self) eqn:Hbs; [|done]. assert (phase self = Phase.Ready) by (apply H4; by eexists). congruence. }
  assert (Hfiled : forall q : Queue.t, Forall (fun q => filed own (Queued.attachment q)) (Queue.items q) ->
    Forall (fun q => filed (<[id := Route.request route]> own) (Queued.attachment q)) (Queue.items q)).
  { intros q Hq. eapply list.Forall_impl; [exact Hq|]. cbn. intros x Hx Hz. specialize (Hx Hz).
    rewrite lookup_insert_ne; [done|]. intros ->. congruence. }
  assert (Hnew : filed (<[id := Route.request route]> own) (Route.request route, m)).
  { intros _. cbn. by rewrite Hm, lookup_insert_eq. }
  split; [|by apply insert_subseteq].
  destruct outgoing; constructor; cbn [config routes endpoint phase binding outbound actions requests offer highest_id
    used_requests over]; try done; try (by apply push_ok); try lia.
  all: try (rewrite map_size_insert_None by done; lia).
  all: try (intros j r [[<- <-]|[Hne Hr]]%lookup_insert_Some; [split; [lia|done]|];
    destruct (H9 j r Hr) as [Ha Hd]; split; [lia|done]).
  all: split_and!; auto using filed_push.
  all: try (intros j r [[<- <-]|[Hne Hr]]%lookup_insert_Some; [by rewrite lookup_insert_eq|];
    rewrite lookup_insert_ne by done; auto).
  all: intros j [<-|[Hne Hj]]%lookup_insert_is_Some; [lia|]; specialize (Ho2 j Hj); lia.
Qed.

(** The invariant holds for a record of streams that extends the one before. *)
Definition inv_from (own : gmap Z string) (self : Mux.t) : Prop := exists own', own ⊆ own' /\ inv own' self.

Lemma inv_from_refl own self : inv own self -> inv_from own self.
Proof. intros H. by exists own. Qed.

Lemma message_spec id kind self m : message id kind self = Ok m ->
  self.(phase) = Phase.Ready /\ m.(Envelope.stream_id) = id /\ m.(Envelope.kind) = kind
  /\ m = Envelope.default <| Envelope.version := 2 |> <| Envelope.session_id := self.(session) |>
         <| Envelope.stream_id := id |> <| Envelope.kind := kind |>.
Proof.
  unfold message. destruct (live self); [|done]. case_bool_decide; [|done]. cbn. by intros [= <-].
Qed.

Lemma inv_start own request kind timeout fill self :
  inv own self -> is_Some (self.(requests) !! request) ->
  (forall m, (fill m).(Envelope.stream_id) = m.(Envelope.stream_id)) ->
  inv_from own (start request kind timeout fill self).2.
Proof.
  intros H Hreq Hfill. pose proof (inv_from_refl own self H) as Hsame. unfold start.
  destruct (_ || _) eqn:Hg; [done|]. destruct (_ <=? _) eqn:Hsz; [done|].
  destruct (checked_add_i64 _ 1) as [id|] eqn:Hid; [|done]. cbn [ok_or].
  apply checked_add_i64_Some in Hid as [-> Hid]. unfold in_i64 in Hid.
  destruct (message _ _ self) as [m|] eqn:Hm; [|done]. destruct (validate_open _ self) eqn:Hv; [|done].
  apply message_spec in Hm as (Hph & Hmid & _).
  assert (Hb : binding self <> None) by (intros Hb; apply (mi_ready _ _ H) in Hph as [? ?]; congruence).
  destruct (enqueue _ true self) as [r self1] eqn:Hq. destruct r as [[]|]; cbn [snd].
  2:{ apply mux_enqueue_spec in Hq as [-> _]. done. }
  match goal with |- inv_from _ (_ <| routes := <[_ := ?r]> _ |>) =>
    destruct (inv_new_stream own self self1 true (fill m) (highest_id self + 1) r H Hb) as [Hi Hs];
      [lia | lia | done | by rewrite Hfill | done |] end.
  by eexists.
Qed.

Lemma inv_check own request identity timeout self : inv own self ->
  inv_from own (check_identity_request request identity timeout self).2.
Proof.
  intros H. pose proof (inv_from_refl own self H) as Hsame. unfold check_identity_request.
  destruct (live_request request self) as [[]|] eqn:Hlr; [|done].
  apply live_request_live in Hlr as [_ Hreq]. destruct (_ || _); [done|].
  destruct (binding self); [|done]. cbn [ok_or]. destruct (operation_of request self); [|done]. by apply inv_start.
Qed.

Lemma inv_open own request o self : inv own self -> inv_from own (open request o self).2.
Proof.
  intros H. pose proof (inv_from_refl own self H) as Hsame. unfold open.
  destruct (live_request request self) as [[]|] eqn:Hlr; [|done].
  apply live_request_live in Hlr as [_ Hreq]. destruct (negb _); [done|]. by apply inv_start.
Qed.

(** Routes only lose entries or change their kind and deadlines. *)
Lemma inv_routes own self m : inv own self ->
  (forall id r, m !! id = Some r -> exists r', self.(routes) !! id = Some r' /\ r.(Route.request) = r'.(Route.request)) ->
  inv own (self <| routes := m |>).
Proof.
  intros [H1 H2 H3 H4 H5 H6 H7 H8 H9 H10 H11 H12 H13 H14 H15 H16] Hm. constructor; cbn; try done.
  - etransitivity; [|exact H2]. apply inj_le. rewrite <- !size_dom. apply subseteq_size.
    intros id [r Hr]%elem_of_dom. destruct (Hm id r Hr) as (r' & Hr' & _). by apply elem_of_dom_2 in Hr'.
  - intros id r Hr. destruct (Hm id r Hr) as (r' & Hr' & ->). by apply H9.
  - intros Hb. apply map_empty. intros id. destruct (m !! id) as [r|] eqn:Hr; [|done].
    destruct (Hm id r Hr) as (r' & Hr' & _). by rewrite (H10 Hb), lookup_empty in Hr'.
  - destruct H16 as (Ho1 & Ho2 & Ho3 & Ho4). split_and!; try done. intros id r Hr.
    destruct (Hm id r Hr) as (r' & Hr' & ->). by apply Ho1.
Qed.

Lemma inv_delete own self id : inv own self -> inv own (self <| routes := delete id self.(routes) |>).
Proof. intros H. apply inv_routes; [done|]. intros j r [_ Hr]%lookup_delete_Some. by exists r. Qed.

Lemma inv_alter own self id f : inv own self -> (forall r, (f r).(Route.request) = r.(Route.request)) ->
  inv own (self <| routes := alter f id self.(routes) |>).
Proof.
  intros H Hf. apply inv_routes; [done|]. intros j r. destruct (decide (id = j)) as [->|Hne].
  - rewrite lookup_alter_eq. intros (r' & Hr' & ->)%fmap_Some. by exists r'.
  - rewrite lookup_alter_ne by done. intros Hr. by exists r.
Qed.

Lemma inv_transition own m self : inv own self -> inv own (transition m self).
Proof. intros H. unfold transition. destruct (Envelope.kind m); try done; (by apply inv_delete) || by apply inv_alter. Qed.

(** A message on a live route, sent for the route's request, is filed. *)
Lemma filed_route own self m id route : inv own self -> self.(routes) !! id = Some route ->
  m.(Envelope.stream_id) = id -> filed own (route.(Route.request), m).
Proof. intros H Hr Hid _. cbn. rewrite Hid. by apply (mi_own _ _ H). Qed.

Lemma inv_send own request m self : inv own self -> inv own (send request m self).2.
Proof.
  intros H. unfold send. destruct (live self) as [[]|] eqn:Hl; [|done]. apply live_phase in Hl.
  destruct (routes self !! _) as [route|] eqn:Hr; [|done]. cbn [ok_or]. destruct (_ || _) eqn:Hg; [done|].
  rewrite !orb_false_iff, negb_false_iff, bool_decide_eq_true in Hg. destruct Hg as [[<- _] _].
  destruct (validate_transition _ _ _ _); [|done]. destruct (validate_opened _ _); [|done].
  destruct (binding self) as [b|] eqn:Hb; [|done]. cbn [ok_or]. destruct (Codec.admit_limited _ _); [|done]. cbn [map_err].
  destruct (enqueue _ true self) as [r self1] eqn:Hq.
  assert (Hi : inv own self1) by (eapply inv_enqueue; [done|done|done|congruence|by eapply filed_route]).
  destruct r as [[]|]; [|done]. by apply inv_transition.
Qed.

Lemma pop_default : (Queue.pop Queue.default).2 = Queue.default.
Proof. done. Qed.

Lemma inv_next_action own self : inv own self -> inv own (next_action self).2.
Proof.
  intros H. unfold next_action. destruct (Queue.pop (actions self)) as [item q] eqn:Hp.
  pose proof (f_equal snd Hp) as Hq. cbn in Hq. subst q.
  destruct H as [H1 H2 H3 H4 H5 H6 H7 H8 H9 H10 H11 H12 H13 H14 H15 H16].
  constructor; cbn; try done; [by apply pop_ok | | |].
  - intros Hb. destruct (H8 Hb). split; [done|]. by apply pop_quiet.
  - intros Hc. destruct (H15 Hc) as (? & ? & ->). done.
  - destruct H16 as (Ho1 & Ho2 & Ho3 & Ho4). split_and!; try done. by apply filed_pop.
Qed.

Lemma inv_pop_outbound own self : inv own self -> inv own (pop_outbound self).2.
Proof.
  intros H. unfold pop_outbound. destruct (Queue.pop (outbound self)) as [item q] eqn:Hp.
  pose proof (f_equal snd Hp) as Hq. cbn in Hq. subst q.
  destruct H as [H1 H2 H3 H4 H5 H6 H7 H8 H9 H10 H11 H12 H13 H14 H15 H16].
  constructor; cbn; try done; [by apply pop_ok | | |].
  - intros Hb. destruct (H8 Hb). split; [|done]. by apply pop_quiet.
  - intros Hc. destruct (H15 Hc) as (? & -> & ?). done.
  - destruct H16 as (Ho1 & Ho2 & Ho3 & Ho4). split_and!; try done. by apply filed_pop.
Qed.

Lemma mux_inv_next_message own self : inv own self -> inv own (next_message self).2.
Proof.
  intros H. unfold next_message. pose proof (inv_pop_outbound own self H) as Hp.
  case_bool_decide; [destruct (pop_outbound self); by apply mux_inv_disconnect|].
  destruct (is_some_and _ _); [done|]. destruct (pending_cancel self) as [[id route]|]; [|done].
  destruct (Route.cancel route); [|done]. destruct (message _ _ _); [|done].
  destruct (is_none _); [by apply inv_alter | by apply inv_delete].
Qed.

Lemma inv_cancel_each own ids request self : inv own self -> self.(binding) <> None ->
  Forall (fun id => own !! id = Some request) ids ->
  let '(r, self') := cancel_each ids request self in
  inv own self' /\ (r = Ok tt -> exists a, self' = self <| actions := a |>).
Proof.
  revert self. induction ids as [|id ids IH]; intros self H Hb Hids; cbn [cancel_each].
  { split; [done|]. intros _. exists (actions self). by destruct self. }
  destruct (message _ _ _) as [m|] eqn:Hm; [|done].
  destruct (enqueue _ false self) as [r self1] eqn:Hq.
  assert (Hlive : phase self <> Phase.Closed).
  { unfold message, live in Hm. by case_bool_decide. }
  apply list.Forall_cons in Hids as [Hid Hids]. apply message_spec in Hm as (_ & Hmid & _).
  assert (Hi : inv own self1) by (eapply inv_enqueue; [done|done|done|done|]; intros _; cbn; by rewrite Hmid).
  destruct r as [[]|]; [|split; [by apply mux_inv_disconnect | done]].
  apply mux_enqueue_spec in Hq as (c & _ & _ & _ & _ & ->).
  specialize (IH _ Hi Hb Hids). destruct (cancel_each _ _ _) as [r self2]. destruct IH as [IH1 IH2]. split; [done|].
  intros Hr. destruct (IH2 Hr) as [a ->]. by eexists.
Qed.

Lemma inv_mark own request self : inv own self -> inv own (mark_cancelled request self).
Proof.
  intros H. unfold mark_cancelled. apply inv_routes; [done|]. intros id r.
  rewrite lookup_fmap. intros (r' & Hr & ->)%fmap_Some. exists r'. split; [done|]. by case_bool_decide.
Qed.

Lemma owned_routes_of own request self : inv own self -> Forall (fun id => own !! id = Some request) (routes_of request self).
Proof.
  intros H. apply list.Forall_forall. intros id (r & Hr)%elem_of_keys. apply map_lookup_filter_Some in Hr as [Hr <-].
  by apply (mi_own _ _ H).
Qed.

(** Cancelling keeps the invariant, and a request that is gone can be forgotten. *)
Lemma inv_cancel own request self : inv own self -> inv own (cancel request self).2.
Proof.
  intros H. unfold cancel. destruct (live self) as [[]|] eqn:Hl; [|done]. apply live_phase in Hl.
  destruct (_ && _); [by apply mux_inv_disconnect|]. destruct (requests self !! request) as [row|] eqn:Hrow; [|done].
  cbn [ok_or]. destruct (MuxRequest.sealed row); [done|].
  match goal with |- context [is_some (endpoint ?x)] => set (self1 := x) end.
  assert (Hi : inv own self1).
  { destruct H as [H1 H2 H3 H4 H5 H6 H7 H8 H9 H10 H11 H12 H13 H14 H15 H16]. subst self1. constructor; cbn; try done.
    - by apply recount_ok.
    - intros Hb. destruct (H8 Hb). split; [by apply recount_quiet|done].
    - intros id r Hr. destruct (H9 id r Hr) as [Ha Hb]. split; [done|]. by apply lookup_insert_is_Some'; right.
    - intros k [<-|[_ Hk]]%lookup_insert_is_Some; apply H13; [by rewrite Hrow|done].
    - destruct H16 as (Ho1 & Ho2 & Ho3 & Ho4). split_and!; try done. by apply keep_Forall. }
  destruct (is_some (endpoint self1)) eqn:Hep; [|by apply inv_mark].
  assert (Hi2 : inv own (self1 <| actions := Queue.discard_actions request (actions self1) |>)).
  { destruct Hi as [H1 H2 H3 H4 H5 H6 H7 H8 H9 H10 H11 H12 H13 H14 H15 H16]. constructor; cbn; try done.
    - by apply recount_ok.
    - intros Hb. destruct (H8 Hb). split; [done|by apply recount_quiet].
    - destruct H16 as (Ho1 & Ho2 & Ho3 & Ho4). split_and!; try done. by apply keep_Forall. }
  destruct (decide (binding self1 = None)) as [Hb|Hb].
  - assert (Hr : routes_of request self1 = []).
    { unfold routes_of. rewrite (mi_unbound _ _ Hi Hb), map_filter_empty. done. }
    rewrite Hr. cbn [cancel_each]. by apply inv_mark.
  - pose proof (inv_cancel_each own (routes_of request self1) request _ Hi2 Hb (owned_routes_of own request _ Hi)) as Hc.
    destruct (cancel_each _ _ _) as [[[]|] self2]; destruct Hc as [Hc _]; [by apply inv_mark | done].
Qed.

Lemma mux_inv_finish own request self : inv own self -> inv own (finish request self).2.
Proof.
  intros H. unfold finish. pose proof (inv_cancel own request self H) as Hc. destruct (cancel request self) as [[[]|] self1]; [|done].
  cbn [snd] in Hc. destruct (_ || _) eqn:Hg; [done|]. rewrite !orb_false_iff in Hg. destruct Hg as [[Hnone _] _].
  destruct Hc as [H1 H2 H3 H4 H5 H6 H7 H8 H9 H10 H11 H12 H13 H14 H15 H16]. constructor; cbn; try done.
  - intros id r Hr. destruct (H9 id r Hr) as [Ha Hb]. split; [done|]. rewrite lookup_delete_ne; [done|].
    intros ->. apply not_true_iff_false in Hnone. apply Hnone, existsb_elem. exists r. split; [|by apply bool_decide_eq_true].
    apply elem_of_values. by exists id.
  - intros k [_ Hk]%lookup_delete_is_Some. by apply H13.
  - intros Hc. destruct (H15 Hc) as (-> & ? & ?). by rewrite delete_empty.
Qed.

Lemma mux_inv_expire own ids self : inv own self -> inv own (expire ids self).
Proof.
  revert self. induction ids as [|id ids IH]; intros self H; cbn [expire]; [done|].
  destruct (routes self !! id) as [route|] eqn:Hr; [|done]. destruct (message _ _ self) as [m|] eqn:Hm; [|done].
  assert (Hlive : phase self <> Phase.Closed) by (unfold message, live in Hm; by case_bool_decide).
  assert (Hb : binding self <> None).
  { intros Hb. by rewrite (mi_unbound _ _ H Hb), lookup_empty in Hr. }
  destruct (enqueue _ _ self) as [r1 self1] eqn:Hq1.
  apply message_spec in Hm as (_ & Hmid & _).
  assert (Hi1 : inv own self1).
  { eapply inv_enqueue; [done|done|done|done|]. eapply filed_route; [done..|]. by destruct (Route.kind route). }
  destruct (enqueue_same _ _ _ _ _ Hq1) as (o1 & a1 & Hs1).
  destruct r1 as [[]|]; [|by apply mux_inv_disconnect].
  destruct (enqueue _ _ self1) as [r2 self2] eqn:Hq2.
  assert (Hi2 : inv own self2) by (eapply inv_enqueue; [done|done|by subst|by subst|exact (filed_route own self _ id route H Hr Hmid)]).
  destruct r2 as [[]|]; [|by apply mux_inv_disconnect]. apply IH. by apply inv_delete.
Qed.

Lemma mux_inv_advance own now' self : inv own self -> inv own (advance now' self).
Proof.
  intros H. unfold advance.
  assert (Hi : inv own (self <| now := Z.max (now self) now' |>)) by (by destruct H).
  destruct (existsb _ _); [by apply mux_inv_disconnect|]. destruct (is_some_and _ _); [by apply mux_inv_disconnect|].
  by apply mux_inv_expire.
Qed.
(** *** Binding *)

(** The limits both sides end up with are valid and inside the session's own. *)
Lemma accept_limits cfg message reply bound : accept unstable_sequenced cfg message = Ok (reply, bound) ->
  Validate.limits (Binding.limits bound) = Ok tt
  /\ no_greater (Binding.limits bound) cfg.(EndpointConfig.limits) = true.
Proof.
  intros H. apply accept_spec in H
    as (bind & version & Hb & _ & _ & Hadm & _ & Hl & _ & _ & _ & _ & -> & _ & _). cbn. split.
  - apply minimum_valid; [|done]. exact (bind_limits message bind Hadm Hb).
  - apply minimum_no_greater.
Qed.

Lemma verify_limits o reply bound body : verify unstable_sequenced o reply = Ok bound ->
  o.(Envelope.bind) = Some body ->
  Validate.limits (Binding.limits bound) = Ok tt
  /\ no_greater (Binding.limits bound) body.(Bind.receive_limits) = true.
Proof.
  unfold verify, invalid, ok_or. intros H Hb. rewrite Hb in H.
  destruct (Codec.admit_message o) as [[]|]; [|done].
  destruct (Codec.admit_message reply) as [[]|] eqn:Hadm; [|done]. cbn [map_err] in H.
  destruct (Envelope.bound reply) as [b|] eqn:Hbound; [|done].
  destruct (refuse _ _) as [[]|] eqn:Hg in H; [|done]. apply refuse_Ok in Hg.
  destruct (usable _) as [[]|]; [|done]. destruct (profile_admit _ _ _) as [[]|]; [|done]. injection H as <-.
  rewrite !orb_false_iff, !negb_false_iff in Hg. destruct Hg as [_ Hn]. split; [|done]. cbn.
  apply admit_limited_spec in Hadm as (_ & Hv & _). unfold Validate.envelope in Hv.
  repeat (case_match; [|done]). rewrite Hbound in *. cbn [when] in *. unfold bound_body in *.
  repeat (case_match; try done).
  all: match goal with H : Validate.limits (Bound.receive_limits _) = Ok ?u |- _ => by destruct u end.
Qed.

(** Installing a binding: nothing bulky is queued yet, so the queues fit its limits. *)
Lemma inv_bind own self b ack deadline : inv own self -> self.(binding) = None ->
  Validate.limits (Binding.limits b) = Ok tt ->
  no_greater (Binding.limits b) self.(config).(MuxConfig.limits) = true ->
  inv own (self <| acknowledgement := ack |> <| binding := Some b |> <| bootstrap_deadline := deadline |>
                <| phase := Phase.Ready |>).
Proof.
  intros [H1 H2 H3 H4 H5 H6 H7 H8 H9 H10 H11 H12 H13 H14 H15 H16] Hn Hv Hg. destruct (H8 Hn) as [Hq1 Hq2].
  constructor; cbn; try done.
  - by intros b' [= <-].
  - by eapply queue_ok_quiet.
  - by eapply queue_ok_quiet.
Qed.

Lemma inv_reject own request f self : inv own self -> self.(binding) = None -> self.(phase) <> Phase.Closed ->
  inv own (reject_binding request f self).2.
Proof.
  intros H Hn Hlive. unfold reject_binding. destruct (Validate.bind_rejection f); [|done]. cbn [map_err].
  destruct (enqueue _ true self) as [r self1] eqn:Hq.
  assert (Hi : inv own self1) by (eapply inv_enqueue; [done|done|done|by intros _|by intros Hz]).
  destruct (enqueue_same _ _ _ _ _ Hq) as (q1 & q2 & ->). destruct r as [[]|]; [|done].
  destruct Hi as [H1 H2 H3 H4 H5 H6 H7 H8 H9 H10 H11 H12 H13 H14 H15 H16]. cbn in *. constructor; cbn; try done.
  rewrite Hn. split; [done|]. by intros [? ?].
Qed.

Lemma unbound_binding own self : inv own self -> self.(phase) <> Phase.Ready -> self.(binding) = None.
Proof. intros H Hp. destruct (binding self) eqn:Hb; [|done]. destruct Hp. apply (mi_ready _ _ H). by eexists. Qed.

Lemma inv_bootstrap own item self : inv own self -> item.2.(Envelope.stream_id) = 0 ->
  inv own (bootstrap unstable_sequenced item self).2.
Proof.
  destruct item as [request m]. intros H Hz. cbn [snd] in Hz. unfold bootstrap. destruct (_ && _); [done|].
  destruct (live_request request self) as [[]|] eqn:Hlr; [|done]. cbn [map_err].
  apply live_request_live in Hlr as [Hlive _]. destruct (endpoint self) as [ep|] eqn:Hep.
  - case_bool_decide; [|done]. unfold bootstrap_endpoint. case_bool_decide as Hph; [|done]. cbn [negb].
    assert (Hn : binding self = None) by (eapply unbound_binding; [done|congruence]).
    destruct (is_none_or _ _); [by apply inv_reject|].
    destruct (accept _ _ _) as [[reply b]|f] eqn:Hacc; [|by apply inv_reject].
    assert (Hrep : reply.(Envelope.stream_id) = 0 /\ reply.(Envelope.kind) = MessageKind.Bound).
    { unfold accept, ok_or, refuse in Hacc. repeat (case_match; try done). by injection Hacc as <- <-. }
    destruct Hrep as [Hrz Hrk]. apply accept_limits in Hacc as [Hv Hg]. destruct (is_none_or _ _); [done|].
    destruct (enqueue _ true self) as [r self1] eqn:Hq.
    assert (Hi : inv own self1).
    { eapply inv_enqueue; [done|done|done| |by intros Hc]. intros _. cbn. by rewrite Hrk. }
    destruct (enqueue_same _ _ _ _ _ Hq) as (q1 & q2 & ->). destruct r as [[]|]; [|done]. cbn [snd].
    pose proof (mi_endpoint _ _ H ep Hep) as He.
    apply (inv_bind own _ b (Some (request, reply)) (bootstrap_deadline self) Hi Hn Hv).
    cbn. apply no_greater_spec in Hg, He. apply no_greater_spec. lia.
  - unfold bootstrap_initiator. destruct (_ && _); [done|]. case_bool_decide as Hph; [|done]. cbn [negb].
    assert (Hn : binding self = None) by (eapply unbound_binding; [done|congruence]).
    destruct (offer self) as [o|] eqn:Ho; [|done]. cbn [ok_or]. destruct (negb _); [done|].
    case_bool_decide.
    { destruct (Envelope.bind_rejected m); [|done]. cbn [ok_or]. destruct (Validate.bind_rejection _); [|done].
      cbn [map_err snd]. apply mux_inv_disconnect. by destruct H. }
    destruct (verify _ _ _) as [b|] eqn:Hver; [|done]. cbn [map_err]. destruct (is_none_or _ _); [done|].
    rewrite (mi_offer _ _ H o Ho) in Hver.
    eapply verify_limits in Hver as [Hv Hg]; [|reflexivity].
    exact (inv_bind own self b (Some (request, m)) None H Hn Hv Hg).
Qed.

(** *** Receiving *)

Lemma inv_requests own self f k : inv own self -> inv own (self <| requests := alter f k self.(requests) |>).
Proof.
  intros [H1 H2 H3 H4 H5 H6 H7 H8 H9 H10 H11 H12 H13 H14 H15 H16].
  assert (Ha : forall j, is_Some (alter f k (requests self) !! j) <-> is_Some (requests self !! j)).
  { intros j. destruct (decide (k = j)) as [->|]; [by rewrite lookup_alter_eq, fmap_is_Some|by rewrite lookup_alter_ne]. }
  constructor; cbn; try done.
  - intros id r Hr. rewrite Ha. by apply H9.
  - intros j. rewrite Ha. apply H13.
  - intros Hc. destruct (H15 Hc) as (He & ? & ?). split; [|done]. apply map_empty. intros j.
    apply eq_None_not_Some. rewrite Ha, He, lookup_empty. by intros [? ?].
Qed.

Lemma inv_receive_open own item self : inv own self -> item.2.(Envelope.stream_id) <= I64_MAX ->
  self.(phase) = Phase.Ready -> inv_from own (receive_open item self).2.
Proof.
  destruct item as [request m]. intros H Hmax Hph. cbn [snd] in Hmax.
  pose proof (inv_from_refl own self H) as Hsame. unfold receive_open.
  destruct (is_none _); [done|]. destruct (_ <=? _) eqn:Hid; [done|].
  destruct (live_request request self) as [[]|] eqn:Hlr; [|done]. cbn [map_err].
  apply live_request_live in Hlr as [_ Hreq]. destruct (_ =? _) eqn:Hsz; [done|].
  destruct (validate_open _ self) eqn:Hv; [|done].
  match goal with |- context [match ?x with Ok _ => _ | Err _ => _ end] => destruct x as [[[op kind] timeout]|] end; [|done].
  destruct (_ || _); [done|].
  assert (Hb : binding self <> None) by (intros Hb; apply (mi_ready _ _ H) in Hph as [? ?]; congruence).
  destruct (enqueue _ false self) as [r self1] eqn:Hq. destruct r as [[]|]; cbn [snd].
  2:{ apply mux_enqueue_spec in Hq as [-> _]. done. }
  pose proof (mi_streams _ _ H) as Hms.
  match goal with |- inv_from _ (_ <| routes := <[_ := ?r]> _ |>) =>
    destruct (inv_new_stream own self self1 false m (Envelope.stream_id m) r H Hb) as [Hi Hs];
      [lia | lia | done | done | done |] end.
  eexists. split; [exact Hs|]. eapply (inv_requests _ _ _ request) in Hi. exact Hi.
Qed.

Lemma inv_receive_in own item self : inv own self -> item.2.(Envelope.stream_id) <= I64_MAX ->
  self.(phase) <> Phase.Closed -> inv_from own (receive_in unstable_sequenced item self).2.
Proof.
  intros H Hmax Hlive. pose proof (inv_from_refl own self H) as Hsame. unfold receive_in.
  destruct item as [request m]. cbn [snd] in Hmax. destruct (negb (identifier request)); [done|].
  destruct (Codec.admit_limited _ _); [|done]. cbn [map_err]. destruct (Z.eqb_spec (Envelope.stream_id m) 0).
  { apply inv_from_refl. by apply inv_bootstrap. }
  case_bool_decide as Hph; [|done]. cbn [negb orb]. destruct (negb _); [done|].
  match goal with |- context [if ?b then _ else _] => destruct b end; [by apply inv_receive_open|].
  destruct (routes self !! _) as [route|] eqn:Hr; [|by destruct (_ <=? _)].
  case_bool_decide as Hreq; [|done]. cbn [negb]. subst request.
  destruct (validate_transition _ _ _ _); [|done]. destruct (validate_opened _ _); [|done].
  assert (Hb : binding self <> None).
  { intros Hb. by rewrite (mi_unbound _ _ H Hb), lookup_empty in Hr. }
  destruct (enqueue _ false self) as [r self1] eqn:Hq.
  assert (Hi : inv own self1) by (eapply inv_enqueue; [done|done|done|done|by eapply filed_route]).
  apply inv_from_refl. destruct r as [[]|]; [|done]. by apply inv_transition.
Qed.

Lemma mux_inv_receive own item self : inv own self -> item.2.(Envelope.stream_id) <= I64_MAX ->
  inv_from own (receive unstable_sequenced item self).2.
Proof.
  intros H Hmax. pose proof (inv_from_refl own self H) as Hsame. unfold receive.
  destruct (live self) as [[]|] eqn:Hl; [|done]. apply live_phase in Hl. destruct (negb _); [done|].
  pose proof (inv_receive_in own item self H Hmax Hl) as (own' & Hs & Hi).
  destruct (receive_in _ _ _) as [[|[]] self']; cbn [snd] in Hi |- *;
    exists own'; (split; [done|]); auto using mux_inv_disconnect.
Qed.
End facts.
