(* ===== verification/MuxSteps.v ===== *)
(** * The multiplexer's calls as small changes

    Every call of the machine is a sequence of a few kinds of change; the
    properties of whole runs are proved one kind of change at a time. *)
From S2P Require Import Prelude Utf8 Cbor CborFacts Protocol ProtocolFacts Budget Admission Policy Validate Codec CodecFacts Binding BindingFacts Mux MuxFacts.
Import Mux.

(** The streams a queue has openings for, in order. *)
Definition opening (kind : MessageKind.t) : bool :=
  match kind with MessageKind.Open | MessageKind.CheckIdentity => true | _ => false end.
Definition opened_by (item : Attachment) : list Z :=
  if opening item.2.(Envelope.kind) then [item.2.(Envelope.stream_id)] else [].
Definition openings (q : Queue.t) : list Z := flat_map (fun e => opened_by e.(Queued.attachment)) q.(Queue.items).

Lemma openings_push item c control q : openings (Queue.push item c control q) = openings q ++ opened_by item.
Proof. unfold openings, Queue.push. destruct control; cbn; by rewrite flat_map_app; cbn; rewrite app_nil_r. Qed.

Lemma openings_pop q : openings q = match (Queue.pop q).1 with Some item => opened_by item | None => [] end
  ++ openings (Queue.pop q).2.
Proof.
  unfold openings, Queue.pop. destruct (Queue.items q) as [|e rest] eqn:Hi; [cbn; by rewrite Hi|].
  by destruct (Queued.control e).
Qed.

Lemma openings_keep p q : openings (Queue.recount (keep p q.(Queue.items))) `sublist_of` openings q.
Proof.
  unfold openings. cbn. induction (Queue.items q) as [|e l IH]; [done|]. unfold keep in *. rewrite filter_cons.
  destruct (decide _); cbn [flat_map]; [by apply sublist_app|]. by apply sublist_inserts_l.
Qed.

(** Who opens streams: the initiator, on its way out; an endpoint sees them come in. *)
Definition is_endpoint (self : Mux.t) : bool := is_some self.(endpoint).

(** The request's row after [cancel]. *)
Definition seal (self : Mux.t) (row : MuxRequest.t) : MuxRequest.t :=
  row <| MuxRequest.sealed := true |>
      <| MuxRequest.cleanup_deadline :=
           Some (saturating_add_u64 self.(now) self.(config).(MuxConfig.cleanup_timeout_ms)) |>.

Inductive change (self : Mux.t) : Mux.t -> Prop :=
| c_session ph b o ack rej deadline now' :
    self.(now) <= now' -> (self.(phase) = Phase.Closed -> ph = Phase.Closed) ->
    change self (self <| phase := ph |> <| binding := b |> <| offer := o |> <| acknowledgement := ack |>
                      <| rejection := rej |> <| bootstrap_deadline := deadline |> <| now := now' |>)
| c_disconnect : change self (disconnect self)
| c_queues o a : openings o `sublist_of` openings self.(outbound) -> openings a `sublist_of` openings self.(actions) ->
    change self (self <| outbound := o |> <| actions := a |>)
| c_register k op : k ∉ self.(used_requests) ->
    change self (self <| used_requests := {[k]} ∪ self.(used_requests) |>
                      <| requests := <[k := MuxRequest.mk op false None]> self.(requests) |>)
| c_operation k o :
    change self (self <| requests := alter (fun row => row <| MuxRequest.operation := o |>) k self.(requests) |>)
| c_stream item c control route row :
    self.(highest_id) < item.2.(Envelope.stream_id) -> route.(Route.request) = item.1 ->
    self.(requests) !! item.1 = Some row -> row.(MuxRequest.sealed) = false ->
    opening item.2.(Envelope.kind) = true ->
    change self ((if is_endpoint self
                  then self <| actions := Queue.push item c control self.(actions) |>
                  else self <| outbound := Queue.push item c control self.(outbound) |>)
      <| highest_id := item.2.(Envelope.stream_id) |>
      <| routes := <[item.2.(Envelope.stream_id) := route]> self.(routes) |>)
| c_routes m :
    (forall id r, m !! id = Some r -> exists r', self.(routes) !! id = Some r'
      /\ r.(Route.request) = r'.(Route.request) /\ r.(Route.deadline) = r'.(Route.deadline)) ->
    change self (self <| routes := m |>)
| c_cancel k row o a : self.(requests) !! k = Some row -> row.(MuxRequest.sealed) = false ->
    openings o `sublist_of` openings self.(outbound) -> openings a `sublist_of` openings self.(actions) ->
    change self (mark_cancelled k (self <| requests := <[k := seal self row]> self.(requests) |>
                                        <| outbound := o |> <| actions := a |>))
| c_finish k : (forall id r, self.(routes) !! id = Some r -> r.(Route.request) <> k) ->
    change self (self <| requests := delete k self.(requests) |>).

Abbreviation changes := (rtc change).

(** What each change keeps, a sequence of them keeps. *)
Lemma changes_keep (P : Mux.t -> Prop) a b : (forall a b, P a -> change a b -> P b) -> changes a b -> P a -> P b.
Proof. intros HP Hc. induction Hc as [|a b c Hab _ IH]; [done|]. intros Ha. apply IH. by eapply HP. Qed.

(** ** Each call is a sequence of changes *)

Section steps.
Context {L : Layout}.
Variable unstable_sequenced : bool.

Lemma changes_enqueue item outgoing self r self' : enqueue item outgoing self = (r, self') ->
  opening item.2.(Envelope.kind) = false -> changes self self'.
Proof.
  intros He Hk. apply mux_enqueue_spec in He. destruct r as [[]|e]; [|by destruct He as [-> _]].
  destruct He as (c & _ & _ & _ & _ & ->). apply rtc_once.
  assert (Ho : opened_by item = []) by (unfold opened_by; by rewrite Hk).
  destruct outgoing.
  - apply (c_queues self (Queue.push item c (negb (bulk item.2.(Envelope.kind))) (outbound self)) (actions self)); [|done].
    by rewrite openings_push, Ho, app_nil_r.
  - apply (c_queues self (outbound self) (Queue.push item c (negb (bulk item.2.(Envelope.kind))) (actions self))); [done|].
    by rewrite openings_push, Ho, app_nil_r.
Qed.

Lemma changes_session self ph b o ack rej deadline : self.(phase) <> Phase.Closed ->
  changes self (self <| phase := ph |> <| binding := b |> <| offer := o |> <| acknowledgement := ack |>
                     <| rejection := rej |> <| bootstrap_deadline := deadline |>).
Proof. intros Hp. apply rtc_once. by apply (c_session self ph b o ack rej deadline (now self)). Qed.

Lemma changes_register request operation self : changes self (register request operation self).2.
Proof.
  unfold register. destruct (live self) as [[]|]; [|done]. case_bool_decide; [done|].
  destruct (_ || _) eqn:Hg; [done|]. destruct (_ =? _); [done|].
  rewrite !orb_false_iff, bool_decide_eq_false in Hg. destruct Hg as [[[_ Hnew] _] _]. by apply rtc_once, c_register.
Qed.

Lemma changes_begin request self : changes self (begin request self).2.
Proof.
  unfold begin. destruct (live_request request self) as [[]|] eqn:Hlr; [|done].
  apply live_request_live in Hlr as [Hlive _]. destruct (is_some _); [done|].
  destruct (phase self) eqn:Hph; try done. destruct (enqueue _ true self) as [r self1] eqn:Hq.
  pose proof (changes_enqueue _ _ _ _ _ Hq eq_refl) as Hc. destruct (enqueue_same _ _ _ _ _ Hq) as (q1 & q2 & ->).
  destruct r as [[]|]; [|done]. etransitivity; [exact Hc|]. cbn [snd].
  match goal with |- rtc _ ?x (_ <| bootstrap_deadline := ?d |>) =>
    apply (changes_session x Phase.Binding (binding x) (Some (request, session_offer self)) (acknowledgement x)
             (rejection x) d) end. cbn. congruence.
Qed.

Lemma live_request_row request self : live_request request self = Ok tt ->
  exists row, self.(requests) !! request = Some row /\ row.(MuxRequest.sealed) = false.
Proof.
  unfold live_request. destruct (live self) as [[]|]; [|done]. destruct (requests self !! request) as [row|]; [|done].
  cbn. destruct (MuxRequest.sealed row) eqn:Hs; [done|]. intros _. by exists row.
Qed.

Lemma changes_start request kind timeout fill self : live_request request self = Ok tt ->
  (forall m, (fill m).(Envelope.stream_id) = m.(Envelope.stream_id)) ->
  (forall m, m.(Envelope.kind) = MessageKind.Open -> opening (fill m).(Envelope.kind) = true) ->
  changes self (start request kind timeout fill self).2.
Proof.
  intros (row & Hrow & Hseal)%live_request_row Hfill Hopen. unfold start. destruct (_ || _) eqn:Hg; [done|].
  destruct (_ <=? _); [done|]. destruct (checked_add_i64 _ 1) as [id|] eqn:Hid; [|done]. cbn [ok_or].
  apply checked_add_i64_Some in Hid as [-> Hid].
  destruct (message _ _ self) as [m|] eqn:Hm; [|done]. destruct (validate_open _ self); [|done].
  apply message_spec in Hm as (_ & Hmid & Hmk & _). specialize (Hfill m). rewrite Hmid in Hfill. specialize (Hopen m Hmk).
  destruct (enqueue _ true self) as [r self1] eqn:Hq. apply mux_enqueue_spec in Hq. destruct r as [[]|]; cbn [snd].
  2:{ by destruct Hq as [-> _]. }
  destruct Hq as (c & _ & _ & _ & _ & ->). apply orb_false_iff in Hg as [Hg _]. apply rtc_once.
  match goal with |- change _ (_ <| routes := <[_ := ?r]> _ |>) =>
    pose proof (c_stream self (request, fill m) c (negb (bulk (fill m).(Envelope.kind))) r row) as Hc end.
  cbn [fst snd] in Hc. unfold is_endpoint in Hc. rewrite Hfill, Hg in Hc.
  apply Hc; [lia|done|done|done|done].
Qed.

Lemma changes_check request identity timeout self : changes self (check_identity_request request identity timeout self).2.
Proof.
  unfold check_identity_request. destruct (live_request request self) as [[]|] eqn:Hlr; [|done]. destruct (_ || _); [done|].
  destruct (binding self); [|done]. cbn [ok_or]. destruct (operation_of request self); [|done]. by apply changes_start.
Qed.

Lemma changes_open request o self : changes self (open request o self).2.
Proof.
  unfold open. destruct (live_request request self) as [[]|] eqn:Hlr; [|done]. destruct (negb _); [done|].
  apply changes_start; [done|done|]. intros m Hm. cbn. by rewrite Hm.
Qed.

Lemma changes_delete self id : changes self (self <| routes := delete id self.(routes) |>).
Proof. apply rtc_once, c_routes. intros j r [_ Hr]%lookup_delete_Some. by exists r. Qed.

Lemma changes_alter self id f :
  (forall r, (f r).(Route.request) = r.(Route.request) /\ (f r).(Route.deadline) = r.(Route.deadline)) ->
  changes self (self <| routes := alter f id self.(routes) |>).
Proof.
  intros Hf. apply rtc_once, c_routes. intros j r. destruct (decide (id = j)) as [->|Hne].
  - rewrite lookup_alter_eq. intros (r' & Hr' & ->)%fmap_Some. exists r'. split; [done|]. apply Hf.
  - rewrite lookup_alter_ne by done. intros Hr. by exists r.
Qed.

Lemma changes_transition m self : changes self (transition m self).
Proof. unfold transition. destruct (Envelope.kind m); try done; apply changes_delete || by apply changes_alter. Qed.

Lemma transition_opening state kind outgoing self : validate_transition state kind outgoing self = Ok tt ->
  opening kind = false.
Proof.
  unfold validate_transition. intros H. by destruct state, kind, (Bool.eqb (is_some (endpoint self)) outgoing).
Qed.

Lemma changes_send request m self : changes self (send request m self).2.
Proof.
  unfold send. destruct (live self) as [[]|]; [|done]. destruct (routes self !! _) as [route|]; [|done]. cbn [ok_or].
  destruct (_ || _); [done|]. destruct (validate_transition _ _ _ _) as [[]|] eqn:Hv; [|done].
  apply transition_opening in Hv. destruct (validate_opened _ _); [|done]. destruct (binding self); [|done]. cbn [ok_or].
  destruct (Codec.admit_limited _ _); [|done]. cbn [map_err]. destruct (enqueue _ true self) as [r self1] eqn:Hq.
  pose proof (changes_enqueue _ _ _ _ _ Hq Hv) as Hc.
  destruct r as [[]|]; [|done]. etransitivity; [exact Hc|]. apply changes_transition.
Qed.

Lemma pop_sublist q : openings (Queue.pop q).2 `sublist_of` openings q.
Proof. rewrite (openings_pop q). by apply sublist_inserts_l. Qed.

Lemma changes_next_action self : changes self (next_action self).2.
Proof.
  unfold next_action. pose proof (pop_sublist (actions self)) as Hs. destruct (Queue.pop _) as [i q].
  apply rtc_once. by apply (c_queues self (outbound self) q).
Qed.

Lemma changes_pop_outbound self : changes self (pop_outbound self).2.
Proof.
  unfold pop_outbound. pose proof (pop_sublist (outbound self)) as Hs. destruct (Queue.pop _) as [i q].
  apply rtc_once. by apply (c_queues self q (actions self)).
Qed.

Lemma changes_disconnect self : changes self (disconnect self).
Proof. apply rtc_once, c_disconnect. Qed.

Lemma changes_next_message self : changes self (next_message self).2.
Proof.
  unfold next_message. pose proof (changes_pop_outbound self) as Hp.
  case_bool_decide; [destruct (pop_outbound self); etransitivity; [exact Hp|apply changes_disconnect]|].
  destruct (is_some_and _ _); [done|]. destruct (pending_cancel self) as [[id route]|]; [|done].
  destruct (Route.cancel route); [|done]. destruct (message _ _ _); [|done].
  destruct (is_none _); [by apply changes_alter | apply changes_delete].
Qed.
(** The endpoint's own cancellations: all queued, or the session is over. *)
Lemma cancel_each_spec ids request self : (ids <> [] -> self.(phase) = Phase.Ready) ->
  let '(r, self') := cancel_each ids request self in
  (r = Ok tt /\ exists a, openings a `sublist_of` openings self.(actions) /\ self' = self <| actions := a |>)
  \/ (r = Err MuxError.Closed /\ self' = disconnect self).
Proof.
  revert self. induction ids as [|id ids IH]; intros self Hph; cbn [cancel_each].
  { left. split; [done|]. exists (actions self). split; [done|]. by destruct self. }
  specialize (Hph ltac:(done)). unfold message at 1, live. rewrite Hph. cbn [bool_decide negb].
  rewrite bool_decide_false by done. rewrite bool_decide_true by done. cbn [negb].
  destruct (enqueue _ false self) as [r self1] eqn:Hq. apply mux_enqueue_spec in Hq.
  destruct r as [[]|e]; [|destruct Hq as [-> _]; by right].
  destruct Hq as (c & _ & _ & _ & _ & ->).
  match goal with |- context [cancel_each ids request ?x] => specialize (IH x (fun _ => Hph)) end.
  destruct (cancel_each _ _ _) as [r self2]. destruct IH as [(-> & a & Ha & ->)|[-> ->]]; [left|by right].
  split; [done|]. exists a. split; [|done]. etransitivity; [exact Ha|]. cbn [actions over].
  rewrite openings_push. cbn. by rewrite app_nil_r.
Qed.

Lemma routes_of_ready own request self : inv own self -> routes_of request self <> [] -> self.(phase) = Phase.Ready.
Proof.
  intros H Hne. apply (mi_ready _ _ H). destruct (binding self) eqn:Hb; [by eexists|]. destruct Hne.
  unfold routes_of. by rewrite (mi_unbound _ _ H Hb), map_filter_empty.
Qed.

Lemma changes_cancel own request self : inv own self -> changes self (cancel request self).2.
Proof.
  intros H. unfold cancel. destruct (live self) as [[]|]; [|done].
  destruct (_ && _); [apply changes_disconnect|]. destruct (requests self !! request) as [row|] eqn:Hrow; [|done].
  cbn [ok_or]. destruct (MuxRequest.sealed row) eqn:Hs; [done|]. fold (seal self row).
  pose proof (openings_keep (fun entry => negb (bool_decide (entry.(Queued.attachment).1 = request))
    || terminal entry.(Queued.attachment).2.(Envelope.kind)
    || match entry.(Queued.attachment).2.(Envelope.kind) with
       | MessageKind.Open | MessageKind.CheckIdentity | MessageKind.Bind | MessageKind.Bound
       | MessageKind.BindRejected => true
       | _ => false
       end) (outbound self)) as Ho.
  fold (Queue.discard request (outbound self)) in Ho. cbn [endpoint over]. destruct (is_some (endpoint self)).
  - match goal with |- context [cancel_each ?i request ?x] => pose proof (cancel_each_spec i request x) as Hc end.
    destruct (cancel_each _ _ _) as [r self2]. destruct Hc as [(-> & a & Ha & ->)|[-> ->]].
    + intros Hne. by apply (routes_of_ready own request self H).
    + cbn [snd]. apply rtc_once. cbn [actions over] in Ha.
      apply (c_cancel self request row (Queue.discard request (outbound self)) a); try done.
      etransitivity; [exact Ha|]. apply openings_keep.
    + apply changes_disconnect.
  - apply rtc_once. by apply (c_cancel self request row (Queue.discard request (outbound self)) (actions self)).
Qed.

Lemma changes_finish own request self : inv own self -> changes self (finish request self).2.
Proof.
  intros H. unfold finish. pose proof (changes_cancel own request self H) as Hc.
  destruct (cancel request self) as [[[]|] self1]; [|done].
  cbn [snd] in Hc. destruct (_ || _) eqn:Hg; [done|]. rewrite !orb_false_iff in Hg. destruct Hg as [[Hnone _] _].
  etransitivity; [exact Hc|]. apply rtc_once. apply c_finish. intros id r Hr <-.
  apply not_true_iff_false in Hnone. apply Hnone, existsb_elem. exists r. split; [|by apply bool_decide_eq_true].
  apply elem_of_values. by exists id.
Qed.

Lemma changes_expire ids self : changes self (expire ids self).
Proof.
  revert self. induction ids as [|id ids IH]; intros self; cbn [expire]; [done|].
  destruct (routes self !! id) as [route|]; [|done]. destruct (message _ _ self) as [m|] eqn:Hm; [|done].
  destruct (enqueue _ _ self) as [r1 self1] eqn:Hq1.
  apply changes_enqueue in Hq1; [|by destruct (Route.kind route)].
  destruct r1 as [[]|]; [|etransitivity; [exact Hq1|apply changes_disconnect]].
  destruct (enqueue _ _ self1) as [r2 self2] eqn:Hq2. apply changes_enqueue in Hq2; [|done].
  etransitivity; [exact Hq1|]. etransitivity; [exact Hq2|]. destruct r2 as [[]|]; [|apply changes_disconnect].
  etransitivity; [apply changes_delete|]. apply IH.
Qed.

Lemma changes_advance now' self : changes self (advance now' self).
Proof.
  unfold advance.
  assert (Hn : changes self (self <| now := Z.max (now self) now' |>)).
  { apply rtc_once. apply (c_session self (phase self) (binding self) (offer self) (acknowledgement self)
      (rejection self) (bootstrap_deadline self) (Z.max (now self) now')); [lia|done]. }
  etransitivity; [exact Hn|]. destruct (existsb _ _); [apply changes_disconnect|].
  destruct (is_some_and _ _); [apply changes_disconnect|]. apply changes_expire.
Qed.

Lemma changes_reject request f self : self.(phase) <> Phase.Closed -> changes self (reject_binding request f self).2.
Proof.
  intros Hlive. unfold reject_binding. destruct (Validate.bind_rejection f); [|done]. cbn [map_err].
  destruct (enqueue _ true self) as [r self1] eqn:Hq. pose proof (changes_enqueue _ _ _ _ _ Hq eq_refl) as Hc.
  destruct (enqueue_same _ _ _ _ _ Hq) as (q1 & q2 & ->). destruct r as [[]|]; [|done].
  etransitivity; [exact Hc|]. cbn [snd].
  match goal with |- rtc _ ?x (_ <| bootstrap_deadline := ?d |>) =>
    by apply (changes_session x Phase.Rejecting (binding x) (offer x) (acknowledgement x) (Some f) d) end.
Qed.

Lemma changes_bootstrap item self : changes self (bootstrap unstable_sequenced item self).2.
Proof.
  destruct item as [request m]. unfold bootstrap. destruct (_ && _); [done|].
  destruct (live_request request self) as [[]|] eqn:Hlr; [|done]. cbn [map_err].
  apply live_request_live in Hlr as [Hlive _]. destruct (endpoint self) as [ep|] eqn:Hep.
  - case_bool_decide; [|done]. unfold bootstrap_endpoint. case_bool_decide as Hph; [|done]. cbn [negb].
    destruct (is_none_or _ _); [by apply changes_reject|].
    destruct (accept _ _ _) as [[reply b]|f] eqn:Hacc; [|by apply changes_reject].
    assert (Hrk : reply.(Envelope.kind) = MessageKind.Bound).
    { unfold accept, ok_or, refuse in Hacc. repeat (case_match; try done). by injection Hacc as <- <-. }
    destruct (is_none_or _ _); [done|]. destruct (enqueue _ true self) as [r self1] eqn:Hq.
    pose proof (changes_enqueue _ _ _ _ _ Hq) as Hc. cbn [snd] in Hc. rewrite Hrk in Hc. specialize (Hc eq_refl).
    destruct (enqueue_same _ _ _ _ _ Hq) as (q1 & q2 & ->). destruct r as [[]|]; [|done]. cbn [snd].
    etransitivity; [exact Hc|].
    match goal with |- rtc _ ?x _ =>
      by apply (changes_session x Phase.Ready (Some b) (offer x) (Some (request, reply)) (rejection x) (bootstrap_deadline x)) end.
  - unfold bootstrap_initiator. destruct (_ && _); [done|]. case_bool_decide as Hph; [|done]. cbn [negb].
    destruct (offer self) as [o|] eqn:Ho; [|done]. cbn [ok_or]. destruct (negb _); [done|]. case_bool_decide.
    { destruct (Envelope.bind_rejected m) as [f|]; [|done]. cbn [ok_or]. destruct (Validate.bind_rejection _); [|done].
      cbn [map_err snd]. etransitivity; [|apply changes_disconnect].
      by apply (changes_session self (phase self) (binding self) (offer self) (acknowledgement self) (Some f)
        (bootstrap_deadline self)). }
    destruct (verify _ _ _) as [b|]; [|done]. cbn [map_err]. destruct (is_none_or _ _); [done|].
    by apply (changes_session self Phase.Ready (Some b) (offer self) (Some (request, m)) (rejection self) None).
Qed.

Lemma changes_receive_open item self : opening item.2.(Envelope.kind) = true ->
  changes self (receive_open item self).2.
Proof.
  destruct item as [request m]. intros Hk. cbn [snd] in Hk. unfold receive_open.
  destruct (is_none (endpoint self)) eqn:Hep; [done|]. destruct (_ <=? _) eqn:Hid; [done|].
  destruct (live_request request self) as [[]|] eqn:Hlr; [|done]. cbn [map_err].
  apply live_request_row in Hlr as (row & Hrow & Hseal). destruct (_ =? _); [done|].
  destruct (validate_open _ self) eqn:Hv; [|done].
  match goal with |- context [match ?x with Ok _ => _ | Err _ => _ end] => destruct x as [[[op kind] timeout]|] end; [|done].
  destruct (_ || _); [done|]. destruct (enqueue _ false self) as [r self1] eqn:Hq. apply mux_enqueue_spec in Hq.
  destruct r as [[]|]; cbn [snd]; [|by destruct Hq as [-> _]].
  destruct Hq as (c & _ & _ & _ & _ & ->).
  match goal with |- rtc _ _ (_ <| routes := <[_ := ?r]> _ |>) =>
    pose proof (c_stream self (request, m) c (negb (bulk m.(Envelope.kind))) r row) as Hc end.
  cbn [fst snd] in Hc. unfold is_endpoint in Hc. destruct (endpoint self); [|done]. cbn [is_some] in Hc.
  specialize (Hc ltac:(lia) eq_refl Hrow Hseal Hk). eapply rtc_l; [exact Hc|].
  match type of Hc with change _ ?x => exact (rtc_once x _ (c_operation x request (Some op))) end.
Qed.

Lemma changes_receive item self : changes self (receive unstable_sequenced item self).2.
Proof.
  unfold receive. destruct (live self) as [[]|]; [|done]. destruct (negb _); [done|].
  assert (Hin : changes self (receive_in unstable_sequenced item self).2).
  { unfold receive_in. destruct item as [request m]. destruct (negb (identifier request)); [done|].
    destruct (Codec.admit_limited _ _); [|done]. cbn [map_err]. destruct (_ =? 0); [apply changes_bootstrap|].
    destruct (_ || _); [done|]. fold (opening (Envelope.kind m)). destruct (opening (Envelope.kind m)) eqn:Hk.
    { by apply changes_receive_open. }
    destruct (routes self !! _) as [route|]; [|by destruct (_ <=? _)]. destruct (negb _); [done|].
    destruct (validate_transition _ _ _ _); [|done]. destruct (validate_opened _ _); [|done].
    destruct (enqueue _ false self) as [r self1] eqn:Hq. pose proof (changes_enqueue _ _ _ _ _ Hq Hk) as Hc.
    destruct r as [[]|]; [|done]. etransitivity; [exact Hc|]. apply changes_transition. }
  destruct (receive_in _ _ _) as [[|[]] self']; cbn [snd] in Hin |- *; try done;
    (etransitivity; [exact Hin|apply changes_disconnect]).
Qed.
End steps.
