(* ===== verification/MuxRun.v ===== *)
(** * Runs of the multiplexer: bounds, isolation, closing *)
From S2P Require Import Prelude Utf8 Cbor CborFacts Protocol ProtocolFacts Budget Admission Policy Validate Codec CodecFacts Binding BindingFacts Mux MuxFacts MuxSteps.
Import Mux.

(** ** The calls an owner makes *)

Module MuxOp.
Inductive t :=
| Register (request : string) (operation : option string)
| Begin (request : string)
| Check (request : string) (identity : Identity.t) (timeout_ms : Z)
| Open (request : string) (body : Open.t)
| Send (request : string) (message : Envelope.t)
| Receive (item : Attachment)
| NextAction
| NextMessage
| Cancel (request : string)
| Finish (request : string)
| Advance (now : Z)
| Disconnect.

(** Stream ids on the wire are 64-bit. *)
Definition wire (op : t) : Prop :=
  match op with Receive item => item.2.(Envelope.stream_id) <= I64_MAX | _ => True end.
End MuxOp.

Section run.
Context {L : Layout}.
Variable unstable_sequenced : bool.

(** One call: what it hands out, and the machine after it. *)
Definition mux_step (op : MuxOp.t) (self : Mux.t) : list Attachment * Mux.t :=
  match op with
  | MuxOp.Register request operation => ([], (register request operation self).2)
  | MuxOp.Begin request => ([], (begin request self).2)
  | MuxOp.Check request identity timeout_ms => ([], (check_identity_request request identity timeout_ms self).2)
  | MuxOp.Open request body => ([], (open request body self).2)
  | MuxOp.Send request message => ([], (send request message self).2)
  | MuxOp.Receive item => ([], (receive unstable_sequenced item self).2)
  | MuxOp.NextAction => let '(item, self) := next_action self in (option_list item, self)
  | MuxOp.NextMessage => let '(item, self) := next_message self in (option_list item, self)
  | MuxOp.Cancel request => ([], (cancel request self).2)
  | MuxOp.Finish request => ([], (finish request self).2)
  | MuxOp.Advance now => ([], advance now self)
  | MuxOp.Disconnect => ([], disconnect self)
  end.

Fixpoint mux_run (ops : list MuxOp.t) (self : Mux.t) : list Attachment * Mux.t :=
  match ops with
  | [] => ([], self)
  | op :: ops =>
      let '(out, self) := mux_step op self in
      let '(out', self) := mux_run ops self in (out ++ out', self)
  end.

Lemma mux_run_app ops ops' self :
  (mux_run (ops ++ ops') self).2 = (mux_run ops' (mux_run ops self).2).2.
Proof.
  revert self. induction ops as [|op ops IH]; intros self; [done|]. cbn [app mux_run].
  destruct (mux_step op self) as [o1 self1]. specialize (IH self1). destruct (mux_run (ops ++ ops') self1).
  by destruct (mux_run ops self1).
Qed.

(** ** Every call keeps the invariant, and hands out messages of their stream's request *)

Lemma filed_mono own own' item : own ⊆ own' -> filed own item -> filed own' item.
Proof. intros Hs Hi Hz. by eapply lookup_weaken; [apply Hi|]. Qed.

Lemma next_action_filed own self item : inv own self -> (next_action self).1 = Some item -> filed own item.
Proof.
  intros H. unfold next_action. destruct (Queue.pop _) as [i q] eqn:Hp. cbn. intros ->.
  apply (proj2 (filed_pop own (actions self) (proj2 (proj2 (proj2 (mi_own _ _ H)))))). by rewrite Hp.
Qed.

Lemma pop_outbound_filed own self item : inv own self -> (pop_outbound self).1 = Some item -> filed own item.
Proof.
  intros H. unfold pop_outbound. destruct (Queue.pop _) as [i q] eqn:Hp. cbn. intros ->.
  apply (proj2 (filed_pop own (outbound self) (proj1 (proj2 (proj2 (mi_own _ _ H)))))). by rewrite Hp.
Qed.

Lemma pending_cancel_route self id route : pending_cancel self = Some (id, route) ->
  self.(routes) !! id = Some route /\ is_Some route.(Route.cancel).
Proof.
  unfold pending_cancel. intros H.
  assert (Hin : (id, route) ∈ keep (fun e : Z * Route.t => is_some e.2.(Route.cancel)
    && negb (existsb (fun q => (q.(Queued.attachment).2.(Envelope.stream_id) =? e.1)
         && match q.(Queued.attachment).2.(Envelope.kind) with
            | MessageKind.Open | MessageKind.CheckIdentity => true | _ => false end) self.(outbound).(Queue.items)))
    (entries self.(routes))).
  { destruct (keep _ _); [done|]. injection H as ->. left. }
  apply elem_of_keep in Hin as [Hc Hin]. apply elem_of_entries in Hin. split; [done|].
  apply andb_true_iff in Hc as [Hc _]. cbn in Hc. destruct (Route.cancel route); [by eexists|done].
Qed.

Lemma next_message_filed own self item : inv own self -> (next_message self).1 = Some item -> filed own item.
Proof.
  intros H. unfold next_message. pose proof (pop_outbound_filed own self item H) as Hp.
  case_bool_decide; [by destruct (pop_outbound self)|]. destruct (is_some_and _ _); [done|].
  destruct (pending_cancel self) as [[id route]|] eqn:Hpc; [|done].
  apply pending_cancel_route in Hpc as [Hr _]. destruct (Route.cancel route) as [reason|]; [|done].
  destruct (message _ _ _) as [m|] eqn:Hm; [|done]. apply message_spec in Hm as (_ & Hid & _).
  destruct (is_none _); intros [= <-]; eapply filed_route; try done. by destruct (Route.kind route).
Qed.

Lemma mux_inv_step own op self : MuxOp.wire op -> inv own self ->
  let '(out, self') := mux_step op self in
  exists own', own ⊆ own' /\ inv own' self' /\ Forall (filed own') out.
Proof.
  intros Hw H.
  assert (Hdone : forall self', inv own self' -> exists own', own ⊆ own' /\ inv own' self' /\ Forall (filed own') []).
  { intros self' Hi. by exists own. }
  assert (Hfrom : forall self', inv_from own self' -> exists own', own ⊆ own' /\ inv own' self' /\ Forall (filed own') []).
  { intros self' (own' & Hs & Hi). by exists own'. }
  destruct op; cbn [mux_step].
  - by apply Hdone, inv_register.
  - by apply Hdone, inv_begin.
  - by apply Hfrom, inv_check.
  - by apply Hfrom, inv_open.
  - by apply Hdone, inv_send.
  - by apply Hfrom, mux_inv_receive.
  - pose proof (inv_next_action own self H) as Hi. pose proof (next_action_filed own self) as Hf.
    destruct (next_action self) as [i self']. exists own. split_and!; try done.
    destruct i; repeat constructor. by apply Hf.
  - pose proof (mux_inv_next_message own self H) as Hi. pose proof (next_message_filed own self) as Hf.
    destruct (next_message self) as [i self']. exists own. split_and!; try done.
    destruct i; repeat constructor. by apply Hf.
  - by apply Hdone, inv_cancel.
  - by apply Hdone, mux_inv_finish.
  - by apply Hdone, mux_inv_advance.
  - by apply Hdone, mux_inv_disconnect.
Qed.

Lemma mux_inv_run own ops self : Forall MuxOp.wire ops -> inv own self ->
  let '(out, self') := mux_run ops self in
  exists own', own ⊆ own' /\ inv own' self' /\ Forall (filed own') out.
Proof.
  intros Hw. revert own self. induction Hw as [|op ops Hop Hw IH]; intros own self H; cbn [mux_run]; [by exists own|].
  pose proof (mux_inv_step own op self Hop H) as Hs. destruct (mux_step op self) as [out self1].
  destruct Hs as (own1 & Hs1 & H1 & Ho1). specialize (IH own1 self1 H1). destruct (mux_run ops self1) as [out' self2].
  destruct IH as (own2 & Hs2 & H2 & Ho2). exists own2. split_and!; [by etransitivity|done|].
  apply Forall_app. split; [|done]. eapply list.Forall_impl; [exact Ho1|]. intros x. by apply filed_mono.
Qed.

(** ** Runs as changes *)

Lemma changes_step own op self : inv own self -> changes self (mux_step op self).2.
Proof.
  intros H. destruct op; cbn [mux_step snd].
  - apply changes_register.
  - apply changes_begin.
  - apply changes_check.
  - apply changes_open.
  - apply changes_send.
  - apply changes_receive.
  - pose proof (changes_next_action self) as Hc. by destruct (next_action self).
  - pose proof (changes_next_message self) as Hc. by destruct (next_message self).
  - by eapply changes_cancel.
  - by eapply changes_finish.
  - apply changes_advance.
  - apply changes_disconnect.
Qed.

(** What a change keeps, every run keeps. *)
Lemma run_keeps (P : Mux.t -> Prop) own ops self : (forall a b, P a -> change a b -> P b) ->
  Forall MuxOp.wire ops -> inv own self -> P self -> P (mux_run ops self).2.
Proof.
  intros HP Hw. revert own self. induction Hw as [|op ops Hop Hw IH]; intros own self H Hp; cbn [mux_run]; [done|].
  pose proof (changes_step own op self H) as Hc. pose proof (mux_inv_step own op self Hop H) as Hs.
  destruct (mux_step op self) as [out self1]. cbn [snd] in Hc. destruct Hs as (own1 & _ & H1 & _).
  specialize (IH own1 self1 H1). destruct (mux_run ops self1) as [out' self2]. apply IH.
  by eapply changes_keep.
Qed.

Lemma change_config a b : change a b -> b.(config) = a.(config) /\ b.(endpoint) = a.(endpoint).
Proof. intros H. destruct H; try done. by destruct (is_endpoint a). Qed.

Lemma run_config own ops self : Forall MuxOp.wire ops -> inv own self ->
  (mux_run ops self).2.(config) = self.(config).
Proof.
  intros Hw H. apply (run_keeps (fun s => s.(config) = self.(config)) own); try done.
  intros a b Ha Hc. apply change_config in Hc as [-> _]. done.
Qed.

(** However the owner and the peer drive the machine, its memory stays inside its
    configuration: each queue's counters are the exact sums of what it holds, its bytes and frames
    stay within the configured limits, data and openings always leave the control reserve of the
    limits in force free, and no more streams or requests are live than configured; and every live
    stream belongs to a request that is still registered. *)
Theorem mux_bounded session e cfg self0 ops out self :
  new session e cfg = Ok self0 -> 0 <= cfg.(MuxConfig.max_requests) -> 0 <= cfg.(MuxConfig.max_streams) ->
  Forall MuxOp.wire ops -> mux_run ops self0 = (out, self) ->
  Forall (fun q : Queue.t =>
      q.(Queue.bytes) = sum_Z (map Queued.charge q.(Queue.items))
      /\ q.(Queue.bytes) <= cfg.(MuxConfig.limits).(Limits.queued_bytes)
      /\ len q.(Queue.items) <= cfg.(MuxConfig.limits).(Limits.queued_frames)
      /\ sum_Z (map Queued.charge (keep Queue.is_data q.(Queue.items)))
         <= (limits_of self).(Limits.queued_bytes) - (limits_of self).(Limits.control_reserve_bytes)
      /\ len (keep Queue.is_data q.(Queue.items))
         <= (limits_of self).(Limits.queued_frames) - (limits_of self).(Limits.control_reserve_frames))
    [self.(outbound); self.(actions)]
  /\ Z.of_nat (size self.(routes)) <= cfg.(MuxConfig.max_streams)
  /\ Z.of_nat (size self.(used_requests)) <= cfg.(MuxConfig.max_requests)
  /\ (forall id route, self.(routes) !! id = Some route -> is_Some (self.(requests) !! route.(Route.request)))
  /\ (forall k, is_Some (self.(requests) !! k) -> k ∈ self.(used_requests)).
Proof.
  intros Hnew Hr Hs Hw Hrun. pose proof (mux_inv_new _ _ _ _ Hnew Hr Hs) as H0.
  pose proof (run_config _ _ _ Hw H0) as Hcfg. pose proof (mux_inv_run _ _ _ Hw H0) as Hi. rewrite Hrun in Hcfg, Hi.
  cbn [snd] in Hcfg. destruct Hi as (own & _ & Hi & _).
  assert (Hc0 : config self0 = cfg) by (unfold new in Hnew; case_match; [done|]; by injection Hnew as <-).
  rewrite Hc0 in Hcfg. pose proof Hi as [H1 H2 H3 H4 H5 H6 H7 H8 H9 H10 H11 H12 H13 H14 H15 H16].
  rewrite Hcfg in *. split_and!; try done; [|by intros id route Hid; apply H9 in Hid as [_ ?]].
  repeat constructor.
  all: match goal with Hq : queue_ok _ _ ?q |- context [?q] => destruct Hq as [Q1 Q2 Q3 Q4 Q5 Q6 Q7] end.
  all: rewrite Q2, Q3 in Q7; tauto.
Qed.

(** C6: streams do not leak between requests: in any run, all messages ever handed to the owner or
    to the wire for one stream carry the same request. *)
Theorem stream_isolation session e cfg self0 ops out self a b :
  new session e cfg = Ok self0 -> 0 <= cfg.(MuxConfig.max_requests) -> 0 <= cfg.(MuxConfig.max_streams) ->
  Forall MuxOp.wire ops -> mux_run ops self0 = (out, self) -> a ∈ out -> b ∈ out ->
  a.2.(Envelope.stream_id) = b.2.(Envelope.stream_id) -> a.2.(Envelope.stream_id) <> 0 -> a.1 = b.1.
Proof.
  intros Hnew Hr Hs Hw Hrun Ha Hb Hid Hz. pose proof (mux_inv_run _ _ _ Hw (mux_inv_new _ _ _ _ Hnew Hr Hs)) as Hi.
  rewrite Hrun in Hi. destruct Hi as (own & _ & _ & Ho). rewrite list.Forall_forall in Ho.
  pose proof (Ho a Ha Hz) as H1. rewrite Hid in Hz. pose proof (Ho b Hb Hz) as H2. congruence.
Qed.

(** ** Closing *)

Lemma closed_live self : self.(phase) = Phase.Closed -> live self = Err MuxError.Closed.
Proof. intros H. unfold live. by rewrite H. Qed.

Lemma closed_step own op self : inv own self -> self.(phase) = Phase.Closed ->
  (mux_step op self).1 = [] /\ (mux_step op self).2.(phase) = Phase.Closed.
Proof.
  intros H Hc. pose proof (closed_live self Hc) as Hl. destruct (mi_closed _ _ H Hc) as (Hreq & Ho & Ha).
  assert (Hn : binding self = None) by (eapply unbound_binding; [done|congruence]).
  destruct op; cbn [mux_step fst snd]; try done.
  - unfold register. by rewrite Hl.
  - unfold begin, live_request. by rewrite Hl.
  - unfold check_identity_request, live_request. by rewrite Hl.
  - unfold open, live_request. by rewrite Hl.
  - unfold send. by rewrite Hl.
  - unfold receive. by rewrite Hl.
  - unfold next_action. by rewrite Ha.
  - unfold next_message, pending_cancel, pop_outbound. rewrite Hc, Ho, (mi_unbound _ _ H Hn). by cbn.
  - unfold cancel. by rewrite Hl.
  - unfold finish, cancel. by rewrite Hl.
  - split; [done|]. unfold advance. repeat (destruct (existsb _ _) || destruct (is_some_and _ _); [done|]).
    unfold expired_routes. cbn [routes over]. by rewrite (mi_unbound _ _ H Hn), map_filter_empty.
Qed.

(** closing is final: once a session is closed no call opens it again and nothing more is handed
    out, to the owner or to the wire. *)
Theorem closed_is_final session e cfg self0 ops ops' out self :
  new session e cfg = Ok self0 -> 0 <= cfg.(MuxConfig.max_requests) -> 0 <= cfg.(MuxConfig.max_streams) ->
  Forall MuxOp.wire ops -> Forall MuxOp.wire ops' -> mux_run ops self0 = (out, self) ->
  self.(phase) = Phase.Closed ->
  (mux_run ops' self).1 = [] /\ (mux_run ops' self).2.(phase) = Phase.Closed.
Proof.
  intros Hnew Hr Hs Hw Hw' Hrun Hc. pose proof (mux_inv_run _ _ _ Hw (mux_inv_new _ _ _ _ Hnew Hr Hs)) as Hi.
  rewrite Hrun in Hi. destruct Hi as (own & _ & Hi & _). clear Hrun. revert own self Hi Hc.
  induction Hw' as [|op ops' Hop Hw' IH]; intros own self Hi Hc; cbn [mux_run]; [done|].
  pose proof (closed_step own op self Hi Hc) as [H1 H2]. pose proof (mux_inv_step own op self Hop Hi) as Hs'.
  destruct (mux_step op self) as [o1 self1]. cbn [fst snd] in *. destruct Hs' as (own1 & _ & Hi1 & _).
  specialize (IH own1 self1 Hi1 H2). destruct (mux_run ops' self1). cbn [fst snd] in *. destruct IH as [-> ->].
  by rewrite H1.
Qed.
(** ** Stream ids are used once *)

(** The queue openings travel in, and the other one. *)
Definition ways (self : Mux.t) : Queue.t * Queue.t :=
  if is_endpoint self then (self.(actions), self.(outbound)) else (self.(outbound), self.(actions)).

Definition in_order (done : list Z) (self : Mux.t) : Prop :=
  StronglySorted Z.lt (done ++ openings (ways self).1)
  /\ Forall (fun id => id <= self.(highest_id)) (done ++ openings (ways self).1)
  /\ openings (ways self).2 = [].

Lemma Forall_sublist {A} (P : A -> Prop) (l k : list A) : k `sublist_of` l -> Forall P l -> Forall P k.
Proof.
  intros Hs H. apply list.Forall_forall. intros x Hx. apply (proj1 (list.Forall_forall _ _) H). by eapply elem_of_sublist.
Qed.

(** Fewer openings waiting. *)
Lemma in_order_less done self self' : in_order done self -> self'.(highest_id) = self.(highest_id) ->
  openings (ways self').1 `sublist_of` openings (ways self).1 ->
  openings (ways self').2 `sublist_of` openings (ways self).2 -> in_order done self'.
Proof.
  intros (H1 & H2 & H3) Hh Hs1 Hs2. rewrite H3 in Hs2. unfold in_order. rewrite Hh.
  assert (Hsub : done ++ openings (ways self').1 `sublist_of` done ++ openings (ways self).1) by (by apply sublist_app).
  split_and!; [by eapply sorted_sublist|by eapply Forall_sublist|by apply sublist_nil_r].
Qed.

Lemma in_order_change done a b : in_order done a -> change a b -> in_order done b.
Proof.
  intros H Hc. destruct Hc as [ | |o q Ho Hq| | |item c control route row Hid Hreq Hrow Hseal Hk| |k row o q _ _ Ho Hq| ].
  6:{ destruct H as (H1 & H2 & H3). unfold in_order, ways, is_endpoint in *.
      assert (Hby : opened_by item = [item.2.(Envelope.stream_id)]) by (unfold opened_by; by rewrite Hk).
      destruct (is_some (endpoint a)) eqn:He; cbn [endpoint actions outbound highest_id over fst snd] in *; rewrite He;
        cbn [fst snd]; rewrite openings_push, Hby, app_assoc; (split_and!; [| |done]).
      all: try (apply StronglySorted_app_2; [|done|repeat constructor]; intros x1 x2 Hx ->%list_elem_of_singleton;
        rewrite list.Forall_forall in H2; specialize (H2 x1 Hx); lia).
      all: apply Forall_app; split; [|by repeat constructor]; eapply list.Forall_impl; [exact H2|]; cbn; lia. }
  all: apply (in_order_less done a); try done; unfold ways, is_endpoint; cbn [endpoint actions outbound over disconnect
    mark_cancelled fst snd]; destruct (is_some (endpoint a)); cbn [fst snd]; try done; apply sublist_nil_l.
Qed.

Lemma in_order_changes done a b : in_order done a -> changes a b -> in_order done b.
Proof. intros H Hc. eapply (changes_keep (in_order done)); [apply in_order_change|done|done]. Qed.

(** Taking a message moves its opening from the queue to what has been handed out. *)
Lemma in_order_action done self : in_order done self ->
  in_order (done ++ match (next_action self).1 with Some item => opened_by item | None => [] end) (next_action self).2.
Proof.
  intros (H1 & H2 & H3). unfold next_action. pose proof (openings_pop (actions self)) as Hp.
  destruct (Queue.pop (actions self)) as [i q]. cbn [fst snd] in *. unfold in_order, ways, is_endpoint in *.
  cbn [endpoint actions outbound highest_id over]. destruct (is_some (endpoint self)); cbn [fst snd] in *.
  - rewrite Hp, app_assoc in H1, H2. done.
  - rewrite H3 in Hp. symmetry in Hp. apply app_eq_nil in Hp as [-> ->]. by rewrite app_nil_r.
Qed.

Lemma in_order_outbound done self : in_order done self ->
  in_order (done ++ match (pop_outbound self).1 with Some item => opened_by item | None => [] end) (pop_outbound self).2.
Proof.
  intros (H1 & H2 & H3). unfold pop_outbound. pose proof (openings_pop (outbound self)) as Hp.
  destruct (Queue.pop (outbound self)) as [i q]. cbn [fst snd] in *. unfold in_order, ways, is_endpoint in *.
  cbn [endpoint actions outbound highest_id over]. destruct (is_some (endpoint self)); cbn [fst snd] in *.
  - rewrite H3 in Hp. symmetry in Hp. apply app_eq_nil in Hp as [-> ->]. by rewrite app_nil_r.
  - rewrite Hp, app_assoc in H1, H2. done.
Qed.

Lemma in_order_message done self : in_order done self ->
  in_order (done ++ match (next_message self).1 with Some item => opened_by item | None => [] end) (next_message self).2.
Proof.
  intros H. pose proof (in_order_outbound done self H) as Hp. pose proof (changes_next_message self) as Hc.
  unfold next_message in *. case_bool_decide.
  { destruct (pop_outbound self) as [i self1]. eapply in_order_change; [exact Hp|]. apply c_disconnect. }
  destruct (is_some_and _ _); [done|]. destruct (pending_cancel self) as [[id route]|] eqn:Hpc; [|done].
  destruct (Route.cancel route) as [reason|]; [|rewrite app_nil_r; by eapply in_order_changes].
  destruct (message _ _ _) as [m|] eqn:Hm; [|rewrite app_nil_r; by eapply in_order_changes].
  apply message_spec in Hm as (_ & _ & Hk & _).
  destruct (is_none _); cbn [fst snd] in *; unfold opened_by at 1; cbn [snd fail_message].
  - cbn. rewrite Hk. cbn. rewrite app_nil_r. by eapply in_order_changes.
  - replace (opening _) with false by (by destruct (Route.kind route)). rewrite app_nil_r. by eapply in_order_changes.
Qed.

Lemma in_order_step own done op self : inv own self -> in_order done self ->
  in_order (done ++ flat_map opened_by (mux_step op self).1) (mux_step op self).2.
Proof.
  intros H Hd. pose proof (changes_step own op self H) as Hc.
  destruct op; cbn [mux_step fst snd flat_map] in *; try (rewrite app_nil_r; by eapply in_order_changes).
  - pose proof (in_order_action done self Hd) as Ha. destruct (next_action self) as [[i|] self1]; cbn in *; [|done].
    by rewrite app_nil_r.
  - pose proof (in_order_message done self Hd) as Ha. destruct (next_message self) as [[i|] self1]; cbn in *; [|done].
    by rewrite app_nil_r.
Qed.

(** A stream id is opened once: the openings that leave an initiator, and those an endpoint is
    handed, have strictly increasing stream ids, whatever the peer repeats or reorders. *)
Theorem openings_increase session e cfg self0 ops out self :
  new session e cfg = Ok self0 -> 0 <= cfg.(MuxConfig.max_requests) -> 0 <= cfg.(MuxConfig.max_streams) ->
  Forall MuxOp.wire ops -> mux_run ops self0 = (out, self) ->
  StronglySorted Z.lt (map (fun a => a.2.(Envelope.stream_id)) (keep (fun a => opening a.2.(Envelope.kind)) out)).
Proof.
  intros Hnew Hr Hs Hw Hrun. pose proof (mux_inv_new _ _ _ _ Hnew Hr Hs) as H0.
  assert (Hd0 : in_order [] self0).
  { unfold new in Hnew. case_match; [done|]. injection Hnew as <-. unfold in_order, ways, is_endpoint.
    cbn [endpoint actions outbound]. destruct (is_some e); cbn; (split_and!; [constructor|constructor|done]). }
  assert (Hgen : forall done, in_order done self0 -> StronglySorted Z.lt (done ++ flat_map opened_by (mux_run ops self0).1)).
  { clear Hnew Hr Hs Hrun Hd0. revert H0. generalize (∅ : gmap Z string) as own. revert self0.
    induction Hw as [|op ops Hop Hw IH]; intros self0 own H0 done Hd; cbn [mux_run].
    { cbn. rewrite app_nil_r. destruct Hd as [Hd _]. by apply StronglySorted_app in Hd as (_ & Hd & _). }
    pose proof (in_order_step own done op self0 H0 Hd) as Hd1. pose proof (mux_inv_step own op self0 Hop H0) as Hi.
    destruct (mux_step op self0) as [o1 self1]. cbn [fst snd] in Hd1. destruct Hi as (own1 & _ & Hi & _).
    specialize (IH self1 own1 Hi _ Hd1). destruct (mux_run ops self1). cbn [fst] in *.
    by rewrite flat_map_app, app_assoc. }
  specialize (Hgen [] Hd0). rewrite Hrun in Hgen. cbn [fst app] in Hgen.
  replace (map _ _) with (flat_map opened_by out); [done|]. clear.
  induction out as [|a out IH]; [done|]. cbn [flat_map]. rewrite IH. unfold keep, opened_by. rewrite filter_cons.
  destruct (opening _) eqn:Hk; destruct (decide _); try done; congruence.
Qed.
End run.
