(* ===== verification/MuxCancel.v ===== *)
(** * Cancelling a request ends: deadlines clear what is left of it *)
From S2P Require Import Prelude Utf8 Cbor CborFacts Protocol ProtocolFacts Budget Admission Policy Validate Codec CodecFacts Binding BindingFacts Mux MuxFacts MuxSteps MuxRun.
Import Mux.

(** When a request cancelled now has to be gone. *)
Definition cleanup_at (self : Mux.t) : Z :=
  saturating_add_u64 self.(now) self.(config).(MuxConfig.cleanup_timeout_ms).

Section cancel.
Context {L : Layout}.
Variable unstable_sequenced : bool.

(** A cancelled request's row has its deadline, and so has each of its streams. *)
Definition stamped (self : Mux.t) : Prop :=
  (forall k row, self.(requests) !! k = Some row -> row.(MuxRequest.sealed) = true ->
     exists c, row.(MuxRequest.cleanup_deadline) = Some c /\ c <= cleanup_at self)
  /\ (forall id r row, self.(routes) !! id = Some r -> self.(requests) !! r.(Route.request) = Some row ->
        row.(MuxRequest.sealed) = true -> r.(Route.deadline) = row.(MuxRequest.cleanup_deadline)).

(** Cancelled and due at [c], or gone; the name is not used again. *)
Definition retired (k : string) (c : Z) (self : Mux.t) : Prop :=
  k ∈ self.(used_requests) /\ (forall row, self.(requests) !! k = Some row ->
    row.(MuxRequest.sealed) = true /\ row.(MuxRequest.cleanup_deadline) = Some c).

Lemma stamped_change a b : stamped a -> change a b -> stamped b.
Proof.
  intros [H1 H2] Hc. destruct Hc as [ph bd o ack rej dl now' Hnow _| |o q _ _|k op Hk|k o
    |item c control route row Hid Hreq Hrow Hseal _|m Hm|k row o q Hrow Hseal _ _|k Hk]; split;
    unfold cleanup_at in *; cbn [requests routes now config over disconnect]; try done.
  - intros k row Hrow Hs. destruct (H1 k row Hrow Hs) as (c & -> & Hc). exists c. split; [done|].
    unfold saturating_add_u64 in *. lia.
  - intros j row [[<- <-]|[_ Hrow]]%lookup_insert_Some; [done|]. exact (H1 _ _ Hrow).
  - intros id r row Hr [[_ <-]|[_ Hrow]]%lookup_insert_Some; [done|]. by eapply H2.
  - intros j row. destruct (decide (k = j)) as [->|]; [|rewrite lookup_alter_ne by done; apply H1].
    rewrite lookup_alter_eq. intros (row' & Hrow & ->)%fmap_Some. cbn. exact (H1 _ _ Hrow).
  - intros id r row Hr. destruct (decide (k = r.(Route.request))) as [->|]; [|rewrite lookup_alter_ne by done; exact (H2 id r row Hr)].
    rewrite lookup_alter_eq. intros (row' & Hrow & ->)%fmap_Some. cbn. by eapply H2.
  - by destruct (is_endpoint a).
  - intros id r row'. replace (requests _) with (requests a) by (by destruct (is_endpoint a)).
    intros [[<- <-]|[_ Hr]]%lookup_insert_Some; [rewrite Hreq; congruence|].
    apply H2 with id. revert Hr. by destruct (is_endpoint a).
  - intros id r row Hr Hrow Hs. destruct (Hm id r Hr) as (r' & Hr' & Hreq & ->). rewrite Hreq in Hrow. by eapply H2.
  - cbn. intros j row' [[<- <-]|[_ Hj]]%lookup_insert_Some; [|exact (H1 _ _ Hj)]. intros _. cbn. by eexists.
  - cbn. intros id r row'. rewrite lookup_fmap. intros (r' & Hr & ->)%fmap_Some. case_bool_decide as Hk; cbn.
    + rewrite Hk, lookup_insert_eq. by intros [= <-].
    + rewrite lookup_insert_ne by done. intros Hrow' Hs. by eapply H2.
  - intros j row [_ Hrow]%lookup_delete_Some. exact (H1 _ _ Hrow).
  - intros id r row Hr [_ Hrow]%lookup_delete_Some. by eapply H2.
Qed.

Lemma retired_change k c a b : retired k c a -> change a b -> retired k c b.
Proof.
  intros [Hu Hr] Hc. destruct Hc as [ph bd o ack rej dl now' Hnow _| |o q _ _|k' op Hk|k' o
    |item c' control route row Hid Hreq Hrow Hseal _|m Hm|k' row o q Hrow Hseal _ _|k' Hk]; split;
    cbn [requests used_requests over disconnect mark_cancelled]; try done; try (by destruct (is_endpoint a)).
  - set_solver.
  - intros row [[<- <-]|[_ Hrow]]%lookup_insert_Some; [done|]. by apply Hr.
  - intros row. destruct (decide (k' = k)) as [->|]; [|rewrite lookup_alter_ne by done; apply Hr].
    rewrite lookup_alter_eq. intros (row' & Hrow & ->)%fmap_Some. cbn. by apply Hr.
  - intros row' [[<- <-]|[_ Hj]]%lookup_insert_Some; [|by apply Hr]. apply Hr in Hrow as [? _]. congruence.
  - intros row [_ Hrow]%lookup_delete_Some. by apply Hr.
Qed.

Lemma closed_change a b : a.(phase) = Phase.Closed -> change a b -> b.(phase) = Phase.Closed.
Proof. intros H Hc. destruct Hc; cbn; auto. by destruct (is_endpoint a). Qed.

(** ** What a cancelled request leaves *)

(** After a [cancel] that succeeds the session is over, or the request is retired. *)
Lemma cancel_retires own request self self1 : inv own self -> stamped self ->
  cancel request self = (Ok tt, self1) ->
  self1.(phase) = Phase.Closed \/ exists c, c <= cleanup_at self /\ retired request c self1.
Proof.
  intros H [Hs1 _]. unfold cancel. destruct (live self) as [[]|]; [|done].
  destruct (_ && _); [intros [= <-]; by left|].
  destruct (requests self !! request) as [row|] eqn:Hrow; [|done]. cbn [ok_or].
  assert (Hu : request ∈ used_requests self) by (apply (mi_used _ _ H); by rewrite Hrow).
  destruct (MuxRequest.sealed row) eqn:Hs.
  { intros [= <-]. right. destruct (Hs1 _ _ Hrow Hs) as (c & Hc & Hle). exists c. split; [done|]. split; [done|].
    intros row'. rewrite Hrow. intros [= <-]. done. }
  assert (Hin : forall s : Mux.t, s.(used_requests) = self.(used_requests) ->
    s.(requests) = <[request := seal self row]> self.(requests) -> retired request (cleanup_at self) s).
  { intros s Hsu Hsr. split; [by rewrite Hsu|]. intros row'. rewrite Hsr, lookup_insert_eq. by intros [= <-]. }
  destruct (is_some _).
  - match goal with |- context [cancel_each ?i request ?x] => pose proof (cancel_each_spec i request x) as Hc end.
    destruct (cancel_each _ _ _) as [r self2]. destruct Hc as [(-> & a & _ & ->)|[-> ->]].
    + intros Hne. by apply (routes_of_ready own request self H).
    + intros [= <-]. right. exists (cleanup_at self). split; [done|]. by apply Hin.
    + done.
  - intros [= <-]. right. exists (cleanup_at self). split; [done|]. by apply Hin.
Qed.

Lemma stamped_new session e cfg self : new session e cfg = Ok self -> stamped self.
Proof. unfold new. intros H. case_match; [done|]. injection H as <-. by split. Qed.

(** ** Deadlines *)

Lemma enqueue_routes item outgoing self r self' : enqueue item outgoing self = (r, self') ->
  self'.(routes) = self.(routes) /\ self'.(phase) = self.(phase).
Proof. intros He. by apply enqueue_same in He as (o & a & ->). Qed.

(** Expiring streams removes them; or the session is over. *)
Lemma expire_spec ids self : NoDup ids -> (forall id, id ∈ ids -> is_Some (self.(routes) !! id)) ->
  (ids <> [] -> self.(phase) = Phase.Ready) ->
  (forall id r, (expire ids self).(routes) !! id = Some r -> self.(routes) !! id = Some r /\ id ∉ ids).
Proof.
  revert self. induction ids as [|id ids IH]; intros self Hnd Hin Hph j r; cbn [expire].
  { intros Hr. split; [done|]. by apply not_elem_of_nil. }
  apply list.NoDup_cons in Hnd as [Hni Hnd]. specialize (Hph ltac:(done)).
  destruct (Hin id ltac:(left)) as [route Hroute]. rewrite Hroute. unfold message at 1, live.
  rewrite bool_decide_false by congruence. rewrite bool_decide_true by done. cbn [negb].
  destruct (enqueue _ _ self) as [r1 self1] eqn:Hq1. apply enqueue_routes in Hq1 as [Hr1 Hp1].
  destruct r1 as [[]|]; [|cbn; by rewrite lookup_empty].
  destruct (enqueue _ _ self1) as [r2 self2] eqn:Hq2. apply enqueue_routes in Hq2 as [Hr2 Hp2].
  destruct r2 as [[]|]; [|cbn; by rewrite lookup_empty]. rewrite <- Hr1, <- Hr2 in *.
  intros Hr. apply IH in Hr as [Hr Hnj]; cbn [routes phase over] in *; [|done| |intros _; congruence].
  - apply lookup_delete_Some in Hr as [Hne Hr]. split; [done|]. apply not_elem_of_cons. by split.
  - intros i Hi. rewrite lookup_delete_ne; [by apply Hin; right|]. by intros ->.
Qed.

(** After time has moved to [now'], no stream is past its deadline. *)
Lemma advance_clears own now' self id r d : inv own self -> (advance now' self).(routes) !! id = Some r ->
  r.(Route.deadline) = Some d -> now' < d /\ self.(routes) !! id = Some r.
Proof.
  intros H. unfold advance. set (self1 := self <| now := Z.max (now self) now' |>).
  destruct (existsb _ _); [cbn; by rewrite lookup_empty|]. destruct (is_some_and _ _); [cbn; by rewrite lookup_empty|].
  assert (Hin : forall j, j ∈ expired_routes self1 <-> exists r, self1.(routes) !! j = Some r
    /\ is_some_and r.(Route.deadline) (fun t => t <=? self1.(now)) = true).
  { intros j. unfold expired_routes. rewrite elem_of_keys. split.
    - intros [r' Hr']. apply map_lookup_filter_Some in Hr' as [? ?]. by exists r'.
    - intros (r' & Hr' & Hd). exists r'. by apply map_lookup_filter_Some. }
  intros Hr Hd. apply expire_spec in Hr as [Hr Hn].
  - split; [|done]. destruct (Z.ltb_spec now' d); [done|]. destruct Hn. apply Hin. exists r. split; [done|].
    rewrite Hd. cbn. lia.
  - apply NoDup_keys.
  - intros j (r' & Hr' & _)%Hin. by exists r'.
  - intros Hne. cbn. apply (mi_ready _ _ H). destruct (binding self) eqn:Hb; [by eexists|]. destruct Hne.
    unfold expired_routes. cbn [routes self1 over]. by rewrite (mi_unbound _ _ H Hb), map_filter_empty.
Qed.
(** ** Terminals *)

(** No terminal message of the request is queued. *)
Definition settled (k : string) (self : Mux.t) : Prop :=
  Queue.has_terminal k self.(outbound) = false /\ Queue.has_terminal k self.(actions) = false.

Lemma settled_enqueue k item outgoing self r self' : enqueue item outgoing self = (r, self') -> item.1 <> k ->
  settled k self -> settled k self'.
Proof.
  intros He Hk [H1 H2]. apply mux_enqueue_spec in He. destruct r as [[]|]; [|by destruct He as [-> _]].
  destruct He as (c & _ & _ & _ & _ & ->).
  assert (Hp : forall b q, Queue.has_terminal k q = false -> Queue.has_terminal k (Queue.push item c b q) = false).
  { intros b q Hq. unfold Queue.has_terminal, Queue.push in *. destruct b; cbn [Queue.items over];
      rewrite existsb_app, Hq; cbn; rewrite bool_decide_false by done; done. }
  destruct outgoing; split; cbn [outbound actions over]; auto.
Qed.

Lemma settled_expire k ids self : (forall id r, self.(routes) !! id = Some r -> r.(Route.request) <> k) ->
  settled k self -> settled k (expire ids self).
Proof.
  revert self. induction ids as [|id ids IH]; intros self Hk Hs; cbn [expire]; [done|].
  destruct (routes self !! id) as [route|] eqn:Hroute; [|done]. destruct (message _ _ self) as [m|]; [|done].
  destruct (enqueue _ _ self) as [r1 self1] eqn:Hq1. pose proof (enqueue_routes _ _ _ _ _ Hq1) as [Hr1 _].
  apply (settled_enqueue k) in Hq1; [|by apply (Hk id)|done]. destruct r1 as [[]|]; [|done].
  destruct (enqueue _ _ self1) as [r2 self2] eqn:Hq2. pose proof (enqueue_routes _ _ _ _ _ Hq2) as [Hr2 _].
  apply (settled_enqueue k) in Hq2; [|by apply (Hk id)|done]. destruct r2 as [[]|]; [|done].
  apply IH; [|done]. cbn [routes over]. rewrite Hr2, Hr1. intros j r [_ Hr]%lookup_delete_Some. by eapply Hk.
Qed.

(** A retired request without streams is settled once its time is up. *)
Lemma advance_settles k c now' self : (forall id r, self.(routes) !! id = Some r -> r.(Route.request) <> k) ->
  retired k c self -> c <= now' -> is_Some (self.(requests) !! k) -> settled k (advance now' self).
Proof.
  intros Hk [_ Hret] Hc [row Hrow]. unfold advance. set (self1 := self <| now := Z.max (now self) now' |>).
  destruct (existsb _ _) eqn:He; [done|]. destruct (is_some_and _ _); [done|]. apply settled_expire; [done|].
  destruct (Hret row Hrow) as [_ Hd]. unfold settled.
  destruct (Queue.has_terminal k (outbound self1) || Queue.has_terminal k (actions self1)) eqn:Ht; [|by apply orb_false_iff].
  apply not_true_iff_false in He. destruct He. apply existsb_elem. exists (k, row). split.
  { by apply elem_of_map_to_list. }
  cbn [fst snd]. rewrite Hd, Ht. cbn. lia.
Qed.

(** ** The claims *)

(** The state some calls after a [cancel] that succeeded. *)
Lemma after_cancel own request self self1 ops : inv own self -> stamped self ->
  cancel request self = (Ok tt, self1) -> Forall MuxOp.wire ops ->
  (exists own', inv own' (mux_run unstable_sequenced ops self1).2) /\ stamped (mux_run unstable_sequenced ops self1).2
  /\ ((mux_run unstable_sequenced ops self1).2.(phase) = Phase.Closed
      \/ exists c, c <= cleanup_at self /\ retired request c (mux_run unstable_sequenced ops self1).2).
Proof.
  intros H Hst Hc Hw. pose proof (inv_cancel own request self H) as H1. rewrite Hc in H1. cbn [snd] in H1.
  assert (Hst1 : stamped self1).
  { pose proof (changes_cancel own request self H) as Hch. rewrite Hc in Hch. cbn [snd] in Hch. clear -Hst Hch.
    induction Hch as [|a b c Hab Hbc IH]; [done|]. apply IH. by eapply stamped_change. }
  split_and!.
  - pose proof (mux_inv_run unstable_sequenced own ops self1 Hw H1) as Hr. destruct (mux_run _ ops self1).
    destruct Hr as (own' & _ & Hr & _). by exists own'.
  - by apply (run_keeps unstable_sequenced stamped own); [apply stamped_change|..].
  - destruct (cancel_retires own request self self1 H Hst Hc) as [Hcl|(c & Hle & Hr)].
    + left. apply (run_keeps unstable_sequenced (fun s => s.(phase) = Phase.Closed) own); try done. apply closed_change.
    + right. exists c. split; [done|]. apply (run_keeps unstable_sequenced (retired request c) own); try done.
      apply retired_change.
Qed.

(** What is left of a cancelled request when its time has come: no stream. *)
Lemma cancelled_cleared own request c now' self : inv own self -> stamped self ->
  (self.(phase) = Phase.Closed \/ (c <= now' /\ retired request c self)) ->
  forall id r, (advance now' self).(routes) !! id = Some r -> r.(Route.request) <> request.
Proof.
  intros H Hst Hcase id r Hr Hreq. pose proof (mux_inv_advance own now' self H) as H'.
  pose proof (changes_advance now' self) as Hch. destruct (mi_routes _ _ H' id r Hr) as [_ [row Hrow]].
  destruct Hcase as [Hcl|[Hle Hret]].
  - apply (changes_keep _ _ _ closed_change Hch) in Hcl. destruct (mi_closed _ _ H' Hcl) as [He _].
    by rewrite He, lookup_empty in Hrow.
  - apply (changes_keep _ _ _ (retired_change request c) Hch) in Hret as [_ Hret].
    apply (changes_keep _ _ _ stamped_change Hch) in Hst as [_ Hst].
    pose proof (Hst id r row Hr Hrow) as Hd. rewrite Hreq in Hrow. destruct (Hret row Hrow) as [Hs Hc].
    specialize (Hd Hs). rewrite Hc in Hd. destruct (advance_clears own now' self id r c H Hr Hd). lia.
Qed.

(** C34: a cancelled request's streams end: after [cancel] succeeds, whatever calls follow, once time
    has moved past the cleanup timeout no stream of the request is left. *)
Theorem cancel_bounded session e cfg self0 ops out self request self1 ops' now' id route :
  new session e cfg = Ok self0 -> 0 <= cfg.(MuxConfig.max_requests) -> 0 <= cfg.(MuxConfig.max_streams) ->
  Forall MuxOp.wire ops -> mux_run unstable_sequenced ops self0 = (out, self) ->
  cancel request self = (Ok tt, self1) -> Forall MuxOp.wire ops' -> cleanup_at self <= now' ->
  (advance now' (mux_run unstable_sequenced ops' self1).2).(routes) !! id = Some route ->
  route.(Route.request) <> request.
Proof.
  intros Hnew Hr Hs Hw Hrun Hc Hw' Hnow. pose proof (mux_inv_new _ _ _ _ Hnew Hr Hs) as H0.
  pose proof (mux_inv_run unstable_sequenced _ _ _ Hw H0) as Hi. rewrite Hrun in Hi. destruct Hi as (own & _ & Hi & _).
  pose proof (run_keeps unstable_sequenced stamped _ ops self0 stamped_change Hw H0 (stamped_new _ _ _ _ Hnew)) as Hst.
  rewrite Hrun in Hst. cbn [snd] in Hst.
  destruct (after_cancel own request self self1 ops' Hi Hst Hc Hw') as ((own' & Hi') & Hst' & Hcase).
  destruct Hcase as [Hcl|(c & Hle & Hret)].
  - apply (cancelled_cleared own' request now' now' _ Hi' Hst'). by left.
  - apply (cancelled_cleared own' request c now' _ Hi' Hst'). right. split; [lia|done].
Qed.

Lemma finish_settled own request c self : inv own self ->
  (forall id r, self.(routes) !! id = Some r -> r.(Route.request) <> request) -> retired request c self ->
  (is_Some (self.(requests) !! request) -> settled request self) ->
  (finish request self).1 <> Err MuxError.WouldBlock.
Proof.
  intros H Hno [_ Hret] Hset. unfold finish, cancel. destruct (live self) as [[]|] eqn:Hl; cbn [fst].
  2:{ unfold live in Hl. case_bool_decide; [|done]. by injection Hl as <-. }
  destruct (_ && _).
  { cbn [disconnect]. unfold values, entries. cbn. done. }
  destruct (requests self !! request) as [row|] eqn:Hrow; [|done]. cbn [ok_or].
  destruct (Hret row eq_refl) as [-> _]. destruct (Hset ltac:(by eexists)) as [H1 H2]. rewrite H1, H2.
  destruct (existsb _ _) eqn:He; [|done]. apply existsb_elem in He as (r & Hin & Hr).
  apply elem_of_values in Hin as [id Hid]. apply bool_decide_eq_true in Hr. by destruct (Hno id r Hid).
Qed.

(** A retired request without streams gets no more of them. *)
Definition bare (k : string) (c : Z) (self : Mux.t) : Prop :=
  retired k c self /\ (forall id r, self.(routes) !! id = Some r -> r.(Route.request) <> k).

Lemma bare_change k c a b : bare k c a -> change a b -> bare k c b.
Proof.
  intros [Hr Hno] Hc. split; [by eapply retired_change|].
  destruct Hc as [ph bd o ack rej dl now' Hnow _| |o q _ _|k' op Hk|k' o
    |item c' control route row Hid Hreq Hrow Hseal _|m Hm|k' row o q Hrow Hseal _ _|k' Hk]; try done.
  - intros id r. cbn [routes over]. intros [[_ <-]|[_ H]]%lookup_insert_Some.
    + rewrite Hreq. intros <-. destruct Hr as [_ Hr]. apply Hr in Hrow as [? _]. congruence.
    + apply (Hno id). revert H. by destruct (is_endpoint a).
  - intros id r H. destruct (Hm id r H) as (r' & Hr' & -> & _). by apply (Hno id).
  - intros id r. cbn. rewrite lookup_fmap. intros (r' & Hr' & ->)%fmap_Some.
    case_bool_decide; exact (Hno id r' Hr').
Qed.

Lemma retired_gone_change k a b : (forall c, retired k c a) -> change a b -> forall c, retired k c b.
Proof. intros H Hc c. by eapply retired_change. Qed.

Lemma settled_finish own request now' self : inv own self ->
  self.(phase) = Phase.Closed \/ (exists c, c <= now' /\ bare request c self) ->
  (finish request (advance now' self)).1 <> Err MuxError.WouldBlock.
Proof.
  intros H Hcase. pose proof (changes_advance now' self) as Hch. pose proof (mux_inv_advance _ now' _ H) as H'.
  destruct Hcase as [Hcl|(c & Hle & Hb)].
  - apply (changes_keep _ _ _ closed_change Hch) in Hcl. unfold finish, cancel, live.
    rewrite bool_decide_true by done. done.
  - pose proof Hb as [Hret Hno]. apply (changes_keep _ _ _ (bare_change request c) Hch) in Hb as [Hret' Hno'].
    apply (finish_settled own request c _ H' Hno' Hret'). intros [row' Hrow'].
    destruct (requests self !! request) as [row|] eqn:Hrow.
    + apply (advance_settles request c); try done; by rewrite Hrow.
    + assert (Hgone : forall d, retired request d self).
      { intros d. split; [by destruct Hret|]. congruence. }
      pose proof (changes_keep (fun s => forall d, retired request d s) _ _ (retired_gone_change request) Hch Hgone) as Hg.
      destruct (Hg 0) as [_ G0], (Hg 1) as [_ G1]. destruct (G0 _ Hrow'), (G1 _ Hrow'). congruence.
Qed.

(** An owner that cancels a request can always get rid of it: once time has moved past the cleanup
    timeout twice, [finish] no longer answers that it would block (it succeeds, or the request or the
    session is already gone). *)
Theorem finish_settles session e cfg self0 ops out self request self1 ops' ops'' now1 now2 :
  new session e cfg = Ok self0 -> 0 <= cfg.(MuxConfig.max_requests) -> 0 <= cfg.(MuxConfig.max_streams) ->
  Forall MuxOp.wire ops -> mux_run unstable_sequenced ops self0 = (out, self) ->
  cancel request self = (Ok tt, self1) -> Forall MuxOp.wire ops' -> Forall MuxOp.wire ops'' ->
  cleanup_at self <= now1 -> cleanup_at self <= now2 ->
  let self2 := advance now1 (mux_run unstable_sequenced ops' self1).2 in
  let self3 := advance now2 (mux_run unstable_sequenced ops'' self2).2 in
  (finish request self3).1 <> Err MuxError.WouldBlock.
Proof.
  intros Hnew Hr Hs Hw Hrun Hc Hw' Hw'' Hn1 Hn2 self2 self3. pose proof (mux_inv_new _ _ _ _ Hnew Hr Hs) as H0.
  pose proof (mux_inv_run unstable_sequenced _ _ _ Hw H0) as Hi. rewrite Hrun in Hi. destruct Hi as (own & _ & Hi & _).
  pose proof (run_keeps unstable_sequenced stamped _ ops self0 stamped_change Hw H0 (stamped_new _ _ _ _ Hnew)) as Hst.
  rewrite Hrun in Hst. cbn [snd] in Hst.
  destruct (after_cancel own request self self1 ops' Hi Hst Hc Hw') as ((own1 & Hi1) & Hst1 & Hcase1).
  assert (Hbare : (mux_run unstable_sequenced ops'' self2).2.(phase) = Phase.Closed
    \/ exists c, c <= cleanup_at self /\ bare request c (mux_run unstable_sequenced ops'' self2).2).
  { pose proof (changes_advance now1 (mux_run unstable_sequenced ops' self1).2) as Hch. fold self2 in Hch.
    pose proof (mux_inv_advance _ now1 _ Hi1) as Hi2. fold self2 in Hi2. destruct Hcase1 as [Hcl|(c & Hle & Hret)].
    - left. apply (run_keeps _ (fun s => s.(phase) = Phase.Closed) own1 ops'' self2 closed_change Hw'' Hi2).
      by apply (changes_keep _ _ _ closed_change Hch).
    - right. exists c. split; [done|]. apply (run_keeps _ _ own1 ops'' self2 (bare_change request c) Hw'' Hi2). split.
      + by apply (changes_keep _ _ _ (retired_change request c) Hch).
      + apply (cancelled_cleared own1 request c now1 _ Hi1 Hst1). right. split; [lia|done]. }
  assert (Hi2 : inv own1 self2) by (by apply mux_inv_advance).
  pose proof (mux_inv_run unstable_sequenced own1 ops'' self2 Hw'' Hi2) as Hi3. subst self3.
  destruct (mux_run unstable_sequenced ops'' self2) as [o3 x]. destruct Hi3 as (own3 & _ & Hi3 & _). cbn [snd] in *.
  apply (settled_finish own3 request now2 x Hi3). destruct Hbare as [Hcl|(c & Hle & Hb)]; [by left|].
  right. exists c. split; [lia|done].
Qed.
End cancel.
