(* ===== verification/MuxBind.v ===== *)
(** * The bootstrap handshake and what errors do *)
From S2P Require Import Prelude Utf8 Cbor CborFacts Protocol ProtocolFacts Budget Admission Policy Validate Codec CodecFacts Binding BindingFacts Mux MuxFacts MuxSteps MuxRun MuxCancel.
Import Mux.

Section bind.
Context {L : Layout}.
Variable unstable_sequenced : bool.

(** ** Errors *)

(** A call that fails has changed nothing. *)
Lemma enqueue_err item outgoing self e self' : enqueue item outgoing self = (Err e, self') -> self' = self.
Proof. intros H. by apply mux_enqueue_spec in H as [-> _]. Qed.

(** The errors a message can cause. *)
Definition reply_error (e : MuxError.t) : Prop :=
  e = MuxError.Protocol \/ e = MuxError.InvalidRequest \/ e = MuxError.Capacity \/ e = MuxError.WouldBlock.

Definition fails_clean (self : Mux.t) (c : result unit MuxError.t * Mux.t) : Prop :=
  forall e self', c = (Err e, self') -> self' = self /\ reply_error e.

Lemma fails_enqueue item outgoing self k :
  fails_clean self (match enqueue item outgoing self with
                    | (Ok _, s) => (Ok tt, k s) | (Err e, s) => (Err e, s) end).
Proof.
  intros e self'. destruct (enqueue _ _ _) as [[[]|e'] s] eqn:Hq; [done|]. intros [= <- <-].
  apply mux_enqueue_spec in Hq as [-> He]. unfold reply_error. tauto.
Qed.

Lemma fails_protocol self : fails_clean self (Err MuxError.Protocol, self).
Proof. intros e self' [= <- <-]. unfold reply_error. tauto. Qed.

Lemma fails_reject request f self : fails_clean self (reject_binding request f self).
Proof.
  unfold reject_binding. destruct (Validate.bind_rejection f); cbn [map_err]; [apply fails_enqueue|].
  apply fails_protocol.
Qed.

Lemma fails_ok self s : fails_clean self (Ok tt, s).
Proof. done. Qed.

Lemma fails_bootstrap item self : fails_clean self (bootstrap unstable_sequenced item self).
Proof.
  pose proof (fails_protocol self) as Hp. destruct item as [request m]. unfold bootstrap.
  destruct (_ && _); [apply fails_ok|]. destruct (live_request request self); cbn [map_err]; [|done].
  destruct (endpoint self) as [ep|].
  - case_bool_decide; [|done]. unfold bootstrap_endpoint. case_bool_decide; [|done]. cbn [negb].
    destruct (is_none_or _ _); [apply fails_reject|].
    destruct (accept _ _ _) as [[reply b]|f]; [|apply fails_reject]. destruct (is_none_or _ _); [done|].
    exact (fails_enqueue (request, reply) true self _).
  - unfold bootstrap_initiator. destruct (_ && _); [apply fails_ok|]. case_bool_decide; [|done]. cbn [negb].
    destruct (offer self) as [o|]; [|done]. cbn [ok_or]. destruct (negb _); [done|]. case_bool_decide.
    { destruct (Envelope.bind_rejected m); [|done]. cbn [ok_or]. by destruct (Validate.bind_rejection _). }
    destruct (verify _ _ _); [|done]. cbn [map_err]. by destruct (is_none_or _ _).
Qed.

Lemma fails_receive_open item self : is_Some self.(binding) -> fails_clean self (receive_open item self).
Proof.
  intros [b Hb]. pose proof (fails_protocol self) as Hp. destruct item as [request m]. unfold receive_open.
  destruct (is_none _); [done|]. destruct (_ <=? _); [apply fails_ok|].
  destruct (live_request request self); cbn [map_err]; [|done]. destruct (_ =? _).
  { intros e self' [= <- <-]. unfold reply_error. tauto. }
  destruct (validate_open m self) as [[]|e] eqn:Hv.
  2:{ assert (He : e = MuxError.Protocol).
      { unfold validate_open in Hv. rewrite Hb in Hv. cbn [ok_or] in Hv.
        destruct (bool_decide _); [destruct (check_open b m)|destruct (check_identity b m)]; cbn in Hv; congruence. }
      by subst e. }
  destruct (Envelope.open m) as [o|].
  - destruct (_ || _); [done|]. exact (fails_enqueue (request, m) false self _).
  - destruct (Envelope.check_identity m) as [c|]; [|done]. cbn [ok_or]. destruct (_ <? _); [done|].
    destruct (_ || _); [done|]. exact (fails_enqueue (request, m) false self _).
Qed.

Lemma facts_protocol facts id self e : validate_facts facts id self = Err e -> e = MuxError.Protocol.
Proof. unfold validate_facts. destruct (routes self !! id); cbn [ok_or]; [|congruence]. repeat (case_match; try congruence). Qed.

Lemma opened_protocol m self e : validate_opened m self = Err e -> e = MuxError.Protocol.
Proof.
  unfold validate_opened. destruct (try_each _ _) as [[]|e'] eqn:Ht.
  - destruct (Envelope.opened m); [|done]. unfold ok_or. repeat (case_match; try congruence).
  - intros [= <-]. revert Ht. induction (all_facts m) as [|f l IH]; [done|]. cbn [try_each].
    destruct (validate_facts _ _ _) as [[]|e1] eqn:Hf; [done|]. intros [= <-]. by eapply facts_protocol.
Qed.

Lemma fails_receive_in own item self : inv own self -> fails_clean self (receive_in unstable_sequenced item self).
Proof.
  intros H. pose proof (fails_protocol self) as Hp. destruct item as [request m]. unfold receive_in.
  destruct (negb (identifier request)); [done|]. destruct (Codec.admit_limited _ _); cbn [map_err]; [|done].
  destruct (_ =? 0); [apply fails_bootstrap|]. case_bool_decide as Hph; [|done]. cbn [negb orb].
  destruct (negb _); [done|]. match goal with |- context [if ?b then _ else _] => destruct b end.
  { by apply fails_receive_open, (mi_ready _ _ H). }
  destruct (routes self !! _) as [route|]; [|by destruct (_ <=? _)]. destruct (negb _); [done|].
  destruct (validate_transition _ _ _ _) as [[]|e] eqn:Hv.
  2:{ unfold validate_transition in Hv. case_match; [done|]. by injection Hv as <-. }
  destruct (validate_opened m self) as [[]|e] eqn:Ho; [|apply opened_protocol in Ho; by subst e].
  exact (fails_enqueue (request, m) false self _).
Qed.

(** C35: a received message that is refused either leaves the machine exactly as it was, when its
    queue is full and the caller may try again or when the session is already closed, or closes the
    session; there is no half-applied message.  A message of another session is ignored. *)
Theorem receive_all_or_nothing session e cfg self0 ops out self item r self' :
  new session e cfg = Ok self0 -> 0 <= cfg.(MuxConfig.max_requests) -> 0 <= cfg.(MuxConfig.max_streams) ->
  Forall MuxOp.wire ops -> mux_run unstable_sequenced ops self0 = (out, self) ->
  receive unstable_sequenced item self = (r, self') ->
  match r with
  | Ok _ => item.2.(Envelope.session_id) <> self.(Mux.session) -> self' = self
  | Err MuxError.WouldBlock => self' = self
  | Err MuxError.Closed => self' = self /\ self.(phase) = Phase.Closed
  | Err (MuxError.Protocol | MuxError.InvalidRequest | MuxError.Capacity) => self' = disconnect self
  | Err (MuxError.Rejected | MuxError.WrongState) => False
  end.
Proof.
  intros Hnew Hr Hs Hw Hrun. pose proof (mux_inv_run unstable_sequenced _ _ _ Hw (mux_inv_new _ _ _ _ Hnew Hr Hs)) as Hi.
  rewrite Hrun in Hi. destruct Hi as (own & _ & Hi & _). unfold receive.
  destruct (live self) as [[]|e'] eqn:Hl.
  2:{ intros [= <- <-]. unfold live in Hl. case_bool_decide; [|done]. by injection Hl as <-. }
  case_bool_decide as Hsid; cbn [negb]; [|by intros [= <- <-]].
  pose proof (fails_receive_in own item self Hi) as Hf. destruct (receive_in _ _ _) as [[[]|e'] s].
  { by intros [= <- <-]. }
  destruct (Hf e' s eq_refl) as [-> He]. destruct He as [-> | [-> | [-> | -> ]]]; by intros [= <- <-].
Qed.

(** ** The handshake *)

Lemma begin_offers request self self1 : begin request self = (Ok tt, self1) -> self.(phase) = Phase.Unbound ->
  live_request request self1 = Ok tt /\ self1.(offer) = Some (request, session_offer self)
  /\ self1.(phase) = Phase.Binding /\ self1.(config) = self.(config) /\ self1.(binding) = self.(binding)
  /\ self1.(endpoint) = None /\ self1.(session) = self.(session) /\ identifier request = true.
Proof.
  unfold begin. destruct (live_request request self) as [[]|] eqn:Hlr; [|done].
  destruct (endpoint self) eqn:He; [done|]. cbn [is_some]. intros H Hph. rewrite Hph in H.
  destruct (enqueue _ true self) as [r s] eqn:Hq. destruct r as [[]|]; [|done]. injection H as <-.
  pose proof Hq as Hspec. apply mux_enqueue_spec in Hspec as (c & _ & _ & Hid & _). cbn [fst] in Hid.
  apply enqueue_same in Hq as (q1 & q2 & ->). split_and!; try done.
  unfold live_request, live in *. cbn [phase requests over]. by destruct (bool_decide (phase self = _)).
Qed.

(** What an endpoint that becomes ready has answered. *)
Lemma endpoint_ready item self self1 : receive unstable_sequenced item self = (Ok tt, self1) ->
  self.(phase) <> Phase.Ready -> self1.(phase) = Phase.Ready -> is_Some self.(endpoint) ->
  exists ep reply bound, self.(endpoint) = Some ep /\ accept unstable_sequenced ep item.2 = Ok (reply, bound)
    /\ self1.(binding) = Some bound /\ self1.(acknowledgement) = Some (item.1, reply)
    /\ reply.(Envelope.session_id) = self.(session)
    /\ (exists c, list.last self1.(outbound).(Queue.items) = Some (Queued.mk (item.1, reply) c true))
    /\ is_none_or reply.(Envelope.bound) (fun b => negb (b.(Bound.version) =? 2)) = false.
Proof.
  destruct item as [request m]. cbn [fst snd]. intros H Hnot Hready [ep Hep]. unfold receive in H.
  destruct (live self) as [[]|]; [|done]. case_bool_decide as Hsid; cbn [negb] in H; [|injection H as <-; done].
  destruct (receive_in _ _ _) as [r s] eqn:Hin. destruct r as [[]|[]]; try done. injection H as <-.
  unfold receive_in in Hin. destruct (negb _); [done|]. destruct (Codec.admit_limited _ _); [|done]. cbn [map_err] in Hin.
  destruct (_ =? 0).
  2:{ rewrite bool_decide_false in Hin by done. done. }
  unfold bootstrap in Hin. rewrite Hep in Hin. change (is_none (Some ep)) with false in Hin. cbn [andb] in Hin.
  destruct (live_request request self); [|done]. cbn [map_err] in Hin. case_bool_decide; [|done].
  unfold bootstrap_endpoint in Hin. destruct (negb _); [done|].
  assert (Hrej : forall f, reject_binding request f self = (Ok tt, s) -> False).
  { intros f Hrf. unfold reject_binding in Hrf. destruct (Validate.bind_rejection f); [|done]. cbn [map_err] in Hrf.
    destruct (enqueue _ true self) as [[[]|] s1]; [|done]. injection Hrf as <-. done. }
  destruct (is_none_or _ _); [by apply Hrej in Hin|].
  destruct (accept _ _ _) as [[reply b]|f] eqn:Hacc; [|by apply Hrej in Hin].
  destruct (is_none_or (Envelope.bound reply) _) eqn:Hver; [done|].
  assert (Hrk : reply.(Envelope.kind) = MessageKind.Bound).
  { clear -Hacc. unfold accept, ok_or, refuse in Hacc. repeat (case_match; try done). by injection Hacc as <- <-. }
  destruct (enqueue _ true self) as [r s1] eqn:Hq. destruct r as [[]|]; [|done]. injection Hin as <-.
  apply mux_enqueue_spec in Hq as (c & _ & _ & _ & _ & ->). exists ep, reply, b. split_and!; try done.
  - apply accept_spec in Hacc as (bind & version & _ & _ & _ & _ & _ & _ & _ & _ & _ & _ & _ & Hrs & _). cbn [snd] in Hsid. congruence.
  - exists c. unfold Queue.push. cbn [outbound over snd]. rewrite Hrk. cbn. by rewrite last_snoc.
Qed.

(** What an initiator that has offered makes of a reply. *)
Lemma initiator_ready request o reply bound self : self.(endpoint) = None -> self.(phase) = Phase.Binding ->
  self.(binding) = None -> self.(offer) = Some (request, o) -> live_request request self = Ok tt ->
  identifier request = true -> Codec.admit_limited reply self.(config).(MuxConfig.limits) = Ok tt ->
  reply.(Envelope.stream_id) = 0 -> reply.(Envelope.kind) = MessageKind.Bound ->
  reply.(Envelope.session_id) = self.(session) -> verify unstable_sequenced o reply = Ok bound ->
  is_none_or reply.(Envelope.bound) (fun b => negb (b.(Bound.version) =? 2)) = false ->
  receive unstable_sequenced (request, reply) self
  = (Ok tt, self <| binding := Some bound |> <| acknowledgement := Some (request, reply) |>
                 <| bootstrap_deadline := None |> <| phase := Phase.Ready |>).
Proof.
  intros He Hph Hb Ho Hl Hid Hadm Hz Hk Hs Hv Hver. unfold receive, live. rewrite bool_decide_false by congruence.
  cbn [snd]. rewrite bool_decide_true by done. cbn [negb]. unfold receive_in. rewrite Hid. cbn [negb].
  unfold limits_of. rewrite Hb, Hadm. cbn [map_err]. rewrite Hz. cbn [Z.eqb]. unfold bootstrap.
  rewrite He. change (is_none None) with true; cbn [andb]. rewrite (bool_decide_false (phase self = Phase.Ready)) by congruence. cbn [andb].
  rewrite Hl. cbn [map_err]. unfold bootstrap_initiator.
  rewrite (bool_decide_false (phase self = Phase.Ready)) by congruence. cbn [andb].
  rewrite (bool_decide_true (phase self = Phase.Binding)) by done. cbn [negb]. rewrite Ho. cbn [ok_or fst snd].
  rewrite (bool_decide_true (request = request)) by done. cbn [negb].
  rewrite (bool_decide_false (Envelope.kind reply = _)) by congruence. rewrite Hv. cbn [map_err]. by rewrite Hver.
Qed.

Lemma accept_reply ep m reply b : accept unstable_sequenced ep m = Ok (reply, b) ->
  reply.(Envelope.stream_id) = 0 /\ reply.(Envelope.kind) = MessageKind.Bound.
Proof. intros Hacc. unfold accept, ok_or, refuse in Hacc. repeat (case_match; try done). by injection Hacc as <- <-. Qed.

(** A reply that has been taken is recognised when it comes again. *)
Lemma repeated_reply item self : self.(endpoint) = None -> self.(phase) = Phase.Ready ->
  self.(acknowledgement) = Some item -> identifier item.1 = true -> item.2.(Envelope.stream_id) = 0 ->
  Codec.admit_limited item.2 (limits_of self) = Ok tt -> receive unstable_sequenced item self = (Ok tt, self).
Proof.
  intros He Hph Ha Hid Hz Hadm. unfold receive, live. rewrite bool_decide_false by congruence.
  destruct (negb _); [done|]. unfold receive_in. destruct item as [request m]. cbn [fst snd] in *. rewrite Hid, Hadm, Hz.
  cbn [negb map_err Z.eqb]. unfold bootstrap. rewrite He. cbn [is_none andb]. by rewrite !bool_decide_true by done.
Qed.

(** C32: the two sides bind to the same thing: when an endpoint becomes ready on the offer an initiator
    made with [begin], the last message it queued is a reply which, if it fits the initiator's own
    limits, makes the initiator ready with the identical binding; and the same reply coming again, if
    it fits the limits now bound, changes nothing. *)
Theorem handshake i i1 request e e1 : i.(phase) = Phase.Unbound -> i.(binding) = None ->
  begin request i = (Ok tt, i1) -> is_Some e.(endpoint) -> e.(phase) = Phase.Unbound -> e.(session) = i.(session) ->
  receive unstable_sequenced (request, session_offer i) e = (Ok tt, e1) -> e1.(phase) = Phase.Ready ->
  exists reply c, list.last e1.(outbound).(Queue.items) = Some (Queued.mk (request, reply) c true) /\
  (Codec.admit_limited reply i.(config).(MuxConfig.limits) = Ok tt ->
   exists i2, receive unstable_sequenced (request, reply) i1 = (Ok tt, i2)
     /\ i2.(phase) = Phase.Ready /\ is_Some i2.(binding) /\ i2.(binding) = e1.(binding)
     /\ (Codec.admit_limited reply (limits_of i2) = Ok tt ->
         receive unstable_sequenced (request, reply) i2 = (Ok tt, i2))).
Proof.
  intros Hiu Hib Hbegin Hep Heu Hses Hrecv Hready.
  apply begin_offers in Hbegin as (Hlive & Hoff & Hbind & Hcfg & Hb1 & Hend & Hs1 & Hid); [|done].
  apply endpoint_ready in Hrecv as (ep & reply & b & Hep' & Hacc & Hbe & _ & Hrs & (c & Hlast) & Hver);
    [|congruence|done|done]. cbn [fst snd] in *.
  exists reply, c. split; [done|]. intros Hadm. destruct (accept_reply _ _ _ _ Hacc) as [Hz Hk].
  eexists. split; [|split_and!; [| | |intros Hadm2]].
  - eapply initiator_ready; try done; try congruence. by eapply accept_verifies_spec.
  - done.
  - by eexists.
  - by rewrite Hbe.
  - apply repeated_reply; try done.
Qed.
End bind.

(** ** Two sides to evaluate the theorems on *)

Definition sample_mux_config : MuxConfig.t := MuxConfig.mk default_limits EndpointRole.Local 4 4 5000 5000 120000.
Definition sample_mux (endpoint : option EndpointConfig.t) : Mux.t :=
  mk sample_mux_config "session"%string endpoint Phase.Unbound None None None None None ∅ ∅ ∅ 0 Queue.default Queue.default 0.

Definition sample_run (ops : list MuxOp.t) (self : Mux.t) : list Attachment * Mux.t :=
  mux_run (L := layout64) false ops self.

Definition sample_end0 : Mux.t := (sample_run [MuxOp.Register "r" None] (sample_mux (Some sample_config))).2.
Definition sample_end1 : Mux.t :=
  (receive (L := layout64) false ("r"%string, session_offer (sample_mux None)) sample_end0).2.
Definition sample_answer : Attachment :=
  match (next_message sample_end1).1 with Some a => a | None => (""%string, Envelope.default) end.

Definition sample_body : Open.t :=
  match sample_open.(Envelope.open) with Some o => o | None => Open.default end.

(** Bind, open two streams, cancel. *)
Definition mux_ops : list MuxOp.t :=
  [MuxOp.Register "r" (Some "op"%string); MuxOp.Begin "r"; MuxOp.NextMessage; MuxOp.Receive sample_answer;
   MuxOp.Open "r" sample_body; MuxOp.Open "r" sample_body; MuxOp.NextMessage; MuxOp.NextMessage].
Definition sample_cancelled : Mux.t := (cancel (L := layout64) "r" (sample_run mux_ops (sample_mux None)).2).2.

Example sample_binds : (sample_run mux_ops (sample_mux None)).2.(phase) = Phase.Ready
  /\ size (sample_run mux_ops (sample_mux None)).2.(routes) = 2%nat
  /\ map (fun a => a.2.(Envelope.stream_id)) (sample_run mux_ops (sample_mux None)).1 = [0; 1; 2].
Proof. split_and!; vm_compute; reflexivity. Qed.

Lemma mux_bounded_witness :
  Z.of_nat (size (sample_run mux_ops (sample_mux None)).2.(routes)) <= 4
  /\ Z.of_nat (size (sample_run mux_ops (sample_mux None)).2.(used_requests)) <= 4.
Proof.
  destruct (mux_bounded (L := layout64) false "session"%string None sample_mux_config (sample_mux None) mux_ops
    (sample_run mux_ops (sample_mux None)).1 (sample_run mux_ops (sample_mux None)).2) as (_ & H1 & H2 & _).
  - vm_compute. reflexivity.
  - cbn. lia.
  - cbn. lia.
  - repeat constructor; vm_compute; discriminate.
  - apply surjective_pairing.
  - split; [exact H1 | exact H2].
Defined.

(** The opening of stream 1, and the cancellation that follows it. *)
Definition sample_cancel_ops : list MuxOp.t := mux_ops ++ [MuxOp.Cancel "r"; MuxOp.NextMessage].
Definition nth_out (n : nat) : Attachment := List.nth n (sample_run sample_cancel_ops (sample_mux None)).1 (""%string, Envelope.default).

Lemma stream_isolation_witness : (nth_out 1).2.(Envelope.stream_id) = 1 /\ (nth_out 3).2.(Envelope.stream_id) = 1
  /\ (nth_out 1).1 = (nth_out 3).1.
Proof.
  split_and!; [vm_compute; reflexivity..|].
  apply (stream_isolation (L := layout64) false "session"%string None sample_mux_config (sample_mux None) sample_cancel_ops
    (sample_run sample_cancel_ops (sample_mux None)).1 (sample_run sample_cancel_ops (sample_mux None)).2).
  - vm_compute. reflexivity.
  - cbn. lia.
  - cbn. lia.
  - repeat constructor; vm_compute; discriminate.
  - apply surjective_pairing.
  - apply list_elem_of_lookup_2 with 1%nat. vm_compute. reflexivity.
  - apply list_elem_of_lookup_2 with 3%nat. vm_compute. reflexivity.
  - vm_compute. reflexivity.
  - vm_compute. discriminate.
Defined.

Lemma closed_is_final_witness :
  (sample_run mux_ops (sample_run [MuxOp.Disconnect] (sample_mux None)).2).1 = [].
Proof.
  apply (closed_is_final (L := layout64) false "session"%string None sample_mux_config (sample_mux None) [MuxOp.Disconnect]
    mux_ops [] (sample_run [MuxOp.Disconnect] (sample_mux None)).2).
  - vm_compute. reflexivity.
  - cbn. lia.
  - cbn. lia.
  - repeat constructor.
  - repeat constructor; vm_compute; discriminate.
  - reflexivity.
  - reflexivity.
Defined.

Lemma openings_increase_witness :
  StronglySorted Z.lt (map (fun a => a.2.(Envelope.stream_id))
    (keep (fun a => opening a.2.(Envelope.kind)) (sample_run mux_ops (sample_mux None)).1)).
Proof.
  apply (openings_increase (L := layout64) false "session"%string None sample_mux_config (sample_mux None) mux_ops
    _ (sample_run mux_ops (sample_mux None)).2).
  - vm_compute. reflexivity.
  - cbn. lia.
  - cbn. lia.
  - repeat constructor; vm_compute; discriminate.
  - apply surjective_pairing.
Defined.

Lemma cancel_bounded_witness : size sample_cancelled.(routes) = 2%nat
  /\ forall id route, (advance (L := layout64) 5000 (sample_run [] sample_cancelled).2).(routes) !! id = Some route ->
       route.(Route.request) <> "r"%string.
Proof.
  split; [vm_compute; reflexivity|]. intros id route.
  apply (cancel_bounded (L := layout64) false "session"%string None sample_mux_config (sample_mux None) mux_ops
    (sample_run mux_ops (sample_mux None)).1 (sample_run mux_ops (sample_mux None)).2 "r" sample_cancelled [] 5000).
  - vm_compute. reflexivity.
  - cbn. lia.
  - cbn. lia.
  - repeat constructor; vm_compute; discriminate.
  - apply surjective_pairing.
  - vm_compute. reflexivity.
  - constructor.
  - vm_compute. discriminate.
Defined.

Lemma finish_settles_witness :
  (finish (L := layout64) "r" (advance (L := layout64) 5001 (sample_run []
     (advance (L := layout64) 5000 (sample_run [] sample_cancelled).2)).2)).1 <> Err MuxError.WouldBlock.
Proof.
  apply (finish_settles (L := layout64) false "session"%string None sample_mux_config (sample_mux None) mux_ops
    (sample_run mux_ops (sample_mux None)).1 (sample_run mux_ops (sample_mux None)).2 "r" sample_cancelled [] []).
  - vm_compute. reflexivity.
  - cbn. lia.
  - cbn. lia.
  - repeat constructor; vm_compute; discriminate.
  - apply surjective_pairing.
  - vm_compute. reflexivity.
  - constructor.
  - constructor.
  - vm_compute. discriminate.
  - vm_compute. discriminate.
Defined.

(** An opening nobody announced. *)
Lemma receive_all_or_nothing_witness :
  (receive (L := layout64) false ("r"%string, sample_open) (sample_mux None)).2 = disconnect (sample_mux None).
Proof.
  apply (receive_all_or_nothing (L := layout64) false "session"%string None sample_mux_config (sample_mux None) [] []
    (sample_mux None) ("r"%string, sample_open) (Err MuxError.Protocol)).
  - vm_compute. reflexivity.
  - cbn. lia.
  - cbn. lia.
  - constructor.
  - reflexivity.
  - vm_compute. reflexivity.
Defined.

Definition sample_init : Mux.t := (sample_run [MuxOp.Register "r" (Some "op"%string)] (sample_mux None)).2.
Definition sample_began : Mux.t := (begin (L := layout64) "r" sample_init).2.

Lemma last_attachment items request reply c b a :
  list.last items = Some (Queued.mk (request, reply) c b) -> option_map Queued.attachment (list.last items) = Some a ->
  (request, reply) = a.
Proof. intros ->. cbn. by intros [= <-]. Qed.
Lemma handshake_witness : exists i2,
  receive (L := layout64) false sample_answer sample_began = (Ok tt, i2)
  /\ i2.(phase) = Phase.Ready /\ is_Some i2.(binding) /\ i2.(binding) = sample_end1.(binding).
Proof.
  destruct (handshake (L := layout64) false sample_init sample_began "r" sample_end0 sample_end1) as (reply & c & Hlast & Hready).
  - vm_compute. reflexivity.
  - vm_compute. reflexivity.
  - vm_compute. reflexivity.
  - eexists. vm_compute. reflexivity.
  - vm_compute. reflexivity.
  - vm_compute. reflexivity.
  - vm_compute. reflexivity.
  - vm_compute. reflexivity.
  - pose proof (last_attachment _ _ _ _ _ sample_answer Hlast ltac:(vm_compute; reflexivity)) as Hr.
    pose proof (f_equal snd Hr) as Hreply. cbn [snd] in Hreply.
    assert (Ha : Codec.admit_limited (L := layout64) reply sample_init.(config).(MuxConfig.limits) = Ok tt)
      by (rewrite Hreply; vm_compute; reflexivity).
    destruct (Hready Ha) as (i2 & H1 & H2 & H3 & H4 & _). exists i2. rewrite <- Hr. split_and!; assumption.
Defined.
