(* ===== verification/MuxAsync.v ===== *)
(** * A multiplexer shared by futures

    The library's mux/asynchronous.rs: a multiplexer behind a lock, the owner's and the
    port's calls, and the futures that wait on it.  Each call is one critical section.
    A waker is a number, and what a call wakes is part of its result; a future is its
    poll, with the registration it holds.  Shown is that no future sleeps when it could
    go on, in every interleaving. *)
From S2P Require Import Prelude Utf8 Cbor CborFacts Protocol ProtocolFacts Budget Admission Policy Validate Codec CodecFacts Binding BindingFacts Mux MuxFacts MuxSteps MuxRun MuxCancel MuxBind.
Import Mux.

(** What a future waits for, and what it resolves to. *)
Module WaitOn.
Inductive t := Ready | NextAction | NextMessage | Deliver (item : Attachment).
(** Stream ids on the wire are 64-bit. *)
Definition wire (on : t) : Prop := match on with Deliver item => item.2.(Envelope.stream_id) <= I64_MAX | _ => True end.
End WaitOn.
Module WaitOut.
Inductive t := Unit | Taken (item : option Attachment).
End WaitOut.

Module MuxShared.
Record t := mk {
  mux : Mux.t;
  waiters : gmap Z (option Z);
  serial : Z;
  owners : Z;
  ports : Z;
}.
#[global] Instance eta : Eta t := fun r => mk (r.(mux)) (r.(waiters)) (r.(serial)) (r.(owners)) (r.(ports)).
Definition WAITERS : Z := 128.
Definition new (mux : Mux.t) : t := mk mux ∅ 0 1 1.

(** The wakers that are taken from the table, all or all but one entry's. *)
Definition others (except : option Z) (waiters : gmap Z (option Z)) : list Z :=
  omap (fun e => if bool_decide (Some e.1 = except) then None else e.2) (entries waiters).
Definition emptied (except : option Z) (waiters : gmap Z (option Z)) : gmap Z (option Z) :=
  map_imap (fun id w => Some (if bool_decide (Some id = except) then w else None)) waiters.

Section shared.
Context {L : Layout}.
Variable unstable_sequenced : bool.

Definition change {T} (f : Mux.t -> T * Mux.t) (self : t) : T * list Z * t :=
  let '(result, m) := f self.(mux) in
  (result, others None self.(waiters), self <| mux := m |> <| waiters := emptied None self.(waiters) |>).
Definition send_if (request : string) (message : Envelope.t) (admitted : bool) (m : Mux.t) : result bool MuxError.t * Mux.t :=
  if admitted then let '(r, m) := Mux.send request message m in (match r with Ok _ => Ok true | Err e => Err e end, m)
  else (Ok false, m).

(** What a future asks of the multiplexer each time it is polled. *)
Definition action (on : WaitOn.t) (m : Mux.t) : result (option WaitOut.t) MuxError.t * Mux.t :=
  match on with
  | WaitOn.Ready =>
      (match m.(phase) with
       | Phase.Ready => Ok (Some WaitOut.Unit)
       | Phase.Rejecting => Err MuxError.Rejected
       | Phase.Closed => if is_some m.(rejection) then Err MuxError.Rejected else Err MuxError.Closed
       | _ => Ok None
       end, m)
  | WaitOn.NextAction =>
      if bool_decide (m.(phase) = Phase.Closed) then (Ok (Some (WaitOut.Taken None)), m)
      else let '(item, m) := next_action m in (Ok (option_map (fun i => WaitOut.Taken (Some i)) item), m)
  | WaitOn.NextMessage =>
      if bool_decide (m.(phase) = Phase.Closed) then (Ok (Some (WaitOut.Taken None)), m)
      else let '(item, m) := next_message m in (Ok (option_map (fun i => WaitOut.Taken (Some i)) item), m)
  | WaitOn.Deliver item =>
      match receive unstable_sequenced item m with
      | (Ok _, m) => (Ok (Some WaitOut.Unit), m)
      | (Err MuxError.WouldBlock, m) => (Ok None, m)
      | (Err e, m) => (Err e, m)
      end
  end.

(** One poll of [wait]: pending, or the result; the registration; what it wakes. *)
Definition poll (on : WaitOn.t) (registration : option Z) (waker : Z) (self : t)
    : option (result WaitOut.t MuxError.t) * option Z * list Z * t :=
  let '(result, m) := action on self.(mux) in
  let self := self <| mux := m |> in
  let finish r self :=
    (Some r, registration, others registration self.(waiters), self <| waiters := emptied registration self.(waiters) |>) in
  match result with
  | Ok None =>
      let id := match registration with
                | Some id => Some id
                | None => if WAITERS <=? Z.of_nat (size self.(waiters)) then None else checked_add_u64 self.(serial) 1
                end in
      match id with
      | Some id =>
          (None, Some id, [], self <| serial := Z.max self.(serial) id |> <| waiters := <[id := Some waker]> self.(waiters) |>)
      | None => finish (Err MuxError.Capacity) (self <| mux := disconnect self.(mux) |>)
      end
  | Ok (Some value) => finish (Ok value) self
  | Err e => finish (Err e) self
  end.
Definition drop_registration (registration : option Z) (self : t) : t :=
  match registration with Some id => self <| waiters := delete id self.(waiters) |> | None => self end.

(** The last owner, or the last port, closes the session. *)
Definition close (self : t) : list Z * t := let '(_, wakes, self) := change (fun m => (tt, disconnect m)) self in (wakes, self).
Definition drop_owner (self : t) : list Z * t :=
  let last := self.(owners) =? 1 in
  let self := self <| owners := usize_sub self.(owners) 1 |> in
  if last then close self else ([], self).
Definition drop_port (self : t) : list Z * t :=
  let last := self.(ports) =? 1 in
  let self := self <| ports := usize_sub self.(ports) 1 |> in
  if last then close self else ([], self).
End shared.
End MuxShared.

(** ** Runs *)

(** A future that has not resolved: what it waits for, its registration, and the waker
    of its last poll with the number of wakes there had been. *)
Module MFuture.
Record t := mk { on : WaitOn.t; registration : option Z; polled : option (Z * nat) }.
End MFuture.
Module MWorld.
Record t := mk { shared : MuxShared.t; futures : gmap Z MFuture.t; woken : list Z }.
#[global] Instance eta : Eta t := fun r => mk (r.(shared)) (r.(futures)) (r.(woken)).
End MWorld.
Module MStep.
Inductive t :=
(** A call of the owner or the port that does not wait. *)
| Calls (op : MuxOp.t)
| Looks
| SendsIf (request : string) (message : Envelope.t) (admitted : bool)
| Starts (future : Z) (on : WaitOn.t)
| Polls (future : Z) (waker : Z)
| Drops (future : Z)
| ClonesOwner
| DropsOwner
| ClonesPort
| DropsPort.
Definition wire (s : t) : Prop :=
  match s with Calls op => MuxOp.wire op | Starts _ on => WaitOn.wire on | _ => True end.
End MStep.

Section run.
Context {L : Layout}.
Variable unstable_sequenced : bool.
Import MuxShared.

Definition wakes_of (w : MWorld.t) (r : list Z * MuxShared.t) : MWorld.t :=
  MWorld.mk r.2 w.(MWorld.futures) (w.(MWorld.woken) ++ r.1).
Definition mpoll (f : Z) (waker : Z) (w : MWorld.t) : MWorld.t :=
  match w.(MWorld.futures) !! f with
  | None => w
  | Some fut =>
      let '(result, registration, wakes, self) :=
        poll unstable_sequenced fut.(MFuture.on) fut.(MFuture.registration) waker w.(MWorld.shared) in
      let woken := w.(MWorld.woken) ++ wakes in
      match result with
      | None => MWorld.mk self (<[f := MFuture.mk fut.(MFuture.on) registration (Some (waker, length woken))]> w.(MWorld.futures)) woken
      | Some _ => MWorld.mk (drop_registration registration self) (delete f w.(MWorld.futures)) woken
      end
  end.
Definition mstep (s : MStep.t) (w : MWorld.t) : MWorld.t :=
  let self := w.(MWorld.shared) in
  match s with
  | MStep.Calls op => let '(_, wakes, self) := change (mux_step unstable_sequenced op) self in wakes_of w (wakes, self)
  | MStep.Looks => let '(_, wakes, self) := change (fun m => (tt, m)) self in wakes_of w (wakes, self)
  | MStep.SendsIf request message admitted =>
      let '(_, wakes, self) := change (send_if request message admitted) self in wakes_of w (wakes, self)
  | MStep.Starts f on =>
      if is_some (w.(MWorld.futures) !! f) then w else w <| MWorld.futures := <[f := MFuture.mk on None None]> w.(MWorld.futures) |>
  | MStep.Polls f waker => mpoll f waker w
  | MStep.Drops f =>
      match w.(MWorld.futures) !! f with
      | Some fut => MWorld.mk (drop_registration fut.(MFuture.registration) self) (delete f w.(MWorld.futures)) w.(MWorld.woken)
      | None => w
      end
  | MStep.ClonesOwner => if (0 <? self.(owners)) && (self.(owners) <? U64_MAX) then wakes_of w ([], self <| owners := usize_add self.(owners) 1 |>) else w
  | MStep.DropsOwner => if 0 <? self.(owners) then wakes_of w (drop_owner self) else w
  | MStep.ClonesPort => if (0 <? self.(ports)) && (self.(ports) <? U64_MAX) then wakes_of w ([], self <| ports := usize_add self.(ports) 1 |>) else w
  | MStep.DropsPort => if 0 <? self.(ports) then wakes_of w (drop_port self) else w
  end.
Definition mrun (steps : list MStep.t) (w : MWorld.t) : MWorld.t := foldl (fun w s => mstep s w) w steps.
Definition mstart (m : Mux.t) : MWorld.t := MWorld.mk (MuxShared.new m) ∅ [].

(** ** A rejecting multiplexer holds its answer *)

Definition answers (q : Queue.t) : Prop :=
  exists x, x ∈ q.(Queue.items) /\ x.(Queued.attachment).2.(Envelope.kind) = MessageKind.BindRejected.
Definition rejects (m : Mux.t) : Prop := m.(phase) = Phase.Rejecting -> answers m.(outbound).

Lemma answers_push item c control q : answers q -> answers (Queue.push item c control q).
Proof. intros (x & Hx & Hk). exists x. split; [|done]. unfold Queue.push. destruct control; cbn; apply elem_of_app; by left. Qed.
Lemma answers_discard request q : answers q -> answers (Queue.discard request q).
Proof.
  intros (x & Hx & Hk). exists x. split; [|done]. cbn. apply elem_of_keep. rewrite Hk. cbn. rewrite orb_true_r. by split.
Qed.
(** The phase and what is queued for the peer only grow. *)
Definition sends_more (a b : Mux.t) : Prop :=
  b.(phase) = Phase.Closed \/ (b.(phase) = a.(phase) /\ (answers a.(outbound) -> answers b.(outbound))).
Lemma sends_refl a : sends_more a a.
Proof. by right. Qed.
Lemma sends_closed a b : sends_more a (disconnect b).
Proof. by left. Qed.
Lemma sends_trans a b c : sends_more a b -> sends_more b c -> sends_more a c.
Proof. intros [H1|[H1 H2]] [H3|[H3 H4]]; unfold sends_more; [left..|right]; try congruence. split; [congruence|auto]. Qed.
Lemma rejects_more a b : sends_more a b -> rejects a -> rejects b.
Proof. intros [H|[H1 H2]] Ha Hb; [congruence|]. apply H2, Ha. congruence. Qed.
Lemma sends_enqueue item outgoing a : sends_more a (enqueue item outgoing a).2.
Proof.
  destruct (enqueue item outgoing a) as [[]] eqn:Hq; apply mux_enqueue_spec in Hq.
  - destruct Hq as (c & _ & _ & _ & _ & ->). right. destruct outgoing; cbn; [|done]. split; [done|apply answers_push].
  - destruct Hq as [-> _]. apply sends_refl.
Qed.
Lemma sends_enqueue_as item outgoing a r b : enqueue item outgoing a = (r, b) -> sends_more a b.
Proof. intros H. pose proof (sends_enqueue item outgoing a) as Hs. by rewrite H in Hs. Qed.
Lemma sends_transition message a : sends_more a (transition message a).
Proof. unfold transition. right. by destruct (Envelope.kind message). Qed.

Lemma sends_cancel_each ids request a : sends_more a (cancel_each ids request a).2.
Proof.
  revert a. induction ids as [|id ids IH]; intros a; cbn [cancel_each]; [apply sends_refl|].
  destruct (message _ _ a); [|apply sends_refl]. destruct (enqueue _ _ _) as [[]] eqn:Hq; apply sends_enqueue_as in Hq.
  - eapply sends_trans; [exact Hq|apply IH].
  - by left.
Qed.
Lemma sends_cancel request a : sends_more a (cancel request a).2.
Proof.
  unfold cancel. destruct (live a); [|apply sends_refl]. destruct (_ && _); [by left|]. destruct (ok_or _ _) as [row|]; [|apply sends_refl].
  destruct (MuxRequest.sealed row); [apply sends_refl|].
  set (row' := row <| MuxRequest.sealed := _ |> <| MuxRequest.cleanup_deadline := _ |>).
  set (b := a <| requests := _ |> <| outbound := _ |>). assert (Hb : sends_more a b) by (right; split; [done|apply answers_discard]).
  destruct (is_some (endpoint b)); [|cbn [snd]; eapply sends_trans; [exact Hb|by right]].
  set (c := b <| actions := _ |>). pose proof (sends_cancel_each (routes_of request b) request c) as Hc.
  destruct (cancel_each _ _ _) as [[] d]; cbn [snd] in *; (eapply sends_trans; [exact Hb|]); (eapply sends_trans; [|exact Hc || (eapply sends_trans; [exact Hc|by right])]); by right.
Qed.
Lemma sends_finish request a : sends_more a (finish request a).2.
Proof.
  unfold finish. pose proof (sends_cancel request a) as H. destruct (cancel request a) as [[] b]; cbn in H; [|exact H].
  destruct (_ || _); [exact H|]. cbn [snd]. eapply sends_trans; [exact H|by right].
Qed.
Lemma sends_expire ids a : sends_more a (expire ids a).
Proof.
  revert a. induction ids as [|id ids IH]; intros a; cbn [expire]; [apply sends_refl|].
  destruct (routes a !! id) as [route|]; [|apply sends_refl]. destruct (message _ _ a); [|apply sends_refl].
  destruct (enqueue _ _ a) as [[] b] eqn:Hb; apply sends_enqueue_as in Hb; [|by left].
  destruct (enqueue _ _ b) as [[] c] eqn:Hc; apply sends_enqueue_as in Hc; [|by left].
  eapply sends_trans; [exact Hb|]. eapply sends_trans; [exact Hc|]. eapply sends_trans; [|apply IH]. by right.
Qed.
Lemma sends_advance now' a : sends_more a (advance now' a).
Proof.
  unfold advance. set (b := a <| now := _ |>). destruct (existsb _ _); [by left|]. destruct (is_some_and _ _); [by left|].
  eapply sends_trans; [|apply sends_expire]. by right.
Qed.

Lemma rejects_bootstrap item a : rejects a -> rejects (bootstrap unstable_sequenced item a).2.
Proof.
  intros Ha. destruct item as [request m]. unfold bootstrap. destruct (_ && _); [done|].
  destruct (map_err _ (live_request request a)); [|done].
  assert (Hrej : forall f, rejects (reject_binding request f a).2).
  { intros f. unfold reject_binding. destruct (map_err _ _); [|done]. destruct (enqueue _ _ _) as [[] b] eqn:Hq; [|by apply sends_enqueue_as, rejects_more in Hq].
    apply mux_enqueue_spec in Hq as (c & _ & _ & _ & _ & ->). intros _. cbn. unfold Queue.push. eexists. cbn. split; [apply elem_of_app; right; by left|done]. }
  destruct (endpoint a) as [ep|].
  - destruct (bool_decide _); [|done]. unfold bootstrap_endpoint. destruct (negb _); [done|]. destruct (is_none_or _ _); [apply Hrej|].
    destruct (accept _ _ _) as [[reply bound]|f]; [|apply Hrej]. destruct (is_none_or _ _); [done|].
    destruct (enqueue _ _ _) as [[] b] eqn:Hq; [done|]. by apply sends_enqueue_as, rejects_more in Hq.
  - unfold bootstrap_initiator. destruct (_ && _); [done|]. destruct (negb _); [done|]. destruct (ok_or _ _); [|done]. destruct (negb _); [done|].
    destruct (bool_decide _); [destruct (ok_or _ _); [|done]; by destruct (map_err _ _)|]. destruct (map_err _ _); [|done]. by destruct (is_none_or _ _).
Qed.
Lemma rejects_receive item a : rejects a -> rejects (receive unstable_sequenced item a).2.
Proof.
  intros Ha. unfold receive. destruct (live a); [|done]. destruct (negb _); [done|].
  assert (Hin : rejects (receive_in unstable_sequenced item a).2).
  { destruct item as [request m]. unfold receive_in. destruct (negb _); [done|]. destruct (map_err _ _); [|done].
    destruct (_ =? 0); [by apply rejects_bootstrap|]. destruct (_ || _); [done|].
    assert (Hen : forall k, (forall b, sends_more b (k b)) -> rejects (match enqueue (request, m) false a with
        | (Ok _, s) => (Ok tt, k s) | (Err e, s) => (@Err unit MuxError.t e, s) end).2).
    { intros k Hk. destruct (enqueue _ _ _) as [[] b] eqn:Hq; apply sends_enqueue_as in Hq; cbn [snd]; (eapply rejects_more; [|exact Ha]); [|exact Hq].
      eapply sends_trans; [exact Hq|apply Hk]. }
    match goal with |- context [if ?b then _ else _] => destruct b end.
    - unfold receive_open. destruct (is_none _); [done|]. destruct (_ <=? _); [done|]. destruct (map_err _ _); [|done].
      destruct (_ =? _); [done|]. destruct (validate_open m a); [|done]. set (parts := match Envelope.open m with Some _ => _ | None => _ end).
      destruct parts as [[[operation kind] timeout]|]; [|done]. destruct (_ || _); [done|]. apply Hen. intros b. by right.
    - destruct (routes a !! _) as [route|]; [|by destruct (_ <=? _)]. destruct (negb _); [done|]. destruct (validate_transition _ _ _ _); [|done].
      destruct (validate_opened _ _); [|done]. apply Hen. apply sends_transition. }
  destruct (receive_in _ _ _) as [[[]|e] b]; cbn in Hin |- *; [done|]. by destruct e.
Qed.
Lemma rejects_next_message a : rejects a -> rejects (next_message a).2.
Proof.
  intros Ha. unfold next_message, pop_outbound. case_bool_decide as Hp; [by destruct (Queue.pop _)|].
  assert (Hpop : rejects (let '(item, queue) := Queue.pop (outbound a) in (item, a <| outbound := queue |>)).2) by (destruct (Queue.pop _) as [i q]; intros Hr; by destruct (Hp Hr)).
  destruct (is_some_and _ _); [exact Hpop|]. destruct (pending_cancel a) as [[id route]|]; [|exact Hpop].
  destruct (Route.cancel route); [|done]. destruct (message _ _ a); [|done]. by destruct (is_none _).
Qed.
Lemma rejects_step op a : rejects a -> rejects (mux_step unstable_sequenced op a).2.
Proof.
  intros Ha. assert (Hstart : forall request kind timeout fill, rejects (start request kind timeout fill a).2).
  { intros. unfold start. destruct (_ || _); [done|]. destruct (_ <=? _); [done|]. destruct (ok_or _ _); [|done]. destruct (message _ _ _); [|done].
    destruct (validate_open _ _); [|done]. destruct (enqueue _ _ _) as [[] b] eqn:Hq; apply sends_enqueue_as in Hq; cbn [snd];
      (eapply rejects_more; [|exact Ha]); [|exact Hq]. eapply sends_trans; [exact Hq|by right]. }
  destruct op; cbn [mux_step fst snd].
  - unfold register. by repeat case_match.
  - unfold begin. destruct (live_request _ _); [|done]. destruct (is_some _); [done|]. destruct (phase a); try done.
    destruct (enqueue _ _ _) as [[] b] eqn:Hq; apply sends_enqueue_as in Hq; [done|]. by eapply rejects_more.
  - unfold check_identity_request. destruct (live_request _ _); [|done]. destruct (_ || _); [done|]. destruct (ok_or _ _); [|done].
    destruct (ok_or _ _); [|done]. apply Hstart.
  - unfold open. destruct (live_request _ _); [|done]. destruct (negb _); [done|]. apply Hstart.
  - unfold send. destruct (live a); [|done]. destruct (ok_or _ _); [|done]. destruct (_ || _); [done|]. destruct (validate_transition _ _ _ _); [|done].
    destruct (validate_opened _ _); [|done]. destruct (ok_or _ _); [|done]. destruct (map_err _ _); [|done].
    destruct (enqueue _ _ _) as [[] b] eqn:Hq; apply sends_enqueue_as in Hq; cbn [snd]; (eapply rejects_more; [|exact Ha]); [|exact Hq].
    eapply sends_trans; [exact Hq|apply sends_transition].
  - by apply rejects_receive.
  - unfold next_action. by destruct (Queue.pop _).
  - pose proof (rejects_next_message a Ha). by destruct (next_message a).
  - eapply rejects_more; [apply sends_cancel|done].
  - eapply rejects_more; [apply sends_finish|done].
  - eapply rejects_more; [apply sends_advance|done].
  - done.
Qed.

(** ** What pending means *)

Definition blocked (on : WaitOn.t) (m : Mux.t) : Prop := (action unstable_sequenced on m).1 = Ok None.

Lemma pop_none q q' : Queue.pop q = (None, q') -> q' = q /\ q.(Queue.items) = [].
Proof. unfold Queue.pop. destruct (Queue.items q); [|done]. by intros [= <-]. Qed.
(** A poll that is pending has changed nothing: nobody else could be told. *)
Lemma blocked_same own on m : inv own m -> rejects m -> blocked on m -> (action unstable_sequenced on m).2 = m.
Proof.
  intros Hi Hr Hb. unfold blocked in Hb. destruct on as [| | |item]; cbn [action] in *.
  - done.
  - case_bool_decide; [done|]. unfold next_action in *. destruct (Queue.pop (actions m)) as [[i|] q] eqn:Hp; [done|].
    apply pop_none in Hp as [-> _]. by destruct m.
  - case_bool_decide as Hc; [done|]. unfold next_message, pop_outbound in *. case_bool_decide as Hph.
    { destruct (Hr Hph) as (x & Hx & _). destruct (Queue.pop (outbound m)) as [[i|] q] eqn:Hp; [done|].
      apply pop_none in Hp as [_ Hp]. rewrite Hp in Hx. by apply elem_of_nil in Hx. }
    assert (Hpop : (let '(item, queue) := Queue.pop (outbound m) in (item, m <| outbound := queue |>)).1 = None ->
      (let '(item, queue) := Queue.pop (outbound m) in (item, m <| outbound := queue |>)) = (None, m)).
    { destruct (Queue.pop (outbound m)) as [[i|] q] eqn:Hp; [done|]. apply pop_none in Hp as [-> _]. intros _. f_equal. by destruct m. }
    revert Hb Hpop. generalize (let '(item, queue) := Queue.pop (outbound m) in (item, m <| outbound := queue |>)). intros [r m'] Hb Hpop. cbn in Hpop.
    destruct (is_some_and _ _); [destruct r; [done|]; by injection (Hpop eq_refl) as ->|].
    destruct (pending_cancel m) as [[id route]|]; [|destruct r; [done|]; by injection (Hpop eq_refl) as ->].
    destruct (Route.cancel route); [|done]. destruct (message _ _ m); [|done]. by destruct (is_none _).
  - unfold receive in *. destruct (live m) as [[]|e]; [|by destruct e]. destruct (negb _); [done|].
    pose proof (fails_receive_in unstable_sequenced own item m Hi) as Hf. destruct (receive_in _ _ _) as [[[]|e] s]; [done|].
    destruct (Hf e s eq_refl) as [-> He]. by destruct e.
Qed.
(** Nobody waits on a closed session. *)
Lemma closed_unblocked on m : m.(phase) = Phase.Closed -> ~ blocked on m.
Proof.
  intros Hc Hb. unfold blocked in Hb. destruct on; cbn [action] in Hb.
  - rewrite Hc in Hb. cbn in Hb. by destruct (is_some _).
  - by rewrite Hc in Hb.
  - by rewrite Hc in Hb.
  - unfold receive in Hb. by rewrite (closed_live m Hc) in Hb.
Qed.

(** ** The invariant *)

Lemma elem_of_others except waiters waker : waker ∈ others except waiters <-> exists id, waiters !! id = Some (Some waker) /\ Some id <> except.
Proof.
  unfold others. rewrite list_elem_of_omap. split.
  - intros ([id w] & Hin & Hw). apply elem_of_entries in Hin. cbn in Hw. case_bool_decide as Hd; [done|]. subst w. by exists id.
  - intros (id & Hid & Hne). exists (id, Some waker). split; [by apply elem_of_entries|]. cbn. by rewrite bool_decide_false.
Qed.
Lemma lookup_emptied except waiters id : emptied except waiters !! id =
  (fun w => if bool_decide (Some id = except) then w else None) <$> (waiters !! id).
Proof. unfold emptied. rewrite map_lookup_imap. by destruct (waiters !! id). Qed.
Lemma size_emptied except waiters : size (emptied except waiters) = size waiters.
Proof. rewrite <- !size_dom. f_equal. apply set_eq. intros id. rewrite !elem_of_dom, lookup_emptied. destruct (waiters !! id); cbn; split; intros []; by eauto. Qed.

(** An entry of the table and the future it is of. *)
Definition sleeps (w : MWorld.t) (id : Z) (stored : option Z) : Prop :=
  exists f fut waker since, w.(MWorld.futures) !! f = Some fut /\ fut.(MFuture.registration) = Some id
    /\ fut.(MFuture.polled) = Some (waker, since) /\ (since <= length w.(MWorld.woken))%nat
    /\ match stored with
       | Some s => s = waker /\ blocked fut.(MFuture.on) w.(MWorld.shared).(mux)
       | None => waker ∈ drop since w.(MWorld.woken)
       end.
Record good (w : MWorld.t) : Prop := {
  gd_mux : (exists own, inv own w.(MWorld.shared).(mux)) /\ rejects w.(MWorld.shared).(mux);
  gd_serial : 0 <= w.(MWorld.shared).(serial) <= U64_MAX;
  gd_reg : forall f fut id, w.(MWorld.futures) !! f = Some fut -> fut.(MFuture.registration) = Some id ->
    id <= w.(MWorld.shared).(serial) /\ is_Some (w.(MWorld.shared).(waiters) !! id);
  gd_inj : forall f f' fut fut' id, w.(MWorld.futures) !! f = Some fut -> w.(MWorld.futures) !! f' = Some fut' ->
    fut.(MFuture.registration) = Some id -> fut'.(MFuture.registration) = Some id -> f = f';
  gd_polled : forall f fut, w.(MWorld.futures) !! f = Some fut -> is_Some fut.(MFuture.polled) -> is_Some fut.(MFuture.registration);
  gd_wire : forall f fut, w.(MWorld.futures) !! f = Some fut -> WaitOn.wire fut.(MFuture.on);
  gd_sleeps : forall id stored, w.(MWorld.shared).(waiters) !! id = Some stored -> sleeps w id stored;
  gd_size : Z.of_nat (size w.(MWorld.shared).(waiters)) <= WAITERS;
  gd_gone : w.(MWorld.shared).(owners) = 0 \/ w.(MWorld.shared).(ports) = 0 -> w.(MWorld.shared).(mux).(phase) = Phase.Closed;
  gd_counts : 0 <= w.(MWorld.shared).(owners) <= U64_MAX /\ 0 <= w.(MWorld.shared).(ports) <= U64_MAX;
}.

(** What a step leaves of the multiplexer. *)
Definition sound (m m' : Mux.t) : Prop :=
  (exists own, inv own m') /\ rejects m' /\ (m.(phase) = Phase.Closed -> m'.(phase) = Phase.Closed).
Lemma sound_step own op m : MuxOp.wire op -> inv own m -> rejects m -> sound m (mux_step unstable_sequenced op m).2.
Proof.
  intros Hw Hi Hr. pose proof (mux_inv_step unstable_sequenced own op m Hw Hi) as Hs. pose proof (rejects_step op m Hr) as Hj.
  pose proof (closed_step unstable_sequenced own op m Hi) as Hc. destruct (mux_step _ op m) as [out m'].
  destruct Hs as (own' & _ & Hi' & _). cbn in *. split_and!; [by exists own'|done|]. intros H. by destruct (Hc H).
Qed.
Lemma sound_refl own m : inv own m -> rejects m -> sound m m.
Proof. intros Hi Hr. split_and!; [by exists own|done|done]. Qed.
Lemma sound_send_if own request message admitted m : inv own m -> rejects m -> sound m (send_if request message admitted m).2.
Proof.
  intros Hi Hr. unfold send_if. destruct admitted; [|by eapply sound_refl]. pose proof (sound_step own (MuxOp.Send request message) m I Hi Hr) as H.
  cbn [mux_step snd] in H. by destruct (send request message m).
Qed.
Lemma sound_action own on m : WaitOn.wire on -> inv own m -> rejects m -> sound m (action unstable_sequenced on m).2.
Proof.
  intros Hw Hi Hr. pose proof (sound_refl own m Hi Hr) as H0. destruct on as [| | |item]; cbn [action].
  - done.
  - destruct (bool_decide _); [done|]. pose proof (sound_step own MuxOp.NextAction m I Hi Hr) as H. cbn [mux_step] in H. by destruct (next_action m).
  - destruct (bool_decide _); [done|]. pose proof (sound_step own MuxOp.NextMessage m I Hi Hr) as H. cbn [mux_step] in H. by destruct (next_message m).
  - pose proof (sound_step own (MuxOp.Receive item) m Hw Hi Hr) as H. cbn [mux_step snd] in H.
    destruct (receive _ item m) as [[[]|e] m']; [done|]. by destruct e.
Qed.
Lemma sound_disconnect own m : inv own m -> rejects m -> sound m (disconnect m).
Proof. intros Hi Hr. apply (sound_step own MuxOp.Disconnect m I Hi Hr). Qed.

Lemma told_later {A} (x : A) since l k : (since <= length l)%nat -> x ∈ drop since l \/ x ∈ k -> x ∈ drop since (l ++ k).
Proof. intros Hs H. rewrite drop_app_le by done. apply elem_of_app. tauto. Qed.

(** A step that wakes all the waiters it leaves: [gone] goes with its future. *)
Lemma good_woken w m' ow po futures' registration : good w -> sound w.(MWorld.shared).(mux) m' -> 0 <= ow <= U64_MAX /\ 0 <= po <= U64_MAX ->
  (ow = 0 \/ po = 0 -> m'.(phase) = Phase.Closed) ->
  (forall f fut, futures' !! f = Some fut -> w.(MWorld.futures) !! f = Some fut) ->
  (forall f fut, w.(MWorld.futures) !! f = Some fut -> futures' !! f = None -> fut.(MFuture.registration) = registration) ->
  (forall f fut id, futures' !! f = Some fut -> fut.(MFuture.registration) = Some id -> Some id <> registration) ->
  good (MWorld.mk (drop_registration registration (MuxShared.mk m' (emptied registration w.(MWorld.shared).(waiters)) w.(MWorld.shared).(serial) ow po))
          futures' (w.(MWorld.woken) ++ others registration w.(MWorld.shared).(waiters))).
Proof.
  intros [_ G2 G3 G4 G5 G6 G7 G8 _ _] (M1 & M2 & _) Hn Hg Hf Hd Hne. set (ws := waiters (MWorld.shared w)) in *.
  assert (Hw : forall id, waiters (drop_registration registration (MuxShared.mk m' (emptied registration ws) (serial (MWorld.shared w)) ow po)) !! id
    = if bool_decide (Some id = registration) then None else (fun _ => None) <$> (ws !! id)).
  { intros id. unfold drop_registration. case_bool_decide as Hid.
    - subst registration. cbn. apply lookup_delete_eq.
    - destruct registration as [r|]; cbn; [rewrite lookup_delete_ne by congruence|]; rewrite lookup_emptied; by rewrite bool_decide_false. }
  assert (Hsh : forall s, mux (drop_registration registration s) = mux s /\ serial (drop_registration registration s) = serial s
    /\ owners (drop_registration registration s) = owners s /\ ports (drop_registration registration s) = ports s
    /\ (size (waiters (drop_registration registration s)) <= size (waiters s))%nat).
  { intros s. unfold drop_registration. destruct registration as [r|]; cbn; [|done]. split_and!; try done. apply map_subseteq_size, delete_subseteq. }
  set (sh := drop_registration _ _) in *. destruct (Hsh (MuxShared.mk m' (emptied registration ws) (serial (MWorld.shared w)) ow po)) as (S1 & S2 & S3 & S4 & S5).
  fold sh in S1, S2, S3, S4, S5. clearbody sh. cbn in S1, S2, S3, S4, S5. rewrite size_emptied in S5.
  split; cbn [MWorld.shared MWorld.futures MWorld.woken]; rewrite ?S1, ?S2, ?S3, ?S4; try done; try (by split).
  - intros f fut id H1 H2. destruct (G3 f fut id (Hf _ _ H1) H2) as [H3 [x Hx]]. split; [done|]. rewrite Hw, bool_decide_false by (by eapply Hne).
    fold ws in Hx. rewrite Hx. by eexists.
  - intros f f' fut fut' id H1 H2. apply G4; by apply Hf.
  - intros f fut H1. by apply (G5 f), Hf.
  - intros f fut H1. by apply (G6 f), Hf.
  - intros id stored Hs. rewrite Hw in Hs. case_bool_decide as Hid; [done|]. destruct (ws !! id) as [x|] eqn:Hx; [|done]. injection Hs as <-.
    destruct (G7 id x Hx) as (f & fut & waker & since & J1 & J2 & J3 & J4 & J5). exists f, fut, waker, since. cbn.
    split_and!; [|done|done|rewrite length_app; lia|].
    + destruct (futures' !! f) as [fut'|] eqn:Hf'; [by rewrite (Hf f fut' Hf') in J1|]. destruct Hid. rewrite <- (Hd f fut J1 Hf'). done.
    + apply told_later; [done|]. destruct x as [s|]; [|by left]. right. destruct J5 as [-> _]. apply elem_of_others. by exists id.
  - lia.
Qed.

Lemma good_called w m' ow po : good w -> sound w.(MWorld.shared).(mux) m' -> 0 <= ow <= U64_MAX /\ 0 <= po <= U64_MAX -> (ow = 0 \/ po = 0 -> m'.(phase) = Phase.Closed) ->
  good (MWorld.mk (MuxShared.mk m' (emptied None w.(MWorld.shared).(waiters)) w.(MWorld.shared).(serial) ow po)
          w.(MWorld.futures) (w.(MWorld.woken) ++ others None w.(MWorld.shared).(waiters))).
Proof. intros Hg Hs Hn Hc. apply (good_woken w m' ow po (MWorld.futures w) None); try done. intros f fut H1 H2. congruence. Qed.
Lemma good_change {T} (f : Mux.t -> T * Mux.t) w : good w -> sound w.(MWorld.shared).(mux) (f w.(MWorld.shared).(mux)).2 ->
  good (let '(_, wakes, self) := change f w.(MWorld.shared) in wakes_of w (wakes, self)).
Proof.
  intros Hg Hs. unfold change. destruct (f (mux (MWorld.shared w))) as [r m'] eqn:Hf. cbn in Hs.
  apply (good_called w m' (owners (MWorld.shared w)) (ports (MWorld.shared w)) Hg Hs (gd_counts _ Hg)). intros H. by apply Hs, (gd_gone _ Hg).
Qed.

(** A poll that is pending. *)
Lemma good_pending w f fut waker id : good w -> w.(MWorld.futures) !! f = Some fut ->
  blocked fut.(MFuture.on) w.(MWorld.shared).(mux) ->
  (fut.(MFuture.registration) = Some id
   \/ (fut.(MFuture.registration) = None /\ id = w.(MWorld.shared).(serial) + 1 /\ id <= U64_MAX
       /\ Z.of_nat (size w.(MWorld.shared).(waiters)) < WAITERS)) ->
  good (MWorld.mk (w.(MWorld.shared) <| serial := Z.max w.(MWorld.shared).(serial) id |>
                                     <| waiters := <[id := Some waker]> w.(MWorld.shared).(waiters) |>)
          (<[f := MFuture.mk fut.(MFuture.on) (Some id) (Some (waker, length w.(MWorld.woken)))]> w.(MWorld.futures)) w.(MWorld.woken)).
Proof.
  intros [G1 G2 G3 G4 G5 G6 G7 G8 G9 G10] Hf Hb Hid.
  assert (Hother : forall f' fut', MWorld.futures w !! f' = Some fut' -> fut'.(MFuture.registration) = Some id -> f' = f).
  { intros f' fut' Hf' Hr. destruct Hid as [Hid|(_ & -> & _)]; [by eapply G4|]. destruct (G3 f' fut' _ Hf' Hr) as [H _]. lia. }
  split; cbn [MWorld.shared MWorld.futures MWorld.woken]; cbn; try done.
  - destruct Hid as [Hid|(_ & -> & ? & _)]; [|lia]. destruct (G3 f fut id Hf Hid). lia.
  - intros f' fut' id' H1 H2. apply lookup_insert_Some in H1 as [[<- <-]|[Hne H1]].
    + cbn in H2. injection H2 as <-. split; [lia|]. rewrite lookup_insert_eq. by eexists.
    + destruct (G3 f' fut' id' H1 H2) as [H3 H4]. split; [lia|]. destruct (decide (id = id')) as [<-|Hn]; [rewrite lookup_insert_eq; by eexists|by rewrite lookup_insert_ne].
  - intros f1 f2 fut1 fut2 id' H1 H2 R1 R2. apply lookup_insert_Some in H1 as [[<- <-]|[N1 H1]], H2 as [[<- <-]|[N2 H2]]; [done|..].
    + cbn in R1. injection R1 as <-. by destruct N2; symmetry; eapply Hother.
    + cbn in R2. injection R2 as <-. by destruct N1; symmetry; eapply Hother.
    + by apply (G4 f1 f2 fut1 fut2 id').
  - intros f' fut' H1. apply lookup_insert_Some in H1 as [[<- <-]|[N1 H1]]; [by eexists|by apply (G5 f')].
  - intros f' fut' H1. apply lookup_insert_Some in H1 as [[<- <-]|[N1 H1]]; [exact (G6 f fut Hf)|by apply (G6 f')].
  - intros id' stored Hs. apply lookup_insert_Some in Hs as [[<- <-]|[Hn Hs]].
    + exists f, (MFuture.mk (MFuture.on fut) (Some id) (Some (waker, length (MWorld.woken w)))), waker, (length (MWorld.woken w)). cbn.
      rewrite lookup_insert_eq. by split_and!.
    + destruct (G7 id' stored Hs) as (f' & fut' & wk & since & J1 & J2 & J3 & J4 & J5). exists f', fut', wk, since. cbn. split_and!; try done.
      rewrite lookup_insert_ne; [done|]. intros <-. assert (fut' = fut) as -> by congruence. destruct Hid as [Hid|(Hid & _)]; congruence.
  - destruct (waiters (MWorld.shared w) !! id) as [x|] eqn:Hx; [by rewrite map_size_insert_Some by (by eexists)|].
    rewrite map_size_insert_None by done. destruct Hid as [Hid|(_ & _ & _ & Hl)]; [|lia]. destruct (G3 f fut id Hf Hid) as [_ [y Hy]]. congruence.
Qed.

Lemma good_poll f waker w : good w -> good (mpoll f waker w).
Proof.
  intros Hg. unfold mpoll. destruct (MWorld.futures w !! f) as [fut|] eqn:Hf; [|done]. unfold poll.
  pose proof (gd_mux _ Hg) as [[own Hi] Hr]. pose proof (gd_wire _ Hg f fut Hf) as Hw.
  pose proof (sound_action own (MFuture.on fut) _ Hw Hi Hr) as Hs. pose proof (blocked_same own (MFuture.on fut) _ Hi Hr) as Hb.
  unfold blocked in Hb. destruct (action unstable_sequenced (MFuture.on fut) (mux (MWorld.shared w))) as [answer m'] eqn:Ha; cbn [fst snd] in Hs, Hb.
  assert (Hfin : forall m2 r, sound (mux (MWorld.shared w)) m2 ->
    good (let '(result, registration, wakes, self) := (Some r : option (result WaitOut.t MuxError.t), MFuture.registration fut,
              others (MFuture.registration fut) (waiters (MWorld.shared w)),
              ((MWorld.shared w) <| mux := m2 |>) <| waiters := emptied (MFuture.registration fut) (waiters (MWorld.shared w)) |>) in
      let woken := MWorld.woken w ++ wakes in
      match result with
      | None => MWorld.mk self (<[f := MFuture.mk fut.(MFuture.on) registration (Some (waker, length woken))]> w.(MWorld.futures)) woken
      | Some _ => MWorld.mk (drop_registration registration self) (delete f w.(MWorld.futures)) woken
      end)).
  { intros m2 r Hm. apply (good_woken w m2 (owners (MWorld.shared w)) (ports (MWorld.shared w)) (delete f (MWorld.futures w))); try done.
    - apply (gd_counts _ Hg).
    - intros H. by apply Hm, (gd_gone _ Hg).
    - intros f' fut' H. by apply lookup_delete_Some in H as [_ H].
    - intros f' fut' H1 H2. apply lookup_delete_None in H2 as [<-|H2]; congruence.
    - intros f' fut' id H1 H2 H3. apply lookup_delete_Some in H1 as [Hne H1]. apply Hne. by apply (gd_inj _ Hg f f' fut fut' id). }
  destruct answer as [[value|]|e]; [exact (Hfin m' (Ok value) Hs)| |exact (Hfin m' (Err e) Hs)]. rewrite (Hb eq_refl) in *.
  assert (Hbl : blocked (MFuture.on fut) (mux (MWorld.shared w))) by (unfold blocked; by rewrite Ha).
  destruct (MFuture.registration fut) as [id|] eqn:Hreg.
  - cbn. rewrite app_nil_r. pose proof (good_pending w f fut waker id Hg Hf Hbl (or_introl Hreg)) as H. by destruct (MWorld.shared w).
  - destruct (_ <=? _) eqn:Hl; [exact (Hfin (disconnect (mux (MWorld.shared w))) (Err MuxError.Capacity) (sound_disconnect own _ Hi Hr))|]. unfold checked_add_u64. destruct (_ <=? U64_MAX) eqn:Hc; [|exact (Hfin (disconnect (mux (MWorld.shared w))) (Err MuxError.Capacity) (sound_disconnect own _ Hi Hr))].
    cbn. rewrite app_nil_r. pose proof (good_pending w f fut waker (serial (MWorld.shared w) + 1) Hg Hf Hbl) as H. apply Z.leb_gt in Hl.
    apply Z.leb_le in Hc. specialize (H (or_intror (conj Hreg (conj eq_refl (conj Hc Hl))))). by destruct (MWorld.shared w).
Qed.

Lemma good_drop w f fut : good w -> w.(MWorld.futures) !! f = Some fut ->
  good (MWorld.mk (drop_registration fut.(MFuture.registration) w.(MWorld.shared)) (delete f w.(MWorld.futures)) w.(MWorld.woken)).
Proof.
  intros [G1 G2 G3 G4 G5 G6 G7 G8 G9 G10] Hf. set (sh := MWorld.shared w) in *.
  assert (Hw : forall id x, waiters (drop_registration (MFuture.registration fut) sh) !! id = Some x <-> waiters sh !! id = Some x /\ fut.(MFuture.registration) <> Some id).
  { intros id x. unfold drop_registration. destruct (MFuture.registration fut) as [r|]; cbn; [rewrite lookup_delete_Some|]; split; intuition congruence. }
  assert (Hs : (size (waiters (drop_registration (MFuture.registration fut) sh)) <= size (waiters sh))%nat).
  { unfold drop_registration. destruct (MFuture.registration fut); [|done]. apply map_subseteq_size, delete_subseteq. }
  assert (Hsh : mux (drop_registration (MFuture.registration fut) sh) = mux sh /\ serial (drop_registration (MFuture.registration fut) sh) = serial sh
    /\ owners (drop_registration (MFuture.registration fut) sh) = owners sh /\ ports (drop_registration (MFuture.registration fut) sh) = ports sh)
    by (by destruct (MFuture.registration fut)).
  revert Hw Hs Hsh. generalize (drop_registration (MFuture.registration fut) sh). intros sh' Hw Hs (S1 & S2 & S3 & S4).
  assert (Hin : forall f' fut', delete f (MWorld.futures w) !! f' = Some fut' -> f' <> f /\ MWorld.futures w !! f' = Some fut').
  { intros f' fut' H. apply lookup_delete_Some in H as [? ?]. by split. }
  split; cbn [MWorld.shared MWorld.futures MWorld.woken]; rewrite ?S1, ?S2, ?S3, ?S4; try done.
  - intros f' fut' id H1 H2. destruct (Hin _ _ H1) as [Hne H1']. destruct (G3 f' fut' id H1' H2) as [H3 [x Hx]]. split; [done|]. exists x. apply Hw.
    split; [done|]. intros Hr. apply Hne. by eapply G4.
  - intros f1 f2 fut1 fut2 id H1 H2. destruct (Hin _ _ H1) as [_ ?], (Hin _ _ H2) as [_ ?]. by apply (G4 f1 f2 fut1 fut2 id).
  - intros f' fut' H1. destruct (Hin _ _ H1) as [_ ?]. by apply (G5 f').
  - intros f' fut' H1. destruct (Hin _ _ H1) as [_ ?]. by apply (G6 f').
  - intros id stored Hst. apply Hw in Hst as [Hst Hne]. destruct (G7 id stored Hst) as (f' & fut' & wk & since & J1 & J2 & J3 & J4 & J5).
    exists f', fut', wk, since. cbn. rewrite S1. split_and!; try done. rewrite lookup_delete_ne; [done|]. intros <-. congruence.
  - lia.
Qed.

Lemma good_step s w : MStep.wire s -> good w -> good (mstep s w).
Proof.
  intros Hw Hg. pose proof (gd_mux _ Hg) as [[own Hi] Hr]. pose proof (gd_counts _ Hg) as [Ho Hp]. destruct s; cbn [mstep].
  - apply good_change; [done|]. by eapply sound_step.
  - apply good_change; [done|]. by eapply sound_refl.
  - apply good_change; [done|]. by eapply sound_send_if.
  - destruct (MWorld.futures w !! future) as [fut|] eqn:Hf; [done|]. cbn [is_some]. destruct Hg as [G1 G2 G3 G4 G5 G6 G7 G8 G9 G10].
    split; cbn [MWorld.shared MWorld.futures MWorld.woken]; cbn; try done.
    + intros f' fut' id H1 H2. apply lookup_insert_Some in H1 as [[<- <-]|[_ H1]]; [done|by eapply G3].
    + intros f1 f2 fut1 fut2 id H1 H2 R1 R2. apply lookup_insert_Some in H1 as [[<- <-]|[_ H1]]; [done|]. apply lookup_insert_Some in H2 as [[<- <-]|[_ H2]]; [done|].
      by eapply G4.
    + intros f' fut' H1 H2. apply lookup_insert_Some in H1 as [[<- <-]|[_ H1]]; [by destruct H2|by eapply G5].
    + intros f' fut' H1. apply lookup_insert_Some in H1 as [[<- <-]|[_ H1]]; [done|by eapply G6].
    + intros id stored Hs. destruct (G7 id stored Hs) as (f' & fut' & wk & since & J1 & J2 & J3 & J4 & J5). exists f', fut', wk, since. cbn.
      split_and!; try done. rewrite lookup_insert_ne; [done|]. intros <-. congruence.
  - by apply good_poll.
  - destruct (MWorld.futures w !! future) as [fut|] eqn:Hf; [|done]. by apply good_drop.
  - destruct (_ && _) eqn:Hc; [|done]. apply andb_prop in Hc as [H1 H2]. apply Z.ltb_lt in H1, H2.
    destruct Hg as [G1 G2 G3 G4 G5 G6 G7 G8 G9 G10]. unfold wakes_of. rewrite app_nil_r. cbn [snd].
    split; cbn [MWorld.shared MWorld.futures MWorld.woken]; cbn; try done; unfold usize_add; rewrite ?as_usize_id by lia; [|lia].
    intros [H|H]; [lia|]. apply G9. by right.
  - destruct (0 <? _) eqn:Hc; [|done]. apply Z.ltb_lt in Hc. unfold drop_owner, usize_sub. rewrite as_usize_id by lia. set (sh := MWorld.shared w) in *.
    destruct (Z.eqb_spec (owners sh) 1) as [E|E].
    + apply (good_called w (disconnect (mux sh)) (owners sh - 1) (ports sh)); [done|by eapply sound_disconnect|lia|done].
    + destruct Hg as [G1 G2 G3 G4 G5 G6 G7 G8 G9 G10]. unfold wakes_of. rewrite app_nil_r. cbn [snd].
      split; cbn [MWorld.shared MWorld.futures MWorld.woken]; cbn; try done; [|lia]. intros [H|H]; [lia|]. apply G9. by right.
  - destruct (_ && _) eqn:Hc; [|done]. apply andb_prop in Hc as [H1 H2]. apply Z.ltb_lt in H1, H2.
    destruct Hg as [G1 G2 G3 G4 G5 G6 G7 G8 G9 G10]. unfold wakes_of. rewrite app_nil_r. cbn [snd].
    split; cbn [MWorld.shared MWorld.futures MWorld.woken]; cbn; try done; unfold usize_add; rewrite ?as_usize_id by lia; [|lia].
    intros [H|H]; [apply G9; by left|lia].
  - destruct (0 <? _) eqn:Hc; [|done]. apply Z.ltb_lt in Hc. unfold drop_port, usize_sub. rewrite as_usize_id by lia. set (sh := MWorld.shared w) in *.
    destruct (Z.eqb_spec (ports sh) 1) as [E|E].
    + apply (good_called w (disconnect (mux sh)) (owners sh) (ports sh - 1)); [done|by eapply sound_disconnect|lia|done].
    + destruct Hg as [G1 G2 G3 G4 G5 G6 G7 G8 G9 G10]. unfold wakes_of. rewrite app_nil_r. cbn [snd].
      split; cbn [MWorld.shared MWorld.futures MWorld.woken]; cbn; try done; [|lia]. intros [H|H]; [apply G9; by left|lia].
Qed.

Lemma mux_good_run session e cfg m steps : Mux.new session e cfg = Ok m -> 0 <= cfg.(MuxConfig.max_requests) -> 0 <= cfg.(MuxConfig.max_streams) ->
  Forall MStep.wire steps -> good (mrun steps (mstart m)).
Proof.
  intros Hn H1 H2 Hw. assert (H0 : good (mstart m)).
  { split; cbn; try done.
    { split; [exists ∅; by eapply mux_inv_new|]. unfold Mux.new in Hn. case_match; [done|]. by injection Hn as <-. }
    all: try lia. all: intros [?|?]; lia. }
  unfold mrun. revert H0. generalize (mstart m). clear Hn. induction Hw as [|s steps Hs Hw IH]; intros w Hg; [done|]. cbn. by apply IH, good_step.
Qed.

(** C22: No future that waits on a shared multiplexer sleeps when it could go on.  In
    every interleaving of calls, polls and drops, a future whose last poll was pending
    has been woken since by the waker of that poll, or what it waits for is still not
    there.  Once the last owner or the last port is gone every one has been woken; and
    the table of waiters is bounded and holds the registrations of live futures only. *)
Theorem mux_no_lost_wakeup session e cfg m steps : Mux.new session e cfg = Ok m -> 0 <= cfg.(MuxConfig.max_requests) ->
  0 <= cfg.(MuxConfig.max_streams) -> Forall MStep.wire steps -> let w := mrun steps (mstart m) in
  (forall f fut waker since, w.(MWorld.futures) !! f = Some fut -> fut.(MFuture.polled) = Some (waker, since) ->
     waker ∈ drop since w.(MWorld.woken)
     \/ ((action unstable_sequenced fut.(MFuture.on) w.(MWorld.shared).(mux)).1 = Ok None
         /\ 0 < w.(MWorld.shared).(owners) /\ 0 < w.(MWorld.shared).(ports)))
  /\ Z.of_nat (size w.(MWorld.shared).(waiters)) <= WAITERS
  /\ forall id, is_Some (w.(MWorld.shared).(waiters) !! id) -> exists f fut, w.(MWorld.futures) !! f = Some fut
       /\ fut.(MFuture.registration) = Some id.
Proof.
  intros Hn H1 H2 Hw w. pose proof (mux_good_run session e cfg m steps Hn H1 H2 Hw) as Hg. fold w in Hg. clearbody w.
  destruct Hg as [G1 G2 G3 G4 G5 G6 G7 G8 G9 G10]. split_and!; [|done|].
  - intros f fut waker since Hf Hp. destruct (G5 f fut Hf) as [id Hid]; [by eexists|]. destruct (G3 f fut id Hf Hid) as [_ [stored Hs]].
    destruct (G7 id stored Hs) as (f' & fut' & wk & sn & J1 & J2 & J3 & J4 & J5). assert (f' = f) as -> by (by eapply G4).
    assert (fut' = fut) as -> by congruence. rewrite Hp in J3. injection J3 as <- <-. destruct stored as [s|]; [|by left]. right. destruct J5 as [_ Hb].
    split; [exact Hb|]. destruct (decide (owners (MWorld.shared w) = 0 \/ ports (MWorld.shared w) = 0)) as [Hz|Hz]; [|lia].
    by destruct (closed_unblocked _ _ (G9 Hz) Hb).
  - intros id [stored Hs]. destruct (G7 id stored Hs) as (f' & fut' & wk & sn & J1 & J2 & _). by exists f', fut'.
Qed.
End run.

(** ** A run *)

#[local] Existing Instance layout64.
Definition sample_steps : list MStep.t :=
  [MStep.Starts 1 WaitOn.Ready; MStep.Polls 1 7; MStep.Starts 2 WaitOn.NextMessage; MStep.Polls 2 8; MStep.DropsOwner].
Definition sample_world : MWorld.t := mrun false sample_steps (mstart (sample_mux None)).

Lemma mux_no_lost_wakeup_witness : exists fut, sample_world.(MWorld.futures) !! 2 = Some fut
  /\ fut.(MFuture.polled) = Some (8, 0%nat) /\ 8 ∈ drop 0 sample_world.(MWorld.woken).
Proof.
  exists (MFuture.mk WaitOn.NextMessage (Some 2) (Some (8, 0%nat))). split; [vm_compute; reflexivity|]. split; [reflexivity|].
  destruct (mux_no_lost_wakeup false "session"%string None sample_mux_config (sample_mux None) sample_steps) as [H _].
  - vm_compute. reflexivity.
  - cbn. lia.
  - cbn. lia.
  - repeat constructor.
  - destruct (H 2 (MFuture.mk WaitOn.NextMessage (Some 2) (Some (8, 0%nat))) 8 0%nat) as [Hw|(_ & Ho & _)].
    + vm_compute. reflexivity.
    + reflexivity.
    + exact Hw.
    + vm_compute in Ho. discriminate Ho.
Defined.
