(* ===== verification/PoolTypes.v ===== *)
(** * The pool's data (src/src/pool/mod.rs)

    Capacities, keys, identities and requests with their validity tests, and
    the identifiers, errors and actions of the connection pool. *)
From S2P Require Import Prelude Utf8 Cbor Protocol Validate.

Module Capacity.
Record t := mk {
  per_user_host : Z;
  per_host : Z;
  total : Z;
  max_requests : Z;
}.
Definition valid (self : t) : bool :=
  (0 <? self.(per_user_host)) && (0 <? self.(per_host)) && (0 <? self.(total)) && (0 <? self.(max_requests)).
End Capacity.

(** ** Identifiers: never reused within a pool *)

Module ConnectionId.
Record t := mk {
  pool : Z;
  serial : Z;
}.
#[global] Instance eq_dec : EqDecision t.
Proof. solve_decision. Defined.
#[global] Program Instance countable : Countable t :=
  inj_countable' (fun r => (r.(pool), r.(serial))) (fun '(p, s) => mk p s) _.
Next Obligation. by intros []. Qed.
End ConnectionId.

Module RequestId.
Record t := mk {
  pool : Z;
  serial : Z;
}.
#[global] Instance eq_dec : EqDecision t.
Proof. solve_decision. Defined.
#[global] Program Instance countable : Countable t :=
  inj_countable' (fun r => (r.(pool), r.(serial))) (fun '(p, s) => mk p s) _.
Next Obligation. by intros []. Qed.
End RequestId.

Module LeaseId.
Record t := mk {
  connection : ConnectionId.t;
  generation : Z;
}.
#[global] Instance eq_dec : EqDecision t.
Proof. solve_decision. Defined.
End LeaseId.

(** The derived orders compare field by field. *)
#[export] Program Instance connection_order : KeyOrder ConnectionId.t := {|
  key_le := fun a b => a.(ConnectionId.pool) < b.(ConnectionId.pool)
    \/ (a.(ConnectionId.pool) = b.(ConnectionId.pool) /\ a.(ConnectionId.serial) <= b.(ConnectionId.serial)) |}.
Next Obligation. intros a b. apply _. Defined.
Next Obligation. intros a b. cbn. lia. Qed.
Next Obligation. intros a b c. cbn. lia. Qed.
Next Obligation. intros [p s] [p' s']. cbn. intros H1 H2. f_equal; lia. Qed.

#[export] Program Instance request_order : KeyOrder RequestId.t := {|
  key_le := fun a b => a.(RequestId.pool) < b.(RequestId.pool)
    \/ (a.(RequestId.pool) = b.(RequestId.pool) /\ a.(RequestId.serial) <= b.(RequestId.serial)) |}.
Next Obligation. intros a b. apply _. Defined.
Next Obligation. intros a b. cbn. lia. Qed.
Next Obligation. intros a b c. cbn. lia. Qed.
Next Obligation. intros [p s] [p' s']. cbn. intros H1 H2. f_equal; lia. Qed.

(** The order of [(u64, ConnectionId)] pairs. *)
Definition stamp_le (a b : Z * ConnectionId.t) : Prop := a.1 < b.1 \/ (a.1 = b.1 /\ key_le a.2 b.2).
#[export] Instance stamp_le_dec : RelDecision stamp_le.
Proof. intros a b. unfold stamp_le. apply _. Defined.

(** ** Keys and sites *)

Definition valid_site (host : string) (port : Z) : bool :=
  negb (str_is_empty host) && (slen host <=? 255) && negb (port =? 0)
  && negb (existsb (fun c => is_control c || is_whitespace c || among "@/?#\" c) (chars host)).

Definition bounded_text (text : string) (max : Z) : bool :=
  negb (str_is_empty text) && (slen text <=? max) && negb (existsb is_control (chars text)).

Module Site.
Record t := mk {
  scheme : Scheme.t;
  host : string;
  port : Z;
}.
#[global] Instance eq_dec : EqDecision t.
Proof. solve_decision. Defined.
Definition valid (self : t) : bool := valid_site self.(host) self.(port).
End Site.

Module Key.
Record t := mk {
  scheme : Scheme.t;
  username : option string;
  host : string;
  port : Z;
}.
#[global] Instance eq_dec : EqDecision t.
Proof. solve_decision. Defined.

Definition ssh (username host : string) (port : Z) : t := mk Scheme.Ssh (Some username) host port.
Definition https (host : string) (port : Z) : t := mk Scheme.Https None host port.
Definition site (self : t) : Site.t := Site.mk self.(scheme) self.(host) self.(port).

Definition same_user_host (self other : t) : bool :=
  bool_decide (self.(host) = other.(host)) && bool_decide (self.(username) = other.(username)).
Definition same_site (self other : t) : bool :=
  (Scheme.wire self.(scheme) =? Scheme.wire other.(scheme))
  && bool_decide (self.(host) = other.(host)) && (self.(port) =? other.(port)).
Definition on_site (self : t) (site : Site.t) : bool :=
  (Scheme.wire self.(scheme) =? Scheme.wire site.(Site.scheme))
  && bool_decide (self.(host) = site.(Site.host)) && (self.(port) =? site.(Site.port)).

Definition valid (self : t) : bool :=
  valid_site self.(host) self.(port)
  && match self.(scheme) with
     | Scheme.Ssh => is_some_and self.(username) (fun s => bounded_text s 128)
     | Scheme.Https => is_none self.(username)
     end.
End Key.

Module PoolIdentity.
Inductive t :=
| Ambient
| Explicit (proof : string)
| Https
| HttpsScoped (scope : string).
#[global] Instance eq_dec : EqDecision t.
Proof. solve_decision. Defined.

Definition valid_for (self : t) (key : Key.t) : bool :=
  match key.(Key.scheme), self with
  | Scheme.Ssh, Ambient | Scheme.Https, Https => true
  | Scheme.Ssh, Explicit proof => bounded_text proof 1024
  | Scheme.Https, HttpsScoped scope => bounded_text scope 1024
  | _, _ => false
  end.
End PoolIdentity.

Module Owner.
Record t := mk {
  session : string;
  operation : string;
}.
#[global] Instance eq_dec : EqDecision t.
Proof. solve_decision. Defined.
Definition valid (self : t) : bool := bounded_text self.(session) 128 && bounded_text self.(operation) 128.
End Owner.

(** ** Configuration and requests *)

Module SetupCause.
Inductive t :=
| NetworkAggregate | NetworkStall | LocalDeadline | LocalWaitExpired | PreparationDeadline | Cancelled
| DriverLost | Completed
| ResourceFailure (code : ErrorCode.t) (effect : Effect.t) (setup_cause : option SetupFailureCause.t).
#[global] Instance eq_dec : EqDecision t.
Proof. solve_decision. Defined.
End SetupCause.

Module SetupTerminal.
Record t := mk {
  connection : ConnectionId.t;
  phase : Z;
  cause : SetupCause.t;
}.
#[global] Instance eq_dec : EqDecision t.
Proof. solve_decision. Defined.
End SetupTerminal.

Module PoolError.
Inductive t :=
| InvalidConfig | InvalidRequest | Capacity | WouldBlock | Cancelled | Shutdown | DriverLost | Stale
| WrongState | AllocationTimeout | ConnectTimeout | InteractionTimeout | LocalWaitExpired | IdentityMismatch
| SetupEnded (record : SetupTerminal.t)
| ConnectFailed (code : ErrorCode.t) (effect : Effect.t) (setup_cause : option SetupFailureCause.t).
#[global] Instance eq_dec : EqDecision t.
Proof. solve_decision. Defined.
End PoolError.

Module PoolConfig.
Record t := mk {
  per_user_host : Z;
  per_host : Z;
  total : Z;
  max_requests : Z;
  idle_timeout_ms : Z;
  max_age_ms : Z;
  allocation_timeout_ms : Z;
  connect_timeout_ms : Z;
  interaction_timeout_ms : Z;
  cleanup_timeout_ms : Z;
}.
Definition default : t := mk 32 32 256 1024 60000 600000 30000 30000 120000 5000.

(** [From<&Config> for Capacity]. *)
Definition capacity (config : t) : Capacity.t :=
  Capacity.mk config.(per_user_host) config.(per_host) config.(total) config.(max_requests).

Definition validate (self : t) : result unit PoolError.t :=
  if negb (Capacity.valid (capacity self))
     || existsb (fun value => negb ((1 <=? value) && (value <=? 86400000)))
          [self.(idle_timeout_ms); self.(max_age_ms); self.(allocation_timeout_ms);
           self.(interaction_timeout_ms); self.(cleanup_timeout_ms)]
     || (I32_MAX <? self.(connect_timeout_ms))
  then Err PoolError.InvalidConfig else Ok tt.
End PoolConfig.

Definition network_timeout_valid (value : option Z) (configured : Z) : bool :=
  is_none_or value (fun value =>
    (value <=? I32_MAX)
    && if value =? 0 then configured =? 0 else (configured =? 0) || (value <=? configured)).

Definition MAX_EXCLUDED : Z := 64.

Module PoolRequest.
Record t := mk {
  key : Key.t;
  identity : PoolIdentity.t;
  owner : Owner.t;
  allocation_timeout_ms : option Z;
  connect_timeout_ms : option Z;
  interaction_timeout_ms : option Z;
  fresh : bool;
  tag : option string;
  exclude : list ConnectionId.t;
  limits : option Capacity.t;
  prefer : option ConnectionId.t;
  prefer_wait_ms : option Z;
}.
Definition new (key : Key.t) (identity : PoolIdentity.t) (owner : Owner.t) : t :=
  mk key identity owner None None None false None [] None None None.

Definition valid (config : PoolConfig.t) (self : t) : bool :=
  Key.valid self.(key)
  && PoolIdentity.valid_for self.(identity) self.(key)
  && Owner.valid self.(owner)
  && is_none_or self.(allocation_timeout_ms)
       (fun v => (0 <? v) && (v <=? config.(PoolConfig.allocation_timeout_ms)))
  && network_timeout_valid self.(connect_timeout_ms) config.(PoolConfig.connect_timeout_ms)
  && is_none_or self.(interaction_timeout_ms)
       (fun v => (0 <? v) && (v <=? config.(PoolConfig.interaction_timeout_ms)))
  && (len self.(exclude) <=? MAX_EXCLUDED)
  && is_none_or self.(limits) Capacity.valid
  && is_none_or self.(prefer_wait_ms) (fun wait =>
       is_some self.(prefer) && (0 <? wait) && (wait <=? config.(PoolConfig.cleanup_timeout_ms))).
End PoolRequest.

(** ** What the pool asks of its host *)

Module CloseReason.
Inductive t :=
| IdleExpired | AgeExpired | Evicted | Discarded | Unproven | Cancelled | Shutdown | IdentityMismatch | DriverLost.
#[global] Instance eq_dec : EqDecision t.
Proof. solve_decision. Defined.
End CloseReason.

Module Action.
Inductive t :=
| Connect (connection : ConnectionId.t) (key : Key.t) (identity : PoolIdentity.t) (network_deadline : option Z)
    (tag : option string)
| CancelConnect (connection : ConnectionId.t) (deadline : Z)
| AbortConnect (connection : ConnectionId.t)
| Close (connection : ConnectionId.t) (reason : CloseReason.t) (deadline : Z)
| Abort (connection : ConnectionId.t).
#[global] Instance eq_dec : EqDecision t.
Proof. solve_decision. Defined.
End Action.

Module Counts.
Record t := mk {
  opening : Z;
  idle : Z;
  leased : Z;
  closing : Z;
}.
#[global] Instance eta : Eta t := fun r => mk (r.(opening)) (r.(idle)) (r.(leased)) (r.(closing)).
Definition default : t := mk 0 0 0 0.
(** Counts of entries held in memory: the sums cannot overflow. *)
Definition total (self : t) : Z := self.(opening) + self.(idle) + self.(leased) + self.(closing).
End Counts.
