(* ===== verification/SetupClock.v ===== *)
(** * One connection's setup clock (src/src/pool/setup_clock.rs, src/src/pool/setup_clock/)

    The clock arbitrates how the setup of a connection ends.  Two network
    timers, the aggregate and the stall, run in network phases and are paused
    in local phases, which have a deadline of their own.  A [SetupClock] is a
    shared handle: its state lives in a heap ([Clocks]) under the handle, and
    its time source is a function that every change reads once.  Wakers are
    identified by numbers. *)
From S2P Require Import Prelude Utf8 Cbor Protocol Validate PoolTypes.

Module LocalPhase.
Inductive t := Admission | Interaction | Wait.
#[global] Instance eq_dec : EqDecision t.
Proof. solve_decision. Defined.
End LocalPhase.

Module Observation.
Inductive t :=
| Alive (phase : Z) (local : option LocalPhase.t) (deadline : option Z) (acknowledged : bool)
| Terminal (record : SetupTerminal.t).
End Observation.

Module PublicationError.
Inductive t :=
| ActiveTerminal (record : SetupTerminal.t)
| PreparationExpired (record : SetupTerminal.t)
| InvalidToken | WrongState | Overflow.
#[global] Instance eq_dec : EqDecision t.
Proof. solve_decision. Defined.
End PublicationError.

Module SetupReceipt.
Record t := mk {
  connection : ConnectionId.t;
  phase : Z;
}.
End SetupReceipt.

Module ClockUpdate.
Record t (T : Type) := mk {
  value : T;
  wakes : list Z;
  retired : list Z;
}.
Arguments mk {T} _ _ _.
Arguments value {T} _.
Arguments wakes {T} _.
Arguments retired {T} _.
End ClockUpdate.

Module Timer.
Inductive t := Disabled | Inactive | Live (value : Z).

Definition deadline (self : t) : option Z := match self with Live value => Some value | _ => None end.
Definition pause (now : Z) (self : t) : t :=
  match self with Live until => Live (as_u64 (until - now)) | _ => self end.
Definition resume (now : Z) (self : t) : result t PublicationError.t :=
  match self with
  | Live remaining => try until := ok_or (checked_add_u64 now remaining) PublicationError.Overflow in Ok (Live until)
  | _ => Ok self
  end.
End Timer.

Module Slot.
Inductive t :=
| Prepared (phase : Z) (kind : LocalPhase.t) (until : Z) (expired : bool)
| Pending (phase : Z).
Definition prepared (id : Z) (self : t) : bool := match self with Prepared phase _ _ _ => phase =? id | _ => false end.
End Slot.

Module SetupState.
Record t := mk {
  connection : ConnectionId.t;
  now : Z;
  serial : Z;
  phase : Z;
  local : option LocalPhase.t;
  local_until : option Z;
  aggregate : Timer.t;
  stall : Timer.t;
  stall_ms : Z;
  slot : option Slot.t;
  acknowledged : bool;
  terminal : option SetupTerminal.t;
  driver : option Z;
  waiter : option Z;
  wakes : list Z;
  retired : list Z;
}.
#[global] Instance eta : Eta t :=
  fun r => mk (r.(connection)) (r.(now)) (r.(serial)) (r.(phase)) (r.(local)) (r.(local_until)) (r.(aggregate))
    (r.(stall)) (r.(stall_ms)) (r.(slot)) (r.(acknowledged)) (r.(terminal)) (r.(driver)) (r.(waiter)) (r.(wakes)) (r.(retired)).

Definition new (connection : ConnectionId.t) (network_until : option Z) (stall_ms : Z) : t :=
  mk connection 0 0 0 None None
    (match network_until with Some until => Timer.Live until | None => Timer.Disabled end)
    (if stall_ms =? 0 then Timer.Disabled else Timer.Inactive)
    stall_ms None true None None None [] [].
#[global] Instance inhabited : Inhabited t := populate (new (ConnectionId.mk 0 0) None 0).

(** A method that can fail: its result beside the state it leaves. *)
Abbreviation M A := (t -> result A PublicationError.t * t).

Definition issue : M Z := fun self =>
  try serial' := ok_or (checked_add_u64 self.(serial) 1) PublicationError.Overflow at self in
  (Ok serial', self <| serial := serial' |>).

Definition alive (self : t) : result unit PublicationError.t :=
  match self.(terminal) with Some record => Err (PublicationError.ActiveTerminal record) | None => Ok tt end.

Definition deadline (self : t) : option Z :=
  if is_some self.(local) then self.(local_until)
  else opt_min (Timer.deadline self.(aggregate)) (Timer.deadline self.(stall)).

Definition observation (self : t) : Observation.t :=
  match self.(terminal) with
  | Some record => Observation.Terminal record
  | None => Observation.Alive self.(phase) self.(local) (deadline self) self.(acknowledged)
  end.

Definition finish (cause : SetupCause.t) (phase : Z) (self : t) : t :=
  match self.(terminal) with
  | Some _ => self
  | None =>
      let self := self <| terminal := Some (SetupTerminal.mk self.(connection) phase cause) |> <| slot := None |> in
      let self := match self.(waiter) with
                  | Some waker => self <| waiter := None |> <| wakes := self.(wakes) ++ [waker] |>
                  | None => self end in
      match self.(driver) with
      | Some waker => self <| driver := None |> <| wakes := self.(wakes) ++ [waker] |>
      | None => self
      end
  end.

Definition due (self : t) (until : option Z) : option Z := opt_filter until (fun until => until <=? self.(now)).

(** What has run out, if anything. *)
Definition overdue (self : t) : option SetupCause.t :=
  if is_some self.(local) then
    option_map (fun _ => if bool_decide (self.(local) = Some LocalPhase.Wait)
                         then SetupCause.LocalWaitExpired else SetupCause.LocalDeadline)
      (due self self.(local_until))
  else
    match due self (Timer.deadline self.(aggregate)), due self (Timer.deadline self.(stall)) with
    | Some a, Some s => if s <? a then Some SetupCause.NetworkStall else Some SetupCause.NetworkAggregate
    | Some _, None => Some SetupCause.NetworkAggregate
    | None, Some _ => Some SetupCause.NetworkStall
    | None, None => None
    end.

Definition settle (self : t) : t :=
  if is_some self.(terminal) then self
  else
    let self := match overdue self with Some cause => finish cause self.(phase) self | None => self end in
    match self.(slot) with
    | Some (Slot.Prepared phase kind until expired) =>
        self <| slot := Some (Slot.Prepared phase kind until (expired || (until <=? self.(now)))) |>
    | _ => self
    end.

Definition notify_driver (self : t) : t :=
  match self.(driver) with Some waker => self <| wakes := self.(wakes) ++ [waker] |> | None => self end.

(** Every operation: read the source, never step back, settle what is due, act,
    and hand the notifications to the caller. *)
Definition change {T} (reading : Z) (action : t -> T * t) (self : t) : ClockUpdate.t T * t :=
  let self := self <| now := Z.max reading self.(now) |> in
  let self := settle self in
  let '(value, self) := action self in
  (ClockUpdate.mk value self.(wakes) self.(retired), self <| wakes := [] |> <| retired := [] |>).

(** ** Actions *)

Definition deadline_after (milliseconds : Z) : M Z := fun self =>
  try _ := alive self at self in
  try until := ok_or (checked_add_u64 self.(now) milliseconds) PublicationError.Overflow at self in (Ok until, self).

Definition remaining (self : t) : option Z * t :=
  (option_map (fun deadline => saturating_sub_u64 deadline self.(now)) (deadline self), self).

Definition observe (self : t) : Observation.t * t := (observation self, self).

(** The [expect] of [terminate] finds the terminal that [finish] has left. *)
Definition terminate (cause : SetupCause.t) (self : t) : SetupTerminal.t * t :=
  let self := finish cause self.(phase) self in
  (match self.(terminal) with Some record => record | None => SetupTerminal.mk self.(connection) self.(phase) cause end, self).

Definition terminate_if_alive (cause : SetupCause.t) (self : t) : result SetupTerminal.t SetupTerminal.t * t :=
  match self.(terminal) with
  | Some record => (Err record, self)
  | None => let '(record, self) := terminate cause self in (Ok record, self)
  end.

Definition register_driver (waker : Z) (self : t) : unit * t :=
  (tt,
   if is_some self.(terminal) then self <| retired := self.(retired) ++ [waker] |>
   else
     let old := self.(driver) in
     let self := self <| driver := Some waker |> in
     match old with Some old => self <| retired := self.(retired) ++ [old] |> | None => self end).

Definition pending_receipt (self : t) : option SetupReceipt.t * t :=
  (match self.(slot) with
   | Some (Slot.Pending phase) => Some (SetupReceipt.mk self.(connection) phase)
   | _ => None
   end, self).

Definition acknowledge (receipt : SetupReceipt.t) : M unit := fun self =>
  try _ := alive self at self in
  if negb (bool_decide (receipt.(SetupReceipt.connection) = self.(connection)))
     || negb (match self.(slot) with
              | Some (Slot.Pending phase) => phase =? receipt.(SetupReceipt.phase)
              | _ => false end)
  then (Err PublicationError.InvalidToken, self)
  else
    let self := self <| slot := None |> <| acknowledged := true |> in
    (Ok tt, match self.(waiter) with
            | Some waker => self <| waiter := None |> <| wakes := self.(wakes) ++ [waker] |>
            | None => self end).

(** One poll of [wait_acknowledged]: [None] is [Poll::Pending], with the waker
    registered; a future dropped after that terminates the clock. *)
Definition poll_acknowledged (receipt : SetupReceipt.t) (waker : Z) (self : t)
    : option (result unit PublicationError.t) * t :=
  match alive self with
  | Err error => (Some (Err error), self)
  | Ok _ =>
      if negb (bool_decide (receipt.(SetupReceipt.connection) = self.(connection)))
         || negb (receipt.(SetupReceipt.phase) =? self.(phase))
      then (Some (Err PublicationError.InvalidToken), self)
      else if self.(acknowledged) then (Some (Ok tt), self)
      else
        let old := self.(waiter) in
        let self := self <| waiter := Some waker |> in
        (None, match old with Some old => self <| retired := self.(retired) ++ [old] |> | None => self end)
  end.

Definition admit_completed : M SetupTerminal.t := fun self =>
  try _ := alive self at self in
  if is_some self.(local) || negb self.(acknowledged) || is_some self.(slot)
  then (Err PublicationError.WrongState, self)
  else let '(record, self) := terminate SetupCause.Completed self in (Ok record, self).

(** *** Transitions (setup_clock/transitions.rs) *)

(** The phase of the token that [prepare_local] hands out. *)
Definition prepare_local (kind : LocalPhase.t) (until : Z) : M Z := fun self =>
  try _ := alive self at self in
  if is_some self.(slot) then (Err PublicationError.WrongState, self)
  else
    call phase, self := issue self in
    (Ok phase, self <| slot := Some (Slot.Prepared phase kind until (until <=? self.(now))) |>).

(** Whether the token was consumed is returned beside the result. *)
Definition publish_local (matching_clock : bool) (connection' : ConnectionId.t) (token : Z) (self : t)
    : (result SetupReceipt.t PublicationError.t * bool) * t :=
  match alive self with
  | Err error => ((Err error, false), self)
  | Ok _ =>
      if negb matching_clock || negb (bool_decide (connection' = self.(connection)))
      then ((Err PublicationError.InvalidToken, false), self)
      else
        match self.(slot) with
        | Some (Slot.Prepared phase' kind until expired) =>
            if negb (phase' =? token) then ((Err PublicationError.InvalidToken, false), self)
            else if expired || (until <=? self.(now)) then
              let self := finish SetupCause.PreparationDeadline phase' self in
              ((Err (PublicationError.PreparationExpired
                       (match self.(terminal) with
                        | Some record => record
                        | None => SetupTerminal.mk self.(connection) phase' SetupCause.PreparationDeadline end)), true), self)
            else
              let self := if is_none self.(local)
                          then self <| aggregate := Timer.pause self.(now) self.(aggregate) |>
                                    <| stall := Timer.pause self.(now) self.(stall) |>
                          else self in
              let self := self <| local := Some kind |> <| local_until := Some until |> <| phase := phase' |>
                               <| slot := Some (Slot.Pending phase') |> <| acknowledged := false |> in
              let self := notify_driver self in
              ((Ok (SetupReceipt.mk self.(connection) phase'), true), self)
        | _ => ((Err PublicationError.InvalidToken, false), self)
        end
  end.

(** Dropping a token that was not consumed gives up what it prepared. *)
Definition drop_prepared (token : Z) (self : t) : unit * t :=
  (tt, if is_some_and self.(slot) (Slot.prepared token) then self <| slot := None |> else self).

(** The timers run again from what they had left. *)
Definition resume_timers (self : t) : result t PublicationError.t :=
  try aggregate' := Timer.resume self.(now) self.(aggregate) in
  try stall' := Timer.resume self.(now) self.(stall) in
  Ok (self <| aggregate := aggregate' |> <| stall := stall' |> <| local := None |> <| local_until := None |>).

Definition publish_network : M SetupReceipt.t := fun self =>
  try _ := alive self at self in
  if is_some self.(slot) || is_none self.(local) then (Err PublicationError.WrongState, self)
  else
    call phase', self := issue self in
    try self := resume_timers self at self in
    let self := self <| phase := phase' |> <| slot := Some (Slot.Pending phase') |> <| acknowledged := false |> in
    let self := notify_driver self in
    (Ok (SetupReceipt.mk self.(connection) phase'), self).

Definition begin_network_wait : M unit := fun self =>
  try _ := alive self at self in
  if is_some self.(local) then (Err PublicationError.WrongState, self)
  else
    match self.(stall) with
    | Timer.Inactive =>
        try until := ok_or (checked_add_u64 self.(now) self.(stall_ms)) PublicationError.Overflow at self in
        (Ok tt, self <| stall := Timer.Live until |>)
    | _ => (Ok tt, self)
    end.

Definition network_progress : M unit := fun self =>
  try _ := alive self at self in
  if is_some self.(local) then (Err PublicationError.WrongState, self)
  else if negb (self.(stall_ms) =? 0) then
    try until := ok_or (checked_add_u64 self.(now) self.(stall_ms)) PublicationError.Overflow at self in
    (Ok tt, self <| stall := Timer.Live until |>)
  else (Ok tt, self).

Definition begin_local_wait (milliseconds : Z) : M unit := fun self =>
  try _ := alive self at self in
  if bool_decide (self.(local) = Some LocalPhase.Wait) then (Ok tt, self)
  else if is_some self.(local) || is_some self.(slot) then (Err PublicationError.WrongState, self)
  else
    try until := ok_or (checked_add_u64 self.(now) milliseconds) PublicationError.Overflow at self in
    (Ok tt, self <| aggregate := Timer.pause self.(now) self.(aggregate) |>
                 <| stall := Timer.pause self.(now) self.(stall) |>
                 <| local := Some LocalPhase.Wait |> <| local_until := Some until |>).

Definition end_local_wait : M unit := fun self =>
  try _ := alive self at self in
  if negb (bool_decide (self.(local) = Some LocalPhase.Wait)) then (Err PublicationError.WrongState, self)
  else try self := resume_timers self at self in (Ok tt, self).

(** [cached_deadline] reads the state without its source. *)
Definition cached_deadline (self : t) : option Z :=
  if is_some self.(terminal) then Some self.(now) else deadline self.
End SetupState.

(** ** Clocks behind shared handles *)

Module Clocks.
Record t := mk {
  states : gmap Z SetupState.t;
  next : Z;
  reads : nat;
}.
#[global] Instance eta : Eta t := fun r => mk (r.(states)) (r.(next)) (r.(reads)).
Definition empty : t := mk ∅ 0 0.

Section clocks.
(** [source h n]: what clock [h]'s source gives for the [n]-th reading made of any clock. *)
Variable source : Z -> nat -> Z.

Definition new (connection : ConnectionId.t) (network_until : option Z) (stall_ms : Z) (self : t) : Z * t :=
  (self.(next), self <| states := <[self.(next) := SetupState.new connection network_until stall_ms]> self.(states) |>
                     <| next := self.(next) + 1 |>).

(** A handle always has its state. *)
Definition change {T} (handle : Z) (action : SetupState.t -> T * SetupState.t) (self : t) : ClockUpdate.t T * t :=
  let '(update, state) := SetupState.change (source handle self.(reads)) action (self.(states) !!! handle) in
  (update, self <| states := <[handle := state]> self.(states) |> <| reads := S self.(reads) |>).

(** [publish_local] with a token of clock [owner]; an unconsumed token is
    dropped at its own clock afterwards, which delivers its notifications. *)
Definition publish_local (handle owner : Z) (connection : ConnectionId.t) (token : Z) (self : t)
    : ClockUpdate.t (result SetupReceipt.t PublicationError.t) * t :=
  let '(update, self) := change handle (SetupState.publish_local (handle =? owner) connection token) self in
  let '(value, consumed) := update.(ClockUpdate.value) in
  let self := if consumed then self else (change owner (SetupState.drop_prepared token) self).2 in
  (ClockUpdate.mk value update.(ClockUpdate.wakes) update.(ClockUpdate.retired), self).
End clocks.
End Clocks.
