(* ===== verification/SetupFacts.v ===== *)
(** * Properties of the setup clock *)
From S2P Require Import Prelude Utf8 Cbor Protocol Validate PoolTypes SetupClock.
Import SetupState.

(** ** The operations of a clock *)

Module ClockOp.
Inductive t :=
| DeadlineAfter (milliseconds : Z)
| Remaining
| Observe
| Terminate (cause : SetupCause.t)
| TerminateIfAlive (cause : SetupCause.t)
| RegisterDriver (waker : Z)
| PendingReceipt
| Acknowledge (receipt : SetupReceipt.t)
| PollAcknowledged (receipt : SetupReceipt.t) (waker : Z)
| AdmitCompleted
| PrepareLocal (kind : LocalPhase.t) (until : Z)
| PublishLocal (matching_clock : bool) (connection : ConnectionId.t) (token : Z)
| DropPrepared (token : Z)
| PublishNetwork
| BeginNetworkWait
| NetworkProgress
| BeginLocalWait (milliseconds : Z)
| EndLocalWait.

(** Callers do not claim a network timeout of their own. *)
Definition honest (op : t) : Prop :=
  match op with Terminate SetupCause.NetworkAggregate | TerminateIfAlive SetupCause.NetworkAggregate => False | _ => True end.
End ClockOp.

(** What an operation does to the state once it is settled. *)
Definition clock_action (op : ClockOp.t) (self : SetupState.t) : SetupState.t :=
  match op with
  | ClockOp.DeadlineAfter milliseconds => (deadline_after milliseconds self).2
  | ClockOp.Remaining => (remaining self).2
  | ClockOp.Observe => (observe self).2
  | ClockOp.Terminate cause => (terminate cause self).2
  | ClockOp.TerminateIfAlive cause => (terminate_if_alive cause self).2
  | ClockOp.RegisterDriver waker => (register_driver waker self).2
  | ClockOp.PendingReceipt => (pending_receipt self).2
  | ClockOp.Acknowledge receipt => (acknowledge receipt self).2
  | ClockOp.PollAcknowledged receipt waker => (poll_acknowledged receipt waker self).2
  | ClockOp.AdmitCompleted => (admit_completed self).2
  | ClockOp.PrepareLocal kind until => (prepare_local kind until self).2
  | ClockOp.PublishLocal matching_clock connection token => (publish_local matching_clock connection token self).2
  | ClockOp.DropPrepared token => (drop_prepared token self).2
  | ClockOp.PublishNetwork => (publish_network self).2
  | ClockOp.BeginNetworkWait => (begin_network_wait self).2
  | ClockOp.NetworkProgress => (network_progress self).2
  | ClockOp.BeginLocalWait milliseconds => (begin_local_wait milliseconds self).2
  | ClockOp.EndLocalWait => (end_local_wait self).2
  end.

Definition clock_step (reading : Z) (op : ClockOp.t) (self : SetupState.t) : SetupState.t :=
  (change reading (fun s => (tt, clock_action op s)) self).2.

(** A run, with the time spent alive in local phases beside the clock. *)
Definition local_time (self self' : SetupState.t) : Z :=
  if is_some self.(local) && is_none self.(terminal) then self'.(now) - self.(now) else 0.

Fixpoint clock_run (calls : list (Z * ClockOp.t)) (self : SetupState.t) (spent : Z) : SetupState.t * Z :=
  match calls with
  | [] => (self, spent)
  | (reading, op) :: calls =>
      let self' := clock_step reading op self in clock_run calls self' (spent + local_time self self')
  end.

(** ** The first end wins *)

Lemma finish_terminal cause phase self :
  (finish cause phase self).(terminal)
  = Some (match self.(terminal) with Some r => r | None => SetupTerminal.mk self.(connection) phase cause end).
Proof. unfold finish. destruct self as [c n s p l lu ag st sm sl ack [r|] d w wk rt]; [done|]. by destruct w, d. Qed.

Lemma finish_keeps cause phase self : let self' := finish cause phase self in
  self'.(now) = self.(now) /\ self'.(local) = self.(local) /\ self'.(aggregate) = self.(aggregate)
  /\ self'.(local_until) = self.(local_until) /\ self'.(stall) = self.(stall).
Proof. unfold finish. destruct self as [c n s p l lu ag st sm sl ack [r|] d w wk rt]; [done|]. by destruct w, d. Qed.

Lemma settle_ended self : is_some self.(terminal) = true -> settle self = self.
Proof. unfold settle. by intros ->. Qed.

Lemma action_ended op self r : self.(terminal) = Some r -> (clock_action op self).(terminal) = Some r.
Proof.
  intros H. destruct op; cbn [clock_action]; unfold deadline_after, remaining, observe, terminate, terminate_if_alive,
    register_driver, pending_receipt, acknowledge, poll_acknowledged, admit_completed, prepare_local, publish_local,
    drop_prepared, publish_network, begin_network_wait, network_progress, begin_local_wait, end_local_wait, alive;
    rewrite ?H; cbn [snd is_some]; try done.
  - by rewrite finish_terminal, H.
  - by destruct (is_some_and _ _).
Qed.

Lemma step_ended reading op self r : self.(terminal) = Some r -> (clock_step reading op self).(terminal) = Some r.
Proof.
  intros H. unfold clock_step, change. rewrite settle_ended by (cbn; by rewrite H). cbn. by apply action_ended.
Qed.

(** How a setup ends is decided once: whatever is called afterwards, by whichever holder of the
    clock and at whatever time, the recorded end stays the same. *)
Theorem setup_end_is_final calls self spent r : self.(terminal) = Some r ->
  (clock_run calls self spent).1.(terminal) = Some r.
Proof.
  revert self spent. induction calls as [|[reading op] calls IH]; intros self spent H; cbn [clock_run]; [done|].
  apply IH. by apply step_ended.
Qed.

(** ** The network budget *)

(** A clock created with a network deadline at [budget], after [spent] time in local phases. *)
Record on_budget (budget spent : Z) (self : SetupState.t) : Prop := {
  ob_now : 0 <= self.(now) <= U64_MAX;
  ob_spent : 0 <= spent <= self.(now);
  ob_alive : self.(terminal) = None ->
    match self.(local) with
    | None => self.(aggregate) = Timer.Live (budget + spent) /\ self.(now) < budget + spent <= U64_MAX
        /\ match self.(stall) with Timer.Live u => self.(now) < u <= U64_MAX | _ => True end
    | Some _ => self.(aggregate) = Timer.Live (budget + spent - self.(now)) /\ 0 < budget + spent - self.(now) <= U64_MAX
        /\ match self.(stall) with Timer.Live u => 0 < u <= U64_MAX | _ => True end
    end;
  ob_stall : 0 <= self.(stall_ms) <= U64_MAX /\ (self.(stall) = Timer.Inactive -> self.(stall_ms) <> 0);
  ob_ended : forall r, self.(terminal) = Some r -> r.(SetupTerminal.cause) = SetupCause.NetworkAggregate ->
    budget + spent <= self.(now);
}.

(** Only time, timers, the local phase, the end and the stall setting matter. *)
Lemma on_budget_same budget spent self self' : on_budget budget spent self ->
  self'.(now) = self.(now) -> self'.(local) = self.(local) -> self'.(aggregate) = self.(aggregate) ->
  self'.(stall) = self.(stall) -> self'.(stall_ms) = self.(stall_ms) -> self'.(terminal) = self.(terminal) ->
  on_budget budget spent self'.
Proof. intros [H1 H2 H3 H4 H5] E1 E2 E3 E4 E5 E6. constructor; rewrite ?E1, ?E2, ?E3, ?E4, ?E5, ?E6; done. Qed.

Lemma finish_stall_ms cause phase self : (finish cause phase self).(stall_ms) = self.(stall_ms).
Proof. unfold finish. destruct self as [c n s p l lu ag st sm sl ack [r|] d w wk rt]; [done|]. by destruct w, d. Qed.

(** Ending it, for a reason that is true. *)
Lemma on_budget_finish budget spent cause phase self : on_budget budget spent self ->
  (cause = SetupCause.NetworkAggregate -> budget + spent <= self.(now)) -> on_budget budget spent (finish cause phase self).
Proof.
  intros [H1 H2 H3 H4 H5] Hc. pose proof (finish_terminal cause phase self) as Ht.
  destruct (finish_keeps cause phase self) as (E1 & E2 & E3 & E4 & E6). pose proof (finish_stall_ms cause phase self) as E5.
  constructor; rewrite ?E1, ?E6, ?E5, ?Ht; try done. intros r [= <-]. destruct (terminal self) as [r|] eqn:Hr; [by apply H5|].
  cbn. exact Hc.
Qed.

Lemma due_Some self o u : due self o = Some u -> o = Some u /\ u <= self.(now).
Proof. unfold due, opt_filter. destruct o as [v|]; [|done]. destruct (Z.leb_spec v (now self)); intros [= <-]; done. Qed.

Lemma due_None self o : due self o = None -> match o with Some u => self.(now) < u | None => True end.
Proof. unfold due, opt_filter. destruct o as [v|]; [|done]. by destruct (Z.leb_spec v (now self)). Qed.

(** Time passes, and what is due ends the setup. *)
Lemma on_budget_settle budget spent reading self : on_budget budget spent self -> reading <= U64_MAX ->
  let self' := settle (self <| now := Z.max reading self.(now) |>) in
  on_budget budget (spent + local_time self self') self' /\ self'.(now) = Z.max reading self.(now).
Proof.
  intros H Hr. set (self1 := self <| now := Z.max reading (now self) |>). cbn zeta.
  assert (Hnow : (settle self1).(now) = self1.(now)).
  { unfold settle. destruct (is_some _); [done|]. destruct (overdue self1) as [c|].
    - destruct (finish_keeps c (phase self1) self1) as (E & _). rewrite <- E. by case_match; [case_match|].
    - by case_match; [case_match|]. }
  split; [|done]. unfold local_time. rewrite Hnow. cbn [now self1 over].
  destruct H as [H1 H2 H3 H4 H5]. destruct (terminal self) as [r|] eqn:Ht.
  { rewrite settle_ended by (cbn; by rewrite Ht). cbn. rewrite andb_false_r.
    constructor; cbn; try done; [lia | lia | congruence |]. intros r' Hr' Hc.
    assert (r' = r) as -> by congruence. specialize (H5 r eq_refl Hc). lia. }
  change (is_none None) with true. rewrite andb_true_r. specialize (H3 eq_refl).
  unfold settle. cbn [terminal self1 over]. rewrite Ht. cbn [is_some].
  assert (Hgoal : on_budget budget (spent + (if is_some (local self) then Z.max reading (now self) - now self else 0))
    (match overdue self1 with Some cause => finish cause (phase self1) self1 | None => self1 end)).
  { unfold overdue. cbn [local self1 over]. destruct (local self) as [ph|] eqn:Hl; cbn [is_some].
    - destruct H3 as (Ha & Hb & Hs).
      assert (Hob : on_budget budget (spent + (Z.max reading (now self) - now self)) self1).
      { constructor; cbn; try done; [lia|lia| |congruence]. intros _. rewrite Hl, Ha. split_and!; try lia; [f_equal; lia|done]. }
      destruct (due self1 (local_until self1)); cbn [option_map]; [|done]. apply on_budget_finish; [done|].
      by case_bool_decide.
    - destruct H3 as (Ha & Hb & Hs). rewrite Z.add_0_r.
      assert (Hfin : forall cause, (cause = SetupCause.NetworkAggregate -> budget + spent <= self1.(now)) ->
        on_budget budget spent (finish cause (phase self1) self1)).
      { intros cause Hc. pose proof (finish_terminal cause (phase self1) self1) as Hft.
        destruct (finish_keeps cause (phase self1) self1) as (E1 & _ & _ & _ & E6).
        pose proof (finish_stall_ms cause (phase self1) self1) as E5.
        constructor; rewrite ?E1, ?E6, ?E5, ?Hft; cbn [now self1 over stall stall_ms]; try done; [lia|lia|].
        intros r [= <-]. cbn [terminal self1 over]. rewrite Ht. cbn. intros ->. by apply Hc. }
      destruct (due self1 (Timer.deadline (aggregate self1))) as [a|] eqn:Hda.
      + apply due_Some in Hda as [Hda Hle]. cbn [aggregate self1 over] in Hda. rewrite Ha in Hda. injection Hda as <-.
        destruct (due self1 (Timer.deadline (stall self1))); [destruct (_ <? _)|]; by apply Hfin.
      + destruct (due self1 (Timer.deadline (stall self1))) eqn:Hds; [by apply Hfin|].
        apply due_None in Hda, Hds. cbn [aggregate stall self1 over] in Hda, Hds. rewrite Ha in Hda. cbn in Hda.
        constructor; cbn [now local terminal aggregate stall stall_ms self1 over]; try done; [lia|lia| |congruence].
        intros _. rewrite Hl, Ha. split_and!; try done; try lia. destruct (stall self); cbn in Hds |- *; try done. lia. }
  destruct (slot _) as [[]|]; [|exact Hgoal..]. eapply on_budget_same; [exact Hgoal|done..].
Qed.

Lemma on_budget_pause budget spent self l u : on_budget budget spent self -> self.(terminal) = None ->
  self.(local) = None ->
  on_budget budget spent (self <| aggregate := Timer.pause self.(now) self.(aggregate) |>
    <| stall := Timer.pause self.(now) self.(stall) |> <| local := Some l |> <| local_until := u |>).
Proof.
  intros [H1 H2 H3 H4 H5] Ht Hl. specialize (H3 Ht). rewrite Hl in H3. destruct H3 as (Ha & Hb & Hs).
  constructor; cbn; try done; [|]; [intros _|].
  - rewrite Ha. cbn. rewrite as_u64_id by lia. split_and!; try done; try lia.
    destruct (stall self) as [| |v]; cbn; try done. rewrite as_u64_id by lia. lia.
  - split; [apply H4|]. intros Hi. apply H4. by destruct (stall self).
Qed.

Lemma on_budget_resume budget spent self self' : on_budget budget spent self -> self.(terminal) = None ->
  is_some self.(local) = true -> resume_timers self = Ok self' -> on_budget budget spent self'.
Proof.
  intros [H1 H2 H3 H4 H5] Ht Hl Hr. specialize (H3 Ht). destruct (local self) as [ph|]; [|done].
  destruct H3 as (Ha & Hb & Hs). unfold resume_timers in Hr. rewrite Ha in Hr. cbn [Timer.resume] in Hr.
  destruct (checked_add_u64 (now self) _) as [v|] eqn:Hv; [|done]. cbn [ok_or] in Hr.
  apply checked_add_u64_Some in Hv as [-> Hv].
  destruct (Timer.resume (now self) (stall self)) as [st|] eqn:Hst; [|done]. injection Hr as <-.
  constructor; cbn; try done; [|]; [intros _|].
  - split_and!; [f_equal; lia|lia|lia|]. destruct (stall self) as [| |w]; cbn in Hst; [by injection Hst as <-..|].
    destruct (checked_add_u64 (now self) w) as [x|] eqn:Hx; [|done]. injection Hst as <-.
    apply checked_add_u64_Some in Hx as [-> Hx]. lia.
  - split; [apply H4|]. intros ->. apply H4. destruct (stall self) as [| |w]; cbn in Hst; [done|done|].
    by destruct (checked_add_u64 (now self) w).
Qed.

Lemma on_budget_stall budget spent self u : on_budget budget spent self -> self.(terminal) = None ->
  self.(local) = None -> self.(now) < u <= U64_MAX -> on_budget budget spent (self <| stall := Timer.Live u |>).
Proof.
  intros [H1 H2 H3 H4 H5] Ht Hl Hu. specialize (H3 Ht). rewrite Hl in H3. destruct H3 as (Ha & Hb & Hs).
  constructor; cbn; try done; [intros _; by rewrite Hl|]. split; [apply H4|done].
Qed.

Lemma alive_None self : alive self = Ok tt -> self.(terminal) = None.
Proof. unfold alive. by destruct (terminal self). Qed.

Lemma notify_same self : exists w, notify_driver self = self <| wakes := w |>.
Proof. unfold notify_driver. destruct (driver self); eexists; [reflexivity|]. instantiate (1 := wakes self). by destruct self. Qed.

Lemma on_budget_action budget spent op self : on_budget budget spent self -> ClockOp.honest op ->
  on_budget budget spent (clock_action op self).
Proof.
  intros H Hh.
  assert (Hsame : forall self', self'.(now) = self.(now) -> self'.(local) = self.(local) ->
    self'.(aggregate) = self.(aggregate) -> self'.(stall) = self.(stall) -> self'.(stall_ms) = self.(stall_ms) ->
    self'.(terminal) = self.(terminal) -> on_budget budget spent self').
  { intros self'. by apply on_budget_same. }
  assert (Hfin : forall cause p, cause <> SetupCause.NetworkAggregate -> on_budget budget spent (finish cause p self)).
  { intros cause p Hc. by apply on_budget_finish. }
  destruct op; cbn [clock_action]; try done;
    unfold deadline_after, terminate, terminate_if_alive, register_driver, acknowledge, poll_acknowledged, admit_completed,
      prepare_local, publish_local, drop_prepared, publish_network, begin_network_wait, network_progress, begin_local_wait,
      end_local_wait.
  all: try (destruct (alive self) as [[]|] eqn:Hal; [apply alive_None in Hal|done]).
  - by destruct (ok_or _ _).
  - apply Hfin. by intros ->.
  - destruct (terminal self); [done|]. apply Hfin. by intros ->.
  - destruct (is_some (terminal self)); [by apply Hsame|]. destruct (driver self); by apply Hsame.
  - destruct (_ || _); [done|]. cbn. destruct (waiter self); by apply Hsame.
  - destruct (_ || _); [done|]. destruct (acknowledged self); [done|]. destruct (waiter self); by apply Hsame.
  - destruct (_ || _); [done|]. by apply Hfin.
  - destruct (is_some _); [done|]. unfold issue. destruct (ok_or _ _); [|done]. by apply Hsame.
  - destruct (_ || _); [done|]. destruct (slot self) as [[p k u e|]|]; [|done..]. destruct (negb _); [done|].
    destruct (_ || _); [by apply Hfin|]. cbn [snd].
    match goal with |- on_budget _ _ (notify_driver ?x) => destruct (notify_same x) as [w ->] end.
    destruct (local self) as [ph|] eqn:Hl; cbn [is_none is_some negb].
    + destruct H as [H1 H2 H3 H4 H5]. specialize (H3 Hal). rewrite Hl in H3. by constructor.
    + eapply on_budget_same; [exact (on_budget_pause budget spent self k (Some u) H Hal Hl)|done..].
  - by destruct (is_some_and _ _); [apply Hsame|].
  - destruct (_ || _) eqn:Hg; [done|]. apply orb_false_iff in Hg as [_ Hl]. apply negb_false_iff in Hl.
    unfold issue. destruct (ok_or _ _) as [p|]; [|done].
    destruct (resume_timers _) as [self'|] eqn:Hr; [|by apply Hsame].
    eapply on_budget_resume in Hr; [|by apply Hsame|done|done]. cbn [snd].
    match goal with |- on_budget _ _ (notify_driver ?x) => destruct (notify_same x) as [w ->] end.
    eapply on_budget_same; [exact Hr|done..].
  - destruct (local self) eqn:Hl; [done|]. cbn [is_some]. destruct (stall self) eqn:Hst; try done.
    destruct (checked_add_u64 _ _) as [u|] eqn:Hu; [|done]. apply checked_add_u64_Some in Hu as [-> Hu]. cbn [ok_or snd].
    destruct (ob_stall _ _ _ H) as [H4 H5]. specialize (H5 Hst). apply on_budget_stall; try done. lia.
  - destruct (local self) eqn:Hl; [done|]. cbn [is_some]. destruct (Z.eqb_spec (stall_ms self) 0); [done|]. cbn [negb].
    destruct (checked_add_u64 _ _) as [u|] eqn:Hu; [|done]. apply checked_add_u64_Some in Hu as [-> Hu]. cbn [ok_or snd].
    destruct (ob_stall _ _ _ H) as [H4 H5]. apply on_budget_stall; try done. lia.
  - case_bool_decide; [done|]. destruct (local self) eqn:Hl; [done|]. cbn [is_some orb]. destruct (is_some _); [done|].
    destruct (ok_or _ _); [|done]. by apply on_budget_pause.
  - case_bool_decide as Hl; [|done]. cbn [negb]. destruct (resume_timers self) as [self'|] eqn:Hr; [|done].
    eapply on_budget_resume; [exact H|done|by rewrite Hl|done].
Qed.

Lemma action_now op self : (clock_action op self).(now) = self.(now).
Proof.
  destruct op; cbn [clock_action]; try done;
    unfold deadline_after, terminate, terminate_if_alive, register_driver, acknowledge, poll_acknowledged, admit_completed,
      prepare_local, publish_local, drop_prepared, publish_network, begin_network_wait, network_progress, begin_local_wait,
      end_local_wait, issue, resume_timers, terminate, notify_driver;
    repeat (case_match; try done); cbn; try apply finish_keeps; try done; simplify_eq; cbn; try done.
Qed.

Lemma on_budget_step budget spent reading op self : on_budget budget spent self -> reading <= U64_MAX ->
  ClockOp.honest op -> on_budget budget (spent + local_time self (clock_step reading op self)) (clock_step reading op self).
Proof.
  intros H Hr Hh. destruct (on_budget_settle budget spent reading self H Hr) as [Hs Hn]. unfold clock_step, change.
  set (s1 := settle _) in *. cbn [snd]. pose proof (on_budget_action _ _ op s1 Hs Hh) as Ha.
  assert (Hlt : local_time self (clock_action op s1) = local_time self s1) by (unfold local_time; by rewrite action_now).
  rewrite <- Hlt in Ha. eapply on_budget_same; [exact Ha|done..].
Qed.

(** The network budget of a setup is exact: however its phases interleave, while the clock is alive
    in a network phase its deadline is the one it was created with, moved by precisely the time spent
    in local phases, and has not passed; in a local phase the whole remainder is kept; and a network
    timeout is never declared before that deadline. *)
Theorem network_budget_exact connection budget stall_ms calls self spent :
  0 < budget <= U64_MAX -> 0 <= stall_ms <= U64_MAX ->
  Forall (fun c => c.1 <= U64_MAX /\ ClockOp.honest c.2) calls ->
  clock_run calls (SetupState.new connection (Some budget) stall_ms) 0 = (self, spent) ->
  0 <= spent
  /\ (self.(terminal) = None -> self.(local) = None ->
      self.(aggregate) = Timer.Live (budget + spent) /\ self.(now) < budget + spent)
  /\ (self.(terminal) = None -> is_Some self.(local) ->
      self.(aggregate) = Timer.Live (budget + spent - self.(now)) /\ 0 < budget + spent - self.(now))
  /\ (forall r, self.(terminal) = Some r -> r.(SetupTerminal.cause) = SetupCause.NetworkAggregate ->
      budget + spent <= self.(now)).
Proof.
  intros Hb Hs Hc Hrun.
  assert (Hgen : forall s sp, on_budget budget sp s -> on_budget budget (clock_run calls s sp).2 (clock_run calls s sp).1).
  { clear Hrun. induction Hc as [|[reading op] calls [Hr Hh] Hc IH]; intros s sp H; cbn [clock_run]; [done|].
    apply IH. by apply on_budget_step. }
  specialize (Hgen (SetupState.new connection (Some budget) stall_ms) 0). rewrite Hrun in Hgen. cbn [fst snd] in Hgen.
  destruct Hgen as [H1 H2 H3 H4 H5].
  { constructor; cbn; try done.
    - intros _. rewrite Z.add_0_r. split_and!; try done; try lia. by destruct (stall_ms =? 0).
    - split; [lia|]. destruct (Z.eqb_spec stall_ms 0); [done|]. done. }
  split_and!; [lia| | |done].
  - intros Ht Hl. specialize (H3 Ht). rewrite Hl in H3. destruct H3 as (-> & Ha & _). split; [done|lia].
  - intros Ht [ph Hl]. specialize (H3 Ht). rewrite Hl in H3. destruct H3 as (-> & Ha & _). split; [done|lia].
Qed.

(** ** A setup with an interaction of 30 ms *)

Definition sample_connection : ConnectionId.t := ConnectionId.mk 1 1.
Definition sample_calls : list (Z * ClockOp.t) :=
  [(10, ClockOp.PrepareLocal LocalPhase.Interaction 60); (20, ClockOp.PublishLocal true sample_connection 1);
   (25, ClockOp.Acknowledge (SetupReceipt.mk sample_connection 1)); (50, ClockOp.PublishNetwork); (60, ClockOp.Observe)].
Definition sample_clock : SetupState.t := SetupState.new sample_connection (Some 100) 0.

Lemma network_budget_exact_witness :
  (clock_run sample_calls sample_clock 0).2 = 30
  /\ (clock_run sample_calls sample_clock 0).1.(aggregate) = Timer.Live (100 + 30).
Proof.
  split; [vm_compute; reflexivity|].
  apply (network_budget_exact sample_connection 100 0 sample_calls (clock_run sample_calls sample_clock 0).1 30).
  - lia.
  - lia.
  - repeat constructor; cbn; lia.
  - vm_compute. reflexivity.
  - vm_compute. reflexivity.
  - vm_compute. reflexivity.
Defined.

Lemma setup_end_is_final_witness :
  (clock_run sample_calls (terminate SetupCause.Cancelled sample_clock).2 0).1.(terminal)
  = Some (SetupTerminal.mk sample_connection 0 SetupCause.Cancelled).
Proof. apply setup_end_is_final. vm_compute. reflexivity. Defined.
