(* ===== verification/Pool.v ===== *)
(** * The connection pool (src/src/pool/machine.rs and its sibling files)

    The deterministic pool machine: requests wait, are leased an idle
    connection or have one opened; entries are opening, idle, leased or
    closing; a slot is freed only when the host acknowledges disposal.
    A [&mut self] method returns the new machine beside its result; where the
    code would panic ([expect], an index, [unreachable!]), the model records it
    in [panicked] and goes on with the machine as it is. *)
From S2P Require Import Prelude Utf8 Cbor Protocol Validate Binding PoolTypes SetupClock.

Module RequestState.
Inductive t :=
| Waiting
| Opening (connection : ConnectionId.t)
| Ready (lease : LeaseId.t)
| Failed (error : PoolError.t).
#[global] Instance eq_dec : EqDecision t.
Proof. solve_decision. Defined.
Definition waiting (self : t) : bool := match self with Waiting => true | _ => false end.
End RequestState.

Module Pending.
Record t := mk {
  request : PoolRequest.t;
  deadline : Z;
  absolute_deadline : option Z;
  state : RequestState.t;
  eviction : option ConnectionId.t;
  prefer_wait : option (LeaseId.t * Z);
}.
#[global] Instance eta : Eta t :=
  fun r => mk (r.(request)) (r.(deadline)) (r.(absolute_deadline)) (r.(state)) (r.(eviction)) (r.(prefer_wait)).
End Pending.

Module Cleanup.
Record t := mk {
  deadline : Z;
  sent : bool;
  aborted : bool;
}.
#[global] Instance eta : Eta t := fun r => mk (r.(deadline)) (r.(sent)) (r.(aborted)).
Definition new (deadline : Z) : t := mk deadline false false.
End Cleanup.

Module ConnectClock.
Inductive t :=
| Network (until : option Z)
| Interaction (until : Z) (remaining : option Z)
| LocalWait (until : Z) (remaining : option Z)
| Shared (clock : Z).
End ConnectClock.

Module EntryState.
Inductive t :=
| Opening (request : option RequestId.t) (clock : option ConnectClock.t) (network_ms interaction_ms : Z)
    (cancel : option Cleanup.t)
| Idle (since : Z)
| Leased (lease : LeaseId.t) (request : option RequestId.t)
| Closing (reason : CloseReason.t) (cleanup : Cleanup.t).

Definition is_opening (self : t) : bool := match self with Opening _ _ _ _ _ => true | _ => false end.
Definition is_idle (self : t) : bool := match self with Idle _ => true | _ => false end.
Definition is_leased (self : t) : bool := match self with Leased _ _ => true | _ => false end.
Definition is_closing (self : t) : bool := match self with Closing _ _ => true | _ => false end.
(** The request an opening entry is for. *)
Definition opening_request (self : t) : option RequestId.t :=
  match self with Opening request _ _ _ _ => request | _ => None end.
End EntryState.

Module Entry.
Record t := mk {
  key : Key.t;
  identity : PoolIdentity.t;
  reusable : bool;
  owner : option Owner.t;
  state : EntryState.t;
  idle_since : option Z;
  born : Z;
}.
#[global] Instance eta : Eta t :=
  fun r => mk (r.(key)) (r.(identity)) (r.(reusable)) (r.(owner)) (r.(state)) (r.(idle_since)) (r.(born)).
End Entry.

Definition aged (now born max_age_ms : Z) : bool := saturating_add_u64 born max_age_ms <=? now.

Module Hold.
Record t := mk {
  key : Key.t;
  expires : Z;
  evictor : option RequestId.t;
}.
End Hold.

Module PoolMachine.
Record t := mk {
  config : PoolConfig.t;
  pool_id : Z;
  now : Z;
  request_serial : Z;
  connection_serial : Z;
  lease_serial : Z;
  requests : gmap RequestId.t Pending.t;
  entries : gmap ConnectionId.t Entry.t;
  limits : list (Site.t * Z);
  settles : list (Site.t * Z);
  no_evicts : list Site.t;
  holds : gmap ConnectionId.t Hold.t;
  stopped : bool;
  driver_lost : bool;
  revision : Z;
  clock_wakes : list Z;
  clock_retired : list Z;
  clocks : Clocks.t;
  panicked : bool;
}.
#[global] Instance eta : Eta t :=
  fun r => mk (r.(config)) (r.(pool_id)) (r.(now)) (r.(request_serial)) (r.(connection_serial)) (r.(lease_serial))
    (r.(requests)) (r.(entries)) (r.(limits)) (r.(settles)) (r.(no_evicts)) (r.(holds)) (r.(stopped)) (r.(driver_lost))
    (r.(revision)) (r.(clock_wakes)) (r.(clock_retired)) (r.(clocks)) (r.(panicked)).

(** [NEXT_POOL] is the process-wide counter the ids come from. *)
Definition new (next_pool : Z) (config : PoolConfig.t) : result t PoolError.t * Z :=
  try _ := PoolConfig.validate config at next_pool in
  try following := ok_or (checked_add_u64 next_pool 1) PoolError.Capacity at next_pool in
  (Ok (mk config next_pool 0 0 0 0 ∅ ∅ [] [] [] ∅ false false 0 [] [] Clocks.empty false), following).

Definition panic (self : t) : t := self <| panicked := true |>.
Definition touch (self : t) : t := self <| revision := wrapping_add_u64 self.(revision) 1 |>.

(** [get_mut(..).expect(..)] followed by an assignment. *)
Definition set_request (id : RequestId.t) (f : Pending.t -> Pending.t) (self : t) : t :=
  match self.(requests) !! id with
  | Some pending => self <| requests := <[id := f pending]> self.(requests) |>
  | None => panic self
  end.
Definition set_entry (id : ConnectionId.t) (f : Entry.t -> Entry.t) (self : t) : t :=
  match self.(entries) !! id with
  | Some entry => self <| entries := <[id := f entry]> self.(entries) |>
  | None => panic self
  end.
Definition fail_with (error : PoolError.t) (pending : Pending.t) : Pending.t :=
  pending <| Pending.state := RequestState.Failed error |>.

(** ** Capacity *)

Definition capacity (self : t) : Capacity.t := PoolConfig.capacity self.(config).
Definition limits_of (request : PoolRequest.t) (self : t) : Capacity.t :=
  unwrap_or request.(PoolRequest.limits) (capacity self).

Definition owned_where (session : string) (matches : Entry.t -> bool) (self : t) : Z :=
  len (keep (fun entry =>
    (EntryState.is_opening entry.(Entry.state) || EntryState.is_leased entry.(Entry.state))
    && is_some_and entry.(Entry.owner) (fun owner => bool_decide (owner.(Owner.session) = session))
    && matches entry) (values self.(entries))).

Definition owner_full (request : PoolRequest.t) (self : t) : bool :=
  let limits := limits_of request self in
  let session := request.(PoolRequest.owner).(Owner.session) in
  let key := request.(PoolRequest.key) in
  (limits.(Capacity.total) <=? owned_where session (fun _ => true) self)
  || (limits.(Capacity.per_host)
        <=? owned_where session (fun entry => bool_decide (entry.(Entry.key).(Key.host) = key.(Key.host))) self)
  || (limits.(Capacity.per_user_host)
        <=? owned_where session (fun entry => Key.same_user_host entry.(Entry.key) key) self).

Definition ceilings_for (request : PoolRequest.t) (self : t) : Capacity.t :=
  let limits := limits_of request self in
  Capacity.mk (Z.max self.(config).(PoolConfig.per_user_host) limits.(Capacity.per_user_host))
    (Z.max self.(config).(PoolConfig.per_host) limits.(Capacity.per_host))
    (Z.max self.(config).(PoolConfig.total) limits.(Capacity.total))
    (Z.max self.(config).(PoolConfig.max_requests) limits.(Capacity.max_requests)).

Definition count_state (state : EntryState.t) (counts : Counts.t) : Counts.t :=
  match state with
  | EntryState.Opening _ _ _ _ _ => counts <| Counts.opening := counts.(Counts.opening) + 1 |>
  | EntryState.Idle _ => counts <| Counts.idle := counts.(Counts.idle) + 1 |>
  | EntryState.Leased _ _ => counts <| Counts.leased := counts.(Counts.leased) + 1 |>
  | EntryState.Closing _ _ => counts <| Counts.closing := counts.(Counts.closing) + 1 |>
  end.
Definition count_where (predicate : Entry.t -> bool) (self : t) : Counts.t :=
  foldl (fun counts entry => count_state entry.(Entry.state) counts) Counts.default (keep predicate (values self.(entries))).

Definition counts (self : t) : Counts.t := count_where (fun _ => true) self.
Definition counts_for_host (host : string) (self : t) : Counts.t :=
  count_where (fun entry => bool_decide (entry.(Entry.key).(Key.host) = host)) self.
Definition counts_for_key (key : Key.t) (self : t) : Counts.t :=
  count_where (fun entry => bool_decide (entry.(Entry.key) = key)) self.
Definition counts_for_user_host (key : Key.t) (self : t) : Counts.t :=
  count_where (fun entry => Key.same_user_host entry.(Entry.key) key) self.

Definition is_live (lease : LeaseId.t) (self : t) : bool :=
  is_some_and (self.(entries) !! lease.(LeaseId.connection)) (fun entry =>
    match entry.(Entry.state) with EntryState.Leased live _ => bool_decide (live = lease) | _ => false end).
Definition outstanding_requests (self : t) : Z := Z.of_nat (size self.(requests)).
Definition shutdown_complete (self : t) : bool := self.(stopped) && bool_decide (self.(entries) = ∅).

Definition lease_id (connection : ConnectionId.t) (self : t) : result LeaseId.t PoolError.t * t :=
  try serial := ok_or (checked_add_u64 self.(lease_serial) 1) PoolError.Capacity at self in
  (Ok (LeaseId.mk connection serial), self <| lease_serial := serial |>).

(** *** Totals (limit.rs) *)

Definition holds_where (p : Hold.t -> bool) (self : t) : Z := len (keep p (values self.(holds))).
Definition settling (site : Site.t) (self : t) : Z := holds_where (fun hold => Key.on_site hold.(Hold.key) site) self.
Definition site_total (site : Site.t) (self : t) : Z :=
  Counts.total (count_where (fun entry => Key.on_site entry.(Entry.key) site) self) + settling site self.
Definition site_full (key : Key.t) (self : t) : bool :=
  is_some_and (hd_error (keep (fun e : Site.t * Z => Key.on_site key e.1) self.(limits)))
    (fun e => e.2 <=? site_total e.1 self).
Definition host_total (host : string) (self : t) : Z :=
  Counts.total (counts_for_host host self)
  + holds_where (fun hold => bool_decide (hold.(Hold.key).(Key.host) = host)) self.
Definition user_host_total (key : Key.t) (self : t) : Z :=
  Counts.total (counts_for_user_host key self) + holds_where (fun hold => Key.same_user_host hold.(Hold.key) key) self.

(** ** Allocation (allocation.rs) *)

Definition compatible (request : PoolRequest.t) (connection : ConnectionId.t) (entry : Entry.t) : bool :=
  bool_decide (entry.(Entry.key) = request.(PoolRequest.key)) && entry.(Entry.reusable)
  && bool_decide (entry.(Entry.identity) = request.(PoolRequest.identity))
  && negb (contains connection request.(PoolRequest.exclude)).

Definition prefer_waits (id : RequestId.t) (self : t) : bool :=
  match self.(requests) !! id with
  | None => false
  | Some pending =>
      let request := pending.(Pending.request) in
      match request.(PoolRequest.prefer), pending.(Pending.prefer_wait) with
      | Some connection, Some (finishing, until) =>
          negb request.(PoolRequest.fresh) && (self.(now) <? until)
          && is_some_and (self.(entries) !! connection) (fun entry =>
               match entry.(Entry.state) with
               | EntryState.Leased lease _ => bool_decide (lease = finishing)
               | _ => false
               end && compatible request connection entry)
      | _, _ => false
      end
  end.

Definition start_closing (connection : ConnectionId.t) (reason : CloseReason.t) (self : t) : t :=
  match self.(entries) !! connection with
  | None => panic self
  | Some entry =>
      if EntryState.is_closing entry.(Entry.state) then self
      else
        let deadline := match entry.(Entry.state) with
                        | EntryState.Opening _ _ _ _ (Some cleanup) => cleanup.(Cleanup.deadline)
                        | _ => saturating_add_u64 self.(now) self.(config).(PoolConfig.cleanup_timeout_ms)
                        end in
        touch (self <| entries := <[connection := entry <| Entry.owner := None |>
                 <| Entry.state := EntryState.Closing reason (Cleanup.new deadline) |>]> self.(entries) |>)
  end.

Definition idle_for (request : PoolRequest.t) (connection : ConnectionId.t) (entry : Entry.t) : bool :=
  EntryState.is_idle entry.(Entry.state) && compatible request connection entry.

Definition leased_to (owner : Owner.t) (lease : LeaseId.t) (id : RequestId.t) (entry : Entry.t) : Entry.t :=
  let entry := entry <| Entry.owner := Some owner |> in
  let entry := match entry.(Entry.state) with
               | EntryState.Idle since => entry <| Entry.idle_since := Some since |>
               | _ => entry
               end in
  entry <| Entry.state := EntryState.Leased lease (Some id) |>.

(** The first loop of [schedule]: an idle connection for a waiting request. *)
Definition reuse_for (id : RequestId.t) (self : t) : t :=
  match self.(requests) !! id with
  | None => panic self
  | Some pending =>
      let request := pending.(Pending.request) in
      if request.(PoolRequest.fresh) || owner_full request self then self
      else
        let preferred := opt_filter request.(PoolRequest.prefer) (fun connection =>
          is_some_and (self.(entries) !! connection) (idle_for request connection)) in
        if is_none preferred && prefer_waits id self then self
        else
          let idle := match preferred with
                      | Some connection => Some connection
                      | None => option_map fst (hd_error (keep (fun e => idle_for request e.1 e.2) (Prelude.entries self.(entries))))
                      end in
          match idle with
          | None => self
          | Some connection =>
              touch (match lease_id connection self with
                     | (Ok lease, self) =>
                         let self := set_entry connection (leased_to request.(PoolRequest.owner) lease id) self in
                         set_request id (fun pending =>
                           pending <| Pending.state := RequestState.Ready lease |> <| Pending.eviction := None |>) self
                     | (Err error, self) => set_request id (fail_with error) self
                     end)
          end
  end.

Definition opening_entry (request : PoolRequest.t) (id : RequestId.t) (self : t) : Entry.t :=
  Entry.mk request.(PoolRequest.key) request.(PoolRequest.identity) false (Some request.(PoolRequest.owner))
    (EntryState.Opening (Some id) None
       (unwrap_or request.(PoolRequest.connect_timeout_ms) self.(config).(PoolConfig.connect_timeout_ms))
       (unwrap_or request.(PoolRequest.interaction_timeout_ms) self.(config).(PoolConfig.interaction_timeout_ms)) None)
    None self.(now).

Definition open_for (id : RequestId.t) (self : t) : t :=
  match self.(requests) !! id with
  | None => self
  | Some pending =>
      if negb (RequestState.waiting pending.(Pending.state)) || prefer_waits id self then self
      else
        let request := pending.(Pending.request) in
        let key := request.(PoolRequest.key) in
        let ceilings := ceilings_for request self in
        if owner_full request self || (ceilings.(Capacity.total) <=? Z.of_nat (size self.(entries)))
           || (ceilings.(Capacity.per_user_host) <=? user_host_total key self)
           || (ceilings.(Capacity.per_host) <=? host_total key.(Key.host) self)
           || site_full key self
        then self
        else
          match checked_add_u64 self.(connection_serial) 1 with
          | None => set_request id (fail_with PoolError.Capacity) self
          | Some serial =>
              let connection := ConnectionId.mk self.(pool_id) serial in
              let entry := opening_entry request id self in
              let self := self <| connection_serial := serial |>
                               <| entries := <[connection := entry]> self.(entries) |> in
              touch (set_request id (fun pending =>
                pending <| Pending.state := RequestState.Opening connection |> <| Pending.eviction := None |>) self)
          end
  end.

(** The least of a list under the order of pairs: [Iterator::min]. *)
Fixpoint min_stamp (l : list (Z * ConnectionId.t)) : option (Z * ConnectionId.t) :=
  match l with
  | [] => None
  | x :: l => Some (match min_stamp l with
                    | Some y => if bool_decide (stamp_le x y) then x else y
                    | None => x end)
  end.

Definition victim_for (key : Key.t) (ceilings : Capacity.t) (self : t) : option ConnectionId.t :=
  let user_host_full := ceilings.(Capacity.per_user_host) <=? user_host_total key self in
  let host_full := ceilings.(Capacity.per_host) <=? host_total key.(Key.host) self in
  let site_full := site_full key self in
  option_map snd (min_stamp (omap (fun e : ConnectionId.t * Entry.t =>
    match e.2.(Entry.state) with
    | EntryState.Idle since =>
        if (negb user_host_full || Key.same_user_host e.2.(Entry.key) key)
           && (negb host_full || bool_decide (e.2.(Entry.key).(Key.host) = key.(Key.host)))
           && (negb site_full || Key.same_site e.2.(Entry.key) key)
        then Some (since, e.1) else None
    | _ => None
    end) (Prelude.entries self.(entries)))).

(** The third loop: an idle connection is closed to make room. *)
Definition evict_for (id : RequestId.t) (self : t) : t :=
  match self.(requests) !! id with
  | None => panic self
  | Some pending =>
      let request := pending.(Pending.request) in
      let key := request.(PoolRequest.key) in
      if negb (RequestState.waiting pending.(Pending.state))
         || is_some_and pending.(Pending.eviction) (fun victim =>
              is_some (self.(entries) !! victim) || is_some (self.(holds) !! victim))
         || prefer_waits id self
      then self
      else if existsb (Key.on_site key) self.(no_evicts) then self
      else if owner_full request self then self
      else
        match victim_for key (ceilings_for request self) self with
        | Some connection =>
            set_request id (fun pending => pending <| Pending.eviction := Some connection |>)
              (start_closing connection CloseReason.Evicted self)
        | None => self
        end
  end.

Definition waiting_requests (self : t) : list RequestId.t :=
  map fst (keep (fun e : RequestId.t * Pending.t => RequestState.waiting e.2.(Pending.state)) (Prelude.entries self.(requests))).

(** [for id in ids { f(id) }]. *)
Definition for_ids {A} (ids : list A) (f : A -> t -> t) (self : t) : t := foldl (fun self id => f id self) self ids.

Definition schedule (self : t) : t :=
  if self.(stopped) then self
  else
    let waiting := waiting_requests self in
    for_ids waiting evict_for (for_ids waiting open_for (for_ids waiting reuse_for self)).

(** ** Requests (machine.rs) *)

Definition request_until (request : PoolRequest.t) (absolute_deadline : option Z) (self : t)
    : result RequestId.t PoolError.t * t :=
  if self.(driver_lost) then (Err PoolError.DriverLost, self)
  else if self.(stopped) then (Err PoolError.Shutdown, self)
  else if negb (PoolRequest.valid self.(config) request) then (Err PoolError.InvalidRequest, self)
  else if is_some_and absolute_deadline (fun deadline => deadline <=? self.(now))
  then (Err PoolError.AllocationTimeout, self)
  else if ((ceilings_for request self).(Capacity.max_requests) <=? Z.of_nat (size self.(requests)))
          || ((limits_of request self).(Capacity.max_requests)
                <=? len (keep (fun pending => bool_decide
                      (pending.(Pending.request).(PoolRequest.owner).(Owner.session)
                       = request.(PoolRequest.owner).(Owner.session))) (values self.(requests))))
  then (Err PoolError.Capacity, self)
  else
    try serial := ok_or (checked_add_u64 self.(request_serial) 1) PoolError.Capacity at self in
    let self := self <| request_serial := serial |> in
    let id := RequestId.mk self.(pool_id) serial in
    let allocation_deadline := saturating_add_u64 self.(now)
      (unwrap_or request.(PoolRequest.allocation_timeout_ms) self.(config).(PoolConfig.allocation_timeout_ms)) in
    let deadline := match absolute_deadline with
                    | Some absolute => Z.min allocation_deadline absolute
                    | None => allocation_deadline end in
    let finishing := and_then request.(PoolRequest.prefer) (fun connection =>
      and_then (self.(entries) !! connection) (fun entry =>
        match entry.(Entry.state) with EntryState.Leased lease _ => Some lease | _ => None end)) in
    let prefer_wait := match finishing, request.(PoolRequest.prefer_wait_ms) with
                       | Some lease, Some wait => Some (lease, Z.min (saturating_add_u64 self.(now) wait) deadline)
                       | _, _ => None end in
    let self := self <| requests := <[id := Pending.mk request deadline absolute_deadline RequestState.Waiting None
                                            prefer_wait]> self.(requests) |> in
    (Ok id, touch (schedule self)).

Definition request (request : PoolRequest.t) (self : t) : result RequestId.t PoolError.t * t :=
  request_until request None self.

Definition take (id : RequestId.t) (self : t) : result LeaseId.t PoolError.t * t :=
  try pending := ok_or (self.(requests) !! id) PoolError.Stale at self in
  match pending.(Pending.state) with
  | RequestState.Ready lease =>
      let self := match self.(entries) !! lease.(LeaseId.connection) with
                  | Some entry =>
                      match entry.(Entry.state) with
                      | EntryState.Leased live _ =>
                          self <| entries := <[lease.(LeaseId.connection) :=
                            entry <| Entry.state := EntryState.Leased live None |>]> self.(entries) |>
                      | _ => self
                      end
                  | None => self
                  end in
      (Ok lease, touch (self <| requests := delete id self.(requests) |>))
  | RequestState.Failed error => (Err error, touch (self <| requests := delete id self.(requests) |>))
  | _ => (Err PoolError.WouldBlock, self)
  end.

(** ** Slots (limit.rs) *)

Definition cancelled_connect (connection : ConnectionId.t) (self : t) : bool :=
  is_some_and (self.(entries) !! connection) (fun entry =>
    match entry.(Entry.state) with EntryState.Opening _ _ _ _ (Some _) => true | _ => false end).

Definition dispose (connection : ConnectionId.t) (settle : bool) (self : t) : t :=
  match self.(entries) !! connection with
  | None => self
  | Some entry =>
      let self := self <| entries := delete connection self.(entries) |> in
      let milliseconds :=
        if settle && negb self.(stopped)
        then unwrap_or (option_map snd (hd_error (keep (fun e : Site.t * Z => Key.on_site entry.(Entry.key) e.1) self.(settles)))) 0
        else 0 in
      if milliseconds =? 0 then self
      else
        let evictor := option_map fst (hd_error (keep (fun e : RequestId.t * Pending.t =>
          RequestState.waiting e.2.(Pending.state) && bool_decide (e.2.(Pending.eviction) = Some connection))
          (Prelude.entries self.(requests)))) in
        self <| holds := <[connection := Hold.mk entry.(Entry.key) (saturating_add_u64 self.(now) milliseconds) evictor]>
                  self.(holds) |>
  end.

(** The holds whose time has come, in order of expiry. *)
Definition lapsed (self : t) : list (Z * ConnectionId.t) :=
  merge_sort stamp_le (map (fun e : ConnectionId.t * Hold.t => (e.2.(Hold.expires), e.1))
    (keep (fun e : ConnectionId.t * Hold.t => e.2.(Hold.expires) <=? self.(now)) (Prelude.entries self.(holds)))).

Definition lapse_holds (self : t) : t :=
  match lapsed self with
  | [] => self
  | due =>
      let '(evictors, self) := foldl (fun '(evictors, self) (e : Z * ConnectionId.t) =>
        match self.(holds) !! e.2 with
        | Some hold => (evictors ++ option_list hold.(Hold.evictor), self <| holds := delete e.2 self.(holds) |>)
        | None => (evictors, self)
        end) ([], self) due in
      touch (for_ids evictors (fun evictor self =>
        if is_some_and (self.(requests) !! evictor) (fun pending => RequestState.waiting pending.(Pending.state))
        then open_for evictor self else self) self)
  end.

Definition next_hold_expiry (self : t) : option Z := foldr (fun hold => opt_min (Some hold.(Hold.expires))) None (values self.(holds)).

Definition accepts_numbers (self : t) : result unit PoolError.t :=
  if self.(driver_lost) then Err PoolError.DriverLost
  else if self.(stopped) then Err PoolError.Shutdown else Ok tt.

(** Updating the first row of a site, or adding one. *)
Fixpoint set_row (site : Site.t) (value : Z) (rows : list (Site.t * Z)) : list (Site.t * Z) :=
  match rows with
  | [] => [(site, value)]
  | (known, current) :: rows =>
      if bool_decide (known = site) then (known, value) :: rows else (known, current) :: set_row site value rows
  end.

Definition set_limit (site : Site.t) (limit : Z) (self : t) : result unit PoolError.t * t :=
  try _ := accepts_numbers self at self in
  if negb (Site.valid site) || (limit =? 0) then (Err PoolError.InvalidRequest, self)
  else (Ok tt, touch (schedule (self <| limits := set_row site limit self.(limits) |>))).

Definition clear_limit (site : Site.t) (self : t) : t :=
  touch (schedule (self <| limits := keep (fun e => negb (bool_decide (e.1 = site))) self.(limits) |>)).

Definition limit (site : Site.t) (self : t) : option Z :=
  option_map snd (hd_error (keep (fun e : Site.t * Z => bool_decide (e.1 = site)) self.(limits))).

Definition set_settle (site : Site.t) (milliseconds : Z) (self : t) : result unit PoolError.t * t :=
  try _ := accepts_numbers self at self in
  if negb (Site.valid site) then (Err PoolError.InvalidRequest, self)
  else (Ok tt, self <| settles := set_row site milliseconds self.(settles) |>).

Definition settle (site : Site.t) (self : t) : Z :=
  unwrap_or (option_map snd (hd_error (keep (fun e : Site.t * Z => bool_decide (e.1 = site)) self.(settles)))) 0.

(** [Vec::swap_remove]: the last element takes the place of the removed one. *)
Definition swap_remove {A} (index : nat) (l : list A) : list A :=
  match reverse l with
  | [] => []
  | x :: rest =>
      let l' := reverse rest in
      if bool_decide (index = length l') then l' else <[index := x]> l'
  end.

Definition position {A} (p : A -> bool) (l : list A) : option nat :=
  option_map fst (hd_error (keep (fun e : nat * A => p e.2) (imap pair l))).

Definition set_no_evict (site : Site.t) (on : bool) (self : t) : result unit PoolError.t * t :=
  try _ := accepts_numbers self at self in
  if negb (Site.valid site) then (Err PoolError.InvalidRequest, self)
  else
    match on, position (fun known => bool_decide (known = site)) self.(no_evicts) with
    | true, None => (Ok tt, touch (schedule (self <| no_evicts := self.(no_evicts) ++ [site] |>)))
    | false, Some index => (Ok tt, touch (schedule (self <| no_evicts := swap_remove index self.(no_evicts) |>)))
    | _, _ => (Ok tt, self)
    end.

Definition no_evict (site : Site.t) (self : t) : bool := contains site self.(no_evicts).

(** The connections that satisfy a test, in order. *)
Definition entries_where (p : Entry.t -> bool) (self : t) : list ConnectionId.t :=
  map fst (keep (fun e : ConnectionId.t * Entry.t => p e.2) (Prelude.entries self.(entries))).

Definition close_all (ids : list ConnectionId.t) (reason : CloseReason.t) (self : t) : t :=
  for_ids ids (fun id => start_closing id reason) self.

Definition discard_idle (site : Site.t) (self : t) : Z * t :=
  let idle := entries_where (fun entry => EntryState.is_idle entry.(Entry.state) && Key.on_site entry.(Entry.key) site) self in
  (len idle, close_all idle CloseReason.Discarded self).

(** ** Lifecycle, without the setup clock (lifecycle.rs) *)

Definition scope_https (lease : LeaseId.t) (scope : string) (self : t) : result unit PoolError.t * t :=
  if negb (is_live lease self) then (Err PoolError.Stale, self)
  else
    try entry := ok_or (self.(entries) !! lease.(LeaseId.connection)) PoolError.Stale at self in
    let scoped := PoolIdentity.HttpsScoped scope in
    if negb (PoolIdentity.valid_for scoped entry.(Entry.key)) then (Err PoolError.InvalidRequest, self)
    else
      match entry.(Entry.identity) with
      | PoolIdentity.Https =>
          (Ok tt, touch (self <| entries := <[lease.(LeaseId.connection) := entry <| Entry.identity := scoped |>]> self.(entries) |>))
      | PoolIdentity.HttpsScoped existing =>
          if bool_decide (existing = scope) then (Ok tt, touch self) else (Err PoolError.WrongState, self)
      | _ => (Err PoolError.WrongState, self)
      end.

Definition retire_https_scope (scope : string) (self : t) : t :=
  let scoped := entries_where (fun entry => bool_decide (entry.(Entry.identity) = PoolIdentity.HttpsScoped scope)) self in
  schedule (close_all scoped CloseReason.Cancelled self).

Definition release_at (lease : LeaseId.t) (disposition : Disposition.t) (since : option Z) (self : t)
    : result unit PoolError.t * t :=
  if negb (is_live lease self) then (Err PoolError.Stale, self)
  else
    match self.(entries) !! lease.(LeaseId.connection) with
    | None => (Err PoolError.Stale, panic self)
    | Some entry =>
        if match entry.(Entry.state) with EntryState.Leased _ (Some _) => true | _ => false end
        then (Err PoolError.WrongState, self)
        else
          let outlived := aged self.(now) entry.(Entry.born) self.(config).(PoolConfig.max_age_ms) in
          let reusable' := bool_decide (disposition = Disposition.Reusable) in
          let self :=
            if reusable' && entry.(Entry.reusable) && negb outlived && negb self.(stopped) then
              self <| entries := <[lease.(LeaseId.connection) := entry <| Entry.owner := None |> <| Entry.idle_since := None |>
                <| Entry.state := EntryState.Idle (unwrap_or since self.(now)) |>]> self.(entries) |>
            else
              start_closing lease.(LeaseId.connection)
                (if negb entry.(Entry.reusable) then CloseReason.Unproven
                 else if outlived && reusable' then CloseReason.AgeExpired else CloseReason.Discarded) self in
          (Ok tt, touch (schedule self))
    end.

Definition release (lease : LeaseId.t) (disposition : Disposition.t) (self : t) : result unit PoolError.t * t :=
  release_at lease disposition None self.

Definition release_unused (lease : LeaseId.t) (self : t) : result unit PoolError.t * t :=
  release_at lease Disposition.Reusable
    (and_then (self.(entries) !! lease.(LeaseId.connection)) Entry.idle_since) self.

Definition closed (connection : ConnectionId.t) (self : t) : result unit PoolError.t * t :=
  try entry := ok_or (self.(entries) !! connection) PoolError.Stale at self in
  match entry.(Entry.state) with
  | EntryState.Closing _ cleanup =>
      if cleanup.(Cleanup.sent) || cleanup.(Cleanup.aborted)
      then (Ok tt, touch (schedule (dispose connection true self)))
      else (Err PoolError.WrongState, self)
  | _ => (Err PoolError.WrongState, self)
  end.

Definition idle_closed (connection : ConnectionId.t) (self : t) : result unit PoolError.t * t :=
  try entry := ok_or (self.(entries) !! connection) PoolError.Stale at self in
  if negb (EntryState.is_idle entry.(Entry.state) || EntryState.is_closing entry.(Entry.state))
  then (Err PoolError.WrongState, self)
  else (Ok tt, touch (schedule (self <| entries := delete connection self.(entries) |>))).

Definition expire_idle (self : t) : Z * t :=
  let idle := entries_where (fun entry => EntryState.is_idle entry.(Entry.state)) self in
  (len idle, schedule (close_all idle CloseReason.IdleExpired self)).

Definition is_closing (connection : ConnectionId.t) (self : t) : bool :=
  is_some_and (self.(entries) !! connection) (fun entry => EntryState.is_closing entry.(Entry.state)).

(** *** Actions *)

(** The cleanup command an entry is due, with its cleanup marked. *)
Definition cleanup_step (now' : Z) (connection : ConnectionId.t) (entry : Entry.t) : option (Action.t * Entry.t) :=
  let decide_ (cleanup : Cleanup.t) (abort : Action.t) (start : Action.t) (set : Cleanup.t -> EntryState.t) :=
    if negb cleanup.(Cleanup.aborted) && (cleanup.(Cleanup.deadline) <=? now')
    then Some (abort, entry <| Entry.state := set (cleanup <| Cleanup.aborted := true |>) |>)
    else if negb cleanup.(Cleanup.sent) && negb cleanup.(Cleanup.aborted)
    then Some (start, entry <| Entry.state := set (cleanup <| Cleanup.sent := true |>) |>)
    else None in
  match entry.(Entry.state) with
  | EntryState.Opening request clock network_ms interaction_ms (Some cleanup) =>
      decide_ cleanup (Action.AbortConnect connection) (Action.CancelConnect connection cleanup.(Cleanup.deadline))
        (fun c => EntryState.Opening request clock network_ms interaction_ms (Some c))
  | EntryState.Closing reason cleanup =>
      decide_ cleanup (Action.Abort connection) (Action.Close connection reason cleanup.(Cleanup.deadline))
        (fun c => EntryState.Closing reason c)
  | _ => None
  end.

(** The network deadline capped by the request's absolute one. *)
Definition capped (deadline absolute : option Z) : option Z :=
  match deadline, absolute with
  | Some network, Some absolute => Some (Z.min network absolute)
  | None, Some absolute => Some absolute
  | network, None => network
  end.

(** The connect command of an entry that has not been told to connect. *)
Definition connect_step (connection : ConnectionId.t) (entry : Entry.t) (self : t) : option (Action.t * Entry.t) :=
  match entry.(Entry.state) with
  | EntryState.Opening request None network_ms interaction_ms None =>
      let pending := and_then request (fun id => self.(requests) !! id) in
      let absolute := and_then pending Pending.absolute_deadline in
      let deadline := if 0 <? network_ms then Some (saturating_add_u64 self.(now) network_ms) else None in
      let deadline := capped deadline absolute in
      Some (Action.Connect connection entry.(Entry.key) entry.(Entry.identity) deadline
              (and_then pending (fun p => p.(Pending.request).(PoolRequest.tag))),
            entry <| Entry.state := EntryState.Opening request (Some (ConnectClock.Network deadline)) network_ms interaction_ms None |>)
  | _ => None
  end.

(** The first entry, in order, that a step applies to. *)
Fixpoint first_step (step : ConnectionId.t -> Entry.t -> option (Action.t * Entry.t)) (l : list (ConnectionId.t * Entry.t))
    : option (ConnectionId.t * (Action.t * Entry.t)) :=
  match l with
  | [] => None
  | (connection, entry) :: l =>
      match step connection entry with Some r => Some (connection, r) | None => first_step step l end
  end.

Definition next_action (self : t) : option Action.t * t :=
  let apply '(connection, (action, entry)) :=
    (Some action, touch (self <| entries := <[connection := entry]> self.(entries) |>)) in
  match first_step (cleanup_step self.(now)) (Prelude.entries self.(entries)) with
  | Some r => apply r
  | None =>
      match first_step (fun connection entry => connect_step connection entry self) (Prelude.entries self.(entries)) with
      | Some r => apply r
      | None => (None, self)
      end
  end.

(** ** Setup clocks (setup.rs) *)

Section setup.
(** What the time sources of the setup clocks give, reading by reading. *)
Variable source : Z -> nat -> Z.

(** The notifications a raw-machine host delivers after a step. *)
Definition take_setup_notifications (self : t) : ClockUpdate.t unit * t :=
  (ClockUpdate.mk tt self.(clock_wakes) self.(clock_retired), self <| clock_wakes := [] |> <| clock_retired := [] |>).

Definition absorb_clock_update {T} (update : ClockUpdate.t T) (self : t) : T * t :=
  (update.(ClockUpdate.value),
   self <| clock_wakes := self.(clock_wakes) ++ update.(ClockUpdate.wakes) |>
        <| clock_retired := self.(clock_retired) ++ update.(ClockUpdate.retired) |>).

(** A call on a shared clock whose update the pool absorbs at once. *)
Definition on_clock {T} (clock : Z) (action : SetupState.t -> T * SetupState.t) (self : t) : T * t :=
  let '(update, clocks') := Clocks.change source clock action self.(clocks) in
  absorb_clock_update update (self <| clocks := clocks' |>).

Definition shared_setup_clock (connection : ConnectionId.t) (self : t) : option Z :=
  and_then (self.(entries) !! connection) (fun entry =>
    match entry.(Entry.state) with
    | EntryState.Opening _ (Some (ConnectClock.Shared clock)) _ _ _ => Some clock
    | _ => None
    end).

(** [set_connect_clock], and the assignment of [install_setup_clock]. *)
Definition with_clock (clock : ConnectClock.t) (entry : Entry.t) : Entry.t :=
  match entry.(Entry.state) with
  | EntryState.Opening request _ network_ms interaction_ms cancel =>
      entry <| Entry.state := EntryState.Opening request (Some clock) network_ms interaction_ms cancel |>
  | _ => entry
  end.

Definition install_setup_clock (connection : ConnectionId.t) (stall_ms : Z) (self : t) : result Z PoolError.t * t :=
  try entry := ok_or (self.(entries) !! connection) PoolError.Stale at self in
  match entry.(Entry.state) with
  | EntryState.Opening _ (Some (ConnectClock.Network until)) _ _ None =>
      let '(clock, clocks') := Clocks.new connection until stall_ms self.(clocks) in
      let '(observation, self) := on_clock clock SetupState.observe (self <| clocks := clocks' |>) in
      match observation with
      | Observation.Terminal record => (Err (PoolError.SetupEnded record), self)
      | Observation.Alive _ _ _ _ =>
          let self := set_entry connection (with_clock (ConnectClock.Shared clock)) self in
          (Ok clock, touch self)
      end
  | _ => (Err PoolError.WrongState, self)
  end.

Definition arbitrate_setup_error (connection : ConnectionId.t) (error : PoolError.t) (self : t) : PoolError.t * t :=
  match shared_setup_clock connection self with
  | None => (error, self)
  | Some clock =>
      let cause := match error with
                   | PoolError.DriverLost => SetupCause.DriverLost
                   | PoolError.SetupEnded record => record.(SetupTerminal.cause)
                   | PoolError.ConnectFailed code effect setup_cause => SetupCause.ResourceFailure code effect setup_cause
                   | _ => SetupCause.Cancelled
                   end in
      let '(record, self) := on_clock clock (SetupState.terminate cause) self in
      (PoolError.SetupEnded record, self)
  end.

(** ** Failing and cancelling requests (lifecycle.rs) *)

Definition fail_request (id : RequestId.t) (error : PoolError.t) (reason : CloseReason.t) (self : t)
    : result unit PoolError.t * t :=
  try pending := ok_or (self.(requests) !! id) PoolError.Stale at self in
  let state := pending.(Pending.state) in
  let '(error, self) := match state with
                        | RequestState.Opening connection => arbitrate_setup_error connection error self
                        | _ => (error, self)
                        end in
  match state with
  | RequestState.Failed _ => (Ok tt, self)
  | _ =>
      let self :=
        match state with
        | RequestState.Ready lease => start_closing lease.(LeaseId.connection) reason self
        | RequestState.Opening connection =>
            match self.(entries) !! connection with
            | None => panic self
            | Some entry =>
                match entry.(Entry.state) with
                | EntryState.Opening _ None _ _ _ => self <| entries := delete connection self.(entries) |>
                | EntryState.Opening _ clock network_ms interaction_ms _ =>
                    self <| entries := <[connection := entry <| Entry.state := EntryState.Opening None clock network_ms
                      interaction_ms (Some (Cleanup.new
                        (saturating_add_u64 self.(now) self.(config).(PoolConfig.cleanup_timeout_ms)))) |>]> self.(entries) |>
                | _ => self
                end
            end
        | _ => self
        end in
      (Ok tt, touch (set_request id (fail_with error) self))
  end.

Definition cancel (id : RequestId.t) (self : t) : result unit PoolError.t * t :=
  call _, self := fail_request id PoolError.Cancelled CloseReason.Cancelled self in
  (Ok tt, schedule self).

Definition abandon (id : RequestId.t) (self : t) : t :=
  match cancel id self with
  | (Ok _, self) => touch (self <| requests := delete id self.(requests) |>)
  | (Err _, self) => self
  end.

Definition fail_all (ids : list RequestId.t) (error : PoolError.t) (reason : CloseReason.t) (self : t) : t :=
  for_ids ids (fun id self => (fail_request id error reason self).2) self.

Definition requests_where (p : Pending.t -> bool) (self : t) : list RequestId.t :=
  map fst (keep (fun e : RequestId.t * Pending.t => p e.2) (Prelude.entries self.(requests))).

Definition cancel_matching (matches_owner : Owner.t -> bool) (self : t) : t :=
  let ids := requests_where (fun p => matches_owner p.(Pending.request).(PoolRequest.owner)) self in
  let self := fail_all ids PoolError.Cancelled CloseReason.Cancelled self in
  let leased := entries_where (fun entry =>
    is_some_and entry.(Entry.owner) matches_owner && EntryState.is_leased entry.(Entry.state)) self in
  schedule (close_all leased CloseReason.Cancelled self).

Definition cancel_operation (owner : Owner.t) (self : t) : t := cancel_matching (fun o => bool_decide (o = owner)) self.
Definition cancel_session (session : string) (self : t) : t :=
  cancel_matching (fun o => bool_decide (o.(Owner.session) = session)) self.

Definition stop (error : PoolError.t) (reason : CloseReason.t) (self : t) : t :=
  let self := self <| stopped := true |> <| holds := ∅ |> in
  let self := fail_all (keys self.(requests)) error reason self in
  let ids := entries_where (fun e => EntryState.is_idle e.(Entry.state) || EntryState.is_leased e.(Entry.state)) self in
  touch (close_all ids reason self).

Definition shutdown (self : t) : t := stop PoolError.Shutdown CloseReason.Shutdown self.
Definition lose_driver (self : t) : t :=
  stop PoolError.DriverLost CloseReason.DriverLost (self <| driver_lost := true |>).

(** ** A connector's answer (allocation.rs) *)

(** The terminal record its setup clock gives of it. *)
Definition settle_setup (clock : Z) (connection : ConnectionId.t) (result' : result (option PoolIdentity.t) Failure.t) (self : t)
    : SetupTerminal.t * t :=
  let identity_matches := match result' with
    | Ok (Some proof) => is_some_and (self.(entries) !! connection) (fun entry => bool_decide (entry.(Entry.identity) = proof))
    | _ => true
    end in
  let cause := match result' with
    | Ok _ => if identity_matches then SetupCause.Completed
              else SetupCause.ResourceFailure ErrorCode.Authentication Effect.None None
    | Err failure => SetupCause.ResourceFailure failure.(Failure.code) failure.(Failure.effect) failure.(Failure.setup_cause)
    end in
  if bool_decide (cause = SetupCause.Completed) then
    match on_clock clock SetupState.admit_completed self with
    | (Ok record, self) | (Err (PublicationError.ActiveTerminal record), self) => (record, self)
    | (Err _, self) =>
        on_clock clock (SetupState.terminate (SetupCause.ResourceFailure ErrorCode.InvalidRequest Effect.None None)) self
    end
  else on_clock clock (SetupState.terminate cause) self.

Definition clock_error (clock : ConnectClock.t) : option PoolError.t :=
  match clock with
  | ConnectClock.Network _ => Some PoolError.ConnectTimeout
  | ConnectClock.Interaction _ _ => Some PoolError.InteractionTimeout
  | ConnectClock.LocalWait _ _ => Some PoolError.LocalWaitExpired
  | ConnectClock.Shared _ => None
  end.

(** The lease of a connection that has been established for its request. *)
Definition establish (connection : ConnectionId.t) (proven : bool) (id : RequestId.t) (self : t) : t :=
  match lease_id connection self with
  | (Ok lease, self) =>
      let self := set_entry connection (fun entry => entry <| Entry.reusable := proven |> <| Entry.born := self.(now) |>
        <| Entry.state := EntryState.Leased lease (Some id) |>) self in
      set_request id (fun pending => pending <| Pending.state := RequestState.Ready lease |>) self
  | (Err error, self) => start_closing connection CloseReason.Discarded (set_request id (fail_with error) self)
  end.

(** [connected] once its setup clock, if any, has not ended it. *)
Definition connect_result (connection : ConnectionId.t) (shared : bool) (result' : result (option PoolIdentity.t) Failure.t)
    (self : t) : result unit PoolError.t * t :=
  try entry := ok_or (self.(entries) !! connection) PoolError.Stale at self in
  match entry.(Entry.state) with
  | EntryState.Opening request (Some clock) _ _ cancel =>
      let absolute := and_then (and_then request (fun id => self.(requests) !! id)) Pending.absolute_deadline in
      if negb shared && is_some_and absolute (fun deadline => deadline <=? self.(now)) then
        match clock_error clock with
        | None => (Ok tt, panic self)
        | Some error =>
            match request with
            | Some id =>
                call _, self := fail_request id error CloseReason.Cancelled self in
                (Ok tt, touch (schedule self))
            | None => (Ok tt, touch (schedule self))
            end
        end
      else
        let cancelled := is_some cancel in
        let fail (error : PoolError.t) (self : t) :=
          match request with Some id => set_request id (fail_with error) self | None => self end in
        let self :=
          match result' with
          | Err failure =>
              fail (PoolError.ConnectFailed failure.(Failure.code) failure.(Failure.effect) failure.(Failure.setup_cause))
                (dispose connection cancelled self)
          | Ok proof =>
              let mismatch := is_some_and proof (fun proof => negb (bool_decide (proof = entry.(Entry.identity)))) in
              if cancelled || mismatch then
                start_closing connection (if mismatch then CloseReason.IdentityMismatch else CloseReason.Cancelled)
                  (fail PoolError.IdentityMismatch self)
              else
                match request with
                | Some id => establish connection (is_some proof) id self
                | None => panic self
                end
          end in
        (Ok tt, touch (schedule self))
  | _ => (Err PoolError.WrongState, self)
  end.

Definition connected (connection : ConnectionId.t) (result' : result (option PoolIdentity.t) Failure.t) (self : t)
    : result unit PoolError.t * t :=
  match shared_setup_clock connection self with
  | None => connect_result connection false result' self
  | Some clock =>
      let '(record, self) := settle_setup clock connection result' self in
      if negb (bool_decide (record.(SetupTerminal.cause) = SetupCause.Completed)) || negb (is_ok result') then
        let request := and_then (self.(entries) !! connection) (fun entry => EntryState.opening_request entry.(Entry.state)) in
        let self := match request with
                    | Some id => set_request id (fail_with (PoolError.SetupEnded record)) self
                    | None => self end in
        let self := if negb (is_ok result') then dispose connection (cancelled_connect connection self) self
                    else start_closing connection CloseReason.Cancelled self in
        (Ok tt, touch (schedule self))
      else connect_result connection true result' self
  end.

(** ** Time (clock.rs) *)

(** Deadlines of a connecting entry's clock. *)
Definition connect_deadline (clock : ConnectClock.t) (self : t) : option Z :=
  match clock with
  | ConnectClock.Network until => until
  | ConnectClock.Interaction until _ | ConnectClock.LocalWait until _ => Some until
  | ConnectClock.Shared clock => SetupState.cached_deadline (self.(clocks).(Clocks.states) !!! clock)
  end.

(** One request at [advance]: the error it has run into, and the update of the
    setup clock that was observed for it. *)
Definition expiry (pending : Pending.t) (self : t) : option PoolError.t * option (ClockUpdate.t Observation.t) * t :=
  match pending.(Pending.state) with
  | RequestState.Waiting =>
      (if pending.(Pending.deadline) <=? self.(now) then Some PoolError.AllocationTimeout else None, None, self)
  | RequestState.Opening connection =>
      match self.(entries) !! connection with
      | None => (None, None, panic self)
      | Some entry =>
          match entry.(Entry.state) with
          | EntryState.Opening _ None _ _ _ =>
              (if pending.(Pending.deadline) <=? self.(now) then Some PoolError.AllocationTimeout else None, None, self)
          | EntryState.Opening _ (Some (ConnectClock.Shared shared)) _ _ None =>
              let '(update, clocks') := Clocks.change source shared SetupState.observe self.(clocks) in
              (match update.(ClockUpdate.value) with
               | Observation.Terminal record => Some (PoolError.SetupEnded record)
               | Observation.Alive _ _ _ _ => None
               end, Some update, self <| clocks := clocks' |>)
          | EntryState.Opening _ (Some clock) _ _ None =>
              (and_then (opt_filter (connect_deadline clock self) (fun deadline => deadline <=? self.(now)))
                 (fun _ => clock_error clock), None, self)
          | _ => (None, None, self)
          end
      end
  | RequestState.Ready _ =>
      (option_map (fun _ => PoolError.AllocationTimeout)
         (opt_filter pending.(Pending.absolute_deadline) (fun deadline => deadline <=? self.(now))), None, self)
  | RequestState.Failed _ => (None, None, self)
  end.

Fixpoint expiries (l : list (RequestId.t * Pending.t)) (self : t)
    : list (RequestId.t * PoolError.t) * list (ClockUpdate.t Observation.t) * t :=
  match l with
  | [] => ([], [], self)
  | (id, pending) :: l =>
      let '(error, update, self) := expiry pending self in
      let '(expired, updates, self) := expiries l self in
      (option_list (option_map (fun error => (id, error)) error) ++ expired, option_list update ++ updates, self)
  end.

(** The idle entries whose time is over. *)
Definition idle_expiry (self : t) (entry : Entry.t) : option CloseReason.t :=
  match entry.(Entry.state) with
  | EntryState.Idle since =>
      if saturating_add_u64 since self.(config).(PoolConfig.idle_timeout_ms) <=? self.(now) then Some CloseReason.IdleExpired
      else if aged self.(now) entry.(Entry.born) self.(config).(PoolConfig.max_age_ms) then Some CloseReason.AgeExpired
      else None
  | _ => None
  end.

Definition cleanup_deadline_crossed (previous now' : Z) (self : t) : bool :=
  existsb (fun entry =>
    let crossed (cleanup : Cleanup.t) :=
      cleanup.(Cleanup.sent) && negb cleanup.(Cleanup.aborted)
      && (previous <? cleanup.(Cleanup.deadline)) && (cleanup.(Cleanup.deadline) <=? now') in
    match entry.(Entry.state) with
    | EntryState.Opening _ _ _ _ (Some cleanup) | EntryState.Closing _ cleanup => crossed cleanup
    | _ => false
    end) (values self.(entries)).

Definition advance (now_ms : Z) (self : t) : t :=
  if now_ms <? self.(now) then self
  else
    let previous_now := self.(now) in
    let before_revision := self.(revision) in
    let self := self <| now := now_ms |> in
    let '(expired, updates, self) := expiries (Prelude.entries self.(requests)) self in
    let self := foldl (fun self update => (absorb_clock_update update self).2) self updates in
    let self := foldl (fun self e => (fail_request e.1 e.2 CloseReason.Cancelled self).2) self expired in
    let idle := omap (fun e : ConnectionId.t * Entry.t => option_map (fun reason => (e.1, reason)) (idle_expiry self e.2))
                  (Prelude.entries self.(entries)) in
    let self := foldl (fun self e => start_closing e.1 e.2 self) self idle in
    let self := schedule (lapse_holds self) in
    if (self.(revision) =? before_revision) && (previous_now <? self.(now))
       && cleanup_deadline_crossed previous_now self.(now) self
    then touch self else self.

(** When the machine next has something to do: [None] is the panic of indexing
    the entries with a connection that is gone. *)
Definition request_deadline (id : RequestId.t) (pending : Pending.t) (self : t) : option (option Z) :=
  match pending.(Pending.state) with
  | RequestState.Waiting =>
      Some (Some (Z.min pending.(Pending.deadline)
        (unwrap_or (opt_filter (option_map snd pending.(Pending.prefer_wait)) (fun _ => prefer_waits id self)) U64_MAX)))
  | RequestState.Opening connection =>
      option_map (fun entry =>
        match entry.(Entry.state) with EntryState.Opening _ None _ _ _ => Some pending.(Pending.deadline) | _ => None end)
        (self.(entries) !! connection)
  | RequestState.Ready _ => Some pending.(Pending.absolute_deadline)
  | RequestState.Failed _ => Some None
  end.

Definition entry_deadline (entry : Entry.t) (self : t) : option Z :=
  match entry.(Entry.state) with
  | EntryState.Idle since =>
      Some (Z.min (saturating_add_u64 since self.(config).(PoolConfig.idle_timeout_ms))
              (saturating_add_u64 entry.(Entry.born) self.(config).(PoolConfig.max_age_ms)))
  | EntryState.Opening _ _ _ _ (Some cleanup) | EntryState.Closing _ cleanup =>
      if negb cleanup.(Cleanup.aborted) then Some cleanup.(Cleanup.deadline) else None
  | EntryState.Opening _ (Some clock) _ _ None => connect_deadline clock self
  | _ => None
  end.

Definition next_deadline (self : t) : option (option Z) :=
  option_map (fun queue =>
    foldr opt_min None (queue ++ map (fun entry => entry_deadline entry self) (values self.(entries)) ++ [next_hold_expiry self]))
    (mapM (fun e => request_deadline e.1 e.2 self) (Prelude.entries self.(requests))).

(** *** Interactions and local waits *)

(** The request of a connecting entry. *)
Definition request_of (connection : ConnectionId.t) (self : t) : option Pending.t :=
  and_then (and_then (self.(entries) !! connection) (fun entry => EntryState.opening_request entry.(Entry.state)))
    (fun id => self.(requests) !! id).

Definition begin_interaction (connection : ConnectionId.t) (self : t) : result unit PoolError.t * t :=
  let absolute := and_then (request_of connection self) Pending.absolute_deadline in
  try entry := ok_or (self.(entries) !! connection) PoolError.Stale at self in
  match entry.(Entry.state) with
  | EntryState.Opening request (Some (ConnectClock.Network deadline)) network_ms interaction_ms None =>
      let remaining := option_map (fun deadline => saturating_sub_u64 deadline self.(now)) deadline in
      if bool_decide (remaining = Some 0) then (Err PoolError.ConnectTimeout, self)
      else if interaction_ms =? 0 then (Err PoolError.InteractionTimeout, self)
      else
        let until := saturating_add_u64 self.(now) interaction_ms in
        let until := match absolute with Some deadline => Z.min until deadline | None => until end in
        (Ok tt, self <| entries := <[connection := entry <| Entry.state := EntryState.Opening request
           (Some (ConnectClock.Interaction until remaining)) network_ms interaction_ms None |>]> self.(entries) |>)
  | _ => (Err PoolError.WrongState, self)
  end.

Definition end_interaction (connection : ConnectionId.t) (self : t) : result unit PoolError.t * t :=
  let absolute := and_then (request_of connection self) Pending.absolute_deadline in
  try entry := ok_or (self.(entries) !! connection) PoolError.Stale at self in
  match entry.(Entry.state) with
  | EntryState.Opening request (Some (ConnectClock.Interaction until remaining)) network_ms _ None =>
      if until <=? self.(now) then (Err PoolError.InteractionTimeout, self)
      else
        let resumed := option_map (fun remaining => saturating_add_u64 self.(now) remaining) remaining in
        (Ok tt, self <| entries := <[connection := entry <| Entry.state := EntryState.Opening request
           (Some (ConnectClock.Network (capped resumed absolute))) network_ms (as_u64 (until - self.(now))) None |>]>
             self.(entries) |>)
  | _ => (Err PoolError.WrongState, self)
  end.

Definition set_connect_clock (connection : ConnectionId.t) (next : ConnectClock.t) (self : t) : t :=
  touch (match self.(entries) !! connection with
         | Some entry => self <| entries := <[connection := with_clock next entry]> self.(entries) |>
         | None => self
         end).

(** What the pool makes of a shared clock's answer. *)
Definition published (r : result unit PublicationError.t) : result unit PoolError.t :=
  match r with
  | Ok _ => Ok tt
  | Err (PublicationError.ActiveTerminal record) => Err (PoolError.SetupEnded record)
  | Err _ => Err PoolError.WrongState
  end.

Definition begin_local_wait (connection : ConnectionId.t) (self : t) : result unit PoolError.t * t :=
  try entry := ok_or (self.(entries) !! connection) PoolError.Stale at self in
  match entry.(Entry.state) with
  | EntryState.Opening request (Some clock) _ _ None =>
      let allocation := option_map Pending.deadline (and_then request (fun id => self.(requests) !! id)) in
      match clock with
      | ConnectClock.LocalWait _ _ => (Ok tt, self)
      | ConnectClock.Interaction _ _ => (Err PoolError.WrongState, self)
      | ConnectClock.Network until =>
          try allocation := ok_or allocation PoolError.WrongState at self in
          let remaining := option_map (fun deadline => saturating_sub_u64 deadline self.(now)) until in
          if bool_decide (remaining = Some 0) then (Err PoolError.ConnectTimeout, self)
          else if allocation <=? self.(now) then (Err PoolError.LocalWaitExpired, self)
          else (Ok tt, set_connect_clock connection (ConnectClock.LocalWait allocation remaining) self)
      | ConnectClock.Shared shared =>
          try milliseconds := ok_or (option_map (fun deadline => saturating_sub_u64 deadline self.(now)) allocation)
                                PoolError.WrongState at self in
          let '(r, self) := on_clock shared (SetupState.begin_local_wait milliseconds) self in (published r, self)
      end
  | _ => (Err PoolError.WrongState, self)
  end.

Definition end_local_wait (connection : ConnectionId.t) (self : t) : result unit PoolError.t * t :=
  try entry := ok_or (self.(entries) !! connection) PoolError.Stale at self in
  match entry.(Entry.state) with
  | EntryState.Opening request (Some clock) _ _ None =>
      let absolute := and_then (and_then request (fun id => self.(requests) !! id)) Pending.absolute_deadline in
      match clock with
      | ConnectClock.LocalWait _ remaining =>
          let resumed := option_map (fun remaining => saturating_add_u64 self.(now) remaining) remaining in
          (Ok tt, set_connect_clock connection (ConnectClock.Network (capped resumed absolute)) self)
      | ConnectClock.Shared shared =>
          let '(r, self) := on_clock shared SetupState.end_local_wait self in (published r, self)
      | _ => (Err PoolError.WrongState, self)
      end
  | _ => (Err PoolError.WrongState, self)
  end.
End setup.
End PoolMachine.
