(* ===== verification/PoolSteps.v ===== *)
(** * What the pool's calls are made of

    Every call of the machine is a sequence of changes of a few kinds, each
    with the condition the code checks first; [consistent] is what ties
    requests to entries between changes. *)
From S2P Require Import Prelude Utf8 Cbor Protocol Validate Binding BindingFacts PoolTypes SetupClock Pool.
Import PoolMachine.

(** ** Requests and entries belong to each other *)

(** What a request's state promises about the entries. *)
Definition request_ok (id : RequestId.t) (state : RequestState.t) (ents : gmap ConnectionId.t Entry.t) : Prop :=
  match state with
  | RequestState.Waiting | RequestState.Failed _ => True
  | RequestState.Opening c =>
      exists e, ents !! c = Some e /\ EntryState.opening_request e.(Entry.state) = Some id
  | RequestState.Ready lease =>
      exists e, ents !! lease.(LeaseId.connection) = Some e /\ e.(Entry.state) = EntryState.Leased lease (Some id)
  end.

(** The entry is the request's: its owner's, and for its key. *)
Definition serves (e : Entry.t) (p : Pending.t) : Prop :=
  e.(Entry.owner) = Some p.(Pending.request).(PoolRequest.owner)
  /\ e.(Entry.key) = p.(Pending.request).(PoolRequest.key).

(** What an entry's state promises about the requests. *)
Definition entry_ok (c : ConnectionId.t) (e : Entry.t) (reqs : gmap RequestId.t Pending.t) (leases : Z) : Prop :=
  match e.(Entry.state) with
  | EntryState.Opening (Some id) _ _ _ cancel =>
      cancel = None
      /\ exists p, reqs !! id = Some p /\ p.(Pending.state) = RequestState.Opening c
           /\ serves e p
  | EntryState.Opening None clock _ _ cancel => is_Some clock /\ is_Some cancel
  | EntryState.Leased lease (Some id) =>
      lease.(LeaseId.connection) = c /\ lease.(LeaseId.generation) <= leases
      /\ exists p, reqs !! id = Some p /\ p.(Pending.state) = RequestState.Ready lease
           /\ serves e p
  | EntryState.Leased lease None =>
      lease.(LeaseId.connection) = c /\ lease.(LeaseId.generation) <= leases /\ is_Some e.(Entry.owner)
  | EntryState.Idle _ | EntryState.Closing _ _ => e.(Entry.owner) = None
  end.

Record consistent (self : PoolMachine.t) : Prop := {
  co_requests : forall id p, self.(requests) !! id = Some p -> request_ok id p.(Pending.state) self.(entries);
  co_entries : forall c e, self.(entries) !! c = Some e -> entry_ok c e self.(requests) self.(lease_serial);
  co_request_ids : forall id, is_Some (self.(requests) !! id) -> id.(RequestId.serial) <= self.(request_serial);
  co_entry_ids : forall c, is_Some (self.(entries) !! c) \/ is_Some (self.(holds) !! c) ->
    c.(ConnectionId.serial) <= self.(connection_serial);
  co_holds : forall c, is_Some (self.(holds) !! c) -> self.(entries) !! c = None;
  co_stopped : self.(stopped) = true -> self.(holds) = ∅;
  co_panicked : self.(panicked) = false;
}.

(** ** The kinds of change *)

(** An entry nobody waits for. *)
Definition unclaimed (e : Entry.t) : Prop :=
  match e.(Entry.state) with
  | EntryState.Opening (Some _) _ _ _ _ | EntryState.Leased _ (Some _) => False
  | _ => True
  end.

(** Clocks run, commands are marked as sent, an identity is scoped: nothing that counts. *)
Definition tweak (e e' : Entry.t) : Prop :=
  e'.(Entry.key) = e.(Entry.key) /\ e'.(Entry.owner) = e.(Entry.owner) /\
  match e.(Entry.state), e'.(Entry.state) with
  | EntryState.Opening r clock _ _ cancel, EntryState.Opening r' clock' _ _ cancel' =>
      r' = r /\ (is_Some clock -> is_Some clock') /\ (is_Some cancel' <-> is_Some cancel)
  | EntryState.Closing _ _, EntryState.Closing _ _ => True
  | s, s' => s' = s
  end.

Definition close_entry (reason : CloseReason.t) (cleanup : Cleanup.t) (e : Entry.t) : Entry.t :=
  e <| Entry.owner := None |> <| Entry.state := EntryState.Closing reason cleanup |>.

(** A slot may stay held for its key. *)
Definition hold_for (c : ConnectionId.t) (e : Entry.t) (h : option Hold.t) (holds : gmap ConnectionId.t Hold.t)
    : gmap ConnectionId.t Hold.t :=
  match h with Some hold => <[c := Hold.mk e.(Entry.key) hold.(Hold.expires) hold.(Hold.evictor)]> holds | None => holds end.

(** What the outside contributes to a change: the connections the host has
    disposed of, whose slots only its word frees, and the requests made. *)
Module Grant.
Record t := mk {
  disposed : ConnectionId.t -> Prop;
  asked : PoolRequest.t -> Prop;
}.
End Grant.

(** The bounds on the number of requests, as the machine checks them. *)
Definition requests_of (session : string) (self : PoolMachine.t) : Z :=
  len (keep (fun pending => bool_decide (pending.(Pending.request).(PoolRequest.owner).(Owner.session) = session))
    (values self.(requests))).

Inductive pchange (grant : Grant.t) (self : PoolMachine.t) : PoolMachine.t -> Prop :=
| p_book self' :
    self'.(config) = self.(config) -> self'.(pool_id) = self.(pool_id) -> self'.(requests) = self.(requests) ->
    self'.(entries) = self.(entries) -> self'.(holds) = self.(holds) -> self'.(panicked) = self.(panicked) ->
    self.(now) <= self'.(now) -> self.(request_serial) <= self'.(request_serial) ->
    self.(connection_serial) <= self'.(connection_serial) -> self.(lease_serial) <= self'.(lease_serial) ->
    (self.(stopped) = true -> self'.(stopped) = true) ->
    (self'.(stopped) = true -> self.(stopped) = true \/ self.(holds) = ∅) -> pchange grant self self'
| p_request p : self.(stopped) = false -> Grant.asked grant p.(Pending.request) ->
    p.(Pending.state) = RequestState.Waiting -> PoolRequest.valid self.(config) p.(Pending.request) = true ->
    Z.of_nat (size self.(requests)) < (ceilings_for p.(Pending.request) self).(Capacity.max_requests) ->
    requests_of p.(Pending.request).(PoolRequest.owner).(Owner.session) self
      < (limits_of p.(Pending.request) self).(Capacity.max_requests) ->
    pchange grant self (self <| request_serial := self.(request_serial) + 1 |>
      <| requests := <[RequestId.mk self.(pool_id) (self.(request_serial) + 1) := p]> self.(requests) |>)
| p_pending id p p' : self.(requests) !! id = Some p -> p'.(Pending.state) = p.(Pending.state) ->
    p'.(Pending.request) = p.(Pending.request) ->
    pchange grant self (self <| requests := <[id := p']> self.(requests) |>)
| p_tweak c e e' : self.(entries) !! c = Some e -> tweak e e' ->
    pchange grant self (self <| entries := <[c := e']> self.(entries) |>)
| p_lease id p c e since : self.(stopped) = false ->
    self.(requests) !! id = Some p -> p.(Pending.state) = RequestState.Waiting ->
    self.(entries) !! c = Some e -> e.(Entry.state) = EntryState.Idle since ->
    compatible p.(Pending.request) c e = true -> owner_full p.(Pending.request) self = false ->
    let lease := LeaseId.mk c (self.(lease_serial) + 1) in
    pchange grant self (self <| lease_serial := self.(lease_serial) + 1 |>
      <| entries := <[c := leased_to p.(Pending.request).(PoolRequest.owner) lease id e]> self.(entries) |>
      <| requests := <[id := p <| Pending.state := RequestState.Ready lease |> <| Pending.eviction := None |>]>
           self.(requests) |>)
| p_open id p : self.(stopped) = false ->
    self.(requests) !! id = Some p -> p.(Pending.state) = RequestState.Waiting ->
    let request := p.(Pending.request) in
    owner_full request self = false ->
    Z.of_nat (size self.(entries)) < (ceilings_for request self).(Capacity.total) ->
    user_host_total request.(PoolRequest.key) self < (ceilings_for request self).(Capacity.per_user_host) ->
    host_total request.(PoolRequest.key).(Key.host) self < (ceilings_for request self).(Capacity.per_host) ->
    site_full request.(PoolRequest.key) self = false ->
    let c := ConnectionId.mk self.(pool_id) (self.(connection_serial) + 1) in
    pchange grant self (self <| connection_serial := self.(connection_serial) + 1 |>
      <| entries := <[c := opening_entry request id self]> self.(entries) |>
      <| requests := <[id := p <| Pending.state := RequestState.Opening c |> <| Pending.eviction := None |>]>
           self.(requests) |>)
| p_fail id p error : self.(requests) !! id = Some p -> p.(Pending.state) = RequestState.Waiting ->
    pchange grant self (self <| requests := <[id := fail_with error p]> self.(requests) |>)
| p_close c e reason cleanup : self.(entries) !! c = Some e -> unclaimed e ->
    pchange grant self (self <| entries := <[c := close_entry reason cleanup e]> self.(entries) |>)
| p_fail_ready id p lease e error reason cleanup : self.(requests) !! id = Some p ->
    p.(Pending.state) = RequestState.Ready lease -> self.(entries) !! lease.(LeaseId.connection) = Some e ->
    pchange grant self (self <| entries := <[lease.(LeaseId.connection) := close_entry reason cleanup e]> self.(entries) |>
      <| requests := <[id := fail_with error p]> self.(requests) |>)
| p_fail_unsent id p c e error network_ms interaction_ms cancel : self.(requests) !! id = Some p ->
    p.(Pending.state) = RequestState.Opening c -> self.(entries) !! c = Some e ->
    e.(Entry.state) = EntryState.Opening (Some id) None network_ms interaction_ms cancel ->
    pchange grant self (self <| entries := delete c self.(entries) |>
      <| requests := <[id := fail_with error p]> self.(requests) |>)
| p_fail_connecting id p c e error clock network_ms interaction_ms cancel cleanup : self.(requests) !! id = Some p ->
    p.(Pending.state) = RequestState.Opening c -> self.(entries) !! c = Some e ->
    e.(Entry.state) = EntryState.Opening (Some id) (Some clock) network_ms interaction_ms cancel ->
    pchange grant self (self <| entries := <[c := e <| Entry.state := EntryState.Opening None (Some clock) network_ms
           interaction_ms (Some cleanup) |>]> self.(entries) |>
      <| requests := <[id := fail_with error p]> self.(requests) |>)
| p_establish id p c e clock network_ms interaction_ms cancel proven born : self.(requests) !! id = Some p ->
    p.(Pending.state) = RequestState.Opening c -> self.(entries) !! c = Some e ->
    e.(Entry.state) = EntryState.Opening (Some id) (Some clock) network_ms interaction_ms cancel ->
    let lease := LeaseId.mk c (self.(lease_serial) + 1) in
    pchange grant self (self <| lease_serial := self.(lease_serial) + 1 |>
      <| entries := <[c := e <| Entry.reusable := proven |> <| Entry.born := born |>
           <| Entry.state := EntryState.Leased lease (Some id) |>]> self.(entries) |>
      <| requests := <[id := p <| Pending.state := RequestState.Ready lease |>]> self.(requests) |>)
| p_fail_close id p c e error reason cleanup : self.(requests) !! id = Some p ->
    p.(Pending.state) = RequestState.Opening c -> self.(entries) !! c = Some e ->
    pchange grant self (self <| requests := <[id := fail_with error p]> self.(requests) |>
      <| entries := <[c := close_entry reason cleanup e]> self.(entries) |>)
| p_fail_dispose id p c e error h : Grant.disposed grant c -> (is_Some h -> self.(stopped) = false) -> self.(requests) !! id = Some p ->
    p.(Pending.state) = RequestState.Opening c -> self.(entries) !! c = Some e ->
    pchange grant self (self <| entries := delete c self.(entries) |> <| holds := hold_for c e h self.(holds) |>
      <| requests := <[id := fail_with error p]> self.(requests) |>)
| p_dispose c e h : Grant.disposed grant c -> (is_Some h -> self.(stopped) = false) -> self.(entries) !! c = Some e -> unclaimed e ->
    EntryState.is_leased e.(Entry.state) = false ->
    pchange grant self (self <| entries := delete c self.(entries) |> <| holds := hold_for c e h self.(holds) |>)
| p_take id p lease e : self.(requests) !! id = Some p -> p.(Pending.state) = RequestState.Ready lease ->
    self.(entries) !! lease.(LeaseId.connection) = Some e ->
    pchange grant self (self <| entries := <[lease.(LeaseId.connection) :=
           e <| Entry.state := EntryState.Leased lease None |>]> self.(entries) |>
      <| requests := delete id self.(requests) |>)
| p_forget id p error : self.(requests) !! id = Some p -> p.(Pending.state) = RequestState.Failed error ->
    pchange grant self (self <| requests := delete id self.(requests) |>)
| p_release c e lease since : self.(entries) !! c = Some e -> e.(Entry.state) = EntryState.Leased lease None ->
    self.(stopped) = false ->
    pchange grant self (self <| entries := <[c := e <| Entry.owner := None |> <| Entry.idle_since := None |>
      <| Entry.state := EntryState.Idle since |>]> self.(entries) |>)
| p_unhold m : m ⊆ self.(holds) -> pchange grant self (self <| holds := m |>).

(** ** Changes keep requests and entries consistent *)

Definition refers (state : RequestState.t) : option ConnectionId.t :=
  match state with
  | RequestState.Opening c => Some c
  | RequestState.Ready lease => Some lease.(LeaseId.connection)
  | _ => None
  end.
Definition claimant (e : Entry.t) : option RequestId.t :=
  match e.(Entry.state) with
  | EntryState.Opening r _ _ _ _ => r
  | EntryState.Leased _ r => r
  | _ => None
  end.

Lemma refers_claimant id s ents c : request_ok id s ents -> refers s = Some c ->
  exists e, ents !! c = Some e /\ claimant e = Some id.
Proof.
  destruct s; cbn; try done.
  - intros (e & He & Hr) [= ->]. exists e. split; [done|]. unfold claimant. by destruct (Entry.state e).
  - intros (e & He & Hs) [= <-]. exists e. split; [done|]. unfold claimant. by rewrite Hs.
Qed.

Lemma claimant_refers c e reqs n id : entry_ok c e reqs n -> claimant e = Some id ->
  exists p, reqs !! id = Some p /\ refers p.(Pending.state) = Some c.
Proof.
  unfold entry_ok, claimant. destruct (Entry.state e) as [[r|] ? ? ? ?| |l [r|]|]; try done.
  - intros (_ & p & Hp & Hs & _) [= <-]. exists p. by rewrite Hs.
  - intros (Hc & _ & p & Hp & Hs & _) [= <-]. exists p. rewrite Hs. cbn. by rewrite Hc.
Qed.

Lemma request_ok_same id s ents ents' : request_ok id s ents ->
  (forall c, refers s = Some c -> ents' !! c = ents !! c) -> request_ok id s ents'.
Proof. destruct s; cbn; try done; intros (e & He & Hr) Hs; exists e; by rewrite Hs. Qed.

Lemma entry_ok_same c e reqs reqs' n n' : entry_ok c e reqs n -> n <= n' ->
  (forall id, claimant e = Some id -> reqs' !! id = reqs !! id) -> entry_ok c e reqs' n'.
Proof.
  unfold entry_ok, claimant. intros H Hn Hs. destruct (Entry.state e) as [[r|] ? ? ? ?| |l [r|]|]; try done.
  - destruct H as (H1 & p & Hp & Hst). split_and!; try done. exists p. by rewrite Hs.
  - destruct H as (H1 & H2 & p & Hp & Hst). split_and!; try done; [lia|]. exists p. by rewrite Hs.
  - destruct H as (H1 & H2 & H3). split_and!; try done. lia.
Qed.

(** At most one request and one entry change, and they belong to no one else. *)
Lemma consistent_update (oid : option RequestId.t) (oc : option ConnectionId.t) a b :
  consistent a ->
  (forall id, oid <> Some id -> b.(requests) !! id = a.(requests) !! id) ->
  (forall c, oc <> Some c -> b.(entries) !! c = a.(entries) !! c) ->
  (forall c, oc <> Some c -> is_Some (b.(holds) !! c) -> is_Some (a.(holds) !! c)) ->
  (forall c e id, oc = Some c -> a.(entries) !! c = Some e -> claimant e = Some id -> oid = Some id) ->
  (forall id p c, oid = Some id -> a.(requests) !! id = Some p -> refers p.(Pending.state) = Some c -> oc = Some c) ->
  (forall id p, oid = Some id -> b.(requests) !! id = Some p ->
     request_ok id p.(Pending.state) b.(entries) /\ id.(RequestId.serial) <= b.(request_serial)) ->
  (forall c e, oc = Some c -> b.(entries) !! c = Some e ->
     entry_ok c e b.(requests) b.(lease_serial) /\ c.(ConnectionId.serial) <= b.(connection_serial)) ->
  (forall c, oc = Some c -> is_Some (b.(holds) !! c) -> b.(entries) !! c = None /\ c.(ConnectionId.serial) <= b.(connection_serial)) ->
  a.(lease_serial) <= b.(lease_serial) -> a.(request_serial) <= b.(request_serial) ->
  a.(connection_serial) <= b.(connection_serial) -> b.(panicked) = a.(panicked) ->
  (b.(stopped) = true -> b.(holds) = ∅) -> consistent b.
Proof.
  intros [H1 H2 H3 H4 H5 H7 H6] Hr He Hh Hcl Hrf Hnr Hne Hnh Hl Hrs Hcs Hp Hsh.
  constructor; [| | | | |done|congruence].
  - intros id p Hid. destruct (decide (oid = Some id)) as [Ho|Ho]; [by apply (Hnr id p Ho Hid)|].
    rewrite Hr in Hid by done. apply (request_ok_same id _ (entries a)); [by apply H1|]. intros c Hc. apply He. intros Hoc.
    destruct (refers_claimant id _ _ c (H1 id p Hid) Hc) as (e & Hec & Hce). by destruct Ho; apply (Hcl c e).
  - intros c e Hc. destruct (decide (oc = Some c)) as [Ho|Ho]; [by apply (Hne c e Ho Hc)|].
    rewrite He in Hc by done. apply (entry_ok_same c e (requests a) _ (lease_serial a)); [by apply H2|lia|].
    intros id Hid. apply Hr. intros Hoi. destruct (claimant_refers c e _ _ id (H2 c e Hc) Hid) as (p & Hpp & Href).
    by destruct Ho; apply (Hrf id p).
  - intros id [p Hid]. destruct (decide (oid = Some id)) as [Ho|Ho]; [by apply (Hnr id p Ho Hid)|].
    rewrite Hr in Hid by done. specialize (H3 id ltac:(by eexists)). lia.
  - intros c Hc. destruct (decide (oc = Some c)) as [Ho|Ho].
    + destruct Hc as [[e Hc]|Hc]; [by apply (Hne c e Ho Hc)|by apply (Hnh c Ho Hc)].
    + rewrite He in Hc by done. specialize (H4 c). destruct Hc as [Hc|Hc]; [specialize (H4 (or_introl Hc)); lia|].
      specialize (H4 (or_intror (Hh c Ho Hc))). lia.
  - intros c Hc. destruct (decide (oc = Some c)) as [Ho|Ho]; [by apply (Hnh c Ho Hc)|]. rewrite He by done.
    by apply H5, Hh.
Qed.

(** Everything off the changed request and entry is as it was. *)
Local Ltac off := cbn; intros; rewrite ?lookup_insert_ne, ?lookup_delete_ne by congruence; done.
Local Ltac on := cbn [requests entries holds over]; intros; simplify_eq;
  rewrite ?lookup_insert_eq, ?lookup_delete_eq in *; simplify_eq.

Local Ltac closing := try done; try congruence; try lia;
  try (match goal with H : consistent ?a |- holds _ = ∅ => by apply (co_stopped _ H) end);
  try (match goal with H : is_Some ?x, E : ?x = None |- _ => rewrite E in H; by destruct H end).

Lemma opening_claim a id p c e : consistent a -> a.(requests) !! id = Some p ->
  p.(Pending.state) = RequestState.Opening c -> a.(entries) !! c = Some e ->
  EntryState.opening_request e.(Entry.state) = Some id /\ claimant e = Some id.
Proof.
  intros H Hp Hs He. pose proof (co_requests _ H id p Hp) as Hr. rewrite Hs in Hr. destruct Hr as (e' & He' & Hr).
  assert (e' = e) as -> by congruence. split; [done|]. unfold claimant. by destruct (Entry.state e).
Qed.

Lemma ready_claim a id p lease : consistent a -> a.(requests) !! id = Some p ->
  p.(Pending.state) = RequestState.Ready lease ->
  exists e, a.(entries) !! lease.(LeaseId.connection) = Some e /\ e.(Entry.state) = EntryState.Leased lease (Some id)
    /\ claimant e = Some id /\ lease.(LeaseId.generation) <= a.(lease_serial) /\ serves e p.
Proof.
  intros H Hp Hs. pose proof (co_requests _ H id p Hp) as Hr. rewrite Hs in Hr. destruct Hr as (e & He & Hst).
  exists e. pose proof (co_entries _ H _ _ He) as Hok. unfold entry_ok in Hok. rewrite Hst in Hok.
  unfold claimant. rewrite Hst. destruct Hok as (_ & ? & q & Hq & _ & Hsv).
  assert (q = p) as -> by congruence. by split_and!.
Qed.

Lemma fresh_connection a : consistent a ->
  let c := ConnectionId.mk a.(pool_id) (a.(connection_serial) + 1) in a.(entries) !! c = None /\ a.(holds) !! c = None.
Proof.
  intros H c. pose proof (co_entry_ids _ H c) as Hc. cbn in Hc.
  destruct (entries a !! c) eqn:E; [specialize (Hc (or_introl (mk_is_Some _ _ eq_refl))); lia|].
  destruct (holds a !! c) eqn:E'; [specialize (Hc (or_intror (mk_is_Some _ _ eq_refl))); lia|]. done.
Qed.

Lemma unclaimed_claimant e : unclaimed e -> claimant e = None.
Proof. unfold unclaimed, claimant. by destruct (Entry.state e) as [[] ? ? ? ?| |? []|]. Qed.

Lemma serial_of a c e : consistent a -> a.(entries) !! c = Some e -> c.(ConnectionId.serial) <= a.(connection_serial).
Proof. intros H He. apply (co_entry_ids _ H). left. by eexists. Qed.

Lemma request_serial_of a id p : consistent a -> a.(requests) !! id = Some p -> id.(RequestId.serial) <= a.(request_serial).
Proof. intros H Hp. apply (co_request_ids _ H). by eexists. Qed.

Lemma no_hold a c e : consistent a -> a.(entries) !! c = Some e -> a.(holds) !! c = None.
Proof.
  intros H He. destruct (holds a !! c) eqn:E; [|done]. assert (entries a !! c = None) by (apply (co_holds _ H); by eexists). congruence.
Qed.

(** Only the requests, or only their bookkeeping, change. *)
Lemma consistent_request a id p p' : consistent a -> a.(requests) !! id = Some p ->
  p'.(Pending.request) = p.(Pending.request) ->
  refers p.(Pending.state) = None \/ p'.(Pending.state) = p.(Pending.state) ->
  request_ok id p'.(Pending.state) a.(entries) -> (p'.(Pending.state) = p.(Pending.state) \/ refers p'.(Pending.state) = None) ->
  consistent (a <| requests := <[id := p']> a.(requests) |>).
Proof.
  intros H Hp Hreq Hold Hok Hnew. constructor; cbn; try apply H.
  - intros i q [[<- <-]|[_ Hq]]%lookup_insert_Some; [done|]. by apply (co_requests _ H).
  - intros c e He. pose proof (co_entries _ H c e He) as Hc. destruct Hold as [Hold|Hold].
    + apply (entry_ok_same c e (requests a) _ (lease_serial a)); [done|lia|]. intros i Hi. apply lookup_insert_ne. intros ->.
      destruct (claimant_refers _ _ _ _ _ Hc Hi) as (q & Hq & Hr). congruence.
    + unfold entry_ok in *. destruct (Entry.state e) as [[r|] ? ? ? ?| |l [r|]|]; try done.
      * destruct Hc as (H1 & q & Hq & Hs & Ho). split_and!; try done. destruct (decide (r = id)) as [->|].
        -- exists p'. rewrite lookup_insert_eq. split_and!; [done|congruence|]. assert (q = p) as -> by congruence. unfold serves. by rewrite Hreq.
        -- exists q. by rewrite lookup_insert_ne.
      * destruct Hc as (H1 & H2 & q & Hq & Hs & Ho). split_and!; try done. destruct (decide (r = id)) as [->|].
        -- exists p'. rewrite lookup_insert_eq. split_and!; [done|congruence|]. assert (q = p) as -> by congruence. unfold serves. by rewrite Hreq.
        -- exists q. by rewrite lookup_insert_ne.
  - intros i [<-|[_ Hi]]%lookup_insert_is_Some; apply (co_request_ids _ H); [by eexists|done].
Qed.

(** One entry is replaced by another of the same claimant, or of none. *)
Lemma consistent_entry a c e e' : consistent a -> a.(entries) !! c = Some e -> claimant e = None ->
  entry_ok c e' a.(requests) a.(lease_serial) -> consistent (a <| entries := <[c := e']> a.(entries) |>).
Proof.
  intros H He Hcl Hok. pose proof (no_hold a c e H He) as Hnh. pose proof (serial_of a c e H He) as Hser.
  apply (consistent_update None (Some c) a); try done; try off; cbn [requests entries holds over lease_serial connection_serial].
  all: on; closing.
Qed.

(** One request and the one entry it refers to change together. *)
Lemma consistent_pair a b id p c e : consistent a -> a.(requests) !! id = Some p -> a.(entries) !! c = Some e ->
  (refers p.(Pending.state) = None \/ refers p.(Pending.state) = Some c) ->
  (claimant e = None \/ claimant e = Some id) ->
  (forall i, i <> id -> b.(requests) !! i = a.(requests) !! i) ->
  (forall d, d <> c -> b.(entries) !! d = a.(entries) !! d) ->
  (forall d, d <> c -> is_Some (b.(holds) !! d) -> is_Some (a.(holds) !! d)) ->
  (forall q, b.(requests) !! id = Some q -> request_ok id q.(Pending.state) b.(entries)) ->
  (forall f, b.(entries) !! c = Some f -> entry_ok c f b.(requests) b.(lease_serial)) ->
  (is_Some (b.(holds) !! c) -> b.(entries) !! c = None) ->
  a.(lease_serial) <= b.(lease_serial) -> b.(request_serial) = a.(request_serial) ->
  b.(connection_serial) = a.(connection_serial) -> b.(panicked) = a.(panicked) ->
  (b.(stopped) = true -> b.(holds) = ∅) -> consistent b.
Proof.
  intros H Hp He Hrf Hcl Hr Hen Hh Hnr Hne Hnh Hl Hrs Hcs Hpn Hsh.
  pose proof (serial_of a c e H He) as Hs1. pose proof (request_serial_of a id p H Hp) as Hs2.
  apply (consistent_update (Some id) (Some c) a); try done; try lia.
  - intros i Hi. apply Hr. congruence.
  - intros d Hd. apply Hen. congruence.
  - intros d Hd. apply Hh. congruence.
  - intros d f i [= <-] Hd Hi. assert (f = e) as -> by congruence. destruct Hcl; congruence.
  - intros i q d [= <-] Hq Hd. assert (q = p) as -> by congruence. destruct Hrf; congruence.
  - intros i q [= <-] Hq. split; [by apply Hnr|]. lia.
  - intros d f [= <-] Hf. split; [by apply Hne|]. lia.
  - intros d [= <-] Hd. split; [by apply Hnh|]. lia.
Qed.

Lemma consistent_new_request a p : consistent a -> p.(Pending.state) = RequestState.Waiting ->
  consistent (a <| request_serial := a.(request_serial) + 1 |>
    <| requests := <[RequestId.mk a.(pool_id) (a.(request_serial) + 1) := p]> a.(requests) |>).
Proof.
  intros H Hs. set (id := RequestId.mk _ _).
  assert (Hn : requests a !! id = None).
  { destruct (requests a !! id) eqn:E; [|done]. pose proof (request_serial_of a id _ H E) as Hle. cbn in Hle. lia. }
  apply (consistent_update (Some id) None a); try done; try off; cbn [requests entries holds over lease_serial connection_serial request_serial].
  all: on; closing. split; [by rewrite Hs|]. cbn. lia.
Qed.

Lemma tweak_ok c e e' reqs n : tweak e e' -> entry_ok c e reqs n -> entry_ok c e' reqs n /\ claimant e' = claimant e.
Proof.
  unfold tweak, entry_ok, claimant, serves. intros (Hk & Ho & Hs) H. rewrite Ho, Hk.
  destruct (Entry.state e) as [r clk n1 n2 cn| s|l r|rs cl], (Entry.state e') as [r' clk' n1' n2' cn'|s'|l' r'|rs' cl']; try done.
  - destruct Hs as (-> & Hclk & Hcn). split; [|done]. destruct r.
    + destruct H as (-> & H3). split_and!; try done. destruct cn' as [x|]; [|done].
      destruct (proj1 Hcn ltac:(by eexists)) as [? Hx]. done.
    + destruct H as [H1 H2]. split; [by apply Hclk|by apply Hcn].
  - injection Hs as -> ->. done.
Qed.

Lemma consistent_tweak a c e e' : consistent a -> a.(entries) !! c = Some e -> tweak e e' ->
  consistent (a <| entries := <[c := e']> a.(entries) |>).
Proof.
  intros H He Ht. destruct (tweak_ok c e e' _ _ Ht (co_entries _ H c e He)) as [Hok Hcl].
  destruct H as [H1 H2 H3 H4 H5 H7 H6]. constructor; cbn; try done.
  - intros id p Hp. specialize (H1 id p Hp). destruct (Pending.state p) as [|d|lease|]; cbn in *; try done.
    + destruct H1 as (f & Hf & Hr). destruct (decide (d = c)) as [->|]; [|exists f; by rewrite lookup_insert_ne].
      exists e'. rewrite lookup_insert_eq. split; [done|]. assert (f = e) as -> by congruence.
      destruct Ht as (_ & _ & Ht). unfold EntryState.opening_request in *.
      destruct (Entry.state e), (Entry.state e'); try done. destruct Ht as [-> _]. done.
    + destruct H1 as (f & Hf & Hr). destruct (decide (LeaseId.connection lease = c)) as [<-|]; [|exists f; by rewrite lookup_insert_ne].
      exists e'. rewrite lookup_insert_eq. split; [done|]. assert (f = e) as -> by congruence.
      destruct Ht as (_ & _ & Ht). rewrite Hr in Ht. by destruct (Entry.state e').
  - intros d f [[<- <-]|[_ Hf]]%lookup_insert_Some; [done|]. by apply H2.
  - intros d Hd. apply H4. destruct Hd as [[<-|[_ Hd]]%lookup_insert_is_Some|Hd]; [left; by eexists|by left|by right].
  - intros d Hd. specialize (H5 d Hd). destruct (decide (d = c)) as [->|]; [congruence|]. by rewrite lookup_insert_ne.
Qed.

Lemma hold_for_other c e h holds d : d <> c -> is_Some (hold_for c e h holds !! d) -> is_Some (holds !! d).
Proof. intros Hd. unfold hold_for. destruct h; [by rewrite lookup_insert_ne|done]. Qed.

Lemma stopped_hold_for a c e h : (a.(stopped) = true -> a.(holds) = ∅) -> (is_Some h -> a.(stopped) = false) ->
  a.(stopped) = true -> hold_for c e h a.(holds) = ∅.
Proof. intros H1 H2 Hs. destruct h; [|by apply H1]. specialize (H2 ltac:(by eexists)). congruence. Qed.

Lemma compatible_key request c e : compatible request c e = true -> e.(Entry.key) = request.(PoolRequest.key).
Proof. unfold compatible. rewrite !andb_true_iff. intros [[[Hk _] _] _]. by apply bool_decide_eq_true in Hk. Qed.

Lemma consistent_change grant a b : consistent a -> pchange grant a b -> consistent b.
Proof.
  intros H Hc. pose proof (co_stopped _ H) as Hsh0. destruct Hc as [b E1 E2 E3 E4 E5 E6 L1 L2 L3 L4 _ L5|p _ _ Hs _ _ _|id p p' Hp Hs Hrq|c e e' He Ht
    |id p c e since _ Hp Hs He Hi Hcp Ho lease|id p _ Hp Hs request Ho Ht Hu Hh Hsf c|id p error Hp Hs|c e reason cleanup He Hu
    |id p lease e error reason cleanup Hp Hs He|id p c e error n1 n2 cn Hp Hs He Hst|id p c e error clk n1 n2 cn cleanup Hp Hs He Hst
    |id p c e clk n1 n2 cn proven born Hp Hs He Hst lease|id p c e error reason cleanup Hp Hs He|id p c e error h Hf Hsd Hp Hs He
    |c e h Hf Hsd He Hu Hl|id p lease e Hp Hs He|id p error Hp Hs|c e lease since He Hst _|m Hm].
  - destruct H as [H1 H2 H3 H4 H5 H7 H6]. constructor; rewrite ?E3, ?E4, ?E5, ?E6; try done.
    + intros c e He. apply (entry_ok_same c e (requests a) _ (lease_serial a)); [by apply H2|lia|done].
    + intros id Hid. specialize (H3 id Hid). lia.
    + intros c Hc. specialize (H4 c Hc). lia.
    + intros Hb. destruct (L5 Hb); auto.
  - by apply consistent_new_request.
  - apply (consistent_request a id p p'); [done|done|done|by right| |by left]. rewrite Hs. by apply (co_requests _ H).
  - by eapply consistent_tweak.
  - assert (Hcl : claimant e = None) by (unfold claimant; by rewrite Hi).
    apply (consistent_pair a _ id p c e); try done; try off; cbn [lease_serial entries requests holds over]; try lia.
    + left. by rewrite Hs.
    + by left.
    + on. cbn. exists (leased_to (PoolRequest.owner (Pending.request p)) lease id e). rewrite lookup_insert_eq. done.
    + on. unfold leased_to, entry_ok. cbn. rewrite Hi. cbn. split_and!; try done. eexists. rewrite lookup_insert_eq. split_and!; try done.
      unfold serves. cbn. split; [done|by apply (compatible_key _ c)].
    + on. rewrite (no_hold a c e H He) in *. by destruct H0.
  - destruct (fresh_connection a H) as [Hce Hch]. fold c in Hce, Hch.
    apply (consistent_update (Some id) (Some c) a); try done; try off; cbn [lease_serial entries requests holds over connection_serial request_serial]; try lia.
    + intros d f i [= <-]. congruence.
    + intros i q d [= <-] Hq. assert (q = p) as -> by congruence. by rewrite Hs.
    + intros i q [= <-]. rewrite lookup_insert_eq. intros [= <-]. split; [|by eapply request_serial_of].
      cbn. exists (opening_entry request id a). by rewrite lookup_insert_eq.
    + intros d f [= <-]. rewrite lookup_insert_eq. intros [= <-]. split; [|cbn; lia]. unfold entry_ok, opening_entry. cbn.
      split_and!; try done. eexists. by rewrite lookup_insert_eq.
    + intros d [= <-]. rewrite Hch. by intros [? ?].
  - apply (consistent_request a id p); [done|done|done|left; by rewrite Hs|done|by right].
  - apply (consistent_entry a c e); [done|done|by apply unclaimed_claimant|done].
  - destruct (ready_claim a id p lease H Hp Hs) as (e' & He' & Hst & Hcl & _). assert (e' = e) as -> by congruence.
    apply (consistent_pair a _ id p (LeaseId.connection lease) e); try done; try off; cbn [lease_serial entries requests holds over]; try lia.
    + right. by rewrite Hs.
    + by right.
    + on. done.
    + on. done.
    + on. rewrite (no_hold a _ e H He) in *. by destruct H0.
  - destruct (opening_claim a id p c e H Hp Hs He) as [_ Hcl].
    apply (consistent_pair a _ id p c e); try done; try off; cbn [lease_serial entries requests holds over]; try lia.
    + right. by rewrite Hs.
    + by right.
    + on. done.
    + on.
    + on. done.
  - destruct (opening_claim a id p c e H Hp Hs He) as [_ Hcl].
    apply (consistent_pair a _ id p c e); try done; try off; cbn [lease_serial entries requests holds over]; try lia.
    + right. by rewrite Hs.
    + by right.
    + on. done.
    + on. unfold entry_ok. cbn. split; by eexists.
    + on. rewrite (no_hold a _ e H He) in *. by destruct H0.
  - destruct (opening_claim a id p c e H Hp Hs He) as [_ Hcl].
    assert (Hown : serves e p).
    { pose proof (co_entries _ H c e He) as Hok. unfold entry_ok in Hok. rewrite Hst in Hok.
      destruct Hok as (_ & q & Hq & _ & Hown). congruence. }
    apply (consistent_pair a _ id p c e); try done; try off; cbn [lease_serial entries requests holds over]; try lia.
    + right. by rewrite Hs.
    + by right.
    + on. cbn. eexists. by rewrite lookup_insert_eq.
    + on. unfold entry_ok. cbn. split_and!; try done. eexists. by rewrite lookup_insert_eq.
    + on. rewrite (no_hold a _ e H He) in *. by destruct H0.
  - destruct (opening_claim a id p c e H Hp Hs He) as [_ Hcl].
    apply (consistent_pair a _ id p c e); try done; try off; cbn [lease_serial entries requests holds over]; try lia.
    + right. by rewrite Hs.
    + by right.
    + on. done.
    + on. done.
    + on. rewrite (no_hold a _ e H He) in *. by destruct H0.
  - destruct (opening_claim a id p c e H Hp Hs He) as [_ Hcl].
    apply (consistent_pair a _ id p c e); try done; try off; cbn [lease_serial entries requests holds over]; try lia.
    + right. by rewrite Hs.
    + by right.
    + intros d Hd. by apply hold_for_other.
    + on. done.
    + on.
    + on. done.
    + cbn. by apply stopped_hold_for.
  - apply (consistent_update None (Some c) a); try done; try off; cbn [lease_serial entries requests holds over connection_serial].
    + intros d Hd. apply hold_for_other. congruence.
    + on. rewrite (unclaimed_claimant _ Hu) in *. done.
    + on.
    + on. split; [done|]. by eapply serial_of.
    + cbn. by apply stopped_hold_for.
  - destruct (ready_claim a id p lease H Hp Hs) as (e' & He' & Hst & Hcl & Hgen & [Hown _]). assert (e' = e) as -> by congruence.
    apply (consistent_pair a _ id p (LeaseId.connection lease) e); try done; try off; cbn [lease_serial entries requests holds over]; try lia.
    + right. by rewrite Hs.
    + by right.
    + on.
    + on. unfold entry_ok. cbn. done.
    + on. rewrite (no_hold a _ e H He) in *. by destruct H0.
  - destruct H as [H1 H2 H3 H4 H5 H7 H6]. constructor; cbn; try done.
    + intros i q [_ Hq]%lookup_delete_Some. by apply H1.
    + intros c e He. apply (entry_ok_same c e (requests a) _ (lease_serial a)); [by apply H2|lia|].
      intros i Hi. destruct (claimant_refers c e _ _ i (H2 c e He) Hi) as (q & Hq & Hr). apply lookup_delete_ne.
      intros <-. assert (q = p) as -> by congruence. by rewrite Hs in Hr.
    + intros i [_ Hi]%lookup_delete_is_Some. by apply H3.
  - apply (consistent_entry a c e); [done|done|unfold claimant; by rewrite Hst|done].
  - destruct H as [H1 H2 H3 H4 H5 H7 H6]. constructor; cbn; try done.
    + intros c [Hc|[h Hc]]; apply H4; [by left|right]. exists h. by eapply lookup_weaken.
    + intros c [h Hc]. apply H5. exists h. by eapply lookup_weaken.
    + intros Hb. rewrite (H7 Hb) in Hm. apply map_empty. intros c. destruct (m !! c) eqn:Hc; [|done].
      eapply lookup_weaken in Hc; [|exact Hm]. by rewrite lookup_empty in Hc.
Qed.
