(* ===== verification/PoolMoves.v ===== *)
(** * Each call of the pool is a sequence of changes *)
From S2P Require Import Prelude Utf8 Cbor Protocol Validate Binding BindingFacts PoolTypes SetupClock Pool PoolSteps.
Import PoolMachine.

(** [moves grant a b]: changes lead from [a] to [b]; the host has disposed of [grant]. *)
Definition moves (grant : Grant.t) : relation PoolMachine.t := rtc (pchange grant).

Lemma moves_consistent grant a b : consistent a -> moves grant a b -> consistent b.
Proof. intros H Hm. induction Hm as [|a b c Hab _ IH]; [done|]. apply IH. by eapply consistent_change. Qed.

(** What every change keeps, a call keeps. *)
Lemma moves_keep (P : PoolMachine.t -> Prop) grant a b :
  (forall a b, consistent a -> P a -> pchange grant a b -> P b) -> consistent a -> moves grant a b -> P a -> P b.
Proof.
  intros HP H Hm. induction Hm as [|a b c Hab _ IH]; [done|]. intros Ha. apply IH; [by eapply consistent_change|by eapply HP].
Qed.

Section moves.
Context {grant : Grant.t}.
Notation "a ~> b" := (moves grant a b) (at level 70).

Lemma moves_refl a : a ~> a.
Proof. constructor. Qed.
Lemma moves_trans a b c : a ~> b -> b ~> c -> a ~> c.
Proof. unfold moves. intros. by etransitivity. Qed.
Lemma moves_one a b : pchange grant a b -> a ~> b.
Proof. apply rtc_once. Qed.

(** The next call starts from a consistent machine. *)
Lemma moves_then a b c : consistent a -> a ~> b -> (consistent b -> b ~> c) -> a ~> c.
Proof. intros H Hab Hbc. eapply moves_trans; [exact Hab|]. apply Hbc. by eapply moves_consistent. Qed.

(** ** Bookkeeping *)

Lemma moves_book a b :
  b.(config) = a.(config) -> b.(pool_id) = a.(pool_id) -> b.(requests) = a.(requests) ->
  b.(entries) = a.(entries) -> b.(holds) = a.(holds) -> b.(panicked) = a.(panicked) ->
  a.(now) <= b.(now) -> a.(request_serial) <= b.(request_serial) ->
  a.(connection_serial) <= b.(connection_serial) -> a.(lease_serial) <= b.(lease_serial) ->
  (a.(stopped) = true -> b.(stopped) = true) -> (b.(stopped) = true -> a.(stopped) = true \/ a.(holds) = ∅) -> a ~> b.
Proof. intros. apply moves_one. by apply p_book. Qed.

(** A change of none of the fields that count. *)
Lemma moves_side a b : b.(config) = a.(config) -> b.(pool_id) = a.(pool_id) -> b.(requests) = a.(requests) ->
  b.(entries) = a.(entries) -> b.(holds) = a.(holds) -> b.(panicked) = a.(panicked) -> b.(now) = a.(now) ->
  b.(request_serial) = a.(request_serial) -> b.(connection_serial) = a.(connection_serial) ->
  b.(lease_serial) = a.(lease_serial) -> b.(stopped) = a.(stopped) -> a ~> b.
Proof. intros. apply moves_book; try done; try lia; [congruence|]. intros. left. congruence. Qed.

Lemma moves_touch a : a ~> touch a.
Proof. by apply moves_side. Qed.

Lemma moves_touched a b : a ~> b -> a ~> touch b.
Proof. intros H. eapply moves_trans; [exact H|apply moves_touch]. Qed.

(** ** Allocation *)

Lemma moves_start_closing c e reason self : self.(entries) !! c = Some e -> unclaimed e ->
  self ~> start_closing c reason self.
Proof.
  intros He Hu. unfold start_closing. rewrite He. destruct (EntryState.is_closing _); [apply moves_refl|].
  apply moves_touched, moves_one. by apply p_close.
Qed.

Lemma idle_for_spec request c e : idle_for request c e = true ->
  exists since, e.(Entry.state) = EntryState.Idle since /\ compatible request c e = true.
Proof.
  unfold idle_for. intros H. apply andb_true_iff in H as [Hi Hc]. destruct (Entry.state e); try done. by eexists.
Qed.

(** The connection [reuse_for] picks. *)
Definition reuse_pick (request : PoolRequest.t) (self : PoolMachine.t) : option ConnectionId.t :=
  match opt_filter request.(PoolRequest.prefer) (fun connection =>
          is_some_and (self.(entries) !! connection) (idle_for request connection)) with
  | Some connection => Some connection
  | None => option_map fst (hd_error (keep (fun e => idle_for request e.1 e.2) (Prelude.entries self.(entries))))
  end.

Lemma keep_nil {A} (p : A -> bool) (l : list A) : keep p l = [] -> forall x, x ∈ l -> p x = false.
Proof.
  intros H x Hx. destruct (p x) eqn:E; [|done]. assert (Hin : x ∈ keep p l) by (by apply elem_of_keep). rewrite H in Hin. by apply not_elem_of_nil in Hin.
Qed.

Lemma hd_keep {A} (p : A -> bool) (l : list A) x : hd_error (keep p l) = Some x -> p x = true /\ x ∈ l.
Proof. intros H. apply elem_of_keep. destruct (keep p l); [done|]. injection H as ->. left. Qed.

Lemma reuse_pick_spec request self c : reuse_pick request self = Some c ->
  exists e since, self.(entries) !! c = Some e /\ e.(Entry.state) = EntryState.Idle since /\ compatible request c e = true.
Proof.
  unfold reuse_pick, opt_filter. intros H.
  assert (Hgoal : exists e, entries self !! c = Some e /\ idle_for request c e = true).
  { destruct (PoolRequest.prefer request) as [d|].
    - destruct (is_some_and _ _) eqn:Hd.
      + injection H as ->. unfold is_some_and in Hd. destruct (entries self !! c) as [e|]; [by exists e|done].
      + destruct (hd_error _) as [[d' e]|] eqn:Hh; [|done]. injection H as <-. apply hd_keep in Hh as [Hp Hin].
        apply elem_of_entries in Hin. by exists e.
    - destruct (hd_error _) as [[d' e]|] eqn:Hh; [|done]. injection H as <-. apply hd_keep in Hh as [Hp Hin].
      apply elem_of_entries in Hin. by exists e. }
  destruct Hgoal as (e & He & Hi). apply idle_for_spec in Hi as (since & Hs & Hc). by exists e, since.
Qed.

Lemma reuse_pick_none request self : reuse_pick request self = None ->
  forall c e, self.(entries) !! c = Some e -> idle_for request c e = false.
Proof.
  unfold reuse_pick. intros H c e He. destruct (opt_filter _ _); [done|].
  destruct (keep _ _) eqn:Hk; [|done]. pose proof (keep_nil _ _ Hk (c, e)) as Hn. apply Hn. by apply elem_of_entries.
Qed.

(** What [reuse_for] does for a waiting request. *)
Lemma reuse_for_spec id p self : self.(requests) !! id = Some p ->
  reuse_for id self =
    let request := p.(Pending.request) in
    if request.(PoolRequest.fresh) || owner_full request self then self
    else if is_none (opt_filter request.(PoolRequest.prefer) (fun connection =>
              is_some_and (self.(entries) !! connection) (idle_for request connection))) && prefer_waits id self then self
    else match reuse_pick request self with
         | None => self
         | Some c =>
             touch (match lease_id c self with
                    | (Ok lease, self) =>
                        set_request id (fun pending =>
                          pending <| Pending.state := RequestState.Ready lease |> <| Pending.eviction := None |>)
                          (set_entry c (leased_to request.(PoolRequest.owner) lease id) self)
                    | (Err error, self) => set_request id (fail_with error) self
                    end)
         end.
Proof. intros Hp. unfold reuse_for. by rewrite Hp. Qed.

Lemma moves_reuse id p self : self.(stopped) = false -> self.(requests) !! id = Some p ->
  p.(Pending.state) = RequestState.Waiting -> self ~> reuse_for id self.
Proof.
  intros Hst Hp Hs. rewrite (reuse_for_spec id p self Hp). cbn zeta.
  destruct (_ || _) eqn:Hg; [apply moves_refl|]. apply orb_false_iff in Hg as [_ Ho].
  destruct (_ && _); [apply moves_refl|]. destruct (reuse_pick _ _) as [c|] eqn:Hpick; [|apply moves_refl].
  apply reuse_pick_spec in Hpick as (e & since & He & Hi & Hc). apply moves_touched. unfold lease_id.
  destruct (checked_add_u64 _ 1) as [serial|] eqn:Hser; cbn [ok_or].
  - apply checked_add_u64_Some in Hser as [-> _]. unfold set_entry. cbn [entries over]. rewrite He.
    unfold set_request. cbn [requests over]. rewrite Hp. apply moves_one.
    by apply (p_lease grant self id p c e since).
  - unfold set_request. rewrite Hp. apply moves_one. by apply p_fail.
Qed.

Lemma moves_open id self : self.(stopped) = false -> self ~> open_for id self.
Proof.
  intros Hst. unfold open_for. destruct (requests self !! id) as [p|] eqn:Hp; [|apply moves_refl].
  destruct (negb _ || _) eqn:Hw; [apply moves_refl|]. apply orb_false_iff in Hw as [Hw _]. apply negb_false_iff in Hw.
  assert (Hs : Pending.state p = RequestState.Waiting) by (by destruct (Pending.state p)).
  destruct (_ || _) eqn:Hg; [apply moves_refl|]. rewrite !orb_false_iff in Hg. destruct Hg as [[[[Ho Ht] Hu] Hh] Hsf].
  destruct (checked_add_u64 _ 1) as [serial|] eqn:Hser.
  - apply checked_add_u64_Some in Hser as [-> _]. apply moves_touched. unfold set_request. cbn [requests over]. rewrite Hp.
    apply moves_one. apply (p_open grant self id p); try done; lia.
  - unfold set_request. rewrite Hp. apply moves_one. by apply p_fail.
Qed.

Lemma min_stamp_elem l x : min_stamp l = Some x -> x ∈ l.
Proof.
  revert x. induction l as [|y l IH]; intros x H; [done|]. cbn in H. injection H as <-.
  destruct (min_stamp l) as [z|]; [|left]. case_bool_decide; [left|]. right. by apply IH.
Qed.

Lemma victim_idle key ceilings self c : victim_for key ceilings self = Some c ->
  exists e since, self.(entries) !! c = Some e /\ e.(Entry.state) = EntryState.Idle since.
Proof.
  unfold victim_for. intros H. destruct (min_stamp _) as [[s c']|] eqn:Hm; [|done]. injection H as <-.
  apply min_stamp_elem in Hm. apply list_elem_of_omap in Hm as ([d e] & Hin & Hd). cbn in Hd.
  apply elem_of_entries in Hin. destruct (Entry.state e) eqn:Hs; try done. destruct (_ && _); [|done].
  injection Hd as <- <-. by eexists _, _.
Qed.

Lemma start_closing_requests c reason self : (start_closing c reason self).(requests) = self.(requests).
Proof. unfold start_closing. destruct (entries self !! c); [|done]. by destruct (EntryState.is_closing _). Qed.

Lemma moves_evict id self : is_Some (self.(requests) !! id) -> self ~> evict_for id self.
Proof.
  intros [p Hp]. unfold evict_for. rewrite Hp. destruct (_ || _); [apply moves_refl|].
  destruct (existsb _ _); [apply moves_refl|]. destruct (owner_full _ _); [apply moves_refl|].
  destruct (victim_for _ _ _) as [c|] eqn:Hv; [|apply moves_refl]. apply victim_idle in Hv as (e & since & He & Hs).
  unfold set_request. rewrite start_closing_requests, Hp.
  eapply moves_trans; [apply (moves_start_closing c e CloseReason.Evicted self He); unfold unclaimed; by rewrite Hs|].
  apply moves_one.
  replace (<[id:=_]> (requests self)) with (<[id:=p <| Pending.eviction := Some c |>]> (requests (start_closing c CloseReason.Evicted self)))
    by (by rewrite start_closing_requests).
  apply (p_pending grant _ id p); try done. by rewrite start_closing_requests.
Qed.
(** *** The loops of [schedule] *)

Lemma set_request_other id f self i : i <> id -> (set_request id f self).(requests) !! i = self.(requests) !! i.
Proof. intros Hi. unfold set_request. destruct (requests self !! id); [|done]. cbn. by rewrite lookup_insert_ne. Qed.

Lemma set_request_dom id f self i : is_Some ((set_request id f self).(requests) !! i) <-> is_Some (self.(requests) !! i).
Proof.
  unfold set_request. destruct (requests self !! id) eqn:E; [|done]. cbn. destruct (decide (i = id)) as [->|].
  - rewrite lookup_insert_eq, E. split; by eexists.
  - by rewrite lookup_insert_ne.
Qed.

Lemma set_entry_requests c f self : (set_entry c f self).(requests) = self.(requests)
  /\ (set_entry c f self).(stopped) = self.(stopped).
Proof. unfold set_entry. by destruct (entries self !! c). Qed.

Lemma set_request_stopped id f self : (set_request id f self).(stopped) = self.(stopped).
Proof. unfold set_request. by destruct (requests self !! id). Qed.

Lemma reuse_for_other id self i : i <> id ->
  (reuse_for id self).(requests) !! i = self.(requests) !! i.
Proof.
  intros Hi. destruct (requests self !! id) as [p|] eqn:Hp; [|unfold reuse_for; by rewrite Hp].
  rewrite (reuse_for_spec id p self Hp). cbn zeta. destruct (_ || _); [done|]. destruct (_ && _); [done|].
  destruct (reuse_pick _ _) as [c|]; [|done]. unfold lease_id. destruct (ok_or _ _); cbn [requests touch over];
    rewrite set_request_other by done; [|done]. by rewrite (proj1 (set_entry_requests _ _ _)).
Qed.

Lemma reuse_for_dom id self i : is_Some ((reuse_for id self).(requests) !! i) <-> is_Some (self.(requests) !! i).
Proof.
  destruct (requests self !! id) as [p|] eqn:Hp; [|unfold reuse_for; by rewrite Hp].
  rewrite (reuse_for_spec id p self Hp). cbn zeta. destruct (_ || _); [done|]. destruct (_ && _); [done|].
  destruct (reuse_pick _ _) as [c|]; [|done]. unfold lease_id. destruct (ok_or _ _); cbn [requests touch over];
    rewrite set_request_dom; [|done]. by rewrite (proj1 (set_entry_requests _ _ _)).
Qed.

Lemma reuse_for_stopped id self : (reuse_for id self).(stopped) = self.(stopped).
Proof.
  destruct (requests self !! id) as [p|] eqn:Hp; [|unfold reuse_for; by rewrite Hp].
  rewrite (reuse_for_spec id p self Hp). cbn zeta. destruct (_ || _); [done|]. destruct (_ && _); [done|].
  destruct (reuse_pick _ _) as [c|]; [|done]. unfold lease_id. destruct (ok_or _ _); cbn [stopped touch over];
    rewrite set_request_stopped; [|done]. by rewrite (proj2 (set_entry_requests _ _ _)).
Qed.

Lemma open_for_stopped id self : (open_for id self).(stopped) = self.(stopped).
Proof.
  unfold open_for. destruct (requests self !! id); [|done]. destruct (_ || _); [done|]. destruct (_ || _); [done|].
  destruct (checked_add_u64 _ _); cbn [stopped touch over]; by rewrite set_request_stopped.
Qed.

Lemma open_for_dom id self i : is_Some ((open_for id self).(requests) !! i) <-> is_Some (self.(requests) !! i).
Proof.
  unfold open_for. destruct (requests self !! id); [|done]. destruct (_ || _); [done|]. destruct (_ || _); [done|].
  destruct (checked_add_u64 _ _); cbn [requests touch over]; by rewrite set_request_dom.
Qed.

Lemma evict_for_dom id self i : is_Some ((evict_for id self).(requests) !! i) <-> is_Some (self.(requests) !! i).
Proof.
  unfold evict_for. destruct (requests self !! id); [|done]. destruct (_ || _); [done|]. destruct (existsb _ _); [done|].
  destruct (owner_full _ _); [done|]. destruct (victim_for _ _ _); [|done]. by rewrite set_request_dom, start_closing_requests.
Qed.

Definition is_waiting (self : PoolMachine.t) (id : RequestId.t) : Prop :=
  exists p, self.(requests) !! id = Some p /\ p.(Pending.state) = RequestState.Waiting.

Lemma for_ids_cons {A} id (ids : list A) f self : for_ids (id :: ids) f self = for_ids ids f (f id self).
Proof. done. Qed.

Lemma moves_reuse_all ids self : NoDup ids -> consistent self -> self.(stopped) = false ->
  (forall id, id ∈ ids -> is_waiting self id) -> self ~> for_ids ids reuse_for self.
Proof.
  intros Hnd. revert self. induction Hnd as [|id ids Hni Hnd IH]; intros self H Hst Hw; [apply moves_refl|].
  destruct (Hw id ltac:(left)) as (p & Hp & Hs). rewrite for_ids_cons.
  eapply moves_then; [done|by eapply moves_reuse|]. intros H1. apply IH; [done|by rewrite reuse_for_stopped|].
  intros i Hi. destruct (Hw i ltac:(by right)) as (q & Hq & Hsq). exists q. rewrite reuse_for_other; [done|]. by intros ->.
Qed.

Lemma moves_open_all ids self : consistent self -> self.(stopped) = false -> self ~> for_ids ids open_for self.
Proof.
  revert self. induction ids as [|id ids IH]; intros self H Hst; [apply moves_refl|]. rewrite for_ids_cons.
  eapply moves_then; [done|by apply moves_open|]. intros H1. apply IH; [done|]. by rewrite open_for_stopped.
Qed.

Lemma moves_evict_all ids self : consistent self -> (forall id, id ∈ ids -> is_Some (self.(requests) !! id)) ->
  self ~> for_ids ids evict_for self.
Proof.
  revert self. induction ids as [|id ids IH]; intros self H Hin; [apply moves_refl|]. rewrite for_ids_cons.
  eapply moves_then; [done|apply moves_evict, Hin; left|]. intros H1. apply IH; [done|]. intros i Hi.
  rewrite evict_for_dom. apply Hin. by right.
Qed.

Lemma for_ids_keeps {A} (P : PoolMachine.t -> Prop) (f : A -> PoolMachine.t -> PoolMachine.t) ids self :
  (forall id s, P s -> P (f id s)) -> P self -> P (for_ids ids f self).
Proof. intros Hf. revert self. induction ids as [|id ids IH]; intros self H; [done|]. rewrite for_ids_cons. auto. Qed.

Lemma waiting_requests_spec self id : id ∈ waiting_requests self <-> is_waiting self id.
Proof.
  unfold waiting_requests, is_waiting. rewrite list_elem_of_fmap. split.
  - intros ([i p] & -> & Hin). apply elem_of_keep in Hin as [Hw Hin]. apply elem_of_entries in Hin. exists p. split; [done|].
    cbn in Hw. by destruct (Pending.state p).
  - intros (p & Hp & Hs). exists (id, p). split; [done|]. apply elem_of_keep. split; [cbn; by rewrite Hs|].
    by apply elem_of_entries.
Qed.

Lemma NoDup_keep_keys {K V} `{KeyOrder K, Countable K} (p : K * V -> bool) (m : gmap K V) :
  NoDup (map fst (keep p (Prelude.entries m))).
Proof.
  assert (Hk : map fst (keep p (Prelude.entries m)) `sublist_of` (Prelude.entries m).*1).
  { unfold keep. induction (Prelude.entries m) as [|x l IH]; [done|]. rewrite filter_cons.
    destruct (decide _); cbn; [by apply sublist_skip|by apply sublist_cons]. }
  eapply sublist_NoDup; [exact (NoDup_keys m)|exact Hk].
Qed.

Lemma NoDup_waiting self : NoDup (waiting_requests self).
Proof. unfold waiting_requests. apply (NoDup_keep_keys _ (requests self)). Qed.

Lemma moves_schedule self : consistent self -> self ~> schedule self.
Proof.
  intros H. unfold schedule. destruct (stopped self) eqn:Hst; [apply moves_refl|].
  set (ids := waiting_requests self).
  assert (Hw : forall id, id ∈ ids -> is_waiting self id) by (intros id Hid; by apply waiting_requests_spec).
  eapply moves_then; [done|apply moves_reuse_all; [apply NoDup_waiting|done|done|done]|]. intros H1.
  assert (Hs1 : stopped (for_ids ids reuse_for self) = false).
  { apply (for_ids_keeps (fun s => stopped s = false)); [|done]. intros id s Hs. by rewrite reuse_for_stopped. }
  eapply moves_then; [done|by apply moves_open_all|]. intros H2. apply moves_evict_all; [done|].
  intros id Hid. apply (for_ids_keeps (fun s => is_Some (requests s !! id))).
  { intros i s Hs. by rewrite open_for_dom. }
  apply (for_ids_keeps (fun s => is_Some (requests s !! id))).
  { intros i s Hs. by rewrite reuse_for_dom. }
  destruct (Hw id Hid) as (p & Hp & _). by eexists.
Qed.

Lemma moves_scheduled a b : consistent a -> a ~> b -> a ~> touch (schedule b).
Proof. intros H Hab. eapply moves_then; [done|exact Hab|]. intros Hb. apply moves_touched. by apply moves_schedule. Qed.
(** ** Calls that end in [schedule] *)

Lemma moves_request request absolute self : consistent self -> Grant.asked grant request -> self ~> (request_until request absolute self).2.
Proof.
  intros H Hask. unfold request_until. destruct (driver_lost self); [apply moves_refl|].
  destruct (stopped self) eqn:Hst; [apply moves_refl|]. destruct (negb _) eqn:Hv; [apply moves_refl|].
  apply negb_false_iff in Hv. destruct (is_some_and _ _); [apply moves_refl|]. destruct (_ || _) eqn:Hcap; [apply moves_refl|].
  apply orb_false_iff in Hcap as [Hc1 Hc2].
  destruct (checked_add_u64 _ 1) as [serial|] eqn:Hser; [|apply moves_refl]. cbn [ok_or snd].
  apply checked_add_u64_Some in Hser as [-> _]. apply moves_scheduled; [done|]. apply moves_one.
  match goal with |- pchange _ _ (_ <| requests := <[_ := ?p]> _ |>) =>
    apply (p_request grant self p); try done; unfold requests_of; cbn [Pending.request]; lia end.
Qed.

Lemma moves_take id self : consistent self -> self ~> (take id self).2.
Proof.
  intros H. unfold take. destruct (requests self !! id) as [p|] eqn:Hp; [|apply moves_refl]. cbn [ok_or].
  destruct (Pending.state p) as [| |lease|error] eqn:Hs; try apply moves_refl; cbn [snd]; apply moves_touched.
  - destruct (ready_claim self id p lease H Hp Hs) as (e & He & Hst & _). rewrite He, Hst. apply moves_one.
    by apply (p_take grant self id p lease e).
  - apply moves_one. by apply (p_forget grant self id p error).
Qed.

(** Unclaimed entries close one after the other. *)
Lemma start_closing_entry c reason self d e : (start_closing c reason self).(entries) !! d = Some e ->
  self.(entries) !! d = Some e \/ (d = c /\ EntryState.is_closing e.(Entry.state) = true).
Proof.
  unfold start_closing. destruct (entries self !! c) as [e0|] eqn:He; [|by left].
  destruct (EntryState.is_closing _); [by left|]. cbn. intros [[<- <-]|[_ Hd]]%lookup_insert_Some; [by right|by left].
Qed.

Lemma start_closing_keeps c reason self d : is_Some (self.(entries) !! d) -> is_Some ((start_closing c reason self).(entries) !! d).
Proof.
  intros Hd. unfold start_closing. destruct (entries self !! c) eqn:He; [|done]. destruct (EntryState.is_closing _); [done|].
  cbn. apply lookup_insert_is_Some'. by right.
Qed.

Definition closable (self : PoolMachine.t) (c : ConnectionId.t) : Prop :=
  exists e, self.(entries) !! c = Some e /\ unclaimed e.

Lemma closable_closing c reason self d : closable self d -> closable (start_closing c reason self) d.
Proof.
  intros (e & He & Hu). destruct (start_closing_keeps c reason self d ltac:(by eexists)) as [e' He'].
  exists e'. split; [done|]. destruct (start_closing_entry c reason self d e' He') as [Hs|[_ Hs]]; [by simplify_eq|].
  unfold unclaimed. by destruct (Entry.state e').
Qed.

Lemma moves_close_all ids reason self : consistent self -> (forall c, c ∈ ids -> closable self c) ->
  self ~> close_all ids reason self.
Proof.
  unfold close_all. revert self. induction ids as [|c ids IH]; intros self H Hin; [apply moves_refl|]. rewrite for_ids_cons.
  destruct (Hin c ltac:(left)) as (e & He & Hu).
  eapply moves_then; [done|by apply (moves_start_closing c e)|]. intros H1. apply IH; [done|].
  intros d Hd. apply closable_closing, Hin. by right.
Qed.

Lemma entries_where_spec p self c : c ∈ entries_where p self <-> exists e, self.(entries) !! c = Some e /\ p e = true.
Proof.
  unfold entries_where. rewrite list_elem_of_fmap. split.
  - intros ([d e] & -> & Hin). apply elem_of_keep in Hin as [Hp Hin]. apply elem_of_entries in Hin. by exists e.
  - intros (e & He & Hp). exists (c, e). split; [done|]. apply elem_of_keep. split; [done|]. by apply elem_of_entries.
Qed.

(** Closing the entries of a test that only unclaimed entries pass. *)
Lemma moves_close_where p reason self : consistent self ->
  (forall c e, self.(entries) !! c = Some e -> p e = true -> unclaimed e) ->
  self ~> close_all (entries_where p self) reason self.
Proof.
  intros H Hp. apply moves_close_all; [done|]. intros c (e & He & Hpe)%entries_where_spec. exists e. split; [done|]. by eapply Hp.
Qed.

Lemma idle_unclaimed e : EntryState.is_idle e.(Entry.state) = true -> unclaimed e.
Proof. unfold unclaimed. by destruct (Entry.state e). Qed.

Lemma moves_discard_idle site self : consistent self -> self ~> (discard_idle site self).2.
Proof.
  intros H. apply moves_close_where; [done|]. intros c e _ Hp. apply andb_true_iff in Hp as [Hp _]. by apply idle_unclaimed.
Qed.

Lemma moves_expire_idle self : consistent self -> self ~> (expire_idle self).2.
Proof.
  intros H. unfold expire_idle. cbn [snd]. eapply moves_then; [done|apply moves_close_where; [done|]|].
  - intros c e _. apply idle_unclaimed.
  - apply moves_schedule.
Qed.

(** A credential scope no request of which is being served. *)
Definition scope_unclaimed (scope : string) (self : PoolMachine.t) : Prop :=
  forall c e, self.(entries) !! c = Some e -> e.(Entry.identity) = PoolIdentity.HttpsScoped scope -> unclaimed e.

Lemma moves_retire scope self : consistent self -> scope_unclaimed scope self -> self ~> retire_https_scope scope self.
Proof.
  intros H Hu. unfold retire_https_scope. eapply moves_then; [done|apply moves_close_where; [done|]|apply moves_schedule].
  intros c e He Hp. apply bool_decide_eq_true in Hp. by eapply Hu.
Qed.

Lemma moves_set_limit site n self : consistent self -> self ~> (set_limit site n self).2.
Proof.
  intros H. unfold set_limit. destruct (accepts_numbers self); [|apply moves_refl]. destruct (_ || _); [apply moves_refl|].
  apply moves_scheduled; [done|]. by apply moves_side.
Qed.

Lemma moves_clear_limit site self : consistent self -> self ~> clear_limit site self.
Proof. intros H. apply moves_scheduled; [done|]. by apply moves_side. Qed.

Lemma moves_set_settle site n self : self ~> (set_settle site n self).2.
Proof.
  unfold set_settle. destruct (accepts_numbers self); [|apply moves_refl]. destruct (negb _); [apply moves_refl|].
  by apply moves_side.
Qed.

Lemma moves_set_no_evict site on self : consistent self -> self ~> (set_no_evict site on self).2.
Proof.
  intros H. unfold set_no_evict. destruct (accepts_numbers self); [|apply moves_refl]. destruct (negb _); [apply moves_refl|].
  destruct on, (position _ _); try apply moves_refl; apply moves_scheduled; try done; by apply moves_side.
Qed.

Lemma is_live_spec lease self : is_live lease self = true ->
  exists e r, self.(entries) !! lease.(LeaseId.connection) = Some e /\ e.(Entry.state) = EntryState.Leased lease r.
Proof.
  unfold is_live, is_some_and. destruct (entries self !! _) as [e|]; [|done]. destruct (Entry.state e) eqn:Hs; try done.
  intros ->%bool_decide_eq_true. by eexists _, _.
Qed.

Lemma moves_scope lease scope self : self ~> (scope_https lease scope self).2.
Proof.
  unfold scope_https. destruct (negb _); [apply moves_refl|].
  destruct (entries self !! _) as [e|] eqn:He; [|apply moves_refl]. cbn [ok_or]. destruct (negb _); [apply moves_refl|].
  destruct (Entry.identity e); try apply moves_refl.
  - apply moves_touched, moves_one. apply (p_tweak grant self _ e); [done|]. split_and!; try done. cbn. by destruct (Entry.state e).
  - destruct (bool_decide _); [apply moves_touch|apply moves_refl].
Qed.

Lemma moves_release lease disposition since self : consistent self -> self ~> (release_at lease disposition since self).2.
Proof.
  intros H. unfold release_at. destruct (is_live lease self) eqn:Hl; [|apply moves_refl]. cbn [negb].
  apply is_live_spec in Hl as (e & r & He & Hs). rewrite He, Hs. destruct r; [apply moves_refl|]. cbn [snd].
  apply moves_scheduled; [done|]. destruct (_ && _) eqn:Hg.
  - apply andb_true_iff in Hg as [_ Hst]. apply negb_true_iff in Hst. apply moves_one. by eapply p_release.
  - apply (moves_start_closing _ e); [done|]. unfold unclaimed. by rewrite Hs.
Qed.

(** Disposal of an entry nobody waits for, or that is only being cancelled. *)
Lemma dispose_spec c settle e self : self.(entries) !! c = Some e ->
  exists h, dispose c settle self = self <| entries := delete c self.(entries) |> <| holds := hold_for c e h self.(holds) |>
    /\ (is_Some h -> self.(stopped) = false).
Proof.
  intros He. unfold dispose. rewrite He. cbn [stopped settles over].
  destruct (settle && negb (stopped self)) eqn:Hg; [|exists None; by destruct self]. destruct (_ =? 0).
  - exists None. split; [by destruct self|]. by intros [? ?].
  - match goal with |- context [Hold.mk _ ?x ?y] => exists (Some (Hold.mk e.(Entry.key) x y)) end. split; [done|].
    intros _. apply andb_true_iff in Hg as [_ Hg]. by apply negb_true_iff.
Qed.

Lemma moves_closed c self : consistent self -> Grant.disposed grant c -> self ~> (closed c self).2.
Proof.
  intros H Hf. unfold closed. destruct (entries self !! c) as [e|] eqn:He; [|apply moves_refl]. cbn [ok_or].
  destruct (Entry.state e) eqn:Hs; try apply moves_refl. destruct (_ || _); [|apply moves_refl]. cbn [snd].
  apply moves_scheduled; [done|]. destruct (dispose_spec c true e self He) as (h & -> & Hh). apply moves_one.
  apply (p_dispose grant self c e h); try done; unfold unclaimed; by rewrite Hs.
Qed.

Lemma moves_idle_closed c self : consistent self -> Grant.disposed grant c -> self ~> (idle_closed c self).2.
Proof.
  intros H Hf. unfold idle_closed. destruct (entries self !! c) as [e|] eqn:He; [|apply moves_refl]. cbn [ok_or].
  destruct (_ || _) eqn:Hg; [|apply moves_refl]. cbn [negb snd]. apply moves_scheduled; [done|]. apply moves_one.
  replace (self <| entries := delete c (entries self) |>) with
    (self <| entries := delete c (entries self) |> <| holds := hold_for c e None (holds self) |>) by (by destruct self).
  apply (p_dispose grant self c e None); try done; try (by intros [? ?]); unfold unclaimed; by destruct (Entry.state e).
Qed.

(** Holds lapse, and their evictors are served. *)
Lemma moves_lapse self : consistent self -> self ~> lapse_holds self.
Proof.
  intros H. unfold lapse_holds. destruct (lapsed self) as [|x l] eqn:Hl; [apply moves_refl|]. set (due := x :: l).
  assert (Hst : stopped self = false).
  { destruct (stopped self) eqn:Hs; [|done]. unfold lapsed in Hl. rewrite (co_stopped _ H Hs), entries_empty in Hl. done. }
  assert (Hf : forall due evs s, consistent s -> stopped s = false -> s ~> (foldl (fun '(evictors, self) (e : Z * ConnectionId.t) =>
        match self.(holds) !! e.2 with
        | Some hold => (evictors ++ option_list hold.(Hold.evictor), self <| holds := delete e.2 self.(holds) |>)
        | None => (evictors, self)
        end) (evs, s) due).2 /\ stopped (foldl (fun '(evictors, self) (e : Z * ConnectionId.t) =>
        match self.(holds) !! e.2 with
        | Some hold => (evictors ++ option_list hold.(Hold.evictor), self <| holds := delete e.2 self.(holds) |>)
        | None => (evictors, self)
        end) (evs, s) due).2 = false).
  { clear. intros due. induction due as [|e due IH]; intros evs s Hc Hs; cbn [foldl snd]; [split; [apply moves_refl|done]|].
    destruct (holds s !! e.2) as [hold|]; [|by apply IH].
    assert (Hm : s ~> (s <| holds := delete e.2 (holds s) |>)) by (apply moves_one, p_unhold, delete_subseteq).
    destruct (IH (evs ++ option_list (Hold.evictor hold)) _ (moves_consistent _ _ _ Hc Hm) Hs) as [IH1 IH2].
    split; [eapply moves_trans; [exact Hm|exact IH1]|exact IH2]. }
  specialize (Hf due [] self H Hst). destruct (foldl _ _ due) as [evs s]. cbn [snd] in Hf. destruct Hf as [Hm Hs].
  apply moves_touched. eapply moves_then; [done|exact Hm|]. clear -Hs. intros Hc. revert s Hs Hc.
  induction evs as [|id evs IH]; intros s Hs Hc; [apply moves_refl|]. rewrite for_ids_cons.
  destruct (is_some_and _ _); [|by apply IH]. eapply moves_then; [done|by apply moves_open|].
  intros Hc'. apply IH; [by rewrite open_for_stopped|done].
Qed.
(** ** Setup clocks *)

Section setup.
Variable source : Z -> nat -> Z.

(** A call on a clock changes the clock and what is to be woken. *)
Lemma on_clock_same {T} clock (action : SetupState.t -> T * SetupState.t) self :
  exists c w r, (on_clock source clock action self).2 = self <| clocks := c |> <| clock_wakes := w |> <| clock_retired := r |>.
Proof.
  unfold on_clock. destruct (Clocks.change _ _ _ _) as [u c]. cbn.
  exists c, (clock_wakes self ++ ClockUpdate.wakes u), (clock_retired self ++ ClockUpdate.retired u). done.
Qed.

Lemma arbitrate_same c error self :
  exists k w r, (arbitrate_setup_error source c error self).2
                = self <| clocks := k |> <| clock_wakes := w |> <| clock_retired := r |>.
Proof.
  unfold arbitrate_setup_error. destruct (shared_setup_clock c self).
  - match goal with |- context [on_clock source ?k ?a self] => destruct (on_clock_same k a self) as (k1 & w & r & Hs);
      destruct (on_clock source k a self) as [rec s1] end. cbn [snd] in *. by exists k1, w, r.
  - exists (clocks self), (clock_wakes self), (clock_retired self). by destruct self.
Qed.

Lemma moves_clocked self k w r : self ~> self <| clocks := k |> <| clock_wakes := w |> <| clock_retired := r |>.
Proof. by apply moves_side. Qed.

Lemma moves_on_clock {T} clock (action : SetupState.t -> T * SetupState.t) self : self ~> (on_clock source clock action self).2.
Proof. destruct (on_clock_same clock action self) as (k & w & r & ->). apply moves_clocked. Qed.

Lemma moves_notifications self : self ~> (take_setup_notifications self).2.
Proof. by apply moves_side. Qed.

Lemma with_clock_tweak clock e : tweak e (with_clock clock e).
Proof.
  unfold with_clock, tweak. destruct (Entry.state e) eqn:Hs; cbn; rewrite ?Hs; split_and!; try done.
Qed.

Lemma moves_set_clock c clock self : self ~> set_connect_clock c clock self.
Proof.
  unfold set_connect_clock. apply moves_touched. destruct (entries self !! c) as [e|] eqn:He; [|apply moves_refl].
  apply moves_one. apply (p_tweak grant self c e); [done|]. apply with_clock_tweak.
Qed.

Lemma moves_set_entry c f self e : self.(entries) !! c = Some e -> tweak e (f e) -> self ~> set_entry c f self.
Proof. intros He Ht. unfold set_entry. rewrite He. apply moves_one. by apply (p_tweak grant self c e). Qed.

Lemma moves_install c stall self : self ~> (install_setup_clock source c stall self).2.
Proof.
  unfold install_setup_clock. destruct (entries self !! c) as [e|] eqn:He; [|apply moves_refl]. cbn [ok_or].
  destruct (Entry.state e) as [r [[until|until rem|until rem|clk]|] n1 n2 [cl|]|s|l r|rs cl] eqn:Hs; try apply moves_refl.
  destruct (Clocks.new _ _ _ _) as [k ks]. set (self1 := self <| clocks := ks |>).
  destruct (on_clock_same k SetupState.observe self1) as (k1 & w & r1 & Hs1).
  destruct (on_clock source k SetupState.observe self1) as [obs self2]. cbn [snd] in Hs1. subst self2.
  assert (Hm : self ~> self1 <| clocks := k1 |> <| clock_wakes := w |> <| clock_retired := r1 |>) by (by apply moves_side).
  destruct obs; cbn [snd]; [|exact Hm]. apply moves_touched. eapply moves_trans; [exact Hm|].
  apply (moves_set_entry c _ _ e); [done|]. apply with_clock_tweak.
Qed.

(** ** Failing a request *)

Lemma moves_fail id error reason self : consistent self -> self ~> (fail_request source id error reason self).2.
Proof.
  intros H. unfold fail_request. destruct (requests self !! id) as [p|] eqn:Hp; [|apply moves_refl]. cbn [ok_or].
  destruct (Pending.state p) as [|c|lease|err] eqn:Hs; try apply moves_refl.
  - apply moves_touched. unfold set_request. rewrite Hp. apply moves_one. by apply p_fail.
  - destruct (arbitrate_same c error self) as (k & w & r & Ha).
    destruct (arbitrate_setup_error source c error self) as [error' self1]. cbn [snd] in *. subst self1.
    eapply moves_then; [done|apply (moves_clocked self k w r)|]. intros H1. set (self1 := self <| clocks := k |> <| clock_wakes := w |> <| clock_retired := r |>) in *.
    assert (Hp1 : requests self1 !! id = Some p) by done. clearbody self1.
    pose proof (co_requests _ H1 id p Hp1) as Hr. rewrite Hs in Hr. destruct Hr as (e & He & Hr). rewrite He.
    destruct (Entry.state e) as [r1 clk n1 n2 cn| | |] eqn:Hst; try done. cbn in Hr. subst r1.
    destruct clk as [clk|]; cbn [snd]; apply moves_touched; unfold set_request; cbn [requests over]; rewrite Hp1; apply moves_one.
    + by eapply p_fail_connecting.
    + by eapply p_fail_unsent.
  - destruct (ready_claim self id p lease H Hp Hs) as (e & He & Hst & _). unfold start_closing. rewrite He, Hst. cbn [EntryState.is_closing snd].
    apply moves_touched. unfold set_request. cbn [requests touch over]. rewrite Hp.
    eapply moves_trans; [apply moves_one; eapply (p_fail_ready grant self id p lease e error reason); [done..]|]. by apply moves_side.
Qed.

Lemma moves_fail_all ids error reason self : consistent self -> self ~> fail_all source ids error reason self.
Proof.
  unfold fail_all. revert self. induction ids as [|id ids IH]; intros self H; [apply moves_refl|]. rewrite for_ids_cons.
  eapply moves_then; [done|by apply moves_fail|]. apply IH.
Qed.

Lemma moves_cancel id self : consistent self -> self ~> (cancel source id self).2.
Proof.
  intros H. unfold cancel. pose proof (moves_fail id PoolError.Cancelled CloseReason.Cancelled self H) as Hm.
  destruct (fail_request _ _ _ _ _) as [[[]|] self1]; [|exact Hm]. cbn [snd] in *.
  eapply moves_then; [done|exact Hm|]. apply moves_schedule.
Qed.

(** A request that has been failed stays failed through the scheduler. *)
Lemma fail_request_failed id error reason self : is_Some (self.(requests) !! id) -> consistent self ->
  exists p err, (fail_request source id error reason self).2.(requests) !! id = Some p
    /\ p.(Pending.state) = RequestState.Failed err.
Proof.
  intros [p Hp] H. unfold fail_request. rewrite Hp. cbn [ok_or]. destruct (Pending.state p) as [|c|lease|err] eqn:Hs.
  - cbn [snd requests touch over]. unfold set_request. rewrite Hp. cbn. rewrite lookup_insert_eq. eexists _, _. done.
  - destruct (arbitrate_same c error self) as (k & w & r & Ha).
    destruct (arbitrate_setup_error source c error self) as [error' self1]. cbn [snd] in *. subst self1.
    cbn [entries over]. destruct (entries self !! c) as [e|];
      [destruct (Entry.state e) as [r1 [clk|] n1 n2 cn| | |]|]; cbn [snd requests touch over];
      unfold set_request; cbn [requests over panic]; rewrite Hp; cbn; rewrite lookup_insert_eq; eexists _, _; done.
  - cbn [snd requests touch over]. unfold set_request. rewrite start_closing_requests, Hp. cbn. rewrite lookup_insert_eq. by eexists _, _.
  - cbn [snd]. by eexists _, _.
Qed.

(** What failing one request does to the requests. *)
Lemma fail_request_others id error reason self i p' : 
  (fail_request source id error reason self).2.(requests) !! i = Some p' ->
  exists p, self.(requests) !! i = Some p /\ p'.(Pending.request) = p.(Pending.request)
    /\ (p' = p \/ exists err, p'.(Pending.state) = RequestState.Failed err).
Proof.
  assert (Hset : forall err (s : PoolMachine.t), s.(requests) = self.(requests) ->
    (touch (set_request id (fail_with err) s)).(requests) !! i = Some p' ->
    exists p, self.(requests) !! i = Some p /\ p'.(Pending.request) = p.(Pending.request)
      /\ (p' = p \/ exists err, p'.(Pending.state) = RequestState.Failed err)).
  { intros err s Hs. cbn [requests touch over]. unfold set_request. rewrite Hs. destruct (requests self !! id) as [p|] eqn:Hp.
    - cbn. intros [[<- <-]|[_ Hi]]%lookup_insert_Some; [exists p|exists p'; by auto]. split_and!; try done. right. by eexists.
    - cbn. rewrite Hs. intros Hi. exists p'. by auto. }
  unfold fail_request. destruct (requests self !! id) as [p|] eqn:Hp; cbn [ok_or]; [|intros Hi; exists p'; by auto].
  destruct (Pending.state p) as [|c|lease|err] eqn:Hst.
  - by apply Hset.
  - destruct (arbitrate_same c error self) as (k & w & r & Ha).
    destruct (arbitrate_setup_error source c error self) as [error' self1]. cbn [snd] in *. subst self1.
    apply Hset. cbn [entries over]. destruct (entries self !! c) as [e|]; [|done].
    by destruct (Entry.state e) as [r1 [clk|] n1 n2 cn| | |].
  - apply Hset. apply start_closing_requests.
  - cbn [snd]. intros Hi. exists p'. by auto.
Qed.

Lemma fail_all_others ids error reason self i p' : 
  (fail_all source ids error reason self).(requests) !! i = Some p' ->
  exists p, self.(requests) !! i = Some p /\ p'.(Pending.request) = p.(Pending.request)
    /\ (p' = p \/ exists err, p'.(Pending.state) = RequestState.Failed err).
Proof.
  unfold fail_all. revert self. induction ids as [|id ids IH]; intros self; [intros Hi; exists p'; by auto|].
  rewrite for_ids_cons. intros (q & Hq & Hr & Hc)%IH. apply fail_request_others in Hq as (p & Hp & Hr' & Hc').
  exists p. split_and!; [done|congruence|]. destruct Hc as [->|Hc]; [done|by right].
Qed.

(** Every request of the list has failed. *)
Lemma fail_all_failed ids error reason self id p' : consistent self -> id ∈ ids ->
  (fail_all source ids error reason self).(requests) !! id = Some p' -> exists err, p'.(Pending.state) = RequestState.Failed err.
Proof.
  unfold fail_all. revert self. induction ids as [|i ids IH]; intros self H Hin; [by apply not_elem_of_nil in Hin|].
  rewrite for_ids_cons. pose proof (moves_fail i error reason self H) as Hm. pose proof (moves_consistent _ _ _ H Hm) as H1.
  apply elem_of_cons in Hin as [->|Hin]; [|by apply IH]. intros Hp'. pose proof (fail_all_others ids error reason _ i p' Hp') as (q & Hq & _ & Hc).
  destruct Hc as [->|Hc]; [|done]. pose proof (fail_request_others i error reason self i q Hq) as (p0 & Hp0 & _).
  destruct (fail_request_failed i error reason self ltac:(by eexists) H) as (q' & err & Hq' & Hs). exists err. congruence.
Qed.

Lemma requests_where_spec p self id : id ∈ requests_where p self <-> exists q, self.(requests) !! id = Some q /\ p q = true.
Proof.
  unfold requests_where. rewrite list_elem_of_fmap. split.
  - intros ([d e] & -> & Hin). apply elem_of_keep in Hin as [Hp Hin]. apply elem_of_entries in Hin. by exists e.
  - intros (e & He & Hp). exists (id, e). split; [done|]. apply elem_of_keep. split; [done|]. by apply elem_of_entries.
Qed.

(** A claimed entry's request is live, and has the entry's owner. *)
Lemma claimed_request self c e : consistent self -> self.(entries) !! c = Some e -> ~ unclaimed e ->
  exists id p, self.(requests) !! id = Some p /\ serves e p
    /\ (forall err, p.(Pending.state) <> RequestState.Failed err) /\ p.(Pending.state) <> RequestState.Waiting.
Proof.
  intros H He Hu. pose proof (co_entries _ H c e He) as Hok. unfold unclaimed, entry_ok in *.
  destruct (Entry.state e) as [[r|] ? ? ? ?| |l [r|]|]; try (by destruct Hu).
  - destruct Hok as (_ & p & Hp & Hs & Ho). exists r, p. rewrite Hs. done.
  - destruct Hok as (_ & _ & p & Hp & Hs & Ho). exists r, p. rewrite Hs. done.
Qed.

Lemma unclaimed_dec e : {unclaimed e} + {~ unclaimed e}.
Proof. unfold unclaimed. destruct (Entry.state e) as [[r|] ? ? ? ?| |l [r|]|]; auto. Qed.

Lemma moves_cancel_matching matches self : consistent self -> self ~> cancel_matching source matches self.
Proof.
  intros H. unfold cancel_matching. set (ids := requests_where _ self).
  pose proof (moves_fail_all ids PoolError.Cancelled CloseReason.Cancelled self H) as Hm.
  pose proof (moves_consistent _ _ _ H Hm) as H1. eapply moves_trans; [exact Hm|].
  set (self1 := fail_all _ _ _ _ _) in *.
  eapply moves_then; [done|apply moves_close_where; [done|]|apply moves_schedule].
  intros c e He Hp. apply andb_true_iff in Hp as [Hp _]. destruct (unclaimed_dec e) as [|Hu]; [done|].
  destruct (claimed_request self1 c e H1 He Hu) as (id & p & Hp1 & [Ho _] & Hnf & _). rewrite Ho in Hp. cbn in Hp.
  destruct (fail_all_others _ _ _ _ _ _ Hp1) as (p0 & Hp0 & Hr & _).
  assert (Hin : id ∈ ids) by (apply requests_where_spec; exists p0; by rewrite <- Hr).
  destruct (fail_all_failed _ _ _ _ _ _ H Hin Hp1) as [err Hf]. by destruct (Hnf err).
Qed.

Lemma moves_stop error reason self : consistent self -> self ~> stop source error reason self.
Proof.
  intros H. unfold stop. set (self0 := self <| stopped := true |> <| holds := ∅ |>).
  assert (Hm0 : self ~> self0).
  { eapply moves_trans; [apply moves_one, (p_unhold grant self ∅), map_empty_subseteq|]. by apply moves_book; auto. }
  pose proof (moves_consistent _ _ _ H Hm0) as H0. eapply moves_trans; [exact Hm0|].
  pose proof (moves_fail_all (keys (requests self0)) error reason self0 H0) as Hm.
  pose proof (moves_consistent _ _ _ H0 Hm) as H1. eapply moves_trans; [exact Hm|].
  set (self1 := fail_all _ _ _ _ _) in *. apply moves_touched, moves_close_where; [done|].
  intros c e He _. destruct (unclaimed_dec e) as [|Hu]; [done|].
  destruct (claimed_request self1 c e H1 He Hu) as (id & p & Hp1 & _ & Hnf & _).
  destruct (fail_all_others _ _ _ _ _ _ Hp1) as (p0 & Hp0 & _).
  destruct (fail_all_failed _ _ _ _ _ _ H0 (proj2 (elem_of_keys _ _) (mk_is_Some _ _ Hp0)) Hp1) as [err Hf]. by destruct (Hnf err).
Qed.
End setup.
End moves.
