(* ===== verification/PoolCalls.v ===== *)
(** * The pool's remaining calls: a connector's answer, commands, waits and time *)
From S2P Require Import Prelude Utf8 Cbor Protocol Validate Binding BindingFacts PoolTypes SetupClock Pool PoolSteps PoolMoves.
Import PoolMachine.

(** The scheduler touches no request but those that wait. *)
Lemma open_for_other id self i : i <> id -> (open_for id self).(requests) !! i = self.(requests) !! i.
Proof.
  intros Hi. unfold open_for. destruct (requests self !! id); [|done]. destruct (_ || _); [done|]. destruct (_ || _); [done|].
  destruct (checked_add_u64 _ _); cbn [requests touch over]; by rewrite set_request_other.
Qed.

Lemma evict_for_other id self i : i <> id -> (evict_for id self).(requests) !! i = self.(requests) !! i.
Proof.
  intros Hi. unfold evict_for. destruct (requests self !! id); [|done]. destruct (_ || _); [done|]. destruct (existsb _ _); [done|].
  destruct (owner_full _ _); [done|]. destruct (victim_for _ _ _); [|done]. by rewrite set_request_other, start_closing_requests.
Qed.

Lemma for_ids_other (f : RequestId.t -> PoolMachine.t -> PoolMachine.t) ids self i :
  (forall id s, i <> id -> (f id s).(requests) !! i = s.(requests) !! i) -> i ∉ ids ->
  (for_ids ids f self).(requests) !! i = self.(requests) !! i.
Proof.
  intros Hf. revert self. induction ids as [|id ids IH]; intros self Hi; [done|]. rewrite for_ids_cons.
  apply not_elem_of_cons in Hi as [Hne Hi]. rewrite IH by done. by apply Hf.
Qed.

Lemma schedule_other self i : ~ is_waiting self i -> (schedule self).(requests) !! i = self.(requests) !! i.
Proof.
  intros Hi. unfold schedule. destruct (stopped self); [done|].
  assert (Hn : i ∉ waiting_requests self) by (by rewrite waiting_requests_spec).
  rewrite !for_ids_other; try done; intros id s Hne.
  - by apply reuse_for_other.
  - by apply open_for_other.
  - by apply evict_for_other.
Qed.

Section calls.
Variable source : Z -> nat -> Z.
Context {grant : Grant.t}.
Notation "a ~> b" := (moves grant a b) (at level 70).

Lemma moves_abandon id self : consistent self -> self ~> abandon source id self.
Proof.
  intros H. unfold abandon. assert (Hm : self ~> (cancel source id self).2) by (by apply moves_cancel).
  destruct (cancel source id self) as [[[]|] self1] eqn:Hc; cbn [snd] in Hm; [|exact Hm].
  eapply moves_trans; [exact Hm|]. apply moves_touched, moves_one.
  unfold cancel in Hc. destruct (fail_request _ _ _ _ _) as [[[]|] self2] eqn:Hf; [|done]. injection Hc as <-.
  assert (Hin : is_Some (requests self !! id)).
  { unfold fail_request in Hf. destruct (requests self !! id); [by eexists|done]. }
  destruct (fail_request_failed source id PoolError.Cancelled CloseReason.Cancelled self Hin H) as (p & err & Hp & Hs).
  rewrite Hf in Hp. cbn [snd] in Hp. apply (p_forget grant _ id p err); [|done]. rewrite schedule_other; [done|].
  intros (q & Hq & Hsq). congruence.
Qed.

(** ** A connector's answer *)

Lemma set_request_eq id p f self : self.(requests) !! id = Some p ->
  set_request id f self = self <| requests := <[id := f p]> self.(requests) |>.
Proof. intros Hp. unfold set_request. by rewrite Hp. Qed.

Lemma moves_establish c proven id p e clock n1 n2 cancel self : consistent self ->
  self.(entries) !! c = Some e -> e.(Entry.state) = EntryState.Opening (Some id) (Some clock) n1 n2 cancel ->
  self.(requests) !! id = Some p -> p.(Pending.state) = RequestState.Opening c -> self ~> establish c proven id self.
Proof.
  intros H He Hst Hp Hs. unfold establish, lease_id. destruct (checked_add_u64 _ 1) as [serial|] eqn:Hser; cbn [ok_or].
  - apply checked_add_u64_Some in Hser as [-> _]. unfold set_entry. cbn [entries over]. rewrite He.
    rewrite (set_request_eq id p) by done. apply moves_one. by eapply (p_establish grant self id p c e).
  - rewrite (set_request_eq id p) by done. unfold start_closing. cbn [entries over]. rewrite He, Hst. cbn [EntryState.is_closing].
    apply moves_touched, moves_one. by eapply (p_fail_close grant self id p c e).
Qed.

(** Closing or disposing of an opening entry, and failing its request if it has one. *)
Definition fail_opening (request : option RequestId.t) (error : PoolError.t) (self : PoolMachine.t) : PoolMachine.t :=
  match request with Some id => set_request id (fail_with error) self | None => self end.

Lemma opening_pending self c e request clock n1 n2 cancel id : consistent self -> self.(entries) !! c = Some e ->
  e.(Entry.state) = EntryState.Opening request clock n1 n2 cancel -> request = Some id ->
  exists p, self.(requests) !! id = Some p /\ p.(Pending.state) = RequestState.Opening c.
Proof.
  intros H He Hst ->. pose proof (co_entries _ H c e He) as Hok. unfold entry_ok in Hok. rewrite Hst in Hok.
  destruct Hok as (_ & p & Hp & Hs & _). by exists p.
Qed.

Lemma moves_fail_close request error reason c e clock n1 n2 cancel self : consistent self ->
  self.(entries) !! c = Some e -> e.(Entry.state) = EntryState.Opening request clock n1 n2 cancel ->
  self ~> start_closing c reason (fail_opening request error self).
Proof.
  intros H He Hst. destruct request as [id|]; cbn [fail_opening].
  - destruct (opening_pending _ _ _ _ _ _ _ _ id H He Hst eq_refl) as (p & Hp & Hs).
    rewrite (set_request_eq id p) by done. unfold start_closing. cbn [entries over]. rewrite He, Hst. cbn [EntryState.is_closing].
    apply moves_touched, moves_one. by eapply (p_fail_close grant self id p c e).
  - apply (moves_start_closing c e); [done|]. unfold unclaimed. by rewrite Hst.
Qed.

Lemma moves_fail_dispose request error settle c e clock n1 n2 cancel self : consistent self -> Grant.disposed grant c ->
  self.(entries) !! c = Some e -> e.(Entry.state) = EntryState.Opening request clock n1 n2 cancel ->
  self ~> fail_opening request error (dispose c settle self).
Proof.
  intros H Hf He Hst. destruct (dispose_spec c settle e self He) as (h & -> & Hh). destruct request as [id|]; cbn [fail_opening].
  - destruct (opening_pending _ _ _ _ _ _ _ _ id H He Hst eq_refl) as (p & Hp & Hs).
    rewrite (set_request_eq id p) by done. apply moves_one. by apply (p_fail_dispose grant self id p c e).
  - apply moves_one. apply (p_dispose grant self c e h); try done; unfold unclaimed; by rewrite Hst.
Qed.

Lemma moves_connect_result c shared result' self : consistent self -> (is_ok result' = false -> Grant.disposed grant c) ->
  (shared = false -> shared_setup_clock c self = None) -> self ~> (connect_result source c shared result' self).2.
Proof.
  intros H Hf Hsh. unfold connect_result. destruct (entries self !! c) as [e|] eqn:He; [|apply moves_refl]. cbn [ok_or].
  destruct (Entry.state e) as [request [clock|] n1 n2 cancel|s|l r|rs cl] eqn:Hst; try apply moves_refl.
  destruct (_ && _) eqn:Hg.
  - destruct (clock_error clock) eqn:Hce.
    + destruct request as [id|]; [|apply moves_scheduled; [done|apply moves_refl]].
      match goal with |- context [fail_request source id ?err ?r self] =>
        assert (Hm : self ~> (fail_request source id err r self).2) by (by apply moves_fail) end.
      destruct (fail_request _ _ _ _ _) as [[[]|] self1]; cbn [snd] in *; [by apply moves_scheduled|exact Hm].
    + apply andb_true_iff in Hg as [Hg _]. apply negb_true_iff in Hg. specialize (Hsh Hg).
      unfold shared_setup_clock in Hsh. rewrite He in Hsh. cbn in Hsh. rewrite Hst in Hsh. by destruct clock.
  - apply moves_scheduled; [done|]. destruct result' as [proof|failure].
    + destruct (is_some cancel || _) eqn:Hcm.
      * by eapply (moves_fail_close request).
      * pose proof (co_entries _ H c e He) as Hok. unfold entry_ok in Hok. rewrite Hst in Hok. destruct request as [id|].
        -- destruct (opening_pending _ _ _ _ _ _ _ _ id H He Hst eq_refl) as (p & Hp & Hs). by eapply moves_establish.
        -- destruct Hok as [_ [x Hx]]. rewrite Hx in Hcm. done.
    + eapply (moves_fail_dispose request); try done. by apply Hf.
Qed.

Lemma settle_setup_same clock c result' self :
  exists k w r, (settle_setup source clock c result' self).2 = self <| clocks := k |> <| clock_wakes := w |> <| clock_retired := r |>.
Proof.
  unfold settle_setup. destruct (bool_decide _).
  - destruct (on_clock_same source clock SetupState.admit_completed self) as (k & w & r & Hs).
    destruct (on_clock source clock SetupState.admit_completed self) as [res self1]. cbn [snd] in Hs. subst self1.
    assert (Hterm : forall cause, exists k' w' r', (on_clock source clock (SetupState.terminate cause)
      (self <| clocks := k |> <| clock_wakes := w |> <| clock_retired := r |>)).2
      = self <| clocks := k' |> <| clock_wakes := w' |> <| clock_retired := r' |>).
    { intros cause. destruct (on_clock_same source clock (SetupState.terminate cause)
        (self <| clocks := k |> <| clock_wakes := w |> <| clock_retired := r |>)) as (k' & w' & r' & ->). by exists k', w', r'. }
    destruct res as [rec|[]]; try apply Hterm; by exists k, w, r.
  - apply on_clock_same.
Qed.

Lemma moves_connected c result' self : consistent self -> (is_ok result' = false -> Grant.disposed grant c) ->
  self ~> (connected source c result' self).2.
Proof.
  intros H Hf. unfold connected. destruct (shared_setup_clock c self) as [clock|] eqn:Hsh; [|by apply moves_connect_result].
  destruct (settle_setup_same clock c result' self) as (k & w & r & Hs).
  destruct (settle_setup source clock c result' self) as [record self1]. cbn [snd] in Hs.
  assert (Hm : self ~> self1) by (subst self1; apply moves_clocked). pose proof (moves_consistent _ _ _ H Hm) as H1.
  eapply moves_trans; [exact Hm|]. destruct (negb _ || _) eqn:Hg; [|by apply moves_connect_result].
  unfold shared_setup_clock in Hsh. destruct (entries self !! c) as [e|] eqn:He; [|done]. cbn [and_then] in Hsh.
  assert (He1 : entries self1 !! c = Some e) by (by subst self1). rewrite He1. cbn [and_then].
  destruct (Entry.state e) as [request [clk|] n1 n2 cancel|s|l r'|rs cl] eqn:Hst; try done. cbn [EntryState.opening_request snd].
  apply moves_scheduled; [done|]. destruct result' as [proof|failure]; cbn [is_ok negb].
  - by eapply (moves_fail_close request).
  - specialize (Hf eq_refl). match goal with |- context [dispose c ?settle ?s] => set (self2 := s) end.
    assert (He2 : entries self2 !! c = Some e).
    { subst self2. destruct request as [id|]; [|done]. unfold set_request. by destruct (requests self1 !! id). }
    match goal with |- context [dispose c ?settle self2] => destruct (dispose_spec c settle e self2 He2) as (h & -> & Hh) end.
    destruct request as [id|].
    + destruct (opening_pending _ _ _ _ _ _ _ _ id H1 He1 Hst eq_refl) as (p & Hp & Hs').
      subst self2. rewrite (set_request_eq id p) in * by done. apply moves_one.
      by apply (p_fail_dispose grant self1 id p c e (PoolError.SetupEnded record) h).
    + apply moves_one. apply (p_dispose grant self1 c e h); try done; unfold unclaimed; by rewrite Hst.
Qed.

(** ** Actions *)

Lemma first_step_spec step l c r : first_step step l = Some (c, r) -> exists e, (c, e) ∈ l /\ step c e = Some r.
Proof.
  induction l as [|[d e] l IH]; cbn; [done|]. destruct (step d e) as [r'|] eqn:Hs.
  - intros [= -> ->]. exists e. split; [left|done].
  - intros (f & Hf & Hr)%IH. exists f. split; [by right|done].
Qed.

Lemma first_step_none step l : first_step step l = None -> forall c e, (c, e) ∈ l -> step c e = None.
Proof.
  induction l as [|[d e] l IH]; cbn; [intros _ c e H; by apply not_elem_of_nil in H|].
  destruct (step d e) eqn:Hs; [done|]. intros H c f [[= -> ->]|Hin]%elem_of_cons; [done|]. by apply IH.
Qed.

Lemma cleanup_step_tweak now' c e action e' : cleanup_step now' c e = Some (action, e') -> tweak e e'.
Proof.
  unfold cleanup_step, tweak. destruct (Entry.state e) as [r clk n1 n2 [cl|]|s|l r|rs cl] eqn:Hs; try done.
  - destruct (_ && _); [|destruct (_ && _)]; try done; intros [= <- <-]; cbn; split_and!; try done; split; by eexists.
  - destruct (_ && _); [|destruct (_ && _)]; try done; intros [= <- <-]; cbn; by split_and!.
Qed.

Lemma connect_step_tweak c e action e' self : connect_step c e self = Some (action, e') -> tweak e e'.
Proof.
  unfold connect_step, tweak. destruct (Entry.state e) as [r [clk|] n1 n2 [cl|]|s|l r|rs cl] eqn:Hs; try done.
  intros [= <- <-]. cbn. split_and!; try done.
Qed.

Lemma moves_next_action self : self ~> (next_action self).2.
Proof.
  assert (Hone : forall c e e', (c, e) ∈ Prelude.entries self.(entries) -> tweak e e' ->
    self ~> touch (self <| entries := <[c := e']> self.(entries) |>)).
  { intros c e e' Hin Ht. apply elem_of_entries in Hin. apply moves_touched, moves_one. by apply (p_tweak grant self c e). }
  unfold next_action. destruct (first_step _ _) as [[c [action e']]|] eqn:Hf.
  - apply first_step_spec in Hf as (e & Hin & Hs). eapply Hone; [exact Hin|]. by eapply cleanup_step_tweak.
  - destruct (first_step (fun c e => connect_step c e self) _) as [[c [action e']]|] eqn:Hf'; [|apply moves_refl].
    apply first_step_spec in Hf' as (e & Hin & Hs). eapply Hone; [exact Hin|]. by eapply connect_step_tweak.
Qed.

(** ** Interactions and local waits *)

Lemma moves_clock_at c e request clk clk' n1 n2 n2' self : self.(entries) !! c = Some e ->
  e.(Entry.state) = EntryState.Opening request (Some clk) n1 n2 None ->
  self ~> self <| entries := <[c := e <| Entry.state := EntryState.Opening request (Some clk') n1 n2' None |>]> self.(entries) |>.
Proof.
  intros He Hs. apply moves_one. apply (p_tweak grant self c e); [done|]. unfold tweak. rewrite Hs. cbn. split_and!; try done.
Qed.

Lemma moves_begin_interaction c self : self ~> (begin_interaction c self).2.
Proof.
  unfold begin_interaction. destruct (entries self !! c) as [e|] eqn:He; [|apply moves_refl]. cbn [ok_or].
  destruct (Entry.state e) as [r [[until|until rem|until rem|clk]|] n1 n2 [cl|]|s|l r|rs cl] eqn:Hs; try apply moves_refl.
  destruct (bool_decide _); [apply moves_refl|]. destruct (_ =? 0); [apply moves_refl|]. by eapply moves_clock_at.
Qed.

Lemma moves_end_interaction c self : self ~> (end_interaction c self).2.
Proof.
  unfold end_interaction. destruct (entries self !! c) as [e|] eqn:He; [|apply moves_refl]. cbn [ok_or].
  destruct (Entry.state e) as [r [[until|until rem|until rem|clk]|] n1 n2 [cl|]|s|l r|rs cl] eqn:Hs; try apply moves_refl.
  destruct (_ <=? _); [apply moves_refl|]. by eapply moves_clock_at.
Qed.

Lemma moves_published clock (action : SetupState.t -> result unit PublicationError.t * SetupState.t) self :
  self ~> (let '(r, self) := on_clock source clock action self in (published r, self)).2.
Proof.
  assert (Hm : self ~> (on_clock source clock action self).2) by apply moves_on_clock.
  by destruct (on_clock source clock action self).
Qed.

Lemma moves_begin_local_wait c self : self ~> (begin_local_wait source c self).2.
Proof.
  unfold begin_local_wait. destruct (entries self !! c) as [e|] eqn:He; [|apply moves_refl]. cbn [ok_or].
  destruct (Entry.state e) as [r [[until|until rem|until rem|clk]|] n1 n2 [cl|]|s|l r|rs cl] eqn:Hs; try apply moves_refl.
  - destruct (ok_or _ _); [|apply moves_refl]. destruct (bool_decide _); [apply moves_refl|].
    destruct (_ <=? _); [apply moves_refl|]. apply moves_set_clock.
  - destruct (ok_or _ _); [|apply moves_refl]. apply moves_published.
Qed.

Lemma moves_end_local_wait c self : self ~> (end_local_wait source c self).2.
Proof.
  unfold end_local_wait. destruct (entries self !! c) as [e|] eqn:He; [|apply moves_refl]. cbn [ok_or].
  destruct (Entry.state e) as [r [[until|until rem|until rem|clk]|] n1 n2 [cl|]|s|l r|rs cl] eqn:Hs; try apply moves_refl.
  - apply moves_set_clock.
  - apply moves_published.
Qed.

(** ** Time *)

(** Looking for what has expired reads clocks, and finds every request's entry. *)
Lemma expiry_same id p self : consistent self -> self.(requests) !! id = Some p ->
  exists k, (expiry source p self).2 = self <| clocks := k |>.
Proof.
  intros H Hp. assert (Hid : exists k, self = self <| clocks := k |>) by (exists (clocks self); by destruct self).
  pose proof (co_requests _ H id p Hp) as Hr. unfold expiry. destruct (Pending.state p) as [|c|lease|error]; try exact Hid.
  destruct Hr as (e & He & _). rewrite He.
  destruct (Entry.state e) as [r [[until|until rem|until rem|clk]|] n1 n2 [cl|]|s|l r|rs cl]; try exact Hid.
  destruct (Clocks.change _ _ _ _) as [u k]. by exists k.
Qed.

Lemma expiries_same l self : consistent self -> (forall id p, (id, p) ∈ l -> self.(requests) !! id = Some p) ->
  exists k, (expiries source l self).2 = self <| clocks := k |>.
Proof.
  revert self. induction l as [|[id p] l IH]; intros self H Hl; cbn [expiries].
  - exists (clocks self). by destruct self.
  - destruct (expiry_same id p self H (Hl id p ltac:(left))) as [k Hk].
    destruct (expiry source p self) as [[error update] self1]. cbn [snd] in Hk. subst self1.
    assert (H1 : consistent (self <| clocks := k |>)) by (eapply moves_consistent; [exact H|]; by apply (@moves_side (Grant.mk (fun _ => True) (fun _ => True)))).
    destruct (IH (self <| clocks := k |>) H1 ltac:(intros i q Hi; apply Hl; by right)) as [k' Hk'].
    destruct (expiries source l _) as [[errs ups] self2]. cbn [snd] in *. subst self2. by exists k'.
Qed.

Lemma absorb_all_same (updates : list (ClockUpdate.t Observation.t)) self :
  exists w r, foldl (fun self update => (absorb_clock_update update self).2) self updates
              = self <| clock_wakes := w |> <| clock_retired := r |>.
Proof.
  revert self. induction updates as [|u us IH]; intros self; cbn [foldl].
  - exists (clock_wakes self), (clock_retired self). by destruct self.
  - destruct (IH ((absorb_clock_update u self).2)) as (w & r & ->). by exists w, r.
Qed.

Lemma moves_fail_each (l : list (RequestId.t * PoolError.t)) self : consistent self ->
  self ~> foldl (fun self e => (fail_request source e.1 e.2 CloseReason.Cancelled self).2) self l.
Proof.
  revert self. induction l as [|e l IH]; intros self H; cbn [foldl]; [apply moves_refl|].
  eapply moves_then; [done|by apply moves_fail|]. apply IH.
Qed.

Lemma moves_close_each (l : list (ConnectionId.t * CloseReason.t)) self : consistent self ->
  (forall e, e ∈ l -> closable self e.1) -> self ~> foldl (fun self e => start_closing e.1 e.2 self) self l.
Proof.
  revert self. induction l as [|x l IH]; intros self H Hin; cbn [foldl]; [apply moves_refl|].
  destruct (Hin x ltac:(left)) as (e & He & Hu).
  eapply moves_then; [done|eapply moves_start_closing; done|]. intros H1. apply IH; [done|].
  intros y Hy. apply closable_closing, Hin. by right.
Qed.

Lemma idle_expiry_unclaimed self e reason : idle_expiry self e = Some reason -> unclaimed e.
Proof. unfold idle_expiry, unclaimed. by destruct (Entry.state e). Qed.

Lemma moves_advance now_ms self : consistent self -> self ~> advance source now_ms self.
Proof.
  intros H. unfold advance. destruct (now_ms <? now self) eqn:Hn; [apply moves_refl|].
  set (self0 := self <| now := now_ms |>).
  assert (Hm0 : self ~> self0) by (apply moves_book; try done; cbn; try lia; auto).
  pose proof (moves_consistent _ _ _ H Hm0) as H0.
  destruct (expiries_same (Prelude.entries (requests self0)) self0 H0 ltac:(intros i q; apply elem_of_entries)) as [k Hk].
  destruct (expiries source _ self0) as [[expired updates] self1]. cbn [snd] in Hk.
  destruct (absorb_all_same updates self1) as (w & r & ->). set (self2 := self1 <| clock_wakes := w |> <| clock_retired := r |>).
  assert (Hm2 : self ~> self2) by (eapply moves_trans; [exact Hm0|]; subst self2 self1; by apply moves_side).
  clearbody self2. clear -H Hm2.
  set (self3 := foldl _ self2 expired).
  assert (Hm3 : self ~> self3) by (eapply moves_then; [done|exact Hm2|]; intros; by apply moves_fail_each).
  clearbody self3. set (idle := omap _ _).
  assert (Hm4 : self ~> foldl (fun self e => start_closing e.1 e.2 self) self3 idle).
  { eapply moves_then; [done|exact Hm3|]. intros H3. apply moves_close_each; [done|]. intros x Hx.
    apply list_elem_of_omap in Hx as ([c e] & Hin & Hx). cbn in Hx. destruct (idle_expiry self3 e) eqn:Hi; [|done].
    injection Hx as <-. exists e. split; [by apply elem_of_entries|]. by eapply idle_expiry_unclaimed. }
  set (self4 := foldl _ self3 idle) in *. clearbody self4.
  assert (Hm5 : self ~> schedule (lapse_holds self4)).
  { eapply moves_then; [done|exact Hm4|]. intros H4. eapply moves_then; [done|by apply moves_lapse|]. by apply moves_schedule. }
  destruct (_ && _); [by apply moves_touched|done].
Qed.
End calls.
