(* ===== verification/PoolRun.v ===== *)
(** * Runs of the pool

    Any sequence of the machine's calls, with what holds however the calls are
    interleaved: requests and entries stay consistent, a slot is held until the
    host says it is free, and an ended lease is stale for good. *)
From S2P Require Import Prelude Utf8 Cbor Protocol Validate Binding BindingFacts PoolTypes SetupClock Pool PoolSteps PoolMoves PoolCalls.
Import PoolMachine.

(** The calls of the machine. [ClocksMove] is what the other holders of the setup
    clocks do to them between two calls: anything. *)
Module PoolOp.
Inductive t :=
| Request (request : PoolRequest.t) (absolute_deadline : option Z)
| Take (id : RequestId.t)
| Cancel (id : RequestId.t)
| Abandon (id : RequestId.t)
| CancelOperation (owner : Owner.t)
| CancelSession (session : string)
| Shutdown
| LoseDriver
| NextAction
| Connected (connection : ConnectionId.t) (result' : result (option PoolIdentity.t) Failure.t)
| InstallSetupClock (connection : ConnectionId.t) (stall_ms : Z)
| TakeSetupNotifications
| ClocksMove (clocks : Clocks.t)
| BeginInteraction (connection : ConnectionId.t)
| EndInteraction (connection : ConnectionId.t)
| BeginLocalWait (connection : ConnectionId.t)
| EndLocalWait (connection : ConnectionId.t)
| Release (lease : LeaseId.t) (disposition : Disposition.t)
| ReleaseUnused (lease : LeaseId.t)
| ScopeHttps (lease : LeaseId.t) (scope : string)
| RetireHttpsScope (scope : string)
| Closed (connection : ConnectionId.t)
| IdleClosed (connection : ConnectionId.t)
| ExpireIdle
| DiscardIdle (site : Site.t)
| SetLimit (site : Site.t) (limit : Z)
| ClearLimit (site : Site.t)
| SetSettle (site : Site.t) (milliseconds : Z)
| SetNoEvict (site : Site.t) (on : bool)
| Advance (now_ms : Z).

(** The connection the host says it has disposed of. *)
Definition disposes (self : t) : option ConnectionId.t :=
  match self with
  | Connected connection (Err _) | Closed connection | IdleClosed connection => Some connection
  | _ => None
  end.
Definition asks (self : t) : option PoolRequest.t :=
  match self with Request request _ => Some request | _ => None end.
Definition grant (self : t) : Grant.t :=
  Grant.mk (fun c => disposes self = Some c) (fun r => asks self = Some r).
End PoolOp.

Section run.
Variable source : Z -> nat -> Z.

Definition pool_step (op : PoolOp.t) (self : PoolMachine.t) : PoolMachine.t :=
  match op with
  | PoolOp.Request request absolute => (request_until request absolute self).2
  | PoolOp.Take id => (take id self).2
  | PoolOp.Cancel id => (cancel source id self).2
  | PoolOp.Abandon id => abandon source id self
  | PoolOp.CancelOperation owner => cancel_operation source owner self
  | PoolOp.CancelSession session => cancel_session source session self
  | PoolOp.Shutdown => shutdown source self
  | PoolOp.LoseDriver => lose_driver source self
  | PoolOp.NextAction => (next_action self).2
  | PoolOp.Connected c r => (connected source c r self).2
  | PoolOp.InstallSetupClock c stall => (install_setup_clock source c stall self).2
  | PoolOp.TakeSetupNotifications => (take_setup_notifications self).2
  | PoolOp.ClocksMove k => self <| clocks := k |>
  | PoolOp.BeginInteraction c => (begin_interaction c self).2
  | PoolOp.EndInteraction c => (end_interaction c self).2
  | PoolOp.BeginLocalWait c => (begin_local_wait source c self).2
  | PoolOp.EndLocalWait c => (end_local_wait source c self).2
  | PoolOp.Release lease disposition => (release lease disposition self).2
  | PoolOp.ReleaseUnused lease => (release_unused lease self).2
  | PoolOp.ScopeHttps lease scope => (scope_https lease scope self).2
  | PoolOp.RetireHttpsScope scope => retire_https_scope scope self
  | PoolOp.Closed c => (closed c self).2
  | PoolOp.IdleClosed c => (idle_closed c self).2
  | PoolOp.ExpireIdle => (expire_idle self).2
  | PoolOp.DiscardIdle site => (discard_idle site self).2
  | PoolOp.SetLimit site n => (set_limit site n self).2
  | PoolOp.ClearLimit site => clear_limit site self
  | PoolOp.SetSettle site n => (set_settle site n self).2
  | PoolOp.SetNoEvict site on => (set_no_evict site on self).2
  | PoolOp.Advance now_ms => advance source now_ms self
  end.

Definition pool_run (ops : list PoolOp.t) (self : PoolMachine.t) : PoolMachine.t :=
  foldl (fun self op => pool_step op self) self ops.

(** The one call with a precondition: a scope is retired when none of its
    connections is being opened for, or held ready for, a request. *)
Definition permitted (op : PoolOp.t) (self : PoolMachine.t) : Prop :=
  match op with PoolOp.RetireHttpsScope scope => scope_unclaimed scope self | _ => True end.

Fixpoint run_permitted (ops : list PoolOp.t) (self : PoolMachine.t) : Prop :=
  match ops with [] => True | op :: ops => permitted op self /\ run_permitted ops (pool_step op self) end.

(** Every call is a sequence of the changes of [pchange]. *)
Lemma moves_step op self : consistent self -> permitted op self -> moves (PoolOp.grant op) self (pool_step op self).
Proof.
  intros H Hp. destruct op; cbn [pool_step].
  - by apply moves_request.
  - by apply moves_take.
  - by apply moves_cancel.
  - apply moves_abandon; exact H.
  - unfold cancel_operation, cancel_session. apply moves_cancel_matching. exact H.
  - unfold cancel_operation, cancel_session. apply moves_cancel_matching. exact H.
  - unfold shutdown. apply moves_stop. exact H.
  - assert (Hm : moves (PoolOp.grant PoolOp.LoseDriver) self (self <| driver_lost := true |>)) by (by apply moves_side).
    eapply moves_then; [exact H|exact Hm|]. unfold lose_driver. apply moves_stop.
  - apply moves_next_action.
  - apply moves_connected; [done|]. by destruct result'.
  - apply moves_install.
  - apply moves_notifications.
  - by apply moves_side.
  - apply moves_begin_interaction.
  - apply moves_end_interaction.
  - apply moves_begin_local_wait.
  - apply moves_end_local_wait.
  - by apply moves_release.
  - by apply moves_release.
  - apply moves_scope.
  - by apply moves_retire.
  - by apply moves_closed.
  - by apply moves_idle_closed.
  - by apply moves_expire_idle.
  - by apply moves_discard_idle.
  - by apply moves_set_limit.
  - by apply moves_clear_limit.
  - apply moves_set_settle.
  - by apply moves_set_no_evict.
  - by apply moves_advance.
Qed.

Lemma step_consistent op self : consistent self -> permitted op self -> consistent (pool_step op self).
Proof. intros H Hp. eapply moves_consistent; [exact H|by apply moves_step]. Qed.

Lemma run_consistent ops self : consistent self -> run_permitted ops self -> consistent (pool_run ops self).
Proof.
  revert self. induction ops as [|op ops IH]; intros self H Hp; [done|]. destruct Hp as [Hp Hps]. cbn.
  apply IH; [by apply step_consistent|done].
Qed.

(** What every change of every call keeps, a run keeps. *)
Lemma run_keep (P : PoolMachine.t -> Prop) (G : PoolOp.t -> Prop) ops self :
  (forall op a b, G op -> consistent a -> P a -> pchange (PoolOp.grant op) a b -> P b) ->
  consistent self -> run_permitted ops self -> Forall G ops -> P self -> P (pool_run ops self).
Proof.
  intros HP. revert self. induction ops as [|op ops IH]; intros self H Hp HG Hself; [done|]. destruct Hp as [Hp Hps].
  apply list.Forall_cons in HG as [Hop HG]. cbn. apply IH; [by apply step_consistent|done|done|].
  eapply (moves_keep P (PoolOp.grant op)); [|done|by apply moves_step|done]. intros a b Ha HPa Hc. by eapply (HP op a).
Qed.

Lemma new_consistent next_pool cfg self next' : new next_pool cfg = (Ok self, next') -> consistent self.
Proof.
  unfold new. destruct (PoolConfig.validate cfg); [|done]. destruct (ok_or _ _); [|done]. intros [= <- _].
  constructor; cbn; try done; try (intros; by rewrite lookup_empty in * ); try (intros ? [? Hx]; by rewrite lookup_empty in Hx).
  intros c [[? Hx]|[? Hx]]; by rewrite lookup_empty in Hx.
Qed.

(** ** Requests and entries are consistent in every state *)

(** The next deadline can be asked for in a consistent state. *)
Lemma next_deadline_defined self : consistent self -> is_Some (next_deadline self).
Proof.
  intros H. unfold next_deadline.
  assert (Hall : Forall (fun e => is_Some (request_deadline e.1 e.2 self)) (Prelude.entries (requests self))).
  { apply list.Forall_forall. intros [id p] Hin. apply elem_of_entries in Hin. cbn. pose proof (co_requests _ H id p Hin) as Hr.
    unfold request_deadline. destruct (Pending.state p); try (by eexists). destruct Hr as (e & -> & _). by eexists. }
  apply mapM_is_Some_2 in Hall as [queue ->]. by eexists.
Qed.

(** C17: Whatever calls are made on a new pool, in whatever order and with
    whatever arguments (a scope being retired only when no request is being
    served on it), the machine never hits one of its [expect]s, indexings or
    [unreachable!]s, and requests and entries belong to each other: a request
    that is being opened for or is ready has exactly its entry, and an entry
    that is being opened for or held ready for a request has that request, its
    owner and its key. *)
Theorem pool_never_panics next_pool cfg self next' ops :
  new next_pool cfg = (Ok self, next') -> run_permitted ops self ->
  (pool_run ops self).(panicked) = false /\ is_Some (next_deadline (pool_run ops self)) /\ consistent (pool_run ops self).
Proof.
  intros Hn Hp. assert (H : consistent (pool_run ops self)) by (apply run_consistent; [by eapply new_consistent|done]).
  split_and!; [by apply co_panicked|by apply next_deadline_defined|done].
Qed.

(** ** Leases *)

(** A change makes a lease live only under a generation that is new. *)
Lemma leased_after grant a b c e' lease r : consistent a -> pchange grant a b -> b.(entries) !! c = Some e' ->
  e'.(Entry.state) = EntryState.Leased lease r ->
  a.(lease_serial) < lease.(LeaseId.generation)
  \/ exists e r', a.(entries) !! c = Some e /\ e.(Entry.state) = EntryState.Leased lease r'.
Proof.
  intros H Hc. destruct Hc; cbn; intros He' Hs'; try (right; by exists e', r).
  all: try (apply lookup_insert_Some in He' as [[<- <-]|[_ He']]; [|right; by exists e', r]).
  all: try (apply lookup_delete_Some in He' as [_ He']; right; by exists e', r).
  all: try (cbn in Hs'; by simplify_eq).
  - match goal with E : entries _ = entries a |- _ => rewrite E in He' end. right. by exists e', r.
  - right. match goal with E : tweak _ _ |- _ => destruct E as (_ & _ & Ht) end. rewrite Hs' in Ht. exists e, r. split; [done|]. by destruct (Entry.state e).
  - left. unfold leased_to in Hs'. cbn in Hs'. injection Hs' as <- _. cbn. lia.
  - left. cbn in Hs'. injection Hs' as <- _. cbn. lia.
  - right. destruct (ready_claim a id p lease0 H ltac:(done) ltac:(done)) as (f & Hf & Hst & _). cbn in Hs'. injection Hs' as <- _. by exists f, (Some id).
Qed.

Lemma serial_grows grant a b : pchange grant a b -> a.(lease_serial) <= b.(lease_serial).
Proof. intros Hc. destruct Hc; cbn; lia. Qed.

(** A lease that has been given out and has ended. *)
Definition ended (lease : LeaseId.t) (self : PoolMachine.t) : Prop :=
  lease.(LeaseId.generation) <= self.(lease_serial) /\ is_live lease self = false.

Lemma is_live_false lease self :
  (forall e r, self.(entries) !! lease.(LeaseId.connection) = Some e -> e.(Entry.state) <> EntryState.Leased lease r) ->
  is_live lease self = false.
Proof.
  intros H. destruct (is_live lease self) eqn:Hl; [|done]. apply is_live_spec in Hl as (e & r & He & Hs). by destruct (H e r He).
Qed.

Lemma ended_change grant lease a b : consistent a -> ended lease a -> pchange grant a b -> ended lease b.
Proof.
  intros H [Hg Hl] Hc. pose proof (serial_grows _ _ _ Hc). split; [lia|]. apply is_live_false. intros e' r He' Hs.
  destruct (leased_after _ _ _ _ _ _ _ H Hc He' Hs) as [?|(e & r' & He & Hst)]; [lia|].
  unfold is_live in Hl. rewrite He in Hl. cbn in Hl. rewrite Hst, bool_decide_true in Hl; done.
Qed.

Lemma ended_moves grant lease a b : consistent a -> moves grant a b -> ended lease a -> ended lease b.
Proof. intros H Hm. apply (moves_keep (ended lease) grant); [|done..]. intros x y Hx Hex Hc. by eapply ended_change. Qed.

Lemma released_ends lease disposition since self : consistent self ->
  (release_at lease disposition since self).1 = Ok tt -> ended lease (release_at lease disposition since self).2.
Proof.
  intros H. unfold release_at. destruct (is_live lease self) eqn:Hl; [|done]. cbn [negb].
  apply is_live_spec in Hl as (e & r & He & Hs). rewrite He, Hs. destruct r; [done|]. cbn [fst snd]. intros _.
  match goal with |- ended lease (touch (schedule ?s)) => set (self1 := s) end.
  assert (Hm : moves (Grant.mk (fun _ => True) (fun _ => True)) self self1).
  { subst self1. destruct (_ && _) eqn:Hg.
    - apply andb_true_iff in Hg as [_ Hst]. apply negb_true_iff in Hst. apply moves_one. by eapply p_release.
    - eapply moves_start_closing; [exact He|]. unfold unclaimed. by rewrite Hs. }
  eapply (ended_moves (Grant.mk (fun _ => True) (fun _ => True)) lease self1); [by eapply moves_consistent| |].
  { apply moves_touched, moves_schedule. by eapply moves_consistent. }
  pose proof (co_entries _ H _ _ He) as Hok. unfold entry_ok in Hok. rewrite Hs in Hok. destruct Hok as (_ & Hgen & _).
  assert (Hser : lease_serial self1 = lease_serial self).
  { subst self1. destruct (_ && _); [done|]. unfold start_closing. rewrite He. by destruct (EntryState.is_closing _). }
  split; [lia|]. apply is_live_false. intros e' r' He' Hst'. subst self1. destruct (_ && _).
  - cbn in He'. rewrite lookup_insert_eq in He'. injection He' as <-. done.
  - unfold start_closing in He'. rewrite He, Hs in He'. cbn in He'. rewrite lookup_insert_eq in He'. injection He' as <-. done.
Qed.

(** A lease that has been released is stale for good: whatever calls follow,
    releasing it again, or scoping it, is refused as stale and changes nothing,
    even though its connection may be leased again to somebody else. *)
Theorem released_lease_stays_stale self lease disposition ops : consistent self ->
  let self1 := (release lease disposition self).2 in
  (release lease disposition self).1 = Ok tt -> run_permitted ops self1 ->
  let self2 := pool_run ops self1 in
  is_live lease self2 = false
  /\ (forall d, release lease d self2 = (Err PoolError.Stale, self2))
  /\ release_unused lease self2 = (Err PoolError.Stale, self2)
  /\ (forall scope, scope_https lease scope self2 = (Err PoolError.Stale, self2)).
Proof.
  intros H self1 Hr Hp self2.
  assert (Hm : consistent self1) by (apply (step_consistent (PoolOp.Release lease disposition)); done).
  assert (He : ended lease self2).
  { apply (run_keep (ended lease) (fun _ => True)); [|done..| |].
    - intros op a b _ Ha Hea Hc. by eapply ended_change.
    - by apply Forall_true.
    - by apply released_ends. }
  destruct He as [_ He]. split; [done|]. unfold release, release_unused, release_at, scope_https. by rewrite He.
Qed.

(** ** Slots *)

(** The host has been told to make the connection, or has made it. *)
Definition told (e : Entry.t) : Prop :=
  match e.(Entry.state) with EntryState.Opening _ None _ _ _ => False | _ => True end.

Definition holds_slot (c : ConnectionId.t) (self : PoolMachine.t) : Prop :=
  exists e, self.(entries) !! c = Some e /\ told e.

Lemma holds_slot_change grant c a b : consistent a -> ~ Grant.disposed grant c -> holds_slot c a -> pchange grant a b ->
  holds_slot c b.
Proof.
  intros H Hd (e & He & Ht) Hc. unfold holds_slot.
  assert (Hins : forall c' e', told e' -> exists f, <[c' := e']> (entries a) !! c = Some f /\ told f).
  { intros c' e' He'. destruct (decide (c = c')) as [->|]; [exists e'|exists e]; by rewrite ?lookup_insert_eq, ?lookup_insert_ne. }
  destruct Hc; cbn; try (by exists e); try (by apply Hins).
  - exists e. match goal with E : entries _ = entries a |- _ => by rewrite E end.
  - destruct (decide (c = c0)) as [<-|]; [exists e'; rewrite lookup_insert_eq|exists e; by rewrite lookup_insert_ne].
    split; [done|]. assert (e0 = e) as -> by congruence. match goal with E : tweak _ _ |- _ => destruct E as (_ & _ & E') end.
    unfold told in *. destruct (Entry.state e) as [? [] ? ? ?| | |], (Entry.state e') as [? [] ? ? ?| | |]; try done.
    destruct E' as (_ & E' & _). by destruct (E' ltac:(by eexists)).
  - destruct (fresh_connection a H) as [Hn _]. exists e. rewrite lookup_insert_ne; [done|]. intros Heq. unfold c0 in Heq. congruence.
  - exists e. rewrite lookup_delete_ne; [done|]. intros <-. assert (e0 = e) as -> by congruence. unfold told in Ht.
    match goal with E : Entry.state e = _ |- _ => by rewrite E in Ht end.
  - exists e. rewrite lookup_delete_ne; [done|]. by intros <-.
  - exists e. rewrite lookup_delete_ne; [done|]. by intros <-.
Qed.

(** A connection the host has been told to make keeps its slot until the
    host says that it is gone: in every run in which no call reports that
    connection failed, closed or closed while idle, its entry is still there,
    however the request it was for ended, and counts against every capacity. *)
Theorem slot_held_until_disposed self c ops : consistent self -> holds_slot c self -> run_permitted ops self ->
  Forall (fun op => PoolOp.disposes op <> Some c) ops -> holds_slot c (pool_run ops self).
Proof.
  intros H Hs Hp HG. apply (run_keep (holds_slot c) (fun op => PoolOp.disposes op <> Some c)); try done.
  intros op a b Hop Ha Hsa Hc. apply (holds_slot_change (PoolOp.grant op) c a b); done.
Qed.
End run.
