(* ===== verification/PoolDrain.v ===== *)
(** * Commands to the host, and a pool that stops *)
From S2P Require Import Prelude Utf8 Cbor Protocol Validate Binding BindingFacts PoolTypes SetupClock Pool PoolSteps PoolMoves PoolCalls PoolRun.
Import PoolMachine.

(** ** Commands end *)

(** The commands an entry may still cause without anything else happening. *)
Definition cleanup_due (cleanup : Cleanup.t) : nat :=
  if cleanup.(Cleanup.aborted) then 0 else if cleanup.(Cleanup.sent) then 1 else 2.
Definition commands_due (e : Entry.t) : nat :=
  match e.(Entry.state) with
  | EntryState.Opening _ _ _ _ (Some cleanup) | EntryState.Closing _ cleanup => cleanup_due cleanup
  | EntryState.Opening _ None _ _ None => 1
  | _ => 0
  end.
Definition all_due (self : PoolMachine.t) : nat := sum_list_with (fun e => commands_due e.2) (map_to_list self.(entries)).

(** The host takes commands until there is none. *)
Fixpoint take_actions (fuel : nat) (self : PoolMachine.t) : list Action.t * PoolMachine.t :=
  match fuel with
  | O => ([], self)
  | S fuel =>
      match next_action self with
      | (Some action, self) => let '(actions, self) := take_actions fuel self in (action :: actions, self)
      | (None, self) => ([], self)
      end
  end.

Lemma sum_list_with_perm {A} (f : A -> nat) l k : l ≡ₚ k -> sum_list_with f l = sum_list_with f k.
Proof. induction 1; cbn; lia. Qed.

Lemma due_update c e e' self : self.(entries) !! c = Some e ->
  (all_due (self <| entries := <[c := e']> self.(entries) |>) + commands_due e = all_due self + commands_due e')%nat.
Proof.
  intros He. unfold all_due. cbn [entries over].
  rewrite <- insert_delete_eq. rewrite (sum_list_with_perm _ _ _ (map_to_list_insert _ c e' (lookup_delete_eq _ _))).
  rewrite <- (sum_list_with_perm _ _ _ (map_to_list_delete _ c e He)). cbn. lia.
Qed.

Lemma cleanup_step_due now' c e action e' : cleanup_step now' c e = Some (action, e') ->
  (commands_due e' < commands_due e)%nat.
Proof.
  unfold cleanup_step, commands_due. destruct (Entry.state e) as [r [clk|] n1 n2 [cl|]|s|l r|rs cl]; try done.
  all: destruct cl as [d [] []]; cbn; try (destruct (d <=? now')); try done; intros [= <- <-]; cbn; unfold cleanup_due; cbn; lia.
Qed.

Lemma connect_step_due c e action e' self : connect_step c e self = Some (action, e') ->
  (commands_due e' < commands_due e)%nat.
Proof.
  unfold connect_step, commands_due. destruct (Entry.state e) as [r [clk|] n1 n2 [cl|]|s|l r|rs cl]; try done.
  intros [= <- <-]. cbn. lia.
Qed.

Lemma next_action_due self action self' : next_action self = (Some action, self') -> (all_due self' < all_due self)%nat.
Proof.
  assert (Hone : forall c e e', (c, e) ∈ Prelude.entries self.(entries) -> (commands_due e' < commands_due e)%nat ->
    (all_due (touch (self <| entries := <[c := e']> self.(entries) |>)) < all_due self)%nat).
  { intros c e e' Hin Ht. apply elem_of_entries in Hin. pose proof (due_update c e e' self Hin).
    change (all_due (touch ?s)) with (all_due s). lia. }
  unfold next_action. destruct (first_step _ _) as [[c [a e']]|] eqn:Hf.
  - intros [= _ <-]. apply first_step_spec in Hf as (e & Hin & Hs). eapply Hone; [exact Hin|]. by eapply cleanup_step_due.
  - destruct (first_step (fun c e => connect_step c e self) _) as [[c [a e']]|] eqn:Hf'; [|done].
    intros [= _ <-]. apply first_step_spec in Hf' as (e & Hin & Hs). eapply Hone; [exact Hin|]. by eapply connect_step_due.
Qed.

(** No command is due: each connecting or closing entry has had its command. *)
Definition quiet (self : PoolMachine.t) : Prop :=
  forall c e, self.(entries) !! c = Some e ->
    match e.(Entry.state) with
    | EntryState.Opening _ clock _ _ None => is_Some clock
    | EntryState.Opening _ _ _ _ (Some cleanup) | EntryState.Closing _ cleanup =>
        (cleanup.(Cleanup.sent) || cleanup.(Cleanup.aborted)) = true
        /\ (cleanup.(Cleanup.deadline) <= self.(now) -> cleanup.(Cleanup.aborted) = true)
    | _ => True
    end.

Lemma next_action_none self : next_action self = (None, self) \/ exists action self', next_action self = (Some action, self').
Proof.
  unfold next_action. destruct (first_step _ _) as [[c [a e']]|]; [right; by eexists _, _|].
  destruct (first_step _ _) as [[c [a e']]|]; [right; by eexists _, _|by left].
Qed.

Lemma next_action_quiet self : next_action self = (None, self) -> quiet self.
Proof.
  unfold next_action. destruct (first_step _ _) as [[c0 [a e']]|] eqn:Hf; [done|].
  destruct (first_step (fun c e => connect_step c e self) _) as [[c0 [a e']]|] eqn:Hf'; [done|]. intros _ c e He.
  apply elem_of_entries in He. pose proof (first_step_none _ _ Hf c e He) as Hc. pose proof (first_step_none _ _ Hf' c e He) as Hk.
  unfold cleanup_step in Hc. cbn in Hk. unfold connect_step in Hk.
  destruct (Entry.state e) as [r [clk|] n1 n2 [cl|]|s|l r|rs cl]; try done.
  all: destruct cl as [d [] []]; cbn in *; destruct (d <=? now self) eqn:Hd; try done; split; try done; lia.
Qed.

Lemma due_bound self : (all_due self <= 2 * size self.(entries))%nat.
Proof.
  unfold all_due. rewrite <- length_map_to_list. induction (map_to_list _) as [|[c e] l IH]; cbn; [lia|].
  assert (commands_due e <= 2)%nat; [|lia]. unfold commands_due, cleanup_due.
  destruct (Entry.state e) as [r [clk|] n1 n2 [cl|]|s|l' r|rs cl]; try lia; destruct cl as [d [] []]; cbn; lia.
Qed.

Lemma actions_end self : exists fuel actions self', (fuel <= all_due self + 1)%nat
  /\ take_actions fuel self = (actions, self') /\ next_action self' = (None, self').
Proof.
  remember (all_due self) as n eqn:Hn. revert self Hn. induction (lt_wf n) as [n _ IH]. intros self ->.
  destruct (next_action_none self) as [Hna|(action & self1 & Hna)].
  - exists 1%nat, [], self. cbn. rewrite Hna. split; [lia|done].
  - pose proof (next_action_due _ _ _ Hna) as Hlt. destruct (IH _ Hlt self1 eq_refl) as (fuel & actions & self2 & Hf & Ht & Hq).
    exists (S fuel), (action :: actions), self2. cbn. rewrite Hna, Ht. split; [lia|done].
Qed.

(** A host that takes commands until there is none always comes to the end,
    after at most two commands for each connection the pool has, and then every
    connection that is being opened has been told to connect, and every one that
    is being cancelled or closed has been told to, and to abort if its cleanup
    deadline is over. *)
Theorem actions_terminate self : exists fuel actions self', (fuel <= 2 * size self.(entries) + 1)%nat
  /\ take_actions fuel self = (actions, self') /\ next_action self' = (None, self') /\ quiet self'.
Proof.
  pose proof (due_bound self). destruct (actions_end self) as (fuel & actions & self' & Hf & Ht & Hq).
  exists fuel, actions, self'. split_and!; [lia|done|done|]. by apply next_action_quiet.
Qed.

(** ** Stopping *)

(** A stopped pool: no request is open and every connection is on its way out. *)
Record drained (self : PoolMachine.t) : Prop := {
  dr_stopped : self.(stopped) = true;
  dr_requests : forall id p, self.(requests) !! id = Some p -> exists error, p.(Pending.state) = RequestState.Failed error;
  dr_entries : forall c e, self.(entries) !! c = Some e ->
    match e.(Entry.state) with
    | EntryState.Closing _ _ | EntryState.Opening None (Some _) _ _ (Some _) => True
    | _ => False
    end;
}.

Lemma drained_not_open self id p : drained self -> self.(requests) !! id = Some p ->
  p.(Pending.state) <> RequestState.Waiting /\ refers p.(Pending.state) = None.
Proof. intros H Hp. destruct (dr_requests _ H id p Hp) as [err ->]. done. Qed.

Lemma drained_tweak e e' : tweak e e' ->
  match e.(Entry.state) with EntryState.Closing _ _ | EntryState.Opening None (Some _) _ _ (Some _) => True | _ => False end ->
  match e'.(Entry.state) with EntryState.Closing _ _ | EntryState.Opening None (Some _) _ _ (Some _) => True | _ => False end.
Proof.
  intros (_ & _ & Ht). destruct (Entry.state e) as [[r|] [clk|] ? ? [cl|]| | |]; try done; destruct (Entry.state e') as [r' clk' ? ? cl'| | |]; try done.
  destruct Ht as (-> & Hc & Hl). destruct (Hc ltac:(by eexists)) as [? ->]. by destruct (proj2 Hl ltac:(by eexists)) as [? ->].
Qed.

Definition no_more (c0 : PoolMachine.t) (self : PoolMachine.t) : Prop :=
  drained self /\ forall c, is_Some (self.(entries) !! c) -> is_Some (c0.(entries) !! c).

Lemma drained_change grant m a b : no_more m a -> pchange grant a b -> no_more m b.
Proof.
  intros [[Hs Hr He] Hd] Hc.
  assert (Hno : forall id p, requests a !! id = Some p -> Pending.state p = RequestState.Waiting -> False).
  { intros id p Hp Hw. destruct (Hr id p Hp) as [err Hf]. congruence. }
  assert (Hrf : forall id p, requests a !! id = Some p -> is_Some (refers (Pending.state p)) -> False).
  { intros id p Hp [c Hw]. destruct (Hr id p Hp) as [err Hf]. by rewrite Hf in Hw. }
  destruct Hc as [b E1 E2 E3 E4 E5 E6 L1 L2 L3 L4 L6 L5|p Hst _ Hw _ _ _|id p p' Hp Hw Hrq|c e e' Hc Ht
    |id p c e since Hst Hp Hw _ _ _ _ lease|id p Hst Hp Hw request _ _ _ _ _ c|id p error Hp Hw|c e reason cleanup Hc Hu
    |id p lease e error reason cleanup Hp Hw Hc|id p c e error n1 n2 cn Hp Hw Hc Hst|id p c e error clk n1 n2 cn cleanup Hp Hw Hc Hst
    |id p c e clk n1 n2 cn proven born Hp Hw Hc Hst lease|id p c e error reason cleanup Hp Hw Hc|id p c e error h Hf Hsd Hp Hw Hc
    |c e h Hf Hsd Hc Hu Hl|id p lease e Hp Hw Hc|id p error Hp Hw|c e lease since Hc Hst _|m' Hm].
  all: try congruence; try (by destruct (Hno _ _ Hp Hw)).
  all: try (exfalso; apply (Hrf _ _ Hp); rewrite Hw; by eexists).
  - split; [constructor; rewrite ?E3, ?E4; auto|by rewrite E4].
  - split; [constructor|]; cbn; try done. intros i q [[<- <-]|[_ Hq]]%lookup_insert_Some; [|by eapply Hr].
    rewrite Hw. by eapply Hr.
  - split; [constructor|]; cbn; try done.
    + intros d f [[<- <-]|[_ Hf]]%lookup_insert_Some; [|by eapply He]. eapply drained_tweak; [exact Ht|]. by eapply He.
    + intros d [<-|[_ Hx]]%lookup_insert_is_Some; apply Hd; [by eexists|done].
  - split; [constructor|]; cbn; try done.
    + intros d f [[<- <-]|[_ Hf]]%lookup_insert_Some; [done|by eapply He].
    + intros d [<-|[_ Hx]]%lookup_insert_is_Some; apply Hd; [by eexists|done].
  - split; [constructor|]; cbn; try done.
    + intros d f [_ Hx]%lookup_delete_Some. by eapply He.
    + intros d [_ Hx]%lookup_delete_is_Some. by apply Hd.
  - split; [constructor|]; cbn; try done. intros i q [_ Hq]%lookup_delete_Some. by eapply Hr.
  - specialize (He _ _ Hc). by rewrite Hst in He.
  - split; [by constructor|done].
Qed.

Lemma closed_all_closing ids reason self c e : c ∈ ids -> (close_all ids reason self).(entries) !! c = Some e ->
  EntryState.is_closing e.(Entry.state) = true.
Proof.
  assert (Hkeep : forall ids self, (forall e, entries self !! c = Some e -> EntryState.is_closing e.(Entry.state) = true) ->
    (close_all ids reason self).(entries) !! c = Some e -> EntryState.is_closing e.(Entry.state) = true).
  { clear. unfold close_all. intros ids. induction ids as [|d ids IH]; intros self Hs; [apply Hs|]. rewrite for_ids_cons. apply IH.
    intros f Hf. apply start_closing_entry in Hf as [Hf|[_ Hf]]; [by apply Hs|done]. }
  revert self. induction ids as [|d ids IH]; intros self Hin; [by apply not_elem_of_nil in Hin|].
  unfold close_all. rewrite for_ids_cons. apply elem_of_cons in Hin as [<-|Hin]; [|by apply IH].
  apply Hkeep. clear. intros f. unfold start_closing. destruct (entries self !! c) as [e|] eqn:He; [|cbn; congruence].
  destruct (EntryState.is_closing (Entry.state e)) eqn:Hcl; [congruence|]. cbn. rewrite lookup_insert_eq. by intros [= <-].
Qed.

Lemma close_all_entry ids reason self c e : (close_all ids reason self).(entries) !! c = Some e ->
  self.(entries) !! c = Some e \/ EntryState.is_closing e.(Entry.state) = true.
Proof.
  unfold close_all. revert self. induction ids as [|d ids IH]; intros self Hc; [by left|]. rewrite for_ids_cons in Hc.
  destruct (IH _ Hc) as [Hf|]; [|by right]. apply start_closing_entry in Hf as [Hf|[_ Hf]]; auto.
Qed.

Lemma close_all_requests ids reason self : (close_all ids reason self).(requests) = self.(requests).
Proof.
  unfold close_all. revert self. induction ids as [|c ids IH]; intros self; [done|]. rewrite for_ids_cons, IH. apply start_closing_requests.
Qed.

Section drain.
Variable source : Z -> nat -> Z.

Lemma stop_drained error reason self : consistent self -> drained (stop source error reason self).
Proof.
  intros H. set (g := Grant.mk (fun _ => True) (fun _ => True)).
  assert (Hm : moves g self (stop source error reason self)) by (by apply moves_stop).
  pose proof (moves_consistent _ _ _ H Hm) as H2. unfold stop in *.
  set (self0 := self <| stopped := true |> <| holds := ∅ |>) in *.
  set (self1 := fail_all source (keys (requests self0)) error reason self0) in *.
  set (ids := entries_where _ self1) in *. set (self2 := close_all ids reason self1) in *.
  assert (Hm0 : moves g self self0).
  { eapply moves_trans; [apply moves_one, (p_unhold g self ∅), map_empty_subseteq|]. by apply moves_book; auto. }
  pose proof (moves_consistent _ _ _ H Hm0) as H0.
  assert (Hm1 : moves g self0 self1) by (by apply moves_fail_all).
  assert (Hreq : forall id p, requests self1 !! id = Some p -> exists err, Pending.state p = RequestState.Failed err).
  { intros id p Hp. destruct (fail_all_others _ _ _ _ _ _ _ Hp) as (p0 & Hp0 & _).
    by apply (@fail_all_failed g source (keys (requests self0)) error reason self0 id p H0); [apply elem_of_keys; eexists|]. }
  constructor.
  - assert (Hs : forall a, moves g self0 a -> stopped a = true).
    { intros a Ha. apply (moves_keep (fun s => stopped s = true) g self0 a); try done.
      intros x y _ Hx Hc. destruct Hc; cbn; auto. }
    cbn [touch stopped over]. apply Hs. eapply moves_trans; [exact Hm1|]. apply moves_close_where.
    + by eapply moves_consistent.
    + intros c e He _. destruct (unclaimed_dec e) as [|Hu]; [done|]. exfalso.
      destruct (claimed_request self1 c e (moves_consistent _ _ _ H0 Hm1) He Hu) as (id & p & Hp1 & _ & Hnf & _).
      destruct (Hreq id p Hp1) as [err Hf]. by destruct (Hnf err).
  - intros id p. cbn [touch requests over]. unfold self2. rewrite close_all_requests. apply Hreq.
  - intros c e He. change (entries (touch self2)) with (entries self2) in He.
    pose proof (co_entries _ H2 c e He) as Hok. change (requests (touch self2)) with (requests self2) in Hok.
    unfold self2 in Hok. rewrite close_all_requests in Hok. unfold entry_ok in Hok.
    assert (Hid : forall e', entries self1 !! c = Some e' ->
      (EntryState.is_idle (Entry.state e') || EntryState.is_leased (Entry.state e')) = true -> EntryState.is_closing (Entry.state e) = true).
    { intros e' He' Hi. apply (closed_all_closing ids reason self1 c); [apply entries_where_spec; by exists e'|done]. }
    destruct (close_all_entry ids reason self1 c e He) as [He1|Hcl]; [|by destruct (Entry.state e)].
    specialize (Hid e He1). destruct (Entry.state e) as [[r|] clk ? ? cl|s|l r|rs cl]; cbn in Hid; try (by specialize (Hid eq_refl)); try done.
    + destruct Hok as (_ & p & Hp & Hs & _). destruct (Hreq _ _ Hp) as [err Hf]. congruence.
    + by destruct Hok as [[? ->] [? ->]].
Qed.

(** Once the pool is shut down it only drains: every request, open or yet to
    come, has failed; no connection is idle, leased or being opened for anybody;
    and whatever calls follow, no request is taken in, no connection is made and
    none becomes usable again. *)
Theorem shutdown_drains self ops : consistent self ->
  let self1 := shutdown source self in
  run_permitted source ops self1 -> no_more self1 (pool_run source ops self1).
Proof.
  intros H self1 Hp. assert (Hd : drained self1) by exact (stop_drained PoolError.Shutdown CloseReason.Shutdown self H).
  apply (run_keep source (no_more self1) (fun _ => True)); [| |exact Hp| |split; [exact Hd|auto]].
  - intros op a b _ _ Ha Hc. by eapply drained_change.
  - exact (step_consistent source PoolOp.Shutdown self H I).
  - by apply Forall_true.
Qed.

(** *** The host acknowledges *)

(** What the host answers for a connection on its way out: the connect it was
    told to cancel has failed, the close it was told to make is made. *)
Definition acknowledge (failure : Failure.t) (c : ConnectionId.t) (self : PoolMachine.t) : PoolMachine.t :=
  match self.(entries) !! c with
  | Some entry =>
      if EntryState.is_opening entry.(Entry.state) then (connected source c (Err failure) self).2 else (closed c self).2
  | None => self
  end.

Lemma schedule_stopped self : self.(stopped) = true -> schedule self = self.
Proof. intros Hs. unfold schedule. by rewrite Hs. Qed.

(** Acknowledging one connection of a drained pool removes it and nothing else. *)
Lemma acknowledge_removes failure c self : consistent self -> drained self -> quiet self ->
  (acknowledge failure c self).(entries) = delete c self.(entries) /\ (acknowledge failure c self).(now) = self.(now).
Proof.
  intros H Hd Hq. unfold acknowledge. destruct (entries self !! c) as [e|] eqn:He; [|by rewrite delete_id].
  pose proof (dr_entries _ Hd c e He) as Hst. pose proof (Hq c e He) as Hqe. pose proof (dr_stopped _ Hd) as Hstop.
  assert (Hdis : forall b s, stopped s = true -> entries s !! c = Some e ->
    touch (schedule (dispose c b s)) = touch (s <| entries := delete c (entries s) |>)).
  { intros b s Hs Hes. unfold dispose. rewrite Hes. cbn [stopped over settles]. rewrite Hs, andb_false_r. cbn [Z.eqb].
    rewrite schedule_stopped by done. done. }
  destruct (Entry.state e) as [[r|] [clk|] n1 n2 [cl|]|s|l r|rs cl] eqn:Hs; try done; cbn [EntryState.is_opening].
  - unfold connected. destruct (shared_setup_clock c self) as [clock|].
    + destruct (settle_setup_same source clock c (Err failure) self) as (k & w & r & Hse).
      destruct (settle_setup source clock c (Err failure) self) as [record self1]. cbn [snd] in Hse. cbn [is_ok negb]. rewrite orb_true_r.
      subst self1. cbn [entries over]. rewrite He. cbn [and_then]. rewrite Hs. cbn [EntryState.opening_request].
      cbn [snd]. rewrite Hdis by done. done.
    + unfold connect_result. rewrite He. cbn [ok_or]. rewrite Hs. cbn [and_then is_some_and negb andb is_some snd].
      rewrite Hdis by done. done.
  - unfold closed. rewrite He. cbn [ok_or]. rewrite Hs. destruct Hqe as [-> _]. cbn [snd]. rewrite Hdis by done. done.
Qed.

Lemma take_actions_moves grant fuel self : moves grant self (take_actions fuel self).2.
Proof.
  revert self. induction fuel as [|fuel IH]; intros self; [apply moves_refl|]. cbn [take_actions].
  assert (Hm : moves grant self (next_action self).2) by apply moves_next_action.
  destruct (next_action self) as [[action|] self1]; cbn [snd] in Hm; [|exact Hm]. specialize (IH self1).
  destruct (take_actions fuel self1) as [actions self2]. cbn [snd] in *. by eapply moves_trans.
Qed.

Lemma drained_moves grant a b : drained a -> moves grant a b -> drained b.
Proof.
  intros Ha Hm. induction Hm as [|x y z Hxy _ IH]; [done|]. apply IH.
  apply (drained_change grant x x y); [by split|done].
Qed.

Definition any_grant : Grant.t := Grant.mk (fun _ => True) (fun _ => True).

Lemma acknowledge_moves failure c self : consistent self -> moves any_grant self (acknowledge failure c self).
Proof.
  intros H. unfold acknowledge. destruct (entries self !! c) as [e|]; [|apply moves_refl]. destruct (EntryState.is_opening _).
  - by apply moves_connected.
  - by apply moves_closed.
Qed.

Lemma acknowledge_all failure ids self : consistent self -> drained self -> quiet self ->
  let self' := for_ids ids (acknowledge failure) self in
  drained self' /\ forall c, is_Some (self'.(entries) !! c) -> is_Some (self.(entries) !! c) /\ c ∉ ids.
Proof.
  revert self. induction ids as [|c ids IH]; intros self H Hd Hq; cbn zeta.
  - split; [done|]. intros d Hx. split; [done|]. apply not_elem_of_nil.
  - rewrite for_ids_cons. destruct (acknowledge_removes failure c self H Hd Hq) as [He Hn].
    pose proof (acknowledge_moves failure c self H) as Hm. destruct (IH (acknowledge failure c self)) as [IH1 IH2].
    + by eapply moves_consistent.
    + by eapply drained_moves.
    + intros d e Hde. rewrite He in Hde. apply lookup_delete_Some in Hde as [_ Hde]. rewrite Hn. exact (Hq d e Hde).
    + split; [exact IH1|]. intros d Hx. destruct (IH2 d Hx) as [Hs Hni]. rewrite He in Hs.
      apply lookup_delete_is_Some in Hs as [Hne Hs]. split; [done|]. apply not_elem_of_cons. by split; [congruence|].
Qed.

(** C20: A host that does its part brings a shutdown to its end: it takes the
    commands until there is none, which is at most two for each connection, and
    answers each connection once (a cancelled connect as failed, a close as
    closed); then no connection is left and the shutdown is complete. *)
Theorem shutdown_completes self failure : consistent self ->
  exists fuel actions self2, (fuel <= 2 * size (shutdown source self).(entries) + 1)%nat
    /\ take_actions fuel (shutdown source self) = (actions, self2)
    /\ shutdown_complete (for_ids (keys self2.(entries)) (acknowledge failure) self2) = true.
Proof.
  intros H. pose proof (stop_drained PoolError.Shutdown CloseReason.Shutdown self H : drained (shutdown source self)) as Hd1.
  pose proof (step_consistent source PoolOp.Shutdown self H I : consistent (shutdown source self)) as H1.
  generalize dependent (shutdown source self). clear H self. intros self Hd H. pose proof (due_bound self).
  destruct (actions_end self) as (fuel & actions & self' & Hf & Ht & Hq). exists fuel, actions, self'.
  split_and!; [lia|done|]. pose proof (take_actions_moves any_grant fuel self) as Hm. rewrite Ht in Hm. cbn [snd] in Hm.
  destruct (acknowledge_all failure (keys (entries self')) self') as [Hd' Hno].
  - by eapply moves_consistent.
  - by eapply drained_moves.
  - by apply next_action_quiet.
  - unfold shutdown_complete. rewrite (dr_stopped _ Hd'). cbn [andb]. apply bool_decide_eq_true. apply map_empty. intros c.
    destruct (entries _ !! c) eqn:Hc; [|done]. destruct (Hno c ltac:(by eexists)) as [Hs Hni].
    destruct Hni. by apply elem_of_keys.
Qed.
End drain.
