(* ===== verification/PoolCapacity.v ===== *)
(** * The pool's capacities

    Slots are counted over the entries and, for a host or a user at a host, over
    the holds that outlive them. Only [schedule] takes one, under its guards. *)
From S2P Require Import Prelude Utf8 Cbor Protocol Validate Binding BindingFacts Counting PoolTypes SetupClock Pool PoolSteps PoolMoves PoolCalls PoolRun.
Import PoolMachine.

(** The machine's totals as counts. *)
Lemma count_state_total s c : Counts.total (count_state s c) = Counts.total c + 1.
Proof. destruct s; unfold Counts.total; cbn; lia. Qed.

Lemma count_where_total q self : Counts.total (count_where q self) = count_values q self.(entries).
Proof.
  unfold count_where, count_values. set (l := keep q _).
  assert (Hg : forall c, Counts.total (foldl (fun counts entry => count_state (Entry.state entry) counts) c l)
    = Counts.total c + Z.of_nat (length l)).
  { induction l as [|e l IH]; intros c; cbn [foldl length]; [lia|]. rewrite IH, count_state_total. lia. }
  rewrite Hg. done.
Qed.

(** ** Slots *)

(** The entries, and the holds, whose key passes a test. *)
Definition key_entries (f : Key.t -> bool) (self : PoolMachine.t) : Z :=
  count_values (fun e => f e.(Entry.key)) self.(entries).
Definition key_holds (f : Key.t -> bool) (self : PoolMachine.t) : Z :=
  count_values (fun h => f h.(Hold.key)) self.(holds).

Lemma host_total_slots host self :
  host_total host self = key_entries (fun k => bool_decide (k.(Key.host) = host)) self
                         + key_holds (fun k => bool_decide (k.(Key.host) = host)) self.
Proof. unfold host_total, counts_for_host. by rewrite count_where_total. Qed.
Lemma user_host_total_slots key self :
  user_host_total key self = key_entries (fun k => Key.same_user_host k key) self
                             + key_holds (fun k => Key.same_user_host k key) self.
Proof. unfold user_host_total, counts_for_user_host. by rewrite count_where_total. Qed.

Lemma hold_for_count f c e h self : self.(entries) !! c = Some e -> self.(holds) !! c = None ->
  count_values (fun h => f h.(Hold.key)) (hold_for c e h self.(holds))
  <= key_holds f self + one_if (f e.(Entry.key)).
Proof.
  intros He Hh. unfold hold_for, key_holds. destruct h; [|unfold one_if; destruct (f _); lia]. rewrite count_new by done. cbn. lia.
Qed.

(** The guards under which a connection is opened for a request. *)
Definition may_open (request : PoolRequest.t) (self : PoolMachine.t) : Prop :=
  owner_full request self = false
  /\ Z.of_nat (size self.(entries)) < (ceilings_for request self).(Capacity.total)
  /\ user_host_total request.(PoolRequest.key) self < (ceilings_for request self).(Capacity.per_user_host)
  /\ host_total request.(PoolRequest.key).(Key.host) self < (ceilings_for request self).(Capacity.per_host)
  /\ site_full request.(PoolRequest.key) self = false.

(** A change takes a slot only by opening a connection, under those guards. *)
Lemma slots_change grant a b : consistent a -> pchange grant a b ->
  (forall f, key_entries f b <= key_entries f a /\ key_entries f b + key_holds f b <= key_entries f a + key_holds f a)
  \/ exists id p, a.(requests) !! id = Some p /\ may_open p.(Pending.request) a
       /\ forall f, key_entries f b = key_entries f a + one_if (f p.(Pending.request).(PoolRequest.key))
                    /\ key_holds f b = key_holds f a.
Proof.
  intros H Hc.
  assert (Hup : forall b c e e', entries b = <[c := e']> (entries a) -> holds b = holds a -> entries a !! c = Some e ->
    Entry.key e' = Entry.key e ->
    forall f, key_entries f b <= key_entries f a /\ key_entries f b + key_holds f b <= key_entries f a + key_holds f a).
  { intros b' c e e' Heb Hhb He Hk f. unfold key_entries, key_holds. rewrite Heb, Hhb.
    pose proof (count_update_le (fun e => f (Entry.key e)) (entries a) c e e' He) as Hle. cbn in Hle. rewrite Hk in Hle.
    specialize (Hle ltac:(done)). lia. }
  assert (Hdel : forall b c e h, entries b = delete c (entries a) -> holds b = hold_for c e h (holds a) -> entries a !! c = Some e ->
    forall f, key_entries f b <= key_entries f a /\ key_entries f b + key_holds f b <= key_entries f a + key_holds f a).
  { intros b' c e h Heb Hhb He f. pose proof (hold_for_count f c e h a He (no_hold a c e H He)) as Hh.
    unfold key_entries, key_holds in *. rewrite Heb, Hhb.
    rewrite (count_old _ (entries a) c e He). unfold one_if in *. destruct (f _); lia. }
  assert (Hsame : forall b, entries b = entries a -> holds b = holds a ->
    forall f, key_entries f b <= key_entries f a /\ key_entries f b + key_holds f b <= key_entries f a + key_holds f a).
  { intros b' Heb Hhb f. unfold key_entries, key_holds. rewrite Heb, Hhb. lia. }
  destruct Hc as [b E1 E2 E3 E4 E5 E6 L1 L2 L3 L4 L6 L5|p Hst _ Hw _ _ _|id p p' Hp Hw Hrq|c e e' Hc Ht
    |id p c e since Hst Hp Hw Hc Hi _ _ lease|id p Hst Hp Hw request Ho Htot Hu Hh Hsf c|id p error Hp Hw|c e reason cleanup Hc Hu
    |id p lease e error reason cleanup Hp Hw Hc|id p c e error n1 n2 cn Hp Hw Hc Hst|id p c e error clk n1 n2 cn cleanup Hp Hw Hc Hst
    |id p c e clk n1 n2 cn proven born Hp Hw Hc Hst lease|id p c e error reason cleanup Hp Hw Hc|id p c e error h Hf Hsd Hp Hw Hc
    |c e h Hf Hsd Hc Hu Hl|id p lease e Hp Hw Hc|id p error Hp Hw|c e lease since Hc Hst _|m' Hm].
  all: try (left; by apply Hsame).
  all: try (left; by eapply (Hup _ c e)).
  all: try (left; by eapply (Hup _ (LeaseId.connection lease) e)).
  all: try (left; by eapply (Hdel _ c e)).
  - left. apply (Hup _ c e e'); try done. apply Ht.
  - left. eapply (Hup _ c e); try done. unfold leased_to. cbn. by rewrite Hi.
  - right. exists id, p. split_and!; [done|by split_and!|]. intros f. destruct (fresh_connection a H) as [Hn _].
    unfold key_entries, key_holds. cbn. by rewrite count_new.
  - left. by apply (Hdel _ c e None).
  - left. intros f. unfold key_entries, key_holds. cbn. pose proof (count_subseteq (fun h => f (Hold.key h)) _ _ Hm). lia.
Qed.

(** ** Requests *)

Lemma config_change grant a b : pchange grant a b -> b.(config) = a.(config).
Proof. by destruct 1. Qed.

(** A change makes at most one request of its own. *)
Lemma requests_change grant a b id p' : pchange grant a b -> b.(requests) !! id = Some p' ->
  Grant.asked grant p'.(Pending.request)
  \/ exists p, a.(requests) !! id = Some p /\ p'.(Pending.request) = p.(Pending.request).
Proof.
  intros Hc. destruct Hc; cbn; intros Hp'; try (right; by exists p').
  all: try (apply lookup_insert_Some in Hp' as [[<- <-]|[_ Hp']]; [|right; by exists p']).
  all: try (apply lookup_delete_Some in Hp' as [_ Hp']; right; by exists p').
  all: try (right; exists p; by split).
  - right. exists p'. by match goal with E : requests _ = requests a |- _ => rewrite E in Hp' end.
  - by left.
Qed.

Definition of_session (session : string) (p : Pending.t) : bool :=
  bool_decide (p.(Pending.request).(PoolRequest.owner).(Owner.session) = session).

(** A change adds a request only under the bounds on their number. *)
Lemma requests_count grant a b (q : Pending.t -> bool) : consistent a -> pchange grant a b ->
  (forall p p', p'.(Pending.request) = p.(Pending.request) -> q p' = q p) ->
  count_values q b.(requests) <= count_values q a.(requests)
  \/ exists p, Grant.asked grant p.(Pending.request)
       /\ Z.of_nat (size a.(requests)) < (ceilings_for p.(Pending.request) a).(Capacity.max_requests)
       /\ requests_of p.(Pending.request).(PoolRequest.owner).(Owner.session) a
            < (limits_of p.(Pending.request) a).(Capacity.max_requests)
       /\ count_values q b.(requests) = count_values q a.(requests) + one_if (q p).
Proof.
  intros H Hc Hq. assert (Hup : forall id p p', requests a !! id = Some p -> Pending.request p' = Pending.request p ->
    count_values q (<[id := p']> (requests a)) <= count_values q (requests a)).
  { intros id p p' Hp Hr. eapply count_update_le; [exact Hp|]. by rewrite (Hq p p' Hr). }
  destruct Hc; cbn; try (left; lia); try (left; by eapply Hup); try (left; apply count_delete_le).
  - left. by match goal with E : requests _ = requests a |- _ => rewrite E end.
  - right. exists p. split_and!; try done. apply count_new. destruct (requests a !! _) eqn:E; [|done].
    pose proof (request_serial_of a _ _ H E) as Hle. cbn in Hle. lia.
Qed.

(** ** Capacity in every state *)

Definition at_most (a b : Capacity.t) : Prop :=
  a.(Capacity.per_user_host) <= b.(Capacity.per_user_host) /\ a.(Capacity.per_host) <= b.(Capacity.per_host)
  /\ a.(Capacity.total) <= b.(Capacity.total) /\ a.(Capacity.max_requests) <= b.(Capacity.max_requests).

(** The limits of a request, or the pool's where it brings none. *)
Definition asks_at_most (cfg : PoolConfig.t) (m : Capacity.t) (request : PoolRequest.t) : Prop :=
  at_most (unwrap_or request.(PoolRequest.limits) (PoolConfig.capacity cfg)) m.

Record within (cfg : PoolConfig.t) (m : Capacity.t) (self : PoolMachine.t) : Prop := {
  wi_config : self.(config) = cfg;
  wi_asked : forall id p, self.(requests) !! id = Some p -> asks_at_most cfg m p.(Pending.request);
  wi_total : Z.of_nat (size self.(entries)) <= m.(Capacity.total);
  wi_host : forall host, host_total host self <= m.(Capacity.per_host);
  wi_user_host : forall key, user_host_total key self <= m.(Capacity.per_user_host);
  wi_requests : Z.of_nat (size self.(requests)) <= m.(Capacity.max_requests);
}.

Lemma ceilings_at_most cfg m request self : self.(config) = cfg -> at_most (PoolConfig.capacity cfg) m ->
  asks_at_most cfg m request -> at_most (ceilings_for request self) m.
Proof.
  intros <- (H1 & H2 & H3 & H4) (K1 & K2 & K3 & K4). unfold at_most, ceilings_for, limits_of, capacity in *. cbn in *.
  split_and!; by apply Z.max_lub.
Qed.

Lemma user_host_total_same k key self : Key.same_user_host k key = true -> user_host_total key self = user_host_total k self.
Proof.
  unfold Key.same_user_host. rewrite andb_true_iff, !bool_decide_eq_true. intros [Hh Hu].
  rewrite !user_host_total_slots. unfold Key.same_user_host. by rewrite Hh, Hu.
Qed.

Lemma within_change grant cfg m a b : consistent a -> at_most (PoolConfig.capacity cfg) m ->
  (forall r, Grant.asked grant r -> asks_at_most cfg m r) -> within cfg m a -> pchange grant a b -> within cfg m b.
Proof.
  intros H Hcfg Hask [W1 W2 W3 W4 W5 W6] Hc.
  assert (Hall : forall s : PoolMachine.t, key_entries (fun _ => true) s = Z.of_nat (size (entries s))) by (intros; apply count_all).
  constructor.
  - by rewrite (config_change _ _ _ Hc).
  - intros id p' Hp'. destruct (requests_change _ _ _ _ _ Hc Hp') as [|(p & Hp & ->)]; [by apply Hask|by eapply W2].
  - destruct (slots_change _ _ _ H Hc) as [Hle|(id & p & Hp & Hm & Heq)].
    + destruct (Hle (fun _ => true)) as [Hle1 _]. rewrite !Hall in Hle1. lia.
    + destruct (Heq (fun _ => true)) as [He1 _]. rewrite !Hall in He1. destruct Hm as (_ & Ht & _).
      destruct (ceilings_at_most cfg m _ a W1 Hcfg (W2 id p Hp)) as (_ & _ & Hx & _). unfold one_if in He1. lia.
  - intros host. rewrite host_total_slots. specialize (W4 host). rewrite host_total_slots in W4.
    destruct (slots_change _ _ _ H Hc) as [Hle|(id & p & Hp & Hm & Heq)].
    + destruct (Hle (fun k => bool_decide (Key.host k = host))) as [_ Hle1]. lia.
    + destruct (Heq (fun k => bool_decide (Key.host k = host))) as [He1 He2]. destruct Hm as (_ & _ & _ & Ht & _).
      destruct (ceilings_at_most cfg m _ a W1 Hcfg (W2 id p Hp)) as (_ & Hx & _). unfold one_if in He1.
      case_bool_decide as Hh; [|lia]. rewrite Hh, host_total_slots in Ht. lia.
  - intros key. rewrite user_host_total_slots. pose proof (W5 key) as W. rewrite user_host_total_slots in W.
    destruct (slots_change _ _ _ H Hc) as [Hle|(id & p & Hp & Hm & Heq)].
    + destruct (Hle (fun k => Key.same_user_host k key)) as [_ Hle1]. lia.
    + destruct (Heq (fun k => Key.same_user_host k key)) as [He1 He2]. destruct Hm as (_ & _ & Ht & _).
      destruct (ceilings_at_most cfg m _ a W1 Hcfg (W2 id p Hp)) as (Hx & _). unfold one_if in He1.
      cbv beta in *. destruct (Key.same_user_host (PoolRequest.key _) key) eqn:Hh; [|lia]. rewrite <- (user_host_total_same _ _ _ Hh), user_host_total_slots in Ht. lia.
  - assert (Hreq : forall s : PoolMachine.t, count_values (fun _ => true) (requests s) = Z.of_nat (size (requests s))) by (intros; apply count_all).
    destruct (requests_count _ _ _ (fun _ => true) H Hc ltac:(done)) as [Hle|(p & Hp & Ht & _ & Heq)].
    + rewrite !Hreq in Hle. lia.
    + rewrite !Hreq in Heq. destruct (ceilings_at_most cfg m _ a W1 Hcfg (Hask _ Hp)) as (_ & _ & _ & Hx). unfold one_if in Heq. lia.
Qed.

Lemma new_empty next_pool cfg self next' : new next_pool cfg = (Ok self, next') ->
  self.(config) = cfg /\ self.(requests) = ∅ /\ self.(entries) = ∅ /\ self.(holds) = ∅ /\ Capacity.valid (PoolConfig.capacity cfg) = true.
Proof.
  unfold new, PoolConfig.validate. destruct (Capacity.valid _); [|done]. destruct (_ || _); [done|]. destruct (ok_or _ _); [|done].
  by intros [= <- _].
Qed.

Lemma count_empty {K V} `{KeyOrder K, Countable K} (q : V -> bool) : count_values q (∅ : gmap K V) = 0.
Proof. unfold count_values, values. by rewrite entries_empty. Qed.

Section capacity.
Variable source : Z -> nat -> Z.

(** C7: In every run in which a scope is retired only while no request is served
    on it, the pool is within its capacities: where [m] is at least the configured
    capacities and those that the requests made bring along, there are at most
    [m.total] connections (the total does not count settling slots), for each
    host and each user at a host at most [m.per_host] and [m.per_user_host]
    connections and settling slots together, and at most [m.max_requests]
    requests. *)
Theorem pool_capacity next_pool cfg self next' m ops : new next_pool cfg = (Ok self, next') ->
  at_most (PoolConfig.capacity cfg) m ->
  Forall (fun op => forall r, PoolOp.asks op = Some r -> asks_at_most cfg m r) ops ->
  run_permitted source ops self ->
  let self' := pool_run source ops self in
  Z.of_nat (size self'.(entries)) <= m.(Capacity.total)
  /\ (forall host, host_total host self' <= m.(Capacity.per_host))
  /\ (forall key, user_host_total key self' <= m.(Capacity.per_user_host))
  /\ Z.of_nat (size self'.(requests)) <= m.(Capacity.max_requests).
Proof.
  intros Hn Hcfg HG Hp self'. assert (Hw : within cfg m self'); [|by destruct Hw].
  apply (run_keep source (within cfg m) (fun op => forall r, PoolOp.asks op = Some r -> asks_at_most cfg m r));
    [|by eapply new_consistent|done|done|].
  - intros op a b Hop Ha Hwa Hc. exact (within_change (PoolOp.grant op) cfg m a b Ha Hcfg Hop Hwa Hc).
  - destruct (new_empty _ _ _ _ Hn) as (Hc & Hr & He & Hh & Hv). unfold Capacity.valid in Hv. destruct Hcfg as (K1 & K2 & K3 & K4).
    constructor; rewrite ?Hr, ?He; try done.
    + rewrite map_size_empty. lia.
    + intros host. rewrite host_total_slots. unfold key_entries, key_holds. rewrite He, Hh, !count_empty. lia.
    + intros key. rewrite user_host_total_slots. unfold key_entries, key_holds. rewrite He, Hh, !count_empty. lia.
    + rewrite map_size_empty. lia.
Qed.
End capacity.

(** ** What a session owns *)

Definition in_use (session : string) (f : Key.t -> bool) (e : Entry.t) : bool :=
  (EntryState.is_opening e.(Entry.state) || EntryState.is_leased e.(Entry.state))
  && is_some_and e.(Entry.owner) (fun owner => bool_decide (owner.(Owner.session) = session)) && f e.(Entry.key).
Definition owned (session : string) (f : Key.t -> bool) (self : PoolMachine.t) : Z :=
  count_values (in_use session f) self.(entries).

(** A change gives a session another connection only for a request of its own
    that its limits leave room for. *)
Lemma owned_change grant session a b : consistent a -> pchange grant a b ->
  (forall f, owned session f b <= owned session f a)
  \/ exists id p, a.(requests) !! id = Some p /\ owner_full p.(Pending.request) a = false
       /\ p.(Pending.request).(PoolRequest.owner).(Owner.session) = session
       /\ forall f, owned session f b <= owned session f a + one_if (f p.(Pending.request).(PoolRequest.key)).
Proof.
  intros H Hc.
  assert (Hup : forall b c e e', entries b = <[c := e']> (entries a) -> entries a !! c = Some e ->
    (forall f, in_use session f e' = true -> in_use session f e = true) -> forall f, owned session f b <= owned session f a).
  { intros b' c e e' Heb He Hi f. unfold owned. rewrite Heb. by eapply count_update_le; [|apply Hi]. }
  assert (Hdel : forall b c, entries b = delete c (entries a) -> forall f, owned session f b <= owned session f a).
  { intros b' c Heb f. unfold owned. rewrite Heb. apply count_delete_le. }
  assert (Hsame : forall b, entries b = entries a -> forall f, owned session f b <= owned session f a).
  { intros b' Heb f. unfold owned. rewrite Heb. lia. }
  assert (Hgo : forall f e p, serves e p -> in_use session f e = true ->
    one_if (in_use session f e) <= one_if (f (PoolRequest.key (Pending.request p)))
    /\ Owner.session (PoolRequest.owner (Pending.request p)) = session).
  { intros f e p [Ho Hk] Hi. rewrite Hi. unfold in_use in Hi. rewrite !andb_true_iff, Ho, Hk in Hi. destruct Hi as [[_ Hs] Hf].
    rewrite Hf. cbn in Hs. apply bool_decide_eq_true in Hs. split; [lia|done]. }
  destruct Hc as [b E1 E2 E3 E4 E5 E6 L1 L2 L3 L4 L6 L5|p Hst _ Hw _ _ _|id p p' Hp Hw Hrq|c e e' Hc Ht
    |id p c e since Hst Hp Hw Hc Hi Hcp Ho lease|id p Hst Hp Hw request Ho Htot Hu Hh Hsf c|id p error Hp Hw|c e reason cleanup Hc Hu
    |id p lease e error reason cleanup Hp Hw Hc|id p c e error n1 n2 cn Hp Hw Hc Hst|id p c e error clk n1 n2 cn cleanup Hp Hw Hc Hst
    |id p c e clk n1 n2 cn proven born Hp Hw Hc Hst lease|id p c e error reason cleanup Hp Hw Hc|id p c e error h Hf Hsd Hp Hw Hc
    |c e h Hf Hsd Hc Hu Hl|id p lease e Hp Hw Hc|id p error Hp Hw|c e lease since Hc Hst _|m' Hm].
  all: try (left; by apply Hsame).
  all: try (left; by eapply Hdel).
  all: try (left; by eapply (Hup _ c e)).
  all: try (left; by eapply (Hup _ (LeaseId.connection lease) e)).
  all: try (left; eapply (Hup _ c e); [done|done|]; intros f; unfold in_use; cbn; rewrite Hst; cbn; done).
  - left. apply (Hup _ c e e'); try done. intros f. destruct Ht as (Hk & Ho & Hs). unfold in_use. rewrite Hk, Ho.
    destruct (Entry.state e), (Entry.state e'); try done.
  - destruct (decide (Owner.session (PoolRequest.owner (Pending.request p)) = session)) as [Hs|Hs].
    + right. exists id, p. split_and!; try done. intros f. unfold owned. cbn. rewrite (count_update _ _ c e) by done.
      assert (Hsv : serves (leased_to (PoolRequest.owner (Pending.request p)) lease id e) p).
      { split; unfold leased_to; cbn; rewrite Hi; cbn; [done|]. by eapply compatible_key. }
      assert (Hno : in_use session f e = false) by (unfold in_use; by rewrite Hi). rewrite Hno. unfold one_if at 2.
      destruct (in_use session f (leased_to _ _ _ _)) eqn:Hu; [|unfold one_if; destruct (f _); lia].
      destruct (Hgo f _ p Hsv Hu) as [Hle _]. rewrite Hu in Hle. lia.
    + left. eapply (Hup _ c e); try done. intros f Hx. exfalso. apply Hs.
      eapply (Hgo f _ p); [|exact Hx]. split; unfold leased_to; cbn; rewrite Hi; cbn; [done|]. by eapply compatible_key.
  - destruct (fresh_connection a H) as [Hn _]. fold c in Hn.
    destruct (decide (Owner.session (PoolRequest.owner (Pending.request p)) = session)) as [Hs|Hs].
    + right. exists id, p. split_and!; try done. intros f. unfold owned. cbn. rewrite count_new by done.
      destruct (in_use session f (opening_entry request id a)) eqn:Hx; [|unfold one_if; destruct (f _); lia].
      destruct (Hgo f (opening_entry request id a) p (conj eq_refl eq_refl) Hx) as [Hle _]. rewrite Hx in Hle. lia.
    + left. intros f. unfold owned. cbn. rewrite count_new by done.
      destruct (in_use session f (opening_entry request id a)) eqn:Hx; [|unfold one_if; lia].
      destruct (Hgo f (opening_entry request id a) p (conj eq_refl eq_refl) Hx) as [_ Hle]. done.
  - left. eapply (Hup _ (LeaseId.connection lease) e); try done. intros f.
    destruct (ready_claim a id p lease H Hp Hw) as (e0 & He0 & Hst & _). assert (e0 = e) as -> by congruence.
    unfold in_use. cbn. by rewrite Hst.
Qed.

Lemma owner_full_false request self : owner_full request self = false ->
  let session := request.(PoolRequest.owner).(Owner.session) in
  let limits := limits_of request self in
  owned session (fun _ => true) self < limits.(Capacity.total)
  /\ owned session (fun k => bool_decide (k.(Key.host) = request.(PoolRequest.key).(Key.host))) self < limits.(Capacity.per_host)
  /\ owned session (fun k => Key.same_user_host k request.(PoolRequest.key)) self < limits.(Capacity.per_user_host).
Proof. unfold owner_full. rewrite !orb_false_iff. intros [[H1 H2] H3]. unfold owned, count_values, in_use, owned_where in *. lia. Qed.

(** The session's own requests stay within [m], and so does what it owns. *)
Record session_within (cfg : PoolConfig.t) (session : string) (m : Capacity.t) (self : PoolMachine.t) : Prop := {
  sw_config : self.(config) = cfg;
  sw_asked : forall id p, self.(requests) !! id = Some p -> of_session session p = true -> asks_at_most cfg m p.(Pending.request);
  sw_total : owned session (fun _ => true) self <= m.(Capacity.total);
  sw_host : forall host, owned session (fun k => bool_decide (k.(Key.host) = host)) self <= m.(Capacity.per_host);
  sw_user_host : forall key, owned session (fun k => Key.same_user_host k key) self <= m.(Capacity.per_user_host);
  sw_requests : requests_of session self <= m.(Capacity.max_requests);
}.

Lemma owned_same_user k key session self : Key.same_user_host k key = true ->
  owned session (fun x => Key.same_user_host x key) self = owned session (fun x => Key.same_user_host x k) self.
Proof.
  unfold Key.same_user_host at 1. rewrite andb_true_iff, !bool_decide_eq_true. intros [Hh Hu]. unfold Key.same_user_host. by rewrite Hh, Hu.
Qed.

Lemma session_change grant cfg session m a b : consistent a ->
  (forall r, Grant.asked grant r -> r.(PoolRequest.owner).(Owner.session) = session -> asks_at_most cfg m r) ->
  session_within cfg session m a -> pchange grant a b -> session_within cfg session m b.
Proof.
  intros H Hask [W1 W2 W3 W4 W5 W6] Hc.
  assert (Hlim : forall id p, requests a !! id = Some p -> Owner.session (PoolRequest.owner (Pending.request p)) = session ->
    at_most (limits_of (Pending.request p) a) m).
  { intros id p Hp Hs. unfold limits_of, capacity. rewrite W1. apply (W2 id p Hp). by apply bool_decide_eq_true. }
  pose proof (owned_change grant session a b H Hc) as Hown. constructor.
  - by rewrite (config_change _ _ _ Hc).
  - intros id p' Hp' Hs'. destruct (requests_change _ _ _ _ _ Hc Hp') as [Ha|(p & Hp & Hr)].
    + apply Hask; [done|]. by apply bool_decide_eq_true in Hs'.
    + rewrite Hr. apply (W2 id p Hp). unfold of_session in *. by rewrite <- Hr.
  - destruct Hown as [Hle|(id & p & Hp & Ho & Hs & Hle)]; specialize (Hle (fun _ => true)); [lia|].
    destruct (owner_full_false _ _ Ho) as (Ht & _ & _). destruct (Hlim id p Hp Hs) as (_ & _ & Hx & _). rewrite Hs in Ht.
    unfold one_if in Hle. lia.
  - intros host. specialize (W4 host).
    destruct Hown as [Hle|(id & p & Hp & Ho & Hs & Hle)]; specialize (Hle (fun k => bool_decide (Key.host k = host))); [lia|].
    destruct (owner_full_false _ _ Ho) as (_ & Ht & _). destruct (Hlim id p Hp Hs) as (_ & Hx & _). rewrite Hs in Ht.
    unfold one_if in Hle. case_bool_decide as Hh; [|lia]. rewrite Hh in Ht. lia.
  - intros key. specialize (W5 key).
    destruct Hown as [Hle|(id & p & Hp & Ho & Hs & Hle)]; specialize (Hle (fun k => Key.same_user_host k key)); [lia|].
    destruct (owner_full_false _ _ Ho) as (_ & _ & Ht). destruct (Hlim id p Hp Hs) as (Hx & _). rewrite Hs in Ht.
    unfold one_if in Hle. cbv beta in Hle. destruct (Key.same_user_host (PoolRequest.key _) key) eqn:Hh; [|lia].
    rewrite <- (owned_same_user _ _ _ _ Hh) in Ht. lia.
  - assert (Hq : forall p p', Pending.request p' = Pending.request p -> of_session session p' = of_session session p).
    { intros p p' Hr. unfold of_session. by rewrite Hr. }
    change (count_values (of_session session) (requests b) <= Capacity.max_requests m).
    change (count_values (of_session session) (requests a) <= Capacity.max_requests m) in W6.
    destruct (requests_count _ _ _ (of_session session) H Hc Hq) as [Hle|(p & Hp & _ & Ht & Heq)]; [lia|].
    unfold one_if in Heq. destruct (of_session session p) eqn:Hs; [|lia]. apply bool_decide_eq_true in Hs.
    destruct (Hask _ Hp Hs) as (_ & _ & _ & Hx). unfold limits_of, capacity in Ht. rewrite W1, Hs in Ht.
    change (requests_of session a) with (count_values (of_session session) (requests a)) in Ht. lia.
Qed.

Section sessions.
Variable source : Z -> nat -> Z.

(** A session never holds more than its own limits, whatever the others are
    allowed and do: where [m] is at least the limits the session's requests ask
    for (the pool's where they ask for none), the connections opening for or
    leased to it are at most [m.total], for each host at most [m.per_host] and
    for each user at a host at most [m.per_user_host], and its requests at most
    [m.max_requests]. *)
Theorem session_capacity next_pool cfg self next' session m ops : new next_pool cfg = (Ok self, next') ->
  Capacity.valid m = true ->
  Forall (fun op => forall r, PoolOp.asks op = Some r -> r.(PoolRequest.owner).(Owner.session) = session -> asks_at_most cfg m r) ops ->
  run_permitted source ops self ->
  let self' := pool_run source ops self in
  owned_where session (fun _ => true) self' <= m.(Capacity.total)
  /\ (forall host, owned_where session (fun e => bool_decide (e.(Entry.key).(Key.host) = host)) self' <= m.(Capacity.per_host))
  /\ (forall key, owned_where session (fun e => Key.same_user_host e.(Entry.key) key) self' <= m.(Capacity.per_user_host))
  /\ len (keep (of_session session) (values self'.(requests))) <= m.(Capacity.max_requests).
Proof.
  intros Hn Hm HG Hp self'. assert (Hw : session_within cfg session m self'); [|by destruct Hw].
  apply (run_keep source (session_within cfg session m) (fun op => forall r, PoolOp.asks op = Some r ->
    r.(PoolRequest.owner).(Owner.session) = session -> asks_at_most cfg m r)); [|by eapply new_consistent|done|done|].
  - intros op a b Hop Ha Hwa Hc. exact (session_change (PoolOp.grant op) cfg session m a b Ha Hop Hwa Hc).
  - destruct (new_empty _ _ _ _ Hn) as (Hc & Hr & He & Hh & Hv). unfold Capacity.valid in Hm.
    constructor; rewrite ?Hr; try done; unfold owned, requests_of; rewrite ?He, ?Hr; intros; rewrite ?count_empty; try lia.
    unfold values. rewrite entries_empty. cbn. lia.
Qed.
End sessions.
