(* ===== verification/PoolSchedule.v ===== *)
(** * The scheduler leaves nothing undone

    While [schedule] runs, what a request could be given only shrinks, so a
    request it passed over could not have been served at the end either. *)
From S2P Require Import Prelude Utf8 Cbor Protocol Validate Binding BindingFacts PoolTypes SetupClock Pool PoolSteps PoolMoves PoolCalls PoolRun Counting PoolCapacity.
Import PoolMachine.

Record tighter (a b : PoolMachine.t) : Prop := {
  ti_config : b.(config) = a.(config);
  ti_now : b.(now) = a.(now);
  ti_limits : b.(limits) = a.(limits);
  ti_owned : forall session f, owned session f a <= owned session f b;
  ti_entries : forall f, key_entries f a <= key_entries f b;
  ti_holds : b.(holds) = a.(holds);
  ti_idle : forall c e, b.(entries) !! c = Some e -> EntryState.is_idle e.(Entry.state) = true -> a.(entries) !! c = Some e;
  ti_leased : forall c e, a.(entries) !! c = Some e -> EntryState.is_leased e.(Entry.state) = true -> b.(entries) !! c = Some e;
  ti_waiting : forall id p, b.(requests) !! id = Some p -> p.(Pending.state) = RequestState.Waiting ->
    exists p0, a.(requests) !! id = Some p0 /\ p0.(Pending.state) = RequestState.Waiting
      /\ p.(Pending.request) = p0.(Pending.request) /\ p.(Pending.prefer_wait) = p0.(Pending.prefer_wait);
  ti_ids : (forall c, is_Some (a.(entries) !! c) -> c.(ConnectionId.serial) <= a.(connection_serial)) ->
    forall c, is_Some (b.(entries) !! c) -> c.(ConnectionId.serial) <= b.(connection_serial);
}.

Lemma tighter_same a b : b.(config) = a.(config) -> b.(now) = a.(now) -> b.(limits) = a.(limits) -> b.(entries) = a.(entries) ->
  b.(holds) = a.(holds) -> b.(connection_serial) = a.(connection_serial) ->
  (forall id p, b.(requests) !! id = Some p -> p.(Pending.state) = RequestState.Waiting ->
    exists p0, a.(requests) !! id = Some p0 /\ p0.(Pending.state) = RequestState.Waiting
      /\ p.(Pending.request) = p0.(Pending.request) /\ p.(Pending.prefer_wait) = p0.(Pending.prefer_wait)) -> tighter a b.
Proof.
  intros E1 E2 E3 E4 E5 E6 Hw. constructor; try done; unfold owned, key_entries; rewrite ?E4; try done; try lia. by rewrite E6.
Qed.

Lemma tighter_refl a : tighter a a.
Proof. apply tighter_same; try done. intros id p Hp Hs. by exists p. Qed.

Lemma tighter_trans a b c : tighter a b -> tighter b c -> tighter a c.
Proof.
  intros [A1 A2 A3 A4 A5 A6 A7 A8 A9 A10] [B1 B2 B3 B4 B5 B6 B7 B8 B9 B10]. constructor; try congruence; auto.
  - intros session f. specialize (A4 session f). specialize (B4 session f). lia.
  - intros f. specialize (A5 f). specialize (B5 f). lia.
  - intros id p Hp Hs. destruct (B9 id p Hp Hs) as (q & Hq & Hsq & E1 & E2). destruct (A9 id q Hq Hsq) as (r & Hr & Hsr & E3 & E4).
    exists r. split_and!; try done; congruence.
Qed.

(** Requests that are set are no longer waiting, or as they were. *)
Lemma set_request_waiting id f self i p : (set_request id f self).(requests) !! i = Some p ->
  p.(Pending.state) = RequestState.Waiting ->
  (forall q, (f q).(Pending.state) = RequestState.Waiting ->
     q.(Pending.state) = RequestState.Waiting /\ (f q).(Pending.request) = q.(Pending.request)
     /\ (f q).(Pending.prefer_wait) = q.(Pending.prefer_wait)) ->
  exists p0, self.(requests) !! i = Some p0 /\ p0.(Pending.state) = RequestState.Waiting
    /\ p.(Pending.request) = p0.(Pending.request) /\ p.(Pending.prefer_wait) = p0.(Pending.prefer_wait).
Proof.
  intros Hp Hs Hf. unfold set_request in Hp. destruct (requests self !! id) as [q|] eqn:Hq.
  - cbn in Hp. apply lookup_insert_Some in Hp as [[<- <-]|[_ Hp]]; [|by exists p]. exists q. by destruct (Hf q Hs) as (? & ? & ?).
  - by exists p.
Qed.

Lemma set_request_fields id f self : let b := set_request id f self in
  b.(config) = self.(config) /\ b.(now) = self.(now) /\ b.(limits) = self.(limits) /\ b.(entries) = self.(entries)
  /\ b.(holds) = self.(holds) /\ b.(connection_serial) = self.(connection_serial).
Proof. cbn. unfold set_request. by destruct (requests self !! id). Qed.

Lemma tighter_set_request id f self :
  (forall q, (f q).(Pending.state) = RequestState.Waiting ->
     q.(Pending.state) = RequestState.Waiting /\ (f q).(Pending.request) = q.(Pending.request)
     /\ (f q).(Pending.prefer_wait) = q.(Pending.prefer_wait)) -> tighter self (set_request id f self).
Proof.
  intros Hf. destruct (set_request_fields id f self) as (E1 & E2 & E3 & E4 & E5 & E6). apply tighter_same; try done.
  intros i p Hp Hs. by eapply set_request_waiting.
Qed.

Lemma tighter_touch a b : tighter a b -> tighter a (touch b).
Proof. intros H. eapply tighter_trans; [exact H|]. apply tighter_same; try done. intros id p Hp Hs. by exists p. Qed.

(** An idle entry is leased or closed. *)
Lemma tighter_entry c e e' since self b : self.(entries) !! c = Some e -> e.(Entry.state) = EntryState.Idle since ->
  e'.(Entry.key) = e.(Entry.key) -> EntryState.is_idle e'.(Entry.state) = false ->
  b.(config) = self.(config) -> b.(now) = self.(now) -> b.(limits) = self.(limits) -> b.(holds) = self.(holds) ->
  b.(connection_serial) = self.(connection_serial) -> b.(requests) = self.(requests) ->
  b.(entries) = <[c := e']> self.(entries) -> tighter self b.
Proof.
  intros He Hi Hk Hn E1 E2 E3 E4 E5 E6 E7. constructor; try done; unfold owned, key_entries; rewrite ?E7.
  - intros session f. rewrite (count_update _ _ c e e' He). assert (in_use session f e = false) as -> by (unfold in_use; by rewrite Hi).
    unfold one_if. destruct (in_use session f e'); lia.
  - intros f. rewrite (count_update _ _ c e e' He), Hk. lia.
  - intros d g [[<- <-]|[_ Hg]]%lookup_insert_Some Hid; [congruence|done].
  - intros d g Hg Hl. destruct (decide (d = c)) as [->|]; [|by rewrite lookup_insert_ne].
    assert (g = e) as -> by congruence. by rewrite Hi in Hl.
  - intros i p. rewrite E6. intros Hp Hs. by exists p.
  - intros Hids d. rewrite E5. intros [<-|[_ Hd]]%lookup_insert_is_Some; apply Hids; [by eexists|done].
Qed.

Lemma tighter_reuse id self : tighter self (reuse_for id self).
Proof.
  destruct (requests self !! id) as [p|] eqn:Hp; [|unfold reuse_for; rewrite Hp; apply tighter_same; try done; intros i q Hq Hs; by exists q].
  rewrite (reuse_for_spec id p self Hp). cbn zeta. destruct (_ || _); [apply tighter_refl|]. destruct (_ && _); [apply tighter_refl|].
  destruct (reuse_pick _ _) as [c|] eqn:Hpick; [|apply tighter_refl]. apply reuse_pick_spec in Hpick as (e & since & He & Hi & _).
  apply tighter_touch. unfold lease_id. destruct (checked_add_u64 _ 1) as [serial|]; cbn [ok_or].
  - eapply tighter_trans; [|by apply tighter_set_request].
    unfold set_entry. cbn [entries over]. rewrite He. 
    apply (tighter_entry c e (leased_to (PoolRequest.owner (Pending.request p)) (LeaseId.mk c serial) id e) since); try done.
    unfold leased_to. cbn. by rewrite Hi.
  - by apply tighter_set_request.
Qed.

Lemma tighter_open id self : (forall c, is_Some (self.(entries) !! c) -> c.(ConnectionId.serial) <= self.(connection_serial)) ->
  tighter self (open_for id self).
Proof.
  intros Hids. unfold open_for. destruct (requests self !! id) as [p|]; [|apply tighter_refl].
  destruct (_ || _); [apply tighter_refl|]. destruct (_ || _); [apply tighter_refl|].
  destruct (checked_add_u64 _ 1) as [serial|] eqn:Hser; [|by apply tighter_set_request].
  apply checked_add_u64_Some in Hser as [-> _]. apply tighter_touch. eapply tighter_trans; [|by apply tighter_set_request].
  set (c := ConnectionId.mk _ _). assert (Hn : entries self !! c = None).
  { destruct (entries self !! c) eqn:E; [|done]. pose proof (Hids c ltac:(by eexists)) as Hle. cbn in Hle. lia. }
  constructor; cbn; try done; unfold owned, key_entries; cbn.
  - intros session f. rewrite count_new by done. unfold one_if. destruct (in_use _ _ _); lia.
  - intros f. rewrite count_new by done. unfold one_if. destruct (f _); lia.
  - intros d e [[<- <-]|[_ He]]%lookup_insert_Some Hi; done.
  - intros d e He _. rewrite lookup_insert_ne; [done|]. intros <-. congruence.
  - intros i q Hq Hs. by exists q.
  - intros _ d [<-|[_ Hd]]%lookup_insert_is_Some; [cbn; lia|]. specialize (Hids d Hd). lia.
Qed.

Lemma tighter_evict id self : tighter self (evict_for id self).
Proof.
  unfold evict_for. destruct (requests self !! id) as [p|]; [|apply tighter_same; try done; intros i q Hq Hs; by exists q].
  destruct (_ || _); [apply tighter_refl|]. destruct (existsb _ _); [apply tighter_refl|]. destruct (owner_full _ _); [apply tighter_refl|].
  destruct (victim_for _ _ _) as [c|] eqn:Hv; [|apply tighter_refl]. apply victim_idle in Hv as (e & since & He & Hs).
  eapply tighter_trans; [|by apply tighter_set_request]. unfold start_closing. rewrite He, Hs. cbn [EntryState.is_closing].
  apply tighter_touch. match goal with |- tighter _ (_ <| entries := <[c := ?e']> _ |>) => by apply (tighter_entry c e e' since) end.
Qed.

(** ** What is not done could not be done *)

(** No idle connection suits the request, or it asked for a fresh one. *)
Definition no_reuse (request : PoolRequest.t) (self : PoolMachine.t) : Prop :=
  request.(PoolRequest.fresh) = true
  \/ forall c e, self.(entries) !! c = Some e -> idle_for request c e = false.

(** Some capacity has no room for a new connection for the request. *)
Definition no_room (request : PoolRequest.t) (self : PoolMachine.t) : Prop :=
  (ceilings_for request self).(Capacity.total) <= Z.of_nat (size self.(entries))
  \/ (ceilings_for request self).(Capacity.per_user_host) <= user_host_total request.(PoolRequest.key) self
  \/ (ceilings_for request self).(Capacity.per_host) <= host_total request.(PoolRequest.key).(Key.host) self
  \/ site_full request.(PoolRequest.key) self = true.

(** If the request still waits, then [P] of it. *)
Definition passed (P : PoolRequest.t -> PoolMachine.t -> Prop) (id : RequestId.t) (self : PoolMachine.t) : Prop :=
  forall p, self.(requests) !! id = Some p -> p.(Pending.state) = RequestState.Waiting ->
    prefer_waits id self = true \/ owner_full p.(Pending.request) self = true \/ P p.(Pending.request) self.

Lemma owner_full_tighter request a b : tighter a b -> owner_full request a = true -> owner_full request b = true.
Proof.
  intros H. assert (Hl : limits_of request b = limits_of request a) by (unfold limits_of, capacity; by rewrite (ti_config _ _ H)).
  pose proof (ti_owned _ _ H (Owner.session (PoolRequest.owner request))) as Ho.
  pose proof (Ho (fun _ => true)) as O1. pose proof (Ho (fun k => bool_decide (Key.host k = Key.host (PoolRequest.key request)))) as O2.
  pose proof (Ho (fun k => Key.same_user_host k (PoolRequest.key request))) as O3.
  unfold owner_full. rewrite Hl, !orb_true_iff. unfold owned, count_values, in_use, owned_where in *.
  intros [[K|K]|K]; [left; left|left; right|right]; lia.
Qed.

Lemma prefer_waits_tighter id a b p : tighter a b -> b.(requests) !! id = Some p -> p.(Pending.state) = RequestState.Waiting ->
  prefer_waits id a = true -> prefer_waits id b = true.
Proof.
  intros H Hp Hs. destruct (ti_waiting _ _ H id p Hp Hs) as (p0 & Hp0 & _ & Hr & Hw). unfold prefer_waits. rewrite Hp, Hp0, Hr, Hw.
  destruct (PoolRequest.prefer _) as [c|]; [|done]. destruct (Pending.prefer_wait p0) as [[lease until]|]; [|done].
  rewrite (ti_now _ _ H), !andb_true_iff. intros [Hg He]. split; [done|]. unfold is_some_and in *.
  destruct (entries a !! c) as [e|] eqn:Hc; [|done]. assert (Hl : EntryState.is_leased (Entry.state e) = true).
  { destruct (Entry.state e); cbn in He; done. }
  by rewrite (ti_leased _ _ H c e Hc Hl).
Qed.

Lemma no_reuse_tighter request a b : tighter a b -> no_reuse request a -> no_reuse request b.
Proof.
  intros H [Hf|Hn]; [by left|]. right. intros c e He. destruct (idle_for request c e) eqn:Hi; [|done]. rewrite <- Hi. apply Hn.
  apply (ti_idle _ _ H c e He). unfold idle_for in Hi. by apply andb_true_iff in Hi as [Hi _].
Qed.

Lemma site_total_slots site self : site_total site self = key_entries (fun k => Key.on_site k site) self + key_holds (fun k => Key.on_site k site) self.
Proof. unfold site_total. by rewrite count_where_total. Qed.

Lemma no_room_tighter request a b : tighter a b -> no_room request a -> no_room request b.
Proof.
  intros H. assert (Hc : ceilings_for request b = ceilings_for request a)
    by (unfold ceilings_for, limits_of, capacity; by rewrite (ti_config _ _ H)).
  pose proof (ti_entries _ _ H) as He.
  assert (Hh : forall f, key_holds f b = key_holds f a) by (intros f; unfold key_holds; by rewrite (ti_holds _ _ H)).
  assert (Hall : forall s : PoolMachine.t, key_entries (fun _ => true) s = Z.of_nat (size (entries s))) by (intros; apply count_all).
  unfold no_room. rewrite Hc. intros [K|[K|[K|K]]].
  - left. specialize (He (fun _ => true)). rewrite !Hall in He. lia.
  - right; left. rewrite user_host_total_slots in *. rewrite Hh. specialize (He (fun k => Key.same_user_host k (PoolRequest.key request))). lia.
  - right; right; left. rewrite host_total_slots in *. rewrite Hh.
    specialize (He (fun k => bool_decide (Key.host k = Key.host (PoolRequest.key request)))). lia.
  - right; right; right. unfold site_full, is_some_and in *. rewrite (ti_limits _ _ H). destruct (hd_error _) as [[site n]|]; [|done].
    cbn in *. rewrite site_total_slots in *. rewrite Hh. specialize (He (fun k => Key.on_site k site)). lia.
Qed.

Lemma passed_tighter (P : PoolRequest.t -> PoolMachine.t -> Prop) id a b :
  (forall request, P request a -> P request b) -> tighter a b -> passed P id a -> passed P id b.
Proof.
  intros HP H Ha p Hp Hs. destruct (ti_waiting _ _ H id p Hp Hs) as (p0 & Hp0 & Hs0 & Hr & _). rewrite Hr.
  destruct (Ha p0 Hp0 Hs0) as [K|[K|K]]; [left; by eapply prefer_waits_tighter|right; left; by eapply owner_full_tighter|right; right; by apply HP].
Qed.

Lemma passed_reuse id self : passed no_reuse id (reuse_for id self).
Proof.
  destruct (requests self !! id) as [p0|] eqn:Hp0; [|intros p Hp; unfold reuse_for in Hp; rewrite Hp0 in Hp; cbn in Hp; congruence].
  rewrite (reuse_for_spec id p0 self Hp0). cbn zeta. destruct (_ || _) eqn:Hg.
  { intros p Hp Hs. assert (p0 = p) as -> by congruence. apply orb_true_iff in Hg as [Hg|Hg]; [right; right; by left|by right; left]. }
  destruct (_ && _) eqn:Hw.
  { intros p Hp Hs. left. by apply andb_true_iff in Hw as [_ Hw]. }
  destruct (reuse_pick _ _) as [c|] eqn:Hpick; intros p Hp Hs.
  - exfalso. cbn [requests touch over] in Hp. unfold lease_id in Hp. destruct (checked_add_u64 _ 1); cbn [ok_or] in Hp;
      unfold set_request in Hp; rewrite ?(proj1 (set_entry_requests _ _ _)) in Hp; cbn [requests over] in Hp; rewrite Hp0 in Hp;
      cbn [requests over] in Hp; rewrite ?(proj1 (set_entry_requests _ _ _)) in Hp; cbn [requests over] in Hp;
      rewrite lookup_insert_eq in Hp; injection Hp as <-; done.
  - assert (p0 = p) as -> by congruence. right; right. right. by apply reuse_pick_none.
Qed.

Lemma passed_open id self : passed no_room id (open_for id self).
Proof.
  unfold open_for. destruct (requests self !! id) as [p0|] eqn:Hp0; [|intros p Hp; congruence].
  destruct (negb _ || _) eqn:Hw.
  { intros p Hp Hs. assert (p0 = p) as -> by congruence. rewrite Hs in Hw. cbn in Hw. by left. }
  clear Hw. destruct (_ || _) eqn:Hg.
  { intros p Hp Hs. assert (p0 = p) as -> by congruence. right. rewrite !orb_true_iff in Hg. unfold no_room.
    destruct Hg as [[[[Hg|Hg]|Hg]|Hg]|Hg]; [by left|right; left|right; right; left|right; right; right; left|right; right; right; right]; try lia; done. }
  intros p Hp Hs. exfalso. destruct (checked_add_u64 _ 1); unfold set_request in Hp; cbn [requests touch over] in Hp; rewrite Hp0 in Hp;
    cbn [requests over] in Hp; rewrite lookup_insert_eq in Hp; injection Hp as <-; done.
Qed.

Definition ids_known (self : PoolMachine.t) : Prop :=
  forall c, is_Some (self.(entries) !! c) -> c.(ConnectionId.serial) <= self.(connection_serial).

(** A loop that tightens leaves every id it went over passed. *)
Lemma tighter_loop (P : PoolRequest.t -> PoolMachine.t -> Prop) (f : RequestId.t -> PoolMachine.t -> PoolMachine.t) ids self :
  (forall id s, ids_known s -> tighter s (f id s)) -> (forall id s, passed P id (f id s)) ->
  (forall request a b, tighter a b -> P request a -> P request b) -> ids_known self ->
  tighter self (for_ids ids f self) /\ forall id, id ∈ ids -> passed P id (for_ids ids f self).
Proof.
  intros Hf Hpass HP. revert self. induction ids as [|id ids IH]; intros self Hk.
  - split; [apply tighter_refl|]. intros id Hid. by apply not_elem_of_nil in Hid.
  - rewrite for_ids_cons. pose proof (Hf id self Hk) as Ht. destruct (IH (f id self) (ti_ids _ _ Ht Hk)) as [IH1 IH2].
    split; [by eapply tighter_trans|]. intros i [->|Hi]%elem_of_cons; [|by apply IH2].
    eapply passed_tighter; [|exact IH1|apply Hpass]. intros request. by apply HP.
Qed.

Lemma tighter_schedule self : ids_known self -> tighter self (schedule self).
Proof.
  intros Hk. unfold schedule. destruct (stopped self); [apply tighter_refl|]. set (ids := waiting_requests self).
  assert (Hloop : forall f s, (forall id s, ids_known s -> tighter s (f id s)) -> ids_known s -> tighter s (for_ids ids f s)).
  { intros f s Hf Hs. apply (tighter_loop (fun _ _ => True)); try done. intros i a q _ _. auto. }
  pose proof (Hloop reuse_for self ltac:(intros; apply tighter_reuse) Hk) as T1.
  pose proof (Hloop open_for _ ltac:(intros; by apply tighter_open) (ti_ids _ _ T1 Hk)) as T2.
  pose proof (Hloop evict_for _ ltac:(intros; apply tighter_evict) (ti_ids _ _ T2 (ti_ids _ _ T1 Hk))) as T3.
  eapply tighter_trans; [exact T1|]. by eapply tighter_trans.
Qed.

(** C19: The scheduler is work-conserving: a request that still waits after it,
    and is not waiting for the connection it prefers to be finished with, is
    waiting because its session is at its own limits, or because no idle
    connection suits it (or it asked for a fresh one) and there is no room for a
    new one under the total, its host's, its user's or its site's capacity. *)
Theorem schedule_work_conserving self id p : consistent self -> self.(stopped) = false ->
  let self' := schedule self in
  self'.(requests) !! id = Some p -> p.(Pending.state) = RequestState.Waiting -> prefer_waits id self' = false ->
  owner_full p.(Pending.request) self' = true
  \/ (no_reuse p.(Pending.request) self' /\ no_room p.(Pending.request) self').
Proof.
  intros H Hst self' Hp Hs Hpw. unfold self', schedule in *. rewrite Hst in *. set (ids := waiting_requests self) in *.
  assert (Hk : ids_known self) by (intros c Hc; apply (co_entry_ids _ H); by left).
  destruct (tighter_loop no_reuse reuse_for ids self) as [T1 P1]; try done.
  { intros. apply tighter_reuse. }
  { apply passed_reuse. }
  { apply no_reuse_tighter. }
  set (a := for_ids ids reuse_for self) in *.
  destruct (tighter_loop no_room open_for ids a) as [T2 P2].
  { intros. by apply tighter_open. }
  { apply passed_open. }
  { apply no_room_tighter. }
  { exact (ti_ids _ _ T1 Hk). }
  set (b := for_ids ids open_for a) in *.
  destruct (tighter_loop (fun _ _ => True) evict_for ids b) as [T3 _]; try done.
  { intros. apply tighter_evict. }
  { intros i s q _ _. auto. }
  { exact (ti_ids _ _ T2 (ti_ids _ _ T1 Hk)). }
  set (c := for_ids ids evict_for b) in *.
  assert (Hid : id ∈ ids).
  { apply waiting_requests_spec. destruct (ti_waiting _ _ (tighter_trans _ _ _ (tighter_trans _ _ _ T1 T2) T3) id p Hp Hs) as (q & Hq & Hsq & _).
    by exists q. }
  pose proof (passed_tighter no_reuse id a c ltac:(intros; eapply no_reuse_tighter; [eapply tighter_trans; [exact T2|exact T3]|done])
    (tighter_trans _ _ _ T2 T3) (P1 id Hid) p Hp Hs) as Q1.
  pose proof (passed_tighter no_room id b c ltac:(intros; by eapply no_room_tighter) T3 (P2 id Hid) p Hp Hs) as Q2.
  destruct Q1 as [Q1|[Q1|Q1]]; [congruence|by left|]. destruct Q2 as [Q2|[Q2|Q2]]; [congruence|by left|]. by right.
Qed.
