(* ===== verification/PoolService.v ===== *)
(** * What the pool's callers get

    A taken lease is the request's own and nobody else's; time fails what has
    waited too long and closes what has been idle too long; and retiring a scope
    that is still being opened for a request breaks the machine. *)
From S2P Require Import Prelude Utf8 Cbor Protocol Validate Binding BindingFacts PoolTypes SetupClock Pool PoolSteps PoolMoves PoolCalls PoolRun PoolDrain Counting PoolCapacity PoolSchedule.
Import PoolMachine.

(** ** Taking *)

(** C18: A taken lease is exclusive and is what was asked for: the connection is
    live under that lease, is for the request's key and owned by the request's
    owner, the request is gone, and no other request of the pool has that
    connection, be it ready or being opened. *)
Theorem take_exclusive self id lease self' : consistent self -> take id self = (Ok lease, self') ->
  exists p e, self.(requests) !! id = Some p /\ self'.(entries) !! lease.(LeaseId.connection) = Some e
    /\ e.(Entry.state) = EntryState.Leased lease None /\ is_live lease self' = true
    /\ e.(Entry.owner) = Some p.(Pending.request).(PoolRequest.owner) /\ e.(Entry.key) = p.(Pending.request).(PoolRequest.key)
    /\ self'.(requests) !! id = None
    /\ forall id' p', self'.(requests) !! id' = Some p' ->
         p'.(Pending.state) <> RequestState.Opening lease.(LeaseId.connection)
         /\ forall lease', p'.(Pending.state) = RequestState.Ready lease' ->
              lease'.(LeaseId.connection) <> lease.(LeaseId.connection).
Proof.
  intros H Ht. assert (H' : consistent self').
  { eapply (moves_consistent any_grant); [exact H|]. replace self' with (take id self).2 by (by rewrite Ht). by apply moves_take. }
  unfold take in Ht. destruct (requests self !! id) as [p|] eqn:Hp; [|done]. cbn [ok_or] in Ht.
  destruct (Pending.state p) as [| |l|error] eqn:Hs; try done. injection Ht as -> Hself.
  destruct (ready_claim self id p lease H Hp Hs) as (e & He & Hst & _ & _ & Ho & Hk). rewrite He, Hst in Hself.
  set (e' := e <| Entry.state := EntryState.Leased lease None |>) in Hself. exists p, e'.
  assert (He' : entries self' !! LeaseId.connection lease = Some e') by (subst self'; cbn; by rewrite lookup_insert_eq).
  split_and!; try done.
  - unfold is_live. rewrite He'. cbn. by apply bool_decide_eq_true.
  - subst self'. cbn. by rewrite lookup_delete_eq.
  - intros id' p' Hp'. assert (Hno : refers (Pending.state p') <> Some (LeaseId.connection lease)).
    { intros Hr. destruct (refers_claimant _ _ _ _ (co_requests _ H' id' p' Hp') Hr) as (e0 & He0 & Hcl). assert (e0 = e') as -> by congruence. done. }
    split; [by intros Hx; rewrite Hx in Hno|]. intros lease' Hx Heq. rewrite Hx in Hno. cbn in Hno. congruence.
Qed.

(** ** Time *)

Section time.
Variable source : Z -> nat -> Z.

Lemma fail_request_else id error reason self i : i <> id ->
  (fail_request source id error reason self).2.(requests) !! i = self.(requests) !! i.
Proof.
  intros Hi. unfold fail_request. destruct (requests self !! id) as [p|]; [|done]. cbn [ok_or].
  destruct (Pending.state p) as [|c|lease|err]; try done; cbn [snd].
  - cbn [requests touch over]. by apply set_request_other.
  - destruct (arbitrate_same source c error self) as (k & w & r & Ha).
    destruct (arbitrate_setup_error source c error self) as [error' self1]. cbn [snd] in *. subst self1.
    cbn [requests touch over]. rewrite set_request_other by done. cbn [entries over]. destruct (entries self !! c) as [e|]; [|done].
    by destruct (Entry.state e) as [r1 [clk|] n1 n2 cn| | |].
  - cbn [requests touch over]. rewrite set_request_other by done. by rewrite start_closing_requests.
Qed.

(** Failing requests one by one fails each with its own error. *)
Lemma fail_each_failed (l : list (RequestId.t * PoolError.t)) self id p error :
  self.(requests) !! id = Some p -> p.(Pending.state) = RequestState.Waiting -> (id, error) ∈ l ->
  (forall err, (id, err) ∈ l -> err = error) ->
  (foldl (fun self e => (fail_request source e.1 e.2 CloseReason.Cancelled self).2) self l).(requests) !! id
  = Some (fail_with error p).
Proof.
  intros Hp Hs Hin Hone.
  assert (Hkeep : forall l s, requests s !! id = Some (fail_with error p) ->
    (foldl (fun self e => (fail_request source e.1 e.2 CloseReason.Cancelled self).2) s l).(requests) !! id = Some (fail_with error p)).
  { clear. intros l. induction l as [|[i err] l IH]; intros s Hs; [done|]. cbn [foldl fst snd]. apply IH.
    destruct (decide (id = i)) as [<-|]; [|by rewrite fail_request_else]. unfold fail_request. by rewrite Hs. }
  revert self Hp. induction l as [|[i err] l IH]; intros self Hp; [by apply not_elem_of_nil in Hin|]. cbn [foldl fst snd].
  destruct (decide (id = i)) as [<-|Hne].
  - apply Hkeep. rewrite (Hone err) by left. unfold fail_request. rewrite Hp. cbn [ok_or]. rewrite Hs. cbn [snd requests touch over].
    unfold set_request. rewrite Hp. cbn. by rewrite lookup_insert_eq.
  - apply IH.
    + apply elem_of_cons in Hin as [[= -> _]|Hin]; [by destruct Hne|done].
    + intros e He. apply Hone. by right.
    + by rewrite fail_request_else.
Qed.

(** The waiting requests among those that have expired. *)
Lemma expiries_now l self : consistent self -> (forall id p, (id, p) ∈ l -> self.(requests) !! id = Some p) ->
  forall id p, (id, p) ∈ l -> p.(Pending.state) = RequestState.Waiting ->
    (p.(Pending.deadline) <= self.(now) -> (id, PoolError.AllocationTimeout) ∈ (expiries source l self).1.1)
    /\ forall err, (id, err) ∈ (expiries source l self).1.1 -> err = PoolError.AllocationTimeout.
Proof.
  revert self. induction l as [|[i q] l IH]; intros self H Hl id p Hin Hs; [by apply not_elem_of_nil in Hin|]. cbn [expiries].
  destruct (expiry_same source i q self H (Hl i q ltac:(left))) as [k Hk].
  destruct (expiry source q self) as [[error update] self1] eqn:Hx. cbn [snd] in Hk. subst self1.
  assert (H1 : consistent (self <| clocks := k |>)) by (eapply (moves_consistent any_grant); [exact H|]; by apply moves_side).
  specialize (IH _ H1 ltac:(intros j r Hj; apply Hl; by right)).
  assert (Hhead : q.(Pending.state) = RequestState.Waiting ->
    error = if Pending.deadline q <=? now self then Some PoolError.AllocationTimeout else None).
  { intros Hq. unfold expiry in Hx. rewrite Hq in Hx. by injection Hx. }
  assert (Hrest : forall err, (id, err) ∈ (expiries source l (self <| clocks := k |>)).1.1 -> err = PoolError.AllocationTimeout).
  { intros err Herr.
    assert (Hd : forall l s, (id, err) ∈ (expiries source l s).1.1 -> exists r, (id, r) ∈ l).
    { clear. intros l. induction l as [|[j r] l IH]; intros s Hin; [by apply not_elem_of_nil in Hin|]. cbn [expiries] in Hin.
      destruct (expiry source r s) as [[error update] s1]. specialize (IH s1). destruct (expiries source l s1) as [[ex ups] s2].
      cbn [fst] in *. apply elem_of_app in Hin as [Hin|Hin].
      - destruct error as [e|]; cbn in Hin; [|by apply not_elem_of_nil in Hin]. apply list_elem_of_singleton in Hin. injection Hin as -> ->.
        exists r. left.
      - destruct (IH Hin) as [r' Hr']. exists r'. by right. }
    destruct (Hd _ _ Herr) as [r Hr]. assert (r = p) as ->.
    { pose proof (Hl id r ltac:(by right)) as E1. pose proof (Hl id p Hin) as E2. congruence. }
    by apply (proj2 (IH id p Hr Hs)). }
  destruct (expiries source l _) as [[expired updates] self2] eqn:He. cbn [fst snd] in *. split.
  - intros Hd. apply elem_of_app. apply elem_of_cons in Hin as [[= <- <-]|Hin].
    + left. rewrite (Hhead Hs). assert ((Pending.deadline p <=? now self) = true) as -> by lia. cbn. left.
    + right. apply (proj1 (IH id p Hin Hs)). exact Hd.
  - intros err Herr. apply elem_of_app in Herr as [Herr|Herr]; [|by apply Hrest].
    destruct error as [e|]; cbn in Herr; [|by apply not_elem_of_nil in Herr]. apply list_elem_of_singleton in Herr. injection Herr as -> ->.
    assert (q = p) as ->.
    { pose proof (Hl i q ltac:(left)) as E1. pose proof (Hl i p Hin) as E2. congruence. }
    specialize (Hhead Hs). destruct (_ <=? _); [by injection Hhead|done].
Qed.

(** A request that does not wait is left alone by what comes after. *)
Lemma open_for_settled id self i p : self.(requests) !! i = Some p -> p.(Pending.state) <> RequestState.Waiting ->
  (open_for id self).(requests) !! i = Some p.
Proof.
  intros Hp Hs. destruct (decide (i = id)) as [<-|]; [|by rewrite open_for_other].
  unfold open_for. rewrite Hp. by destruct (Pending.state p).
Qed.

(** Lapsing holds opens connections, for requests that wait. *)
Lemma lapse_loop due evs self :
  let r := foldl (fun '(evictors, self) (e : Z * ConnectionId.t) =>
    match self.(holds) !! e.2 with
    | Some hold => (evictors ++ option_list hold.(Hold.evictor), self <| holds := delete e.2 self.(holds) |>)
    | None => (evictors, self)
    end) (evs, self) due in
  exists h, r.2 = self <| holds := h |>.
Proof.
  revert evs self. induction due as [|e due IH]; intros evs self; cbn [foldl].
  - exists (holds self). by destruct self.
  - destruct (holds self !! e.2); [|apply IH]. destruct (IH (evs ++ option_list (Hold.evictor t0)) (self <| holds := delete e.2 (holds self) |>)) as [h Hh].
    exists h. exact Hh.
Qed.

Lemma lapse_holds_spec (P : PoolMachine.t -> Prop) self :
  (forall h, P (self <| holds := h |>)) -> (forall id s, P s -> P (open_for id s)) -> (forall s, P s -> P (touch s)) -> P self ->
  P (lapse_holds self).
Proof.
  intros Hh Ho Ht Hs. unfold lapse_holds. destruct (lapsed self) as [|x l] eqn:Hl; [done|]. rewrite <- Hl.
  destruct (lapse_loop (lapsed self) [] self) as [h Hr]. cbn zeta in Hr. destruct (foldl _ _ (lapsed self)) as [evs s]. cbn [snd] in Hr. subst s.
  apply Ht, for_ids_keeps; [|apply Hh]. intros id s HP. destruct (is_some_and _ _); [by apply Ho|done].
Qed.

(** No idle entry is past its time. *)
Definition fresh_idle (self : PoolMachine.t) : Prop :=
  forall c e, self.(entries) !! c = Some e -> idle_expiry self e = None.

Lemma fresh_idle_tighter a b : tighter a b -> fresh_idle a -> fresh_idle b.
Proof.
  intros H Ha c e He. destruct (idle_expiry b e) eqn:Hi; [|done]. rewrite <- Hi.
  assert (Hid : EntryState.is_idle (Entry.state e) = true) by (unfold idle_expiry in Hi; by destruct (Entry.state e)).
  rewrite <- (Ha c e (ti_idle _ _ H c e He Hid)). unfold idle_expiry. by rewrite (ti_config _ _ H), (ti_now _ _ H).
Qed.

Lemma close_each_spec (l : list (ConnectionId.t * CloseReason.t)) self :
  let self' := foldl (fun self e => start_closing e.1 e.2 self) self l in
  self'.(requests) = self.(requests) /\ self'.(now) = self.(now) /\ self'.(config) = self.(config)
  /\ forall c e, self'.(entries) !! c = Some e -> EntryState.is_idle e.(Entry.state) = true ->
       self.(entries) !! c = Some e /\ c ∉ l.*1.
Proof.
  cbn zeta. revert self. induction l as [|[d reason] l IH]; intros self; cbn [foldl fst snd].
  - split_and!; try done. intros c e He _. split; [done|]. apply not_elem_of_nil.
  - destruct (IH (start_closing d reason self)) as (E1 & E2 & E3 & E4). rewrite E1, E2, E3, start_closing_requests.
    assert (Hf : now (start_closing d reason self) = now self /\ config (start_closing d reason self) = config self).
    { unfold start_closing. destruct (entries self !! d); [|done]. by destruct (EntryState.is_closing _). }
    destruct Hf as [-> ->]. split_and!; try done. intros c e He Hi. destruct (E4 c e He Hi) as [Hc Hni].
    destruct (start_closing_entry _ _ _ _ _ Hc) as [Hc'|[_ Hcl]]; [|by destruct (Entry.state e)]. split; [done|]. cbn.
    apply not_elem_of_cons. split; [|done]. intros ->. unfold start_closing in Hc. rewrite Hc' in Hc.
    destruct (Entry.state e) eqn:Hs; try done. cbn in Hc. rewrite lookup_insert_eq in Hc. injection Hc as Hc.
    apply (f_equal Entry.state) in Hc. cbn in Hc. congruence.
Qed.

(** Nothing that is due outlives an [advance]: every request that was
    waiting with its allocation deadline reached has failed with
    [AllocationTimeout], whatever else happened in the same call, and no
    connection is left idle past its idle time or its age. *)
Theorem advance_expires self now_ms : consistent self -> self.(now) <= now_ms ->
  let self' := advance source now_ms self in
  (forall id p, self.(requests) !! id = Some p -> p.(Pending.state) = RequestState.Waiting -> p.(Pending.deadline) <= now_ms ->
     exists p', self'.(requests) !! id = Some p' /\ p'.(Pending.state) = RequestState.Failed PoolError.AllocationTimeout)
  /\ fresh_idle self'.
Proof.
  intros H Hn. cbn zeta. unfold advance. assert ((now_ms <? now self) = false) as -> by lia. set (self0 := self <| now := now_ms |>).
  assert (H0 : consistent self0).
  { eapply (moves_consistent any_grant); [exact H|]. apply moves_book; try done; cbn; try lia; auto. }
  assert (Hl : forall i q, (i, q) ∈ Prelude.entries (requests self0) -> requests self0 !! i = Some q) by (intros i q; apply elem_of_entries).
  pose proof (expiries_now (Prelude.entries (requests self0)) self0 H0 Hl) as Hexp.
  destruct (expiries_same source _ self0 H0 Hl) as [k Hk]. destruct (expiries source _ self0) as [[expired updates] self1]. cbn [fst snd] in *.
  destruct (absorb_all_same updates self1) as (w & r & ->).
  set (self2 := self1 <| clock_wakes := w |> <| clock_retired := r |>).
  assert (Hm2 : moves any_grant self0 self2) by (subst self2 self1; by apply moves_side).
  pose proof (moves_consistent _ _ _ H0 Hm2) as H2. assert (Hr2 : requests self2 = requests self) by (by subst self2 self1).
  set (self3 := foldl _ self2 expired).
  assert (Hm3 : moves any_grant self2 self3) by (by apply moves_fail_each).
  set (idle := omap _ _). destruct (close_each_spec idle self3) as (E1 & E2 & E3 & E4). cbn zeta in *.
  assert (Hclose : forall e, e ∈ idle -> closable self3 e.1).
  { intros x Hx. apply list_elem_of_omap in Hx as ([c e] & Hin & Hx). cbn in Hx. destruct (idle_expiry self3 e) eqn:Hi; [|done].
    injection Hx as <-. exists e. split; [by apply elem_of_entries|]. by eapply idle_expiry_unclaimed. }
  set (self4 := foldl _ self3 idle) in *.
  assert (H4 : consistent self4).
  { eapply (moves_consistent any_grant); [exact (moves_consistent _ _ _ H2 Hm3)|]. apply moves_close_each; [exact (moves_consistent _ _ _ H2 Hm3)|done]. }
  assert (Hfresh4 : fresh_idle self4).
  { intros c e He. destruct (idle_expiry self4 e) as [reason|] eqn:Hi; [|done].
    assert (Hid : EntryState.is_idle (Entry.state e) = true) by (unfold idle_expiry in Hi; by destruct (Entry.state e)).
    destruct (E4 c e He Hid) as [Hc Hni]. exfalso. apply Hni. apply list_elem_of_fmap. exists (c, reason). split; [done|].
    apply list_elem_of_omap. exists (c, e). split; [by apply elem_of_entries|]. cbn. unfold idle_expiry in *. by rewrite <- E2, <- E3, Hi. }
  assert (Hstep : forall P : PoolMachine.t -> Prop, (forall s, P s -> P (touch s)) -> P (schedule (lapse_holds self4)) ->
    P (let self5 := schedule (lapse_holds self4) in
       if (revision self5 =? revision self) && (now self <? now self5) && cleanup_deadline_crossed (now self) (now self5) self5
       then touch self5 else self5)) by (intros P HP1 HP2; cbn zeta; destruct (_ && _); auto).
  split.
  - intros id p Hp Hs Hd. apply (Hstep (fun s => exists p', requests s !! id = Some p' /\ Pending.state p' = RequestState.Failed PoolError.AllocationTimeout)); [done|].
    assert (Hf : requests self4 !! id = Some (fail_with PoolError.AllocationTimeout p)).
    { rewrite E1. assert (Hin : (id, p) ∈ Prelude.entries (requests self0)) by (by apply elem_of_entries).
      destruct (Hexp id p Hin Hs) as [X1 X2]. apply fail_each_failed; [by rewrite Hr2|done|by apply X1|exact X2]. }
    exists (fail_with PoolError.AllocationTimeout p). split; [|done].
    assert (Hlap : requests (lapse_holds self4) !! id = Some (fail_with PoolError.AllocationTimeout p)).
    { apply (lapse_holds_spec (fun s => requests s !! id = Some (fail_with PoolError.AllocationTimeout p))); try done.
      intros i s Hi. by apply open_for_settled. }
    rewrite schedule_other; [done|]. intros (q & Hq & Hsq). rewrite Hlap in Hq. injection Hq as <-. done.
  - apply (Hstep fresh_idle); [done|].
    assert (Hk4 : ids_known (lapse_holds self4) /\ fresh_idle (lapse_holds self4)).
    { apply (lapse_holds_spec (fun s => ids_known s /\ fresh_idle s)).
      - intros h. split; [|exact Hfresh4]. intros c Hc. apply (co_entry_ids _ H4). by left.
      - intros i s [K1 K2]. pose proof (tighter_open i s K1) as Ht. split; [exact (ti_ids _ _ Ht K1)|by eapply fresh_idle_tighter].
      - done.
      - split; [|exact Hfresh4]. intros c Hc. apply (co_entry_ids _ H4). by left. }
    destruct Hk4 as [K1 K2]. eapply fresh_idle_tighter; [|exact K2]. by apply tighter_schedule.
Qed.
End time.
