(* ===== verification/PoolSamples.v ===== *)
(** * The pool at work

    A small pool run on concrete requests: the theorems at concrete inputs, and
    a run on which the machine breaks. *)
From S2P Require Import Prelude Utf8 Cbor Protocol Validate Binding BindingFacts PoolTypes SetupClock Pool PoolSteps PoolMoves PoolCalls PoolRun PoolDrain Counting PoolCapacity PoolSchedule PoolService.
Import PoolMachine.

Definition no_time (_ : Z) (_ : nat) : Z := 0.

(** Room for one connection and two requests. *)
Definition one_slot : PoolConfig.t := PoolConfig.mk 1 1 1 2 60000 600000 30000 30000 120000 5000.
Definition empty_pool : PoolMachine.t :=
  PoolMachine.mk one_slot 1 0 0 0 0 ∅ ∅ [] [] [] ∅ false false 0 [] [] Clocks.empty false.

Example empty_pool_new : new 1 one_slot = (Ok empty_pool, 2).
Proof. reflexivity. Qed.

Definition forge : Key.t := Key.https "forge.example" 443.
Definition plain_request (session : string) : PoolRequest.t :=
  PoolRequest.new forge PoolIdentity.Https (Owner.mk session "fetch").
Definition first_connection : ConnectionId.t := ConnectionId.mk 1 1.
Definition request_number (n : Z) : RequestId.t := RequestId.mk 1 n.
Definition first_lease : LeaseId.t := LeaseId.mk first_connection 1.

(** A request is made, connected and taken; another one has to wait. *)
Definition opening_ops : list PoolOp.t := [PoolOp.Request (plain_request "a") None; PoolOp.NextAction].
Definition waiting_ops : list PoolOp.t := opening_ops ++ [PoolOp.Request (plain_request "b") None].
Definition ready_ops : list PoolOp.t := waiting_ops ++ [PoolOp.Connected first_connection (Ok (Some PoolIdentity.Https))].
Definition leased_ops : list PoolOp.t := ready_ops ++ [PoolOp.Take (request_number 1)].
Definition after (ops : list PoolOp.t) : PoolMachine.t := pool_run no_time ops empty_pool.

Lemma empty_pool_consistent : consistent empty_pool.
Proof. exact (new_consistent 1 one_slot empty_pool 2 eq_refl). Qed.

Definition unconditional (op : PoolOp.t) : bool := match op with PoolOp.RetireHttpsScope _ => false | _ => true end.

Lemma unconditional_permitted ops self : forallb unconditional ops = true -> run_permitted no_time ops self.
Proof.
  revert self. induction ops as [|op ops IH]; intros self; [done|]. cbn. rewrite andb_true_iff. intros [Ho Hs].
  split; [by destruct op|by apply IH].
Qed.

Lemma after_consistent ops : forallb unconditional ops = true -> consistent (after ops).
Proof. intros H. apply run_consistent; [apply empty_pool_consistent|by apply unconditional_permitted]. Qed.

Example leased_run : let self := after leased_ops in
  is_live first_lease self = true /\ counts self = Counts.mk 0 0 1 0
  /\ option_map Pending.state (self.(requests) !! request_number 2) = Some RequestState.Waiting.
Proof. vm_compute. done. Qed.

(** Once released, the connection goes to the waiting request under a new lease. *)
Example lease_passes_on :
  let self := pool_run no_time [PoolOp.Release first_lease Disposition.Reusable] (after leased_ops) in
  (take (request_number 2) self).1 = Ok (LeaseId.mk first_connection 2)
  /\ is_live first_lease self = false /\ counts self = Counts.mk 0 0 1 0.
Proof. vm_compute. done. Qed.

(** ** The theorems at concrete inputs *)

Lemma pool_never_panics_witness : new 1 one_slot = (Ok empty_pool, 2) /\ (after leased_ops).(panicked) = false.
Proof.
  split; [reflexivity|]. apply (pool_never_panics no_time 1 one_slot empty_pool 2 leased_ops eq_refl).
  apply unconditional_permitted. reflexivity.
Defined.

Lemma released_lease_stays_stale_witness :
  let self1 := (release first_lease Disposition.Reusable (after leased_ops)).2 in
  (release first_lease Disposition.Reusable (after leased_ops)).1 = Ok tt
  /\ is_live first_lease (pool_run no_time [PoolOp.Take (request_number 2)] self1) = false.
Proof.
  split; [vm_compute; reflexivity|].
  apply (released_lease_stays_stale no_time (after leased_ops) first_lease Disposition.Reusable [PoolOp.Take (request_number 2)]).
  - apply after_consistent. reflexivity.
  - vm_compute. reflexivity.
  - apply unconditional_permitted. reflexivity.
Defined.

Lemma slot_held_until_disposed_witness :
  holds_slot first_connection (pool_run no_time [PoolOp.Cancel (request_number 1); PoolOp.Advance 100000; PoolOp.NextAction] (after opening_ops)).
Proof.
  apply (slot_held_until_disposed no_time (after opening_ops) first_connection).
  - apply after_consistent. reflexivity.
  - eexists. split; [vm_compute; reflexivity|]. exact I.
  - apply unconditional_permitted. reflexivity.
  - repeat (apply list.Forall_cons; split; [done|]). by apply list.Forall_nil.
Defined.

Lemma shutdown_drains_witness : no_more (shutdown no_time (after leased_ops))
  (pool_run no_time [PoolOp.Request (plain_request "c") None; PoolOp.NextAction; PoolOp.Closed first_connection]
     (shutdown no_time (after leased_ops))).
Proof.
  apply (shutdown_drains no_time (after leased_ops)).
  - apply after_consistent. reflexivity.
  - apply unconditional_permitted. reflexivity.
Defined.

Definition refused : Failure.t := Failure.mk ErrorCode.Io Effect.None None None None.

Lemma shutdown_completes_witness : (shutdown_complete (shutdown no_time (after leased_ops))) = false
  /\ exists fuel actions self2, (fuel <= 2 * size (shutdown no_time (after leased_ops)).(entries) + 1)%nat
    /\ take_actions fuel (shutdown no_time (after leased_ops)) = (actions, self2)
    /\ shutdown_complete (for_ids (keys self2.(entries)) (acknowledge no_time refused) self2) = true.
Proof.
  split; [vm_compute; reflexivity|]. apply (shutdown_completes no_time (after leased_ops) refused).
  apply after_consistent. reflexivity.
Defined.

Lemma pool_capacity_witness : Z.of_nat (size (after waiting_ops).(entries)) <= 1 /\ Z.of_nat (size (after waiting_ops).(requests)) <= 2.
Proof.
  destruct (pool_capacity no_time 1 one_slot empty_pool 2 (PoolConfig.capacity one_slot) waiting_ops eq_refl) as (H1 & _ & _ & H2).
  - unfold at_most. cbn. lia.
  - repeat (apply list.Forall_cons; split; [intros r [= <-] || done; unfold asks_at_most, at_most; cbn; lia|]). by apply list.Forall_nil.
  - apply unconditional_permitted. reflexivity.
  - exact (conj H1 H2).
Defined.

(** Session "a" asks for less than the pool would allow it. *)
Definition modest : Capacity.t := Capacity.mk 1 1 1 1.
Definition modest_request (session : string) : PoolRequest.t :=
  PoolRequest.mk forge PoolIdentity.Https (Owner.mk session "fetch") None None None false None [] (Some modest) None None.
Definition modest_ops : list PoolOp.t :=
  [PoolOp.Request (modest_request "a") None; PoolOp.Request (modest_request "a") None; PoolOp.Request (plain_request "b") None].

Lemma session_capacity_witness : owned_where "a" (fun _ => true) (after modest_ops) <= 1
  /\ len (keep (of_session "a") (values (after modest_ops).(requests))) <= 1.
Proof.
  destruct (session_capacity no_time 1 one_slot empty_pool 2 "a" modest modest_ops eq_refl) as (H1 & _ & _ & H2).
  - reflexivity.
  - repeat (apply list.Forall_cons; split; [intros r [= <-] Hs; first [discriminate Hs|unfold asks_at_most, at_most; cbn; lia]|]).
    by apply list.Forall_nil.
  - apply unconditional_permitted. reflexivity.
  - exact (conj H1 H2).
Defined.

(** The pool with a request made and not yet scheduled. *)
Definition unscheduled : PoolMachine.t := after waiting_ops.

Lemma schedule_work_conserving_witness :
  let self' := schedule unscheduled in
  exists p, self'.(requests) !! request_number 2 = Some p
    /\ (owner_full p.(Pending.request) self' = true \/ (no_reuse p.(Pending.request) self' /\ no_room p.(Pending.request) self')).
Proof.
  cbn zeta. destruct ((schedule unscheduled).(requests) !! request_number 2) as [p|] eqn:Hp; [|vm_compute in Hp; discriminate Hp].
  exists p. split; [done|]. apply (schedule_work_conserving unscheduled (request_number 2) p).
  - apply after_consistent. reflexivity.
  - vm_compute. reflexivity.
  - exact Hp.
  - vm_compute in Hp. injection Hp as <-. reflexivity.
  - vm_compute. reflexivity.
Defined.

Lemma take_exclusive_witness : exists self', take (request_number 1) (after ready_ops) = (Ok first_lease, self')
  /\ is_live first_lease self' = true.
Proof.
  destruct (take (request_number 1) (after ready_ops)) as [r self'] eqn:Ht. exists self'.
  assert (Hr : r = Ok first_lease) by (change r with ((r, self').1); rewrite <- Ht; vm_compute; reflexivity). subst r. split; [done|].
  destruct (take_exclusive (after ready_ops) (request_number 1) first_lease self') as (p & e & _ & _ & _ & Hl & _); [| |exact Hl].
  - apply after_consistent. reflexivity.
  - exact Ht.
Defined.

Lemma advance_expires_witness : exists p', (advance no_time 30000 (after leased_ops)).(requests) !! request_number 2 = Some p'
  /\ p'.(Pending.state) = RequestState.Failed PoolError.AllocationTimeout.
Proof.
  destruct ((after leased_ops).(requests) !! request_number 2) as [p|] eqn:Hp; [|vm_compute in Hp; discriminate Hp].
  apply (proj1 (advance_expires no_time (after leased_ops) 30000 ltac:(apply after_consistent; reflexivity) ltac:(vm_compute; congruence))
    (request_number 2) p Hp); vm_compute in Hp; injection Hp as <-; [reflexivity|cbn; lia].
Defined.

(** ** A scope retired too early *)

Definition scoped_request : PoolRequest.t := PoolRequest.new forge (PoolIdentity.HttpsScoped "token") (Owner.mk "a" "fetch").

(** The connection is being made when its scope is retired; the host closes it. *)
Definition retire_ops : list PoolOp.t :=
  [PoolOp.Request scoped_request None; PoolOp.NextAction; PoolOp.RetireHttpsScope "token"; PoolOp.NextAction; PoolOp.Closed first_connection].

(** [retire_https_scope] closes the scope's connections even while one is
    being opened for a request, and leaves that request waiting for it. When the
    host then reports the connection closed, as it was told to close it, the
    request refers to an entry that is gone, its caller is told to wait for
    ever, and the next [advance] and the next [next_deadline] panic on the missing
    entry. *)
Theorem retired_scope_panics :
  let self := after retire_ops in
  self.(panicked) = false
  /\ option_map Pending.state (self.(requests) !! request_number 1) = Some (RequestState.Opening first_connection)
  /\ self.(entries) !! first_connection = None
  /\ (take (request_number 1) self).1 = Err PoolError.WouldBlock
  /\ next_deadline self = None
  /\ (advance no_time 30000 self).(panicked) = true.
Proof. vm_compute. done. Qed.
