(* ===== verification/TextFacts.v ===== *)
(** * Facts about text

    Splitting inverts joining, digits read back as the number they print, and an
    IPv4 or IPv6 address parses back from its own text. *)
From S2P Require Import Prelude Utf8 Text.

(** ** Splitting and joining *)

Lemma starts_with_spec (p s : str) : starts_with p s = true <-> exists r, s = p ++ r.
Proof.
  revert s. induction p as [|a p IH]; intros s; simpl.
  - split; [intros _; by exists s | done].
  - destruct s as [|b s]; [split; [done | by intros (r & ?)]|].
    rewrite andb_true_iff, Z.eqb_eq, IH. split.
    + intros (-> & r & ->). by exists r.
    + intros (r & [= -> ->]). split; [done | by exists r].
Qed.

Lemma strip_prefix_spec (p s r : str) : strip_prefix p s = Some r <-> s = p ++ r.
Proof.
  unfold strip_prefix. destruct (starts_with p s) eqn:E.
  - apply starts_with_spec in E as (t & ->). rewrite drop_app_length. split; intros H.
    + by injection H as ->.
    + by apply (inj (app p)) in H as ->.
  - split; intros H; [done|]. exfalso. apply not_true_iff_false in E. apply E, starts_with_spec. by exists r.
Qed.

Lemma strip_suffix_spec (p s r : str) : strip_suffix p s = Some r <-> s = r ++ p.
Proof.
  unfold strip_suffix. split.
  - destruct (_ && _) eqn:E; [|done]. intros [= <-]. bprop. rewrite <- H0 at 2.
    by rewrite take_drop.
  - intros ->. rewrite length_app.
    replace (length r + length p - length p)%nat with (length r) by lia.
    rewrite drop_app_length, take_app_length, bool_decide_eq_true_2 by done.
    by destruct (Nat.leb_spec (length p) (length r + length p)); [|lia].
Qed.

Lemma strip_suffix_None (p s : str) : strip_suffix p s = None <-> forall r, s <> r ++ p.
Proof.
  destruct (strip_suffix p s) eqn:E.
  - apply strip_suffix_spec in E. split; [done|]. intros H. by destruct (H l).
  - split; [|done]. intros _ r H. apply strip_suffix_spec in H. congruence.
Qed.

Lemma strip_prefix_None (p s : str) : strip_prefix p s = None <-> forall r, s <> p ++ r.
Proof.
  destruct (strip_prefix p s) eqn:E.
  - apply strip_prefix_spec in E. split; [done|]. intros H. by destruct (H l).
  - split; [|done]. intros _ r H. apply strip_prefix_spec in H. congruence.
Qed.

Lemma find_byte_spec (c : Z) (s : str) (i : nat) :
  find_byte c s = Some i <-> (c ∉ take i s) /\ exists r, drop i s = c :: r.
Proof.
  revert i. induction s as [|b s IH]; intros i; simpl.
  - split; [done|]. intros (_ & r & H). by rewrite drop_nil in H.
  - destruct (Z.eqb_spec b c) as [->|Hb].
    + split; [intros [= <-]; split; [set_solver | by exists s]|].
      intros (H & r & Hr). destruct i; [done|]. simpl in H. set_solver.
    + rewrite fmap_Some. split.
      * intros (j & Hj & ->). apply IH in Hj as (H1 & H2). simpl. split; [set_solver | done].
      * intros (H & r & Hr). destruct i; simpl in *; [simplify_eq|].
        exists i. split; [|done]. apply IH. split; [set_solver | by exists r].
Qed.

Lemma find_byte_first (c : Z) (a r : str) : c ∉ a -> find_byte c (a ++ c :: r) = Some (length a).
Proof.
  intros H. apply find_byte_spec. rewrite take_app_length, drop_app_length. split; [done | by exists r].
Qed.

Lemma find_byte_None (c : Z) (s : str) : find_byte c s = None <-> c ∉ s.
Proof.
  induction s as [|b s IH]; simpl; [split; [set_solver | done]|].
  destruct (Z.eqb_spec b c) as [->|Hb]; [split; [done | set_solver]|].
  rewrite fmap_None, IH. set_solver.
Qed.

Lemma rsplit_once_None (c : Z) (s : str) : rsplit_once c s = None <-> c ∉ s.
Proof.
  induction s as [|b s IH]; simpl; [split; [set_solver | done]|].
  destruct (rsplit_once c s) as [[a t]|].
  - split; [done|]. intros H. assert (Hs : c ∉ s) by set_solver. by apply IH in Hs.
  - destruct (Z.eqb_spec b c) as [->|Hb]; [split; [done | set_solver]|].
    assert (c ∉ s) by (by apply IH). split; [set_solver | done].
Qed.

Lemma rsplit_once_spec (c : Z) (s a t : str) :
  rsplit_once c s = Some (a, t) <-> s = a ++ c :: t /\ c ∉ t.
Proof.
  revert a t. induction s as [|b s IH]; intros a t; simpl.
  - split; [done|]. intros (H & _). by destruct a.
  - destruct (rsplit_once c s) as [[a' t']|] eqn:E.
    + assert (Hs := proj1 (IH a' t') eq_refl). destruct Hs as (-> & Ht). split.
      * intros [= <- <-]. done.
      * intros (H & Hc). destruct a as [|x a]; simplify_eq/=; [set_solver|].
        assert (Hs : Some (a', t') = Some (a, t)) by (by apply IH). by simplify_eq.
    + apply rsplit_once_None in E. destruct (Z.eqb_spec b c) as [->|Hb]; split.
      * by intros [= <- <-].
      * intros (H & _). destruct a as [|x a]; simplify_eq/=; [done|]. set_solver.
      * done.
      * intros (H & _). destruct a as [|x a]; simplify_eq/=. set_solver.
Qed.

Lemma split_ne (c : Z) (s : str) : split c s <> [].
Proof. destruct s as [|b s]; simpl; [done|]. destruct (b =? c), (split c s); done. Qed.

Lemma split_parts (c : Z) (s p : str) : p ∈ split c s -> c ∉ p.
Proof.
  revert p. induction s as [|b s IH]; intros p; simpl.
  - rewrite list_elem_of_singleton. intros ->. apply not_elem_of_nil.
  - pose proof (split_ne c s) as Hne. destruct (Z.eqb_spec b c) as [->|Hb].
    + rewrite elem_of_cons. intros [->|Hp]; [apply not_elem_of_nil | by apply IH].
    + destruct (split c s) as [|h t]; [done|]. rewrite elem_of_cons. intros [->|Hp].
      * assert (c ∉ h) by (apply IH; left). set_solver.
      * apply IH. by right.
Qed.

Lemma join_split (c : Z) (s : str) : join [c] (split c s) = s.
Proof.
  induction s as [|b s IH]; simpl; [done|].
  destruct (Z.eqb_spec b c) as [->|Hb].
  - pose proof (split_ne c s). destruct (split c s) as [|h t]; [done|]. simpl. f_equal. exact IH.
  - pose proof (split_ne c s). destruct (split c s) as [|h [|h' t]]; [done | |]; simpl in *; by rewrite IH.
Qed.

Lemma split_plain (c : Z) (s : str) : c ∉ s -> split c s = [s].
Proof.
  induction s as [|b s IH]; intros H; simpl; [done|].
  destruct (Z.eqb_spec b c) as [->|Hb]; [set_solver|]. rewrite IH by set_solver. done.
Qed.

Lemma split_app (c : Z) (a s : str) : c ∉ a -> split c (a ++ c :: s) = a :: split c s.
Proof.
  induction a as [|b a IH]; intros H; simpl; [by rewrite Z.eqb_refl|].
  destruct (Z.eqb_spec b c) as [->|Hb]; [set_solver|]. rewrite IH by set_solver. done.
Qed.

Lemma split_join (c : Z) (l : list str) :
  l <> [] -> (forall p, p ∈ l -> c ∉ p) -> split c (join [c] l) = l.
Proof.
  induction l as [|a l IH]; intros Hne Hl; [done|].
  destruct l as [|b l].
  - simpl. apply split_plain, Hl. left.
  - change (join [c] (a :: b :: l)) with (a ++ c :: join [c] (b :: l)).
    rewrite split_app by (apply Hl; left). rewrite IH; [done | done |]. intros p Hp. apply Hl. by right.
Qed.

Lemma elem_of_join (c x : Z) (l : list str) :
  x ∈ join [c] l -> x = c \/ exists p, p ∈ l /\ x ∈ p.
Proof.
  induction l as [|a l IH]; [set_solver|]. destruct l as [|b l].
  - intros H. right. exists a. split; [left | done].
  - change (join [c] (a :: b :: l)) with (a ++ c :: join [c] (b :: l)).
    rewrite elem_of_app, elem_of_cons. intros [H|[->|H]]; [right; exists a; set_solver | by left |].
    apply IH in H as [->|(p & Hp & Hx)]; [by left|]. right. exists p. split; [by right | done].
Qed.

Lemma elem_of_join_part (c x : Z) (l : list str) (p : str) : p ∈ l -> x ∈ p -> x ∈ join [c] l.
Proof.
  induction l as [|a l IH]; [set_solver|]. intros Hp Hx. destruct l as [|b l]; [set_solver|].
  change (join [c] (a :: b :: l)) with (a ++ c :: join [c] (b :: l)).
  apply elem_of_cons in Hp as [->|Hp]; [set_solver|]. specialize (IH Hp Hx). set_solver.
Qed.

Lemma to_lower_idemp (b : Z) : to_lower (to_lower b) = to_lower b.
Proof.
  unfold to_lower. destruct ((0x41 <=? b) && (b <=? 0x5A)) eqn:E; [|by rewrite E]. bprop.
  replace (0x41 <=? b + 32) with true by (symmetry; lia).
  replace (b + 32 <=? 0x5A) with false by (symmetry; lia). done.
Qed.
Lemma to_upper_idemp (b : Z) : to_upper (to_upper b) = to_upper b.
Proof.
  unfold to_upper. destruct ((0x61 <=? b) && (b <=? 0x7A)) eqn:E; [|by rewrite E]. bprop.
  replace (0x61 <=? b - 32) with false by (symmetry; lia). done.
Qed.

(** ** Numbers *)

Section digits.
Context (radix : Z) (Hradix : 2 <= radix <= 16).

Definition value_of (acc : Z) (ds : str) : Z :=
  fold_left (fun acc b => acc * radix + unwrap_or (to_digit radix b) 0) ds acc.

Lemma to_digit_char (d : Z) : 0 <= d < radix -> to_digit radix (digit_char d) = Some d.
Proof using Hradix.
  intros Hd. unfold to_digit, digit_char, is_ascii_digit.
  destruct (Z.ltb_spec d 10).
  - rewrite (proj2 (andb_true_iff _ _)) by lia.
    replace (48 + d - 48) with d by lia. by rewrite (proj2 (Z.ltb_lt _ _)) by lia.
  - replace (0x30 <=? 0x57 + d) with true by (symmetry; lia).
    replace (0x57 + d <=? 0x39) with false by (symmetry; lia).
    replace (0x61 <=? 0x57 + d) with true by (symmetry; lia).
    replace (0x57 + d <=? 0x7A) with true by (symmetry; lia). simpl.
    replace (0x57 + d - 0x61 + 10) with d by lia. by rewrite (proj2 (Z.ltb_lt _ _)) by lia.
Qed.

Lemma digits_are_digits (f : nat) (n : Z) :
  0 <= n -> Forall (fun b => exists d, 0 <= d < radix /\ b = digit_char d) (digits f radix n).
Proof using Hradix.
  revert n. induction f as [|f IH]; intros n Hn; simpl; [constructor|].
  destruct (Z.ltb_spec n radix).
  - constructor; [exists n; lia | constructor].
  - apply Forall_app. split; [apply IH; apply Z.div_pos; lia|].
    constructor; [|constructor]. exists (n mod radix). pose proof (Z.mod_pos_bound n radix). lia.
Qed.

Lemma value_of_digits (f : nat) (n : Z) :
  0 <= n < radix ^ Z.of_nat f -> value_of 0 (digits f radix n) = n.
Proof using Hradix.
  unfold value_of. revert n. induction f as [|f IH]; intros n Hn; cbn [digits].
  - cbn [fold_left]. change (Z.of_nat 0) with 0 in Hn. rewrite Z.pow_0_r in Hn. lia.
  - destruct (Z.ltb_spec n radix).
    + cbn [fold_left]. rewrite to_digit_char by lia. cbn [unwrap_or]. lia.
    + rewrite fold_left_app, IH.
      * cbn [fold_left]. rewrite to_digit_char by (apply Z.mod_pos_bound; lia). cbn [unwrap_or].
        pose proof (Z.div_mod n radix). lia.
      * split; [apply Z.div_pos; lia|]. apply Z.div_lt_upper_bound; [lia|].
        rewrite Nat2Z.inj_succ, Z.pow_succ_r in Hn by lia. lia.
Qed.

Lemma length_digits (f k : nat) (n : Z) :
  0 <= n < radix ^ Z.of_nat k -> (0 < k)%nat -> (length (digits f radix n) <= k)%nat.
Proof using Hradix.
  revert n k. induction f as [|f IH]; intros n k Hn Hk; cbn [digits]; [simpl; lia|].
  destruct (Z.ltb_spec n radix); [simpl; lia|].
  destruct k as [|[|k]]; [lia | change (Z.of_nat 1) with 1 in Hn; rewrite Z.pow_1_r in Hn; lia |].
  rewrite length_app. cbn [length].
  assert (length (digits f radix (n / radix)) <= S k)%nat; [|lia].
  apply IH; [|lia]. split; [apply Z.div_pos; lia|]. apply Z.div_lt_upper_bound; [lia|].
  rewrite (Nat2Z.inj_succ (S k)), Z.pow_succ_r in Hn by lia. lia.
Qed.

Lemma digits_head (f : nat) (n : Z) :
  0 < n -> (0 < f)%nat -> exists c r, digits f radix n = c :: r /\ (c = 0x30 -> n < radix -> False)
    /\ (n < radix ^ Z.of_nat f -> c <> 0x30).
Proof using Hradix.
  revert n. induction f as [|f IH]; intros n Hn Hf; [lia|]. cbn [digits].
  destruct (Z.ltb_spec n radix).
  - exists (digit_char n), []. unfold digit_char. split; [done|].
    destruct (Z.ltb_spec n 10); split; intros; lia.
  - destruct f as [|f].
    + exists (digit_char (n mod radix)), []. split; [done|]. split; [lia|]. rewrite Z.pow_1_r. lia.
    + destruct (IH (n / radix)) as (c & r & -> & _ & Hc); [|lia|].
      { apply Z.div_str_pos. lia. }
      exists c, (r ++ [digit_char (n mod radix)]). split; [done|]. split; [lia|].
      intros Hlt. apply Hc. apply Z.div_lt_upper_bound; [lia|].
      rewrite (Nat2Z.inj_succ (S f)), Z.pow_succ_r in Hlt by lia. lia.
Qed.

Lemma read_digits_app (max count : nat) (acc : Z) (ds rest : str) :
  Forall (fun b => exists d, 0 <= d < radix /\ b = digit_char d) ds ->
  (count + length ds <= max)%nat ->
  read_digits radix max count acc (ds ++ rest)
  = read_digits radix max (count + length ds) (value_of acc ds) rest.
Proof using Hradix.
  intros Hds. revert count acc. induction Hds as [|b ds (d & Hd & ->) _ IH]; intros count acc Hc.
  - cbn. by rewrite Nat.add_0_r.
  - unfold value_of. cbn [app read_digits fold_left length] in *. rewrite to_digit_char by done.
    destruct (Nat.ltb_spec max (S count)); [lia|]. rewrite IH by lia. unfold value_of.
    cbn [unwrap_or]. f_equal. lia.
Qed.

(** A number reads back where no further digit follows it. *)
Lemma read_number_digits (max : nat) (zero : bool) (bound n : Z) (rest : str) :
  0 <= n <= bound -> n < radix ^ Z.of_nat max -> (0 < max <= 20)%nat ->
  match rest with [] => True | b :: _ => to_digit radix b = None end ->
  read_number radix max zero bound (digits 20 radix n ++ rest) = Some (n, rest).
Proof using Hradix.
  intros Hn Hlt Hmax Hrest. unfold read_number.
  assert (Hlen : (length (digits 20 radix n) <= max)%nat) by (apply length_digits; lia).
  assert (H20 : n < radix ^ Z.of_nat 20).
  { eapply Z.lt_le_trans; [exact Hlt|]. apply Z.pow_le_mono_r; lia. }
  rewrite read_digits_app by (try apply digits_are_digits; lia).
  rewrite value_of_digits by lia.
  replace (read_digits radix max (0 + length (digits 20 radix n)) n rest)
    with (Some (n, length (digits 20 radix n), rest)).
  2:{ destruct rest as [|b rest]; cbn [read_digits]; [done|]. by rewrite Hrest. }
  destruct (decide (n = 0)) as [->|Hnz].
  - change (digits 20 radix 0) with (if 0 <? radix then [digit_char 0]
      else digits 19 radix (0 / radix) ++ [digit_char (0 mod radix)]).
    rewrite (proj2 (Z.ltb_lt 0 radix)) by lia. cbn. rewrite !andb_false_r.
    by rewrite (proj2 (Z.leb_le 0 bound)) by lia.
  - destruct (digits_head 20 n) as (c & r & E & _ & Hc); [lia | lia |]. rewrite E.
    rewrite <- app_comm_cons. cbn [length Nat.eqb].
    rewrite (proj2 (Z.eqb_neq c 0x30)) by (apply Hc; lia). rewrite andb_false_r. cbn [andb].
    by rewrite (proj2 (Z.leb_le n bound)) by lia.
Qed.
End digits.

(** ** Addresses *)

Definition octet (n : Z) : Prop := 0 <= n <= 255.
Definition group (n : Z) : Prop := 0 <= n <= 65535.

Lemma read_octet_dec (first : bool) (n : Z) (rest : str) :
  octet n -> match rest with [] => True | b :: _ => b = 0x2E end ->
  read_octet first ((if first then [] else [0x2E]) ++ dec n ++ rest) = Some (n, rest).
Proof.
  unfold octet. intros Hn Hrest. unfold read_octet, read_separator, dec.
  assert (Hd : match rest with [] => True | b :: _ => to_digit 10 b = None end).
  { destruct rest; [done|]. by subst. }
  destruct first; cbn [app read_given_char Z.eqb Pos.eqb]; apply read_number_digits; try done; lia.
Qed.

Lemma read_ipv4_display (a b c d : Z) :
  octet a -> octet b -> octet c -> octet d ->
  read_ipv4_addr (display_ipv4 (a, b, c, d)) = Some ((a, b, c, d), []).
Proof.
  intros Ha Hb Hc Hd. unfold read_ipv4_addr, display_ipv4.
  pose proof (fun n rest => read_octet_dec true n rest) as Hfirst.
  pose proof (fun n rest => read_octet_dec false n rest) as Hnext.
  cbn [app] in Hfirst, Hnext |- *. rewrite Hfirst, !Hnext by done.
  rewrite <- (app_nil_r (dec d)). by rewrite Hnext.
Qed.

Lemma read_digits_suffix radix max count acc s n k r :
  read_digits radix max count acc s = Some (n, k, r) -> exists p, s = p ++ r.
Proof.
  revert count acc. induction s as [|b s IH]; intros count acc; cbn [read_digits].
  - intros [= _ _ <-]. by exists [].
  - destruct (to_digit radix b); [|intros [= _ _ <-]; by exists []].
    destruct (max <? S count)%nat; [done|]. intros H. apply IH in H as (p & ->). by exists (b :: p).
Qed.

(** A text without a dot does not begin with an IPv4 address. *)
Lemma read_ipv4_needs_dot (s : str) : 0x2E ∉ s -> read_ipv4_addr s = None.
Proof.
  intros Hs. unfold read_ipv4_addr. destruct (read_octet true s) as [[a r]|] eqn:E; [|done].
  assert (Hr : 0x2E ∉ r).
  { revert E. unfold read_octet, read_separator, read_number.
    destruct (read_digits 10 3 0 0 s) as [[[n k] r']|] eqn:Er; [|done].
    apply read_digits_suffix in Er as (p & ->).
    repeat (match goal with |- (if ?x then _ else _) = _ -> _ => destruct x end; try done).
    intros [= _ ->]. set_solver. }
  destruct r as [|b r]; [done|]. cbn [read_octet read_separator read_given_char].
  unfold read_octet, read_separator, read_given_char.
  destruct (Z.eqb_spec b 0x2E) as [->|]; [set_solver | done].
Qed.

Lemma digit_char_range (d : Z) : 0 <= d < 16 -> 0x30 <= digit_char d <= 0x39 \/ 0x61 <= digit_char d <= 0x66.
Proof. intros H. unfold digit_char. destruct (Z.ltb_spec d 10); lia. Qed.

Lemma elem_of_hex (n x : Z) : 0 <= n -> x ∈ hex n -> 0x30 <= x <= 0x39 \/ 0x61 <= x <= 0x66.
Proof.
  intros Hn Hx. pose proof (digits_are_digits 16 ltac:(lia) 20 n Hn) as H.
  rewrite list.Forall_forall in H. destruct (H x Hx) as (d & Hd & ->). by apply digit_char_range.
Qed.

Lemma hex_read (n : Z) (first : bool) (rest : str) :
  group n -> match rest with [] => True | b :: _ => b = 0x3A end ->
  read_separator 0x3A first (read_number 16 4 true 65535)
    ((if first then [] else [0x3A]) ++ hex n ++ rest) = Some (n, rest).
Proof.
  unfold group. intros Hn Hrest. unfold read_separator, hex.
  assert (Hd : match rest with [] => True | b :: _ => to_digit 16 b = None end).
  { destruct rest; [done|]. by subst. }
  destruct first; cbn [app read_given_char Z.eqb Pos.eqb]; apply read_number_digits; try done; lia.
Qed.

(** What ends a run of groups: the end of the text, or a double colon. *)
Definition ends_groups (rest : str) : Prop :=
  match rest with [] => True | [_] => False | b :: b' :: _ => b = 0x3A /\ b' = 0x3A end.

Definition colon_groups (first : bool) (gs : list Z) : str :=
  match gs with [] => [] | _ => (if first then [] else [0x3A]) ++ fmt_subslice gs end.

Lemma colon_groups_cons (first : bool) (g : Z) (gs : list Z) :
  colon_groups first (g :: gs) = (if first then [] else [0x3A]) ++ hex g ++ colon_groups false gs.
Proof.
  unfold colon_groups, fmt_subslice. destruct gs as [|g' gs]; cbn [map join].
  - by rewrite app_nil_r.
  - done.
Qed.

Lemma read_separator_ipv4_None (first : bool) (s : str) :
  0x2E ∉ s -> read_separator 0x3A first read_ipv4_addr s = None.
Proof.
  intros Hs. unfold read_separator. destruct first; [by apply read_ipv4_needs_dot|].
  unfold read_given_char. destruct s as [|b s]; [done|]. destruct (b =? 0x3A); [|done].
  apply read_ipv4_needs_dot. set_solver.
Qed.

Lemma read_groups_join (n : nat) (first : bool) (gs : list Z) (rest : str) :
  Forall group gs -> (length gs <= n)%nat -> 0x2E ∉ colon_groups first gs ++ rest -> ends_groups rest ->
  read_groups n first (colon_groups first gs ++ rest) = (gs, false, rest).
Proof.
  intros Hgs. revert n first. induction Hgs as [|g gs Hg Hgs IH]; intros n first Hn Hdot Hrest.
  - cbn [colon_groups app] in *. destruct n as [|n]; cbn [read_groups]; [done|].
    rewrite (read_separator_ipv4_None first rest Hdot).
    replace (read_separator 0x3A first (read_number 16 4 true 65535) rest) with (@None (Z * str)).
    { by destruct (n =? 0)%nat. }
    unfold read_separator. destruct rest as [|b [|b' rest]]; [by destruct first | done |].
    destruct Hrest as (-> & ->). by destruct first.
  - rewrite colon_groups_cons in *. rewrite <- !app_assoc in *.
    destruct n as [|n]; cbn [length] in Hn; [lia|]. cbn [read_groups].
    rewrite (read_separator_ipv4_None first _ Hdot).
    rewrite (hex_read g first _ Hg).
    2:{ destruct gs; cbn [colon_groups app]; [|done]. destruct rest as [|? [|? ?]]; [done | done |]. apply Hrest. }
    rewrite IH; [by destruct (n =? 0)%nat | lia | set_solver | done].
Qed.

(** The span [Display] drops is a run of zero groups. *)
Definition zero_run (w : list Z) (span : nat * nat) : Prop :=
  (span.1 + span.2 <= length w)%nat /\ take span.2 (drop span.1 w) = replicate span.2 0.

Lemma zero_run_extend (pre a : list Z) (s n : nat) :
  zero_run (pre ++ 0 :: a) (s, n) -> (n = 0%nat \/ (s + n)%nat = length pre) ->
  zero_run (pre ++ 0 :: a) (if (n =? 0)%nat then length pre else s, S n).
Proof.
  unfold zero_run. cbn [fst snd]. rewrite length_app. cbn [length]. intros (Hlen & Hrun) Hat.
  destruct (Nat.eqb_spec n 0) as [->|Hn].
  - split; [lia|]. by rewrite drop_app_length.
  - destruct Hat as [?|Hat]; [done|]. split; [lia|].
    rewrite (take_S_r _ _ 0), Hrun by (rewrite lookup_drop, Hat; by apply list_lookup_middle).
    by rewrite replicate_S_end.
Qed.

Lemma zero_span_run (pre a : list Z) (longest current : nat * nat) :
  zero_run (pre ++ a) longest -> zero_run (pre ++ a) current ->
  (current.2 = 0%nat \/ (current.1 + current.2)%nat = length pre) ->
  zero_run (pre ++ a) (zero_span (length pre) longest current a).
Proof.
  revert pre longest current. induction a as [|x a IH]; intros pre longest [s n] Hl Hc Hat; [done|].
  cbn [zero_span fst snd] in *. replace (S (length pre)) with (length (pre ++ [x]))
    by (rewrite length_app; cbn; lia).
  rewrite (cons_middle x pre a), app_assoc in *.
  destruct (Z.eqb_spec x 0) as [->|Hx].
  - assert (Hnew : zero_run ((pre ++ [0]) ++ a) (if (n =? 0)%nat then length pre else s, S n)).
    { rewrite <- app_assoc in *. by apply zero_run_extend. }
    apply IH; [by destruct (_ <? _)%nat | done |]. right. cbn [fst snd]. rewrite length_app. cbn [length].
    destruct (Nat.eqb_spec n 0) as [->|]; [lia|]. destruct Hat; lia.
  - apply IH; [done | | by left]. split; [cbn; lia | done].
Qed.

Lemma zero_run_split (w : list Z) (s n : nat) :
  zero_run w (s, n) -> w = take s w ++ replicate n 0 ++ drop (s + n) w.
Proof.
  unfold zero_run. cbn [fst snd]. intros (_ & Hrun). rewrite <- Hrun, <- drop_drop.
  by rewrite !take_drop.
Qed.

Lemma elem_of_fmt (x : Z) (gs : list Z) :
  Forall group gs -> x ∈ fmt_subslice gs -> x = 0x3A \/ 0x30 <= x <= 0x39 \/ 0x61 <= x <= 0x66.
Proof.
  intros Hgs Hx. apply elem_of_join in Hx as [->|(p & Hp & Hx)]; [by left|]. right.
  apply list_elem_of_In, in_map_iff in Hp as (g & <- & Hg). apply list_elem_of_In in Hg.
  rewrite list.Forall_forall in Hgs. specialize (Hgs g Hg). unfold group in Hgs.
  apply elem_of_hex in Hx; lia.
Qed.

Lemma fmt_no_dot (gs : list Z) : Forall group gs -> 0x2E ∉ fmt_subslice gs.
Proof. intros H Hx. apply elem_of_fmt in Hx; [lia | done]. Qed.

Lemma read_groups_fmt (n : nat) (gs : list Z) (rest : str) :
  Forall group gs -> (length gs <= n)%nat -> 0x2E ∉ rest -> ends_groups rest ->
  read_groups n true (fmt_subslice gs ++ rest) = (gs, false, rest).
Proof.
  intros Hgs Hn Hdot Hrest. pose proof (fmt_no_dot gs Hgs) as Hfmt.
  replace (fmt_subslice gs) with (colon_groups true gs) in * by (by destruct gs).
  apply read_groups_join; try done. set_solver.
Qed.

Lemma parse_ipv6_mapped_display (a b c d : Z) :
  octet a -> octet b -> octet c -> octet d ->
  parse_ipv6 (sbytes "::ffff:" ++ display_ipv4 (a, b, c, d))
  = Some [0; 0; 0; 0; 0; 0xFFFF; a * 256 + b; c * 256 + d].
Proof.
  intros Ha Hb Hc Hd. unfold parse_ipv6, parse_with, read_ipv6_addr.
  set (q := display_ipv4 (a, b, c, d)).
  assert (Hq : read_ipv4_addr q = Some ((a, b, c, d), [])) by (by apply read_ipv4_display).
  replace (read_groups 8 true (sbytes "::ffff:" ++ q)) with (@nil Z, false, sbytes "::ffff:" ++ q)
    by reflexivity.
  change (sbytes "::ffff:" ++ q) with (0x3A :: 0x3A :: (sbytes "ffff:" ++ q)).
  cbn [length Nat.eqb read_given_char Z.eqb Pos.eqb Nat.sub Nat.add].
  replace (read_groups 7 true (sbytes "ffff:" ++ q)) with ([0xFFFF; a * 256 + b; c * 256 + d], true, @nil Z).
  - reflexivity.
  - change (sbytes "ffff:" ++ q) with (0x66 :: 0x66 :: 0x66 :: 0x66 :: 0x3A :: q).
    cbn [read_groups Nat.eqb].
    replace (read_separator 0x3A true read_ipv4_addr (0x66 :: 0x66 :: 0x66 :: 0x66 :: 0x3A :: q))
      with (@None (quad * str)) by reflexivity.
    replace (read_separator 0x3A true (read_number 16 4 true 65535) (0x66 :: 0x66 :: 0x66 :: 0x66 :: 0x3A :: q))
      with (Some (0xFFFF, 0x3A :: q)) by reflexivity.
    unfold read_separator at 1. cbn [read_given_char Z.eqb Pos.eqb]. by rewrite Hq.
Qed.

(** Every address parses back from its text. *)
Lemma parse_ipv6_display (a : list Z) :
  length a = 8%nat -> Forall group a -> parse_ipv6 (display_ipv6 a) = Some a.
Proof.
  intros Hlen Ha. unfold display_ipv6. destruct (to_ipv4_mapped a) as [q|] eqn:Em.
  - unfold to_ipv4_mapped in Em.
    destruct a as [|s0 [|s1 [|s2 [|s3 [|s4 [|s5 [|s6 [|s7 [|]]]]]]]]]; try done.
    destruct (_ && _) eqn:E in Em; [|done]. injection Em as <-. cbn [forallb] in E. bprop. subst.
    do 6 (apply list.Forall_cons in Ha as [_ Ha]).
    apply list.Forall_cons in Ha as [Hg6 Ha]. apply list.Forall_cons in Ha as [Hg7 _].
    unfold group in *. rewrite parse_ipv6_mapped_display by (unfold octet; Z.to_euclidean_division_equations; lia).
    repeat f_equal; Z.to_euclidean_division_equations; lia.
  - pose proof (zero_span_run [] a (O, O) (O, O)) as Hspan. cbn [app length] in Hspan.
    specialize (Hspan (conj (Nat.le_0_l _) eq_refl) (conj (Nat.le_0_l _) eq_refl) (or_introl eq_refl)).
    destruct (zero_span 0 (O, O) (O, O) a) as [s n]. destruct (Nat.ltb_spec 1 n) as [Hn|Hn].
    + unfold parse_ipv6, parse_with, read_ipv6_addr. pose proof (zero_run_split a s n Hspan) as Ew.
      destruct Hspan as (Hle & _). cbn [fst snd] in Hle.
      assert (Ht : Forall group (take s a)) by (by apply Forall_take).
      assert (Hd : Forall group (drop (s + n) a)) by (by apply Forall_drop).
      assert (Hlt : length (take s a) = s) by (rewrite length_take; lia).
      assert (Hld : length (drop (s + n) a) = (8 - (s + n))%nat) by (rewrite length_drop; lia).
      change (sbytes "::") with [0x3A; 0x3A]. pose proof (fmt_no_dot _ Hd).
      rewrite read_groups_fmt; [| done | lia | set_solver | done].
      rewrite Hlt. destruct (Nat.eqb_spec s 8); [lia|].
      cbn [app read_given_char Z.eqb Pos.eqb].
      rewrite <- (app_nil_r (fmt_subslice (drop (s + n) a))).
      rewrite read_groups_fmt; [| done | lia | set_solver | done].
      rewrite Hld. replace (8 - s - (8 - (s + n)))%nat with n by lia. by rewrite <- Ew.
    + unfold parse_ipv6, parse_with, read_ipv6_addr. rewrite <- (app_nil_r (fmt_subslice a)).
      rewrite read_groups_fmt; [| done | lia | set_solver | done]. by rewrite Hlen.
Qed.

Lemma to_digit_nonneg (radix b d : Z) : 0 <= radix -> to_digit radix b = Some d -> 0 <= d.
Proof.
  intros Hr. unfold to_digit, is_ascii_digit. destruct (_ <? radix); [|done]. intros [= <-].
  repeat match goal with |- context [if ?x then _ else _] => destruct x eqn:? end; bprop; lia.
Qed.

Lemma read_digits_nonneg radix max count acc s n k r :
  0 <= radix -> 0 <= acc -> read_digits radix max count acc s = Some (n, k, r) -> 0 <= n.
Proof.
  intros Hr. revert count acc. induction s as [|b s IH]; intros count acc Hacc; cbn [read_digits].
  - by intros [= <- _ _].
  - destruct (to_digit radix b) as [d|] eqn:Ed; [|by intros [= <- _ _]].
    apply to_digit_nonneg in Ed; [|done]. destruct (max <? S count)%nat; [done|]. apply IH. nia.
Qed.

Lemma read_number_range radix max zero bound s n r :
  0 <= radix -> read_number radix max zero bound s = Some (n, r) -> 0 <= n <= bound.
Proof.
  intros Hr. unfold read_number. destruct (read_digits radix max 0 0 s) as [[[m k] r']|] eqn:E; [|done].
  apply read_digits_nonneg in E; [|done|lia].
  repeat (match goal with |- (if ?x then _ else _) = _ -> _ => destruct x eqn:? end; try done).
  intros [= <- _]. bprop. lia.
Qed.

Lemma read_separator_inv {A} (sep : Z) (first : bool) (inner : parser A) s a r :
  read_separator sep first inner s = Some (a, r) -> exists s', inner s' = Some (a, r).
Proof.
  unfold read_separator. destruct first; [by exists s|].
  destruct (read_given_char sep s) as [[[] s']|]; [by exists s' | done].
Qed.

Lemma read_ipv4_range s a b c d r :
  read_ipv4_addr s = Some ((a, b, c, d), r) -> octet a /\ octet b /\ octet c /\ octet d.
Proof.
  unfold read_ipv4_addr.
  assert (Ho : forall f s n r, read_octet f s = Some (n, r) -> octet n).
  { intros f s' n r' H. apply read_separator_inv in H as (s'' & H). apply read_number_range in H; [done | lia]. }
  destruct (read_octet true s) as [[? s1]|] eqn:E1; [|done].
  destruct (read_octet false s1) as [[? s2]|] eqn:E2; [|done].
  destruct (read_octet false s2) as [[? s3]|] eqn:E3; [|done].
  destruct (read_octet false s3) as [[? s4]|] eqn:E4; [|done].
  intros [= <- <- <- <- _]. eauto 10.
Qed.

Lemma read_groups_range n first s gs v4 r :
  read_groups n first s = (gs, v4, r) -> (length gs <= n)%nat /\ Forall group gs.
Proof.
  revert first s gs v4 r. induction n as [|n IH]; intros first s gs v4 r; cbn [read_groups].
  - intros [= <- _ _]. by split.
  - destruct (if (n =? 0)%nat then None else _) as [[[[[a b] c] d] r4]|] eqn:E4.
    + intros [= <- _ _]. destruct (Nat.eqb_spec n 0); [done|].
      apply read_separator_inv in E4 as (s' & E4). apply read_ipv4_range in E4 as (Ha & Hb & Hc & Hd).
      unfold octet, group in *. split; [cbn; lia|]. repeat constructor; lia.
    + clear E4. destruct (read_separator 0x3A first _ s) as [[g rg]|] eqn:E.
      * destruct (read_groups n false rg) as [[gs' v4'] r'] eqn:Er. intros [= <- _ _].
        apply IH in Er as (Hlen & Hall). apply read_separator_inv in E as (s' & E).
        apply read_number_range in E; [|lia]. split; [cbn; lia|]. by constructor.
      * intros [= <- _ _]. split; [cbn; lia | done].
Qed.

Lemma parse_ipv6_range s a : parse_ipv6 s = Some a -> length a = 8%nat /\ Forall group a.
Proof.
  unfold parse_ipv6, parse_with, read_ipv6_addr.
  destruct (read_groups 8 true s) as [[head v4] s1] eqn:E1. apply read_groups_range in E1 as (Hl1 & Hg1).
  destruct (Nat.eqb_spec (length head) 8).
  - destruct s1; [|done]. intros [= <-]. by split.
  - destruct v4; [done|].
    destruct (read_given_char 0x3A s1) as [[[] s2]|]; [|done].
    destruct (read_given_char 0x3A s2) as [[[] s3]|]; [|done].
    destruct (read_groups _ true s3) as [[tail ?] s4] eqn:E2. apply read_groups_range in E2 as (Hl2 & Hg2).
    destruct s4; [|done]. intros [= <-]. rewrite !length_app, length_replicate. split; [lia|].
    apply Forall_app. split; [done|]. apply Forall_app. split; [|done].
    apply Forall_replicate. unfold group. lia.
Qed.

Lemma display_ipv6_bytes (a : list Z) (x : Z) :
  length a = 8%nat -> Forall group a -> x ∈ display_ipv6 a ->
  x = 0x2E \/ x = 0x3A \/ 0x30 <= x <= 0x39 \/ 0x61 <= x <= 0x66.
Proof.
  intros Hlen Ha. unfold display_ipv6. destruct (to_ipv4_mapped a) as [[[[q0 q1] q2] q3]|] eqn:Em.
  - assert (Hq : 0 <= q0 /\ 0 <= q1 /\ 0 <= q2 /\ 0 <= q3).
    { unfold to_ipv4_mapped in Em.
      destruct a as [|s0 [|s1 [|s2 [|s3 [|s4 [|s5 [|s6 [|s7 [|]]]]]]]]]; try done.
      destruct (_ && _) in Em; [|done]. injection Em as <- <- <- <-.
      do 6 (apply list.Forall_cons in Ha as [_ Ha]).
      apply list.Forall_cons in Ha as [Hg6 Ha]. apply list.Forall_cons in Ha as [Hg7 _]. unfold group in *.
      Z.to_euclidean_division_equations; lia. }
    assert (Hdec : forall n, 0 <= n -> x ∈ dec n -> 0x30 <= x <= 0x39).
    { intros n Hn Hx. pose proof (digits_are_digits 10 ltac:(lia) 20 n Hn) as H.
      rewrite list.Forall_forall in H. destruct (H x Hx) as (d & Hd & ->).
      unfold digit_char. destruct (Z.ltb_spec d 10); lia. }
    destruct Hq as (H0 & H1 & H2 & H3).
    unfold display_ipv4. rewrite elem_of_app. change (sbytes "::ffff:") with [0x3A; 0x3A; 0x66; 0x66; 0x66; 0x66; 0x3A].
    rewrite !elem_of_app, !list_elem_of_singleton. intros [Hx|Hx]; [set_unfold; lia|].
    destruct Hx as [Hx|[Hx|[Hx|[Hx|[Hx|[Hx|Hx]]]]]];
      try (apply Hdec in Hx; [lia | done]); lia.
  - destruct (zero_span 0 (O, O) (O, O) a) as [s n]. destruct (1 <? n)%nat.
    + rewrite !elem_of_app. change (sbytes "::") with [0x3A; 0x3A]. intros [Hx|[Hx|Hx]].
      * apply elem_of_fmt in Hx; [lia | by apply Forall_take].
      * set_unfold; lia.
      * apply elem_of_fmt in Hx; [lia | by apply Forall_drop].
    + intros Hx. apply elem_of_fmt in Hx; [lia | done].
Qed.

Lemma display_ipv6_colon (a : list Z) : length a = 8%nat -> 0x3A ∈ display_ipv6 a.
Proof.
  intros Hlen. unfold display_ipv6. destruct (to_ipv4_mapped a) as [q|].
  - apply elem_of_app. left. left.
  - destruct (zero_span 0 (O, O) (O, O) a) as [s n]. destruct (1 <? n)%nat.
    + apply elem_of_app. right. left.
    + unfold fmt_subslice. destruct a as [|x [|y a]]; [done | done |]. cbn [map join].
      apply elem_of_app. right. left.
Qed.
