(* ===== verification/RemoteAdmission.v ===== *)
(** * Admission of a destination

    The connection crate's remote/admission.rs: the canonical form of a
    destination, the allowances it is matched against, the service-class rule and
    the texts of a refusal.  A [str] is its bytes ([Text]); every function of the
    file is here, pure as it is there. *)
From S2P Require Import Prelude Utf8 Text Protocol Policy.

Definition KNOWN_HOSTS : list str :=
  [sbytes "github.com"; sbytes "gitlab.com"; sbytes "bitbucket.org"].
Definition MAX_PATH_BYTES : Z := 16 * 1024.

Module ServiceClass.
Inductive t := Fetch | Push | Plan | NoTransport.
#[global] Instance eq_dec : EqDecision t.
Proof. solve_decision. Defined.
End ServiceClass.

Module CanonError.
Inductive t := Scheme | Host | NonAsciiHost | Port | Path | Home | Syntax.
#[global] Instance eq_dec : EqDecision t.
Proof. solve_decision. Defined.
(** [{:?}]. *)
Definition debug (e : t) : str :=
  match e with
  | Scheme => sbytes "Scheme" | Host => sbytes "Host" | NonAsciiHost => sbytes "NonAsciiHost"
  | Port => sbytes "Port" | Path => sbytes "Path" | Home => sbytes "Home" | Syntax => sbytes "Syntax"
  end.
End CanonError.

Module Base.
Inductive t := Absolute | Home.
#[global] Instance eq_dec : EqDecision t.
Proof. solve_decision. Defined.
End Base.

Module Refusal.
Inductive t := Plan | NoTransport | ClassForbids | NotAllowed | PushNotAllowed.
#[global] Instance eq_dec : EqDecision t.
Proof. solve_decision. Defined.
End Refusal.

(** ** Normal forms of the parts *)

(** [is_char_boundary] and [str::get] of a range that starts on a boundary. *)
Definition boundary (s : str) : bool :=
  match s with [] => true | b :: _ => negb (cont b) end.
Definition get2 (s : str) : option (Z * Z * str) :=
  match s with
  | a :: b :: r => if boundary r then Some (a, b, r) else None
  | _ => None
  end.

(** [u8::from_str_radix(_, 16)] of two characters: a leading plus sign is accepted. *)
Definition from_str_radix16 (a b : Z) : option Z :=
  match to_digit 16 a, to_digit 16 b with
  | Some x, Some y => Some (x * 16 + y)
  | None, Some y => if a =? 0x2B then Some y else None
  | _, None => None
  end.

(** The loop of [percent_normalized]; each turn uses at least one byte, so the
    length is enough fuel. *)
Fixpoint percent_loop (fuel : nat) (s : str) : result str CanonError.t :=
  match fuel, s with
  | _, [] => Ok []
  | O, _ => Ok []
  | S f, byte :: r =>
      if byte =? 0x25 then
        match get2 r with
        | None => Err CanonError.Path
        | Some (a, b, r') =>
            try value := ok_or (from_str_radix16 a b) CanonError.Path in
            if negb (is_ascii_hexdigit a && is_ascii_hexdigit b)
               || contains value [0x00; 0x2E; 0x2F; 0x5C]
            then Err CanonError.Path
            else
              try out := percent_loop f r' in
              Ok (0x25 :: to_upper a :: to_upper b :: out)
        end
      else if (byte =? 0x5C) || (byte <? 0x20) || (byte =? 0x7F) then Err CanonError.Path
      else
        match next_char s with
        | Some (inl (_, r')) =>
            try out := percent_loop f r' in
            Ok (take (length s - length r') s ++ out)
        | _ => Err CanonError.Path
        end
  end.
Definition percent_normalized (raw : str) : result str CanonError.t := percent_loop (length raw) raw.

Definition v6 (text : str) : result str CanonError.t :=
  if contains 0x25 text then Err CanonError.Host
  else
    try address := ok_or (parse_ipv6 text) CanonError.Host in
    Ok (display_ipv6 address).

Definition ldh (b : Z) : bool := is_ascii_lowercase b || is_ascii_digit b || (b =? 0x2D).
Definition valid_label (bytes : str) : bool :=
  negb (is_nil bytes) && (len bytes <=? 63)
  && negb (bool_decide (head bytes = Some 0x2D)) && negb (bool_decide (list.last bytes = Some 0x2D))
  && forallb ldh bytes.

Definition canonical_host (host : str) : result str CanonError.t :=
  match and_then (strip_prefix (sbytes "[") host) (strip_suffix (sbytes "]")) with
  | Some inner => v6 inner
  | None =>
  if contains 0x3A host then v6 host
  else
    let host := unwrap_or (strip_suffix (sbytes ".") host) host in
    if negb (forallb is_ascii host) then Err CanonError.NonAsciiHost
    else if is_nil host || (253 <? len host) then Err CanonError.Host
    else
      let lower := map to_lower host in
      let labels := split 0x2E lower in
      if negb (forallb valid_label labels) then Err CanonError.Host
      else
        let last_numeric := is_some_and (list.last labels) (forallb is_ascii_digit) in
        if last_numeric then
          try q := ok_or (parse_ipv4 lower) CanonError.Host in
          if bool_decide (display_ipv4 q = lower) then Ok lower else Err CanonError.Host
        else Ok lower
  end.

(** The first of two optional values, [Option::or_else]. *)
Definition or_else {A} (a b : option A) : option A := match a with Some _ => a | None => b end.

Definition path_base (scheme : Scheme.t) (host raw : str) : result (Base.t * str) CanonError.t :=
  match scheme with
  | Scheme.Https =>
      match strip_prefix (sbytes "/") raw with
      | Some rest => Ok (Base.Absolute, rest)
      | None => Err CanonError.Path
      end
  | Scheme.Ssh =>
      match or_else (strip_prefix (sbytes "~/") raw) (strip_prefix (sbytes "/~/") raw) with
      | Some rest => Ok (Base.Home, rest)
      | None =>
          if starts_with (sbytes "~") raw || starts_with (sbytes "/~") raw then Err CanonError.Home
          else
            match strip_prefix (sbytes "/") raw with
            | Some rest => Ok (Base.Absolute, rest)
            | None => if contains host KNOWN_HOSTS then Ok (Base.Absolute, raw) else Ok (Base.Home, raw)
            end
      end
  end.

Definition bad_segment (segment : str) : bool :=
  bool_decide (segment = []) || bool_decide (segment = sbytes ".") || bool_decide (segment = sbytes "..").

(** The last segment without its [.git]. *)
Fixpoint strip_git (segments : list str) : result (list str) CanonError.t :=
  match segments with
  | [] => Ok []
  | [last] =>
      match strip_suffix (sbytes ".git") last with
      | Some stem => if is_nil stem then Err CanonError.Path else Ok [stem]
      | None => Ok [last]
      end
  | s :: r => try r' := strip_git r in Ok (s :: r')
  end.

Definition canonical_path (raw : str) (scheme : Scheme.t) (host : str) (allowance : bool)
  : result (option Base.t * list str) CanonError.t :=
  if MAX_PATH_BYTES <? len raw then Err CanonError.Path
  else
    try raw := percent_normalized raw in
    try (base, rest) := path_base scheme host raw in
    let rest := unwrap_or (strip_suffix (sbytes "/") rest) rest in
    if is_nil rest then
      let host_only := allowance && contains raw [sbytes "/"; sbytes "~/"; sbytes "/~/"] in
      if host_only then Ok (if bool_decide (raw = sbytes "/") then None else Some base, [])
      else Err CanonError.Path
    else
      let segments := split 0x2F rest in
      if existsb bad_segment segments then Err CanonError.Path
      else try segments := strip_git segments in Ok (Some base, segments).

(** ** Tuples *)

Definition bracketed (host : str) : str :=
  if contains 0x3A host then sbytes "[" ++ host ++ sbytes "]" else host.

Module Canonical.
Record t := mk {
  scheme : Scheme.t;
  host : str;
  port : Z;
  base : Base.t;
  segments : list str;
}.
#[global] Instance eq_dec : EqDecision t.
Proof. solve_decision. Defined.

(** [u16::try_from(port)] without zero. *)
Definition u16_port (port : Z) : option Z :=
  if (0 <=? port) && (port <=? 65535) && negb (port =? 0) then Some port else None.

Definition from_destination (destination : Destination.t) : result t CanonError.t :=
  try port := ok_or (u16_port destination.(Destination.port)) CanonError.Port in
  try host := canonical_host (sbytes destination.(Destination.host)) in
  try path := canonical_path (sbytes destination.(Destination.path))
                destination.(Destination.scheme) host false in
  match path with
  | (Some base, segments) =>
      if is_nil segments then Err CanonError.Path
      else Ok (mk destination.(Destination.scheme) host port base segments)
  | (None, _) => Err CanonError.Path
  end.

Definition display (self : t) : str :=
  let scheme := match self.(scheme) with Scheme.Ssh => sbytes "ssh" | Scheme.Https => sbytes "https" end in
  let home := if bool_decide (self.(base) = Base.Home) then sbytes "~/" else [] in
  scheme ++ sbytes "://" ++ bracketed self.(host) ++ sbytes ":" ++ dec self.(port)
  ++ sbytes "/" ++ home ++ join (sbytes "/") self.(segments).
End Canonical.

(** ** Allowances *)

Definition scp_split (text : str) : result (str * str) CanonError.t :=
  try search_from :=
    match find_byte 0x5D text with
    | Some close =>
        if negb (starts_with (sbytes "[") text) && negb (contains_str (sbytes "@[") text)
        then Err CanonError.Syntax else Ok close
    | None => Ok O
    end in
  try colon := ok_or ((fun at_ => at_ + search_from)%nat <$> find_byte 0x3A (drop search_from text))
                 CanonError.Syntax in
  if contains 0x2F (take colon text) then Err CanonError.Syntax
  else Ok (take colon text, drop (S colon) text).

(** [parse::<u16>] of at most five digits. *)
Definition parse_port (text : str) : result Z CanonError.t :=
  if is_nil text || negb (forallb is_ascii_digit text) || (5 <? len text) then Err CanonError.Port
  else
    let port := fold_left (fun acc b => acc * 10 + (b - 0x30)) text 0 in
    if (port <=? 65535) && negb (port =? 0) then Ok port else Err CanonError.Port.

Definition split_authority (authority : str) (scheme : Scheme.t)
  : result (option str * str * Z) CanonError.t :=
  let default := match scheme with Scheme.Ssh => 22 | Scheme.Https => 443 end in
  try (user, hostport) :=
    match rsplit_once 0x40 authority with
    | Some (user, rest) =>
        if is_nil user || existsb (fun c => contains c user) [0x2F; 0x5C; 0x40]
           || existsb is_control (str_chars user)
        then Err CanonError.Syntax else Ok (Some user, rest)
    | None => Ok (None, authority)
    end in
  try (host, port) :=
    match strip_prefix (sbytes "[") hostport with
    | Some rest =>
        try close := ok_or (find_byte 0x5D rest) CanonError.Host in
        let host := sbytes "[" ++ take close rest ++ sbytes "]" in
        match drop (S close) rest with
        | [] => Ok (host, default)
        | tail =>
            try digits := ok_or (strip_prefix (sbytes ":") tail) CanonError.Host in
            try port := parse_port digits in
            Ok (host, port)
        end
    | None =>
        match rsplit_once 0x3A hostport with
        | Some (host, port) =>
            if negb (contains 0x3A host) then try port := parse_port port in Ok (host, port)
            else Err CanonError.Host
        | None => Ok (hostport, default)
        end
    end in
  Ok (user, host, port).

Module Allowance.
Record t := mk {
  scheme : Scheme.t;
  user : option str;
  host : str;
  port : Z;
  base : option Base.t;
  segments : list str;
  prefix : bool;
}.
#[global] Instance eq_dec : EqDecision t.
Proof. solve_decision. Defined.

Definition parse_scheme (scheme : str) : result Scheme.t CanonError.t :=
  let scheme := map to_lower scheme in
  if contains scheme [sbytes "ssh"; sbytes "git+ssh"; sbytes "ssh+git"] then Ok Scheme.Ssh
  else if bool_decide (scheme = sbytes "https") then Ok Scheme.Https
  else Err CanonError.Scheme.

Definition parse (text : str) : result t CanonError.t :=
  if is_nil text || (MAX_PATH_BYTES <? len text) || contains 0x3F text || contains 0x23 text
  then Err CanonError.Syntax
  else
    try (scheme, authority, path) :=
      match split_once (sbytes "://") text with
      | Some (scheme, rest) =>
          try scheme := parse_scheme scheme in
          try slash := ok_or (find_byte 0x2F rest) CanonError.Syntax in
          Ok (scheme, take slash rest, drop slash rest)
      | None =>
          try (authority, path) := scp_split text in
          Ok (Scheme.Ssh, authority, path)
      end in
    try (user, host, port) := split_authority authority scheme in
    try host := canonical_host host in
    let prefix := ends_with (sbytes "/") path in
    try (base, segments) := canonical_path path scheme host true in
    if is_some base && is_nil segments && negb prefix then Err CanonError.Path
    else Ok (mk scheme user host port base segments prefix).

Definition matches (self : t) (tuple : Canonical.t) : bool :=
  if negb (bool_decide (self.(scheme) = tuple.(Canonical.scheme)))
     || negb (bool_decide (self.(host) = tuple.(Canonical.host)))
     || negb (self.(port) =? tuple.(Canonical.port))
  then false
  else
    match self.(base) with
    | None => true
    | Some base =>
        if negb (bool_decide (base = tuple.(Canonical.base))) then false
        else if self.(prefix)
        then (length self.(segments) <? length tuple.(Canonical.segments))%nat
             && bool_decide (take (length self.(segments)) tuple.(Canonical.segments) = self.(segments))
        else bool_decide (tuple.(Canonical.segments) = self.(segments))
    end.
End Allowance.

Module AllowedSet.
Definition t : Type := list Allowance.t.
(** [collect] of results: the first error wins. *)
Fixpoint parse (texts : list str) : result t CanonError.t :=
  match texts with
  | [] => Ok []
  | text :: r => try a := Allowance.parse text in try rest := parse r in Ok (a :: rest)
  end.
Definition admitting (self : t) (tuple : Canonical.t) : option Allowance.t :=
  List.find (fun entry => Allowance.matches entry tuple) self.
End AllowedSet.

Definition is_receive_pack (service : GitService.t) : bool :=
  match service with
  | GitService.ReceivePackAdvertisement | GitService.ReceivePackExchange => true
  | _ => false
  end.

Definition admit_service (class : ServiceClass.t) (service : GitService.t) (tuple : Canonical.t)
    (fetch push : AllowedSet.t) : result Allowance.t Refusal.t :=
  let receive_pack := is_receive_pack service in
  match class with
  | ServiceClass.Plan => Err Refusal.Plan
  | ServiceClass.NoTransport => Err Refusal.NoTransport
  | ServiceClass.Fetch =>
      if receive_pack then Err Refusal.ClassForbids
      else ok_or (AllowedSet.admitting fetch tuple) Refusal.NotAllowed
  | ServiceClass.Push =>
      if receive_pack then ok_or (AllowedSet.admitting push tuple) Refusal.PushNotAllowed
      else ok_or (AllowedSet.admitting fetch tuple) Refusal.NotAllowed
  end.

(** ** Texts *)

Definition asked (service : GitService.t) : str * str :=
  if is_receive_pack service then (sbytes "push to", sbytes "receive-pack")
  else (sbytes "fetch from", sbytes "upload-pack").

(** The escape [\u{..}] of one character. *)
Definition escape (c : Z) : str := [0x5C; 0x75; 0x7B] ++ hex c ++ [0x7D].
Definition printable (text : str) : str :=
  flat_map (fun c => if is_ascii_graphic c then [c] else escape c) (take 253 (str_chars text)).

Definition tuple_refusal_text (destination : Destination.t) (service : GitService.t)
    (error : CanonError.t) : str :=
  let '(verb, word) := asked service in
  match error with
  | CanonError.NonAsciiHost =>
      sbytes "the core asked to " ++ verb ++ sbytes " host " ++ [0x22]
      ++ printable (sbytes destination.(Destination.host)) ++ [0x22] ++ sbytes " (" ++ word
      ++ sbytes ", port " ++ dec_i64 destination.(Destination.port)
      ++ sbytes "), which this command cannot admit: the host is not ASCII, and this release maps no IDNA (UTS-46) host names"
  | error =>
      sbytes "the core asked to " ++ verb ++ sbytes " a destination that is not in canonical form ("
      ++ CanonError.debug error ++ sbytes "), which this command cannot admit"
  end.

Definition class_refusal_text (tuple : Canonical.t) (service : GitService.t) : str :=
  let '(verb, word) := asked service in
  sbytes "the core asked to " ++ verb ++ sbytes " " ++ Canonical.display tuple ++ sbytes " (" ++ word
  ++ sbytes ", port " ++ dec tuple.(Canonical.port) ++ sbytes "), which this command does not allow".
