(* ===== verification/RemoteAdmissionFacts.v ===== *)
(** * Facts about the admission of a destination

    The canonical host is a normal form, a canonical path is normal and has no
    traversal before its last segment, what a prefix allowance admits stays under
    it, and the text printed for a tuple parses as the allowance of exactly that
    tuple. *)
From S2P Require Import Prelude Utf8 Text TextFacts Protocol Policy RemoteAdmission.

(** ** Hosts *)

(** The bytes of a canonical host. *)
Definition host_byte (b : Z) : Prop := ldh b = true \/ b = 0x2E \/ b = 0x3A.

Lemma v6_inv (text h : str) :
  v6 text = Ok h -> exists a, length a = 8%nat /\ Forall group a /\ h = display_ipv6 a.
Proof.
  unfold v6. destruct (contains 0x25 text); [done|].
  destruct (parse_ipv6 text) as [a|] eqn:E; [|done]. cbn [ok_or]. intros [= <-].
  apply parse_ipv6_range in E as (Hl & Hg). by exists a.
Qed.

Lemma v6_display (a : list Z) :
  length a = 8%nat -> Forall group a -> v6 (display_ipv6 a) = Ok (display_ipv6 a).
Proof.
  intros Hl Hg. unfold v6, contains. rewrite bool_decide_eq_false_2.
  - by rewrite parse_ipv6_display.
  - intros Hx. apply display_ipv6_bytes in Hx; [lia | done | done].
Qed.

Lemma v6_host_bytes (text h : str) : v6 text = Ok h -> 0x3A ∈ h /\ Forall host_byte h.
Proof.
  intros H. apply v6_inv in H as (a & Hl & Hg & ->). split; [by apply display_ipv6_colon|].
  apply list.Forall_forall. intros x Hx. apply display_ipv6_bytes in Hx; [|done|done].
  unfold host_byte, ldh, is_ascii_lowercase, is_ascii_digit.
  destruct Hx as [->|[->|Hx]]; [by right; left | by right; right |]. left.
  rewrite !orb_true_iff, !andb_true_iff, !Z.leb_le, Z.eqb_eq. lia.
Qed.

Lemma host_byte_not (c : Z) (h : str) :
  Forall host_byte h -> ldh c = false -> c <> 0x2E -> c <> 0x3A -> c ∉ h.
Proof. rewrite list.Forall_forall. intros H ? ? ? Hx. destruct (H c Hx) as [?|[?|?]]; congruence. Qed.

Lemma not_bracketed (h : str) :
  0x5B ∉ h -> and_then (strip_prefix (sbytes "[") h) (strip_suffix (sbytes "]")) = None.
Proof.
  intros H. change (sbytes "[") with [0x5B]. destruct (strip_prefix [0x5B] h) eqn:E; [|done].
  apply strip_prefix_spec in E as ->. set_solver.
Qed.

Lemma v6_host_normal (text h : str) : v6 text = Ok h -> canonical_host h = Ok h.
Proof.
  intros H. pose proof (v6_host_bytes _ _ H) as (Hc & Hb). unfold canonical_host.
  rewrite not_bracketed by (by apply host_byte_not).
  rewrite (proj2 (contains_spec _ _) Hc).
  apply v6_inv in H as (a & Hl & Hg & ->). by apply v6_display.
Qed.

Lemma to_lower_ascii (b : Z) : is_ascii b = true -> is_ascii (to_lower b) = true.
Proof. unfold is_ascii, to_lower. destruct (_ && _) eqn:E; bprop; lia. Qed.

Lemma labels_bytes (lower : str) :
  forallb valid_label (split 0x2E lower) = true -> Forall host_byte lower.
Proof.
  rewrite forallb_elem. intros H. rewrite <- (join_split 0x2E lower). apply list.Forall_forall.
  intros x Hx. apply elem_of_join in Hx as [->|(p & Hp & Hx)]; [by right; left|]. left.
  specialize (H p Hp). unfold valid_label in H. rewrite !andb_true_iff in H.
  destruct H as (_ & H). rewrite forallb_elem in H. by apply H.
Qed.

Lemma join_ends (c : Z) (l : list str) :
  l <> [] -> exists s p, p ∈ l /\ join [c] l = s ++ p.
Proof.
  induction l as [|a l IH]; intros Hl; [done|]. destruct l as [|b l].
  - exists [], a. split; [left | done].
  - destruct IH as (s & p & Hp & E); [done|].
    change (join [c] (a :: b :: l)) with (a ++ c :: join [c] (b :: l)). rewrite E.
    exists (a ++ c :: s), p. split; [by right | by rewrite <- app_assoc].
Qed.

(** Joined parts do not end in the separator. *)
Lemma strip_sep_join (c : Z) (l : list str) :
  l <> [] -> (forall p, p ∈ l -> p <> [] /\ (c ∉ p)) -> strip_suffix [c] (join [c] l) = None.
Proof.
  intros Hne Hl. destruct (join_ends c l Hne) as (s & p & Hp & ->). destruct (Hl p Hp) as (Hpne & Hc).
  apply strip_suffix_None. intros r E. destruct p as [|y p] using rev_ind; [done|].
  rewrite app_assoc in E. apply app_inj_tail in E as (_ & ->). set_solver.
Qed.

Lemma canonical_host_bytes (host h : str) :
  canonical_host host = Ok h -> h <> [] /\ Forall host_byte h.
Proof.
  unfold canonical_host. destruct (and_then _ _) as [inner|].
  { intros H. apply v6_host_bytes in H as (Hc & Hb). split; [by intros -> ; apply elem_of_nil in Hc | done]. }
  destruct (contains 0x3A host).
  { intros H. apply v6_host_bytes in H as (Hc & Hb). split; [by intros -> ; apply elem_of_nil in Hc | done]. }
  set (h1 := unwrap_or _ _). destruct (negb (forallb is_ascii h1)); [done|].
  destruct (is_nil h1 || _) eqn:Ene; [done|]. destruct (forallb valid_label _) eqn:El; [|done]. cbn [negb].
  intros H. assert (h = map to_lower h1) as ->.
  { destruct (is_some_and _ _); [|by injection H]. destruct (parse_ipv4 _); [|done]. cbn [ok_or] in H.
    destruct (bool_decide _); [by injection H | done]. }
  split; [|by apply labels_bytes]. apply orb_false_iff in Ene as (Hne & _). by destruct h1.
Qed.

(** The canonical host is a normal form. *)
Lemma canonical_host_normal (host h : str) : canonical_host host = Ok h -> canonical_host h = Ok h.
Proof.
  intros H. pose proof (canonical_host_bytes _ _ H) as (Hne & Hb). revert H. unfold canonical_host at 1.
  destruct (and_then _ _) as [inner|]; [by apply v6_host_normal|].
  destruct (contains 0x3A host) eqn:Ec; [by apply v6_host_normal|].
  set (h1 := unwrap_or _ _). destruct (forallb is_ascii h1) eqn:Ea; [|done]. cbn [negb].
  destruct (is_nil h1 || _) eqn:Ene; [done|]. destruct (forallb valid_label _) eqn:El; [|done]. cbn [negb].
  intros H. assert (h = map to_lower h1) as ->.
  { destruct (is_some_and _ _); [|by injection H]. destruct (parse_ipv4 _); [|done]. cbn [ok_or] in H.
    destruct (bool_decide _); [by injection H | done]. }
  assert (Hcolon : contains 0x3A (map to_lower h1) = false).
  { apply bool_decide_eq_false. intros Hx. apply list_elem_of_In, in_map_iff in Hx as (b & Eb & Hx).
    apply bool_decide_eq_false in Ec. apply Ec. apply list_elem_of_In in Hx.
    assert (b = 0x3A) as -> by (revert Eb; unfold to_lower; destruct (_ && _) eqn:E; bprop; lia).
    subst h1. destruct (strip_suffix _ host) as [r|] eqn:E; [|done].
    apply strip_suffix_spec in E as ->. cbn [unwrap_or] in Hx. set_solver. }
  unfold canonical_host. rewrite not_bracketed by (by apply host_byte_not). rewrite Hcolon.
  assert (Hdot : strip_suffix (sbytes ".") (map to_lower h1) = None).
  { rewrite <- (join_split 0x2E (map to_lower h1)). apply strip_sep_join; [apply split_ne|].
    intros p Hp. split; [|by eapply split_parts]. rewrite forallb_elem in El. specialize (El p Hp).
    unfold valid_label in El. by destruct p. }
  rewrite Hdot. cbn [unwrap_or].
  assert (Ea' : forallb is_ascii (map to_lower h1) = true).
  { rewrite forallb_elem in *. intros x Hx. apply list_elem_of_In, in_map_iff in Hx as (b & <- & Hx).
    apply to_lower_ascii, Ea. by apply list_elem_of_In. }
  rewrite Ea'. cbn [negb]. rewrite map_map, (map_ext _ _ to_lower_idemp), El.
  replace (is_nil (map to_lower h1) || (253 <? len (map to_lower h1))) with false.
  2:{ rewrite length_map. symmetry. rewrite <- Ene. by destruct h1. }
  cbn [negb]. exact H.
Qed.

(** ** Paths *)

(** One character: its bytes are read whole whatever follows them. *)
Definition one_char (ch : str) : Prop :=
  exists cp b0 cs, ch = b0 :: cs /\ cont b0 = false /\ Forall (fun b => cont b = true) cs
    /\ (b0 < 0x80 -> cs = []) /\ forall r, next_char (ch ++ r) = Some (inl (cp, r)).

Lemma second3_cont (b0 b1 : Z) : second3 b0 b1 = true -> cont b1 = true.
Proof. unfold second3, cont. repeat (destruct (_ =? _)); bprop; rewrite ?andb_true_iff, ?Z.leb_le; lia. Qed.
Lemma second4_cont (b0 b1 : Z) : second4 b0 b1 = true -> cont b1 = true.
Proof. unfold second4, cont. repeat (destruct (_ =? _)); bprop; rewrite ?andb_true_iff, ?Z.leb_le; lia. Qed.

Lemma next_char_one (s r : str) (cp : Z) :
  next_char s = Some (inl (cp, r)) -> exists ch, s = ch ++ r /\ one_char ch.
Proof.
  destruct s as [|b0 r0]; [done|]. cbn [next_char]. intros H. injection H as H.
  assert (Hcont : forall lo, 0xBF < lo -> lo <= b0 -> cont b0 = false).
  { intros lo H1 H2. unfold cont. rewrite andb_false_iff, !Z.leb_gt. lia. }
  destruct (b0 <? 0x80) eqn:E0.
  { injection H as <- <-. exists [b0]. split; [done|]. exists b0, b0, []. repeat split; try done.
    - unfold cont. bprop. rewrite andb_false_iff, !Z.leb_gt. lia.
    - intros r. cbn [app next_char]. by rewrite E0. }
  destruct ((0xC2 <=? b0) && (b0 <=? 0xDF)) eqn:E1.
  { destruct r0 as [|b1 r1]; [done|]. destruct (cont b1) eqn:C1; [|done]. injection H as <- <-.
    exists [b0; b1]. split; [done|]. eexists _, b0, [b1]. repeat split; try done.
    - apply (Hcont 0xC2); bprop; lia.
    - by repeat constructor.
    - intros; bprop; lia.
    - intros r. cbn [app next_char]. by rewrite E0, E1, C1. }
  destruct ((0xE0 <=? b0) && (b0 <=? 0xEF)) eqn:E2.
  { destruct r0 as [|b1 r1]; [done|]. destruct (second3 b0 b1) eqn:C1; [|done]. cbn [negb] in H.
    destruct r1 as [|b2 r2]; [done|]. destruct (cont b2) eqn:C2; [|done]. injection H as <- <-.
    exists [b0; b1; b2]. split; [done|]. eexists _, b0, [b1; b2]. repeat split; try done.
    - apply (Hcont 0xE0); bprop; lia.
    - repeat constructor; [by eapply second3_cont | done].
    - intros; bprop; lia.
    - intros r. cbn [app next_char]. by rewrite E0, E1, E2, C1, C2. }
  destruct ((0xF0 <=? b0) && (b0 <=? 0xF4)) eqn:E3; [|done].
  destruct r0 as [|b1 r1]; [done|]. destruct (second4 b0 b1) eqn:C1; [|done]. cbn [negb] in H.
  destruct r1 as [|b2 r2]; [done|]. destruct (cont b2) eqn:C2; [|done]. cbn [negb] in H.
  destruct r2 as [|b3 r3]; [done|]. destruct (cont b3) eqn:C3; [|done]. injection H as <- <-.
  exists [b0; b1; b2; b3]. split; [done|]. eexists _, b0, [b1; b2; b3]. repeat split; try done.
  - apply (Hcont 0xF0); bprop; lia.
  - repeat constructor; [by eapply second4_cont | done | done].
  - intros; bprop; lia.
  - intros r. cbn [app next_char]. by rewrite E0, E1, E2, E3, C1, C2, C3.
Qed.

(** The normal form of a path: whole characters, none refused, and escapes in
    upper case that do not stand for a dot, a separator or NUL. *)
Definition upper_hex (b : Z) : Prop := 0x30 <= b <= 0x39 \/ 0x41 <= b <= 0x46.
Definition good_escape (a b : Z) : bool :=
  is_some_and (from_str_radix16 a b) (fun v => negb (contains v [0x00; 0x2E; 0x2F; 0x5C])).

Inductive normal : str -> Prop :=
| normal_nil : normal []
| normal_escape a b r :
    upper_hex a -> upper_hex b -> good_escape a b = true -> normal r -> normal (0x25 :: a :: b :: r)
| normal_char b0 cs r :
    one_char (b0 :: cs) -> b0 <> 0x25 -> (b0 =? 0x5C) || (b0 <? 0x20) || (b0 =? 0x7F) = false ->
    normal r -> normal (b0 :: cs ++ r).

Lemma hexdigit_upper (a : Z) : is_ascii_hexdigit a = true -> upper_hex (to_upper a).
Proof.
  unfold is_ascii_hexdigit, is_ascii_digit, to_upper, upper_hex. intros H.
  destruct ((0x61 <=? a) && (a <=? 0x7A)) eqn:E; bprop; lia.
Qed.

Lemma to_digit_upper (a : Z) : is_ascii_hexdigit a = true -> to_digit 16 (to_upper a) = to_digit 16 a.
Proof.
  unfold is_ascii_hexdigit, is_ascii_digit, to_upper. intros H.
  destruct ((0x61 <=? a) && (a <=? 0x7A)) eqn:E; [|done].
  unfold to_digit, is_ascii_digit. rewrite E. bprop; try lia.
  replace (48 <=? a) with true by (symmetry; lia). replace (a <=? 57) with false by (symmetry; lia).
  replace (48 <=? a - 32) with true by (symmetry; lia). replace (a - 32 <=? 57) with false by (symmetry; lia).
  replace (97 <=? a - 32) with false by (symmetry; lia).
  replace (65 <=? a - 32) with true by (symmetry; lia). replace (a - 32 <=? 90) with true by (symmetry; lia).
  cbn [andb]. by replace (a - 32 - 65) with (a - 97) by lia.
Qed.

Lemma upper_hex_digit (a : Z) : upper_hex a -> is_ascii_hexdigit a = true /\ to_upper a = a.
Proof.
  unfold upper_hex, is_ascii_hexdigit, is_ascii_digit, to_upper. intros H.
  replace (0x61 <=? a) with false by (symmetry; lia). cbn [andb]. rewrite orb_false_r. split; [|done].
  rewrite orb_true_iff, !andb_true_iff, !Z.leb_le. lia.
Qed.

Lemma from_str_radix16_upper (a b : Z) :
  is_ascii_hexdigit a = true -> is_ascii_hexdigit b = true ->
  from_str_radix16 (to_upper a) (to_upper b) = from_str_radix16 a b.
Proof.
  intros Ha Hb. unfold from_str_radix16. rewrite !to_digit_upper by done.
  destruct (to_digit 16 a) eqn:E; [done|]. exfalso.
  unfold is_ascii_hexdigit, is_ascii_digit, to_digit in *.
  destruct ((0x30 <=? a) && (a <=? 0x39)) eqn:E1; bprop; try lia;
    destruct ((0x61 <=? a) && (a <=? 0x7A)) eqn:E2; bprop; try lia;
    unfold is_ascii_digit in E; repeat (destruct (_ <=? _) eqn:? in E; cbn [andb] in E);
    bprop; try lia; destruct (_ <? 16) eqn:? in E; bprop; try done; lia.
Qed.

Lemma percent_loop_normal (f : nat) (s out : str) :
  (length s <= f)%nat -> percent_loop f s = Ok out -> normal out.
Proof.
  revert s out. induction f as [|f IH]; intros s out Hf.
  { destruct s; [|cbn in Hf; lia]. intros [= <-]. constructor. }
  destruct s as [|byte r]; cbn [percent_loop]; [intros [= <-]; constructor|].
  cbn [length] in Hf. destruct (Z.eqb_spec byte 0x25) as [->|Hb].
  - destruct (get2 r) as [[[a b] r']|] eqn:Eg; [|done].
    destruct (from_str_radix16 a b) as [v|] eqn:Ev; [|done]. cbn [ok_or].
    destruct (negb _ || _) eqn:Eg2; [done|]. apply orb_false_iff in Eg2 as (Eh & Ebad).
    apply negb_false_iff, andb_true_iff in Eh as (Ha & Hb').
    destruct (percent_loop f r') as [out'|] eqn:El; [|done]. intros [= <-].
    constructor; [by apply hexdigit_upper | by apply hexdigit_upper | |].
    + unfold good_escape. rewrite from_str_radix16_upper, Ev by done. cbn. by rewrite Ebad.
    + eapply IH; [|exact El]. unfold get2 in Eg. destruct r as [|? [|? ?]]; try done.
      destruct (boundary _); [|done]. injection Eg as <- <- <-. cbn in Hf. lia.
  - destruct (_ || _) eqn:Eb; [done|].
    destruct (next_char (byte :: r)) as [[[cp r']|]|] eqn:En; try done.
    destruct (percent_loop f r') as [out'|] eqn:El; [|done]. intros [= <-].
    apply next_char_one in En as (ch & Es & Hch). destruct Hch as (cp' & b0 & cs & -> & Hch).
    injection Es as <- Er. assert (Hl : length r = (length cs + length r')%nat) by (rewrite Er, length_app; lia).
    cbn [length]. replace (S (length r) - length r')%nat with (S (length cs)) by lia.
    cbn [take]. rewrite Er, take_app_length. rewrite <- app_comm_cons.
    constructor; [by exists cp', byte, cs | done | done |]. eapply IH; [|exact El]. lia.
Qed.

Lemma normal_boundary (r : str) : normal r -> boundary r = true.
Proof.
  destruct 1 as [| |b0 cs r (cp & b & cs' & [= <- <-] & Hc & _)]; [done | done |].
  cbn [boundary]. by rewrite Hc.
Qed.

Lemma normal_loop (f : nat) (s : str) : normal s -> (length s <= f)%nat -> percent_loop f s = Ok s.
Proof.
  intros Hs. revert f. induction Hs as [|a b r Ha Hb Hg Hr IH|b0 cs r Hch Hpct Hok Hr IH]; intros f Hf.
  - by destruct f.
  - destruct f as [|f]; cbn [length] in Hf; [lia|]. cbn [percent_loop Z.eqb Pos.eqb get2].
    rewrite normal_boundary by done. unfold good_escape in Hg.
    destruct (from_str_radix16 a b) as [v|]; [|done]. cbn [is_some_and ok_or] in *.
    apply upper_hex_digit in Ha as (Ha & Ea). apply upper_hex_digit in Hb as (Hb & Eb).
    rewrite Ha, Hb, Ea, Eb. apply negb_true_iff in Hg. rewrite Hg. cbn [negb andb orb].
    by rewrite IH by lia.
  - destruct f as [|f]; cbn [length] in Hf; [lia|]. rewrite length_app in Hf. cbn [percent_loop].
    rewrite (proj2 (Z.eqb_neq _ _) Hpct), Hok.
    destruct Hch as (cp & b & cs' & [= <- <-] & _ & _ & _ & Hnext).
    rewrite (app_comm_cons cs r b0), Hnext, IH by lia. cbn [length app]. rewrite length_app.
    replace (S (length cs + length r) - length r)%nat with (S (length cs)) by lia.
    cbn [take]. by rewrite take_app_length.
Qed.

Lemma normal_fixed (s : str) : normal s -> percent_normalized s = Ok s.
Proof. intros H. by apply normal_loop. Qed.
Lemma percent_normalized_normal (s out : str) : percent_normalized s = Ok out -> normal out.
Proof. by apply percent_loop_normal. Qed.

Lemma normal_app (a b : str) : normal a -> normal b -> normal (a ++ b).
Proof.
  intros Ha Hb. induction Ha as [|x y r|b0 cs r]; [done | by constructor |].
  cbn [app]. rewrite <- app_assoc. by constructor.
Qed.

(** An ASCII character that cannot be part of an escape. *)
Definition separator (c : Z) : Prop :=
  0x20 <= c < 0x7F /\ c <> 0x25 /\ c <> 0x5C /\ is_ascii_hexdigit c = false.

Lemma separator_normal (c : Z) : separator c -> normal [c].
Proof.
  intros (Hc & H1 & H2 & _). apply (normal_char c [] []); [| done | | constructor].
  - exists c, c, []. repeat split; try done.
    + unfold cont. rewrite andb_false_iff, Z.leb_gt. lia.
    + intros r. cbn [app next_char]. by rewrite (proj2 (Z.ltb_lt _ _)) by lia.
  - rewrite !orb_false_iff, !Z.eqb_neq, Z.ltb_ge. lia.
Qed.

Lemma app_cons_split {A} (l1 l2 a b : list A) (c : A) :
  l1 ++ l2 = a ++ c :: b ->
  (exists m, l1 = a ++ c :: m /\ b = m ++ l2) \/ (exists m, a = l1 ++ m /\ l2 = m ++ c :: b).
Proof.
  revert a. induction l1 as [|x l1 IH]; intros a E.
  - right. by exists a.
  - destruct a as [|y a]; simplify_eq/=.
    + left. by exists l1.
    + destruct (IH a) as [(m & -> & ->)|(m & -> & ->)]; [done | left; by exists m | right; by exists m].
Qed.

Lemma normal_cut (c : Z) (a b : str) : separator c -> normal (a ++ c :: b) -> normal a /\ normal b.
Proof.
  intros (Hc & Hpct & _ & Hhex) H. remember (a ++ c :: b) as s eqn:Es. revert a Es.
  induction H as [|x y r Hx Hy Hg Hr IH|b0 cs r Hch Hb0 Hok Hr IH]; intros a Es.
  - by destruct a.
  - apply upper_hex_digit in Hx as Hx'. apply upper_hex_digit in Hy as Hy'.
    destruct a as [|a0 [|a1 [|a2 a]]]; simplify_eq/=; try (destruct Hx', Hy'; congruence).
    destruct (IH a eq_refl) as (? & ?). split; [by constructor | done].
  - rewrite app_comm_cons in Es. apply app_cons_split in Es as [(m & Em & ->)|(m & -> & ->)].
    + destruct Hch as (cp & b1 & cs' & [= <- <-] & _ & Hcs & Hlow & _).
      destruct a as [|a0 a]; simplify_eq/=.
      * rewrite Hlow by lia. split; [constructor | done].
      * exfalso. rewrite list.Forall_forall in Hcs.
        specialize (Hcs c ltac:(apply elem_of_app; right; left)). unfold cont in Hcs. bprop. lia.
    + destruct (IH m eq_refl) as (? & ?). split; [by constructor | done].
Qed.

Lemma slash_separator : separator 0x2F.
Proof. repeat split; done. Qed.
Lemma dot_separator : separator 0x2E.
Proof. repeat split; done. Qed.
Lemma tilde_separator : separator 0x7E.
Proof. repeat split; done. Qed.

Lemma normal_split (s : str) : normal s -> Forall normal (split 0x2F s).
Proof.
  rewrite <- (join_split 0x2F s) at 1. pose proof (split_ne 0x2F s) as Hne.
  induction (split 0x2F s) as [|a l IH]; [done|]. destruct l as [|b l].
  - intros H. by constructor.
  - change (join [0x2F] (a :: b :: l)) with (a ++ 0x2F :: join [0x2F] (b :: l)).
    intros H. apply normal_cut in H as (Ha & Hr); [|apply slash_separator]. constructor; [done | by apply IH].
Qed.

Lemma normal_join (l : list str) : Forall normal l -> normal (join [0x2F] l).
Proof.
  induction 1 as [|a l Ha Hl IH]; [constructor|]. destruct l as [|b l]; [done|].
  change (join [0x2F] (a :: b :: l)) with (a ++ [0x2F] ++ join [0x2F] (b :: l)).
  apply normal_app; [done|]. apply normal_app; [apply separator_normal, slash_separator | done].
Qed.

Lemma path_base_inv scheme host raw base rest :
  path_base scheme host raw = Ok (base, rest) ->
  exists pre, raw = pre ++ rest /\ pre ∈ [[]; sbytes "/"; sbytes "~/"; sbytes "/~/"]
    /\ (scheme = Scheme.Https -> base = Base.Absolute)
    /\ (scheme = Scheme.Ssh -> base = Base.Absolute -> starts_with (sbytes "~") rest = false).
Proof.
  unfold path_base. destruct scheme.
  - destruct (strip_prefix (sbytes "~/") raw) as [r|] eqn:E1; cbn [or_else].
    { intros [= <- <-]. apply strip_prefix_spec in E1. exists (sbytes "~/"). repeat split; try done. set_solver. }
    destruct (strip_prefix (sbytes "/~/") raw) as [r|] eqn:E2.
    { intros [= <- <-]. apply strip_prefix_spec in E2. exists (sbytes "/~/"). repeat split; try done. set_solver. }
    destruct (starts_with (sbytes "~") raw || _) eqn:E3; [done|]. apply orb_false_iff in E3 as (E3 & E4).
    destruct (strip_prefix (sbytes "/") raw) as [r|] eqn:E5.
    { intros [= <- <-]. apply strip_prefix_spec in E5 as ->. exists (sbytes "/").
      repeat split; try done. set_solver. }
    destruct (contains host KNOWN_HOSTS); intros [= <- <-]; exists []; repeat split; try done; set_solver.
  - destruct (strip_prefix (sbytes "/") raw) as [r|] eqn:E5; [|done].
    intros [= <- <-]. apply strip_prefix_spec in E5 as ->. exists (sbytes "/"). repeat split; try done. set_solver.
Qed.

Lemma strip_git_inv segs segs' :
  segs <> [] -> strip_git segs = Ok segs' ->
  exists init l l', segs = init ++ [l] /\ segs' = init ++ [l']
    /\ (l = l' \/ (l = l' ++ sbytes ".git" /\ l' <> [])).
Proof.
  revert segs'. induction segs as [|s segs IH]; intros segs' Hne H; [done|]. destruct segs as [|t segs].
  - cbn [strip_git] in H. exists [], s. destruct (strip_suffix (sbytes ".git") s) as [stem|] eqn:E.
    + apply strip_suffix_spec in E. destruct stem as [|b stem]; [done|]. injection H as <-.
      exists (b :: stem). split; [done|]. split; [done|]. by right.
    + injection H as <-. exists s. split; [done|]. split; [done|]. by left.
  - change (strip_git (s :: t :: segs)) with (try r' := strip_git (t :: segs) in Ok (s :: r')) in H.
    destruct (strip_git (t :: segs)) as [r'|]; [|done]. injection H as <-.
    destruct (IH r') as (init & l & l' & E1 & -> & Hl); [done | done |]. rewrite E1.
    by exists (s :: init), l, l'.
Qed.

(** What a canonical path says of the path it was made from: between a known
    prefix and an optional slash stand its segments, none of them empty or a
    dot, and the last with a possible [.git]. *)
Lemma canonical_path_operand raw scheme host allowance base segs :
  canonical_path raw scheme host allowance = Ok (Some base, segs) -> segs <> [] ->
  exists raw' pre operand trail,
    percent_normalized raw = Ok raw'
    /\ raw' = pre ++ join [0x2F] operand ++ trail
    /\ pre ∈ [[]; sbytes "/"; sbytes "~/"; sbytes "/~/"] /\ trail ∈ [[]; sbytes "/"]
    /\ operand <> [] /\ (forall p, p ∈ operand -> (0x2F ∉ p) /\ bad_segment p = false)
    /\ strip_git operand = Ok segs
    /\ (scheme = Scheme.Https -> base = Base.Absolute)
    /\ (scheme = Scheme.Ssh -> base = Base.Absolute -> starts_with (sbytes "~") (join [0x2F] operand) = false).
Proof.
  unfold canonical_path. destruct (MAX_PATH_BYTES <? len raw); [done|].
  destruct (percent_normalized raw) as [raw'|] eqn:Ep; [|done].
  destruct (path_base scheme host raw') as [[base' rest]|] eqn:Eb; [|done].
  apply path_base_inv in Eb as (pre & -> & Hpre & Hhttps & Hssh).
  set (rest' := unwrap_or _ _). destruct (is_nil rest') eqn:Enil.
  { destruct (allowance && _); [|done]. intros [= _ <-]. done. }
  destruct (existsb bad_segment _) eqn:Ebad; [done|].
  destruct (strip_git _) as [segs'|] eqn:Eg; [|done]. intros [= <- <-] Hne.
  assert (Hrest : exists trail, rest = rest' ++ trail /\ trail ∈ [[]; sbytes "/"]).
  { subst rest'. destruct (strip_suffix (sbytes "/") rest) as [r|] eqn:E; cbn [unwrap_or].
    - apply strip_suffix_spec in E. exists (sbytes "/"). split; [done | set_solver].
    - exists []. split; [by rewrite app_nil_r | set_solver]. }
  clearbody rest'. destruct Hrest as (trail & -> & Htrail).
  exists (pre ++ rest' ++ trail), pre, (split 0x2F rest'), trail. rewrite join_split.
  repeat split; try done.
  - apply split_ne.
  - by eapply split_parts.
  - destruct (bad_segment p) eqn:E; [|done]. rewrite <- Ebad. symmetry. apply existsb_elem. by exists p.
  - intros Hs Hb. specialize (Hssh Hs Hb). destruct rest'; [done|]. exact Hssh.
Qed.

(** ** Tuples *)

(** A canonical tuple as [from_destination] makes it. *)
Record canonical_ok (c : Canonical.t) : Prop := {
  ok_port : 0 < c.(Canonical.port) <= 65535;
  ok_host : canonical_host c.(Canonical.host) = Ok c.(Canonical.host);
  ok_segments : c.(Canonical.segments) <> [];
  ok_normal : Forall normal c.(Canonical.segments);
  ok_parts : forall p, p ∈ c.(Canonical.segments) -> p <> [] /\ (0x2F ∉ p);
  ok_https : c.(Canonical.scheme) = Scheme.Https -> c.(Canonical.base) = Base.Absolute;
  ok_ssh : c.(Canonical.scheme) = Scheme.Ssh -> c.(Canonical.base) = Base.Absolute ->
    starts_with (sbytes "~") (join [0x2F] c.(Canonical.segments)) = false;
}.

Lemma from_destination_inv d c :
  Canonical.from_destination d = Ok c ->
  canonical_host (sbytes d.(Destination.host)) = Ok c.(Canonical.host)
  /\ canonical_path (sbytes d.(Destination.path)) d.(Destination.scheme) c.(Canonical.host) false
     = Ok (Some c.(Canonical.base), c.(Canonical.segments))
  /\ c.(Canonical.scheme) = d.(Destination.scheme) /\ c.(Canonical.port) = d.(Destination.port)
  /\ c.(Canonical.segments) <> [] /\ 0 < c.(Canonical.port) <= 65535.
Proof.
  unfold Canonical.from_destination.
  destruct (Canonical.u16_port _) as [port|] eqn:Eport; [|done]. cbn [ok_or].
  destruct (canonical_host _) as [host|] eqn:Ehost; [|done].
  destruct (canonical_path _ _ _ _) as [[[base|] segs]|] eqn:Epath; try done.
  destruct (is_nil segs) eqn:Enil; [done|]. intros [= <-]. cbn.
  unfold Canonical.u16_port in Eport. destruct (_ && _) eqn:E in Eport; [|done]. injection Eport as <-.
  repeat split; try done; bprop; try lia. by intros ->.
Qed.

Lemma join_head (c : Z) (p : str) (l : list str) :
  p <> [] -> head (join [c] (p :: l)) = head p.
Proof. destruct p as [|b p]; [done|]. intros _. by destruct l. Qed.

Lemma starts_with_head (c : Z) (s : str) : starts_with [c] s = bool_decide (head s = Some c).
Proof.
  destruct s as [|b s]; cbn; [by rewrite bool_decide_eq_false_2|]. rewrite andb_true_r.
  destruct (Z.eqb_spec c b) as [->|]; [by rewrite bool_decide_eq_true_2|].
  rewrite bool_decide_eq_false_2 by congruence. done.
Qed.

Lemma from_destination_ok d c : Canonical.from_destination d = Ok c -> canonical_ok c.
Proof.
  intros H. apply from_destination_inv in H as (Hhost & Hpath & Hs & _ & Hne & Hport).
  apply canonical_path_operand in Hpath as
    (raw' & pre & operand & trail & Hraw & Eraw & Hpre & Htrail & Hone & Hparts & Hgit & Hhttps & Hssh); [|done].
  apply percent_normalized_normal in Hraw.
  assert (Hoper : Forall normal operand).
  { assert (Hj : normal (join [0x2F] operand)).
    { subst raw'. assert (H1 : normal (join [0x2F] operand ++ trail)).
      { set_unfold in Hpre. destruct Hpre as [->|[->|[->|[->|?]]]]; [done | | | | done].
        - by apply (normal_cut 0x2F []) in Hraw as [_ ?]; [|apply slash_separator].
        - by apply (normal_cut 0x2F [0x7E]) in Hraw as [_ ?]; [|apply slash_separator].
        - by apply (normal_cut 0x2F [0x2F; 0x7E]) in Hraw as [_ ?]; [|apply slash_separator]. }
      set_unfold in Htrail. destruct Htrail as [->|[->|?]]; [by rewrite app_nil_r in H1 | | done].
      by apply (normal_cut 0x2F) in H1 as [? _]; [|apply slash_separator]. }
    apply normal_split in Hj. rewrite split_join in Hj; [done | done |]. intros p Hp. by apply Hparts. }
  destruct (strip_git_inv _ _ Hone Hgit) as (init & l & l' & -> & Esegs & Hl).
  assert (Hl' : normal l').
  { apply Forall_app in Hoper as [_ Hoper]. apply list.Forall_cons in Hoper as [Hoper _].
    destruct Hl as [->|[-> _]]; [done|].
    by apply (normal_cut 0x2E) in Hoper as [? _]; [|apply dot_separator]. }
  assert (Hparts' : forall p, p ∈ init ++ [l'] -> p <> [] /\ (0x2F ∉ p)).
  { intros p Hp. apply elem_of_app in Hp as [Hp|Hp].
    - destruct (Hparts p) as (? & Hb); [set_solver|]. split; [by intros ->|done].
    - apply list_elem_of_singleton in Hp as ->. destruct (Hparts l) as (Hns & Hb); [set_solver|].
      destruct Hl as [->|[-> ?]]; [split; [by intros ->|done]|]. split; [done | set_solver]. }
  constructor; try done.
  - by eapply canonical_host_normal.
  - rewrite Esegs. apply Forall_app in Hoper as [? _]. apply Forall_app. by repeat constructor.
  - by rewrite Esegs.
  - by rewrite Hs.
  - rewrite Hs, Esegs. intros H1 H2. specialize (Hssh H1 H2). revert Hssh. change (sbytes "~") with [0x7E].
    rewrite !starts_with_head.
    enough (E : head (join [0x2F] (init ++ [l'])) = head (join [0x2F] (init ++ [l]))) by (by rewrite E).
    destruct init as [|p init].
    + cbn [app]. destruct Hl as [->|[-> Hne']]; [done|]. cbn [join]. destruct l'; [congruence | done].
    + cbn [app]. assert (Hp : p <> []) by (apply (Hparts' p); set_solver). by rewrite !join_head.
Qed.

(** ** Texts read back *)

Lemma elem_of_dec (n x : Z) : 0 <= n -> x ∈ dec n -> 0x30 <= x <= 0x39.
Proof.
  intros Hn Hx. pose proof (digits_are_digits 10 ltac:(lia) 20 n Hn) as H.
  rewrite list.Forall_forall in H. destruct (H x Hx) as (d & Hd & ->).
  unfold digit_char. destruct (Z.ltb_spec d 10); lia.
Qed.

Lemma fold_dec (ds : str) (acc : Z) :
  Forall (fun b => 0x30 <= b <= 0x39) ds ->
  fold_left (fun acc b => acc * 10 + (b - 0x30)) ds acc = value_of 10 acc ds.
Proof.
  unfold value_of. intros H. revert acc. induction H as [|b ds Hb H IH]; intros acc; [done|].
  cbn [fold_left]. rewrite IH. unfold to_digit, is_ascii_digit.
  rewrite (proj2 (andb_true_iff _ _)) by lia. by rewrite (proj2 (Z.ltb_lt _ _)) by lia.
Qed.

Lemma parse_port_dec (port : Z) : 0 < port <= 65535 -> parse_port (dec port) = Ok port.
Proof.
  intros Hp. unfold parse_port.
  assert (Hd : Forall (fun b => 0x30 <= b <= 0x39) (dec port)).
  { apply list.Forall_forall. intros x Hx. apply elem_of_dec in Hx; lia. }
  rewrite fold_dec by done.
  replace (value_of 10 0 (dec port)) with port by (symmetry; apply value_of_digits; lia).
  replace (forallb is_ascii_digit (dec port)) with true.
  2:{ symmetry. apply forallb_elem. intros x Hx. apply elem_of_dec in Hx; [|lia].
      unfold is_ascii_digit. rewrite andb_true_iff, !Z.leb_le. lia. }
  assert (Hl : (length (dec port) <= 5)%nat) by (apply length_digits; lia).
  destruct (digits_head 10 ltac:(lia) 20 port) as (c & r & E & _); [lia | lia |].
  unfold dec in *. rewrite E in *. cbn [is_nil negb orb].
  rewrite (proj2 (Z.ltb_ge _ _)) by lia. rewrite (proj2 (Z.leb_le _ _)) by lia.
  by rewrite (proj2 (Z.eqb_neq _ _)) by lia.
Qed.

Lemma split_authority_canonical (host : str) (port : Z) (scheme : Scheme.t) :
  Forall host_byte host -> 0 < port <= 65535 ->
  split_authority (bracketed host ++ [0x3A] ++ dec port) scheme = Ok (None, bracketed host, port).
Proof.
  intros Hh Hp. unfold split_authority.
  assert (Hdec : forall c, ~ (0x30 <= c <= 0x39) -> c ∉ dec port).
  { intros c Hc Hx. apply elem_of_dec in Hx; lia. }
  pose proof (host_byte_not 0x40 host Hh) as Hat. pose proof (host_byte_not 0x5B host Hh) as Hopen.
  pose proof (host_byte_not 0x5D host Hh) as Hclose.
  specialize (Hat ltac:(done) ltac:(lia) ltac:(lia)). specialize (Hopen ltac:(done) ltac:(lia) ltac:(lia)).
  specialize (Hclose ltac:(done) ltac:(lia) ltac:(lia)).
  assert (Hb : 0x40 ∉ bracketed host).
  { unfold bracketed. destruct (contains _ _); [|done]. change (sbytes "[") with [0x5B].
    change (sbytes "]") with [0x5D]. set_solver. }
  pose proof (Hdec 0x40 ltac:(lia)) as Hd.
  rewrite (proj2 (rsplit_once_None 0x40 _)) by set_solver.
  unfold bracketed. destruct (contains 0x3A host) eqn:Ec.
  - change (sbytes "[" ++ host ++ sbytes "]") with (0x5B :: host ++ [0x5D]). cbn [app].
    rewrite (proj2 (strip_prefix_spec (sbytes "[") (0x5B :: _) ((host ++ [0x5D]) ++ 0x3A :: dec port)) eq_refl).
    rewrite <- app_assoc. cbn [app]. rewrite find_byte_first by done. cbn [ok_or].
    rewrite take_app_length. replace (S (length host)) with (length host + 1)%nat by lia.
    rewrite <- drop_drop, drop_app_length. cbn [drop].
    rewrite (proj2 (strip_prefix_spec (sbytes ":") (0x3A :: _) (dec port)) eq_refl). cbn [ok_or].
    by rewrite parse_port_dec.
  - change (sbytes "[") with [0x5B]. destruct (strip_prefix [0x5B] (host ++ _)) as [r|] eqn:E.
    { exfalso. apply strip_prefix_spec in E. destruct host as [|b host]; simplify_eq/=. set_solver. }
    rewrite (proj2 (rsplit_once_spec 0x3A _ host (dec port))) by (split; [done | apply Hdec; lia]).
    rewrite Ec. cbn [negb]. by rewrite parse_port_dec.
Qed.

Lemma canonical_host_bracketed (host : str) :
  canonical_host host = Ok host -> canonical_host (bracketed host) = Ok host.
Proof.
  intros H. unfold bracketed. destruct (contains 0x3A host) eqn:Ec; [|done].
  unfold canonical_host at 1. change (sbytes "[" ++ host ++ sbytes "]") with (sbytes "[" ++ (host ++ sbytes "]")).
  rewrite (proj2 (strip_prefix_spec (sbytes "[") _ _) eq_refl). cbn [and_then].
  rewrite (proj2 (strip_suffix_spec (sbytes "]") _ _) eq_refl).
  pose proof (canonical_host_bytes _ _ H) as (_ & Hb). unfold canonical_host in H.
  rewrite not_bracketed in H by (by apply host_byte_not). by rewrite Ec in H.
Qed.

(** The path [Display] writes. *)
Definition shown_path (c : Canonical.t) : str :=
  sbytes "/" ++ (if bool_decide (c.(Canonical.base) = Base.Home) then sbytes "~/" else [])
  ++ join [0x2F] c.(Canonical.segments).

Lemma shown_path_base (c : Canonical.t) (host : str) :
  canonical_ok c ->
  path_base c.(Canonical.scheme) host (shown_path c) = Ok (c.(Canonical.base), join [0x2F] c.(Canonical.segments)).
Proof.
  intros Hc. unfold path_base, shown_path. pose proof (ok_https c Hc) as Hhttps. pose proof (ok_ssh c Hc) as Hssh.
  destruct c.(Canonical.scheme).
  - destruct c.(Canonical.base) eqn:Eb.
    + rewrite bool_decide_eq_false_2 by done. specialize (Hssh eq_refl eq_refl).
      change (sbytes "~") with [0x7E] in *. rewrite starts_with_head in Hssh.
      apply bool_decide_eq_false in Hssh. change (sbytes "/" ++ [] ++ ?x) with (0x2F :: x).
      set (j := join [0x2F] _) in *. unfold strip_prefix, or_else.
      destruct j as [|b j]; [done|]. assert (b <> 0x7E) by (intros ->; done).
      change (sbytes "~/") with [0x7E; 0x2F]. change (sbytes "/~/") with [0x2F; 0x7E; 0x2F].
      change (sbytes "/~") with [0x2F; 0x7E]. change (sbytes "/") with [0x2F].
      cbn [starts_with]. rewrite (proj2 (Z.eqb_neq 0x7E b)) by lia. done.
    + rewrite bool_decide_eq_true_2 by done. reflexivity.
  - rewrite (Hhttps eq_refl). reflexivity.
Qed.

Lemma shown_path_canonical (c : Canonical.t) (allowance : bool) :
  canonical_ok c -> existsb bad_segment c.(Canonical.segments) = false ->
  strip_git c.(Canonical.segments) = Ok c.(Canonical.segments) ->
  len (shown_path c) <= MAX_PATH_BYTES ->
  canonical_path (shown_path c) c.(Canonical.scheme) c.(Canonical.host) allowance
  = Ok (Some c.(Canonical.base), c.(Canonical.segments)).
Proof.
  intros Hc Hbad Hgit Hlen. unfold canonical_path. rewrite (proj2 (Z.ltb_ge _ _)) by lia.
  rewrite normal_fixed.
  2:{ unfold shown_path. apply normal_app; [apply separator_normal, slash_separator|].
      apply normal_app; [|apply normal_join, Hc]. case_bool_decide; [|constructor].
      apply (normal_app [0x7E] [0x2F]); apply separator_normal; [apply tilde_separator | apply slash_separator]. }
  rewrite shown_path_base by done. change (sbytes "/") with [0x2F].
  rewrite strip_sep_join by apply Hc. cbn [unwrap_or].
  assert (Hne : is_nil (join [0x2F] (Canonical.segments c)) = false).
  { destruct (Canonical.segments c) as [|p l] eqn:E; [by destruct (ok_segments c Hc)|].
    destruct (ok_parts c Hc p) as (Hp & _); [rewrite E; left|]. destruct p; [done|]. by destruct l. }
  rewrite Hne, split_join, Hbad, Hgit; [done | apply Hc | apply Hc].
Qed.

(** The allowance of exactly one tuple. *)
Definition exactly (c : Canonical.t) : Allowance.t :=
  Allowance.mk c.(Canonical.scheme) None c.(Canonical.host) c.(Canonical.port) (Some c.(Canonical.base))
    c.(Canonical.segments) false.

Lemma exactly_matches (c t : Canonical.t) : Allowance.matches (exactly c) t = bool_decide (t = c).
Proof.
  unfold Allowance.matches, exactly. destruct c as [s h p b g], t as [s' h' p' b' g']. cbn.
  repeat case_bool_decide; simplify_eq/=; rewrite ?Z.eqb_refl; try done;
    destruct (Z.eqb_spec p p'); simplify_eq/=; done.
Qed.

Lemma parse_scheme_shown (c : Canonical.t) :
  Allowance.parse_scheme (match c.(Canonical.scheme) with Scheme.Ssh => sbytes "ssh" | Scheme.Https => sbytes "https" end)
  = Ok c.(Canonical.scheme).
Proof. by destruct c.(Canonical.scheme). Qed.

Lemma display_parts (c : Canonical.t) :
  split_once (sbytes "://") (Canonical.display c)
  = Some (match c.(Canonical.scheme) with Scheme.Ssh => sbytes "ssh" | Scheme.Https => sbytes "https" end,
          (bracketed c.(Canonical.host) ++ [0x3A] ++ dec c.(Canonical.port)) ++ shown_path c).
Proof.
  unfold Canonical.display, shown_path. rewrite <- !app_assoc. change (sbytes "/") with [0x2F].
  change (sbytes ":") with [0x3A]. by destruct c.(Canonical.scheme).
Qed.

(** ** The main facts *)

(** The text a tuple is printed as is itself an allowance, of that tuple and
    no other: a tuple made from a destination, printed and parsed again admits
    exactly itself.  Excluded are the tuples whose text is not their own normal
    form (a last segment that is a dot or still ends in [.git]), texts over the
    length limit and paths with a question mark or hash, which [parse] refuses. *)
Theorem display_admits_exactly (d : Destination.t) (c : Canonical.t) :
  Canonical.from_destination d = Ok c ->
  existsb bad_segment c.(Canonical.segments) = false ->
  strip_git c.(Canonical.segments) = Ok c.(Canonical.segments) ->
  len (Canonical.display c) <= MAX_PATH_BYTES ->
  contains 0x3F (Canonical.display c) || contains 0x23 (Canonical.display c) = false ->
  exists a, Allowance.parse (Canonical.display c) = Ok a
    /\ forall t, Allowance.matches a t = true <-> t = c.
Proof.
  intros Hd Hbad Hgit Hlen Hmarks. apply from_destination_ok in Hd as Hc. exists (exactly c).
  split; [|intros t; rewrite exactly_matches; apply bool_decide_eq_true].
  pose proof (canonical_host_bytes _ _ (ok_host c Hc)) as (_ & Hhost).
  assert (Hslash : 0x2F ∉ bracketed (Canonical.host c) ++ [0x3A] ++ dec (Canonical.port c)).
  { pose proof (host_byte_not 0x2F _ Hhost ltac:(done) ltac:(lia) ltac:(lia)).
    assert (0x2F ∉ dec (Canonical.port c)).
    { intros Hx. pose proof (ok_port c Hc). apply elem_of_dec in Hx; lia. }
    unfold bracketed. change (sbytes "[") with [0x5B]. change (sbytes "]") with [0x5D].
    destruct (contains 0x3A (Canonical.host c)); rewrite !not_elem_of_app; repeat split;
      done || (intros Hx; apply list_elem_of_singleton in Hx; lia). }
  assert (Hne : is_nil (Canonical.display c) = false) by (unfold Canonical.display; by destruct (Canonical.scheme c)).
  unfold Allowance.parse. rewrite Hne, (proj2 (Z.ltb_ge _ _)) by lia. cbn [orb]. rewrite Hmarks.
  rewrite display_parts, parse_scheme_shown.
  set (authority := bracketed _ ++ _) in *. change (shown_path c) with (0x2F :: drop 1 (shown_path c)).
  rewrite find_byte_first by done. cbn [ok_or].
  rewrite take_app_length, drop_app_length. subst authority.
  change (0x2F :: drop 1 (shown_path c)) with (shown_path c).
  rewrite split_authority_canonical by (done || apply Hc).
  rewrite canonical_host_bracketed by apply Hc.
  rewrite shown_path_canonical; [| done | done | done |].
  - unfold ends_with, exactly. change (sbytes "/") with [0x2F].
    assert (Hend : strip_suffix [0x2F] (shown_path c) = None).
    { apply strip_suffix_None. intros r E. unfold shown_path in E.
      destruct (join_ends 0x2F _ (ok_segments c Hc)) as (s & p & Hp & Ej). rewrite Ej in E.
      destruct (ok_parts c Hc p Hp) as (Hpne & Hps). destruct p as [|y p] using rev_ind; [done|].
      rewrite !app_assoc in E. apply app_inj_tail in E as (_ & ->). set_solver. }
    rewrite Hend. cbn [is_some negb andb].
    destruct (Canonical.segments c) eqn:E; [by destruct (ok_segments c Hc)|]. done.
  - pose proof (f_equal length (eq_refl (Canonical.display c))) as _.
    unfold Canonical.display in Hlen. unfold shown_path. rewrite !length_app in *.
    change (sbytes "/") with [0x2F] in *. cbn [length] in *. lia.
Qed.

(** C5: what a prefix allowance admits lies under it: the operand the
    destination carries is, between its base and a possible final slash, the
    allowance's segments followed by at least one more, and none of them is
    empty, a dot or two dots. *)
Theorem prefix_confines (d : Destination.t) (c : Canonical.t) (a : Allowance.t) :
  Canonical.from_destination d = Ok c -> Allowance.matches a c = true ->
  a.(Allowance.prefix) = true -> is_some a.(Allowance.base) = true ->
  a.(Allowance.scheme) = d.(Destination.scheme) /\ a.(Allowance.port) = d.(Destination.port)
  /\ canonical_host (sbytes d.(Destination.host)) = Ok a.(Allowance.host)
  /\ exists raw pre more trail,
       percent_normalized (sbytes d.(Destination.path)) = Ok raw
       /\ raw = pre ++ join (sbytes "/") (a.(Allowance.segments) ++ more) ++ trail
       /\ pre ∈ [[]; sbytes "/"; sbytes "~/"; sbytes "/~/"] /\ trail ∈ [[]; sbytes "/"] /\ more <> []
       /\ forall p, p ∈ a.(Allowance.segments) ++ more -> (0x2F ∉ p) /\ p ∉ [[]; sbytes "."; sbytes ".."].
Proof.
  intros Hd Hm Hp Hb. apply from_destination_inv in Hd as (Hhost & Hpath & Hs & Hport & Hne & _).
  unfold Allowance.matches in Hm. destruct (_ || _) eqn:E in Hm; [done|].
  rewrite !orb_false_iff, !negb_false_iff, !bool_decide_eq_true, Z.eqb_eq in E.
  destruct E as ((Es & Eh) & Ep). split; [congruence|]. split; [congruence|]. split; [congruence|].
  destruct (Allowance.base a) as [base|]; [|done].
  destruct (negb _) in Hm; [done|]. rewrite Hp, andb_true_iff, bool_decide_eq_true in Hm.
  destruct Hm as (Hlt & Htake).
  apply canonical_path_operand in Hpath as
    (raw & pre & operand & trail & Hraw & Eraw & Hpre & Htrail & Hone & Hparts & Hgit & _); [|done].
  destruct (strip_git_inv _ _ Hone Hgit) as (init & l & l' & -> & Esegs & _).
  rewrite Esegs, length_app in *. cbn [length] in *. apply Nat.ltb_lt in Hlt.
  assert (Einit : take (length (Allowance.segments a)) init = Allowance.segments a).
  { rewrite <- Htake at 2. rewrite take_app_le; [done | lia]. }
  exists raw, pre, (drop (length (Allowance.segments a)) init ++ [l]), trail.
  assert (Eop : Allowance.segments a ++ drop (length (Allowance.segments a)) init ++ [l] = init ++ [l]).
  { rewrite <- Einit at 1. by rewrite app_assoc, take_drop. }
  rewrite Eop. repeat split; try done.
  - intros Hnil. apply app_eq_nil in Hnil as (_ & Hnil). done.
  - by apply Hparts.
  - destruct (Hparts p) as (_ & Hbad); [done|]. unfold bad_segment in Hbad. rewrite !orb_false_iff in Hbad.
    rewrite !bool_decide_eq_false in Hbad. set_solver.
Qed.

(** The service-class rule, exactly: what is admitted matches the tuple and
    comes from the set that the service needs, receive-pack only for a push
    request and from the push set; what is refused is refused by the class, or
    no allowance of that set matches. *)
Theorem admit_service_exact (class : ServiceClass.t) (service : GitService.t) (tuple : Canonical.t)
    (fetch push : AllowedSet.t) :
  let set := if is_receive_pack service then push else fetch in
  match admit_service class service tuple fetch push with
  | Ok a =>
      a ∈ set /\ Allowance.matches a tuple = true
      /\ (class = ServiceClass.Push \/ (class = ServiceClass.Fetch /\ is_receive_pack service = false))
  | Err (Refusal.NotAllowed | Refusal.PushNotAllowed) =>
      forall a, a ∈ set -> Allowance.matches a tuple = false
  | Err Refusal.ClassForbids => class = ServiceClass.Fetch /\ is_receive_pack service = true
  | Err Refusal.Plan => class = ServiceClass.Plan
  | Err Refusal.NoTransport => class = ServiceClass.NoTransport
  end.
Proof.
  assert (Hfind : forall (s : AllowedSet.t) (e : Refusal.t),
    match ok_or (AllowedSet.admitting s tuple) e with
    | Ok a => a ∈ s /\ Allowance.matches a tuple = true
    | Err e' => e' = e /\ forall a, a ∈ s -> Allowance.matches a tuple = false
    end).
  { intros s e. unfold AllowedSet.admitting. destruct (List.find _ s) as [a|] eqn:E; cbn [ok_or].
    - apply List.find_some in E as (Hin & Hm). split; [by apply list_elem_of_In | done].
    - split; [done|]. intros a Ha. apply list_elem_of_In in Ha. exact (List.find_none _ _ E a Ha). }
  unfold admit_service. destruct class; [| |done|done]; destruct (is_receive_pack service).
  - done.
  - specialize (Hfind fetch Refusal.NotAllowed). destruct (ok_or _ _); [|by destruct Hfind as [-> ?]].
    destruct Hfind. repeat split; try done. by right.
  - specialize (Hfind push Refusal.PushNotAllowed). destruct (ok_or _ _); [|by destruct Hfind as [-> ?]].
    destruct Hfind. repeat split; try done. by left.
  - specialize (Hfind fetch Refusal.NotAllowed). destruct (ok_or _ _); [|by destruct Hfind as [-> ?]].
    destruct Hfind. repeat split; try done. by left.
Qed.

Lemma sbytes_printable (s : string) :
  forallb (fun b => (0x20 <=? b) && (b <=? 0x7E)) (sbytes s) = true -> Forall (fun b => 0x20 <= b <= 0x7E) (sbytes s).
Proof. rewrite forallb_elem, list.Forall_forall. intros H x Hx. specialize (H x Hx). bprop. lia. Qed.

Lemma digits_printable (radix n : Z) :
  2 <= radix <= 16 -> 0 <= n -> Forall (fun b => 0x20 <= b <= 0x7E) (digits 20 radix n).
Proof.
  intros Hr Hn. pose proof (digits_are_digits radix Hr 20 n Hn) as H. refine (list.Forall_impl _ _ _ H _).
  intros b (d & Hd & ->). pose proof (digit_char_range d). lia.
Qed.

Lemma next_char_nonneg (s r : str) (c : Z) :
  Forall (fun b => 0 <= b) s -> next_char s = Some (inl (c, r)) -> 0 <= c /\ Forall (fun b => 0 <= b) r.
Proof.
  intros Hs. destruct s as [|b0 r0]; [done|]. apply list.Forall_cons in Hs as [Hb0 Hs]. cbn [next_char].
  intros H. injection H as H.
  destruct (b0 <? 0x80); [injection H as <- <-; done|].
  destruct ((0xC2 <=? b0) && (b0 <=? 0xDF)) eqn:E1.
  { destruct r0 as [|b1 r1]; [done|]. destruct (cont b1) eqn:C1; [|done]. injection H as <- <-.
    unfold cont in C1. apply list.Forall_cons in Hs as [_ Hs]. split; [bprop; lia | done]. }
  destruct ((0xE0 <=? b0) && (b0 <=? 0xEF)) eqn:E2.
  { destruct r0 as [|b1 r1]; [done|]. destruct (second3 b0 b1) eqn:C1; [|done]. cbn [negb] in H.
    destruct r1 as [|b2 r2]; [done|]. destruct (cont b2) eqn:C2; [|done]. injection H as <- <-.
    apply second3_cont in C1. unfold cont in C1, C2. do 2 (apply list.Forall_cons in Hs as [_ Hs]).
    split; [bprop; lia | done]. }
  destruct ((0xF0 <=? b0) && (b0 <=? 0xF4)) eqn:E3; [|done].
  destruct r0 as [|b1 r1]; [done|]. destruct (second4 b0 b1) eqn:C1; [|done]. cbn [negb] in H.
  destruct r1 as [|b2 r2]; [done|]. destruct (cont b2) eqn:C2; [|done]. cbn [negb] in H.
  destruct r2 as [|b3 r3]; [done|]. destruct (cont b3) eqn:C3; [|done]. injection H as <- <-.
  apply second4_cont in C1. unfold cont in C1, C2, C3. do 3 (apply list.Forall_cons in Hs as [_ Hs]).
  split; [bprop; lia | done].
Qed.

Lemma utf8_scan_nonneg (f : nat) (s cs : list Z) :
  Forall (fun b => 0 <= b) s -> utf8_scan f s = Utf8Ok cs -> Forall (fun c => 0 <= c) cs.
Proof.
  revert s cs. induction f as [|f IH]; intros s cs Hs; cbn [utf8_scan]; [intros [= <-]; constructor|].
  destruct (next_char s) as [[[c r]|]|] eqn:En; [| done | intros [= <-]; constructor].
  apply next_char_nonneg in En as (Hc & Hr); [|done].
  destruct (utf8_scan f r) as [cs'|] eqn:Es; [|done]. intros [= <-]. constructor; [done|]. by eapply IH.
Qed.

Lemma printable_printable (s : string) : Forall (fun b => 0x20 <= b <= 0x7E) (printable (sbytes s)).
Proof.
  unfold printable. assert (Hcs : Forall (fun c => 0 <= c) (take 253 (str_chars (sbytes s)))).
  { apply Forall_take. unfold str_chars. destruct (utf8_scan _ _) eqn:E; [|constructor].
    eapply utf8_scan_nonneg; [|exact E]. unfold sbytes. apply list.Forall_forall. intros x Hx.
    apply list_elem_of_In, in_map_iff in Hx as (b & <- & _). apply Z_of_byte_range. }
  induction Hcs as [|c cs Hc _ IH]; cbn [flat_map]; [constructor|]. apply Forall_app. split; [|done].
  unfold is_ascii_graphic. destruct (_ && _) eqn:E; [bprop; repeat constructor; lia|].
  unfold escape, hex. apply Forall_app. split; [repeat constructor; lia|].
  apply Forall_app. split; [apply digits_printable; lia | repeat constructor; lia].
Qed.

(** The text that refuses a destination without a canonical form is
    printable ASCII, whatever host, port and path the core sent. *)
Theorem refusal_text_printable (d : Destination.t) (service : GitService.t) (error : CanonError.t) :
  Forall (fun b => 0x20 <= b <= 0x7E) (tuple_refusal_text d service error).
Proof.
  assert (Hport : Forall (fun b => 0x20 <= b <= 0x7E) (dec_i64 d.(Destination.port))).
  { unfold dec_i64, dec. destruct (Z.ltb_spec (Destination.port d) 0); [constructor; [lia|]|];
      apply digits_printable; lia. }
  unfold tuple_refusal_text, asked.
  destruct error; destruct (is_receive_pack service);
    repeat (apply Forall_app; split); try (apply sbytes_printable; reflexivity);
    try apply printable_printable; try done; repeat constructor; lia.
Qed.

(** A canonical tuple can still hold what its form promises to exclude: a
    last segment that is two dots, left by removing [.git], and so printed as a
    traversal; and a control character above ASCII, which the text of a refusal
    then carries to the terminal. *)
Theorem canonical_form_leaks :
  Canonical.segments <$> (match Canonical.from_destination
      (Destination.mk Scheme.Ssh "example.org" 22 "/team/...git" None None) with Ok c => Some c | Err _ => None end)
    = Some [sbytes "team"; sbytes ".."]
  /\ exists c, Canonical.from_destination
      (Destination.mk Scheme.Ssh "example.org" 22 (string_of_list_byte [x2f; x61; xc2; x9b]) None None) = Ok c
    /\ existsb is_control (str_chars (class_refusal_text c GitService.UploadPackExchange)) = true.
Proof. split; [reflexivity|]. eexists. split; reflexivity. Qed.

(** ** Samples *)

Definition sample_destination : Destination.t :=
  Destination.mk Scheme.Ssh "GitHub.com." 22 "octo/re%7epo.git" None None.
Definition sample_tuple : Canonical.t :=
  Canonical.mk Scheme.Ssh (sbytes "github.com") 22 Base.Absolute [sbytes "octo"; sbytes "re%7Epo"].
Definition sample_prefix : Allowance.t :=
  Allowance.mk Scheme.Ssh (Some (sbytes "git")) (sbytes "github.com") 22 (Some Base.Absolute) [sbytes "octo"] true.

Lemma display_admits_exactly_witness :
  Canonical.from_destination sample_destination = Ok sample_tuple
  /\ exists a, Allowance.parse (Canonical.display sample_tuple) = Ok a
    /\ forall t, Allowance.matches a t = true <-> t = sample_tuple.
Proof.
  split; [reflexivity|].
  apply (display_admits_exactly sample_destination sample_tuple);
    first [reflexivity | vm_compute; discriminate].
Defined.

Lemma prefix_confines_witness :
  Allowance.parse (sbytes "git@github.com:octo/") = Ok sample_prefix
  /\ exists raw pre more trail,
       percent_normalized (sbytes sample_destination.(Destination.path)) = Ok raw
       /\ raw = pre ++ join (sbytes "/") (sample_prefix.(Allowance.segments) ++ more) ++ trail.
Proof.
  split; [reflexivity|].
  destruct (prefix_confines sample_destination sample_tuple sample_prefix)
    as (_ & _ & _ & raw & pre & more & trail & H1 & H2 & _); try reflexivity.
  exists raw, pre, more, trail. split; [exact H1 | exact H2].
Defined.
