(* ===== verification/Operation.v ===== *)
(** * The inputs of an operation

    The connection crate's operation.rs: the route, profile, authentication claim,
    policy, exchange and reference types with their validation, and the words an
    operation's life is told in (registrations, failures, receipts).  An
    authentication provider is opaque to the crate and is not represented; its
    single-admission claim is the atomic byte the clones of a context share. *)
From S2P Require Import Prelude Utf8 Cbor Protocol Budget Admission Policy Validate Codec Binding Mux PoolTypes.

Module InvalidInput.
Inductive t := Operation | Route | Profile | Policy | Spec | ResponseHead.
End InvalidInput.

(** The identifier of a binding, and what came of a frame for one (binding.rs). *)
Module BindingId.
Record t := mk { host : Z; serial : Z }.
#[global] Instance eq_dec : EqDecision t.
Proof. solve_decision. Defined.
End BindingId.

Module TerminalReason.
Inductive t :=
| HostClosing | HostFault | DomainClosing
| ClientRefused (code : ErrorCode.t)
| CarrierLost | TimedOut | Cancelled.
#[global] Instance eq_dec : EqDecision t.
Proof. solve_decision. Defined.
End TerminalReason.

Module Registration.
Inductive t :=
| Pending
| Registered (id : BindingId.t)
| NeverRegistered (reason : TerminalReason.t).
#[global] Instance eq_dec : EqDecision t.
Proof. solve_decision. Defined.
End Registration.

(** The limits every binding of the crate uses. *)
Definition binding_limits : Limits.t := default_limits <| Limits.receive_window := 65536 |>.

Module EndpointRoute.
Record t := mk { schemes : list Scheme.t; policies : list AuthPolicy.t }.

Definition endpoint_config (self : t) (name : string) : EndpointConfig.t := {|
  EndpointConfig.endpoint_id := "endpoint-" ++ name;
  EndpointConfig.trust_owner := "endpoint-" ++ name;
  EndpointConfig.role := EndpointRole.Driver;
  EndpointConfig.schemes := self.(schemes);
  EndpointConfig.policies := self.(policies);
  EndpointConfig.limits := binding_limits;
|}.

Definition ssh_and_https : t :=
  mk [Scheme.Ssh; Scheme.Https]
     [AuthPolicy.SshAmbient; AuthPolicy.SshExplicit; AuthPolicy.Anonymous; AuthPolicy.Gh;
      AuthPolicy.WindowsConfigured; AuthPolicy.WindowsDefault].

Definition new (schemes : list Scheme.t) (policies : list AuthPolicy.t) : result t InvalidInput.t :=
  let route := mk schemes policies in
  try _ := map_err (fun _ => InvalidInput.Route)
             (Mux.endpoint_new "probe" (endpoint_config route "probe") MuxConfig.default) in
  Ok route.
End EndpointRoute.

Definition MAX_PROFILE_BYTES : Z := 64 * 1024.
Module EndpointProfile.
Record t := mk { digest : list byte; canonical : list byte }.
#[global] Instance eq_dec : EqDecision t.
Proof. solve_decision. Defined.

Definition new (canonical digest : list byte) : result t InvalidInput.t :=
  if is_nil canonical || (MAX_PROFILE_BYTES <? len canonical) then Err InvalidInput.Profile
  else Ok (mk digest canonical).
Definition same_as (self other : t) : bool :=
  bool_decide (self.(digest) = other.(digest)) && bool_decide (self.(canonical) = other.(canonical)).
End EndpointProfile.

(** The claim of a context that may be admitted once. *)
Module Claim.
Definition FREE : Z := 0.
Definition HELD : Z := 1.
Definition CONSUMED : Z := 2.

(** [take_claim]: whether a hold was taken, and the claim after it. *)
Definition take (claim : Z) : bool * Z := if claim =? FREE then (true, HELD) else (false, claim).
(** [ClaimHold::consume] and its drop. *)
Definition consume (claim : Z) : Z := CONSUMED.
Definition drop_hold (claim : Z) : Z := if claim =? HELD then FREE else claim.
End Claim.

Module OperationPolicy.
Record t := mk { concurrency : Z; max_connections_per_host : Z; max_retries : Z }.

Definition new (concurrency max_connections_per_host max_retries : Z) : result t InvalidInput.t :=
  if (concurrency =? 0) || (4096 <? concurrency)
     || (max_connections_per_host =? 0) || (4096 <? max_connections_per_host)
  then Err InvalidInput.Policy
  else Ok (mk concurrency max_connections_per_host max_retries).

Definition limits (self : t) : Capacity.t :=
  Capacity.mk self.(max_connections_per_host) self.(max_connections_per_host)
    (Z.max self.(concurrency) 256) (Z.max self.(concurrency) 1024).
End OperationPolicy.

Definition has_control (s : string) : bool := existsb is_control (chars s).

Module PreparedOperation.
(** The charge and scope of the authentication context stand for it. *)
Record t := mk {
  operation : string;
  route : EndpointRoute.t;
  profile : EndpointProfile.t;
  auth_charge : Z;
  auth_scope : list byte;
  policy : OperationPolicy.t;
}.
Definition new (operation : string) (route : EndpointRoute.t) (profile : EndpointProfile.t)
    (auth_charge : Z) (auth_scope : list byte) (policy : OperationPolicy.t) : result t InvalidInput.t :=
  if str_is_empty operation || (96 <? slen operation) || has_control operation
  then Err InvalidInput.Operation
  else Ok (mk operation route profile auth_charge auth_scope policy).
End PreparedOperation.

(** The crate's own service type; the wire has one of the same shape. *)
Module Service.
Inductive t :=
| UploadPackAdvertisement | UploadPackExchange | ReceivePackAdvertisement | ReceivePackExchange.
#[global] Instance eq_dec : EqDecision t.
Proof. solve_decision. Defined.
Definition is_receive_pack (self : t) : bool :=
  match self with ReceivePackAdvertisement | ReceivePackExchange => true | _ => false end.
Definition is_advertisement (self : t) : bool :=
  match self with UploadPackAdvertisement | ReceivePackAdvertisement => true | _ => false end.
End Service.

Definition EXCHANGE_PATH_BYTES : Z := 16 * 1024.
Module ExchangeSpec.
Record t := mk { key : Key.t; identity : PoolIdentity.t; service : Service.t; path : string }.
#[global] Instance eq_dec : EqDecision t.
Proof. solve_decision. Defined.
Definition git (key : Key.t) (identity : PoolIdentity.t) (service : Service.t) (path : string)
    : result t InvalidInput.t :=
  if str_is_empty path || (EXCHANGE_PATH_BYTES <? slen path) || contains_char 0 path
     || bool_decide (list.head (sbytes path) = Some 0x2D)
  then Err InvalidInput.Spec
  else Ok (mk key identity service path).
End ExchangeSpec.

Module OperationRef.
Record t := mk { request_id : string }.
Definition new (request_id : string) : result t InvalidInput.t :=
  if str_is_empty request_id || (128 <? slen request_id) || has_control request_id
  then Err InvalidInput.Operation
  else Ok (mk request_id).
End OperationRef.

(** What [HostHandle::admit] takes. *)
Module AdmitInput.
Inductive t :=
| Prepared (operation : PreparedOperation.t)
| Reference (operation_ref : OperationRef.t).
End AdmitInput.

(** The adapter's [FactoryError] is opaque here. *)
Module AdmissionError.
Inductive t :=
| QueueFull | AdmissionTimeout
| Closing (reason : TerminalReason.t)
| IdentifierExhausted | UnavailableAdapter | InstanceLimit | InputBudget | WrongInput | UnknownCall
| DuplicateOperation | CarrierLost | InvalidInput.
#[global] Instance eq_dec : EqDecision t.
Proof. solve_decision. Defined.
End AdmissionError.

(** [AuthContext::take_claim]: nothing for a provider that may be shared. *)
Definition take_claim (claim : option Z) : result bool AdmissionError.t * option Z :=
  match claim with
  | None => (Ok false, None)
  | Some c =>
      match Claim.take c with
      | (true, c) => (Ok true, Some c)
      | (false, c) => (Err AdmissionError.InvalidInput, Some c)
      end
  end.

Module TableRefusal.
Inductive t := SshAdvertisement | Identity | Username | PathBase.
#[global] Instance eq_dec : EqDecision t.
Proof. solve_decision. Defined.
End TableRefusal.

Module OpenError.
Inductive t :=
| Terminal (reason : TerminalReason.t) (effect : Effect.t)
| Cancelled | Sealed | BindingLimit
| Refused (refusal : TableRefusal.t).
#[global] Instance eq_dec : EqDecision t.
Proof. solve_decision. Defined.
End OpenError.

Module OpenFailure.
Inductive t :=
| Cancelled | Sealed
| Closing (reason : TerminalReason.t)
| Pool (error : PoolError.t)
| Io (effect : Effect.t)
| NoFittingConnection
| Refused (failure : Failure.t)
| CarrierLost (effect : Effect.t)
| Fault (code : ErrorCode.t).

Definition effect (self : t) : Effect.t :=
  match self with
  | Cancelled | Sealed | Closing _ | Pool _ | NoFittingConnection => Effect.None
  | Io effect => effect
  | Refused failure => failure.(Failure.effect)
  | CarrierLost effect => effect
  | Fault _ => Effect.Possible
  end.
End OpenFailure.

Module HttpResponseHead.
Record t := mk { status : Z; headers : list (string * string) }.
Definition MAX_HEAD_HEADERS : Z := 256.
Definition MAX_HEAD_BYTES : Z := 64 * 1024.

Definition valid_name (name : string) : bool :=
  negb (str_is_empty name)
  && negb (existsb (fun c => is_control c || (c =? 0x20) || (c =? 0x3A)) (chars name)).
Definition valid_value (value : string) : bool :=
  negb (existsb (fun c => is_control c && negb (c =? 0x09)) (chars value)).

(** The sum of the lengths cannot overflow: the strings are in memory. *)
Definition new (status : Z) (headers : list (string * string)) : result t InvalidInput.t :=
  let bytes := sum_Z (map (fun '(n, v) => slen n + slen v) headers) in
  if negb ((100 <=? status) && (status <=? 599)) || (MAX_HEAD_HEADERS <? len headers)
     || (MAX_HEAD_BYTES <? bytes)
     || existsb (fun '(name, value) => negb (valid_name name) || negb (valid_value value)) headers
  then Err InvalidInput.ResponseHead
  else Ok (mk status headers).
End HttpResponseHead.

Module CancelState.
Inductive t := Cancelled | AlreadyCancelled | Gone.
#[global] Instance eq_dec : EqDecision t.
Proof. solve_decision. Defined.
End CancelState.

(** A ticket is named by the generation it observes. *)
Module CleanupStatus.
Inductive t := Complete | Pending (generation : Z).
#[global] Instance eq_dec : EqDecision t.
Proof. solve_decision. Defined.
End CleanupStatus.

Module OperationEnd.
Record t := mk {
  registration : Registration.t;
  cleanup : CleanupStatus.t;
  exchanges_opened : Z;
  cancelled : bool;
  revoked : option TerminalReason.t;
}.
End OperationEnd.

Module ExchangeEnd.
Record t := mk {
  disposition : Disposition.t;
  cleanup : CleanupStatus.t;
  failure : option (ErrorCode.t * Effect.t);
  effect : Effect.t;
}.
End ExchangeEnd.
