(* ===== verification/RemoteTable.v ===== *)
(** * The table of exchanges

    The connection crate's remote/table.rs, the closed table from an exchange to
    the [Open] that asks for it, and the bounds of remote/lane.rs.  The theorem is
    that every row the table has is, for a context and an identity within the wire's
    bounds, a message the transport's validator accepts, of the service that was asked
    for.  The bounds are the theorem's hypotheses [context_ok] and [identity_ok]: neither
    [ExchangeSpec::git] nor the configuration enforces them. *)
From S2P Require Import Prelude Utf8 Cbor Protocol Budget Admission Policy Validate Codec Binding Mux PoolTypes Operation.

Definition wire_service (service : Service.t) : GitService.t :=
  match service with
  | Service.UploadPackAdvertisement => GitService.UploadPackAdvertisement
  | Service.UploadPackExchange => GitService.UploadPackExchange
  | Service.ReceivePackAdvertisement => GitService.ReceivePackAdvertisement
  | Service.ReceivePackExchange => GitService.ReceivePackExchange
  end.
Definition crate_service (service : GitService.t) : Service.t :=
  match service with
  | GitService.UploadPackAdvertisement => Service.UploadPackAdvertisement
  | GitService.UploadPackExchange => Service.UploadPackExchange
  | GitService.ReceivePackAdvertisement => Service.ReceivePackAdvertisement
  | GitService.ReceivePackExchange => Service.ReceivePackExchange
  end.

Definition check_shape (scheme : Scheme.t) (service : GitService.t) : result unit TableRefusal.t :=
  if bool_decide (scheme = Scheme.Ssh)
     && match service with
        | GitService.UploadPackAdvertisement | GitService.ReceivePackAdvertisement => true
        | _ => false
        end
  then Err TableRefusal.SshAdvertisement
  else Ok tt.

Module OpenContext.
Record t := mk {
  endpoint_id : string;
  operation_id : string;
  limits : Limits.t;
  deadlines : Deadlines.t;
  path_base : option string;
}.
End OpenContext.

Definition destination_of (key : Key.t) (path : string) : result Destination.t TableRefusal.t :=
  try (ssh_username, https_username) :=
    match key.(Key.scheme), key.(Key.username) with
    | Scheme.Ssh, Some user => Ok (Some user, None)
    | Scheme.Https, None => Ok (None, None)
    | _, _ => Err TableRefusal.Username
    end in
  Ok (Destination.mk key.(Key.scheme) key.(Key.host) key.(Key.port) path ssh_username https_username).

Definition open_for (spec : ExchangeSpec.t) (context : OpenContext.t) : result Open.t TableRefusal.t :=
  let key := spec.(ExchangeSpec.key) in
  let service := wire_service spec.(ExchangeSpec.service) in
  try _ := check_shape key.(Key.scheme) service in
  try (identity, policy) :=
    match key.(Key.scheme), spec.(ExchangeSpec.identity) with
    | Scheme.Ssh, PoolIdentity.Ambient =>
        Ok (Identity.mk IdentityMode.Ambient None None, AuthPolicy.SshAmbient)
    | Scheme.Ssh, PoolIdentity.Explicit key_path =>
        try base := ok_or context.(OpenContext.path_base) TableRefusal.PathBase in
        Ok (Identity.mk IdentityMode.ExplicitKey (Some key_path) (Some base), AuthPolicy.SshExplicit)
    | Scheme.Https, PoolIdentity.Https =>
        Ok (Identity.mk IdentityMode.CredentialsDisabled None None, AuthPolicy.Anonymous)
    | _, _ => Err TableRefusal.Identity
    end in
  try destination := destination_of key spec.(ExchangeSpec.path) in
  Ok {|
    Open.endpoint_id := context.(OpenContext.endpoint_id);
    Open.operation_id := context.(OpenContext.operation_id);
    Open.destination := destination;
    Open.service := service;
    Open.identity := identity;
    Open.policy := policy;
    Open.deadlines := context.(OpenContext.deadlines);
    Open.receive_limits := context.(OpenContext.limits);
  |}.

(** ** Bounds of a binding *)

(** The streams the client's half of a binding holds (served.rs). *)
Definition STREAMS : Z := 64.

Module RemoteConfig.
Record t := mk {
  active_operations : Z;
  waiting_admissions : Z;
  admission_bound_ms : Z;
  streams_per_binding : Z;
  deadlines : Deadlines.t;
}.
Definition streams (self : t) : Z := Z.max 1 (Z.min self.(streams_per_binding) STREAMS).
Definition default : t := mk 32 64 30000 64 (Deadlines.mk 30000 30000 60000 120000 5000).
End RemoteConfig.

Module BindBounds.
Record t := mk { receive_window : Z; streams : Z }.
Definition window : Z := binding_limits.(Limits.receive_window).
Definition core (config : RemoteConfig.t) : t := mk window (RemoteConfig.streams config).
Definition client : t := mk window STREAMS.
End BindBounds.

(** ** The table is well typed *)

(** What a context must be to make an [Open] of: an endpoint and operation with
    names, valid limits, deadlines that are some, a base that is a path. *)
Definition context_ok (context : OpenContext.t) : bool :=
  let d := context.(OpenContext.deadlines) in
  negb (str_is_empty context.(OpenContext.endpoint_id)) && negb (str_is_empty context.(OpenContext.operation_id))
  && is_ok (Validate.limits context.(OpenContext.limits))
  && forallb (fun v => 0 <? v) [d.(Deadlines.allocation_ms); d.(Deadlines.interaction_ms); d.(Deadlines.cleanup_ms)]
  && forallb (fun v => Validate.in_range 0 I32_MAX v) [d.(Deadlines.connect_ms); d.(Deadlines.io_ms)]
  && is_none_or context.(OpenContext.path_base) (fun base => negb (str_is_empty base) && negb (contains_char 0 base)).

Definition identity_ok (identity : PoolIdentity.t) : bool :=
  match identity with
  | PoolIdentity.Explicit path => negb (str_is_empty path) && negb (contains_char 0 path)
  | _ => true
  end.

Lemma crate_wire_service s : crate_service (wire_service s) = s.
Proof. by destruct s. Qed.

(** An [Open] of the table and where each part of it comes from. *)
Lemma open_for_inv spec context o : open_for spec context = Ok o ->
  check_shape spec.(ExchangeSpec.key).(Key.scheme) o.(Open.service) = Ok tt
  /\ o.(Open.service) = wire_service spec.(ExchangeSpec.service)
  /\ destination_of spec.(ExchangeSpec.key) spec.(ExchangeSpec.path) = Ok o.(Open.destination)
  /\ o.(Open.endpoint_id) = context.(OpenContext.endpoint_id) /\ o.(Open.operation_id) = context.(OpenContext.operation_id)
  /\ o.(Open.deadlines) = context.(OpenContext.deadlines) /\ o.(Open.receive_limits) = context.(OpenContext.limits)
  /\ match spec.(ExchangeSpec.key).(Key.scheme), spec.(ExchangeSpec.identity) with
     | Scheme.Ssh, PoolIdentity.Ambient =>
         o.(Open.identity) = Identity.mk IdentityMode.Ambient None None /\ o.(Open.policy) = AuthPolicy.SshAmbient
     | Scheme.Ssh, PoolIdentity.Explicit path => exists base, context.(OpenContext.path_base) = Some base
         /\ o.(Open.identity) = Identity.mk IdentityMode.ExplicitKey (Some path) (Some base)
         /\ o.(Open.policy) = AuthPolicy.SshExplicit
     | Scheme.Https, PoolIdentity.Https =>
         o.(Open.identity) = Identity.mk IdentityMode.CredentialsDisabled None None /\ o.(Open.policy) = AuthPolicy.Anonymous
     | _, _ => False
     end.
Proof.
  unfold open_for. destruct (check_shape _ _) as [[]|] eqn:Es; [|done].
  destruct (Key.scheme (ExchangeSpec.key spec)), (ExchangeSpec.identity spec) as [|path| |scope]; try done;
    try (destruct (OpenContext.path_base context) as [base|] eqn:Eb; [|done]); cbn [ok_or];
    (destruct (destination_of _ _) as [d|]; [|done]); intros [= <-]; split_and!; try done; by exists base.
Qed.

Lemma open_for_typed spec context o : open_for spec context = Ok o ->
  context_ok context = true -> identity_ok spec.(ExchangeSpec.identity) = true ->
  Validate.valid_identity o.(Open.identity) = true
  /\ allows o.(Open.destination).(Destination.scheme) o.(Open.policy) o.(Open.identity).(Identity.mode) = true
  /\ native o.(Open.policy) = false.
Proof.
  intros Ho Hc Hi. destruct (open_for_inv _ _ _ Ho) as (_ & _ & Hd & _ & _ & _ & _ & Hid).
  assert (Hs : o.(Open.destination).(Destination.scheme) = spec.(ExchangeSpec.key).(Key.scheme)).
  { unfold destination_of in Hd. destruct (Key.scheme _) eqn:Es, (Key.username _); try done; by injection Hd as <-. }
  rewrite Hs. unfold context_ok in Hc. rewrite !andb_true_iff in Hc. destruct Hc as [_ Hb].
  destruct (Key.scheme (ExchangeSpec.key spec)), (ExchangeSpec.identity spec) as [|path| |scope]; try done;
    [destruct Hid as [-> ->] | destruct Hid as (base & Eb & -> & ->) | destruct Hid as [-> ->]]; try done.
  split; [|done]. unfold Validate.valid_identity. cbn. rewrite Eb in Hb. cbn in Hi, Hb. by rewrite Hi, Hb.
Qed.

(** C31: the table is typed: for an exchange that [ExchangeSpec::git] made, with a valid key and
    a port in range, and for a context and an identity within the bounds of the wire, which
    their makers do not check, the [Open] that the table makes, if it has a row, is of that
    exchange's service, has the shape the other side checks, names an identity
    the validator takes and a policy its scheme and identity allow, never a native
    one; and for ssh the whole body passes the transport's validator, at either
    version of the protocol. *)
Theorem open_for_well_typed spec context o version : open_for spec context = Ok o ->
  ExchangeSpec.git spec.(ExchangeSpec.key) spec.(ExchangeSpec.identity) spec.(ExchangeSpec.service) spec.(ExchangeSpec.path)
    = Ok spec ->
  Key.valid spec.(ExchangeSpec.key) = true -> 0 <= spec.(ExchangeSpec.key).(Key.port) <= 65535 ->
  context_ok context = true -> identity_ok spec.(ExchangeSpec.identity) = true ->
  crate_service o.(Open.service) = spec.(ExchangeSpec.service)
  /\ check_shape o.(Open.destination).(Destination.scheme) o.(Open.service) = Ok tt
  /\ Validate.valid_identity o.(Open.identity) = true
  /\ allows o.(Open.destination).(Destination.scheme) o.(Open.policy) o.(Open.identity).(Identity.mode) = true
  /\ native o.(Open.policy) = false
  /\ (spec.(ExchangeSpec.key).(Key.scheme) = Scheme.Ssh -> Validate.open_body version o = Ok tt).
Proof.
  intros Ho Hgit Hkey Hport Hc Hi. destruct (open_for_typed _ _ _ Ho Hc Hi) as (T1 & T2 & T3).
  destruct (open_for_inv _ _ _ Ho) as (V1 & V2 & V3 & V4 & V5 & V6 & V7 & _).
  assert (Hs : o.(Open.destination).(Destination.scheme) = spec.(ExchangeSpec.key).(Key.scheme)).
  { unfold destination_of in V3. destruct (Key.scheme _) eqn:Es, (Key.username _); try done; by injection V3 as <-. }
  split_and!; [by rewrite V2, crate_wire_service | by rewrite Hs | done..|]. intros Hssh.
  unfold Validate.open_body. rewrite V4, V5, V6, V7.
  unfold context_ok in Hc. rewrite !andb_true_iff, !negb_true_iff in Hc. destruct Hc as [[[[[C1 C2] C3] C4] C5] _].
  destruct (Validate.limits _) as [[]|]; [|done].
  assert (Hdest : Validate.destination o.(Open.destination) = Ok tt).
  { unfold ExchangeSpec.git in Hgit. destruct (_ || _) eqn:Eg in Hgit; [done|]. rewrite !orb_false_iff in Eg.
    destruct Eg as [[[G1 _] G2] _]. unfold Key.valid, valid_site in Hkey. rewrite Hssh in Hkey.
    rewrite !andb_true_iff, !negb_true_iff in Hkey. destruct Hkey as [[[[K1 _] K2] K3] K4].
    unfold destination_of in V3. rewrite Hssh in V3. destruct (Key.username _) as [user|]; [|done]. injection V3 as <-.
    cbn [is_some_and] in K4. unfold bounded_text in K4. rewrite !andb_true_iff, !negb_true_iff in K4. destruct K4 as [[U1 _] U2].
    unfold Validate.destination. cbn. apply Z.eqb_neq in K2. unfold Validate.in_range.
    rewrite K1, K3, G1, G2, U1, U2, (proj2 (Z.leb_le 1 _)), (proj2 (Z.leb_le _ 65535)) by lia. done. }
  rewrite Hdest, C1, C2, T1, T2, T3, andb_false_r. cbn. cbn in C4, C5. unfold Validate.refuse.
  rewrite !andb_true_iff, !Z.ltb_lt in C4. destruct C4 as (D1 & D2 & D3 & _).
  rewrite !andb_true_iff in C5. destruct C5 as (D4 & D5 & _). rewrite D4, D5.
  by rewrite !(proj2 (Z.leb_gt _ 0)) by lia.
Qed.

Lemma open_for_well_typed_witness : exists o,
  open_for (ExchangeSpec.mk (Key.ssh "git" "h.example" 22) (PoolIdentity.Explicit "/k") Service.ReceivePackExchange "/r")
    (OpenContext.mk "e" "r" binding_limits RemoteConfig.default.(RemoteConfig.deadlines) (Some "/base"%string)) = Ok o
  /\ Validate.open_body 2 o = Ok tt.
Proof.
  eexists. split; [vm_compute; reflexivity|].
  refine (proj2 (proj2 (proj2 (proj2 (proj2 (open_for_well_typed
    (ExchangeSpec.mk (Key.ssh "git" "h.example" 22) (PoolIdentity.Explicit "/k") Service.ReceivePackExchange "/r")
    (OpenContext.mk "e" "r" binding_limits RemoteConfig.default.(RemoteConfig.deadlines) (Some "/base"%string)) _ 2
    _ _ _ _ _ _))))) eq_refl); try (vm_compute; reflexivity).
  cbn. lia.
Defined.
