(* ===== verification/ConnBinding.v ===== *)
(** * One operation's binding

    The connection crate's binding.rs: the session's name, the two multiplexers of a
    binding and their in-memory bootstrap, the tickets of unconfirmed disposals and
    the affinity table.  The shared record [BindingShared] is state of the host and
    is modelled with it. *)
From S2P Require Import Prelude Utf8 Text TextFacts Cbor Protocol Budget Admission Policy Validate Codec Binding Mux PoolTypes Operation.

Module Direction.
Inductive t := ToEndpoint | ToDriver.
#[global] Instance eq_dec : EqDecision t.
Proof. solve_decision. Defined.
End Direction.

Module Discard.
Inductive t := ForeignCarrier | ForeignHost | Retired | WrongSession | Rejected.
#[global] Instance eq_dec : EqDecision t.
Proof. solve_decision. Defined.
End Discard.

Module Routed.
Inductive t := Delivered | Discarded (why : Discard.t).
#[global] Instance eq_dec : EqDecision t.
Proof. solve_decision. Defined.
End Routed.

(** The text of bytes. *)
Definition str_of (l : str) : string := string_of_list_byte (map byte_of_Z l).

(** [{:032x}]: at least thirty-two digits. *)
Definition hex32 (n : Z) : str :=
  let digits := digits 40 16 n in replicate (32 - length digits) 0x30 ++ digits.
Definition session_name (id : BindingId.t) : string :=
  str_of (hex32 id.(BindingId.host) ++ [0x2E] ++ Text.dec id.(BindingId.serial)).

Definition mux_config (registrations : Z) : MuxConfig.t :=
  MuxConfig.mk binding_limits EndpointRole.Driver registrations 64 5000 5000 120000.

Module Fault.
Inductive t := Limit | Protocol.
#[global] Instance eq_dec : EqDecision t.
Proof. solve_decision. Defined.
End Fault.
Definition fault (error : MuxError.t) : Fault.t :=
  if bool_decide (error = MuxError.Capacity) then Fault.Limit else Fault.Protocol.

Module MuxPair.
Record t := mk { driver : Mux.t; endpoint : Mux.t }.
#[global] Instance eta : Eta t := fun r => mk (r.(driver)) (r.(endpoint)).

Section pair.
Context {L : Layout}.
Variable unstable_sequenced : bool.

Definition register (request operation : string) (self : t) : result unit Fault.t * t :=
  let '(r, driver') := Mux.register request (Some operation) self.(driver) in
  let self := self <| driver := driver' |> in
  match r with
  | Err e => (Err (fault e), self)
  | Ok _ =>
      let '(r, endpoint') := Mux.register request None self.(endpoint) in
      (map_err fault r, self <| endpoint := endpoint' |>)
  end.

Definition deliver (direction : Direction.t) (item : Attachment) (self : t) : result unit MuxError.t * t :=
  match direction with
  | Direction.ToEndpoint =>
      let '(r, m) := Mux.receive unstable_sequenced item self.(endpoint) in (r, self <| endpoint := m |>)
  | Direction.ToDriver =>
      let '(r, m) := Mux.receive unstable_sequenced item self.(driver) in (r, self <| driver := m |>)
  end.

(** [while let Some(item) = from.next_message() { to.receive(&item)?; moved = true; }];
    an error leaves the function, so the state after it is not kept. *)
Fixpoint carry (fuel : nat) (from to : Mux.t) (moved : bool) : result (Mux.t * Mux.t * bool) Fault.t :=
  match fuel with
  | O => Ok (from, to, moved)
  | S fuel =>
      match Mux.next_message from with
      | (None, from) => Ok (from, to, moved)
      | (Some item, from) =>
          match Mux.receive unstable_sequenced item to with
          | (Ok _, to) => carry fuel from to true
          | (Err _, _) => Err Fault.Protocol
          end
      end
  end.

(** The fuel of one carry: the messages queued, the cancels a route can add, and one. *)
Definition carry_fuel (from : Mux.t) : nat :=
  S (length from.(Mux.outbound).(Queue.items) + size from.(Mux.routes)).

Fixpoint exchange (turns : nat) (self : t) : result t Fault.t :=
  match turns with
  | O => Ok self
  | S turns =>
      try (d, e, moved) := carry (carry_fuel self.(driver)) self.(driver) self.(endpoint) false in
      try (e, d, moved) := carry (carry_fuel e) e d moved in
      let self := mk d e in
      if moved then exchange turns self else Ok self
  end.

Definition bootstrapped (id : BindingId.t) (route : EndpointRoute.t) (registrations : Z)
    (request operation : string) : result t Fault.t :=
  let session := session_name id in
  let config := mux_config registrations in
  try driver := map_err (fun _ => Fault.Protocol) (Mux.initiator session config) in
  try endpoint := map_err (fun _ => Fault.Protocol)
                    (Mux.endpoint_new session (EndpointRoute.endpoint_config route session) config) in
  match register request operation (mk driver endpoint) with
  | (Err e, _) => Err e
  | (Ok _, halves) =>
      match Mux.begin request halves.(MuxPair.driver) with
      | (Err _, _) => Err Fault.Protocol
      | (Ok _, driver) =>
          try halves := exchange 8 (halves <| MuxPair.driver := driver |>) in
          if negb (bool_decide (halves.(MuxPair.driver).(Mux.phase) = Phase.Ready))
             || negb (bool_decide (halves.(MuxPair.endpoint).(Mux.phase) = Phase.Ready))
          then Err Fault.Protocol else Ok halves
      end
  end.
End pair.
End MuxPair.

(** ** Unconfirmed disposals

    A ticket is its generation; [pending] says which generations are not confirmed. *)
Module Cleanups.
Definition t : Type := list Z.

Definition note (pending : Z -> bool) (ticket : Z) (self : t) : t :=
  let tickets := keep pending self in
  if pending ticket && negb (contains ticket tickets) then tickets ++ [ticket] else tickets.

Definition status (pending : Z -> bool) (self : t) : CleanupStatus.t :=
  match List.find pending self with
  | Some ticket => CleanupStatus.Pending ticket
  | None => CleanupStatus.Complete
  end.
End Cleanups.

(** ** Affinity *)

Definition AFFINITY_ENTRIES : nat := 256.
Definition AFFINITY_PATH_BYTES : Z := 1024.

Module Affinity.
Definition t : Type := list ((Key.t * string) * ConnectionId.t).

Definition key_of (spec : ExchangeSpec.t) : option (Key.t * string) :=
  if slen spec.(ExchangeSpec.path) <=? AFFINITY_PATH_BYTES
  then Some (spec.(ExchangeSpec.key), spec.(ExchangeSpec.path)) else None.

Definition note (at_ : Key.t * string) (connection : ConnectionId.t) (self : t) : t :=
  let entries := keep (fun e => negb (bool_decide (e.1.1 = at_.1)) || negb (bool_decide (e.1.2 = at_.2))) self in
  let entries := if (AFFINITY_ENTRIES <=? length entries)%nat then tl entries else entries in
  entries ++ [(at_, connection)].

Definition preferred (spec : ExchangeSpec.t) (self : t) : option ConnectionId.t :=
  option_map snd (List.find (fun e => bool_decide (e.1.1 = spec.(ExchangeSpec.key))
                                      && bool_decide (e.1.2 = spec.(ExchangeSpec.path))) self).
End Affinity.

Definition closing_code (reason : TerminalReason.t) : Z :=
  match reason with TerminalReason.HostClosing => 1 | TerminalReason.DomainClosing => 2 | _ => 3 end.
Definition closing_reason (code : Z) : option TerminalReason.t :=
  if code =? 1 then Some TerminalReason.HostClosing
  else if code =? 2 then Some TerminalReason.DomainClosing
  else if code =? 3 then Some TerminalReason.HostFault
  else None.

(** ** Facts *)

Lemma sbytes_str_of (l : str) : Forall (fun b => 0 <= b <= 255) l -> sbytes (str_of l) = l.
Proof.
  intros H. unfold sbytes, str_of, bytes_of. rewrite list_byte_of_string_of_list_byte, map_map.
  induction H as [|b l Hb H IH]; [done|]. cbn [map]. rewrite IH, Z_of_byte_of_Z, Z.mod_small by lia. done.
Qed.

Lemma digits_inj (radix n m : Z) : 2 <= radix <= 16 -> 0 <= n < radix ^ 20 -> 0 <= m < radix ^ 20 ->
  digits 20 radix n = digits 20 radix m -> n = m.
Proof.
  intros Hr Hn Hm E. rewrite <- (value_of_digits radix Hr 20 n) by done.
  rewrite <- (value_of_digits radix Hr 20 m) by done. by rewrite E.
Qed.

(** A host never gives two serials one session name. *)
Lemma session_name_inj (a b : BindingId.t) :
  0 <= a.(BindingId.host) -> 0 <= b.(BindingId.host) ->
  in_u64 a.(BindingId.serial) -> in_u64 b.(BindingId.serial) ->
  session_name a = session_name b -> a.(BindingId.serial) = b.(BindingId.serial).
Proof.
  intros Ha Hb Hsa Hsb E. unfold in_u64 in *.
  assert (Hd : forall radix f n x, 2 <= radix <= 16 -> 0 <= n -> x ∈ digits f radix n ->
    (0x30 <= x <= 0x39 \/ 0x61 <= x <= 0x66) ).
  { intros radix f n x Hr Hn Hx. pose proof (digits_are_digits radix Hr f n Hn) as H.
    rewrite list.Forall_forall in H. destruct (H x Hx) as (d & ? & ->). apply digit_char_range. lia. }
  assert (Hbytes : forall id, 0 <= id.(BindingId.host) -> 0 <= id.(BindingId.serial) ->
    sbytes (session_name id) = hex32 id.(BindingId.host) ++ [0x2E] ++ Text.dec id.(BindingId.serial)).
  { intros id H1 H2. apply sbytes_str_of. apply list.Forall_forall. intros x Hx. unfold hex32 in Hx.
    rewrite !elem_of_app, list_elem_of_singleton in Hx. destruct Hx as [[Hx|Hx]|[->|Hx]]; [| | lia |].
    - apply elem_of_replicate in Hx as [-> _]. lia.
    - apply Hd in Hx; lia.
    - apply Hd in Hx; lia. }
  apply (f_equal sbytes) in E. rewrite !Hbytes in E by lia.
  assert (Hsplit : forall id x, 0 <= id.(BindingId.serial) -> x = 0x2E -> x ∉ Text.dec id.(BindingId.serial)).
  { intros id x H1 -> Hx. apply (Hd 10) in Hx; lia. }
  pose proof (proj2 (rsplit_once_spec 0x2E _ (hex32 (BindingId.host a)) _) (conj eq_refl (Hsplit a 0x2E ltac:(lia) eq_refl))) as R1.
  pose proof (proj2 (rsplit_once_spec 0x2E _ (hex32 (BindingId.host b)) _) (conj eq_refl (Hsplit b 0x2E ltac:(lia) eq_refl))) as R2.
  cbn [app] in E. rewrite E, R2 in R1. injection R1 as _ R.
  symmetry. eapply (digits_inj 10); [lia | | | exact R]; lia.
Qed.
