(* ===== verification/Cells.v ===== *)
(** * Cells, slots and the driver's signal

    The connection crate's cell.rs and the signal of pump.rs: the seams between work on
    the executor and the future a caller holds.  A waker is a number, [will_wake] its
    equality, and each call returns the wakers it wakes. *)
From S2P Require Import Prelude Binding.

Module Cell.
Record t (T : Type) := mk { value : option T; wakers : list Z }.
Arguments mk {T}.
Arguments value {T}.
Arguments wakers {T}.
#[global] Instance eta {T} : Eta (t T) := fun r => mk (r.(value)) (r.(wakers)).

Section cell.
Context {T : Type}.
Definition new : t T := mk None [].
(** The first value wins. *)
Definition set (v : T) (self : t T) : list Z * t T :=
  if is_some self.(value) then ([], self) else (self.(wakers), mk (Some v) []).
Definition ready (v : T) : t T := (set v new).2.
Definition poll (waker : Z) (self : t T) : option T * t T :=
  match self.(value) with
  | Some v => (Some v, self)
  | None =>
      (None, if existsb (Z.eqb waker) self.(wakers) then self else self <| wakers := self.(wakers) ++ [waker] |>)
  end.
End cell.
End Cell.

Module Slot.
Record t (T : Type) := mk { value : option T; waker : option Z; abandoned : bool }.
Arguments mk {T}.
Arguments value {T}.
Arguments waker {T}.
Arguments abandoned {T}.
#[global] Instance eta {T} : Eta (t T) := fun r => mk (r.(value)) (r.(waker)) (r.(abandoned)).

Section slot.
Context {T : Type}.
Definition new : t T := mk None None false.
(** Handed over, with the waker to wake, or given back. *)
Definition fill (v : T) (self : t T) : result (option Z) T * t T :=
  if self.(abandoned) || is_some self.(value) then (Err v, self)
  else (Ok self.(waker), mk (Some v) None self.(abandoned)).
Definition poll_take (waker' : Z) (self : t T) : option T * t T :=
  match self.(value) with
  | Some v => (Some v, self <| value := None |>)
  | None => (None, self <| waker := Some waker' |>)
  end.
Definition is_filled (self : t T) : bool := is_some self.(value).
Definition abandon (self : t T) : option T * t T := (self.(value), mk None None true).
End slot.
End Slot.

(** How the host and its adapters reach the driver. *)
Module Signal.
Record t := mk { waker : option Z; dirty : bool; stopped : bool; spawned : bool }.
#[global] Instance eta : Eta t := fun r => mk (r.(waker)) (r.(dirty)) (r.(stopped)) (r.(spawned)).
Definition new : t := mk None false false false.
Definition notify (self : t) : option Z * t := (self.(waker), self <| dirty := true |>).
Definition stop (self : t) : option Z * t := (self.(waker), self <| stopped := true |> <| waker := None |>).
Definition claim_spawn (self : t) : bool * t :=
  if self.(spawned) || self.(stopped) then (false, self) else (true, self <| spawned := true |>).
Definition begin (waker' : Z) (self : t) : bool * t :=
  if self.(stopped) then (false, self)
  else (true, self <| dirty := false |>
                   <| waker := if is_some_and self.(waker) (Z.eqb waker') then self.(waker) else Some waker' |>).
Definition take_dirty (self : t) : bool * t := (self.(dirty), self <| dirty := false |>).
End Signal.

(** ** Facts *)

(** Every waiter of a cell is woken by the value and sees it ever after. *)
Lemma cell_set_wakes {T} (v : T) (c : Cell.t T) waker :
  c.(Cell.value) = None ->
  let '(answer, c1) := Cell.poll waker c in
  answer = None /\ waker ∈ (Cell.set v c1).1
  /\ forall w waker', (Cell.poll waker' (Cell.set w (Cell.set v c1).2).2).1 = Some v.
Proof.
  intros Hc. unfold Cell.poll. rewrite Hc. split; [done|]. unfold Cell.set.
  assert (Hw : waker ∈ (if existsb (Z.eqb waker) c.(Cell.wakers) then c else c <| Cell.wakers := c.(Cell.wakers) ++ [waker] |>).(Cell.wakers)).
  { destruct (existsb _ _) eqn:E; [|cbn; set_solver]. apply existsb_exists in E as (x & Hx & ->%Z.eqb_eq). by apply list_elem_of_In. }
  destruct (existsb _ _); cbn in *; rewrite ?Hc; cbn; done.
Qed.

(** A value handed to a slot is taken once or comes back once. *)
Lemma slot_moves_once {T} (v : T) (s : Slot.t T) :
  match Slot.fill v s with
  | (Ok _, s1) => (forall w, (Slot.fill w s1).1 = Err w)
      /\ (forall waker, exists s2, Slot.poll_take waker s1 = (Some v, s2) /\ Slot.is_filled s2 = false)
      /\ exists s2, Slot.abandon s1 = (Some v, s2) /\ forall w, (Slot.fill w s2).1 = Err w
  | (Err w, s1) => w = v /\ s1 = s
  end.
Proof.
  unfold Slot.fill. destruct (_ || _) eqn:E; [done|]. cbn. apply orb_false_iff in E as [Ha Hv]. rewrite Ha. cbn.
  split_and!; [done| |]; eauto.
Qed.

(** A notification after a pass began is seen by that pass's end, or wakes the task. *)
Lemma signal_not_lost waker s :
  Signal.stopped s = false ->
  let s1 := (Signal.begin waker s).2 in
  (Signal.notify s1).1 = Some waker /\ (Signal.take_dirty (Signal.notify s1).2).1 = true.
Proof.
  intros Hs. unfold Signal.begin. rewrite Hs. cbn. split; [|done].
  destruct (Signal.waker s) as [w|]; [|done]. cbn. destruct (Z.eqb_spec waker w) as [->|]; done.
Qed.
