(* ===== verification/Host.v ===== *)
(** * The connection host

    The connection crate's host/config.rs, host/snapshot.rs, host/shared.rs and
    host/shared/admit.rs, and the local half of admission.rs and exchange.rs: the
    tables a host keeps behind its lock, each critical section a function.  A
    binding's record is one object that the table, the permit and the operation
    share: the objects are kept in a store under their serials and the table is a
    set of serials, so a change through one holder is seen by the others.  What an
    instance is doing, what the factory made and what became of a disposal are the
    ports' and the instance's to say: they are arguments. *)
From S2P Require Import Prelude Utf8 Text TextFacts Cbor Protocol Budget Admission Policy Validate Codec Binding Mux PoolTypes Operation ConnBinding.

Module HostPhase.
Inductive t := Open | Closing | Closed.
#[global] Instance eq_dec : EqDecision t.
Proof. solve_decision. Defined.
End HostPhase.

Module ConfigReason.
Inductive t :=
| ActiveSlots | WaitingAdmissions | EndpointInstances | CloseBound | AdmissionBound | BindingRegistrations
| DomainLimits.
#[global] Instance eq_dec : EqDecision t.
Proof. solve_decision. Defined.
End ConfigReason.

Definition DEFAULT_ADMISSION_BOUND_MS : Z := 4000.
Definition MAX_CLOSE_BOUND_MS : Z := 86400000.

Module HostLimits.
Record t := mk {
  active_slots : Z;
  waiting_admissions : Z;
  endpoint_instances : Z;
  close_bound_ms : Z;
  binding_registrations : Z;
  admission_bound_ms : Z;
}.
Definition default : t := mk 8 64 16 5000 256 DEFAULT_ADMISSION_BOUND_MS.

Definition validate (self : t) : result unit ConfigReason.t :=
  if self.(active_slots) =? 0 then Err ConfigReason.ActiveSlots
  else if self.(waiting_admissions) =? 0 then Err ConfigReason.WaitingAdmissions
  else if self.(endpoint_instances) =? 0 then Err ConfigReason.EndpointInstances
  else if negb ((1 <=? self.(close_bound_ms)) && (self.(close_bound_ms) <=? MAX_CLOSE_BOUND_MS))
  then Err ConfigReason.CloseBound
  else if negb ((1 <=? self.(admission_bound_ms)) && (self.(admission_bound_ms) <=? MAX_CLOSE_BOUND_MS))
  then Err ConfigReason.AdmissionBound
  else if negb ((1 <=? self.(binding_registrations)) && (self.(binding_registrations) <=? 4096))
  then Err ConfigReason.BindingRegistrations
  else Ok tt.
End HostLimits.

Module AttachError.
Inductive t := Closing | InstanceLimit | Factory.
#[global] Instance eq_dec : EqDecision t.
Proof. solve_decision. Defined.
End AttachError.

Definition MAX_ADMISSION_CHARGE : Z := 16 * 1024 * 1024.
Definition MAX_HOST_CHARGE : Z := 64 * 1024 * 1024.

Module HWaiter.
Record t := mk { id : Z; waker : option Z }.
#[global] Instance eta : Eta t := fun r => mk (r.(id)) (r.(waker)).
End HWaiter.

Module HClaim.
Record t := mk { revoked : option TerminalReason.t; released : bool }.
#[global] Instance eta : Eta t := fun r => mk (r.(revoked)) (r.(released)).
Definition new : t := mk None false.
(** What a seal makes of a claim. *)
Definition revoke (reason : TerminalReason.t) (self : t) : t :=
  mk (match self.(revoked) with Some r => Some r | None => Some reason end) true.
End HClaim.

(** What the registry keeps of an endpoint instance. *)
Module HInstance.
Record t := mk { serial : Z; profile : EndpointProfile.t; holds : Z; last_used : Z }.
#[global] Instance eta : Eta t := fun r => mk (r.(serial)) (r.(profile)) (r.(holds)) (r.(last_used)).
End HInstance.

Module BindingShared.
Record t := mk {
  id : BindingId.t;
  session : string;
  operation : string;
  carrier : Z;
  pair : MuxPair.t;
  cancelled : bool;
  closing : Z;
  sealed : bool;
  retired : bool;
  live : Z;
  opened : Z;
  next_exchange : Z;
  done : option OperationEnd.t;
}.
#[global] Instance eta : Eta t :=
  fun r => mk (r.(id)) (r.(session)) (r.(operation)) (r.(carrier)) (r.(pair)) (r.(cancelled)) (r.(closing))
    (r.(sealed)) (r.(retired)) (r.(live)) (r.(opened)) (r.(next_exchange)) (r.(done)).
Definition new (namespace serial : Z) (operation : string) (pair : MuxPair.t) : t :=
  let id := BindingId.mk namespace serial in
  mk id (session_name id) operation namespace pair false 0 false false 0 0 0 None.
End BindingShared.

Module HSlot.
Inductive t := Wait | Granted (claim serial : Z) | Closing (reason : TerminalReason.t) | Exhausted.
End HSlot.

(** What the first half of an attachment found or reserved. *)
Module Attach.
Inductive t := Found (serial : Z) | Reserved (retired : option Z).
End Attach.

(** An admission's record, and the permit it becomes: its claim, the serial of the
    prepared binding, its charge and the instance it holds. *)
Module LocalAdmission.
Record t := mk { id : Z; input : option PreparedOperation.t; charge : option Z; queued : bool }.
End LocalAdmission.
Module LocalPermit.
Record t := mk { claim : Z; serial : Z; charge : Z; instance : Z }.
End LocalPermit.

Module Host.
Record t := mk {
  phase : HostPhase.t;
  closing : option TerminalReason.t;
  instances : list HInstance.t;
  creating : Z;
  next_use : Z;
  (** The close cell, once it is made, and its value, once it is set. *)
  close : option (option CleanupStatus.t);
  queue : list HWaiter.t;
  next_waiter : Z;
  active : Z;
  next_claim : Z;
  claims : gmap Z HClaim.t;
  next_binding : Z;
  bindings : gset Z;
  shared : gmap Z BindingShared.t;
  charged : Z;
}.
#[global] Instance eta : Eta t :=
  fun r => mk (r.(phase)) (r.(closing)) (r.(instances)) (r.(creating)) (r.(next_use)) (r.(close)) (r.(queue))
    (r.(next_waiter)) (r.(active)) (r.(next_claim)) (r.(claims)) (r.(next_binding)) (r.(bindings)) (r.(shared))
    (r.(charged)).

Definition new : t := mk HostPhase.Open None [] 0 0 None [] 0 0 0 ∅ 1 ∅ ∅ 0.

Section host.
Context {L : Layout}.
Variable unstable_sequenced : bool.
Variable namespace : Z.
Variable limits : HostLimits.t.

(** ** The retained charge: an atomic counter *)

Definition fetch_add_charge (amount : Z) (self : t) : Z * t :=
  (self.(charged), self <| charged := wrapping_add_u64 self.(charged) amount |>).
(** [ChargeGuard::drop] *)
Definition drop_charge (amount : Z) (self : t) : t := self <| charged := as_u64 (self.(charged) - amount) |>.

Definition charge (amount : Z) (self : t) : result unit AdmissionError.t * t :=
  if MAX_ADMISSION_CHARGE <? amount then (Err AdmissionError.InputBudget, self)
  else
    let '(before, self) := fetch_add_charge amount self in
    if MAX_HOST_CHARGE <? wrapping_add_u64 before amount
    then (Err AdmissionError.InputBudget, drop_charge amount self)
    else (Ok tt, self).

(** ** Admission *)

Definition closing_reason_of (self : t) : TerminalReason.t := unwrap_or self.(closing) TerminalReason.HostClosing.
Definition is_open (self : t) : bool := bool_decide (self.(phase) = HostPhase.Open).

(** The critical section of [admit_input]. *)
Definition enqueue (self : t) : result Z AdmissionError.t * t :=
  if negb (is_open self) then (Err (AdmissionError.Closing (closing_reason_of self)), self)
  else if limits.(HostLimits.waiting_admissions) <=? len self.(queue) then (Err AdmissionError.QueueFull, self)
  else
    let id := self.(next_waiter) in
    (Ok id, self <| next_waiter := wrapping_add_u64 id 1 |> <| queue := self.(queue) ++ [HWaiter.mk id None] |>).

(** [admit_input]: the single-admission claim of the context, its charge, the queue.
    A refusal drops the guard, which gives the charge back and frees the claim. *)
Definition admit_input (claim : option Z) (amount : Z) (self : t) : result Z AdmissionError.t * option Z * t :=
  match take_claim claim with
  | (Err e, claim) => (Err e, claim, self)
  | (Ok held, claim) =>
      let free claim := if held then option_map Claim.drop_hold claim else claim in
      match charge amount self with
      | (Err e, self) => (Err e, free claim, self)
      | (Ok _, self) =>
          match enqueue self with
          | (Err e, self) => (Err e, free claim, drop_charge amount self)
          | (Ok id, self) => (Ok id, claim, self)
          end
      end
  end.

Definition remove_waiter (id : Z) (self : t) : t :=
  self <| queue := keep (fun w => negb (w.(HWaiter.id) =? id)) self.(queue) |>.
Fixpoint set_waiter_waker (id waker : Z) (l : list HWaiter.t) : list HWaiter.t :=
  match l with
  | [] => []
  | w :: l => if w.(HWaiter.id) =? id then w <| HWaiter.waker := Some waker |> :: l else w :: set_waiter_waker id waker l
  end.
(** [front_mut().and_then(|waiter| waiter.waker.take())] *)
Definition wake_front (self : t) : option Z * t :=
  match self.(queue) with
  | w :: rest => (w.(HWaiter.waker), self <| queue := w <| HWaiter.waker := None |> :: rest |>)
  | [] => (None, self)
  end.

Definition take_slot (id waker : Z) (self : t) : HSlot.t * t :=
  if negb (is_open self) then (HSlot.Closing (closing_reason_of self), remove_waiter id self)
  else if is_some_and (hd_error self.(queue)) (fun w => w.(HWaiter.id) =? id)
          && (self.(active) <? limits.(HostLimits.active_slots)) then
    match checked_add_u64 self.(next_binding) 1 with
    | None => (HSlot.Exhausted, self <| queue := tl self.(queue) |>)
    | Some next =>
        let serial := self.(next_binding) in
        let claim := self.(next_claim) in
        (HSlot.Granted claim serial,
         self <| queue := tl self.(queue) |> <| next_binding := next |> <| active := usize_add self.(active) 1 |>
              <| next_claim := wrapping_add_u64 claim 1 |> <| claims := <[claim := HClaim.new]> self.(claims) |>)
    end
  else (HSlot.Wait, self <| queue := set_waiter_waker id waker self.(queue) |>).

Definition dequeue (id : Z) (self : t) : option Z * t := wake_front (remove_waiter id self).

Definition give_back (claim : option HClaim.t) (self : t) : t :=
  match claim with
  | Some c => if negb c.(HClaim.released) then self <| active := usize_sub self.(active) 1 |> else self
  | None => self
  end.
Definition drop_claim (claim : Z) (self : t) : option Z * t :=
  let c := self.(claims) !! claim in
  wake_front (give_back c (self <| claims := delete claim self.(claims) |>)).

(** The object of a binding comes into being with its permit. *)
Definition prepare (serial : Z) (operation : string) (pair : MuxPair.t) (self : t) : t :=
  self <| shared := <[serial := BindingShared.new namespace serial operation pair]> self.(shared) |>.

Definition publish (claim serial : Z) (self : t) : result unit TerminalReason.t * option Z * t :=
  let c := self.(claims) !! claim in
  let self := self <| claims := delete claim self.(claims) |> in
  let revoked :=
    match and_then c HClaim.revoked with
    | Some r => Some r
    | None => if is_open self then None else Some (closing_reason_of self)
    end in
  match c, revoked with
  | Some _, None => (Ok tt, None, self <| bindings := {[serial]} ∪ self.(bindings) |>)
  | _, _ =>
      let self := give_back c self in
      let '(waker, self) := wake_front self in
      (Err (unwrap_or revoked TerminalReason.HostFault), waker, self)
  end.

(** ** The end of a binding *)

Definition on_shared (serial : Z) (f : BindingShared.t -> BindingShared.t) (self : t) : t :=
  self <| shared := alter f serial self.(shared) |>.

(** The guards of [retire_if_done] and its atomic swap. *)
Definition retire_begin (serial : Z) (self : t) : bool * t :=
  match self.(shared) !! serial with
  | Some b =>
      if negb b.(BindingShared.sealed) || negb (b.(BindingShared.live) =? 0) || b.(BindingShared.retired)
      then (false, self)
      else (true, on_shared serial (fun b => b <| BindingShared.retired := true |>) self)
  | None => (false, self)
  end.
(** Its critical section. *)
Definition retire_end (serial : Z) (self : t) : option Z * t :=
  let self := if bool_decide (serial ∈ self.(bindings))
              then self <| bindings := self.(bindings) ∖ {[serial]} |> <| active := usize_sub self.(active) 1 |>
              else self in
  wake_front self.
(** [done.set]: the first value stays.  [cleanup] is what its record of disposals says. *)
Definition report_done (serial : Z) (cleanup : CleanupStatus.t) (self : t) : t :=
  on_shared serial (fun b =>
    if is_some b.(BindingShared.done) then b
    else b <| BindingShared.done := Some (OperationEnd.mk (Registration.Registered b.(BindingShared.id)) cleanup
                b.(BindingShared.opened) b.(BindingShared.cancelled) None) |>) self.
Definition retire_if_done (serial : Z) (cleanup : CleanupStatus.t) (self : t) : option Z * t :=
  let '(done, self) := retire_begin serial self in
  if done then
    let '(waker, self) := retire_end serial self in
    (waker, report_done serial cleanup self)
  else (None, self).

(** ** The operation (exchange.rs) *)

Definition live_drop (serial : Z) (cleanup : CleanupStatus.t) (self : t) : option Z * t :=
  retire_if_done serial cleanup
    (on_shared serial (fun b => b <| BindingShared.live := as_u64 (b.(BindingShared.live) - 1) |>) self).
Definition finish (serial : Z) (cleanup : CleanupStatus.t) (self : t) : option Z * t :=
  retire_if_done serial cleanup (on_shared serial (fun b => b <| BindingShared.sealed := true |>) self).
(** [cancel_binding] on the record; the instance's part is the instance's. *)
Definition cancel_flag (serial : Z) (self : t) : bool * t :=
  match self.(shared) !! serial with
  | Some b => (negb b.(BindingShared.cancelled), on_shared serial (fun b => b <| BindingShared.cancelled := true |>) self)
  | None => (false, self)
  end.
Definition abandon (serial : Z) (cleanup : CleanupStatus.t) (self : t) : option Z * t :=
  let '(_, self) := cancel_flag serial self in finish serial cleanup self.
Definition cancel (serial : Z) (self : t) : CancelState.t * t :=
  match self.(shared) !! serial with
  | Some b =>
      if b.(BindingShared.retired) then (CancelState.Gone, self)
      else
        let '(first, self) := cancel_flag serial self in
        (if first then CancelState.Cancelled else CancelState.AlreadyCancelled, self)
  | None => (CancelState.Gone, self)
  end.

(** [Operation::open] of a local operation: the request's name, or why there is none. *)
Definition open (serial : Z) (self : t) : result string OpenError.t * t :=
  match self.(shared) !! serial with
  | None => (Err (OpenError.Terminal TerminalReason.HostFault Effect.None), self)
  | Some b =>
      if b.(BindingShared.cancelled) then (Err OpenError.Cancelled, self)
      else if b.(BindingShared.sealed) then (Err OpenError.Sealed, self)
      else
        let number := b.(BindingShared.next_exchange) in
        let request := ("x" ++ str_of (Text.dec serial) ++ "-" ++ str_of (Text.dec number))%string in
        let '(registered, halves) := MuxPair.register request b.(BindingShared.operation) b.(BindingShared.pair) in
        let b := b <| BindingShared.next_exchange := wrapping_add_u64 number 1 |> <| BindingShared.pair := halves |> in
        match registered with
        | Ok _ =>
            (Ok request,
             self <| shared := <[serial := b <| BindingShared.opened := wrapping_add_u64 b.(BindingShared.opened) 1 |>
                                             <| BindingShared.live := wrapping_add_u64 b.(BindingShared.live) 1 |>]>
                               self.(shared) |>)
        | Err e =>
            (Err (match e with
                  | Fault.Limit => OpenError.BindingLimit
                  | Fault.Protocol => OpenError.Terminal TerminalReason.HostFault Effect.None
                  end),
             self <| shared := <[serial := b]> self.(shared) |>)
        end
  end.

(** Why an opening of a binding is refused before it asks its instance. *)
Definition refused (b : BindingShared.t) : option OpenFailure.t :=
  match closing_reason b.(BindingShared.closing) with
  | Some reason => Some (OpenFailure.Closing reason)
  | None =>
      if b.(BindingShared.cancelled) then Some OpenFailure.Cancelled
      else if b.(BindingShared.sealed) then Some OpenFailure.Sealed
      else None
  end.

(** ** Routing *)

Definition route (carrier : Z) (binding : BindingId.t) (direction : Direction.t) (item : Attachment) (self : t)
    : Routed.t * t :=
  if negb (carrier =? namespace) then (Routed.Discarded Discard.ForeignCarrier, self)
  else if negb (binding.(BindingId.host) =? namespace) then (Routed.Discarded Discard.ForeignHost, self)
  else
    let serial := binding.(BindingId.serial) in
    match (if bool_decide (serial ∈ self.(bindings)) then self.(shared) !! serial else None) with
    | None => (Routed.Discarded Discard.Retired, self)
    | Some b =>
        if negb (b.(BindingShared.carrier) =? carrier) then (Routed.Discarded Discard.ForeignCarrier, self)
        else if negb (bool_decide (item.2.(Envelope.session_id) = b.(BindingShared.session)))
        then (Routed.Discarded Discard.WrongSession, self)
        else
          let '(delivered, halves) := MuxPair.deliver unstable_sequenced direction item b.(BindingShared.pair) in
          let self := self <| shared := <[serial := b <| BindingShared.pair := halves |>]> self.(shared) |> in
          match delivered with
          | Ok _ => (Routed.Delivered, self)
          | Err _ => (Routed.Discarded Discard.Rejected, (cancel_flag serial self).2)
          end
    end.

(** ** The seal *)

(** The critical section of [seal]: the instances it took and the wakers to wake, or
    nothing when the host was sealed already. *)
Definition seal (reason : TerminalReason.t) (self : t) : option (list HInstance.t * list Z) * t :=
  match self.(close) with
  | Some _ => (None, self)
  | None =>
      let held := len (keep (fun c => negb c.(HClaim.released)) (values self.(claims))) in
      let mark b := b <| BindingShared.closing := closing_code reason |> <| BindingShared.cancelled := true |> in
      (Some (self.(instances), omap HWaiter.waker self.(queue)),
       self <| phase := HostPhase.Closing |> <| closing := Some reason |> <| close := Some None |>
            <| claims := HClaim.revoke reason <$> self.(claims) |>
            <| active := usize_sub self.(active) held |>
            <| shared := map_imap (fun serial b => Some (if bool_decide (serial ∈ self.(bindings)) then mark b else b))
                           self.(shared) |>
            <| queue := [] |> <| instances := [] |>)
  end.
Definition close_finish (status : CleanupStatus.t) (self : t) : t :=
  self <| phase := HostPhase.Closed |>
       <| close := option_map (fun v => match v with Some s => Some s | None => Some status end) self.(close) |>.

(** ** The instance registry *)

Definition find_profile (profile : EndpointProfile.t) (self : t) : option HInstance.t :=
  List.find (fun i => EndpointProfile.same_as i.(HInstance.profile) profile) self.(instances).

(** [state.hold]: attaches, stamped with the next use. *)
Definition hold (serial : Z) (self : t) : t :=
  let used := wrapping_add_u64 self.(next_use) 1 in
  self <| next_use := used |>
       <| instances := map (fun i => if i.(HInstance.serial) =? serial
                                     then i <| HInstance.holds := wrapping_add_u64 i.(HInstance.holds) 1 |>
                                            <| HInstance.last_used := used |>
                                     else i) self.(instances) |>.
(** [InstanceHold::drop] *)
Definition drop_hold (serial : Z) (self : t) : t :=
  self <| instances := map (fun i => if i.(HInstance.serial) =? serial
                                     then i <| HInstance.holds := as_u64 (i.(HInstance.holds) - 1) |> else i)
                         self.(instances) |>.

(** [min_by_key]: the first of the least recently used. *)
Fixpoint least_used (best : option HInstance.t) (l : list HInstance.t) : option HInstance.t :=
  match l with
  | [] => best
  | i :: l =>
      least_used (match best with
                  | Some b => if i.(HInstance.last_used) <? b.(HInstance.last_used) then Some i else Some b
                  | None => Some i
                  end) l
  end.
(** [idle]: the instance itself has its adapter, no opening and no lease. *)
Definition take_least_recently_used_unbound (idle : Z -> bool) (self : t) : option HInstance.t * t :=
  match least_used None (keep (fun i => (i.(HInstance.holds) =? 0) && idle i.(HInstance.serial)) self.(instances)) with
  | None => (None, self)
  | Some i =>
      (Some i, self <| instances := keep (fun x => negb (x.(HInstance.serial) =? i.(HInstance.serial))) self.(instances) |>)
  end.

(** The first critical section of [attach_profile]. *)
Definition attach_begin (profile : EndpointProfile.t) (idle : Z -> bool) (self : t) : result Attach.t AttachError.t * t :=
  if negb (is_open self) then (Err AttachError.Closing, self)
  else
    match find_profile profile self with
    | Some i => (Ok (Attach.Found i.(HInstance.serial)), hold i.(HInstance.serial) self)
    | None =>
        if limits.(HostLimits.endpoint_instances) <=? usize_add (len self.(instances)) self.(creating) then
          match take_least_recently_used_unbound idle self with
          | (None, self) => (Err AttachError.InstanceLimit, self)
          | (Some i, self) =>
              (Ok (Attach.Reserved (Some i.(HInstance.serial))), self <| creating := usize_add self.(creating) 1 |>)
          end
        else (Ok (Attach.Reserved None), self <| creating := usize_add self.(creating) 1 |>)
    end.
(** The retired instance could not be disposed of. *)
Definition attach_undo (self : t) : t := self <| creating := usize_sub self.(creating) 1 |>.
(** The second critical section: [made] is whether the factory made an instance, and
    [fresh] the identity of the one it made.  The answer says whether that one was taken. *)
Definition attach_end (profile : EndpointProfile.t) (made : bool) (fresh : Z) (self : t)
    : result (Z * bool) AttachError.t * t :=
  let self := attach_undo self in
  if negb made then (Err AttachError.Factory, self)
  else if is_open self then
    match find_profile profile self with
    | Some i => (Ok (i.(HInstance.serial), false), hold i.(HInstance.serial) self)
    | None =>
        (Ok (fresh, true), hold fresh (self <| instances := self.(instances) ++ [HInstance.mk fresh profile 0 0] |>))
    end
  else (Err AttachError.Closing, self).

(** [attach_profile] by itself: [disposed] is whether a retired instance could be
    disposed of, and [running] whether the executor took the host's driver (a refusal
    drops the hold and has sealed the host). *)
Definition attach_profile (profile : EndpointProfile.t) (idle : Z -> bool) (disposed made running : bool) (fresh : Z)
    (self : t) : result Z AttachError.t * t :=
  match attach_begin profile idle self with
  | (Err e, self) => (Err e, self)
  | (Ok (Attach.Found serial), self) => (Ok serial, self)
  | (Ok (Attach.Reserved retired), self) =>
      if is_some retired && negb disposed
      then (Err AttachError.Closing, attach_undo (seal TerminalReason.HostFault self).2)
      else
        match attach_end profile made fresh self with
        | (Err e, self) => (Err e, self)
        | (Ok (serial, taken), self) =>
            if taken && negb running
            then (Err AttachError.Closing, drop_hold serial (seal TerminalReason.HostFault self).2)
            else (Ok serial, self)
        end
  end.

(** ** An admission's acquisition and its permit (admission.rs) *)

(** The admission record gives its input and its charge back. *)
Definition end_admission (adm : LocalAdmission.t) (self : t) : LocalAdmission.t * t :=
  (LocalAdmission.mk adm.(LocalAdmission.id) None None false,
   match adm.(LocalAdmission.charge) with Some amount => drop_charge amount self | None => self end).

(** What follows a grant: the instance, the two multiplexers, the permit. *)
Definition after_grant (claim serial : Z) (input : PreparedOperation.t) (amount : Z)
    (idle : Z -> bool) (disposed made running : bool) (fresh : Z) (self : t)
    : result LocalPermit.t AdmissionError.t * t :=
  let refuse e self := (Err e, drop_charge amount (drop_claim claim self).2) in
  match attach_profile input.(PreparedOperation.profile) idle disposed made running fresh self with
  | (Err e, self) =>
      refuse (match e with
               | AttachError.Closing => AdmissionError.Closing (closing_reason_of self)
               | AttachError.InstanceLimit => AdmissionError.InstanceLimit
               | AttachError.Factory => AdmissionError.UnavailableAdapter
               end) self
  | (Ok instance, self) =>
      let request := ("b" ++ str_of (Text.dec serial))%string in
      match MuxPair.bootstrapped unstable_sequenced (BindingId.mk namespace serial) input.(PreparedOperation.route)
              limits.(HostLimits.binding_registrations) request input.(PreparedOperation.operation) with
      | Err _ =>
          let '(r, self) := refuse (AdmissionError.Closing TerminalReason.HostFault) self in
          (r, drop_hold instance self)
      | Ok halves =>
          (Ok (LocalPermit.mk claim serial amount instance),
           prepare serial input.(PreparedOperation.operation) halves self)
      end
  end.

(** [LocalAcquire::poll]: nothing while it waits. *)
Definition poll_acquire (adm : LocalAdmission.t) (waker : Z) (timed_out : bool)
    (idle : Z -> bool) (disposed made running : bool) (fresh : Z) (self : t)
    : option (result LocalPermit.t AdmissionError.t) * LocalAdmission.t * t :=
  match take_slot adm.(LocalAdmission.id) waker self with
  | (HSlot.Closing reason, self) =>
      let '(adm, self) := end_admission adm self in (Some (Err (AdmissionError.Closing reason)), adm, self)
  | (HSlot.Exhausted, self) =>
      let '(adm, self) := end_admission adm self in (Some (Err AdmissionError.IdentifierExhausted), adm, self)
  | (HSlot.Wait, self) =>
      if timed_out then
        let '(_, self) := dequeue adm.(LocalAdmission.id) self in
        let '(adm, self) := end_admission adm self in
        (Some (Err AdmissionError.AdmissionTimeout), adm, self)
      else (None, adm, self)
  | (HSlot.Granted claim serial, self) =>
      let taken := LocalAdmission.mk adm.(LocalAdmission.id) None None false in
      match adm.(LocalAdmission.input), adm.(LocalAdmission.charge) with
      | Some input, Some amount =>
          let '(r, self) := after_grant claim serial input amount idle disposed made running fresh self in
          (Some r, taken, self)
      | _, charge =>
          let '(_, self) := drop_claim claim self in
          (Some (Err (AdmissionError.Closing TerminalReason.HostFault)), taken,
           match charge with Some amount => drop_charge amount self | None => self end)
      end
  end.

(** [LocalAdmission::drop] *)
Definition drop_admission (adm : LocalAdmission.t) (self : t) : option Z * t :=
  let '(waker, self) := if adm.(LocalAdmission.queued) then dequeue adm.(LocalAdmission.id) self else (None, self) in
  (waker, match adm.(LocalAdmission.charge) with Some amount => drop_charge amount self | None => self end).

(** [LocalPermit::register], with the single-admission claim of the context.  A binding
    that is not published is dropped: its charge and its hold go back. *)
Definition register (context : option Z) (permit : LocalPermit.t) (self : t)
    : result Z TerminalReason.t * option Z * t :=
  match publish permit.(LocalPermit.claim) permit.(LocalPermit.serial) self with
  | (Ok _, _, self) => (Ok permit.(LocalPermit.serial), option_map Claim.consume context, self)
  | (Err reason, _, self) =>
      (Err reason, option_map Claim.drop_hold context,
       drop_hold permit.(LocalPermit.instance) (drop_charge permit.(LocalPermit.charge) self))
  end.
(** [LocalPermit::drop] *)
Definition drop_permit (context : option Z) (permit : LocalPermit.t) (self : t) : option Z * option Z * t :=
  let '(waker, self) := drop_claim permit.(LocalPermit.claim) self in
  (waker, option_map Claim.drop_hold context,
   drop_hold permit.(LocalPermit.instance) (drop_charge permit.(LocalPermit.charge) self)).
End host.
End Host.
