(* ===== verification/HostRun.v ===== *)
(** * Runs of a connection host

    A [hworld] is the host with what is out of it: the admissions that hold a record,
    the permits with their claim and serial, the operations that can still open, their
    live exchanges, the bindings between the two halves of their end, the attachments
    between their two halves and the instance holds.  [hstep] is one critical section
    or atomic step of the code, so a run is any interleaving of any threads' calls.  A
    64-bit counter that has come to its end is outside the relation. *)
From S2P Require Import Prelude Utf8 Text TextFacts Cbor Protocol Budget Admission Policy Validate Codec Binding BindingFacts Counting Mux PoolTypes Operation ConnBinding Host.

Record hworld := HW {
  host : Host.t;
  waits : gset Z;
  permits : gmap Z Z;
  operating : gset Z;
  lives : list Z;
  retiring : gset Z;
  reporting : gset Z;
  makings : Z;
  holdings : list Z;
  made : gset Z;
  (** The slots granted so far: the waiter and the serial it got. *)
  grants : list (Z * Z);
}.
#[global] Instance hworld_eta : Eta hworld :=
  fun r => HW (r.(host)) (r.(waits)) (r.(permits)) (r.(operating)) (r.(lives)) (r.(retiring)) (r.(reporting))
    (r.(makings)) (r.(holdings)) (r.(made)) (r.(grants)).

(** A 64-bit counter that can count once more. *)
Definition more (n : Z) : Prop := 0 <= n < U64_MAX.

(** One occurrence less. *)
Fixpoint take_one (x : Z) (l : list Z) : list Z :=
  match l with
  | [] => []
  | y :: l => if y =? x then l else y :: take_one x l
  end.
Definition count (x : Z) (l : list Z) : Z := len (keep (Z.eqb x) l).

Section run.
Context {L : Layout}.
Variable unstable_sequenced : bool.
Variable namespace : Z.
Variable limits : HostLimits.t.

Definition taken (id waker : Z) (w : hworld) : hworld :=
  match Host.take_slot limits id waker w.(host) with
  | (HSlot.Granted c s, h) =>
      w <| host := h |> <| waits := w.(waits) ∖ {[id]} |> <| permits := <[c := s]> w.(permits) |>
        <| grants := w.(grants) ++ [(id, s)] |>
  | (HSlot.Wait, h) => w <| host := h |>
  | (_, h) => w <| host := h |> <| waits := w.(waits) ∖ {[id]} |>
  end.
Definition publishing (c s : Z) (w : hworld) : hworld :=
  let '(r, _, h) := Host.publish c s w.(host) in
  w <| host := h |> <| permits := delete c w.(permits) |>
    <| operating := if is_ok r then {[s]} ∪ w.(operating) else w.(operating) |>.
Definition opening (s : Z) (w : hworld) : hworld :=
  let '(r, h) := Host.open s w.(host) in
  w <| host := h |> <| lives := if is_ok r then s :: w.(lives) else w.(lives) |>.
Definition retire_starts (s : Z) (w : hworld) : hworld :=
  let '(first, h) := Host.retire_begin s w.(host) in
  w <| host := h |> <| retiring := if first then {[s]} ∪ w.(retiring) else w.(retiring) |>.
Definition attach_starts (profile : EndpointProfile.t) (idle : Z -> bool) (w : hworld) : hworld :=
  let '(r, h) := Host.attach_begin limits profile idle w.(host) in
  match r with
  | Ok (Attach.Found i) => w <| host := h |> <| holdings := i :: w.(holdings) |>
  | Ok (Attach.Reserved _) => w <| host := h |> <| makings := w.(makings) + 1 |>
  | Err _ => w <| host := h |>
  end.
Definition attach_ends (profile : EndpointProfile.t) (ok : bool) (fresh : Z) (w : hworld) : hworld :=
  let '(r, h) := Host.attach_end profile ok fresh w.(host) in
  w <| host := h |> <| makings := w.(makings) - 1 |> <| made := {[fresh]} ∪ w.(made) |>
    <| holdings := match r with Ok (i, _) => i :: w.(holdings) | Err _ => w.(holdings) end |>.

(** Why a host is sealed: by its owner, by its domain or by a fault. *)
Definition local_reason (r : TerminalReason.t) : bool :=
  match r with TerminalReason.HostClosing | TerminalReason.DomainClosing | TerminalReason.HostFault => true | _ => false end.

Inductive hstep (w : hworld) : hworld -> Prop :=
| Enqueues id h : more w.(host).(Host.next_waiter) -> Host.enqueue limits w.(host) = (Ok id, h) ->
    hstep w (w <| host := h |> <| waits := {[id]} ∪ w.(waits) |>)
| Takes id waker : id ∈ w.(waits) -> more w.(host).(Host.next_claim) -> hstep w (taken id waker w)
| Leaves id : id ∈ w.(waits) ->
    hstep w (w <| host := (Host.dequeue id w.(host)).2 |> <| waits := w.(waits) ∖ {[id]} |>)
| Prepares c s operation halves : w.(permits) !! c = Some s -> w.(host).(Host.shared) !! s = None ->
    hstep w (w <| host := Host.prepare namespace s operation halves w.(host) |>)
| DropsPermit c s : w.(permits) !! c = Some s ->
    hstep w (w <| host := (Host.drop_claim c w.(host)).2 |> <| permits := delete c w.(permits) |>)
| Publishes c s b : w.(permits) !! c = Some s -> w.(host).(Host.shared) !! s = Some b -> hstep w (publishing c s w)
| OpensExchange s : s ∈ w.(operating) ->
    (forall b, w.(host).(Host.shared) !! s = Some b -> more b.(BindingShared.live)) -> hstep w (opening s w)
| LiveDrops s : s ∈ w.(lives) ->
    hstep w (w <| host := Host.on_shared s (fun b => b <| BindingShared.live := as_u64 (b.(BindingShared.live) - 1) |>) w.(host) |>
               <| lives := take_one s w.(lives) |>)
| Seals s : s ∈ w.(operating) ->
    hstep w (w <| host := Host.on_shared s (fun b => b <| BindingShared.sealed := true |>) w.(host) |>
               <| operating := w.(operating) ∖ {[s]} |>)
| RetireStarts s : is_Some (w.(host).(Host.shared) !! s) -> hstep w (retire_starts s w)
| RetireEnds s : s ∈ w.(retiring) ->
    hstep w (w <| host := (Host.retire_end s w.(host)).2 |> <| retiring := w.(retiring) ∖ {[s]} |>
               <| reporting := {[s]} ∪ w.(reporting) |>)
| Reports s cleanup : s ∈ w.(reporting) ->
    hstep w (w <| host := Host.report_done s cleanup w.(host) |> <| reporting := w.(reporting) ∖ {[s]} |>)
| CancelsOp s : hstep w (w <| host := (Host.cancel_flag s w.(host)).2 |>)
| Routes carrier binding direction item :
    hstep w (w <| host := (Host.route unstable_sequenced namespace carrier binding direction item w.(host)).2 |>)
| SealsHost reason : local_reason reason = true -> hstep w (w <| host := (Host.seal reason w.(host)).2 |>)
| FinishesClose status : is_Some w.(host).(Host.close) -> hstep w (w <| host := Host.close_finish status w.(host) |>)
| AttachStarts profile idle : more w.(host).(Host.next_use) -> w.(makings) < U64_MAX -> len w.(holdings) < U64_MAX ->
    hstep w (attach_starts profile idle w)
| AttachUndone : 0 < w.(makings) ->
    hstep w (w <| host := Host.attach_undo w.(host) |> <| makings := w.(makings) - 1 |>)
| AttachEnds profile ok fresh : 0 < w.(makings) -> fresh ∉ w.(made) -> more w.(host).(Host.next_use) ->
    len w.(holdings) < U64_MAX -> hstep w (attach_ends profile ok fresh w)
| HoldDrops serial : serial ∈ w.(holdings) ->
    hstep w (w <| host := Host.drop_hold serial w.(host) |> <| holdings := take_one serial w.(holdings) |>).

Inductive hsteps : hworld -> hworld -> Prop :=
| hsteps_refl w : hsteps w w
| hsteps_next a b c : hsteps a b -> hstep b c -> hsteps a c.

Definition hstart : hworld := HW Host.new ∅ ∅ ∅ [] ∅ ∅ 0 [] ∅ [].
Definition hreachable (w : hworld) : Prop := hsteps hstart w.

Lemma hreachable_ind (P : hworld -> Prop) :
  P hstart -> (forall a b, hreachable a -> P a -> hstep a b -> P b) -> forall w, hreachable w -> P w.
Proof.
  intros H0 HS w Hr. unfold hreachable in Hr. remember hstart as z eqn:Ez.
  induction Hr as [w'|a b c Hab IH Hbc]; subst; [done|]. by apply (HS b c); [| apply IH|].
Qed.

(** ** The account of slots *)

Definition held (claims : gmap Z HClaim.t) : Z := count_values (fun c => negb c.(HClaim.released)) claims.

Record slots_ok (w : hworld) : Prop := {
  so_active : w.(host).(Host.active) = held w.(host).(Host.claims) + Z.of_nat (size w.(host).(Host.bindings));
  so_limit : w.(host).(Host.active) <= limits.(HostLimits.active_slots);
  so_claims : forall c, is_Some (w.(host).(Host.claims) !! c) <-> is_Some (w.(permits) !! c);
  so_next : forall c, is_Some (w.(permits) !! c) -> c < w.(host).(Host.next_claim);
  so_serials : forall c s, w.(permits) !! c = Some s -> 0 < s < w.(host).(Host.next_binding) /\ s ∉ w.(host).(Host.bindings);
  so_once : forall c c' s, w.(permits) !! c = Some s -> w.(permits) !! c' = Some s -> c = c';
  so_table : 0 < w.(host).(Host.next_binding) /\ forall s, s ∈ w.(host).(Host.bindings) -> 0 < s < w.(host).(Host.next_binding);
  so_open : w.(host).(Host.close) = None ->
    w.(host).(Host.phase) = HostPhase.Open /\ forall c x, w.(host).(Host.claims) !! c = Some x -> x = HClaim.new;
  so_sealed : is_Some w.(host).(Host.close) ->
    w.(host).(Host.phase) <> HostPhase.Open /\ w.(host).(Host.queue) = []
    /\ exists r, w.(host).(Host.closing) = Some r
         /\ (forall c x, w.(host).(Host.claims) !! c = Some x -> x = HClaim.mk (Some r) true)
         /\ forall s b, s ∈ w.(host).(Host.bindings) -> w.(host).(Host.shared) !! s = Some b ->
              b.(BindingShared.cancelled) = true /\ b.(BindingShared.closing) = closing_code r;
  so_local : forall r, w.(host).(Host.closing) = Some r -> local_reason r = true;
}.

(** What leaves the account of slots alone: the tables stay, the marks a seal put on a
    binding stay, and a sealed host stays sealed. *)
Record quiet (a b : Host.t) : Prop := {
  qu_active : b.(Host.active) = a.(Host.active);
  qu_claims : b.(Host.claims) = a.(Host.claims);
  qu_next : b.(Host.next_claim) = a.(Host.next_claim);
  qu_binding : b.(Host.next_binding) = a.(Host.next_binding);
  qu_bindings : b.(Host.bindings) = a.(Host.bindings);
  qu_closing : b.(Host.closing) = a.(Host.closing);
  qu_close : is_Some b.(Host.close) <-> is_Some a.(Host.close);
  qu_open : b.(Host.close) = None -> b.(Host.phase) = a.(Host.phase);
  qu_phase : is_Some a.(Host.close) -> a.(Host.phase) <> HostPhase.Open -> b.(Host.phase) <> HostPhase.Open;
  qu_queue : a.(Host.phase) <> HostPhase.Open -> a.(Host.queue) = [] -> b.(Host.queue) = [];
  qu_marks : forall s x, s ∈ a.(Host.bindings) -> b.(Host.shared) !! s = Some x ->
    exists y, a.(Host.shared) !! s = Some y /\ x.(BindingShared.closing) = y.(BindingShared.closing)
      /\ (y.(BindingShared.cancelled) = true -> x.(BindingShared.cancelled) = true);
}.

Lemma slots_quiet w w' : quiet w.(host) w'.(host) -> w'.(permits) = w.(permits) -> slots_ok w -> slots_ok w'.
Proof.
  intros [] Hp []. split; rewrite ?Hp, ?qu_active0, ?qu_claims0, ?qu_next0, ?qu_binding0, ?qu_bindings0, ?qu_closing0; try done.
  - intros Hc. rewrite qu_open0 by done. apply so_open0. destruct (Host.close (host w)); [|done].
    assert (is_Some (Host.close (host w'))) as [? ?] by (apply qu_close0; eauto). congruence.
  - intros Hc. assert (Ha : is_Some (Host.close (host w))) by by apply qu_close0.
    destruct (so_sealed0 Ha) as (Hph & Hq & r & Hr & Hcl & Hb). split_and!; [by apply qu_phase0|by apply qu_queue0|].
    exists r. split_and!; [done|done|]. intros s x Hs Hx. destruct (qu_marks0 s x Hs Hx) as (y & Hy & E1 & E2).
    destruct (Hb s y Hs Hy) as [E3 E4]. split; [by apply E2|congruence].
Qed.

Ltac quiet_same := split; cbn; try done; try (intros s x _ Hx; by exists x).

Lemma quiet_host_refl h : quiet h h.
Proof. quiet_same. Qed.

Lemma quiet_trans a b c : quiet a b -> quiet b c -> quiet a c.
Proof.
  intros [] []. split; try congruence.
  - by rewrite qu_close1.
  - intros Hc. rewrite qu_open1 by done. apply qu_open0. destruct (Host.close b); [|done].
    assert (is_Some (Host.close c)) as [? ?] by (apply qu_close1; eauto). congruence.
  - intros Ha Hp. apply qu_phase1; [by apply qu_close0|by apply qu_phase0].
  - intros Hp Hq. destruct (decide (b.(Host.phase) = HostPhase.Open)) as [E|E]; [|by apply qu_queue1; [|apply qu_queue0]].
    exfalso. destruct (Host.close b) eqn:Eb.
    + assert (is_Some (Host.close a)) by (apply qu_close0; eauto). by apply qu_phase0.
    + apply Hp. rewrite <- E. symmetry. by apply qu_open0.
  - intros s x Hs Hx. rewrite <- qu_bindings0 in Hs. destruct (qu_marks1 s x Hs Hx) as (y & Hy & E1 & E2).
    rewrite qu_bindings0 in Hs. destruct (qu_marks0 s y Hs Hy) as (z & Hz & E3 & E4). exists z. split_and!; [done|congruence|auto].
Qed.

(** A change of a binding's object that keeps the marks of a seal. *)
Definition keeps_marks (f : BindingShared.t -> BindingShared.t) : Prop :=
  forall b, (f b).(BindingShared.closing) = b.(BindingShared.closing)
    /\ (b.(BindingShared.cancelled) = true -> (f b).(BindingShared.cancelled) = true).

Lemma quiet_on_shared s f h : keeps_marks f -> quiet h (Host.on_shared s f h).
Proof.
  intros Hf. split; cbn; try done. intros k x _ Hx. rewrite lookup_alter_Some in Hx.
  destruct Hx as [(-> & y & Hy & ->)|[_ Hx]]; [|by exists x]. exists y. destruct (Hf y). done.
Qed.

Lemma quiet_put s b b' h : h.(Host.shared) !! s = Some b -> b'.(BindingShared.closing) = b.(BindingShared.closing) ->
  (b.(BindingShared.cancelled) = true -> b'.(BindingShared.cancelled) = true) ->
  quiet h (h <| Host.shared := <[s := b']> h.(Host.shared) |>).
Proof.
  intros Hb E1 E2. split; cbn; try done. intros k x _ Hx. rewrite lookup_insert_Some in Hx.
  destruct Hx as [[-> <-]|[_ Hx]]; [by exists b|by exists x].
Qed.

Lemma quiet_wake_front h : quiet h (Host.wake_front h).2.
Proof.
  unfold Host.wake_front. destruct (Host.queue h) as [|q l] eqn:E; [apply quiet_host_refl|]. cbn [snd]. split; cbn; try done.
  - intros _ E'. by rewrite E in E'.
  - intros s x _ Hx. by exists x.
Qed.

Lemma quiet_remove_waiter id h : quiet h (Host.remove_waiter id h).
Proof. unfold Host.remove_waiter. quiet_same. all: by intros _ ->. Qed.

Lemma quiet_dequeue id h : quiet h (Host.dequeue id h).2.
Proof. eapply quiet_trans; [apply quiet_remove_waiter|apply quiet_wake_front]. Qed.

Lemma quiet_cancel_flag s h : quiet h (Host.cancel_flag s h).2.
Proof.
  unfold Host.cancel_flag. destruct (_ !! s); [|apply quiet_host_refl]. by apply quiet_on_shared.
Qed.

Lemma quiet_open s h : quiet h (Host.open s h).2.
Proof.
  unfold Host.open. destruct (_ !! s) as [b|] eqn:E; [|apply quiet_host_refl].
  destruct (BindingShared.cancelled b); [apply quiet_host_refl|]. destruct (BindingShared.sealed b); [apply quiet_host_refl|].
  destruct (MuxPair.register _ _ _) as [[[]|e] p]; cbn [snd]; by apply (quiet_put s b).
Qed.

Lemma quiet_retire_begin s h : quiet h (Host.retire_begin s h).2.
Proof.
  unfold Host.retire_begin. destruct (_ !! s) as [b|]; [|apply quiet_host_refl].
  destruct (_ || _ || _); [apply quiet_host_refl|]. by apply quiet_on_shared.
Qed.

Lemma quiet_report_done s cleanup h : quiet h (Host.report_done s cleanup h).
Proof. apply quiet_on_shared. intros b. by destruct (is_some (BindingShared.done b)). Qed.

Lemma quiet_route carrier binding direction item h :
  quiet h (Host.route unstable_sequenced namespace carrier binding direction item h).2.
Proof.
  unfold Host.route. destruct (negb _); [apply quiet_host_refl|]. destruct (negb _); [apply quiet_host_refl|].
  case_bool_decide as Hs; [|apply quiet_host_refl]. destruct (_ !! _) as [b|] eqn:E; [|apply quiet_host_refl].
  destruct (negb _); [apply quiet_host_refl|]. destruct (negb _); [apply quiet_host_refl|].
  destruct (MuxPair.deliver _ _ _ _) as [[[]|e] p]; cbn [snd].
  - by apply (quiet_put _ b).
  - eapply quiet_trans; [|apply quiet_cancel_flag]. by apply (quiet_put _ b).
Qed.

Lemma quiet_prepare s operation halves h : h.(Host.shared) !! s = None -> s ∉ h.(Host.bindings) ->
  quiet h (Host.prepare namespace s operation halves h).
Proof.
  intros Hn Hs. split; cbn; try done. intros k x Hk Hx. rewrite lookup_insert_ne in Hx by (intros ->; done). by exists x.
Qed.

Lemma quiet_close_finish status h : is_Some h.(Host.close) -> quiet h (Host.close_finish status h).
Proof.
  intros [v Hv]. split; cbn; try done; rewrite ?Hv; cbn; try done; try (split; eauto; done). all: intros s x _ Hx; by exists x.
Qed.

Lemma quiet_hold i h : quiet h (Host.hold i h).
Proof. quiet_same. Qed.

Lemma quiet_attach_begin profile idle h : quiet h (Host.attach_begin limits profile idle h).2.
Proof.
  unfold Host.attach_begin. destruct (negb _); [apply quiet_host_refl|]. destruct (Host.find_profile profile h); [apply quiet_hold|].
  destruct (_ <=? _); [|quiet_same]. unfold Host.take_least_recently_used_unbound.
  destruct (Host.least_used _ _); [|apply quiet_host_refl]. quiet_same.
Qed.

Lemma quiet_attach_undo h : quiet h (Host.attach_undo h).
Proof. quiet_same. Qed.

Lemma quiet_attach_end profile ok fresh h : quiet h (Host.attach_end profile ok fresh h).2.
Proof.
  unfold Host.attach_end. destruct (negb _); [apply quiet_attach_undo|]. destruct (Host.is_open _); [|apply quiet_attach_undo].
  destruct (Host.find_profile _ _); eapply quiet_trans; try apply quiet_attach_undo; [apply quiet_hold|].
  eapply quiet_trans; [|apply quiet_hold]. quiet_same.
Qed.

(** ** The steps that change the account *)

Hypothesis slots_fit : 0 <= limits.(HostLimits.active_slots) <= U64_MAX.

Lemma held_slots_nonneg m : 0 <= held m.
Proof. apply count_nonneg. Qed.

Lemma slots_bound w : slots_ok w -> 0 <= w.(host).(Host.active) <= U64_MAX.
Proof. intros []. pose proof (held_slots_nonneg (host w).(Host.claims)). lia. Qed.

Lemma still_open w : slots_ok w -> Host.is_open w.(host) = true -> w.(host).(Host.close) = None.
Proof.
  intros [] Ho. unfold Host.is_open in Ho. apply bool_decide_eq_true in Ho. destruct (Host.close (host w)) eqn:E; [|done].
  by destruct (so_sealed0 ltac:(eauto)) as [? _].
Qed.

Lemma quiet_queue q h : (h.(Host.queue) = [] -> q = []) -> quiet h (h <| Host.queue := q |>).
Proof. intros Hq. quiet_same. all: intros _ E; by apply Hq. Qed.

Lemma slots_granted id w :
  more w.(host).(Host.next_claim) -> w.(host).(Host.close) = None ->
  w.(host).(Host.active) < limits.(HostLimits.active_slots) -> w.(host).(Host.next_binding) + 1 <= U64_MAX ->
  slots_ok w ->
  slots_ok (w <| host := w.(host) <| Host.queue := tl w.(host).(Host.queue) |>
                        <| Host.next_binding := w.(host).(Host.next_binding) + 1 |>
                        <| Host.active := usize_add w.(host).(Host.active) 1 |>
                        <| Host.next_claim := wrapping_add_u64 w.(host).(Host.next_claim) 1 |>
                        <| Host.claims := <[w.(host).(Host.next_claim) := HClaim.new]> w.(host).(Host.claims) |> |>
              <| waits := w.(waits) ∖ {[id]} |>
              <| permits := <[w.(host).(Host.next_claim) := w.(host).(Host.next_binding)]> w.(permits) |>
              <| grants := w.(grants) ++ [(id, w.(host).(Host.next_binding))] |>).
Proof.
  intros Hm Hc Ha El Hok. destruct Hok as [Ha' Hl Hcl Hn Hs Ho Ht Hop Hse Hloc]. destruct Hm as [Hm0 Hm1].
  assert (Hf : (host w).(Host.claims) !! (host w).(Host.next_claim) = None).
  { destruct (_ !! _) eqn:E; [|done]. exfalso.
    assert (Hi : is_Some (permits w !! (host w).(Host.next_claim))) by (apply Hcl; eauto). specialize (Hn _ Hi). lia. }
  assert (Hwn : wrapping_add_u64 (host w).(Host.next_claim) 1 = (host w).(Host.next_claim) + 1) by (apply as_u64_id; lia).
  pose proof (held_slots_nonneg (host w).(Host.claims)).
  split; cbn.
  + unfold usize_add, as_usize. rewrite as_u64_id by lia. unfold held. rewrite count_new by done.
    cbn. fold (held (Host.claims (host w))). lia.
  + unfold usize_add, as_usize. rewrite as_u64_id by lia. lia.
  + intros c. destruct (decide (c = (host w).(Host.next_claim))) as [->|Hne].
    * rewrite !lookup_insert_eq. split; eauto.
    * rewrite !lookup_insert_ne by done. apply Hcl.
  + intros c Hi. rewrite Hwn. destruct (decide (c = (host w).(Host.next_claim))) as [->|Hne]; [lia|].
    rewrite lookup_insert_ne in Hi by done. specialize (Hn _ Hi). lia.
  + intros c s Hi. apply lookup_insert_Some in Hi as [[<- <-]|[_ Hi]].
    * split; [lia|]. intros Hb. apply Ht in Hb. lia.
    * destruct (Hs _ _ Hi). split; [lia|done].
  + intros c c' s Hi Hi'. apply lookup_insert_Some in Hi as [[<- <-]|[Hne Hi]]; apply lookup_insert_Some in Hi' as [[<- E]|[Hne' Hi']].
    * done.
    * apply Hs in Hi'. lia.
    * subst. apply Hs in Hi. lia.
    * by apply (Ho c c' s).
  + split; [lia|]. intros s Hb. apply Ht in Hb. lia.
  + intros _. destruct (Hop Hc) as [Hp Hx]. split; [done|]. intros c x Hi.
    apply lookup_insert_Some in Hi as [[_ <-]|[_ Hi]]; [done|by eapply Hx].
  + rewrite Hc. by intros [].
  + exact Hloc.
Qed.

Lemma slots_taken id waker w : more w.(host).(Host.next_claim) -> slots_ok w -> slots_ok (taken id waker w).
Proof.
  intros Hm Hok. unfold taken, Host.take_slot. destruct (Host.is_open (host w)) eqn:Eo; cbn [negb].
  2:{ apply (slots_quiet w); [apply quiet_remove_waiter|done..]. }
  destruct (_ && _) eqn:Ec; [destruct (checked_add_u64 _ 1) as [next|] eqn:En|].
  - apply andb_true_iff in Ec as [_ Ha%Z.ltb_lt]. unfold checked_add_u64 in En. destruct (_ <=? _) eqn:El; [|done].
    injection En as <-. apply Z.leb_le in El. by apply slots_granted; [|apply still_open|..].
  - apply (slots_quiet w); [|done..]. apply quiet_queue. by intros ->.
  - apply (slots_quiet w); [|done..]. apply quiet_queue. by intros ->.
Qed.

(** A permit is gone and its slot with it, unless the slot was given back before. *)
Lemma slots_give_back c s w : w.(permits) !! c = Some s -> slots_ok w ->
  slots_ok (w <| host := Host.give_back (w.(host).(Host.claims) !! c)
                           (w.(host) <| Host.claims := delete c w.(host).(Host.claims) |>) |>
              <| permits := delete c w.(permits) |>).
Proof.
  intros Hp Hok. pose proof (slots_bound w Hok) as Hb. destruct Hok as [Ha' Hl Hcl Hn Hs Ho Ht Hop Hse Hloc].
  assert (is_Some ((host w).(Host.claims) !! c)) as [x Hx] by (apply Hcl; eauto).
  pose proof (count_old (fun c => negb c.(HClaim.released)) _ _ _ Hx) as Hco. fold (held (host w).(Host.claims)) in Hco.
  fold (held (delete c (host w).(Host.claims))) in Hco. pose proof (held_slots_nonneg (delete c (host w).(Host.claims))). cbv beta in Hco.
  assert (0 <= one_if (negb x.(HClaim.released))) by (unfold one_if; destruct (negb _); lia).
  assert (Hd : forall h', Host.claims h' = delete c (Host.claims (host w)) -> Host.next_claim h' = Host.next_claim (host w) ->
    Host.next_binding h' = Host.next_binding (host w) -> Host.bindings h' = Host.bindings (host w) ->
    Host.close h' = Host.close (host w) -> Host.phase h' = Host.phase (host w) -> Host.queue h' = Host.queue (host w) ->
    Host.closing h' = Host.closing (host w) -> Host.shared h' = Host.shared (host w) ->
    Host.active h' = Host.active (host w) - one_if (negb x.(HClaim.released)) ->
    slots_ok (w <| host := h' |> <| permits := delete c w.(permits) |>)).
  { intros h' E1 E2 E3 E4 E5 E6 E7 E8 E9 E10.
    split; cbn; rewrite ?E1, ?E2, ?E3, ?E4, ?E5, ?E6, ?E7, ?E8, ?E9, ?E10; try lia; try done.
    - intros k. destruct (decide (k = c)) as [->|Hne]; [by rewrite !lookup_delete_eq|by rewrite !lookup_delete_ne].
    - intros k [y Hy]. apply lookup_delete_Some in Hy as [_ Hy]. eauto.
    - intros k y Hy. apply lookup_delete_Some in Hy as [_ Hy]. eauto.
    - intros k k' y Hy Hy'. apply lookup_delete_Some in Hy as [_ Hy]. apply lookup_delete_Some in Hy' as [_ Hy']. eauto.
    - intros Hc. destruct (Hop Hc) as [H1 H2]. split; [done|]. intros k y Hy. apply lookup_delete_Some in Hy as [_ Hy]. eauto.
    - intros Hc. destruct (Hse Hc) as (H1 & H2 & r & H3 & H4 & H5). split_and!; [done..|]. exists r. split_and!; [done| |done].
      intros k y Hy. apply lookup_delete_Some in Hy as [_ Hy]. eauto. }
  apply Hd; rewrite Hx; unfold Host.give_back; destruct (HClaim.released x) eqn:Er; cbn; try done; [lia|].
  unfold usize_sub, as_usize. rewrite as_u64_id; [done|]. rewrite ?Er in Hco. cbn in Hco. lia.
Qed.

Lemma slots_drop_claim c s w : w.(permits) !! c = Some s -> slots_ok w ->
  slots_ok (w <| host := (Host.drop_claim c w.(host)).2 |> <| permits := delete c w.(permits) |>).
Proof.
  intros Hp Hok. refine (slots_quiet _ _ _ _ (slots_give_back c s w Hp Hok)); [apply quiet_wake_front|done].
Qed.

Lemma slots_publish c s w : w.(permits) !! c = Some s -> slots_ok w -> slots_ok (publishing c s w).
Proof.
  intros Hp Hok. unfold publishing, Host.publish.
  assert (is_Some ((host w).(Host.claims) !! c)) as [x Hx] by (apply Hok; eauto). rewrite Hx. cbn [and_then].
  set (h := (host w) <| Host.claims := delete c (Host.claims (host w)) |>).
  assert (Herr : forall r, slots_ok (let '(r, _, h) := let '(waker, self) := Host.wake_front (Host.give_back (Some x) h) in
      (Err r, waker, self) in w <| host := h |> <| permits := delete c w.(permits) |>
    <| operating := if @is_ok unit TerminalReason.t r then {[s]} ∪ w.(operating) else w.(operating) |>)).
  { intros r. pose proof (quiet_wake_front (Host.give_back (Some x) h)) as Hq. destruct (Host.wake_front _) as [wk h']. cbn.
    eapply (slots_quiet (w <| host := Host.give_back (Some x) h |> <| permits := delete c w.(permits) |>)); [done..|].
    rewrite <- Hx. by eapply slots_give_back. }
  destruct (HClaim.revoked x) eqn:Er; [apply Herr|]. change (Host.is_open h) with (Host.is_open (host w)).
  destruct (Host.is_open (host w)) eqn:Eo; [|apply Herr]. clear Herr. cbn.
  pose proof (still_open w Hok Eo) as Hc. destruct Hok as [Ha' Hl Hcl Hn Hs Ho Ht Hop Hse Hloc]. destruct (Hop Hc) as [Hph Hnew].
  pose proof (Hnew _ _ Hx) as ->. destruct (Hs _ _ Hp) as [Hsr Hsb].
  pose proof (count_old (fun c => negb c.(HClaim.released)) _ _ _ Hx) as Hco.
  split; cbn; try done.
  - unfold held in *. rewrite size_union, size_singleton by set_solver. rewrite Ha', Hco. cbn. lia.
  - intros k. destruct (decide (k = c)) as [->|Hne]; [by rewrite !lookup_delete_eq|by rewrite !lookup_delete_ne].
  - intros k [y Hy]. apply lookup_delete_Some in Hy as [_ Hy]. eauto.
  - intros k y Hy. apply lookup_delete_Some in Hy as [Hne Hy]. destruct (Hs _ _ Hy) as [H1 H2]. split; [done|].
    rewrite elem_of_union, elem_of_singleton. intros [->|Hb]; [|done]. by specialize (Ho _ _ _ Hy Hp).
  - intros k k' y Hy Hy'. apply lookup_delete_Some in Hy as [_ Hy]. apply lookup_delete_Some in Hy' as [_ Hy']. eauto.
  - destruct Ht as [Ht0 Ht]. split; [done|]. intros y. rewrite elem_of_union, elem_of_singleton. intros [->|Hb]; [done|by apply Ht].
  - intros _. split; [done|]. intros k y Hy. apply lookup_delete_Some in Hy as [_ Hy]. eauto.
  - rewrite Hc. by intros [].
Qed.

Lemma slots_retire_end s w : slots_ok w ->
  slots_ok (w <| host := (Host.retire_end s w.(host)).2 |> <| retiring := w.(retiring) ∖ {[s]} |>
              <| reporting := {[s]} ∪ w.(reporting) |>).
Proof.
  intros Hok. pose proof (slots_bound w Hok) as Hb. unfold Host.retire_end.
  eapply (slots_quiet (w <| host := _ |>)); [apply quiet_wake_front|done|]. case_bool_decide as Hs; [|by destruct w].
  destruct Hok as [Ha' Hl Hcl Hn Hse Ho Ht Hop Hsl Hloc].
  assert (Hz : Z.of_nat (size (Host.bindings (host w))) = Z.of_nat (size (Host.bindings (host w) ∖ {[s]})) + 1).
  { rewrite (union_difference_L {[s]} (Host.bindings (host w))) at 1 by set_solver.
    rewrite size_union, size_singleton by set_solver. lia. }
  pose proof (held_slots_nonneg (Host.claims (host w))).
  assert (E : usize_sub (Host.active (host w)) 1 = Host.active (host w) - 1)
    by (unfold usize_sub, as_usize; apply as_u64_id; lia).
  split; cbn; rewrite ?E; try done; try lia.
  - intros c k Hk. destruct (Hse _ _ Hk). split; [done|set_solver].
  - destruct Ht as [Ht0 Ht]. split; [done|]. intros k Hk. apply Ht. set_solver.
  - intros Hc. destruct (Hsl Hc) as (H1 & H2 & r & H3 & H4 & H5). split_and!; [done..|]. exists r. split_and!; [done..|].
    intros k b Hk. apply H5. set_solver.
Qed.

Lemma slots_seal reason w : local_reason reason = true -> slots_ok w -> slots_ok (w <| host := (Host.seal reason w.(host)).2 |>).
Proof.
  intros Hlr Hok. unfold Host.seal. destruct (Host.close (host w)) eqn:Ec; [by destruct w|]. cbn [snd].
  pose proof (slots_bound w Hok) as Hb. destruct Hok as [Ha' Hl Hcl Hn Hs Ho Ht Hop Hse Hloc]. destruct (Hop Ec) as [Hph Hnew].
  set (n := len (keep _ _)). assert (En : n = held (Host.claims (host w))) by done.
  pose proof (held_slots_nonneg (Host.claims (host w))).
  assert (E : usize_sub (Host.active (host w)) n = Host.active (host w) - n)
    by (unfold usize_sub, as_usize; apply as_u64_id; lia).
  assert (Hrev : forall c x, (HClaim.revoke reason <$> Host.claims (host w)) !! c = Some x -> x = HClaim.mk (Some reason) true).
  { intros c x. rewrite lookup_fmap, fmap_Some. intros (y & Hy & ->). by rewrite (Hnew _ _ Hy). }
  assert (Eh : held (HClaim.revoke reason <$> Host.claims (host w)) = 0).
  { unfold held, count_values. set (m := HClaim.revoke _ <$> _) in *.
    destruct (keep (fun c => negb (HClaim.released c)) (values m)) as [|v l] eqn:El; [done|]. exfalso.
    assert (Hin : v ∈ keep (fun c => negb (HClaim.released c)) (values m)) by (rewrite El; left).
    apply elem_of_keep in Hin as [Hr [k Hk]%elem_of_values]. by rewrite (Hrev _ _ Hk) in Hr. }
  split; cbn; rewrite ?E, ?Eh; try done; try lia.
  - intros c. rewrite lookup_fmap, fmap_is_Some. apply Hcl.
  - intros _. split_and!; [done..|]. exists reason. split_and!; [done..|]. intros s b Hs' Hb'. rewrite map_lookup_imap in Hb'.
    destruct (Host.shared (host w) !! s) as [y|]; [|done]. cbn in Hb'. injection Hb' as <-.
    by rewrite bool_decide_true.
  - by intros r [= <-].
Qed.

Lemma slots_step w w' : hstep w w' -> slots_ok w -> slots_ok w'.
Proof.
  intros Hs Hok. destruct Hs.
  - apply (slots_quiet w); [|done..]. unfold Host.enqueue in *. destruct (Host.is_open (host w)) eqn:Eo; [|done].
    cbn [negb] in *. destruct (_ <=? _); [done|]. simplify_eq. apply bool_decide_eq_true in Eo. cbn. split; cbn; try done.
    intros s x _ Hx. by exists x.
  - by apply slots_taken.
  - apply (slots_quiet w); [apply quiet_dequeue|done..].
  - apply (slots_quiet w); [|done..]. apply quiet_prepare; [done|]. by eapply so_serials.
  - by eapply slots_drop_claim.
  - by apply slots_publish.
  - unfold opening. pose proof (quiet_open s (host w)) as Hq. destruct (Host.open s (host w)) as [r h]. by apply (slots_quiet w).
  - apply (slots_quiet w); [|done..]. by apply quiet_on_shared.
  - apply (slots_quiet w); [|done..]. by apply quiet_on_shared.
  - unfold retire_starts. pose proof (quiet_retire_begin s (host w)) as Hq. destruct (Host.retire_begin s (host w)) as [r h].
    by apply (slots_quiet w).
  - by apply slots_retire_end.
  - apply (slots_quiet w); [apply quiet_report_done|done..].
  - apply (slots_quiet w); [apply quiet_cancel_flag|done..].
  - apply (slots_quiet w); [apply quiet_route|done..].
  - by apply slots_seal.
  - apply (slots_quiet w); [by apply quiet_close_finish|done..].
  - unfold attach_starts. pose proof (quiet_attach_begin profile idle (host w)) as Hq.
    destruct (Host.attach_begin limits profile idle (host w)) as [[[]|] h]; by apply (slots_quiet w).
  - apply (slots_quiet w); [apply quiet_attach_undo|done..].
  - unfold attach_ends. pose proof (quiet_attach_end profile ok fresh (host w)) as Hq.
    destruct (Host.attach_end profile ok fresh (host w)) as [r h]. by apply (slots_quiet w).
  - apply (slots_quiet w); [|done..]. quiet_same.
Qed.

Lemma slots_reachable w : hreachable w -> slots_ok w.
Proof.
  revert w. apply hreachable_ind.
  - split; cbn; try done; try lia; try (by intros []); try (intros c; split; by intros []). all: by intros c [v Hv].
  - intros a b _ Ha Hs. by eapply slots_step.
Qed.

(** C4: the slots of a host are exactly accounted for in every interleaving of
    admissions, registrations, ends and closes: the counter of active operations is
    the claims whose slot was not given back and the bindings in the table, never more
    than the configured slots, and a permit's serial is its own and in no table. *)
Theorem host_slots_exact w :
  hreachable w ->
  w.(host).(Host.active)
    = len (keep (fun c => negb c.(HClaim.released)) (values w.(host).(Host.claims)))
      + Z.of_nat (size w.(host).(Host.bindings))
  /\ w.(host).(Host.active) <= limits.(HostLimits.active_slots)
  /\ (forall c s, w.(permits) !! c = Some s -> s ∉ w.(host).(Host.bindings)
        /\ forall c', w.(permits) !! c' = Some s -> c' = c).
Proof.
  intros [Ha Hl _ _ Hs Ho _ _ _ _]%slots_reachable. split_and!; [exact Ha|done|]. intros c s Hp.
  split; [by eapply Hs|]. intros c' Hp'. by apply (Ho c' c s).
Qed.

(** C13: the first reason a host was sealed with stands, and from the seal on no
    operation registers and none is forgotten: in every reachable state of a sealed
    host nobody waits, whoever asks for a slot is told that reason, a permit that
    registers is refused with it, and every binding still in the table is cancelled and
    marked with it. *)
Theorem sealed_for_good w :
  hreachable w -> is_Some w.(host).(Host.close) ->
  exists r, w.(host).(Host.closing) = Some r
    /\ w.(host).(Host.queue) = []
    /\ (forall reason, (Host.seal reason w.(host)) = (None, w.(host)))
    /\ (forall id waker, (Host.take_slot limits id waker w.(host)).1 = HSlot.Closing r)
    /\ (forall c s, w.(permits) !! c = Some s -> (Host.publish c s w.(host)).1.1 = Err r)
    /\ (forall s b, s ∈ w.(host).(Host.bindings) -> w.(host).(Host.shared) !! s = Some b ->
          Host.refused b = Some (OpenFailure.Closing r) /\ b.(BindingShared.cancelled) = true).
Proof.
  intros Hok%slots_reachable Hc. pose proof (so_claims _ Hok) as Hcl.
  destruct (so_sealed _ Hok Hc) as (Hph & Hq & r & Hr & Hx & Hb). exists r.
  assert (Ho : Host.is_open (host w) = false) by (by apply bool_decide_eq_false).
  split_and!; try done.
  - intros reason. unfold Host.seal. by destruct Hc as [v ->].
  - intros id waker. unfold Host.take_slot, Host.closing_reason_of. by rewrite Ho, Hr.
  - intros c s Hp. assert (is_Some ((host w).(Host.claims) !! c)) as [x Hxx] by (apply Hcl; eauto).
    unfold Host.publish. rewrite Hxx. rewrite (Hx _ _ Hxx). cbn [and_then HClaim.revoked].
    by destruct (Host.wake_front _).
  - intros s b Hs Hsb. destruct (Hb _ _ Hs Hsb) as [E1 E2]. split; [|done]. unfold Host.refused. rewrite E2.
    pose proof (so_local _ Hok r Hr). by destruct r.
Qed.

(** ** The order of the queue *)

Definition ids (h : Host.t) : list Z := map HWaiter.id h.(Host.queue).

Record fifo_ok (w : hworld) : Prop := {
  fo_queue : StronglySorted Z.lt (ids w.(host));
  fo_next : 0 <= w.(host).(Host.next_waiter) /\ forall id, id ∈ ids w.(host) -> id < w.(host).(Host.next_waiter);
  fo_grants : StronglySorted Z.lt (map fst w.(grants));
  fo_before : forall id g, id ∈ ids w.(host) -> g ∈ map fst w.(grants) -> g < id;
  fo_old : forall g, g ∈ map fst w.(grants) -> g < w.(host).(Host.next_waiter);
  fo_serials : map snd w.(grants) = seqZ 1 (len w.(grants)) /\ w.(host).(Host.next_binding) = len w.(grants) + 1;
}.

Lemma sorted_snoc (l : list Z) x : StronglySorted Z.lt l -> (forall y, y ∈ l -> y < x) -> StronglySorted Z.lt (l ++ [x]).
Proof.
  induction 1 as [|y l Hl IH Hy]; intros Hx; [by repeat constructor|]. cbn. constructor; [apply IH; intros z Hz; apply Hx; by right|].
  apply list.Forall_forall. intros z [Hz|Hz%list_elem_of_singleton]%elem_of_app; [by apply (proj1 (list.Forall_forall _ _) Hy)|].
  subst. apply Hx. left.
Qed.

(** Waiters only leave the queue, and no slot is granted. *)
Record shrinks (a b : Host.t) : Prop := {
  sh_ids : sublist (ids b) (ids a);
  sh_next : b.(Host.next_waiter) = a.(Host.next_waiter);
  sh_binding : b.(Host.next_binding) = a.(Host.next_binding);
}.

Lemma fifo_shrinks w w' : shrinks w.(host) w'.(host) -> w'.(grants) = w.(grants) -> fifo_ok w -> fifo_ok w'.
Proof.
  intros [Hi Hn Hb] Hg []. split; rewrite ?Hg, ?Hn, ?Hb; try done.
  - by eapply sorted_sublist.
  - split; [by apply fo_next0|]. intros id Hid. apply fo_next0. by eapply elem_of_sublist.
  - intros id g Hid. apply fo_before0. by eapply elem_of_sublist.
Qed.

Ltac shrinks_same := split; [reflexivity|reflexivity|reflexivity].

Lemma shrinks_trans a b c : shrinks a b -> shrinks b c -> shrinks a c.
Proof. intros [] []. split; try congruence. by etrans. Qed.

Lemma shrinks_wake_front h : shrinks h (Host.wake_front h).2.
Proof.
  unfold Host.wake_front. destruct (Host.queue h) as [|q l] eqn:E; [shrinks_same|]. split; [|done..].
  unfold ids. cbn. by rewrite E.
Qed.

Lemma shrinks_remove_waiter id h : shrinks h (Host.remove_waiter id h).
Proof. split; [apply sublist_map_keep|done..]. Qed.

Lemma shrinks_give_back c h : shrinks h (Host.give_back c h).
Proof. unfold Host.give_back. destruct c as [c|]; [destruct (negb _)|]; shrinks_same. Qed.

Lemma shrinks_drop_claim c h : shrinks h (Host.drop_claim c h).2.
Proof.
  eapply shrinks_trans; [|apply shrinks_wake_front]. eapply shrinks_trans; [|apply shrinks_give_back]. shrinks_same.
Qed.

Lemma shrinks_publish c s h : shrinks h (Host.publish c s h).2.
Proof.
  unfold Host.publish. set (h' := h <| Host.claims := _ |>).
  assert (He : forall r : TerminalReason.t, shrinks h (let '(waker, self) := Host.wake_front (Host.give_back (Host.claims h !! c) h') in
     (Err r : result unit TerminalReason.t, waker, self)).2).
  { intros r. pose proof (shrinks_wake_front (Host.give_back (Host.claims h !! c) h')) as Hw. destruct (Host.wake_front _).
    cbn in *. eapply shrinks_trans; [|exact Hw]. eapply shrinks_trans; [|apply shrinks_give_back]. shrinks_same. }
  destruct (Host.claims h !! c) as [x|]; [|exact (He _)]. cbn [and_then].
  destruct (HClaim.revoked x); [exact (He _)|]. destruct (Host.is_open h'); [shrinks_same|exact (He _)].
Qed.

Lemma shrinks_retire_end s h : shrinks h (Host.retire_end s h).2.
Proof. eapply shrinks_trans; [|apply shrinks_wake_front]. case_bool_decide; shrinks_same. Qed.

Lemma shrinks_seal reason h : shrinks h (Host.seal reason h).2.
Proof. unfold Host.seal. destruct (Host.close h); [shrinks_same|]. split; [apply sublist_nil_l|done..]. Qed.

Lemma shrinks_cancel_flag s h : shrinks h (Host.cancel_flag s h).2.
Proof. unfold Host.cancel_flag. destruct (_ !! s); shrinks_same. Qed.

Lemma shrinks_open s h : shrinks h (Host.open s h).2.
Proof.
  unfold Host.open. destruct (_ !! s) as [b|]; [|shrinks_same].
  destruct (BindingShared.cancelled b); [shrinks_same|]. destruct (BindingShared.sealed b); [shrinks_same|].
  destruct (MuxPair.register _ _ _) as [[[]|e] p]; shrinks_same.
Qed.

Lemma shrinks_retire_begin s h : shrinks h (Host.retire_begin s h).2.
Proof. unfold Host.retire_begin. destruct (_ !! s) as [b|]; [destruct (_ || _)|]; shrinks_same. Qed.

Lemma shrinks_route carrier binding direction item h :
  shrinks h (Host.route unstable_sequenced namespace carrier binding direction item h).2.
Proof.
  unfold Host.route. destruct (negb _); [shrinks_same|]. destruct (negb _); [shrinks_same|].
  case_bool_decide; [|shrinks_same]. destruct (_ !! _) as [b|]; [|shrinks_same].
  destruct (negb _); [shrinks_same|]. destruct (negb _); [shrinks_same|].
  destruct (MuxPair.deliver _ _ _ _) as [[[]|e] p]; [shrinks_same|]. cbn [snd].
  eapply shrinks_trans; [|apply shrinks_cancel_flag]. shrinks_same.
Qed.

Lemma shrinks_attach_begin profile idle h : shrinks h (Host.attach_begin limits profile idle h).2.
Proof.
  unfold Host.attach_begin. destruct (negb _); [shrinks_same|]. destruct (Host.find_profile profile h); [shrinks_same|].
  destruct (_ <=? _); [|shrinks_same]. unfold Host.take_least_recently_used_unbound. destruct (Host.least_used _ _); shrinks_same.
Qed.

Lemma shrinks_attach_end profile ok fresh h : shrinks h (Host.attach_end profile ok fresh h).2.
Proof.
  unfold Host.attach_end. destruct (negb _); [shrinks_same|]. destruct (Host.is_open _); [|shrinks_same].
  destruct (Host.find_profile _ _); shrinks_same.
Qed.

Lemma ids_set_waker id waker l : map HWaiter.id (Host.set_waiter_waker id waker l) = map HWaiter.id l.
Proof. induction l as [|q l IH]; [done|]. cbn. destruct (_ =? _); cbn; by rewrite ?IH. Qed.

Lemma fifo_taken id waker w : fifo_ok w -> fifo_ok (taken id waker w).
Proof.
  intros Hok. unfold taken, Host.take_slot. destruct (Host.is_open (host w)); cbn [negb].
  2:{ apply (fifo_shrinks w); [apply shrinks_remove_waiter|done..]. }
  destruct (_ && _) eqn:Ec; [destruct (checked_add_u64 _ 1) as [next|] eqn:En|].
  - apply andb_true_iff in Ec as [Hf _]. unfold checked_add_u64 in En. destruct (_ <=? _); [|done]. injection En as <-.
    destruct (Host.queue (host w)) as [|q rest] eqn:Eq; [done|]. cbn in Hf. apply Z.eqb_eq in Hf as <-.
    assert (Ei : ids (host w) = HWaiter.id q :: map HWaiter.id rest) by (unfold ids; by rewrite Eq).
    destruct Hok as [Hq [Hn0 Hn] Hg Hb Ho [Hs Hnb]]. rewrite Ei in *. apply StronglySorted_inv in Hq as [Hq Hqr].
    rewrite list.Forall_forall in Hqr. split; unfold ids; cbn; rewrite ?map_app; cbn.
    + done.
    + split; [done|]. intros id Hid. apply Hn. by right.
    + apply sorted_snoc; [done|]. intros g Hg'. apply Hb; [left|done].
    + intros id g Hid [Hg'|Hg'%list_elem_of_singleton]%elem_of_app; [apply Hb; [by right|done]|subst; by apply Hqr].
    + intros g [Hg'|Hg'%list_elem_of_singleton]%elem_of_app; [by apply Ho|]. subst. apply Hn. left.
    + rewrite length_app. cbn. rewrite Nat2Z.inj_add. cbn. split; [|lia]. rewrite Hs, seqZ_app by lia. f_equal. cbn. by rewrite Hnb, Z.add_comm.
  - apply (fifo_shrinks w); [|done..]. split; [|done..]. unfold ids. cbn. destruct (Host.queue (host w)); [done|]. by constructor.
  - apply (fifo_shrinks w); [|done..]. split; [|done..]. unfold ids. cbn. by rewrite ids_set_waker.
Qed.

Lemma fifo_enqueue id h w : more w.(host).(Host.next_waiter) -> Host.enqueue limits w.(host) = (Ok id, h) ->
  fifo_ok w -> fifo_ok (w <| host := h |> <| waits := {[id]} ∪ w.(waits) |>).
Proof.
  intros [Hm0 Hm] He [Hq [Hn0 Hn] Hg Hb Ho Hs]. unfold Host.enqueue in He. destruct (negb _); [done|]. destruct (_ <=? _); [done|].
  injection He as <- <-. set (n := Host.next_waiter (host w)) in *.
  assert (Hw : wrapping_add_u64 n 1 = n + 1) by (apply as_u64_id; lia).
  split; unfold ids; cbn; rewrite ?map_app, ?Hw; cbn; try done.
  - by apply sorted_snoc.
  - split; [lia|]. intros id [Hid|Hid%list_elem_of_singleton]%elem_of_app; [specialize (Hn id Hid)|]; lia.
  - intros id g [Hid|Hid%list_elem_of_singleton]%elem_of_app Hg'; [by apply Hb|]. subst. by apply Ho.
  - intros g Hg'. specialize (Ho g Hg'). lia.
Qed.

Lemma fifo_step w w' : hstep w w' -> fifo_ok w -> fifo_ok w'.
Proof.
  intros Hs Hok. destruct Hs; try (apply (fifo_shrinks w); [shrinks_same|reflexivity|done]).
  - by apply fifo_enqueue.
  - by apply fifo_taken.
  - apply (fifo_shrinks w); [|done..]. eapply shrinks_trans; [apply shrinks_remove_waiter|apply shrinks_wake_front].
  - apply (fifo_shrinks w); [apply shrinks_drop_claim|done..].
  - unfold publishing. pose proof (shrinks_publish c s (host w)) as Hp. destruct (Host.publish c s (host w)) as [[r wk] h].
    by apply (fifo_shrinks w).
  - unfold opening. pose proof (shrinks_open s (host w)) as Hp. destruct (Host.open s (host w)) as [r h]. by apply (fifo_shrinks w).
  - unfold retire_starts. pose proof (shrinks_retire_begin s (host w)) as Hp. destruct (Host.retire_begin s (host w)) as [r h].
    by apply (fifo_shrinks w).
  - apply (fifo_shrinks w); [apply shrinks_retire_end|done..].
  - apply (fifo_shrinks w); [apply shrinks_cancel_flag|done..].
  - apply (fifo_shrinks w); [apply shrinks_route|done..].
  - apply (fifo_shrinks w); [apply shrinks_seal|done..].
  - unfold attach_starts. pose proof (shrinks_attach_begin profile idle (host w)) as Hp.
    destruct (Host.attach_begin limits profile idle (host w)) as [[[]|] h]; by apply (fifo_shrinks w).
  - unfold attach_ends. pose proof (shrinks_attach_end profile ok fresh (host w)) as Hp.
    destruct (Host.attach_end profile ok fresh (host w)) as [r h]. by apply (fifo_shrinks w).
Qed.

(** Slots are granted in the order of admission and serials are never reused: the
    waiters served so far came in that order, none of them after one that still waits,
    and the serials granted are 1, 2, 3 and so on without a gap. *)
Theorem grants_in_order w :
  hreachable w ->
  StronglySorted Z.lt (map fst w.(grants))
  /\ (forall waiter g, waiter ∈ w.(host).(Host.queue) -> g ∈ map fst w.(grants) -> g < waiter.(HWaiter.id))
  /\ map snd w.(grants) = seqZ 1 (len w.(grants))
  /\ w.(host).(Host.next_binding) = len w.(grants) + 1.
Proof.
  intros Hr. assert (Hok : fifo_ok w).
  { revert w Hr. apply hreachable_ind; [|intros a b _ Ha Hs; by eapply fifo_step].
    assert (Hn : forall x : Z, x ∈ ids (host hstart) -> False) by (intros x Hx; by apply not_elem_of_nil in Hx).
    split; cbn; try apply SSorted_nil; try done; [split; [done|]; intros x Hx|intros x g Hx|intros x Hx]; by destruct (Hn x). }
  destruct Hok as [_ _ Hg Hb _ [Hs Hn]]. split_and!; [done| |done..]. intros q g Hq. apply Hb.
  unfold ids. apply list_elem_of_In, in_map, list_elem_of_In, Hq.
Qed.

(** ** The life of a binding *)

(** What the end of a binding reads of its object. *)
Definition life (b : BindingShared.t) : bool * bool * Z * Z * option OperationEnd.t :=
  (b.(BindingShared.sealed), b.(BindingShared.retired), b.(BindingShared.live), b.(BindingShared.opened), b.(BindingShared.done)).
Definition lives_in (h : Host.t) (s : Z) : option (bool * bool * Z * Z * option OperationEnd.t) :=
  option_map life (h.(Host.shared) !! s).

Record life_ok (w : hworld) : Prop := {
  lo_object : forall s sealed retired live opened done,
    lives_in w.(host) s = Some (sealed, retired, live, opened, done) ->
    s < w.(host).(Host.next_binding) /\ (live = count s w.(lives) /\ live <= U64_MAX)
    /\ (retired = true -> sealed = true /\ live = 0)
    /\ (forall e, done = Some e -> retired = true /\ e.(OperationEnd.exchanges_opened) = opened);
  lo_permits : forall c s, w.(permits) !! c = Some s -> s ∉ w.(operating)
    /\ forall sealed retired live opened done, lives_in w.(host) s = Some (sealed, retired, live, opened, done) -> sealed = false;
  lo_operating : forall s, s ∈ w.(operating) -> s ∈ w.(host).(Host.bindings)
    /\ exists retired live opened done, lives_in w.(host) s = Some (false, retired, live, opened, done);
  lo_lives : forall s, s ∈ w.(lives) -> s ∈ w.(host).(Host.bindings) /\ is_Some (lives_in w.(host) s);
  lo_retiring : forall s, s ∈ w.(retiring) \/ s ∈ w.(reporting) ->
    exists sealed live opened done, lives_in w.(host) s = Some (sealed, true, live, opened, done);
}.

Lemma count_cons_eq s l : count s (s :: l) = count s l + 1.
Proof. unfold count. rewrite count_cons, Z.eqb_refl. cbn. lia. Qed.
Lemma count_cons_ne s x l : s <> x -> count s (x :: l) = count s l.
Proof. intros H. unfold count. rewrite count_cons. apply Z.eqb_neq in H as ->. cbn. lia. Qed.
Lemma count_le s l : 0 <= count s l <= len l.
Proof. unfold count, keep. pose proof (length_filter (fun x => (s =? x) = true) l). lia. Qed.
Lemma count_pos s l : s ∈ l -> 0 < count s l.
Proof.
  intros H. unfold count. assert (Hs : s ∈ keep (Z.eqb s) l) by (apply elem_of_keep; by rewrite Z.eqb_refl).
  destruct (keep _ _); [by apply not_elem_of_nil in Hs|]. cbn [length]. lia.
Qed.
Lemma count_zero s l : count s l = 0 -> s ∉ l.
Proof. intros H Hs%count_pos. lia. Qed.
Lemma count_absent s l : s ∉ l -> count s l = 0.
Proof.
  intros Hs. unfold count. destruct (keep _ _) as [|x k] eqn:Ek; [done|]. exfalso. apply Hs.
  assert (Hx : x ∈ keep (Z.eqb s) l) by (rewrite Ek; left). by apply elem_of_keep in Hx as [->%Z.eqb_eq Hx].
Qed.
Lemma count_take_eq s l : s ∈ l -> count s (take_one s l) = count s l - 1.
Proof.
  induction l as [|x l IH]; intros H; [by apply not_elem_of_nil in H|]. cbn [take_one]. destruct (x =? s) eqn:E.
  - apply Z.eqb_eq in E as ->. rewrite count_cons_eq. lia.
  - apply Z.eqb_neq in E. apply elem_of_cons in H as [->|H]; [done|]. rewrite !count_cons_ne, IH; done.
Qed.
Lemma count_take_ne s x l : s <> x -> count s (take_one x l) = count s l.
Proof.
  intros Hn. induction l as [|y l IH]; [done|]. cbn [take_one]. destruct (y =? x) eqn:E.
  - apply Z.eqb_eq in E as ->. by rewrite count_cons_ne.
  - destruct (decide (s = y)) as [->|Hy]; [by rewrite !count_cons_eq, IH|by rewrite !count_cons_ne, IH].
Qed.
Lemma elem_of_take_one x y l : x ∈ take_one y l -> x ∈ l.
Proof.
  induction l as [|z l IH]; [done|]. cbn. destruct (z =? y); [by right|].
  intros [->|H]%elem_of_cons; [left|right; by apply IH].
Qed.

(** Steps that leave the lives, the table and who holds what alone. *)
Lemma life_frame w w' :
  (forall s, lives_in w'.(host) s = lives_in w.(host) s) ->
  w'.(host).(Host.bindings) = w.(host).(Host.bindings) -> w.(host).(Host.next_binding) <= w'.(host).(Host.next_binding) ->
  (forall c s, w'.(permits) !! c = Some s -> w.(permits) !! c = Some s
     \/ (s = w.(host).(Host.next_binding))) ->
  w'.(operating) = w.(operating) -> w'.(lives) = w.(lives) -> w'.(retiring) = w.(retiring) -> w'.(reporting) = w.(reporting) ->
  life_ok w -> life_ok w'.
Proof.
  intros Hl Hb Hn Hp Eo El Er Erp [Ho Hpm Hop Hlv Hrt]. split; rewrite ?Hb, ?Eo, ?El, ?Er, ?Erp.
  - intros s a b c d e. rewrite Hl. intros H. destruct (Ho _ _ _ _ _ _ H) as [H1 H2]. split; [lia|done].
  - intros c s Hc. destruct (Hp _ _ Hc) as [Hc'| ->].
    + destruct (Hpm _ _ Hc') as [H1 H2]. split; [done|]. intros a b d e f. rewrite Hl. apply H2.
    + split.
      * intros (_ & ? & ? & ? & ? & H)%Hop. apply Ho in H. lia.
      * intros a b d e f. rewrite Hl. intros H%Ho. lia.
  - intros s Hs. destruct (Hop s Hs) as [H1 H2]. split; [done|]. by rewrite Hl.
  - intros s Hs. rewrite Hl. by apply Hlv.
  - intros s Hs. rewrite Hl. by apply Hrt.
Qed.

Lemma lives_on_shared s f h k : lives_in (Host.on_shared s f h) k =
  if decide (k = s) then option_map (fun b => life (f b)) (h.(Host.shared) !! s) else lives_in h k.
Proof.
  unfold lives_in, Host.on_shared. cbn. destruct (decide (k = s)) as [->|Hne].
  - rewrite lookup_alter_eq. by destruct (_ !! s).
  - by rewrite lookup_alter_ne.
Qed.

Lemma lives_put s b h k : lives_in (h <| Host.shared := <[s := b]> h.(Host.shared) |>) k =
  if decide (k = s) then Some (life b) else lives_in h k.
Proof.
  unfold lives_in. cbn. destruct (decide (k = s)) as [->|Hne]; [by rewrite lookup_insert_eq|by rewrite lookup_insert_ne].
Qed.

Lemma lives_wake_front h k : lives_in (Host.wake_front h).2 k = lives_in h k.
Proof. unfold Host.wake_front. by destruct (Host.queue h). Qed.

Lemma lives_cancel_flag s h k : lives_in (Host.cancel_flag s h).2 k = lives_in h k.
Proof.
  unfold Host.cancel_flag. destruct (_ !! s) as [b|] eqn:E; [|done]. cbn [snd]. rewrite lives_on_shared.
  destruct (decide (k = s)) as [->|]; [|done]. unfold lives_in. by rewrite E.
Qed.

Lemma lives_route carrier binding direction item h k :
  lives_in (Host.route unstable_sequenced namespace carrier binding direction item h).2 k = lives_in h k.
Proof.
  unfold Host.route. destruct (negb _); [done|]. destruct (negb _); [done|].
  case_bool_decide; [|done]. destruct (_ !! _) as [b|] eqn:E; [|done]. destruct (negb _); [done|]. destruct (negb _); [done|].
  assert (Hp : forall p, lives_in (h <| Host.shared := <[binding.(BindingId.serial) := b <| BindingShared.pair := p |>]> h.(Host.shared) |>) k
    = lives_in h k).
  { intros p. rewrite lives_put. destruct (decide _) as [->|]; [|done]. unfold lives_in. by rewrite E. }
  destruct (MuxPair.deliver _ _ _ _) as [[[]|e] p]; cbn [snd]; [apply Hp|]. by rewrite lives_cancel_flag.
Qed.

Lemma lives_seal reason h k : lives_in (Host.seal reason h).2 k = lives_in h k.
Proof.
  unfold Host.seal. destruct (Host.close h); [done|]. unfold lives_in. cbn. rewrite map_lookup_imap.
  destruct (_ !! k) as [b|]; [|done]. cbn. by case_bool_decide.
Qed.

(** The table after each of its changes. *)
Lemma bindings_cancel_flag s h : (Host.cancel_flag s h).2.(Host.bindings) = h.(Host.bindings).
Proof. apply quiet_cancel_flag. Qed.

Lemma life_prepare c s operation halves w : w.(permits) !! c = Some s -> w.(host).(Host.shared) !! s = None ->
  slots_ok w -> life_ok w -> life_ok (w <| host := Host.prepare namespace s operation halves w.(host) |>).
Proof.
  intros Hc Hn Hsl [Ho Hpm Hop Hlv Hrt].
  assert (Hl : forall k, lives_in (Host.prepare namespace s operation halves (host w)) k =
    if decide (k = s) then Some (false, false, 0, 0, None) else lives_in (host w) k) by (intros k; apply lives_put).
  assert (Hnl : lives_in (host w) s = None) by (unfold lives_in; by rewrite Hn).
  assert (Hns : count s (lives w) = 0).
  { apply count_absent. intros Hs. apply Hlv in Hs as [_ [? ?]]. congruence. }
  split; cbn.
  - intros k a b d e f. rewrite Hl. destruct (decide (k = s)) as [->|]; [|apply Ho]. intros [= <- <- <- <- <-].
    split_and!; [by eapply so_serials|done..].
  - intros k y Hy. destruct (Hpm _ _ Hy) as [H1 H2]. split; [done|]. intros a b d e f. rewrite Hl.
    destruct (decide (y = s)); [by intros [= <-]|apply H2].
  - intros k Hk. destruct (Hop k Hk) as (H1 & r & l & o & d & H2). split; [done|]. exists r, l, o, d. rewrite Hl.
    destruct (decide (k = s)) as [->|]; [congruence|done].
  - intros k Hk. destruct (Hlv k Hk) as (H1 & H2). split; [done|]. rewrite Hl. destruct (decide (k = s)); eauto.
  - intros k Hk. destruct (Hrt k Hk) as (a & l & o & d & H2). exists a, l, o, d. rewrite Hl.
    destruct (decide (k = s)) as [->|]; [congruence|done].
Qed.

Lemma lives_publish c s h k : lives_in (Host.publish c s h).2 k = lives_in h k.
Proof.
  unfold Host.publish. destruct (Host.claims h !! c) as [x|]; cbn [and_then].
  - destruct (HClaim.revoked x); [|destruct (Host.is_open _)]; try done; unfold Host.give_back, Host.wake_front;
      destruct (negb _); cbn; by destruct (Host.queue h).
  - unfold Host.give_back, Host.wake_front. cbn. by destruct (Host.queue h).
Qed.

(** Either nothing is published, or the binding is in the table. *)
Lemma publish_cases c s h :
  (exists e, (Host.publish c s h).1.1 = Err e /\ (Host.publish c s h).2.(Host.bindings) = h.(Host.bindings))
  \/ ((Host.publish c s h).1.1 = Ok tt /\ (Host.publish c s h).2.(Host.bindings) = {[s]} ∪ h.(Host.bindings)).
Proof.
  unfold Host.publish. destruct (Host.claims h !! c) as [x|]; cbn [and_then].
  - destruct (HClaim.revoked x) eqn:E; [|destruct (Host.is_open _)]; [|by right|]; left; unfold Host.give_back, Host.wake_front;
      destruct (negb _); cbn; destruct (Host.queue h); eauto.
  - left. unfold Host.give_back, Host.wake_front. cbn. destruct (Host.queue h); eauto.
Qed.

Lemma life_publish c s b w : w.(permits) !! c = Some s -> w.(host).(Host.shared) !! s = Some b ->
  slots_ok w -> life_ok w -> life_ok (publishing c s w).
Proof.
  intros Hc Hb Hsl Hok. unfold publishing. pose proof (lives_publish c s (host w)) as Hl.
  pose proof (publish_cases c s (host w)) as Hca. pose proof (sh_binding _ _ (shrinks_publish c s (host w))) as Hnb.
  destruct (Host.publish c s (host w)) as [[r wk] h]. cbn in Hl, Hca, Hnb.
  assert (Hpd : forall c' s', delete c (permits w) !! c' = Some s' -> c' <> c /\ permits w !! c' = Some s')
    by (by intros c' s' [? ?]%lookup_delete_Some).
  destruct Hca as [(e & -> & Hbi)|[-> Hbi]]; cbn [is_ok].
  { apply (life_frame w); try done; cbn; [lia|]. intros c' s' [_ H]%Hpd. by left. }
  destruct Hok as [Ho Hpm Hop Hlv Hrt]. destruct (Hpm _ _ Hc) as [Hno Hse]. split; cbn; rewrite ?Hbi, ?Hnb; setoid_rewrite Hl.
  - apply Ho.
  - intros c' s' [Hne H]%Hpd. destruct (Hpm _ _ H) as [H1 H2]. split; [|done].
    rewrite elem_of_union, elem_of_singleton. intros [->|?]; [|done]. apply Hne. by eapply so_once.
  - intros k. rewrite elem_of_union, elem_of_singleton. intros [->|Hk].
    + split; [set_solver|]. destruct (lives_in (host w) s) as [[[[[a' b'] c'] d'] e']|] eqn:E.
      * rewrite (Hse _ _ _ _ _ eq_refl). eauto.
      * unfold lives_in in E. by rewrite Hb in E.
    + destruct (Hop k Hk) as [H1 H2]. split; [set_solver|done].
  - intros k Hk. destruct (Hlv k Hk) as [H1 H2]. split; [set_solver|done].
  - apply Hrt.
Qed.

Lemma life_opening s w : (forall b, w.(host).(Host.shared) !! s = Some b -> more b.(BindingShared.live)) ->
  s ∈ w.(operating) -> life_ok w -> life_ok (opening s w).
Proof.
  intros Hm Hs Hok. unfold opening. pose proof (quiet_open s (host w)) as Hq.
  pose proof (qu_bindings _ _ Hq) as Hbi. pose proof (qu_binding _ _ Hq) as Hnb. clear Hq. unfold Host.open in *.
  destruct (lo_operating w Hok s Hs) as (Hsb & r & l & o & d & Hl).
  assert (Hfr : forall h', (forall k, lives_in h' k = lives_in (host w) k) -> Host.bindings h' = Host.bindings (host w) ->
    Host.next_binding h' = Host.next_binding (host w) -> life_ok (w <| host := h' |> <| lives := lives w |>)).
  { intros h' H1 H2 H3. apply (life_frame w); try done; [cbn; lia|]. intros c k Hc. by left. }
  unfold lives_in in Hl. destruct (Host.shared (host w) !! s) as [b|] eqn:Eb; [|done]. cbn in Hl. injection Hl as Hse Hr Hlv Hop Hd.
  destruct (BindingShared.cancelled b); [by apply Hfr|]. rewrite Hse in *.
  destruct (MuxPair.register _ _ _) as [[[]|e] p]; cbn [is_ok snd] in *.
  2:{ apply Hfr; try done. intros k. rewrite (lives_put s). destruct (decide (k = s)) as [->|]; [|done]. unfold lives_in. by rewrite Eb. }
  destruct Hok as [Ho Hpm Hopr Hlvs Hrt].
  assert (Hw : lives_in (host w) s = Some (false, r, l, o, d)) by (unfold lives_in; rewrite Eb; cbn; unfold life; congruence).
  destruct (Ho _ _ _ _ _ _ Hw) as (Hlt & [Hcnt _] & Hret & Hdone). specialize (Hm b eq_refl). unfold more in Hm.
  assert (Hwrap : wrapping_add_u64 b.(BindingShared.live) 1 = l + 1) by (unfold wrapping_add_u64; rewrite as_u64_id; lia).
  match goal with |- life_ok (w <| host := ?h |> <| lives := _ |>) =>
    pose proof (lives_put s _ (host w) : forall k, lives_in h k = _) as Hl; generalize dependent h end.
  intros h Hbi Hnb Hl. split; cbn; rewrite ?Hbi, ?Hnb; try done.
  - intros k x y z u v. rewrite Hl. destruct (decide (k = s)) as [->|Hne].
    + cbn. intros [= <- <- <- <- <-]. rewrite Hwrap, count_cons_eq. split_and!; [done|lia|lia| |].
      * rewrite Hr. intros Hrr. by destruct (Hret Hrr).
      * intros e He. rewrite Hd in He. destruct (Hdone e He) as [Hrr _]. by destruct (Hret Hrr).
    + rewrite count_cons_ne by done. apply Ho.
  - intros c k Hc. destruct (Hpm _ _ Hc) as [H1 H2]. split; [done|]. intros x y z u v. rewrite Hl.
    destruct (decide (k = s)) as [->|]; [done|apply H2].
  - intros k Hk. destruct (Hopr k Hk) as [H1 H2]. split; [done|]. rewrite Hl. destruct (decide (k = s)) as [->|]; [|done].
    cbn. rewrite Hse. eauto.
  - intros k [->|Hk]%elem_of_cons; rewrite Hl.
    + by rewrite decide_True.
    + destruct (Hlvs k Hk). split; [done|]. destruct (decide (k = s)); eauto.
  - intros k Hk. destruct (Hrt k Hk) as (x & y & z & u & H). rewrite Hl. destruct (decide (k = s)) as [->|]; [|eauto].
    rewrite Hw in H. injection H as _ Hrr _ _ _. by destruct (Hret Hrr).
Qed.

Lemma life_live_drop s w : s ∈ w.(lives) -> life_ok w ->
  life_ok (w <| host := Host.on_shared s (fun b => b <| BindingShared.live := as_u64 (b.(BindingShared.live) - 1) |>) w.(host) |>
             <| lives := take_one s w.(lives) |>).
Proof.
  intros Hs [Ho Hpm Hop Hlv Hrt]. pose proof (count_pos s _ Hs). pose proof (count_le s (lives w)).
  assert (Hl : forall k, lives_in (Host.on_shared s (fun b => b <| BindingShared.live := as_u64 (b.(BindingShared.live) - 1) |>) (host w)) k
    = match lives_in (host w) k with
      | Some (a, b, c, d, e) => Some (a, b, if decide (k = s) then c - 1 else c, d, e)
      | None => None
      end).
  { intros k. rewrite lives_on_shared. destruct (decide (k = s)) as [->|];
      [|by destruct (lives_in (host w) k) as [[[[[a b] c] d] e]|]].
    unfold lives_in. destruct (Host.shared (host w) !! s) as [b|] eqn:E; [|done]. 
    assert (E' : lives_in (host w) s = Some (life b)) by (unfold lives_in; by rewrite E). apply Ho in E' as (_ & [E1 E2] & _).
    assert (E3 : as_u64 (b.(BindingShared.live) - 1) = b.(BindingShared.live) - 1) by (apply as_u64_id; lia).
    cbn. unfold life. cbn. by rewrite E3. }
  split; cbn.
  - intros k x y z u v. rewrite Hl. destruct (lives_in (host w) k) as [[[[[a b] c] d] e]|] eqn:E; [|done].
    intros [= <- <- <- <- <-]. destruct (Ho _ _ _ _ _ _ E) as (H1 & [H2 H2'] & H3 & H4). destruct (decide (k = s)) as [->|Hne].
    + rewrite count_take_eq by done. split_and!; [done|lia|lia| |done]. intros Hb. destruct (H3 Hb). lia.
    + rewrite count_take_ne by done. done.
  - intros c k Hc. destruct (Hpm _ _ Hc) as [H1 H2]. split; [done|]. intros x y z u v. rewrite Hl.
    destruct (lives_in (host w) k) as [[[[[a b] c'] d] e]|] eqn:E; [|done]. intros [= <- <- <- <- <-]. by eapply H2.
  - intros k Hk. destruct (Hop k Hk) as (H1 & r & l & o & d & E). split; [done|]. rewrite Hl, E. eauto.
  - intros k Hk%elem_of_take_one. destruct (Hlv k Hk) as [H1 [[[[[a b] c'] d] e] E]]. split; [done|]. rewrite Hl, E. eauto.
  - intros k Hk. destruct (Hrt k Hk) as (a & l & o & d & E). rewrite Hl, E. eauto.
Qed.

Lemma life_seals s w : s ∈ w.(operating) -> life_ok w ->
  life_ok (w <| host := Host.on_shared s (fun b => b <| BindingShared.sealed := true |>) w.(host) |>
             <| operating := w.(operating) ∖ {[s]} |>).
Proof.
  intros Hs [Ho Hpm Hop Hlv Hrt].
  assert (Hl : forall k, lives_in (Host.on_shared s (fun b => b <| BindingShared.sealed := true |>) (host w)) k
    = match lives_in (host w) k with
      | Some (a, b, c, d, e) => Some (if decide (k = s) then true else a, b, c, d, e)
      | None => None
      end).
  { intros k. rewrite lives_on_shared. destruct (decide (k = s)) as [->|];
      [|by destruct (lives_in (host w) k) as [[[[[a b] c] d] e]|]].
    unfold lives_in. by destruct (Host.shared (host w) !! s). }
  split; cbn.
  - intros k x y z u v. rewrite Hl. destruct (lives_in (host w) k) as [[[[[a b] c] d] e]|] eqn:E; [|done].
    intros [= <- <- <- <- <-]. destruct (Ho _ _ _ _ _ _ E) as (H1 & H2 & H3 & H4). split_and!; [done|apply H2|apply H2| |done].
    intros Hb. destruct (H3 Hb). by destruct (decide _).
  - intros c k Hc. destruct (Hpm _ _ Hc) as [H1 H2]. split; [set_solver|]. intros x y z u v. rewrite Hl.
    destruct (lives_in (host w) k) as [[[[[a b] c'] d] e]|] eqn:E; [|done]. intros [= <- <- <- <- <-].
    rewrite (H2 _ _ _ _ _ eq_refl). destruct (decide (k = s)) as [->|]; [by destruct H1|done].
  - intros k [Hk Hne]%elem_of_difference. destruct (Hop k Hk) as (H1 & r & l & o & d & E). split; [done|]. rewrite Hl, E.
    rewrite decide_False by set_solver. eauto.
  - intros k Hk. destruct (Hlv k Hk) as [H1 [[[[[a b] c'] d] e] E]]. split; [done|]. rewrite Hl, E. eauto.
  - intros k Hk. destruct (Hrt k Hk) as (a & l & o & d & E). rewrite Hl, E. eauto.
Qed.

Lemma life_retire_starts s w : life_ok w -> life_ok (retire_starts s w).
Proof.
  intros Hok. unfold retire_starts, Host.retire_begin. destruct (Host.shared (host w) !! s) as [b|] eqn:Eb; [|by destruct w].
  destruct (_ || _ || _) eqn:Eg; [by destruct w|].
  apply orb_false_iff in Eg as [[Hse%negb_false_iff Hlv%negb_false_iff]%orb_false_iff Hr]. apply Z.eqb_eq in Hlv.
  destruct Hok as [Ho Hpm Hop Hlvs Hrt].
  assert (Ew : lives_in (host w) s = Some (true, false, 0, b.(BindingShared.opened), b.(BindingShared.done)))
    by (unfold lives_in; rewrite Eb; cbn; unfold life; congruence).
  assert (Hl : forall k, lives_in (Host.on_shared s (fun b => b <| BindingShared.retired := true |>) (host w)) k
    = if decide (k = s) then Some (true, true, 0, b.(BindingShared.opened), b.(BindingShared.done)) else lives_in (host w) k).
  { intros k. rewrite lives_on_shared. destruct (decide (k = s)) as [->|]; [|done]. rewrite Eb. cbn. unfold life. cbn. congruence. }
  destruct (Ho _ _ _ _ _ _ Ew) as (H1 & H2 & H3 & H4). split; cbn.
  - intros k x y z u v. rewrite Hl. destruct (decide (k = s)) as [->|]; [|apply Ho]. intros [= <- <- <- <- <-].
    split_and!; [done|apply H2|apply H2|done|]. intros e He. by destruct (H4 e He).
  - intros c k Hc. destruct (Hpm _ _ Hc) as [H5 H6]. split; [done|]. intros x y z u v. rewrite Hl.
    destruct (decide (k = s)) as [->|]; [|apply H6]. apply H6 in Ew. done.
  - intros k Hk. destruct (Hop k Hk) as (H5 & r & l & o & d & E). split; [done|]. rewrite Hl.
    destruct (decide (k = s)) as [->|]; [congruence|eauto].
  - intros k Hk. destruct (Hlvs k Hk) as [H5 H6]. split; [done|]. rewrite Hl. destruct (decide _); eauto.
  - intros k Hk. rewrite Hl. destruct (decide (k = s)) as [->|Hne]; [eauto|]. apply Hrt.
    rewrite elem_of_union, elem_of_singleton in Hk. tauto.
Qed.

Lemma retired_not_held s w : life_ok w -> s ∈ w.(retiring) \/ s ∈ w.(reporting) -> s ∉ w.(operating) /\ s ∉ w.(lives).
Proof.
  intros [Ho Hpm Hop Hlv Hrt] Hs. destruct (Hrt s Hs) as (a & l & o & d & E).
  destruct (Ho _ _ _ _ _ _ E) as (_ & [H2 _] & H3 & _). destruct (H3 eq_refl) as [-> H4]. split.
  - intros (_ & ? & ? & ? & ? & E')%Hop. congruence.
  - apply count_zero. lia.
Qed.

Lemma life_retire_ends s w : s ∈ w.(retiring) -> life_ok w ->
  life_ok (w <| host := (Host.retire_end s w.(host)).2 |> <| retiring := w.(retiring) ∖ {[s]} |>
             <| reporting := {[s]} ∪ w.(reporting) |>).
Proof.
  intros Hs Hok. destruct (retired_not_held s w Hok ltac:(by left)) as [Hno Hnl]. destruct Hok as [Ho Hpm Hop Hlv Hrt].
  assert (Hl : forall k, lives_in (Host.retire_end s (host w)).2 k = lives_in (host w) k)
    by (intros k; unfold Host.retire_end; rewrite lives_wake_front; by case_bool_decide).
  assert (Hb : forall k, k <> s -> k ∈ Host.bindings (host w) -> k ∈ Host.bindings (Host.retire_end s (host w)).2).
  { intros k Hk Hin. unfold Host.retire_end. rewrite (qu_bindings _ _ (quiet_wake_front _)). case_bool_decide; [|done]. set_solver. }
  assert (Hn : Host.next_binding (Host.retire_end s (host w)).2 = Host.next_binding (host w)) by apply shrinks_retire_end.
  generalize dependent (Host.retire_end s (host w)).2. intros h Hl Hb Hn. split; cbn; rewrite ?Hn; setoid_rewrite Hl; [done..| | |].
  - intros k Hk. destruct (Hop k Hk). split; [|done]. apply Hb; [by intros ->|done].
  - intros k Hk. destruct (Hlv k Hk). split; [|done]. apply Hb; [by intros ->|done].
  - intros k Hk. apply Hrt. destruct (decide (k = s)) as [->|]; [by left|set_solver].
Qed.

Lemma life_reports s cleanup w : s ∈ w.(reporting) -> life_ok w ->
  life_ok (w <| host := Host.report_done s cleanup w.(host) |> <| reporting := w.(reporting) ∖ {[s]} |>).
Proof.
  intros Hs Hok. destruct Hok as [Ho Hpm Hop Hlv Hrt]. destruct (Hrt s ltac:(by right)) as (a & l & o & d & E).
  destruct (Ho _ _ _ _ _ _ E) as (H1 & H2 & H3 & H4).
  assert (Hs' : exists d', lives_in (Host.report_done s cleanup (host w)) s = Some (a, true, l, o, Some d')
    /\ d'.(OperationEnd.exchanges_opened) = o).
  { unfold Host.report_done. rewrite lives_on_shared, decide_True by done.
    unfold lives_in in E. destruct (Host.shared (host w) !! s) as [b|] eqn:Eb; [|done]. cbn in E. injection E as E1 E2 E3 E4 E5.
    cbn. rewrite E5. destruct d as [e|]; cbn.
    - exists e. split; [unfold life; congruence|]. by apply H4.
    - eexists. unfold life. cbn. rewrite E1, E2, E3, E4. done. }
  assert (Hn : forall k, k <> s -> lives_in (Host.report_done s cleanup (host w)) k = lives_in (host w) k)
    by (intros k Hk; unfold Host.report_done; by rewrite lives_on_shared, decide_False).
  destruct Hs' as (d' & Ed & Hd'). pose proof (quiet_report_done s cleanup (host w)) as Hq.
  pose proof (qu_bindings _ _ Hq) as Hb. pose proof (qu_binding _ _ Hq) as Hnb. clear Hq.
  generalize dependent (Host.report_done s cleanup (host w)). intros h Ed Hn Hb Hnb. split; cbn; rewrite ?Hb, ?Hnb.
  - intros k x y z u v. destruct (decide (k = s)) as [->|Hk]; [|rewrite Hn by done; apply Ho]. rewrite Ed.
    intros [= <- <- <- <- <-]. split_and!; [done|apply H2|apply H2|done|]. by intros e [= <-].
  - intros c k Hc. destruct (Hpm _ _ Hc) as [H5 H6]. split; [done|]. intros x y z u v.
    destruct (decide (k = s)) as [->|Hk]; [|rewrite Hn by done; apply H6]. rewrite Ed. intros [= <- <- <- <- <-]. by eapply H6.
  - intros k Hk. destruct (Hop k Hk) as (H5 & r & l' & o' & e & E'). split; [done|].
    destruct (decide (k = s)) as [->|Hne]; [|rewrite Hn by done; eauto]. rewrite E in E'. simplify_eq. eauto.
  - intros k Hk. destruct (Hlv k Hk) as [H5 H6]. split; [done|]. destruct (decide (k = s)) as [->|Hne]; [eauto|by rewrite Hn].
  - intros k Hk. destruct (decide (k = s)) as [->|Hne]; [eauto|]. rewrite Hn by done. apply Hrt. set_solver.
Qed.

Lemma life_taken id waker w : more w.(host).(Host.next_claim) -> slots_ok w -> life_ok w -> life_ok (taken id waker w).
Proof.
  intros Hm Hsl Hok. unfold taken, Host.take_slot. destruct (Host.is_open (host w)); cbn [negb].
  2:{ apply (life_frame w); try done. intros c s Hc. by left. }
  destruct (_ && _); [destruct (checked_add_u64 _ 1) as [next|] eqn:En|].
  - unfold checked_add_u64 in En. destruct (_ <=? _); [|done]. injection En as <-.
    apply (life_frame w); try done; cbn; [lia|]. intros c s [[_ <-]|[_ Hc]]%lookup_insert_Some; [by right|by left].
  - apply (life_frame w); try done. intros c s Hc. by left.
  - apply (life_frame w); try done. intros c s Hc. by left.
Qed.

Lemma life_drop_claim c w : life_ok w ->
  life_ok (w <| host := (Host.drop_claim c w.(host)).2 |> <| permits := delete c w.(permits) |>).
Proof.
  apply life_frame; try done; cbn.
  - intros s. unfold Host.drop_claim. rewrite lives_wake_front. unfold Host.give_back.
    destruct (_ !! c) as [x|]; [destruct (negb _)|]; done.
  - unfold Host.drop_claim. rewrite (qu_bindings _ _ (quiet_wake_front _)). unfold Host.give_back.
    destruct (_ !! c) as [x|]; [destruct (negb _)|]; done.
  - pose proof (sh_binding _ _ (shrinks_drop_claim c (host w))). lia.
  - intros c' s [_ H]%lookup_delete_Some. by left.
Qed.

(** The steps that change neither the lives nor the table. *)
Lemma life_quiet w w' : (forall k, lives_in w'.(host) k = lives_in w.(host) k) -> quiet w.(host) w'.(host) ->
  w'.(permits) = w.(permits) -> w'.(operating) = w.(operating) -> w'.(lives) = w.(lives) ->
  w'.(retiring) = w.(retiring) -> w'.(reporting) = w.(reporting) -> life_ok w -> life_ok w'.
Proof.
  intros Hl Hq Hp. intros. apply (life_frame w); try done; [apply Hq|rewrite (qu_binding _ _ Hq); lia|].
  rewrite Hp. intros c s Hc. by left.
Qed.

Lemma lives_attach_begin profile idle h k : lives_in (Host.attach_begin limits profile idle h).2 k = lives_in h k.
Proof.
  unfold Host.attach_begin. destruct (negb _); [done|]. destruct (Host.find_profile profile h); [done|].
  destruct (_ <=? _); [|done]. unfold Host.take_least_recently_used_unbound. by destruct (Host.least_used _ _).
Qed.

Lemma lives_attach_end profile ok fresh h k : lives_in (Host.attach_end profile ok fresh h).2 k = lives_in h k.
Proof.
  unfold Host.attach_end. destruct (negb _); [done|]. destruct (Host.is_open _); [|done]. by destruct (Host.find_profile _ _).
Qed.

Lemma life_step w w' : hstep w w' -> slots_ok w -> life_ok w -> life_ok w'.
Proof.
  intros Hs Hsl Hok. destruct Hs.
  - unfold Host.enqueue in *. destruct (negb _); [done|]. destruct (_ <=? _); [done|]. simplify_eq.
    apply (life_frame w); try done. intros c s Hc. by left.
  - by apply life_taken.
  - apply (life_quiet w); try done; [|apply quiet_dequeue]. intros k. cbn. unfold Host.dequeue. by rewrite lives_wake_front.
  - by eapply life_prepare.
  - by apply life_drop_claim.
  - by eapply life_publish.
  - by apply life_opening.
  - by apply life_live_drop.
  - by apply life_seals.
  - by apply life_retire_starts.
  - by apply life_retire_ends.
  - by apply life_reports.
  - apply (life_quiet w); try done; [intros k; apply lives_cancel_flag|apply quiet_cancel_flag].
  - apply (life_quiet w); try done; [intros k; apply lives_route|apply quiet_route].
  - apply (life_frame w); try done; [intros k; apply lives_seal| | |]; cbn.
    + unfold Host.seal. destruct (Host.close (host w)); reflexivity.
    + unfold Host.seal. destruct (Host.close (host w)); cbn; lia.
    + intros c s Hc. by left.
  - apply (life_quiet w); try done. by apply quiet_close_finish.
  - unfold attach_starts. pose proof (quiet_attach_begin profile idle (host w)) as Hq.
    pose proof (lives_attach_begin profile idle (host w)) as Hl.
    destruct (Host.attach_begin limits profile idle (host w)) as [[[]|] h]; by apply (life_quiet w).
  - apply (life_quiet w); try done. apply quiet_attach_undo.
  - unfold attach_ends. pose proof (quiet_attach_end profile ok fresh (host w)) as Hq.
    pose proof (lives_attach_end profile ok fresh (host w)) as Hl.
    destruct (Host.attach_end profile ok fresh (host w)) as [r h]. by apply (life_quiet w).
  - apply (life_quiet w); try done. quiet_same.
Qed.

(** ** One report *)

(** What an object reports as its end, if it is there. *)
Definition done_in (h : Host.t) (s : Z) : option (option OperationEnd.t) := option_map BindingShared.done (h.(Host.shared) !! s).
Lemma done_of_lives h h' s : lives_in h' s = lives_in h s -> done_in h' s = done_in h s.
Proof.
  unfold lives_in, done_in. destruct (Host.shared h' !! s), (Host.shared h !! s); try done. intros [= _ _ _ _ E]. cbn. by rewrite E.
Qed.
Lemma done_on_shared s f h : (forall b, (f b).(BindingShared.done) = b.(BindingShared.done)) -> forall k, done_in (Host.on_shared s f h) k = done_in h k.
Proof.
  intros Hf k. unfold done_in, Host.on_shared. cbn. destruct (decide (k = s)) as [->|]; [rewrite lookup_alter_eq|by rewrite lookup_alter_ne].
  destruct (Host.shared h !! s); [cbn; by rewrite Hf|done].
Qed.
Lemma done_open s h k : done_in (Host.open s h).2 k = done_in h k.
Proof.
  unfold Host.open. destruct (Host.shared h !! s) as [b|] eqn:Eb; [|done].
  destruct (BindingShared.cancelled b); [done|]. destruct (BindingShared.sealed b); [done|]. destruct (MuxPair.register _ _ _) as [[|] halves];
    unfold done_in; cbn; (destruct (decide (k = s)) as [->|]; [by rewrite lookup_insert_eq, Eb|by rewrite lookup_insert_ne]).
Qed.
(** Whoever retires a binding has not reported its end yet, and does so once. *)
Record once_ok (w : hworld) : Prop := {
  oc_apart : forall s, s ∈ w.(retiring) -> s ∉ w.(reporting);
  oc_none : forall s, s ∈ w.(retiring) \/ s ∈ w.(reporting) -> done_in w.(host) s = Some None;
}.
Definition done_kept (w w' : hworld) : Prop := forall s e, done_in w.(host) s = Some (Some e) ->
  done_in w'.(host) s = Some (Some e) /\ s ∉ w'.(retiring) /\ s ∉ w'.(reporting).
Lemma once_not w s e : once_ok w -> done_in w.(host) s = Some (Some e) -> s ∉ w.(retiring) /\ s ∉ w.(reporting).
Proof. intros [_ O2] Hd. split; intros Hs; specialize (O2 s); naive_solver. Qed.
Lemma once_frame w w' : (forall s d, done_in w.(host) s = Some d -> done_in w'.(host) s = Some d) ->
  w'.(retiring) = w.(retiring) -> w'.(reporting) = w.(reporting) -> once_ok w -> once_ok w' /\ done_kept w w'.
Proof.
  intros Hd Ht Hp O. split.
  - destruct O as [O1 O2]. split; rewrite Ht, Hp; auto.
  - intros s e He. rewrite Ht, Hp. split; [auto|by eapply once_not].
Qed.
Lemma once_same w w' : (forall s, done_in w'.(host) s = done_in w.(host) s) ->
  w'.(retiring) = w.(retiring) -> w'.(reporting) = w.(reporting) -> once_ok w -> once_ok w' /\ done_kept w w'.
Proof. intros Hd. apply once_frame. intros s d. by rewrite Hd. Qed.
Lemma once_retire_starts s w : life_ok w -> once_ok w -> once_ok (retire_starts s w) /\ done_kept w (retire_starts s w).
Proof.
  intros Hok O. unfold retire_starts, Host.retire_begin. destruct (Host.shared (host w) !! s) as [b|] eqn:Eb; [|by apply once_same].
  destruct (_ || _ || _) eqn:Eg; [by apply once_same|]. apply orb_false_iff in Eg as [_ Hr].
  assert (El : lives_in (host w) s = Some (life b)) by (unfold lives_in; by rewrite Eb).
  assert (Hnew : s ∉ w.(retiring) /\ s ∉ w.(reporting)).
  { split; intros Hs; destruct (lo_retiring _ Hok s) as (? & ? & ? & ? & E); auto; rewrite El in E; unfold life in E; congruence. }
  assert (Hnone : done_in (host w) s = Some None).
  { unfold done_in. rewrite Eb. cbn. destruct (b.(BindingShared.done)) as [e|] eqn:Ed; [|done].
    destruct (lo_object _ Hok _ _ _ _ _ _ El) as (_ & _ & _ & H4). destruct (H4 e Ed). congruence. }
  assert (Hd : forall k, done_in (Host.on_shared s (fun b => b <| BindingShared.retired := true |>) (host w)) k = done_in (host w) k)
    by (by apply done_on_shared).
  destruct O as [O1 O2]. split.
  - split; cbn -[Host.on_shared done_in]; intros k Hk; rewrite ?Hd; set_solver.
  - intros k e He. cbn -[Host.on_shared done_in]. rewrite Hd. pose proof (once_not w k e (Build_once_ok _ O1 O2) He). set_solver.
Qed.
Lemma once_retire_ends s w : s ∈ w.(retiring) -> once_ok w ->
  let w' := w <| host := (Host.retire_end s w.(host)).2 |> <| retiring := w.(retiring) ∖ {[s]} |> <| reporting := {[s]} ∪ w.(reporting) |> in
  once_ok w' /\ done_kept w w'.
Proof.
  intros Hs [O1 O2] w'. assert (Hd : forall k, done_in (host w') k = done_in (host w) k).
  { intros k. apply done_of_lives. cbn. unfold Host.retire_end. rewrite lives_wake_front. by case_bool_decide. }
  split.
  - split; intros k Hk; rewrite ?Hd; subst w'; cbn in *; set_solver.
  - intros k e He. rewrite Hd. pose proof (once_not w k e (Build_once_ok _ O1 O2) He) as [N1 N2]. subst w'. cbn. set_solver.
Qed.
Lemma once_reports s cleanup w : s ∈ w.(reporting) -> once_ok w ->
  let w' := w <| host := Host.report_done s cleanup w.(host) |> <| reporting := w.(reporting) ∖ {[s]} |> in
  once_ok w' /\ done_kept w w'.
Proof.
  intros Hs [O1 O2] w'. assert (Hd : forall k, k <> s -> done_in (host w') k = done_in (host w) k).
  { intros k Hk. unfold done_in, w', Host.report_done, Host.on_shared. cbn. by rewrite lookup_alter_ne. }
  split.
  - split; intros k Hk.
    + subst w'. cbn in *. set_solver.
    + rewrite Hd by (intros ->; subst w'; cbn in *; set_solver). apply O2. subst w'. cbn in *. set_solver.
  - intros k e He. pose proof (once_not w k e (Build_once_ok _ O1 O2) He) as [N1 N2].
    rewrite Hd by (intros ->; done). subst w'. cbn. set_solver.
Qed.
Lemma once_step w w' : hstep w w' -> life_ok w -> once_ok w -> once_ok w' /\ done_kept w w'.
Proof.
  intros Hs Hok O. destruct Hs.
  - unfold Host.enqueue in *. destruct (negb _); [done|]. destruct (_ <=? _); [done|]. simplify_eq. by apply once_same.
  - unfold taken, Host.take_slot. destruct (negb _); [by apply once_same|].
    destruct (_ && _); [destruct (checked_add_u64 _ 1)|]; by apply once_same.
  - apply once_same; try done. intros k. apply done_of_lives. cbn. unfold Host.dequeue. by rewrite lives_wake_front.
  - apply once_frame; try done. intros k d Hd. unfold done_in in *. cbn.
    destruct (decide (k = s)) as [->|]; [match goal with H : _ !! s = None |- _ => by rewrite H in Hd end|by rewrite lookup_insert_ne].
  - apply once_same; try done. intros k. apply done_of_lives. cbn. unfold Host.drop_claim. rewrite lives_wake_front. unfold Host.give_back.
    destruct (Host.claims (host w) !! c) as [x|]; [destruct (HClaim.released x)|]; done.
  - unfold publishing. pose proof (lives_publish c s (host w)) as Hl. destruct (Host.publish c s (host w)) as [[r wk] h].
    apply once_same; try done. intros k. by apply done_of_lives.
  - unfold opening. pose proof (done_open s (host w)) as Hd. destruct (Host.open s (host w)) as [r h]. by apply once_same.
  - apply once_same; try done. by apply done_on_shared.
  - apply once_same; try done. by apply done_on_shared.
  - by apply once_retire_starts.
  - by apply once_retire_ends.
  - by apply once_reports.
  - apply once_same; try done. intros k. apply done_of_lives, lives_cancel_flag.
  - apply once_same; try done. intros k. apply done_of_lives, lives_route.
  - apply once_same; try done. intros k. apply done_of_lives, lives_seal.
  - by apply once_same.
  - unfold attach_starts. pose proof (lives_attach_begin profile idle (host w)) as Hl.
    destruct (Host.attach_begin limits profile idle (host w)) as [[[]|] h]; apply once_same; try done; intros k; by apply done_of_lives.
  - by apply once_same.
  - unfold attach_ends. pose proof (lives_attach_end profile ok fresh (host w)) as Hl.
    destruct (Host.attach_end profile ok fresh (host w)) as [r h]. apply once_same; try done. intros k. by apply done_of_lives.
  - by apply once_same.
Qed.
Lemma life_reachable w : hreachable w -> life_ok w.
Proof.
  revert w. apply hreachable_ind; [|intros a b Ha Hl Hs; by eapply life_step; [..|apply slots_reachable|]].
  split; cbn; try done; [intros s Hs; by apply not_elem_of_nil in Hs|]. intros s [Hs|Hs]; set_solver.
Qed.
Lemma once_reachable w : hreachable w -> once_ok w.
Proof.
  revert w. apply hreachable_ind; [|intros a b Ha Ho Hs; by apply (once_step a b Hs (life_reachable a Ha) Ho)].
  split; cbn; intros s; set_solver.
Qed.
Lemma hsteps_trans a b c : hsteps a b -> hsteps b c -> hsteps a c.
Proof. intros Hab Hbc. induction Hbc as [|b x y Hbx IH Hxy]; [done|]. eapply hsteps_next; [by apply IH|done]. Qed.
Lemma done_kept_steps w w' : hreachable w -> hsteps w w' -> done_kept w w'.
Proof.
  intros Hr Hs. assert (Hgo : once_ok w' /\ done_kept w w'); [|by destruct Hgo].
  induction Hs as [w|a b c Hab IH Hbc].
  - pose proof (once_reachable w Hr) as O. split; [done|]. intros s e He. split; [done|]. by eapply once_not.
  - destruct (IH Hr) as [Ob Kb]. assert (Hb : hreachable b) by (unfold hreachable in *; by eapply hsteps_trans).
    destruct (once_step b c Hbc (life_reachable b Hb) Ob) as [Oc Kc]. split; [done|].
    intros s e He. apply Kc. by apply Kb.
Qed.

(** C27: a binding ends exactly once and never too early: while its operation can open
    or an exchange of it lives it stays in the table and is not retired, its counter of
    live exchanges is the number of them, and the end it reports has the number of
    exchanges that were opened and is written only after the last of them.  From then on
    nobody retires or reports it again, and the end it reported stands whatever comes. *)
Theorem ends_after_last_exchange w :
  hreachable w ->
  (forall s, s ∈ w.(operating) \/ s ∈ w.(lives) -> s ∈ w.(host).(Host.bindings))
  /\ (forall s b, w.(host).(Host.shared) !! s = Some b ->
        b.(BindingShared.live) = count s w.(lives)
        /\ (b.(BindingShared.retired) = true -> s ∉ w.(operating) /\ s ∉ w.(lives))
        /\ (forall e, b.(BindingShared.done) = Some e ->
              b.(BindingShared.retired) = true /\ e.(OperationEnd.exchanges_opened) = b.(BindingShared.opened)
              /\ forall w', hsteps w w' -> s ∉ w'.(retiring) /\ s ∉ w'.(reporting)
                 /\ exists b', w'.(host).(Host.shared) !! s = Some b' /\ b'.(BindingShared.done) = Some e)).
Proof.
  intros Hr. destruct (life_reachable w Hr) as [Ho Hpm Hop Hlv Hrt]. split.
  - intros s [Hs|Hs]; [by apply Hop|by apply Hlv].
  - intros s b Hb. assert (E : lives_in (host w) s = Some (life b)) by (unfold lives_in; by rewrite Hb).
    destruct (Ho _ _ _ _ _ _ E) as (_ & [H2 _] & H3 & H4). split_and!; [done| |].
    + intros Hre. destruct (H3 Hre) as [H5 H6]. split.
      * intros (_ & ? & ? & ? & ? & E')%Hop. rewrite E in E'. unfold life in E'. congruence.
      * apply count_zero. lia.
    + intros e He. destruct (H4 e He) as [H5 H6]. split_and!; [done..|]. intros w' Hs.
      destruct (done_kept_steps w w' Hr Hs s e) as (K1 & K2 & K3); [unfold done_in; rewrite Hb; cbn; by rewrite He|].
      split_and!; [done..|]. unfold done_in in K1. destruct (Host.shared (host w') !! s) as [b'|]; [|done]. exists b'. by injection K1.
Qed.

(** ** The instance registry *)

Hypothesis instances_fit : 0 <= limits.(HostLimits.endpoint_instances) <= U64_MAX.

Record registry_ok (w : hworld) : Prop := {
  ro_creating : w.(host).(Host.creating) = w.(makings) /\ 0 <= w.(makings);
  ro_bound : len w.(host).(Host.instances) + w.(makings) <= limits.(HostLimits.endpoint_instances);
  ro_profiles : NoDup (map HInstance.profile w.(host).(Host.instances));
  ro_serials : NoDup (map HInstance.serial w.(host).(Host.instances));
  ro_made : forall i, i ∈ w.(host).(Host.instances) -> i.(HInstance.serial) ∈ w.(made);
  ro_holdings : forall s, s ∈ w.(holdings) -> s ∈ w.(made);
  ro_holds : forall i, i ∈ w.(host).(Host.instances) ->
    i.(HInstance.holds) = count i.(HInstance.serial) w.(holdings) /\ i.(HInstance.holds) <= U64_MAX;
  ro_held : w.(host).(Host.close) = None -> forall s, s ∈ w.(holdings) -> s ∈ map HInstance.serial w.(host).(Host.instances);
  ro_sealed : is_Some w.(host).(Host.close) -> w.(host).(Host.instances) = [];
}.

Lemma same_as_spec a b : EndpointProfile.same_as a b = true <-> a = b.
Proof.
  unfold EndpointProfile.same_as. rewrite andb_true_iff, !bool_decide_eq_true. destruct a, b. cbn.
  split; [intros [-> ->]; done|by intros [= -> ->]].
Qed.

Lemma find_profile_none profile h : Host.find_profile profile h = None -> profile ∉ map HInstance.profile h.(Host.instances).
Proof.
  intros Hn Hin. apply list_elem_of_In, in_map_iff in Hin as (i & Hi & Hin).
  pose proof (List.find_none _ _ Hn i Hin) as H. cbv beta in H. apply not_true_iff_false in H. apply H. by apply same_as_spec.
Qed.

Lemma find_profile_some profile h i : Host.find_profile profile h = Some i -> i ∈ h.(Host.instances).
Proof. intros [Hi _]%List.find_some. by apply list_elem_of_In. Qed.

(** A step that leaves the registry and its holders alone. *)
Lemma registry_same w w' : w'.(host).(Host.instances) = w.(host).(Host.instances) ->
  w'.(host).(Host.creating) = w.(host).(Host.creating) ->
  (is_Some w'.(host).(Host.close) <-> is_Some w.(host).(Host.close)) ->
  w'.(makings) = w.(makings) -> w'.(holdings) = w.(holdings) -> w'.(made) = w.(made) -> registry_ok w -> registry_ok w'.
Proof.
  intros E1 E2 E3 E4 E5 E6 []. split; rewrite ?E1, ?E2, ?E4, ?E5, ?E6; try done.
  - intros Hc. apply ro_held0. destruct (Host.close (host w)) eqn:E; [|done].
    destruct (proj2 E3 ltac:(eauto)) as [? H]. congruence.
  - intros Hc. by apply ro_sealed0, E3.
Qed.

(** [hold] on the registry. *)
Lemma hold_serials s h : map HInstance.serial (Host.hold s h).(Host.instances) = map HInstance.serial h.(Host.instances).
Proof. cbn. rewrite map_map. apply map_ext. intros i. by destruct (_ =? _). Qed.
Lemma hold_profiles s h : map HInstance.profile (Host.hold s h).(Host.instances) = map HInstance.profile h.(Host.instances).
Proof. cbn. rewrite map_map. apply map_ext. intros i. by destruct (_ =? _). Qed.

Lemma registry_hold s w h : h = Host.hold s w.(host) -> s ∈ map HInstance.serial w.(host).(Host.instances) ->
  len w.(holdings) < U64_MAX -> registry_ok w -> registry_ok (w <| host := h |> <| holdings := s :: w.(holdings) |>).
Proof.
  intros -> Hs Hlen [Hc Hb Hp Hse Hm Hhm Hh Hd Hsl].
  assert (Hel : forall i, i ∈ (Host.hold s (host w)).(Host.instances) -> exists j, j ∈ (host w).(Host.instances)
    /\ i.(HInstance.serial) = j.(HInstance.serial)
    /\ i.(HInstance.holds) = if j.(HInstance.serial) =? s then wrapping_add_u64 j.(HInstance.holds) 1 else j.(HInstance.holds)).
  { intros i Hi. cbn in Hi. apply list_elem_of_In, in_map_iff in Hi as (j & <- & Hj%list_elem_of_In). exists j.
    split; [done|]. destruct (_ =? s); done. }
  pose proof (hold_serials s (host w)) as H1. pose proof (hold_profiles s (host w)) as H2.
  assert (H3 : length (Host.hold s (host w)).(Host.instances) = length (host w).(Host.instances)) by (cbn; apply length_map).
  assert (H4 : Host.creating (Host.hold s (host w)) = Host.creating (host w)) by done.
  assert (H5 : Host.close (Host.hold s (host w)) = Host.close (host w)) by done.
  generalize dependent (Host.hold s (host w)). intros h Hel H1 H2 H3 H4 H5.
  split; cbn; rewrite ?H1, ?H2, ?H3, ?H4, ?H5; try done.
  - intros i Hi. destruct (Hel i Hi) as (j & Hj & -> & _). by apply Hm.
  - intros k [->|Hk]%elem_of_cons; [|by apply Hhm]. apply list_elem_of_In, in_map_iff in Hs as (j & <- & Hj%list_elem_of_In). by apply Hm.
  - intros i Hi. destruct (Hel i Hi) as (j & Hj & -> & ->). destruct (Hh j Hj) as [E1 E2].
    destruct (HInstance.serial j =? s) eqn:E.
    + apply Z.eqb_eq in E as <-. pose proof (count_le (HInstance.serial j) (holdings w)).
      unfold wrapping_add_u64. rewrite as_u64_id by lia. rewrite count_cons_eq. lia.
    + apply Z.eqb_neq in E. by rewrite count_cons_ne.
  - intros Hcl k [->|Hk]%elem_of_cons; [done|by apply Hd].
  - intros Hcl. specialize (Hsl Hcl). rewrite Hsl in H3. by apply length_zero_iff_nil in H3.
Qed.

Lemma registry_drop_hold s w : s ∈ w.(holdings) -> registry_ok w ->
  registry_ok (w <| host := Host.drop_hold s w.(host) |> <| holdings := take_one s w.(holdings) |>).
Proof.
  intros Hs [Hc Hb Hp Hse Hm Hhm Hh Hd Hsl].
  assert (Hel : forall i, i ∈ (Host.drop_hold s (host w)).(Host.instances) -> exists j, j ∈ (host w).(Host.instances)
    /\ i.(HInstance.serial) = j.(HInstance.serial)
    /\ i.(HInstance.holds) = if j.(HInstance.serial) =? s then as_u64 (j.(HInstance.holds) - 1) else j.(HInstance.holds)).
  { intros i Hi. cbn in Hi. apply list_elem_of_In, in_map_iff in Hi as (j & <- & Hj%list_elem_of_In). exists j.
    split; [done|]. destruct (_ =? s); done. }
  assert (H1 : map HInstance.serial (Host.drop_hold s (host w)).(Host.instances) = map HInstance.serial (host w).(Host.instances))
    by (cbn; rewrite map_map; apply map_ext; intros i; by destruct (_ =? _)).
  assert (H2 : map HInstance.profile (Host.drop_hold s (host w)).(Host.instances) = map HInstance.profile (host w).(Host.instances))
    by (cbn; rewrite map_map; apply map_ext; intros i; by destruct (_ =? _)).
  assert (H3 : length (Host.drop_hold s (host w)).(Host.instances) = length (host w).(Host.instances)) by (cbn; apply length_map).
  assert (H4 : Host.creating (Host.drop_hold s (host w)) = Host.creating (host w)) by done.
  assert (H5 : Host.close (Host.drop_hold s (host w)) = Host.close (host w)) by done.
  generalize dependent (Host.drop_hold s (host w)). intros h Hel H1 H2 H3 H4 H5.
  split; cbn; rewrite ?H1, ?H2, ?H3, ?H4, ?H5; try done.
  - intros i Hi. destruct (Hel i Hi) as (j & Hj & -> & _). by apply Hm.
  - intros k Hk%elem_of_take_one. by apply Hhm.
  - intros i Hi. destruct (Hel i Hi) as (j & Hj & -> & ->). destruct (Hh j Hj) as [E1 E2].
    destruct (HInstance.serial j =? s) eqn:E.
    + apply Z.eqb_eq in E as <-. pose proof (count_pos _ _ Hs). rewrite as_u64_id by lia. rewrite count_take_eq by done. lia.
    + apply Z.eqb_neq in E. by rewrite count_take_ne.
  - intros Hcl k Hk%elem_of_take_one. by apply Hd.
  - intros Hcl. specialize (Hsl Hcl). rewrite Hsl in H3. by apply length_zero_iff_nil in H3.
Qed.

Lemma least_used_in l best i : Host.least_used best l = Some i -> best = Some i \/ i ∈ l.
Proof.
  revert best. induction l as [|x l IH]; intros best H; [by left|]. cbn in H. apply IH in H as [H|H]; [|right; by right].
  destruct best as [b|]; [|injection H as ->; right; left]. destruct (_ <? _); injection H as ->; [right; left|by left].
Qed.

Lemma remove_serial s (l : list HInstance.t) i : NoDup (map HInstance.serial l) -> i ∈ l -> i.(HInstance.serial) = s ->
  len l = len (keep (fun x => negb (x.(HInstance.serial) =? s)) l) + 1.
Proof.
  intros Hn Hi <-. induction l as [|x l IH]; [by apply not_elem_of_nil in Hi|]. cbn in Hn. apply list.NoDup_cons in Hn as [Hx Hn].
  rewrite count_cons. cbn [length]. apply elem_of_cons in Hi as [->|Hi].
  - rewrite Z.eqb_refl. cbn. enough (E : len (keep (fun y => negb (HInstance.serial y =? HInstance.serial x)) l) = len l) by lia.
    f_equal. f_equal. apply keep_every. intros y Hy. apply negb_true_iff, Z.eqb_neq. intros E. apply Hx.
    rewrite <- E. apply list_elem_of_In, in_map, list_elem_of_In, Hy.
  - destruct (HInstance.serial x =? HInstance.serial i) eqn:E.
    + apply Z.eqb_eq in E. exfalso. apply Hx. rewrite E. apply list_elem_of_In, in_map, list_elem_of_In, Hi.
    + cbn. specialize (IH Hn Hi). lia.
Qed.

Lemma registry_reserve retired h w : w.(makings) < U64_MAX ->
  h.(Host.creating) = usize_add w.(host).(Host.creating) 1 -> h.(Host.close) = w.(host).(Host.close) ->
  (match retired with
   | None => h.(Host.instances) = w.(host).(Host.instances)
       /\ len w.(host).(Host.instances) + w.(makings) < limits.(HostLimits.endpoint_instances)
   | Some i => i ∈ w.(host).(Host.instances) /\ i.(HInstance.holds) = 0
       /\ h.(Host.instances) = keep (fun x => negb (x.(HInstance.serial) =? i.(HInstance.serial))) w.(host).(Host.instances)
   end) -> registry_ok w -> registry_ok (w <| host := h |> <| makings := w.(makings) + 1 |>).
Proof.
  intros Hmk Hcr Hcl Hre [[Hc Hc0] Hb Hp Hse Hm Hhm Hh Hd Hsl].
  assert (Hcr' : h.(Host.creating) = w.(makings) + 1).
  { rewrite Hcr, Hc. unfold usize_add, as_usize. apply as_u64_id. lia. }
  destruct retired as [i|].
  - destruct Hre as (Hi & Hz & He). pose proof (remove_serial _ _ i Hse Hi eq_refl) as Hlen. rewrite <- He in Hlen.
    assert (Hsub : forall x, x ∈ h.(Host.instances) -> x ∈ (host w).(Host.instances)) by (intros x; rewrite He; by intros [_ ?]%elem_of_keep).
    split; cbn; rewrite ?Hcl; try done; try lia.
    + rewrite He. eapply sublist_NoDup; [exact Hp|apply sublist_map_keep].
    + rewrite He. eapply sublist_NoDup; [exact Hse|apply sublist_map_keep].
    + intros x Hx. by apply Hm, Hsub.
    + intros x Hx. by apply Hh, Hsub.
    + intros Hcn s Hs. pose proof (Hd Hcn s Hs) as H. apply list_elem_of_In, in_map_iff in H as (x & Hx & Hin%list_elem_of_In).
      rewrite He. apply list_elem_of_In, in_map_iff. exists x. split; [done|]. apply list_elem_of_In, elem_of_keep. split; [|done].
      apply negb_true_iff, Z.eqb_neq. intros E. destruct (Hh i Hi) as [H _]. rewrite Hz, <- E, Hx in H.
      symmetry in H. by apply count_zero in H.
    + intros Hcn. rewrite (Hsl Hcn) in Hi. by apply not_elem_of_nil in Hi.
  - destruct Hre as (He & Hlt). split; cbn; rewrite ?Hcl, ?He; try done; lia.
Qed.

Lemma registry_attach_begin profile idle w : w.(makings) < U64_MAX -> len w.(holdings) < U64_MAX ->
  registry_ok w -> registry_ok (attach_starts profile idle w).
Proof.
  intros Hmk Hlen Hok. unfold attach_starts, Host.attach_begin. destruct (negb _); [by destruct w|].
  destruct (Host.find_profile profile (host w)) as [i|] eqn:Ef.
  { apply registry_hold; try done. apply list_elem_of_In, in_map, list_elem_of_In. by eapply find_profile_some. }
  pose proof Hok as [[Hc Hc0] Hb _ Hse _ _ Hh _ _].
  assert (Hu : usize_add (len (host w).(Host.instances)) (host w).(Host.creating) = len (host w).(Host.instances) + w.(makings)).
  { unfold usize_add, as_usize. rewrite Hc. apply as_u64_id. lia. }
  rewrite Hu. destruct (_ <=? _) eqn:El.
  - unfold Host.take_least_recently_used_unbound. destruct (Host.least_used _ _) as [i|] eqn:Elu; [|by destruct w].
    apply least_used_in in Elu as [?|Hi]; [done|]. apply elem_of_keep in Hi as [Hi Hin]. apply andb_true_iff in Hi as [Hz%Z.eqb_eq _].
    by apply (registry_reserve (Some i)).
  - apply Z.leb_gt in El. by apply (registry_reserve None).
Qed.

Lemma registry_undo w : 0 < w.(makings) -> registry_ok w ->
  registry_ok (w <| host := Host.attach_undo w.(host) |> <| makings := w.(makings) - 1 |>).
Proof.
  intros Hmk [[Hc Hc0] Hb Hp Hse Hm Hhm Hh Hd Hsl]. split; cbn; try done; try lia. split; [|lia]. rewrite Hc.
  unfold usize_sub, as_usize. apply as_u64_id. lia.
Qed.

Lemma registry_attach_end profile ok fresh w : 0 < w.(makings) -> fresh ∉ w.(made) -> len w.(holdings) < U64_MAX ->
  slots_ok w -> registry_ok w -> registry_ok (attach_ends profile ok fresh w).
Proof.
  intros Hmk Hf Hlen Hsl Hok. unfold attach_ends, Host.attach_end. pose proof (registry_undo w Hmk Hok) as Hu.
  set (u := w <| host := Host.attach_undo w.(host) |> <| makings := w.(makings) - 1 |>) in *.
  assert (Hmade : registry_ok (u <| made := {[fresh]} ∪ w.(made) |>)).
  { destruct Hu as [Hc Hb Hp Hse Hm Hhm Hh Hd Hs]. split; try done; cbn; [|intros s Hs'; pose proof (Hhm s Hs'); set_solver].
    intros i Hi. pose proof (Hm i Hi). set_solver. }
  destruct (negb ok); [exact Hmade|]. destruct (Host.is_open _) eqn:Eo; [|exact Hmade].
  assert (Hcl : (host w).(Host.close) = None) by (by apply still_open).
  destruct (Host.find_profile profile _) as [i|] eqn:Ef.
  - assert (Hin : HInstance.serial i ∈ map HInstance.serial (host u).(Host.instances))
      by (apply list_elem_of_In, in_map, list_elem_of_In; by eapply find_profile_some).
    set (u2 := u <| made := {[fresh]} ∪ w.(made) |>) in *.
    pose proof (registry_hold _ u2 _ eq_refl Hin Hlen Hmade) as X. exact X.
  - apply find_profile_none in Ef.
    set (p := u <| made := {[fresh]} ∪ w.(made) |>
        <| host := u.(host) <| Host.instances := u.(host).(Host.instances) ++ [HInstance.mk fresh profile 0 0] |> |>).
    assert (Hp : registry_ok p).
    { destruct Hok as [Hc Hb Hpr Hse Hm Hhm Hh Hd Hs]. split; cbn; rewrite ?Hcl, ?map_app; try done.
      - apply Hmade.
      - rewrite length_app. cbn. lia.
      - apply list.NoDup_app. split_and!; [done| |apply NoDup_singleton]. intros x Hx ->%list_elem_of_singleton. by apply Ef.
      - apply list.NoDup_app. split_and!; [done| |apply NoDup_singleton]. intros x Hx ->%list_elem_of_singleton. cbn in Hx.
        apply list_elem_of_In, in_map_iff in Hx as (y & Hy1 & Hy%list_elem_of_In). apply Hf. rewrite <- Hy1. by apply Hm.
      - intros i [Hi|Hi%list_elem_of_singleton]%elem_of_app; [pose proof (Hm i Hi); set_solver|subst; set_solver].
      - intros s Hs'. pose proof (Hhm s Hs'). set_solver.
      - intros i [Hi|Hi%list_elem_of_singleton]%elem_of_app; [by apply Hh|subst]. cbn. split; [|lia].
        symmetry. apply count_absent. intros H. by apply Hhm in H.
      - intros _ s Hs'. apply elem_of_app. left. by apply Hd. }
    assert (Hin : fresh ∈ map HInstance.serial (host p).(Host.instances))
      by (cbn; rewrite map_app; apply elem_of_app; right; cbn; left).
    pose proof (registry_hold fresh p _ eq_refl Hin Hlen Hp) as X. exact X.
Qed.

Lemma registry_seal reason w : registry_ok w -> registry_ok (w <| host := (Host.seal reason w.(host)).2 |>).
Proof.
  intros Hok. unfold Host.seal. destruct (Host.close (host w)) eqn:E; [by destruct w|]. cbn [snd].
  destruct Hok as [Hc Hb Hp Hse Hm Hhm Hh Hd Hs]. split; cbn; try done; try (constructor; done); try lia;
    intros i Hi; by apply not_elem_of_nil in Hi.
Qed.

(** What the other operations leave of the registry. *)
Definition same_registry (a b : Host.t) : Prop :=
  b.(Host.instances) = a.(Host.instances) /\ b.(Host.creating) = a.(Host.creating)
  /\ (is_Some b.(Host.close) <-> is_Some a.(Host.close)).

Lemma same_registry_trans a b c : same_registry a b -> same_registry b c -> same_registry a c.
Proof. intros (E1 & E2 & E3) (F1 & F2 & F3). unfold same_registry. rewrite F1, F2, F3. done. Qed.
Lemma same_registry_wake h : same_registry h (Host.wake_front h).2.
Proof. unfold Host.wake_front. by destruct (Host.queue h). Qed.
Lemma same_registry_give_back c h : same_registry h (Host.give_back c h).
Proof. unfold Host.give_back. destruct c as [c|]; [destruct (negb _)|]; done. Qed.
Lemma same_registry_cancel s h : same_registry h (Host.cancel_flag s h).2.
Proof. unfold Host.cancel_flag. by destruct (_ !! s). Qed.
Lemma same_registry_publish c s h : same_registry h (Host.publish c s h).2.
Proof.
  unfold Host.publish. set (h' := h <| Host.claims := _ |>).
  assert (He : forall r : TerminalReason.t, same_registry h (let '(waker, self) := Host.wake_front (Host.give_back (Host.claims h !! c) h') in
     (Err r : result unit TerminalReason.t, waker, self)).2).
  { intros r. pose proof (same_registry_wake (Host.give_back (Host.claims h !! c) h')) as Hw. destruct (Host.wake_front _).
    exact (same_registry_trans _ _ _ (same_registry_give_back (Host.claims h !! c) h') Hw). }
  destruct (Host.claims h !! c) as [x|]; [|exact (He _)]. cbn [and_then].
  destruct (HClaim.revoked x); [exact (He _)|]. destruct (Host.is_open h'); [done|exact (He _)].
Qed.
Lemma same_registry_open s h : same_registry h (Host.open s h).2.
Proof.
  unfold Host.open. destruct (_ !! s) as [b|]; [|done]. destruct (BindingShared.cancelled b); [done|].
  destruct (BindingShared.sealed b); [done|]. by destruct (MuxPair.register _ _ _) as [[[]|e] p].
Qed.
Lemma same_registry_route carrier binding direction item h :
  same_registry h (Host.route unstable_sequenced namespace carrier binding direction item h).2.
Proof.
  unfold Host.route. destruct (negb _); [done|]. destruct (negb _); [done|].
  case_bool_decide; [|done]. destruct (_ !! _) as [b|]; [|done].
  destruct (negb _); [done|]. destruct (negb _); [done|].
  destruct (MuxPair.deliver _ _ _ _) as [[[]|e] p]; [done|]. exact (same_registry_trans _ _ _ (conj eq_refl (conj eq_refl (iff_refl _))) (same_registry_cancel _ _)).
Qed.

Lemma registry_step w w' : hstep w w' -> slots_ok w -> registry_ok w -> registry_ok w'.
Proof.
  intros Hst Hsl Hok.
  assert (Hsame : forall w', same_registry (host w) (host w') -> makings w' = makings w -> holdings w' = holdings w ->
    made w' = made w -> registry_ok w') by (intros w1 (E1 & E2 & E3) E4 E5 E6; by apply (registry_same w)).
  destruct Hst.
  - apply Hsame; try done. unfold Host.enqueue in *. destruct (negb _); [done|]. destruct (_ <=? _); [done|]. by simplify_eq.
  - unfold taken, Host.take_slot. destruct (negb _); [by apply Hsame|]. destruct (_ && _); [|by apply Hsame].
    destruct (checked_add_u64 _ _); by apply Hsame.
  - apply Hsame; try done. apply (same_registry_trans _ (Host.remove_waiter id (host w))); [done|apply same_registry_wake].
  - by apply Hsame.
  - apply Hsame; try done. eapply same_registry_trans; [|apply same_registry_wake].
    unfold Host.give_back. destruct (Host.claims _ !! c) as [x|]; [destruct (negb _)|]; done.
  - unfold publishing. pose proof (same_registry_publish c s (host w)). destruct (Host.publish c s (host w)) as [[r wk] h]. by apply Hsame.
  - unfold opening. pose proof (same_registry_open s (host w)). destruct (Host.open s (host w)) as [r h]. by apply Hsame.
  - by apply Hsame.
  - by apply Hsame.
  - unfold retire_starts, Host.retire_begin. destruct (_ !! s); [destruct (_ || _)|]; by apply Hsame.
  - apply Hsame; try done. unfold Host.retire_end. eapply same_registry_trans; [|apply same_registry_wake]. by case_bool_decide.
  - by apply Hsame.
  - apply Hsame; try done. apply same_registry_cancel.
  - apply Hsame; try done. apply same_registry_route.
  - by apply registry_seal.
  - apply Hsame; try done. split_and!; [done..|]. cbn. destruct (Host.close (host w)); split; intros []; eauto.
  - by apply registry_attach_begin.
  - by apply registry_undo.
  - by apply registry_attach_end.
  - by apply registry_drop_hold.
Qed.

(** The registry of instances keeps to its limit through every interleaving of
    attachments, retirements and closes: the instances and those being made are never
    more than the limit, no two serve the same profile, an instance's count of holds is
    the number of them, and while the host is open an instance somebody holds is in the
    registry, so it was not retired to make room. *)
Theorem registry_bounded w :
  hreachable w ->
  len w.(host).(Host.instances) + w.(host).(Host.creating) <= limits.(HostLimits.endpoint_instances)
  /\ (forall i j a b, w.(host).(Host.instances) !! i = Some a -> w.(host).(Host.instances) !! j = Some b ->
        EndpointProfile.same_as a.(HInstance.profile) b.(HInstance.profile) = true -> i = j)
  /\ (forall i, i ∈ w.(host).(Host.instances) -> i.(HInstance.holds) = count i.(HInstance.serial) w.(holdings))
  /\ (w.(host).(Host.close) = None -> forall s, s ∈ w.(holdings) ->
        exists i, i ∈ w.(host).(Host.instances) /\ i.(HInstance.serial) = s).
Proof.
  intros Hr. assert (Hok : registry_ok w).
  { revert w Hr. apply hreachable_ind; [|intros a b Ha Hl Hs; by eapply registry_step; [..|apply slots_reachable|]].
    split; cbn; try done; try (constructor; done); try lia; intros i Hi; by apply not_elem_of_nil in Hi. }
  destruct Hok as [[Hc _] Hb Hp Hse Hm Hhm Hh Hd Hs]. rewrite Hc. split_and!; [done| |by apply Hh|].
  - intros i j a b Ha Hb' E%same_as_spec. eapply NoDup_lookup; [exact Hp| |].
    + rewrite list_lookup_fmap, Ha. done.
    + rewrite list_lookup_fmap, Hb'. cbn. by rewrite E.
  - intros Hcl s Hin. apply (Hd Hcl) in Hin. apply list_elem_of_In, in_map_iff in Hin as (i & <- & Hi%list_elem_of_In). by exists i.
Qed.
End run.
