(* ===== verification/HostCharge.v ===== *)
(** * The retained charge of a connection host

    The budget of host/shared/admit.rs is one atomic counter: a reservation adds to it,
    looks at what was there before, and takes its amount back when the sum is too much.
    Here any number of threads do so at once, each between its addition and its verdict. *)
From S2P Require Import Prelude Utf8 Text TextFacts Cbor Protocol Budget Admission Policy Validate Codec Binding BindingFacts Counting Mux PoolTypes Operation ConnBinding Host.

(** The host, the reservations that have added and not yet looked (with what they will
    see), and the guards that are out. *)
Record charging := Charging {
  host : Host.t;
  pending : list (Z * bool);
  guards : list Z;
}.
#[global] Instance charging_eta : Eta charging := fun r => Charging (r.(host)) (r.(pending)) (r.(guards)).

(** The addition of a reservation and what its check will say. *)
Definition reserves (amount : Z) (w : charging) : charging :=
  let '(before, h) := Host.fetch_add_charge amount w.(host) in
  w <| host := h |> <| pending := (amount, wrapping_add_u64 before amount <=? MAX_HOST_CHARGE) :: w.(pending) |>.

Inductive charge_step (w : charging) : charging -> Prop :=
| Reserves amount : 0 <= amount <= MAX_ADMISSION_CHARGE -> w.(host).(Host.charged) + amount <= U64_MAX ->
    charge_step w (reserves amount w)
| Grants a p q : w.(pending) = p ++ (a, true) :: q ->
    charge_step w (w <| pending := p ++ q |> <| guards := a :: w.(guards) |>)
| Refuses a p q : w.(pending) = p ++ (a, false) :: q ->
    charge_step w (w <| pending := p ++ q |> <| host := Host.drop_charge a w.(host) |>)
| GivesBack a p q : w.(guards) = p ++ a :: q ->
    charge_step w (w <| guards := p ++ q |> <| host := Host.drop_charge a w.(host) |>).

Inductive charge_steps : charging -> charging -> Prop :=
| charge_refl w : charge_steps w w
| charge_next a b c : charge_steps a b -> charge_step b c -> charge_steps a c.

Definition amounts (l : list (Z * bool)) : Z := sum_Z (map fst l).
Definition passing (l : list (Z * bool)) : Z := sum_Z (map (fun e : Z * bool => if e.2 then e.1 else 0) l).

#[local] Arguments sum_Z : simpl never.
#[local] Arguments amounts : simpl never.
#[local] Arguments passing : simpl never.

Lemma sum_Z_cons x l : sum_Z (x :: l) = x + sum_Z l.
Proof. done. Qed.

Record charge_ok (w : charging) : Prop := {
  co_sum : w.(host).(Host.charged) = sum_Z w.(guards) + amounts w.(pending);
  co_range : 0 <= w.(host).(Host.charged) <= U64_MAX;
  co_amounts : (forall e, e ∈ w.(pending) -> 0 <= e.1) /\ (forall a, a ∈ w.(guards) -> 0 <= a);
  co_limit : sum_Z w.(guards) + passing w.(pending) <= MAX_HOST_CHARGE;
}.

Lemma amounts_split p e q : amounts (p ++ e :: q) = amounts (p ++ q) + e.1.
Proof. unfold amounts. rewrite !map_app, !sum_Z_app. cbn [map]. rewrite sum_Z_cons. lia. Qed.
Lemma passing_split p e q : passing (p ++ e :: q) = passing (p ++ q) + (if e.2 then e.1 else 0).
Proof. unfold passing. rewrite !map_app, !sum_Z_app. cbn [map]. rewrite sum_Z_cons. lia. Qed.
Lemma passing_le l : (forall e, e ∈ l -> 0 <= e.1) -> 0 <= passing l <= amounts l.
Proof.
  unfold passing, amounts. induction l as [|[a b] l IH]; intros H; [unfold sum_Z; cbn; lia|]. cbn [map]. rewrite !sum_Z_cons.
  pose proof (H (a, b) ltac:(left)) as Ha. cbn in *. specialize (IH ltac:(intros e He; apply H; by right)). destruct b; lia.
Qed.

Lemma charge_ok_step w w' : charge_step w w' -> charge_ok w -> charge_ok w'.
Proof.
  intros Hs [Hsum Hr [Hp Hg] Hl]. pose proof (passing_le _ Hp) as Hpa. pose proof (sum_Z_nonneg _ Hg) as Hgn.
  destruct Hs as [amount Ha Hw|a p q E|a p q E|a p q E].
  - unfold reserves, Host.fetch_add_charge. assert (Ew : wrapping_add_u64 (host w).(Host.charged) amount = (host w).(Host.charged) + amount)
      by (apply as_u64_id; lia). rewrite Ew. split; cbn; rewrite ?Ew; try lia.
    + unfold amounts, sum_Z in *. cbn. lia.
    + split; [|done]. intros e [->|He]%elem_of_cons; [cbn; lia|by apply Hp].
    + unfold passing, sum_Z in *. cbn. destruct (_ <=? _) eqn:El; [apply Z.leb_le in El|]; lia.
  - rewrite E in *. rewrite amounts_split in *. rewrite passing_split in *. cbn in *. split; cbn; rewrite ?sum_Z_cons; try lia.
    split; [intros e He; apply Hp; set_solver|intros x [->|Hx]%elem_of_cons; [|by apply Hg]].
    apply (Hp (a, true)). set_solver.
  - rewrite E in *. rewrite amounts_split, passing_split in *. cbn in *.
    assert (Ha : 0 <= a) by (apply (Hp (a, false)); set_solver).
    assert (Hr' : forall e, e ∈ p ++ q -> 0 <= e.1) by (intros e He; apply Hp; set_solver). pose proof (passing_le _ Hr').
    assert (Ew : as_u64 ((host w).(Host.charged) - a) = (host w).(Host.charged) - a) by (apply as_u64_id; lia).
    split; cbn; rewrite ?Ew; try lia. by split.
  - rewrite E in *. rewrite sum_Z_app, sum_Z_cons in *.
    assert (Ha : 0 <= a) by (apply Hg; set_solver).
    assert (Hr' : forall e, e ∈ p ++ q -> 0 <= e) by (intros e He; apply Hg; set_solver). pose proof (sum_Z_nonneg _ Hr') as Hq.
    rewrite sum_Z_app in Hq.
    assert (Ew : as_u64 ((host w).(Host.charged) - a) = (host w).(Host.charged) - a) by (apply as_u64_id; lia).
    split; cbn; rewrite ?Ew, ?sum_Z_app; try lia. by split.
Qed.

(** The admissions and operations of a host never retain more than its budget of 64
    MiB together, however their reservations interleave, and the counter always is the
    sum of the guards that are out and of the reservations not yet decided: no refusal
    and no drop loses or doubles a charge. *)
Theorem retained_charge_bounded w :
  charge_steps (Charging Host.new [] []) w ->
  sum_Z w.(guards) <= MAX_HOST_CHARGE
  /\ w.(host).(Host.charged) = sum_Z w.(guards) + amounts w.(pending)
  /\ (w.(pending) = [] -> forall amount, 0 <= amount <= MAX_ADMISSION_CHARGE ->
        (Host.charge amount w.(host)).1
        = if sum_Z w.(guards) + amount <=? MAX_HOST_CHARGE then Ok tt else Err AdmissionError.InputBudget).
Proof.
  intros Hr. assert (Hok : charge_ok w).
  { remember (Charging Host.new [] []) as z eqn:Ez. induction Hr as [w|a b c Hab IH Hbc]; [|by eapply charge_ok_step; [|apply IH]].
    subst. split; [done|cbn; lia| |done]. split; intros ? Hx; by apply not_elem_of_nil in Hx. }
  destruct Hok as [Hs Hra [Hp Hg] Hl]. pose proof (passing_le _ Hp). split_and!; [lia|done|]. intros E amount Ha.
  rewrite E in Hs. change (amounts []) with 0 in Hs. unfold Host.charge, Host.fetch_add_charge.
  assert (E1 : (MAX_ADMISSION_CHARGE <? amount) = false) by (apply Z.ltb_ge; lia). rewrite E1.
  assert (E2 : wrapping_add_u64 (host w).(Host.charged) amount = sum_Z w.(guards) + amount).
  { unfold wrapping_add_u64. rewrite as_u64_id; [lia|]. unfold MAX_HOST_CHARGE, MAX_ADMISSION_CHARGE in *. pose proof (sum_Z_nonneg _ Hg). lia. }
  rewrite E2, Z.leb_antisym. destruct (MAX_HOST_CHARGE <? sum_Z (guards w) + amount); reflexivity.
Qed.
