(* ===== verification/HostAdmission.v ===== *)
(** * An acquisition gives back what it took

    [Host.poll_acquire] is the whole of the acquiring future's poll: the slot, the
    endpoint instance, the two multiplexers.  Each of its refusals has something else to
    give back; here it is shown that none forgets any of it. *)
From S2P Require Import Prelude Utf8 Text TextFacts Cbor Protocol Budget Admission Policy Validate Codec Binding BindingFacts Counting Mux PoolTypes Operation ConnBinding Host HostRun.

Section acquire.
Context {L : Layout}.
Variable unstable_sequenced : bool.
Variable namespace : Z.
Variable limits : HostLimits.t.
Hypothesis slots_fit : 0 <= limits.(HostLimits.active_slots) <= U64_MAX.

(** The slots that are not in a claim. *)
Definition beyond_claims (h : Host.t) : Z := h.(Host.active) - held h.(Host.claims).
Definition accounted (h : Host.t) : Prop := held h.(Host.claims) <= h.(Host.active) <= U64_MAX.

(** The same slots and the same claims, whether or not a seal took their slots. *)
Record same_slots (a b : Host.t) : Prop := {
  ss_accounted : accounted b;
  ss_beyond : beyond_claims b = beyond_claims a;
  ss_claims : dom b.(Host.claims) = dom a.(Host.claims);
  ss_charged : b.(Host.charged) = a.(Host.charged);
}.

Lemma same_slots_trans a b c : same_slots a b -> same_slots b c -> same_slots a c.
Proof. intros [] []. split; try done; congruence. Qed.
Lemma same_slots_of a b : b.(Host.active) = a.(Host.active) -> b.(Host.claims) = a.(Host.claims) ->
  b.(Host.charged) = a.(Host.charged) -> accounted a -> same_slots a b.
Proof. intros E1 E2 E3 Ha. split; unfold accounted, beyond_claims in *; rewrite ?E1, ?E2, ?E3; done. Qed.
Lemma same_slots_wake h : accounted h -> same_slots h (Host.wake_front h).2.
Proof. intros Ha. unfold Host.wake_front. destruct (Host.queue h); by apply same_slots_of. Qed.

Lemma same_slots_seal reason h : accounted h -> same_slots h (Host.seal reason h).2.
Proof.
  intros Ha. unfold Host.seal. destruct (Host.close h); [by apply same_slots_of|]. cbn [snd].
  change (len (keep _ (values (Host.claims h)))) with (held (Host.claims h)). pose proof (held_slots_nonneg (Host.claims h)).
  assert (E : usize_sub h.(Host.active) (held h.(Host.claims)) = h.(Host.active) - held h.(Host.claims))
    by (unfold usize_sub, as_usize, accounted in *; apply as_u64_id; lia).
  assert (Eh : held (HClaim.revoke reason <$> Host.claims h) = 0).
  { unfold held, count_values. set (m := HClaim.revoke _ <$> _) in *.
    destruct (keep (fun c => negb (HClaim.released c)) (values m)) as [|v l] eqn:El; [done|]. exfalso.
    assert (Hin : v ∈ keep (fun c => negb (HClaim.released c)) (values m)) by (rewrite El; left).
    apply elem_of_keep in Hin as [Hr [k Hk]%elem_of_values]. subst m. rewrite lookup_fmap in Hk.
    destruct (Host.claims h !! k); [|done]. cbn in Hk. by injection Hk as <-. }
  unfold accounted in *. split; unfold accounted, beyond_claims; cbn; rewrite ?E, ?Eh; try lia. apply dom_fmap_L.
Qed.

Lemma same_slots_attach_begin profile idle h : accounted h -> same_slots h (Host.attach_begin limits profile idle h).2.
Proof.
  intros Ha. unfold Host.attach_begin. destruct (negb _); [by apply same_slots_of|].
  destruct (Host.find_profile profile h); [by apply same_slots_of|]. destruct (_ <=? _); [|by apply same_slots_of].
  unfold Host.take_least_recently_used_unbound. destruct (Host.least_used _ _); by apply same_slots_of.
Qed.

Lemma same_slots_attach_end profile made fresh h : accounted h -> same_slots h (Host.attach_end profile made fresh h).2.
Proof.
  intros Ha. unfold Host.attach_end. destruct (negb _); [by apply same_slots_of|]. destruct (Host.is_open _); [|by apply same_slots_of].
  destruct (Host.find_profile _ _); by apply same_slots_of.
Qed.

Lemma same_slots_attach profile idle disposed made running fresh h : accounted h ->
  same_slots h (Host.attach_profile limits profile idle disposed made running fresh h).2.
Proof.
  intros Ha. unfold Host.attach_profile. pose proof (same_slots_attach_begin profile idle h Ha) as H1.
  destruct (Host.attach_begin limits profile idle h) as [[[serial|retired]|e] h1]; [done| |done]. cbn [snd] in H1.
  pose proof (ss_accounted _ _ H1) as Ha1. destruct (is_some retired && negb disposed).
  - cbn [snd]. eapply same_slots_trans; [exact H1|]. eapply same_slots_trans; [by apply (same_slots_seal TerminalReason.HostFault)|].
    apply same_slots_of; try done. by apply same_slots_seal.
  - pose proof (same_slots_attach_end profile made fresh h1 Ha1) as H2.
    destruct (Host.attach_end profile made fresh h1) as [[[serial taken]|e] h2]; cbn [snd] in *; [|by eapply same_slots_trans].
    pose proof (same_slots_trans _ _ _ H1 H2) as H3. destruct (taken && negb running); [|done]. cbn [snd].
    eapply same_slots_trans; [exact H3|]. pose proof (ss_accounted _ _ H3) as Ha3.
    eapply same_slots_trans; [by apply (same_slots_seal TerminalReason.HostFault)|].
    apply same_slots_of; try done. by apply same_slots_seal.
Qed.

(** The claim of a grant, dropped again. *)
Lemma drop_claim_slots c h : is_Some (h.(Host.claims) !! c) -> accounted h ->
  accounted (Host.drop_claim c h).2
  /\ beyond_claims (Host.drop_claim c h).2 = beyond_claims h
  /\ dom (Host.drop_claim c h).2.(Host.claims) = dom h.(Host.claims) ∖ {[c]}
  /\ (Host.drop_claim c h).2.(Host.charged) = h.(Host.charged).
Proof.
  intros [x Hx] Ha. unfold Host.drop_claim. rewrite Hx.
  pose proof (count_old (fun c => negb c.(HClaim.released)) _ _ _ Hx) as Hco. fold (held h.(Host.claims)) in Hco.
  fold (held (delete c h.(Host.claims))) in Hco. pose proof (held_slots_nonneg (delete c h.(Host.claims))). cbv beta in Hco.
  set (g := Host.give_back _ _).
  assert (Hg : accounted g /\ beyond_claims g = beyond_claims h /\ g.(Host.claims) = delete c h.(Host.claims)
    /\ g.(Host.charged) = h.(Host.charged)).
  { subst g. unfold Host.give_back, accounted, beyond_claims in *. unfold one_if in Hco. destruct (negb (HClaim.released x)); cbn.
    - assert (E : usize_sub h.(Host.active) 1 = h.(Host.active) - 1) by (unfold usize_sub, as_usize; apply as_u64_id; lia).
      rewrite E. split_and!; try done; lia.
    - split_and!; try done; lia. }
  destruct Hg as (Hg1 & Hg2 & Hg3 & Hg4). destruct (same_slots_wake g Hg1) as [H1 H2 H3 H4].
  split_and!; [done|congruence| |congruence]. rewrite H3, Hg3. apply dom_delete_L.
Qed.

Lemma drop_charge_slots amount h : 0 <= amount <= h.(Host.charged) -> h.(Host.charged) <= U64_MAX ->
  (Host.drop_charge amount h).(Host.charged) = h.(Host.charged) - amount.
Proof. intros Ha Hc. cbn. apply as_u64_id. lia. Qed.

(** What a poll that ended with a refusal has done: [amount] is the charge it held. *)
Definition gave_back (amount : Z) (h h' : Host.t) : Prop :=
  beyond_claims h' = beyond_claims h /\ dom h'.(Host.claims) = dom h.(Host.claims)
  /\ h'.(Host.charged) = h.(Host.charged) - amount.
(** What it has when it ended with a permit. *)
Definition took (permit : LocalPermit.t) (h h' : Host.t) : Prop :=
  beyond_claims h' = beyond_claims h
  /\ dom h'.(Host.claims) = {[permit.(LocalPermit.claim)]} ∪ dom h.(Host.claims)
  /\ h'.(Host.charged) = h.(Host.charged)
  /\ is_Some (h'.(Host.shared) !! permit.(LocalPermit.serial)).

Lemma same_gave_back amount h h' : same_slots h h' -> 0 <= amount <= h.(Host.charged) -> h.(Host.charged) <= U64_MAX ->
  gave_back amount h (Host.drop_charge amount h').
Proof.
  intros [H1 H2 H3 H4] Ha Hc. unfold gave_back. rewrite drop_charge_slots by (rewrite H4; lia). rewrite H4. done.
Qed.

(** The claim [c] is the one that [h'] has more than [h]. *)
Lemma give_up_slots amount c h h1 : accounted h1 -> beyond_claims h1 = beyond_claims h ->
  dom h1.(Host.claims) = {[c]} ∪ dom h.(Host.claims) -> c ∉ dom h.(Host.claims) -> h1.(Host.charged) = h.(Host.charged) ->
  0 <= amount <= h.(Host.charged) -> h.(Host.charged) <= U64_MAX ->
  gave_back amount h (Host.drop_charge amount (Host.drop_claim c h1).2).
Proof.
  intros Ha Hb Hd Hn Hch Ham Hc. destruct (drop_claim_slots c h1) as (H1 & H2 & H3 & H4); [|done|].
  { apply elem_of_dom. rewrite Hd. set_solver. }
  unfold gave_back. rewrite drop_charge_slots by (rewrite H4, Hch; lia). rewrite H4, Hch. split_and!; [|cbn; rewrite H3, Hd; set_solver|done].
  unfold beyond_claims in *. cbn. lia.
Qed.

Lemma after_grant_slots c serial input amount idle disposed made running fresh h h1 :
  accounted h1 -> beyond_claims h1 = beyond_claims h ->
  dom h1.(Host.claims) = {[c]} ∪ dom h.(Host.claims) -> c ∉ dom h.(Host.claims) -> h1.(Host.charged) = h.(Host.charged) ->
  0 <= amount <= h.(Host.charged) -> h.(Host.charged) <= U64_MAX ->
  let '(r, h') := Host.after_grant unstable_sequenced namespace limits c serial input amount idle disposed made running fresh h1 in
  match r with
  | Ok permit => permit.(LocalPermit.claim) = c /\ permit.(LocalPermit.charge) = amount /\ took permit h h'
  | Err _ => gave_back amount h h'
  end.
Proof.
  intros Ha Hb Hd Hn Hch Ham Hc. unfold Host.after_grant.
  pose proof (same_slots_attach (PreparedOperation.profile input) idle disposed made running fresh h1 Ha) as Hs.
  destruct (Host.attach_profile _ _ _ _ _ _ _ h1) as [[instance|e] h2]; cbn [snd] in Hs; destruct Hs as [H1 H2 H3 H4].
  - destruct (MuxPair.bootstrapped _ _ _ _ _ _) as [halves|e].
    + cbn. split_and!; [done..|]. unfold took. cbn. split_and!; [|by rewrite H3|congruence|rewrite lookup_insert_eq; eauto].
      unfold beyond_claims in *. cbn. lia.
    + apply (give_up_slots amount c h h2); try done; congruence.
  - apply (give_up_slots amount c h h2); try done; congruence.
Qed.

(** An acquisition that ends in a refusal, whichever of its stages refused (the
    close, an exhausted serial, its bound, the instance, the factory, the driver or the
    bootstrap), has given back its charge, its claim and its slot, once each; one that
    waits changed none of them; one that succeeds holds one claim, its charge and a
    prepared binding. *)
Theorem acquire_balanced adm amount waker timed_out idle disposed made running fresh h :
  accounted h -> h.(Host.claims) !! h.(Host.next_claim) = None ->
  adm.(LocalAdmission.charge) = Some amount -> is_Some adm.(LocalAdmission.input) ->
  0 <= amount <= h.(Host.charged) -> h.(Host.charged) <= U64_MAX ->
  let '(r, adm', h') := Host.poll_acquire unstable_sequenced namespace limits adm waker timed_out idle disposed made running fresh h in
  match r with
  | None => adm' = adm /\ same_slots h h'
  | Some (Err _) => adm'.(LocalAdmission.charge) = None /\ adm'.(LocalAdmission.queued) = false /\ gave_back amount h h'
  | Some (Ok permit) => adm'.(LocalAdmission.charge) = None /\ permit.(LocalPermit.charge) = amount /\ took permit h h'
  end.
Proof.
  intros Ha Hn Hch [input Hin] Ham Hc. unfold Host.poll_acquire, Host.take_slot, Host.end_admission. rewrite Hch, Hin.
  destruct (negb (Host.is_open h)).
  { cbn. split_and!; [done..|]. apply (same_gave_back amount h (Host.remove_waiter _ h)); [by apply same_slots_of|done..]. }
  destruct (_ && _) eqn:Ec; [destruct (checked_add_u64 _ 1)|].
  - apply andb_true_iff in Ec as [_ Hlt%Z.ltb_lt]. set (h1 := h <| Host.queue := _ |> <| Host.next_binding := _ |> <| Host.active := _ |> <| Host.next_claim := _ |> <| Host.claims := _ |>).
    assert (E : usize_add h.(Host.active) 1 = h.(Host.active) + 1)
      by (unfold usize_add, as_usize, accounted in *; pose proof (held_slots_nonneg (Host.claims h)); apply as_u64_id; lia).
    pose proof (after_grant_slots h.(Host.next_claim) h.(Host.next_binding) input amount idle disposed made running fresh h h1) as H.
    assert (Eh : held (<[Host.next_claim h := HClaim.new]> (Host.claims h)) = held (Host.claims h) + 1)
      by (unfold held; by rewrite count_new).
    unfold accounted, beyond_claims in H. cbn in H. rewrite E, Eh, dom_insert_L in H. unfold accounted in Ha.
    specialize (H ltac:(lia) ltac:(lia) eq_refl ltac:(by apply not_elem_of_dom) eq_refl Ham Hc).
    destruct (Host.after_grant _ _ _ _ _ _ _ _ _ _ _ _ h1) as [[permit|e] h2].
    + destruct H as (_ & H1 & H2). done.
    + done.
  - cbn. split_and!; [done..|]. apply same_gave_back; [by apply same_slots_of|done..].
  - destruct timed_out; [|split; [done|by apply same_slots_of]].
    destruct (Host.dequeue _ _) as [wk h2] eqn:Ed. cbn. split_and!; [done..|]. apply same_gave_back; [|done..].
    unfold Host.dequeue in Ed. eapply same_slots_trans; [|apply (f_equal snd) in Ed; cbn in Ed; rewrite <- Ed; by apply same_slots_wake].
    by apply same_slots_of.
Qed.
End acquire.
