(* ===== verification/HostSamples.v ===== *)
(** * Runs of a connection host, evaluated

    The inputs on which the theorems of [HostRun], [HostCharge] and [HostAdmission] are
    applied, and a run in which an admission sleeps beside free slots. *)
From S2P Require Import Prelude Utf8 Text TextFacts Cbor Protocol Budget Admission Policy Validate Codec Binding BindingFacts Counting Mux PoolTypes Operation ConnBinding Host HostRun HostCharge HostAdmission.

#[local] Existing Instance layout64.
Abbreviation sample_step := (hstep false 7 HostLimits.default).
Abbreviation sample_reachable := (hreachable false 7 HostLimits.default).

Lemma reach a b : sample_reachable a -> sample_step a b -> sample_reachable b.
Proof. intros. by eapply hsteps_next. Qed.

Definition enqueued (w : hworld) : hworld :=
  match Host.enqueue HostLimits.default w.(HostRun.host) with
  | (Ok id, h) => w <| HostRun.host := h |> <| waits := {[id]} ∪ w.(waits) |>
  | _ => w
  end.

(** Two admissions wait; the second is polled before the first, and is told to wait. *)
Definition two_queued : hworld := enqueued (enqueued hstart).
Definition second_waits : hworld := taken HostLimits.default 1 11 two_queued.
Definition first_granted : hworld := taken HostLimits.default 0 10 second_waits.

Lemma first_granted_reachable : sample_reachable first_granted.
Proof.
  apply (reach second_waits); [apply (reach two_queued); [apply (reach (enqueued hstart)); [apply (reach hstart); [constructor|]|]|]|].
  - refine (Enqueues _ _ _ _ 0 _ _ _); [split; done|reflexivity].
  - refine (Enqueues _ _ _ _ 1 _ _ _); [split; done|reflexivity].
  - apply Takes; [set_solver|split; done].
  - apply Takes; [set_solver|split; done].
Qed.

(** A grant wakes nobody: in a reachable state the host is open, seven of its eight
    slots are free, and the admission at the head of the queue sleeps on the waker it
    left when it was polled behind another one.  The operations that give a slot back
    wake the head of the queue, but [take_slot], after which the next waiter is at the
    head with slots to spare, does not: the waiter runs into its admission bound, or
    into the next release. *)
Theorem grant_leaves_next_asleep :
  exists w, hreachable false 7 HostLimits.default w
    /\ Host.is_open w.(HostRun.host) = true
    /\ w.(HostRun.host).(Host.active) + 7 = HostLimits.active_slots HostLimits.default
    /\ w.(HostRun.host).(Host.queue) = [HWaiter.mk 1 (Some 11)].
Proof.
  exists first_granted. split; [exact first_granted_reachable|]. split_and!; vm_compute; reflexivity.
Qed.

(** The first admission's binding is prepared, published and opens an exchange; then
    the host is sealed; and an instance is attached. *)
Definition bootstrapped_pair : result MuxPair.t Fault.t :=
  MuxPair.bootstrapped false (BindingId.mk 7 1) EndpointRoute.ssh_and_https 256 "b1" "push".
Definition prepared (w : hworld) : hworld :=
  match bootstrapped_pair with
  | Ok halves => w <| HostRun.host := Host.prepare 7 1 "push" halves w.(HostRun.host) |>
  | Err _ => w
  end.
Definition exchanging : hworld := opening 1 (publishing 0 1 (prepared first_granted)).
Definition sealed_host : hworld :=
  let w := publishing 0 1 (prepared first_granted) in
  w <| HostRun.host := (Host.seal TerminalReason.DomainClosing w.(HostRun.host)).2 |>.
Definition a_profile : EndpointProfile.t := EndpointProfile.mk [Byte.x01] [Byte.x02].
Definition attached : hworld :=
  attach_ends a_profile true 5 (attach_starts HostLimits.default a_profile (fun _ => true) exchanging).

Lemma shared_prepared : is_Some ((prepared first_granted).(HostRun.host).(Host.shared) !! 1).
Proof. vm_compute. eauto. Qed.

Lemma published_reachable : sample_reachable (publishing 0 1 (prepared first_granted)).
Proof.
  destruct shared_prepared as [b Hb]. apply (reach (prepared first_granted)); [apply (reach first_granted)|].
  - apply first_granted_reachable.
  - unfold prepared. destruct bootstrapped_pair as [halves|e] eqn:E.
    + apply (Prepares _ _ _ first_granted 0); reflexivity.
    + vm_compute in E. discriminate E.
  - apply (Publishes _ _ _ _ 0 1 b); [|exact Hb]. vm_compute. reflexivity.
Qed.

Lemma exchanging_reachable : sample_reachable exchanging.
Proof.
  apply (reach (publishing 0 1 (prepared first_granted))); [apply published_reachable|].
  apply OpensExchange; [apply (bool_decide_unpack _); vm_compute; exact I|]. intros b Hb.
  assert (E : option_map BindingShared.live ((HostRun.host (publishing 0 1 (prepared first_granted))).(Host.shared) !! 1) = Some 0)
    by (vm_compute; reflexivity).
  rewrite Hb in E. injection E as E. rewrite E. split; [discriminate|reflexivity].
Qed.

Lemma sealed_reachable : sample_reachable sealed_host.
Proof. eapply reach; [apply published_reachable|]. by apply SealsHost. Qed.

Lemma attached_reachable : sample_reachable attached.
Proof.
  apply (reach (attach_starts HostLimits.default a_profile (fun _ => true) exchanging));
    [apply (reach exchanging); [exact exchanging_reachable|]|].
  - apply AttachStarts; [split; vm_compute; [discriminate|reflexivity]|vm_compute; reflexivity..].
  - apply AttachEnds; [vm_compute; reflexivity|apply (bool_decide_unpack _); vm_compute; exact I
      |split; vm_compute; [discriminate|reflexivity]|vm_compute; reflexivity].
Qed.

(** ** The theorems at these runs *)

Lemma slots_fit_default : 0 <= HostLimits.active_slots HostLimits.default <= U64_MAX.
Proof. split; vm_compute; discriminate. Qed.
Lemma instances_fit_default : 0 <= HostLimits.endpoint_instances HostLimits.default <= U64_MAX.
Proof. split; vm_compute; discriminate. Qed.

Lemma host_slots_exact_witness :
  exchanging.(HostRun.host).(Host.active)
    = len (keep (fun c => negb c.(HClaim.released)) (values exchanging.(HostRun.host).(Host.claims)))
      + Z.of_nat (size exchanging.(HostRun.host).(Host.bindings))
  /\ exchanging.(HostRun.host).(Host.active) = 1.
Proof.
  split; [|vm_compute; reflexivity].
  apply (host_slots_exact false 7 HostLimits.default slots_fit_default exchanging exchanging_reachable).
Defined.

Lemma sealed_for_good_witness :
  sealed_host.(HostRun.host).(Host.closing) = Some TerminalReason.DomainClosing
  /\ exists r, sealed_host.(HostRun.host).(Host.closing) = Some r
       /\ (forall id waker, (Host.take_slot HostLimits.default id waker sealed_host.(HostRun.host)).1 = HSlot.Closing r).
Proof.
  split; [vm_compute; reflexivity|].
  assert (Hc : is_Some sealed_host.(HostRun.host).(Host.close)) by (vm_compute; eauto).
  destruct (sealed_for_good false 7 HostLimits.default slots_fit_default sealed_host sealed_reachable Hc) as (r & H1 & _ & _ & H2 & _).
  exists r. split; [exact H1|exact H2].
Defined.

Lemma grants_in_order_witness :
  map snd first_granted.(grants) = seqZ 1 (len first_granted.(grants)) /\ first_granted.(grants) = [(0, 1)].
Proof.
  split; [|vm_compute; reflexivity].
  apply (grants_in_order false 7 HostLimits.default first_granted first_granted_reachable).
Defined.

Lemma ends_after_last_exchange_witness : 1 ∈ exchanging.(HostRun.host).(Host.bindings) /\ exchanging.(lives) = [1].
Proof.
  assert (E : exchanging.(lives) = [1]) by (vm_compute; reflexivity). split; [|exact E].
  apply (ends_after_last_exchange false 7 HostLimits.default slots_fit_default exchanging exchanging_reachable).
  right. rewrite E. left.
Defined.

Lemma registry_bounded_witness :
  len attached.(HostRun.host).(Host.instances) + attached.(HostRun.host).(Host.creating) <= 16
  /\ len attached.(HostRun.host).(Host.instances) = 1.
Proof.
  split; [|vm_compute; reflexivity].
  apply (registry_bounded false 7 HostLimits.default slots_fit_default instances_fit_default attached attached_reachable).
Defined.

(** Five reservations of 16 MiB at once: the first four are within the budget and the
    fifth, the head of the list, is not. *)
Definition reserved (w : charging) : charging := reserves MAX_ADMISSION_CHARGE w.
Definition five_reserved : charging := reserved (reserved (reserved (reserved (reserved (Charging Host.new [] []))))).

Lemma retained_charge_bounded_witness :
  five_reserved.(HostCharge.host).(Host.charged) = sum_Z five_reserved.(guards) + amounts five_reserved.(pending)
  /\ map snd five_reserved.(pending) = [false; true; true; true; true].
Proof.
  split; [|vm_compute; reflexivity]. apply (retained_charge_bounded five_reserved).
  do 5 (eapply charge_next; [|apply Reserves; [split; vm_compute; discriminate|vm_compute; discriminate]]). constructor.
Defined.

(** The acquisition of a second admission whose factory fails. *)
Definition charged_host : Host.t := (Host.charge 100 two_queued.(HostRun.host)).2.
Definition an_input : PreparedOperation.t :=
  PreparedOperation.mk "push" EndpointRoute.ssh_and_https a_profile 100 [] (OperationPolicy.mk 1 1 1).
Definition an_admission : LocalAdmission.t := LocalAdmission.mk 0 (Some an_input) (Some 100) true.
Definition failed_acquire :=
  Host.poll_acquire false 7 HostLimits.default an_admission 10 false (fun _ => true) true false true 5 charged_host.

Lemma acquire_balanced_witness :
  failed_acquire.1.1 = Some (Err AdmissionError.UnavailableAdapter)
  /\ failed_acquire.2.(Host.charged) = 0 /\ beyond_claims failed_acquire.2 = 0.
Proof.
  pose proof (acquire_balanced false 7 HostLimits.default slots_fit_default an_admission 100 10 false (fun _ => true) true false true 5 charged_host)
    as H. fold failed_acquire in H.
  assert (E : failed_acquire.1.1 = Some (Err AdmissionError.UnavailableAdapter)) by (vm_compute; reflexivity).
  destruct failed_acquire as [[r adm] h]. cbn in E. subst r. cbn [fst snd].
  destruct H as (_ & _ & H1 & H2 & H3); done.
Defined.
