(* ===== verification/Domain.v ===== *)
(** * The cleanup domain

    The connection crate's domain.rs, and what its hosts ask of it: the offer of
    adapters that did not finish disposing ([pend] of host/shared.rs), the close job of
    host/shared/close.rs and the end of a host's [seal].  Tickets, works, hosts and
    adapters are numbers; each critical section is one step of the world, so that
    closes, offers and passes of the retainer interleave freely.  What an adapter's
    [poll_dispose], a sleep, the executor or the retainer answers is an argument of its
    step.

    Shown is that the budget counts exactly the works it should and is never exceeded,
    that a ticket is confirmed only when every adapter of its work is disposed, and that
    a domain's close that resolves complete leaves nothing undisposed behind the hosts
    it revoked or with the retainer. *)
From S2P Require Import Prelude Utf8 Text TextFacts Cbor Protocol Budget Admission Policy Validate Codec Binding Counting Mux PoolTypes Operation ConnBinding Cells Host.

Module BuildError.
Inductive t := InvalidConfig (reason : ConfigReason.t) | UnavailableProgress | DomainClosing.
End BuildError.

Module TicketStatus.
Inductive t := Pending | Confirmed.
#[global] Instance eq_dec : EqDecision t.
Proof. solve_decision. Defined.
End TicketStatus.

Module Ticket.
Record t := mk { generation : Z; confirmed : bool; wakers : list Z }.
#[global] Instance eta : Eta t := fun r => mk (r.(generation)) (r.(confirmed)) (r.(wakers)).

Definition new (generation : Z) : t := mk generation false [].
Definition status (self : t) : TicketStatus.t := if self.(confirmed) then TicketStatus.Confirmed else TicketStatus.Pending.
Definition confirm (self : t) : list Z * t := (self.(wakers), self <| confirmed := true |> <| wakers := [] |>).
(** One poll of [WaitUntil]; [slept] is what its sleep answers. *)
Definition wait_poll (waker : Z) (slept : bool) (self : t) : option TicketStatus.t * t :=
  if self.(confirmed) then (Some TicketStatus.Confirmed, self)
  else
    let self := if existsb (Z.eqb waker) self.(wakers) then self else self <| wakers := self.(wakers) ++ [waker] |> in
    (if slept then Some (status self) else None, self).
End Ticket.

(** The adapters a host could not dispose within its bound. *)
Module RetainedWork.
Record t := mk { generation : Z; adapters : list Z; ticket : Z; counted : bool }.
#[global] Instance eta : Eta t := fun r => mk (r.(generation)) (r.(adapters)) (r.(ticket)) (r.(counted)).
Definition new (generation : Z) (adapters : list Z) (ticket : Z) : t := mk generation adapters ticket false.
End RetainedWork.

(** [retain_mut]: the adapters whose disposal is not confirmed by this pass. *)
Definition undisposed (ready : Z -> bool) (adapters : list Z) : list Z := keep (fun a => negb (ready a)) adapters.

Module DomainConfig.
Record t := mk { setup_jobs : Z; retained_cleanup : Z; helper_slots : Z }.
Definition default : t := mk 64 64 8.
End DomainConfig.

Module Domain.
Record t := mk {
  config : DomainConfig.t;
  sealed : bool;
  in_use : Z;
  generations : Z;
  hosts : list Z;
  tickets : list Z;
}.
#[global] Instance eta : Eta t :=
  fun r => mk (r.(config)) (r.(sealed)) (r.(in_use)) (r.(generations)) (r.(hosts)) (r.(tickets)).

Definition cleanup_domain (config : DomainConfig.t) : result t BuildError.t :=
  if (config.(DomainConfig.setup_jobs) =? 0) || (config.(DomainConfig.retained_cleanup) =? 0)
     || (config.(DomainConfig.helper_slots) =? 0)
  then Err (BuildError.InvalidConfig ConfigReason.DomainLimits)
  else Ok (mk config false 0 0 [] []).
(** [alive] says which hosts a weak reference still reaches. *)
Definition register (alive : Z -> bool) (host : Z) (self : t) : result unit BuildError.t * t :=
  if self.(sealed) then (Err BuildError.DomainClosing, self)
  else (Ok tt, self <| hosts := keep alive self.(hosts) ++ [host] |>).
Definition next_generation (self : t) : Z * t :=
  let generation := wrapping_add_u64 self.(generations) 1 in (generation, self <| generations := generation |>).
(** The first section of [retain]: whether the budget has room. *)
Definition reserve (pending : Z -> bool) (ticket : Z) (self : t) : bool * t :=
  if self.(config).(DomainConfig.retained_cleanup) <=? self.(in_use) then (false, self)
  else (true, self <| in_use := usize_add self.(in_use) 1 |> <| tickets := keep pending self.(tickets) ++ [ticket] |>).
Definition release (self : t) : t := self <| in_use := saturating_sub_u64 self.(in_use) 1 |>.
Definition seal (alive : Z -> bool) (self : t) : list Z * t :=
  (keep alive self.(hosts), self <| sealed := true |> <| hosts := [] |>).
Definition first_pending_ticket (pending : Z -> bool) (self : t) : option Z := hd_error (keep pending self.(tickets)).
End Domain.

(** Who offered a work, and what becomes of it if it comes back. *)
Module Caller.
Inductive t :=
(** The close job of a host, which drives the work itself. *)
| CloseJob (host : Z)
(** A host's [seal] whose job the executor refused. *)
| Unspawned (host : Z)
(** An attach that found its host sealed. *)
| Attach
(** A retired instance; [spawned] is the executor's answer if the work comes back. *)
| Retired (spawned : bool).
End Caller.
Module Where.
Inductive t :=
| Offered (by_ : Caller.t)
(** The retainer has it; [by_] is the caller whose [retain] has not returned yet. *)
| Retained (by_ : option Caller.t)
| Driven
| Dropped.
End Where.

(** The world: [jobs] are the close jobs that still dispose within their bound and
    [cells] the closes of the sealed hosts.  [given], [held] and [disposed] only record:
    the adapters each ticket was made for, those each host had when it was sealed, and
    those whose disposal an adapter has confirmed. *)
Module DWorld.
Record t := mk {
  domain : Domain.t;
  tickets : gmap Z Ticket.t;
  works : gmap Z (Where.t * RetainedWork.t);
  made : Z;
  alive : gset Z;
  jobs : gmap Z (list Z);
  cells : gmap Z (Cell.t CleanupStatus.t);
  close : option (list Z);
  given : gmap Z (list Z);
  held : gmap Z (list Z);
  disposed : gset Z;
  woken : list Z;
}.
#[global] Instance eta : Eta t :=
  fun r => mk (r.(domain)) (r.(tickets)) (r.(works)) (r.(made)) (r.(alive)) (r.(jobs)) (r.(cells)) (r.(close)) (r.(given))
             (r.(held)) (r.(disposed)) (r.(woken)).
Definition start (domain : Domain.t) : t := mk domain ∅ ∅ 0 ∅ ∅ ∅ None ∅ ∅ ∅ [].

Definition unconfirmed (tickets : gmap Z Ticket.t) (id : Z) : bool :=
  match tickets !! id with
  | Some ticket => bool_decide (Ticket.status ticket = TicketStatus.Pending)
  | None => false
  end.
Definition lives (self : t) (host : Z) : bool := bool_decide (host ∈ self.(alive)).
Definition log (ready : Z -> bool) (adapters : list Z) (self : t) : t :=
  self <| disposed := list_to_set (keep ready adapters) ∪ self.(disposed) |>.

(** [HostShared::finish], the part that ends the close. *)
Definition finish (host : Z) (status : CleanupStatus.t) (self : t) : t :=
  match self.(cells) !! host with
  | None => self
  | Some cell =>
      let '(wakes, cell) := Cell.set status cell in
      self <| cells := <[host := cell]> self.(cells) |> <| woken := self.(woken) ++ wakes |>
  end.
Definition place (where_ : Where.t) (work : RetainedWork.t) (self : t) : t :=
  self <| works := <[work.(RetainedWork.ticket) := (where_, work)]> self.(works) |>.
(** What the caller of [pend] does with its answer. *)
Definition after_pend (by_ : Caller.t) (ticket : Z) (kept : option RetainedWork.t) (self : t) : t :=
  let keep_at where_ self := match kept with Some work => place where_ work self | None => self end in
  match by_ with
  | Caller.CloseJob host => keep_at Where.Driven (finish host (CleanupStatus.Pending ticket) self)
  | Caller.Unspawned host => keep_at Where.Dropped (finish host (CleanupStatus.Pending ticket) self)
  | Caller.Attach => keep_at Where.Dropped self
  | Caller.Retired spawned => keep_at (if spawned then Where.Driven else Where.Dropped) self
  end.
(** [pend] and the first section of [retain]. *)
Definition pend (by_ : Caller.t) (adapters : list Z) (self : t) : t :=
  let '(generation, d) := Domain.next_generation self.(domain) in
  let id := self.(made) + 1 in
  let known := <[id := Ticket.new generation]> self.(tickets) in
  let work := RetainedWork.new generation adapters id in
  let '(room, d) := Domain.reserve (unconfirmed known) id d in
  let self := self <| domain := d |> <| tickets := known |> <| made := id |> <| given := <[id := adapters]> self.(given) |> in
  if room then place (Where.Offered by_) (work <| RetainedWork.counted := true |>) self
  else after_pend by_ id (Some work) self.
(** The retainer's answer: it takes the work, or the work comes back as it was offered,
    since a retainer that gives a work back has not driven it, and [retain] ends. *)
Definition answer (id : Z) (accepts : bool) (self : t) : t :=
  match self.(works) !! id with
  | Some (Where.Offered by_, work) =>
      if accepts then place (Where.Retained (Some by_)) work self
      else after_pend by_ id (Some (work <| RetainedWork.counted := false |>))
             (self <| domain := Domain.release self.(domain) |>)
  | _ => self
  end.
(** The return of a [retain] whose work was taken. *)
Definition return_ (id : Z) (self : t) : t :=
  match self.(works) !! id with
  | Some (Where.Retained (Some by_), work) => after_pend by_ id None (place (Where.Retained None) work self)
  | _ => self
  end.
(** [poll_work] up to the confirmation of its ticket. *)
Definition pass (id : Z) (ready : Z -> bool) (self : t) : t :=
  match self.(works) !! id with
  | Some ((Where.Retained _ | Where.Driven) as where_, work) =>
      let self := log ready work.(RetainedWork.adapters) self in
      let work := work <| RetainedWork.adapters := undisposed ready work.(RetainedWork.adapters) |> in
      let self := place where_ work self in
      if bool_decide (work.(RetainedWork.adapters) = []) then
        match self.(tickets) !! id with
        | Some ticket =>
            let '(wakes, ticket) := Ticket.confirm ticket in
            self <| tickets := <[id := ticket]> self.(tickets) |> <| woken := self.(woken) ++ wakes |>
        | None => self
        end
      else self
  | _ => self
  end.
(** The rest of [poll_work]: a work whose ticket it confirmed leaves the budget. *)
Definition give_back (id : Z) (self : t) : t :=
  match self.(works) !! id with
  | Some ((Where.Retained _ | Where.Driven) as where_, work) =>
      if bool_decide (work.(RetainedWork.adapters) = []) && negb (unconfirmed self.(tickets) id) && work.(RetainedWork.counted)
      then place where_ (work <| RetainedWork.counted := false |>) (self <| domain := Domain.release self.(domain) |>)
      else self
  | _ => self
  end.
(** The end of a host's [seal], from its new cell on. *)
Definition seal_host (host : Z) (adapters : list Z) (spawned : bool) (self : t) : t :=
  match self.(cells) !! host with
  | Some _ => self
  | None =>
      let self := self <| cells := <[host := Cell.new]> self.(cells) |> <| held := <[host := adapters]> self.(held) |> in
      if bool_decide (adapters = []) then finish host CleanupStatus.Complete self
      else if spawned then self <| jobs := <[host := adapters]> self.(jobs) |>
      else pend (Caller.Unspawned host) adapters self
  end.
(** A poll of the close job. *)
Definition run_job (host : Z) (ready : Z -> bool) (slept : bool) (self : t) : t :=
  match self.(jobs) !! host with
  | None => self
  | Some adapters =>
      let self := log ready adapters self in
      let left := undisposed ready adapters in
      if bool_decide (left = []) then finish host CleanupStatus.Complete (self <| jobs := delete host self.(jobs) |>)
      else if slept then pend (Caller.CloseJob host) left (self <| jobs := delete host self.(jobs) |>)
      else self <| jobs := <[host := left]> self.(jobs) |>
  end.
Definition wait (id : Z) (waker : Z) (slept : bool) (self : t) : option TicketStatus.t * t :=
  match self.(tickets) !! id with
  | None => (None, self)
  | Some ticket =>
      let '(answer, ticket) := Ticket.wait_poll waker slept ticket in
      (answer, self <| tickets := <[id := ticket]> self.(tickets) |>)
  end.

(** [DomainClose]: a host that is not revoked yet has no cell to wait for. *)
Fixpoint poll_cells (waker : Z) (hosts : list Z) (cells : gmap Z (Cell.t CleanupStatus.t))
  : list CleanupStatus.t * bool * gmap Z (Cell.t CleanupStatus.t) :=
  match hosts with
  | [] => ([], false, cells)
  | host :: hosts =>
      let '(status, cells) := match cells !! host with
                              | Some cell => let '(v, cell) := Cell.poll waker cell in (v, <[host := cell]> cells)
                              | None => (None, cells)
                              end in
      let '(statuses, waiting, cells) := poll_cells waker hosts cells in
      match status with
      | Some status => (status :: statuses, waiting, cells)
      | None => (statuses, true, cells)
      end
  end.
Definition still_pending (tickets : gmap Z Ticket.t) (status : CleanupStatus.t) : option Z :=
  match status with
  | CleanupStatus.Pending id => if unconfirmed tickets id then Some id else None
  | CleanupStatus.Complete => None
  end.
Definition close_start (self : t) : t :=
  match self.(close) with
  | Some _ => self
  | None => let '(hosts, d) := Domain.seal (lives self) self.(domain) in self <| domain := d |> <| close := Some hosts |>
  end.
Definition close_poll (waker : Z) (self : t) : option CleanupStatus.t * t :=
  match self.(close) with
  | None => (None, self)
  | Some hosts =>
      let '(statuses, waiting, polled) := poll_cells waker hosts self.(cells) in
      let self := self <| cells := polled |> in
      if waiting then (None, self)
      else
        let pending := match hd_error (omap (still_pending self.(tickets)) statuses) with
                       | Some id => Some id
                       | None => Domain.first_pending_ticket (unconfirmed self.(tickets)) self.(domain)
                       end in
        (Some (match pending with Some id => CleanupStatus.Pending id | None => CleanupStatus.Complete end), self)
  end.
End DWorld.

Module DStep.
Inductive t :=
| Builds (host : Z)
| Goes (host : Z)
| Seals (host : Z) (adapters : list Z) (spawned : bool)
| Runs (host : Z) (ready : Z -> bool) (slept : bool)
| Attaches (adapter : Z)
| Retires (adapter : Z) (spawned : bool)
| Answers (id : Z) (accepts : bool)
| Returns (id : Z)
| Passes (id : Z) (ready : Z -> bool)
| Releases (id : Z)
| Waits (id : Z) (waker : Z) (slept : bool)
| Closes
| PollsClose (waker : Z).
End DStep.

Definition dstep (s : DStep.t) (w : DWorld.t) : DWorld.t :=
  match s with
  | DStep.Builds host =>
      let '(r, d) := Domain.register (DWorld.lives w) host w.(DWorld.domain) in
      match r with
      | Ok _ => w <| DWorld.domain := d |> <| DWorld.alive := {[host]} ∪ w.(DWorld.alive) |>
      | Err _ => w
      end
  | DStep.Goes host => w <| DWorld.alive := w.(DWorld.alive) ∖ {[host]} |>
  | DStep.Seals host adapters spawned => DWorld.seal_host host adapters spawned w
  | DStep.Runs host ready slept => DWorld.run_job host ready slept w
  | DStep.Attaches adapter => DWorld.pend Caller.Attach [adapter] w
  | DStep.Retires adapter spawned => DWorld.pend (Caller.Retired spawned) [adapter] w
  | DStep.Answers id accepts => DWorld.answer id accepts w
  | DStep.Returns id => DWorld.return_ id w
  | DStep.Passes id ready => DWorld.pass id ready w
  | DStep.Releases id => DWorld.give_back id w
  | DStep.Waits id waker slept => (DWorld.wait id waker slept w).2
  | DStep.Closes => DWorld.close_start w
  | DStep.PollsClose waker => (DWorld.close_poll waker w).2
  end.
Definition drun (steps : list DStep.t) (w : DWorld.t) : DWorld.t := foldl (fun w s => dstep s w) w steps.
