(* ===== verification/DomainFacts.v ===== *)
(** * The cleanup domain tells the truth

    In every interleaving of the hosts' closes, the offers, the retainer's passes and
    the domain's own close: the budget counts the works that are offered or retained and
    not yet disposed, a confirmed ticket means a disposed work, and a complete close
    means that everything behind it is disposed. *)
From S2P Require Import Prelude Utf8 Text TextFacts Cbor Protocol Budget Admission Policy Validate Codec Binding Counting Mux PoolTypes Operation ConnBinding Cells Host Domain.
Import DWorld.

(** ** The invariant *)

Definition counted_work (e : Where.t * RetainedWork.t) : bool := e.2.(RetainedWork.counted).
Definition caller_of (where_ : Where.t) : option Caller.t :=
  match where_ with Where.Offered by_ => Some by_ | Where.Retained by_ => by_ | _ => None end.
Definition host_of (by_ : Caller.t) : option Z :=
  match by_ with Caller.CloseJob host | Caller.Unspawned host => Some host | _ => None end.

(** Everything [host] held is disposed or among [rest]. *)
Definition covered (w : t) (host : Z) (rest : list Z) : Prop :=
  exists all, w.(held) !! host = Some all /\ forall a, a ∈ all -> a ∈ w.(disposed) \/ a ∈ rest.
Definition told (w : t) (host : Z) (status : CleanupStatus.t) : Prop :=
  match status with
  | CleanupStatus.Complete => covered w host []
  | CleanupStatus.Pending id => exists all, w.(given) !! id = Some all /\ covered w host all
  end.
(** One work with its ticket and the adapters it was made for. *)
Record work_good (tickets : list Z) (disposed : gset Z) (id : Z) (where_ : Where.t) (work : RetainedWork.t)
  (ticket : Ticket.t) (all : list Z) : Prop := {
  wg_ticket : work.(RetainedWork.ticket) = id;
  wg_rest : forall a, a ∈ all -> a ∈ disposed \/ a ∈ work.(RetainedWork.adapters);
  wg_done : ticket.(Ticket.confirmed) = true -> work.(RetainedWork.adapters) = [];
  wg_where : match where_ with
             | Where.Offered _ => work.(RetainedWork.counted) = true /\ ticket.(Ticket.confirmed) = false /\ id ∈ tickets
             | Where.Retained _ => ticket.(Ticket.confirmed) = false -> work.(RetainedWork.counted) = true /\ id ∈ tickets
             | Where.Driven | Where.Dropped => work.(RetainedWork.counted) = false
             end }.
Record dgood (w : t) : Prop := {
  dg_config : 0 <= w.(domain).(Domain.config).(DomainConfig.retained_cleanup) <= U64_MAX;
  dg_count : w.(domain).(Domain.in_use) = count_values counted_work w.(works);
  dg_bound : w.(domain).(Domain.in_use) <= w.(domain).(Domain.config).(DomainConfig.retained_cleanup);
  dg_made : forall id, is_Some (w.(tickets) !! id) \/ is_Some (w.(given) !! id) -> id <= w.(made);
  dg_work : forall id where_ work, w.(works) !! id = Some (where_, work) ->
    exists ticket all, w.(tickets) !! id = Some ticket /\ w.(given) !! id = Some all
      /\ work_good w.(domain).(Domain.tickets) w.(disposed) id where_ work ticket all;
  dg_given : forall id, is_Some (w.(tickets) !! id) \/ is_Some (w.(given) !! id) -> is_Some (w.(works) !! id);
  dg_owed : forall id where_ work by_ host, w.(works) !! id = Some (where_, work) -> caller_of where_ = Some by_ ->
    host_of by_ = Some host -> is_Some (w.(cells) !! host) /\ told w host (CleanupStatus.Pending id);
  dg_held : forall host, is_Some (w.(held) !! host) -> is_Some (w.(cells) !! host);
  dg_job : forall host rest, w.(jobs) !! host = Some rest -> is_Some (w.(cells) !! host) /\ covered w host rest;
  dg_cell : forall host cell status, w.(cells) !! host = Some cell -> cell.(Cell.value) = Some status -> told w host status;
}.

(** ** What only grows *)

Lemma covered_mono w w' host rest rest' :
  covered w host rest -> w.(held) ⊆ w'.(held) -> w.(disposed) ⊆ w'.(disposed) ->
  (forall a, a ∈ rest -> a ∈ w'.(disposed) \/ a ∈ rest') -> covered w' host rest'.
Proof.
  intros (all & Hall & Hc) Hh Hd Hr. exists all. split; [by eapply lookup_weaken|].
  intros a Ha. destruct (Hc a Ha) as [H|H]; [left; set_solver|by apply Hr].
Qed.
Lemma told_mono w w' host status :
  told w host status -> w.(held) ⊆ w'.(held) -> w.(given) ⊆ w'.(given) -> w.(disposed) ⊆ w'.(disposed) -> told w' host status.
Proof.
  intros Ht Hh Hg Hd. destruct status as [|id]; cbn in *.
  - eapply covered_mono; eauto.
  - destruct Ht as (all & Hall & Hc). exists all. split; [by eapply lookup_weaken|]. eapply covered_mono; eauto.
Qed.
Lemma work_good_mono tickets tickets' disposed disposed' id where_ work ticket all :
  work_good tickets disposed id where_ work ticket all -> disposed ⊆ disposed' ->
  (ticket.(Ticket.confirmed) = false -> id ∈ tickets -> id ∈ tickets') ->
  work_good tickets' disposed' id where_ work ticket all.
Proof.
  intros [H1 H2 H3 H4] Hd Ht. split; [done| |done|].
  - intros a Ha. destruct (H2 a Ha); [left; set_solver|by right].
  - destruct where_; [|tauto|done|done]. destruct H4 as (? & ? & ?). auto.
Qed.
Lemma unconfirmed_spec tickets id : unconfirmed tickets id = true <-> exists ticket, tickets !! id = Some ticket /\ ticket.(Ticket.confirmed) = false.
Proof.
  unfold unconfirmed, Ticket.status. destruct (tickets !! id) as [ticket|]; [|split; [done|naive_solver]].
  destruct (ticket.(Ticket.confirmed)) eqn:E; split; try done; naive_solver.
Qed.

(** ** One work changes *)

Definition put (d : Domain.t) (id : Z) (where_ : Where.t) (work : RetainedWork.t) (ticket : Ticket.t) (all : list Z) (disp : gset Z) (w : t) : t :=
  w <| domain := d |> <| works := <[id := (where_, work)]> w.(works) |> <| tickets := <[id := ticket]> w.(tickets) |>
    <| given := <[id := all]> w.(given) |> <| disposed := disp |> <| made := Z.max w.(made) id |>.
Lemma good_put w d id where_ work ticket all disp :
  dgood w -> d.(Domain.config) = w.(domain).(Domain.config) ->
  d.(Domain.in_use) = w.(domain).(Domain.in_use) + one_if work.(RetainedWork.counted)
    - match w.(works) !! id with Some e => one_if (counted_work e) | None => 0 end ->
  d.(Domain.in_use) <= d.(Domain.config).(DomainConfig.retained_cleanup) ->
  (forall id', id' <> id -> unconfirmed w.(tickets) id' = true -> id' ∈ w.(domain).(Domain.tickets) -> id' ∈ d.(Domain.tickets)) ->
  (w.(given) !! id = None \/ w.(given) !! id = Some all) -> w.(disposed) ⊆ disp ->
  work_good d.(Domain.tickets) disp id where_ work ticket all ->
  (forall by_ host, caller_of where_ = Some by_ -> host_of by_ = Some host -> is_Some (w.(cells) !! host) /\ covered w host all) ->
  dgood (put d id where_ work ticket all disp w).
Proof.
  intros G Hcfg Huse Hle Htk Hg Hd Hw Hby. unfold put.
  assert (Hgm : w.(given) ⊆ <[id := all]> w.(given)).
  { destruct Hg as [H|H]; [by apply insert_subseteq|by rewrite insert_id]. }
  split; cbn -[told covered].
  - rewrite Hcfg. apply G.
  - rewrite Huse, (dg_count _ G). destruct (w.(works) !! id) as [e|] eqn:E.
    + rewrite (count_update _ _ _ _ _ E). unfold counted_work at 4. cbn. lia.
    + rewrite (count_new _ _ _ _ E). unfold counted_work at 3. cbn. lia.
  - done.
  - intros id' Hid. pose proof (dg_made _ G id'). destruct (decide (id' = id)) as [->|]; [lia|].
    rewrite !lookup_insert_ne in Hid by done. specialize (H Hid). lia.
  - intros id' where' work' Hid. destruct (decide (id' = id)) as [->|Hne].
    + rewrite lookup_insert_eq in Hid. simplify_eq. exists ticket, all. by rewrite !lookup_insert_eq.
    + rewrite lookup_insert_ne in Hid by done. destruct (dg_work _ G _ _ _ Hid) as (ticket' & all' & ? & ? & ?).
      exists ticket', all'. rewrite !lookup_insert_ne by done. split_and!; [done..|]. eapply work_good_mono; eauto.
      intros Hc Hin. apply Htk; [done| |done]. apply unconfirmed_spec. eauto.
  - intros id' Hid. destruct (decide (id' = id)) as [->|]; [rewrite lookup_insert_eq; eauto|].
    rewrite !lookup_insert_ne in Hid by done. rewrite lookup_insert_ne by done. by apply G.
  - intros id' where' work' by_ host Hid Hc Hh. destruct (decide (id' = id)) as [->|Hne].
    + rewrite lookup_insert_eq in Hid. simplify_eq. destruct (Hby _ _ Hc Hh) as [? Hcov]. split; [done|].
      exists all. cbn. rewrite lookup_insert_eq. split; [done|]. eapply covered_mono; eauto; by right.
    + rewrite lookup_insert_ne in Hid by done. destruct (dg_owed _ G _ _ _ _ _ Hid Hc Hh) as [? Ht]. split; [done|].
      by apply (told_mono w _ host (CleanupStatus.Pending id')).
  - apply G.
  - intros host rest Hj. destruct (dg_job _ G _ _ Hj) as [? Hc]. split; [done|]. eapply covered_mono; eauto; by right.
  - intros host cell status Hc Hv. eapply told_mono; [by eapply (dg_cell _ G)|..]; done.
Qed.

(** ** Closes change *)

Lemma good_rest w w' :
  dgood w ->
  (w'.(domain).(Domain.config), w'.(domain).(Domain.in_use), w'.(domain).(Domain.tickets))
    = (w.(domain).(Domain.config), w.(domain).(Domain.in_use), w.(domain).(Domain.tickets)) ->
  (w'.(tickets), w'.(works), w'.(given), w'.(made)) = (w.(tickets), w.(works), w.(given), w.(made)) ->
  w.(disposed) ⊆ w'.(disposed) -> w.(held) ⊆ w'.(held) ->
  (forall host, is_Some (w.(cells) !! host) -> is_Some (w'.(cells) !! host)) ->
  (forall host, is_Some (w'.(held) !! host) -> is_Some (w'.(cells) !! host)) ->
  (forall host rest, w'.(jobs) !! host = Some rest -> is_Some (w'.(cells) !! host) /\ covered w' host rest) ->
  (forall host cell status, w'.(cells) !! host = Some cell -> cell.(Cell.value) = Some status -> told w' host status) ->
  dgood w'.
Proof.
  intros G Hd He Hdis Hheld Hc Hhc Hj Ht. injection Hd as Hd1 Hd2 Hd3. injection He as He1 He2 He3 He4. split; rewrite ?Hd1, ?Hd2, ?He1, ?He2, ?He3, ?He4; try apply G; try done.
  - intros id where_ work Hid. destruct (dg_work _ G _ _ _ Hid) as (ticket & all & ? & ? & ?). exists ticket, all.
    split_and!; [done..|]. eapply work_good_mono; [done|done|by rewrite Hd3].
  - intros id where_ work by_ host Hid Hby Hh. destruct (dg_owed _ G _ _ _ _ _ Hid Hby Hh) as [? Htold].
    split; [by apply Hc|]. apply (told_mono w _ host (CleanupStatus.Pending id)); by rewrite ?He3.
Qed.
Lemma is_Some_insert {V} (m : gmap Z V) (i k : Z) (v : V) : is_Some (m !! k) -> is_Some (<[i := v]> m !! k).
Proof. intros Hs. destruct (decide (k = i)) as [->|]; [rewrite lookup_insert_eq; eauto|by rewrite lookup_insert_ne]. Qed.
(** A close ends with a status that is true of its host. *)
Lemma good_finish host status w : dgood w -> told w host status -> dgood (finish host status w).
Proof.
  intros G Ht. unfold finish. destruct (w.(cells) !! host) as [cell|] eqn:Hc; [|done].
  destruct (Cell.set status cell) as [wakes cell'] eqn:Hs. apply (good_rest w); cbn -[told covered]; try done.
  - intros h. apply is_Some_insert.
  - intros h Hh. by apply is_Some_insert, (dg_held _ G).
  - intros h rest Hj. destruct (dg_job _ G _ _ Hj) as [Hh ?]. split; [by apply is_Some_insert|done].
  - intros h c st Hh Hv. destruct (decide (h = host)) as [->|].
    + rewrite lookup_insert_eq in Hh. injection Hh as <-. unfold Cell.set in Hs.
      destruct (is_some cell.(Cell.value)) eqn:E; injection Hs as <- <-.
      * exact (dg_cell _ G _ _ _ Hc Hv).
      * cbn in Hv. by injection Hv as <-.
    + rewrite lookup_insert_ne in Hh by done. exact (dg_cell _ G _ _ _ Hh Hv).
Qed.
Lemma finish_fields host status w :
  exists c k, finish host status w = w <| cells := c |> <| woken := k |>.
Proof.
  unfold finish. destruct (_ !! _); [destruct (Cell.set _ _); eauto|]. exists w.(cells), w.(woken). by destruct w.
Qed.

(** What a caller of [pend] reports, and where a work it gets back stays. *)
Definition report (by_ : Caller.t) (id : Z) (w : t) : t :=
  match host_of by_ with Some host => finish host (CleanupStatus.Pending id) w | None => w end.
Definition resting (by_ : Caller.t) : Where.t :=
  match by_ with
  | Caller.CloseJob _ | Caller.Retired true => Where.Driven
  | _ => Where.Dropped
  end.
Lemma finish_place host status where_ work w : place where_ work (finish host status w) = finish host status (place where_ work w).
Proof. unfold finish. cbn. destruct (_ !! _); [|done]. by destruct (Cell.set _ _). Qed.
Lemma after_pend_back by_ id work w : after_pend by_ id (Some work) w = report by_ id (place (resting by_) work w).
Proof. destruct by_ as [host|host| |[]]; cbn; try done; apply finish_place. Qed.
Lemma after_pend_taken by_ id w : after_pend by_ id None w = report by_ id w.
Proof. by destruct by_ as [host|host| |[]]. Qed.
Lemma good_report by_ id w :
  dgood w -> (forall host, host_of by_ = Some host -> told w host (CleanupStatus.Pending id)) -> dgood (report by_ id w).
Proof. intros G Ht. unfold report. destruct (host_of by_); [apply good_finish; auto|done]. Qed.
Lemma resting_caller by_ : caller_of (resting by_) = None.
Proof. by destruct by_ as [host|host| |[]]. Qed.

(** ** Every section keeps the invariant *)

Lemma in_use_range w : dgood w -> 0 <= w.(domain).(Domain.in_use) <= U64_MAX.
Proof.
  intros G. rewrite (dg_count _ G). pose proof (count_nonneg counted_work w.(works)).
  pose proof (dg_bound _ G). pose proof (dg_config _ G). rewrite (dg_count _ G) in *. lia.
Qed.
Lemma reserve_keeps pending id d : forall id', pending id' = true -> id' ∈ d.(Domain.tickets) ->
  id' ∈ (Domain.reserve pending id d).2.(Domain.tickets).
Proof.
  intros id' Hp Hin. unfold Domain.reserve. destruct (_ <=? _); [done|]. cbn. apply elem_of_app. left.
  unfold keep. by apply list_elem_of_filter.
Qed.
Lemma good_pend by_ adapters w :
  dgood w -> (forall host, host_of by_ = Some host -> is_Some (w.(cells) !! host) /\ covered w host adapters) ->
  dgood (pend by_ adapters w).
Proof.
  intros G Hby. pose proof (in_use_range w G). pose proof (dg_config _ G). pose proof (dg_bound _ G).
  set (id := w.(made) + 1).
  assert (Hnew : w.(tickets) !! id = None /\ w.(given) !! id = None).
  { split; apply eq_None_not_Some; intros Hs; pose proof (dg_made _ G id); unfold id in *; intuition lia. }
  destruct Hnew as [Hnt Hng].
  assert (Hnw : w.(works) !! id = None).
  { destruct (w.(works) !! id) as [[]|] eqn:E; [|done]. destruct (dg_work _ G _ _ _ E) as (? & ? & ? & ? & ?). congruence. }
  unfold pend, Domain.next_generation. cbv beta iota zeta. fold id.
  set (generation := wrapping_add_u64 _ 1). set (d := w.(domain) <| Domain.generations := generation |>).
  set (known := <[id := Ticket.new generation]> w.(tickets)).
  assert (Hkeep : forall id', id' <> id -> unconfirmed w.(tickets) id' = true -> id' ∈ w.(domain).(Domain.tickets) ->
    id' ∈ (Domain.reserve (unconfirmed known) id d).2.(Domain.tickets)).
  { intros id' Hne Hu Hin. apply reserve_keeps; [|done]. unfold unconfirmed, known in *. by rewrite lookup_insert_ne. }
  set (work := RetainedWork.new generation adapters id) in *.
  destruct (Domain.reserve (unconfirmed known) id d) as [room d'] eqn:Hr.
  assert (Hput : forall where_ work', work'.(RetainedWork.ticket) = id -> 
    place where_ work' (w <| domain := d' |> <| tickets := known |> <| made := id |> <| given := <[id := adapters]> w.(given) |>)
    = put d' id where_ work' (Ticket.new generation) adapters w.(disposed) w).
  { intros where_ work' Hw. unfold put, place. cbn. rewrite Hw. destruct w. cbn in *. f_equal. unfold id. lia. }
  unfold Domain.reserve in Hr. cbn in Hr. destruct (_ <=? _) eqn:Hroom; injection Hr as <- <-; bprop.
  - lazy beta iota zeta. rewrite after_pend_back, Hput by done. apply good_report.
    + apply good_put; cbn; rewrite ?Hnw; [done|done|lia|done|exact Hkeep|by left|done| |].
      * split; cbn; try done; [by right|]. by destruct by_ as [| | |[]].
      * intros by' host Hb. by rewrite resting_caller in Hb.
    + intros host Hh. destruct (Hby host Hh) as [_ Hc]. exists adapters. cbn. rewrite lookup_insert_eq. split; [done|].
      eapply covered_mono; eauto; by right.
  - lazy beta iota zeta. rewrite Hput by done. apply good_put; cbn; rewrite ?Hnw; norm_int; [done|done|lia|lia|exact Hkeep|by left|done| |].
    + split; cbn; try done; [by right|]. split_and!; [done..|]. apply elem_of_app. right. by left.
    + intros by' host Hb Hh. injection Hb as <-. by apply Hby.
Qed.

Lemma release_in_use w : dgood w -> forall id where_ work, w.(works) !! id = Some (where_, work) -> work.(RetainedWork.counted) = true ->
  (Domain.release w.(domain)).(Domain.in_use) = w.(domain).(Domain.in_use) - 1.
Proof.
  intros G id where_ work Hw Hc. cbn. unfold saturating_sub_u64. rewrite (dg_count _ G).
  rewrite (count_old _ _ _ _ Hw). pose proof (count_nonneg counted_work (delete id w.(works))).
  unfold counted_work at 2 4. cbn. rewrite Hc. cbn. lia.
Qed.
(** A work that is known changes where it is, what is left of it or its count. *)
Lemma work_change w d id where_ work where' work' ticket' disp :
  dgood w -> w.(works) !! id = Some (where_, work) ->
  d.(Domain.config) = w.(domain).(Domain.config) -> d.(Domain.tickets) = w.(domain).(Domain.tickets) ->
  d.(Domain.in_use) = w.(domain).(Domain.in_use) + one_if work'.(RetainedWork.counted) - one_if work.(RetainedWork.counted) ->
  (work'.(RetainedWork.counted) = true -> work.(RetainedWork.counted) = true) ->
  w.(disposed) ⊆ disp ->
  (forall ticket all, w.(tickets) !! id = Some ticket ->
     work_good w.(domain).(Domain.tickets) w.(disposed) id where_ work ticket all ->
     work_good w.(domain).(Domain.tickets) disp id where' work' (ticket' ticket) all) ->
  (caller_of where' = None \/ caller_of where' = caller_of where_) ->
  dgood (w <| domain := d |> <| works := <[id := (where', work')]> w.(works) |>
           <| tickets := alter ticket' id w.(tickets) |> <| disposed := disp |>).
Proof.
  intros G Hw Hcfg Htk Huse Hcnt Hd Hgood Hby. destruct (dg_work _ G _ _ _ Hw) as (ticket & all & Ht & Hg & Hwg).
  assert (Heq : w <| domain := d |> <| works := <[id := (where', work')]> w.(works) |> <| tickets := alter ticket' id w.(tickets) |> <| disposed := disp |>
    = put d id where' work' (ticket' ticket) all disp w).
  { unfold put. pose proof (dg_made _ G id (or_introl (mk_is_Some _ _ Ht))). destruct w. cbn in *. f_equal; [|lia|].
    - apply map_eq. intros i. destruct (decide (i = id)) as [->|].
      + by rewrite lookup_alter_eq, lookup_insert_eq, Ht.
      + by rewrite lookup_alter_ne, lookup_insert_ne.
    - by rewrite insert_id. }
  rewrite Heq. apply good_put; [done|done| | | |by right|done| |].
  - by rewrite Hw.
  - rewrite Huse, Hcfg. pose proof (dg_bound _ G). destruct (work'.(RetainedWork.counted)); [rewrite Hcnt by done; lia|].
    cbn. destruct (work.(RetainedWork.counted)); cbn; lia.
  - by rewrite Htk.
  - rewrite Htk. by apply Hgood.
  - intros by_ host Hb Hh. destruct Hby as [Hby|Hby]; [congruence|]. rewrite Hby in Hb.
    destruct (dg_owed _ G _ _ _ _ _ Hw Hb Hh) as (? & all' & Hall & ?). split; [done|]. by simplify_eq.
Qed.
(** The same where the ticket and the record of disposals stay. *)
Lemma good_move w d id where_ work where' work' :
  dgood w -> w.(works) !! id = Some (where_, work) -> work'.(RetainedWork.ticket) = work.(RetainedWork.ticket) ->
  d.(Domain.config) = w.(domain).(Domain.config) -> d.(Domain.tickets) = w.(domain).(Domain.tickets) ->
  d.(Domain.in_use) = w.(domain).(Domain.in_use) + one_if work'.(RetainedWork.counted) - one_if work.(RetainedWork.counted) ->
  (work'.(RetainedWork.counted) = true -> work.(RetainedWork.counted) = true) ->
  (forall ticket all, w.(tickets) !! id = Some ticket ->
     work_good w.(domain).(Domain.tickets) w.(disposed) id where_ work ticket all ->
     work_good w.(domain).(Domain.tickets) w.(disposed) id where' work' ticket all) ->
  (caller_of where' = None \/ caller_of where' = caller_of where_) ->
  dgood (place where' work' (w <| domain := d |>)).
Proof.
  intros G Hw Htk ?????. intros. destruct (dg_work _ G _ _ _ Hw) as (ticket & all & Ht & Hg & Hwg).
  assert (Heq : place where' work' (w <| domain := d |>) = w <| domain := d |> <| works := <[id := (where', work')]> w.(works) |>
    <| tickets := alter (fun t => t) id w.(tickets) |> <| disposed := w.(disposed) |>).
  { unfold place. rewrite Htk, (wg_ticket _ _ _ _ _ _ _ Hwg). destruct w. cbn in *. f_equal. symmetry. apply alter_id. done. }
  rewrite Heq. eapply work_change; eauto.
Qed.
Lemma place_same where_ work w : place where_ work w = place where_ work (w <| domain := w.(domain) |>).
Proof. by destruct w. Qed.

Lemma good_answer id accepts w : dgood w -> dgood (answer id accepts w).
Proof.
  intros G. unfold answer. destruct (w.(works) !! id) as [[[by_| | |] work]|] eqn:Hw; try done.
  destruct (dg_work _ G _ _ _ Hw) as (ticket & all & Ht & Hg & Hwg). pose proof (wg_where _ _ _ _ _ _ _ Hwg) as (Hc & Hn & Hin).
  destruct accepts.
  - rewrite place_same. eapply good_move; eauto; [lia|]. intros t l _ [H1 H2 H3 H4]. split; auto.
  - rewrite after_pend_back. apply good_report.
    + eapply good_move; eauto; cbn -[Domain.release].
      * rewrite Hc, (release_in_use w G _ _ _ Hw Hc). cbn. lia.
      * intros t l _ [H1 H2 H3 H4]. split; auto. by destruct by_ as [| | |[]].
      * left. apply resting_caller.
    + intros host Hh. destruct (dg_owed _ G _ _ _ _ _ Hw eq_refl Hh) as [_ Htold].
      by apply (told_mono w _ host (CleanupStatus.Pending id)).
Qed.
Lemma good_return id w : dgood w -> dgood (return_ id w).
Proof.
  intros G. unfold return_. destruct (w.(works) !! id) as [[[|[by_|]| |] work]|] eqn:Hw; try done.
  rewrite after_pend_taken. apply good_report.
  - rewrite place_same. eapply good_move; eauto; [lia|]. intros t l _ [H1 H2 H3 H4]. split; auto.
  - intros host Hh. destruct (dg_owed _ G _ _ _ _ _ Hw eq_refl Hh) as [_ Htold].
    by apply (told_mono w _ host (CleanupStatus.Pending id)).
Qed.
Lemma good_give_back id w : dgood w -> dgood (give_back id w).
Proof.
  intros G. unfold give_back. destruct (w.(works) !! id) as [[where_ work]|] eqn:Hw; [|done].
  destruct (_ && _ && _) eqn:E; [|by destruct where_]. apply andb_prop in E as [[Hl Hu%negb_true_iff]%andb_prop Hcn].
  assert (Hgood : dgood (place where_ (work <| RetainedWork.counted := false |>) (w <| domain := Domain.release w.(domain) |>)) \/ exists by_, where_ = Where.Offered by_).
  { destruct where_ as [by_|by_| |]; [by right; eauto| | |]; left; (eapply good_move; eauto); cbn -[Domain.release]; try done;
      try (rewrite (release_in_use w G _ _ _ Hw Hcn), Hcn; cbn; lia);
      intros ticket all Ht [H1 H2 H3 H4]; split; auto; cbn; try done.
    intros Hn. exfalso. enough (unconfirmed w.(tickets) id = true) by congruence. apply unconfirmed_spec. eauto. }
  destruct Hgood as [Hgood|[by_ ->]]; [|done]. by destruct where_.
Qed.

Lemma undisposed_rest ready adapters a :
  a ∈ adapters -> a ∈ (list_to_set (keep ready adapters) : gset Z) \/ a ∈ undisposed ready adapters.
Proof.
  intros Ha. unfold undisposed, keep. rewrite elem_of_list_to_set, !list_elem_of_filter. destruct (ready a); cbn; auto.
Qed.
Definition passable (where_ : Where.t) : bool := match where_ with Where.Retained _ | Where.Driven => true | _ => false end.
Lemma pass_spec id ready w where_ work :
  dgood w -> w.(works) !! id = Some (where_, work) -> passable where_ = true ->
  exists k, let rest := undisposed ready work.(RetainedWork.adapters) in
    let ends := bool_decide (rest = []) in
    pass id ready w = w <| domain := w.(domain) |> <| works := <[id := (where_, work <| RetainedWork.adapters := rest |>)]> w.(works) |>
      <| tickets := alter (fun t => if ends then (Ticket.confirm t).2 else t) id w.(tickets) |>
      <| disposed := list_to_set (keep ready work.(RetainedWork.adapters)) ∪ w.(disposed) |> <| woken := k |>
    /\ k = w.(woken) ++ match w.(tickets) !! id with Some t => if ends then t.(Ticket.wakers) else [] | None => [] end.
Proof.
  intros G Hw Hwh. destruct (dg_work _ G _ _ _ Hw) as (ticket & all & Ht & Hg & Hwg). eexists. split; [|reflexivity].
  unfold pass. rewrite Hw. pose proof (wg_ticket _ _ _ _ _ _ _ Hwg) as Hid.
  assert (Hb : forall f, alter f id w.(tickets) = <[id := f ticket]> w.(tickets)).
  { intros f. apply map_eq. intros i. destruct (decide (i = id)) as [->|];
      [by rewrite lookup_alter_eq, lookup_insert_eq, Ht|by rewrite lookup_alter_ne, lookup_insert_ne]. }
  rewrite Hb, Ht. destruct where_ as [|by_| |]; try done; unfold place, log; cbn; rewrite Hid;
    (destruct (bool_decide _); [rewrite Ht|rewrite (insert_id w.(tickets)) by done]; destruct w; cbn; f_equal; by rewrite app_nil_r).
Qed.
Lemma domain_woken w k : dgood w -> dgood (w <| woken := k |>).
Proof. intros G. by apply (good_rest w); [..|apply (dg_held _ G)|apply (dg_job _ G)|apply (dg_cell _ G)]. Qed.
Lemma good_pass id ready w : dgood w -> dgood (pass id ready w).
Proof.
  intros G. destruct (w.(works) !! id) as [[where_ work]|] eqn:Hw; [|unfold pass; by rewrite Hw].
  destruct (passable where_) eqn:Hwh;
    [|unfold pass; rewrite Hw; by destruct where_].
  destruct (pass_spec id ready w where_ work G Hw Hwh) as (k & -> & _). apply domain_woken.
  eapply (work_change w w.(domain) id where_ work where_ (work <| RetainedWork.adapters := undisposed ready work.(RetainedWork.adapters) |>)); eauto; cbn; [lia|set_solver|].
  intros ticket all _ [H1 H2 H3 H4]. split; cbn; [done| | |].
  - intros a Ha. destruct (H2 a Ha) as [|Hin]; [left; set_solver|]. destruct (undisposed_rest ready _ a Hin); [left; set_solver|by right].
  - case_bool_decide as He; [done|]. intros Hc. by rewrite (H3 Hc) in He.
  - destruct where_; try done. case_bool_decide; [done|]. exact H4.
Qed.
Lemma good_wait id waker slept w : dgood w -> dgood (wait id waker slept w).2.
Proof.
  intros G. unfold wait. destruct (w.(tickets) !! id) as [ticket|] eqn:Ht; [|done].
  destruct (Ticket.wait_poll waker slept ticket) as [r ticket'] eqn:Hp. change (dgood (w <| tickets := <[id := ticket']> w.(tickets) |>)).
  assert (Hc : ticket'.(Ticket.confirmed) = ticket.(Ticket.confirmed)).
  { unfold Ticket.wait_poll in Hp. destruct (ticket.(Ticket.confirmed)) eqn:E; [by simplify_eq|]. destruct (existsb _ _); by injection Hp as <- <-. }
  destruct (dg_given _ G id) as [[where_ work] Hw]; [by left; eauto|].
  assert (Heq : w <| tickets := <[id := ticket']> w.(tickets) |> = w <| domain := w.(domain) |> <| works := <[id := (where_, work)]> w.(works) |>
    <| tickets := alter (fun _ => ticket') id w.(tickets) |> <| disposed := w.(disposed) |>).
  { destruct w. cbn in *. f_equal; [|by rewrite insert_id]. apply map_eq. intros i. destruct (decide (i = id)) as [->|];
      [by rewrite lookup_alter_eq, lookup_insert_eq, Ht|by rewrite lookup_alter_ne, lookup_insert_ne]. }
  rewrite Heq. eapply work_change; eauto; [lia|]. intros t all Ht' [H1 H2 H3 H4]. simplify_eq.
  split; rewrite ?Hc; auto.
Qed.

Lemma good_log ready adapters w : dgood w -> dgood (log ready adapters w).
Proof.
  intros G. apply (good_rest w); cbn -[told covered]; try done; [set_solver|apply (dg_held _ G)| |].
  - intros host rest Hj. destruct (dg_job _ G _ _ Hj) as [? Hc]. split; [done|].
    apply (covered_mono w _ host rest); [done|done|cbn; set_solver|by right].
  - intros host cell status Hc Hv. eapply told_mono; [by eapply (dg_cell _ G)|done|done|]. cbn. set_solver.
Qed.
Definition opened (host : Z) (adapters : list Z) (w : t) : t :=
  w <| cells := <[host := Cell.new]> w.(cells) |> <| held := <[host := adapters]> w.(held) |>.
Lemma good_opened host adapters w : dgood w -> w.(cells) !! host = None -> dgood (opened host adapters w).
Proof.
  intros G Hc. assert (Hh : w.(held) !! host = None).
  { apply eq_None_not_Some. intros Hs%(dg_held _ G). rewrite Hc in Hs. by apply is_Some_None in Hs. }
  assert (Hm : w.(held) ⊆ <[host := adapters]> w.(held)) by (by apply insert_subseteq).
  apply (good_rest w); cbn -[told covered]; try done.
  - intros h. apply is_Some_insert.
  - intros h Hs. destruct (decide (h = host)) as [->|]; [rewrite lookup_insert_eq; eauto|].
    rewrite lookup_insert_ne in Hs by done. by apply is_Some_insert, (dg_held _ G).
  - intros h rest Hj. destruct (dg_job _ G _ _ Hj) as [Hs Hcov]. split; [by apply is_Some_insert|eapply covered_mono; eauto; by right].
  - intros h cell status Hs Hv. destruct (decide (h = host)) as [->|].
    + rewrite lookup_insert_eq in Hs. injection Hs as <-. done.
    + rewrite lookup_insert_ne in Hs by done. eapply told_mono; [by eapply (dg_cell _ G)|done..].
Qed.
Lemma good_jobs w js :
  dgood w -> (forall host rest, js !! host = Some rest -> w.(jobs) !! host = Some rest \/ is_Some (w.(cells) !! host) /\ covered w host rest) ->
  dgood (w <| jobs := js |>).
Proof.
  intros G Hj. apply (good_rest w); cbn -[told covered]; try done; [apply (dg_held _ G)| |apply (dg_cell _ G)].
  intros host rest Hr. destruct (Hj host rest Hr) as [H|H]; [by apply (dg_job _ G)|done].
Qed.
Lemma good_seal_host host adapters spawned w : dgood w -> dgood (seal_host host adapters spawned w).
Proof.
  intros G. unfold seal_host. destruct (w.(cells) !! host) as [c|] eqn:Hc; [done|].
  pose proof (good_opened host adapters w G Hc) as G1. fold (opened host adapters w). set (w1 := opened host adapters w) in *.
  assert (Hcov : covered w1 host adapters) by (exists adapters; cbn; rewrite lookup_insert_eq; auto).
  assert (Hs1 : is_Some (w1.(cells) !! host)) by (cbn; rewrite lookup_insert_eq; eauto).
  case_bool_decide as He; [apply good_finish; [done|]; cbn; by rewrite He in Hcov|].
  destruct spawned; [|apply good_pend; [done|]; cbn; by intros h [= <-]].
  apply good_jobs; [done|]. intros h rest Hj. destruct (decide (h = host)) as [->|].
  - rewrite lookup_insert_eq in Hj. injection Hj as <-. by right.
  - rewrite lookup_insert_ne in Hj by done. by left.
Qed.
Lemma good_job_gone host ready adapters w : dgood w -> dgood ((log ready adapters w) <| jobs := delete host w.(jobs) |>).
Proof.
  intros G. apply (good_jobs (log ready adapters w)); [by apply good_log|].
  intros h rest Hr. apply lookup_delete_Some in Hr as [_ Hr]. by left.
Qed.
Lemma good_run_job host ready slept w : dgood w -> dgood (run_job host ready slept w).
Proof.
  intros G. unfold run_job. destruct (w.(jobs) !! host) as [adapters|] eqn:Hj; [|done].
  destruct (dg_job _ G _ _ Hj) as [Hs Hc]. pose proof (good_job_gone host ready adapters w G) as G2.
  assert (Hcov : covered (log ready adapters w) host (undisposed ready adapters)).
  { apply (covered_mono w _ host adapters); [done|done|cbn; set_solver|]. intros a Ha. destruct (undisposed_rest ready adapters a Ha); [left; cbn; set_solver|by right]. }
  case_bool_decide as He; [apply good_finish; [done|]; by rewrite He in Hcov|].
  destruct slept; [apply good_pend; [done|]; cbn; by intros h [= <-]|].
  apply good_jobs; [by apply good_log|]. intros h rest Hr. destruct (decide (h = host)) as [->|].
  - rewrite lookup_insert_eq in Hr. injection Hr as <-. by right.
  - rewrite lookup_insert_ne in Hr by done. by left.
Qed.
(** Polling leaves every value as it is, and every cell. *)
Lemma poll_cells_values waker hosts cells : forall host,
  Cell.value <$> (poll_cells waker hosts cells).2 !! host = Cell.value <$> cells !! host.
Proof.
  induction hosts as [|h hosts IH] in cells |- *; intros host; cbn; [done|].
  destruct (cells !! h) as [cell|] eqn:Hc.
  - destruct (Cell.poll waker cell) as [v cell'] eqn:Hp.
    assert (Hv : cell'.(Cell.value) = cell.(Cell.value)).
    { unfold Cell.poll in Hp. destruct (cell.(Cell.value)) eqn:E; [by simplify_eq|]. destruct (existsb _ _); by injection Hp as <- <-. }
    specialize (IH (<[h := cell']> cells) host). destruct (poll_cells waker hosts (<[h := cell']> cells)) as [[sts wt] cs].
    cbn in *. destruct v; cbn; rewrite IH; (destruct (decide (host = h)) as [->|]; [rewrite lookup_insert_eq, Hc; cbn; by rewrite Hv|by rewrite lookup_insert_ne]).
  - specialize (IH cells host). by destruct (poll_cells waker hosts cells) as [[sts wt] cs].
Qed.
Lemma good_close_poll waker w : dgood w -> dgood (close_poll waker w).2.
Proof.
  intros G. unfold close_poll. destruct (w.(close)) as [hosts|]; [|done].
  pose proof (poll_cells_values waker hosts w.(cells)) as Hv. destruct (poll_cells waker hosts w.(cells)) as [[sts waiting] cs]. cbn in Hv.
  assert (Hcs : forall h, is_Some (w.(cells) !! h) -> is_Some (cs !! h)).
  { intros h [c Hs]. specialize (Hv h). rewrite Hs in Hv. destruct (cs !! h); [eauto|done]. }
  assert (G1 : dgood (w <| cells := cs |>)); [|by destruct waiting].
  apply (good_rest w); cbn -[told covered]; try done.
  - intros h Hs. apply Hcs, (dg_held _ G), Hs.
  - intros h rest Hj. destruct (dg_job _ G _ _ Hj) as [Hs Hcov]. split; [by apply Hcs|done].
  - intros h cell status Hs Hst. specialize (Hv h). rewrite Hs in Hv. cbn in Hv. destruct (w.(cells) !! h) as [c|] eqn:Hc; [|done].
    cbn in Hv. injection Hv as Hv. apply (dg_cell _ G _ c); congruence.
Qed.

Lemma domain_step s w : dgood w -> dgood (dstep s w).
Proof.
  intros G. destruct s; cbn -[DWorld.wait close_poll]; eauto using good_seal_host, good_run_job, good_answer, good_return, good_pass, good_give_back, good_wait, good_close_poll.
  - unfold Domain.register. destruct (Domain.sealed _); [done|]. by apply (good_rest w); [..|apply (dg_held _ G)|apply (dg_job _ G)|apply (dg_cell _ G)].
  - by apply (good_rest w); [..|apply (dg_held _ G)|apply (dg_job _ G)|apply (dg_cell _ G)].
  - by apply good_pend.
  - by apply good_pend.
  - unfold close_start. destruct (w.(close)); [done|]. by apply (good_rest w); [..|apply (dg_held _ G)|apply (dg_job _ G)|apply (dg_cell _ G)].
Qed.
Lemma good_domain_start cfg d :
  Domain.cleanup_domain cfg = Ok d -> 0 <= cfg.(DomainConfig.retained_cleanup) <= U64_MAX -> dgood (start d).
Proof.
  unfold Domain.cleanup_domain. intros Hd Hr. destruct (_ || _); [done|]. injection Hd as <-.
  split; cbn; try done; try lia; intros; rewrite ?lookup_empty in *; try done; by destruct H as [[]|[]].
Qed.
Lemma good_domain_run cfg d steps :
  Domain.cleanup_domain cfg = Ok d -> 0 <= cfg.(DomainConfig.retained_cleanup) <= U64_MAX -> dgood (drun steps (start d)).
Proof.
  intros Hd Hr. unfold drun. generalize (good_domain_start cfg d Hd Hr). generalize (start d).
  induction steps as [|s steps IH]; intros w G; cbn; [done|]. by apply IH, domain_step.
Qed.

(** ** The close is told truly *)

Lemma poll_cells_ready waker hosts cells statuses cells' :
  poll_cells waker hosts cells = (statuses, false, cells') ->
  forall host, host ∈ hosts -> exists cell status, cells !! host = Some cell /\ cell.(Cell.value) = Some status /\ status ∈ statuses.
Proof.
  induction hosts as [|h hosts IH] in cells, statuses, cells' |- *; cbn; intros Hp host Hin; [set_solver|].
  destruct (cells !! h) as [cell|] eqn:Hc.
  - destruct (Cell.poll waker cell) as [v cell1] eqn:Hpoll.
    destruct (poll_cells waker hosts (<[h := cell1]> cells)) as [[sts wt] cs] eqn:Hrest.
    destruct v as [status|]; [|done]. injection Hp as <- -> <-. unfold Cell.poll in Hpoll.
    destruct (cell.(Cell.value)) as [v|] eqn:Hv; [|done]. injection Hpoll as -> <-. rewrite insert_id in Hrest by done.
    apply elem_of_cons in Hin as [->|Hin]; [exists cell, status; split_and!; [done..|by left]|].
    destruct (IH _ _ _ Hrest host Hin) as (c & st & ? & ? & ?). exists c, st. split_and!; [done..|by right].
  - destruct (poll_cells waker hosts cells) as [[sts wt] cs]. done.
Qed.
Lemma hd_error_nil {A} (l : list A) : hd_error l = None -> l = [].
Proof. by destruct l. Qed.
Lemma kept_none {A} (p : A -> bool) (l : list A) a : keep p l = [] -> a ∈ l -> p a = false.
Proof.
  intros Hk Ha. destruct (p a) eqn:E; [|done]. assert (Hin : a ∈ keep p l) by (unfold keep; by apply list_elem_of_filter).
  rewrite Hk in Hin. set_solver.
Qed.
Lemma confirmed_disposed w id all :
  dgood w -> w.(given) !! id = Some all -> unconfirmed w.(tickets) id = false -> forall a, a ∈ all -> a ∈ w.(disposed).
Proof.
  intros G Hg Hu a Ha. destruct (dg_given _ G id) as [[where_ work] Hw]; [by right; eauto|].
  destruct (dg_work _ G _ _ _ Hw) as (ticket & all' & Ht & Hg' & Hwg). simplify_eq.
  assert (Hc : ticket.(Ticket.confirmed) = true).
  { destruct (ticket.(Ticket.confirmed)) eqn:E; [done|]. rewrite (proj2 (unconfirmed_spec w.(tickets) id)) in Hu; [done|]. eauto. }
  destruct (wg_rest _ _ _ _ _ _ _ Hwg a Ha) as [|Hr]; [done|]. rewrite (wg_done _ _ _ _ _ _ _ Hwg Hc) in Hr. set_solver.
Qed.

(** C12: a domain's close resolves complete only when nothing is left behind it.  In any
    interleaving of closes, offers, refusals, passes and waits, when the poll of the
    close answers complete, every host it revoked has had each of its adapters disposed,
    and so has every work the retainer took. *)
Theorem domain_close_truthful cfg d steps waker hosts :
  Domain.cleanup_domain cfg = Ok d -> 0 <= cfg.(DomainConfig.retained_cleanup) <= U64_MAX ->
  let w := drun steps (start d) in
  w.(close) = Some hosts -> (close_poll waker w).1 = Some CleanupStatus.Complete ->
  (forall host, host ∈ hosts -> exists all, w.(held) !! host = Some all /\ forall a, a ∈ all -> a ∈ w.(disposed))
  /\ (forall id by_ work all, w.(works) !! id = Some (Where.Retained by_, work) -> w.(given) !! id = Some all ->
      forall a, a ∈ all -> a ∈ w.(disposed)).
Proof.
  intros Hd Hr w Hclose Hpoll. pose proof (good_domain_run cfg d steps Hd Hr) as G. fold w in G. clearbody w.
  unfold close_poll in Hpoll. rewrite Hclose in Hpoll.
  destruct (poll_cells waker hosts w.(cells)) as [[statuses waiting] cs] eqn:Hp. destruct waiting; [done|]. cbn in Hpoll.
  destruct (hd_error (omap _ statuses)) as [|] eqn:Hst; [done|]. destruct (Domain.first_pending_ticket _ _) as [|] eqn:Hft; [done|].
  apply hd_error_nil in Hst. unfold Domain.first_pending_ticket in Hft. apply hd_error_nil in Hft. split.
  - intros host Hin. destruct (poll_cells_ready _ _ _ _ _ Hp host Hin) as (cell & status & Hc & Hv & Hs).
    pose proof (dg_cell _ G _ _ _ Hc Hv) as Htold. destruct status as [|id]; cbn in Htold.
    + destruct Htold as (all & ? & Hall). exists all. split; [done|]. intros a Ha. destruct (Hall a Ha); [done|set_solver].
    + destruct Htold as (rest & Hg & all & ? & Hall). exists all. split; [done|]. intros a Ha. destruct (Hall a Ha) as [|Hin']; [done|].
      eapply confirmed_disposed; eauto. destruct (unconfirmed w.(tickets) id) eqn:E; [|done]. exfalso.
      assert (Hx : id ∈ omap (still_pending w.(tickets)) statuses) by (apply list_elem_of_omap; exists (CleanupStatus.Pending id); cbn; by rewrite E).
      rewrite Hst in Hx. set_solver.
  - intros id by_ work all Hw Hg a Ha. eapply confirmed_disposed; eauto.
    destruct (dg_work _ G _ _ _ Hw) as (ticket & all' & Ht & _ & Hwg). destruct (ticket.(Ticket.confirmed)) eqn:E.
    + unfold unconfirmed, Ticket.status. rewrite Ht, E. done.
    + apply (kept_none _ _ _ Hft). by apply (wg_where _ _ _ _ _ _ _ Hwg).
Qed.

(** ** What a step leaves alone *)

(** The budget stays; a ticket once confirmed stays so; a waiter's waker stays with its
    ticket or is woken; and a work that was dropped stays dropped, its ticket with it. *)
Record follows (w w' : t) : Prop := {
  fo_config : w'.(domain).(Domain.config) = w.(domain).(Domain.config);
  fo_dropped : forall id work, w.(works) !! id = Some (Where.Dropped, work) -> w'.(works) !! id = Some (Where.Dropped, work);
  fo_tickets : exists wakes, w'.(woken) = w.(woken) ++ wakes /\ forall id ticket, w.(tickets) !! id = Some ticket ->
    exists ticket', w'.(tickets) !! id = Some ticket'
      /\ (ticket.(Ticket.confirmed) = true -> ticket'.(Ticket.confirmed) = true)
      /\ (ticket'.(Ticket.confirmed) = false -> forall x, x ∈ ticket.(Ticket.wakers) -> x ∈ ticket'.(Ticket.wakers))
      /\ (ticket.(Ticket.confirmed) = false -> ticket'.(Ticket.confirmed) = true ->
            (forall x, x ∈ ticket.(Ticket.wakers) -> x ∈ wakes) /\ forall work, w.(works) !! id <> Some (Where.Dropped, work))
}.
Lemma follows_same w w' wakes :
  w'.(domain).(Domain.config) = w.(domain).(Domain.config) ->
  (forall id work, w.(works) !! id = Some (Where.Dropped, work) -> w'.(works) !! id = Some (Where.Dropped, work)) ->
  w'.(woken) = w.(woken) ++ wakes -> w.(tickets) ⊆ w'.(tickets) -> follows w w'.
Proof.
  intros Hc Hd Hw Ht. split; [done..|]. exists wakes. split; [done|]. intros id ticket Hid. exists ticket.
  split; [by eapply lookup_weaken|]. split_and!; [done..|]. congruence.
Qed.
Lemma follows_id w : follows w w.
Proof. apply (follows_same w w []); by rewrite ?app_nil_r. Qed.
Lemma follows_trans w1 w2 w3 : follows w1 w2 -> follows w2 w3 -> follows w1 w3.
Proof.
  intros [C1 D1 (k1 & W1 & T1)] [C2 D2 (k2 & W2 & T2)]. split; [congruence|auto|].
  exists (k1 ++ k2). split; [by rewrite W2, W1, app_assoc|]. intros id t1 H1.
  destruct (T1 id t1 H1) as (t2 & H2 & A1 & B1 & E1). destruct (T2 id t2 H2) as (t3 & H3 & A2 & B2 & E2).
  exists t3. split_and!; [done|auto| |].
  - intros Hn x Hx. apply B2; [done|]. apply B1; [|done]. destruct (t2.(Ticket.confirmed)); [by rewrite A2 in Hn|done].
  - intros Hn Hc. destruct (t2.(Ticket.confirmed)) eqn:E.
    + destruct (E1 Hn eq_refl) as [Hk Hd]. split; [|done]. intros x Hx. apply elem_of_app. left. auto.
    + destruct (E2 eq_refl Hc) as [Hk Hd]. split; [intros x Hx; apply elem_of_app; right; apply Hk, B1; done|].
      intros work Hw. by apply (Hd work), D1.
Qed.
Lemma follows_finish host status w : follows w (finish host status w).
Proof.
  unfold finish. destruct (_ !! _); [|apply follows_id]. destruct (Cell.set _ _) as [k c]. by apply (follows_same _ _ k).
Qed.
Lemma follows_report by_ id w : follows w (report by_ id w).
Proof. unfold report. destruct (host_of by_); [apply follows_finish|apply follows_id]. Qed.
Lemma dropped_put (ws : gmap Z (Where.t * RetainedWork.t)) id e e' :
  ws !! id = e -> (forall work, e <> Some (Where.Dropped, work)) ->
  forall id' work, ws !! id' = Some (Where.Dropped, work) -> <[id := e']> ws !! id' = Some (Where.Dropped, work).
Proof. intros He Hn id' work Hid. destruct (decide (id' = id)) as [->|]; [congruence|by rewrite lookup_insert_ne]. Qed.
Lemma follows_pend by_ adapters w : dgood w -> follows w (pend by_ adapters w).
Proof.
  intros G. set (id := w.(made) + 1).
  assert (Hnt : w.(tickets) !! id = None).
  { apply eq_None_not_Some. intros Hs. pose proof (dg_made _ G id (or_introl Hs)). unfold id in *. lia. }
  assert (Hnw : w.(works) !! id = None).
  { destruct (w.(works) !! id) as [[]|] eqn:E; [|done]. destruct (dg_work _ G _ _ _ E) as (? & ? & ? & ?). congruence. }
  unfold pend, Domain.next_generation, Domain.reserve. cbv beta iota zeta. fold id.
  destruct (_ <=? _); cbv beta iota zeta.
  - rewrite after_pend_back. eapply follows_trans; [|apply follows_report]. apply (follows_same _ _ []); cbn; [done| |by rewrite app_nil_r|by apply insert_subseteq].
    by eapply dropped_put.
  - apply (follows_same _ _ []); cbn; [done| |by rewrite app_nil_r|by apply insert_subseteq]. by eapply dropped_put.
Qed.
Lemma follows_place w d id where_ work where' work' :
  dgood w -> w.(works) !! id = Some (where_, work) -> where_ <> Where.Dropped -> work'.(RetainedWork.ticket) = work.(RetainedWork.ticket) ->
  d.(Domain.config) = w.(domain).(Domain.config) -> follows w (place where' work' (w <| domain := d |>)).
Proof.
  intros G Hw Hn Ht Hd. destruct (dg_work _ G _ _ _ Hw) as (ticket & all & _ & _ & Hwg).
  apply (follows_same _ _ []); cbn; [done| |by rewrite app_nil_r|done]. rewrite Ht, (wg_ticket _ _ _ _ _ _ _ Hwg). eapply dropped_put; eauto.
  intros ?. naive_solver.
Qed.
Lemma follows_change w id where_ work where' work' ticket' disp k :
  w.(works) !! id = Some (where_, work) -> where_ <> Where.Dropped ->
  (forall ticket, w.(tickets) !! id = Some ticket ->
     ticket' ticket = ticket \/ (ticket' ticket).(Ticket.confirmed) = true /\ forall x, x ∈ ticket.(Ticket.wakers) -> x ∈ k) ->
  follows w (w <| domain := w.(domain) |> <| works := <[id := (where', work')]> w.(works) |>
    <| tickets := alter ticket' id w.(tickets) |> <| disposed := disp |> <| woken := w.(woken) ++ k |>).
Proof.
  intros Hw Hn Ht. split; cbn; [done| |].
  - eapply dropped_put; eauto. intros ?. naive_solver.
  - exists k. split; [done|]. intros i ticket Hi. destruct (decide (i = id)) as [->|].
    + rewrite lookup_alter_eq, Hi. cbn. eexists. split; [done|].
      destruct (Ht _ Hi) as [->|[Hc Hx]]; [split_and!; [done..|congruence]|]. rewrite Hc. split_and!; [done..|].
      intros _ _. split; [done|]. intros ?. naive_solver.
    + rewrite lookup_alter_ne by done. exists ticket. split_and!; [done..|congruence].
Qed.
Lemma follows_wait id waker slept w : follows w (wait id waker slept w).2.
Proof.
  unfold wait. destruct (w.(tickets) !! id) as [ticket|] eqn:Ht; [|apply follows_id].
  destruct (Ticket.wait_poll waker slept ticket) as [r ticket'] eqn:Hp.
  assert (Hc : ticket'.(Ticket.confirmed) = ticket.(Ticket.confirmed) /\ forall x, x ∈ ticket.(Ticket.wakers) -> x ∈ ticket'.(Ticket.wakers)).
  { unfold Ticket.wait_poll in Hp. destruct (ticket.(Ticket.confirmed)) eqn:E; [by simplify_eq|].
    destruct (existsb _ _); injection Hp as <- <-; cbn; [done|]. split; [done|]. intros x Hx. apply elem_of_app. by left. }
  destruct Hc as [Hc Hx]. split; cbn; [done..|]. exists []. split; [by rewrite app_nil_r|]. intros i t Hi.
  destruct (decide (i = id)) as [->|].
  - rewrite lookup_insert_eq. simplify_eq. exists ticket'. split_and!; [done|congruence|auto|congruence].
  - rewrite lookup_insert_ne by done. exists t. split_and!; [done..|congruence].
Qed.
Lemma follows_step s w : dgood w -> follows w (dstep s w).
Proof.
  intros G. destruct s as [h|h|h l sp|h r sl|a|a sp|id acc|id|id r|id|id wk sl| |wk]; cbn -[DWorld.wait close_poll].
  - unfold Domain.register. destruct (Domain.sealed _); [apply follows_id|]. by apply (follows_same _ _ []); rewrite ?app_nil_r.
  - by apply (follows_same _ _ []); rewrite ?app_nil_r.
  - unfold seal_host. destruct (_ !! _) eqn:Hc; [apply follows_id|]. fold (opened h l w).
    eapply follows_trans; [apply (follows_same w (opened h l w) []); by rewrite ?app_nil_r|].
    case_bool_decide; [apply follows_finish|]. destruct sp; [by apply (follows_same _ _ []); rewrite ?app_nil_r|].
    by apply follows_pend, good_opened.
  - unfold run_job. destruct (_ !! _) as [l|] eqn:Hj; [|apply follows_id].
    assert (F : follows w ((log r l w) <| jobs := delete h w.(jobs) |>)) by (by apply (follows_same _ _ []); rewrite ?app_nil_r).
    case_bool_decide; [eapply follows_trans; [exact F|apply follows_finish]|].
    destruct sl; [eapply follows_trans; [exact F|apply follows_pend; exact (good_job_gone h r l w G)]|].
    by apply (follows_same _ _ []); rewrite ?app_nil_r.
  - by apply follows_pend.
  - by apply follows_pend.
  - unfold answer. destruct (w.(works) !! id) as [[[by_| | |] work]|] eqn:Hw; try apply follows_id. destruct acc.
    + rewrite place_same. by eapply follows_place.
    + rewrite after_pend_back. eapply follows_trans; [|apply follows_report]. by eapply follows_place.
  - unfold return_. destruct (w.(works) !! id) as [[[|[by_|]| |] work]|] eqn:Hw; try apply follows_id.
    rewrite after_pend_taken, place_same. eapply follows_trans; [|apply follows_report]. by eapply follows_place.
  - destruct (w.(works) !! id) as [[where_ work]|] eqn:Hw; [|unfold pass; rewrite Hw; apply follows_id].
    destruct (passable where_) eqn:Hp; [|unfold pass; rewrite Hw; destruct where_; by try apply follows_id].
    destruct (pass_spec id r w where_ work G Hw Hp) as (k & -> & ->). eapply follows_change; [done|by destruct where_|].
    intros ticket Ht. rewrite Ht. case_bool_decide; [by right|by left].
  - unfold give_back. destruct (w.(works) !! id) as [[where_ work]|] eqn:Hw; [|apply follows_id].
    destruct where_ as [by_|by_| |]; try apply follows_id; (destruct (_ && _ && _); [by eapply follows_place|apply follows_id]).
  - apply follows_wait.
  - unfold close_start. destruct (w.(close)); [apply follows_id|]. by apply (follows_same _ _ []); rewrite ?app_nil_r.
  - unfold close_poll. destruct (w.(close)) as [hosts|]; [|apply follows_id]. destruct (poll_cells _ _ _) as [[sts wt] cs].
    destruct wt; by apply (follows_same _ _ []); rewrite ?app_nil_r.
Qed.
Lemma follows_run steps w : dgood w -> follows w (drun steps w).
Proof.
  induction steps as [|s steps IH] in w |- *; intros G; cbn; [apply follows_id|].
  eapply follows_trans; [by apply follows_step|]. by apply IH, domain_step.
Qed.

Lemma drun_app a b w : drun (a ++ b) w = drun b (drun a w).
Proof. apply foldl_app. Qed.
Lemma disposed_all ready adapters : (forall a, a ∈ adapters -> ready a = true) -> undisposed ready adapters = [].
Proof.
  induction adapters as [|a l IH]; intros H; [done|]. unfold undisposed, keep in *. rewrite filter_cons, H by (by left).
  cbn. apply IH. intros b Hb. apply H. by right.
Qed.

(** ** The budget *)

(** C33: the domain's budget is exact.  It counts precisely the works that are offered or
    retained and not given back, every retained work that is not disposed among them,
    never more than its configured limit; and a ticket is confirmed only when every
    adapter it was made for has been disposed. *)
Theorem retained_budget_exact cfg d steps :
  Domain.cleanup_domain cfg = Ok d -> 0 <= cfg.(DomainConfig.retained_cleanup) <= U64_MAX ->
  let w := drun steps (start d) in
  w.(domain).(Domain.in_use) = count_values counted_work w.(works)
  /\ w.(domain).(Domain.in_use) <= cfg.(DomainConfig.retained_cleanup)
  /\ (forall id where_ work, w.(works) !! id = Some (where_, work) ->
        match where_ with
        | Where.Offered _ => work.(RetainedWork.counted) = true
        | Where.Retained _ => unconfirmed w.(tickets) id = true -> work.(RetainedWork.counted) = true
        | Where.Driven | Where.Dropped => work.(RetainedWork.counted) = false
        end)
  /\ (forall id all, w.(given) !! id = Some all -> unconfirmed w.(tickets) id = false -> forall a, a ∈ all -> a ∈ w.(disposed)).
Proof.
  intros Hd Hr w. pose proof (good_domain_run cfg d steps Hd Hr) as G.
  pose proof (follows_run steps _ (good_domain_start cfg d Hd Hr)) as F. fold w in G, F.
  assert (Hcfg : w.(domain).(Domain.config) = cfg).
  { rewrite (fo_config _ _ F). cbn. unfold Domain.cleanup_domain in Hd. destruct (_ || _); [done|]. by injection Hd as <-. }
  split_and!; [apply G|rewrite <- Hcfg; apply G| |].
  - intros id where_ work Hw. destruct (dg_work _ G _ _ _ Hw) as (ticket & all & Ht & _ & Hwg).
    pose proof (wg_where _ _ _ _ _ _ _ Hwg) as Hwh. destruct where_; [apply Hwh| |done|done].
    intros (t & Ht' & Hc)%unconfirmed_spec. simplify_eq. by apply Hwh.
  - intros id all Hg Hu. by apply (confirmed_disposed w id all G).
Qed.

(** ** The waiters of a ticket *)

(** C39: whoever waits for a ticket is woken when its work is disposed.  A wait that was
    pending stays registered with the ticket until the ticket is confirmed, is woken
    then, and the first pass that finds the last adapters disposed confirms it,
    wherever the work is being driven. *)
Theorem ticket_waiter_woken cfg d steps more id waker slept w1 :
  Domain.cleanup_domain cfg = Ok d -> 0 <= cfg.(DomainConfig.retained_cleanup) <= U64_MAX ->
  is_Some ((drun steps (start d)).(tickets) !! id) -> wait id waker slept (drun steps (start d)) = (None, w1) ->
  let w2 := drun more w1 in
  (exists ticket, w2.(tickets) !! id = Some ticket /\
     if ticket.(Ticket.confirmed) then waker ∈ drop (length w1.(woken)) w2.(woken) else waker ∈ ticket.(Ticket.wakers))
  /\ (forall where_ work ready, w2.(works) !! id = Some (where_, work) -> passable where_ = true ->
        (forall a, a ∈ work.(RetainedWork.adapters) -> ready a = true) ->
        waker ∈ drop (length w1.(woken)) (pass id ready w2).(woken) /\ unconfirmed (pass id ready w2).(tickets) id = false).
Proof.
  intros Hd Hr [t0 Ht0] Hwait w2. set (w0 := drun steps (start d)) in *.
  pose proof (good_domain_run cfg d steps Hd Hr) as G0. fold w0 in G0.
  pose proof (good_wait id waker slept w0 G0) as G1. rewrite Hwait in G1. cbn in G1.
  assert (Hreg : exists t1, w1.(tickets) !! id = Some t1 /\ t1.(Ticket.confirmed) = false /\ waker ∈ t1.(Ticket.wakers)).
  { unfold wait in Hwait. rewrite Ht0 in Hwait. unfold Ticket.wait_poll in Hwait. destruct (t0.(Ticket.confirmed)) eqn:E; [done|].
    destruct slept; [done|]. injection Hwait as <-. cbn. rewrite lookup_insert_eq. eexists. split; [done|].
    destruct (existsb _ _) eqn:Ex; [|split; [done|]; cbn; apply elem_of_app; right; by left].
    split; [done|]. apply existsb_exists in Ex as (x & Hx & ->%Z.eqb_eq). by apply list_elem_of_In. }
  destruct Hreg as (t1 & Ht1 & Hc1 & Hw1).
  assert (Hgen : forall w3, follows w1 w3 -> exists t3, w3.(tickets) !! id = Some t3 /\
    if t3.(Ticket.confirmed) then waker ∈ drop (length w1.(woken)) w3.(woken) else waker ∈ t3.(Ticket.wakers)).
  { intros w3 [_ _ (k & Hk & HT)]. destruct (HT _ _ Ht1) as (t3 & Ht3 & _ & HB & HE). exists t3. split; [done|].
    destruct (t3.(Ticket.confirmed)) eqn:E; [|by apply HB]. rewrite Hk, drop_app_length. by apply (HE Hc1 eq_refl). }
  pose proof (follows_run more w1 G1) as F. fold w2 in F. split; [by apply Hgen|].
  intros where_ work ready Hw Hp Hall. assert (G2 : dgood w2).
  { unfold w2. clear -G1. induction more as [|s l IH] in w1, G1 |- *; [done|]. cbn. apply IH, domain_step, G1. }
  pose proof (follows_trans _ _ _ F (follows_step (DStep.Passes id ready) w2 G2)) as F3. cbn in F3.
  destruct (Hgen _ F3) as (t3 & Ht3 & Hif). destruct (dg_work _ G2 _ _ _ Hw) as (t2 & all & Ht2 & _ & _).
  destruct (pass_spec id ready w2 where_ work G2 Hw Hp) as (k & Heq & _). rewrite Heq in *. clear Heq.
  rewrite disposed_all in * by done. rewrite bool_decide_eq_true_2 in * by done. cbn in *.
  rewrite lookup_alter_eq, Ht2 in Ht3. injection Ht3 as <-. cbn in Hif. split; [done|].
  unfold unconfirmed. by rewrite lookup_alter_eq, Ht2.
Qed.

(** ** A work that nobody drives *)

Lemma dropped_stays w more id work :
  dgood w -> w.(works) !! id = Some (Where.Dropped, work) -> unconfirmed w.(tickets) id = true ->
  unconfirmed (drun more w).(tickets) id = true.
Proof.
  intros G Hw Hu. pose proof (follows_run more w G) as [_ _ (k & _ & HT)].
  apply unconfirmed_spec in Hu as (t & Ht & Hc). destruct (HT _ _ Ht) as (t' & Ht' & _ & _ & HE).
  apply unconfirmed_spec. exists t'. split; [done|].
  destruct (t'.(Ticket.confirmed)) eqn:E; [|done]. destruct (HE Hc eq_refl) as [_ Hn]. by apply Hn in Hw.
Qed.

(** What the close of a host has reported stands. *)
Definition reports (cells : gmap Z (Cell.t CleanupStatus.t)) (host : Z) (status : CleanupStatus.t) : Prop :=
  exists cell, cells !! host = Some cell /\ cell.(Cell.value) = Some status.
Lemma reports_insert cells host h status cell cell' :
  reports cells host status -> cells !! h = Some cell ->
  (is_some cell.(Cell.value) = true -> cell' = cell) -> reports (<[h := cell']> cells) host status.
Proof.
  intros (c & Hc & Hv) Hh He. destruct (decide (host = h)) as [->|]; [|exists c; by rewrite lookup_insert_ne].
  simplify_eq. exists cell'. rewrite lookup_insert_eq, He by (by rewrite Hv). done.
Qed.
Lemma reports_finish h st w host status : reports w.(cells) host status -> reports (finish h st w).(cells) host status.
Proof.
  intros Hr. unfold finish. destruct (w.(cells) !! h) as [cell|] eqn:Hc; [|done]. unfold Cell.set.
  destruct (is_some cell.(Cell.value)) eqn:E; cbn; (eapply reports_insert; [done..|congruence]).
Qed.
Lemma reports_after_pend by_ id kept w host status :
  reports w.(cells) host status -> reports (after_pend by_ id kept w).(cells) host status.
Proof. intros Hr. unfold after_pend. destruct by_ as [h|h| |sp], kept; cbn; try apply reports_finish; done. Qed.
Lemma reports_pend by_ adapters w host status :
  reports w.(cells) host status -> reports (pend by_ adapters w).(cells) host status.
Proof.
  intros Hr. unfold pend, Domain.next_generation, Domain.reserve. cbv beta iota zeta.
  destruct (_ <=? _); [by apply reports_after_pend|done].
Qed.
Lemma reports_poll waker hosts cells host status :
  reports cells host status -> reports (poll_cells waker hosts cells).2 host status.
Proof.
  induction hosts as [|h hosts IH] in cells |- *; intros Hr; cbn; [done|].
  assert (Hnext : forall cs, reports cs host status ->
    reports (let '(sts, wt, cs) := poll_cells waker hosts cs in (sts, wt, cs)).2 host status).
  { intros cs Hcs. specialize (IH cs Hcs). by destruct (poll_cells waker hosts cs) as [[? ?] ?]. }
  destruct (cells !! h) as [cell|] eqn:Hc.
  - assert (Hi : reports (<[h := (Cell.poll waker cell).2]> cells) host status).
    { eapply reports_insert; [done..|]. unfold Cell.poll. by destruct (cell.(Cell.value)). }
    destruct (Cell.poll waker cell) as [v cell']. cbn in Hi. specialize (Hnext _ Hi).
    destruct (poll_cells _ _ _) as [[? ?] ?]. by destruct v.
  - specialize (Hnext _ Hr). by destruct (poll_cells _ _ _) as [[? ?] ?].
Qed.
Lemma reports_step s w host status : reports w.(cells) host status -> reports (dstep s w).(cells) host status.
Proof.
  intros Hr. destruct s as [h|h|h l sp|h r sl|a|a sp|id acc|id|id r|id|id wk sl| |wk]; cbn -[DWorld.wait close_poll].
  - unfold Domain.register. by destruct (Domain.sealed _).
  - done.
  - unfold seal_host. destruct (w.(cells) !! h) eqn:Hc; [done|].
    assert (Ho : reports (opened h l w).(cells) host status).
    { destruct Hr as (c & ? & ?). exists c. cbn. rewrite lookup_insert_ne by congruence. done. }
    fold (opened h l w). case_bool_decide; [by apply reports_finish|]. destruct sp; [done|by apply reports_pend].
  - unfold run_job. destruct (_ !! _); [|done]. case_bool_decide; [by apply reports_finish|].
    destruct sl; [by apply reports_pend|done].
  - by apply reports_pend.
  - by apply reports_pend.
  - unfold answer. destruct (_ !! _) as [[[]]|]; try done. destruct acc; [done|by apply reports_after_pend].
  - unfold return_. destruct (_ !! _) as [[[|[]| |]]|]; try done. by apply reports_after_pend.
  - unfold pass. destruct (_ !! _) as [[[]]|]; try done; case_bool_decide; try done; cbn; by destruct (_ !! _).
  - unfold give_back. destruct (_ !! _) as [[[]]|]; try done; by destruct (_ && _ && _).
  - unfold wait. destruct (_ !! _); [|done]. by destruct (Ticket.wait_poll _ _ _).
  - unfold close_start. by destruct (w.(close)).
  - unfold close_poll. destruct (w.(close)) as [hosts|]; [|done]. pose proof (reports_poll wk hosts _ _ _ Hr) as Hp.
    destruct (poll_cells _ _ _) as [[sts wt] cs]. by destruct wt.
Qed.
Lemma reports_run steps w host status : reports w.(cells) host status -> reports (drun steps w).(cells) host status.
Proof. induction steps as [|s steps IH] in w |- *; intros Hr; cbn; [done|]. by apply IH, reports_step. Qed.
(** A close does not resolve complete while the ticket of one of its hosts is pending. *)
Lemma close_not_complete w waker hosts host id :
  w.(close) = Some hosts -> host ∈ hosts -> reports w.(cells) host (CleanupStatus.Pending id) -> unconfirmed w.(tickets) id = true ->
  (close_poll waker w).1 <> Some CleanupStatus.Complete.
Proof.
  intros Hclose Hin (cell & Hc & Hv) Hu. unfold close_poll. rewrite Hclose.
  destruct (poll_cells waker hosts w.(cells)) as [[sts wt] cs] eqn:Hp. destruct wt; [done|]. cbn.
  destruct (poll_cells_ready _ _ _ _ _ Hp host Hin) as (cell' & st & Hc' & Hv' & Hst). simplify_eq.
  destruct (hd_error (omap _ sts)) as [x|] eqn:Hh; [done|]. apply hd_error_nil in Hh. exfalso.
  assert (Hx : id ∈ omap (still_pending w.(tickets)) sts) by (apply list_elem_of_omap; exists (CleanupStatus.Pending id); cbn; by rewrite Hu).
  rewrite Hh in Hx. set_solver.
Qed.

(** What the seal of a host leaves when the executor refuses its close job and the budget
    or the retainer its offer. *)
Lemma refused_seal w host adapters :
  w.(cells) !! host = None -> adapters <> [] ->
  let w' := answer (w.(made) + 1) false (seal_host host adapters false w) in
  reports w'.(cells) host (CleanupStatus.Pending (w.(made) + 1)) /\ unconfirmed w'.(tickets) (w.(made) + 1) = true
  /\ exists work, w'.(works) !! (w.(made) + 1) = Some (Where.Dropped, work).
Proof.
  intros Hc Hne. unfold seal_host. rewrite Hc, bool_decide_false by done. unfold pend, Domain.next_generation, Domain.reserve. cbv beta iota zeta.
  assert (Hnew : forall (known : gmap Z Ticket.t) generation, unconfirmed (<[w.(made) + 1 := Ticket.new generation]> known) (w.(made) + 1) = true)
    by (intros; unfold unconfirmed; by rewrite lookup_insert_eq).
  destruct (_ <=? _); unfold answer, after_pend, finish, place, reports; cbn -[unconfirmed]; repeat (rewrite lookup_insert_eq; cbn -[unconfirmed]);
    (split_and!; [by eexists|apply Hnew|by eexists]).
Qed.

(** C40: a seal that nobody helps leaves a close that never completes.  When a host with
    adapters is sealed, at any point of any run, the executor refuses its close job and
    the offer of its adapters is refused too, by the budget or by the retainer, then from
    there on, whatever happens, the host's close reports the new ticket as pending, the
    ticket is never confirmed, and no close of the domain that waits for this host
    resolves complete. *)
Theorem refused_seal_never_confirms cfg d steps more host adapters :
  Domain.cleanup_domain cfg = Ok d -> 0 <= cfg.(DomainConfig.retained_cleanup) <= U64_MAX ->
  let w := drun steps (start d) in
  let id := w.(made) + 1 in
  let w' := drun more (answer id false (seal_host host adapters false w)) in
  w.(cells) !! host = None -> adapters <> [] ->
  (exists cell, w'.(cells) !! host = Some cell /\ cell.(Cell.value) = Some (CleanupStatus.Pending id))
  /\ unconfirmed w'.(tickets) id = true
  /\ (forall waker hosts, w'.(close) = Some hosts -> host ∈ hosts -> (close_poll waker w').1 <> Some CleanupStatus.Complete).
Proof.
  intros Hd Hr w id w' Hc Hne. pose proof (good_domain_run cfg d steps Hd Hr) as G. fold w in G.
  destruct (refused_seal w host adapters Hc Hne) as (Hrep & Hu & work & Hw). fold id in Hrep, Hu, Hw.
  assert (G1 : dgood (answer id false (seal_host host adapters false w))).
  { apply (domain_step (DStep.Answers id false)), (domain_step (DStep.Seals host adapters false)), G. }
  pose proof (reports_run more _ _ _ Hrep) as Hrep'. pose proof (dropped_stays _ more id work G1 Hw Hu) as Hu'. fold w' in Hrep', Hu'.
  split_and!; [exact Hrep'|exact Hu'|]. intros waker hosts Hcl Hin. by eapply close_not_complete.
Qed.

(** ** Samples *)

Definition sample_domain : Domain.t := Domain.mk DomainConfig.default false 0 0 [] [].
(** Two hosts; the first misses its bound with one of its two adapters and the retainer
    takes what is left, the second has nothing to dispose of. *)
Definition closing_steps : list DStep.t :=
  [DStep.Builds 1; DStep.Builds 2; DStep.Closes; DStep.Seals 1 [7; 8] true; DStep.Seals 2 [] true;
   DStep.Runs 1 (Z.eqb 7) true; DStep.Answers 1 true; DStep.Returns 1].
Definition ending_steps : list DStep.t := [DStep.Passes 1 (Z.eqb 8); DStep.Releases 1].

Lemma domain_close_truthful_witness :
  (close_poll 5 (drun closing_steps (start sample_domain))).1 = Some (CleanupStatus.Pending 1)
  /\ exists all, (drun (closing_steps ++ ending_steps) (start sample_domain)).(held) !! 1 = Some all
     /\ forall a, a ∈ all -> a ∈ (drun (closing_steps ++ ending_steps) (start sample_domain)).(disposed).
Proof.
  split; [vm_compute; reflexivity|].
  pose proof (domain_close_truthful DomainConfig.default sample_domain (closing_steps ++ ending_steps) 5 [1; 2]
    eq_refl ltac:(cbn; lia) ltac:(vm_compute; reflexivity) ltac:(vm_compute; reflexivity)) as [H _].
  apply H. left.
Defined.
Lemma retained_budget_exact_witness :
  (drun closing_steps (start sample_domain)).(domain).(Domain.in_use) = 1
  /\ (drun closing_steps (start sample_domain)).(domain).(Domain.in_use) <= 64
  /\ (drun (closing_steps ++ ending_steps) (start sample_domain)).(domain).(Domain.in_use) = 0.
Proof.
  split_and!; [vm_compute; reflexivity| |vm_compute; reflexivity].
  pose proof (retained_budget_exact DomainConfig.default sample_domain closing_steps eq_refl ltac:(cbn; lia)) as (_ & H & _). exact H.
Defined.
Lemma ticket_waiter_woken_witness :
  99 ∈ drop 0 (pass 1 (Z.eqb 8) (drun [] (wait 1 99 false (drun closing_steps (start sample_domain))).2)).(woken).
Proof.
  pose proof (ticket_waiter_woken DomainConfig.default sample_domain closing_steps [] 1 99 false
    (wait 1 99 false (drun closing_steps (start sample_domain))).2 eq_refl ltac:(cbn; lia)
    ltac:(vm_compute; eexists; reflexivity) ltac:(vm_compute; reflexivity)) as [_ H].
  apply (H (Where.Retained None) (RetainedWork.mk 1 [8] 1 true) (Z.eqb 8)); [vm_compute; reflexivity|reflexivity|].
  cbn. intros a Ha. apply list_elem_of_singleton in Ha as ->. reflexivity.
Defined.
(** The executor refuses the close job of host 1 and the retainer its adapter. *)
Definition before_seal : list DStep.t := [DStep.Builds 1; DStep.Builds 2; DStep.Closes].
Definition later_steps : list DStep.t :=
  [DStep.Passes 1 (fun _ => true); DStep.Answers 1 true; DStep.Releases 1; DStep.Seals 2 [] true].
Lemma refused_seal_never_confirms_witness :
  (drun later_steps (answer 1 false (seal_host 1 [7] false (drun before_seal (start sample_domain))))).(close) = Some [1; 2]
  /\ (close_poll 5 (drun later_steps (answer 1 false (seal_host 1 [7] false (drun before_seal (start sample_domain)))))).1
     <> Some CleanupStatus.Complete.
Proof.
  split; [vm_compute; reflexivity|].
  apply (refused_seal_never_confirms DomainConfig.default sample_domain before_seal later_steps 1 [7] eq_refl) with [1; 2];
    [cbn; lia|vm_compute; reflexivity|discriminate|vm_compute; reflexivity|left].
Defined.
