(* ===== verification/Instance.v ===== *)
(** * An endpoint instance

    The connection crate's instance/state.rs, instance/leasing.rs, instance/proofs.rs
    and instance/owner.rs, and what disposal.rs adds: one adapter and the pool of its
    connections.  The pool is the machine of [Pool].  The adapter, the exchanges it
    runs, the clock and the cancelled flags of the bindings are the outside: a type [E]
    with the calls of the class [Ports], which may answer anything.  A slot, a receipt
    and an operation's record of disposals are shared objects: they are kept in stores
    under numbers.  A cleanup ticket is the sequence number of its connection.

    The loops that end by themselves are written out; the ones whose end depends on the
    adapter (its completions, the openings it refuses again and again, the rounds of a
    pump) take [fuel], and every theorem is for any [fuel]. *)
From S2P Require Import Prelude Utf8 Text TextFacts Cbor Protocol Budget Admission Policy Validate Codec Binding PoolTypes SetupClock Pool Operation ConnBinding Cells.

(** A context stands here for its scope. *)
Definition AuthScope : Type := list byte.

(** ** The ports (ports.rs) *)

Module ConnectCommand.
Record t := mk {
  connection : ConnectionId.t;
  key : Key.t;
  identity : PoolIdentity.t;
  auth : option AuthScope;
  network_remaining_ms : option Z;
}.
End ConnectCommand.

Module ReuseCommand.
Record t := mk { connection : ConnectionId.t; binding : BindingId.t; proof : Z; remaining_ms : Z }.
End ReuseCommand.

Module ReuseVerdict.
Inductive t := Authorized | Revoked | Unprovable.
#[global] Instance eq_dec : EqDecision t.
Proof. solve_decision. Defined.
End ReuseVerdict.

Module Completion.
Inductive t :=
| Connected (connection : ConnectionId.t) (outcome : result (option PoolIdentity.t) Failure.t)
| Closed (connection : ConnectionId.t)
| IdleClosed (connection : ConnectionId.t)
| Reuse (connection : ConnectionId.t) (proof : Z) (verdict : ReuseVerdict.t).
End Completion.

(** Whether the error is [NotConnected], and the effect the adapter states. *)
Module StartError.
Record t := mk { not_connected : bool; effect : Effect.t }.
End StartError.

(** The clock, the adapter, the exchanges (each under its number) and the flags. *)
Class Ports (E : Type) := {
  clock_now : E -> Z * E;
  clock_epoch : E -> Z * E;
  connect : ConnectCommand.t -> E -> E;
  cancel_connect : ConnectionId.t -> E -> E;
  close : ConnectionId.t -> E -> E;
  start_exchange : ConnectionId.t -> ExchangeSpec.t -> AuthScope -> E -> result Z StartError.t * E;
  authorize_reuse : ReuseCommand.t -> E -> bool * E;
  cancel_reuse : Z -> E -> E;
  poll_completion : E -> option Completion.t * E;
  poll_finish : Z -> E -> option Disposition.t * E;
  effect_of : Z -> E -> Effect.t;
  abort_io : Z -> E -> E;
  is_cancelled : BindingId.t -> E -> bool;
}.

(** ** State (state.rs) *)

(** An exchange (its number), its lease and whether its connection served before. *)
Definition Opened : Type := result (Z * LeaseId.t * bool) OpenFailure.t.

Module IPending.
Record t := mk {
  request : RequestId.t;
  template : PoolRequest.t;
  binding : BindingId.t;
  spec : ExchangeSpec.t;
  auth : AuthScope;
  misfits : Z;
  excluded : list ConnectionId.t;
  deadline : Z;
  slot : Z;
}.
#[global] Instance eta : Eta t :=
  fun r => mk (r.(request)) (r.(template)) (r.(binding)) (r.(spec)) (r.(auth)) (r.(misfits)) (r.(excluded)) (r.(deadline))
    (r.(slot)).
End IPending.

#[global] Instance request_eta : Eta PoolRequest.t :=
  fun r => PoolRequest.mk (r.(PoolRequest.key)) (r.(PoolRequest.identity)) (r.(PoolRequest.owner))
    (r.(PoolRequest.allocation_timeout_ms)) (r.(PoolRequest.connect_timeout_ms)) (r.(PoolRequest.interaction_timeout_ms))
    (r.(PoolRequest.fresh)) (r.(PoolRequest.tag)) (r.(PoolRequest.exclude)) (r.(PoolRequest.limits))
    (r.(PoolRequest.prefer)) (r.(PoolRequest.prefer_wait_ms)).

Module Setup.
Record t := mk {
  scope : option AuthScope;
  https : bool;
  served : bool;
  lessee : option BindingId.t;
  closing : option Z;
}.
#[global] Instance eta : Eta t := fun r => mk (r.(scope)) (r.(https)) (r.(served)) (r.(lessee)) (r.(closing)).
End Setup.

Module Authorizing.
Record t := mk { pending : IPending.t; lease : LeaseId.t; proof : Z }.
End Authorizing.

Module Settling.
Record t := mk { io : Z; lease : LeaseId.t; end_ : Z; cleanups : Z }.
End Settling.

Module Ending.
Record t := mk { ticket : Z; deadline : Z; disposition : Disposition.t; end_ : Z; effect : Effect.t }.
End Ending.

Module InstanceState.
Record t (E : Type) := mk {
  env : E;
  adapter : bool;
  pool : PoolMachine.t;
  epoch : Z;
  cleanup_ms : Z;
  ending : list Ending.t;
  openings : list IPending.t;
  authorizing : list Authorizing.t;
  settling : list Settling.t;
  connections : gmap ConnectionId.t Setup.t;
  misfits : Z;
  scope_tokens : list (AuthScope * Z);
  next_token : Z;
  next_proof : Z;
  slots : gmap Z (Slot.t Opened);
  ends : gmap Z (Cell.t ExchangeEnd.t);
  cleanups : gmap Z Cleanups.t;
  confirmed : gset Z;
  waiters : list Z;
  (** The wakers woken so far. *)
  woken : list Z;
}.
Arguments mk {E}.
Arguments env {E}.
Arguments adapter {E}.
Arguments pool {E}.
Arguments epoch {E}.
Arguments cleanup_ms {E}.
Arguments ending {E}.
Arguments openings {E}.
Arguments authorizing {E}.
Arguments settling {E}.
Arguments connections {E}.
Arguments misfits {E}.
Arguments scope_tokens {E}.
Arguments next_token {E}.
Arguments next_proof {E}.
Arguments slots {E}.
Arguments ends {E}.
Arguments cleanups {E}.
Arguments confirmed {E}.
Arguments waiters {E}.
Arguments woken {E}.
#[global] Instance eta {E} : Eta (t E) :=
  fun r => mk (r.(env)) (r.(adapter)) (r.(pool)) (r.(epoch)) (r.(cleanup_ms)) (r.(ending)) (r.(openings)) (r.(authorizing))
    (r.(settling)) (r.(connections)) (r.(misfits)) (r.(scope_tokens)) (r.(next_token)) (r.(next_proof)) (r.(slots))
    (r.(ends)) (r.(cleanups)) (r.(confirmed)) (r.(waiters)) (r.(woken)).
End InstanceState.

Module Instance_.
Import InstanceState.
Section instance.
Context {E : Type} `{!Ports E}.
(** The time sources of the pool's setup clocks. *)
Variable source : Z -> nat -> Z.
Abbreviation t := (InstanceState.t E).

(** ** Shared objects and ports *)

Definition on_env (f : E -> E) (self : t) : t := self <| env := f self.(env) |>.
Definition ask_env {R} (f : E -> R * E) (self : t) : R * t :=
  let '(r, e) := f self.(env) in (r, self <| env := e |>).
Definition on_pool (f : PoolMachine.t -> PoolMachine.t) (self : t) : t := self <| pool := f self.(pool) |>.
Definition with_adapter (f : E -> E) (self : t) : t := if self.(adapter) then on_env f self else self.

(** [slot.fill]: what comes back, if anything. *)
Definition fill (slot : Z) (value : Opened) (self : t) : option Opened * t :=
  match self.(slots) !! slot with
  | None => (Some value, self)
  | Some s =>
      match Slot.fill value s with
      | (Ok waker, s) =>
          (None, self <| slots := <[slot := s]> self.(slots) |> <| woken := self.(woken) ++ option_list waker |>)
      | (Err value, _) => (Some value, self)
      end
  end.
Definition fail_slot (slot : Z) (failure : OpenFailure.t) (self : t) : t := (fill slot (Err failure) self).2.
Definition set_end (end_ : Z) (value : ExchangeEnd.t) (self : t) : t :=
  match self.(ends) !! end_ with
  | None => self
  | Some c =>
      let '(wakers, c) := Cell.set value c in
      self <| ends := <[end_ := c]> self.(ends) |> <| woken := self.(woken) ++ wakers |>
  end.
Definition unconfirmed (self : t) (ticket : Z) : bool := negb (bool_decide (ticket ∈ self.(confirmed))).
Definition confirm (ticket : Z) (self : t) : t := self <| confirmed := {[ticket]} ∪ self.(confirmed) |>.
Definition note_cleanup (record ticket : Z) (self : t) : t :=
  self <| cleanups := alter (Cleanups.note (unconfirmed self) ticket) record self.(cleanups) |>.

(** ** Receipts (state.rs) *)

(** The adapter goes, with the tickets its disposal will confirm. *)
Definition take_adapter (self : t) : option (list Z) * t :=
  let tickets := keep (unconfirmed self) (omap Setup.closing (values self.(connections))) in
  (if self.(adapter) then Some tickets else None, self <| adapter := false |>).

Definition closing_ticket (connection : ConnectionId.t) (self : t) : option Z * t :=
  if negb (PoolMachine.is_closing connection self.(pool)) then (None, self)
  else
    match self.(connections) !! connection with
    | None => (None, self)
    | Some setup =>
        match setup.(Setup.closing) with
        | Some ticket => (Some ticket, self)
        | None =>
            let ticket := connection.(ConnectionId.serial) in
            (Some ticket,
             self <| connections := <[connection := setup <| Setup.closing := Some ticket |>]> self.(connections) |>)
        end
    end.

Definition report (connection : ConnectionId.t) (disposition : Disposition.t) (end_ record : Z) (effect : Effect.t)
    (self : t) : t :=
  match closing_ticket connection self with
  | (None, self) => set_end end_ (ExchangeEnd.mk disposition CleanupStatus.Complete None effect) self
  | (Some ticket, self) =>
      let self := note_cleanup record ticket self in
      let '(now, self) := ask_env clock_now self in
      let deadline := saturating_add_u64 now self.(cleanup_ms) in
      self <| ending := self.(ending) ++ [Ending.mk ticket deadline disposition end_ effect] |>
  end.

Fixpoint resolve_each (now : Z) (all : bool) (l : list Ending.t) (self : t) : list Ending.t * t :=
  match l with
  | [] => ([], self)
  | item :: l =>
      let confirmed := negb (unconfirmed self item.(Ending.ticket)) in
      if negb (confirmed || all || (item.(Ending.deadline) <=? now)) then
        let '(kept, self) := resolve_each now all l self in (item :: kept, self)
      else
        resolve_each now all l (set_end item.(Ending.end_)
          (ExchangeEnd.mk item.(Ending.disposition)
             (if confirmed then CleanupStatus.Complete else CleanupStatus.Pending item.(Ending.ticket))
             None item.(Ending.effect)) self)
  end.
Definition resolve_ending (all : bool) (self : t) : t :=
  let '(now, self) := ask_env clock_now self in
  let '(kept, self) := resolve_each now all self.(ending) self in
  self <| ending := kept |>.

(** ** Scopes (state.rs) *)

Definition scope_name (token : Z) : string := ("scope-" ++ str_of (Text.dec token))%string.

Definition pool_identity (key : Key.t) (identity : PoolIdentity.t) (scope : AuthScope) (self : t) : PoolIdentity.t * t :=
  if negb (bool_decide (key.(Key.scheme) = Scheme.Https)) || negb (bool_decide (identity = PoolIdentity.Https))
  then (identity, self)
  else
    match List.find (fun e => bool_decide (e.1 = scope)) self.(scope_tokens) with
    | Some (_, token) => (PoolIdentity.HttpsScoped (scope_name token), self)
    | None =>
        let token := self.(next_token) in
        (PoolIdentity.HttpsScoped (scope_name token),
         self <| next_token := wrapping_add_u64 token 1 |> <| scope_tokens := self.(scope_tokens) ++ [(scope, token)] |>)
    end.

Definition scope_used (self : t) (scope : AuthScope) : bool :=
  existsb (fun setup => bool_decide (setup.(Setup.scope) = Some scope)) (values self.(connections))
  || existsb (fun p => bool_decide (p.(IPending.auth) = scope)) self.(openings)
  || existsb (fun i => bool_decide (i.(Authorizing.pending).(IPending.auth) = scope)) self.(authorizing).
Definition prune_scope_tokens (self : t) : t :=
  self <| scope_tokens := keep (fun e => scope_used self e.1) self.(scope_tokens) |>.

(** ** Settling (state.rs) *)

Definition release_lease (lease : LeaseId.t) (disposition : Disposition.t) (self : t) : t :=
  on_pool (fun p => (PoolMachine.release lease disposition p).2) self.
Definition release_lease_unused (lease : LeaseId.t) (self : t) : t :=
  on_pool (fun p => (PoolMachine.release_unused lease p).2) self.

Fixpoint settle_each (l : list Settling.t) (self : t) : list Settling.t * bool * t :=
  match l with
  | [] => ([], false, self)
  | item :: l =>
      match ask_env (poll_finish item.(Settling.io)) self with
      | (None, self) => let '(kept, progressed, self) := settle_each l self in (item :: kept, progressed, self)
      | (Some disposition, self) =>
          let connection := item.(Settling.lease).(LeaseId.connection) in
          let effect := effect_of item.(Settling.io) self.(env) in
          let self := release_lease item.(Settling.lease) disposition self in
          let self := report connection disposition item.(Settling.end_) item.(Settling.cleanups) effect self in
          let '(kept, _, self) := settle_each l self in (kept, true, self)
      end
  end.
Definition settle (self : t) : bool * t :=
  let '(kept, progressed, self) := settle_each self.(settling) self in
  (progressed, self <| settling := kept |>).

(** ** The pool's actions (leasing.rs) *)

Definition act (now : Z) (action : Action.t) (self : t) : t :=
  if negb self.(adapter) then self
  else
    match action with
    | Action.Connect connection key identity network_deadline tag =>
        let auth := and_then tag (fun tag => option_map IPending.auth
          (List.find (fun p => bool_decide (p.(IPending.template).(PoolRequest.tag) = Some tag)) self.(openings))) in
        let self := self <| connections := <[connection := Setup.mk auth (bool_decide (key.(Key.scheme) = Scheme.Https))
                                                              false None None]> self.(connections) |> in
        on_env (connect (ConnectCommand.mk connection key identity auth
                           (option_map (fun deadline => Z.max 0 (deadline - now)) network_deadline))) self
    | Action.CancelConnect connection _ | Action.AbortConnect connection => on_env (cancel_connect connection) self
    | Action.Close connection _ _ | Action.Abort connection => on_env (close connection) self
    end.
Fixpoint actions_loop (fuel : nat) (now : Z) (progressed : bool) (self : t) : bool * t :=
  match fuel with
  | O => (progressed, self)
  | S fuel =>
      match PoolMachine.next_action self.(pool) with
      | (None, pool) => (progressed, self <| InstanceState.pool := pool |>)
      | (Some action, pool) => actions_loop fuel now true (act now action (self <| InstanceState.pool := pool |>))
      end
  end.
(** At most two commands for each connection, and the look that finds none. *)
Definition actions (now : Z) (self : t) : bool * t :=
  actions_loop (2 * size self.(pool).(PoolMachine.entries) + 1) now false self.

(** ** Leases for openings (leasing.rs) *)

Definition misfit_bound (pool : PoolMachine.t) (request : PoolRequest.t) : Z :=
  let ceiling := (PoolMachine.capacity pool).(Capacity.per_user_host) in
  usize_add (match request.(PoolRequest.limits) with
             | Some limits => Z.max ceiling limits.(Capacity.per_user_host)
             | None => ceiling
             end) 1.

Definition refused_for_cancelled (pending : IPending.t) (self : t) : bool * t :=
  if is_cancelled pending.(IPending.binding) self.(env)
  then (true, fail_slot pending.(IPending.slot) OpenFailure.Cancelled self) else (false, self).

(** Asks the pool once more, within the deadline of the submission. *)
Definition ask (asked : PoolRequest.t) (pending : IPending.t) (self : t) : t :=
  let '(r, pool) := PoolMachine.request_until asked (Some pending.(IPending.deadline)) self.(pool) in
  let self := self <| InstanceState.pool := pool |> in
  match r with
  | Ok request => self <| openings := self.(openings) ++ [pending <| IPending.request := request |>] |>
  | Err error => fail_slot pending.(IPending.slot) (OpenFailure.Pool error) self
  end.
Definition ask_again (pending : IPending.t) (bounced : option ConnectionId.t) (self : t) : t :=
  let '(refused, self) := refused_for_cancelled pending self in
  if refused then self
  else
    let pending := match bounced with
                   | Some c => if contains c pending.(IPending.excluded) then pending
                               else pending <| IPending.excluded := pending.(IPending.excluded) ++ [c] |>
                   | None => pending
                   end in
    let template := pending.(IPending.template) in
    ask (if len pending.(IPending.excluded) <=? MAX_EXCLUDED
         then template <| PoolRequest.exclude := pending.(IPending.excluded) |>
         else template <| PoolRequest.fresh := true |>) pending self.
Definition ask_fresh (pending : IPending.t) (self : t) : t :=
  let '(refused, self) := refused_for_cancelled pending self in
  if refused then self
  else
    let pending := pending <| IPending.excluded := [] |> in
    ask (pending.(IPending.template) <| PoolRequest.fresh := true |> <| PoolRequest.exclude := [] |>) pending self.

Definition lost_lease (pending : IPending.t) (self : t) : t :=
  let pending := pending <| IPending.misfits := usize_add pending.(IPending.misfits) 1 |> in
  if misfit_bound self.(pool) pending.(IPending.template) <? pending.(IPending.misfits)
  then fail_slot pending.(IPending.slot) OpenFailure.NoFittingConnection self
  else ask_again pending None self.

(** The record of a connection whose exchange starts. *)
Definition mark_served (connection : ConnectionId.t) (self : t) : bool * t :=
  match self.(connections) !! connection with
  | Some setup =>
      (setup.(Setup.served), self <| connections := <[connection := setup <| Setup.served := true |>]> self.(connections) |>)
  | None => (false, self)
  end.
Definition set_lessee (connection : ConnectionId.t) (binding : BindingId.t) (self : t) : t :=
  self <| connections := alter (fun setup => setup <| Setup.lessee := Some binding |>) connection self.(connections) |>.

Definition serve (pending : IPending.t) (lease : LeaseId.t) (self : t) : t :=
  let connection := lease.(LeaseId.connection) in
  let '(reused, self) := mark_served connection self in
  let '(started, self) :=
    if self.(adapter) then ask_env (start_exchange connection pending.(IPending.spec) pending.(IPending.auth)) self
    else (Err (StartError.mk false Effect.None), self) in
  match started with
  | Ok io =>
      let self := set_lessee connection pending.(IPending.binding) self in
      match fill pending.(IPending.slot) (Ok (io, lease, reused)) self with
      | (Some (Ok (io, lease, _)), self) => release_lease lease Disposition.Discarded (on_env (abort_io io) self)
      | (_, self) => self
      end
  | Err error =>
      let self := release_lease lease Disposition.Discarded self in
      if error.(StartError.not_connected) && bool_decide (error.(StartError.effect) = Effect.None)
      then lost_lease pending self
      else fail_slot pending.(IPending.slot) (OpenFailure.Io error.(StartError.effect)) self
  end.

Definition fits (setup : Setup.t) (scope : AuthScope) : bool :=
  negb setup.(Setup.https) || bool_decide (setup.(Setup.scope) = Some scope).
Definition remove_opening (index : nat) (self : t) : t :=
  self <| openings := delete index self.(openings) |>.

(** A lease of a connection set up under another scope: it goes back untouched, and
    the opening asks for one of its own.  Whether the opening stays. *)
Definition misfit (index : nat) (pending : IPending.t) (lease : LeaseId.t) (self : t) : bool * t :=
  let self := release_lease lease Disposition.Reusable (self <| misfits := wrapping_add_u64 self.(misfits) 1 |>) in
  let bound := misfit_bound self.(pool) pending.(IPending.template) in
  let pending := pending <| IPending.misfits := usize_add pending.(IPending.misfits) 1 |> in
  let '(asked, self) :=
    if bound <? pending.(IPending.misfits) then (Err OpenFailure.NoFittingConnection, self)
    else
      let '(r, pool) := PoolMachine.request_until (pending.(IPending.template) <| PoolRequest.fresh := true |>)
                          (Some pending.(IPending.deadline)) self.(pool) in
      (map_err OpenFailure.Pool r, self <| InstanceState.pool := pool |>) in
  match asked with
  | Ok request => (true, self <| openings := <[index := pending <| IPending.request := request |>]> self.(openings) |>)
  | Err failure => (false, fail_slot pending.(IPending.slot) failure (remove_opening index self))
  end.

(** A fitting lease that another binding last used. *)
Definition prove (now : Z) (pending : IPending.t) (lease : LeaseId.t) (self : t) : t :=
  let proof := wrapping_add_u64 self.(next_proof) 1 in
  let self := self <| next_proof := proof |> in
  let command := ReuseCommand.mk lease.(LeaseId.connection) pending.(IPending.binding) proof
                   (Z.max 0 (pending.(IPending.deadline) - now)) in
  let '(started, self) := if self.(adapter) then ask_env (authorize_reuse command) self else (false, self) in
  if started then self <| authorizing := self.(authorizing) ++ [Authorizing.mk pending lease proof] |>
  else ask_again pending (Some lease.(LeaseId.connection)) (release_lease_unused lease self).

(** One turn of the loop of [openings] at [index]: the next index, whether anything
    happened. *)
Definition opening_turn (now : Z) (index : nat) (pending : IPending.t) (self : t) : nat * bool * t :=
  let '(taken, pool) := PoolMachine.take pending.(IPending.request) self.(pool) in
  let self := self <| InstanceState.pool := pool |> in
  match taken with
  | Err PoolError.WouldBlock => (S index, false, self)
  | Err error => (index, true, fail_slot pending.(IPending.slot) (OpenFailure.Pool error) (remove_opening index self))
  | Ok lease =>
      match self.(connections) !! lease.(LeaseId.connection) with
      | None =>
          (index, true, lost_lease pending (remove_opening index (release_lease lease Disposition.Discarded self)))
      | Some setup =>
          if negb (fits setup pending.(IPending.auth)) then
            let '(stays, self) := misfit index pending lease self in
            (if stays then S index else index, true, self)
          else
            let self := remove_opening index self in
            if is_some_and setup.(Setup.lessee) (fun last => negb (bool_decide (last = pending.(IPending.binding))))
            then (index, true, prove now pending lease self)
            else (index, true, serve pending lease self)
      end
  end.
Fixpoint openings_loop (fuel : nat) (now : Z) (index : nat) (progressed : bool) (self : t) : bool * t :=
  match fuel with
  | O => (progressed, self)
  | S fuel =>
      match self.(openings) !! index with
      | None => (progressed, self)
      | Some pending =>
          let '(index, moved, self) := opening_turn now index pending self in
          openings_loop fuel now index (progressed || moved) self
      end
  end.

(** ** Reuse proofs (proofs.rs) *)

Definition end_authorizing (item : Authorizing.t) (failure : OpenFailure.t) (self : t) : t :=
  let self := with_adapter (cancel_reuse item.(Authorizing.proof)) self in
  let self := release_lease_unused item.(Authorizing.lease) self in
  fail_slot item.(Authorizing.pending).(IPending.slot) failure self.
Fixpoint end_where (p : Authorizing.t -> bool) (end_one : Authorizing.t -> t -> t) (l : list Authorizing.t) (self : t)
    : list Authorizing.t * bool * t :=
  match l with
  | [] => ([], false, self)
  | item :: l =>
      if p item then
        let '(kept, _, self) := end_where p end_one l (end_one item self) in (kept, true, self)
      else
        let '(kept, progressed, self) := end_where p end_one l self in (item :: kept, progressed, self)
  end.
Definition end_authorizing_where (p : Authorizing.t -> bool) (end_one : Authorizing.t -> t -> t) (self : t) : bool * t :=
  let '(kept, progressed, self) := end_where p end_one self.(authorizing) self in
  (progressed, self <| authorizing := kept |>).

Definition cancel_authorizing (binding : BindingId.t) (self : t) : t :=
  (end_authorizing_where (fun item => bool_decide (item.(Authorizing.pending).(IPending.binding) = binding))
     (fun item => end_authorizing item OpenFailure.Cancelled) self).2.
Definition expire_authorizing (now : Z) (self : t) : bool * t :=
  end_authorizing_where (fun item => item.(Authorizing.pending).(IPending.deadline) <=? now)
    (fun item => end_authorizing item (OpenFailure.Pool PoolError.AllocationTimeout)) self.

(** [position] and [remove]. *)
Fixpoint take_where {A} (p : A -> bool) (l : list A) : option (A * list A) :=
  match l with
  | [] => None
  | x :: l => if p x then Some (x, l) else option_map (fun r => (r.1, x :: r.2)) (take_where p l)
  end.
Definition reused (connection : ConnectionId.t) (proof : Z) (verdict : ReuseVerdict.t) (self : t) : t :=
  match take_where (fun item => (item.(Authorizing.proof) =? proof)
                                && bool_decide (item.(Authorizing.lease).(LeaseId.connection) = connection))
          self.(authorizing) with
  | None => self
  | Some (item, rest) =>
      let self := self <| authorizing := rest |> in
      match verdict with
      | ReuseVerdict.Authorized => serve item.(Authorizing.pending) item.(Authorizing.lease) self
      | ReuseVerdict.Revoked =>
          ask_fresh item.(Authorizing.pending) (release_lease item.(Authorizing.lease) Disposition.Discarded self)
      | ReuseVerdict.Unprovable =>
          ask_again item.(Authorizing.pending) (Some connection) (release_lease_unused item.(Authorizing.lease) self)
      end
  end.

(** ** The pump (owner.rs) *)

Definition observe_epoch (self : t) : t :=
  let '(epoch', self) := ask_env clock_epoch self in
  if epoch' =? self.(epoch) then self
  else on_pool (fun p => (PoolMachine.expire_idle p).2) (self <| epoch := epoch' |>).

(** What a completion does to the pool; the connections it ends and the verdicts are
    collected. *)
Definition complete (completion : Completion.t) (self : t) : list ConnectionId.t * list (ConnectionId.t * Z * ReuseVerdict.t) * t :=
  match completion with
  | Completion.Connected connection outcome =>
      (if is_ok outcome then [] else [connection], [],
       on_pool (fun p => (PoolMachine.connected source connection outcome p).2) self)
  | Completion.Closed connection => ([connection], [], on_pool (fun p => (PoolMachine.closed connection p).2) self)
  | Completion.IdleClosed connection => ([connection], [], on_pool (fun p => (PoolMachine.idle_closed connection p).2) self)
  | Completion.Reuse connection proof verdict => ([], [(connection, proof, verdict)], self)
  end.
Fixpoint completions (fuel : nat) (ended : list ConnectionId.t) (verdicts : list (ConnectionId.t * Z * ReuseVerdict.t))
    (progressed : bool) (self : t) : list ConnectionId.t * list (ConnectionId.t * Z * ReuseVerdict.t) * bool * t :=
  match fuel with
  | O => (ended, verdicts, progressed, self)
  | S fuel =>
      match ask_env poll_completion self with
      | (None, self) => (ended, verdicts, progressed, self)
      | (Some completion, self) =>
          let '(e, v, self) := complete completion self in completions fuel (ended ++ e) (verdicts ++ v) true self
      end
  end.
Definition forget_connection (self : t) (connection : ConnectionId.t) : t :=
  let self := match and_then (self.(connections) !! connection) Setup.closing with
              | Some ticket => confirm ticket self
              | None => self
              end in
  self <| connections := delete connection self.(connections) |>.

Definition round (fuel : nat) (now : Z) (self : t) : bool * t :=
  let '(p1, self) := actions now self in
  let '(verdicts, p2, self) :=
    if self.(adapter) then
      let '(ended, verdicts, p2, self) := completions fuel [] [] false self in
      (verdicts, p2, foldl forget_connection self ended)
    else ([], false, self) in
  let '(at_, self) := ask_env clock_now self in
  let '(p3, self) := expire_authorizing at_ self in
  let self := foldl (fun self v => reused v.1.1 v.1.2 v.2 self) self verdicts in
  let '(at_, self) := ask_env clock_now self in
  let '(p4, self) := openings_loop fuel at_ 0 false self in
  let '(p5, self) := settle self in
  (p1 || p2 || p3 || p4 || p5, self).
Fixpoint rounds (fuel budget : nat) (now : Z) (self : t) : t :=
  match budget with
  | O => self
  | S budget =>
      let '(progressed, self) := round fuel now self in
      if progressed then rounds fuel budget now self else self
  end.
Definition pump (fuel : nat) (self : t) : t :=
  let self := observe_epoch self in
  let '(now, self) := ask_env clock_now self in
  let self := on_pool (PoolMachine.advance source now) self in
  prune_scope_tokens (resolve_ending false (rounds fuel fuel now self)).

(** ** Calls (owner.rs) *)

Definition ceilings : PoolConfig.t :=
  let d := PoolConfig.default in
  PoolConfig.mk 256 256 256 d.(PoolConfig.max_requests) d.(PoolConfig.idle_timeout_ms) d.(PoolConfig.max_age_ms)
    d.(PoolConfig.allocation_timeout_ms) d.(PoolConfig.connect_timeout_ms) d.(PoolConfig.interaction_timeout_ms)
    d.(PoolConfig.cleanup_timeout_ms).
(** [next_pool] is the counter the pool's identity comes from. *)
Definition new (next_pool : Z) (e : E) : result t PoolError.t * Z :=
  let '(epoch, e) := clock_epoch e in
  let '(pool, next_pool) := PoolMachine.new next_pool ceilings in
  (match pool with
   | Ok pool => Ok (InstanceState.mk e true pool epoch ceilings.(PoolConfig.cleanup_timeout_ms) [] [] [] [] ∅ 0 [] 0 0
                      ∅ ∅ ∅ ∅ [] [])
   | Err error => Err error
   end, next_pool).

Definition wait (waker : Z) (self : t) : t :=
  if existsb (Z.eqb waker) self.(waiters) then self else self <| waiters := self.(waiters) ++ [waker] |>.
Definition wake_waiters (self : t) : t := self <| woken := self.(woken) ++ self.(waiters) |> <| waiters := [] |>.
(** [pumped] also notifies the driver, which is [Signal.notify]. *)
Definition pumped (self : t) : t := wake_waiters self.
Definition drive (fuel : nat) (self : t) : t := wake_waiters (pump fuel self).

(** [slot] is the number of the new slot. *)
Definition submit (fuel : nat) (slot : Z) (request : PoolRequest.t) (binding : BindingId.t) (spec : ExchangeSpec.t)
    (auth : AuthScope) (self : t) : result unit PoolError.t * t :=
  let '(now, self) := ask_env clock_now self in
  let self := observe_epoch self in
  let self := on_pool (PoolMachine.advance source now) self in
  let deadline := saturating_add_u64 now
    (unwrap_or request.(PoolRequest.allocation_timeout_ms) ceilings.(PoolConfig.allocation_timeout_ms)) in
  let '(identity, self) := pool_identity request.(PoolRequest.key) request.(PoolRequest.identity) auth self in
  let template := request <| PoolRequest.identity := identity |> in
  let settling_on preferred := existsb (fun i => bool_decide (i.(Settling.lease).(LeaseId.connection) = preferred)) self.(settling) in
  let asked := template <| PoolRequest.prefer_wait_ms :=
    option_map (fun _ => self.(cleanup_ms)) (opt_filter template.(PoolRequest.prefer) settling_on) |> in
  let '(r, pool) := PoolMachine.request asked self.(pool) in
  let self := self <| InstanceState.pool := pool |> in
  match r with
  | Err error => (Err error, self)
  | Ok id =>
      let pending := IPending.mk id template binding spec auth 0 [] deadline slot in
      let self := self <| slots := <[slot := Slot.new]> self.(slots) |> <| openings := self.(openings) ++ [pending] |> in
      (Ok tt, pumped (pump fuel self))
  end.

(** [end_] is the number of the new receipt. *)
Definition settle_exchange (fuel : nat) (io : Z) (lease : LeaseId.t) (end_ record : Z) (self : t) : t :=
  let self := self <| ends := <[end_ := Cell.new]> self.(ends) |>
                   <| settling := self.(settling) ++ [Settling.mk io lease end_ record] |> in
  pumped (pump fuel self).
Definition release (fuel : nat) (lease : LeaseId.t) (disposition : Disposition.t) (self : t) : option Z * t :=
  let self := pump fuel (release_lease lease disposition self) in
  let '(ticket, self) := closing_ticket lease.(LeaseId.connection) self in
  (ticket, pumped self).
Definition discard (fuel : nat) (lease : LeaseId.t) (end_ record : Z) (effect : Effect.t) (self : t) : t :=
  let self := self <| ends := <[end_ := Cell.new]> self.(ends) |> in
  let self := release_lease lease Disposition.Discarded self in
  let self := report lease.(LeaseId.connection) Disposition.Discarded end_ record effect self in
  pumped (pump fuel self).

Definition abandon (fuel : nat) (slot : Z) (self : t) : t :=
  let '(handed, self) :=
    match self.(slots) !! slot with
    | Some s => let '(v, s) := Slot.abandon s in (v, self <| slots := <[slot := s]> self.(slots) |>)
    | None => (None, self)
    end in
  let self := match take_where (fun p => p.(IPending.slot) =? slot) self.(openings) with
              | Some (pending, rest) =>
                  on_pool (PoolMachine.abandon source pending.(IPending.request)) (self <| openings := rest |>)
              | None => self
              end in
  let '(_, self) := end_authorizing_where (fun item => item.(Authorizing.pending).(IPending.slot) =? slot)
    (fun item self => release_lease_unused item.(Authorizing.lease)
                        (with_adapter (cancel_reuse item.(Authorizing.proof)) self)) self in
  let self := match handed with
              | Some (Ok (io, lease, _)) => release_lease lease Disposition.Discarded (on_env (abort_io io) self)
              | _ => self
              end in
  pumped (pump fuel self).

(** The instance's half of [cancel_binding]. *)
Definition cancel_binding (fuel : nat) (binding : BindingId.t) (owner : Owner.t) (self : t) : t :=
  let self := cancel_authorizing binding self in
  let self := on_pool (PoolMachine.cancel_operation source owner) self in
  pumped (pump fuel self).

Definition unbound (holds : Z) (self : t) : bool :=
  (holds =? 0) && self.(adapter) && is_nil self.(openings)
  && ((PoolMachine.counts self.(pool)).(Counts.leased) =? 0).
Definition retire (fuel : nat) (self : t) : option (list Z) * t :=
  take_adapter (resolve_ending true (pump fuel (on_pool (PoolMachine.shutdown source) self))).
(** The adapter that was taken has been disposed of (disposal.rs). *)
Definition disposed (tickets : list Z) (self : t) : t := foldl (fun self ticket => confirm ticket self) self tickets.

Fixpoint closing_tickets (l : list Settling.t) (self : t) : list (Settling.t * option Z) * t :=
  match l with
  | [] => ([], self)
  | item :: l =>
      let '(ticket, self) := closing_ticket item.(Settling.lease).(LeaseId.connection) self in
      let '(rest, self) := closing_tickets l self in
      ((item, ticket) :: rest, self)
  end.
Definition fail_settling (item : Settling.t * option Z) (self : t) : t :=
  let self := on_env (abort_io item.1.(Settling.io)) self in
  let '(cleanup, self) :=
    match item.2 with
    | Some ticket => (CleanupStatus.Pending ticket, note_cleanup item.1.(Settling.cleanups) ticket self)
    | None => (CleanupStatus.Complete, self)
    end in
  set_end item.1.(Settling.end_)
    (ExchangeEnd.mk Disposition.Discarded cleanup None (effect_of item.1.(Settling.io) self.(env))) self.
Definition fail_in_flight (fuel : nat) (reason : TerminalReason.t) (self : t) : t :=
  let waiting := self.(openings) ++ map Authorizing.pending self.(authorizing) in
  let self := foldl (fun self item => release_lease item.(Authorizing.lease) Disposition.Discarded
                       (with_adapter (cancel_reuse item.(Authorizing.proof)) self))
                (self <| openings := [] |> <| authorizing := [] |>) self.(authorizing) in
  let finished := self.(settling) in
  let self := foldl (fun self item => release_lease item.(Settling.lease) Disposition.Discarded self)
                (self <| settling := [] |>) finished in
  let self := resolve_ending true (pump fuel self) in
  let '(finished, self) := closing_tickets finished self in
  let self := foldl (fun self p => fail_slot p.(IPending.slot) (OpenFailure.Closing reason) self) self waiting in
  wake_waiters (foldl (fun self item => fail_settling item self) self finished).

(** The deadline the driver sleeps until: of the pool, the proofs and the receipts. *)
Definition next_deadline (self : t) : option (option Z) :=
  option_map (fun pool => foldr opt_min None
    (pool :: map (fun i => Some i.(Authorizing.pending).(IPending.deadline)) self.(authorizing)
          ++ map (fun i => Some i.(Ending.deadline)) self.(ending)))
    (PoolMachine.next_deadline self.(pool)).
End instance.
End Instance_.
