(* ===== verification/InstanceRun.v ===== *)
(** * Runs of an endpoint instance

    Any sequence of an instance's calls, with any adapter, clock and cancellations, and
    with what the adapter was told and told written down: [recorded] puts a log beside
    the ports.  Shown is what isolates the operations that share an instance: the scope
    a connection is set up with is the scope of every exchange on it, and a connection
    passes from one binding to another only by a proof for the second. *)
From S2P Require Import Prelude Utf8 Text TextFacts Cbor Protocol Budget Admission Policy Validate Codec Binding BindingFacts PoolTypes SetupClock Pool PoolSteps PoolMoves PoolCalls PoolRun Operation ConnBinding Cells Instance.
Import InstanceState Instance_.

(** ** What is written down *)

Module Event.
Inductive t :=
| Connects (connection : ConnectionId.t) (https : bool) (scope : option AuthScope)
| Starts (connection : ConnectionId.t) (scope : AuthScope)
| Asks (connection : ConnectionId.t) (binding : BindingId.t) (proof : Z)
| Tells (connection : ConnectionId.t) (proof : Z) (verdict : ReuseVerdict.t).
End Event.
Definition Log : Type := list Event.t.

Definition told_event (c : option Completion.t) : Log :=
  match c with Some (Completion.Reuse connection proof verdict) => [Event.Tells connection proof verdict] | _ => [] end.

#[global] Instance recorded {E} `{!Ports E} : Ports (E * Log) := {|
  clock_now := fun e => let '(r, x) := clock_now e.1 in (r, (x, e.2));
  clock_epoch := fun e => let '(r, x) := clock_epoch e.1 in (r, (x, e.2));
  connect := fun c e => (connect c e.1, e.2 ++ [Event.Connects c.(ConnectCommand.connection)
                (bool_decide (c.(ConnectCommand.key).(Key.scheme) = Scheme.Https)) c.(ConnectCommand.auth)]);
  cancel_connect := fun c e => (cancel_connect c e.1, e.2);
  close := fun c e => (close c e.1, e.2);
  start_exchange := fun c spec auth e => let '(r, x) := start_exchange c spec auth e.1 in (r, (x, e.2 ++ [Event.Starts c auth]));
  authorize_reuse := fun c e => let '(r, x) := authorize_reuse c e.1 in
    (r, (x, e.2 ++ [Event.Asks c.(ReuseCommand.connection) c.(ReuseCommand.binding) c.(ReuseCommand.proof)]));
  cancel_reuse := fun p e => (cancel_reuse p e.1, e.2);
  poll_completion := fun e => let '(r, x) := poll_completion e.1 in (r, (x, e.2 ++ told_event r));
  poll_finish := fun io e => let '(r, x) := poll_finish io e.1 in (r, (x, e.2));
  effect_of := fun io e => effect_of io e.1;
  abort_io := fun io e => (abort_io io e.1, e.2);
  is_cancelled := fun b e => is_cancelled b e.1;
|}.

(** ** Calls *)

Module ICall.
Inductive t (E : Type) :=
| Submit (slot : Z) (request : PoolRequest.t) (binding : BindingId.t) (spec : ExchangeSpec.t) (auth : AuthScope)
| Settle (io : Z) (lease : LeaseId.t) (end_ record : Z)
| Release (lease : LeaseId.t) (disposition : Disposition.t)
| Discard (lease : LeaseId.t) (end_ record : Z) (effect : Effect.t)
| Abandon (slot : Z)
| CancelBinding (binding : BindingId.t) (owner : Owner.t)
| FailInFlight (reason : TerminalReason.t)
| Shutdown
| Retire
| TakeAdapter
| Disposed (tickets : list Z)
| Drive
| Wait (waker : Z)
(** A caller polls its slot, and lets it go with the answer; it polls its receipt. *)
| Take (slot waker : Z)
| PollEnd (end_ waker : Z)
(** What the outside does by itself. *)
| Outside (e : E).
Arguments Submit {E}.
Arguments Settle {E}.
Arguments Release {E}.
Arguments Discard {E}.
Arguments Abandon {E}.
Arguments CancelBinding {E}.
Arguments FailInFlight {E}.
Arguments Shutdown {E}.
Arguments Retire {E}.
Arguments TakeAdapter {E}.
Arguments Disposed {E}.
Arguments Drive {E}.
Arguments Wait {E}.
Arguments Take {E}.
Arguments PollEnd {E}.
Arguments Outside {E}.
End ICall.

Section run.
Context {E : Type} `{!Ports E}.
Variable source : Z -> nat -> Z.
Abbreviation state := (InstanceState.t (E * Log)).

Definition poll_slot (slot waker : Z) (self : state) : option Opened * state :=
  match self.(slots) !! slot with
  | None => (None, self)
  | Some s =>
      let '(answer, s) := Slot.poll_take waker s in
      (answer, self <| slots := if is_some answer then delete slot self.(slots) else <[slot := s]> self.(slots) |>)
  end.
Definition poll_end (end_ waker : Z) (self : state) : option ExchangeEnd.t * state :=
  match self.(ends) !! end_ with
  | None => (None, self)
  | Some c => let '(answer, c) := Cell.poll waker c in (answer, self <| ends := <[end_ := c]> self.(ends) |>)
  end.

Definition call_step (op : nat * ICall.t E) (self : state) : state :=
  let fuel := op.1 in
  match op.2 with
  | ICall.Submit slot request binding spec auth => (submit source fuel slot request binding spec auth self).2
  | ICall.Settle io lease end_ record => settle_exchange source fuel io lease end_ record self
  | ICall.Release lease disposition => (release source fuel lease disposition self).2
  | ICall.Discard lease end_ record effect => discard source fuel lease end_ record effect self
  | ICall.Abandon slot => abandon source fuel slot self
  | ICall.CancelBinding binding owner => cancel_binding source fuel binding owner self
  | ICall.FailInFlight reason => fail_in_flight source fuel reason self
  | ICall.Shutdown => pump source fuel (on_pool (PoolMachine.shutdown source) self)
  | ICall.Retire => (retire source fuel self).2
  | ICall.TakeAdapter => (take_adapter self).2
  | ICall.Disposed tickets => disposed tickets self
  | ICall.Drive => drive source fuel self
  | ICall.Wait waker => wait waker self
  | ICall.Take slot waker => (poll_slot slot waker (wait waker self)).2
  | ICall.PollEnd end_ waker => (poll_end end_ waker self).2
  | ICall.Outside e => self <| env := (e, self.(env).2) |>
  end.
(** Each call with the fuel of its loops. *)
Definition call_run (calls : list (nat * ICall.t E)) (self : state) : state := foldl (fun s c => call_step c s) self calls.

(** ** The pool told a connection to be made once *)

Definition any : Grant.t := Grant.mk (fun _ => True) (fun _ => True).

(** The connect of [c] has been given out: no entry of it still waits for it. *)
Definition connect_sent (c : ConnectionId.t) (p : PoolMachine.t) : Prop :=
  c.(ConnectionId.serial) <= p.(PoolMachine.connection_serial)
  /\ forall e, p.(PoolMachine.entries) !! c = Some e -> told e.

Lemma connect_sent_change c a b : connect_sent c a -> pchange any a b -> connect_sent c b.
Proof.
  intros [Hs He] Hc.
  assert (Hins : forall c' e', told e' -> forall e, <[c' := e']> (PoolMachine.entries a) !! c = Some e -> told e).
  { intros c' e' Ht e [[-> <-]|[_ H]]%lookup_insert_Some; [done|by apply He]. }
  assert (Hdel : forall c' e, delete c' (PoolMachine.entries a) !! c = Some e -> told e)
    by (intros c' e [_ H]%lookup_delete_Some; by apply He).
  destruct Hc; (split; [cbn; lia|]); cbn; try (by apply Hins); try (by apply Hdel); try exact He.
  - match goal with Ee : PoolMachine.entries _ = PoolMachine.entries a |- _ => rewrite Ee end. exact He.
  - intros x [[-> <-]|[_ Hy]]%lookup_insert_Some; [|by apply He].
    match goal with H1 : PoolMachine.entries a !! _ = Some _, H2 : tweak _ _ |- _ => pose proof (He _ H1) as Ht; destruct H2 as (_ & _ & Hw) end.
    unfold told in *. destruct (Entry.state e) as [? [] ? ? ?| | |], (Entry.state e') as [? [] ? ? ?| | |]; try done.
    destruct Hw as (_ & Hw & _). by destruct (Hw ltac:(by eexists)).
  - intros x [[Hx _]|[_ Hy]]%lookup_insert_Some; [|by apply He]. exfalso. subst c. cbn in Hs. lia.
Qed.

Lemma connect_given p c key identity deadline tag p' : consistent p ->
  PoolMachine.next_action p = (Some (Action.Connect c key identity deadline tag), p') -> ~ connect_sent c p /\ connect_sent c p'.
Proof.
  intros Hc. unfold PoolMachine.next_action. destruct (PoolMachine.first_step (PoolMachine.cleanup_step _) _) as [[c' [a e']]|] eqn:E1.
  { apply first_step_spec in E1 as (e & _ & Hs). intros [= -> _]. unfold PoolMachine.cleanup_step in Hs.
    destruct (Entry.state e) as [r clk n1 n2 [cl|]|s|l r|rs cl]; try done;
      (destruct (_ && _); [by simplify_eq|destruct (_ && _); by simplify_eq]). }
  clear E1. destruct (PoolMachine.first_step (fun _ _ => _) _) as [[c' [a e']]|] eqn:E2; [|by intros [=]].
  apply first_step_spec in E2 as (e & Hin%elem_of_entries & Hs). intros [= -> <-]. unfold PoolMachine.connect_step in Hs.
  destruct (Entry.state e) as [r [clock|] n1 n2 [cancel|]| | |] eqn:Est; try done. injection Hs as <- _ _ _ _ <-. split.
  - intros [_ Ht]. specialize (Ht _ Hin). unfold told in Ht. by rewrite Est in Ht.
  - split; [cbn; apply (co_entry_ids _ Hc); left; eauto|]. cbn. intros x. rewrite lookup_insert_eq. intros [= <-]. done.
Qed.

(** ** What holds of the log and the tables *)

Definition log (s : state) : Log := s.(env).2.

(** [c] was connected, and if the scope partitions it, for this scope. *)
Definition set_up_for (l : Log) (c : ConnectionId.t) (auth : AuthScope) : Prop :=
  exists https scope, Event.Connects c https scope ∈ l /\ (https = true -> scope = Some auth).
(** The adapter authorized [c] for [binding], in answer to the question. *)
Definition proved_for (l : Log) (c : ConnectionId.t) (binding : BindingId.t) : Prop :=
  exists proof before after, l = before ++ after
    /\ Event.Asks c binding proof ∈ before /\ Event.Tells c proof ReuseVerdict.Authorized ∈ after.

Record sound (s : state) : Prop := {
  sd_pool : consistent s.(pool);
  sd_sent : forall c https scope, Event.Connects c https scope ∈ log s -> connect_sent c s.(pool);
  sd_once : forall c h1 s1 h2 s2, Event.Connects c h1 s1 ∈ log s -> Event.Connects c h2 s2 ∈ log s -> h1 = h2 /\ s1 = s2;
  sd_records : forall c setup, s.(connections) !! c = Some setup ->
    Event.Connects c setup.(Setup.https) setup.(Setup.scope) ∈ log s;
  sd_proofs : forall i, i ∈ s.(authorizing) ->
    let c := i.(Authorizing.lease).(LeaseId.connection) in
    let p := i.(Authorizing.pending) in
    set_up_for (log s) c p.(IPending.auth) /\ Event.Asks c p.(IPending.binding) i.(Authorizing.proof) ∈ log s;
  sd_starts : forall c auth, Event.Starts c auth ∈ log s -> set_up_for (log s) c auth;
}.

(** Between two states of a run: the log grows, a connection without a record gets
    none again, and a binding's connection is another's only by proof. *)
Record follows (a b : state) : Prop := {
  fo_log : exists new, log b = log a ++ new;
  fo_gone : forall c, connect_sent c a.(pool) -> a.(connections) !! c = None -> b.(connections) !! c = None;
  fo_lessee : forall c x last, a.(connections) !! c = Some x -> x.(Setup.lessee) = Some last ->
    forall y, b.(connections) !! c = Some y ->
      exists now, y.(Setup.lessee) = Some now /\ (now = last \/ proved_for (log b) c now);
  fo_sent : forall c, connect_sent c a.(pool) -> connect_sent c b.(pool);
}.
Definition good (a b : state) : Prop := sound a -> sound b /\ follows a b.

Lemma in_log_grows a b e : follows a b -> e ∈ log a -> e ∈ log b.
Proof. intros [[new ->] _ _ _] H. apply elem_of_app. by left. Qed.

Lemma proved_grows a b c x : follows a b -> proved_for (log a) c x -> proved_for (log b) c x.
Proof.
  intros [[new ->] _ _ _] (p & l1 & l2 & -> & H1 & H2). exists p, l1, (l2 ++ new). rewrite app_assoc. split_and!; try done.
  apply elem_of_app. by left.
Qed.

Lemma good_refl a : good a a.
Proof.
  intros Ha. split; [done|]. split; try done; [exists []; by rewrite app_nil_r|]. intros c x last Hx Hl y Hy. simplify_eq. eauto.
Qed.

Lemma good_trans a b c : good a b -> good b c -> good a c.
Proof.
  intros Hab Hbc Ha. destruct (Hab Ha) as [Hb Fab]. destruct (Hbc Hb) as [Hc Fbc]. split; [done|].
  pose proof Fab as [[n1 E1] G1 L1 S1]. pose proof Fbc as [[n2 E2] G2 L2 S2]. split.
  - exists (n1 ++ n2). by rewrite E2, E1, app_assoc.
  - intros k Hs Hk. apply G2; [by apply S1|by apply G1].
  - intros k x last Hx Hl y Hy. destruct (connections b !! k) as [z|] eqn:Ez.
    + destruct (L1 k x last Hx Hl z Ez) as (m & Hm & Pm). destruct (L2 k z m Ez Hm y Hy) as (n & Hn & Pn).
      exists n. split; [done|]. destruct Pn as [->|Pn]; [|by right]. destruct Pm as [->|Pm]; [by left|right; by eapply proved_grows].
    + rewrite (G2 k) in Hy; [done| |done]. apply S1. apply (sd_sent _ Ha k (Setup.https x) (Setup.scope x)). by apply sd_records.
  - auto.
Qed.

(** ** Changes that touch neither scopes nor lessees *)

Definition evolves (p q : PoolMachine.t) : Prop := consistent p -> moves any p q.

Definition harmless (e : Event.t) : bool :=
  match e with Event.Connects _ _ _ | Event.Starts _ _ => false | _ => true end.
Definition same_setup (x y : Setup.t) : Prop :=
  x.(Setup.scope) = y.(Setup.scope) /\ x.(Setup.https) = y.(Setup.https) /\ x.(Setup.lessee) = y.(Setup.lessee).

Record calm (a b : state) : Prop := {
  ca_pool : evolves a.(pool) b.(pool);
  ca_log : exists new, log b = log a ++ new /\ forall e, e ∈ new -> harmless e = true;
  ca_records : forall c y, b.(connections) !! c = Some y -> exists x, a.(connections) !! c = Some x /\ same_setup y x;
  ca_proofs : forall i, i ∈ b.(authorizing) -> i ∈ a.(authorizing);
}.

Lemma sent_evolves c p q : consistent p -> evolves p q -> connect_sent c p -> connect_sent c q.
Proof.
  intros Hc He. apply (moves_keep (connect_sent c) any); [|done|by apply He]. intros x y _ Hx Hxy. by eapply connect_sent_change.
Qed.

(** A change that may also start an exchange, pass a connection on or wait for a proof,
    when it may. *)
Record mild (a b : state) : Prop := {
  mi_pool : evolves a.(pool) b.(pool);
  mi_log : exists new, log b = log a ++ new /\ forall e, e ∈ new ->
    match e with Event.Connects _ _ _ => False | Event.Starts c scope => set_up_for (log a) c scope | _ => True end;
  mi_records : forall c y, b.(connections) !! c = Some y -> exists x, a.(connections) !! c = Some x
    /\ y.(Setup.scope) = x.(Setup.scope) /\ y.(Setup.https) = x.(Setup.https)
    /\ forall last, x.(Setup.lessee) = Some last ->
         exists now, y.(Setup.lessee) = Some now /\ (now = last \/ proved_for (log b) c now);
  mi_proofs : forall i, i ∈ b.(authorizing) -> i ∈ a.(authorizing)
    \/ set_up_for (log b) i.(Authorizing.lease).(LeaseId.connection) i.(Authorizing.pending).(IPending.auth)
       /\ Event.Asks i.(Authorizing.lease).(LeaseId.connection) i.(Authorizing.pending).(IPending.binding)
            i.(Authorizing.proof) ∈ log b;
}.

Lemma mild_good a b : mild a b -> good a b.
Proof.
  intros [Hp (new & El & Hn) Hr Hau] [S1 S2 S3 S4 S5 S6].
  assert (Hin : forall c h s, Event.Connects c h s ∈ log b -> Event.Connects c h s ∈ log a).
  { intros c h s. rewrite El. by intros [H|H%Hn]%elem_of_app. }
  assert (Hgr : forall e, e ∈ log a -> e ∈ log b) by (intros e H; rewrite El; apply elem_of_app; by left).
  assert (Hse : forall c, connect_sent c a.(pool) -> connect_sent c b.(pool)) by (intros c; by apply sent_evolves).
  assert (Hsu : forall c x, set_up_for (log a) c x -> set_up_for (log b) c x).
  { intros c x (h & s & H1 & H2). exists h, s. split; [by apply Hgr|done]. }
  split; split.
  - eapply moves_consistent; [exact S1|by apply Hp].
  - intros c h s H. apply Hse. eapply S2. by apply Hin.
  - intros c h1 s1 h2 s2 H1 H2. apply (S3 c); by apply Hin.
  - intros c y Hy. destruct (Hr c y Hy) as (x & Hx & -> & -> & _). by apply Hgr, S4.
  - intros i Hi. destruct (Hau i Hi) as [Hi'|Hi']; [|done]. destruct (S5 i Hi') as [H1 H2]. split; [by apply Hsu|by apply Hgr].
  - intros c x Hx. apply Hsu. rewrite El in Hx. apply elem_of_app in Hx as [Hx|Hx%Hn]; [by apply S6|done].
  - by exists new.
  - intros c _ Hc. destruct (b.(connections) !! c) as [y|] eqn:Ey; [|done]. destruct (Hr c y Ey) as (x & Hx & _). congruence.
  - intros c x last Hx Hl y Hy. destruct (Hr c y Hy) as (x' & Hx' & _ & _ & H). simplify_eq. by apply H.
  - exact Hse.
Qed.

Lemma calm_mild a b : calm a b -> mild a b.
Proof.
  intros [Hp (new & El & Hn) Hr Hau]. split; [done| | |by left; apply Hau].
  - exists new. split; [done|]. intros e He%Hn. by destruct e.
  - intros c y Hy. destruct (Hr c y Hy) as (x & Hx & E1 & E2 & E3). exists x. split_and!; try done. intros last Hl. exists last.
    split; [congruence|by left].
Qed.
Lemma calm_good a b : calm a b -> good a b.
Proof. intros H. by apply mild_good, calm_mild. Qed.

Lemma no_news (l : Log) : exists new, l = l ++ new /\ forall e, e ∈ new -> harmless e = true.
Proof. exists []. split; [by rewrite app_nil_r|]. by intros e ?%elem_of_nil. Qed.

Lemma calm_refl a : calm a a.
Proof. split; [intros _; apply moves_refl|apply no_news|eauto|done]; unfold same_setup; eauto. Qed.

Lemma calm_trans a b c : calm a b -> calm b c -> calm a c.
Proof.
  intros [P1 (n1 & E1 & H1) R1 A1] [P2 (n2 & E2 & H2) R2 A2]. split.
  - intros Hc. eapply moves_trans; [by apply P1|]. apply P2. eapply moves_consistent; [exact Hc|by apply P1].
  - exists (n1 ++ n2). split; [by rewrite E2, E1, app_assoc|]. intros e [H|H]%elem_of_app; auto.
  - intros k z Hz. destruct (R2 k z Hz) as (y & Hy & S1 & S2 & S3). destruct (R1 k y Hy) as (x & Hx & T1 & T2 & T3).
    exists x. split; [done|]. split_and!; congruence.
  - auto.
Qed.

(** A change of the fields no isolation depends on. *)
Lemma calm_other a b : pool b = pool a -> log b = log a -> connections b = connections a -> authorizing b = authorizing a ->
  calm a b.
Proof.
  intros Ep El Ec Ea. split.
  - rewrite Ep. intros _. apply moves_refl.
  - rewrite El. apply no_news.
  - rewrite Ec. unfold same_setup. eauto.
  - by rewrite Ea.
Qed.
Lemma calm_env (a : state) e new : e.2 = log a ++ new -> (forall x, x ∈ new -> harmless x = true) -> calm a (a <| env := e |>).
Proof.
  intros El Hn. split; try done; [intros _; apply moves_refl|by exists new|]. cbn. unfold same_setup. eauto.
Qed.
Lemma calm_quiet (a : state) e : e.2 = log a -> calm a (a <| env := e |>).
Proof. intros H. apply (calm_env a e []); [by rewrite app_nil_r|]. by intros x ?%elem_of_nil. Qed.
Lemma calm_pool f (a : state) : evolves a.(pool) (f a.(pool)) -> calm a (on_pool f a).
Proof.
  intros Hp. split; try done; [apply no_news|]. cbn. unfold same_setup. eauto.
Qed.
Lemma calm_record c x x' (a : state) : a.(connections) !! c = Some x -> same_setup x' x ->
  calm a (a <| connections := <[c := x']> a.(connections) |>).
Proof.
  intros Hx Hs. split; cbn; try done; [intros _; apply moves_refl|apply no_news|].
  intros k y [[-> <-]|[_ Hy]]%lookup_insert_Some; [eauto|]. unfold same_setup. eauto.
Qed.
Lemma calm_forget c (a : state) : calm a (a <| connections := delete c a.(connections) |>).
Proof.
  split; cbn; try done; [intros _; apply moves_refl|apply no_news|].
  intros k y [_ Hy]%lookup_delete_Some. unfold same_setup. eauto.
Qed.
Lemma calm_fewer l (a : state) : (forall i, i ∈ l -> i ∈ a.(authorizing)) -> calm a (a <| authorizing := l |>).
Proof. intros H. split; cbn; try done; [intros _; apply moves_refl|apply no_news|]. unfold same_setup. eauto. Qed.

Lemma calm_foldl {A} (f : state -> A -> state) l a : (forall s x, calm s (f s x)) -> calm a (foldl f a l).
Proof.
  intros Hf. revert a. induction l as [|x l IH]; intros a; [apply calm_refl|]. cbn. eapply calm_trans; [apply Hf|apply IH].
Qed.

(** ** The calm functions *)

Lemma calm_fill slot v a : calm a (fill slot v a).2.
Proof.
  unfold fill. destruct (slots a !! slot) as [s|]; [|apply calm_refl]. destruct (Slot.fill v s) as [[w|] s']; [|apply calm_refl].
  by apply calm_other.
Qed.
Lemma calm_fail_slot slot f a : calm a (fail_slot slot f a).
Proof. apply calm_fill. Qed.
Lemma calm_set_end end_ v a : calm a (set_end end_ v a).
Proof. unfold set_end. destruct (ends a !! end_); [|apply calm_refl]. destruct (Cell.set _ _). by apply calm_other. Qed.
Lemma calm_note record ticket a : calm a (note_cleanup record ticket a).
Proof. by apply calm_other. Qed.
Lemma calm_now a : calm a (ask_env clock_now a).2.
Proof. unfold ask_env. cbn. destruct (clock_now _). by apply calm_quiet. Qed.
Lemma calm_take_adapter a : calm a (take_adapter a).2.
Proof. by apply calm_other. Qed.
Lemma calm_closing_ticket c a : calm a (closing_ticket c a).2.
Proof.
  unfold closing_ticket. destruct (negb _); [apply calm_refl|]. destruct (connections a !! c) as [x|] eqn:Ex; [|apply calm_refl].
  destruct (Setup.closing x); [apply calm_refl|]. by apply (calm_record c x).
Qed.

Lemma calm_release lease d a : calm a (release_lease lease d a).
Proof. apply calm_pool. intros Hc. by apply moves_release. Qed.
Lemma calm_release_unused lease a : calm a (release_lease_unused lease a).
Proof. apply calm_pool. intros Hc. unfold PoolMachine.release_unused. repeat case_match; by apply moves_release. Qed.

Lemma calm_report c d end_ record effect a : calm a (report c d end_ record effect a).
Proof.
  unfold report. pose proof (calm_closing_ticket c a) as H. destruct (closing_ticket c a) as [[ticket|] b]; cbn in H.
  - eapply calm_trans; [exact H|]. eapply calm_trans; [apply (calm_note record ticket)|].
    set (x := note_cleanup record ticket b). pose proof (calm_now x) as Hn. destruct (ask_env clock_now x) as [now y]; cbn in Hn.
    eapply calm_trans; [exact Hn|]. by apply calm_other.
  - eapply calm_trans; [exact H|apply calm_set_end].
Qed.

Lemma calm_resolve_each now all l a : calm a (resolve_each now all l a).2.
Proof.
  revert a. induction l as [|i l IH]; intros a; cbn; [apply calm_refl|]. destruct (negb (_ || _ || _)).
  - specialize (IH a). by destruct (resolve_each now all l a).
  - eapply calm_trans; [|apply IH]. apply calm_set_end.
Qed.
Lemma calm_resolve all a : calm a (resolve_ending all a).
Proof.
  unfold resolve_ending. pose proof (calm_now a) as Hn. destruct (ask_env clock_now a) as [now b]; cbn in Hn.
  eapply calm_trans; [exact Hn|]. pose proof (calm_resolve_each now all (ending b) b) as H.
  destruct (resolve_each _ _ _ _) as [kept c]; cbn in H. eapply calm_trans; [exact H|]. by apply calm_other.
Qed.

Lemma calm_settle_each l a : calm a (settle_each l a).2.
Proof.
  revert a. induction l as [|i l IH]; intros a; cbn [settle_each]; [apply calm_refl|].
  assert (Hf : calm a (ask_env (poll_finish (Settling.io i)) a).2).
  { unfold ask_env. cbn. destruct (poll_finish _ _). by apply calm_quiet. }
  destruct (ask_env _ a) as [[d|] b]; cbn in Hf.
  - match goal with |- context [settle_each l ?x] => assert (Hx : calm a x) end.
    { eapply calm_trans; [exact Hf|]. eapply calm_trans; [apply (calm_release (Settling.lease i) d)|apply calm_report]. }
    match goal with |- context [settle_each l ?x] => set (c := x) in *; specialize (IH c) end.
    destruct (settle_each l c) as [[kept p] d']; cbn in IH |- *. by eapply calm_trans.
  - specialize (IH b). destruct (settle_each l b) as [[kept p] c]; cbn in IH |- *. by eapply calm_trans.
Qed.
Lemma calm_settle a : calm a (settle a).2.
Proof.
  unfold settle. pose proof (calm_settle_each (settling a) a) as H. destruct (settle_each _ a) as [[kept p] b]; cbn in H |- *.
  eapply calm_trans; [exact H|]. by apply calm_other.
Qed.

(** ** Commands *)

Lemma good_connect now c key identity deadline tag p' a :
  PoolMachine.next_action a.(pool) = (Some (Action.Connect c key identity deadline tag), p') ->
  good a (act now (Action.Connect c key identity deadline tag) (a <| pool := p' |>)).
Proof.
  intros Hp Ha. pose proof Ha as [S1 S2 S3 S4 S5 S6].
  destruct (connect_given _ _ _ _ _ _ _ S1 Hp) as [Hno Hyes].
  assert (Hev : moves any a.(pool) p') by (pose proof (@moves_next_action any a.(pool)) as H; by rewrite Hp in H).
  unfold act. destruct (negb _).
  { revert Ha. change (good a (a <| pool := p' |>)). apply calm_good, (calm_pool (fun _ => p')). by intros _. }
  match goal with |- context [Setup.mk ?x _ _ _ _] => set (auth := x) end.
  set (https := bool_decide (Key.scheme key = Scheme.Https)).
  match goal with |- sound ?x /\ _ => set (b := x) end.
  assert (El : log b = log a ++ [Event.Connects c https auth]) by done.
  assert (Eb : connections b = <[c := Setup.mk auth https false None None]> (connections a)) by done.
  assert (Hc : forall h s, ~ Event.Connects c h s ∈ log a) by (intros h s H; by eapply Hno, S2).
  assert (Hnone : connections a !! c = None).
  { destruct (connections a !! c) as [x|] eqn:Ex; [|done]. by destruct (Hc _ _ (S4 _ _ Ex)). }
  assert (Hgr : forall e, e ∈ log a -> e ∈ log b) by (intros e H; rewrite El; apply elem_of_app; by left).
  assert (Hin : forall k h s, Event.Connects k h s ∈ log b -> Event.Connects k h s ∈ log a \/ k = c /\ h = https /\ s = auth).
  { intros k h s. rewrite El. intros [H|H%list_elem_of_singleton]%elem_of_app; [by left|right]. by simplify_eq. }
  assert (Hse : forall k, connect_sent k a.(pool) -> connect_sent k p') by (intros k; apply sent_evolves; [done|by intros _]).
  assert (Hsu : forall k x, set_up_for (log a) k x -> set_up_for (log b) k x).
  { intros k x (h & s & H1 & H2). exists h, s. split; [by apply Hgr|done]. }
  split; split.
  - eapply moves_consistent; [exact S1|exact Hev].
  - intros k h s [H|(Ek & _)]%Hin; [by eapply Hse, S2|subst k; exact Hyes].
  - intros k h1 s1 h2 s2 [H1|(Ek & -> & ->)]%Hin [H2|(Ek2 & -> & ->)]%Hin; subst; [by apply (S3 k)|by apply Hc in H1|by apply Hc in H2|done].
  - intros k x. rewrite Eb. intros [[<- <-]|[_ Hx]]%lookup_insert_Some; [|by apply Hgr, S4]. rewrite El. apply elem_of_app. right. by left.
  - intros i Hi. destruct (S5 i Hi) as [H1 H2]. split; [by apply Hsu|by apply Hgr].
  - intros k x. rewrite El. intros [H|H%list_elem_of_singleton]%elem_of_app; [by apply Hsu, S6|done].
  - by eexists.
  - intros k Hk Hx. rewrite Eb. apply lookup_insert_None. split; [done|]. by intros ->.
  - intros k x last Hx Hl y. rewrite Eb. intros [[<- _]|[_ Hy]]%lookup_insert_Some; simplify_eq. eauto.
  - exact Hse.
Qed.

Lemma good_act now action p' a : PoolMachine.next_action a.(pool) = (Some action, p') ->
  good a (act now action (a <| pool := p' |>)).
Proof.
  intros Hp. destruct action; try (by apply good_connect); apply calm_good.
  all: assert (Hm : calm a (a <| pool := p' |>)).
  1,3,5,7: apply (calm_pool (fun _ => p')); intros _; pose proof (@moves_next_action any a.(pool)) as H; by rewrite Hp in H.
  all: eapply calm_trans; [exact Hm|]; unfold act; destruct (negb _); [apply calm_refl|]; by apply calm_quiet.
Qed.

Lemma good_actions_loop fuel now progressed a : good a (actions_loop fuel now progressed a).2.
Proof.
  revert progressed a. induction fuel as [|fuel IH]; intros progressed a; cbn; [apply good_refl|].
  destruct (PoolMachine.next_action _) as [[action|] p'] eqn:Hp.
  - eapply good_trans; [by apply good_act|apply IH].
  - apply calm_good. apply (calm_pool (fun _ => p')). intros _. pose proof (@moves_next_action any a.(pool)) as H. by rewrite Hp in H.
Qed.

(** ** Openings *)

Lemma calm_request_until request absolute q r (a : state) : PoolMachine.request_until request absolute a.(pool) = (r, q) ->
  calm a (a <| pool := q |>).
Proof.
  intros Hq. apply (calm_pool (fun _ => q)). intros Hc. pose proof (@moves_request any request absolute a.(pool) Hc I) as H.
  by rewrite Hq in H.
Qed.

Lemma calm_refused p a : calm a (refused_for_cancelled p a).2.
Proof. unfold refused_for_cancelled. destruct (is_cancelled _ _); [apply calm_fail_slot|apply calm_refl]. Qed.

Lemma calm_ask asked p a : calm a (ask asked p a).
Proof.
  unfold ask. destruct (PoolMachine.request_until _ _ _) as [r q] eqn:Hq. eapply calm_trans; [by eapply calm_request_until|].
  destruct r; [by apply calm_other|apply calm_fail_slot].
Qed.
Lemma calm_ask_again p bounced a : calm a (ask_again p bounced a).
Proof.
  unfold ask_again. pose proof (calm_refused p a) as H. destruct (refused_for_cancelled p a) as [[] b]; [exact H|].
  eapply calm_trans; [exact H|apply calm_ask].
Qed.
Lemma calm_ask_fresh p a : calm a (ask_fresh p a).
Proof.
  unfold ask_fresh. pose proof (calm_refused p a) as H. destruct (refused_for_cancelled p a) as [[] b]; [exact H|].
  eapply calm_trans; [exact H|apply calm_ask].
Qed.
Lemma calm_lost p a : calm a (lost_lease p a).
Proof. unfold lost_lease. destruct (_ <? _); [apply calm_fail_slot|apply calm_ask_again]. Qed.
Lemma calm_mark c a : calm a (mark_served c a).2.
Proof. unfold mark_served. destruct (connections a !! c) as [x|] eqn:Ex; [|apply calm_refl]. by apply (calm_record c x). Qed.
Lemma calm_misfit index p lease a : calm a (misfit index p lease a).2.
Proof.
  unfold misfit. set (b := release_lease _ _ _). assert (Hb : calm a b).
  { eapply calm_trans; [|apply calm_release]. by apply calm_other. }
  eapply calm_trans; [exact Hb|]. destruct (_ <? _).
  - eapply calm_trans; [|apply calm_fail_slot]. by apply calm_other.
  - destruct (PoolMachine.request_until _ _ _) as [r q] eqn:Hq. eapply calm_trans; [by eapply calm_request_until|].
    destruct r; cbn [map_err]; [by apply calm_other|]. eapply calm_trans; [|apply calm_fail_slot]. by apply calm_other.
Qed.

(** Whom [c] may serve: its lessee, anyone if it has none, and whoever proved it. *)
Definition may_serve (a : state) (c : ConnectionId.t) (binding : BindingId.t) : Prop :=
  forall x last, a.(connections) !! c = Some x -> x.(Setup.lessee) = Some last -> last = binding \/ proved_for (log a) c binding.

Lemma proved_more l new c b : proved_for l c b -> proved_for (l ++ new) c b.
Proof.
  intros (p & l1 & l2 & -> & H1 & H2). exists p, l1, (l2 ++ new). rewrite app_assoc. split_and!; try done. apply elem_of_app. by left.
Qed.
Lemma set_up_more l new c x : set_up_for l c x -> set_up_for (l ++ new) c x.
Proof. intros (h & s & H1 & H2). exists h, s. split; [|done]. apply elem_of_app. by left. Qed.

Lemma may_serve_calm a b c binding : calm a b -> may_serve a c binding -> may_serve b c binding.
Proof.
  intros [_ (new & El & _) Hr _] Hm y last Hy Hl. destruct (Hr c y Hy) as (x & Hx & _ & _ & E3).
  destruct (Hm x last Hx) as [->|Hp]; [congruence|by left|right]. rewrite El. by apply proved_more.
Qed.
Lemma set_up_calm a b c x : calm a b -> set_up_for (log a) c x -> set_up_for (log b) c x.
Proof. intros [_ (new & El & _) _ _] H. rewrite El. by apply set_up_more. Qed.

Lemma started_log c spec auth r e (x : E * Log) : start_exchange c spec auth x = (r, e) -> e.2 = x.2 ++ [Event.Starts c auth].
Proof. cbn. case_match. intros. by simplify_eq. Qed.

(** The exchange starts and the connection is the binding's. *)
Lemma good_started c spec auth binding r e (a : state) : set_up_for (log a) c auth -> may_serve a c binding ->
  start_exchange c spec auth a.(env) = (r, e) -> good a (set_lessee c binding (a <| env := e |>)).
Proof.
  intros Hs Hm He%started_log.
  apply mild_good. split; [intros _; apply moves_refl| | |by left].
  - exists [Event.Starts c auth]. split; [done|]. by intros y ->%list_elem_of_singleton.
  - intros k y Hy. cbn in Hy. destruct (decide (c = k)) as [<-|Hne].
    + rewrite lookup_alter_eq in Hy. destruct (connections a !! c) as [z|] eqn:Ez; [|done]. apply (inj Some) in Hy as <-. exists z. cbn.
      split_and!; try done. intros last Hl. exists binding. split; [done|].
      destruct (Hm z last Ez Hl) as [->|Hp]; [by left|right]. change (proved_for e.2 c binding). rewrite He. by apply proved_more.
    + rewrite lookup_alter_ne in Hy by done. exists y. split_and!; try done. eauto.
Qed.
Lemma good_start c spec auth r e (a : state) : set_up_for (log a) c auth ->
  start_exchange c spec auth a.(env) = (r, e) -> good a (a <| env := e |>).
Proof.
  intros Hs He%started_log.
  apply mild_good. split; [intros _; apply moves_refl| | |by left].
  - exists [Event.Starts c auth]. split; [done|]. by intros y ->%list_elem_of_singleton.
  - intros k y Hy. exists y. split_and!; try done. eauto.
Qed.

(** The exchange goes to its slot, or is ended if the opening went. *)
Lemma calm_handed slot v a :
  calm a (match fill slot v a with
          | (Some (Ok (io, lease, _)), s) => release_lease lease Disposition.Discarded (on_env (abort_io io) s)
          | (_, s) => s
          end).
Proof.
  pose proof (calm_fill slot v a) as Hf. destruct (fill slot v a) as [[[[[io lease] re]|f]|] b]; cbn in Hf; try exact Hf.
  eapply calm_trans; [exact Hf|]. eapply calm_trans; [|apply calm_release]. by apply calm_quiet.
Qed.

Lemma good_serve p lease a : set_up_for (log a) lease.(LeaseId.connection) p.(IPending.auth) ->
  may_serve a lease.(LeaseId.connection) p.(IPending.binding) -> good a (serve p lease a).
Proof.
  intros Hs Hm. unfold serve. set (c := LeaseId.connection lease). pose proof (calm_mark c a) as Hk.
  destruct (mark_served c a) as [reused b]; cbn in Hk. eapply good_trans; [by apply calm_good|].
  pose proof (set_up_calm _ _ _ _ Hk Hs) as Hs'. pose proof (may_serve_calm _ _ _ _ Hk Hm) as Hm'.
  destruct (adapter b).
  - unfold ask_env. destruct (start_exchange c _ _ _) as [r e] eqn:He. destruct r as [io|error].
    + eapply good_trans; [by eapply good_started|]. apply calm_good, calm_handed.
    + eapply good_trans; [by eapply good_start|]. apply calm_good. eapply calm_trans; [apply calm_release|].
      destruct (_ && _); [apply calm_lost|apply calm_fail_slot].
  - apply calm_good. eapply calm_trans; [apply calm_release|]. apply calm_fail_slot.
Qed.

Lemma good_if a b : (sound a -> good a b) -> good a b.
Proof. intros H Ha. by apply H. Qed.

Lemma fits_set_up a c x auth : sound a -> a.(connections) !! c = Some x -> fits x auth = true -> set_up_for (log a) c auth.
Proof.
  intros Ha Hx Hf. exists (Setup.https x), (Setup.scope x). split; [by apply (sd_records _ Ha)|]. intros Hh.
  unfold fits in Hf. rewrite Hh in Hf. cbn in Hf. by apply bool_decide_eq_true in Hf.
Qed.

Lemma asked_log command r e (x : E * Log) : authorize_reuse command x = (r, e) ->
  e.2 = x.2 ++ [Event.Asks command.(ReuseCommand.connection) command.(ReuseCommand.binding) command.(ReuseCommand.proof)].
Proof. cbn. case_match. intros. by simplify_eq. Qed.

Lemma good_prove now p lease a : set_up_for (log a) lease.(LeaseId.connection) p.(IPending.auth) -> good a (prove now p lease a).
Proof.
  intros Hs. unfold prove. set (proof := wrapping_add_u64 _ _). set (b := a <| next_proof := proof |>).
  assert (Hb : calm a b) by (by apply calm_other). eapply good_trans; [by apply calm_good|]. change (adapter b) with (adapter a).
  assert (Hel : forall s, calm s (ask_again p (Some (LeaseId.connection lease)) (release_lease_unused lease s))).
  { intros s. eapply calm_trans; [apply calm_release_unused|apply calm_ask_again]. }
  destruct (adapter a); [|by apply calm_good, Hel].
  unfold ask_env. destruct (authorize_reuse _ _) as [[] e] eqn:He; apply asked_log in He; cbn in He.
  - apply mild_good. split; [intros _; apply moves_refl| | |].
    + eexists. split; [exact He|]. by intros y ->%list_elem_of_singleton.
    + intros k y Hy. exists y. split_and!; try done. eauto.
    + intros i [Hi|Hi%list_elem_of_singleton]%elem_of_app; [by left|right]. subst i. cbn [Authorizing.lease Authorizing.pending Authorizing.proof].
      change (log _) with e.2. rewrite He. split; [by apply set_up_more|]. apply elem_of_app. right. by left.
  - apply calm_good. eapply calm_trans; [|apply Hel]. eapply calm_env; [exact He|]. by intros y ->%list_elem_of_singleton.
Qed.

Lemma calm_take id r q (a : state) : PoolMachine.take id a.(pool) = (r, q) -> calm a (a <| pool := q |>).
Proof.
  intros Hq. apply (calm_pool (fun _ => q)). intros Hc. pose proof (@moves_take any id a.(pool) Hc) as H. by rewrite Hq in H.
Qed.

Lemma good_opening_turn now index p a : good a (opening_turn now index p a).2.
Proof.
  unfold opening_turn. destruct (PoolMachine.take _ _) as [r q] eqn:Hq. apply calm_take in Hq. set (b := a <| pool := q |>) in *.
  eapply good_trans; [by apply calm_good|]. apply good_if. intros Hb. destruct r as [lease|error].
  - destruct (connections b !! _) as [x|] eqn:Ex.
    + destruct (fits x _) eqn:Hf; cbn [negb].
      * pose proof (fits_set_up _ _ _ _ Hb Ex Hf) as Hs. set (c := remove_opening index b).
        eapply good_trans; [apply (calm_good b c); by apply calm_other|].
        destruct (is_some_and _ _) eqn:Hl; cbn [snd].
        -- by apply good_prove.
        -- apply good_serve; [done|]. intros y last Hy Hla. change (connections c) with (connections b) in Hy. simplify_eq.
           rewrite Hla in Hl. cbn in Hl. apply negb_false_iff, bool_decide_eq_true in Hl. by left.
      * apply calm_good. pose proof (calm_misfit index p lease b) as H. by destruct (misfit index p lease b) as [[] d].
    + apply calm_good. cbn [snd]. eapply calm_trans; [apply calm_release|]. eapply calm_trans; [|apply calm_lost]. by apply calm_other.
  - apply calm_good. destruct error; try apply calm_refl; (eapply calm_trans; [|apply calm_fail_slot]; by apply calm_other).
Qed.

Lemma good_openings fuel now index progressed a : good a (openings_loop fuel now index progressed a).2.
Proof.
  revert index progressed a. induction fuel as [|fuel IH]; intros index progressed a; cbn; [apply good_refl|].
  destruct (openings a !! index) as [p|]; [|apply good_refl]. pose proof (good_opening_turn now index p a) as H.
  destruct (opening_turn now index p a) as [[index' moved] b]; cbn in H. eapply good_trans; [exact H|apply IH].
Qed.

(** ** Proofs *)

Lemma calm_end_where f (end_one : Authorizing.t -> state -> state) l a : (forall i s, calm s (end_one i s)) -> calm a (end_where f end_one l a).2.
Proof.
  intros He. revert a. induction l as [|i l IH]; intros a; cbn; [apply calm_refl|]. destruct (f i).
  - specialize (IH (end_one i a)). destruct (end_where f end_one l _) as [[kept p] b]. eapply calm_trans; [apply He|exact IH].
  - specialize (IH a). by destruct (end_where f end_one l a) as [[kept p] b].
Qed.
Lemma end_where_kept f (end_one : Authorizing.t -> state -> state) l a i : i ∈ (end_where f end_one l a).1.1 -> i ∈ l.
Proof.
  revert a. induction l as [|j l IH]; intros a; cbn; [done|]. destruct (f j).
  - specialize (IH (end_one j a)). destruct (end_where f end_one l _) as [[kept p] b]. intros H. right. by apply IH.
  - specialize (IH a). destruct (end_where f end_one l a) as [[kept p] b]. intros [->|H]%elem_of_cons; [by left|right; by apply IH].
Qed.

Lemma calm_keeping l a b : calm a b -> (forall i, i ∈ l -> i ∈ a.(authorizing)) -> calm a (b <| authorizing := l |>).
Proof. intros [H1 H2 H3 _] H. by split. Qed.
Lemma calm_end_authorizing_where f (end_one : Authorizing.t -> state -> state) a : (forall i s, calm s (end_one i s)) ->
  calm a (end_authorizing_where f end_one a).2.
Proof.
  intros He. unfold end_authorizing_where. pose proof (calm_end_where f end_one (authorizing a) a He) as H.
  pose proof (end_where_kept f end_one (authorizing a) a) as Hk. destruct (end_where _ _ _ _) as [[kept p] b]; cbn in *.
  by apply calm_keeping.
Qed.

Lemma calm_with_adapter f a : (forall x : E * Log, (f x).2 = x.2) -> calm a (with_adapter f a).
Proof. intros H. unfold with_adapter. destruct (adapter a); [|apply calm_refl]. apply calm_quiet. apply H. Qed.
Lemma calm_end_authorizing i failure a : calm a (end_authorizing i failure a).
Proof.
  unfold end_authorizing. eapply calm_trans; [by apply (calm_with_adapter (cancel_reuse (Authorizing.proof i)))|].
  eapply calm_trans; [apply calm_release_unused|apply calm_fail_slot].
Qed.
Lemma calm_expire now a : calm a (expire_authorizing now a).2.
Proof. apply calm_end_authorizing_where. intros i s. apply calm_end_authorizing. Qed.
Lemma calm_cancel_authorizing binding a : calm a (cancel_authorizing binding a).
Proof. apply calm_end_authorizing_where. intros i s. apply calm_end_authorizing. Qed.

(** The log grows and no more openings wait for proofs. *)
Definition shrinks (a b : state) : Prop :=
  (exists new, log b = log a ++ new) /\ forall i, i ∈ b.(authorizing) -> i ∈ a.(authorizing).
Lemma instance_shrinks_trans a b c : shrinks a b -> shrinks b c -> shrinks a c.
Proof. intros [[n1 E1] H1] [[n2 E2] H2]. split; [exists (n1 ++ n2); by rewrite E2, E1, app_assoc|auto]. Qed.
Lemma calm_shrinks a b : calm a b -> shrinks a b.
Proof. intros [_ (new & El & _) _ H]. split; [by exists new|done]. Qed.

Lemma shrinks_serve p lease a : shrinks a (serve p lease a).
Proof.
  unfold serve. pose proof (calm_mark (LeaseId.connection lease) a) as Hk. destruct (mark_served _ a) as [reused b]; cbn in Hk.
  eapply instance_shrinks_trans; [by apply calm_shrinks|]. destruct (adapter b).
  2: { apply calm_shrinks. eapply calm_trans; [apply calm_release|apply calm_fail_slot]. }
  unfold ask_env. destruct (start_exchange _ _ _ _) as [r e] eqn:He. apply started_log in He.
  assert (Hs : shrinks b (b <| env := e |>)) by (split; [by eexists|done]). eapply instance_shrinks_trans; [exact Hs|]. destruct r as [io|error].
  - set (d := set_lessee _ _ _). assert (Hd : shrinks (b <| env := e |>) d) by (split; [exists []; by rewrite app_nil_r|done]).
    eapply instance_shrinks_trans; [exact Hd|]. apply calm_shrinks, calm_handed.
  - apply calm_shrinks. eapply calm_trans; [apply calm_release|]. destruct (_ && _); [apply calm_lost|apply calm_fail_slot].
Qed.

Lemma take_where_spec {A} (f : A -> bool) l x rest : take_where f l = Some (x, rest) ->
  x ∈ l /\ f x = true /\ forall y, y ∈ rest -> y ∈ l.
Proof.
  revert rest. induction l as [|z l IH]; intros rest; cbn; [done|]. destruct (f z) eqn:Hf.
  - intros [= -> ->]. split_and!; [left|done|by right].
  - destruct (take_where f l) as [[y r]|]; [|done]. cbn. intros [= -> <-]. destruct (IH r eq_refl) as (H1 & H2 & H3).
    split_and!; [by right|done|]. intros w [->|Hw]%elem_of_cons; [left|right; by apply H3].
Qed.

(** What the log was when the last question was asked, and what came since. *)
Record heard (old : Log) (verdicts : list (ConnectionId.t * Z * ReuseVerdict.t)) (a : state) : Prop := {
  he_asked : forall i, i ∈ a.(authorizing) ->
    Event.Asks i.(Authorizing.lease).(LeaseId.connection) i.(Authorizing.pending).(IPending.binding) i.(Authorizing.proof) ∈ old;
  he_told : exists new, log a = old ++ new /\ forall c p v, (c, p, v) ∈ verdicts -> Event.Tells c p v ∈ new;
}.
Lemma heard_shrinks old verdicts a b : shrinks a b -> heard old verdicts a -> heard old verdicts b.
Proof.
  intros [[n1 E1] H1] [Ha (n2 & E2 & H2)]. split; [auto|]. exists (n2 ++ n1). split; [by rewrite E1, E2, app_assoc|].
  intros c p v Hv. apply elem_of_app. left. by apply H2.
Qed.

Lemma shrinks_reused c proof verdict a : shrinks a (reused c proof verdict a).
Proof.
  unfold reused. destruct (take_where _ _) as [[i rest]|] eqn:Ht; [|apply calm_shrinks, calm_refl].
  apply take_where_spec in Ht as (_ & _ & Hr). eapply instance_shrinks_trans; [apply calm_shrinks; by apply (calm_fewer rest)|].
  destruct verdict; [apply shrinks_serve| |]; apply calm_shrinks.
  - eapply calm_trans; [apply calm_release|apply calm_ask_fresh].
  - eapply calm_trans; [apply calm_release_unused|apply calm_ask_again].
Qed.

Lemma good_reused old verdicts c proof verdict a : heard old verdicts a -> (c, proof, verdict) ∈ verdicts ->
  good a (reused c proof verdict a).
Proof.
  intros [Ha (new & El & Hn)] Hv. apply good_if. intros Hs. unfold reused.
  destruct (take_where _ _) as [[i rest]|] eqn:Ht; [|apply good_refl]. apply take_where_spec in Ht as (Hi & Hp & Hr).
  apply andb_true_iff in Hp as [Hp Hc]. apply Z.eqb_eq in Hp. apply bool_decide_eq_true in Hc.
  eapply good_trans; [apply calm_good; by apply (calm_fewer rest)|]. destruct verdict.
  - destruct (sd_proofs _ Hs i Hi) as [Hset _]. apply good_serve; [done|]. intros x last _ _. right.
    exists proof, old, new. change (log _) with (log a). specialize (Ha i Hi). rewrite Hp in Ha. split_and!; try done.
    rewrite Hc. by apply Hn.
  - apply calm_good. eapply calm_trans; [apply calm_release|apply calm_ask_fresh].
  - apply calm_good. eapply calm_trans; [apply calm_release_unused|apply calm_ask_again].
Qed.

Lemma good_verdicts old all verdicts a : heard old all a -> (forall v, v ∈ verdicts -> v ∈ all) ->
  good a (foldl (fun self v => reused v.1.1 v.1.2 v.2 self) a verdicts).
Proof.
  revert a. induction verdicts as [|[[c p] v] verdicts IH]; intros a Ha Hin; cbn; [apply good_refl|].
  eapply good_trans; [eapply good_reused; [exact Ha|apply Hin; left]|]. apply IH; [|intros w Hw; apply Hin; by right].
  eapply heard_shrinks; [|exact Ha]. apply shrinks_reused.
Qed.

(** ** Completions *)

Lemma calm_complete completion a : calm a (complete source completion a).2.
Proof.
  destruct completion; cbn; try apply calm_refl; (apply calm_pool; intros Hc).
  - by apply moves_connected.
  - by apply moves_closed.
  - by apply moves_idle_closed.
Qed.

Lemma told_log r e (x : E * Log) : poll_completion x = (r, e) -> e.2 = x.2 ++ told_event r.
Proof. cbn. case_match. intros. by simplify_eq. Qed.

Lemma completions_told fuel ended verdicts progressed a :
  let r := completions source fuel ended verdicts progressed a in
  calm a r.2 /\ exists new, log r.2 = log a ++ new
    /\ forall c p v, (c, p, v) ∈ r.1.1.2 -> (c, p, v) ∈ verdicts \/ Event.Tells c p v ∈ new.
Proof.
  revert ended verdicts progressed a. induction fuel as [|fuel IH]; intros ended verdicts progressed a; cbn [completions].
  { split; [apply calm_refl|]. exists []. rewrite app_nil_r. split; [done|by left]. }
  unfold ask_env. destruct (poll_completion _) as [r e] eqn:He. apply told_log in He. set (b := a <| env := e |>).
  assert (Hb : calm a b).
  { eapply calm_env; [exact He|]. destruct r as [[]|]; cbn; try (by intros x ?%elem_of_nil). by intros x ->%list_elem_of_singleton. }
  destruct r as [completion|].
  2: { split; [exact Hb|]. exists []. split; [exact He|by left]. }
  pose proof (calm_complete completion b) as Hd.
  assert (Hl : log (complete source completion b).2 = log a ++ told_event (Some completion)) by (change (log a) with (env a).2; rewrite <- He; by destruct completion).
  assert (Hv : forall x, x ∈ (complete source completion b).1.2 -> Event.Tells x.1.1 x.1.2 x.2 ∈ told_event (Some completion)).
  { destruct completion; cbn; try (by intros x ?%elem_of_nil). intros x ->%list_elem_of_singleton. by left. }
  destruct (complete source completion b) as [[en ve] d]; cbn in Hd, Hl, Hv.
  specialize (IH (ended ++ en) (verdicts ++ ve) true d) as [IH1 (new & IH2 & IH3)].
  split; [eapply calm_trans; [exact Hb|]; by eapply calm_trans|]. exists (told_event (Some completion) ++ new).
  split; [by rewrite IH2, Hl, app_assoc|]. intros c p v H. rewrite elem_of_app.
  destruct (IH3 c p v H) as [[Hin|Hin]%elem_of_app|Hin]; [by left| |by right; right]. right. left. by apply (Hv (c, p, v)).
Qed.

Lemma calm_forget_connection c a : calm a (forget_connection a c).
Proof.
  unfold forget_connection. set (b := match and_then _ _ with Some _ => _ | None => _ end).
  assert (Hb : calm a b) by (subst b; destruct (and_then _ _); [by apply calm_other|apply calm_refl]).
  eapply calm_trans; [exact Hb|]. apply (calm_forget c b).
Qed.

(** ** The pump *)

Definition listen (fuel : nat) (a : state) : list (ConnectionId.t * Z * ReuseVerdict.t) * bool * state :=
  if a.(adapter) then
    let '(ended, verdicts, p2, b) := completions source fuel [] [] false a in (verdicts, p2, foldl forget_connection b ended)
  else ([], false, a).

Lemma listen_heard fuel a : sound a -> calm a (listen fuel a).2 /\ heard (log a) (listen fuel a).1.1 (listen fuel a).2.
Proof.
  intros Ha. assert (Hq : forall i, i ∈ a.(authorizing) -> Event.Asks i.(Authorizing.lease).(LeaseId.connection)
    i.(Authorizing.pending).(IPending.binding) i.(Authorizing.proof) ∈ log a) by (intros i Hi; by apply sd_proofs).
  unfold listen. destruct (adapter a).
  2: { split; [apply calm_refl|]. split; [exact Hq|]. exists []. rewrite app_nil_r. split; [done|]. by intros c p v ?%elem_of_nil. }
  pose proof (completions_told fuel [] [] false a) as [H (new & El & Hn)].
  destruct (completions _ _ _ _ _ _) as [[[ended verdicts] p2] b]; cbn in H, El, Hn |- *.
  assert (Hf : calm b (foldl forget_connection b ended)) by (apply calm_foldl; intros s c; apply calm_forget_connection).
  split; [by eapply calm_trans|]. apply (heard_shrinks _ _ b); [by apply calm_shrinks|]. split.
  - intros i Hi. apply Hq. by apply (ca_proofs _ _ H).
  - exists new. split; [done|]. intros c p v Hv. destruct (Hn c p v Hv) as [?%elem_of_nil|]; done.
Qed.

Lemma good_round fuel now a : good a (round source fuel now a).2.
Proof.
  unfold round. pose proof (good_actions_loop (2 * size (PoolMachine.entries (pool a)) + 1) now false a) as H1. unfold actions.
  destruct (actions_loop _ _ _ _) as [p1 b]; cbn in H1. eapply good_trans; [exact H1|]. apply good_if. intros Hb.
  pose proof (listen_heard fuel b Hb) as [H2 H3].
  change (if adapter b then _ else _) with (listen fuel b). destruct (listen fuel b) as [[verdicts p2] c]; cbn in H2, H3.
  eapply good_trans; [by apply calm_good|].
  pose proof (calm_now c) as H4. destruct (ask_env clock_now c) as [t1 d]; cbn in H4. eapply good_trans; [by apply calm_good|].
  pose proof (calm_expire t1 d) as H5. destruct (expire_authorizing t1 d) as [p3 e]; cbn in H5. eapply good_trans; [by apply calm_good|].
  eapply good_trans; [apply (good_verdicts (log b) verdicts)|].
  { apply (heard_shrinks _ _ c); [apply calm_shrinks; by apply (calm_trans c d)|exact H3]. }
  { done. }
  set (f := foldl _ e verdicts).
  pose proof (calm_now f) as H6. destruct (ask_env clock_now f) as [t2 g]; cbn in H6. eapply good_trans; [by apply calm_good|].
  pose proof (good_openings fuel t2 0 false g) as H7. destruct (openings_loop _ _ _ _ _) as [p4 h]; cbn in H7.
  eapply good_trans; [exact H7|]. pose proof (calm_settle h) as H8. destruct (settle h) as [p5 j]; cbn in H8. by apply calm_good.
Qed.

Lemma good_rounds fuel budget now a : good a (rounds source fuel budget now a).
Proof.
  revert a. induction budget as [|budget IH]; intros a; cbn; [apply good_refl|].
  pose proof (good_round fuel now a) as H. destruct (round source fuel now a) as [[] b]; cbn in H; [|exact H].
  eapply good_trans; [exact H|apply IH].
Qed.

Lemma calm_observe a : calm a (observe_epoch a).
Proof.
  unfold observe_epoch. assert (He : calm a (ask_env clock_epoch a).2).
  { unfold ask_env. cbn. destruct (clock_epoch _). by apply calm_quiet. }
  destruct (ask_env clock_epoch a) as [t b]; cbn in He. destruct (_ =? _); [exact He|]. eapply calm_trans; [exact He|].
  eapply calm_trans; [by apply (calm_other b (b <| epoch := t |>))|]. apply calm_pool. intros Hc. by apply moves_expire_idle.
Qed.
Lemma calm_advance now a : calm a (on_pool (PoolMachine.advance source now) a).
Proof. apply calm_pool. intros Hc. by apply moves_advance. Qed.

Lemma good_pump fuel a : good a (pump source fuel a).
Proof.
  unfold pump. eapply good_trans; [apply calm_good, calm_observe|]. set (b := observe_epoch a).
  pose proof (calm_now b) as H1. destruct (ask_env clock_now b) as [t c]; cbn in H1. eapply good_trans; [by apply calm_good|].
  eapply good_trans; [apply calm_good, calm_advance|]. eapply good_trans; [apply good_rounds|].
  apply calm_good. eapply calm_trans; [apply calm_resolve|]. by apply calm_other.
Qed.

(** ** Calls *)

Lemma good_pumped fuel a b : calm a b -> good a (pumped (pump source fuel b)).
Proof.
  intros H. eapply good_trans; [by apply calm_good|]. eapply good_trans; [apply (good_pump fuel)|]. by apply calm_good, calm_other.
Qed.

Lemma calm_pool_identity key identity scope a : calm a (pool_identity key identity scope a).2.
Proof.
  unfold pool_identity. destruct (_ || _); [apply calm_refl|]. destruct (List.find _ _) as [[]|]; [apply calm_refl|]. by apply calm_other.
Qed.

Lemma good_submit fuel slot request binding spec auth a : good a (submit source fuel slot request binding spec auth a).2.
Proof.
  unfold submit. pose proof (calm_now a) as H1. destruct (ask_env clock_now a) as [t b]; cbn in H1.
  set (c := on_pool _ (observe_epoch b)). assert (Hc : calm a c).
  { eapply calm_trans; [exact H1|]. eapply calm_trans; [apply calm_observe|apply calm_advance]. }
  pose proof (calm_pool_identity (PoolRequest.key request) (PoolRequest.identity request) auth c) as H2.
  destruct (pool_identity _ _ _ c) as [identity d]; cbn in H2. pose proof (calm_trans _ _ _ Hc H2) as Hd.
  destruct (PoolMachine.request _ _) as [r q] eqn:Hq. apply calm_request_until in Hq. pose proof (calm_trans _ _ _ Hd Hq) as He.
  destruct r as [id|error]; cbn [snd]; [|by apply calm_good]. apply good_pumped. eapply calm_trans; [exact He|]. by apply calm_other.
Qed.

Lemma good_abandon fuel slot a : good a (abandon source fuel slot a).
Proof.
  unfold abandon. set (x := match slots a !! slot with Some s => _ | None => _ end).
  assert (H1 : calm a x.2).
  { subst x. destruct (slots a !! slot) as [s|]; [|apply calm_refl]. destruct (Slot.abandon s). by apply calm_other. }
  destruct x as [handed b]; cbn in H1.
  set (c := match take_where _ _ with Some _ => _ | None => _ end). assert (H2 : calm b c).
  { subst c. destruct (take_where _ _) as [[p rest]|]; [|apply calm_refl].
    eapply calm_trans; [by apply (calm_other b (b <| openings := rest |>))|]. apply calm_pool. intros Hc. by apply moves_abandon. }
  match goal with |- context [end_authorizing_where ?f ?g c] =>
    assert (H3 : calm c (end_authorizing_where f g c).2); [|destruct (end_authorizing_where f g c) as [p d]; cbn in H3] end.
  { apply calm_end_authorizing_where. intros i s. eapply calm_trans; [|apply calm_release_unused].
    by apply (calm_with_adapter (cancel_reuse (Authorizing.proof i))). }
  apply good_pumped. eapply calm_trans; [exact H1|]. eapply calm_trans; [exact H2|]. eapply calm_trans; [exact H3|].
  destruct handed as [[[[io lease] re]|f]|]; try apply calm_refl. eapply calm_trans; [|apply calm_release]. by apply calm_quiet.
Qed.

Lemma calm_closing_tickets l a : calm a (closing_tickets l a).2.
Proof.
  revert a. induction l as [|i l IH]; intros a; cbn; [apply calm_refl|].
  pose proof (calm_closing_ticket (LeaseId.connection (Settling.lease i)) a) as H. destruct (closing_ticket _ a) as [t b]; cbn in H.
  specialize (IH b). destruct (closing_tickets l b) as [rest c]; cbn in IH |- *. by eapply calm_trans.
Qed.
Lemma calm_fail_settling i a : calm a (fail_settling i a).
Proof.
  unfold fail_settling. set (b := on_env _ a). assert (Hb : calm a b) by (by apply calm_quiet). eapply calm_trans; [exact Hb|].
  destruct i.2; [eapply calm_trans; [apply calm_note|]|]; apply calm_set_end.
Qed.

Lemma good_fail_in_flight fuel reason a : good a (fail_in_flight source fuel reason a).
Proof.
  unfold fail_in_flight. set (b := foldl _ _ (authorizing a)). assert (H1 : calm a b).
  { subst b. eapply calm_trans; [|apply calm_foldl].
    - apply (calm_trans _ (a <| openings := [] |>)); [by apply calm_other|]. apply calm_fewer. by intros i ?%elem_of_nil.
    - intros s i. eapply calm_trans; [|apply calm_release]. by apply (calm_with_adapter (cancel_reuse (Authorizing.proof i))). }
  eapply good_trans; [by apply calm_good|]. set (c := foldl _ _ (settling b)). assert (H2 : calm b c).
  { subst c. eapply calm_trans; [|apply calm_foldl]; [by apply calm_other|]. intros s i. apply calm_release. }
  eapply good_trans; [by apply calm_good|]. eapply good_trans; [apply (good_pump fuel)|]. apply calm_good.
  set (d := resolve_ending true _). assert (Hd : calm (pump source fuel c) d) by apply calm_resolve.
  pose proof (calm_closing_tickets (settling b) d) as H3. destruct (closing_tickets _ d) as [finished e]; cbn in H3.
  eapply calm_trans; [exact Hd|]. eapply calm_trans; [exact H3|]. set (g := foldl _ e _).
  assert (Hg : calm e g) by (apply calm_foldl; intros s p; apply calm_fail_slot). eapply calm_trans; [exact Hg|].
  set (h := foldl _ g _). assert (Hh : calm g h) by (apply calm_foldl; intros s p; apply calm_fail_settling).
  eapply calm_trans; [exact Hh|]. by apply calm_other.
Qed.

Lemma calm_disposed tickets a : calm a (disposed tickets a).
Proof. apply calm_foldl. intros s t. by apply calm_other. Qed.

Lemma calm_shutdown a : calm a (on_pool (PoolMachine.shutdown source) a).
Proof. apply calm_pool. intros Hc. pose proof (@moves_stop any source PoolError.Shutdown CloseReason.Shutdown _ Hc) as H. exact H. Qed.

Lemma calm_wait waker a : calm a (wait waker a).
Proof. unfold wait. destruct (existsb _ _); [apply calm_refl|]. by apply calm_other. Qed.

Lemma good_call op a : good a (call_step op a).
Proof.
  destruct op as [fuel []]; cbn [call_step fst snd].
  - apply good_submit.
  - by apply good_pumped, calm_other.
  - unfold release. eapply good_trans; [apply calm_good, (calm_release lease disposition)|]. eapply good_trans; [apply (good_pump fuel)|].
    set (b := pump _ _ _). pose proof (calm_closing_ticket (LeaseId.connection lease) b) as H.
    destruct (closing_ticket _ b) as [t c]; cbn in H. apply calm_good. eapply calm_trans; [exact H|]. by apply calm_other.
  - apply good_pumped. eapply calm_trans; [|apply calm_report]. eapply calm_trans; [|apply calm_release]. by apply calm_other.
  - apply good_abandon.
  - apply good_pumped. eapply calm_trans; [apply calm_cancel_authorizing|]. apply calm_pool. intros Hc. by apply moves_cancel_matching.
  - apply good_fail_in_flight.
  - eapply good_trans; [|apply good_pump]. apply calm_good, calm_shutdown.
  - unfold retire. eapply good_trans; [apply calm_good, calm_shutdown|]. eapply good_trans; [apply (good_pump fuel)|]. apply calm_good. eapply calm_trans; [apply calm_resolve|apply calm_take_adapter].
  - apply calm_good, calm_take_adapter.
  - apply calm_good, calm_disposed.
  - eapply good_trans; [apply (good_pump fuel)|]. by apply calm_good, calm_other.
  - apply calm_good, calm_wait.
  - apply calm_good. eapply calm_trans; [apply (calm_wait waker)|]. unfold poll_slot. set (b := wait waker a).
    destruct (slots b !! slot); [|apply calm_refl]. destruct (Slot.poll_take _ _). by apply calm_other.
  - apply calm_good. unfold poll_end. destruct (ends a !! end_); [|apply calm_refl]. destruct (Cell.poll _ _). by apply calm_other.
  - by apply calm_good, calm_quiet.
Qed.

Lemma good_run calls a : good a (call_run calls a).
Proof.
  revert a. induction calls as [|c calls IH]; intros a; cbn; [apply good_refl|]. eapply good_trans; [apply good_call|apply IH].
Qed.

(** ** A new instance *)

Lemma new_sound next_pool e a n : new next_pool (e, []) = (Ok a, n) -> sound a.
Proof.
  unfold new. destruct (clock_epoch (e, [])) as [t x] eqn:Hx. assert (x.2 = []) as El by (cbn in Hx; case_match; by simplify_eq).
  destruct (PoolMachine.new next_pool ceilings) as [[p|] m] eqn:Hp; [|by intros [=]].
  intros [= <- <-].
  assert (Hno : forall ev, ~ ev ∈ log (InstanceState.mk x true p t (PoolConfig.cleanup_timeout_ms ceilings) [] [] [] [] ∅ 0 [] 0 0 ∅ ∅ ∅ ∅ [] [])).
  { intros ev H. change (ev ∈ x.2) in H. rewrite El in H. by apply elem_of_nil in H. }
  split; [by eapply new_consistent|by intros c h s ?%Hno|by intros c h s h2 s2 ?%Hno|done|by intros i ?%elem_of_nil|by intros c s ?%Hno].
Qed.

(** C8: Every exchange is started on a connection that was set up once, and when the scope
    partitions it, for that exchange's scope. *)
Theorem scope_partition next_pool e a n calls c auth : new next_pool (e, []) = (Ok a, n) ->
  Event.Starts c auth ∈ log (call_run calls a) ->
  exists https scope, (forall h s, Event.Connects c h s ∈ log (call_run calls a) <-> h = https /\ s = scope)
    /\ (https = true -> scope = Some auth).
Proof.
  intros Ha%new_sound Hs. destruct (good_run calls a Ha) as [Hb _]. destruct (sd_starts _ Hb c auth Hs) as (https & scope & Hc & Hq).
  exists https, scope. split; [|done]. intros h s. split; [|by intros [-> ->]]. intros H. by apply (sd_once _ Hb c).
Qed.

(** C9: A connection passes from one binding to another only by a proof for the second. *)
Theorem passed_by_proof next_pool e a n before after c x y last : new next_pool (e, []) = (Ok a, n) ->
  (call_run before a).(connections) !! c = Some x -> x.(Setup.lessee) = Some last ->
  (call_run (before ++ after) a).(connections) !! c = Some y ->
  exists now, y.(Setup.lessee) = Some now
    /\ (now = last \/ proved_for (log (call_run (before ++ after) a)) c now).
Proof.
  intros Ha%new_sound. unfold call_run. rewrite foldl_app. fold (call_run before a). set (b := call_run before a).
  fold (call_run after b). destruct (good_run before a Ha) as [Hb _]. destruct (good_run after b Hb) as [_ Hf]. intros Hx Hl Hy.
  by apply (fo_lessee _ _ Hf c x last).
Qed.
End run.
