(* ===== verification/InstanceOwed.v ===== *)
(** * No caller of an endpoint instance is forgotten

    An opening's caller waits on its slot and a finished exchange's on its receipt.
    Every slot that has no answer yet belongs to an opening the instance still has, and
    every receipt without a value to an exchange it still settles or reports; and when
    the instance is failed, all of them are answered. *)
From S2P Require Import Prelude Utf8 Text TextFacts Cbor Protocol Budget Admission Policy Validate Codec Binding BindingFacts PoolTypes SetupClock Pool PoolSteps PoolMoves PoolCalls PoolRun Operation ConnBinding Cells Instance InstanceRun.
Import InstanceState Instance_.

Section owed.
Context {E : Type} `{!Ports E}.
Variable source : Z -> nat -> Z.
Abbreviation state := (InstanceState.t E).

(** ** Who waits and for whom *)

Definition waits (a : state) (k : Z) : Prop :=
  exists s, a.(slots) !! k = Some s /\ s.(Slot.value) = None /\ s.(Slot.abandoned) = false.
Definition due (a : state) (e : Z) : Prop := exists c, a.(ends) !! e = Some c /\ c.(Cell.value) = None.

Definition opening_slots (a : state) : list Z := map IPending.slot a.(openings).
Definition proof_slots (a : state) : list Z := map (fun i => i.(Authorizing.pending).(IPending.slot)) a.(authorizing).
Definition settling_ends (a : state) : list Z := map Settling.end_ a.(settling).
Definition ending_ends (a : state) : list Z := map Ending.end_ a.(ending).

(** Nothing waits but for the tables, and for what is held outside them. *)
Record owes (ks es : list Z) (a : state) : Prop := {
  ow_slots : forall k, waits a k -> k ∈ opening_slots a \/ k ∈ proof_slots a \/ k ∈ ks;
  ow_ends : forall e, due a e -> e ∈ settling_ends a \/ e ∈ ending_ends a \/ e ∈ es;
}.

(** Nothing newly waits, and the tables lose nothing. *)
Record keeps (a b : state) : Prop := {
  ke_waits : forall k, waits b k -> waits a k;
  ke_due : forall e, due b e -> due a e;
  ke_openings : forall k, k ∈ opening_slots a -> k ∈ opening_slots b;
  ke_proofs : forall k, k ∈ proof_slots a -> k ∈ proof_slots b;
  ke_settling : forall e, e ∈ settling_ends a -> e ∈ settling_ends b;
  ke_ending : forall e, e ∈ ending_ends a -> e ∈ ending_ends b;
}.

Lemma owed_refl a : keeps a a.
Proof. by split. Qed.
Lemma keeps_trans a b c : keeps a b -> keeps b c -> keeps a c.
Proof. intros [] []. split; auto. Qed.
Lemma owed_same a b : slots b = slots a -> ends b = ends a -> openings b = openings a -> authorizing b = authorizing a ->
  settling b = settling a -> ending b = ending a -> keeps a b.
Proof.
  intros E1 E2 E3 E4 E5 E6.
  split; unfold waits, due, opening_slots, proof_slots, settling_ends, ending_ends; by rewrite ?E1, ?E2, ?E3, ?E4, ?E5, ?E6.
Qed.
Lemma keeps_foldl {A} (f : state -> A -> state) l a : (forall s x, keeps s (f s x)) -> keeps a (foldl f a l).
Proof.
  intros Hf. revert a. induction l as [|x l IH]; intros a; [apply owed_refl|]. cbn. eapply keeps_trans; [apply Hf|apply IH].
Qed.

Lemma owes_keeps ks es a b : keeps a b -> owes ks es a -> owes ks es b.
Proof.
  intros [] []. split.
  - intros k Hk. destruct (ow_slots0 k) as [H|[H|H]]; auto.
  - intros e He. destruct (ow_ends0 e) as [H|[H|H]]; auto.
Qed.

(** The opening of slot [k], held outside the tables, is back in them or answered. *)
Record returns (k : Z) (a b : state) : Prop := {
  re_keeps : keeps a b;
  re_back : k ∈ opening_slots b \/ k ∈ proof_slots b \/ ~ waits b k;
}.
Lemma returns_then k a b c : returns k a b -> keeps b c -> returns k a c.
Proof.
  intros [Hk Hb] Hc. split; [by eapply keeps_trans|]. destruct Hc. destruct Hb as [H|[H|H]]; naive_solver.
Qed.
Lemma returns_after k a b c : keeps a b -> returns k b c -> returns k a c.
Proof. intros Ha [Hk Hb]. split; [by eapply keeps_trans|done]. Qed.

(** ** Answers *)

Lemma fill_answers k v a : ~ waits (fill k v a).2 k.
Proof.
  unfold fill. destruct (slots a !! k) as [s|] eqn:Es; [|intros (s & Hs & _); cbn in Hs; by rewrite Es in Hs].
  unfold Slot.fill. destruct (_ || _) eqn:Eo.
  - intros (s' & Hs & Hv & Ha). cbn in Hs. rewrite Es in Hs. injection Hs as <-. by rewrite Hv, Ha in Eo.
  - intros (s' & Hs & Hv & _). cbn in Hs. rewrite lookup_insert_eq in Hs. by injection Hs as <-.
Qed.
Lemma keeps_fill k v a : keeps a (fill k v a).2.
Proof.
  unfold fill. destruct (slots a !! k) as [s|] eqn:Es; [|apply owed_refl]. unfold Slot.fill.
  destruct (_ || _) eqn:Eo; [apply owed_refl|]. split; try done. intros j (s' & Hs & Hj). cbn in Hs.
  apply lookup_insert_Some in Hs as [[<- <-]|[_ Hs]]; [by destruct Hj|]. by exists s'.
Qed.
Lemma keeps_fail_slot k f a : keeps a (fail_slot k f a).
Proof. apply keeps_fill. Qed.
Lemma fill_returns k v a : returns k a (fill k v a).2.
Proof. split; [apply keeps_fill|]. right. right. apply fill_answers. Qed.
Lemma fail_returns k f a : returns k a (fail_slot k f a).
Proof. apply fill_returns. Qed.

Lemma keeps_set_end e v a : keeps a (set_end e v a).
Proof.
  unfold set_end. destruct (ends a !! e) as [c|] eqn:Ec; [|apply owed_refl]. unfold Cell.set.
  destruct (is_some _) eqn:Ev; split; try done; intros k (c' & Hc & Hv); cbn in Hc;
    (apply lookup_insert_Some in Hc as [[<- <-]|[_ Hc]]; [|by exists c']); [by exists c|done].
Qed.
Lemma set_end_answers e v a : ~ due (set_end e v a) e.
Proof.
  unfold set_end. destruct (ends a !! e) as [c|] eqn:Ec; [|intros (c & Hc & _); by rewrite Ec in Hc]. unfold Cell.set.
  destruct (is_some _) eqn:Ev; intros (c' & Hc & Hv); cbn in Hc; rewrite lookup_insert_eq in Hc; injection Hc as <-; [|done].
  by rewrite Hv in Ev.
Qed.

(** ** The functions that only add *)

Lemma keeps_env e (a : state) : keeps a (a <| env := e |>).
Proof. by apply owed_same. Qed.
Lemma keeps_pool q (a : state) : keeps a (a <| pool := q |>).
Proof. by apply owed_same. Qed.
Lemma keeps_ask_env {R} (f : E -> R * E) a : keeps a (ask_env f a).2.
Proof. unfold ask_env. destruct (f _). apply keeps_env. Qed.
Lemma keeps_with_adapter f a : keeps a (with_adapter f a).
Proof. unfold with_adapter. destruct (adapter a); [apply keeps_env|apply owed_refl]. Qed.
Lemma keeps_note record ticket a : keeps a (note_cleanup record ticket a).
Proof. by apply owed_same. Qed.
Lemma keeps_closing_ticket c a : keeps a (closing_ticket c a).2.
Proof.
  unfold closing_ticket. destruct (negb _); [apply owed_refl|]. destruct (connections a !! c) as [x|]; [|apply owed_refl].
  destruct (Setup.closing x); [apply owed_refl|]. by apply owed_same.
Qed.
Lemma keeps_release lease d a : keeps a (release_lease lease d a).
Proof. apply keeps_pool. Qed.
Lemma keeps_release_unused lease a : keeps a (release_lease_unused lease a).
Proof. apply keeps_pool. Qed.

(** A report states the receipt or files it. *)
Lemma keeps_report c d e record effect a : keeps a (report c d e record effect a).
Proof.
  unfold report. pose proof (keeps_closing_ticket c a) as H. destruct (closing_ticket c a) as [[ticket|] b]; cbn in H.
  - set (x := note_cleanup record ticket b). pose proof (keeps_ask_env clock_now x) as Hn.
    destruct (ask_env clock_now x) as [now y]; cbn in Hn. eapply keeps_trans; [exact H|].
    eapply keeps_trans; [apply (keeps_note record ticket)|]. eapply keeps_trans; [exact Hn|].
    split; try done. intros k Hk. unfold ending_ends. cbn. rewrite map_app. apply elem_of_app. by left.
  - eapply keeps_trans; [exact H|apply keeps_set_end].
Qed.
Lemma report_files c d e record effect a : let b := report c d e record effect a in e ∈ ending_ends b \/ ~ due b e.
Proof.
  cbn. unfold report. destruct (closing_ticket c a) as [[ticket|] b]; [left|right; apply set_end_answers].
  destruct (ask_env clock_now _) as [now y]. unfold ending_ends. cbn. rewrite map_app. apply elem_of_app. right. by left.
Qed.

(** ** Receipts *)

Lemma resolve_each_spec now all l a :
  let r := resolve_each now all l a in
  keeps a r.2 /\ ending r.2 = ending a /\ settling r.2 = settling a
  /\ (forall i, i ∈ l -> i ∈ r.1 \/ ~ due r.2 i.(Ending.end_)) /\ (all = true -> r.1 = []).
Proof.
  revert a. induction l as [|i l IH]; intros a; cbn [resolve_each].
  { split_and!; [apply owed_refl|done|done|by intros i ?%elem_of_nil|done]. }
  destruct (negb (_ || _ || _)) eqn:Ew.
  - specialize (IH a) as (H1 & H2 & H3 & H4 & H5). destruct (resolve_each now all l a) as [kept b]; cbn in *. split_and!; try done.
    + intros j [->|Hj]%elem_of_cons; [left; left|]. destruct (H4 j Hj); [left; by right|by right].
    + intros ->. by rewrite orb_true_r in Ew.
  - set (b := set_end _ _ a). specialize (IH b) as (H1 & H2 & H3 & H4 & H5). pose proof (keeps_set_end (Ending.end_ i)
      (ExchangeEnd.mk (Ending.disposition i) (if negb (unconfirmed a (Ending.ticket i)) then CleanupStatus.Complete
         else CleanupStatus.Pending (Ending.ticket i)) None (Ending.effect i)) a : keeps a b) as Hb.
    assert (E1 : ending b = ending a) by (subst b; unfold set_end; destruct (ends a !! _); [by destruct (Cell.set _ _)|done]).
    assert (E2 : settling b = settling a) by (subst b; unfold set_end; destruct (ends a !! _); [by destruct (Cell.set _ _)|done]).
    split_and!; try done; [by eapply keeps_trans|congruence|congruence|].
    intros j [->|Hj]%elem_of_cons; [right|by apply H4]. intros Hd%(ke_due _ _ H1). by apply set_end_answers in Hd.
Qed.

Lemma owes_resolve ks es all a : owes ks es a -> owes ks es (resolve_ending all a).
Proof.
  intros Ha. unfold resolve_ending. pose proof (keeps_ask_env clock_now a) as Hn. destruct (ask_env clock_now a) as [now b]; cbn in Hn.
  pose proof (owes_keeps _ _ _ _ Hn Ha) as Hb. pose proof (resolve_each_spec now all (ending b) b) as (H1 & H2 & H3 & H4 & _).
  destruct (resolve_each now all (ending b) b) as [kept c]; cbn in *. pose proof (owes_keeps _ _ _ _ H1 Hb) as [Hs He]. split.
  - exact Hs.
  - intros e Hd. destruct (He e Hd) as [H|[H|H]]; [by left| |by right; right]. right. unfold ending_ends in *. cbn. rewrite H2 in H.
    apply list_elem_of_fmap in H as (i & -> & Hi). destruct (H4 i Hi) as [Hk|Hk]; [left; by apply list_elem_of_fmap_2|done].
Qed.
Lemma resolve_all_ends a : ending (resolve_ending true a) = [].
Proof.
  unfold resolve_ending. destruct (ask_env clock_now a) as [now b].
  pose proof (resolve_each_spec now true (ending b) b) as (_ & _ & _ & _ & H). by destruct (resolve_each now true (ending b) b); apply H.
Qed.

Lemma report_tables c d e record effect a : let b := report c d e record effect a in
  settling b = settling a /\ openings b = openings a /\ authorizing b = authorizing a.
Proof.
  assert (Hs : forall (s : state) v, settling (set_end e v s) = settling s /\ openings (set_end e v s) = openings s
    /\ authorizing (set_end e v s) = authorizing s).
  { intros s v. unfold set_end. destruct (ends s !! e); [by destruct (Cell.set _ _)|done]. }
  cbn. unfold report. destruct (closing_ticket c a) as [ticket b] eqn:Ht.
  assert (Hb : settling b = settling a /\ openings b = openings a /\ authorizing b = authorizing a).
  { unfold closing_ticket in Ht. destruct (negb _); [by simplify_eq|]. destruct (connections a !! c) as [x|]; [|by simplify_eq].
    destruct (Setup.closing x); by simplify_eq. }
  destruct ticket as [ticket|].
  - unfold ask_env. by destruct (clock_now _).
  - by rewrite !(proj1 (Hs _ _)), !(proj1 (proj2 (Hs _ _))), !(proj2 (proj2 (Hs _ _))).
Qed.

Lemma settle_each_spec l a :
  let r := settle_each l a in
  keeps a r.2 /\ settling r.2 = settling a /\ openings r.2 = openings a /\ authorizing r.2 = authorizing a
  /\ (forall i, i ∈ l -> i ∈ r.1.1 \/ i.(Settling.end_) ∈ ending_ends r.2 \/ ~ due r.2 i.(Settling.end_)) /\ (l = [] -> r.1.1 = []).
Proof.
  revert a. induction l as [|i l IH]; intros a; cbn [settle_each].
  { split_and!; [apply owed_refl|done|done|done|by intros i ?%elem_of_nil|done]. }
  pose proof (keeps_ask_env (poll_finish (Settling.io i)) a) as Hf.
  assert (Ht : let b := (ask_env (poll_finish (Settling.io i)) a).2 in
    settling b = settling a /\ openings b = openings a /\ authorizing b = authorizing a) by (unfold ask_env; by destruct (poll_finish _ _)).
  destruct (ask_env _ a) as [[d|] b]; cbn in Hf, Ht; destruct Ht as (T1 & T2 & T3).
  - set (b1 := release_lease (Settling.lease i) d b).
    set (c := report _ _ _ _ _ b1). specialize (IH c) as (H1 & H2 & H3 & H4 & H5 & _).
    assert (Hc : keeps b1 c) by apply keeps_report. pose proof (report_tables (LeaseId.connection (Settling.lease i)) d (Settling.end_ i)
      (Settling.cleanups i) (effect_of (Settling.io i) (env b)) b1) as (R1 & R2 & R3). fold c in R1, R2, R3.
    pose proof (report_files (LeaseId.connection (Settling.lease i)) d (Settling.end_ i)
      (Settling.cleanups i) (effect_of (Settling.io i) (env b)) b1 : _ \/ ~ due c _) as Hr.
    destruct (settle_each l c) as [[kept p] f]; cbn in *. split_and!; try congruence.
    + eapply keeps_trans; [exact Hf|]. eapply keeps_trans; [apply keeps_release|]. by eapply keeps_trans.
    + intros j [->|Hj]%elem_of_cons; [right|by apply H5]. destruct H1. destruct Hr as [Hr|Hr]; [left|right]; auto.
  - specialize (IH b) as (H1 & H2 & H3 & H4 & H5 & _). destruct (settle_each l b) as [[kept p] f]; cbn in *. split_and!; try congruence.
    + by eapply keeps_trans.
    + intros j [->|Hj]%elem_of_cons; [left; left|]. destruct (H5 j Hj) as [H|H]; [left; by right|by right].
Qed.

Lemma owes_settle ks es a : owes ks es a -> owes ks es (settle a).2.
Proof.
  intros Ha. unfold settle. pose proof (settle_each_spec (settling a) a) as (H1 & H2 & _ & _ & H3 & _).
  destruct (settle_each (settling a) a) as [[kept p] b]; cbn in *. pose proof (owes_keeps _ _ _ _ H1 Ha) as [Hs He]. split; [exact Hs|].
  intros e Hd. destruct (He e Hd) as [H|[H|H]]; [|by right; left|by right; right]. unfold settling_ends in H. rewrite H2 in H.
  apply list_elem_of_fmap in H as (i & -> & Hi). destruct (H3 i Hi) as [Hk|[Hk|Hk]]; [left|by right; left|done].
  unfold settling_ends. cbn. by apply list_elem_of_fmap_2.
Qed.

(** ** Openings outside the tables *)

Lemma returns_ask k asked p a : p.(IPending.slot) = k -> returns k a (ask asked p a).
Proof.
  intros <-.
  unfold ask. destruct (PoolMachine.request_until _ _ _) as [r q]. eapply returns_after; [apply (keeps_pool q)|].
  destruct r as [request|error]; [|apply fail_returns]. split.
  - split; try done. intros k Hk. unfold opening_slots in *. cbn. rewrite map_app. apply elem_of_app. by left.
  - left. unfold opening_slots. cbn. rewrite map_app. apply elem_of_app. right. by left.
Qed.
Lemma returns_unless p a f : (forall s, returns p.(IPending.slot) s (f s)) ->
  returns p.(IPending.slot) a (let '(refused, s) := refused_for_cancelled p a in if refused then s else f s).
Proof. intros Hf. unfold refused_for_cancelled. destruct (is_cancelled _ _); [apply fail_returns|apply Hf]. Qed.
Lemma returns_ask_again k p bounced a : p.(IPending.slot) = k -> returns k a (ask_again p bounced a).
Proof.
  intros <-. unfold ask_again. apply returns_unless. intros s. destruct bounced as [c|]; [destruct (contains _ _)|]; by apply returns_ask.
Qed.
Lemma returns_ask_fresh p a : returns p.(IPending.slot) a (ask_fresh p a).
Proof. unfold ask_fresh. apply returns_unless. intros s. by apply returns_ask. Qed.
Lemma returns_lost p a : returns p.(IPending.slot) a (lost_lease p a).
Proof. unfold lost_lease. destruct (_ <? _); [apply fail_returns|by apply returns_ask_again]. Qed.

Lemma returns_serve p lease a : returns p.(IPending.slot) a (serve p lease a).
Proof.
  unfold serve. assert (Hk : keeps a (mark_served (LeaseId.connection lease) a).2).
  { unfold mark_served. destruct (connections a !! _); [by apply owed_same|apply owed_refl]. }
  destruct (mark_served _ a) as [reused b]; cbn in Hk. eapply returns_after; [exact Hk|].
  destruct (adapter b); [|eapply returns_after; [apply keeps_release|apply fail_returns]].
  pose proof (keeps_ask_env (start_exchange (LeaseId.connection lease) (IPending.spec p) (IPending.auth p)) b) as He.
  destruct (ask_env _ b) as [[io|error] c]; cbn in He; (eapply returns_after; [exact He|]).
  - set (d := set_lessee _ _ c). eapply returns_after; [by apply (owed_same c d)|].
    pose proof (fill_returns (IPending.slot p) (Ok (io, lease, reused)) d) as Hf.
    destruct (fill _ _ d) as [[[[[io' lease'] re]|f]|] g]; cbn in Hf; try exact Hf.
    eapply returns_then; [exact Hf|]. eapply keeps_trans; [apply (keeps_env (abort_io io' (env g)))|apply keeps_release].
  - eapply returns_after; [apply keeps_release|]. destruct (_ && _); [apply returns_lost|apply fail_returns].
Qed.

Lemma returns_prove now p lease a : returns p.(IPending.slot) a (prove now p lease a).
Proof.
  unfold prove. set (proof := wrapping_add_u64 _ _). set (b := a <| next_proof := proof |>).
  eapply returns_after; [by apply (owed_same a b)|].
  assert (Hel : forall s, returns (IPending.slot p) s (ask_again p (Some (LeaseId.connection lease)) (release_lease_unused lease s))).
  { intros s. eapply returns_after; [apply keeps_release_unused|by apply returns_ask_again]. }
  destruct (adapter b); [|apply Hel].
  match goal with |- context [ask_env ?f b] => pose proof (keeps_ask_env f b) as He; destruct (ask_env f b) as [[] c] end;
    cbn in He; (eapply returns_after; [exact He|]); [|apply Hel]. split.
  - split; try done. intros k Hk. unfold proof_slots in *. cbn. rewrite map_app. apply elem_of_app. by left.
  - right. left. unfold proof_slots. cbn. rewrite map_app. apply elem_of_app. right. by left.
Qed.

(** ** Turns *)

Lemma owes_opening ks es index p b c : openings b !! index = Some p -> returns p.(IPending.slot) (remove_opening index b) c ->
  owes ks es b -> owes ks es c.
Proof.
  intros Hp [Hk Hb] [Hs He]. split.
  - intros k Hw. pose proof (ke_waits _ _ Hk k Hw) as Hw'. destruct (Hs k Hw') as [H|[H|H]]; [|right; left; by apply Hk|by right; right].
    unfold opening_slots in H. rewrite (delete_Permutation _ _ _ Hp) in H. cbn in H. apply elem_of_cons in H as [->|H].
    + destruct Hb as [H|[H|H]]; [by left|by right; left|done].
    + left. by apply Hk.
  - intros e Hd. pose proof (ke_due _ _ Hk e Hd) as Hd'. destruct (He e Hd') as [H|[H|H]]; [left|right; left|by right; right]; by apply Hk.
Qed.

Lemma owes_misfit ks es index p lease b : openings b !! index = Some p -> owes ks es b -> owes ks es (misfit index p lease b).2.
Proof.
  intros Hp Hb. unfold misfit. set (c := release_lease _ _ _). assert (Hc : keeps b c) by (by apply owed_same).
  pose proof (owes_keeps _ _ _ _ Hc Hb) as Ho. assert (Hgo : forall q f,
    owes ks es (fail_slot (IPending.slot p) f (remove_opening index (c <| pool := q |>)))).
  { intros q f. apply (owes_opening ks es index p (c <| pool := q |>)); [done|apply fail_returns|]. by eapply owes_keeps; [apply keeps_pool|]. }
  destruct (_ <? _); [apply (Hgo (pool c))|]. destruct (PoolMachine.request_until _ _ _) as [[request|error] q]; cbn; [|apply Hgo].
  destruct Ho as [Hs He]. split; [|exact He]. intros k Hw. destruct (Hs k Hw) as [H|H]; [left|by right].
  unfold opening_slots in *. cbn. apply list_elem_of_fmap in H as (x & -> & [j Hj]%list_elem_of_lookup_1).
  change (openings c) with (openings b) in *. destruct (decide (index = j)) as [<-|Hne].
  - rewrite Hp in Hj. injection Hj as <-. apply list_elem_of_fmap.
    eexists; split; [|eapply list_elem_of_lookup_2, list_lookup_insert_eq, lookup_lt_Some, Hp]. done.
  - apply list_elem_of_fmap. exists x. split; [done|]. apply (list_elem_of_lookup_2 _ j). by rewrite list_lookup_insert_ne.
Qed.

Lemma owes_opening_turn ks es now index p a : openings a !! index = Some p -> owes ks es a ->
  owes ks es (opening_turn now index p a).2.
Proof.
  intros Hp Ha. unfold opening_turn. destruct (PoolMachine.take _ _) as [r q]. set (b := a <| pool := q |>).
  assert (Hb : owes ks es b) by (eapply owes_keeps; [apply keeps_pool|done]). assert (Hpb : openings b !! index = Some p) by done.
  destruct r as [lease|error].
  - destruct (connections b !! _) as [x|].
    + destruct (negb _).
      * pose proof (owes_misfit ks es index p lease b Hpb Hb) as H. by destruct (misfit index p lease b) as [[] d].
      * destruct (is_some_and _ _); cbn [snd]; (eapply owes_opening; [exact Hpb| |exact Hb]); [apply returns_prove|apply returns_serve].
    + cbn [snd]. apply (owes_opening ks es index p (release_lease lease Disposition.Discarded b)); [done|apply returns_lost|].
      by eapply owes_keeps; [apply keeps_release|].
  - destruct error; try exact Hb; cbn [snd]; (eapply owes_opening; [exact Hpb|apply fail_returns|exact Hb]).
Qed.

Lemma owes_openings ks es fuel now index progressed a : owes ks es a -> owes ks es (openings_loop fuel now index progressed a).2.
Proof.
  revert index progressed a. induction fuel as [|fuel IH]; intros index progressed a Ha; cbn; [done|].
  destruct (openings a !! index) as [p|] eqn:Hp; [|done]. pose proof (owes_opening_turn ks es now index p a Hp Ha) as H.
  destruct (opening_turn now index p a) as [[index' moved] b]. by apply IH.
Qed.

(** Ending some of the openings that wait for proofs. *)
Lemma end_where_spec f end_one l a :
  (forall i s, keeps s (end_one i s) /\ authorizing (end_one i s) = authorizing s) ->
  (forall i s, f i = true -> keeps a s -> ~ waits (end_one i s) i.(Authorizing.pending).(IPending.slot)) ->
  let r := end_where f end_one l a in
  keeps a r.2 /\ authorizing r.2 = authorizing a
  /\ forall i, i ∈ l -> i ∈ r.1.1 \/ ~ waits r.2 i.(Authorizing.pending).(IPending.slot).
Proof.
  intros Hk. revert a. induction l as [|i l IH]; intros a Hw; cbn.
  { split_and!; [apply owed_refl|done|by intros i ?%elem_of_nil]. }
  destruct (f i) eqn:Hf.
  - pose proof (Hk i a) as [K1 K2]. pose proof (Hw i a Hf (owed_refl a)) as K3.
    specialize (IH (end_one i a) ltac:(intros j s Hj Hs; apply Hw; [done|by eapply keeps_trans])) as (H1 & H2 & H3).
    destruct (end_where f end_one l _) as [[kept p] b]; cbn in *. split_and!; [by eapply keeps_trans|congruence|].
    intros j [->|Hj]%elem_of_cons; [right|by apply H3]. intros H. by apply K3, (ke_waits _ _ H1).
  - specialize (IH a Hw) as (H1 & H2 & H3). destruct (end_where f end_one l a) as [[kept p] b]; cbn in *. split_and!; try done.
    intros j [->|Hj]%elem_of_cons; [left; left|]. destruct (H3 j Hj) as [H|H]; [left; by right|by right].
Qed.

Lemma owes_end_where ks es f end_one a :
  (forall i s, keeps s (end_one i s) /\ authorizing (end_one i s) = authorizing s) ->
  (forall i s, f i = true -> keeps a s -> ~ waits (end_one i s) i.(Authorizing.pending).(IPending.slot)) ->
  owes ks es a -> owes ks es (end_authorizing_where f end_one a).2.
Proof.
  intros Hk Hw Ha. unfold end_authorizing_where. pose proof (end_where_spec f end_one (authorizing a) a Hk Hw) as (H1 & H2 & H3).
  destruct (end_where _ _ _ _) as [[kept p] b]; cbn in *. pose proof (owes_keeps _ _ _ _ H1 Ha) as [Hs He]. split; [|exact He].
  intros k Hd. destruct (Hs k Hd) as [H|[H|H]]; [by left| |by right; right]. unfold proof_slots in H. rewrite H2 in H.
  apply list_elem_of_fmap in H as (i & -> & Hi). destruct (H3 i Hi) as [Hi'|Hi']; [right; left|done].
  unfold proof_slots. cbn. apply list_elem_of_fmap. by exists i.
Qed.

Lemma end_authorizing_ends i failure a : let b := end_authorizing i failure a in
  keeps a b /\ authorizing b = authorizing a /\ ~ waits b i.(Authorizing.pending).(IPending.slot).
Proof.
  cbn. unfold end_authorizing. set (b := release_lease_unused _ _). assert (Hb : keeps a b).
  { eapply keeps_trans; [apply keeps_with_adapter|apply keeps_release_unused]. }
  split_and!; [eapply keeps_trans; [exact Hb|apply keeps_fail_slot]| |apply fill_answers].
  assert (authorizing b = authorizing a) as <- by (subst b; unfold with_adapter; by destruct (adapter a)).
  unfold fail_slot, fill. destruct (slots b !! _) as [s|]; [|done]. by destruct (Slot.fill _ s) as [[w|w] s'].
Qed.
Lemma owes_expire ks es now a : owes ks es a -> owes ks es (expire_authorizing now a).2.
Proof. apply owes_end_where; [intros i s; by destruct (end_authorizing_ends i (OpenFailure.Pool PoolError.AllocationTimeout) s) as (? & ? & _)|].
  intros i s _ _. apply end_authorizing_ends. Qed.
Lemma owes_cancel_authorizing ks es binding a : owes ks es a -> owes ks es (cancel_authorizing binding a).
Proof. apply owes_end_where; [intros i s; by destruct (end_authorizing_ends i OpenFailure.Cancelled s) as (? & ? & _)|].
  intros i s _ _. apply end_authorizing_ends. Qed.

Lemma take_where_rest {A} (f : A -> bool) l x rest : take_where f l = Some (x, rest) -> forall y, y ∈ l -> y = x \/ y ∈ rest.
Proof.
  revert rest. induction l as [|z l IH]; intros rest; cbn; [done|]. destruct (f z).
  - intros [= -> ->] y [->|Hy]%elem_of_cons; auto.
  - destruct (take_where f l) as [[w r]|]; [|done]. cbn. intros [= -> <-] y [->|Hy]%elem_of_cons; [right; left|].
    destruct (IH r eq_refl y Hy); [by left|right; by right].
Qed.

Lemma owes_reused ks es c proof verdict a : owes ks es a -> owes ks es (reused c proof verdict a).
Proof.
  intros [Hs He]. unfold reused. destruct (take_where _ _) as [[i rest]|] eqn:Ht; [|by split].
  pose proof (take_where_rest _ _ _ _ Ht) as Hr. set (b := a <| authorizing := rest |>). set (p := Authorizing.pending i).
  match goal with |- owes _ _ ?d => assert (Hb : returns p.(IPending.slot) b d) end.
  { destruct verdict; [apply returns_serve| |].
    - eapply returns_after; [apply keeps_release|apply returns_ask_fresh].
    - eapply returns_after; [apply keeps_release_unused|by apply returns_ask_again]. }
  match goal with |- owes _ _ ?d => set (d' := d) in * end. clearbody d'. destruct Hb as [Hk Hb]. split.
  - intros k Hw. pose proof (ke_waits _ _ Hk k Hw) as Hw'. destruct (Hs k Hw') as [H|[H|H]]; [left; by apply Hk| |by right; right].
    unfold proof_slots in H. apply list_elem_of_fmap in H as (j & -> & Hj). destruct (Hr j Hj) as [->|Hj'].
    + destruct Hb as [H|[H|H]]; [by left|by right; left|done].
    + right. left. apply Hk. unfold proof_slots. apply list_elem_of_fmap. by exists j.
  - intros e Hd. pose proof (ke_due _ _ Hk e Hd) as Hd'. destruct (He e Hd') as [H|[H|H]]; [left|right; left|by right; right]; by apply Hk.
Qed.

(** ** The pump *)

Lemma keeps_act now action a : keeps a (act now action a).
Proof. unfold act. destruct (negb _); [apply owed_refl|]. by destruct action; apply owed_same. Qed.
Lemma keeps_actions_loop fuel now progressed a : keeps a (actions_loop fuel now progressed a).2.
Proof.
  revert progressed a. induction fuel as [|fuel IH]; intros progressed a; cbn; [apply owed_refl|].
  destruct (PoolMachine.next_action _) as [[action|] q]; [|apply keeps_pool].
  eapply keeps_trans; [apply (keeps_pool q)|]. eapply keeps_trans; [apply (keeps_act now action)|apply IH].
Qed.
Lemma keeps_completions fuel ended verdicts progressed a : keeps a (completions source fuel ended verdicts progressed a).2.
Proof.
  revert ended verdicts progressed a. induction fuel as [|fuel IH]; intros ended verdicts progressed a; cbn [completions]; [apply owed_refl|].
  pose proof (keeps_ask_env poll_completion a) as H. destruct (ask_env _ a) as [[completion|] b]; cbn in H; [|exact H].
  assert (Hc : keeps b (complete source completion b).2) by (destruct completion; cbn; try apply keeps_pool; apply owed_refl).
  destruct (complete source completion b) as [[en ve] d]; cbn in Hc. eapply keeps_trans; [exact H|]. eapply keeps_trans; [exact Hc|apply IH].
Qed.
Lemma keeps_forget c a : keeps a (forget_connection a c).
Proof. unfold forget_connection. destruct (and_then _ _); by apply owed_same. Qed.

Lemma owes_foldl {A} ks es (f : state -> A -> state) l a : (forall s x, owes ks es s -> owes ks es (f s x)) -> owes ks es a ->
  owes ks es (foldl f a l).
Proof. intros Hf. revert a. induction l as [|x l IH]; intros a Ha; [done|]. cbn. by apply IH, Hf. Qed.

Lemma owes_round ks es fuel now a : owes ks es a -> owes ks es (round source fuel now a).2.
Proof.
  intros Ha. unfold round. pose proof (keeps_actions_loop (2 * size (PoolMachine.entries (pool a)) + 1) now false a) as H1. unfold actions.
  destruct (actions_loop _ _ _ _) as [p1 b]; cbn in H1. pose proof (owes_keeps _ _ _ _ H1 Ha) as Hb.
  set (x := if adapter b then _ else _). assert (Hx : keeps b x.2).
  { subst x. destruct (adapter b); [|apply owed_refl]. pose proof (keeps_completions fuel [] [] false b) as H.
    destruct (completions _ _ _ _ _ _) as [[[ended verdicts] p2] c]; cbn in H |- *. eapply keeps_trans; [exact H|].
    apply keeps_foldl. intros s c'. apply keeps_forget. }
  destruct x as [[verdicts p2] c]; cbn in Hx. pose proof (owes_keeps _ _ _ _ Hx Hb) as Hc.
  pose proof (keeps_ask_env clock_now c) as H2. destruct (ask_env clock_now c) as [t1 d]; cbn in H2.
  pose proof (owes_expire ks es t1 d (owes_keeps _ _ _ _ H2 Hc)) as He. destruct (expire_authorizing t1 d) as [p3 e]; cbn in He.
  set (f := foldl _ e verdicts). assert (Hf : owes ks es f) by (apply owes_foldl; [intros s v; apply owes_reused|done]).
  pose proof (keeps_ask_env clock_now f) as H3. destruct (ask_env clock_now f) as [t2 g]; cbn in H3.
  pose proof (owes_openings ks es fuel t2 0 false g (owes_keeps _ _ _ _ H3 Hf)) as Hg. destruct (openings_loop _ _ _ _ _) as [p4 h]; cbn in Hg.
  pose proof (owes_settle ks es h Hg) as Hh. by destruct (settle h).
Qed.
Lemma owes_rounds ks es fuel budget now a : owes ks es a -> owes ks es (rounds source fuel budget now a).
Proof.
  revert a. induction budget as [|budget IH]; intros a Ha; cbn; [done|].
  pose proof (owes_round ks es fuel now a Ha) as H. destruct (round source fuel now a) as [[] b]; cbn in H; [by apply IH|done].
Qed.
Lemma keeps_observe a : keeps a (observe_epoch a).
Proof.
  unfold observe_epoch. pose proof (keeps_ask_env clock_epoch a) as H. destruct (ask_env _ a) as [t b]; cbn in H.
  destruct (_ =? _); [exact H|]. eapply keeps_trans; [exact H|]. by apply owed_same.
Qed.
Lemma owes_pump ks es fuel a : owes ks es a -> owes ks es (pump source fuel a).
Proof.
  intros Ha. unfold pump. pose proof (keeps_observe a) as H1. set (b := observe_epoch a) in *.
  pose proof (keeps_ask_env clock_now b) as H2. destruct (ask_env clock_now b) as [t c]; cbn in H2.
  set (d := on_pool _ c). assert (Hd : owes ks es d).
  { eapply owes_keeps; [|exact Ha]. eapply keeps_trans; [exact H1|]. eapply keeps_trans; [exact H2|apply keeps_pool]. }
  eapply owes_keeps; [|by apply (owes_resolve ks es false), (owes_rounds ks es fuel fuel t)]. by apply owed_same.
Qed.
Lemma owes_pumped ks es fuel a : owes ks es a -> owes ks es (pumped (pump source fuel a)).
Proof. intros Ha. eapply owes_keeps; [|by apply (owes_pump _ _ fuel)]. by apply owed_same. Qed.

(** ** Calls *)

Lemma owes_submit ks es fuel slot request binding spec auth a : owes ks es a ->
  owes ks es (submit source fuel slot request binding spec auth a).2.
Proof.
  intros Ha. unfold submit. pose proof (keeps_ask_env clock_now a) as H1. destruct (ask_env clock_now a) as [t b]; cbn in H1.
  set (c := on_pool _ (observe_epoch b)). assert (Hc : keeps a c).
  { eapply keeps_trans; [exact H1|]. eapply keeps_trans; [apply keeps_observe|apply keeps_pool]. }
  assert (Hi : keeps c (pool_identity (PoolRequest.key request) (PoolRequest.identity request) auth c).2).
  { unfold pool_identity. destruct (_ || _); [apply owed_refl|]. destruct (List.find _ _) as [[]|]; [apply owed_refl|by apply owed_same]. }
  destruct (pool_identity _ _ _ c) as [identity d]; cbn in Hi. pose proof (owes_keeps _ _ _ _ (keeps_trans _ _ _ Hc Hi) Ha) as Hd.
  destruct (PoolMachine.request _ _) as [[id|error] q]; cbn [snd]; [|by eapply owes_keeps; [apply keeps_pool|]].
  apply owes_pumped. destruct Hd as [Hs He]. split; [|exact He]. intros k (s & Hk & Hv). unfold opening_slots. cbn in Hk |- *.
  rewrite map_app, elem_of_app. apply lookup_insert_Some in Hk as [[<- _]|[_ Hk]]; [left; right; by left|].
  destruct (Hs k) as [H|H]; [by exists s|left; by left|by right].
Qed.

(** A new receipt. *)
Lemma owes_new_end ks es e a : owes ks es a -> owes ks (e :: es) (a <| ends := <[e := Cell.new]> a.(ends) |>).
Proof.
  intros [Hs He]. split; [exact Hs|]. intros k (c & Hc & Hv). cbn in Hc.
  apply lookup_insert_Some in Hc as [[<- _]|[_ Hc]]; [right; right; left|]. destruct (He k) as [H|[H|H]]; [by exists c|..]; auto.
  right. right. by right.
Qed.
Lemma owes_filed ks es e a : owes ks (e :: es) a -> e ∈ settling_ends a \/ e ∈ ending_ends a \/ ~ due a e -> owes ks es a.
Proof.
  intros [Hs He] Hf. split; [exact Hs|]. intros k Hk. destruct (He k Hk) as [H|[H|[->|H]%elem_of_cons]]; auto.
  destruct Hf as [H|[H|H]]; [by left|by right; left|done].
Qed.
Lemma owes_settle_exchange ks es fuel io lease e record a : owes ks es a ->
  owes ks es (settle_exchange source fuel io lease e record a).
Proof.
  intros Ha. apply owes_pumped. set (b := a <| ends := _ |>). set (c := b <| settling := _ |>).
  assert (Hin : forall k, k ∈ settling_ends c <-> k ∈ settling_ends a \/ k = e).
  { intros k. unfold settling_ends. cbn. rewrite map_app, elem_of_app. cbn. by rewrite list_elem_of_singleton. }
  apply (owes_filed ks es e).
  - pose proof (owes_new_end ks es e a Ha) as Hb. eapply owes_keeps; [|exact Hb]. split; try done. intros k Hk. apply Hin. by left.
  - left. apply Hin. by right.
Qed.
Lemma owes_discard ks es fuel lease e record effect a : owes ks es a -> owes ks es (discard source fuel lease e record effect a).
Proof.
  intros Ha. apply owes_pumped. pose proof (owes_new_end ks es e a Ha) as Hb. set (b := a <| ends := _ |>) in *.
  apply (owes_filed ks es e).
  - eapply owes_keeps; [|exact Hb]. eapply keeps_trans; [apply keeps_release|apply keeps_report].
  - right. apply report_files.
Qed.

Lemma owes_abandon ks es fuel slot a : owes ks es a -> owes ks es (abandon source fuel slot a).
Proof.
  intros Ha. unfold abandon. set (x := match slots a !! slot with Some s => _ | None => _ end).
  assert (H1 : keeps a x.2 /\ ~ waits x.2 slot).
  { subst x. destruct (slots a !! slot) as [s|] eqn:Es; cbn.
    - split; [|intros (s' & Hs & _ & Hb); cbn in Hs; rewrite lookup_insert_eq in Hs; by injection Hs as <-].
      split; try done. intros k (s' & Hs & Hv & Hb). cbn in Hs. apply lookup_insert_Some in Hs as [[_ <-]|[_ Hs]]; [done|]. by exists s'.
    - split; [apply owed_refl|]. intros (s & Hs & _). cbn in Hs. by pose proof (eq_trans (eq_sym Hs) Es). }
  destruct x as [handed b]; cbn in H1. destruct H1 as [H1 Hn].
  set (c := match take_where _ _ with Some _ => _ | None => _ end). assert (H2 : owes ks es c /\ ~ waits c slot).
  { pose proof (owes_keeps _ _ _ _ H1 Ha) as [Hs He]. subst c. destruct (take_where _ _) as [[p rest]|] eqn:Ht; [|by split].
    pose proof (take_where_rest _ _ _ _ Ht) as Hr. apply take_where_spec in Ht as (_ & Hp%Z.eqb_eq & _). split; [|exact Hn]. split; [|exact He].
    intros k Hk. destruct (Hs k Hk) as [H|H]; [|by right]. unfold opening_slots in H. apply list_elem_of_fmap in H as (y & -> & Hy).
    destruct (Hr y Hy) as [->|Hy']; [by rewrite Hp in Hk|]. left. unfold opening_slots. cbn. by apply list_elem_of_fmap_2. }
  destruct H2 as [Hc Hnc].
  match goal with |- context [end_authorizing_where ?f ?g c] =>
    assert (Hd : owes ks es (end_authorizing_where f g c).2); [|destruct (end_authorizing_where f g c) as [p d]; cbn in Hd] end.
  { apply owes_end_where; [| |exact Hc].
    - intros i s. split; [eapply keeps_trans; [apply keeps_with_adapter|apply keeps_release_unused]|].
      unfold with_adapter. by destruct (adapter s).
    - intros i s Hi%Z.eqb_eq Hk. rewrite Hi. intros Hw. apply Hnc, (ke_waits _ _ Hk). by apply (ke_waits _ _ (keeps_with_adapter (cancel_reuse (Authorizing.proof i)) s)). }
  apply owes_pumped. destruct handed as [[[[io lease] re]|f]|]; try exact Hd. eapply owes_keeps; [|exact Hd].
  eapply keeps_trans; [apply keeps_env|apply keeps_release].
Qed.

(** ** Failing what is in flight *)

Definition same_work (a b : state) : Prop :=
  openings b = openings a /\ authorizing b = authorizing a /\ settling b = settling a.
Lemma same_work_refl a : same_work a a.
Proof. done. Qed.
Lemma same_work_trans a b c : same_work a b -> same_work b c -> same_work a c.
Proof. intros (H1 & H2 & H3) (K1 & K2 & K3). split_and!; congruence. Qed.
Lemma same_work_foldl {A} (f : state -> A -> state) l a : (forall s x, same_work s (f s x)) -> same_work a (foldl f a l).
Proof.
  intros Hf. revert a. induction l as [|x l IH]; intros a; [done|]. cbn. eapply same_work_trans; [apply Hf|apply IH].
Qed.
Lemma same_work_ask_env {R} (f : E -> R * E) a : same_work a (ask_env f a).2.
Proof. unfold ask_env. by destruct (f _). Qed.
Lemma same_work_set_end e v a : same_work a (set_end e v a).
Proof. unfold set_end. destruct (ends a !! e); [by destruct (Cell.set _ _)|done]. Qed.
Lemma same_work_fail_slot k f a : same_work a (fail_slot k f a).
Proof. unfold fail_slot, fill. destruct (slots a !! k) as [s|]; [|done]. by destruct (Slot.fill _ s) as [[w|w] s']. Qed.
Lemma same_work_resolve_each now all l a : same_work a (resolve_each now all l a).2.
Proof.
  revert a. induction l as [|i l IH]; intros a; cbn; [done|]. destruct (negb (_ || _ || _)).
  - specialize (IH a). by destruct (resolve_each now all l a).
  - eapply same_work_trans; [|apply IH]. apply same_work_set_end.
Qed.
Lemma same_work_resolve all a : same_work a (resolve_ending all a).
Proof.
  unfold resolve_ending. pose proof (same_work_ask_env clock_now a) as H. destruct (ask_env clock_now a) as [now b]; cbn in H.
  pose proof (same_work_resolve_each now all (ending b) b) as H2. destruct (resolve_each _ _ _ _) as [kept c]; cbn in H2.
  eapply same_work_trans; [exact H|exact H2].
Qed.
Lemma same_work_actions_loop fuel now progressed a : same_work a (actions_loop fuel now progressed a).2.
Proof.
  revert progressed a. induction fuel as [|fuel IH]; intros progressed a; cbn; [done|].
  destruct (PoolMachine.next_action _) as [[action|] q]; [|done].
  eapply same_work_trans; [|apply IH]. unfold act. destruct (negb _); [done|]. by destruct action.
Qed.
Lemma same_work_completions fuel ended verdicts progressed a : same_work a (completions source fuel ended verdicts progressed a).2.
Proof.
  revert ended verdicts progressed a. induction fuel as [|fuel IH]; intros ended verdicts progressed a; cbn [completions]; [done|].
  pose proof (same_work_ask_env poll_completion a) as H. destruct (ask_env _ a) as [[completion|] b]; cbn in H; [|exact H].
  assert (Hc : same_work b (complete source completion b).2) by (by destruct completion).
  destruct (complete source completion b) as [[en ve] d]; cbn in Hc. eapply same_work_trans; [exact H|].
  eapply same_work_trans; [exact Hc|apply IH].
Qed.
Lemma same_work_forget c a : same_work a (forget_connection a c).
Proof. unfold forget_connection. by destruct (and_then _ _). Qed.

(** An instance with no work gets none from a pump. *)
Definition idle (a : state) : Prop := openings a = [] /\ authorizing a = [] /\ settling a = [].
Lemma idle_same a b : same_work a b -> idle a -> idle b.
Proof. intros (H1 & H2 & H3) (I1 & I2 & I3). split_and!; congruence. Qed.

Lemma idle_round fuel now a : idle a -> idle (round source fuel now a).2.
Proof.
  intros Ha. unfold round. pose proof (same_work_actions_loop (2 * size (PoolMachine.entries (pool a)) + 1) now false a) as H1. unfold actions.
  destruct (actions_loop _ _ _ _) as [p1 b]; cbn in H1. pose proof (idle_same _ _ H1 Ha) as Hb.
  set (x := if adapter b then _ else _). assert (Hx : same_work b x.2).
  { subst x. destruct (adapter b); [|done]. pose proof (same_work_completions fuel [] [] false b) as H.
    destruct (completions _ _ _ _ _ _) as [[[ended verdicts] p2] c]; cbn in H |- *. eapply same_work_trans; [exact H|].
    apply same_work_foldl. intros s c'. apply same_work_forget. }
  destruct x as [[verdicts p2] c]; cbn in Hx. pose proof (idle_same _ _ Hx Hb) as Hc.
  pose proof (same_work_ask_env clock_now c) as H2. destruct (ask_env clock_now c) as [t1 d]; cbn in H2.
  pose proof (idle_same _ _ H2 Hc) as (D1 & D2 & D3). unfold expire_authorizing, end_authorizing_where. rewrite D2. cbn [end_where].
  set (e := d <| authorizing := [] |>). assert (He : idle e) by done.
  assert (Hf : idle (foldl (fun self v => reused v.1.1 v.1.2 v.2 self) e verdicts)).
  { clear -He. clearbody e. revert e He. induction verdicts as [|v verdicts IH]; intros e He; [done|]. cbn. apply IH. unfold reused.
    destruct He as (E1 & E2 & E3). by rewrite E2. }
  set (f := foldl _ e verdicts) in *. pose proof (same_work_ask_env clock_now f) as H3.
  destruct (ask_env clock_now f) as [t2 g]; cbn in H3. pose proof (idle_same _ _ H3 Hf) as (G1 & G2 & G3).
  assert (Ho : openings_loop fuel t2 0 false g = (false, g)) by (destruct fuel; cbn; [done|]; by rewrite G1).
  rewrite Ho. unfold settle. rewrite G3. by split_and!.
Qed.
Lemma idle_pump fuel a : idle a -> idle (pump source fuel a).
Proof.
  intros Ha. unfold pump. assert (H1 : same_work a (observe_epoch a)).
  { unfold observe_epoch. pose proof (same_work_ask_env clock_epoch a) as H. destruct (ask_env _ a) as [t b]; cbn in H.
    by destruct (_ =? _). }
  set (b := observe_epoch a) in *. pose proof (same_work_ask_env clock_now b) as H2.
  destruct (ask_env clock_now b) as [t c]; cbn in H2. set (d := on_pool _ c).
  assert (Hd : idle d) by (pose proof (idle_same _ _ H2 (idle_same _ _ H1 Ha)) as H; exact H).
  assert (Hr : forall budget s, idle s -> idle (rounds source fuel budget t s)).
  { intros budget. induction budget as [|budget IH]; intros s Hs; cbn; [done|]. pose proof (idle_round fuel t s Hs) as H.
    destruct (round source fuel t s) as [[] s']; cbn in H; [by apply IH|done]. }
  pose proof (same_work_resolve false (rounds source fuel fuel t d)) as H3. pose proof (idle_same _ _ H3 (Hr fuel d Hd)) as H. exact H.
Qed.

Lemma same_work_closing_ticket c a : same_work a (closing_ticket c a).2 /\ ending (closing_ticket c a).2 = ending a.
Proof.
  unfold closing_ticket. destruct (negb _); [done|]. destruct (connections a !! c) as [x|]; [|done]. by destruct (Setup.closing x).
Qed.
Lemma closing_tickets_spec l a : let r := closing_tickets l a in
  keeps a r.2 /\ same_work a r.2 /\ ending r.2 = ending a /\ map fst r.1 = l.
Proof.
  revert a. induction l as [|i l IH]; intros a; cbn; [split_and!; try done; apply owed_refl|].
  pose proof (keeps_closing_ticket (LeaseId.connection (Settling.lease i)) a) as H1.
  pose proof (same_work_closing_ticket (LeaseId.connection (Settling.lease i)) a) as [H2 H3].
  destruct (closing_ticket _ a) as [t b]; cbn in *. specialize (IH b) as (I1 & I2 & I3 & I4).
  destruct (closing_tickets l b) as [rest c]; cbn in *. split_and!; [by eapply keeps_trans|by eapply same_work_trans|congruence..].
Qed.

(** Answering every one of a list. *)
Lemma fail_slots_answer reason l a : let b := foldl (fun s p => fail_slot p.(IPending.slot) (OpenFailure.Closing reason) s) a l in
  keeps a b /\ forall p, p ∈ l -> ~ waits b p.(IPending.slot).
Proof.
  revert a. induction l as [|p l IH]; intros a; cbn; [split; [apply owed_refl|by intros p ?%elem_of_nil]|].
  specialize (IH (fail_slot (IPending.slot p) (OpenFailure.Closing reason) a)) as [H1 H2].
  split; [eapply keeps_trans; [apply keeps_fail_slot|exact H1]|]. intros q [->|Hq]%elem_of_cons; [|by apply H2].
  intros H%(ke_waits _ _ H1). by apply fill_answers in H.
Qed.
Lemma keeps_fail_settling i a : keeps a (fail_settling i a) /\ ~ due (fail_settling i a) i.1.(Settling.end_).
Proof.
  unfold fail_settling. set (b := on_env _ a). assert (Hb : keeps a b) by apply keeps_env.
  destruct i.2 as [ticket|]; (split; [|apply set_end_answers]); (eapply keeps_trans; [exact Hb|]); [|apply keeps_set_end].
  eapply keeps_trans; [apply keeps_note|apply keeps_set_end].
Qed.
Lemma fail_ends_answer l a : let b := foldl (fun s i => fail_settling i s) a l in
  keeps a b /\ forall i, i ∈ map fst l -> ~ due b i.(Settling.end_).
Proof.
  revert a. induction l as [|p l IH]; intros a; cbn; [split; [apply owed_refl|by intros p ?%elem_of_nil]|].
  specialize (IH (fail_settling p a)) as [H1 H2]. destruct (keeps_fail_settling p a) as [H3 H4].
  split; [by eapply keeps_trans|]. intros q [->|Hq]%elem_of_cons; [|by apply H2]. intros H%(ke_due _ _ H1). done.
Qed.

(** Through the clearing and the pump, what was taken out is still owed from outside. *)
Lemma cleared_owes ks es a : owes ks es a ->
  let waiting := openings a ++ map Authorizing.pending (authorizing a) in
  let b := foldl (fun self item => release_lease item.(Authorizing.lease) Disposition.Discarded
                    (with_adapter (cancel_reuse item.(Authorizing.proof)) self))
             (a <| openings := [] |> <| authorizing := [] |>) (authorizing a) in
  let c := foldl (fun self item => release_lease item.(Settling.lease) Disposition.Discarded self)
             (b <| settling := [] |>) (settling b) in
  settling b = settling a /\ idle c
  /\ owes (map IPending.slot waiting ++ ks) (map Settling.end_ (settling a) ++ es) c.
Proof.
  intros [Hs He] waiting b c. assert (Hb : keeps (a <| openings := [] |> <| authorizing := [] |>) b
    /\ same_work (a <| openings := [] |> <| authorizing := [] |>) b).
  { split; [apply keeps_foldl|apply same_work_foldl]; intros s i; [eapply keeps_trans; [apply keeps_with_adapter|apply keeps_release]|].
    unfold with_adapter. by destruct (adapter s). }
  destruct Hb as [Kb (B1 & B2 & B3)]. cbn in B1, B2, B3. assert (Hc : keeps (b <| settling := [] |>) c /\ same_work (b <| settling := [] |>) c).
  { split; [apply keeps_foldl|apply same_work_foldl]; intros s i; [apply keeps_release|done]. }
  destruct Hc as [Kc (C1 & C2 & C3)]. cbn in C1, C2, C3. split; [done|]. split; [split_and!; congruence|]. split.
  - intros k Hk%(ke_waits _ _ Kc)%(ke_waits _ _ Kb). right. right. apply elem_of_app. subst waiting. rewrite map_app, elem_of_app.
    destruct (Hs k Hk) as [H|[H|H]]; [by left; left|left; right|by right]. rewrite map_map. exact H.
  - intros e Hd%(ke_due _ _ Kc)%(ke_due _ _ Kb). destruct (He e Hd) as [H|[H|H]].
    + right. right. apply elem_of_app. by left.
    + right. left. by apply Kc, Kb.
    + right. right. apply elem_of_app. by right.
Qed.

Lemma failed_answers ks es fuel reason a : owes ks es a ->
  let b := fail_in_flight source fuel reason a in
  idle b /\ (forall k, waits b k -> k ∈ ks) /\ (forall e, due b e -> e ∈ es).
Proof.
  intros Ha. pose proof (cleared_owes ks es a Ha) as (Eb & Ic & Oc). cbn zeta in Eb, Ic, Oc. cbn zeta. unfold fail_in_flight.
  set (b := foldl _ _ (authorizing a)) in *. set (c := foldl _ _ (settling b)) in *.
  pose proof (owes_pump _ _ fuel c Oc) as Od. pose proof (idle_pump fuel c Ic) as Id. set (d := pump source fuel c) in *.
  pose proof (owes_resolve _ _ true d Od) as Oe. pose proof (idle_same _ _ (same_work_resolve true d) Id) as Ie.
  pose proof (resolve_all_ends d) as Ee. set (e := resolve_ending true d) in *. pose proof (closing_tickets_spec (settling b) e) as (F1 & F2 & F3 & F4).
  destruct (closing_tickets (settling b) e) as [finished f]; cbn in F1, F2, F3, F4.
  pose proof (idle_same _ _ F2 Ie) as If. pose proof (owes_keeps _ _ _ _ F1 Oe) as [Sf Ef].
  pose proof (fail_slots_answer reason (openings a ++ map Authorizing.pending (authorizing a)) f) as [G1 G2].
  set (g := foldl _ f _) in *. assert (Wg : same_work f g) by (apply same_work_foldl; intros s p; apply same_work_fail_slot).
  pose proof (fail_ends_answer finished g) as [H1 H2]. set (h := foldl _ g finished) in *.
  assert (Wh : same_work g h).
  { apply same_work_foldl. intros s p. unfold fail_settling. destruct p.2; (eapply same_work_trans; [|apply same_work_set_end]); done. }
  split; [pose proof (idle_same _ _ Wh (idle_same _ _ Wg If)) as H; exact H|]. destruct If as (If1 & If2 & If3). split.
  - intros k Hk. change (waits h k) in Hk. pose proof (ke_waits _ _ H1 k Hk) as Hg. pose proof (ke_waits _ _ G1 k Hg) as Hf.
    destruct (Sf k Hf) as [H|[H|[H|H]%elem_of_app]]; [unfold opening_slots in H; rewrite If1 in H; by apply elem_of_nil in H
      |unfold proof_slots in H; rewrite If2 in H; by apply elem_of_nil in H| |done].
    apply list_elem_of_fmap in H as (p & -> & Hp). by destruct (G2 p Hp).
  - intros x Hx. change (due h x) in Hx. pose proof (ke_due _ _ H1 x Hx) as Hg. pose proof (ke_due _ _ G1 x Hg) as Hf.
    destruct (Ef x Hf) as [H|[H|[H|H]%elem_of_app]]; [unfold settling_ends in H; rewrite If3 in H; by apply elem_of_nil in H
      |unfold ending_ends in H; rewrite F3, Ee in H; by apply elem_of_nil in H| |done].
    apply list_elem_of_fmap in H as (i & -> & Hi). rewrite <- Eb, <- F4 in Hi. by destruct (H2 i Hi).
Qed.
End owed.

(** ** Runs *)

Section runs.
Context {E : Type} `{!Ports E}.
Variable source : Z -> nat -> Z.
Abbreviation state := (InstanceState.t (E * Log)).

Lemma owes_call op (a : state) : owes [] [] a -> owes [] [] (call_step source op a).
Proof.
  intros Ha. assert (Hk : forall b, keeps a b -> owes [] [] b) by (intros b Hb; by eapply owes_keeps).
  destruct op as [fuel []]; cbn [call_step fst snd].
  - by apply owes_submit.
  - by apply owes_settle_exchange.
  - unfold release. set (b := pump _ _ _). assert (Hb : owes [] [] b) by (apply owes_pump, Hk, keeps_release).
    pose proof (keeps_closing_ticket (LeaseId.connection lease) b) as H. destruct (closing_ticket _ b) as [t c]; cbn in H.
    eapply owes_keeps; [|exact Hb]. eapply keeps_trans; [exact H|]. by apply owed_same.
  - by apply owes_discard.
  - by apply owes_abandon.
  - apply owes_pumped. eapply owes_keeps; [apply keeps_pool|]. by apply owes_cancel_authorizing.
  - destruct (failed_answers source [] [] fuel reason a Ha) as (_ & H1 & H2). split; intros k Hk'; [apply H1 in Hk'|apply H2 in Hk']; by apply elem_of_nil in Hk'.
  - apply owes_pump, Hk. by apply owed_same.
  - unfold retire, take_adapter. cbn [snd]. eapply owes_keeps; [|apply (owes_resolve _ _ true), (owes_pump source _ _ fuel), Hk]; by apply owed_same.
  - apply Hk. by apply owed_same.
  - apply Hk. apply keeps_foldl. intros s t. by apply owed_same.
  - unfold drive. eapply owes_keeps; [|by apply (owes_pump source _ _ fuel)]. by apply owed_same.
  - unfold wait. destruct (existsb _ _); [done|]. apply Hk. by apply owed_same.
  - assert (Hw : keeps a (wait waker a)) by (unfold wait; destruct (existsb _ _); [apply owed_refl|by apply owed_same]).
    apply Hk. eapply keeps_trans; [exact Hw|]. set (b := wait waker a). unfold poll_slot.
    destruct (slots b !! slot) as [s|] eqn:Es; [|apply owed_refl]. unfold Slot.poll_take. destruct (Slot.value s) as [v|] eqn:Ev; cbn.
    + split; try done. intros k (s' & Hs & Hv). cbn in Hs. apply lookup_delete_Some in Hs as [_ Hs]. by exists s'.
    + split; try done. intros k (s' & Hs & Hv). cbn in Hs. apply lookup_insert_Some in Hs as [[<- <-]|[_ Hs]]; [by exists s|by exists s'].
  - apply Hk. unfold poll_end. destruct (ends a !! end_) as [c|] eqn:Ec; [|apply owed_refl]. unfold Cell.poll.
    destruct (Cell.value c) as [v|] eqn:Ev; cbn; (split; try done); intros k (c' & Hc & Hv); cbn in Hc;
      (apply lookup_insert_Some in Hc as [[<- <-]|[_ Hc]]; [|by exists c']); [congruence|by exists c].
  - apply Hk, keeps_env.
Qed.

Lemma owes_run next_pool e a n calls : new next_pool (e, []) = (Ok a, n) -> owes [] [] (call_run source calls a).
Proof.
  unfold new. destruct (clock_epoch (e, [])) as [t x]. destruct (PoolMachine.new next_pool ceilings) as [[p|] m]; [|by intros [=]].
  intros [= <- <-]. unfold call_run. match goal with |- owes _ _ (foldl _ ?s _) => assert (Ha : owes [] [] s) end.
  { split; intros k (s & Hs & _); cbn in Hs; by rewrite lookup_empty in Hs. }
  revert Ha. match goal with |- owes _ _ ?s -> _ => generalize s end.
  induction calls as [|c calls IH]; intros a Ha; [done|]. cbn. by apply IH, owes_call.
Qed.

(** C29: In every run, every slot without an answer is the slot of an opening the instance
    still has, and every receipt without a value that of an exchange it settles. *)
Theorem no_caller_forgotten next_pool e a n calls : new next_pool (e, []) = (Ok a, n) ->
  let b := call_run source calls a in
  (forall k, waits b k -> k ∈ opening_slots b \/ k ∈ proof_slots b)
  /\ (forall r, due b r -> r ∈ settling_ends b \/ r ∈ ending_ends b).
Proof.
  intros Ha b. destruct (owes_run next_pool e a n calls Ha) as [Hs He]. split.
  - intros k Hk. destruct (Hs k Hk) as [H|[H|H%elem_of_nil]]; [by left|by right|done].
  - intros r Hr. destruct (He r Hr) as [H|[H|H%elem_of_nil]]; [by left|by right|done].
Qed.

(** C30: Failing what is in flight answers every caller, whatever the adapter does. *)
Theorem failed_all_answered next_pool e a n calls fuel reason : new next_pool (e, []) = (Ok a, n) ->
  let b := fail_in_flight source fuel reason (call_run source calls a) in
  idle b /\ (forall k, ~ waits b k) /\ (forall r, ~ due b r).
Proof.
  intros Ha b. destruct (failed_answers source [] [] fuel reason _ (owes_run next_pool e a n calls Ha)) as (H1 & H2 & H3).
  split_and!; [exact H1| |]; [intros k H%H2|intros r H%H3]; by apply elem_of_nil in H.
Qed.
End runs.
