(* ===== verification/InstanceSamples.v ===== *)
(** * An endpoint instance at work

    A small adapter that connects, authorizes and closes at once, and two operations
    that share an instance: the theorems at concrete runs. *)
From S2P Require Import Prelude Utf8 Text TextFacts Cbor Protocol Budget Admission Policy Validate Codec Binding BindingFacts PoolTypes SetupClock Pool PoolSteps PoolMoves PoolCalls PoolRun Operation ConnBinding Cells Instance InstanceRun InstanceOwed.
Import InstanceState Instance_.

(** What the adapter will report, and the number of its next exchange. *)
Definition Prompt : Type := list Completion.t * Z.
Definition later (c : Completion.t) (e : Prompt) : Prompt := (e.1 ++ [c], e.2).

#[global] Instance prompt : Ports Prompt := {|
  clock_now := fun e => (0, e);
  clock_epoch := fun e => (0, e);
  connect := fun c => later (Completion.Connected c.(ConnectCommand.connection) (Ok (Some c.(ConnectCommand.identity))));
  cancel_connect := fun c e => e;
  close := fun c => later (Completion.Closed c);
  start_exchange := fun c spec auth e => (Ok e.2, (e.1, e.2 + 1));
  authorize_reuse := fun c e =>
    (true, later (Completion.Reuse c.(ReuseCommand.connection) c.(ReuseCommand.proof) ReuseVerdict.Authorized) e);
  cancel_reuse := fun p e => e;
  poll_completion := fun e => match e.1 with [] => (None, e) | c :: l => (Some c, (l, e.2)) end;
  poll_finish := fun io e => (Some Disposition.Reusable, e);
  effect_of := fun io e => Effect.None;
  abort_io := fun io e => e;
  is_cancelled := fun b e => false;
|}.

Definition still (_ : Z) (_ : nat) : Z := 0.
Definition outset : Prompt := ([], 0).
Definition fresh_instance : InstanceState.t (Prompt * Log) :=
  match (new 1 (outset, [])).1 with
  | Ok a => a
  | Err _ => InstanceState.mk (outset, []) false (PoolMachine.mk ceilings 0 0 0 0 0 ∅ ∅ [] [] [] ∅ false false 0 [] [] Clocks.empty false)
               0 0 [] [] [] [] ∅ 0 [] 0 0 ∅ ∅ ∅ ∅ [] []
  end.
Example fresh_instance_new : new 1 (outset, []) = (Ok fresh_instance, 2).
Proof. reflexivity. Qed.

Definition smart : Key.t := Key.https "forge.example" 443.
Definition fetch (n : Z) : PoolRequest.t :=
  (PoolRequest.new smart PoolIdentity.Https (Owner.mk "s" "fetch")) <| PoolRequest.tag := Some (str_of (Text.dec n)) |>.
Definition a_spec : ExchangeSpec.t := ExchangeSpec.mk smart PoolIdentity.Https Service.UploadPackExchange "/repo".
Definition opens (slot binding : Z) (scope : AuthScope) : nat * ICall.t Prompt :=
  (20%nat, ICall.Submit slot (fetch slot) (BindingId.mk 0 binding) a_spec scope).
Definition settles (n : Z) (lease : LeaseId.t) : nat * ICall.t Prompt := (20%nat, ICall.Settle n lease n 0).
Definition one : AuthScope := bytes_of "one".
Definition two : AuthScope := bytes_of "two".
Definition connection_number (n : Z) : ConnectionId.t := ConnectionId.mk 1 n.
Abbreviation after_calls l := (call_run still l fresh_instance).

(** Two operations with scopes of their own, and one after the other with the same. *)
Definition side_by_side : list (nat * ICall.t Prompt) := [opens 1 1 one; opens 2 2 two].
Definition first_done : list (nat * ICall.t Prompt) := [opens 1 1 one; settles 0 (LeaseId.mk (connection_number 1) 1)].
Definition then_second : list (nat * ICall.t Prompt) := [opens 2 2 one].
(** One that the pump has not got to. *)
Definition left_waiting : list (nat * ICall.t Prompt) := [(0%nat, (opens 1 1 one).2); (0%nat, (settles 5 (LeaseId.mk (connection_number 1) 1)).2)].

Example scopes_kept_apart : (after_calls side_by_side).(env).2 =
  [Event.Connects (connection_number 1) true (Some one); Event.Starts (connection_number 1) one;
   Event.Connects (connection_number 2) true (Some two); Event.Starts (connection_number 2) two].
Proof. vm_compute. reflexivity. Qed.

Lemma scope_partition_witness :
  new 1 (outset, []) = (Ok fresh_instance, 2)
  /\ Event.Starts (connection_number 2) two ∈ log (after_calls side_by_side)
  /\ exists https scope, (forall h s, Event.Connects (connection_number 2) h s ∈ log (after_calls side_by_side) <-> h = https /\ s = scope)
    /\ (https = true -> scope = Some two).
Proof.
  assert (Hs : Event.Starts (connection_number 2) two ∈ log (after_calls side_by_side)).
  { assert (log (after_calls side_by_side) = _) as -> by exact scopes_kept_apart. right. right. right. by left. }
  split; [reflexivity|]. split; [exact Hs|].
  exact (scope_partition still 1 outset fresh_instance 2 side_by_side (connection_number 2) two fresh_instance_new Hs).
Defined.

Definition setup_by (binding : Z) : Setup.t := Setup.mk (Some one) true true (Some (BindingId.mk 0 binding)) None.
Lemma passed_by_proof_witness :
  (after_calls first_done).(connections) !! connection_number 1 = Some (setup_by 1)
  /\ (after_calls (first_done ++ then_second)).(connections) !! connection_number 1 = Some (setup_by 2)
  /\ exists now, (setup_by 2).(Setup.lessee) = Some now
       /\ (now = BindingId.mk 0 1 \/ proved_for (log (after_calls (first_done ++ then_second))) (connection_number 1) now).
Proof.
  assert (H1 : (after_calls first_done).(connections) !! connection_number 1 = Some (setup_by 1)) by (vm_compute; reflexivity).
  assert (H2 : (after_calls (first_done ++ then_second)).(connections) !! connection_number 1 = Some (setup_by 2))
    by (vm_compute; reflexivity).
  split; [exact H1|]. split; [exact H2|].
  exact (passed_by_proof still 1 outset fresh_instance 2 first_done then_second (connection_number 1) (setup_by 1) (setup_by 2)
           (BindingId.mk 0 1) fresh_instance_new H1 eq_refl H2).
Defined.

Lemma no_caller_forgotten_witness :
  waits (after_calls left_waiting) 1 /\ due (after_calls left_waiting) 5
  /\ (forall k, waits (after_calls left_waiting) k -> k ∈ opening_slots (after_calls left_waiting) \/ k ∈ proof_slots (after_calls left_waiting))
  /\ (forall r, due (after_calls left_waiting) r -> r ∈ settling_ends (after_calls left_waiting) \/ r ∈ ending_ends (after_calls left_waiting)).
Proof.
  split; [exists Slot.new; split_and!; vm_compute; reflexivity|]. split; [exists Cell.new; split; vm_compute; reflexivity|].
  exact (no_caller_forgotten still 1 outset fresh_instance 2 left_waiting fresh_instance_new).
Defined.

Lemma failed_all_answered_witness :
  let b := fail_in_flight still 20 TerminalReason.HostFault (after_calls left_waiting) in
  waits (after_calls left_waiting) 1 /\ idle b /\ (forall k, ~ waits b k) /\ (forall r, ~ due b r).
Proof.
  split; [exists Slot.new; split_and!; vm_compute; reflexivity|].
  exact (failed_all_answered still 1 outset fresh_instance 2 left_waiting 20 TerminalReason.HostFault fresh_instance_new).
Defined.
