(* ===== verification/Driver.v ===== *)
(** * The host's driver

    The connection crate's pump.rs: the one task of a host that drives its instances,
    its spawning, its passes with their notifications, its stop, and the fault when it
    is lost.  A pass is not atomic: notifications, the stop and every call of an
    instance come between its sections.  Shown is that none of them is missed. *)
From S2P Require Import Prelude Utf8 Text TextFacts Cbor Protocol Budget Admission Policy Validate Codec Binding PoolTypes SetupClock Pool Operation ConnBinding Cells Instance InstanceSamples.

(** Where the task stands: [Driving] is inside a pass, with the instances it has still to
    drive and the earliest deadline so far. *)
Module Task.
Inductive t := Unspawned | Asleep | Driving (todo : list Z) (next : option Z) | Ended.
#[global] Instance eq_dec : EqDecision t.
Proof. solve_decision. Defined.
End Task.

(** [waker] is the waker of the task's last poll and [woken] whether it was woken since;
    [faulted] says that the host was sealed with a fault.  [table] is the host's list of
    instances, which are shared objects in a store.  [unseen] only records: whether
    a notification came since the last pass began. *)
Module DrvWorld.
Record t (E : Type) := mk {
  signal : Signal.t;
  instances : gmap Z (InstanceState.t E);
  table : list Z;
  alive : bool;
  task : Task.t;
  sleep : option Z;
  waker : Z;
  woken : bool;
  faulted : bool;
  unseen : bool;
}.
Arguments mk {E}.
Arguments signal {E}.
Arguments instances {E}.
Arguments table {E}.
Arguments alive {E}.
Arguments task {E}.
Arguments sleep {E}.
Arguments waker {E}.
Arguments woken {E}.
Arguments faulted {E}.
Arguments unseen {E}.
#[global] Instance eta {E} : Eta (t E) :=
  fun r => mk (r.(signal)) (r.(instances)) (r.(table)) (r.(alive)) (r.(task)) (r.(sleep)) (r.(waker)) (r.(woken)) (r.(faulted)) (r.(unseen)).
End DrvWorld.

Module Drv.
Import DrvWorld.
Section driver.
Context {E : Type} `{!Ports E}.
Variable source : Z -> nat -> Z.
Abbreviation world := (DrvWorld.t E).

Definition start : world := mk Signal.new ∅ [] true Task.Unspawned None 0 false false false.
(** A waker that is taken or cloned from the signal wakes the task it belongs to. *)
Definition wake (w : option Z) (self : world) : world :=
  if is_some_and w (Z.eqb self.(waker)) then self <| woken := true |> else self.
Definition notify (self : world) : world :=
  let '(w, s) := Signal.notify self.(signal) in wake w (self <| signal := s |> <| unseen := true |>).
Definition stop (self : world) : world := let '(w, s) := Signal.stop self.(signal) in wake w (self <| signal := s |>).
(** [HostShared::fault] as far as the driver goes: the seal stops the signal. *)
Definition fault (self : world) : world := stop self <| faulted := true |>.

(** [spawned] is the executor's answer; a task that was spawned is polled once at least. *)
Definition ensure_running (spawned : bool) (self : world) : result unit unit * world :=
  let '(claimed, s) := Signal.claim_spawn self.(signal) in
  let self := self <| signal := s |> in
  if negb claimed then (if s.(Signal.stopped) then Err tt else Ok tt, self)
  else if spawned then (Ok tt, self <| task := Task.Asleep |> <| woken := true |>)
  else (Err tt, fault self).
(** [Running::drop]. *)
Definition drop_running (self : world) : world :=
  if negb self.(signal).(Signal.stopped) && self.(alive) then fault self else self.
(** The end of the task: not a fault. *)
Definition end_task (self : world) : world := drop_running (stop (self <| task := Task.Ended |>)).
(** A turn of the pass's loop, up to the list of the instances. *)
Definition begin (waker' : Z) (self : world) : world :=
  let '(goes, s) := Signal.begin waker' self.(signal) in
  let self := self <| signal := s |> <| waker := waker' |> in
  if negb goes || negb self.(alive) then end_task (self <| unseen := false |>)
  else self <| task := Task.Driving self.(table) None |> <| unseen := false |>.
(** The executor polls the task. *)
Definition poll (waker' : Z) (self : world) : world :=
  match self.(task) with
  | Task.Asleep => begin waker' (self <| woken := false |>)
  | _ => self
  end.
Definition deadline_of (s : InstanceState.t E) : option Z := unwrap_or (Instance_.next_deadline s) None.
(** The next instance of the pass. *)
Definition drive_one (fuel : nat) (self : world) : world :=
  match self.(task) with
  | Task.Driving (id :: todo) next =>
      match self.(instances) !! id with
      | None => self <| task := Task.Driving todo next |>
      | Some s =>
          let s := Instance_.drive source fuel s in
          self <| instances := <[id := s]> self.(instances) |> <| task := Task.Driving todo (opt_min next (deadline_of s)) |>
      end
  | _ => self
  end.
(** The end of a turn: the sleep until [next], whose poll answers [slept], then the
    notifications that came meanwhile. *)
Definition turn_end (slept : bool) (self : world) : world :=
  match self.(task) with
  | Task.Driving [] next =>
      match next, slept with
      | Some _, true => begin self.(waker) (self <| sleep := None |>)
      | _, _ =>
          let '(dirty, s) := Signal.take_dirty self.(signal) in
          let self := self <| sleep := next |> <| signal := s |> in
          if dirty then begin self.(waker) self else self <| task := Task.Asleep |>
      end
  | _ => self
  end.
(** The executor drops the task. *)
Definition drop_task (self : world) : world :=
  match self.(task) with
  | Task.Asleep => drop_running (self <| task := Task.Ended |>)
  | _ => self
  end.
End driver.
End Drv.

Module DrvStep.
Inductive t (E : Type) :=
| Runs (spawned : bool) | Polls (waker : Z) | Drives (fuel : nat) | TurnEnds (slept : bool) | DropsTask
| Notifies | Stops | HostGoes | SleepEnds
(** Calls of others: an instance comes, goes or changes. *)
| Others (store : gmap Z (InstanceState.t E)) (table : list Z).
Arguments Runs {E}.
Arguments Polls {E}.
Arguments Drives {E}.
Arguments TurnEnds {E}.
Arguments DropsTask {E}.
Arguments Notifies {E}.
Arguments Stops {E}.
Arguments HostGoes {E}.
Arguments SleepEnds {E}.
Arguments Others {E}.
End DrvStep.

Section run.
Context {E : Type} `{!Ports E}.
Variable source : Z -> nat -> Z.
Import DrvWorld.
Definition drv_step (s : DrvStep.t E) (w : DrvWorld.t E) : DrvWorld.t E :=
  match s with
  | DrvStep.Runs spawned => (Drv.ensure_running spawned w).2
  | DrvStep.Polls waker => Drv.poll waker w
  | DrvStep.Drives fuel => Drv.drive_one source fuel w
  | DrvStep.TurnEnds slept => Drv.turn_end slept w
  | DrvStep.DropsTask => Drv.drop_task w
  | DrvStep.Notifies => Drv.notify w
  | DrvStep.Stops => Drv.stop w
  | DrvStep.HostGoes => w <| alive := false |>
  | DrvStep.SleepEnds => if is_some w.(sleep) && bool_decide (w.(task) = Task.Asleep) then w <| woken := true |> else w
  | DrvStep.Others store ids => w <| instances := store |> <| table := ids |>
  end.
Definition drv_run (steps : list (DrvStep.t E)) (w : DrvWorld.t E) : DrvWorld.t E := foldl (fun w s => drv_step s w) w steps.
End run.

(** ** Nothing is missed *)

Section facts.
Context {E : Type} `{!Ports E}.
Variable source : Z -> nat -> Z.
Import DrvWorld.
Abbreviation world := (DrvWorld.t E).

Definition running (task : Task.t) : bool := match task with Task.Asleep | Task.Driving _ _ => true | _ => false end.
Record driver_good (w : world) : Prop := {
  gd_spawn : w.(signal).(Signal.spawned) = false -> w.(task) = Task.Unspawned;
  gd_waker : running w.(task) = true -> w.(signal).(Signal.waker) = Some w.(waker) \/ w.(signal).(Signal.stopped) = true
             \/ w.(task) = Task.Asleep /\ w.(woken) = true;
  gd_stop : running w.(task) = true -> w.(woken) = true \/ w.(signal).(Signal.stopped) = false;
  gd_asleep : w.(task) = Task.Asleep -> w.(woken) = true \/ w.(unseen) = false;
  gd_dirty : w.(unseen) = true -> w.(signal).(Signal.dirty) = true;
  gd_ended : w.(task) = Task.Ended -> w.(signal).(Signal.stopped) = true \/ w.(alive) = false;
}.

Lemma good_wake_all w s unseen' :
  driver_good w -> s.(Signal.spawned) = w.(signal).(Signal.spawned) ->
  (s.(Signal.waker) = w.(signal).(Signal.waker) /\ s.(Signal.stopped) = w.(signal).(Signal.stopped) \/ s.(Signal.stopped) = true) ->
  (unseen' = true -> s.(Signal.dirty) = true) -> (unseen' = w.(unseen) \/ unseen' = true) ->
  (w.(signal).(Signal.dirty) = true -> s.(Signal.dirty) = true) ->
  driver_good (Drv.wake w.(signal).(Signal.waker) (w <| signal := s |> <| unseen := unseen' |>)).
Proof.
  intros [G1 G2 G3 G4 G5 G6] Hsp Hst Hu _ Hd. unfold Drv.wake. cbn.
  destruct (is_some_and w.(signal).(Signal.waker) (Z.eqb w.(waker))) eqn:Hw.
  - split; cbn; [by rewrite Hsp| |auto|auto|done|].
    + intros Hr. destruct Hst as [[-> ->] | ->]; [|by auto]. specialize (G2 Hr). intuition.
    + intros He. destruct Hst as [[_ ->] | ->]; [auto|by left].
  - assert (Hwk : running w.(task) = true -> w.(woken) = true).
    { intros Hr. destruct (w.(woken)) eqn:Hk; [done|]. destruct (G3 Hr) as [|Hs]; [done|].
      destruct (G2 Hr) as [Hk'|[|[]]]; try congruence. rewrite Hk' in Hw. cbn in Hw. by rewrite Z.eqb_refl in Hw. }
    split; cbn; [by rewrite Hsp| |auto| |done|].
    + destruct Hst as [[-> ->] | ->]; [done|by auto].
    + intros Ha. left. apply Hwk. by rewrite Ha.
    + intros He. destruct Hst as [[_ ->] | ->]; [auto|by left].
Qed.
Lemma good_notify w : driver_good w -> driver_good (Drv.notify w).
Proof. intros G. apply (good_wake_all w (w.(signal) <| Signal.dirty := true |>) true G); cbn; auto. Qed.
Lemma good_stop w : driver_good w -> driver_good (Drv.stop w).
Proof.
  intros G. pose proof (good_wake_all w (w.(signal) <| Signal.stopped := true |> <| Signal.waker := None |>) w.(unseen) G) as H.
  unfold Drv.stop, Signal.stop. cbn in *. destruct w. cbn in *. apply H; auto; apply (gd_dirty _ G).
Qed.
Lemma stopped_stop (w : world) : (Drv.stop w).(signal).(Signal.stopped) = true.
Proof. unfold Drv.stop, Signal.stop, Drv.wake. cbn. by destruct (is_some_and _ _). Qed.
Lemma good_fault w : driver_good w -> driver_good (Drv.fault w).
Proof. intros [G1 G2 G3 G4 G5 G6]. unfold Drv.fault. apply good_stop. by split. Qed.
(** A turn begins with the notifications seen and the task's waker kept, or the task ends. *)
Lemma good_begin waker' w : w.(signal).(Signal.spawned) = true -> driver_good (Drv.begin waker' w).
Proof.
  intros Hsp. unfold Drv.begin, Signal.begin. destruct (w.(signal).(Signal.stopped)) eqn:Hst; cbn [negb orb].
  - unfold Drv.end_task, Drv.drop_running. rewrite stopped_stop. apply good_stop. split; cbn; [intros; congruence|tauto|done|done|done|tauto].
  - set (s := w.(signal) <| Signal.dirty := false |> <| Signal.waker := _ |>).
    assert (Hw : s.(Signal.waker) = Some waker').
    { cbn. destruct (w.(signal).(Signal.waker)) as [x|]; [|done]. cbn. by destruct (Z.eqb_spec waker' x) as [->|]. }
    assert (Hss : s.(Signal.spawned) = true /\ s.(Signal.stopped) = false) by done. clearbody s. destruct Hss as [Hs1 Hs2].
    change (alive (w <| signal := s |> <| waker := waker' |>)) with w.(alive). destruct (w.(alive)) eqn:Ha; cbn [negb].
    + split; cbn; [intros; congruence|by left|by right|done|done|done].
    + unfold Drv.end_task, Drv.drop_running. rewrite stopped_stop. apply good_stop. split; cbn; [intros; congruence|by left|done|done|done|auto].
Qed.
Lemma spawned_running w : driver_good w -> w.(task) <> Task.Unspawned -> w.(signal).(Signal.spawned) = true.
Proof. intros G Ht. destruct (w.(signal).(Signal.spawned)) eqn:Hs; [done|]. by pose proof (gd_spawn _ G Hs). Qed.
Lemma good_turn_end slept w : driver_good w -> driver_good (Drv.turn_end slept w).
Proof.
  intros G. unfold Drv.turn_end. destruct (w.(task)) as [| |[|] next|] eqn:Ht; try done.
  assert (Hsp : w.(signal).(Signal.spawned) = true) by (apply spawned_running; [done|congruence]).
  assert (Hs : driver_good (let '(dirty, s) := Signal.take_dirty w.(signal) in
    let self := w <| sleep := next |> <| signal := s |> in if dirty then Drv.begin self.(waker) self else self <| task := Task.Asleep |>)).
  { cbn. destruct (w.(signal).(Signal.dirty)) eqn:Hd; [by apply good_begin|]. destruct G as [G1 G2 G3 G4 G5 G6]. rewrite Ht in *.
    assert (Hu : w.(unseen) = false) by (destruct (w.(unseen)); [specialize (G5 eq_refl); congruence|done]).
    split; cbn; [intros; congruence| |by auto|by auto|intros; congruence|done]. destruct (G2 eq_refl) as [|[|[]]]; auto; done. }
  destruct next as [d|]; [|exact Hs]. destruct slept; [by apply good_begin|exact Hs].
Qed.
Lemma good_ended w : driver_good w -> w.(signal).(Signal.stopped) = true -> w.(task) <> Task.Unspawned -> driver_good (w <| task := Task.Ended |>).
Proof.
  intros G Hs Ht. pose proof (spawned_running w G Ht). destruct G as [G1 G2 G3 G4 G5 G6]. split; cbn; auto; intros; congruence.
Qed.
Lemma driver_step_good s w : driver_good w -> driver_good (drv_step source s w).
Proof.
  intros G. destruct s as [spawned|waker'|fuel|slept| | | | | |store ids]; cbn [drv_step].
  - unfold Drv.ensure_running, Signal.claim_spawn. destruct (_ || _) eqn:Hc; [by destruct w as [[]]|].
    apply orb_false_iff in Hc as [Hsp Hst]. cbn [negb]. destruct G as [G1 G2 G3 G4 G5 G6]. pose proof (G1 Hsp) as Ht. destruct spawned; cbn [snd].
    + split; cbn; [done|auto|auto|auto|done|done].
    + apply good_fault. split; cbn; rewrite ?Ht; auto; done.
  - unfold Drv.poll. destruct (w.(task)) eqn:Ht; try done. apply good_begin. cbn. apply spawned_running; [done|congruence].
  - unfold Drv.drive_one. destruct (w.(task)) as [| |[|id todo] next|] eqn:Ht; try done. destruct G as [G1 G2 G3 G4 G5 G6]. rewrite Ht in *.
    destruct (w.(instances) !! id); split; cbn; try done; intuition congruence.
  - by apply good_turn_end.
  - unfold Drv.drop_task, Drv.drop_running. destruct (w.(task)) eqn:Ht; try done.
    change (signal (w <| task := Task.Ended |>)) with w.(signal). change (alive (w <| task := Task.Ended |>)) with w.(alive).
    assert (Hsp : w.(signal).(Signal.spawned) = true) by (apply spawned_running; [done|congruence]). pose proof G as [G1 G2 G3 G4 G5 G6].
    destruct (w.(signal).(Signal.stopped)) eqn:Hst; cbn [negb andb]; [split; cbn; auto; intros; congruence|].
    destruct (w.(alive)) eqn:Ha; [|by split; cbn; auto; intros; congruence].
    assert (Heq : Drv.fault (w <| task := Task.Ended |>) = (Drv.fault w) <| task := Task.Ended |>).
    { unfold Drv.fault, Drv.stop, Drv.wake, Signal.stop. cbn. by destruct (is_some_and _ _). }
    rewrite Heq. apply good_ended; [by apply good_fault|apply stopped_stop|].
    unfold Drv.fault, Drv.stop, Drv.wake, Signal.stop. cbn. destruct (is_some_and _ _); cbn; congruence.
  - by apply good_notify.
  - by apply good_stop.
  - destruct G as [G1 G2 G3 G4 G5 G6]. split; cbn; auto.
  - destruct (_ && _) eqn:E'; [|done]. apply andb_prop in E' as [_ Ht%bool_decide_eq_true]. destruct G as [G1 G2 G3 G4 G5 G6]. split; cbn; auto.
  - destruct G as [G1 G2 G3 G4 G5 G6]. by split.
Qed.
Lemma driver_run_good steps w : driver_good w -> driver_good (drv_run source steps w).
Proof.
  induction steps as [|s steps IH] in w |- *; intros G; cbn; [done|]. by apply IH, driver_step_good.
Qed.
Lemma driver_start_good : driver_good Drv.start.
Proof. by split. Qed.
Lemma begin_not_asleep waker' (w : world) : (Drv.begin waker' w).(task) <> Task.Asleep
  /\ (w.(signal).(Signal.stopped) = true -> (Drv.begin waker' w).(task) = Task.Ended).
Proof.
  assert (He : forall w : world, (Drv.end_task w).(task) = Task.Ended).
  { intros v. unfold Drv.end_task, Drv.drop_running. rewrite stopped_stop. cbn. unfold Drv.stop, Drv.wake, Signal.stop. cbn. by destruct (is_some_and _ _). }
  unfold Drv.begin, Signal.begin. destruct (w.(signal).(Signal.stopped)) eqn:Hs; cbn [negb orb]; [rewrite He; done|].
  split; [|done]. destruct (negb _); [by rewrite He|done].
Qed.

(** C24: the driver misses nothing.  In every interleaving of its passes with
    notifications, calls of others, the stop and the loss of the task: a task that
    sleeps although it was notified or stopped since its last pass began has been
    woken; a notification that comes during a pass makes its end begin another one; a
    stopped task that is polled ends; and a task that the executor drops before it was
    stopped seals its host with a fault. *)
Theorem driver_misses_nothing steps :
  let w := drv_run source steps Drv.start in
  (w.(task) = Task.Asleep -> w.(unseen) = true \/ w.(signal).(Signal.stopped) = true -> w.(woken) = true)
  /\ (forall next slept, w.(task) = Task.Driving [] next -> w.(unseen) = true -> (Drv.turn_end slept w).(task) <> Task.Asleep)
  /\ (forall waker', w.(task) = Task.Asleep -> w.(signal).(Signal.stopped) = true -> (Drv.poll waker' w).(task) = Task.Ended)
  /\ (w.(task) = Task.Asleep -> w.(signal).(Signal.stopped) = false -> w.(alive) = true ->
      (Drv.drop_task w).(faulted) = true /\ (Drv.drop_task w).(signal).(Signal.stopped) = true).
Proof.
  intros w. pose proof (driver_run_good steps _ driver_start_good) as G. fold w in G. clearbody w. split_and!.
  - intros Ht [Hu|Hs]; [destruct (gd_asleep _ G Ht)|destruct (gd_stop _ G); [by rewrite Ht|done|]]; congruence.
  - intros next slept Ht Hu. pose proof (gd_dirty _ G Hu) as Hd. unfold Drv.turn_end. rewrite Ht. cbn. rewrite Hd.
    destruct next, slept; apply begin_not_asleep.
  - intros waker' Ht Hs. unfold Drv.poll. rewrite Ht. by apply begin_not_asleep.
  - intros Ht Hs Ha. unfold Drv.drop_task, Drv.drop_running. rewrite Ht. cbn. rewrite Hs, Ha. cbn.
    unfold Drv.wake. cbn. by destruct (is_some_and _ _).
Qed.
End facts.

(** A notification while the pass drives its instance, and one while the task sleeps. *)
Definition driver_steps : list (DrvStep.t Prompt) :=
  [DrvStep.Runs true; DrvStep.Polls 5; DrvStep.Notifies; DrvStep.TurnEnds false; DrvStep.TurnEnds false; DrvStep.Notifies].
Lemma driver_misses_nothing_witness :
  (drv_run still driver_steps Drv.start).(DrvWorld.task) = Task.Asleep /\ (drv_run still driver_steps Drv.start).(DrvWorld.woken) = true.
Proof.
  split; [vm_compute; reflexivity|].
  apply (proj1 (driver_misses_nothing still driver_steps)); [vm_compute; reflexivity|left; vm_compute; reflexivity].
Defined.
