(* ===== verification/RemoteCore.v ===== *)
(** * The core end of a carrier

    The connection crate's remote/core.rs: every remote binding of one session, and
    the pump that moves messages between each binding's multiplexer and the lane.
    A binding composes the machines of [Mux] and [Stream].

    The lane is a port of the composition.  What it answers during one pump is a
    [Lane.t]: the messages that have arrived, whether the carrier has ended, the
    clock, which bindings it faulted, and what becomes of each message offered to
    it.  What the pump does to it is the [Carrier.t] it returns: the messages it
    took and the sessions it was told are over.  A waker is a number; two wakers
    wake the same task when they are equal.  The receipt cell and the [OnceLock] of
    a binding are its own, so they are kept in maps under its serial. *)
From S2P Require Import Prelude Utf8 Cbor Protocol Budget Admission Policy Validate Codec Binding IoClock Stream Mux PoolTypes Operation RemoteTable.

Module Reg.
Inductive t := Pending | Registered | Never (reason : TerminalReason.t).
#[global] Instance eq_dec : EqDecision t.
Proof. solve_decision. Defined.
End Reg.

Module Stage.
Inductive t := Queued | Opening | Open | Closing | Ended.
#[global] Instance eq_dec : EqDecision t.
Proof. solve_decision. Defined.
End Stage.

Module ExchEnd.
Record t := mk {
  disposition : Disposition.t;
  failure : option (ErrorCode.t * Effect.t);
}.
(** An exchange that ends without its stream's own result. *)
Definition discarded (code : ErrorCode.t) (effect : Effect.t) : t := mk Disposition.Discarded (Some (code, effect)).
End ExchEnd.

Module Exch.
Record t := mk {
  service : Service.t;
  stage : Stage.t;
  spec : option ExchangeSpec.t;
  stream : option Z;
  machine : option Stream.t;
  open_sent : bool;
  reused : bool;
  outcome : option (result unit OpenFailure.t);
  end_ : option ExchEnd.t;
  finish_requested : bool;
  dropped : bool;
  cancel_on_open : bool;
}.
#[global] Instance eta : Eta t :=
  fun r => mk (r.(service)) (r.(stage)) (r.(spec)) (r.(stream)) (r.(machine)) (r.(open_sent)) (r.(reused))
    (r.(outcome)) (r.(end_)) (r.(finish_requested)) (r.(dropped)) (r.(cancel_on_open)).

Definition new (spec : ExchangeSpec.t) : t :=
  mk spec.(ExchangeSpec.service) Stage.Queued (Some spec) None None false false None None false false false.

Definition decide (o : result unit OpenFailure.t) (self : t) : t :=
  if negb self.(cancel_on_open) then self <| outcome := Some o |> else self.

Definition effect_on_loss (self : t) : Effect.t :=
  if bool_decide (self.(service) = Service.ReceivePackExchange) && self.(open_sent)
  then Effect.Possible else Effect.None.
End Exch.

(** The stream configuration of one exchange. *)
Definition stream_config (session : string) (id : Z) (side : Side.t) (limits : Limits.t) : Config.t :=
  let config := Config.new session id side in
  let config := config <| Config.profile_version := 2 |> <| Config.receive_limits := limits |>
                       <| Config.peer_limits := limits |> <| Config.coalesce_delay_ms := 0 |> in
  (** [usize::try_from(..).unwrap_or(usize::MAX)] *)
  let as_size z := if z <? 0 then U64_MAX else z in
  let window := as_size limits.(Limits.receive_window) in
  let payload := as_size limits.(Limits.data_payload) in
  config <| Config.receive_window := Z.min config.(Config.receive_window) window |>
         <| Config.peer_receive_window := Z.min config.(Config.peer_receive_window) window |>
         <| Config.max_payload := Z.min config.(Config.max_payload) payload |>.

Definition PER_PASS : nat := 16.
Definition OUTBOX_ROOM : nat := 64.

Module RBinding.
Record t := mk {
  id : BindingId.t;
  session : string;
  request : string;
  mux : Mux.t;
  reg : Reg.t;
  exchanges : gmap Z Exch.t;
  by_stream : gmap Z Z;
  next_token : Z;
  sealed : bool;
  cancelled : bool;
  faulted : bool;
  opened : Z;
  live : Z;
  revoked : option TerminalReason.t;
  purged : bool;
}.
#[global] Instance eta : Eta t :=
  fun r => mk (r.(id)) (r.(session)) (r.(request)) (r.(mux)) (r.(reg)) (r.(exchanges)) (r.(by_stream))
    (r.(next_token)) (r.(sealed)) (r.(cancelled)) (r.(faulted)) (r.(opened)) (r.(live)) (r.(revoked)) (r.(purged)).

Section binding.
Context {L : Layout}.
Variable unstable_sequenced : bool.

Definition new (id : BindingId.t) (session request : string) (mux : Mux.t) : t :=
  mk id session request mux Reg.Pending ∅ ∅ 0 false false false 0 0 None false.

Definition registration (self : t) : Registration.t :=
  match self.(reg) with
  | Reg.Pending => Registration.Pending
  | Reg.Registered => Registration.Registered self.(id)
  | Reg.Never reason => Registration.NeverRegistered reason
  end.
Definition end_of (self : t) : OperationEnd.t :=
  OperationEnd.mk (registration self) CleanupStatus.Complete self.(opened) self.(cancelled) self.(revoked).

(** What a binding's end makes of one exchange. *)
Definition abort_exch (code : ErrorCode.t) (lost : bool) (exch : Exch.t) : Exch.t :=
  if bool_decide (exch.(Exch.stage) = Stage.Ended) then exch
  else
    let effect := Exch.effect_on_loss exch in
    let exch := exch <| Exch.spec := None |> in
    let exch :=
      if is_none exch.(Exch.outcome) || exch.(Exch.cancel_on_open)
      then exch <| Exch.outcome := Some (Err (
             if lost then OpenFailure.CarrierLost effect
             else if bool_decide (code = ErrorCode.Cancelled) then OpenFailure.Cancelled
             else OpenFailure.Fault code)) |>
      else exch in
    exch <| Exch.machine := option_map Stream.disconnect exch.(Exch.machine) |>
         <| Exch.end_ := Some (ExchEnd.discarded code effect) |>
         <| Exch.stage := Stage.Ended |>.

Definition abort_all (code : ErrorCode.t) (lost : bool) (self : t) : t :=
  let self := self <| faulted := true |> in
  let self :=
    if bool_decide (self.(reg) = Reg.Pending)
    then self <| reg := Reg.Never (if lost then TerminalReason.CarrierLost
                                   else TerminalReason.ClientRefused code) |>
    else self in
  self <| exchanges := abort_exch code lost <$> self.(exchanges) |>
       <| by_stream := ∅ |> <| mux := Mux.disconnect self.(mux) |>.

Definition revoke (self : t) : t :=
  let self := if bool_decide (self.(reg) = Reg.Registered)
              then self <| revoked := Some TerminalReason.CarrierLost |> else self in
  abort_all ErrorCode.CarrierLost true self.

Definition receive (message : Attachment) (self : t) : t :=
  if self.(faulted) || bool_decide (self.(mux).(Mux.phase) = Phase.Closed) then self
  else if negb (bool_decide (message.1 = self.(request))) then abort_all ErrorCode.Protocol false self
  else
    match Mux.receive unstable_sequenced message self.(mux) with
    | (Ok _, mux') => self <| mux := mux' |>
    | (Err _, mux') => abort_all ErrorCode.Protocol false (self <| mux := mux' |>)
    end.

(** What a cancellation makes of one exchange of a registered binding. *)
Definition cancel_exch (exch : Exch.t) : Exch.t :=
  match exch.(Exch.stage) with
  | Stage.Queued =>
      exch <| Exch.spec := None |> <| Exch.outcome := Some (Err OpenFailure.Cancelled) |>
           <| Exch.end_ := Some (ExchEnd.discarded ErrorCode.Cancelled Effect.None) |>
           <| Exch.stage := Stage.Ended |>
  | Stage.Opening =>
      exch <| Exch.cancel_on_open := true |> <| Exch.outcome := Some (Err OpenFailure.Cancelled) |>
  | Stage.Open | Stage.Closing => exch <| Exch.machine := option_map Stream.cancel exch.(Exch.machine) |>
  | Stage.Ended => exch
  end.

Definition cancel_all (self : t) : bool * t :=
  if self.(cancelled) then (false, self)
  else
    let self := self <| cancelled := true |> in
    if bool_decide (self.(reg) = Reg.Pending)
    then (true, abort_all ErrorCode.Cancelled false (self <| reg := Reg.Never TerminalReason.Cancelled |>))
    else (true, self <| exchanges := cancel_exch <$> self.(exchanges) |>).

Definition queue_exchange (spec : ExchangeSpec.t) (self : t) : Z * t :=
  let token := self.(next_token) in
  let self := self <| next_token := wrapping_add_u64 token 1 |>
                   <| opened := wrapping_add_u64 self.(opened) 1 |> in
  let exch := Exch.new spec in
  let exch :=
    if self.(faulted) then
      let code := if is_some self.(revoked) then ErrorCode.CarrierLost else ErrorCode.Protocol in
      exch <| Exch.spec := None |>
           <| Exch.outcome := Some (Err (
                if bool_decide (code = ErrorCode.CarrierLost) then OpenFailure.CarrierLost Effect.None
                else OpenFailure.Fault code)) |>
           <| Exch.end_ := Some (ExchEnd.discarded code Effect.None) |>
           <| Exch.stage := Stage.Ended |>
    else exch in
  (token, self <| exchanges := <[token := exch]> self.(exchanges) |>).

(** [collect]: at most [room] messages leave the multiplexer, in order. *)
Fixpoint collect (room : nat) (self : t) (outbox : list Attachment) : t * list Attachment :=
  match room with
  | O => (self, outbox)
  | S room =>
      match Mux.next_message self.(mux) with
      | (None, mux') => (self <| mux := mux' |>, outbox)
      | (Some message, mux') =>
          let self := self <| mux := mux' |> in
          let self :=
            if bool_decide (message.2.(Envelope.kind) = MessageKind.Open) then
              match self.(by_stream) !! message.2.(Envelope.stream_id) with
              | Some token =>
                  self <| exchanges := alter (fun e => e <| Exch.open_sent := true |>) token self.(exchanges) |>
              | None => self
              end
            else self in
          collect room self (outbox ++ [message])
      end
  end.

(** An exchange whose [Open] could not be made. *)
Definition fail_open (exch : Exch.t) : Exch.t :=
  exch <| Exch.outcome := Some (Err (OpenFailure.Fault ErrorCode.InvalidRequest)) |>
       <| Exch.end_ := Some (ExchEnd.discarded ErrorCode.InvalidRequest Effect.None) |>
       <| Exch.stage := Stage.Ended |>.

Fixpoint issue_each (tokens : list Z) (context : OpenContext.t) (self : t) : t :=
  match tokens with
  | [] => self
  | token :: tokens =>
      match and_then (self.(exchanges) !! token) Exch.spec with
      | None => issue_each tokens context self
      | Some spec =>
          let self := self <| exchanges := alter (fun e => e <| Exch.spec := None |>) token self.(exchanges) |> in
          let fail self := self <| exchanges := alter fail_open token self.(exchanges) |> in
          match open_for spec context with
          | Err _ => issue_each tokens context (fail self)
          | Ok open =>
              match Mux.open self.(request) open self.(mux) with
              | (Ok stream, mux') =>
                  let self := self <| mux := mux' |> <| by_stream := <[stream := token]> self.(by_stream) |>
                    <| exchanges := alter (fun e => e <| Exch.stage := Stage.Opening |>
                                                      <| Exch.stream := Some stream |>) token self.(exchanges) |> in
                  issue_each tokens context self
              | (Err (MuxError.Capacity | MuxError.WouldBlock), mux') =>
                  self <| mux := mux' |>
                       <| exchanges := alter (fun e => e <| Exch.spec := Some spec |>) token self.(exchanges) |>
              | (Err _, mux') => issue_each tokens context (fail (self <| mux := mux' |>))
              end
          end
      end
  end.

Definition queued_tokens (self : t) : list Z :=
  map fst (keep (fun e => bool_decide (e.2.(Exch.stage) = Stage.Queued)) (entries self.(exchanges))).

Definition issue_opens (config : RemoteConfig.t) (path_base : option string) (self : t) : t :=
  match self.(mux).(Mux.binding) with
  | None => self
  | Some bound =>
      issue_each (queued_tokens self)
        (OpenContext.mk (Binding.endpoint_id bound) self.(request) (Binding.limits bound)
           config.(RemoteConfig.deadlines) path_base) self
  end.

(** One action of the multiplexer, for the exchange it belongs to. *)
Definition take_action (message : Envelope.t) (self : t) : t :=
  let stream := message.(Envelope.stream_id) in
  match self.(by_stream) !! stream with
  | None => self
  | Some token =>
  match self.(exchanges) !! token with
  | None => self
  | Some exch =>
      let put exch self := self <| exchanges := <[token := exch]> self.(exchanges) |> in
      match message.(Envelope.kind) with
      | MessageKind.Opened =>
          match message.(Envelope.opened), self.(mux).(Mux.binding) with
          | Some opened, Some b =>
              match Stream.new (stream_config b.(Binding.session_id) stream Side.Initiator (Binding.limits b)) with
              | Ok machine =>
                  let machine := if exch.(Exch.dropped) || exch.(Exch.cancel_on_open)
                                 then Stream.cancel machine else machine in
                  put (Exch.decide (Ok tt)
                         (exch <| Exch.machine := Some machine |> <| Exch.reused := opened.(Opened.reused) |>
                               <| Exch.stage := Stage.Open |>)) self
              | Err _ =>
                  put (Exch.decide (Err (OpenFailure.Fault ErrorCode.Protocol)) exch
                       <| Exch.end_ := Some (ExchEnd.discarded ErrorCode.Protocol (Exch.effect_on_loss exch)) |>
                       <| Exch.stage := Stage.Ended |>) self
              end
          | _, _ => self
          end
      | MessageKind.OpenFailed =>
          let failure := unwrap_or message.(Envelope.open_failed) Failure.default in
          let exch := exch <| Exch.end_ := Some (ExchEnd.discarded failure.(Failure.code) failure.(Failure.effect)) |> in
          put (Exch.decide (Err (OpenFailure.Refused failure)) exch <| Exch.stage := Stage.Ended |>) self
            <| by_stream := delete stream self.(by_stream) |>
      | _ =>
          put (exch <| Exch.machine :=
                 option_map (fun machine => (Stream.receive message machine).2) exch.(Exch.machine) |>) self
      end
  end
  end.

(** Each turn takes one action away and adds none, so their number is enough fuel. *)
Fixpoint drain_loop (fuel : nat) (self : t) : t :=
  match fuel with
  | O => self
  | S fuel =>
      match Mux.next_action self.(mux) with
      | (None, mux') => self <| mux := mux' |>
      | (Some (_, message), mux') => drain_loop fuel (take_action message (self <| mux := mux' |>))
      end
  end.
Definition drain_actions (self : t) : t :=
  drain_loop (S (length self.(mux).(Mux.actions).(Queue.items))) self.

(** The messages of one machine, while fewer than [PER_PASS] have been moved. *)
Fixpoint run_one (fuel : nat) (token : Z) (exch : Exch.t) (machine : Stream.t) (self : t)
    : Exch.t * Stream.t * t * nat * bool :=
  match fuel with
  | O => (exch, machine, self, O, false)
  | S fuel' =>
      match Stream.next_message machine with
      | (None, machine) => (exch, machine, self, fuel, true)
      | (Some message, machine) =>
          match Mux.send self.(request) message self.(mux) with
          | (Ok _, mux') => run_one fuel' token exch machine (self <| mux := mux' |>)
          | (Err _, mux') =>
              (exch <| Exch.end_ := Some (ExchEnd.discarded ErrorCode.Protocol (Exch.effect_on_loss exch)) |>
                    <| Exch.stage := Stage.Ended |>,
               Stream.cancel machine, self <| mux := mux' |>, fuel', false)
          end
      end
  end.

(** [budget] is what [PER_PASS] still allows; [quiet] the machines with nothing more. *)
Fixpoint run_each (now : Z) (tokens : list Z) (budget : nat) (quiet : gset Z) (self : t) : gset Z * t :=
  match tokens with
  | [] => (quiet, self)
  | token :: tokens =>
      match self.(exchanges) !! token with
      | None => run_each now tokens budget quiet self
      | Some exch =>
          match exch.(Exch.machine) with
          | None => run_each now tokens budget quiet self
          | Some machine =>
              let '(exch, machine, self, budget, done) := run_one budget token exch (Stream.advance now machine) self in
              let self := self <| exchanges := <[token := exch <| Exch.machine := Some machine |>]> self.(exchanges) |> in
              run_each now tokens budget (if done then {[token]} ∪ quiet else quiet) self
          end
      end
  end.

Definition running (exch : Exch.t) : bool :=
  match exch.(Exch.stage) with Stage.Open | Stage.Closing => true | _ => false end
  && is_some exch.(Exch.machine).
Definition run_machines (now : Z) (self : t) : gset Z * t :=
  run_each now (map fst (keep (fun e => running e.2) (entries self.(exchanges)))) PER_PASS ∅ self.

(** How a machine's close result ends its exchange. *)
Definition end_by (exch : Exch.t) (machine : Stream.t) : option ExchEnd.t :=
  match Stream.close_result machine with
  | Ok result => Some (ExchEnd.mk result.(CloseResult.disposition) None)
  | Err StreamError.WouldBlock => None
  | Err (StreamError.PeerFailed code effect) => Some (ExchEnd.discarded code effect)
  | Err StreamError.CarrierLost => Some (ExchEnd.discarded ErrorCode.CarrierLost (Exch.effect_on_loss exch))
  | Err StreamError.Cancelled => Some (ExchEnd.discarded ErrorCode.Cancelled (Exch.effect_on_loss exch))
  | Err StreamError.Timeout => Some (ExchEnd.discarded ErrorCode.Timeout (Exch.effect_on_loss exch))
  | Err _ => Some (ExchEnd.discarded ErrorCode.Protocol (Exch.effect_on_loss exch))
  end.

Definition settled (quiet : gset Z) (token : Z) (exch : Exch.t) : option ExchEnd.t :=
  if bool_decide (exch.(Exch.stage) = Stage.Ended) || negb (bool_decide (token ∈ quiet)) then None
  else and_then exch.(Exch.machine) (end_by exch).

Definition settle_exch (quiet : gset Z) (token : Z) (exch : Exch.t) : Exch.t :=
  match settled quiet token exch with
  | Some e => exch <| Exch.end_ := Some e |> <| Exch.stage := Stage.Ended |>
  | None => exch
  end.

Definition ended_streams (quiet : gset Z) (self : t) : list Z :=
  omap (fun e => if is_some (settled quiet e.1 e.2) then e.2.(Exch.stream) else None) (entries self.(exchanges)).

Definition reclaimed (exch : Exch.t) : bool :=
  exch.(Exch.dropped) && bool_decide (exch.(Exch.stage) = Stage.Ended).

Definition settle (quiet : gset Z) (self : t) : t :=
  let ended := ended_streams quiet self in
  let self := self <| exchanges := map_imap (fun token exch => Some (settle_exch quiet token exch)) self.(exchanges) |>
                   <| by_stream := foldr delete self.(by_stream) ended |> in
  self <| exchanges := filter (fun e : Z * Exch.t => reclaimed e.2 = false) self.(exchanges) |>.

Definition drive (now : Z) (room : option nat) (config : RemoteConfig.t) (path_base : option string)
    (self : t) (outbox : list Attachment) : t * list Attachment :=
  let r := unwrap_or room O in
  if self.(faulted) then collect r self outbox
  else
    let self := self <| mux := Mux.advance now self.(mux) |> in
    if bool_decide (self.(mux).(Mux.phase) = Phase.Closed) then
      let failure := self.(mux).(Mux.rejection) in
      let pending := bool_decide (self.(reg) = Reg.Pending) in
      let code := match failure with Some f => f.(Failure.code) | None => ErrorCode.Timeout end in
      let self :=
        if pending && is_none failure then self <| reg := Reg.Never TerminalReason.TimedOut |>
        else if pending then self <| reg := Reg.Never (TerminalReason.ClientRefused code) |>
        else self in
      (abort_all code false self, outbox)
    else
      let self := if bool_decide (self.(reg) = Reg.Pending) && bool_decide (self.(mux).(Mux.phase) = Phase.Ready)
                  then self <| reg := Reg.Registered |> else self in
      let self := if bool_decide (self.(reg) = Reg.Registered) then issue_opens config path_base self else self in
      let self := drain_actions self in
      let '(self, outbox) := collect r self outbox in
      if is_some room then
        let '(quiet, self) := run_machines now self in
        let '(self, outbox) := collect r self outbox in
        (settle quiet self, outbox)
      else (settle ∅ self, outbox).
End binding.
End RBinding.

(** ** The lane *)

Module SendAnswer.
Inductive t := Sent | Full | Closed.
End SendAnswer.

Module Lane.
Record t := mk {
  now : Z;
  arrivals : list Attachment;
  ended : bool;
  faulted : string -> bool;
  path_base : string -> option string;
  (** The answer to the n-th message offered during the pump. *)
  answer : nat -> SendAnswer.t;
}.
End Lane.

Module Carrier.
Record t := mk { sent : list Attachment; over : list string }.
#[global] Instance eta : Eta t := fun r => mk (r.(sent)) (r.(over)).
End Carrier.

(** ** Waiting futures *)

Module Wait.
Inductive t :=
| Registered (serial slot : Z)
| Opening (serial token : Z)
| Ending (serial token : Z).
#[global] Instance eq_dec : EqDecision t.
Proof. solve_decision. Defined.
End Wait.

Module Waiting.
Record t := mk { id : Z; waker : option Z }.
#[global] Instance eta : Eta t := fun r => mk (r.(id)) (r.(waker)).
End Waiting.

(** ** The state of one session *)

Module RState.
Record t := mk {
  lost : bool;
  serial : Z;
  ids : Z;
  queue : list Waiting.t;
  active : Z;
  claims : gset Z;
  requests : gset string;
  bindings : gmap Z RBinding.t;
  by_session : gmap string Z;
  outbox : list Attachment;
  waiters : list (Wait.t * Z);
  discarded : Z;
  finished : list (Z * OperationEnd.t);
  (** The [OnceLock] of each binding that has left the table. *)
  lasts : gmap Z Registration.t;
}.
#[global] Instance eta : Eta t :=
  fun r => mk (r.(lost)) (r.(serial)) (r.(ids)) (r.(queue)) (r.(active)) (r.(claims)) (r.(requests))
    (r.(bindings)) (r.(by_session)) (r.(outbox)) (r.(waiters)) (r.(discarded)) (r.(finished)) (r.(lasts)).

Definition new : t := mk false 0 0 [] 0 ∅ ∅ ∅ ∅ [] [] 0 [] ∅.

Section state.
Context {L : Layout}.
Variable unstable_sequenced : bool.

Fixpoint replace_waker (wait : Wait.t) (waker : Z) (l : list (Wait.t * Z)) : list (Wait.t * Z) :=
  match l with
  | [] => [(wait, waker)]
  | (w, k) :: l => if bool_decide (w = wait) then (w, waker) :: l else (w, k) :: replace_waker wait waker l
  end.
Definition wait_for (wait : Wait.t) (waker : Z) (self : t) : t :=
  self <| waiters := replace_waker wait waker self.(waiters) |>.
Definition forget (wait : Wait.t) (self : t) : t :=
  self <| waiters := keep (fun e => negb (bool_decide (e.1 = wait))) self.(waiters) |>.

Definition exchange_of (serial token : Z) (self : t) : option Exch.t :=
  and_then (self.(bindings) !! serial) (fun b => b.(RBinding.exchanges) !! token).

Definition holds (wait : Wait.t) (self : t) : bool :=
  match wait with
  | Wait.Registered serial _ =>
      is_none_or (self.(bindings) !! serial) (fun b => negb (bool_decide (b.(RBinding.reg) = Reg.Pending)))
  | Wait.Opening serial token => is_none_or (exchange_of serial token self) (fun e => is_some e.(Exch.outcome))
  | Wait.Ending serial token => is_none_or (exchange_of serial token self) (fun e => is_some e.(Exch.end_))
  end.

Definition woken_in_queue (active_limit : Z) (self : t) (w : Waiting.t) : bool :=
  self.(lost)
  || ((self.(active) <? active_limit)
      && bool_decide (Some w.(Waiting.id) = option_map Waiting.id (hd_error self.(queue)))).

Definition ready_wakers (active_limit : Z) (self : t) : list Z * t :=
  let ready := map snd (keep (fun e => holds e.1 self) self.(waiters)) in
  let from_queue := omap (fun w => if woken_in_queue active_limit self w then w.(Waiting.waker) else None) self.(queue) in
  (ready ++ from_queue,
   self <| waiters := keep (fun e => negb (holds e.1 self)) self.(waiters) |>
        <| queue := map (fun w => if woken_in_queue active_limit self w then w <| Waiting.waker := None |> else w)
                      self.(queue) |>).

Definition lose (self : t) : t :=
  if self.(lost) then self
  else self <| lost := true |> <| outbox := [] |> <| bindings := RBinding.revoke <$> self.(bindings) |>.

Definition route_in (message : Attachment) (self : t) : t :=
  match and_then (self.(by_session) !! message.2.(Envelope.session_id)) (fun serial => self.(bindings) !! serial) with
  | None => self <| discarded := wrapping_add_u64 self.(discarded) 1 |>
  | Some entry =>
      match self.(by_session) !! message.2.(Envelope.session_id) with
      | Some serial =>
          self <| bindings := <[serial := RBinding.receive unstable_sequenced message entry]> self.(bindings) |>
      | None => self
      end
  end.

(** The sessions [purge_ended] clears, in the order of the table. *)
Definition to_purge (self : t) : list string :=
  map RBinding.session (keep (fun b => b.(RBinding.faulted) && negb b.(RBinding.purged)) (values self.(bindings))).
Definition purge_ended (self : t) : t :=
  let over := to_purge self in
  self <| bindings := (fun b => if b.(RBinding.faulted) then b <| RBinding.purged := true |> else b) <$> self.(bindings) |>
       <| outbox := keep (fun m => negb (contains m.2.(Envelope.session_id) over)) self.(outbox) |>.

(** [flush] after the purge: what is sent, what is left, and whether the lane was closed. *)
Fixpoint send_all (answer : nat -> SendAnswer.t) (n : nat) (outbox : list Attachment)
    : list Attachment * list Attachment * bool :=
  match outbox with
  | [] => ([], [], false)
  | message :: rest =>
      match answer n with
      | SendAnswer.Sent => let '(sent, left_, closed) := send_all answer (S n) rest in (message :: sent, left_, closed)
      | SendAnswer.Full => ([], message :: rest, false)
      | SendAnswer.Closed => ([], message :: rest, true)
      end
  end.
Definition flush (lane : Lane.t) (self : t) : t * list Attachment :=
  let self := purge_ended self in
  let '(sent, left_, closed) := send_all lane.(Lane.answer) 0 self.(outbox) in
  let self := self <| outbox := left_ |> in
  (if closed then lose self else self, sent).

(** The room of one binding's turn.  [then_some] evaluates its argument: with an
    outbox over [OUTBOX_ROOM] the subtraction underflows, which panics where
    overflow is checked and is thrown away where it is not. *)
Definition room_for (outbox : list Attachment) : option nat :=
  if (length outbox <? OUTBOX_ROOM)%nat then Some (OUTBOX_ROOM - length outbox)%nat else None.
Definition room_underflows (outbox : list Attachment) : bool := (OUTBOX_ROOM <? length outbox)%nat.

Fixpoint drive_each (lane : Lane.t) (config : RemoteConfig.t) (serials : list Z) (self : t) : t :=
  match serials with
  | [] => self
  | serial :: serials =>
      match self.(bindings) !! serial with
      | None => drive_each lane config serials self
      | Some entry =>
          let room := room_for self.(outbox) in
          let '(entry', outbox') :=
            RBinding.drive lane.(Lane.now) room config (lane.(Lane.path_base) entry.(RBinding.request))
              entry self.(outbox) in
          drive_each lane config serials
            (self <| bindings := <[serial := entry']> self.(bindings) |> <| outbox := outbox' |>)
      end
  end.

Definition fault_entry (lane : Lane.t) (entry : RBinding.t) : RBinding.t :=
  if negb entry.(RBinding.faulted) && lane.(Lane.faulted) entry.(RBinding.session)
  then RBinding.abort_all ErrorCode.Protocol false entry else entry.

Definition work (lane : Lane.t) (config : RemoteConfig.t) (self : t) : t * list Attachment :=
  let self := fold_left (fun self message => route_in message self) lane.(Lane.arrivals) self in
  if lane.(Lane.ended) then (lose self, [])
  else
    let self := self <| bindings := fault_entry lane <$> self.(bindings) |> in
    let self := drive_each lane config (keys self.(bindings)) self in
    flush lane self.

Definition is_finished (entry : RBinding.t) : bool :=
  entry.(RBinding.sealed) && (entry.(RBinding.live) =? 0)
  && forallb (fun e => bool_decide (e.(Exch.stage) = Stage.Ended)) (values entry.(RBinding.exchanges)).

(** [OnceLock::set]: the first value stays. *)
Definition set_once (serial : Z) (r : Registration.t) (lasts : gmap Z Registration.t) : gmap Z Registration.t :=
  match lasts !! serial with Some _ => lasts | None => <[serial := r]> lasts end.

Definition retire (serial : Z) (entry : RBinding.t) (self : t) : t :=
  self <| bindings := delete serial self.(bindings) |>
       <| lasts := set_once serial (RBinding.registration entry) self.(lasts) |>
       <| by_session := delete entry.(RBinding.session) self.(by_session) |>
       <| requests := self.(requests) ∖ {[entry.(RBinding.request)]} |>
       <| active := saturating_sub_u64 self.(active) 1 |>
       <| finished := self.(finished) ++ [(serial, RBinding.end_of entry)] |>.

Definition finished_entries (self : t) : list (Z * RBinding.t) :=
  keep (fun e => is_finished e.2) (entries self.(bindings)).

Definition retire_finished (self : t) : t * list string :=
  let over := finished_entries self in
  (fold_left (fun self e => retire e.1 e.2 self) over self, map (fun e => e.2.(RBinding.session)) over).

Definition pump (lane : Lane.t) (config : RemoteConfig.t) (self : t) : t * Carrier.t :=
  let '(self, sent) := if self.(lost) then (self, []) else work lane config self in
  let '(self, over) := retire_finished self in
  (self, Carrier.mk sent over).
End state.
End RState.
