(* ===== verification/RemoteMux.v ===== *)
(** * The initiator's side of a multiplexer

    What the core end of a carrier relies on: the messages an initiator's
    multiplexer hands out are of its own session and never ask for an identity
    check, and a closed one hands out nothing. *)
From S2P Require Import Prelude Utf8 Cbor CborFacts Protocol ProtocolFacts Budget Admission Policy Validate Codec CodecFacts Binding BindingFacts Mux MuxFacts MuxSteps MuxRun.
Import Mux.

Definition ours (s : string) (item : Attachment) : Prop :=
  item.2.(Envelope.session_id) = s /\ item.2.(Envelope.kind) <> MessageKind.CheckIdentity.
Definition all_ours (s : string) (q : Queue.t) : Prop := Forall (fun e => ours s e.(Queued.attachment)) q.(Queue.items).

Record initiates (s : string) (self : Mux.t) : Prop := {
  in_session : self.(session) = s;
  in_endpoint : self.(endpoint) = None;
  in_ours : all_ours s self.(outbound);
  in_closed : self.(phase) = Phase.Closed ->
    self.(outbound) = Queue.default /\ self.(actions) = Queue.default /\ self.(routes) = ∅;
}.

Lemma all_ours_push s item c control q : all_ours s q -> ours s item -> all_ours s (Queue.push item c control q).
Proof. unfold all_ours, Queue.push. intros Hq Hi. destruct control; cbn; apply Forall_app; (split; [done|]); by apply Forall_singleton. Qed.

Lemma all_ours_pop s q : all_ours s q ->
  all_ours s (Queue.pop q).2 /\ forall item, (Queue.pop q).1 = Some item -> ours s item.
Proof.
  unfold all_ours, Queue.pop. intros Hq. destruct (Queue.items q) as [|e rest] eqn:Hi; [by cbn; rewrite Hi|].
  apply list.Forall_cons in Hq as [He Hr]. destruct (Queued.control e); (split; [done|]); by intros item [= <-].
Qed.

Lemma initiates_disconnect s self : initiates s self -> initiates s (disconnect self).
Proof. intros [H1 H2 _ _]. constructor; try done. apply Forall_nil_2. Qed.

Section initiator.
Context {L : Layout}.
Variable unstable_sequenced : bool.

(** A queued message keeps the machine open. *)
Lemma initiates_enqueue s item outgoing self r self' :
  enqueue item outgoing self = (r, self') -> initiates s self -> self.(phase) <> Phase.Closed ->
  (outgoing = true -> ours s item) -> initiates s self' /\ self'.(phase) = self.(phase).
Proof.
  intros He [H1 H2 H3 H4] Hp Hi. apply mux_enqueue_spec in He. destruct r as [[]|e]; [|destruct He as [-> _]; done].
  destruct He as (c & _ & _ & _ & _ & ->). destruct outgoing; split; try done; constructor; try done; cbn.
  apply all_ours_push; [done | by apply Hi].
Qed.

Lemma live_open self : live self = Ok tt -> self.(phase) <> Phase.Closed.
Proof. unfold live. case_bool_decide; done. Qed.

Lemma initiates_register s request operation self : initiates s self -> initiates s (register request operation self).2.
Proof.
  intros H. unfold register. destruct (live self) as [[]|] eqn:El; [|done]. apply live_open in El.
  case_bool_decide; [done|]. destruct (_ || _); [done|]. destruct (_ =? _); [done|].
  destruct H as [H1 H2 H3 H4]. by constructor.
Qed.

Lemma live_request_open request self : live_request request self = Ok tt -> self.(phase) <> Phase.Closed.
Proof. unfold live_request. destruct (live self) as [[]|] eqn:E; [|done]. intros _. by apply live_open. Qed.

Lemma initiates_begin s request self : initiates s self -> initiates s (begin request self).2.
Proof.
  intros H. unfold begin. destruct (live_request request self) as [[]|] eqn:El; [|done].
  apply live_request_open in El. destruct (is_some _); [done|]. destruct (phase self) eqn:Hph; try done.
  destruct (enqueue _ true self) as [r self1] eqn:Hq.
  apply (initiates_enqueue s) in Hq as [Hi Hp]; [|done|congruence|].
  2:{ intros _. destruct H as [<- _ _ _]. split; [|done]. unfold session_offer. by destruct (Envelope.bind _). }
  destruct r as [[]|]; [|done]. destruct Hi as [I1 I2 I3 I4]. by constructor.
Qed.

Lemma message_ours id kind self m : message id kind self = Ok m ->
  m.(Envelope.session_id) = self.(session) /\ m.(Envelope.kind) = kind /\ self.(phase) <> Phase.Closed.
Proof.
  unfold message. destruct (live self) as [[]|] eqn:E; [|done]. apply live_open in E.
  destruct (negb _); [done|]. by intros [= <-].
Qed.

Lemma initiates_open s request o self : initiates s self -> initiates s (open request o self).2.
Proof.
  intros H. unfold open. destruct (live_request request self) as [[]|] eqn:El; [|done].
  apply live_request_open in El. destruct (negb _); [done|]. unfold start.
  destruct (_ || _); [done|]. destruct (_ <=? _); [done|].
  destruct (checked_add_i64 _ 1) as [id|]; [|done]. cbn [ok_or].
  destruct (message id MessageKind.Open self) as [m|] eqn:Em; [|done]. apply message_ours in Em as (Es & Ek & _).
  destruct (validate_open _ self); [|done]. destruct (enqueue _ true self) as [r self1] eqn:Hq.
  apply (initiates_enqueue s) in Hq as [Hi Hp]; [|done|done|].
  2:{ intros _. split; cbn; [by rewrite Es; apply H | by rewrite Ek]. }
  destruct r as [[]|]; [|done]. destruct Hi as [I1 I2 I3 I4]. constructor; try done. cbn. intros Hc. congruence.
Qed.

Lemma initiates_transition s m self : initiates s self -> initiates s (transition m self).
Proof.
  intros [H1 H2 H3 H4]. unfold transition.
  destruct (Envelope.kind m); constructor; try done; cbn; intros Hc; destruct (H4 Hc) as (-> & -> & ->); split_and!; try done;
    by rewrite ?alter_empty, ?delete_empty.
Qed.

Lemma initiates_send s request m self : initiates s self -> initiates s (send request m self).2.
Proof.
  intros H. unfold send. destruct (live self) as [[]|] eqn:El; [|done]. apply live_open in El.
  destruct (routes self !! _) as [route|]; [|done]. cbn [ok_or]. destruct (_ || _) eqn:Eg; [done|].
  rewrite !orb_false_iff, !negb_false_iff, !bool_decide_eq_true in Eg. destruct Eg as [[_ Es] _].
  destruct (validate_transition _ _ _ _) as [[]|] eqn:Ev; [|done].
  destruct (validate_opened _ _) as [[]|]; [|done]. destruct (binding self); [|done]. cbn [ok_or].
  destruct (Codec.admit_limited _ _) as [[]|]; [|done]. cbn [map_err].
  destruct (enqueue _ true self) as [r self1] eqn:Hq.
  apply (initiates_enqueue s) in Hq as [Hi Hp]; [|done|done|].
  2:{ intros _. split; cbn; [rewrite Es; by apply H|]. apply transition_opening in Ev. intros Hk. by rewrite Hk in Ev. }
  destruct r as [[]|]; [|done]. by apply initiates_transition.
Qed.

Lemma initiates_receive s item self : initiates s self -> initiates s (receive unstable_sequenced item self).2.
Proof.
  intros H. unfold receive. destruct (live self) as [[]|] eqn:El; [|done]. apply live_open in El.
  destruct (negb _); [done|].
  enough (Hin : initiates s (receive_in unstable_sequenced item self).2).
  { destruct (receive_in unstable_sequenced item self) as [[[]|e] self1]; [done|]. cbn [snd] in *.
    destruct e; try done; by apply initiates_disconnect. }
  unfold receive_in. destruct item as [request m]. destruct (negb _); [done|].
  destruct (Codec.admit_limited _ _) as [[]|]; [|done]. cbn [map_err].
  destruct (_ =? 0).
  - unfold bootstrap. destruct (_ && _); [done|]. destruct (live_request _ _) as [[]|]; [|done]. cbn [map_err].
    rewrite (in_endpoint _ _ H). unfold bootstrap_initiator. destruct (_ && _); [done|]. destruct (negb _); [done|].
    destruct (offer self) as [o|]; [|done]. cbn [ok_or]. destruct (negb _); [done|]. case_bool_decide.
    + destruct (Envelope.bind_rejected m); [|done]. cbn [ok_or]. destruct (Validate.bind_rejection _) as [[]|]; [|done].
      cbn [map_err snd]. apply initiates_disconnect. destruct H as [H1 H2 H3 H4]. by constructor.
    + destruct (verify _ _ _) as [b|]; [|done]. cbn [map_err]. destruct (is_none_or _ _); [done|].
      destruct H as [H1 H2 H3 H4]. by constructor.
  - destruct (_ || _); [done|].
    assert (Hopen : initiates s (receive_open (request, m) self).2).
    { unfold receive_open. by rewrite (in_endpoint _ _ H). }
    assert (Hrest : initiates s
      (match self.(routes) !! m.(Envelope.stream_id) with
       | None => if m.(Envelope.stream_id) <=? self.(highest_id) then (Ok tt, self) else (Err MuxError.Protocol, self)
       | Some route =>
           if negb (bool_decide (route.(Route.request) = request)) then (Err MuxError.Protocol, self)
           else
             try _ := validate_transition route.(Route.kind) m.(Envelope.kind) false self at self in
             try _ := validate_opened m self at self in
             call _, self := enqueue (request, m) false self in
             (Ok tt, transition m self)
       end).2).
    { destruct (routes self !! _) as [route|]; [|by destruct (_ <=? _)]. destruct (negb _); [done|].
      destruct (validate_transition _ _ _ _) as [[]|]; [|done]. destruct (validate_opened _ _) as [[]|]; [|done].
      destruct (enqueue _ false self) as [r self1] eqn:Hq.
      apply (initiates_enqueue s) in Hq as [Hi Hp]; [|done|done|done].
      destruct r as [[]|]; [|done]. by apply initiates_transition. }
    destruct (Envelope.kind m); done.
Qed.

Lemma initiates_expire s ids self : initiates s self -> initiates s (expire ids self).
Proof.
  revert self. induction ids as [|id ids IH]; intros self H; [done|]. cbn [expire].
  destruct (routes self !! id) as [route|] eqn:Er; [|done].
  destruct (message id MessageKind.Failed self) as [m|] eqn:Em; [|done]. apply message_ours in Em as (Es & Ek & Ep).
  rewrite (in_endpoint _ _ H). cbn [is_some negb].
  destruct (enqueue _ false self) as [r self1] eqn:Hq1.
  apply (initiates_enqueue s) in Hq1 as [Hi1 Hp1]; [|done|done|done].
  destruct r as [[]|]; [|by apply initiates_disconnect].
  destruct (enqueue _ true self1) as [r self2] eqn:Hq2.
  apply (initiates_enqueue s) in Hq2 as [Hi2 Hp2]; [|done|congruence|].
  2:{ intros _. split; cbn; [rewrite Es; by apply H | done]. }
  destruct r as [[]|]; [|by apply initiates_disconnect]. apply IH. destruct Hi2 as [I1 I2 I3 I4].
  constructor; try done. cbn. congruence.
Qed.

Lemma initiates_advance s now' self : initiates s self -> initiates s (advance now' self).
Proof.
  intros H. unfold advance.
  assert (Hn : initiates s (self <| now := Z.max self.(now) now' |>)) by (destruct H as [H1 H2 H3 H4]; by constructor).
  destruct (existsb _ _); [by apply initiates_disconnect|].
  destruct (is_some_and _ _); [by apply initiates_disconnect|]. by apply initiates_expire.
Qed.

Lemma initiates_next_action s self : initiates s self -> initiates s (next_action self).2.
Proof.
  intros [H1 H2 H3 H4]. unfold next_action. destruct (Queue.pop (actions self)) as [item q] eqn:Eq.
  constructor; try done. cbn. intros Hc. destruct (H4 Hc) as (-> & Ea & ->). rewrite Ea in Eq. by injection Eq as <- <-.
Qed.

Lemma initiates_pop s self : initiates s self ->
  initiates s (pop_outbound self).2 /\ forall item, (pop_outbound self).1 = Some item -> ours s item.
Proof.
  intros [H1 H2 H3 H4]. unfold pop_outbound. pose proof (all_ours_pop s _ H3) as [Hq Hi].
  destruct (Queue.pop (outbound self)) as [item q] eqn:Eq. split; [|done]. constructor; try done.
  cbn. intros Hc. destruct (H4 Hc) as (Ea & -> & ->). rewrite Ea in Eq. by injection Eq as <- <-.
Qed.

Lemma initiates_next_message s self : initiates s self ->
  initiates s (next_message self).2 /\ forall item, (next_message self).1 = Some item -> ours s item.
Proof.
  intros H. pose proof (initiates_pop s self H) as [Hp Hi]. unfold next_message. case_bool_decide.
  { destruct (pop_outbound self). split; [by apply initiates_disconnect | done]. }
  destruct (is_some_and _ _); [done|]. destruct (pending_cancel self) as [[id route]|]; [|done].
  destruct (Route.cancel route) as [reason|]; [|done].
  destruct (message id MessageKind.Cancel self) as [m|] eqn:Em; [|done]. apply message_ours in Em as (Es & Ek & Ep).
  rewrite (in_endpoint _ _ H). cbn [is_none is_some negb fst snd]. split.
  - destruct H as [H1 H2 H3 H4]. constructor; try done.
  - intros item [= <-]. split; cbn; [rewrite Es; by apply H | by rewrite Ek].
Qed.

(** A closed multiplexer hands out nothing. *)
Lemma closed_next_message s self : initiates s self -> self.(phase) = Phase.Closed -> (next_message self).1 = None.
Proof.
  intros H Hc. destruct (in_closed _ _ H Hc) as (Ho & Ha & Hr). unfold next_message.
  rewrite bool_decide_eq_false_2 by congruence. rewrite Ho. cbn [hd_error Queue.items Queue.default is_some_and].
  unfold pending_cancel. rewrite Hr, entries_empty. unfold pop_outbound. by rewrite Ho.
Qed.
End initiator.
