(* ===== verification/RemoteFacts.v ===== *)
(** * Facts about one remote binding

    The invariant [bok] of a binding, kept by every operation on it: its
    multiplexer is an initiator of its own session, an exchange that is not over is
    found under its stream, and an exchange whose [Open] has been handed out knows
    it.  [grows] is what no operation undoes: a decided registration, a fault. *)
From S2P Require Import Prelude Utf8 Cbor CborFacts Protocol ProtocolFacts Budget Admission Policy Validate Codec CodecFacts Binding BindingFacts IoClock Stream Mux MuxFacts MuxSteps MuxRun RemoteMux PoolTypes Operation RemoteTable RemoteCore.
Import RBinding.

(** ** What is never undone *)

Record grows (a b : RBinding.t) : Prop := {
  gr_id : b.(id) = a.(id);
  gr_session : b.(session) = a.(session);
  gr_request : b.(request) = a.(request);
  gr_reg : a.(reg) <> Reg.Pending -> b.(reg) = a.(reg);
  gr_faulted : a.(faulted) = true -> b.(faulted) = true;
}.

#[global] Instance grows_preorder : PreOrder grows.
Proof.
  split; [intros a; by constructor|]. intros a b c [A1 A2 A3 A4 A5] [B1 B2 B3 B4 B5].
  constructor; [congruence | congruence | congruence | | auto].
  intros Ha. rewrite B4; [by apply A4|]. by rewrite A4.
Qed.

(** ** The invariant *)

(** An exchange that is over and had a stream knows how it ended. *)
Definition over_told (e : Exch.t) : Prop :=
  e.(Exch.stage) = Stage.Ended -> is_Some e.(Exch.machine) -> is_Some e.(Exch.end_).

Ltac over_told :=
  unfold over_told; cbn; intros Hover Hstage Hmachine; try done; try congruence; try (by apply Hover);
  try (by eexists); try (by destruct Hmachine).

Record bok (done : list Z) (b : RBinding.t) : Prop := {
  bk_init : initiates b.(session) b.(mux);
  bk_order : in_order done b.(mux);
  bk_streams : forall token e s, b.(exchanges) !! token = Some e -> e.(Exch.stream) = Some s ->
    e.(Exch.stage) <> Stage.Ended -> b.(by_stream) !! s = Some token;
  bk_by : forall token e s, b.(exchanges) !! token = Some e -> b.(by_stream) !! s = Some token ->
    e.(Exch.stream) = Some s /\ (s ∈ done -> e.(Exch.open_sent) = true);
  bk_known : forall token e s, b.(exchanges) !! token = Some e -> e.(Exch.stream) = Some s ->
    s <= b.(mux).(Mux.highest_id);
  bk_spec : forall token e, b.(exchanges) !! token = Some e -> is_Some e.(Exch.spec) -> e.(Exch.stream) = None;
  bk_fault : b.(faulted) = true -> b.(mux).(Mux.phase) = Phase.Closed /\ b.(by_stream) = ∅
    /\ forall token e, b.(exchanges) !! token = Some e -> e.(Exch.stage) = Stage.Ended;
  bk_token : (forall token e, b.(exchanges) !! token = Some e -> token < b.(next_token))
    /\ (forall s token, b.(by_stream) !! s = Some token -> token < b.(next_token));
  (** A caller told that the carrier was lost without effect is told the truth. *)
  bk_told : forall token e effect, b.(exchanges) !! token = Some e ->
    e.(Exch.outcome) = Some (Err (OpenFailure.CarrierLost effect)) ->
    b.(faulted) = true
    /\ (e.(Exch.service) = Service.ReceivePackExchange -> effect = Effect.None ->
        forall s, e.(Exch.stream) = Some s -> s ∉ done);
  bk_over : forall token e, b.(exchanges) !! token = Some e -> over_told e;
}.

(** A change of one exchange that keeps its stream and forgets nothing. *)
Record exch_le (e e' : Exch.t) : Prop := {
  le_stream : e'.(Exch.stream) = e.(Exch.stream);
  le_ended : e.(Exch.stage) = Stage.Ended -> e'.(Exch.stage) = Stage.Ended;
  le_sent : e.(Exch.open_sent) = true -> e'.(Exch.open_sent) = true;
  le_spec : is_Some e'.(Exch.spec) -> is_Some e.(Exch.spec);
  le_service : e'.(Exch.service) = e.(Exch.service);
  le_told : forall effect, e'.(Exch.outcome) = Some (Err (OpenFailure.CarrierLost effect)) ->
    e.(Exch.outcome) = Some (Err (OpenFailure.CarrierLost effect));
  le_over : over_told e -> over_told e';
}.
#[global] Instance exch_le_refl : Reflexive exch_le.
Proof. intros e. by constructor. Qed.

Lemma change_highest a b : change a b -> a.(Mux.highest_id) <= b.(Mux.highest_id).
Proof. intros []; cbn; lia. Qed.

Lemma changes_highest a b : changes a b -> a.(Mux.highest_id) <= b.(Mux.highest_id).
Proof. induction 1 as [|a b c Hab _ IH]; [lia|]. apply change_highest in Hab. lia. Qed.

Lemma in_order_below done m s : in_order done m -> s ∈ done -> s <= m.(Mux.highest_id).
Proof.
  intros (_ & H & _) Hs. rewrite list.Forall_forall in H. apply H. apply elem_of_app. by left.
Qed.

(** Every exchange changed by a function that keeps its stream. *)
Lemma bok_exchanges done b (f : Z -> Exch.t -> Exch.t) m :
  (forall token, m !! token = f token <$> b.(exchanges) !! token \/ m !! token = None) ->
  (forall token e, b.(exchanges) !! token = Some e -> exch_le e (f token e)) ->
  bok done b -> bok done (b <| exchanges := m |>).
Proof.
  intros Hm Hf [I O S B K P F T Q V].
  assert (Hget : forall token e', m !! token = Some e' ->
    exists e, b.(exchanges) !! token = Some e /\ exch_le e e').
  { intros token e' He'. destruct (Hm token) as [E|E]; rewrite He' in E; [|done].
    symmetry in E. apply fmap_Some in E as (e & He & ->). exists e. split; [done | by apply Hf]. }
  constructor; cbn; try done.
  - intros token e' s He' Hs Hst. apply Hget in He' as (e & He & [L1 L2 L3 L4 L5 L6 L7]). rewrite L1 in Hs.
    apply (S token e s); try done. intros Hend. by apply Hst, L2.
  - intros token e' s He' Hs. apply Hget in He' as (e & He & [L1 L2 L3 L4 L5 L6 L7]). rewrite L1.
    destruct (B token e s He Hs) as [B1 B2]. split; [done|]. intros Hd. by apply L3, B2.
  - intros token e' s He' Hs. apply Hget in He' as (e & He & [L1 L2 L3 L4 L5 L6 L7]). rewrite L1 in Hs. by eapply K.
  - intros token e' He' Hs. apply Hget in He' as (e & He & [L1 L2 L3 L4 L5 L6 L7]). rewrite L1. eapply P; [done | by apply L4].
  - intros Hfl. destruct (F Hfl) as (F1 & F2 & F3). split_and!; try done.
    intros token e' He'. apply Hget in He' as (e & He & [L1 L2 L3 L4 L5 L6 L7]). apply L2. by eapply F3.
  - destruct T as [T1 T2]. split; [|done]. intros token e' He'. apply Hget in He' as (e & He & _). by eapply T1.
  - intros token e' effect He' Ho. apply Hget in He' as (e & He & [L1 L2 L3 L4 L5 L6 L7]). rewrite L1, L5.
    eapply Q; [exact He | by apply L6].
  - intros token e' He'. apply Hget in He' as (e & He & [L1 L2 L3 L4 L5 L6 L7]). by eapply L7, V.
Qed.

Lemma bok_insert done b token e e' : b.(exchanges) !! token = Some e -> exch_le e e' -> bok done b ->
  bok done (b <| exchanges := <[token := e']> b.(exchanges) |>).
Proof.
  intros He Hle. apply (bok_exchanges done b (fun t x => if decide (t = token) then e' else x)).
  - intros t. left. destruct (decide (t = token)) as [->|Hne].
    + by rewrite lookup_insert_eq, He.
    + rewrite lookup_insert_ne by done. by destruct (b.(exchanges) !! t).
  - intros t x Hx. case_decide; [|done]. subst. by simplify_eq.
Qed.

Lemma bok_alter done b token f : (forall e, exch_le e (f e)) -> bok done b ->
  bok done (b <| exchanges := alter f token b.(exchanges) |>).
Proof.
  intros Hf. apply (bok_exchanges done b (fun t x => if decide (t = token) then f x else x)).
  - intros t. left. destruct (decide (t = token)) as [->|Hne].
    + by rewrite lookup_alter_eq.
    + rewrite lookup_alter_ne by done. by destruct (b.(exchanges) !! t).
  - intros t x Hx. case_decide; [apply Hf | done].
Qed.

Lemma bok_fmap done b f : (forall e, exch_le e (f e)) -> bok done b ->
  bok done (b <| exchanges := f <$> b.(exchanges) |>).
Proof.
  intros Hf. apply (bok_exchanges done b (fun _ => f)); [|auto]. intros t. left. by rewrite lookup_fmap.
Qed.

(** A change of the multiplexer by its own calls. *)
Lemma bok_mux done b m : initiates b.(session) m -> changes b.(mux) m ->
  (b.(faulted) = true -> m.(Mux.phase) = Phase.Closed) -> bok done b -> bok done (b <| mux := m |>).
Proof.
  intros Hi Hc Hp [I O S B K P F T Q V]. constructor; cbn; try done.
  - by eapply in_order_changes.
  - intros token e s He Hs. apply changes_highest in Hc. specialize (K token e s He Hs). lia.
  - intros Hf. destruct (F Hf) as (_ & F2 & F3). split_and!; try done. by apply Hp.
Qed.

Lemma bok_fields done b r sl ca op lv rv pu : bok done b ->
  bok done (b <| reg := r |> <| sealed := sl |> <| cancelled := ca |> <| opened := op |> <| live := lv |>
              <| revoked := rv |> <| purged := pu |>).
Proof. intros [I O S B K P F T Q V]. by constructor. Qed.

Section binding_facts.
Context {L : Layout}.
Variable unstable_sequenced : bool.

(** What a binding's end leaves of an exchange. *)
Record aborted (e e' : Exch.t) : Prop := {
  ab_stream : e'.(Exch.stream) = e.(Exch.stream);
  ab_stage : e'.(Exch.stage) = Stage.Ended;
  ab_spec : is_Some e'.(Exch.spec) -> is_Some e.(Exch.spec);
  ab_service : e'.(Exch.service) = e.(Exch.service);
  ab_told : forall effect, e'.(Exch.outcome) = Some (Err (OpenFailure.CarrierLost effect)) ->
    e.(Exch.outcome) = Some (Err (OpenFailure.CarrierLost effect))
    \/ (e.(Exch.stage) <> Stage.Ended
        /\ (e.(Exch.service) = Service.ReceivePackExchange -> effect = Effect.None -> e.(Exch.open_sent) = false));
  ab_over : over_told e -> over_told e';
}.
Lemma abort_exch_aborted code lost e : aborted e (abort_exch code lost e).
Proof.
  unfold abort_exch. case_bool_decide as He; [constructor; auto|].
  assert (Hnew : forall effect, Exch.effect_on_loss e = effect -> e.(Exch.service) = Service.ReceivePackExchange ->
    effect = Effect.None -> e.(Exch.open_sent) = false).
  { intros effect <-. unfold Exch.effect_on_loss. intros ->. rewrite bool_decide_eq_true_2 by done. by destruct (Exch.open_sent e). }
  assert (Hov : forall x y, y.(Exch.end_) = Some x -> over_told e -> over_told y).
  { intros x y Hy _ _ _. by rewrite Hy. }
  destruct (_ || _); constructor; cbn; try done; try (by intros []); try (by eapply Hov); [|by left].
  intros effect. destruct lost; [intros [= E]; right; split; [done | by apply Hnew]|]. by destruct (bool_decide _).
Qed.

Lemma bok_abort done b code lost : bok done b -> bok done (abort_all code lost b).
Proof.
  intros [I O S B K P F T Q V].
  assert (Hx : exists r, abort_all code lost b = (b <| exchanges := abort_exch code lost <$> b.(exchanges) |>)
     <| faulted := true |> <| reg := r |> <| by_stream := ∅ |> <| mux := Mux.disconnect b.(mux) |>).
  { unfold abort_all. destruct (bool_decide _); eexists; destruct b; reflexivity. }
  destruct Hx as (r & ->).
  assert (Hget : forall token e', (abort_exch code lost <$> b.(exchanges)) !! token = Some e' ->
    exists e, b.(exchanges) !! token = Some e /\ aborted e e').
  { intros token e'. rewrite lookup_fmap. intros (x & Hx & ->)%fmap_Some. exists x. split; [done | apply abort_exch_aborted]. }
  constructor; cbn in *; try done.
  - by apply initiates_disconnect.
  - eapply in_order_changes; [exact O|]. apply changes_disconnect.
  - intros token e s (x & Hx & [A1 A2 A3 A4 A5 A6])%Hget Hs Hst. done.
  - intros token e s (x & Hx & [A1 A2 A3 A4 A5 A6])%Hget Hs. rewrite A1 in Hs. by eapply K.
  - intros token e (x & Hx & [A1 A2 A3 A4 A5 A6])%Hget Hs. rewrite A1. eapply P; [exact Hx | by apply A3].
  - intros _. split_and!; try done. intros token e (x & Hx & [A1 A2 A3 A4 A5 A6])%Hget. done.
  - split; [intros token e (x & Hx & _)%Hget; by eapply (proj1 T)|]. intros s token Hs. by rewrite lookup_empty in Hs.
  - intros token e effect (x & Hx & [A1 A2 A3 A4 A5 A6])%Hget Ho. split; [done|]. rewrite A1, A4. intros Hsv -> s Hs Hd.
    destruct (A5 _ Ho) as [Ho'|[Hst Hsent]]; [by destruct (Q _ _ _ Hx Ho') as [_ Q2]; eapply Q2|].
    destruct (B token x s Hx (S token x s Hx Hs Hst)) as [_ B2]. rewrite (Hsent Hsv eq_refl) in B2. by specialize (B2 Hd).
  - intros token e (x & Hx & [A1 A2 A3 A4 A5 A6])%Hget. by eapply A6, V.
Qed.

Lemma grows_abort b code lost : grows b (abort_all code lost b).
Proof.
  unfold abort_all. destruct (bool_decide_reflect (reg (b <| faulted := true |>) = Reg.Pending)); constructor; cbn in *; try done.
Qed.

Lemma bok_revoke done b : bok done b -> bok done (revoke b).
Proof.
  intros H. unfold revoke. apply bok_abort. destruct (bool_decide _); [|done].
  destruct H as [I O S B K P F T Q V]. by constructor.
Qed.
Lemma grows_revoke b : grows b (revoke b).
Proof.
  unfold revoke. etransitivity; [|apply grows_abort]. destruct (bool_decide _); [|done]. by constructor.
Qed.

Lemma bok_receive done b m : bok done b -> bok done (receive unstable_sequenced m b).
Proof.
  intros H. unfold receive. destruct (_ || _) eqn:Eg; [done|]. apply orb_false_iff in Eg as [Ef _].
  destruct (negb _); [by apply bok_abort|].
  pose proof (initiates_receive unstable_sequenced _ m _ (bk_init _ _ H)) as Hi.
  pose proof (changes_receive unstable_sequenced m b.(mux)) as Hc.
  destruct (Mux.receive unstable_sequenced m b.(mux)) as [[[]|e] m']; cbn [snd] in *; [|apply bok_abort];
    apply bok_mux; try done; by rewrite Ef.
Qed.
Lemma grows_receive b m : grows b (receive unstable_sequenced m b).
Proof.
  unfold receive. destruct (_ || _); [done|]. destruct (negb _); [apply grows_abort|].
  destruct (Mux.receive _ _ _) as [[[]|e] m']; [by constructor|]. etransitivity; [|apply grows_abort]. by constructor.
Qed.

Lemma bok_cancel_all done b : bok done b -> bok done (cancel_all b).2.
Proof.
  intros H. unfold cancel_all. destruct (cancelled b); [done|].
  assert (H1 : bok done (b <| cancelled := true |>)) by (destruct H as [I O S B K P F T Q V]; by constructor).
  case_bool_decide; cbn [snd].
  - apply bok_abort. destruct H1 as [I O S B K P F T Q V]. by constructor.
  - apply bok_fmap; [|done]. intros e. unfold cancel_exch.
    destruct (Exch.stage e) eqn:E; constructor; cbn; try done; try congruence; try (by intros []); over_told.
Qed.
Lemma grows_cancel_all b : grows b (cancel_all b).2.
Proof.
  unfold cancel_all. destruct (cancelled b); [done|]. case_bool_decide as E; cbn [snd] in *; [|by constructor].
  etransitivity; [|apply grows_abort]. constructor; cbn in *; try done.
Qed.

Lemma bok_queue_exchange done b spec : bok done b -> b.(next_token) < U64_MAX -> 0 <= b.(next_token) ->
  bok done (queue_exchange spec b).2.
Proof.
  intros [I O S B K P F T Q V] Hlt H0. unfold queue_exchange. cbn [snd].
  set (exch := if faulted _ then _ else _).
  assert (Hx : exch.(Exch.stream) = None /\ (b.(faulted) = true -> exch.(Exch.stage) = Stage.Ended)
    /\ (forall effect, exch.(Exch.outcome) = Some (Err (OpenFailure.CarrierLost effect)) -> b.(faulted) = true)
    /\ over_told exch).
  { subst exch. unfold over_told. cbn. by destruct (faulted b). }
  clearbody exch. destruct Hx as (Hx & Hxf & Hxl & Hxo). destruct T as [T1 T2].
  assert (Hnt : wrapping_add_u64 b.(next_token) 1 = b.(next_token) + 1).
  { unfold wrapping_add_u64. apply as_u64_id. lia. }
  assert (Hget : forall token e, <[b.(next_token) := exch]> b.(exchanges) !! token = Some e ->
    (token = b.(next_token) /\ e = exch) \/ (token <> b.(next_token) /\ b.(exchanges) !! token = Some e)).
  { intros token e. rewrite lookup_insert_Some. intros [[<- <-]|[? ?]]; [by left | right; split; [congruence | done]]. }
  constructor; cbn in *; rewrite ?Hnt; try done.
  - intros token e s [[-> ->]|[? He]]%Hget Hs; [congruence|]. by apply S.
  - intros token e s [[-> ->]|[? He]]%Hget Hs; [|by apply (B token e s)]. apply T2 in Hs. lia.
  - intros token e s [[-> ->]|[? He]]%Hget Hs; [congruence|]. by eapply K.
  - intros token e [[-> ->]|[? He]]%Hget Hs; [done|]. by eapply P.
  - intros Hf. destruct (F Hf) as (F1 & F2 & F3). split_and!; try done.
    intros token e [[-> ->]|[? He]]%Hget; [by apply Hxf | by eapply F3].
  - split.
    + intros token e [[-> ->]|[? He]]%Hget; [lia|]. apply T1 in He. lia.
    + intros s token Hs. apply T2 in Hs. lia.
  - intros token e effect [[-> ->]|[? He]]%Hget Ho; [|by apply (Q token e)].
    split; [by apply Hxl in Ho | congruence].
  - intros token e [[-> ->]|[? He]]%Hget; [done | by apply (V token)].
Qed.
Lemma grows_queue_exchange b spec : grows b (queue_exchange spec b).2.
Proof. by constructor. Qed.

(** ** What a turn hands out *)

(** Messages [new] handed out by a binding, whose openings [done] then knows. *)
Definition handed (b : RBinding.t) (done : list Z) (new : list Attachment) (done' : list Z) : Prop :=
  Forall (ours b.(session)) new /\ (forall s, s ∈ done -> s ∈ done')
  /\ forall m, m ∈ new -> m.2.(Envelope.kind) = MessageKind.Open -> m.2.(Envelope.stream_id) ∈ done'.

Lemma handed_nil b done : handed b done [] done.
Proof. split_and!; [constructor | done |]. intros m Hm. by apply elem_of_nil in Hm. Qed.

Lemma handed_app b b' done new done' new' done'' : b'.(session) = b.(session) ->
  handed b done new done' -> handed b' done' new' done'' -> handed b done (new ++ new') done''.
Proof.
  intros Es (H1 & H2 & H3) (K1 & K2 & K3). rewrite Es in K1. split_and!.
  - by apply Forall_app.
  - auto.
  - intros m [Hm|Hm]%elem_of_app Hk; auto.
Qed.

Lemma bok_next_message done b item mux' : bok done b -> Mux.next_message b.(mux) = (item, mux') ->
  let b1 := b <| mux := mux' |> in
  match item with
  | None => bok done b1
  | Some m =>
      ours b.(session) m
      /\ (b.(faulted) = true -> False)
      /\ bok (done ++ opened_by m)
          (if bool_decide (m.2.(Envelope.kind) = MessageKind.Open)
           then match b1.(by_stream) !! m.2.(Envelope.stream_id) with
                | Some token => b1 <| exchanges := alter (fun e => e <| Exch.open_sent := true |>) token b1.(exchanges) |>
                | None => b1
                end
           else b1)
  end.
Proof.
  intros H E. pose proof (bk_init _ _ H) as Hi. pose proof (initiates_next_message _ _ Hi) as [Hi' Ho].
  pose proof (changes_next_message b.(mux)) as Hc. pose proof (in_order_message done _ (bk_order _ _ H)) as Ho'.
  pose proof (changes_highest _ _ Hc) as Hh. pose proof (closed_next_message _ _ Hi) as Hcl.
  rewrite E in Hi', Ho, Hc, Ho', Hh, Hcl. cbn [fst snd] in *.
  assert (Hflt : b.(faulted) = true -> item = None /\ mux'.(Mux.phase) = Phase.Closed).
  { intros Hf. destruct (bk_fault _ _ H Hf) as (Hp & _). split; [by apply Hcl|].
    assert (Hcp : forall x y, change x y -> x.(Mux.phase) = Phase.Closed -> y.(Mux.phase) = Phase.Closed).
    { intros x y [] Hx; cbn; auto. by destruct (is_endpoint x). }
    eapply (changes_keep (fun x => x.(Mux.phase) = Phase.Closed)); [|exact Hc|exact Hp]. intros x y Hx Hxy. by eapply Hcp. }
  destruct item as [m|].
  2:{ apply bok_mux; try done. intros Hf. by destruct (Hflt Hf). }
  split; [by apply Ho|]. split; [intros Hf; by destruct (Hflt Hf)|].
  destruct (Ho m eq_refl) as [Hs Hk]. destruct H as [I O S B K P F T Q V].
  assert (Hby : opened_by m = if bool_decide (m.2.(Envelope.kind) = MessageKind.Open) then [m.2.(Envelope.stream_id)] else []).
  { unfold opened_by, opening. case_bool_decide as Ek; [by rewrite Ek|]. by destruct (Envelope.kind m.2). }
  assert (Hbase :
     (forall token e s, b.(exchanges) !! token = Some e -> b.(by_stream) !! s = Some token ->
        s ∈ done ++ opened_by m -> e.(Exch.open_sent) = true) ->
     bok (done ++ opened_by m) (b <| mux := mux' |>)).
  { intros Hsent. constructor; cbn; try done.
    - intros token e s He Hb. destruct (B token e s He Hb) as [B1 B2]. split; [done|]. by eapply Hsent.
    - intros token e s He Hs'. specialize (K token e s He Hs'). lia.
    - intros Hf. by destruct (Hflt Hf).
    - intros token e effect He Hout. destruct (Q token e effect He Hout) as [Hf _]. by destruct (Hflt Hf). }
  case_bool_decide as Ek.
  - rewrite Hby. rewrite Hby in Ho', Hbase. cbn [by_stream over].
    change (by_stream (b <| mux := mux' |>)) with (by_stream b).
    change (exchanges (b <| mux := mux' |>)) with (exchanges b).
    destruct (b.(by_stream) !! Envelope.stream_id m.2) as [token|] eqn:Et.
    + constructor; cbn; try done.
      * intros t e s. rewrite lookup_alter_Some. intros [(-> & e0 & He0 & ->)|[? He]]; cbn; [by apply S | by apply S].
      * intros t e s. rewrite lookup_alter_Some. intros [(-> & e0 & He0 & ->)|[Hne He]] Hb; cbn.
        -- split; [by apply (B t e0 s) | done].
        -- destruct (B t e s He Hb) as [B1 B2]. split; [done|]. intros [Hd|Hd]%elem_of_app; [by apply B2|].
           apply list_elem_of_singleton in Hd as ->. congruence.
      * intros t e s. rewrite lookup_alter_Some. intros [(-> & e0 & He0 & ->)|[? He]] Hs'; cbn in *;
          specialize (K t _ s ltac:(eassumption) Hs'); lia.
      * intros t e. rewrite lookup_alter_Some. intros [(-> & e0 & He0 & ->)|[? He]]; cbn; intros Hsp; by eapply P.
      * intros Hf. by destruct (Hflt Hf).
      * destruct T as [T1 T2]. split; [|done]. intros t e. rewrite lookup_alter_Some.
        intros [(-> & e0 & He0 & ->)|[? He]]; by eapply T1.
      * intros t e effect. rewrite lookup_alter_Some. intros [(-> & e0 & He0 & ->)|[? He]] Hout; cbn in Hout;
          destruct (Q t _ effect ltac:(eassumption) Hout) as [Hf _]; by destruct (Hflt Hf).
      * intros t e. rewrite lookup_alter_Some. intros [(-> & e0 & He0 & ->)|[? He]]; [|by apply (V t)].
        apply (V t e0 He0).
    + apply Hbase. intros token e s He Hb [Hd|Hd]%elem_of_app; [by apply (B token e s)|].
      apply list_elem_of_singleton in Hd as ->. congruence.
  - apply Hbase. rewrite Hby, app_nil_r. intros token e s He Hb Hd. by apply (B token e s).
Qed.

Lemma bok_collect n b outbox done : bok done b ->
  exists new done', collect n b outbox = ((collect n b outbox).1, outbox ++ new)
    /\ (length new <= n)%nat /\ (b.(faulted) = true -> new = [])
    /\ handed b done new done' /\ bok done' (collect n b outbox).1 /\ grows b (collect n b outbox).1
    /\ (collect n b outbox).1.(faulted) = b.(faulted).
Proof.
  revert b outbox done. induction n as [|n IH]; intros b outbox done H; cbn [collect].
  - exists [], done. rewrite app_nil_r. split_and!; try done; apply handed_nil.
  - destruct (Mux.next_message b.(mux)) as [item mux'] eqn:E. pose proof (bok_next_message done b item mux' H E) as Hn.
    destruct item as [m|].
    + destruct Hn as (Ho & Hf & Hb). set (b2 := if bool_decide _ then _ else _) in *.
      assert (Hg : grows b b2).
      { subst b2. destruct (bool_decide _); [|by constructor]. destruct (by_stream _ !! _); by constructor. }
      assert (Hfb : b2.(faulted) = b.(faulted)).
      { subst b2. destruct (bool_decide _); [|done]. by destruct (by_stream _ !! _). }
      destruct (IH b2 (outbox ++ [m]) _ Hb) as (new & done' & E' & Hlen & Hfn & Hh & Hb' & Hg' & Hfe).
      exists (m :: new), done'. rewrite <- app_assoc in E'. split_and!; try done.
      * cbn; lia.
      * apply (handed_app b b2 done [m] (done ++ opened_by m)); [by apply Hg | | done].
        split_and!; [by apply Forall_singleton | intros s Hs; apply elem_of_app; by left |].
        intros m' ->%list_elem_of_singleton Hk. apply elem_of_app. right. unfold opened_by. rewrite Hk. cbn. left.
      * by transitivity b2.
      * by rewrite Hfe.
    + exists [], done. rewrite app_nil_r. split_and!; try done; try apply handed_nil; cbn; lia.
Qed.

(** ** Openings issued *)

Lemma mux_open_fresh request o m stream m' : Mux.open request o m = (Ok stream, m') ->
  m.(Mux.highest_id) < stream /\ m'.(Mux.highest_id) = stream.
Proof.
  unfold Mux.open. destruct (Mux.live_request request m) as [[]|]; [|done]. destruct (negb _); [done|].
  unfold Mux.start. destruct (_ || _); [done|]. destruct (_ <=? _); [done|].
  destruct (checked_add_i64 _ 1) as [i|] eqn:Ei; [|done]. cbn [ok_or]. apply checked_add_i64_Some in Ei as [-> _].
  destruct (Mux.message _ _ _) as [x|]; [|done]. destruct (Mux.validate_open _ _); [|done].
  destruct (Mux.enqueue _ _ _) as [[[]|] m1]; [|done]. intros [= <- <-]. cbn. lia.
Qed.

(** A stream for an exchange that had none. *)
Lemma bok_assign done b token e stream mux' :
  bok done b -> b.(exchanges) !! token = Some e -> e.(Exch.stream) = None -> e.(Exch.spec) = None ->
  b.(faulted) = false -> initiates b.(session) mux' -> changes b.(mux) mux' ->
  b.(mux).(Mux.highest_id) < stream -> mux'.(Mux.highest_id) = stream ->
  bok done (b <| mux := mux' |> <| by_stream := <[stream := token]> b.(by_stream) |>
    <| exchanges := alter (fun e => e <| Exch.stage := Stage.Opening |> <| Exch.stream := Some stream |>) token
         b.(exchanges) |>).
Proof.
  intros [I O S B K P F T Q V] He Hs Hsp Hf Hi Hc Hlt Hh. destruct T as [T1 T2].
  assert (Hget : forall t x, alter (fun e => e <| Exch.stage := Stage.Opening |> <| Exch.stream := Some stream |>) token
         b.(exchanges) !! t = Some x ->
    (t = token /\ x = e <| Exch.stage := Stage.Opening |> <| Exch.stream := Some stream |>)
    \/ (t <> token /\ b.(exchanges) !! t = Some x)).
  { intros t x. rewrite lookup_alter_Some. intros [(-> & e0 & He0 & ->)|[? ?]]; [left|by right; split; [congruence|]].
    by simplify_eq. }
  constructor; cbn; try done.
  - by eapply in_order_changes.
  - intros t x s [[-> ->]|[Hne Hx]]%Hget Hs' Hst; cbn in *; [by simplify_eq; rewrite lookup_insert_eq|].
    rewrite lookup_insert_ne; [by apply (S t x)|]. intros <-. specialize (K t x _ Hx Hs'). lia.
  - intros t x s [[-> ->]|[Hne Hx]]%Hget Hb; cbn.
    + apply lookup_insert_Some in Hb as [[<- _]|[_ Hb]]; [split; [done|]|].
      * intros Hd. pose proof (in_order_below _ _ _ O Hd). lia.
      * destruct (B token e s He Hb). congruence.
    + apply lookup_insert_Some in Hb as [[_ Hb]|[_ Hb]]; [congruence|]. by apply (B t x s).
  - rewrite Hh. intros t x s [[-> ->]|[Hne Hx]]%Hget Hs'; cbn in *; [simplify_eq; lia|]. specialize (K t x s Hx Hs'). lia.
  - intros t x [[-> ->]|[Hne Hx]]%Hget Hx'; cbn in *; [|by eapply P]. rewrite Hsp in Hx'. by destruct Hx'.
  - by rewrite Hf.
  - split.
    + intros t x [[-> ->]|[Hne Hx]]%Hget; by eapply T1.
    + intros s t [[_ <-]|[_ Hb]]%lookup_insert_Some; [by eapply T1 | by eapply T2].
  - intros t x effect [[-> ->]|[Hne Hx]]%Hget Ho; cbn in *; [destruct (Q _ _ _ He Ho); congruence | by apply (Q t x)].
  - intros t x [[-> ->]|[Hne Hx]]%Hget; [done | by apply (V t)].
Qed.

Lemma bok_issue_each tokens context b done : bok done b -> b.(faulted) = false ->
  bok done (issue_each tokens context b) /\ grows b (issue_each tokens context b)
  /\ (issue_each tokens context b).(faulted) = false.
Proof.
  revert b. induction tokens as [|token tokens IH]; intros b H Hf; cbn [issue_each]; [done|].
  destruct (exchanges b !! token) as [e|] eqn:He; cbn [and_then]; [|by apply IH].
  destruct (Exch.spec e) as [spec|] eqn:Hspec; [|by apply IH].
  set (b1 := b <| exchanges := _ |>).
  assert (H1 : bok done b1).
  { apply bok_alter; [|done]. intros x. constructor; cbn; done. }
  assert (He1 : b1.(exchanges) !! token = Some (e <| Exch.spec := None |>)).
  { subst b1. cbn. by rewrite lookup_alter_eq, He. }
  assert (Hs : e.(Exch.stream) = None) by (eapply (bk_spec _ _ H); [done|by rewrite Hspec]).
  assert (Hg1 : grows b b1) by (by constructor).
  assert (Hfail : forall b2, bok done b2 -> b2.(faulted) = false -> grows b b2 ->
    let b3 := b2 <| exchanges := alter fail_open token b2.(exchanges) |> in
    bok done (issue_each tokens context b3) /\ grows b (issue_each tokens context b3)
    /\ (issue_each tokens context b3).(faulted) = false).
  { intros b2 Hb2 Hf2 Hg2 b3. destruct (IH b3) as (I1 & I2 & I3); [|done|].
    - apply bok_alter; [|done]. intros x. constructor; try done. over_told.
    - split_and!; try done. etransitivity; [exact Hg2|]. etransitivity; [|exact I2]. by constructor. }
  destruct (open_for spec context) as [o|]; [|by apply (Hfail b1)].
  pose proof (initiates_open _ b1.(request) o _ (bk_init _ _ H1)) as Hi.
  pose proof (changes_open b1.(request) o b1.(mux)) as Hc.
  destruct (Mux.open b1.(request) o b1.(mux)) as [r mux'] eqn:Eo. cbn [snd] in *.
  assert (Hmux : bok done (b1 <| mux := mux' |>)) by (apply bok_mux; try done; cbn; by rewrite Hf).
  destruct r as [stream|err].
  - apply mux_open_fresh in Eo as [Hlt Hh].
    destruct (IH (b1 <| mux := mux' |> <| by_stream := <[stream := token]> b1.(by_stream) |>
      <| exchanges := alter (fun e => e <| Exch.stage := Stage.Opening |> <| Exch.stream := Some stream |>) token
           b1.(exchanges) |>)) as (I1 & I2 & I3); [|done|].
    + by eapply bok_assign.
    + split_and!; try done. etransitivity; [exact Hg1|]. etransitivity; [|exact I2]. by constructor.
  - assert (Hback : bok done (b1 <| mux := mux' |>
        <| exchanges := alter (fun e => e <| Exch.spec := Some spec |>) token b1.(exchanges) |>)
      /\ grows b (b1 <| mux := mux' |>
        <| exchanges := alter (fun e => e <| Exch.spec := Some spec |>) token b1.(exchanges) |>)).
    { split; [|by constructor].
      replace (b1 <| mux := mux' |> <| exchanges := alter (fun e => e <| Exch.spec := Some spec |>) token b1.(exchanges) |>)
        with (b <| mux := mux' |>).
      - apply bok_mux; try done. by rewrite Hf.
      - subst b1. destruct b. cbn in *. f_equal. apply map_eq. intros t. destruct (decide (t = token)) as [->|Hne].
        + rewrite !lookup_alter_eq, He. cbn. f_equal. rewrite <- Hspec. by destruct e.
        + by rewrite !lookup_alter_ne by done. }
    destruct err; try (split_and!; [apply Hback | apply Hback | done]); apply Hfail; try done; by constructor.
Qed.

Lemma bok_issue_opens config base b done : bok done b -> b.(faulted) = false ->
  bok done (issue_opens config base b) /\ grows b (issue_opens config base b)
  /\ (issue_opens config base b).(faulted) = false.
Proof.
  intros H Hf. unfold issue_opens. destruct (Mux.binding (mux b)); [|done]. by apply bok_issue_each.
Qed.

(** ** Actions and machines *)

(** An exchange found under its stream may also come back from its end. *)
Lemma bok_put done b token e e' s : bok done b -> b.(by_stream) !! s = Some token ->
  b.(exchanges) !! token = Some e -> e'.(Exch.stream) = e.(Exch.stream) ->
  (e.(Exch.open_sent) = true -> e'.(Exch.open_sent) = true) -> (is_Some e'.(Exch.spec) -> is_Some e.(Exch.spec)) ->
  (forall effect, e'.(Exch.outcome) = Some (Err (OpenFailure.CarrierLost effect)) ->
     e.(Exch.outcome) = Some (Err (OpenFailure.CarrierLost effect))) ->
  (over_told e -> over_told e') ->
  bok done (b <| exchanges := <[token := e']> b.(exchanges) |>).
Proof.
  intros [I O S B K P F T Q V] Hby He Hs Ho Hsp Htold Hov. destruct T as [T1 T2].
  assert (Hget : forall t x, <[token := e']> b.(exchanges) !! t = Some x ->
    (t = token /\ x = e') \/ (t <> token /\ b.(exchanges) !! t = Some x)).
  { intros t x [[<- <-]|[? ?]]%lookup_insert_Some; [by left | right; split; [congruence|done]]. }
  destruct (B token e s He Hby) as [Es _].
  constructor; cbn; try done.
  - intros t x s' [[-> ->]|[Hne Hx]]%Hget Hs' Hst; [|by apply (S t x)]. congruence.
  - intros t x s' [[-> ->]|[Hne Hx]]%Hget Hb; [|by apply (B t x)]. destruct (B token e s' He Hb) as [B1 B2].
    split; [congruence|]. intros Hd. by apply Ho, B2.
  - intros t x s' [[-> ->]|[Hne Hx]]%Hget Hs'; [|by eapply K]. rewrite Hs in Hs'. by eapply K.
  - intros t x [[-> ->]|[Hne Hx]]%Hget Hx'; [|by eapply P]. rewrite Hs. eapply P; [done | by apply Hsp].
  - intros Hf. destruct (F Hf) as (_ & F2 & _). rewrite F2 in Hby. by rewrite lookup_empty in Hby.
  - split; [|done]. intros t x [[-> ->]|[Hne Hx]]%Hget; by eapply T1.
  - intros t x effect [[-> ->]|[Hne Hx]]%Hget Hout; [|by apply (Q t x)].
    destruct (Q _ _ _ He (Htold _ Hout)) as [Hf _]. destruct (F Hf) as (_ & F2 & _). rewrite F2 in Hby.
    by rewrite lookup_empty in Hby.
  - intros t x [[-> ->]|[Hne Hx]]%Hget; [by eapply Hov, V | by apply (V t)].
Qed.

(** A stream forgotten once its exchange is over. *)
Lemma bok_unstream done b streams : bok done b ->
  (forall token e s, b.(exchanges) !! token = Some e -> e.(Exch.stream) = Some s -> e.(Exch.stage) <> Stage.Ended ->
     s ∉ streams) ->
  bok done (b <| by_stream := foldr delete b.(by_stream) streams |>).
Proof.
  intros [I O S B K P F T Q V] Hs.
  assert (Hsome : forall s t, foldr delete b.(by_stream) streams !! s = Some t -> b.(by_stream) !! s = Some t).
  { intros s t. induction streams as [|x l IH]; [done|]. cbn [foldr]. intros [_ H]%lookup_delete_Some.
    apply IH; [|done]. intros token e s' H1 H2 H3 H4. apply (Hs token e s' H1 H2 H3). by right. }
  assert (Hkeep : forall s, s ∉ streams -> foldr delete b.(by_stream) streams !! s = b.(by_stream) !! s).
  { intros s. clear Hs Hsome. induction streams as [|x l IH]; [done|]. cbn [foldr]. intros Hx.
    apply not_elem_of_cons in Hx as [Hx Hl]. rewrite lookup_delete_ne by congruence. by apply IH. }
  constructor; cbn; try done.
  - intros t e s He Hs' Hst. rewrite Hkeep; [by apply (S t e)|]. by eapply Hs.
  - intros t e s He Hb. apply (B t e); [done | by apply Hsome].
  - intros Hf. destruct (F Hf) as (F1 & F2 & F3). split_and!; try done.
    apply map_eq. intros s. rewrite lookup_empty. destruct (foldr delete b.(by_stream) streams !! s) eqn:E; [|done].
    apply Hsome in E. rewrite F2 in E. by rewrite lookup_empty in E.
  - destruct T as [T1 T2]. split; [done|]. intros s t H. by eapply T2, Hsome.
Qed.

Lemma bok_take_action done b m : bok done b -> bok done (take_action m b) /\ grows b (take_action m b)
  /\ (take_action m b).(faulted) = b.(faulted) /\ (take_action m b).(mux) = b.(mux).
Proof.
  intros H. unfold take_action. destruct (by_stream b !! Envelope.stream_id m) as [token|] eqn:Eb; [|done].
  destruct (exchanges b !! token) as [e|] eqn:Ee; [|done].
  assert (Hput : forall e', e'.(Exch.stream) = e.(Exch.stream) -> e'.(Exch.open_sent) = e.(Exch.open_sent) ->
    e'.(Exch.spec) = e.(Exch.spec) ->
    (forall effect, e'.(Exch.outcome) = Some (Err (OpenFailure.CarrierLost effect)) ->
       e.(Exch.outcome) = Some (Err (OpenFailure.CarrierLost effect))) ->
    (over_told e -> over_told e') ->
    let b' := b <| exchanges := <[token := e']> b.(exchanges) |> in
    bok done b' /\ grows b b' /\ b'.(faulted) = b.(faulted) /\ b'.(mux) = b.(mux)).
  { intros e' H1 H2 H3 H4 H5 b'. split_and!; try done. eapply (bok_put done b token e e'); try done; by rewrite ?H2, ?H3. }
  assert (Hdec : forall o x, (Exch.decide o x).(Exch.stream) = x.(Exch.stream)
    /\ (Exch.decide o x).(Exch.open_sent) = x.(Exch.open_sent) /\ (Exch.decide o x).(Exch.spec) = x.(Exch.spec)
    /\ (Exch.decide o x).(Exch.stage) = x.(Exch.stage)
    /\ ((Exch.decide o x).(Exch.outcome) = Some o \/ (Exch.decide o x).(Exch.outcome) = x.(Exch.outcome))
    /\ (Exch.decide o x).(Exch.end_) = x.(Exch.end_)).
  { intros o x. unfold Exch.decide. destruct (negb _); split_and!; cbn; auto. }
  assert (Hother : let b' := b <| exchanges := <[token := e <| Exch.machine :=
       option_map (fun machine => (Stream.receive m machine).2) e.(Exch.machine) |>]> b.(exchanges) |> in
    bok done b' /\ grows b b' /\ b'.(faulted) = b.(faulted) /\ b'.(mux) = b.(mux)).
  { apply Hput; try done. over_told. destruct (Exch.machine e); [by apply Hover | by destruct Hmachine]. }
  destruct (Envelope.kind m); try done.
  - destruct (Envelope.opened m) as [opened|]; [|done]. destruct (Mux.binding _) as [bound|]; [|done].
    destruct (Stream.new _) as [machine|]; cbn [over].
    + match goal with |- context [Exch.decide ?o ?x] => destruct (Hdec o x) as (D1 & D2 & D3 & D4 & D5 & D6) end.
      apply Hput; [by rewrite D1 | by rewrite D2 | by rewrite D3| |intros _ Hst; rewrite D4 in Hst; done]. intros effect Ho.
      destruct D5 as [D5|D5]; rewrite D5 in Ho; done.
    + match goal with |- context [Exch.decide ?o ?x] => destruct (Hdec o x) as (D1 & D2 & D3 & D4 & D5 & D6) end.
      apply Hput; [exact D1 | exact D2 | exact D3| |intros _ _ _; by rewrite D6]. intros effect Ho.
      destruct D5 as [D5|D5]; rewrite D5 in Ho; done.
  - set (failure := unwrap_or _ _). set (e1 := Exch.decide _ _).
    assert (He1 : e1.(Exch.stream) = e.(Exch.stream) /\ e1.(Exch.open_sent) = e.(Exch.open_sent)
      /\ e1.(Exch.spec) = e.(Exch.spec) /\ e1.(Exch.stage) = Stage.Ended /\ is_Some e1.(Exch.end_)
      /\ forall effect, e1.(Exch.outcome) = Some (Err (OpenFailure.CarrierLost effect)) ->
           e.(Exch.outcome) = Some (Err (OpenFailure.CarrierLost effect))).
    { subst e1. destruct (Hdec (Err (OpenFailure.Refused failure)) (e <| Exch.end_ := Some (ExchEnd.discarded (Failure.code failure)
        (Failure.effect failure)) |> <| Exch.stage := Stage.Ended |>)) as (-> & -> & -> & -> & D5 & ->).
      split_and!; try done. intros effect Ho. destruct D5 as [D5|D5]; rewrite D5 in Ho; done. }
    clearbody e1. destruct He1 as (A1 & A2 & A3 & A4 & A6 & A5).
    destruct (Hput e1 A1 A2 A3 A5 (fun _ _ _ => A6)) as (P1 & P2 & P3 & P4). split_and!; try done.
    apply (bok_unstream done _ [Envelope.stream_id m]) in P1; [exact P1|].
    intros t x s. cbn. intros [[<- <-]|[Hne Hx]]%lookup_insert_Some Hs Hst; [by rewrite A4 in Hst|].
    intros ->%list_elem_of_singleton. pose proof (bk_streams _ _ H t x _ Hx Hs Hst). congruence.
Qed.

Lemma bok_drain fuel b done : bok done b -> bok done (drain_loop fuel b) /\ grows b (drain_loop fuel b)
  /\ (drain_loop fuel b).(faulted) = b.(faulted).
Proof.
  revert b. induction fuel as [|fuel IH]; intros b H; cbn [drain_loop]; [done|].
  pose proof (initiates_next_action _ _ (bk_init _ _ H)) as Hi. pose proof (changes_next_action b.(mux)) as Hc.
  assert (Hp : (Mux.next_action b.(mux)).2.(Mux.phase) = b.(mux).(Mux.phase)).
  { unfold Mux.next_action. by destruct (Queue.pop _). }
  destruct (Mux.next_action b.(mux)) as [item mux']. cbn [snd] in *.
  assert (H1 : bok done (b <| mux := mux' |>)).
  { apply bok_mux; try done. intros Hf. rewrite Hp. by apply (bk_fault _ _ H). }
  destruct item as [[r m]|].
  - destruct (bok_take_action done _ m H1) as (T1 & T2 & T3 & _). destruct (IH _ T1) as (I1 & I2 & I3).
    split_and!; [done | | by rewrite I3, T3]. etransitivity; [|exact I2]. etransitivity; [|exact T2]. by constructor.
  - split_and!; [done | by constructor | done].
Qed.

Lemma bok_run_one fuel token e machine b done : bok done b -> b.(faulted) = false ->
  let '(e', _, b', _, _) := run_one fuel token e machine b in
  bok done b' /\ grows b b' /\ b'.(faulted) = false /\ b'.(exchanges) = b.(exchanges)
  /\ exch_le e e' /\ e'.(Exch.machine) = e.(Exch.machine).
Proof.
  revert machine b. induction fuel as [|fuel IH]; intros machine b H Hf; cbn [run_one]; [done|].
  destruct (Stream.next_message machine) as [[m|] machine']; [|done].
  pose proof (initiates_send _ b.(request) m _ (bk_init _ _ H)) as Hi. pose proof (changes_send b.(request) m b.(mux)) as Hc.
  destruct (Mux.send b.(request) m b.(mux)) as [r mux']. cbn [snd] in *.
  assert (H1 : bok done (b <| mux := mux' |>)) by (apply bok_mux; try done; by rewrite Hf).
  destruct r as [[]|].
  - specialize (IH machine' _ H1 Hf). destruct (run_one fuel token e machine' (b <| mux := mux' |>)) as [[[[e' k] b'] n] d].
    destruct IH as (I1 & I2 & I3 & I4 & I5 & I6). split_and!; try done. etransitivity; [|exact I2]. by constructor.
  - split_and!; try done; constructor; try done. over_told.
Qed.

Lemma bok_run_each now tokens budget quiet b done : bok done b -> b.(faulted) = false ->
  let '(_, b') := run_each now tokens budget quiet b in bok done b' /\ grows b b' /\ b'.(faulted) = false.
Proof.
  revert budget quiet b. induction tokens as [|token tokens IH]; intros budget quiet b H Hf; cbn [run_each]; [done|].
  destruct (exchanges b !! token) as [e|] eqn:Ee; [|by apply IH].
  destruct (Exch.machine e) as [machine|] eqn:Em; [|by apply IH].
  pose proof (bok_run_one budget token e (Stream.advance now machine) b done H Hf) as Hr.
  destruct (run_one budget token e (Stream.advance now machine) b) as [[[[e' k] b'] n] d].
  destruct Hr as (R1 & R2 & R3 & R4 & R5 & R6).
  assert (H1 : bok done (b' <| exchanges := <[token := e' <| Exch.machine := Some k |>]> b'.(exchanges) |>)).
  { apply (bok_insert done b' token e); [by rewrite R4 | | done]. destruct R5 as [L1 L2 L3 L4 L5 L6 L7].
    constructor; try done. intros Hov Hst _. apply L7; [done | exact Hst | by rewrite R6, Em]. }
  specialize (IH n (if d then {[token]} ∪ quiet else quiet) _ H1 R3).
  destruct (run_each now tokens n _ _) as [q b'']. destruct IH as (I1 & I2 & I3). split_and!; try done.
  etransitivity; [exact R2|]. etransitivity; [|exact I2]. by constructor.
Qed.

Lemma bok_settle quiet b done : bok done b -> bok done (settle quiet b) /\ grows b (settle quiet b)
  /\ (settle quiet b).(faulted) = b.(faulted).
Proof.
  intros H. split; [|by split; [constructor|]]. unfold settle.
  set (m1 := map_imap _ b.(exchanges)).
  assert (Hm1 : forall t, m1 !! t = settle_exch quiet t <$> b.(exchanges) !! t).
  { intros t. subst m1. rewrite map_lookup_imap. by destruct (b.(exchanges) !! t). }
  assert (H1 : bok done (b <| exchanges := m1 |>)).
  { apply (bok_exchanges done b (settle_exch quiet)); [intros t; left; apply Hm1 | | done].
    intros t e _. unfold settle_exch. destruct (settled quiet t e); constructor; try done. over_told. }
  assert (H2 : bok done (b <| exchanges := m1 |> <| by_stream := foldr delete b.(by_stream) (ended_streams quiet b) |>)).
  { refine (bok_unstream done (b <| exchanges := m1 |>) (ended_streams quiet b) H1 _). cbn.
    intros t e' s He' Hs Hst Hin. rewrite Hm1 in He'. apply fmap_Some in He' as (e & He & ->).
    unfold ended_streams in Hin. apply list_elem_of_omap in Hin as ([t0 e0] & Hin & H0).
    apply elem_of_entries in Hin. cbn [fst snd] in H0.
    destruct (settled quiet t0 e0) as [x0|] eqn:Es0; [|done]. cbn [is_some] in H0.
    assert (Hst0 : e0.(Exch.stage) <> Stage.Ended).
    { unfold settled in Es0. intros E0. by rewrite bool_decide_eq_true_2 in Es0 by done. }
    assert (Hst' : e.(Exch.stage) <> Stage.Ended /\ e.(Exch.stream) = Some s).
    { unfold settle_exch in Hst, Hs. destruct (settled quiet t e); cbn in *; done. }
    destruct Hst' as [Hst' Hs'].
    pose proof (bk_streams _ _ H t e s He Hs' Hst') as B1. pose proof (bk_streams _ _ H t0 e0 s Hin H0 Hst0) as B2.
    assert (t0 = t) as -> by congruence. assert (e0 = e) as -> by congruence.
    unfold settle_exch in Hst. rewrite Es0 in Hst. done. }
  match goal with |- bok done ?x => assert (Hx : exists m, x = (b <| exchanges := m1 |>
    <| by_stream := foldr delete b.(by_stream) (ended_streams quiet b) |>) <| exchanges := m |>
    /\ m = filter (fun e : Z * Exch.t => reclaimed e.2 = false) m1) by (by eexists) end.
  destruct Hx as (m & -> & Em). apply (bok_exchanges done _ (fun _ e => e)); [|done|exact H2].
  intros t. cbn. rewrite Em. destruct (filter _ m1 !! t) as [e|] eqn:E; [|by right].
  left. apply map_lookup_filter_Some in E as [-> _]. done.
Qed.

(** ** One turn of a binding *)

(** What a turn leaves: the new binding, the messages handed out, and their openings. *)
Definition turned (b : RBinding.t) (done : list Z) (limit : nat) (outbox : list Attachment)
    (r : RBinding.t * list Attachment) : Prop :=
  exists new done', r.2 = outbox ++ new /\ (length new <= limit)%nat
    /\ (r.1.(faulted) = true -> new = []) /\ handed b done new done' /\ bok done' r.1 /\ grows b r.1.

Lemma bok_drive now room config base b outbox done : bok done b ->
  turned b done (2 * unwrap_or room O) outbox (drive now room config base b outbox).
Proof.
  intros H. unfold drive. set (r := unwrap_or room O). destruct (faulted b) eqn:Hf.
  { destruct (bok_collect r b outbox done H) as (new & done' & E & Hl & Hn & Hh & Hb & Hg & Hfe). rewrite E.
    specialize (Hn Hf). subst new. exists [], done'. cbn [fst snd]. split_and!; try done. cbn; lia. }
  set (b1 := b <| mux := Mux.advance now b.(mux) |>).
  assert (H1 : bok done b1).
  { apply bok_mux; [apply initiates_advance, H | apply changes_advance | by rewrite Hf | done]. }
  assert (Hg1 : grows b b1) by (by constructor).
  case_bool_decide.
  { set (b2 := if _ && _ then _ else _).
    assert (H2 : bok done b2 /\ grows b b2).
    { subst b2. destruct (bool_decide_reflect (reg b1 = Reg.Pending)) as [Hp|Hp]; cbn [andb].
      - destruct (is_none _); (split; [destruct H1; by constructor|]); constructor; cbn in *; done.
      - done. }
    destruct H2 as [H2 Hg2]. exists [], done. cbn [fst snd]. rewrite app_nil_r. split_and!; try done; [cbn; lia | apply handed_nil | |].
    - by apply bok_abort.
    - etransitivity; [exact Hg2|]. apply grows_abort. }
  set (b2 := if _ && _ then _ else _).
  assert (H2 : bok done b2 /\ grows b b2 /\ b2.(faulted) = false).
  { subst b2. destruct (bool_decide_reflect (reg b1 = Reg.Pending)) as [Hp|Hp]; cbn [andb].
    - destruct (bool_decide _); (split; [destruct H1; by constructor|]); (split; [|done]); constructor; cbn in *; done.
    - done. }
  clearbody b2. destruct H2 as (H2 & Hg2 & Hf2). clear b1 H1 Hg1 H0.
  set (b3 := if bool_decide _ then _ else _).
  assert (H3 : bok done b3 /\ grows b b3 /\ b3.(faulted) = false).
  { subst b3. destruct (bool_decide _); [|done]. destruct (bok_issue_opens config base b2 done H2 Hf2) as (I1 & I2 & I3).
    split_and!; try done. by etransitivity. }
  clearbody b3. destruct H3 as (H3 & Hg3 & Hf3). clear b2 H2 Hg2 Hf2.
  destruct (bok_drain (S (length b3.(mux).(Mux.actions).(Queue.items))) b3 done H3) as (H4 & Hg4 & Hf4).
  fold (drain_actions b3) in H4, Hg4, Hf4. set (b4 := drain_actions b3) in *. clearbody b4. rewrite Hf3 in Hf4.
  assert (Hgb4 : grows b b4) by (by transitivity b3). clear b3 H3 Hg3 Hf3 Hg4.
  destruct (bok_collect r b4 outbox done H4) as (new & done' & E & Hl & Hn & Hh & Hb & Hg & Hfe). rewrite E.
  set (b5 := (collect r b4 outbox).1) in *. clearbody b5.
  assert (Hgb5 : grows b b5) by (by transitivity b4).
  assert (Hh5 : handed b done new done').
  { destruct Hh as (A1 & A2 & A3). split_and!; try done. by rewrite <- (gr_session _ _ Hgb4). }
  rewrite Hf4 in Hfe.
  destruct (is_some room) eqn:Er.
  - pose proof (bok_run_each now (map fst (keep (fun e => running e.2) (entries b5.(exchanges)))) PER_PASS ∅ b5 done' Hb Hfe) as Hr.
    fold (run_machines now b5) in Hr. destruct (run_machines now b5) as [quiet b6]. destruct Hr as (H6 & Hg6 & Hf6).
    destruct (bok_collect r b6 (outbox ++ new) done' H6) as (new2 & done2 & E2 & Hl2 & Hn2 & Hh2 & Hb2 & Hg2 & Hf2). rewrite E2.
    set (b7 := (collect r b6 (outbox ++ new)).1) in *. clearbody b7.
    destruct (bok_settle quiet b7 done2 Hb2) as (S1 & S2 & S3).
    exists (new ++ new2), done2. cbn [fst snd]. rewrite app_assoc. split_and!; try done.
    + rewrite length_app. lia.
    + rewrite S3, Hf2, Hf6. done.
    + eapply (handed_app b b6); [|exact Hh5|exact Hh2]. rewrite (gr_session _ _ Hg6). apply (gr_session _ _ Hgb5).
    + transitivity b5; [done|]. transitivity b6; [done|]. by transitivity b7.
  - destruct (bok_settle ∅ b5 done' Hb) as (S1 & S2 & S3). exists new, done'. cbn [fst snd]. split_and!; try done.
    + lia.
    + by rewrite S3, Hfe.
    + by transitivity b5.
Qed.
End binding_facts.
