(* ===== verification/RemoteBackend.v ===== *)
(** * The carrier-backed handle

    The connection crate's remote/backend.rs and remote/stream.rs: admission,
    registration and the operations of a session over its carrier, each a closure
    run under the state lock between two pumps ([Shared::with]).  The closures are
    the [_in] functions; [with_] is the call around them.  Executor, sleeps and the
    driver future are the composition's; [poll]s are modelled by what they do to
    the state, and a waker is the number of the task it wakes. *)
From S2P Require Import Prelude Utf8 Text TextFacts Cbor Protocol Budget Admission Policy Validate Codec Binding IoClock Stream Mux PoolTypes Operation RemoteTable ConnBinding Host RemoteCore.
Import RState.

(** Why a stream call failed, as the crate tells its caller. *)
Module RStreamError.
Inductive t :=
| WouldBlock | Cancelled | Closed | Protocol
| CarrierLost (effect : Effect.t)
| Failed (code : ErrorCode.t) (effect : Effect.t).
End RStreamError.

Definition from_stream (error : StreamError.t) (effect : Effect.t) : RStreamError.t :=
  match error with
  | StreamError.WouldBlock => RStreamError.WouldBlock
  | StreamError.Cancelled => RStreamError.Cancelled
  | StreamError.CarrierLost => RStreamError.CarrierLost effect
  | StreamError.PeerFailed code effect => RStreamError.Failed code effect
  | StreamError.WriteClosed | StreamError.Closed => RStreamError.Closed
  | _ => RStreamError.Protocol
  end.
Definition from_end (e : ExchEnd.t) : RStreamError.t :=
  match e.(ExchEnd.failure) with
  | Some (ErrorCode.CarrierLost, effect) => RStreamError.CarrierLost effect
  | Some (ErrorCode.Cancelled, _) => RStreamError.Cancelled
  | Some (code, effect) => RStreamError.Failed code effect
  | None => RStreamError.Closed
  end.

Module Shared.
Record t := mk {
  state : RState.t;
  driver_spawned : bool;
  slots : Z;
  (** The receipt cells that have been set. *)
  receipts : gmap Z OperationEnd.t;
}.
#[global] Instance eta : Eta t := fun r => mk (r.(state)) (r.(driver_spawned)) (r.(slots)) (r.(receipts)).
Definition new : t := mk RState.new false 0 ∅.
End Shared.

Section backend.
Context {L : Layout}.
Variable unstable_sequenced : bool.
Variable config : RemoteConfig.t.
(** The namespace of the session's identifiers. *)
Variable namespace : Z.

(** [Cell::set]: the first value wins. *)
Definition publish (receipts : gmap Z OperationEnd.t) (finished : list (Z * OperationEnd.t)) : gmap Z OperationEnd.t :=
  fold_left (fun r e => match r !! e.1 with Some _ => r | None => <[e.1 := e.2]> r end) finished receipts.

(** [Shared::with]: pump, the call, pump; then receipts and wakers. *)
Definition with_ {R} (lane1 lane2 : Lane.t) (f : RState.t -> R * RState.t) (self : Shared.t)
    : R * list Z * Shared.t * Carrier.t :=
  let '(st, c1) := pump unstable_sequenced lane1 config self.(Shared.state) in
  let '(r, st) := f st in
  let '(st, c2) := pump unstable_sequenced lane2 config st in
  let '(wakers, st) := ready_wakers config.(RemoteConfig.active_operations) st in
  let done := st.(finished) in
  (r, wakers,
   self <| Shared.state := st <| finished := [] |> |>
        <| Shared.receipts := publish self.(Shared.receipts) done |>,
   Carrier.mk (c1.(Carrier.sent) ++ c2.(Carrier.sent)) (c1.(Carrier.over) ++ c2.(Carrier.over))).

(** ** Admission *)

Definition admit_in (live : bool) (request : string) (st : RState.t) : result Z AdmissionError.t * RState.t :=
  if st.(lost) then (Err AdmissionError.CarrierLost, st)
  else if negb live then (Err AdmissionError.UnknownCall, st)
  else if bool_decide (request ∈ st.(requests)) then (Err AdmissionError.DuplicateOperation, st)
  else if config.(RemoteConfig.waiting_admissions) <=? len st.(queue) then (Err AdmissionError.QueueFull, st)
  else
    let id := wrapping_add_u64 st.(ids) 1 in
    (Ok id, st <| ids := id |> <| requests := {[request]} ∪ st.(requests) |>
               <| queue := st.(queue) ++ [Waiting.mk id None] |>).

(** [Backend::admit]: a prepared operation is the other kind of input. *)
Definition admit_call (input : AdmitInput.t) (live : string -> bool) (lane1 lane2 : Lane.t) (self : Shared.t)
    : result (Z * string) AdmissionError.t * Shared.t :=
  match input with
  | AdmitInput.Prepared _ => (Err AdmissionError.WrongInput, self)
  | AdmitInput.Reference r =>
      let request := r.(OperationRef.request_id) in
      let '(id, _, self, _) := with_ lane1 lane2 (admit_in (live request) request) self in
      match id with
      | Ok id => (Ok (id, request), self <| Shared.driver_spawned := true |>)
      | Err e => (Err e, self)
      end
  end.

Definition drop_admission_in (id : Z) (request : string) (st : RState.t) : unit * RState.t :=
  (tt, st <| queue := keep (fun w => negb (w.(Waiting.id) =? id)) st.(queue) |>
          <| requests := st.(requests) ∖ {[request]} |>).

(** The first record of [id] gets the waker. *)
Fixpoint set_waker (id waker : Z) (l : list Waiting.t) : list Waiting.t :=
  match l with
  | [] => []
  | w :: l => if w.(Waiting.id) =? id then w <| Waiting.waker := Some waker |> :: l else w :: set_waker id waker l
  end.

Definition acquire_in (id waker : Z) (st : RState.t) : option (result unit AdmissionError.t) * RState.t :=
  if st.(lost) then (Some (Err AdmissionError.CarrierLost), st)
  else
    let first := is_some_and (hd_error st.(queue)) (fun w => w.(Waiting.id) =? id) in
    if first && (st.(active) <? config.(RemoteConfig.active_operations))
    then (Some (Ok tt), st <| queue := tl st.(queue) |> <| active := usize_add st.(active) 1 |>
                           <| claims := {[id]} ∪ st.(claims) |>)
    else (None, st <| queue := set_waker id waker st.(queue) |>).

(** ** Registration *)

Definition release (request : string) (st : RState.t) : RState.t :=
  st <| active := saturating_sub_u64 st.(active) 1 |> <| requests := st.(requests) ∖ {[request]} |>.

Definition remote_mux_config : MuxConfig.t :=
  MuxConfig.mk binding_limits EndpointRole.Driver 4 (RemoteConfig.streams config) 5000 5000 120000.

Definition register_in (id : Z) (request : string) (st : RState.t) : result Z TerminalReason.t * RState.t :=
  let st := st <| claims := st.(claims) ∖ {[id]} |> in
  if st.(lost) then (Err TerminalReason.CarrierLost, release request st)
  else
    let serial := wrapping_add_u64 st.(serial) 1 in
    let st := st <| RState.serial := serial |> in
    let binding_id := BindingId.mk namespace serial in
    let session := session_name binding_id in
    match Mux.initiator session remote_mux_config with
    | Err _ => (Err TerminalReason.HostFault, release request st)
    | Ok mux =>
        match Mux.register request (Some request) mux with
        | (Err _, _) => (Err TerminalReason.HostFault, release request st)
        | (Ok _, mux) =>
            match Mux.begin request mux with
            | (Err _, _) => (Err TerminalReason.HostFault, release request st)
            | (Ok _, mux) =>
                (Ok serial,
                 st <| bindings := <[serial := RBinding.new binding_id session request mux]> st.(bindings) |>
                    <| by_session := <[session := serial]> st.(by_session) |>)
            end
        end
    end.

Definition drop_permit_in (id : Z) (request : string) (st : RState.t) : unit * RState.t :=
  let st := if bool_decide (id ∈ st.(claims))
            then st <| claims := st.(claims) ∖ {[id]} |> <| active := saturating_sub_u64 st.(active) 1 |>
            else st in
  (tt, st <| requests := st.(requests) ∖ {[request]} |>).

(** ** The operation *)

Definition registration_in (serial : Z) (st : RState.t) : Registration.t :=
  match st.(bindings) !! serial with
  | Some entry => RBinding.registration entry
  | None => unwrap_or (st.(lasts) !! serial) (Registration.NeverRegistered TerminalReason.HostFault)
  end.

Definition poll_registered_in (serial slot waker : Z) (st : RState.t) : option Registration.t * RState.t :=
  let r := registration_in serial st in
  if bool_decide (r = Registration.Pending)
  then (None, wait_for (Wait.Registered serial slot) waker st)
  else (Some r, st).

(** The change of one binding under the lock, if it is there. *)
Definition on_binding (serial : Z) (f : RBinding.t -> RBinding.t) (st : RState.t) : RState.t :=
  st <| bindings := alter f serial st.(bindings) |>.

(** The probe of the table before anything is queued. *)
Definition probe_context (path_base : option string) : OpenContext.t :=
  OpenContext.mk "probe" "probe" binding_limits config.(RemoteConfig.deadlines) path_base.

Definition unended (entry : RBinding.t) : Z :=
  len (keep (fun e => negb (bool_decide (e.(Exch.stage) = Stage.Ended))) (values entry.(RBinding.exchanges))).

Definition open_in (serial : Z) (spec : ExchangeSpec.t) (st : RState.t) : result Z OpenError.t * RState.t :=
  match st.(bindings) !! serial with
  | None => (Err OpenError.Sealed, st)
  | Some entry =>
      match entry.(RBinding.reg) with
      | Reg.Never reason => (Err (OpenError.Terminal reason Effect.None), st)
      | _ =>
          if entry.(RBinding.cancelled) then (Err OpenError.Cancelled, st)
          else if entry.(RBinding.sealed) then (Err OpenError.Sealed, st)
          else if RemoteConfig.streams config <=? unended entry then (Err OpenError.BindingLimit, st)
          else
            let entry := entry <| RBinding.live := usize_add entry.(RBinding.live) 1 |> in
            let '(token, entry) := RBinding.queue_exchange spec entry in
            (Ok token, st <| bindings := <[serial := entry]> st.(bindings) |>)
      end
  end.

(** [RemoteOp::open]: read the call's path base, probe the table, then queue. *)
Definition open_call (serial : Z) (spec : ExchangeSpec.t) (path_base : string -> option string)
    (lane1 lane2 lane3 lane4 : Lane.t) (self : Shared.t) : result Z OpenError.t * Shared.t :=
  let '(request, _, self, _) :=
    with_ lane1 lane2 (fun st => (option_map RBinding.request (st.(bindings) !! serial), st)) self in
  let base := and_then request path_base in
  match open_for spec (probe_context base) with
  | Err refusal => (Err (OpenError.Refused refusal), self)
  | Ok _ =>
      let '(r, _, self, _) := with_ lane3 lane4 (open_in serial spec) self in
      (r, self)
  end.

Definition finish_entry (entry : RBinding.t) : RBinding.t :=
  let entry := entry <| RBinding.sealed := true |> in
  if bool_decide (entry.(RBinding.reg) = Reg.Pending)
  then RBinding.abort_all ErrorCode.Cancelled false
         (entry <| RBinding.reg := Reg.Never TerminalReason.Cancelled |>)
  else entry.
Definition finish_in (serial : Z) (st : RState.t) : unit * RState.t := (tt, on_binding serial finish_entry st).

Definition abandon_in (serial : Z) (st : RState.t) : unit * RState.t :=
  (tt, on_binding serial (fun e => (RBinding.cancel_all e).2 <| RBinding.sealed := true |>) st).

Definition cancel_in (serial : Z) (st : RState.t) : CancelState.t * RState.t :=
  match st.(bindings) !! serial with
  | None => (CancelState.Gone, st)
  | Some entry =>
      let '(first, entry) := RBinding.cancel_all entry in
      (if first then CancelState.Cancelled else CancelState.AlreadyCancelled,
       st <| bindings := <[serial := entry]> st.(bindings) |>)
  end.

(** ** Openings and streams (remote/stream.rs) *)

(** [Live::drop]: the handle of one exchange goes. *)
Definition drop_exch (exch : Exch.t) : Exch.t :=
  let exch := exch <| Exch.dropped := true |> in
  match exch.(Exch.stage) with
  | Stage.Queued => exch <| Exch.spec := None |> <| Exch.stage := Stage.Ended |>
  | Stage.Open | Stage.Closing => exch <| Exch.machine := option_map Stream.cancel exch.(Exch.machine) |>
  | Stage.Opening | Stage.Ended => exch
  end.
Definition drop_live_entry (token : Z) (entry : RBinding.t) : RBinding.t :=
  let entry := entry <| RBinding.live := saturating_sub_u64 entry.(RBinding.live) 1 |> in
  match entry.(RBinding.exchanges) !! token with
  | None => entry
  | Some exch =>
      let exch := drop_exch exch in
      if bool_decide (exch.(Exch.stage) = Stage.Ended)
      then entry <| RBinding.exchanges := delete token entry.(RBinding.exchanges) |>
      else entry <| RBinding.exchanges := <[token := exch]> entry.(RBinding.exchanges) |>
  end.
Definition drop_live_in (serial token : Z) (st : RState.t) : unit * RState.t :=
  (tt, on_binding serial (drop_live_entry token) st).

Definition put_exch (serial token : Z) (exch : Exch.t) (st : RState.t) : RState.t :=
  on_binding serial (fun e => e <| RBinding.exchanges := <[token := exch]> e.(RBinding.exchanges) |>) st.

(** [RemoteOpenWait::poll_open]: the decision is handed over once. *)
Definition poll_open_in (serial token waker : Z) (st : RState.t)
    : option (result bool OpenFailure.t) * RState.t :=
  match exchange_of serial token st with
  | None => (Some (Err OpenFailure.Cancelled), st)
  | Some exch =>
      match exch.(Exch.outcome) with
      | Some (Ok _) => (Some (Ok exch.(Exch.reused)), put_exch serial token (exch <| Exch.outcome := None |>) st)
      | Some (Err failure) =>
          (Some (Err failure),
           put_exch serial token (exch <| Exch.outcome := None |> <| Exch.dropped := true |>) st)
      | None => (None, wait_for (Wait.Opening serial token) waker st)
      end
  end.

(** [RemoteStream::call] around a call of the stream machine. *)
Definition stream_call_in {R} (serial token : Z) (f : Stream.t -> result R StreamError.t * Stream.t)
    (st : RState.t) : result R RStreamError.t * RState.t :=
  match exchange_of serial token st with
  | None => (Err RStreamError.Closed, st)
  | Some exch =>
      match exch.(Exch.end_) with
      | Some e => (Err (from_end e), st)
      | None =>
          match exch.(Exch.machine) with
          | None => (Err RStreamError.Closed, st)
          | Some machine =>
              let '(r, machine) := f machine in
              (map_err (fun error => from_stream error (Exch.effect_on_loss exch)) r,
               put_exch serial token (exch <| Exch.machine := Some machine |>) st)
          end
      end
  end.
Definition write_in (serial token : Z) (data : list byte) := stream_call_in serial token (Stream.write data).
Definition read_in (serial token room : Z) := stream_call_in serial token (Stream.read room).

Definition stream_finish_in (serial token : Z) (st : RState.t) : unit * RState.t :=
  match exchange_of serial token st with
  | Some exch =>
      match exch.(Exch.end_), exch.(Exch.machine) with
      | None, Some machine =>
          let '(r, machine) := Stream.start_close machine in
          let exch := exch <| Exch.machine := Some machine |> in
          (tt, put_exch serial token
                 (if is_ok r then exch <| Exch.stage := Stage.Closing |> <| Exch.finish_requested := true |> else exch) st)
      | _, _ => (tt, st)
      end
  | None => (tt, st)
  end.

Definition poll_finish_in (serial token waker : Z) (st : RState.t) : option ExchEnd.t * RState.t :=
  match exchange_of serial token st with
  | None => (Some (ExchEnd.discarded ErrorCode.Cancelled Effect.Possible), st)
  | Some exch =>
      match exch.(Exch.end_) with
      | Some e => (Some e, st)
      | None => (None, wait_for (Wait.Ending serial token) waker st)
      end
  end.
Definition exchange_end (e : ExchEnd.t) : ExchangeEnd.t :=
  ExchangeEnd.mk e.(ExchEnd.disposition) CleanupStatus.Complete e.(ExchEnd.failure)
    (match e.(ExchEnd.failure) with Some (_, effect) => effect | None => Effect.None end).

(** ** What the handle tells *)

Definition check_open_in (st : RState.t) : result unit unit * RState.t :=
  (if st.(lost) then Err tt else Ok tt, st).
(** [HostHandle::snapshot] of a carrier-backed handle tells only its phase. *)
Definition phase_in (st : RState.t) : HostPhase.t * RState.t :=
  (if st.(lost) then HostPhase.Closed else HostPhase.Open, st).
Definition driver_done_in (st : RState.t) : bool * RState.t :=
  (st.(lost) && bool_decide (st.(bindings) = ∅), st).
Definition next_slot (self : Shared.t) : Z * Shared.t :=
  let slot := wrapping_add_u64 self.(Shared.slots) 1 in (slot, self <| Shared.slots := slot |>).
Definition forget_wait (wait : Wait.t) (self : Shared.t) : Shared.t :=
  self <| Shared.state := forget wait self.(Shared.state) |>.
End backend.
