(* ===== verification/RemoteRun.v ===== *)
(** * Runs of the carrier-backed handle

    A [world] is the handle's state with what its callers hold (admission records,
    permits) and what the carrier has been given.  A run is any sequence of calls,
    pumps with any answers of the lane, and polls; the calls of the code are the
    sequences pump, closure, pump, wake.  [rok] is the invariant of every run and
    [advances] what no step undoes. *)
From S2P Require Import Prelude Utf8 Text TextFacts Cbor CborFacts Protocol ProtocolFacts Budget Admission Policy Validate Codec CodecFacts Binding BindingFacts IoClock Stream Mux MuxFacts MuxSteps MuxRun RemoteMux PoolTypes Operation RemoteTable ConnBinding RemoteCore RemoteFacts RemoteBackend.
Import RState.

(** ** What no step undoes *)

Record advances (a b : RState.t) : Prop := {
  ad_serial : a.(serial) <= b.(serial);
  ad_lost : a.(lost) = true -> b.(lost) = true;
  ad_entry : forall k e, k <= a.(serial) -> a.(bindings) !! k = Some e ->
    (exists e', b.(bindings) !! k = Some e' /\ grows e e')
    \/ (b.(bindings) !! k = None /\ exists e', grows e e' /\ b.(lasts) !! k = Some (RBinding.registration e'));
  ad_gone : forall k, k <= a.(serial) -> a.(bindings) !! k = None ->
    b.(bindings) !! k = None /\ (is_Some (a.(lasts) !! k) -> b.(lasts) !! k = a.(lasts) !! k)
    /\ (a.(lasts) !! k = None -> b.(lasts) !! k = None);
}.

#[global] Instance advances_preorder : PreOrder advances.
Proof.
  split.
  - intros a. constructor; try done. intros k e _ He. left. by exists e.
  - intros a b c [A1 A2 A3 A4] [B1 B2 B3 B4]. constructor; [lia | auto | |].
    + intros k e Hk He. destruct (A3 k e Hk He) as [(e' & He' & G)|(Hn & e' & G & Hl)].
      * destruct (B3 k e' ltac:(lia) He') as [(e'' & He'' & G')|(Hn & e'' & G' & Hl)].
        -- left. exists e''. split; [done | by transitivity e'].
        -- right. split; [done|]. exists e''. split; [by transitivity e' | done].
      * right. destruct (B4 k ltac:(lia) Hn) as (Hn' & Hs & _). split; [done|]. exists e'. split; [done|].
        rewrite Hs, Hl; [done|]. by rewrite Hl.
    + intros k Hk Hn. destruct (A4 k Hk Hn) as (Hn' & Hs & Hz). destruct (B4 k ltac:(lia) Hn') as (Hn'' & Hs' & Hz').
      split; [done|]. split.
      * intros Hi. rewrite Hs' by (rewrite Hs; done). by apply Hs.
      * intros Hi. by apply Hz', Hz.
Qed.

(** A step inside a pump: every binding stays in the table. *)
Record keeps (a b : RState.t) : Prop := {
  kp_serial : b.(serial) = a.(serial);
  kp_lasts : b.(lasts) = a.(lasts);
  kp_lost : a.(lost) = true -> b.(lost) = true;
  kp_entry : forall k e, a.(bindings) !! k = Some e -> exists e', b.(bindings) !! k = Some e' /\ grows e e';
  kp_none : forall k, a.(bindings) !! k = None -> b.(bindings) !! k = None;
}.

#[global] Instance keeps_preorder : PreOrder keeps.
Proof.
  split.
  - intros a. constructor; try done. intros k e He. by exists e.
  - intros a b c [A1 A2 A3 A4 A5] [B1 B2 B3 B4 B5]. constructor; [congruence | congruence | auto | | auto].
    intros k e He. destruct (A4 k e He) as (e' & He' & G). destruct (B4 k e' He') as (e'' & He'' & G').
    exists e''. split; [done | by transitivity e'].
Qed.

Lemma keeps_advances a b : keeps a b -> advances a b.
Proof.
  intros [A1 A2 A3 A4 A5]. constructor; [lia | done | |].
  - intros k e _ He. left. by apply A4.
  - intros k _ Hn. rewrite A2. by split; [apply A5|].
Qed.

(** ** The invariant *)

(** The messages of a binding that are out, on the lane or queued for it. *)
Definition of_session (s : string) (m : Attachment) : Prop := m.2.(Envelope.session_id) = s.
Definition knows (out : list Attachment) (b : RBinding.t) (done : list Z) : Prop :=
  forall m, m ∈ out -> of_session b.(RBinding.session) m -> m.2.(Envelope.kind) = MessageKind.Open ->
    m.2.(Envelope.stream_id) ∈ done.

Section invariant.
Variable namespace : Z.

Definition named (k : Z) (b : RBinding.t) : Prop :=
  b.(RBinding.id) = BindingId.mk namespace k /\ b.(RBinding.session) = session_name (BindingId.mk namespace k).

Record rok (sent : list Attachment) (st : RState.t) : Prop := {
  rk_serial : 0 <= st.(serial) <= U64_MAX;
  rk_named : forall k b, st.(bindings) !! k = Some b -> named k b /\ 0 < k <= st.(serial);
  rk_bok : forall k b, st.(bindings) !! k = Some b ->
    exists done, bok done b /\ knows (sent ++ st.(outbox)) b done;
  rk_session : forall s k, st.(by_session) !! s = Some k ->
    exists b, st.(bindings) !! k = Some b /\ b.(RBinding.session) = s;
  rk_found : forall k b, st.(bindings) !! k = Some b -> st.(by_session) !! b.(RBinding.session) = Some k;
  rk_purged : forall k b, st.(bindings) !! k = Some b -> b.(RBinding.purged) = true ->
    b.(RBinding.faulted) = true /\ forall m, m ∈ st.(outbox) -> ~ of_session b.(RBinding.session) m;
  rk_lost : st.(lost) = true -> st.(outbox) = []
    /\ forall k b, st.(bindings) !! k = Some b -> b.(RBinding.faulted) = true;
  rk_outbox : (length st.(outbox) <= 2 * OUTBOX_ROOM)%nat;
  rk_lasts : forall k, is_Some (st.(lasts) !! k) -> st.(bindings) !! k = None /\ 0 < k <= st.(serial);
}.

(** Bindings of one session are one binding. *)
Lemma named_inj j k a b : 0 <= namespace -> in_u64 j -> in_u64 k -> named j a -> named k b ->
  a.(RBinding.session) = b.(RBinding.session) -> j = k.
Proof.
  intros Hn Hj Hk [_ Ha] [_ Hb] E. rewrite Ha, Hb in E.
  by apply (session_name_inj (BindingId.mk namespace j) (BindingId.mk namespace k)) in E.
Qed.

(** Entries replaced by grown ones. *)
Lemma rok_entries sent st m :
  (forall k b', m !! k = Some b' -> exists b, st.(bindings) !! k = Some b /\ grows b b'
     /\ b'.(RBinding.purged) = b.(RBinding.purged)
     /\ (forall done, bok done b -> bok done b')) ->
  (forall k b, st.(bindings) !! k = Some b -> exists b', m !! k = Some b') ->
  rok sent st -> rok sent (st <| bindings := m |>) /\ keeps st (st <| bindings := m |>).
Proof.
  intros Hm Hback [R1 R2 R3 R4 R5 R6 R7 R8 R9]. split.
  - constructor; cbn; try done.
    + intros k b' Hb'. destruct (Hm k b' Hb') as (b & Hb & G & Hp & Hk). destruct (R2 k b Hb) as [[N1 N2] N3].
      split; [|done]. split; [by rewrite (gr_id _ _ G) | by rewrite (gr_session _ _ G)].
    + intros k b' Hb'. destruct (Hm k b' Hb') as (b & Hb & G & Hp & Hk). destruct (R3 k b Hb) as (done & B1 & B2).
      exists done. split; [by apply Hk|]. intros x Hx Hs. rewrite (gr_session _ _ G) in Hs. by apply B2.
    + intros s k Hs. destruct (R4 s k Hs) as (b & Hb & Es). destruct (Hback k b Hb) as (b' & Hb').
      exists b'. split; [done|]. destruct (Hm k b' Hb') as (b0 & Hb0 & G & _). simplify_eq. apply (gr_session _ _ G).
    + intros k b' Hb'. destruct (Hm k b' Hb') as (b & Hb & G & Hp & Hk). rewrite (gr_session _ _ G). by apply R5.
    + intros k b' Hb' Hpu. destruct (Hm k b' Hb') as (b & Hb & G & Hp & Hk). rewrite Hp in Hpu.
      destruct (R6 k b Hb Hpu) as [Q1 Q2]. split; [by apply (gr_faulted _ _ G)|]. by rewrite (gr_session _ _ G).
    + intros Hl. destruct (R7 Hl) as [Q1 Q2]. split; [done|]. intros k b' Hb'.
      destruct (Hm k b' Hb') as (b & Hb & G & Hp & Hk). apply (gr_faulted _ _ G). by eapply Q2.
    + intros k Hk. destruct (R9 k Hk) as [Q1 Q2]. split; [|done]. destruct (m !! k) as [b'|] eqn:E; [|done].
      destruct (Hm k b' E) as (b & Hb & _). congruence.
  - constructor; cbn; try done.
    + intros k b Hb. destruct (Hback k b Hb) as (b' & Hb'). exists b'. split; [done|].
      destruct (Hm k b' Hb') as (b0 & Hb0 & G & _). by simplify_eq.
    + intros k Hn. destruct (m !! k) as [b'|] eqn:E; [|done].
      destruct (Hm k b' E) as (b & Hb & _). congruence.
Qed.

Lemma rok_insert sent st k b b' : st.(bindings) !! k = Some b -> grows b b' ->
  b'.(RBinding.purged) = b.(RBinding.purged) -> (forall done, bok done b -> bok done b') ->
  rok sent st -> rok sent (st <| bindings := <[k := b']> st.(bindings) |>)
    /\ keeps st (st <| bindings := <[k := b']> st.(bindings) |>).
Proof.
  intros Hb G Hp Hk. apply rok_entries.
  - intros j x [[<- <-]|[Hne Hx]]%lookup_insert_Some; [by exists b | exists x; split_and!; done].
  - intros j x Hx. destruct (decide (j = k)) as [->|Hne]; [exists b'; by rewrite lookup_insert_eq|].
    exists x. by rewrite lookup_insert_ne.
Qed.

Lemma rok_alter sent st k f : (forall b, grows b (f b)) -> (forall b, (f b).(RBinding.purged) = b.(RBinding.purged)) ->
  (forall b done, bok done b -> bok done (f b)) ->
  rok sent st -> rok sent (st <| bindings := alter f k st.(bindings) |>)
    /\ keeps st (st <| bindings := alter f k st.(bindings) |>).
Proof.
  intros G Hp Hk. apply rok_entries.
  - intros j x [(-> & b & Hb & ->)|[Hne Hx]]%lookup_alter_Some; [exists b; split_and!; auto | exists x; split_and!; done].
  - intros j x Hx. destruct (decide (j = k)) as [->|Hne]; [exists (f x); by rewrite lookup_alter_eq, Hx|].
    exists x. by rewrite lookup_alter_ne.
Qed.

Lemma rok_fmap sent st f : (forall b, grows b (f b)) -> (forall b, (f b).(RBinding.purged) = b.(RBinding.purged)) ->
  (forall b done, bok done b -> bok done (f b)) ->
  rok sent st -> rok sent (st <| bindings := f <$> st.(bindings) |>)
    /\ keeps st (st <| bindings := f <$> st.(bindings) |>).
Proof.
  intros G Hp Hk. apply rok_entries.
  - intros j x. rewrite lookup_fmap. intros (b & Hb & ->)%fmap_Some. exists b. split_and!; auto.
  - intros j x Hx. exists (f x). by rewrite lookup_fmap, Hx.
Qed.

(** Fields that the invariant does not read. *)
Lemma rok_other sent st i q a c r w d f :
  rok sent st -> rok sent (st <| ids := i |> <| queue := q |> <| active := a |> <| claims := c |> <| requests := r |>
    <| waiters := w |> <| discarded := d |> <| finished := f |>)
  /\ keeps st (st <| ids := i |> <| queue := q |> <| active := a |> <| claims := c |> <| requests := r |>
    <| waiters := w |> <| discarded := d |> <| finished := f |>).
Proof.
  intros [R1 R2 R3 R4 R5 R6 R7 R8 R9]. split; [by constructor|]. constructor; cbn; try done.
  intros k e He. by exists e.
Qed.
End invariant.

(** ** The pump *)

Section pumping.
Context {L : Layout}.
Variable unstable_sequenced : bool.
Variable config : RemoteConfig.t.
Variable namespace : Z.
Hypothesis Hns : 0 <= namespace.

Abbreviation rok := (rok namespace).

(** Fewer messages waiting. *)
Lemma rok_outbox sent st l : (forall m, m ∈ l -> m ∈ st.(outbox)) -> (length l <= length st.(outbox))%nat ->
  rok sent st -> rok sent (st <| outbox := l |>).
Proof.
  intros Hl Hlen [R1 R2 R3 R4 R5 R6 R7 R8 R9]. constructor; cbn; try done.
  - intros k b Hb. destruct (R3 k b Hb) as (done & B1 & B2). exists done. split; [done|].
    intros m Hm. apply B2. rewrite elem_of_app in *. destruct Hm; auto.
  - intros k b Hb Hp. destruct (R6 k b Hb Hp) as [Q1 Q2]. split; [done|]. intros m Hm. by apply Q2, Hl.
  - intros Hlost. destruct (R7 Hlost) as [Q1 Q2]. split; [|done]. rewrite Q1 in Hlen. by destruct l; [|cbn in Hlen; lia].
  - etransitivity; [exact Hlen | exact R8].
Qed.

Lemma keeps_same st st' : st'.(bindings) = st.(bindings) -> st'.(lasts) = st.(lasts) -> st'.(serial) = st.(serial) ->
  (st.(lost) = true -> st'.(lost) = true) -> keeps st st'.
Proof.
  intros E1 E2 E3 E4. constructor; try done; rewrite E1; [|done]. intros k e He. by exists e.
Qed.

Lemma rok_lose sent st : rok sent st -> rok sent (lose st) /\ keeps st (lose st).
Proof.
  intros H. unfold lose. destruct (lost st) eqn:El; [done|].
  destruct (rok_fmap namespace sent st RBinding.revoke) as [H1 A1]; try done.
  { apply grows_revoke. } { by intros b; unfold RBinding.revoke, RBinding.abort_all; destruct (bool_decide _), (bool_decide _). }
  { intros b done. apply bok_revoke. }
  split.
  - apply (rok_outbox sent _ []) in H1; [|by intros m ?%elem_of_nil|cbn; lia].
    destruct H1 as [R1 R2 R3 R4 R5 R6 R7 R8 R9]. constructor; try done.
    intros _. split; [done|]. cbn. intros k b. rewrite lookup_fmap. intros (b0 & _ & ->)%fmap_Some.
    unfold RBinding.revoke, RBinding.abort_all. by destruct (bool_decide _), (bool_decide _).
  - etransitivity; [exact A1|]. by apply keeps_same.
Qed.

Lemma rok_route_in sent st m : rok sent st -> rok sent (route_in unstable_sequenced m st)
  /\ keeps st (route_in unstable_sequenced m st).
Proof.
  intros H. unfold route_in. destruct (by_session st !! _) as [k|] eqn:Ek; cbn [and_then].
  - destruct (bindings st !! k) as [b|] eqn:Eb.
    + apply (rok_insert namespace sent st k b); try done; [apply grows_receive | | intros done; apply bok_receive].
      unfold RBinding.receive. destruct (_ || _); [done|].
      assert (Ha : forall c l x, (RBinding.abort_all c l x).(RBinding.purged) = x.(RBinding.purged)).
      { intros c l x. unfold RBinding.abort_all. by destruct (bool_decide _). }
      destruct (negb _); [apply Ha|]. destruct (Mux.receive _ _ _) as [[|] ?]; [done | by rewrite Ha].
    + apply (rok_other namespace sent st (ids st) (queue st) (active st) (claims st) (requests st) (waiters st)
        (wrapping_add_u64 (discarded st) 1) (finished st)) in H. destruct st; exact H.
  - apply (rok_other namespace sent st (ids st) (queue st) (active st) (claims st) (requests st) (waiters st)
      (wrapping_add_u64 (discarded st) 1) (finished st)) in H. destruct st; exact H.
Qed.

Lemma rok_route_all sent ms st : rok sent st ->
  rok sent (fold_left (fun st m => route_in unstable_sequenced m st) ms st)
  /\ keeps st (fold_left (fun st m => route_in unstable_sequenced m st) ms st).
Proof.
  revert st. induction ms as [|m ms IH]; intros st H; cbn [fold_left]; [done|].
  destruct (rok_route_in sent st m H) as [H1 A1]. destruct (IH _ H1) as [H2 A2]. split; [done | by etransitivity].
Qed.

Lemma drive_purged now room base b out :
  (RBinding.drive now room config base b out).1.(RBinding.purged) = b.(RBinding.purged).
Proof.
  assert (Hc : forall n x o, (RBinding.collect n x o).1.(RBinding.purged) = x.(RBinding.purged)).
  { induction n as [|n IH]; intros x o; cbn [RBinding.collect]; [done|].
    destruct (Mux.next_message _) as [[m|] m']; [|done]. rewrite IH. destruct (bool_decide _); [|done].
    by destruct (RBinding.by_stream _ !! _). }
  assert (Ha : forall c l x, (RBinding.abort_all c l x).(RBinding.purged) = x.(RBinding.purged)).
  { intros c l x. unfold RBinding.abort_all. by destruct (bool_decide _). }
  assert (Hi : forall ts ctx x, (RBinding.issue_each ts ctx x).(RBinding.purged) = x.(RBinding.purged)).
  { induction ts as [|t ts IH]; intros ctx x; cbn [RBinding.issue_each]; [done|].
    destruct (and_then _ _); [|apply IH]. destruct (open_for _ _); [|by rewrite IH].
    destruct (Mux.open _ _ _) as [[s|e] m']; [by rewrite IH|]. destruct e; try done; by rewrite IH. }
  assert (Ht : forall m x, (RBinding.take_action m x).(RBinding.purged) = x.(RBinding.purged)).
  { intros m x. unfold RBinding.take_action. destruct (RBinding.by_stream x !! _); [|done].
    destruct (RBinding.exchanges x !! _); [|done]. destruct (Envelope.kind m); try done.
    destruct (Envelope.opened m); [|done]. destruct (Mux.binding _); [|done]. by destruct (Stream.new _). }
  assert (Hd : forall n x, (RBinding.drain_loop n x).(RBinding.purged) = x.(RBinding.purged)).
  { induction n as [|n IH]; intros x; cbn [RBinding.drain_loop]; [done|].
    destruct (Mux.next_action _) as [[[r m]|] m']; [|done]. by rewrite IH, Ht. }
  assert (Ho : forall n t e k x, let '(_, _, x', _, _) := RBinding.run_one n t e k x in x'.(RBinding.purged) = x.(RBinding.purged)).
  { induction n as [|n IH]; intros t e k x; cbn [RBinding.run_one]; [done|].
    destruct (Stream.next_message k) as [[m|] k']; [|done]. destruct (Mux.send _ _ _) as [[|] m']; [|done].
    specialize (IH t e k' (x <| RBinding.mux := m' |>)). destruct (RBinding.run_one _ _ _ _ _) as [[[[? ?] ?] ?] ?]. exact IH. }
  assert (Hr : forall ts n q x, (RBinding.run_each now ts n q x).2.(RBinding.purged) = x.(RBinding.purged)).
  { induction ts as [|t ts IH]; intros n q x; cbn [RBinding.run_each]; [done|].
    destruct (RBinding.exchanges x !! t) as [e|]; [|apply IH]. destruct (Exch.machine e) as [k|]; [|apply IH].
    specialize (Ho n t e (Stream.advance now k) x). destruct (RBinding.run_one _ _ _ _ _) as [[[[? ?] x'] ?] ?].
    rewrite IH. exact Ho. }
  unfold RBinding.drive. destruct (RBinding.faulted b); [apply Hc|]. case_bool_decide; cbn [fst].
  { rewrite Ha. destruct (_ && _); [done|]. by destruct (bool_decide _). }
  set (b1 := if _ && _ then _ else _). assert (H1 : b1.(RBinding.purged) = b.(RBinding.purged)) by (subst b1; by destruct (_ && _)).
  clearbody b1. set (b2 := if bool_decide _ then _ else _).
  assert (H2 : b2.(RBinding.purged) = b.(RBinding.purged)).
  { subst b2. destruct (bool_decide _); [|done]. unfold RBinding.issue_opens. destruct (Mux.binding _); [|done]. by rewrite Hi. }
  clearbody b2. pose proof (Hc (unwrap_or room O) (RBinding.drain_actions b2) out) as H3. unfold RBinding.drain_actions in *.
  destruct (RBinding.collect _ _ _) as [b3 o3]. cbn [fst] in H3. rewrite Hd in H3.
  destruct (is_some room); [|cbn; congruence].
  pose proof (Hr (map fst (keep (fun e => RBinding.running e.2) (entries b3.(RBinding.exchanges)))) PER_PASS ∅ b3) as H4.
  fold (RBinding.run_machines now b3) in H4. destruct (RBinding.run_machines now b3) as [q b4]. cbn [snd] in H4.
  pose proof (Hc (unwrap_or room O) b4 o3) as H5. destruct (RBinding.collect _ _ _) as [b5 o5]. cbn in *. congruence.
Qed.

(** One binding's turn: only its own messages are added. *)
Lemma rok_turn sent st k b b' new done' done :
  rok sent st -> st.(lost) = false -> st.(bindings) !! k = Some b ->
  bok done b -> knows (sent ++ st.(outbox)) b done -> handed b done new done' -> bok done' b' -> grows b b' ->
  b'.(RBinding.purged) = b.(RBinding.purged) -> (b'.(RBinding.faulted) = true -> new = []) ->
  (length (st.(outbox) ++ new) <= 2 * OUTBOX_ROOM)%nat ->
  let st' := st <| bindings := <[k := b']> st.(bindings) |> <| outbox := st.(outbox) ++ new |> in
  rok sent st' /\ keeps st st'.
Proof.
  intros [R1 R2 R3 R4 R5 R6 R7 R8 R9] Hlost Hb Hbok Hkn (H1 & H2 & H3) Hb' G Hp Hfn Hlen st'.
  rewrite list.Forall_forall in H1. destruct (R2 k b Hb) as [Nk Kk].
  assert (Hother : forall j c m, j <> k -> st.(bindings) !! j = Some c -> m ∈ new -> ~ of_session c.(RBinding.session) m).
  { intros j c m Hne Hc Hm Hs. destruct (H1 m Hm) as [E _]. unfold of_session in Hs. destruct (R2 j c Hc) as [Nj Kj].
    apply Hne. eapply (named_inj namespace); [done | unfold in_u64; lia | unfold in_u64; lia | exact Nj | exact Nk | congruence]. }
  assert (Hget : forall j c, <[k := b']> st.(bindings) !! j = Some c ->
    (j = k /\ c = b') \/ (j <> k /\ st.(bindings) !! j = Some c)).
  { intros j c [[<- <-]|[? ?]]%lookup_insert_Some; [by left | right; split; [congruence | done]]. }
  split.
  - constructor; cbn -[OUTBOX_ROOM Nat.mul]; try done.
    + intros j c [[-> ->]|[Hne Hc]]%Hget; [|by apply R2]. split; [|done]. destruct Nk as [N1 N2].
      split; [by rewrite (gr_id _ _ G) | by rewrite (gr_session _ _ G)].
    + intros j c [[-> ->]|[Hne Hc]]%Hget.
      * exists done'. split; [done|]. intros m Hm Hs Hk. rewrite (gr_session _ _ G) in Hs.
        rewrite app_assoc in Hm. apply elem_of_app in Hm as [Hm|Hm]; [by apply H2, Hkn | by apply H3].
      * destruct (R3 j c Hc) as (d & D1 & D2). exists d. split; [done|]. intros m Hm Hs Hk.
        rewrite app_assoc in Hm. apply elem_of_app in Hm as [Hm|Hm]; [by apply D2 | by destruct (Hother j c m Hne Hc Hm)].
    + intros s j Hs. destruct (R4 s j Hs) as (c & Hc & Es). destruct (decide (j = k)) as [->|Hne].
      * exists b'. rewrite lookup_insert_eq. split; [done|]. simplify_eq. apply (gr_session _ _ G).
      * exists c. by rewrite lookup_insert_ne.
    + intros j c [[-> ->]|[Hne Hc]]%Hget; [|by apply R5]. rewrite (gr_session _ _ G). by apply R5.
    + intros j c [[-> ->]|[Hne Hc]]%Hget Hpu.
      * rewrite Hp in Hpu. destruct (R6 k b Hb Hpu) as [Q1 Q2]. apply (gr_faulted _ _ G) in Q1 as Q1'. split; [done|].
        rewrite (Hfn Q1'), app_nil_r, (gr_session _ _ G). done.
      * destruct (R6 j c Hc Hpu) as [Q1 Q2]. split; [done|]. intros m [Hm|Hm]%elem_of_app; [by apply Q2 | by eapply Hother].
    + by rewrite Hlost.
    + intros j Hj. destruct (R9 j Hj) as [Q1 Q2]. split; [|done]. rewrite lookup_insert_ne; [done|]. congruence.
  - constructor; cbn; try done.
    + intros j c Hc. destruct (decide (j = k)) as [->|Hne].
      * exists b'. rewrite lookup_insert_eq. split; [done|]. by simplify_eq.
      * exists c. by rewrite lookup_insert_ne.
    + intros j Hn. rewrite lookup_insert_ne; [done|]. congruence.
Qed.

Lemma room_for_bound out n : (length out <= 2 * OUTBOX_ROOM)%nat ->
  (n <= 2 * unwrap_or (room_for out) 0)%nat -> (length out + n <= 2 * OUTBOX_ROOM)%nat.
Proof. unfold room_for. destruct (Nat.ltb_spec (length out) OUTBOX_ROOM); cbn [unwrap_or]; lia. Qed.

Lemma rok_drive_each sent lane serials st : rok sent st -> st.(lost) = false ->
  rok sent (drive_each lane config serials st) /\ keeps st (drive_each lane config serials st)
  /\ (drive_each lane config serials st).(lost) = false.
Proof.
  revert st. induction serials as [|k serials IH]; intros st H Hl; cbn [drive_each]; [done|].
  destruct (bindings st !! k) as [b|] eqn:Eb; [|by apply IH].
  destruct (rk_bok _ _ _ H k b Eb) as (done & D1 & D2).
  pose proof (bok_drive (Lane.now lane) (room_for (outbox st)) config (Lane.path_base lane (RBinding.request b)) b
    (outbox st) done D1) as (new & done' & E & Hlen & Hf & Hh & Hb' & G).
  pose proof (drive_purged (Lane.now lane) (room_for (outbox st)) (Lane.path_base lane (RBinding.request b)) b (outbox st)) as Hp.
  destruct (RBinding.drive _ _ _ _ _ _) as [b' out']. cbn [fst snd] in *. subst out'.
  destruct (rok_turn sent st k b b' new done' done) as [H1 A1]; try done.
  { rewrite length_app. apply room_for_bound; [apply H | done]. }
  destruct (IH _ H1 Hl) as (I1 & I2 & I3). split_and!; try done. by etransitivity.
Qed.

Lemma keep_elem {A} (p : A -> bool) (l : list A) x : x ∈ keep p l <-> p x = true /\ x ∈ l.
Proof. unfold keep. by rewrite list_elem_of_filter. Qed.
Lemma keep_length {A} (p : A -> bool) (l : list A) : (length (keep p l) <= length l)%nat.
Proof. apply length_filter. Qed.

Lemma rok_purge sent st : rok sent st -> rok sent (purge_ended st) /\ keeps st (purge_ended st)
  /\ (forall k b, (purge_ended st).(bindings) !! k = Some b -> b.(RBinding.faulted) = true -> b.(RBinding.purged) = true)
  /\ (purge_ended st).(lost) = st.(lost).
Proof.
  intros H. unfold purge_ended. set (f := fun b : RBinding.t => if b.(RBinding.faulted) then _ else b).
  set (l := keep _ _).
  assert (Hf : forall b, grows b (f b) /\ (forall done, bok done b -> bok done (f b)) /\ (f b).(RBinding.session) = b.(RBinding.session)
    /\ (f b).(RBinding.id) = b.(RBinding.id) /\ (f b).(RBinding.faulted) = b.(RBinding.faulted)).
  { intros b. subst f. cbn. destruct (RBinding.faulted b) eqn:Ef; [|done]. split_and!; try done.
    intros done [I O S B K P F T Q V]. constructor; try done; [intros _; by apply F|]. intros token e effect He Ho. cbn. split; [done|]. by apply (Q token e). }
  assert (Hclean : forall k b, st.(bindings) !! k = Some b -> b.(RBinding.faulted) = true ->
    forall m, m ∈ l -> ~ of_session b.(RBinding.session) m).
  { intros k b Hb Hfl m Hm Hs. subst l. apply keep_elem in Hm as [Hm Hin].
    destruct (RBinding.purged b) eqn:Ep; [by destruct (rk_purged _ _ _ H k b Hb Ep) as [_ Q]; eapply Q|].
    apply negb_true_iff, bool_decide_eq_false in Hm. apply Hm. unfold to_purge, of_session in *. rewrite Hs.
    apply list_elem_of_In, in_map. apply list_elem_of_In, keep_elem. rewrite Hfl, Ep. split; [done|].
    apply elem_of_values. by exists k. }
  assert (Hsub : rok sent (st <| outbox := l |>)).
  { apply rok_outbox; [intros m Hm; subst l; by apply keep_elem in Hm as [_ ?] | apply keep_length | done]. }
  destruct Hsub as [R1 R2 R3 R4 R5 R6 R7 R8 R9]. cbn in R1, R2, R3, R4, R5, R6, R7, R9.
  assert (Hget : forall k b', (f <$> st.(bindings)) !! k = Some b' -> exists b, st.(bindings) !! k = Some b /\ b' = f b).
  { intros k b'. rewrite lookup_fmap. intros (b & Hb & ->)%fmap_Some. by exists b. }
  split_and!; [| | |done].
  - constructor; cbn -[OUTBOX_ROOM Nat.mul]; try done.
    + intros k b' (b & Hb & ->)%Hget. destruct (Hf b) as (G & _ & F1 & F2 & _). destruct (R2 k b Hb) as [[N1 N2] N3].
      split; [|done]. split; congruence.
    + intros k b' (b & Hb & ->)%Hget. destruct (Hf b) as (G & F0 & F1 & F2 & _). destruct (R3 k b Hb) as (d & D1 & D2).
      exists d. split; [by apply F0|]. unfold knows. by rewrite F1.
    + intros s k Hs. destruct (R4 s k Hs) as (b & Hb & Es). exists (f b). rewrite lookup_fmap, Hb. split; [done|].
      destruct (Hf b) as (_ & _ & F1 & _). congruence.
    + intros k b' (b & Hb & ->)%Hget. destruct (Hf b) as (G & F0 & F1 & F2 & _). rewrite F1. by apply R5.
    + intros k b' (b & Hb & ->)%Hget Hp. destruct (Hf b) as (G & F0 & F1 & F2 & F3). rewrite F1, F3.
      destruct (RBinding.faulted b) eqn:Ef; [split; [done|]; by eapply Hclean|].
      subst f. cbn in Hp. rewrite Ef in Hp. destruct (R6 k b Hb Hp). congruence.
    + intros Hl. destruct (R7 Hl) as [Q1 Q2]. split; [done|]. intros k b' (b & Hb & ->)%Hget.
      destruct (Hf b) as (G & F0 & F1 & F2 & F3). rewrite F3. by eapply Q2.
    + intros k Hk. destruct (R9 k Hk) as [Q1 Q2]. split; [|done]. by rewrite lookup_fmap, Q1.
  - constructor; cbn; try done.
    + intros k b Hb. exists (f b). rewrite lookup_fmap, Hb. split; [done | apply Hf].
    + intros k Hn. by rewrite lookup_fmap, Hn.
  - cbn. intros k b' (b & Hb & ->)%Hget Hfl. destruct (Hf b) as (_ & _ & _ & _ & F3). rewrite F3 in Hfl. subst f. cbn. by rewrite Hfl.
Qed.

Lemma drive_each_from sent lane serials st : rok sent st -> st.(lost) = false ->
  forall m, m ∈ (drive_each lane config serials st).(outbox) ->
    m ∈ st.(outbox) \/ exists k b, st.(bindings) !! k = Some b /\ of_session b.(RBinding.session) m.
Proof.
  revert st. induction serials as [|k serials IH]; intros st H Hl m; cbn [drive_each]; [by left|].
  destruct (bindings st !! k) as [b|] eqn:Eb; [|by apply IH].
  destruct (rk_bok _ _ _ H k b Eb) as (done & D1 & D2).
  pose proof (bok_drive (Lane.now lane) (room_for (outbox st)) config (Lane.path_base lane (RBinding.request b)) b
    (outbox st) done D1) as (new & done' & E & Hlen & Hf & Hh & Hb' & G).
  pose proof (drive_purged (Lane.now lane) (room_for (outbox st)) (Lane.path_base lane (RBinding.request b)) b (outbox st)) as Hp.
  destruct (RBinding.drive _ _ _ _ _ _) as [b' out']. cbn [fst snd] in *. subst out'.
  destruct (rok_turn sent st k b b' new done' done) as [H1 A1]; try done.
  { rewrite length_app. apply room_for_bound; [apply H | done]. }
  intros Hm. destruct (IH _ H1 Hl m Hm) as [Hin|(j & c & Hc & Hs)]; cbn in *.
  - apply elem_of_app in Hin as [Hin|Hin]; [by left|]. right. exists k, b. split; [done|].
    destruct Hh as (Hn & _ & _). rewrite list.Forall_forall in Hn. by apply Hn.
  - right. apply lookup_insert_Some in Hc as [[<- <-]|[_ Hc]]; [|by exists j, c].
    exists k, b. split; [done|]. by rewrite <- (gr_session _ _ G).
Qed.

Lemma send_all_split answer n out sent left_ closed : send_all answer n out = (sent, left_, closed) -> out = sent ++ left_.
Proof.
  revert n sent. induction out as [|m out IH]; intros n sent; cbn [send_all]; [by intros [= <- <- _]|].
  destruct (answer n); [| by intros [= <- <- _] | by intros [= <- <- _]].
  destruct (send_all answer (S n) out) as [[s l] c] eqn:E. intros [= <- <- <-]. cbn. f_equal. by eapply IH.
Qed.

Lemma rok_moved sent st s l : rok sent st -> st.(outbox) = s ++ l -> rok (sent ++ s) (st <| outbox := l |>).
Proof.
  intros H E. assert (H1 : rok sent (st <| outbox := l |>)).
  { apply rok_outbox; [|rewrite E, length_app; lia|done]. intros m Hm. rewrite E. apply elem_of_app. by right. }
  destruct H1 as [R1 R2 R3 R4 R5 R6 R7 R8 R9]. constructor; try done. cbn in *.
  intros k b Hb. destruct (rk_bok _ _ _ H k b Hb) as (d & D1 & D2). exists d. split; [done|].
  by rewrite <- app_assoc, <- E.
Qed.

Lemma rok_flush sent lane st : rok sent st -> st.(lost) = false ->
  let '(st', s) := flush lane st in
  rok (sent ++ s) st' /\ keeps st st'
  /\ (forall k b, st.(bindings) !! k = Some b -> b.(RBinding.faulted) = true ->
        forall m, m ∈ s -> ~ of_session b.(RBinding.session) m)
  /\ (forall k b, st'.(bindings) !! k = Some b -> b.(RBinding.faulted) = true ->
        forall m, m ∈ st'.(outbox) -> ~ of_session b.(RBinding.session) m)
  /\ (forall m, m ∈ s ++ st'.(outbox) -> m ∈ st.(outbox)).
Proof.
  intros H Hl. unfold flush. destruct (rok_purge sent st H) as (H1 & A1 & Hp & El).
  assert (Hsub : forall m, m ∈ (purge_ended st).(outbox) -> m ∈ st.(outbox)).
  { intros m Hm. unfold purge_ended in Hm. cbn in Hm. by apply keep_elem in Hm as [_ ?]. }
  assert (Hold : forall k b, st.(bindings) !! k = Some b -> b.(RBinding.faulted) = true ->
    forall m, m ∈ (purge_ended st).(outbox) -> ~ of_session b.(RBinding.session) m).
  { intros k b Hb Hf m Hm. assert (Hb1 : (purge_ended st).(bindings) !! k = Some (b <| RBinding.purged := true |>)).
    { unfold purge_ended. cbn. rewrite lookup_fmap, Hb. cbn. by rewrite Hf. }
    destruct (rk_purged _ _ _ H1 k _ Hb1 eq_refl) as [_ Q]. by apply Q. }
  set (st1 := purge_ended st) in *. clearbody st1.
  destruct (send_all _ 0 _) as [[s l] closed] eqn:Es. apply send_all_split in Es.
  pose proof (rok_moved sent st1 s l H1 Es) as H2.
  assert (A2 : keeps st (st1 <| outbox := l |>)) by (etransitivity; [exact A1|by apply keeps_same]).
  assert (Hclean : forall k b, st1.(bindings) !! k = Some b -> b.(RBinding.faulted) = true ->
    forall m, m ∈ st1.(outbox) -> ~ of_session b.(RBinding.session) m).
  { intros k b Hb Hf m Hm. by apply (rk_purged _ _ _ H1 k b Hb (Hp k b Hb Hf)). }
  assert (Hout : forall k b, st.(bindings) !! k = Some b -> b.(RBinding.faulted) = true ->
        forall m, m ∈ s -> ~ of_session b.(RBinding.session) m).
  { intros k b Hb Hf m Hm. apply (Hold k b Hb Hf). rewrite Es. apply elem_of_app. by left. }
  destruct closed.
  - destruct (rok_lose _ _ H2) as [H3 A3]. split_and!; try done; [by etransitivity | |].
    + intros k b Hb Hf m Hm. unfold lose in Hm. cbn in Hm. rewrite El, Hl in Hm. cbn in Hm. by apply elem_of_nil in Hm.
    + intros m Hm. apply Hsub. rewrite Es. unfold lose in Hm. cbn in Hm. rewrite El, Hl in Hm. cbn in Hm.
      rewrite app_nil_r in Hm. apply elem_of_app. by left.
  - split_and!; try done.
    + intros k b Hb Hf m Hm. apply (Hclean k b Hb Hf). rewrite Es. apply elem_of_app. by right.
    + intros m Hm. apply Hsub. by rewrite Es.
Qed.

(** A session that is over: its binding has faulted, or has left the table with
    nothing of it waiting to be sent. *)
Definition silent (s : string) (st : RState.t) : Prop :=
  (exists k b, st.(bindings) !! k = Some b /\ b.(RBinding.session) = s /\ b.(RBinding.faulted) = true)
  \/ ((exists k, 0 < k <= st.(serial) /\ s = session_name (BindingId.mk namespace k) /\ st.(bindings) !! k = None)
      /\ forall m, m ∈ st.(outbox) -> ~ of_session s m).

(** What is certain of a session that is over. *)
Definition mute (s : string) (st : RState.t) : Prop :=
  silent s st /\ forall m, m ∈ st.(outbox) -> ~ of_session s m.

(** A message of a binding registered so far. *)
Definition issued (st : RState.t) (m : Attachment) : Prop :=
  exists k, 0 < k <= st.(serial) /\ of_session (session_name (BindingId.mk namespace k)) m.

Lemma rok_work sent lane st : rok sent st -> st.(lost) = false ->
  let '(st', s) := work unstable_sequenced lane config st in
  rok (sent ++ s) st' /\ keeps st st'
  /\ (forall k b, st'.(bindings) !! k = Some b -> b.(RBinding.faulted) = true ->
        forall m, m ∈ st'.(outbox) -> ~ of_session b.(RBinding.session) m)
  /\ (forall x, silent x st -> (forall m, m ∈ s ++ st'.(outbox) -> ~ of_session x m))
  /\ (forall m, m ∈ s ++ st'.(outbox) -> m ∈ st.(outbox) \/ issued st m).
Proof.
  intros H Hl. unfold work. destruct (rok_route_all sent (Lane.arrivals lane) st H) as [H1 A1].
  assert (Ho1 : (fold_left (fun st m => route_in unstable_sequenced m st) (Lane.arrivals lane) st).(outbox) = st.(outbox)
    /\ (fold_left (fun st m => route_in unstable_sequenced m st) (Lane.arrivals lane) st).(lost) = st.(lost)).
  { clear. revert st. induction (Lane.arrivals lane) as [|m l IH]; intros st; cbn [fold_left]; [done|].
    destruct (IH (route_in unstable_sequenced m st)) as [-> ->]. unfold route_in.
    destruct (and_then _ _); [|done]. by destruct (by_session st !! _). }
  set (st1 := fold_left _ _ st) in *. clearbody st1. destruct Ho1 as [Ho1 Hl1]. rewrite Hl in Hl1.
  destruct (Lane.ended lane).
  { destruct (rok_lose sent st1 H1) as [H2 A2]. rewrite app_nil_r.
    assert (Hnil : (lose st1).(outbox) = []) by (unfold lose; by rewrite Hl1).
    split_and!; [done | by etransitivity | | |]; rewrite Hnil; [intros ? ? ? ? ? Hm|intros ? ? ? Hm|intros ? Hm]; by apply elem_of_nil in Hm. }
  destruct (rok_fmap namespace sent st1 (fault_entry lane)) as [H2 A2]; try done.
  { intros b. unfold fault_entry. destruct (_ && _); [apply grows_abort | done]. }
  { intros b. unfold fault_entry. destruct (_ && _); [|done]. unfold RBinding.abort_all. by destruct (bool_decide _). }
  { intros b done. unfold fault_entry. destruct (_ && _); [apply bok_abort | done]. }
  set (st2 := st1 <| bindings := fault_entry lane <$> st1.(bindings) |>) in *.
  assert (Ho2 : st2.(outbox) = st.(outbox) /\ st2.(lost) = false) by (by subst st2). clearbody st2. destruct Ho2 as [Ho2 Hl2].
  destruct (rok_drive_each sent lane (keys st2.(bindings)) st2 H2 Hl2) as (H3 & A3 & Hl3).
  pose proof (drive_each_from sent lane (keys st2.(bindings)) st2 H2 Hl2) as Hfrom.
  set (st3 := drive_each lane config (keys st2.(bindings)) st2) in *. clearbody st3.
  pose proof (rok_flush sent lane st3 H3 Hl3) as Hflush. destruct (flush lane st3) as [st4 s].
  destruct Hflush as (H4 & A4 & F1 & F2 & F3).
  assert (A13 : keeps st st3) by (etransitivity; [exact A1|]; etransitivity; [exact A2 | exact A3]).
  split_and!; try done; [by etransitivity| |].
  2:{ intros m Hm. apply F3 in Hm. destruct (Hfrom m Hm) as [Hin|(j & c & Hc & Hs)]; [left; by rewrite Ho2 in Hin|].
      right. destruct (rk_named _ _ _ H2 j c Hc) as [[_ Nc] Hj]. exists j. rewrite Nc in Hs.
      rewrite <- (kp_serial _ _ A1), <- (kp_serial _ _ A2). done. }
  intros x [(k & b & Hb & <- & Hf)|[(k & Hk & -> & Hn) Hout]] m Hm.
  - destruct (kp_entry _ _ A13 k b Hb) as (b' & Hb' & G). rewrite <- (gr_session _ _ G). apply (gr_faulted _ _ G) in Hf.
    apply elem_of_app in Hm as [Hm|Hm]; [by apply (F1 k b')|].
    destruct (kp_entry _ _ A4 k b' Hb') as (b'' & Hb'' & G'). rewrite <- (gr_session _ _ G').
    apply (gr_faulted _ _ G') in Hf. by apply (F2 k b'').
  - apply F3 in Hm. destruct (Hfrom m Hm) as [Hin|(j & c & Hc & Hs)]; [rewrite Ho2 in Hin; by apply Hout|].
    intros Hm'. destruct (rk_named _ _ _ H2 j c Hc) as [[_ Nc] Hj].
    assert (Hjk : j = k).
    { pose proof (rk_serial _ _ _ H2). pose proof (rk_serial _ _ _ H). unfold of_session in *. rewrite Nc in Hs.
      apply (session_name_inj (BindingId.mk namespace j) (BindingId.mk namespace k)); [done | done | | | congruence];
        unfold in_u64; cbn [BindingId.serial]; lia. }
    subst j. assert (Hn2 : st2.(bindings) !! k = None) by (apply (kp_none _ _ A2), (kp_none _ _ A1), Hn). congruence.
Qed.

(** ** Retirement *)

Lemma rok_retire sent st k b : rok sent st -> st.(bindings) !! k = Some b ->
  rok sent (retire k b st) /\ advances st (retire k b st).
Proof.
  intros [R1 R2 R3 R4 R5 R6 R7 R8 R9] Hb. destruct (R2 k b Hb) as [Nk Kk].
  assert (Hlast : st.(lasts) !! k = None).
  { destruct (st.(lasts) !! k) eqn:E; [|done]. destruct (R9 k) as [Hn _]; [by rewrite E | congruence]. }
  assert (Hset : set_once k (RBinding.registration b) st.(lasts) = <[k := RBinding.registration b]> st.(lasts)).
  { unfold set_once. by rewrite Hlast. }
  assert (Hget : forall j c, delete k st.(bindings) !! j = Some c -> j <> k /\ st.(bindings) !! j = Some c).
  { intros j c [? ?]%lookup_delete_Some. split; [congruence | done]. }
  split.
  - constructor; cbn -[OUTBOX_ROOM Nat.mul]; try done.
    + intros j c [_ Hc]%Hget. by apply R2.
    + intros j c [_ Hc]%Hget. by apply R3 in Hc.
    + intros s j [Hne Hs]%lookup_delete_Some. destruct (R4 s j Hs) as (c & Hc & Es). exists c. split; [|done].
      rewrite lookup_delete_ne; [done|]. intros <-. congruence.
    + intros j c [Hne Hc]%Hget. rewrite lookup_delete_ne; [by apply R5|]. intros E. apply Hne.
      destruct (R2 j c Hc) as [Nj Kj].
      eapply (named_inj namespace j k c b); [done | unfold in_u64; lia | unfold in_u64; lia | done | done | congruence].
    + intros j c [_ Hc]%Hget. by apply (R6 j c).
    + intros Hl. destruct (R7 Hl) as [Q1 Q2]. split; [done|]. intros j c [_ Hc]%Hget. by eapply Q2.
    + rewrite Hset. intros j Hj. destruct (decide (j = k)) as [->|Hne]; [by rewrite lookup_delete_eq|].
      rewrite lookup_insert_ne in Hj by done. rewrite lookup_delete_ne by done. by apply R9.
  - constructor; cbn; try done.
    + intros j c _ Hc. destruct (decide (j = k)) as [->|Hne].
      * right. rewrite lookup_delete_eq. split; [done|]. assert (c = b) as -> by congruence. exists b. split; [done|].
        by rewrite Hset, lookup_insert_eq.
      * left. exists c. by rewrite lookup_delete_ne.
    + intros j _ Hn. assert (j <> k) by congruence. rewrite lookup_delete_ne by done. split; [done|].
      rewrite Hset, lookup_insert_ne by done. done.
Qed.

Lemma rok_retire_all sent l st : rok sent st -> NoDup l.*1 ->
  (forall k b, (k, b) ∈ l -> st.(bindings) !! k = Some b) ->
  let st' := fold_left (fun st e => retire e.1 e.2 st) l st in
  rok sent st' /\ advances st st' /\ st'.(outbox) = st.(outbox) /\ st'.(lost) = st.(lost) /\ st'.(serial) = st.(serial)
  /\ (forall k b, st'.(bindings) !! k = Some b -> st.(bindings) !! k = Some b).
Proof.
  revert st. induction l as [|[k b] l IH]; intros st H Hnd Hin; cbn [fold_left fst snd]; [done|].
  cbn [fmap list_fmap fst] in Hnd. apply list.NoDup_cons in Hnd as [Hk Hnd].
  destruct (rok_retire sent st k b H) as [H1 A1]; [apply Hin; left|].
  destruct (IH (retire k b st) H1 Hnd) as (I1 & I2 & I3 & I4 & I5 & I6).
  - intros j c Hj. cbn. rewrite lookup_delete_ne; [apply Hin; by right|]. intros <-. apply Hk.
    apply list_elem_of_fmap. by exists (k, c).
  - split_and!; try done; [by etransitivity|]. intros j c Hc. apply I6 in Hc. cbn in Hc. by apply lookup_delete_Some in Hc as [_ ?].
Qed.

Lemma finished_entries_in st : NoDup (finished_entries st).*1
  /\ forall k b, (k, b) ∈ finished_entries st -> st.(bindings) !! k = Some b /\ is_finished b = true.
Proof.
  unfold finished_entries. split.
  - pose proof (NoDup_keys st.(bindings)) as Hnd. unfold keys in Hnd. unfold keep.
    induction (entries st.(bindings)) as [|e l IH]; [constructor|]. cbn [fmap list_fmap] in Hnd.
    apply list.NoDup_cons in Hnd as [He Hnd]. rewrite filter_cons. case_decide; [|by apply IH].
    cbn [fmap list_fmap]. apply list.NoDup_cons. split; [|by apply IH]. intros (x & Ex & Hx)%list_elem_of_fmap.
    apply list_elem_of_filter in Hx as [_ Hx]. apply He. rewrite Ex. by apply list_elem_of_fmap_2.
  - intros k b [Hf Hin]%keep_elem. split; [by apply elem_of_entries | done].
Qed.

Lemma rok_pump sent lane st : rok sent st ->
  let '(st', c) := pump unstable_sequenced lane config st in
  rok (sent ++ c.(Carrier.sent)) st' /\ advances st st'
  /\ (st.(lost) = true -> c.(Carrier.sent) = [])
  /\ (forall x, silent x st -> silent x st' /\ forall m, m ∈ c.(Carrier.sent) -> ~ of_session x m)
  /\ (forall m, m ∈ c.(Carrier.sent) ++ st'.(outbox) -> m ∈ st.(outbox) \/ issued st m).
Proof.
  intros H. unfold pump.
  assert (Hw : let '(st1, s) := if st.(lost) then (st, []) else work unstable_sequenced lane config st in
    rok (sent ++ s) st1 /\ keeps st st1 /\ (st.(lost) = true -> s = [])
    /\ (forall k b, st1.(bindings) !! k = Some b -> b.(RBinding.faulted) = true ->
        forall m, m ∈ st1.(outbox) -> ~ of_session b.(RBinding.session) m)
    /\ (forall x, silent x st -> (forall m, m ∈ s ++ st1.(outbox) -> ~ of_session x m))
    /\ (forall m, m ∈ s ++ st1.(outbox) -> m ∈ st.(outbox) \/ issued st m)).
  { destruct (lost st) eqn:El.
    - rewrite app_nil_r. destruct (rk_lost _ _ _ H El) as [Q1 Q2]. split_and!; try done; rewrite Q1;
        [intros ? ? ? ? ? Hm|intros ? ? ? Hm|intros ? Hm]; by apply elem_of_nil in Hm.
    - pose proof (rok_work sent lane st H El) as Hw. destruct (work _ _ _ _) as [st1 s].
      destruct Hw as (W1 & W2 & W3 & W4 & W5). split_and!; done. }
  destruct (if st.(lost) then _ else _) as [st1 s]. destruct Hw as (W1 & W2 & W3 & W4 & W5 & W6).
  unfold retire_finished. destruct (finished_entries_in st1) as [Hnd Hin].
  destruct (rok_retire_all (sent ++ s) (finished_entries st1) st1 W1 Hnd) as (P1 & P2 & P3 & P4 & P5 & P6).
  { intros k b Hk. by apply Hin in Hk as [? _]. }
  set (st2 := fold_left _ _ st1) in *. clearbody st2. cbn [Carrier.sent].
  split_and!; [done | etransitivity; [apply keeps_advances, W2 | exact P2] | done | | by rewrite P3].
  intros x Hx. split; [|intros m Hm; apply (W5 x Hx); apply elem_of_app; by left].
  assert (Hmute : forall m, m ∈ st2.(outbox) -> ~ of_session x m).
  { intros m Hm. apply (W5 x Hx). rewrite P3 in Hm. apply elem_of_app. by right. }
  destruct Hx as [(k & b & Hb & <- & Hf)|[(k & Hk & -> & Hn) Hout]].
  - destruct (kp_entry _ _ W2 k b Hb) as (b1 & Hb1 & G). pose proof (rk_named _ _ _ W1 k b1 Hb1) as [[_ N] Kk].
    rewrite <- (gr_session _ _ G) in *. apply (gr_faulted _ _ G) in Hf.
    destruct (st2.(bindings) !! k) as [b2|] eqn:E2.
    + left. exists k, b2. apply P6 in E2 as E1. simplify_eq. done.
    + right. split; [|done]. exists k. rewrite P5. done.
  - right. split; [|done]. exists k. rewrite P5, (kp_serial _ _ W2). split_and!; try done; [lia..|].
    destruct (st2.(bindings) !! k) as [b2|] eqn:E2; [|done]. apply P6 in E2. apply (kp_none _ _ W2) in Hn. congruence.
Qed.
End pumping.
