(* ===== verification/RemoteSession.v ===== *)
(** * Every run of a carrier-backed handle

    A [world] is the state of one session with what its callers hold: admission
    records, registration permits, and the messages the lane has taken.  [step] is
    one closure of remote/backend.rs or remote/stream.rs under the state lock, or one
    pump with any answers of the lane; the calls of the code are sequences of them.
    A 64-bit counter that has come to its end is outside the relation.

    Two invariants hold in every reachable world: [rok] of [RemoteRun], and [acct],
    the account of slots and names. *)
From S2P Require Import Prelude Utf8 Text TextFacts Cbor CborFacts Protocol ProtocolFacts Budget Admission Policy Validate Codec CodecFacts Binding BindingFacts IoClock Stream Mux MuxFacts MuxSteps MuxRun RemoteMux PoolTypes Operation RemoteTable ConnBinding RemoteCore RemoteFacts RemoteBackend RemoteRun.
Import RState.

Record world := World {
  st : RState.t;
  sent : list Attachment;
  (** The admission records and the permits out, with the name of each call. *)
  records : gmap Z string;
  permits : gmap Z string;
}.

(** A 64-bit counter that can count once more. *)
Definition countable (n : Z) : Prop := 0 <= n < U64_MAX.

Section session.
Context {L : Layout}.
Variable unstable_sequenced : bool.
Variable config : RemoteConfig.t.
Variable namespace : Z.

Definition pumped (lane : Lane.t) (w : world) : world :=
  let '(s, c) := pump unstable_sequenced lane config w.(st) in
  World s (w.(sent) ++ c.(Carrier.sent)) w.(records) w.(permits).
Definition at_state (s : RState.t) (w : world) : world := World s w.(sent) w.(records) w.(permits).

Inductive step (w : world) : world -> Prop :=
| Pumps lane : step w (pumped lane w)
| Wakes : step w (at_state (ready_wakers config.(RemoteConfig.active_operations) w.(st)).2 w)
| Publishes : step w (at_state (w.(st) <| finished := [] |>) w)
| Admits live request id s :
    countable w.(st).(ids) -> admit_in config live request w.(st) = (Ok id, s) ->
    step w (World s w.(sent) (<[id := request]> w.(records)) w.(permits))
| DropsAdmission id request : w.(records) !! id = Some request ->
    step w (World (drop_admission_in id request w.(st)).2 w.(sent) (delete id w.(records)) w.(permits))
| Acquires id request waker s : w.(records) !! id = Some request ->
    acquire_in config id waker w.(st) = (Some (Ok tt), s) ->
    step w (World s w.(sent) (delete id w.(records)) (<[id := request]> w.(permits)))
| Waits id request waker s r : w.(records) !! id = Some request ->
    acquire_in config id waker w.(st) = (r, s) -> r <> Some (Ok tt) -> step w (at_state s w)
| Registers id request : w.(permits) !! id = Some request -> countable w.(st).(serial) ->
    step w (World (register_in config namespace id request w.(st)).2 w.(sent) w.(records) (delete id w.(permits)))
| DropsPermit id request : w.(permits) !! id = Some request ->
    step w (World (drop_permit_in id request w.(st)).2 w.(sent) w.(records) (delete id w.(permits)))
| Opens serial spec :
    (forall b, w.(st).(bindings) !! serial = Some b -> countable b.(RBinding.next_token)) ->
    step w (at_state (open_in config serial spec w.(st)).2 w)
| Finishes serial : step w (at_state (finish_in serial w.(st)).2 w)
| Abandons serial : step w (at_state (abandon_in serial w.(st)).2 w)
| Cancels serial : step w (at_state (cancel_in serial w.(st)).2 w)
| DropsLive serial token : step w (at_state (drop_live_in serial token w.(st)).2 w)
| PollsRegistered serial slot waker : step w (at_state (poll_registered_in serial slot waker w.(st)).2 w)
| PollsOpen serial token waker : step w (at_state (poll_open_in serial token waker w.(st)).2 w)
| PollsFinish serial token waker : step w (at_state (poll_finish_in serial token waker w.(st)).2 w)
| Calls (R : Type) serial token (f : Stream.t -> result R StreamError.t * Stream.t) :
    step w (at_state (stream_call_in serial token f w.(st)).2 w)
| Closes serial token : step w (at_state (stream_finish_in serial token w.(st)).2 w)
| Forgets wait : step w (at_state (forget wait w.(st)) w).

Inductive steps : world -> world -> Prop :=
| steps_refl w : steps w w
| steps_next a b c : steps a b -> step b c -> steps a c.

Definition start : world := World RState.new [] ∅ ∅.
Definition reachable (w : world) : Prop := steps start w.

(** ** The changes of one binding *)

Hypothesis Hns : 0 <= namespace.
Abbreviation rok := (rok namespace).

Lemma rok_binding s w k f : (forall b, w.(bindings) !! k = Some b ->
    grows b (f b) /\ (f b).(RBinding.purged) = b.(RBinding.purged) /\ (forall done, bok done b -> bok done (f b))) ->
  rok s w -> rok s (on_binding k f w) /\ keeps w (on_binding k f w).
Proof.
  intros Hf. apply rok_entries.
  - intros j x [(-> & b & Hb & ->)|[Hne Hx]]%lookup_alter_Some; [|exists x; split_and!; done].
    destruct (Hf b Hb) as (F1 & F2 & F3). by exists b.
  - intros j x Hx. destruct (decide (j = k)) as [->|Hne]; [exists (f x); by rewrite lookup_alter_eq, Hx|].
    exists x. by rewrite lookup_alter_ne.
Qed.

Lemma abort_purged c l b : (RBinding.abort_all c l b).(RBinding.purged) = b.(RBinding.purged).
Proof. unfold RBinding.abort_all. by destruct (bool_decide _). Qed.

Lemma keeps_refl st' : keeps st' st'.
Proof. reflexivity. Qed.

(** A state that differs only in fields the invariant does not read. *)
Definition aside (a b : RState.t) : Prop :=
  exists i q n c r ws d f, b = a <| ids := i |> <| queue := q |> <| active := n |> <| claims := c |> <| requests := r |>
    <| waiters := ws |> <| discarded := d |> <| finished := f |>.
Ltac aside := match goal with |- aside ?a _ => unfold aside; destruct a; cbn; do 8 eexists; cbn; reflexivity end.

Lemma rok_aside s a b : aside a b -> rok s a -> rok s b /\ keeps a b /\ b.(outbox) = a.(outbox).
Proof.
  intros (i & q & n & c & r & ws & d & f & ->) H. destruct (rok_other namespace s a i q n c r ws d f H) as [H1 H2]. done.
Qed.

(** ** The closures that change one binding *)

Definition tame (f : RBinding.t -> RBinding.t) (b : RBinding.t) : Prop :=
  grows b (f b) /\ (f b).(RBinding.purged) = b.(RBinding.purged) /\ forall done, bok done b -> bok done (f b).

Lemma tame_exchange token e e' b : b.(RBinding.exchanges) !! token = Some e -> exch_le e e' ->
  tame (fun b => b <| RBinding.exchanges := <[token := e']> b.(RBinding.exchanges) |>) b.
Proof. intros He Hle. split_and!; try done. intros done. by apply (bok_insert done b token e). Qed.

Lemma tame_finish b : tame finish_entry b.
Proof.
  unfold tame, finish_entry. case_bool_decide as E; [|split_and!; try done; intros done [I O S B K P F T Q V]; by constructor].
  split_and!.
  - etransitivity; [|apply grows_abort]. constructor; cbn; done.
  - by rewrite abort_purged.
  - intros done [I O S B K P F T Q V]. apply bok_abort. by constructor.
Qed.

Lemma cancel_purged b : (RBinding.cancel_all b).2.(RBinding.purged) = b.(RBinding.purged).
Proof. unfold RBinding.cancel_all. destruct (RBinding.cancelled b); [done|]. case_bool_decide; cbn [snd]; [by rewrite abort_purged | done]. Qed.

Lemma tame_cancel b : tame (fun b => (RBinding.cancel_all b).2) b.
Proof. split_and!; [apply grows_cancel_all | apply cancel_purged | intros done; apply bok_cancel_all]. Qed.

Lemma tame_abandon b : tame (fun e => (RBinding.cancel_all e).2 <| RBinding.sealed := true |>) b.
Proof.
  destruct (tame_cancel b) as (T1 & T2 & T3). split_and!.
  - etransitivity; [exact T1|]. by constructor.
  - exact T2.
  - intros done H. destruct (T3 done H) as [I O S B K P F T Q V]. by constructor.
Qed.

Lemma drop_exch_le e : (drop_exch e).(Exch.stage) <> Stage.Ended -> exch_le e (drop_exch e).
Proof. unfold drop_exch. cbn. destruct (Exch.stage e) eqn:E; intros Hst; constructor; cbn in *; try done; congruence || over_told. Qed.

Lemma tame_drop token b : tame (drop_live_entry token) b.
Proof.
  unfold tame, drop_live_entry. cbn. destruct (RBinding.exchanges b !! token) as [e|] eqn:Ee.
  2:{ split_and!; try done. intros done [I O S B K P F T Q V]. by constructor. }
  assert (Hb : forall done, bok done b -> bok done (b <| RBinding.live := saturating_sub_u64 (RBinding.live b) 1 |>)).
  { intros done [I O S B K P F T Q V]. by constructor. }
  case_bool_decide as Hst; split_and!; try done; intros done H; apply Hb in H.
  - refine (bok_exchanges done _ (fun _ e => e) _ _ _ H); [|done]. cbn. intros t.
    destruct (decide (t = token)) as [->|Hne]; [right; apply lookup_delete_eq|left]. rewrite lookup_delete_ne by done.
    by destruct (RBinding.exchanges b !! t).
  - refine (bok_insert done _ token e _ _ _ H); [done | by apply drop_exch_le].
Qed.

Lemma tame_queue spec b : countable b.(RBinding.next_token) ->
  tame (fun b => (RBinding.queue_exchange spec (b <| RBinding.live := usize_add b.(RBinding.live) 1 |>)).2) b.
Proof.
  intros [H0 H1]. split_and!.
  - etransitivity; [|apply grows_queue_exchange]. by constructor.
  - done.
  - intros done [I O S B K P F T Q V]. apply bok_queue_exchange; [by constructor | done | done].
Qed.

(** A closure on one exchange that is there. *)
Lemma rok_put s w k token e e' : exchange_of k token w = Some e -> exch_le e e' -> rok s w ->
  rok s (put_exch k token e' w) /\ keeps w (put_exch k token e' w).
Proof.
  intros He Hle. unfold put_exch. apply rok_binding. intros b Hb. apply (tame_exchange token e e'); [|done].
  unfold exchange_of in He. by rewrite Hb in He.
Qed.

(** [insert] of what a closure makes of a binding it found. *)
Lemma rok_put_binding s w k b f : w.(bindings) !! k = Some b -> tame f b -> rok s w ->
  rok s (w <| bindings := <[k := f b]> w.(bindings) |>) /\ keeps w (w <| bindings := <[k := f b]> w.(bindings) |>).
Proof. intros Hb (T1 & T2 & T3). by apply (rok_insert namespace s w k b). Qed.

(** ** Registration *)

Lemma bok_new id session request m : initiates session m -> in_order [] m ->
  bok [] (RBinding.new id session request m).
Proof.
  intros Hi Ho. by constructor.
Qed.

Lemma initiator_bound session c m request : Mux.initiator session c = Ok m ->
  let m' := (Mux.begin request (Mux.register request (Some request) m).2).2 in initiates session m' /\ in_order [] m'.
Proof.
  unfold Mux.initiator, Mux.new. destruct (_ || _); [done|]. intros [= <-]. cbn zeta.
  set (m0 := Mux.mk _ _ _ _ _ _ _ _ _ _ _ _ _ _ _ _).
  assert (H0 : initiates session m0 /\ in_order [] m0).
  { split; [constructor; try done; apply Forall_nil_2 | split_and!; try done; constructor]. }
  clearbody m0. destruct H0 as [I0 O0]. split.
  - by apply initiates_begin, initiates_register.
  - eapply in_order_changes; [|apply changes_begin]. eapply in_order_changes; [exact O0 | apply changes_register].
Qed.

(** What registration makes of the state: a new binding, or only a counter. *)
Lemma register_cases id request w : countable w.(serial) ->
  exists w1, aside w w1 /\
   ((register_in config namespace id request w).2 = w1
    \/ (register_in config namespace id request w).2 = w1 <| serial := w1.(serial) + 1 |>
    \/ exists m, Mux.initiator (session_name (BindingId.mk namespace (w1.(serial) + 1))) (remote_mux_config config) = Ok m
      /\ w1.(lost) = false
      /\ (register_in config namespace id request w).2
         = w1 <| serial := w1.(serial) + 1 |>
              <| bindings := <[w1.(serial) + 1 := RBinding.new (BindingId.mk namespace (w1.(serial) + 1))
                   (session_name (BindingId.mk namespace (w1.(serial) + 1))) request
                   (Mux.begin request (Mux.register request (Some request) m).2).2]> w1.(bindings) |>
              <| by_session := <[session_name (BindingId.mk namespace (w1.(serial) + 1)) := w1.(serial) + 1]> w1.(by_session) |>).
Proof.
  intros [H0 H1]. assert (Hs : wrapping_add_u64 w.(serial) 1 = w.(serial) + 1).
  { unfold wrapping_add_u64. apply as_u64_id. lia. }
  unfold register_in, release. cbn [lost serial over]. rewrite Hs. cbn [over].
  assert (Ha : aside w (w <| claims := w.(claims) ∖ {[id]} |>)) by aside.
  assert (Hr : aside w (w <| claims := w.(claims) ∖ {[id]} |> <| active := saturating_sub_u64 w.(active) 1 |>
    <| requests := w.(requests) ∖ {[request]} |>)) by aside.
  destruct w as [lost0 ? ? ? ? ? ? ? ? ? ? ? ? ?]. cbn in Ha, Hr |- *.
  destruct lost0; [eexists; split; [exact Hr | left; reflexivity]|].
  destruct (Mux.initiator _ _) as [m|] eqn:Em; [|eexists; split; [exact Hr | right; left; reflexivity]].
  destruct (Mux.register _ _ _) as [[[]|] m1] eqn:Er; [|eexists; split; [exact Hr | right; left; reflexivity]].
  destruct (Mux.begin _ _) as [[[]|] m2] eqn:Eb; [|eexists; split; [exact Hr | right; left; reflexivity]].
  eexists; split; [exact Ha|]. right. right. exists m. rewrite Er. cbn [snd]. by rewrite Eb.
Qed.

(** ** Every step keeps the invariant *)

Abbreviation issued := (issued namespace).
Abbreviation silent := (silent namespace).

Definition sok (w : world) : Prop :=
  rok w.(sent) w.(st) /\ forall m, m ∈ w.(sent) ++ w.(st).(outbox) -> issued w.(st) m.

(** What a step does, besides keeping the invariant. *)
Record onward (a b : world) : Prop := {
  on_advances : advances a.(st) b.(st);
  on_sent : exists new, b.(sent) = a.(sent) ++ new /\ (a.(st).(lost) = true -> new = [])
    /\ forall x, silent x a.(st) -> silent x b.(st) /\ forall m, m ∈ new -> ~ of_session x m;
}.

#[global] Instance onward_preorder : PreOrder onward.
Proof.
  split.
  - intros a. split; [reflexivity|]. exists []. rewrite app_nil_r. split_and!; try done.
    intros x Hx. split; [done|]. intros m Hm. by apply elem_of_nil in Hm.
  - intros a b c [A1 (n & An & Al & Ax)] [B1 (k & Bn & Bl & Bx)]. split; [by transitivity (st b)|].
    exists (n ++ k). rewrite Bn, An, app_assoc. split_and!; try done.
    + intros Hl. rewrite (Al Hl), (Bl (ad_lost _ _ A1 Hl)). done.
    + intros x Hx. destruct (Ax x Hx) as [Hx1 N1]. destruct (Bx x Hx1) as [Hx2 N2]. split; [done|].
      intros m [Hm|Hm]%elem_of_app; auto.
Qed.

Lemma silent_keeps x a b : keeps a b -> b.(outbox) = a.(outbox) -> silent x a -> silent x b.
Proof.
  intros K Ho [(k & e & He & <- & Hf)|[(k & Hk & -> & Hn) Hout]].
  - destruct (kp_entry _ _ K k e He) as (e' & He' & G). left. exists k, e'. split; [done|].
    split; [apply (gr_session _ _ G) | by apply (gr_faulted _ _ G)].
  - right. rewrite Ho. split; [|done]. exists k. rewrite (kp_serial _ _ K). split_and!; try done; [lia..|]. by apply (kp_none _ _ K).
Qed.

(** A closure that sends nothing. *)
Lemma quiet_session_step w s rs ps : sok w -> rok w.(sent) s -> keeps w.(st) s -> s.(outbox) = w.(st).(outbox) ->
  let w' := World s w.(sent) rs ps in sok w' /\ onward w w'.
Proof.
  intros [_ Hi] H K Ho w'. split.
  - split; [done|]. cbn. rewrite Ho. intros m Hm. destruct (Hi m Hm) as (k & Hk & Hs). exists k.
    by rewrite (kp_serial _ _ K).
  - split; [by apply keeps_advances|]. exists []. cbn. rewrite app_nil_r. split_and!; try done.
    intros x Hx. split; [by apply (silent_keeps x w.(st))|]. intros m Hm. by apply elem_of_nil in Hm.
Qed.

Lemma aside_step w s rs ps : sok w -> aside w.(st) s ->
  let w' := World s w.(sent) rs ps in sok w' /\ onward w w'.
Proof.
  intros H Ha. destruct (rok_aside w.(sent) w.(st) s Ha (proj1 H)) as (H1 & K & Ho). by apply quiet_session_step.
Qed.

Lemma pump_step w lane : sok w -> sok (pumped lane w) /\ onward w (pumped lane w).
Proof.
  intros [H Hi]. unfold pumped. pose proof (rok_pump unstable_sequenced config namespace Hns w.(sent) lane w.(st) H) as Hp.
  destruct (pump unstable_sequenced lane config (st w)) as [s c]. destruct Hp as (P1 & P2 & P3 & P4 & P5).
  assert (Hserial : w.(st).(serial) <= s.(serial)) by apply P2.
  split.
  - split; [done|]. cbn. intros m. rewrite <- app_assoc. intros [Hm|Hm]%elem_of_app.
    + destruct (Hi m) as (k & Hk & Hs); [apply elem_of_app; by left|]. exists k. split; [lia | done].
    + destruct (P5 m Hm) as [Hin|(k & Hk & Hs)]; [|exists k; split; [lia | done]].
      destruct (Hi m) as (k & Hk & Hs); [apply elem_of_app; by right|]. exists k. split; [lia | done].
  - split; [done|]. exists c.(Carrier.sent). done.
Qed.

(** A binding under the next serial. *)
Lemma rok_enter s w b : rok s w -> countable w.(serial) -> w.(lost) = false ->
  (forall m, m ∈ s ++ w.(outbox) -> issued w m) -> named namespace (w.(serial) + 1) b ->
  bok [] b -> b.(RBinding.purged) = false ->
  rok s (w <| serial := w.(serial) + 1 |> <| bindings := <[w.(serial) + 1 := b]> w.(bindings) |>
           <| by_session := <[b.(RBinding.session) := w.(serial) + 1]> w.(by_session) |>).
Proof.
  intros [R1 R2 R3 R4 R5 R6 R7 R8 R9] [C0 C1] Hl Hi Nb Hb Hp.
  set (n := w.(serial) + 1) in *.
  assert (Hget : forall k c, <[n := b]> w.(bindings) !! k = Some c -> (k = n /\ c = b) \/ (k <> n /\ w.(bindings) !! k = Some c)).
  { intros k c [[<- <-]|[? ?]]%lookup_insert_Some; [by left | right; split; [congruence | done]]. }
  assert (Hfresh : forall k c, w.(bindings) !! k = Some c -> c.(RBinding.session) <> b.(RBinding.session)).
  { intros k c Hc E. destruct (R2 k c Hc) as [Nc Hk].
    assert (k = n) by (eapply (named_inj namespace k n c b); unfold in_u64; try done; lia). lia. }
  constructor; cbn -[OUTBOX_ROOM Nat.mul]; try done.
  - lia.
  - intros k c [[-> ->]|[Hne Hc]]%Hget; [split; [done | lia]|]. destruct (R2 k c Hc). split; [done | lia].
  - intros k c [[-> ->]|[Hne Hc]]%Hget; [|by apply R3 in Hc]. exists []. split; [done|]. intros m Hm Hs _.
    exfalso. destruct (Hi m Hm) as (k & Hk & Hs'). unfold of_session in *. rewrite Hs' in Hs. destruct Nb as [_ Nb].
    rewrite Nb in Hs. apply session_name_inj in Hs; unfold in_u64; cbn [BindingId.host BindingId.serial] in *; try done; lia.
  - intros x k [[<- <-]|[Hne Hs]]%lookup_insert_Some; [exists b; by rewrite lookup_insert_eq|].
    destruct (R4 x k Hs) as (c & Hc & Es). exists c. destruct (R2 k c Hc) as [_ Hk]. rewrite lookup_insert_ne; [done | lia].
  - intros k c [[-> ->]|[Hne Hc]]%Hget; [by rewrite lookup_insert_eq|]. rewrite lookup_insert_ne; [by apply R5|].
    intros E. by apply (Hfresh k c Hc).
  - intros k c [[-> ->]|[Hne Hc]]%Hget Hpu; [congruence | by eapply R6].
  - by rewrite Hl.
  - intros k Hk. destruct (R9 k Hk) as [Q1 Q2]. split; [|lia]. rewrite lookup_insert_ne; [done | lia].
Qed.

Lemma enter_advances w b bs : advances w (w <| serial := w.(serial) + 1 |>
  <| bindings := <[w.(serial) + 1 := b]> w.(bindings) |> <| by_session := bs |>).
Proof.
  constructor; cbn; [lia | done | |].
  - intros k e Hk He. left. exists e. rewrite lookup_insert_ne; [done | lia].
  - intros k Hk Hn. rewrite lookup_insert_ne; [done | lia].
Qed.

(** A serial passed over. *)
Lemma rok_skip s w : rok s w -> countable w.(serial) -> rok s (w <| serial := w.(serial) + 1 |>).
Proof.
  intros [R1 R2 R3 R4 R5 R6 R7 R8 R9] [C0 C1]. constructor; cbn -[OUTBOX_ROOM Nat.mul]; try done.
  - lia.
  - intros k b Hb. destruct (R2 k b Hb). split; [done | lia].
  - intros k Hk. destruct (R9 k Hk). split; [done | lia].
Qed.

Lemma silent_serial x a b : a.(serial) <= b.(serial) -> b.(outbox) = a.(outbox) ->
  (forall k, k <= a.(serial) -> b.(bindings) !! k = a.(bindings) !! k) -> (forall k e, a.(bindings) !! k = Some e -> k <= a.(serial)) ->
  silent x a -> silent x b.
Proof.
  intros Hs Ho Hb Hk [(k & e & He & <- & Hf)|[(k & Hk' & -> & Hn) Hout]].
  - left. exists k, e. rewrite Hb by (by eapply Hk). done.
  - right. rewrite Ho. split; [|done]. exists k. rewrite Hb by lia. split_and!; try done; lia.
Qed.

Lemma register_step w id request rs ps : sok w -> countable w.(st).(serial) ->
  let w' := World (register_in config namespace id request w.(st)).2 w.(sent) rs ps in sok w' /\ onward w w'.
Proof.
  intros H Hc w'. destruct (register_cases id request w.(st) Hc) as (w1 & Ha & Hcase).
  destruct (aside_step w w1 w.(records) w.(permits) H Ha) as [H1 O1]. set (a := World w1 w.(sent) _ _) in *.
  assert (Hc1 : countable w1.(serial)) by (destruct Ha as (? & ? & ? & ? & ? & ? & ? & ? & ->); exact Hc).
  assert (Hgo : forall s, rok w.(sent) s -> s.(serial) = w1.(serial) + 1 -> s.(outbox) = w1.(outbox) ->
      (forall k, k <= w1.(serial) -> s.(bindings) !! k = w1.(bindings) !! k) -> advances w1 s ->
      sok (World s w.(sent) rs ps) /\ onward w (World s w.(sent) rs ps)).
  { intros s Hs Es Eo Eb A. destruct H1 as [R1 I1]. split.
    - split; [done|]. cbn. rewrite Eo. intros m Hm. destruct (I1 m Hm) as (k & Hk & Hsm). exists k. split; [cbn in Hk; lia | done].
    - transitivity a; [done|]. split; [done|]. exists []. cbn. rewrite app_nil_r. split_and!; try done.
      intros x Hx. split; [|intros m Hm; by apply elem_of_nil in Hm]. apply (silent_serial x w1 s); try done; [lia|].
      intros k e He. apply (rk_named _ _ _ R1 k e) in He. cbn in He. lia. }
  subst w'. destruct Hcase as [->|[->|(m & Em & Hl & ->)]].
  - by apply aside_step.
  - apply Hgo; try done; [apply rok_skip; [apply H1 | done]|]. constructor; cbn; try done; [lia|]. intros k e _ He. left. by exists e.
  - pose proof (initiator_bound _ _ m request Em) as Hm. cbn zeta in Hm. destruct Hm as [Hi Ho].
    apply Hgo; try done.
    + refine (rok_enter w.(sent) w1 (RBinding.new _ _ request _) (proj1 H1) Hc1 Hl (proj2 H1) _ _ _); [done | by apply bok_new | done].
    + intros k Hk. cbn. rewrite lookup_insert_ne; [done | lia].
    + apply enter_advances.
Qed.

Lemma binding_step w k f : sok w -> (forall b, w.(st).(bindings) !! k = Some b -> tame f b) ->
  let w' := at_state (on_binding k f w.(st)) w in sok w' /\ onward w w'.
Proof.
  intros H Hf. destruct (rok_binding w.(sent) w.(st) k f Hf (proj1 H)) as [H1 K]. by apply quiet_session_step.
Qed.

Lemma put_step w k token e e' : sok w -> exchange_of k token w.(st) = Some e -> exch_le e e' ->
  let w' := at_state (put_exch k token e' w.(st)) w in sok w' /\ onward w w'.
Proof.
  intros H He Hle. destruct (rok_put w.(sent) w.(st) k token e e' He Hle (proj1 H)) as [H1 K]. by apply quiet_session_step.
Qed.

Lemma stay_step w : sok w -> let w' := at_state w.(st) w in sok w' /\ onward w w'.
Proof. intros H. by apply quiet_session_step; [| apply H | |]. Qed.

Lemma aside_wait wait waker s : aside s (wait_for wait waker s).
Proof. unfold wait_for. aside. Qed.

Lemma acquire_aside id waker s r s' : acquire_in config id waker s = (r, s') -> aside s s'.
Proof.
  unfold acquire_in. destruct (lost s); [intros [= _ <-]; aside|]. destruct (_ && _); intros [= _ <-]; aside.
Qed.

Lemma exchange_over w k token e : sok w -> exchange_of k token w.(st) = Some e -> over_told e.
Proof.
  intros [H _] He. unfold exchange_of in He. destruct (bindings (st w) !! k) as [b|] eqn:Eb; [|done].
  destruct (rk_bok _ _ _ H k b Eb) as (d & B & _). by eapply (bk_over _ _ B).
Qed.

Lemma step_ok w w' : step w w' -> sok w -> sok w' /\ onward w w'.
Proof.
  intros Hs H. destruct Hs as [lane| | |live request id s _ Ha|id request _|id request waker s _ Ha
    |id request waker s r _ Ha _|id request _ Hc|id request _|k spec Hc|k|k|k|k token|k slot waker|k token waker
    |k token waker|R k token f|k token|wait].
  - by apply pump_step.
  - apply aside_step; [done|]. cbn [ready_wakers snd]. aside.
  - apply aside_step; [done|]. aside.
  - apply aside_step; [done|]. revert Ha. unfold admit_in. destruct (lost _); [done|]. destruct (negb live); [done|].
    destruct (bool_decide _); [done|]. destruct (_ <=? _); [done|]. intros [= _ <-]. aside.
  - apply aside_step; [done|]. cbn [drop_admission_in snd]. aside.
  - apply aside_step; [done|]. by eapply acquire_aside.
  - apply aside_step; [done|]. by eapply acquire_aside.
  - by apply register_step.
  - apply aside_step; [done|]. unfold drop_permit_in. cbn [snd]. destruct (bool_decide _); aside.
  - unfold open_in. destruct (bindings (st w) !! k) as [b|] eqn:Eb; [|by apply stay_step].
    destruct (RBinding.reg b); try (by apply stay_step);
      (destruct (RBinding.cancelled b); [by apply stay_step|]); (destruct (RBinding.sealed b); [by apply stay_step|]);
      (destruct (_ <=? _); [by apply stay_step|]).
    all: destruct (rok_put_binding w.(sent) w.(st) k b _ Eb (tame_queue spec b (Hc b eq_refl)) (proj1 H)) as [H1 K];
      by apply quiet_session_step.
  - apply binding_step; [done|]. intros b _. apply tame_finish.
  - apply binding_step; [done|]. intros b _. apply tame_abandon.
  - unfold cancel_in. destruct (bindings (st w) !! k) as [b|] eqn:Eb; [|by apply stay_step].
    pose proof (rok_put_binding w.(sent) w.(st) k b _ Eb (tame_cancel b) (proj1 H)) as [H1 K].
    destruct (RBinding.cancel_all b) as [first b']. by apply quiet_session_step.
  - apply binding_step; [done|]. intros b _. apply tame_drop.
  - unfold poll_registered_in. destruct (bool_decide _); [|by apply stay_step]. apply aside_step; [done|]. apply aside_wait.
  - unfold poll_open_in. destruct (exchange_of k token (st w)) as [e|] eqn:Ee; [|by apply stay_step].
    destruct (Exch.outcome e) as [[[]|failure]|]; [| |apply aside_step; [done|]; apply aside_wait];
      (apply (put_step w k token e); [done | done | constructor; try done; over_told]).
  - unfold poll_finish_in. destruct (exchange_of k token (st w)) as [e|] eqn:Ee; [|by apply stay_step].
    destruct (Exch.end_ e); [by apply stay_step|]. apply aside_step; [done|]. apply aside_wait.
  - unfold stream_call_in. destruct (exchange_of k token (st w)) as [e|] eqn:Ee; [|by apply stay_step].
    destruct (Exch.end_ e); [by apply stay_step|]. destruct (Exch.machine e) as [machine|] eqn:Em; [|by apply stay_step].
    destruct (f machine) as [r machine']. apply (put_step w k token e); [done | done|].
    constructor; try done. over_told.
  - unfold stream_finish_in. destruct (exchange_of k token (st w)) as [e|] eqn:Ee; [|by apply stay_step].
    destruct (Exch.end_ e) eqn:En; [by apply stay_step|]. destruct (Exch.machine e) as [machine|] eqn:Em; [|by apply stay_step].
    destruct (Stream.start_close machine) as [r machine']. apply (put_step w k token e); [done | done|].
    assert (Hst : e.(Exch.stage) <> Stage.Ended).
    { intros Hst. destruct (exchange_over w k token e H Ee Hst) as [x Hx]; [by rewrite Em | congruence]. }
    destruct (is_ok r); constructor; try done; over_told.
  - apply aside_step; [done|]. unfold forget. aside.
Qed.

Lemma start_ok : sok start.
Proof.
  split; [|intros m Hm; by apply elem_of_nil in Hm].
  constructor; cbn -[OUTBOX_ROOM Nat.mul]; try done; try lia.
  all: try (intros k b Hb; by rewrite lookup_empty in Hb).
  - intros k Hk. rewrite lookup_empty in Hk. by destruct Hk.
Qed.

Lemma steps_ok a b : steps a b -> sok a -> sok b /\ onward a b.
Proof.
  induction 1 as [w|a b c _ IH Hs]; intros H; [done|]. destruct (IH H) as [Hb Ob].
  destruct (step_ok b c Hs Hb) as [Hc Oc]. split; [done | by transitivity b].
Qed.

Lemma reachable_ok w : reachable w -> sok w.
Proof. intros H. by apply (steps_ok start w H start_ok). Qed.

(** ** What callers are told *)

(** The registration of an operation, told once, never changes. *)
Lemma registration_advances a b k : advances a b -> k <= a.(serial) ->
  registration_in k a <> Registration.Pending -> registration_in k b = registration_in k a.
Proof.
  intros A Hk. unfold registration_in. destruct (a.(bindings) !! k) as [e|] eqn:Ee.
  - intros Hp. assert (Hr : forall e', grows e e' -> RBinding.registration e' = RBinding.registration e).
    { intros e' G. unfold RBinding.registration in *. destruct (RBinding.reg e) eqn:Er; [done| |];
        rewrite (gr_reg _ _ G), Er by (by rewrite Er); [by rewrite (gr_id _ _ G) | done]. }
    destruct (ad_entry _ _ A k e Hk Ee) as [(e' & He' & G)|(Hn & e' & G & Hl)].
    + rewrite He'. by apply Hr.
    + rewrite Hn, Hl. cbn. by apply Hr.
  - intros _. destruct (ad_gone _ _ A k Hk Ee) as (Hn & Hs & Hz). rewrite Hn.
    destruct (a.(lasts) !! k) as [r|] eqn:El; [by rewrite Hs|]. by rewrite Hz.
Qed.

(** A registration that has been decided, registered or never, is never told
    differently: whatever calls, pumps and losses follow, also once the operation
    has left the table. *)
Theorem registration_final a b k : reachable a -> steps a b -> k <= a.(st).(serial) ->
  registration_in k a.(st) <> Registration.Pending -> registration_in k b.(st) = registration_in k a.(st).
Proof.
  intros Ha Hab. apply registration_advances. by apply (steps_ok a b Hab (reachable_ok a Ha)).
Qed.

(** Once a binding has ended, by a fault, a refusal, a cancellation before it was
    registered or the loss of the carrier, no message of its session is given to the
    lane again: what was queued for it goes with it. *)
Theorem ended_binding_silent a b k e : reachable a -> steps a b ->
  a.(st).(bindings) !! k = Some e -> e.(RBinding.faulted) = true ->
  exists new, b.(sent) = a.(sent) ++ new /\ forall m, m ∈ new -> m.2.(Envelope.session_id) <> e.(RBinding.session).
Proof.
  intros Ha Hab He Hf. destruct (steps_ok a b Hab (reachable_ok a Ha)) as [_ [_ (new & E & _ & Hs)]].
  exists new. split; [done|]. apply (Hs e.(RBinding.session)). left. by exists k, e.
Qed.

(** C14: a caller that is told its receive-pack was lost with the carrier without
    effect can rely on it: no [Open] of its exchange is among the messages the lane
    has taken, nor will one ever be. *)
Theorem loss_told_truly a b k token e waker s : reachable a -> steps a b ->
  exchange_of k token a.(st) = Some e -> e.(Exch.service) = Service.ReceivePackExchange ->
  poll_open_in k token waker a.(st) = (Some (Err (OpenFailure.CarrierLost Effect.None)), s) ->
  forall m, m ∈ b.(sent) -> m.2.(Envelope.session_id) = session_name (BindingId.mk namespace k) ->
    m.2.(Envelope.kind) = MessageKind.Open -> e.(Exch.stream) <> Some m.2.(Envelope.stream_id).
Proof.
  intros Ha Hab He Hsv Hp m Hm Hs Hk Hst. pose proof (reachable_ok a Ha) as Hok.
  assert (Ho : e.(Exch.outcome) = Some (Err (OpenFailure.CarrierLost Effect.None))).
  { unfold poll_open_in in Hp. rewrite He in Hp. destruct (Exch.outcome e) as [[[]|f]|]; by simplify_eq. }
  unfold exchange_of in He. destruct (bindings (st a) !! k) as [c|] eqn:Ec; [|done]. cbn [and_then] in He.
  destruct (rk_bok _ _ _ (proj1 Hok) k c Ec) as (d & B & Kn). destruct (rk_named _ _ _ (proj1 Hok) k c Ec) as [[_ Ns] _].
  destruct (bk_told _ _ B token e _ He Ho) as [Hf Hno].
  destruct (steps_ok a b Hab Hok) as [_ [_ (new & E & _ & Hsil)]]. rewrite E in Hm. apply elem_of_app in Hm as [Hm|Hm].
  - apply (Hno Hsv eq_refl _ Hst). apply Kn; [apply elem_of_app; by left | by unfold of_session; rewrite Ns | done].
  - destruct (Hsil c.(RBinding.session)) as [_ Hn]; [left; by exists k, c|]. apply (Hn m Hm). by unfold of_session; rewrite Ns.
Qed.

(** The messages waiting for room on the lane are at most twice the room the code
    allows, and none once the carrier is lost; nothing is given to a lost carrier. *)
Theorem outbox_bounded a b : reachable a -> steps a b ->
  (length a.(st).(outbox) <= 2 * OUTBOX_ROOM)%nat
  /\ (a.(st).(lost) = true -> a.(st).(outbox) = [] /\ b.(sent) = a.(sent)).
Proof.
  intros Ha Hab. pose proof (reachable_ok a Ha) as Hok. split; [apply (rk_outbox _ _ _ (proj1 Hok))|].
  intros Hl. split; [by apply (rk_lost _ _ _ (proj1 Hok))|].
  destruct (steps_ok a b Hab Hok) as [_ [_ (new & E & Hn & _)]]. by rewrite E, (Hn Hl), app_nil_r.
Qed.
End session.
