(* ===== verification/RemoteSamples.v ===== *)
(** * Runs of a carrier-backed handle, evaluated

    One operation from its admission on: it is registered with the client's half of
    the binding, opens exchanges, and is cancelled or loses its carrier.  The worlds
    are the inputs on which the theorems of [RemoteSession] and [RemoteAccount] are
    applied, and two of them show where the code does not do what it says. *)
From S2P Require Import Prelude Utf8 Text TextFacts Cbor CborFacts Protocol ProtocolFacts Budget Admission Policy Validate Codec CodecFacts Binding BindingFacts IoClock Stream Mux MuxFacts MuxSteps MuxRun RemoteMux PoolTypes Operation RemoteTable ConnBinding RemoteCore RemoteFacts RemoteBackend RemoteRun RemoteSession.
Import RState.

#[local] Existing Instance layout64.
Definition rc : RemoteConfig.t := RemoteConfig.default.
Abbreviation sample_steps := (steps false rc 7).
Abbreviation sample_reachable := (reachable false rc 7).

(** A lane that answers alike to every message. *)
Definition lane_of (arrivals : list Attachment) (ended : bool) (answer : SendAnswer.t) : Lane.t :=
  Lane.mk 0 arrivals ended (fun _ => false) (fun _ => None) (fun _ => answer).

(** Admission, a slot and registration of one call. *)
Definition admitted (id : Z) (request : string) (w : world) : world :=
  World (admit_in rc true request w.(st)).2 w.(sent) (<[id := request]> w.(records)) w.(permits).
Definition granted (id : Z) (request : string) (w : world) : world :=
  World (acquire_in rc id 0 w.(st)).2 w.(sent) (delete id w.(records)) (<[id := request]> w.(permits)).
Definition enrolled (id : Z) (request : string) (w : world) : world :=
  World (register_in rc 7 id request w.(st)).2 w.(sent) w.(records) (delete id w.(permits)).
Definition registering (id : Z) (request : string) (w : world) : world :=
  enrolled id request (granted id request (admitted id request w)).

(** The client's half of a binding, and its answer to the offer. *)
Definition client_answer (serial : Z) (request : string) (offers : list Attachment) : list Attachment :=
  let session := session_name (BindingId.mk 7 serial) in
  match Mux.endpoint_new session (EndpointRoute.endpoint_config EndpointRoute.ssh_and_https session)
          (remote_mux_config rc), List.find (fun m => bool_decide (m.1 = request)) offers with
  | Ok m, Some offer =>
      match (Mux.next_message (Mux.receive false offer (Mux.register request None m).2).2).1 with
      | Some a => [a]
      | None => []
      end
  | _, _ => []
  end.

Definition receive_pack : ExchangeSpec.t :=
  ExchangeSpec.mk (Key.ssh "git" "h.example" 22) PoolIdentity.Ambient Service.ReceivePackExchange "/r".
Definition opening (serial : Z) (w : world) : world := at_state (open_in rc serial receive_pack w.(st)).2 w.
Definition moved (arrivals : list Attachment) (answer : SendAnswer.t) (w : world) : world :=
  pumped false rc (lane_of arrivals false answer) w.
Definition losing (w : world) : world := pumped false rc (lane_of [] true SendAnswer.Full) w.

(** One call, registered; its exchange asked for; the carrier lost with a second one
    still queued; or the call cancelled instead. *)
Definition offered : world := moved [] SendAnswer.Sent (registering 1 "r" start).
Definition registered : world := moved (client_answer 1 "r" offered.(sent)) SendAnswer.Sent offered.
Definition asked_for : world := moved [] SendAnswer.Sent (opening 1 registered).
Definition queued : world := opening 1 asked_for.
Definition lost_twice : world := losing queued.
Definition cancelled : world := at_state (cancel_in 1 asked_for.(st)).2 asked_for.

(** Two calls with as many exchanges as they may have, on a lane without room. *)
Definition two_offered : world := moved [] SendAnswer.Sent (registering 2 "q" (registering 1 "r" start)).
Definition crowded : world :=
  moved (client_answer 1 "r" two_offered.(sent) ++ client_answer 2 "q" two_offered.(sent)) SendAnswer.Full
    (Nat.iter 64 (opening 2) (Nat.iter 64 (opening 1) two_offered)).

(** ** The runs are runs *)

Lemma runs_enrol a w id request : sample_steps a w ->
  countable w.(st).(ids) -> countable w.(st).(serial) ->
  (admit_in rc true request w.(st)).1 = Ok id ->
  (acquire_in rc id 0 (admitted id request w).(st)).1 = Some (Ok tt) ->
  (granted id request (admitted id request w)).(st).(serial) = w.(st).(serial) ->
  sample_steps a (registering id request w).
Proof.
  intros Hs Hi Hc Ha Hg He.
  assert (H1 : sample_steps a (admitted id request w)).
  { apply (steps_next _ _ _ a w); [done|]. apply (Admits _ _ _ w true request id); [done|]. rewrite <- Ha. apply surjective_pairing. }
  assert (H2 : sample_steps a (granted id request (admitted id request w))).
  { eapply steps_next; [exact H1|]. apply (Acquires _ _ _ _ id request 0); [apply lookup_insert_eq|].
    rewrite <- Hg. apply surjective_pairing. }
  eapply steps_next; [exact H2|]. apply (Registers _ _ _ _ id request); [apply lookup_insert_eq|]. by rewrite He.
Qed.

Lemma runs_moved a w arrivals answer : sample_steps a w -> sample_steps a (moved arrivals answer w).
Proof. intros Hs. eapply steps_next; [exact Hs|]. apply Pumps. Qed.

(** The counter of a binding's tokens after [n] openings. *)
Definition token_below (serial n : Z) (w : world) : Prop :=
  forall b, w.(st).(bindings) !! serial = Some b -> 0 <= b.(RBinding.next_token) <= n.

Lemma token_opening serial n w : n < U64_MAX -> token_below serial n w -> token_below serial (n + 1) (opening serial w).
Proof.
  intros Hn H b. unfold opening, open_in. cbn [st at_state].
  destruct (bindings (st w) !! serial) as [c|] eqn:Ec; [|cbn; congruence]. specialize (H c Ec).
  assert (Hsame : bindings (st w) !! serial = Some b -> 0 <= RBinding.next_token b <= n + 1) by (intros E; simplify_eq; lia).
  destruct (RBinding.reg c); try exact Hsame; (destruct (RBinding.cancelled c); [exact Hsame|]);
    (destruct (RBinding.sealed c); [exact Hsame|]); (destruct (_ <=? unended c); [exact Hsame|]).
  all: cbn; rewrite lookup_insert_eq; intros [= <-]; cbn; unfold wrapping_add_u64; rewrite as_u64_id; lia.
Qed.

Lemma runs_openings serial k a w n : 0 <= n -> n + Z.of_nat k < U64_MAX -> token_below serial n w -> sample_steps a w ->
  sample_steps a (Nat.iter k (opening serial) w) /\ token_below serial (n + Z.of_nat k) (Nat.iter k (opening serial) w).
Proof.
  intros H0 Hk Hn Hs. induction k as [|k IH]; [by rewrite Z.add_0_r|]. destruct IH as [I1 I2]; [lia|]. cbn [Nat.iter nat_rect].
  split.
  - eapply steps_next; [exact I1|]. apply Opens. intros b Hb. specialize (I2 b Hb). unfold countable. lia.
  - replace (n + Z.of_nat (S k)) with (n + Z.of_nat k + 1) by lia. apply token_opening; [lia | done].
Qed.

Lemma token_none serial w : (match w.(st).(bindings) !! serial with Some b => RBinding.next_token b =? 0 | None => true end) = true ->
  token_below serial 0 w.
Proof. intros H b Hb. rewrite Hb in H. apply Z.eqb_eq in H. lia. Qed.

Ltac counts := unfold countable; vm_compute; split; [discriminate | reflexivity].

Lemma offered_reached : sample_reachable offered.
Proof. apply runs_moved, runs_enrol; [constructor | counts | counts | vm_compute; reflexivity..]. Qed.
Lemma registered_reached : sample_reachable registered.
Proof. apply runs_moved, offered_reached. Qed.
Lemma runs_asked a : sample_steps a registered -> sample_steps a asked_for.
Proof.
  intros H. apply runs_moved. apply (runs_openings 1 1 a registered 0); [lia | vm_compute; reflexivity | | exact H].
  apply token_none. vm_compute. reflexivity.
Qed.
Lemma runs_lost a : sample_steps a asked_for -> sample_steps a lost_twice.
Proof.
  intros H. eapply steps_next; [|apply Pumps]. eapply steps_next; [exact H|]. apply Opens. intros b Hb.
  assert (Ht : (match asked_for.(st).(bindings) !! 1 with Some b => RBinding.next_token b =? 1 | None => true end) = true)
    by (vm_compute; reflexivity).
  rewrite Hb in Ht. apply Z.eqb_eq in Ht. unfold countable. rewrite Ht. split; [lia | reflexivity].
Qed.
Lemma asked_reached : sample_reachable asked_for.
Proof. apply runs_asked, registered_reached. Qed.
Lemma lost_reached : sample_reachable lost_twice.
Proof. apply runs_lost, asked_reached. Qed.
Lemma two_reached : sample_reachable two_offered.
Proof.
  apply runs_moved, runs_enrol; [|counts | counts | vm_compute; reflexivity..].
  apply runs_enrol; [constructor | counts | counts | vm_compute; reflexivity..].
Qed.
Lemma crowded_reached : sample_reachable crowded.
Proof.
  apply runs_moved. eapply (runs_openings 2 64 start); [reflexivity | vm_compute; reflexivity | |].
  - apply token_none. vm_compute. reflexivity.
  - eapply (runs_openings 1 64 start); [reflexivity | vm_compute; reflexivity | | apply two_reached].
    apply token_none. vm_compute. reflexivity.
Qed.

(** ** The theorems at these runs *)

Lemma registration_final_witness :
  registration_in 1 lost_twice.(st) = Registration.Registered (BindingId.mk 7 1).
Proof.
  rewrite (registration_final false rc 7 ltac:(lia) registered lost_twice 1).
  - vm_compute. reflexivity.
  - apply registered_reached.
  - apply runs_lost, runs_asked. constructor.
  - vm_compute. discriminate.
  - vm_compute. discriminate.
Defined.

Lemma ended_binding_silent_witness : exists e new,
  lost_twice.(st).(bindings) !! 1 = Some e /\ (moved [] SendAnswer.Sent lost_twice).(sent) = lost_twice.(sent) ++ new
  /\ forall m, m ∈ new -> m.2.(Envelope.session_id) <> e.(RBinding.session).
Proof.
  assert (H : exists e, lost_twice.(st).(bindings) !! 1 = Some e /\ e.(RBinding.faulted) = true)
    by (eexists; split; [vm_compute; reflexivity | reflexivity]).
  destruct H as (e & He & Hf).
  destruct (ended_binding_silent false rc 7 ltac:(lia) lost_twice (moved [] SendAnswer.Sent lost_twice) 1 e) as (new & E & Hn).
  - apply lost_reached.
  - apply runs_moved. constructor.
  - exact He.
  - exact Hf.
  - exists e, new. split; [exact He|]. split; [exact E | exact Hn].
Defined.

Lemma loss_told_truly_witness : exists e, exchange_of 1 1 lost_twice.(st) = Some e
  /\ forall m, m ∈ lost_twice.(sent) -> m.2.(Envelope.session_id) = session_name (BindingId.mk 7 1) ->
       m.2.(Envelope.kind) = MessageKind.Open -> e.(Exch.stream) <> Some m.2.(Envelope.stream_id).
Proof.
  assert (H : exists e, exchange_of 1 1 lost_twice.(st) = Some e /\ e.(Exch.service) = Service.ReceivePackExchange)
    by (eexists; split; [vm_compute; reflexivity | reflexivity]).
  destruct H as (e & He & Hs). exists e. split; [exact He|].
  apply (loss_told_truly false rc 7 ltac:(lia) lost_twice lost_twice 1 1 e 0 (poll_open_in 1 1 0 lost_twice.(st)).2).
  - apply lost_reached.
  - constructor.
  - exact He.
  - exact Hs.
  - vm_compute. reflexivity.
Defined.

Lemma outbox_bounded_witness : length crowded.(st).(outbox) = 72%nat /\ (length crowded.(st).(outbox) <= 128)%nat.
Proof.
  split; [vm_compute; reflexivity|].
  apply (outbox_bounded false rc 7 ltac:(lia) crowded crowded); [apply crowded_reached | constructor].
Defined.

(** The room of the outbox is exceeded: a binding's turn collects twice with the
    room computed once, so two registered operations with as many exchanges as they
    may have leave 72 messages in an outbox of 64; the next turn then computes its
    room with a subtraction that underflows. *)
Theorem outbox_overshoots : exists w, sample_reachable w
  /\ (OUTBOX_ROOM < length w.(st).(outbox))%nat /\ room_underflows w.(st).(outbox) = true.
Proof.
  exists crowded. split; [apply crowded_reached|]. split; [|vm_compute; reflexivity].
  apply Nat.ltb_lt. vm_compute. reflexivity.
Qed.

(** A receive-pack that is cancelled while it opens is told without effect although
    its [Open] has been given to the lane: [OpenFailure::Cancelled] has no effect,
    where the loss of the carrier at the same place is told as possible. *)
Theorem cancelled_open_told_without_effect :
  sample_reachable cancelled
  /\ (exists m, m ∈ cancelled.(sent) /\ m.2.(Envelope.kind) = MessageKind.Open
      /\ exists e, exchange_of 1 0 cancelled.(st) = Some e /\ e.(Exch.stream) = Some m.2.(Envelope.stream_id)
         /\ e.(Exch.service) = Service.ReceivePackExchange)
  /\ (exists f, (poll_open_in 1 0 0 cancelled.(st)).1 = Some (Err f) /\ OpenFailure.effect f = Effect.None)
  /\ (poll_open_in 1 0 0 (losing asked_for).(st)).1 = Some (Err (OpenFailure.CarrierLost Effect.Possible)).
Proof.
  split; [eapply steps_next; [apply asked_reached | apply Cancels]|]. split; [|split].
  - assert (H : exists m, list.last cancelled.(sent) = Some m /\ m.2.(Envelope.kind) = MessageKind.Open
      /\ m.2.(Envelope.stream_id) = 1) by (eexists; split; [vm_compute; reflexivity | split; reflexivity]).
    destruct H as (m & Hm & Hk & Hs). exists m. split; [|split; [exact Hk|]].
    + apply last_Some in Hm as [l ->]. apply elem_of_app. right. by apply list_elem_of_singleton.
    + rewrite Hs. eexists. split; [vm_compute; reflexivity | split; reflexivity].
  - eexists. split; [vm_compute; reflexivity | reflexivity].
  - vm_compute. reflexivity.
Qed.
