(* ===== verification/RemoteAccount.v ===== *)
(** * Slots, names and wakeups of a carrier-backed handle

    The account of every reachable world: a slot is held by a permit or by an
    operation in the table and by nothing else, an admission record waits in the
    queue exactly once, and a call's name is taken exactly while one of the three
    holds it.  The last section is about the tasks a call wakes. *)
From S2P Require Import Prelude Utf8 Text TextFacts Cbor CborFacts Protocol ProtocolFacts Budget Admission Policy Validate Codec CodecFacts Binding BindingFacts IoClock Stream Mux MuxFacts MuxSteps MuxRun RemoteMux PoolTypes Operation RemoteTable ConnBinding RemoteCore RemoteFacts RemoteBackend RemoteRun RemoteSession RemoteSamples.
Import RState.

(** ** Values of maps, names taken *)

Definition vals {A} (m : gmap Z A) : list A := (map_to_list m).*2.

Lemma vals_insert {A} (m : gmap Z A) k x : m !! k = None -> vals (<[k := x]> m) ≡ₚ x :: vals m.
Proof. intros H. unfold vals. by rewrite map_to_list_insert. Qed.
Lemma vals_delete {A} (m : gmap Z A) k x : m !! k = Some x -> vals m ≡ₚ x :: vals (delete k m).
Proof. intros H. unfold vals. by rewrite <- (map_to_list_delete m k x). Qed.

Definition taken_by (names : gset string) (l : list string) : Prop := NoDup l /\ forall r, r ∈ names <-> r ∈ l.

Lemma taken_perm names l l' : l' ≡ₚ l -> taken_by names l -> taken_by names l'.
Proof. intros Hp [H1 H2]. split; [by rewrite Hp|]. intros r. by rewrite Hp. Qed.
Lemma taken_add names l l' r : l' ≡ₚ r :: l -> r ∉ names -> taken_by names l -> taken_by ({[r]} ∪ names) l'.
Proof.
  intros Hp Hr [H1 H2]. split.
  - rewrite Hp. apply list.NoDup_cons. split; [|done]. by rewrite <- H2.
  - intros x. rewrite Hp, elem_of_union, elem_of_singleton, elem_of_cons. by rewrite H2.
Qed.
Lemma taken_remove names l l' r : l ≡ₚ r :: l' -> taken_by names l -> taken_by (names ∖ {[r]}) l'.
Proof.
  intros Hp [H1 H2]. rewrite Hp in H1. apply list.NoDup_cons in H1 as [Hr H1]. split; [done|].
  intros x. rewrite elem_of_difference, elem_of_singleton, H2, Hp, elem_of_cons. split; [|intros Hx; split; [by right|congruence]].
  intros [[->|Hx] Hn]; done.
Qed.

(** ** The account *)

Definition names (bindings : gmap Z RBinding.t) : gmap Z string := RBinding.request <$> bindings.
Definition holders (w : world) : list string := vals w.(records) ++ vals w.(permits) ++ vals (names w.(st).(bindings)).
Definition queue_ids (s : RState.t) : list Z := map Waiting.id s.(queue).

Section account.
Context {L : Layout}.
Variable unstable_sequenced : bool.
Variable config : RemoteConfig.t.
Variable namespace : Z.
Hypothesis Hns : 0 <= namespace.
Hypothesis Hactive : 0 <= config.(RemoteConfig.active_operations) < U64_MAX.
Hypothesis Hwaiting : 0 <= config.(RemoteConfig.waiting_admissions).

Record acct (w : world) : Prop := {
  ac_queue : NoDup (queue_ids w.(st)) /\ forall id, id ∈ queue_ids w.(st) <-> is_Some (w.(records) !! id);
  ac_claims : forall id, id ∈ w.(st).(claims) <-> is_Some (w.(permits) !! id);
  ac_ids : 0 <= w.(st).(ids) /\ (forall id, is_Some (w.(records) !! id) -> id <= w.(st).(ids))
    /\ forall id, is_Some (w.(permits) !! id) -> id <= w.(st).(ids);
  ac_apart : forall id, is_Some (w.(records) !! id) -> w.(permits) !! id = None;
  ac_active : w.(st).(active) = Z.of_nat (size w.(permits)) + Z.of_nat (size w.(st).(bindings));
  ac_limit : w.(st).(active) <= config.(RemoteConfig.active_operations);
  ac_waiting : len w.(st).(queue) <= config.(RemoteConfig.waiting_admissions);
  ac_names : taken_by w.(st).(requests) (holders w);
}.

(** What the account reads of a state. *)
Record reads_same (a b : RState.t) : Prop := {
  rs_queue : queue_ids b = queue_ids a;
  rs_active : b.(active) = a.(active);
  rs_claims : b.(claims) = a.(claims);
  rs_requests : b.(requests) = a.(requests);
  rs_ids : b.(ids) = a.(ids);
  rs_names : names b.(bindings) = names a.(bindings);
}.
#[local] Instance reads_same_preorder : PreOrder reads_same.
Proof. split; [intros a; by constructor|]. intros a b c [A1 A2 A3 A4 A5 A6] [B1 B2 B3 B4 B5 B6]. constructor; congruence. Qed.

Lemma size_names (m : gmap Z RBinding.t) : size (names m) = size m.
Proof. apply map_size_fmap. Qed.

Lemma len_queue_ids s : len (queue_ids s) = len s.(queue).
Proof. unfold queue_ids. by rewrite length_map. Qed.

Lemma acct_same w s : reads_same w.(st) s -> acct w -> acct (at_state s w).
Proof.
  intros [E1 E2 E3 E4 E5 E6] [A1 A2 A3 A4 A5 A6 A7 A8].
  constructor; cbn; rewrite ?E1, ?E2, ?E3, ?E4, ?E5; try done.
  - by rewrite <- (size_names s.(bindings)), E6, size_names.
  - by rewrite <- len_queue_ids, E1, len_queue_ids.
  - unfold holders. cbn. by rewrite E6.
Qed.

Lemma keeps_names a b : keeps a b -> names b.(bindings) = names a.(bindings).
Proof.
  intros K. apply map_eq. intros k. unfold names. rewrite !lookup_fmap.
  destruct (a.(bindings) !! k) as [e|] eqn:Ee; [|by rewrite (kp_none _ _ K k Ee)].
  destruct (kp_entry _ _ K k e Ee) as (e' & -> & G). cbn. by rewrite (gr_request _ _ G).
Qed.

(** ** The pump *)

(** The fields a pump leaves alone until it retires. *)
Definition untouched (a b : RState.t) : Prop :=
  b.(queue) = a.(queue) /\ b.(active) = a.(active) /\ b.(claims) = a.(claims)
  /\ b.(requests) = a.(requests) /\ b.(ids) = a.(ids).

Lemma untouched_trans a b c : untouched a b -> untouched b c -> untouched a c.
Proof. intros (A1 & A2 & A3 & A4 & A5) (B1 & B2 & B3 & B4 & B5). unfold untouched. split_and!; congruence. Qed.

Lemma untouched_lose s : untouched s (lose s).
Proof. unfold lose. by destruct (lost s). Qed.

Lemma untouched_routes ms s : untouched s (fold_left (fun s m => route_in unstable_sequenced m s) ms s).
Proof.
  revert s. induction ms as [|m ms IH]; intros s; [done|]. cbn [fold_left]. eapply untouched_trans; [|apply IH].
  unfold route_in. destruct (and_then _ _); [|done]. by destruct (by_session s !! _).
Qed.

Lemma untouched_drive lane serials s : untouched s (drive_each lane config serials s).
Proof.
  revert s. induction serials as [|k l IH]; intros s; cbn [drive_each]; [done|].
  destruct (bindings s !! k); [|apply IH]. destruct (RBinding.drive _ _ _ _ _ _). eapply untouched_trans; [|apply IH]. done.
Qed.

Lemma untouched_flush lane s : untouched s (flush lane s).1.
Proof.
  unfold flush. destruct (send_all _ _ _) as [[sent left_] closed]. cbn [fst]. destruct closed; [|done].
  eapply untouched_trans; [|apply untouched_lose]. done.
Qed.

Lemma untouched_work lane s : untouched s (work unstable_sequenced lane config s).1.
Proof.
  unfold work. eapply untouched_trans; [apply (untouched_routes lane.(Lane.arrivals))|].
  destruct (Lane.ended lane); [apply untouched_lose|]. eapply untouched_trans; [|apply untouched_flush].
  eapply untouched_trans; [|apply untouched_drive]. done.
Qed.

Lemma work_reads w lane : sok namespace w -> w.(st).(lost) = false ->
  reads_same w.(st) (work unstable_sequenced lane config w.(st)).1.
Proof.
  intros H Hl. destruct (untouched_work lane w.(st)) as (U1 & U2 & U3 & U4 & U5).
  pose proof (rok_work unstable_sequenced config namespace Hns w.(sent) lane w.(st) (proj1 H) Hl) as Hw.
  destruct (work unstable_sequenced lane config (st w)) as [s c]. destruct Hw as (_ & K & _). cbn [fst] in *.
  constructor; try done; [unfold queue_ids; by rewrite U1|]. by apply keeps_names.
Qed.

(** An operation that leaves the table gives its slot and its name back. *)
Lemma acct_retire w k b : acct w -> w.(st).(bindings) !! k = Some b -> acct (at_state (retire k b w.(st)) w).
Proof.
  intros [A1 A2 A3 A4 A5 A6 A7 A8] Hb.
  assert (Hsz : size (w.(st).(bindings)) = S (size (delete k w.(st).(bindings)))).
  { rewrite map_size_delete_Some by (by rewrite Hb). assert (size (bindings (st w)) <> 0)%nat; [|lia].
    intros E. apply map_size_empty_inv in E. rewrite E in Hb. by rewrite lookup_empty in Hb. }
  assert (Hact : saturating_sub_u64 w.(st).(active) 1 = w.(st).(active) - 1) by (unfold saturating_sub_u64; lia).
  constructor; cbn; rewrite ?Hact; try done; try lia.
  eapply taken_remove; [|exact A8]. unfold holders. cbn. unfold names. rewrite fmap_delete.
  rewrite (vals_delete (RBinding.request <$> bindings (st w)) k (RBinding.request b)) by (by rewrite lookup_fmap, Hb).
  rewrite !app_assoc. symmetry. apply Permutation_middle.
Qed.

Lemma acct_retire_all l w : acct w -> NoDup l.*1 -> (forall k b, (k, b) ∈ l -> w.(st).(bindings) !! k = Some b) ->
  acct (at_state (fold_left (fun s e => retire e.1 e.2 s) l w.(st)) w).
Proof.
  revert w. induction l as [|[k b] l IH]; intros w H Hnd Hin; cbn [fold_left fst snd]; [by destruct w|].
  cbn [fmap list_fmap fst] in Hnd. apply list.NoDup_cons in Hnd as [Hk Hnd].
  assert (H1 : acct (at_state (retire k b w.(st)) w)) by (apply acct_retire; [done|]; apply Hin; left).
  apply (IH _ H1 Hnd). intros j c Hj. cbn. rewrite lookup_delete_ne; [apply Hin; by right|].
  intros <-. apply Hk. apply list_elem_of_fmap. by exists (k, c).
Qed.

Lemma acct_pump w lane : sok namespace w -> acct w -> acct (pumped unstable_sequenced config lane w).
Proof.
  intros Hok H. unfold pumped, pump.
  assert (Hw : acct (at_state (if w.(st).(lost) then (w.(st), []) else work unstable_sequenced lane config w.(st)).1 w)).
  { destruct (lost (st w)) eqn:El; [by destruct w|]. apply acct_same; [|done]. by apply work_reads. }
  destruct (if w.(st).(lost) then _ else _) as [s c]. cbn [fst] in Hw. unfold retire_finished.
  destruct (finished_entries_in s) as [Hnd Hin].
  pose proof (acct_retire_all (finished_entries s) (at_state s w) Hw Hnd (fun k b Hk => proj1 (Hin k b Hk))) as Hr.
  destruct Hr as [A1 A2 A3 A4 A5 A6 A7 A8]. by constructor.
Qed.

(** ** Admission, slots, registration *)

Lemma acct_admit w live request id s : acct w -> countable w.(st).(ids) ->
  admit_in config live request w.(st) = (Ok id, s) ->
  acct (World s w.(sent) (<[id := request]> w.(records)) w.(permits)).
Proof.
  intros [A1 A2 A3 A4 A5 A6 A7 A8] [C0 C1] Ha. unfold admit_in in Ha.
  destruct (lost (st w)); [done|]. destruct (negb live); [done|]. case_bool_decide as Hr; [done|].
  destruct (Z.leb_spec (RemoteConfig.waiting_admissions config) (len (queue (st w)))) as [|Hq]; [done|].
  assert (Hid : wrapping_add_u64 w.(st).(ids) 1 = w.(st).(ids) + 1) by (unfold wrapping_add_u64; apply as_u64_id; lia).
  rewrite Hid in Ha. injection Ha as <- <-. remember (w.(st).(ids) + 1) as n eqn:En. destruct A3 as (I0 & I1 & I2).
  assert (Hn : w.(records) !! n = None).
  { destruct (w.(records) !! n) eqn:E; [|done]. specialize (I1 n ltac:(by rewrite E)). lia. }
  assert (Hp : w.(permits) !! n = None).
  { destruct (w.(permits) !! n) eqn:E; [|done]. specialize (I2 n ltac:(by rewrite E)). lia. }
  constructor; cbn; try done.
  - unfold queue_ids in *. cbn. rewrite map_app. cbn. destruct A1 as [N Q]. split.
    + apply list.NoDup_app. split_and!; [done | | apply list.NoDup_singleton]. intros x Hx ->%list_elem_of_singleton.
      apply Q in Hx. rewrite Hn in Hx. by destruct Hx.
    + intros x. rewrite elem_of_app, list_elem_of_singleton, Q, lookup_insert_is_Some. destruct (decide (n = x)) as [->|Hne].
      * split; [by left | by right].
      * split; [intros [Hx | ->]; [by right | done] | intros [Hx | [_ Hx]]; [by right | by left]].
  - split_and!; [lia | |intros x Hx; apply I2 in Hx; lia].
    intros x. rewrite lookup_insert_is_Some. intros [<-|[_ Hx]]; [lia|]. apply I1 in Hx. lia.
  - intros x. rewrite lookup_insert_is_Some. intros [<-|[_ Hx]]; [done | by apply A4].
  - rewrite length_app. change (length [Waiting.mk n None]) with 1%nat. lia.
  - eapply taken_add; [|exact Hr|exact A8]. unfold holders. cbn. by rewrite vals_insert.
Qed.

(** A record taken out of the queue. *)
Lemma acct_unqueue w id request s : acct w -> w.(records) !! id = Some request ->
  queue_ids s = keep (fun x => negb (x =? id)) (queue_ids w.(st)) ->
  s.(claims) = w.(st).(claims) -> s.(ids) = w.(st).(ids) -> s.(active) = w.(st).(active) -> s.(bindings) = w.(st).(bindings) ->
  s.(requests) = w.(st).(requests) ∖ {[request]} ->
  acct (World s w.(sent) (delete id w.(records)) w.(permits)).
Proof.
  intros [A1 A2 A3 A4 A5 A6 A7 A8] Hid Eq Ec Ei Ea Eb Er. destruct A3 as (I0 & I1 & I2). destruct A1 as [N Q].
  assert (Hdel : forall x, is_Some (delete id w.(records) !! x) <-> x <> id /\ is_Some (w.(records) !! x)).
  { intros x. rewrite lookup_delete_is_Some. split; intros [? ?]; split; congruence. }
  constructor; cbn; rewrite ?Ec, ?Ei, ?Ea, ?Eb, ?Er; try done.
  - rewrite Eq. split; [by apply list.NoDup_filter|]. intros x. rewrite keep_elem, Hdel, Q, negb_true_iff, Z.eqb_neq. done.
  - split_and!; try done. intros x [_ Hx]%Hdel. by apply I1.
  - intros x [_ Hx]%Hdel. by apply A4.
  - pose proof (keep_length (fun x => negb (x =? id)) (queue_ids (st w))) as Hl.
    pose proof (len_queue_ids s) as E1. pose proof (len_queue_ids (st w)) as E2. rewrite Eq in E1. lia.
  - eapply taken_remove; [|exact A8]. unfold holders. cbn. rewrite Eb. by rewrite (vals_delete (records w) id request).
Qed.

Lemma keep_map {A B} (f : A -> B) (p : B -> bool) l : keep p (map f l) = map f (keep (fun x => p (f x)) l).
Proof.
  unfold keep. induction l as [|x l IH]; [done|]. cbn [map]. rewrite !filter_cons, IH.
  destruct (decide (p (f x) = true)); done.
Qed.

Lemma acct_drop_admission w id request : acct w -> w.(records) !! id = Some request ->
  acct (World (drop_admission_in id request w.(st)).2 w.(sent) (delete id w.(records)) w.(permits)).
Proof.
  intros H Hid. apply (acct_unqueue w id request); try done.
  symmetry. apply (keep_map Waiting.id (fun x => negb (x =? id))).
Qed.

(** The head of the queue gets a slot. *)
Lemma acct_acquire w id request waker s : acct w -> w.(records) !! id = Some request ->
  acquire_in config id waker w.(st) = (Some (Ok tt), s) ->
  acct (World s w.(sent) (delete id w.(records)) (<[id := request]> w.(permits))).
Proof.
  intros [A1 A2 A3 A4 A5 A6 A7 A8] Hid Ha. unfold acquire_in in Ha. destruct (lost (st w)); [done|].
  destruct (_ && _) eqn:Eg; [|done]. injection Ha as <-. apply andb_true_iff in Eg as [Eg Elt]. apply Z.ltb_lt in Elt.
  destruct (queue (st w)) as [|x l] eqn:Eq; [done|]. cbn [hd_error is_some_and] in Eg. apply Z.eqb_eq in Eg.
  destruct A3 as (I0 & I1 & I2). destruct A1 as [N Q]. unfold queue_ids in N, Q. rewrite Eq in N, Q. cbn [map] in N, Q.
  apply list.NoDup_cons in N as [Nx N]. rewrite Eg in *.
  assert (Hp : w.(permits) !! id = None) by (apply A4; by rewrite Hid).
  assert (Hact : usize_add w.(st).(active) 1 = w.(st).(active) + 1) by (unfold usize_add; apply as_u64_id; lia).
  assert (Hdel : forall y, is_Some (delete id w.(records) !! y) <-> y <> id /\ is_Some (w.(records) !! y)).
  { intros y. rewrite lookup_delete_is_Some. split; intros [? ?]; split; congruence. }
  constructor; cbn; rewrite ?Hact; try done; try lia.
  - unfold queue_ids. cbn. split; [done|]. intros y. rewrite Hdel, <- Q, elem_of_cons. split.
    + intros Hy. split; [congruence | by right].
    + by intros [Hy [Hx | Hx]].
  - intros y. rewrite elem_of_union, elem_of_singleton, A2, lookup_insert_is_Some. destruct (decide (id = y)) as [->|Hne].
    + split; [by left | by left].
    + split; [intros [-> | Hx]; [done | by right] | intros [-> | [_ Hx]]; [done | by right]].
  - split_and!; [done | intros y [_ Hy]%Hdel; by apply I1|]. intros y. rewrite lookup_insert_is_Some.
    intros [<-|[_ Hy]]; [apply I1; by rewrite Hid | by apply I2].
  - intros y [Hy Hs]%Hdel. rewrite lookup_insert_ne by done. by apply A4.
  - rewrite map_size_insert_None by done. lia.
  - cbn in A7 |- *. lia.
  - eapply taken_perm; [|exact A8]. unfold holders. cbn. rewrite vals_insert, (vals_delete (records w) id request) by done.
    cbn. symmetry. apply Permutation_middle.
Qed.

(** A permit given back, with its slot and its name. *)
Lemma acct_release w id request s : acct w -> w.(permits) !! id = Some request ->
  queue_ids s = queue_ids w.(st) -> s.(claims) = w.(st).(claims) ∖ {[id]} -> s.(ids) = w.(st).(ids) ->
  s.(active) = saturating_sub_u64 w.(st).(active) 1 -> s.(bindings) = w.(st).(bindings) ->
  s.(requests) = w.(st).(requests) ∖ {[request]} ->
  acct (World s w.(sent) w.(records) (delete id w.(permits))).
Proof.
  intros [A1 A2 A3 A4 A5 A6 A7 A8] Hid Eq Ec Ei Ea Eb Er. destruct A3 as (I0 & I1 & I2).
  assert (Hdel : forall x, is_Some (delete id w.(permits) !! x) <-> x <> id /\ is_Some (w.(permits) !! x)).
  { intros x. rewrite lookup_delete_is_Some. split; intros [? ?]; split; congruence. }
  assert (Hsz : size w.(permits) = S (size (delete id w.(permits)))).
  { rewrite map_size_delete_Some by (by rewrite Hid). assert (size (permits w) <> 0)%nat; [|lia].
    intros E. apply map_size_empty_inv in E. rewrite E in Hid. by rewrite lookup_empty in Hid. }
  assert (Hact : saturating_sub_u64 w.(st).(active) 1 = w.(st).(active) - 1) by (unfold saturating_sub_u64; lia).
  constructor; cbn; rewrite ?Eq, ?Ec, ?Ei, ?Ea, ?Eb, ?Er, ?Hact; try done; try lia.
  - intros x. rewrite elem_of_difference, elem_of_singleton, A2, Hdel. split; intros [? ?]; done.
  - split_and!; try done. intros x [_ Hx]%Hdel. by apply I2.
  - intros x Hx. apply lookup_delete_None. right. by apply A4.
  - pose proof (len_queue_ids s) as E1. rewrite Eq, len_queue_ids in E1. lia.
  - eapply taken_remove; [|exact A8]. unfold holders. cbn. rewrite Eb, (vals_delete (permits w) id request) by done.
    cbn. symmetry. apply Permutation_middle.
Qed.

(** A permit turned into an operation of the table. *)
Lemma acct_enter w id request s k b : acct w -> w.(permits) !! id = Some request -> w.(st).(bindings) !! k = None ->
  b.(RBinding.request) = request ->
  queue_ids s = queue_ids w.(st) -> s.(claims) = w.(st).(claims) ∖ {[id]} -> s.(ids) = w.(st).(ids) ->
  s.(active) = w.(st).(active) -> s.(bindings) = <[k := b]> w.(st).(bindings) -> s.(requests) = w.(st).(requests) ->
  acct (World s w.(sent) w.(records) (delete id w.(permits))).
Proof.
  intros [A1 A2 A3 A4 A5 A6 A7 A8] Hid Hk Hb Eq Ec Ei Ea Eb Er. destruct A3 as (I0 & I1 & I2).
  assert (Hdel : forall x, is_Some (delete id w.(permits) !! x) <-> x <> id /\ is_Some (w.(permits) !! x)).
  { intros x. rewrite lookup_delete_is_Some. split; intros [? ?]; split; congruence. }
  assert (Hsz : size w.(permits) = S (size (delete id w.(permits)))).
  { rewrite map_size_delete_Some by (by rewrite Hid). assert (size (permits w) <> 0)%nat; [|lia].
    intros E. apply map_size_empty_inv in E. rewrite E in Hid. by rewrite lookup_empty in Hid. }
  constructor; cbn; rewrite ?Eq, ?Ec, ?Ei, ?Ea, ?Er; try done; try lia.
  - intros x. rewrite elem_of_difference, elem_of_singleton, A2, Hdel. split; intros [? ?]; done.
  - split_and!; try done. intros x [_ Hx]%Hdel. by apply I2.
  - intros x Hx. apply lookup_delete_None. right. by apply A4.
  - rewrite Eb, map_size_insert_None by done. lia.
  - pose proof (len_queue_ids s) as E1. rewrite Eq, len_queue_ids in E1. lia.
  - eapply taken_perm; [|exact A8]. unfold holders. cbn. unfold names. rewrite Eb, fmap_insert, Hb.
    rewrite (vals_delete (permits w) id request), vals_insert by (done || by rewrite lookup_fmap, Hk). cbn.
    rewrite !app_assoc. rewrite <- !Permutation_middle. by rewrite <- app_assoc.
Qed.

Lemma acct_register w id request : sok namespace w -> acct w -> countable w.(st).(serial) ->
  w.(permits) !! id = Some request ->
  acct (World (register_in config namespace id request w.(st)).2 w.(sent) w.(records) (delete id w.(permits))).
Proof.
  intros Hok H [C0 C1] Hid. unfold register_in, release. cbn [lost serial over].
  assert (Hs : wrapping_add_u64 w.(st).(serial) 1 = w.(st).(serial) + 1) by (unfold wrapping_add_u64; apply as_u64_id; lia).
  rewrite Hs.
  destruct (lost (st w)) eqn:El; [apply (acct_release w id request); done|].
  destruct (Mux.initiator _ _) as [m|]; [|apply (acct_release w id request); done].
  destruct (Mux.register _ _ _) as [[[]|] m1]; [|apply (acct_release w id request); done].
  destruct (Mux.begin _ _) as [[[]|] m2]; [|apply (acct_release w id request); done].
  refine (acct_enter w id request _ (w.(st).(serial) + 1) (RBinding.new _ _ request m2) H Hid _ _ _ _ _ _ _ _); try reflexivity.
  destruct (w.(st).(bindings) !! _) as [b|] eqn:E; [|done]. destruct (rk_named _ _ _ (proj1 Hok) _ _ E). lia.
Qed.

Lemma acct_drop_permit w id request : acct w -> w.(permits) !! id = Some request ->
  acct (World (drop_permit_in id request w.(st)).2 w.(sent) w.(records) (delete id w.(permits))).
Proof.
  intros H Hid. unfold drop_permit_in. rewrite bool_decide_eq_true_2 by (apply (ac_claims _ H); by rewrite Hid).
  by apply (acct_release w id request).
Qed.

(** ** Every step keeps the account *)

Lemma names_insert k b b' m : m !! k = Some b -> b'.(RBinding.request) = b.(RBinding.request) -> names (<[k := b']> m) = names m.
Proof.
  intros Hk Hr. unfold names. rewrite fmap_insert, Hr. apply insert_id. by rewrite lookup_fmap, Hk.
Qed.

Lemma reads_binding s k f : (forall b, s.(bindings) !! k = Some b -> (f b).(RBinding.request) = b.(RBinding.request)) ->
  reads_same s (on_binding k f s).
Proof.
  intros Hf. constructor; try done. cbn. apply map_eq. intros j. unfold names. rewrite !lookup_fmap.
  destruct (decide (j = k)) as [->|Hne]; [|by rewrite lookup_alter_ne].
  rewrite lookup_alter_eq. destruct (s.(bindings) !! k) as [b|] eqn:E; [|done]. cbn. by rewrite Hf.
Qed.

Lemma reads_waits wait waker s : reads_same s (wait_for wait waker s).
Proof. by constructor. Qed.
Lemma reads_put k token e s : reads_same s (put_exch k token e s).
Proof. by apply reads_binding. Qed.
Lemma reads_insert s k b b' : s.(bindings) !! k = Some b -> grows b b' ->
  reads_same s (s <| bindings := <[k := b']> s.(bindings) |>).
Proof. intros Hb G. constructor; try done. cbn. eapply names_insert; [exact Hb | apply G]. Qed.

Lemma queue_ids_map s f : (forall w, (f w).(Waiting.id) = w.(Waiting.id)) ->
  map Waiting.id (map f s.(queue)) = queue_ids s.
Proof. intros Hf. unfold queue_ids. rewrite map_map. by apply map_ext. Qed.

Lemma reads_wakers s : reads_same s (ready_wakers config.(RemoteConfig.active_operations) s).2.
Proof.
  constructor; try done. unfold ready_wakers, queue_ids. cbn. apply queue_ids_map. intros w. by destruct (woken_in_queue _ _ _).
Qed.

Lemma set_waker_ids id waker l : map Waiting.id (set_waker id waker l) = map Waiting.id l.
Proof. induction l as [|w l IH]; cbn; [done|]. destruct (_ =? _); cbn; [done | by rewrite IH]. Qed.

Lemma reads_acquire id waker s r s' : acquire_in config id waker s = (r, s') -> r <> Some (Ok tt) -> reads_same s s'.
Proof.
  unfold acquire_in. destruct (lost s); [by intros [= <- <-]|]. destruct (_ && _); [by intros [= <- <-]|].
  intros [= <- <-] _. constructor; try done. apply set_waker_ids.
Qed.

Lemma acct_step w w' : step unstable_sequenced config namespace w w' -> sok namespace w -> acct w -> acct w'.
Proof.
  intros Hs Hok H. destruct Hs as [lane| | |live request id s Hc Ha|id request Hid|id request waker s Hid Ha
    |id request waker s r _ Ha Hr|id request Hid Hc|id request Hid|k spec Hc|k|k|k|k token|k slot waker|k token waker
    |k token waker|R k token f|k token|wait].
  - by apply acct_pump.
  - apply acct_same; [apply reads_wakers | done].
  - by apply acct_same.
  - by eapply acct_admit.
  - by apply acct_drop_admission.
  - by eapply acct_acquire.
  - apply acct_same; [by eapply reads_acquire | done].
  - by apply acct_register.
  - by apply acct_drop_permit.
  - apply acct_same; [|done]. unfold open_in. destruct (bindings (st w) !! k) as [b|] eqn:Eb; [|done].
    destruct (RBinding.reg b); try done; (destruct (RBinding.cancelled b); [done|]); (destruct (RBinding.sealed b); [done|]);
      (destruct (_ <=? _); [done|]); by eapply reads_insert.
  - apply acct_same; [|done]. apply reads_binding. intros b _. apply tame_finish.
  - apply acct_same; [|done]. apply reads_binding. intros b _. apply tame_abandon.
  - apply acct_same; [|done]. unfold cancel_in. destruct (bindings (st w) !! k) as [b|] eqn:Eb; [|done].
    pose proof (grows_cancel_all b) as G. destruct (RBinding.cancel_all b) as [first b']. by eapply reads_insert.
  - apply acct_same; [|done]. apply reads_binding. intros b _. apply tame_drop.
  - apply acct_same; [|done]. unfold poll_registered_in. by destruct (bool_decide _).
  - apply acct_same; [|done]. unfold poll_open_in. destruct (exchange_of k token (st w)) as [e|]; [|done].
    destruct (Exch.outcome e) as [[[]|failure]|]; [apply reads_put | apply reads_put | done].
  - apply acct_same; [|done]. unfold poll_finish_in. destruct (exchange_of k token (st w)) as [e|]; [|done]. by destruct (Exch.end_ e).
  - apply acct_same; [|done]. unfold stream_call_in. destruct (exchange_of k token (st w)) as [e|]; [|done].
    destruct (Exch.end_ e); [done|]. destruct (Exch.machine e) as [machine|]; [|done]. destruct (f machine). apply reads_put.
  - apply acct_same; [|done]. unfold stream_finish_in. destruct (exchange_of k token (st w)) as [e|]; [|done].
    destruct (Exch.end_ e); [done|]. destruct (Exch.machine e) as [machine|]; [|done].
    destruct (Stream.start_close machine). apply reads_put.
  - by apply acct_same.
Qed.

Lemma acct_start : acct start.
Proof.
  constructor; cbn; try done; try lia.
  - split; [constructor|]. intros id. rewrite lookup_empty. split; [by intros ?%elem_of_nil | by intros []].
  - intros id. rewrite lookup_empty. split; [by intros ?%elem_of_empty | by intros []].
  - split_and!; [lia|..]; intros id; rewrite lookup_empty; by intros [].
  - split; [constructor|]. intros r. split; [by intros ?%elem_of_empty | by intros ?%elem_of_nil].
Qed.

Lemma acct_reachable w : reachable unstable_sequenced config namespace w -> acct w.
Proof.
  unfold reachable. remember start as a eqn:Ea. intros H. induction H as [w|a b c Hab IH Hs]; [subst; apply acct_start|].
  apply (acct_step b c Hs); [|by apply IH]. subst a. by apply (reachable_ok unstable_sequenced config namespace Hns).
Qed.

(** C25: slots and names are exact in every run: the active count is the permits out and
    the operations in the table, and never over its bound; every admission record
    waits in the queue once, within its bound; and the names taken are those of
    the records, permits and operations, no name by two of them. *)
Theorem slots_and_names w : reachable unstable_sequenced config namespace w ->
  w.(st).(active) = Z.of_nat (size w.(permits)) + Z.of_nat (size w.(st).(bindings))
  /\ w.(st).(active) <= config.(RemoteConfig.active_operations)
  /\ NoDup (map Waiting.id w.(st).(queue)) /\ length w.(st).(queue) = size w.(records)
  /\ len w.(st).(queue) <= config.(RemoteConfig.waiting_admissions)
  /\ NoDup (holders w) /\ forall r, r ∈ w.(st).(requests) <-> r ∈ holders w.
Proof.
  intros Hw. destruct (acct_reachable w Hw) as [A1 A2 A3 A4 A5 A6 A7 A8]. destruct A1 as [N Q]. destruct A8 as [N2 Q2].
  split_and!; try done. rewrite <- (length_map Waiting.id), <- size_dom, <- (size_list_to_set (C := gset Z)) by exact N.
  f_equal. apply set_eq. intros id. rewrite elem_of_list_to_set, elem_of_dom. apply Q.
Qed.
End account.

Lemma slots_and_names_witness : asked_for.(st).(active) = 1 /\ length asked_for.(st).(queue) = size asked_for.(records).
Proof.
  destruct (slots_and_names (L := layout64) false rc 7 ltac:(lia) ltac:(vm_compute; split; [discriminate|reflexivity]) ltac:(vm_compute; discriminate)
    asked_for asked_reached) as (H1 & _ & _ & H2 & _).
  split; [rewrite H1; vm_compute; reflexivity | exact H2].
Defined.

(** ** Wakeups *)

Section wakeups.
Context {L : Layout}.
Variable unstable_sequenced : bool.
Variable config : RemoteConfig.t.




End wakeups.

