(* ===== verification/Served.v ===== *)
(** * The client's side of a carrier

    The connection crate's remote/served.rs and remote/receiver.rs: one binding as the
    client serves it, and the receiver that makes such bindings for the calls the
    client has sent.  A binding composes the endpoint half of a multiplexer ([Mux]), a
    stream machine for each running exchange ([Stream]) and the client's admission of
    what the core asks for ([RemoteAdmission]).

    The client's own host is met through its handle: admissions, operations, openings,
    exchanges and their ends are numbers, and what they answer is the class [Owner],
    over any state [E].  [Host] and [Instance] model what stands behind it.  A value
    that Rust drops is told to the owner as a drop. *)
From S2P Require Import Prelude Utf8 Text TextFacts Cbor Protocol Budget Admission Policy Validate Codec Binding IoClock Stream Mux PoolTypes RemoteAdmission Operation RemoteTable ConnBinding RemoteCore.

(** Names in a [BTreeMap] are ordered by their bytes. *)
#[export] Instance name_order : KeyOrder string := {| key_le := String.le |}.

(** ** The owner's handle *)

(** What the owner's stream answers when it fails: the kinds that matter here. *)
Module OwnerError.
Inductive t := WouldBlock | QuotaExceeded | Cancelled | Other.
End OwnerError.

Class Owner (E : Type) := {
  admit_prepared : PreparedOperation.t -> E -> result Z AdmissionError.t * E;
  poll_acquire : Z -> E -> option (result Z AdmissionError.t) * E;
  (** The operation, and whether it is registered. *)
  register_permit : Z -> E -> Z * bool * E;
  open_exchange : Z -> ExchangeSpec.t -> E -> result Z OpenError.t * E;
  (** The exchange, and whether its connection served before. *)
  poll_wait : Z -> E -> option (result (Z * bool) OpenFailure.t) * E;
  (** How much of the data was taken; no more than there is (the code panics otherwise). *)
  try_write : Z -> list byte -> E -> result Z OwnerError.t * E;
  try_read : Z -> Z -> E -> result (list byte) OwnerError.t * E;
  finish_exchange : Z -> E -> Z * E;
  poll_finished : Z -> E -> option Disposition.t * E;
  abort_exchange : Z -> E -> E;
  drop_acquire : Z -> E -> E;
  drop_operation : Z -> E -> E;
  drop_wait : Z -> E -> E;
  drop_exchange : Z -> E -> E;
  drop_finish : Z -> E -> E;
}.

(** ** A served binding (served.rs) *)

Module NamedKey.
Record t := mk { key_path : string; proof : string }.
End NamedKey.

Module Rules.
Record t := mk {
  class : ServiceClass.t;
  fetch : AllowedSet.t;
  push : AllowedSet.t;
  named_keys : list NamedKey.t;
  path_base : option string;
  ssh_user : option string;
}.
End Rules.

Module ServedStage.
Inductive t :=
| Admitting (acquire : Z) (bind : Attachment)
| Bound (mux : Mux.t) (op : option Z)
| Dead.
End ServedStage.

Module Running.
Record t := mk {
  machine : Stream.t;
  exchange : option Z;
  service : GitService.t;
  to_exchange : list byte;
  to_machine : list byte;
  forwarded : Z;
  request_done : bool;
  response_done : bool;
  finishing : option Z;
  disposition : option Disposition.t;
}.
#[global] Instance eta : Eta t :=
  fun r => mk (r.(machine)) (r.(exchange)) (r.(service)) (r.(to_exchange)) (r.(to_machine)) (r.(forwarded))
    (r.(request_done)) (r.(response_done)) (r.(finishing)) (r.(disposition)).
End Running.

Module Ex.
Inductive t := Opening (wait : Z) (service : GitService.t) | Open (run : Running.t).
End Ex.

(** A push whose bytes crossed the owner's stream may have changed refs. *)
Definition effect_after (service : GitService.t) (forwarded : Z) : Effect.t :=
  if bool_decide (service = GitService.ReceivePackExchange) && (0 <? forwarded) then Effect.Possible else Effect.None.

Definition failure_of (code : ErrorCode.t) (effect : Effect.t) : Failure.t := {|
  Failure.code := code; Failure.effect := effect; Failure.facts := None;
  Failure.setup_cause := None; Failure.detail := None |}.

(** [rejection_code] and [rejection] (receiver.rs). *)
Definition rejection_code (error : AdmissionError.t) : ErrorCode.t :=
  match error with
  | AdmissionError.Closing _ => ErrorCode.Cancelled
  | AdmissionError.InvalidInput => ErrorCode.InvalidRequest
  | _ => ErrorCode.Capacity
  end.
Definition rejection (request session : string) (code : ErrorCode.t) : Attachment :=
  (request, Envelope.default <| Envelope.version := 1 |> <| Envelope.session_id := session |> <| Envelope.stream_id := 0 |>
              <| Envelope.kind := MessageKind.BindRejected |>
              <| Envelope.bind_rejected := Some (failure_of code Effect.None) |>).

Module Served.
Record t := mk {
  request : string;
  session : string;
  rules : Rules.t;
  route : EndpointRoute.t;
  stage : ServedStage.t;
  exchanges : gmap Z Ex.t;
  outq : list Attachment;
  dying : bool;
  notes : list str;
}.
#[global] Instance eta : Eta t :=
  fun r => mk (r.(request)) (r.(session)) (r.(rules)) (r.(route)) (r.(stage)) (r.(exchanges)) (r.(outq)) (r.(dying)) (r.(notes)).
End Served.

Section served.
Context {L : Layout} {E : Type} `{!Owner E}.
Variable unstable_sequenced : bool.

(** *** What is dropped *)

Definition drop_ex (ex : Ex.t) (e : E) : E :=
  match ex with
  | Ex.Opening wait _ => drop_wait wait e
  | Ex.Open run =>
      let e := match run.(Running.exchange) with Some x => drop_exchange x e | None => e end in
      match run.(Running.finishing) with Some f => drop_finish f e | None => e end
  end.
Definition drop_exchanges (exchanges : gmap Z Ex.t) (e : E) : E := foldl (fun e ex => drop_ex ex e) e (values exchanges).
Definition drop_stage (stage : ServedStage.t) (e : E) : E :=
  match stage with
  | ServedStage.Admitting acquire _ => drop_acquire acquire e
  | ServedStage.Bound _ (Some op) => drop_operation op e
  | _ => e
  end.
(** The binding goes from the table. *)
Definition drop_served (self : Served.t) (e : E) : E :=
  drop_exchanges self.(Served.exchanges) (drop_stage self.(Served.stage) e).

(** *** Ends *)

Definition dead (self : Served.t) : bool :=
  match self.(Served.stage) with ServedStage.Dead => is_nil self.(Served.outq) | _ => false end.

(** The terminal of a stream the binding's end cuts: whether it never opened. *)
Definition terminal_of (self : Served.t) (code : ErrorCode.t) (stream : Z * bool * Effect.t) : Attachment :=
  let '(id, opening, effect) := stream in
  let envelope := Envelope.default <| Envelope.version := 2 |> <| Envelope.session_id := self.(Served.session) |>
    <| Envelope.stream_id := id |>
    <| Envelope.kind := if opening then MessageKind.OpenFailed else MessageKind.Failed |> in
  (self.(Served.request),
   if opening then envelope <| Envelope.open_failed := Some (failure_of code effect) |>
   else envelope <| Envelope.failed := Some (failure_of code effect) |>).
Definition stream_end (entry : Z * Ex.t) : Z * bool * Effect.t :=
  match entry.2 with
  | Ex.Opening _ _ => (entry.1, true, Effect.None)
  | Ex.Open run => (entry.1, false, effect_after run.(Running.service) run.(Running.forwarded))
  end.
Definition terminate (code : ErrorCode.t) (offending : option Z) (self : Served.t) (e : E) : Served.t * E :=
  let streams := map stream_end (entries self.(Served.exchanges)) in
  let streams := match offending with
                 | Some id => if (0 <? id) && negb (existsb (fun s => s.1.1 =? id) streams)
                              then streams ++ [(id, true, Effect.None)] else streams
                 | None => streams
                 end in
  let e := drop_exchanges self.(Served.exchanges) e in
  (self <| Served.outq := self.(Served.outq) ++ map (terminal_of self code) streams |>
        <| Served.exchanges := ∅ |> <| Served.dying := true |>
        <| Served.stage := match self.(Served.stage) with
                           | ServedStage.Bound mux op => ServedStage.Bound (Mux.disconnect mux) op
                           | stage => stage
                           end |>, e).
Definition fault (offending : option Z) (self : Served.t) (e : E) : Served.t * E :=
  terminate ErrorCode.Protocol offending self e.
Definition lane_fault (self : Served.t) (e : E) : Served.t * E := fault None self e.
Definition end_served (self : Served.t) (e : E) : Served.t * E := terminate ErrorCode.Cancelled None self e.

Definition receive (message : Attachment) (self : Served.t) (e : E) : Served.t * E :=
  match self.(Served.stage) with
  | ServedStage.Bound mux op =>
      if negb (bool_decide (message.1 = self.(Served.request))) then fault (Some message.2.(Envelope.stream_id)) self e
      else
        let '(r, mux) := Mux.receive unstable_sequenced message mux in
        let self := self <| Served.stage := ServedStage.Bound mux op |> in
        if is_ok r then (self, e) else fault (Some message.2.(Envelope.stream_id)) self e
  | _ => (self, e)
  end.

(** *** Answers *)

Definition send (request : string) (id : Z) (kind : MessageKind.t) (fill : Envelope.t -> Envelope.t) (mux : Mux.t) : Mux.t :=
  match Mux.message id kind mux with
  | Ok envelope => (Mux.send request (fill envelope) mux).2
  | Err _ => mux
  end.
Definition open_failed (request : string) (id : Z) (code : ErrorCode.t) (mux : Mux.t) : Mux.t :=
  send request id MessageKind.OpenFailed (fun m => m <| Envelope.open_failed := Some (failure_of code Effect.None) |>) mux.

Definition cancel_stream (request : string) (id : Z) (mux : Mux.t) (exchanges : gmap Z Ex.t) (e : E)
    : Mux.t * gmap Z Ex.t * E :=
  match exchanges !! id with
  | Some (Ex.Opening wait _) =>
      (open_failed request id ErrorCode.Cancelled mux, delete id exchanges, drop_wait wait e)
  | Some (Ex.Open run) =>
      let effect := effect_after run.(Running.service) run.(Running.forwarded) in
      let e := match run.(Running.exchange) with Some x => abort_exchange x e | None => e end in
      let e := match run.(Running.finishing) with Some f => drop_finish f e | None => e end in
      (send request id MessageKind.Failed (fun m => m <| Envelope.failed := Some (failure_of ErrorCode.Cancelled effect) |>) mux,
       delete id exchanges, e)
  | None => (mux, exchanges, e)
  end.

(** *** What the core asks to open (section 5) *)

(** The user name of the key, or a refusal. *)
Definition choose_username (rules : Rules.t) (allowance : Allowance.t) (destination : Destination.t) : option (option string) :=
  let given := option_map str_of allowance.(Allowance.user) in
  match destination.(Destination.scheme) with
  | Scheme.Ssh =>
      let choice := match given, rules.(Rules.ssh_user) with
                    | Some user, _ | None, Some user => user
                    | None, None => "git"%string
                    end in
      if is_some destination.(Destination.https_username)
         || is_some_and destination.(Destination.ssh_username) (fun g => negb (bool_decide (g = choice)))
      then None else Some (Some choice)
  | Scheme.Https =>
      if is_some destination.(Destination.ssh_username)
         || is_some_and destination.(Destination.https_username) (fun g => negb (bool_decide (Some g = given)))
      then None else Some given
  end.
Definition choose_identity (rules : Rules.t) (scheme : Scheme.t) (identity : Identity.t) : option PoolIdentity.t :=
  match scheme, identity.(Identity.mode) with
  | Scheme.Ssh, IdentityMode.Ambient => if is_nil rules.(Rules.named_keys) then Some PoolIdentity.Ambient else None
  | Scheme.Ssh, IdentityMode.ExplicitKey =>
      and_then identity.(Identity.key_path) (fun path =>
        and_then (List.find (fun k => bool_decide (k.(NamedKey.key_path) = path)) rules.(Rules.named_keys)) (fun named =>
          if bool_decide (identity.(Identity.path_base) = rules.(Rules.path_base))
          then Some (PoolIdentity.Explicit named.(NamedKey.proof)) else None))
  | Scheme.Https, (IdentityMode.Ambient | IdentityMode.CredentialsDisabled) => Some PoolIdentity.Https
  | _, _ => None
  end.
Definition key_for (scheme : Scheme.t) (username : option string) (tuple : Canonical.t) : Key.t :=
  match scheme with
  | Scheme.Ssh => Key.ssh (unwrap_or username ""%string) (str_of tuple.(Canonical.host)) tuple.(Canonical.port)
  | Scheme.Https => Key.https (str_of tuple.(Canonical.host)) tuple.(Canonical.port)
  end.

(** [None] is a fault of the binding. *)
Definition open (rules : Rules.t) (request : string) (op : option Z) (message : Envelope.t)
    (mux : Mux.t) (exchanges : gmap Z Ex.t) (notes : list str) (e : E)
    : option (Mux.t * gmap Z Ex.t * list str * E) :=
  let id := message.(Envelope.stream_id) in
  match message.(Envelope.open) with
  | None => None
  | Some open =>
      let destination := open.(Open.destination) in
      let service := open.(Open.service) in
      let scheme := destination.(Destination.scheme) in
      if negb (is_ok (check_shape scheme service)) then None
      else
        let refuse notes := Some (open_failed request id ErrorCode.InvalidRequest mux, exchanges, notes, e) in
        match Canonical.from_destination destination with
        | Err error => refuse (notes ++ [tuple_refusal_text destination service error])
        | Ok tuple =>
            match admit_service rules.(Rules.class) service tuple rules.(Rules.fetch) rules.(Rules.push) with
            | Err _ => refuse (notes ++ [class_refusal_text tuple service])
            | Ok allowance =>
                match choose_username rules allowance destination with
                | None => refuse notes
                | Some username =>
                    let spec := and_then (choose_identity rules scheme open.(Open.identity)) (fun identity =>
                      match ExchangeSpec.git (key_for scheme username tuple) identity (crate_service service)
                              destination.(Destination.path) with
                      | Ok spec => Some spec
                      | Err _ => None
                      end) in
                    match spec, op with
                    | Some spec, Some op =>
                        match open_exchange op spec e with
                        | (Ok wait, e) => Some (mux, <[id := Ex.Opening wait service]> exchanges, notes, e)
                        | (Err OpenError.BindingLimit, e) =>
                            Some (open_failed request id ErrorCode.Capacity mux, exchanges, notes, e)
                        | (Err _, e) => Some (open_failed request id ErrorCode.Cancelled mux, exchanges, notes, e)
                        end
                    | _, _ => refuse notes
                    end
                end
            end
        end
  end.

Definition identity_admitted (rules : Rules.t) (message : Envelope.t) : bool :=
  is_some_and message.(Envelope.check_identity) (fun check =>
    is_some_and check.(CheckIdentity.identity).(Identity.key_path) (fun path =>
      existsb (fun k => bool_decide (k.(NamedKey.key_path) = path)) rules.(Rules.named_keys))
    && bool_decide (check.(CheckIdentity.identity).(Identity.path_base) = rules.(Rules.path_base))).
Definition check_identity (rules : Rules.t) (request : string) (message : Envelope.t) (mux : Mux.t) : Mux.t :=
  let code := if identity_admitted rules message then ErrorCode.Unavailable else ErrorCode.InvalidRequest in
  send request message.(Envelope.stream_id) MessageKind.IdentityCheckFailed
    (fun m => m <| Envelope.identity_check_failed := Some (failure_of code Effect.None) |>) mux.

(** *** Openings that resolve *)

Definition connection_name (id : Z) : string := ("c" ++ str_of (dec_i64 id))%string.
Definition opened_body (id : Z) (reused : bool) (binding : Binding.t) : Opened.t := {|
  Opened.connection_id := connection_name id;
  Opened.reused := reused;
  Opened.endpoint_id := Binding.endpoint_id binding;
  Opened.trust_owner := Binding.trust_owner binding;
  Opened.facts := Facts.default;
  Opened.receive_limits := Binding.limits binding;
|}.
Definition open_code (failure : OpenFailure.t) : ErrorCode.t :=
  match failure with
  | OpenFailure.Pool _ | OpenFailure.NoFittingConnection => ErrorCode.Unavailable
  | OpenFailure.Io _ => ErrorCode.Io
  | _ => ErrorCode.Cancelled
  end.
Definition start_running (machine : Stream.t) (exchange : Z) (service : GitService.t) : Running.t :=
  Running.mk machine (Some exchange) service [] [] 0 false false None None.

Definition poll_opening (request session : string) (id : Z) (mux : Mux.t) (exchanges : gmap Z Ex.t) (e : E)
    : Mux.t * gmap Z Ex.t * E :=
  match exchanges !! id with
  | Some (Ex.Opening wait service) =>
      match poll_wait wait e with
      | (None, e) => (mux, exchanges, e)
      | (Some result, e) =>
          let exchanges := delete id exchanges in
          match result with
          | Err failure => (open_failed request id (open_code failure) mux, exchanges, e)
          | Ok (exchange, reused) =>
              match mux.(Mux.binding) with
              | None => (mux, exchanges, drop_exchange exchange e)
              | Some binding =>
                  match Stream.new (stream_config session id Side.Endpoint (Binding.limits binding)) with
                  | Err _ => (open_failed request id ErrorCode.Protocol mux, exchanges, abort_exchange exchange e)
                  | Ok machine =>
                      (send request id MessageKind.Opened (fun m => m <| Envelope.opened := Some (opened_body id reused binding) |>) mux,
                       <[id := Ex.Open (start_running machine exchange service)]> exchanges, e)
                  end
              end
          end
      end
  | _ => (mux, exchanges, e)
  end.
Definition is_opening (ex : Ex.t) : bool := match ex with Ex.Opening _ _ => true | _ => false end.
Definition poll_openings (request session : string) (mux : Mux.t) (exchanges : gmap Z Ex.t) (e : E) : Mux.t * gmap Z Ex.t * E :=
  foldl (fun '(mux, exchanges, e) id => poll_opening request session id mux exchanges e) (mux, exchanges, e)
    (map fst (keep (fun entry : Z * Ex.t => is_opening entry.2) (entries exchanges))).

(** *** Running exchanges *)

Definition owner_code (error : OwnerError.t) : ErrorCode.t :=
  match error with
  | OwnerError.Cancelled => ErrorCode.Cancelled
  | OwnerError.QuotaExceeded => ErrorCode.Capacity
  | _ => ErrorCode.Io
  end.
Definition fail (error : OwnerError.t) (run : Running.t) (e : E) : Running.t * E :=
  let effect := effect_after run.(Running.service) run.(Running.forwarded) in
  let run := run <| Running.machine := (Stream.fail_terminal (failure_of (owner_code error) effect) run.(Running.machine)).2 |> in
  (run <| Running.exchange := None |>,
   match run.(Running.exchange) with Some x => abort_exchange x e | None => e end).

Definition BUFFER : Z := 16384.
(** The request: what the machine has read goes to the owner's stream. *)
Definition refill_request (run : Running.t) : bool * Running.t :=
  if is_nil run.(Running.to_exchange) && negb run.(Running.request_done) then
    match Stream.read BUFFER run.(Running.machine) with
    | (Ok [], machine) => (true, run <| Running.machine := machine |> <| Running.request_done := true |>)
    | (Ok data, machine) => (true, run <| Running.machine := machine |> <| Running.to_exchange := data |>)
    | (Err _, machine) => (false, run <| Running.machine := machine |>)
    end
  else (true, run).
Fixpoint request_loop (turns : nat) (run : Running.t) (e : E) : Running.t * E :=
  match turns with
  | O => (run, e)
  | S turns =>
      let '(on, run) := refill_request run in
      if negb on || is_nil run.(Running.to_exchange) then (run, e)
      else
        match run.(Running.exchange) with
        | None => (run, e)
        | Some x =>
            match try_write x run.(Running.to_exchange) e with
            | (Ok count, e) =>
                request_loop turns
                  (run <| Running.forwarded := as_u64 (run.(Running.forwarded) + count) |>
                       <| Running.to_exchange := drop (Z.to_nat count) run.(Running.to_exchange) |>) e
            | (Err OwnerError.WouldBlock, e) => (run, e)
            | (Err error, e) => fail error run e
            end
        end
  end.

(** The response: what the owner's stream has goes to the machine.  What one look at
    the owner's stream gives: more to write, or the end of the loop. *)
Definition refill_response (x : Z) (run : Running.t) (e : E) : bool * Running.t * E :=
  if is_nil run.(Running.to_machine) && negb run.(Running.response_done) then
    match try_read x BUFFER e with
    | (Ok [], e) =>
        if run.(Running.request_done) && is_nil run.(Running.to_exchange)
        then (true, run <| Running.machine := (Stream.end_write run.(Running.machine)).2 |> <| Running.response_done := true |>, e)
        else (false, run, e)
    | (Ok data, e) => (true, run <| Running.to_machine := data |>, e)
    | (Err OwnerError.WouldBlock, e) => (false, run, e)
    | (Err error, e) => let '(run, e) := fail error run e in (false, run, e)
    end
  else (true, run, e).
Fixpoint response_loop (turns : nat) (run : Running.t) (e : E) : Running.t * E :=
  match turns with
  | O => (run, e)
  | S turns =>
      match run.(Running.exchange) with
      | None => (run, e)
      | Some x =>
          let '(on, run, e) := refill_response x run e in
          if negb on || is_nil run.(Running.to_machine) then (run, e)
          else
            match Stream.write run.(Running.to_machine) run.(Running.machine) with
            | (Ok count, machine) =>
                response_loop turns
                  (run <| Running.machine := machine |>
                       <| Running.to_machine := drop (Z.to_nat count) run.(Running.to_machine) |>) e
            | (Err _, machine) => (run <| Running.machine := machine |>, e)
            end
      end
  end.

Fixpoint messages_loop (budget : nat) (request : string) (machine : Stream.t) (mux : Mux.t) : nat * bool * Stream.t * Mux.t :=
  match budget with
  | O => (O, false, machine, mux)
  | S rest =>
      match Stream.next_message machine with
      | (None, machine) => (budget, true, machine, mux)
      | (Some message, machine) => messages_loop rest request machine (Mux.send request message mux).2
      end
  end.

Definition relay (run : Running.t) (e : E) : Running.t * E :=
  if is_none run.(Running.exchange) then (run, e)
  else
    let '(run, e) := request_loop 8 run e in
    let '(run, e) := response_loop 8 run e in
    if run.(Running.request_done) && run.(Running.response_done) && is_nil run.(Running.to_exchange)
       && is_nil run.(Running.to_machine) && is_none run.(Running.finishing)
    then
      match run.(Running.exchange) with
      | Some x => let '(f, e) := finish_exchange x e in (run <| Running.exchange := None |> <| Running.finishing := Some f |>, e)
      | None => (run, e)
      end
    else (run, e).
Definition poll_finishing (run : Running.t) (e : E) : Running.t * E :=
  match run.(Running.finishing) with
  | None => (run, e)
  | Some f =>
      match poll_finished f e with
      | (None, e) => (run, e)
      | (Some disposition, e) => (run <| Running.disposition := Some disposition |> <| Running.finishing := None |>, drop_finish f e)
      end
  end.
Definition close_machine (run : Running.t) : Running.t :=
  match run.(Running.disposition) with
  | None => run
  | Some disposition =>
      match Stream.complete_close disposition Facts.default run.(Running.machine) with
      | (Ok _, machine) => run <| Running.machine := machine |> <| Running.disposition := None |>
      | (Err _, machine) => run <| Running.machine := machine |>
      end
  end.
(** A machine the core ended, or that failed. *)
Definition machine_over (machine : Stream.t) : bool :=
  match Stream.close_result machine with
  | Err StreamError.WouldBlock => false
  | Err _ => true
  | Ok _ => false
  end.
Definition abort_over (run : Running.t) (e : E) : Running.t * E :=
  if machine_over run.(Running.machine) then
    let e := match run.(Running.exchange) with Some x => abort_exchange x e | None => e end in
    let e := match run.(Running.finishing) with Some f => drop_finish f e | None => e end in
    (run <| Running.exchange := None |> <| Running.finishing := None |>, e)
  else (run, e).

Definition pump_running (request : string) (now : Z) (budget : nat) (run : Running.t) (mux : Mux.t) (e : E)
    : bool * nat * Running.t * Mux.t * E :=
  let run := run <| Running.machine := Stream.advance now run.(Running.machine) |> in
  let '(run, e) := relay run e in
  let '(run, e) := poll_finishing run e in
  let run := close_machine run in
  let '(run, e) := abort_over run e in
  let '(budget, quiet, machine, mux) := messages_loop budget request run.(Running.machine) mux in
  (quiet && (Stream.stats machine).(Snapshot.terminal), budget, run <| Running.machine := machine |>, mux, e).

Fixpoint pump_each (request : string) (now : Z) (budget : nat) (ids : list Z) (mux : Mux.t) (exchanges : gmap Z Ex.t) (e : E)
    : list Z * Mux.t * gmap Z Ex.t * E :=
  match ids with
  | [] => ([], mux, exchanges, e)
  | id :: ids =>
      match exchanges !! id with
      | Some (Ex.Open run) =>
          let '(over, budget, run, mux, e) := pump_running request now budget run mux e in
          let '(finished, mux, exchanges, e) := pump_each request now budget ids mux (<[id := Ex.Open run]> exchanges) e in
          (if over then id :: finished else finished, mux, exchanges, e)
      | _ => pump_each request now budget ids mux exchanges e
      end
  end.
Definition remove_ex (exchanges_e : gmap Z Ex.t * E) (id : Z) : gmap Z Ex.t * E :=
  let '(exchanges, e) := exchanges_e in
  match exchanges !! id with
  | Some ex => (delete id exchanges, drop_ex ex e)
  | None => (exchanges, e)
  end.

(** *** A turn of the binding *)

(** Whatever the multiplexer hands over; the stream that faults the binding, if any. *)
Fixpoint actions_loop (fuel : nat) (op : option Z) (mux : Mux.t) (self : Served.t) (e : E) : option Z * Mux.t * Served.t * E :=
  match fuel with
  | O => (None, mux, self, e)
  | S fuel =>
      match Mux.next_action mux with
      | (None, mux) => (None, mux, self, e)
      | (Some (_, message), mux) =>
          let id := message.(Envelope.stream_id) in
          match message.(Envelope.kind) with
          | MessageKind.Open =>
              match open self.(Served.rules) self.(Served.request) op message mux self.(Served.exchanges) self.(Served.notes) e with
              | Some (mux, exchanges, notes, e) =>
                  actions_loop fuel op mux (self <| Served.exchanges := exchanges |> <| Served.notes := notes |>) e
              | None => (Some id, mux, self, e)
              end
          | MessageKind.CheckIdentity =>
              actions_loop fuel op (check_identity self.(Served.rules) self.(Served.request) message mux) self e
          | MessageKind.Cancel =>
              let '(mux, exchanges, e) := cancel_stream self.(Served.request) id mux self.(Served.exchanges) e in
              actions_loop fuel op mux (self <| Served.exchanges := exchanges |>) e
          | _ =>
              let exchanges := match self.(Served.exchanges) !! id with
                               | Some (Ex.Open run) =>
                                   <[id := Ex.Open (run <| Running.machine := (Stream.receive message run.(Running.machine)).2 |>)]>
                                     self.(Served.exchanges)
                               | _ => self.(Served.exchanges)
                               end in
              actions_loop fuel op mux (self <| Served.exchanges := exchanges |>) e
          end
      end
  end.
Fixpoint collect (room : nat) (mux : Mux.t) (outbox : list Attachment) : Mux.t * list Attachment :=
  match room with
  | O => (mux, outbox)
  | S room =>
      match Mux.next_message mux with
      | (None, mux) => (mux, outbox)
      | (Some message, mux) => collect room mux (outbox ++ [message])
      end
  end.
Definition PUMP_BUDGET : nat := 16.

(** The exchanges of a binding that did not fault. *)
Definition run_exchanges (now : Z) (mux : Mux.t) (self : Served.t) (e : E) : Mux.t * Served.t * E :=
  let '(mux, exchanges, e) := poll_openings self.(Served.request) self.(Served.session) mux self.(Served.exchanges) e in
  let '(finished, mux, exchanges, e) := pump_each self.(Served.request) now PUMP_BUDGET (keys exchanges) mux exchanges e in
  let '(exchanges, e) := foldl remove_ex (exchanges, e) finished in
  (mux, self <| Served.exchanges := exchanges |>, e).

Definition drive_bound (now : Z) (mux : Mux.t) (op : option Z) (self : Served.t) (outbox : list Attachment) (e : E)
    : Served.t * list Attachment * E :=
  let mux := Mux.advance now mux in
  let '(faulted, mux, self, e) := actions_loop (S (length mux.(Mux.actions).(Queue.items))) op mux self e in
  let '(mux, self, e) := if is_none faulted then run_exchanges now mux self e else (mux, self, e) in
  let '(mux, outbox) := collect (OUTBOX_ROOM - length outbox) mux outbox in
  let self := self <| Served.stage := ServedStage.Bound mux op |> in
  match faulted with
  | Some id => let '(self, e) := fault (Some id) self e in (self, outbox, e)
  | None =>
      if bool_decide (mux.(Mux.phase) = Phase.Closed) then
        let e := drop_stage self.(Served.stage) (drop_exchanges self.(Served.exchanges) e) in
        (self <| Served.exchanges := ∅ |> <| Served.stage := ServedStage.Dead |>, outbox, e)
      else (self, outbox, e)
  end.

Definition served_config : MuxConfig.t :=
  let d := MuxConfig.default in
  MuxConfig.mk binding_limits d.(MuxConfig.role) 4 STREAMS d.(MuxConfig.bootstrap_timeout_ms) d.(MuxConfig.cleanup_timeout_ms)
    d.(MuxConfig.max_check_ms).
Definition build_mux (self : Served.t) (bind : Attachment) : result Mux.t MuxError.t :=
  try mux := Mux.endpoint_new self.(Served.session) (EndpointRoute.endpoint_config self.(Served.route) self.(Served.session)) served_config in
  let '(r, mux) := Mux.register self.(Served.request) None mux in
  try _ := r in
  let '(r, mux) := Mux.receive unstable_sequenced bind mux in
  try _ := r in
  Ok mux.
Definition admitted (result : result Z AdmissionError.t) (bind : Attachment) (self : Served.t) (outbox : list Attachment) (e : E)
    : Served.t * list Attachment * E :=
  let self := self <| Served.stage := ServedStage.Dead |> in
  let reject code := outbox ++ [rejection bind.1 bind.2.(Envelope.session_id) code] in
  match result with
  | Err error => (self, reject (rejection_code error), e)
  | Ok permit =>
      let '(op, registered, e) := register_permit permit e in
      if negb registered then (self, reject ErrorCode.Cancelled, drop_operation op e)
      else
        match build_mux self bind with
        | Ok mux => (self <| Served.stage := ServedStage.Bound mux (Some op) |>, outbox, e)
        | Err _ => (self, reject ErrorCode.InvalidRequest, drop_operation op e)
        end
  end.

(** What a turn does once the binding is admitted, or gone. *)
Definition drive_rest (now : Z) (self : Served.t) (outbox : list Attachment) (e : E) : Served.t * list Attachment * E :=
  let '(self, outbox, e) :=
    match self.(Served.stage) with
    | ServedStage.Bound mux op => drive_bound now mux op self outbox e
    | _ => (self, outbox, e)
    end in
  let outbox := outbox ++ self.(Served.outq) in
  let self := self <| Served.outq := [] |> in
  if self.(Served.dying)
  then (self <| Served.stage := ServedStage.Dead |>, outbox, drop_stage self.(Served.stage) e)
  else (self, outbox, e).
Definition drive (now : Z) (self : Served.t) (outbox : list Attachment) (e : E) : Served.t * list Attachment * E :=
  match self.(Served.stage) with
  | ServedStage.Admitting acquire bind =>
      match poll_acquire acquire e with
      | (None, e) => (self, outbox, e)
      | (Some result, e) => let '(self, outbox, e) := admitted result bind self outbox e in drive_rest now self outbox e
      end
  | _ => drive_rest now self outbox e
  end.
End served.

(** ** The receiver (receiver.rs) *)

Module Invocation.
Record t := mk { prepared : PreparedOperation.t; rules : Rules.t }.
End Invocation.
Module RefusalNote.
Record t := mk { request : string; text : str }.
End RefusalNote.

Definition NOTES : nat := 64.
Definition SEEN : nat := 1024.

(** The lane and the calls this client has sent. *)
Module LaneSend.
Inductive t := Sent | Full | Closed.
End LaneSend.
Class ClientLane (C : Type) := {
  lane_recv : C -> result (option Attachment) unit * C;
  lane_send : Attachment -> C -> LaneSend.t * C;
  lane_faulted : string -> C -> bool;
  lane_retire : string -> C -> C;
  lane_now : C -> Z * C;
  take_invocation : string -> C -> option Invocation.t * C;
}.

Module Receiver.
Record t (E C : Type) := mk {
  owner : E;
  lane : C;
  served : gmap string Served.t;
  calls : gmap string string;
  seen : list string;
  seen_set : gset string;
  outbox : list Attachment;
  notes : list RefusalNote.t;
  ended : bool;
  discarded : Z;
}.
Arguments mk {E C}.
Arguments owner {E C}.
Arguments lane {E C}.
Arguments served {E C}.
Arguments calls {E C}.
Arguments seen {E C}.
Arguments seen_set {E C}.
Arguments outbox {E C}.
Arguments notes {E C}.
Arguments ended {E C}.
Arguments discarded {E C}.
#[global] Instance eta {E C} : Eta (t E C) :=
  fun r => mk (r.(owner)) (r.(lane)) (r.(served)) (r.(calls)) (r.(seen)) (r.(seen_set)) (r.(outbox)) (r.(notes)) (r.(ended))
    (r.(discarded)).

Section receiver.
Context {L : Layout} {E C : Type} `{!Owner E} `{!ClientLane C}.
Variable unstable_sequenced : bool.
Abbreviation state := (t E C).

Definition new (owner : E) (lane : C) : state := mk owner lane ∅ ∅ [] ∅ [] [] false 0.

Definition on_lane (f : C -> C) (self : state) : state := self <| lane := f self.(lane) |>.
Definition ask_lane {R} (f : C -> R * C) (self : state) : R * state :=
  let '(r, c) := f self.(lane) in (r, self <| lane := c |>).
(** One binding's turn with the owner. *)
Definition on_served (session : string) (f : Served.t -> E -> Served.t * E) (self : state) : state :=
  match self.(served) !! session with
  | Some s => let '(s, e) := f s self.(owner) in self <| served := <[session := s]> self.(served) |> <| owner := e |>
  | None => self
  end.

Definition drop_all (self : state) : E := foldl (fun e s => drop_served s e) self.(owner) (values self.(served)).
(** The carrier has ended. *)
Definition end_carrier (self : state) : state :=
  self <| owner := drop_all self |> <| ended := true |> <| served := ∅ |> <| calls := ∅ |> <| outbox := [] |>.

Definition reject (request session : string) (code : ErrorCode.t) (self : state) : state :=
  on_lane (lane_retire session) (self <| outbox := self.(outbox) ++ [rejection request session code] |>).
Definition remember (request : string) (self : state) : state :=
  let self := if bool_decide (length self.(seen) = SEEN) then
                match self.(seen) with
                | oldest :: rest => self <| seen := rest |> <| seen_set := self.(seen_set) ∖ {[oldest]} |>
                | [] => self
                end
              else self in
  self <| seen := self.(seen) ++ [request] |> <| seen_set := {[request]} ∪ self.(seen_set) |>.
Definition start_bind (message : Attachment) (self : state) : state :=
  let request := message.1 in
  let session := message.2.(Envelope.session_id) in
  if is_some (self.(calls) !! request) || bool_decide (request ∈ self.(seen_set))
  then reject request session ErrorCode.InvalidRequest self
  else
    let self := remember request self in
    let '(invocation, self) := ask_lane (take_invocation request) self in
    match invocation with
    | None => reject request session ErrorCode.InvalidRequest self
    | Some invocation =>
        if bool_decide (invocation.(Invocation.rules).(Rules.class) = ServiceClass.NoTransport)
        then reject request session ErrorCode.InvalidRequest self
        else
          match admit_prepared invocation.(Invocation.prepared) self.(owner) with
          | (Err error, e) => reject request session (rejection_code error) (self <| owner := e |>)
          | (Ok acquire, e) =>
              let s := Served.mk request session invocation.(Invocation.rules)
                         invocation.(Invocation.prepared).(PreparedOperation.route)
                         (ServedStage.Admitting acquire message) ∅ [] false [] in
              self <| owner := e |> <| calls := <[request := session]> self.(calls) |>
                   <| served := <[session := s]> self.(served) |>
          end
    end.
Definition route_in (message : Attachment) (self : state) : state :=
  let session := message.2.(Envelope.session_id) in
  if is_some (self.(served) !! session) then on_served session (receive unstable_sequenced message) self
  else if bool_decide (message.2.(Envelope.kind) = MessageKind.Bind) && (message.2.(Envelope.stream_id) =? 0)
  then start_bind message self
  else self <| discarded := usize_add self.(discarded) 1 |>.

(** Whether the carrier is still there. *)
Fixpoint recv_loop (fuel : nat) (self : state) : bool * state :=
  match fuel with
  | O => (true, self)
  | S fuel =>
      if (OUTBOX_ROOM <=? length self.(outbox))%nat then (true, self)
      else
        match ask_lane lane_recv self with
        | (Ok (Some message), self) => recv_loop fuel (route_in message self)
        | (Ok None, self) => (true, self)
        | (Err _, self) => (false, end_carrier self)
        end
  end.
Definition fault_turn (self : state) (session : string) : state :=
  match self.(served) !! session with
  | Some s => if negb (dead s) && lane_faulted session self.(lane) then on_served session lane_fault self else self
  | None => self
  end.
Definition request_of (self : state) (session : string) : string :=
  unwrap_or (option_map fst (List.find (fun c : string * string => bool_decide (c.2 = session)) (entries self.(calls)))) ""%string.
Definition drive_turn (now : Z) (self : state) (session : string) : state * list (string * str) :=
  match self.(served) !! session with
  | None => (self, [])
  | Some s =>
      let '(s, out, e) := drive unstable_sequenced now s self.(outbox) self.(owner) in
      (self <| served := <[session := s <| Served.notes := [] |>]> self.(served) |> <| outbox := out |> <| owner := e |>,
       map (pair session) s.(Served.notes))
  end.
Fixpoint drive_each (now : Z) (sessions : list string) (self : state) : state * list (string * str) :=
  match sessions with
  | [] => (self, [])
  | session :: sessions =>
      let '(self, notes) := drive_turn now self session in
      let '(self, more) := drive_each now sessions self in
      (self, notes ++ more)
  end.
Definition note (self : state) (entry : string * str) : state :=
  let kept := if bool_decide (length self.(notes) = NOTES) then tail self.(notes) else self.(notes) in
  self <| notes := kept ++ [RefusalNote.mk (request_of self entry.1) entry.2] |>.
Definition remove_dead (self : state) (session : string) : state :=
  match self.(served) !! session with
  | Some s => on_lane (lane_retire session) (self <| served := delete session self.(served) |> <| owner := drop_served s self.(owner) |>)
  | None => self
  end.
Definition forget_calls (self : state) : state :=
  self <| calls := filter (fun c => is_Some (self.(served) !! c.2)) self.(calls) |>.
Fixpoint send_each (items : list Attachment) (self : state) : state :=
  match items with
  | [] => self <| outbox := [] |>
  | message :: rest =>
      match ask_lane (lane_send message) self with
      | (LaneSend.Sent, self) => send_each rest self
      | (LaneSend.Full, self) => self <| outbox := message :: rest |>
      | (LaneSend.Closed, self) => end_carrier (self <| outbox := rest |>)
      end
  end.

Definition pump (fuel : nat) (self : state) : state :=
  if self.(ended) then self
  else
    let '(now, self) := ask_lane lane_now self in
    let '(there, self) := recv_loop fuel self in
    if negb there then self
    else
      let self := foldl fault_turn self (keys self.(served)) in
      let '(self, texts) := drive_each now (keys self.(served)) self in
      let self := foldl note self texts in
      let gone := map fst (keep (fun entry : string * Served.t => dead entry.2) (entries self.(served))) in
      let self := forget_calls (foldl remove_dead self gone) in
      send_each self.(outbox) self.
Definition end_call (fuel : nat) (request : string) (self : state) : state :=
  let self := match self.(calls) !! request with
              | Some session =>
                  on_served session end_served (self <| calls := delete request self.(calls) |>)
              | None => self
              end in
  pump fuel self.
Definition take_refusals (self : state) : list RefusalNote.t * state := (self.(notes), self <| notes := [] |>).
End receiver.
End Receiver.
