(* ===== verification/ServedFacts.v ===== *)
(** * What the client lets a core do

    The client's side of a carrier ([Served]) with any owner and any lane, and with
    what it asked of the owner written down.  Shown is that the owner is asked to open
    nothing but what the invocation of the call allows, and that a stream told it ended
    without effect had none. *)
From S2P Require Import Prelude Utf8 Text TextFacts Cbor Protocol Budget Admission Policy Validate Codec Binding BindingFacts IoClock Stream Mux PoolTypes RemoteAdmission RemoteAdmissionFacts Operation RemoteTable ConnBinding RemoteCore Served.

(** ** What is written down *)

Module OEvent.
Inductive t :=
| Opens (op : Z) (spec : ExchangeSpec.t)
| Begins (exchange : Z)
| Writes (exchange : Z) (count : Z).
End OEvent.
Definition OLog : Type := list OEvent.t.
Definition begins (r : option (result (Z * bool) OpenFailure.t)) : OLog :=
  match r with Some (Ok (x, _)) => [OEvent.Begins x] | _ => [] end.
Definition writes (x : Z) (r : result Z OwnerError.t) : OLog :=
  match r with Ok count => [OEvent.Writes x count] | Err _ => [] end.

#[global] Instance watched {E} `{!Owner E} : Owner (E * OLog) := {|
  admit_prepared := fun p e => let '(r, x) := admit_prepared p e.1 in (r, (x, e.2));
  poll_acquire := fun a e => let '(r, x) := poll_acquire a e.1 in (r, (x, e.2));
  register_permit := fun p e => let '(r, x) := register_permit p e.1 in (r, (x, e.2));
  open_exchange := fun op spec e => let '(r, x) := open_exchange op spec e.1 in (r, (x, e.2 ++ [OEvent.Opens op spec]));
  poll_wait := fun w e => let '(r, x) := poll_wait w e.1 in (r, (x, e.2 ++ begins r));
  try_write := fun n data e => let '(r, x) := try_write n data e.1 in (r, (x, e.2 ++ writes n r));
  try_read := fun n room e => let '(r, x) := try_read n room e.1 in (r, (x, e.2));
  finish_exchange := fun n e => let '(r, x) := finish_exchange n e.1 in (r, (x, e.2));
  poll_finished := fun f e => let '(r, x) := poll_finished f e.1 in (r, (x, e.2));
  abort_exchange := fun n e => (abort_exchange n e.1, e.2);
  drop_acquire := fun n e => (drop_acquire n e.1, e.2);
  drop_operation := fun n e => (drop_operation n e.1, e.2);
  drop_wait := fun n e => (drop_wait n e.1, e.2);
  drop_exchange := fun n e => (drop_exchange n e.1, e.2);
  drop_finish := fun n e => (drop_finish n e.1, e.2);
|}.

(** ** What a call's rules grant *)

(** The allowance that speaks for the service, and the class that lets it. *)
Definition speaks_for (rules : Rules.t) (service : GitService.t) (a : Allowance.t) : Prop :=
  if is_receive_pack service then rules.(Rules.class) = ServiceClass.Push /\ a ∈ rules.(Rules.push)
  else (rules.(Rules.class) = ServiceClass.Fetch \/ rules.(Rules.class) = ServiceClass.Push) /\ a ∈ rules.(Rules.fetch).
(** The name the client itself gives the user. *)
Definition own_username (rules : Rules.t) (a : Allowance.t) : string :=
  match option_map str_of a.(Allowance.user), rules.(Rules.ssh_user) with
  | Some user, _ | None, Some user => user
  | None, None => "git"%string
  end.
Definition own_identity (rules : Rules.t) (scheme : Scheme.t) (identity : PoolIdentity.t) : Prop :=
  match scheme, identity with
  | Scheme.Ssh, PoolIdentity.Ambient => rules.(Rules.named_keys) = []
  | Scheme.Ssh, PoolIdentity.Explicit proof => exists k, k ∈ rules.(Rules.named_keys) /\ k.(NamedKey.proof) = proof
  | Scheme.Https, PoolIdentity.Https => True
  | _, _ => False
  end.

(** An exchange the rules grant: an allowance of the client's own speaks for its
    service and matches where it goes, the connection is to the allowance's host and
    port as the client's user, and the identity is one of the client's. *)
Record granted (rules : Rules.t) (spec : ExchangeSpec.t) : Prop := {
  gr_allowed : exists service a tuple destination,
    spec.(ExchangeSpec.service) = crate_service service /\ speaks_for rules service a
    /\ Canonical.from_destination destination = Ok tuple /\ Allowance.matches a tuple = true
    /\ spec.(ExchangeSpec.path) = destination.(Destination.path)
    /\ spec.(ExchangeSpec.key) = match a.(Allowance.scheme) with
                                 | Scheme.Ssh => Key.ssh (own_username rules a) (str_of a.(Allowance.host)) a.(Allowance.port)
                                 | Scheme.Https => Key.https (str_of a.(Allowance.host)) a.(Allowance.port)
                                 end;
  gr_identity : own_identity rules spec.(ExchangeSpec.key).(Key.scheme) spec.(ExchangeSpec.identity);
}.

Lemma admitted_speaks rules service tuple a :
  admit_service rules.(Rules.class) service tuple rules.(Rules.fetch) rules.(Rules.push) = Ok a ->
  speaks_for rules service a /\ Allowance.matches a tuple = true.
Proof.
  unfold admit_service, speaks_for, AllowedSet.admitting. intros H.
  assert (Hf : forall (l : AllowedSet.t) (r : Refusal.t), ok_or (List.find (fun entry => Allowance.matches entry tuple) l) r = Ok a ->
    a ∈ l /\ Allowance.matches a tuple = true).
  { intros l r. destruct (List.find _ l) as [b|] eqn:Hb; [|done]. cbn. intros [= <-].
    apply find_some in Hb as [H1 H2]. split; [by apply list_elem_of_In|done]. }
  destruct (Rules.class rules), (is_receive_pack service); try done; apply Hf in H as [H1 H2]; split; auto.
Qed.

Lemma matches_where a tuple : Allowance.matches a tuple = true ->
  a.(Allowance.scheme) = tuple.(Canonical.scheme) /\ a.(Allowance.host) = tuple.(Canonical.host)
  /\ a.(Allowance.port) = tuple.(Canonical.port).
Proof.
  unfold Allowance.matches. destruct (bool_decide (Allowance.scheme a = _)) eqn:E1; [|done].
  destruct (bool_decide (Allowance.host a = _)) eqn:E2; [|done]. destruct (Allowance.port a =? _) eqn:E3; [|done]. intros _.
  by apply bool_decide_eq_true in E1; apply bool_decide_eq_true in E2; apply Z.eqb_eq in E3.
Qed.

Lemma chosen_identity rules scheme identity pid : choose_identity rules scheme identity = Some pid -> own_identity rules scheme pid.
Proof.
  unfold choose_identity, own_identity. destruct scheme, (Identity.mode identity); try done.
  - destruct (Rules.named_keys rules); [|done]. by intros [= <-].
  - destruct (Identity.key_path identity) as [path|]; [|done]. cbn. destruct (List.find _ _) as [k|] eqn:Hk; [|done]. cbn.
    case_bool_decide; [|done]. intros [= <-]. apply find_some in Hk as [Hk _]. exists k. split; [by apply list_elem_of_In|done].
  - by intros [= <-].
  - by intros [= <-].
Qed.

Section facts.
Context {L : Layout} {E : Type} `{!Owner E}.
Variable unstable_sequenced : bool.
Abbreviation owner := (E * OLog)%type.

Lemma opens_log op spec r e (x : owner) : open_exchange op spec x = (r, e) -> e.2 = x.2 ++ [OEvent.Opens op spec].
Proof. cbn. case_match. intros. by simplify_eq. Qed.

(** What [open] adds to the log is granted. *)
Lemma open_granted rules request op message mux exchanges notes (e : owner) mux' exchanges' notes' e' :
  open rules request op message mux exchanges notes e = Some (mux', exchanges', notes', e') ->
  e'.2 = e.2 \/ exists n spec, e'.2 = e.2 ++ [OEvent.Opens n spec] /\ granted rules spec.
Proof.
  unfold open. destruct (Envelope.open message) as [o|]; [|done]. set (d := Open.destination o). set (service := Open.service o).
  destruct (negb _); [done|]. destruct (Canonical.from_destination d) as [tuple|] eqn:Ht; [|intros [= _ _ _ <-]; by left].
  destruct (admit_service _ _ _ _ _) as [a|] eqn:Ha; [|intros [= _ _ _ <-]; by left].
  destruct (choose_username rules a d) as [username|] eqn:Hu; [|intros [= _ _ _ <-]; by left].
  destruct (choose_identity rules _ _) as [pid|] eqn:Hp; [|intros [= _ _ _ <-]; by left]. cbn [and_then].
  destruct (ExchangeSpec.git _ _ _ _) as [spec|] eqn:Hs; [|intros [= _ _ _ <-]; by left].
  destruct op as [n|]; [|intros [= _ _ _ <-]; by left]. destruct (open_exchange n spec e) as [r e1] eqn:He. apply opens_log in He.
  intros H. assert (e' = e1) as -> by (destruct r as [w|[]]; by simplify_eq). right. exists n, spec. split; [done|].
  unfold ExchangeSpec.git in Hs. destruct (_ || _); [done|]. injection Hs as <-.
  apply admitted_speaks in Ha as [Hsp Hm]. pose proof (matches_where _ _ Hm) as (M1 & M2 & M3).
  assert (Hsch : Canonical.scheme tuple = Destination.scheme d).
  { unfold Canonical.from_destination in Ht. repeat (case_match; try done; simplify_eq; cbn in *; simplify_eq); by simplify_eq. }
  split.
  - exists service, a, tuple, d. split_and!; try done. cbn [ExchangeSpec.key]. rewrite M1, M2, M3, Hsch. unfold key_for.
    unfold choose_username in Hu. destruct (Destination.scheme d); [|done]. destruct (_ || _); [done|]. by injection Hu as <-.
  - cbn [ExchangeSpec.key ExchangeSpec.identity]. unfold key_for. apply chosen_identity in Hp. by destruct (Destination.scheme d).
Qed.

(** ** The log only gets what is granted *)

(** From one state of the owner to a later one: what was asked of it in between. *)
Definition adds (ok : OEvent.t -> Prop) (a b : owner) : Prop := exists new, b.2 = a.2 ++ new /\ forall ev, ev ∈ new -> ok ev.
Lemma adds_same ok (a b : owner) : b.2 = a.2 -> adds ok a b.
Proof. intros H. exists []. split; [by rewrite app_nil_r|]. by intros ev ?%elem_of_nil. Qed.
Lemma adds_refl ok a : adds ok a a.
Proof. by apply adds_same. Qed.
Lemma adds_trans ok a b c : adds ok a b -> adds ok b c -> adds ok a c.
Proof.
  intros (n1 & E1 & H1) (n2 & E2 & H2). exists (n1 ++ n2). split; [by rewrite E2, E1, app_assoc|].
  intros ev [H|H]%elem_of_app; auto.
Qed.
Lemma adds_one ok (a b : owner) ev : b.2 = a.2 ++ [ev] -> ok ev -> adds ok a b.
Proof. intros H Hok. exists [ev]. split; [done|]. by intros x ->%list_elem_of_singleton. Qed.
Lemma adds_foldl {A} ok (f : owner -> A -> owner) l a : (forall e x, adds ok e (f e x)) -> adds ok a (foldl f a l).
Proof.
  intros Hf. revert a. induction l as [|x l IH]; intros a; [apply adds_refl|]. cbn. eapply adds_trans; [apply Hf|apply IH].
Qed.

Section adding.
Variable ok : OEvent.t -> Prop.
Hypothesis plain : forall ev, (forall n spec, ev <> OEvent.Opens n spec) -> ok ev.
Notation "a ~> b" := (adds ok a b) (at level 70).

Lemma adds_drop_ex ex e : e ~> drop_ex ex e.
Proof. destruct ex as [w s|run]; [by apply adds_same|]. cbn. destruct (Running.exchange run), (Running.finishing run); by apply adds_same. Qed.
Lemma adds_drop_exchanges m e : e ~> drop_exchanges m e.
Proof. apply adds_foldl. intros x ex. apply adds_drop_ex. Qed.
Lemma adds_drop_stage s e : e ~> drop_stage s e.
Proof. destruct s as [a b|m [op|]|]; by apply adds_same. Qed.
Lemma adds_drop_served s e : e ~> drop_served s e.
Proof. eapply adds_trans; [apply adds_drop_stage|apply adds_drop_exchanges]. Qed.
Lemma adds_terminate code offending self e : e ~> (terminate code offending self e).2.
Proof. apply adds_drop_exchanges. Qed.
Lemma adds_receive message self e : e ~> (receive unstable_sequenced message self e).2.
Proof.
  unfold receive. destruct (Served.stage self) as [a b|m op|]; try apply adds_refl. destruct (negb _); [apply adds_terminate|].
  destruct (Mux.receive _ _ _) as [r m']. destruct (is_ok r); [apply adds_refl|apply adds_terminate].
Qed.
Lemma adds_cancel_stream request id mux m e : e ~> (cancel_stream request id mux m e).2.
Proof.
  unfold cancel_stream. destruct (m !! id) as [[w s|run]|]; [by apply adds_same| |apply adds_refl].
  destruct (Running.exchange run), (Running.finishing run); by apply adds_same.
Qed.
Lemma begins_log w r e (x : owner) : poll_wait w x = (r, e) -> e.2 = x.2 ++ begins r.
Proof. cbn. case_match. intros. by simplify_eq. Qed.
Lemma adds_poll_opening request session id mux m e : e ~> (poll_opening request session id mux m e).2.
Proof.
  unfold poll_opening. destruct (m !! id) as [[w s|run]|]; try apply adds_refl. destruct (poll_wait w e) as [r e1] eqn:Hw.
  apply begins_log in Hw. assert (H1 : e ~> e1).
  { exists (begins r). split; [done|]. intros ev Hev. apply plain. intros n spec ->. destruct r as [[[y b]|f]|]; cbn in Hev.
    - by apply list_elem_of_singleton in Hev.
    - by apply elem_of_nil in Hev.
    - by apply elem_of_nil in Hev. }
  destruct r as [[[y reused]|failure]|]; [|exact H1|exact H1]. destruct (Mux.binding mux) as [b|]; [|eapply adds_trans; [exact H1|by apply adds_same]].
  destruct (Stream.new _); [exact H1|eapply adds_trans; [exact H1|by apply adds_same]].
Qed.
Lemma adds_poll_openings request session mux m e : e ~> (poll_openings request session mux m e).2.
Proof.
  unfold poll_openings. generalize (map fst (keep (fun entry : Z * Ex.t => is_opening entry.2) (entries m))). intros ids. revert mux m e.
  induction ids as [|id ids IH]; intros mux m e; [apply adds_refl|]. cbn. pose proof (adds_poll_opening request session id mux m e) as H.
  destruct (poll_opening request session id mux m e) as [[mux' m'] e']; cbn in H. eapply adds_trans; [exact H|apply IH].
Qed.

Lemma adds_fail error run e : e ~> (fail error run e).2.
Proof. unfold fail. cbn. destruct (Running.exchange run); by apply adds_same. Qed.
Lemma writes_log n data r e (x : owner) : try_write n data x = (r, e) -> e.2 = x.2 ++ writes n r.
Proof. cbn. case_match. intros. by simplify_eq. Qed.
Lemma adds_request_loop turns run e : e ~> (request_loop turns run e).2.
Proof.
  revert run e. induction turns as [|turns IH]; intros run e; cbn [request_loop]; [apply adds_refl|].
  destruct (refill_request run) as [on run']. destruct (_ || _); [apply adds_refl|]. destruct (Running.exchange run') as [x|]; [|apply adds_refl].
  destruct (try_write _ _ _) as [r e1] eqn:Hw. apply writes_log in Hw. destruct r as [count|error]; cbn in Hw.
  - eapply adds_trans; [|apply IH]. eapply adds_one; [exact Hw|]. by apply plain.
  - rewrite app_nil_r in Hw. destruct error; try (by apply adds_same); (eapply adds_trans; [by apply adds_same|apply adds_fail]).
Qed.
Lemma read_log n room r e (x : owner) : try_read n room x = (r, e) -> e.2 = x.2.
Proof. cbn. case_match. intros. by simplify_eq. Qed.
Lemma adds_refill_response x run e : e ~> (refill_response x run e).2.
Proof.
  unfold refill_response. destruct (_ && _); [|apply adds_refl]. destruct (try_read _ _ _) as [r e1] eqn:Hr. apply read_log in Hr.
  assert (H : e ~> e1) by (by apply adds_same). destruct r as [[|b data]|error]; [by destruct (_ && _)|exact H|].
  assert (Hf : forall er, e ~> (let '(run, e2) := fail er run e1 in (false, run, e2)).2).
  { intros er. pose proof (adds_fail er run e1) as Hf. destruct (fail er run e1) as [run' e2]. by eapply adds_trans. }
  destruct error; [exact H|apply Hf..].
Qed.
Lemma adds_response_loop turns run e : e ~> (response_loop turns run e).2.
Proof.
  revert run e. induction turns as [|turns IH]; intros run e; cbn [response_loop]; [apply adds_refl|].
  destruct (Running.exchange run) as [x|]; [|apply adds_refl]. pose proof (adds_refill_response x run e) as H.
  destruct (refill_response x run e) as [[on run1] e1]; cbn in H. destruct (_ || _); [exact H|].
  destruct (Stream.write _ _) as [[count|error] machine]; [|exact H]. eapply adds_trans; [exact H|apply IH].
Qed.
Lemma finish_log n r e (x : owner) : finish_exchange n x = (r, e) -> e.2 = x.2.
Proof. cbn. case_match. intros. by simplify_eq. Qed.
Lemma finished_log n r e (x : owner) : poll_finished n x = (r, e) -> e.2 = x.2.
Proof. cbn. case_match. intros. by simplify_eq. Qed.
Lemma adds_relay run e : e ~> (relay run e).2.
Proof.
  unfold relay. destruct (is_none _); [apply adds_refl|]. pose proof (adds_request_loop 8 run e) as H1.
  destruct (request_loop 8 run e) as [run1 e1]; cbn in H1. pose proof (adds_response_loop 8 run1 e1) as H2.
  destruct (response_loop 8 run1 e1) as [run2 e2]; cbn in H2. pose proof (adds_trans _ _ _ _ H1 H2) as H.
  destruct (_ && _); [|exact H]. destruct (Running.exchange run2) as [x|]; [|exact H].
  destruct (finish_exchange x e2) as [f e3] eqn:Hf. apply finish_log in Hf. eapply adds_trans; [exact H|]. by apply adds_same.
Qed.
Lemma adds_poll_finishing run e : e ~> (poll_finishing run e).2.
Proof.
  unfold poll_finishing. destruct (Running.finishing run) as [f|]; [|apply adds_refl].
  destruct (poll_finished f e) as [[d|] e1] eqn:Hf; apply finished_log in Hf; by apply adds_same.
Qed.
Lemma adds_abort_over run e : e ~> (abort_over run e).2.
Proof.
  unfold abort_over. destruct (machine_over _); [|apply adds_refl].
  destruct (Running.exchange run), (Running.finishing run); by apply adds_same.
Qed.
Lemma adds_pump_running request now budget run mux e : e ~> (pump_running request now budget run mux e).2.
Proof.
  unfold pump_running. set (run0 := run <| Running.machine := _ |>). pose proof (adds_relay run0 e) as H1.
  destruct (relay run0 e) as [run1 e1]; cbn in H1. pose proof (adds_poll_finishing run1 e1) as H2.
  destruct (poll_finishing run1 e1) as [run2 e2]; cbn in H2. pose proof (adds_abort_over (close_machine run2) e2) as H3.
  destruct (abort_over (close_machine run2) e2) as [run3 e3]; cbn in H3. destruct (messages_loop _ _ _ _) as [[[b q] m] mx]; cbn.
  eapply adds_trans; [exact H1|]. by eapply adds_trans.
Qed.
Lemma adds_pump_each request now budget ids mux m e : e ~> (pump_each request now budget ids mux m e).2.
Proof.
  revert budget mux m e. induction ids as [|id ids IH]; intros budget mux m e; cbn [pump_each]; [apply adds_refl|].
  destruct (m !! id) as [[w s|run]|]; try apply IH. pose proof (adds_pump_running request now budget run mux e) as H.
  destruct (pump_running request now budget run mux e) as [[[[over b] run'] mux'] e']; cbn in H.
  specialize (IH b mux' (<[id:=Ex.Open run']> m) e'). destruct (pump_each _ _ _ _ _ _ _) as [[[fin mx] mm] ee]; cbn in IH |- *. by eapply adds_trans.
Qed.
Lemma adds_remove_ex m e id : e ~> (remove_ex (m, e) id).2.
Proof. cbn. destruct (m !! id) as [ex|]; [apply adds_drop_ex|apply adds_refl]. Qed.
Lemma adds_remove_all ids m e : e ~> (foldl remove_ex (m, e) ids).2.
Proof.
  revert m e. induction ids as [|id ids IH]; intros m e; [apply adds_refl|]. cbn [foldl]. pose proof (adds_remove_ex m e id) as H.
  destruct (remove_ex (m, e) id) as [m' e']. eapply adds_trans; [exact H|apply IH].
Qed.
Lemma adds_run_exchanges now mux self e : e ~> (run_exchanges now mux self e).2.
Proof.
  unfold run_exchanges. pose proof (adds_poll_openings (Served.request self) (Served.session self) mux (Served.exchanges self) e) as H1.
  destruct (poll_openings _ _ _ _ _) as [[mux1 m1] e1]; cbn in H1.
  pose proof (adds_pump_each (Served.request self) now PUMP_BUDGET (keys m1) mux1 m1 e1) as H2.
  destruct (pump_each _ _ _ _ _ _ _) as [[[fin mux2] m2] e2]; cbn in H2. pose proof (adds_remove_all fin m2 e2) as H3.
  destruct (foldl remove_ex (m2, e2) fin) as [m3 e3]; cbn in H3 |- *. eapply adds_trans; [exact H1|]. by eapply adds_trans.
Qed.

(** What a binding keeps of how it was made. *)
Definition same_terms (a b : Served.t) : Prop :=
  b.(Served.request) = a.(Served.request) /\ b.(Served.session) = a.(Served.session) /\ b.(Served.rules) = a.(Served.rules).

Lemma actions_adds fuel op mux self e : (forall n spec, granted self.(Served.rules) spec -> ok (OEvent.Opens n spec)) ->
  let r := actions_loop fuel op mux self e in e ~> r.2 /\ same_terms self r.1.2.
Proof.
  revert mux self e. induction fuel as [|fuel IH]; intros mux self e Hok; cbn [actions_loop]; [by split; [apply adds_refl|]|].
  destruct (Mux.next_action mux) as [[[name message]|] mux1]; [|by split; [apply adds_refl|]].
  assert (Hgo : forall mux' m notes e', e ~> e' -> let s := self <| Served.exchanges := m |> <| Served.notes := notes |> in
    e ~> (actions_loop fuel op mux' s e').2 /\ same_terms self (actions_loop fuel op mux' s e').1.2).
  { intros mux' m notes e' He s. destruct (IH mux' s e' Hok) as [H1 H2]. split; [by eapply adds_trans|exact H2]. }
  assert (Hrun : forall mux' m e', e ~> e' -> let s := self <| Served.exchanges := m |> in
    e ~> (actions_loop fuel op mux' s e').2 /\ same_terms self (actions_loop fuel op mux' s e').1.2).
  { intros mux' m e' He s. destruct (IH mux' s e' Hok) as [H1 H2]. split; [by eapply adds_trans|exact H2]. }
  destruct (Envelope.kind message); try (apply Hrun, adds_refl).
  - destruct (open _ _ _ _ _ _ _ _) as [[[[mux2 m2] notes2] e2]|] eqn:Ho; [|by split; [apply adds_refl|]]. apply Hgo.
    apply open_granted in Ho as [Hs|(n & spec & Hs & Hg)]; [by apply adds_same|]. eapply adds_one; [exact Hs|]. by apply Hok.
  - pose proof (adds_cancel_stream (Served.request self) (Envelope.stream_id message) mux1 (Served.exchanges self) e) as H.
    destruct (cancel_stream _ _ _ _ _) as [[mux2 m2] e2]. by apply Hrun.
  - apply (IH _ self e Hok).
Qed.

Lemma drive_bound_adds now mux op self outbox e : (forall n spec, granted self.(Served.rules) spec -> ok (OEvent.Opens n spec)) ->
  let r := drive_bound now mux op self outbox e in e ~> r.2 /\ same_terms self r.1.1.
Proof.
  intros Hok. unfold drive_bound. set (mux0 := Mux.advance now mux). set (fuel := S _).
  pose proof (actions_adds fuel op mux0 self e Hok) as [H1 T1]. destruct (actions_loop fuel op mux0 self e) as [[[faulted mux1] self1] e1]; cbn in H1, T1.
  set (x := if is_none faulted then _ else _). assert (Hx : e1 ~> x.2 /\ same_terms self1 x.1.2).
  { subst x. destruct (is_none faulted); [|by split; [apply adds_refl|]]. split; [apply adds_run_exchanges|]. unfold run_exchanges.
    destruct (poll_openings _ _ _ _ _) as [[a b] c]. destruct (pump_each _ _ _ _ _ _ _) as [[[a1 a2] a3] a4]. by destruct (foldl _ _ _). }
  destruct x as [[mux2 self2] e2]; cbn in Hx. destruct Hx as [H2 T2]. pose proof (adds_trans _ _ _ _ H1 H2) as H.
  assert (T : same_terms self self2) by (destruct T1 as (? & ? & ?), T2 as (? & ? & ?); split_and!; congruence).
  destruct (collect _ mux2 outbox) as [mux3 outbox']. destruct faulted as [id|].
  - pose proof (adds_terminate ErrorCode.Protocol (Some id) (self2 <| Served.stage := ServedStage.Bound mux3 op |>) e2) as H3.
    unfold fault. destruct (terminate _ _ _ _) as [self3 e3] eqn:Et; cbn in H3 |- *. split; [by eapply adds_trans|].
    unfold terminate in Et. by injection Et as <- _.
  - destruct (bool_decide _); [|by split]. cbn. split; [|exact T]. eapply adds_trans; [exact H|].
    eapply adds_trans; [apply adds_drop_exchanges|apply (adds_drop_stage (ServedStage.Bound mux3 op))].
Qed.

Lemma acquired_log n r e (x : owner) : poll_acquire n x = (r, e) -> e.2 = x.2.
Proof. cbn. case_match. intros. by simplify_eq. Qed.
Lemma registered_log n r e (x : owner) : register_permit n x = (r, e) -> e.2 = x.2.
Proof. cbn. case_match. intros. by simplify_eq. Qed.
Lemma drive_adds now self outbox e : (forall n spec, granted self.(Served.rules) spec -> ok (OEvent.Opens n spec)) ->
  let r := drive unstable_sequenced now self outbox e in e ~> r.2 /\ same_terms self r.1.1.
Proof.
  intros Hok. assert (Hrest : forall s o x, same_terms self s -> e ~> x ->
    e ~> (drive_rest now s o x).2 /\ same_terms self (drive_rest now s o x).1.1).
  { intros s o x Ts Hx. unfold drive_rest. set (y := match Served.stage s with ServedStage.Bound _ _ => _ | _ => _ end).
    assert (Hy : e ~> y.2 /\ same_terms self y.1.1).
    { subst y. destruct (Served.stage s) as [a b|mux op|]; try done. pose proof (drive_bound_adds now mux op s o x) as H.
      assert (E3 : Served.rules s = Served.rules self) by apply Ts. rewrite E3 in H. destruct (H Hok) as [H1 H2]. split; [by eapply adds_trans|].
      destruct Ts as (? & ? & ?), H2 as (? & ? & ?). split_and!; congruence. }
    destruct y as [[s1 o1] x1]; cbn in Hy. destruct Hy as [Hy Ty]. cbn. destruct (Served.dying s1); [|by split]. cbn. split; [|exact Ty].
    eapply adds_trans; [exact Hy|]. apply (adds_drop_stage (Served.stage s1)). }
  unfold drive. destruct (Served.stage self) as [a b|mux op|] eqn:Es; [|by apply Hrest; [|apply adds_refl]..].
  destruct (poll_acquire a e) as [[r|] e1] eqn:Ha; apply acquired_log in Ha; [|by split; [apply adds_same|]].
  assert (Had : e ~> (admitted unstable_sequenced r b self outbox e1).2 /\ same_terms self (admitted unstable_sequenced r b self outbox e1).1.1).
  { unfold admitted. destruct r as [permit|error]; [|by split; [apply adds_same|]].
    destruct (register_permit permit e1) as [[op reg] e2] eqn:Hr. apply registered_log in Hr. rewrite Ha in Hr.
    destruct (negb reg); [by split; [apply adds_same|]|]. destruct (build_mux _ _ _); by split; [apply adds_same|]. }
  destruct (admitted _ _ _ _ _ _) as [[s o] x]; cbn in Had. destruct Had as [Had1 Had2]. by apply (Hrest s o x).
Qed.
End adding.
End facts.

Section taken.
Context {L : Layout} {E : Type} `{!Owner E}.
(** ** The loop over what the core sent ends *)

Lemma mux_send_actions request message mux : (Mux.send request message mux).2.(Mux.actions) = mux.(Mux.actions).
Proof.
  assert (Ht : forall m, (Mux.transition message m).(Mux.actions) = m.(Mux.actions)) by (intros m; unfold Mux.transition; by repeat case_match).
  unfold Mux.send, Mux.enqueue, ok_or. repeat (case_match; simplify_eq; try done; cbn); by rewrite Ht.
Qed.
Lemma send_actions request id kind fill mux : (send request id kind fill mux).(Mux.actions) = mux.(Mux.actions).
Proof. unfold send. destruct (Mux.message id kind mux); [apply mux_send_actions|done]. Qed.
Lemma open_actions rules request op message mux exchanges notes (e : E) r :
  open rules request op message mux exchanges notes e = Some r -> r.1.1.1.(Mux.actions) = mux.(Mux.actions).
Proof.
  unfold open, open_failed. intros H. repeat (case_match; simplify_eq; try done; cbn [fst snd]; try apply send_actions).
Qed.
(** With the fuel [drive_bound] gives, a turn that does not fault leaves nothing the
    core sent unhandled. *)
Lemma actions_taken fuel op mux self (e : E) : (length mux.(Mux.actions).(Queue.items) < fuel)%nat ->
  let r := actions_loop fuel op mux self e in r.1.1.1 = None -> r.1.1.2.(Mux.actions).(Queue.items) = [].
Proof.
  revert mux self e. induction fuel as [|fuel IH]; intros mux self e Hl; [lia|]. cbn [actions_loop]. unfold Mux.next_action.
  destruct (Queue.pop (Mux.actions mux)) as [[[name message]|] q] eqn:Hp.
  2: { cbn. unfold Queue.pop in Hp. destruct (Queue.items (Mux.actions mux)) eqn:Hi; [|done]. by injection Hp as <-. }
  assert (Hq : (length q.(Queue.items) < fuel)%nat).
  { unfold Queue.pop in Hp. destruct (Queue.items (Mux.actions mux)) as [|x l]; [done|]. cbn in Hl. injection Hp as _ <-.
    destruct (Queued.control x); cbn; lia. }
  set (mux1 := mux <| Mux.actions := q |>). destruct (Envelope.kind message); try (by apply IH).
  - destruct (open _ _ _ _ _ _ _ _) as [[[[mux2 m2] notes2] e2]|] eqn:Ho; [|done]. apply open_actions in Ho. cbn in Ho.
    apply IH. by rewrite Ho.
  - unfold cancel_stream, open_failed. destruct (Served.exchanges self !! _) as [[w s|run]|]; apply IH; rewrite ?send_actions; done.
  - apply IH. unfold check_identity. rewrite send_actions. done.
Qed.
End taken.
