(* ===== verification/ReceiverRun.v ===== *)
(** * Runs of the client's receiver

    Any sequence of the receiver's calls, with any owner and any lane.  What the owner
    was asked and which invocations the client gave out are written down. *)
From S2P Require Import Prelude Utf8 Text TextFacts Cbor Protocol Budget Admission Policy Validate Codec Binding BindingFacts IoClock Stream Mux PoolTypes RemoteAdmission RemoteAdmissionFacts Operation RemoteTable ConnBinding RemoteCore Served ServedFacts.
Import Receiver.

(** An invocation the client's own table gave for a request. *)
Definition CLog : Type := list (string * Invocation.t).
#[global] Instance noted {C} `{!ClientLane C} : ClientLane (C * CLog) := {|
  lane_recv := fun c => let '(r, x) := lane_recv c.1 in (r, (x, c.2));
  lane_send := fun m c => let '(r, x) := lane_send m c.1 in (r, (x, c.2));
  lane_faulted := fun s c => lane_faulted s c.1;
  lane_retire := fun s c => (lane_retire s c.1, c.2);
  lane_now := fun c => let '(r, x) := lane_now c.1 in (r, (x, c.2));
  take_invocation := fun q c => let '(r, x) := take_invocation q c.1 in
    (r, (x, c.2 ++ match r with Some i => [(q, i)] | None => [] end));
|}.

Module RCall.
Inductive t (E C : Type) :=
| Pump
| EndCall (request : string)
| TakeRefusals
(** What the owner and the carrier do by themselves. *)
| Outside (e : E) (c : C).
Arguments Pump {E C}.
Arguments EndCall {E C}.
Arguments TakeRefusals {E C}.
Arguments Outside {E C}.
End RCall.

Section run.
Context {L : Layout} {E C : Type} `{!Owner E} `{!ClientLane C}.
Variable unstable_sequenced : bool.
Abbreviation state := (Receiver.t (E * OLog) (C * CLog)).

Definition rcall (op : nat * RCall.t E C) (self : state) : state :=
  match op.2 with
  | RCall.Pump => pump unstable_sequenced op.1 self
  | RCall.EndCall request => end_call unstable_sequenced op.1 request self
  | RCall.TakeRefusals => (take_refusals self).2
  | RCall.Outside e c => self <| owner := (e, self.(owner).2) |> <| lane := (c, self.(lane).2) |>
  end.
Definition rrun (ops : list (nat * RCall.t E C)) (self : state) : state := foldl (fun s op => rcall op s) self ops.

Definition given (self : state) : CLog := self.(lane).2.
(** The owner was asked for something an invocation given out grants. *)
Definition warranted (l : CLog) (ev : OEvent.t) : Prop :=
  match ev with OEvent.Opens n spec => exists q i, (q, i) ∈ l /\ granted i.(Invocation.rules) spec | _ => True end.

(** A binding and the call it serves. *)
Definition bound_for (self : state) (session : string) (s : Served.t) : Prop :=
  s.(Served.session) = session
  /\ exists i, (s.(Served.request), i) ∈ given self /\ s.(Served.rules) = i.(Invocation.rules).

Record rinv (self : state) : Prop := {
  ri_served : forall session s, self.(served) !! session = Some s -> bound_for self session s;
  ri_calls : forall q session s, self.(calls) !! q = Some session -> self.(served) !! session = Some s -> s.(Served.request) = q;
  ri_opens : forall ev, ev ∈ self.(owner).2 -> warranted (given self) ev;
  ri_seen : self.(seen_set) = list_to_set self.(seen) /\ NoDup self.(seen) /\ (length self.(seen) <= SEEN)%nat;
  ri_notes : (length self.(notes) <= NOTES)%nat;
}.
(** Every call has its binding. *)
Definition attended (self : state) : Prop := forall q session, self.(calls) !! q = Some session -> is_Some (self.(served) !! session).

(** A step that changes bindings in place. *)
Record keeps_terms (a b : state) : Prop := {
  kt_served : forall session s, b.(served) !! session = Some s -> exists s0, a.(served) !! session = Some s0 /\ same_terms s0 s;
  kt_calls : forall q session, b.(calls) !! q = Some session -> a.(calls) !! q = Some session;
  kt_owner : adds (warranted (given b)) a.(owner) b.(owner);
  kt_given : given b = given a;
  kt_seen : b.(seen) = a.(seen) /\ b.(seen_set) = a.(seen_set);
  kt_notes : (length a.(notes) <= NOTES -> length b.(notes) <= NOTES)%nat;
}.
Lemma keeps_terms_refl a : keeps_terms a a.
Proof. split; try done; [|apply adds_refl]. intros session s H. exists s. by split. Qed.
Lemma keeps_terms_trans a b c : keeps_terms a b -> keeps_terms b c -> keeps_terms a c.
Proof.
  intros [S1 C1 O1 G1 [E1 F1] N1] [S2 C2 O2 G2 [E2 F2] N2]. split; try congruence; auto.
  - intros session s H. destruct (S2 session s H) as (s1 & H1 & T1 & T2 & T3). destruct (S1 session s1 H1) as (s0 & H0 & U1 & U2 & U3).
    exists s0. split; [done|]. split_and!; congruence.
  - eapply adds_trans; [|exact O2]. by rewrite G2.
  - split; congruence.
Qed.

Lemma rinv_keeps a b : keeps_terms a b -> rinv a -> rinv b.
Proof.
  intros [S K O G [E1 F1] N] [I1 I2 I3 I4 I5]. split.
  - intros session s H. destruct (S session s H) as (s0 & H0 & T1 & T2 & T3). destruct (I1 session s0 H0) as (J1 & i & J2 & J3).
    split; [congruence|]. exists i. rewrite G, T1, T3. done.
  - intros q session s Hq Hs. destruct (S session s Hs) as (s0 & H0 & T1 & _). rewrite T1. by eapply I2; [apply K|].
  - destruct O as (new & En & Hn). intros ev. rewrite En. intros [H|H]%elem_of_app; [rewrite G; by apply I3|by apply Hn].
  - by rewrite E1, F1.
  - auto.
Qed.

(** ** Turns of one binding *)

Lemma plain_warranted l ev : (forall n spec, ev <> OEvent.Opens n spec) -> warranted l ev.
Proof. destruct ev as [n spec| |]; [|done..]. intros H. by destruct (H n spec). Qed.

Lemma terms_put a session s0 s e : a.(served) !! session = Some s0 -> same_terms s0 s -> adds (warranted (given a)) a.(owner) e ->
  keeps_terms a (a <| served := <[session := s]> a.(served) |> <| owner := e |>).
Proof.
  intros H0 Ht He. split; try done. intros k x Hx. cbn in Hx. apply lookup_insert_Some in Hx as [[<- <-]|[_ Hx]]; [by exists s0|]. by exists x.
Qed.
Lemma terms_on_served session f a :
  (forall s e, same_terms s (f s e).1 /\ adds (warranted (given a)) e (f s e).2) -> keeps_terms a (on_served session f a).
Proof.
  intros Hf. unfold on_served. destruct (served a !! session) as [s|] eqn:Es; [|apply keeps_terms_refl].
  destruct (Hf s (owner a)) as [H1 H2]. destruct (f s (owner a)) as [s' e']. by apply (terms_put a session s s' e').
Qed.
Lemma terminate_terms l code offending s (e : E * OLog) :
  same_terms s (terminate code offending s e).1 /\ adds (warranted l) e (terminate code offending s e).2.
Proof. split; [done|]. apply adds_terminate. Qed.
Lemma receive_terms l message s (e : E * OLog) :
  same_terms s (receive unstable_sequenced message s e).1 /\ adds (warranted l) e (receive unstable_sequenced message s e).2.
Proof.
  split; [|apply adds_receive]. unfold receive. destruct (Served.stage s) as [x b|m op|]; try done. destruct (negb _); [done|].
  destruct (Mux.receive _ _ _) as [r m']. by destruct (is_ok r).
Qed.

Lemma terms_fault_turn a session : keeps_terms a (fault_turn a session).
Proof.
  unfold fault_turn. destruct (served a !! session) as [s|]; [|apply keeps_terms_refl]. destruct (_ && _); [|apply keeps_terms_refl].
  apply terms_on_served. intros x e. apply terminate_terms.
Qed.
Lemma terms_foldl {A} (f : state -> A -> state) l a : (forall s x, keeps_terms s (f s x)) -> keeps_terms a (foldl f a l).
Proof.
  intros Hf. revert a. induction l as [|x l IH]; intros a; [apply keeps_terms_refl|]. cbn. eapply keeps_terms_trans; [apply Hf|apply IH].
Qed.

Lemma terms_drive_turn now a session : rinv a -> keeps_terms a (drive_turn unstable_sequenced now a session).1.
Proof.
  intros Ha. unfold drive_turn. destruct (served a !! session) as [s|] eqn:Es; [|apply keeps_terms_refl].
  destruct (ri_served _ Ha session s Es) as (_ & i & Hi & Hr).
  assert (Hd : adds (warranted (given a)) (owner a) (drive unstable_sequenced now s (outbox a) (owner a)).2
    /\ same_terms s (drive unstable_sequenced now s (outbox a) (owner a)).1.1).
  { apply drive_adds; [apply plain_warranted|]. intros n spec Hg. exists (Served.request s), i. by rewrite Hr in Hg. }
  destruct (drive _ _ _ _ _) as [[s' out] e']; cbn in Hd |- *. destruct Hd as [H1 H2].
  set (s2 := s' <| Served.notes := [] |>). eapply keeps_terms_trans; [apply (terms_put a session s s2 e' Es H2 H1)|].
  split; try done; [|apply adds_refl]. intros k x Hx. exists x. split; [exact Hx|done].
Qed.
Lemma terms_drive_each now sessions a : rinv a -> keeps_terms a (drive_each unstable_sequenced now sessions a).1.
Proof.
  revert a. induction sessions as [|session sessions IH]; intros a Ha; cbn; [apply keeps_terms_refl|].
  pose proof (terms_drive_turn now a session Ha) as H. destruct (drive_turn _ _ _ _) as [b n1]; cbn in H.
  specialize (IH b (rinv_keeps _ _ H Ha)). destruct (drive_each _ _ _ _) as [c n2]; cbn in IH |- *. by eapply keeps_terms_trans.
Qed.
Lemma terms_note a entry : keeps_terms a (note a entry).
Proof.
  unfold note. set (kept := if bool_decide _ then _ else _). assert (Hk : (length (notes a) <= NOTES -> length kept < NOTES)%nat).
  { intros H. subst kept. case_bool_decide as Hl; [|lia]. destruct (notes a); cbn in *; [|lia]. unfold NOTES. lia. }
  split; try done; [intros k s H; exists s; by split|apply adds_refl|]. intros H%Hk. cbn. rewrite length_app. cbn. lia.
Qed.
Lemma terms_remove_dead a session : keeps_terms a (remove_dead a session).
Proof.
  unfold remove_dead. destruct (served a !! session) as [s|]; [|apply keeps_terms_refl].
  split; try done; [|apply adds_drop_served]. intros k x Hx. cbn in Hx. apply lookup_delete_Some in Hx as [_ Hx]. by exists x.
Qed.
Lemma terms_end_carrier a : keeps_terms a (end_carrier a).
Proof.
  split; try done. apply adds_foldl. intros e s. apply adds_drop_served.
Qed.
Lemma terms_lane (a : state) c : c.2 = a.(lane).2 -> keeps_terms a (a <| lane := c |>).
Proof.
  intros Hc. split; try done; [intros k s H; exists s; split; [exact H|done]|apply adds_refl].
Qed.
Lemma terms_outbox (a : state) o : keeps_terms a (a <| outbox := o |>).
Proof. split; try done; [intros k s H; exists s; split; [exact H|done]|apply adds_refl]. Qed.

(** ** Binds *)

Definition fine (a : state) : Prop := rinv a /\ attended a.
Lemma fine_same a b : keeps_terms a b -> (forall session, is_Some (a.(served) !! session) -> is_Some (b.(served) !! session)) ->
  fine a -> fine b.
Proof.
  intros Hk Hs [H1 H2]. split; [by eapply rinv_keeps|]. intros q session Hq. apply Hs. apply (H2 q). by apply (kt_calls _ _ Hk).
Qed.

Lemma fine_reject request session code a : fine a -> fine (reject request session code a).
Proof.
  intros Ha. unfold reject, on_lane. set (b := a <| outbox := _ |>). apply (fine_same b); [by apply terms_lane|done|].
  apply (fine_same a); [apply terms_outbox|done|exact Ha].
Qed.
Lemma fine_remember request a : request ∉ a.(seen_set) -> fine a -> fine (remember request a).
Proof.
  intros Hn [[I1 I2 I3 (J1 & J2 & J3) I5] Hat]. unfold remember.
  set (b := if bool_decide _ then _ else _).
  assert (Hb : seen_set b = list_to_set (seen b) /\ NoDup (seen b) /\ (length (seen b) < SEEN)%nat /\ request ∉ seen b
    /\ served b = served a /\ calls b = calls a /\ owner b = owner a /\ lane b = lane a /\ notes b = notes a).
  { rewrite J1 in Hn. apply not_elem_of_list_to_set in Hn. subst b. case_bool_decide as Hl.
    - destruct (seen a) as [|oldest rest] eqn:Es; cbn in *; [by unfold SEEN in Hl|]. apply list.NoDup_cons in J2 as [K1 K2].
      apply not_elem_of_cons in Hn as [_ Hn]. split_and!; try done; try lia. rewrite J1. set_solver.
    - split_and!; try done. lia. }
  destruct Hb as (B1 & B2 & B3 & B4 & B5 & B6 & B7 & B8 & B9). unfold fine, attended, bound_for, given in *.
  split; [split; unfold bound_for, given; cbn; rewrite ?B5, ?B6, ?B7, ?B8, ?B9; try done|cbn; by rewrite B5, B6].
  split_and!.
  - rewrite B1, list_to_set_app_L. set_solver.
  - apply list.NoDup_app. split_and!; [done| |apply list.NoDup_singleton]. intros x Hx ->%list_elem_of_singleton. done.
  - rewrite length_app. cbn. lia.
Qed.

Lemma fine_more (a : state) c l : c.2 = a.(lane).2 ++ l -> fine a -> fine (a <| lane := c |>).
Proof.
  intros Hc [[I1 I2 I3 I4 I5] Hat]. assert (Hg : forall x, x ∈ given a -> x ∈ c.2) by (intros x Hx; rewrite Hc; apply elem_of_app; by left).
  split; [|exact Hat]. split; try done.
  - intros session s Hs. destruct (I1 session s Hs) as (J1 & i & J2 & J3). split; [done|]. exists i. split; [by apply Hg|done].
  - intros ev Hev. specialize (I3 ev Hev). destruct ev as [n spec| |]; try done. destruct I3 as (q & i & J1 & J2). exists q, i.
    split; [by apply Hg|done].
Qed.

Lemma took_log q r c (x : C * CLog) : take_invocation q x = (r, c) -> c.2 = x.2 ++ match r with Some i => [(q, i)] | None => [] end.
Proof. cbn. case_match. intros. by simplify_eq. Qed.
Lemma admit_log p r e (x : E * OLog) : admit_prepared p x = (r, e) -> e.2 = x.2.
Proof. cbn. case_match. intros. by simplify_eq. Qed.
Lemma terms_owner (a : state) e : e.2 = a.(owner).2 -> keeps_terms a (a <| owner := e |>).
Proof.
  intros He. split; try done; [intros k s H; exists s; split; [exact H|done]|by apply adds_same].
Qed.

(** A new binding for a call. *)
Lemma fine_bound (a : state) s i : fine a -> a.(served) !! s.(Served.session) = None -> a.(calls) !! s.(Served.request) = None ->
  (s.(Served.request), i) ∈ given a -> s.(Served.rules) = i.(Invocation.rules) ->
  fine (a <| calls := <[s.(Served.request) := s.(Served.session)]> a.(calls) |>
          <| served := <[s.(Served.session) := s]> a.(served) |>).
Proof.
  intros [[I1 I2 I3 I4 I5] Hat] Hs Hq Hi Hr. split.
  - split; try done.
    + intros k x Hx. cbn in Hx. apply lookup_insert_Some in Hx as [[<- <-]|[_ Hx]]; [split; [done|by exists i]|by apply I1].
    + intros q k x Hk Hx. cbn in Hk, Hx. apply lookup_insert_Some in Hk as [[<- <-]|[Hne Hk]].
      * rewrite lookup_insert_eq in Hx. by injection Hx as <-.
      * apply lookup_insert_Some in Hx as [[<- <-]|[_ Hx]]; [|by eapply I2]. destruct (Hat q _ Hk) as [y Hy]. congruence.
  - intros q k Hk. cbn in Hk |- *. apply lookup_insert_Some in Hk as [[_ <-]|[_ Hk]]; [rewrite lookup_insert_eq; by eexists|].
    destruct (decide (Served.session s = k)) as [<-|Hne]; [rewrite lookup_insert_eq; by eexists|]. rewrite lookup_insert_ne by done. by eapply Hat.
Qed.

Lemma fine_start_bind message a : a.(served) !! message.2.(Envelope.session_id) = None -> fine a -> fine (start_bind message a).
Proof.
  intros Hs Ha. unfold start_bind. destruct (_ || _) eqn:Hd; [by apply fine_reject|]. apply orb_false_iff in Hd as [Hc Hn].
  apply bool_decide_eq_false in Hn. pose proof (fine_remember _ _ Hn Ha) as Hb.
  assert (Hbs : served (remember message.1 a) = served a /\ calls (remember message.1 a) = calls a).
  { unfold remember. case_bool_decide; [|done]. by destruct (seen a). }
  set (b := remember message.1 a) in *. unfold ask_lane. destruct (take_invocation _ _) as [r c] eqn:Ht. apply took_log in Ht.
  pose proof (fine_more b c _ Ht Hb) as Hd. set (d := b <| lane := c |>) in *. destruct r as [i|]; [|by apply fine_reject].
  destruct (bool_decide _); [by apply fine_reject|]. destruct (admit_prepared _ _) as [r e] eqn:Hp. apply admit_log in Hp.
  assert (He : fine (d <| owner := e |>)) by (apply (fine_same d); [by apply terms_owner|done|done]).
  destruct r as [acquire|error]; [|by apply fine_reject].
  set (s := Served.mk _ _ _ _ _ _ _ _ _).
  pose proof (fine_bound (d <| owner := e |>) s i He) as H. apply H.
  - change (served b !! Envelope.session_id message.2 = None). by rewrite (proj1 Hbs).
  - change (calls b !! message.1 = None). rewrite (proj2 Hbs). by destruct (calls a !! message.1).
  - change ((message.1, i) ∈ c.2). rewrite Ht. apply elem_of_app. right. by left.
  - done.
Qed.

Lemma on_served_keys session f (a : state) k : is_Some (a.(served) !! k) -> is_Some ((on_served session f a).(served) !! k).
Proof.
  intros Hk. unfold on_served. destruct (served a !! session) as [s|] eqn:Es; [|done]. destruct (f s (owner a)) as [s' e']. cbn.
  destruct (decide (session = k)) as [<-|Hne]; [rewrite lookup_insert_eq; by eexists|by rewrite lookup_insert_ne].
Qed.
Lemma fine_route_in message a : fine a -> fine (route_in unstable_sequenced message a).
Proof.
  intros Ha. unfold route_in. destruct (served a !! _) as [s|] eqn:Es; cbn [is_some].
  - apply (fine_same a); [|intros k; apply on_served_keys|done]. apply terms_on_served. intros x e. apply receive_terms.
  - destruct (_ && _); [by apply fine_start_bind|]. destruct Ha as [[I1 I2 I3 I4 I5] Hat]. split; [by split|exact Hat].
Qed.

Lemma recv_log r c (x : C * CLog) : lane_recv x = (r, c) -> c.2 = x.2.
Proof. cbn. case_match. intros. by simplify_eq. Qed.
Lemma fine_end_carrier a : fine a -> fine (end_carrier a).
Proof. intros [H1 _]. split; [eapply rinv_keeps; [apply terms_end_carrier|done]|]. intros q session Hq. done. Qed.
Lemma fine_lane (a : state) c : c.2 = a.(lane).2 -> fine a -> fine (a <| lane := c |>).
Proof. intros Hc. apply fine_same; [by apply terms_lane|done]. Qed.
Lemma fine_recv_loop fuel a : fine a -> fine (recv_loop unstable_sequenced fuel a).2.
Proof.
  revert a. induction fuel as [|fuel IH]; intros a Ha; cbn [recv_loop]; [done|]. destruct (_ <=? _)%nat; [done|].
  unfold ask_lane. destruct (lane_recv _) as [r c] eqn:Hr. apply recv_log in Hr. pose proof (fine_lane a c Hr Ha) as Hb.
  destruct r as [[message|]|]; [apply IH; by apply fine_route_in|done|by apply fine_end_carrier].
Qed.

Lemma forget_attends a : rinv a -> fine (forget_calls a).
Proof.
  intros [I1 I2 I3 I4 I5]. split.
  - split; try done. intros q session s Hq Hs. cbn in Hq. apply map_lookup_filter_Some in Hq as [Hq _]. by eapply I2.
  - intros q session Hq. cbn in Hq. by apply map_lookup_filter_Some in Hq as [_ Hq].
Qed.
Lemma sent_log m r c (x : C * CLog) : lane_send m x = (r, c) -> c.2 = x.2.
Proof. cbn. case_match. intros. by simplify_eq. Qed.
Lemma fine_outbox (a : state) o : fine a -> fine (a <| outbox := o |>).
Proof. apply fine_same; [apply terms_outbox|done]. Qed.
Lemma fine_send_each items a : fine a -> fine (send_each items a).
Proof.
  revert a. induction items as [|m items IH]; intros a Ha; cbn [send_each]; [by apply fine_outbox|].
  unfold ask_lane. destruct (lane_send _ _) as [r c] eqn:Hr. apply sent_log in Hr. pose proof (fine_lane a c Hr Ha) as Hb.
  destruct r; [by apply IH|by apply fine_outbox|by apply fine_end_carrier, fine_outbox].
Qed.

Lemma now_log r c (x : C * CLog) : lane_now x = (r, c) -> c.2 = x.2.
Proof. cbn. case_match. intros. by simplify_eq. Qed.
Lemma fine_pump fuel a : fine a -> fine (pump unstable_sequenced fuel a).
Proof.
  intros Ha. unfold pump. destruct (ended a); [done|]. unfold ask_lane. destruct (lane_now _) as [now c] eqn:Hn. apply now_log in Hn.
  pose proof (fine_lane a c Hn Ha) as Hb. set (b := a <| lane := c |>) in *. pose proof (fine_recv_loop fuel b Hb) as Hd.
  destruct (recv_loop _ _ _) as [there d]; cbn in Hd. destruct (negb there); [done|].
  set (f := foldl fault_turn d _). assert (Hf : rinv f).
  { apply (rinv_keeps d); [|by destruct Hd]. apply terms_foldl. intros s x. apply terms_fault_turn. }
  pose proof (terms_drive_each now (keys (served f)) f Hf) as Hg. destruct (drive_each _ _ _ _) as [g texts]; cbn in Hg.
  pose proof (rinv_keeps _ _ Hg Hf) as Ig. set (h := foldl note g texts).
  assert (Hh : rinv h) by (apply (rinv_keeps g); [apply terms_foldl; intros s x; apply terms_note|done]).
  set (j := foldl remove_dead h _). assert (Hj : rinv j) by (apply (rinv_keeps h); [apply terms_foldl; intros s x; apply terms_remove_dead|done]).
  apply fine_send_each. by apply forget_attends.
Qed.

Lemma fine_call op a : fine a -> fine (rcall op a).
Proof.
  intros Ha. destruct op as [fuel []]; cbn [rcall fst snd].
  - by apply fine_pump.
  - unfold end_call. apply fine_pump. destruct (calls a !! request) as [session|] eqn:Eq; [|done].
    set (b := a <| calls := _ |>). assert (Hb : fine b).
    { destruct Ha as [[I1 I2 I3 I4 I5] Hat]. split.
      - split; try done. intros q k s Hq Hs. cbn in Hq. apply lookup_delete_Some in Hq as [_ Hq]. by eapply I2.
      - intros q k Hq. cbn in Hq. apply lookup_delete_Some in Hq as [_ Hq]. by eapply Hat. }
    apply (fine_same b); [|intros k; apply on_served_keys|done]. apply terms_on_served. intros x e. apply terminate_terms.
  - destruct Ha as [[I1 I2 I3 I4 I5] Hat]. split; [split; try done; cbn; unfold NOTES; lia|exact Hat].
  - apply fine_lane; [done|]. apply (fine_same a); [by apply terms_owner|done|done].
Qed.
Lemma fine_run ops e c : fine (rrun ops (new (e, []) (c, []))).
Proof.
  unfold rrun. assert (Hn : fine (new (e, []) (c, []))).
  { split; [|done]. split; try done.
    - by intros ev ?%elem_of_nil.
    - cbn. split_and!; [done|apply base.NoDup_nil_2|lia].
    - cbn. lia. }
  revert Hn. generalize (new (e, []) (c, []) : state). induction ops as [|op ops IH]; intros a Ha; [done|]. cbn. by apply IH, fine_call.
Qed.

(** C10: The owner is asked to open nothing but what the rules of an invocation the
    client itself gave out grant: an allowance of the client's own set for the service
    and class matches the destination, the connection is to that allowance's host and
    port as the client's own user, and the identity is one the invocation named. *)
Theorem asked_only_granted ops e c n spec : OEvent.Opens n spec ∈ (rrun ops (new (e, []) (c, []))).(owner).2 ->
  exists q i, (q, i) ∈ given (rrun ops (new (e, []) (c, []))) /\ granted i.(Invocation.rules) spec.
Proof. intros H. exact (ri_opens _ (proj1 (fine_run ops e c)) _ H). Qed.

(** C26: In every run of the receiver each call has the binding made for it, under the
    session it was asked for and with the rules of its own invocation; no two calls
    share one; and the names remembered and the refusals kept are within their bounds. *)
Theorem receiver_tables ops e c : let self := rrun ops (new (e, []) (c, [])) in
  (forall q session, self.(calls) !! q = Some session -> exists s, self.(served) !! session = Some s /\ s.(Served.request) = q)
  /\ (forall q q' session, self.(calls) !! q = Some session -> self.(calls) !! q' = Some session -> q = q')
  /\ (forall session s, self.(served) !! session = Some s -> s.(Served.session) = session
        /\ exists i, (s.(Served.request), i) ∈ given self /\ s.(Served.rules) = i.(Invocation.rules))
  /\ (length self.(seen) <= SEEN)%nat /\ NoDup self.(seen) /\ self.(seen_set) = list_to_set self.(seen)
  /\ (length self.(notes) <= NOTES)%nat.
Proof.
  intros self. assert (Hf : fine self) by apply fine_run. clearbody self. destruct Hf as [[I1 I2 I3 (J1 & J2 & J3) I5] Hat]. split_and!; try done.
  - intros q session Hq. destruct (Hat q session Hq) as [s Hs]. exists s. split; [done|]. by eapply I2.
  - intros q q' session Hq Hq'. destruct (Hat q session Hq) as [s Hs]. rewrite <- (I2 q session s Hq Hs). by apply (I2 q' session s).
Qed.
End run.
