(* ===== verification/ServedEffect.v ===== *)
(** * What a served stream is told of its effect

    A stream that the client's side of a binding ends early is told whether it may have
    changed anything: a push is told [Effect.None] only if the owner's stream took none
    of its bytes.  Shown for every run of one binding, with any owner whose exchanges
    are all different. *)
From S2P Require Import Prelude Utf8 Text TextFacts Cbor Protocol Budget Admission Policy Validate Codec Binding BindingFacts IoClock Stream Mux PoolTypes RemoteAdmission RemoteAdmissionFacts Operation RemoteTable ConnBinding RemoteCore Served ServedFacts.

(** ** What the owner's streams took *)

Definition taken (x : Z) (ev : OEvent.t) : Z := match ev with OEvent.Writes y count => if x =? y then count else 0 | _ => 0 end.
Definition written (x : Z) (l : OLog) : Z := sum_Z (map (taken x) l).
Definition begun (l : OLog) : list Z := omap (fun ev => match ev with OEvent.Begins x => Some x | _ => None end) l.

Lemma written_app x l k : written x (l ++ k) = written x l + written x k.
Proof. unfold written. by rewrite map_app, sum_Z_app. Qed.
Lemma written_none x l : (forall c, OEvent.Writes x c ∉ l) -> written x l = 0.
Proof.
  unfold written. induction l as [|ev l IH]; intros H; [done|]. cbn. unfold sum_Z in *. cbn. rewrite IH.
  - destruct ev as [| |y c]; cbn; try lia. destruct (Z.eqb_spec x y) as [<-|]; [|lia]. destruct (H c). by left.
  - intros c Hc. apply (H c). by right.
Qed.
Lemma elem_of_begun x l : x ∈ begun l <-> OEvent.Begins x ∈ l.
Proof.
  unfold begun. rewrite list_elem_of_omap. split; [|intros H; by exists (OEvent.Begins x)]. intros (ev & H & Hx). destruct ev; try done. by injection Hx as <-.
Qed.
Lemma begun_app l k : begun (l ++ k) = begun l ++ begun k.
Proof. apply omap_app. Qed.

(** What happens to one binding. *)
Module SStep.
Inductive t (E : Type) :=
| Receive (message : Attachment)
| Drive (now : Z) (outbox : list Attachment)
| LaneFault
| EndCall
(** What the owner does by itself. *)
| Outside (e : E).
Arguments Receive {E}.
Arguments Drive {E}.
Arguments LaneFault {E}.
Arguments EndCall {E}.
Arguments Outside {E}.
End SStep.

Section effect.
Context {L : Layout} {E : Type} `{!Owner E}.
Variable unstable_sequenced : bool.
Abbreviation owner := (E * OLog)%type.
Definition any_event (_ : OEvent.t) : Prop := True.
Lemma plain_any ev : (forall n spec, ev <> OEvent.Opens n spec) -> any_event ev.
Proof. done. Qed.

(** ** One exchange *)

(** It writes to its own exchange only, and counts what is taken. *)
Record relays (run : Running.t) (e : owner) (run' : Running.t) (e' : owner) : Prop := {
  rl_log : exists new, e'.2 = e.2 ++ new
    /\ (forall ev, ev ∈ new -> exists x c, run.(Running.exchange) = Some x /\ ev = OEvent.Writes x c)
    /\ forall x w, (forall y, run.(Running.exchange) = Some y -> y = x) -> run.(Running.forwarded) = as_u64 w ->
         run'.(Running.forwarded) = as_u64 (w + written x new);
  rl_exchange : forall y, run'.(Running.exchange) = Some y -> run.(Running.exchange) = Some y;
  rl_service : run'.(Running.service) = run.(Running.service);
}.

Lemma relays_same run run' (e e' : owner) : e'.2 = e.2 -> run'.(Running.forwarded) = run.(Running.forwarded) ->
  run'.(Running.service) = run.(Running.service) -> (forall y, run'.(Running.exchange) = Some y -> run.(Running.exchange) = Some y) ->
  relays run e run' e'.
Proof.
  intros He Hf Hs Hx. split; [|done|done]. exists []. split_and!; [by rewrite app_nil_r|by intros ev ?%elem_of_nil|].
  intros x w _ Hw. rewrite Hf, Hw. f_equal. unfold written. cbn. lia.
Qed.
Lemma relays_refl run e : relays run e run e.
Proof. by apply relays_same. Qed.
Lemma relays_trans r1 e1 r2 e2 r3 e3 : relays r1 e1 r2 e2 -> relays r2 e2 r3 e3 -> relays r1 e1 r3 e3.
Proof.
  intros [(n1 & E1 & W1 & F1) X1 S1] [(n2 & E2 & W2 & F2) X2 S2]. split; [|auto|congruence]. exists (n1 ++ n2). split_and!.
  - by rewrite E2, E1, app_assoc.
  - intros ev [H|H]%elem_of_app; [by apply W1|]. destruct (W2 ev H) as (x & c & Hx & Hc). exists x, c. auto.
  - intros x w Hy Hw. rewrite written_app, Z.add_assoc. apply F2; [|by apply F1]. intros y Hy'. apply Hy. by apply X1.
Qed.

Lemma relays_fail error run e : relays run e (fail error run e).1 (fail error run e).2.
Proof. unfold fail. cbn. by destruct (Running.exchange run); apply relays_same. Qed.
Lemma relays_refill_request run e : relays run e (refill_request run).2 e.
Proof.
  unfold refill_request. destruct (_ && _); [|apply relays_refl]. destruct (Stream.read _ _) as [[[|b data]|error] m]; by apply relays_same.
Qed.

Lemma relays_request_loop turns run e : relays run e (request_loop turns run e).1 (request_loop turns run e).2.
Proof.
  revert run e. induction turns as [|turns IH]; intros run e; cbn [request_loop]; [apply relays_refl|].
  pose proof (relays_refill_request run e) as Hr. destruct (refill_request run) as [on run1]; cbn in Hr. destruct (_ || _); [exact Hr|].
  destruct (Running.exchange run1) as [x|] eqn:Ex; [|exact Hr]. destruct (try_write _ _ _) as [r e1] eqn:Hw. apply writes_log in Hw.
  destruct r as [count|error]; cbn in Hw.
  - eapply relays_trans; [exact Hr|]. eapply relays_trans; [|apply IH]. split; [|done|done]. exists [OEvent.Writes x count]. split_and!; [done| |].
    + intros ev ->%list_elem_of_singleton. by exists x, count.
    + intros y w Hy Hf. cbn. rewrite Hf. assert (x = y) as <- by (by apply Hy). unfold written. cbn. rewrite Z.eqb_refl.
      unfold as_u64. rewrite Zplus_mod_idemp_l. f_equal. lia.
  - rewrite app_nil_r in Hw. assert (H1 : relays run1 e run1 e1) by (by apply relays_same).
    assert (Hf : forall er, relays run e (fail er run1 e1).1 (fail er run1 e1).2).
    { intros er. eapply relays_trans; [exact Hr|]. eapply relays_trans; [exact H1|apply relays_fail]. }
    destruct error; [by eapply relays_trans|apply Hf..].
Qed.
Lemma relays_refill_response x run e : relays run e (refill_response x run e).1.2 (refill_response x run e).2.
Proof.
  unfold refill_response. destruct (_ && _); [|apply relays_refl]. destruct (try_read _ _ _) as [r e1] eqn:Hr. apply read_log in Hr.
  destruct r as [[|b data]|error]; [by destruct (_ && _); apply relays_same|by apply relays_same|].
  assert (Hf : forall er, relays run e (let '(run, e2) := fail er run e1 in (false, run, e2)).1.2 (let '(run, e2) := fail er run e1 in (false, run, e2)).2).
  { intros er. pose proof (relays_fail er run e1) as Hf. destruct (fail er run e1) as [run' e2]. eapply relays_trans; [|exact Hf]. by apply relays_same. }
  destruct error; [by apply relays_same|apply Hf..].
Qed.
Lemma relays_response_loop turns run e : relays run e (response_loop turns run e).1 (response_loop turns run e).2.
Proof.
  revert run e. induction turns as [|turns IH]; intros run e; cbn [response_loop]; [apply relays_refl|].
  destruct (Running.exchange run) as [x|]; [|apply relays_refl]. pose proof (relays_refill_response x run e) as H.
  destruct (refill_response x run e) as [[on run1] e1]; cbn in H. destruct (_ || _); [exact H|].
  destruct (Stream.write _ _) as [[count|error] machine]; (eapply relays_trans; [exact H|]); [|by apply relays_same].
  eapply relays_trans; [|apply IH]. by apply relays_same.
Qed.

Lemma relays_pump_running request now budget run mux e :
  let r := pump_running request now budget run mux e in relays run e r.1.1.2 r.2.
Proof.
  unfold pump_running. set (run0 := run <| Running.machine := _ |>). assert (H0 : relays run e run0 e) by (by apply relays_same).
  assert (H1 : relays run0 e (relay run0 e).1 (relay run0 e).2).
  { unfold relay. destruct (is_none _); [apply relays_refl|]. pose proof (relays_request_loop 8 run0 e) as H1.
    destruct (request_loop 8 run0 e) as [run1 e1]; cbn in H1. pose proof (relays_response_loop 8 run1 e1) as H2.
    destruct (response_loop 8 run1 e1) as [run2 e2]; cbn in H2. pose proof (relays_trans _ _ _ _ _ _ H1 H2) as H.
    destruct (_ && _); [|exact H]. destruct (Running.exchange run2) as [x|]; [|exact H].
    destruct (finish_exchange x e2) as [f e3] eqn:Hf. apply finish_log in Hf. eapply relays_trans; [exact H|]. by apply relays_same. }
  destruct (relay run0 e) as [run1 e1]; cbn in H1.
  assert (H2 : relays run1 e1 (poll_finishing run1 e1).1 (poll_finishing run1 e1).2).
  { unfold poll_finishing. destruct (Running.finishing run1) as [f|]; [|apply relays_refl].
    destruct (poll_finished f e1) as [[d|] e2] eqn:Hf; apply finished_log in Hf; by apply relays_same. }
  destruct (poll_finishing run1 e1) as [run2 e2]; cbn in H2. assert (H3 : relays run2 e2 (close_machine run2) e2).
  { unfold close_machine. destruct (Running.disposition run2); [|apply relays_refl].
    destruct (Stream.complete_close _ _ _) as [[]]; by apply relays_same. }
  set (run3 := close_machine run2) in *. assert (H4 : relays run3 e2 (abort_over run3 e2).1 (abort_over run3 e2).2).
  { unfold abort_over. destruct (machine_over _); [|apply relays_refl].
    destruct (Running.exchange run3), (Running.finishing run3); by apply relays_same. }
  destruct (abort_over run3 e2) as [run4 e4]; cbn in H4. destruct (messages_loop _ _ _ _) as [[[b q] m] mx]; cbn.
  eapply relays_trans; [exact H0|]. eapply relays_trans; [exact H1|]. eapply relays_trans; [exact H2|].
  eapply relays_trans; [exact H3|]. eapply relays_trans; [exact H4|]. by apply relays_same.
Qed.

(** ** The exchanges of a binding *)

(** Each running exchange counts what its own owner's exchange took. *)
Definition counts (owned : gmap Z Z) (m : gmap Z Ex.t) (l : OLog) : Prop :=
  forall id run, m !! id = Some (Ex.Open run) -> exists x, owned !! id = Some x
    /\ run.(Running.forwarded) = as_u64 (written x l) /\ forall y, run.(Running.exchange) = Some y -> y = x.
Record tallied (m : gmap Z Ex.t) (l : OLog) : Prop := {
  ta_counts : exists owned, counts owned m l
    /\ (forall i j x, owned !! i = Some x -> owned !! j = Some x -> i = j)
    /\ (forall i x, owned !! i = Some x -> OEvent.Begins x ∈ l);
  ta_begun : forall x c, OEvent.Writes x c ∈ l -> OEvent.Begins x ∈ l;
}.

(** A step that keeps the tally, if no exchange began twice. *)
Definition tally (m : gmap Z Ex.t) (e : owner) (m' : gmap Z Ex.t) (e' : owner) : Prop :=
  adds any_event e e' /\ (NoDup (begun e'.2) -> tallied m e.2 -> tallied m' e'.2).
Lemma tally_refl m e : tally m e m e.
Proof. split; [apply adds_refl|done]. Qed.
Lemma tally_trans m1 e1 m2 e2 m3 e3 : tally m1 e1 m2 e2 -> tally m2 e2 m3 e3 -> tally m1 e1 m3 e3.
Proof.
  intros [A1 T1] [A2 T2]. split; [by eapply adds_trans|]. intros Hn H1. apply T2; [done|]. apply T1; [|done].
  destruct A2 as (new & En & _). rewrite En, begun_app in Hn. by apply list.NoDup_app in Hn as (? & _).
Qed.

(** Fewer running exchanges, none of them changed. *)
Lemma tally_fewer m m' (e e' : owner) : (forall id run, m' !! id = Some (Ex.Open run) -> exists run0, m !! id = Some (Ex.Open run0)
    /\ run.(Running.forwarded) = run0.(Running.forwarded)
    /\ forall y, run.(Running.exchange) = Some y -> run0.(Running.exchange) = Some y) ->
  (exists new, e'.2 = e.2 ++ new /\ forall x c, OEvent.Writes x c ∉ new) -> tally m e m' e'.
Proof.
  intros Hm (new & En & Hnew). split; [by exists new|]. intros _ [(owned & H1 & H2 & H3) H4].
  assert (Hw : forall x, written x e'.2 = written x e.2).
  { intros x. rewrite En, written_app, (written_none x new); [lia|]. intros c. apply Hnew. }
  assert (Hb : forall x, OEvent.Begins x ∈ e.2 -> OEvent.Begins x ∈ e'.2) by (intros x Hx; rewrite En; apply elem_of_app; by left).
  split.
  - exists owned. split_and!; [|done|eauto]. intros id run Hr. destruct (Hm id run Hr) as (run0 & H0 & Hf & Hx).
    destruct (H1 id run0 H0) as (x & J1 & J2 & J3). exists x. rewrite Hw, Hf. eauto.
  - intros x c Hc. rewrite En in Hc. apply elem_of_app in Hc as [H|H]; [apply Hb; by eapply H4|]. by destruct (Hnew x c).
Qed.
Lemma tally_quiet m m' (e e' : owner) : (forall id run, m' !! id = Some (Ex.Open run) -> m !! id = Some (Ex.Open run)) ->
  e'.2 = e.2 -> tally m e m' e'.
Proof.
  intros Hm He. apply tally_fewer; [|exists []; split; [by rewrite app_nil_r|by intros x c ?%elem_of_nil]].
  intros id run Hr. exists run. split_and!; try done. by apply Hm.
Qed.

(** One exchange relays. *)
Lemma tally_relays m id run e run' e' : m !! id = Some (Ex.Open run) -> relays run e run' e' ->
  tally m e (<[id := Ex.Open run']> m) e'.
Proof.
  intros Hid [(new & En & Hw & Hf) Hx _]. split; [by exists new|]. intros _ [(owned & H1 & H2 & H3) H4].
  destruct (H1 id run Hid) as (x & X1 & X2 & X3).
  assert (Hb : forall y, OEvent.Begins y ∈ e.2 -> OEvent.Begins y ∈ e'.2) by (intros y Hy; rewrite En; apply elem_of_app; by left).
  assert (Hot : forall y, y <> x -> written y e'.2 = written y e.2).
  { intros y Hy. rewrite En, written_app, (written_none y new); [lia|]. intros c Hc. destruct (Hw _ Hc) as (z & d & Hz & [= <- <-]).
    by apply X3 in Hz. }
  split.
  - exists owned. split_and!; [|done|eauto]. intros j r Hr. apply lookup_insert_Some in Hr as [[<- [= <-]]|[Hne Hr]].
    + exists x. split_and!; [done| |intros y Hy; by apply X3, Hx]. rewrite En, written_app. by apply Hf.
    + destruct (H1 j r Hr) as (y & Y1 & Y2 & Y3). exists y. split_and!; try done. rewrite Hot; [done|]. intros ->. by apply Hne, (H2 _ _ x).
  - intros y c Hc. rewrite En in Hc. apply elem_of_app in Hc as [H|H]; [apply Hb; by eapply H4|]. destruct (Hw _ H) as (z & d & Hz & [= <- <-]).
    apply Hb. rewrite (X3 y Hz). by eapply H3.
Qed.

(** An exchange begins. *)
Lemma tally_begins m id machine x service (e e' : owner) : e'.2 = e.2 ++ [OEvent.Begins x] ->
  tally m e (<[id := Ex.Open (start_running machine x service)]> m) e'.
Proof.
  intros En. split; [by eapply adds_one|]. intros Hn [(owned & H1 & H2 & H3) H4].
  assert (Hx : OEvent.Begins x ∉ e.2).
  { rewrite En, begun_app in Hn. apply list.NoDup_app in Hn as (_ & Hn & _). intros H%elem_of_begun. apply (Hn x H). by left. }
  assert (Hb : forall y, OEvent.Begins y ∈ e.2 -> OEvent.Begins y ∈ e'.2) by (intros y Hy; rewrite En; apply elem_of_app; by left).
  assert (Hw : forall y, written y e'.2 = written y e.2).
  { intros y. rewrite En, written_app. change (written y [OEvent.Begins x]) with 0. lia. }
  split.
  - exists (<[id := x]> owned). split_and!.
    + intros j r Hr. apply lookup_insert_Some in Hr as [[<- [= <-]]|[Hne Hr]].
      * exists x. rewrite lookup_insert_eq. split_and!; [done| |by intros y [= <-]]. rewrite Hw, written_none; [done|].
        intros c Hc. by apply Hx, (H4 x c).
      * rewrite lookup_insert_ne by done. destruct (H1 j r Hr) as (y & Y1 & Y2 & Y3). exists y. by rewrite Hw.
    + assert (Hox : forall j, owned !! j <> Some x) by (intros j Hj; by apply Hx, (H3 j)).
      intros i j y Hi Hj. apply lookup_insert_Some in Hi as [[<- <-]|[Hni Hi]], Hj as [[<- Hj]|[Hnj Hj]]; try done.
      * by destruct (Hox j).
      * subst y. by destruct (Hox i).
      * by apply (H2 i j y).
    + intros i y Hi. apply lookup_insert_Some in Hi as [[<- <-]|[_ Hi]]; [rewrite En; apply elem_of_app; right; by left|]. by eapply Hb, H3.
  - intros y c Hc. rewrite En in Hc. apply elem_of_app in Hc as [H|H%list_elem_of_singleton]; [|done]. apply Hb. by eapply H4.
Qed.

(** ** Turns *)

Lemma tally_poll_opening request session id mux m e :
  let r := poll_opening request session id mux m e in tally m e r.1.2 r.2.
Proof.
  unfold poll_opening. destruct (m !! id) as [[w s|run]|] eqn:Em; try apply tally_refl. destruct (poll_wait w e) as [r e1] eqn:Hw.
  apply begins_log in Hw. assert (Hdel : forall (e' : owner), e'.2 = e.2 ++ begins r -> tally m e (delete id m) e').
  { intros e' He. apply tally_fewer.
    - intros j run Hj. apply lookup_delete_Some in Hj as [_ Hj]. exists run. by split_and!.
    - exists (begins r). split; [done|]. intros x c H. destruct r as [[[y b]|f]|]; cbn in H; [by apply list_elem_of_singleton in H|by apply elem_of_nil in H..]. }
  destruct r as [[[x reused]|failure]|]; [|by apply Hdel|cbn in Hw; rewrite app_nil_r in Hw; by apply tally_quiet].
  destruct (Mux.binding mux) as [b|]; [|by apply Hdel]. destruct (Stream.new _) as [machine|]; [|by apply Hdel]. cbn.
  rewrite insert_delete_eq. by apply tally_begins.
Qed.
Lemma tally_poll_openings request session mux m e : let r := poll_openings request session mux m e in tally m e r.1.2 r.2.
Proof.
  unfold poll_openings. generalize (map fst (keep (fun entry : Z * Ex.t => is_opening entry.2) (entries m))). intros ids. revert mux m e.
  induction ids as [|id ids IH]; intros mux m e; [apply tally_refl|]. cbn. pose proof (tally_poll_opening request session id mux m e) as H.
  destruct (poll_opening request session id mux m e) as [[mux' m'] e']; cbn in H. eapply tally_trans; [exact H|apply IH].
Qed.
Lemma tally_pump_each request now budget ids mux m e : let r := pump_each request now budget ids mux m e in tally m e r.1.2 r.2.
Proof.
  revert budget mux m e. induction ids as [|id ids IH]; intros budget mux m e; cbn [pump_each]; [apply tally_refl|].
  destruct (m !! id) as [[w s|run]|] eqn:Em; try apply IH. pose proof (relays_pump_running request now budget run mux e) as H.
  destruct (pump_running request now budget run mux e) as [[[[over b] run'] mux'] e']; cbn in H.
  specialize (IH b mux' (<[id:=Ex.Open run']> m) e'). destruct (pump_each _ _ _ _ _ _ _) as [[[fin mx] mm] ee]; cbn in IH |- *.
  eapply tally_trans; [exact (tally_relays m id run e run' e' Em H)|exact IH].
Qed.
Lemma drop_ex_log ex (e : owner) : (drop_ex ex e).2 = e.2.
Proof. destruct ex as [w s|run]; [done|]. cbn. by destruct (Running.exchange run), (Running.finishing run). Qed.
Lemma tally_remove_all ids m e : let r := foldl remove_ex (m, e) ids in tally m e r.1 r.2.
Proof.
  revert m e. induction ids as [|id ids IH]; intros m e; [apply tally_refl|]. cbn [foldl].
  assert (H : tally m e (remove_ex (m, e) id).1 (remove_ex (m, e) id).2).
  { cbn. destruct (m !! id) as [ex|]; [|apply tally_refl]. apply tally_quiet; [|apply drop_ex_log].
    intros j run Hj. cbn in Hj. by apply lookup_delete_Some in Hj as [_ Hj]. }
  destruct (remove_ex (m, e) id) as [m' e']. eapply tally_trans; [exact H|apply IH].
Qed.
Lemma tally_run_exchanges now mux self e : let r := run_exchanges now mux self e in
  tally self.(Served.exchanges) e r.1.2.(Served.exchanges) r.2.
Proof.
  unfold run_exchanges. pose proof (tally_poll_openings (Served.request self) (Served.session self) mux (Served.exchanges self) e) as H1.
  destruct (poll_openings _ _ _ _ _) as [[mux1 m1] e1]; cbn in H1.
  pose proof (tally_pump_each (Served.request self) now PUMP_BUDGET (keys m1) mux1 m1 e1) as H2.
  destruct (pump_each _ _ _ _ _ _ _) as [[[fin mux2] m2] e2]; cbn in H2. pose proof (tally_remove_all fin m2 e2) as H3.
  destruct (foldl remove_ex (m2, e2) fin) as [m3 e3]; cbn in H3 |- *. eapply tally_trans; [exact H1|]. by eapply tally_trans.
Qed.

Lemma tally_open rules request op message mux m notes e mux' m' notes' e' :
  open rules request op message mux m notes e = Some (mux', m', notes', e') -> tally m e m' e'.
Proof.
  intros Ho. assert (Hm : m' = m \/ exists id w s, m' = <[id := Ex.Opening w s]> m).
  { unfold open in Ho. repeat (case_match; try done; simplify_eq; eauto 6). }
  apply open_granted in Ho as Hl. apply tally_fewer.
  - intros id run Hr. exists run. split_and!; try done. destruct Hm as [->|(j & w & s & ->)]; [done|].
    by apply lookup_insert_Some in Hr as [[_ ?]|[_ Hr]].
  - destruct Hl as [Hl|(n & spec & Hl & _)]; [exists []; split; [by rewrite app_nil_r|by intros x c ?%elem_of_nil]|].
    exists [OEvent.Opens n spec]. split; [done|]. by intros x c ?%list_elem_of_singleton.
Qed.
Lemma tally_cancel request id mux m e : let r := cancel_stream request id mux m e in tally m e r.1.2 r.2.
Proof.
  unfold cancel_stream. destruct (m !! id) as [[w s|run]|]; [..|apply tally_refl]; cbn.
  - apply tally_quiet; [|done]. intros j r Hj. cbn in Hj. by apply lookup_delete_Some in Hj as [_ Hj].
  - apply tally_quiet; [|by destruct (Running.exchange run), (Running.finishing run)].
    intros j r Hj. cbn in Hj. by apply lookup_delete_Some in Hj as [_ Hj].
Qed.
Lemma tally_actions fuel op mux self e : let r := actions_loop fuel op mux self e in
  tally self.(Served.exchanges) e r.1.2.(Served.exchanges) r.2.
Proof.
  revert mux self e. induction fuel as [|fuel IH]; intros mux self e; cbn [actions_loop]; [apply tally_refl|].
  destruct (Mux.next_action mux) as [[[name message]|] mux1]; [|apply tally_refl].
  assert (Hrun : forall mux' m e', tally (Served.exchanges self) e m e' -> let s := self <| Served.exchanges := m |> in
    let r := actions_loop fuel op mux' s e' in tally (Served.exchanges self) e r.1.2.(Served.exchanges) r.2).
  { intros mux' m e' He s. eapply tally_trans; [exact He|apply (IH mux' s e')]. }
  assert (Hdata : forall mux', let m := match Served.exchanges self !! Envelope.stream_id message with
      | Some (Ex.Open run) => <[Envelope.stream_id message := Ex.Open (run <| Running.machine := (Stream.receive message (Running.machine run)).2 |>)]>
                                (Served.exchanges self)
      | _ => Served.exchanges self
      end in let r := actions_loop fuel op mux' (self <| Served.exchanges := m |>) e in
      tally (Served.exchanges self) e r.1.2.(Served.exchanges) r.2).
  { intros mux' m. apply Hrun. subst m. destruct (Served.exchanges self !! _) as [[w s|run]|] eqn:Em; try apply tally_refl.
    apply (tally_relays _ _ run); [done|]. by apply relays_same. }
  destruct (Envelope.kind message); try apply Hdata.
  - destruct (open _ _ _ _ _ _ _ _) as [[[[mux2 m2] notes2] e2]|] eqn:Ho; [|apply tally_refl]. apply tally_open in Ho.
    set (s2 := self <| Served.exchanges := m2 |> <| Served.notes := notes2 |>). eapply tally_trans; [exact Ho|]. exact (IH mux2 s2 e2).
  - pose proof (tally_cancel (Served.request self) (Envelope.stream_id message) mux1 (Served.exchanges self) e) as H.
    destruct (cancel_stream _ _ _ _ _) as [[mux2 m2] e2]. by apply Hrun.
  - apply (IH _ self e).
Qed.

Lemma drop_exchanges_log m (e : owner) : (drop_exchanges m e).2 = e.2.
Proof. unfold drop_exchanges. revert e. induction (values m) as [|ex l IH]; intros e; [done|]. cbn. by rewrite IH, drop_ex_log. Qed.
Lemma drop_stage_log stage (e : owner) : (drop_stage stage e).2 = e.2.
Proof. by destruct stage as [a b|mux [op|]|]. Qed.
Lemma tally_terminate code offending self e : let r := terminate code offending self e in
  tally self.(Served.exchanges) e r.1.(Served.exchanges) r.2.
Proof. cbn. apply tally_quiet; [done|apply drop_exchanges_log]. Qed.
Lemma tally_receive message self e : let r := receive unstable_sequenced message self e in
  tally self.(Served.exchanges) e r.1.(Served.exchanges) r.2.
Proof.
  unfold receive. destruct (Served.stage self) as [a b|mux op|]; try apply tally_refl. destruct (negb _); [apply tally_terminate|].
  destruct (Mux.receive _ _ _) as [r mux']. set (s := self <| Served.stage := _ |>).
  destruct (is_ok r); [apply tally_refl|]. apply (tally_terminate _ _ s).
Qed.
Lemma tally_drive_bound now mux op self outbox e : let r := drive_bound now mux op self outbox e in
  tally self.(Served.exchanges) e r.1.1.(Served.exchanges) r.2.
Proof.
  unfold drive_bound. set (mux0 := Mux.advance now mux). set (fuel := S _). pose proof (tally_actions fuel op mux0 self e) as H1.
  destruct (actions_loop fuel op mux0 self e) as [[[faulted mux1] self1] e1]; cbn in H1.
  set (x := if is_none faulted then _ else _).
  assert (H2 : tally (Served.exchanges self1) e1 (Served.exchanges x.1.2) x.2).
  { subst x. destruct (is_none faulted); [apply tally_run_exchanges|apply tally_refl]. }
  destruct x as [[mux2 self2] e2]; cbn in H2. pose proof (tally_trans _ _ _ _ _ _ H1 H2) as H.
  destruct (collect _ mux2 outbox) as [mux3 outbox']. set (s := self2 <| Served.stage := _ |>). destruct faulted as [id|].
  - pose proof (tally_terminate ErrorCode.Protocol (Some id) s e2) as H3. unfold fault.
    destruct (terminate _ _ _ _) as [s' e']. cbn in H3 |- *. by eapply tally_trans.
  - destruct (bool_decide _); [|exact H]. cbn [fst snd]. eapply tally_trans; [exact H|].
    apply tally_quiet; [done|]. by rewrite drop_stage_log, drop_exchanges_log.
Qed.
Lemma tally_drive now self outbox e : let r := drive unstable_sequenced now self outbox e in
  tally self.(Served.exchanges) e r.1.1.(Served.exchanges) r.2.
Proof.
  assert (Hrest : forall s o x, let r := drive_rest now s o x in tally s.(Served.exchanges) x r.1.1.(Served.exchanges) r.2).
  { intros s o x. unfold drive_rest. set (y := match Served.stage s with ServedStage.Bound _ _ => _ | _ => _ end).
    assert (Hy : tally (Served.exchanges s) x (Served.exchanges y.1.1) y.2).
    { subst y. destruct (Served.stage s); [apply tally_refl|apply tally_drive_bound|apply tally_refl]. }
    destruct y as [[s1 o1] x1]; cbn in Hy. cbn. destruct (Served.dying s1); [|exact Hy]. cbn. eapply tally_trans; [exact Hy|].
    apply tally_quiet; [done|apply drop_stage_log]. }
  unfold drive. destruct (Served.stage self) as [a b|mux op|] eqn:Es; [|apply Hrest..].
  destruct (poll_acquire a e) as [[r|] e1] eqn:Ha; apply acquired_log in Ha; [|by apply tally_quiet].
  set (x := admitted _ _ _ _ _ _). assert (Hx : Served.exchanges x.1.1 = Served.exchanges self /\ x.2.2 = e.2).
  { subst x. unfold admitted. destruct r as [permit|error]; [|done]. destruct (register_permit permit e1) as [[op reg] e2] eqn:Hr.
    apply registered_log in Hr. rewrite Ha in Hr. destruct (negb reg); [done|]. by destruct (build_mux _ _ _). }
  destruct x as [[s o] e']; cbn in Hx. destruct Hx as [Hx1 Hx2]. eapply tally_trans; [|apply Hrest]. apply tally_quiet; [by rewrite Hx1|done].
Qed.

(** ** Runs of one binding *)

Definition sstep (op : SStep.t E) (x : Served.t * owner) : Served.t * owner :=
  match op with
  | SStep.Receive message => receive unstable_sequenced message x.1 x.2
  | SStep.Drive now outbox => let '(self, _, e) := drive unstable_sequenced now x.1 outbox x.2 in (self, e)
  | SStep.LaneFault => lane_fault x.1 x.2
  | SStep.EndCall => end_served x.1 x.2
  | SStep.Outside e => (x.1, (e, x.2.2))
  end.
Definition srun (ops : list (SStep.t E)) (x : Served.t * owner) : Served.t * owner := foldl (fun x op => sstep op x) x ops.
(** A binding as the receiver makes it. *)
Definition fresh_binding (request session : string) (rules : Rules.t) (route : EndpointRoute.t) (acquire : Z) (bind : Attachment) : Served.t :=
  Served.mk request session rules route (ServedStage.Admitting acquire bind) ∅ [] false [].

Lemma tally_step op x : tally x.1.(Served.exchanges) x.2 (sstep op x).1.(Served.exchanges) (sstep op x).2.
Proof.
  destruct x as [s e], op as [message|now out| | |e']; cbn [sstep fst snd].
  - apply tally_receive.
  - pose proof (tally_drive now s out e) as H. by destruct (drive _ _ _ _ _) as [[s' o'] e'].
  - apply tally_terminate.
  - apply tally_terminate.
  - by apply tally_quiet.
Qed.
Lemma tally_srun ops x : tally x.1.(Served.exchanges) x.2 (srun ops x).1.(Served.exchanges) (srun ops x).2.
Proof.
  revert x. induction ops as [|op ops IH]; intros x; [apply tally_refl|]. eapply tally_trans; [apply tally_step|apply IH].
Qed.

(** A terminal of the binding's end that says a stream failed is of a running one. *)
Lemma told_of code offending self envelope f : (self.(Served.request), envelope) ∈ map (terminal_of self code)
    (let streams := map stream_end (entries self.(Served.exchanges)) in
     match offending with
     | Some id => if (0 <? id) && negb (existsb (fun s => s.1.1 =? id) streams) then streams ++ [(id, true, Effect.None)] else streams
     | None => streams
     end) -> envelope.(Envelope.failed) = Some f ->
  exists run, self.(Served.exchanges) !! envelope.(Envelope.stream_id) = Some (Ex.Open run)
    /\ f.(Failure.effect) = effect_after run.(Running.service) run.(Running.forwarded).
Proof.
  intros H Hf. apply list_elem_of_fmap in H as ([[id opening] effect] & Heq & Hin).
  assert (Hopen : opening = false) by (destruct opening; [injection Heq as ->; done|done]). subst opening.
  assert (Hs : (id, false, effect) ∈ map stream_end (entries (Served.exchanges self))).
  { cbn in Hin. destruct offending as [k|]; [|exact Hin]. destruct (_ && _); [|exact Hin].
    apply elem_of_app in Hin as [Hin|Hin%list_elem_of_singleton]; [exact Hin|done]. }
  apply list_elem_of_fmap in Hs as ([k [w s|run]] & Hs & Hk); [done|]. cbn in Hs. injection Hs as -> ->.
  injection Heq as ->. cbn in Hf |- *. injection Hf as <-. exists run. split; [|done]. by apply elem_of_entries.
Qed.

(** C11: When the client's side of a binding ends with streams running, a push that is
    told it ended without effect had none of its bytes taken by the owner's exchange:
    in every run of the binding in which no exchange begins twice and fewer than 2^64
    bytes are taken. *)
Theorem end_told_truly ops request session rules route acquire bind e code offending envelope f :
  let x := srun ops (fresh_binding request session rules route acquire bind, (e, [])) in
  let ended := terminate code offending x.1 x.2 in
  NoDup (begun x.2.2) -> (forall k, 0 <= written k x.2.2 < 2 ^ 64) ->
  (exists queued, ended.1.(Served.outq) = x.1.(Served.outq) ++ queued /\ (x.1.(Served.request), envelope) ∈ queued) ->
  envelope.(Envelope.failed) = Some f -> f.(Failure.effect) = Effect.None ->
  exists run k, x.1.(Served.exchanges) !! envelope.(Envelope.stream_id) = Some (Ex.Open run) /\ OEvent.Begins k ∈ x.2.2
    /\ (forall y, run.(Running.exchange) = Some y -> y = k)
    /\ (run.(Running.service) = GitService.ReceivePackExchange -> written k x.2.2 = 0).
Proof.
  intros x ended Hn Hw (queued & Hq & Hin) Hf He.
  assert (Ht : tallied x.1.(Served.exchanges) x.2.2).
  { destruct (tally_srun ops (fresh_binding request session rules route acquire bind, (e, []))) as [_ H]. apply (H Hn). split; [|by intros ? ? ?%elem_of_nil].
    exists ∅. split_and!; [|done|done]. intros id run Hr. done. }
  apply app_inv_head in Hq. rewrite <- Hq in Hin. destruct (told_of _ _ _ _ _ Hin Hf) as (run & Hr & Hfe).
  destruct (ta_counts _ _ Ht) as (owned & H1 & _ & H3). destruct (H1 _ _ Hr) as (k & K1 & K2 & K3). exists run, k.
  split_and!; [done|by eapply H3|done|]. intros Hs. rewrite He in Hfe. unfold effect_after in Hfe. rewrite Hs, bool_decide_true in Hfe by done.
  cbn in Hfe. destruct (0 <? Running.forwarded run) eqn:Hlt; [done|]. apply Z.ltb_ge in Hlt. rewrite K2 in Hlt. unfold as_u64 in Hlt.
  specialize (Hw k). rewrite Z.mod_small in Hlt; [lia|exact Hw].
Qed.
End effect.
