(* ===== verification/ServedSamples.v ===== *)
(** * The client's side of a carrier at work

    The core's handle of [RemoteSamples] and the receiver of a client, joined by hand:
    what one sends is what the other takes.  The runs are the inputs of the theorems of
    [ReceiverRun] and [ServedEffect]; one shows a call that ends before it is admitted. *)
From S2P Require Import Prelude Utf8 Text TextFacts Cbor CborFacts Protocol ProtocolFacts Budget Admission Policy Validate Codec CodecFacts Binding BindingFacts IoClock Stream Mux PoolTypes RemoteAdmission RemoteAdmissionFacts Operation RemoteTable ConnBinding RemoteCore RemoteBackend RemoteRun RemoteSession RemoteSamples Served ServedFacts ReceiverRun ServedEffect.

#[local] Existing Instance layout64.

(** An owner that opens whatever it is asked: the number of its next exchange, and
    whether an admission may pass.  Its streams take all and give nothing. *)
Definition Desk : Type := Z * bool.
#[global] Instance desk : Owner Desk := {|
  admit_prepared := fun _ e => (Ok 1, e);
  poll_acquire := fun _ (e : Desk) => (if e.2 then Some (Ok 1) else None, e);
  register_permit := fun _ e => (1, true, e);
  open_exchange := fun _ _ e => (Ok 1, e);
  poll_wait := fun _ (e : Desk) => (Some (Ok (e.1, false)), (e.1 + 1, e.2));
  try_write := fun _ data e => (Ok (len data), e);
  try_read := fun _ _ e => (Err OwnerError.WouldBlock, e);
  finish_exchange := fun _ e => (1, e);
  poll_finished := fun _ e => (None, e);
  abort_exchange := fun _ e => e;
  drop_acquire := fun _ e => e;
  drop_operation := fun _ e => e;
  drop_wait := fun _ e => e;
  drop_exchange := fun _ e => e;
  drop_finish := fun _ e => e;
|}.

(** A lane with what arrives and what was sent, and the calls the client has sent. *)
Definition Wire : Type := list Attachment * list Attachment * list (string * Invocation.t).
#[global] Instance wire : ClientLane Wire := {|
  lane_recv := fun c : Wire => match c.1.1 with [] => (Ok None, c) | m :: l => (Ok (Some m), (l, c.1.2, c.2)) end;
  lane_send := fun m (c : Wire) => (LaneSend.Sent, (c.1.1, c.1.2 ++ [m], c.2));
  lane_faulted := fun _ _ => false;
  lane_retire := fun _ c => c;
  lane_now := fun c => (0, c);
  take_invocation := fun q (c : Wire) =>
    (option_map snd (List.find (fun x : string * Invocation.t => bool_decide (x.1 = q)) c.2),
     (c.1, keep (fun x : string * Invocation.t => negb (bool_decide (x.1 = q))) c.2));
|}.

(** A push to one repository. *)
Definition push_rules : Rules.t :=
  Rules.mk ServiceClass.Push [] [Allowance.mk Scheme.Ssh None (sbytes "h.example") 22 (Some Base.Absolute) [sbytes "r"] false] [] None None.
Definition push_operation : PreparedOperation.t :=
  PreparedOperation.mk "push" EndpointRoute.ssh_and_https (EndpointProfile.mk [] []) 0 [] (OperationPolicy.mk 1 1 0).
Definition push_call : string * Invocation.t := ("r"%string, Invocation.mk push_operation push_rules).

Abbreviation client_run ops := (rrun false ops (Receiver.new ((1, true), []) (([], [], [push_call]), []))).
Abbreviation arrives l := (20%nat, RCall.Outside (1, true) (l, [], [push_call])).
Abbreviation pumps := (20%nat, @RCall.Pump Desk Wire).

Definition the_bind : list Attachment := offered.(RemoteSession.sent).
Definition the_answer : list Attachment := (client_run [arrives the_bind; pumps]).(Receiver.lane).1.1.2.
Definition core_bound : world := moved the_answer SendAnswer.Sent offered.
Definition the_open : list Attachment := drop (length the_bind) (moved [] SendAnswer.Sent (opening 1 core_bound)).(RemoteSession.sent).

(** ** A push, asked for and opened *)

Abbreviation pushing := [arrives the_bind; pumps; (20%nat, RCall.Outside (1, true) (the_open, [], [])); pumps].
Definition the_opened : list Attachment := (client_run pushing).(Receiver.lane).1.1.2.
(** The core's handle offers a binding, the client answers it, the core asks for a
    push, and the owner is asked for exactly what the core's caller asked for. *)
Example joined : map (fun m : Attachment => (m.1, m.2.(Envelope.kind))) (the_bind ++ the_answer ++ the_open ++ the_opened)
    = [("r"%string, MessageKind.Bind); ("r"%string, MessageKind.Bound); ("r"%string, MessageKind.Open); ("r"%string, MessageKind.Opened)]
  /\ (client_run pushing).(Receiver.owner).2 = [OEvent.Opens 1 receive_pack; OEvent.Begins 1].
Proof. vm_compute. done. Qed.

Lemma asked_only_granted_witness : OEvent.Opens 1 receive_pack ∈ (client_run pushing).(Receiver.owner).2
  /\ exists q i, (q, i) ∈ given (client_run pushing) /\ ServedFacts.granted i.(Invocation.rules) receive_pack.
Proof.
  assert (H : OEvent.Opens 1 receive_pack ∈ (client_run pushing).(Receiver.owner).2).
  { replace ((client_run pushing).(Receiver.owner).2) with [OEvent.Opens 1 receive_pack; OEvent.Begins 1] by (vm_compute; reflexivity). by left. }
  split; [exact H|]. exact (asked_only_granted false pushing (1, true) ([], [], [push_call]) 1 receive_pack H).
Defined.

(** ** What a push cut short is told *)

Definition the_session : string := "00000000000000000000000000000007.1".
Definition a_message (l : list Attachment) : Attachment := match l with m :: _ => m | [] => (""%string, Envelope.default) end.
Abbreviation bound_run ops :=
  (srun false ops (fresh_binding "r" the_session push_rules EndpointRoute.ssh_and_https 1 (a_message the_bind), ((1, true), []))).
Abbreviation opened_steps := [SStep.Drive 0 []; SStep.Receive (a_message the_open); SStep.Drive 0 []].
Definition first_bytes : Attachment :=
  ("r"%string, Envelope.default <| Envelope.version := 2 |> <| Envelope.session_id := the_session |> <| Envelope.stream_id := 1 |>
     <| Envelope.kind := MessageKind.Data |> <| Envelope.data := Some (Data.mk 0 (bytes_of "push")) |>).
Abbreviation cut ops := (terminate ErrorCode.Cancelled None (bound_run ops).1 (bound_run ops).2).1.(Served.outq).
Abbreviation wrote := (opened_steps ++ [SStep.Receive first_bytes; SStep.Drive 0 []]).

Example told_both_ways : map (fun m : Attachment => option_map Failure.effect m.2.(Envelope.failed)) (cut opened_steps) = [Some Effect.None]
  /\ map (fun m : Attachment => option_map Failure.effect m.2.(Envelope.failed)) (cut wrote) = [Some Effect.Possible]
  /\ (bound_run wrote).2.2 = [OEvent.Opens 1 receive_pack; OEvent.Begins 1; OEvent.Writes 1 4].
Proof. vm_compute. done. Qed.

Definition told_envelope : Envelope.t := (a_message (cut opened_steps)).2.
Lemma end_told_truly_witness :
  exists run k, (bound_run opened_steps).1.(Served.exchanges) !! told_envelope.(Envelope.stream_id) = Some (Ex.Open run)
    /\ OEvent.Begins k ∈ (bound_run opened_steps).2.2 /\ (forall y, run.(Running.exchange) = Some y -> y = k)
    /\ (run.(Running.service) = GitService.ReceivePackExchange -> written k (bound_run opened_steps).2.2 = 0).
Proof.
  assert (Hl : (bound_run opened_steps).2.2 = [OEvent.Opens 1 receive_pack; OEvent.Begins 1]) by (vm_compute; reflexivity).
  apply (end_told_truly false opened_steps "r" the_session push_rules EndpointRoute.ssh_and_https 1 (a_message the_bind) (1, true)
           ErrorCode.Cancelled None told_envelope (failure_of ErrorCode.Cancelled Effect.None)).
  - rewrite Hl. cbn. apply list.NoDup_singleton.
  - intros k. rewrite Hl. cbn. lia.
  - exists (cut opened_steps). split; [vm_compute; reflexivity|]. replace (cut opened_steps) with [(("r"%string, told_envelope) : Attachment)] by (vm_compute; reflexivity).
    replace (bound_run opened_steps).1.(Served.request) with "r"%string by (vm_compute; reflexivity). by left.
  - vm_compute. reflexivity.
  - reflexivity.
Defined.

(** ** A call that ends before it is admitted *)

Abbreviation not_yet l := (20%nat, RCall.Outside (1, false) (l, [], [push_call])).
Abbreviation ends := (20%nat, RCall.EndCall "r").
Definition is_admitting (s : Served.t) : bool := match s.(Served.stage) with ServedStage.Admitting _ _ => true | _ => false end.

(** A call that ends while its binding still waits to be admitted is not let go:
    the binding stays, still waiting, with no stream of its own; and when the owner
    admits it the core is told [bound] for the call that has ended, and then nothing. *)
Theorem ended_call_still_bound :
  let ended := client_run [not_yet the_bind; pumps; ends] in
  let later := client_run [not_yet the_bind; pumps; ends; arrives []; pumps] in
  ended.(Receiver.calls) = ∅ /\ map is_admitting (values ended.(Receiver.served)) = [true] /\ ended.(Receiver.lane).1.1.2 = []
  /\ map (fun m : Attachment => (m.1, m.2.(Envelope.kind))) later.(Receiver.lane).1.1.2 = [("r"%string, MessageKind.Bound)]
  /\ later.(Receiver.served) = ∅.
Proof. vm_compute. done. Qed.
