(* ===== verification/Exchange.v ===== *)
(** * Exchanges and their byte streams

    The connection crate's exchange.rs and exchange/stream.rs: the wait for an opening,
    the exchange it yields with its lease, the stream's calls and futures, and the three
    ways an exchange ends.  A future is its poll.  A local stream runs over the adapter's
    own input and output, a port; a carrier-backed one over the calls of
    remote/stream.rs, an interface that [RemoteBackend] implements. *)
From S2P Require Import Prelude Utf8 Text TextFacts Cbor Protocol Budget Admission Policy Validate Codec Binding IoClock Stream Mux PoolTypes SetupClock Pool Operation RemoteTable ConnBinding Cells Host Instance RemoteCore RemoteBackend.

(** The kinds of [std::io::Error] that are told apart. *)
Module IoKind.
Inductive t := WouldBlock | WriteZero | Unsupported | Other.
#[global] Instance eq_dec : EqDecision t.
Proof. solve_decision. Defined.
End IoKind.
Module XStreamError.
Inductive t :=
| Cancelled | Io (kind : IoKind.t) | CarrierLost (effect : Effect.t) | Failed (code : ErrorCode.t) (effect : Effect.t)
| Closed | Protocol | WrongScheme | WrongState.
#[global] Instance eq_dec : EqDecision t.
Proof. solve_decision. Defined.
(** The carrier-backed calls name "not yet" on its own. *)
Definition of_remote (e : RStreamError.t) : t :=
  match e with
  | RStreamError.WouldBlock => Io IoKind.WouldBlock
  | RStreamError.Cancelled => Cancelled
  | RStreamError.Closed => Closed
  | RStreamError.Protocol => Protocol
  | RStreamError.CarrierLost effect => CarrierLost effect
  | RStreamError.Failed code effect => Failed code effect
  end.
End XStreamError.

(** ** The ports *)

(** [ExchangeIo] of ports.rs, each exchange under its number; [None] is [Pending]. *)
Class ExchangeIo (E : Type) := {
  poll_read_io : Z -> Z -> nat -> E -> option (result (list byte) IoKind.t) * E;
  poll_write_io : Z -> Z -> list byte -> E -> option (result nat IoKind.t) * E;
  poll_flush_io : Z -> Z -> E -> option (result unit IoKind.t) * E;
  poll_shutdown_io : Z -> Z -> E -> option (result unit IoKind.t) * E;
  poll_response_head : Z -> Z -> E -> option (result HttpResponseHead.t IoKind.t) * E;
  connection_bound : Z -> E -> bool;
  peer_confirmed : Z -> E -> option Z;
}.
(** The calls of a carrier-backed stream, by its binding and its token. *)
Class RemoteCalls (R : Type) := {
  remote_write : Z * Z -> list byte -> R -> result nat XStreamError.t * R;
  remote_read : Z * Z -> nat -> R -> result (list byte) XStreamError.t * R;
  remote_finish : Z * Z -> R -> R;
  remote_end : Z * Z -> Z -> R -> option ExchangeEnd.t * R;
  remote_drop : Z * Z -> R -> R;
}.
#[export] Instance backend_calls `{Layout} : RemoteCalls RState.t := {
  remote_write k data st := let '(r, st) := write_in k.1 k.2 data st in
    (match r with Ok n => Ok (Z.to_nat n) | Err e => Err (XStreamError.of_remote e) end, st);
  remote_read k room st := let '(r, st) := read_in k.1 k.2 (Z.of_nat room) st in
    (map_err XStreamError.of_remote r, st);
  remote_finish k st := (stream_finish_in k.1 k.2 st).2;
  remote_end k waker st := let '(r, st) := poll_finish_in k.1 k.2 waker st in (option_map exchange_end r, st);
  remote_drop k st := (drop_live_in k.1 k.2 st).2;
}.

Module StreamKind.
Inductive t :=
| Local (io : option Z) (binding : BindingId.t) (sample : option ((Key.t * string) * ConnectionId.t))
| Remote (key : Z * Z).
End StreamKind.
Module StreamProgress.
Record t := mk { accepted_write : Z; consumed_read : Z; peer_confirmed : option Z }.
End StreamProgress.

(** What the handles share: their instance, their binding's affinity table, the
    carrier-backed state, and the tasks that were woken to poll again. *)
Module XWorld.
Record t (E R : Type) := mk { inst : InstanceState.t E; affinity : Affinity.t; remote : R; again : list Z }.
Arguments mk {E R}.
Arguments inst {E R}.
Arguments affinity {E R}.
Arguments remote {E R}.
Arguments again {E R}.
#[global] Instance eta {E R} : Eta (t E R) := fun r => mk (r.(inst)) (r.(affinity)) (r.(remote)) (r.(again)).
End XWorld.

Module MessageStream.
Record t := mk { kind : StreamKind.t; accepted : Z; consumed : Z }.
#[global] Instance eta : Eta t := fun r => mk (r.(kind)) (r.(accepted)) (r.(consumed)).
Definition new (kind : StreamKind.t) : t := mk kind 0 0.

Section stream.
Context {E R : Type} `{!Ports E} `{!ExchangeIo E} `{!RemoteCalls R}.
Abbreviation world := (XWorld.t E R).
Definition env (w : world) : E := w.(XWorld.inst).(InstanceState.env).
Definition on_inst (f : InstanceState.t E -> InstanceState.t E) (w : world) : world := w <| XWorld.inst := f w.(XWorld.inst) |>.
Definition set_env (e : E) (w : world) : world := on_inst (fun s => s <| InstanceState.env := e |>) w.

Definition progress (self : t) (w : world) : StreamProgress.t :=
  StreamProgress.mk self.(accepted) self.(consumed)
    (match self.(kind) with
     | StreamKind.Local (Some io) _ _ => peer_confirmed io (env w)
     | _ => None
     end).
Definition io (self : t) (w : world) : result Z XStreamError.t :=
  match self.(kind) with
  | StreamKind.Remote _ => Err XStreamError.Closed
  | StreamKind.Local io binding _ =>
      if is_cancelled binding (env w) then Err XStreamError.Cancelled
      else match io with Some io => Ok io | None => Err XStreamError.Cancelled end
  end.
Definition poll_local {T} (waker : Z) (poll : Z -> E -> option (result T IoKind.t) * E) (self : t) (w : world)
    : option (result T XStreamError.t) * world :=
  let w := match self.(kind) with StreamKind.Local _ _ _ => on_inst (Instance_.wait waker) w | StreamKind.Remote _ => w end in
  match io self w with
  | Ok io => let '(polled, e) := poll io (env w) in (option_map (map_err XStreamError.Io) polled, set_env e w)
  | Err error => (Some (Err error), w)
  end.
Definition poll_remote {T} (waker : Z) (answered : result T XStreamError.t) (w : world) : option (result T XStreamError.t) * world :=
  match answered with
  | Err (XStreamError.Io IoKind.WouldBlock) => (None, w <| XWorld.again := w.(XWorld.again) ++ [waker] |>)
  | ready => (Some ready, w)
  end.
Definition poll_write (waker : Z) (data : list byte) (self : t) (w : world) : option (result nat XStreamError.t) * t * world :=
  match data with
  | [] => (Some (Ok 0%nat), self, w)
  | _ =>
      let '(polled, w) := match self.(kind) with
                          | StreamKind.Remote key =>
                              let '(r, remote) := remote_write key data w.(XWorld.remote) in
                              poll_remote waker r (w <| XWorld.remote := remote |>)
                          | StreamKind.Local _ _ _ => poll_local waker (fun io => poll_write_io io waker data) self w
                          end in
      (polled, match polled with Some (Ok count) => self <| accepted := as_u64 (self.(accepted) + Z.of_nat count) |> | _ => self end, w)
  end.
Definition sample_affinity (self : t) (w : world) : t * world :=
  match self.(kind) with
  | StreamKind.Local (Some io) binding (Some (at_, connection)) =>
      if connection_bound io (env w)
      then (self <| kind := StreamKind.Local (Some io) binding None |>, w <| XWorld.affinity := Affinity.note at_ connection w.(XWorld.affinity) |>)
      else (self, w)
  | _ => (self, w)
  end.
Definition poll_read (waker : Z) (room : nat) (self : t) (w : world) : option (result (list byte) XStreamError.t) * t * world :=
  match room with
  | O => (Some (Ok []), self, w)
  | _ =>
      let '(polled, w) := match self.(kind) with
                          | StreamKind.Remote key =>
                              let '(r, remote) := remote_read key room w.(XWorld.remote) in
                              poll_remote waker r (w <| XWorld.remote := remote |>)
                          | StreamKind.Local _ _ _ => poll_local waker (fun io => poll_read_io io waker room) self w
                          end in
      match polled with
      | Some (Ok bytes) =>
          let '(self, w) := if (self.(consumed) =? 0) && negb (is_nil bytes) then sample_affinity self w else (self, w) in
          (polled, self <| consumed := as_u64 (self.(consumed) + len bytes) |>, w)
      | _ => (polled, self, w)
      end
  end.
(** One poll with a waker that does nothing. *)
Definition try_write (noop : Z) (data : list byte) (self : t) (w : world) : result nat XStreamError.t * t * world :=
  let '(polled, self, w) := poll_write noop data self w in
  (match polled with Some r => r | None => Err (XStreamError.Io IoKind.WouldBlock) end, self, w).
Definition try_read (noop : Z) (room : nat) (self : t) (w : world) : result (list byte) XStreamError.t * t * world :=
  let '(polled, self, w) := poll_read noop room self w in
  (match polled with Some r => r | None => Err (XStreamError.Io IoKind.WouldBlock) end, self, w).
Definition take_io (self : t) : option Z * t :=
  match self.(kind) with
  | StreamKind.Local io binding sample => (io, self <| kind := StreamKind.Local None binding sample |>)
  | StreamKind.Remote _ => (None, self)
  end.
Definition local_binding (self : t) : option BindingId.t :=
  match self.(kind) with StreamKind.Local _ binding _ => Some binding | StreamKind.Remote _ => None end.

(** The future of [write_all]: how much of its data was taken, and one poll of it.  Every
    turn of its loop takes at least one byte, so that as many turns as there are bytes
    are enough ([write_all_fuel]). *)
Fixpoint write_all_loop (fuel : nat) (waker : Z) (data : list byte) (taken : nat) (self : t) (w : world)
    : option (result unit XStreamError.t) * nat * t * world :=
  if (taken <? length data)%nat then
    match fuel with
    | O => (None, taken, self, w)
    | S fuel =>
        let '(polled, self, w) := poll_write waker (drop taken data) self w in
        match polled with
        | None => (None, taken, self, w)
        | Some (Err error) => (Some (Err error), taken, self, w)
        | Some (Ok O) => (Some (Err (XStreamError.Io IoKind.WriteZero)), taken, self, w)
        | Some (Ok count) => write_all_loop fuel waker data (taken + count) self w
        end
    end
  else (Some (Ok tt), taken, self, w).
Definition poll_write_all (waker : Z) (data : list byte) := write_all_loop (length data) waker data.
Definition poll_flush (waker : Z) (self : t) (w : world) : option (result unit XStreamError.t) * world :=
  match self.(kind) with
  | StreamKind.Remote _ => (Some (Err (XStreamError.Io IoKind.Unsupported)), w)
  | StreamKind.Local _ _ _ => poll_local waker (fun io => poll_flush_io io waker) self w
  end.
Definition poll_shutdown (waker : Z) (self : t) (w : world) : option (result unit XStreamError.t) * world :=
  match self.(kind) with
  | StreamKind.Remote _ => (Some (Err (XStreamError.Io IoKind.Unsupported)), w)
  | StreamKind.Local _ _ _ => poll_local waker (fun io => poll_shutdown_io io waker) self w
  end.
End stream.
End MessageStream.

(** ** Exchanges *)

(** A leased connection with the operation's record of disposals left unconfirmed. *)
Module LeaseGuard.
Record t := mk { lease : option LeaseId.t; cleanups : Z }.
End LeaseGuard.
Module Back.
Inductive t :=
| Local (lease : option LeaseGuard.t) (reused : bool)
| Remote (reused live : bool).
End Back.
Module Exchange.
Record t := mk { stream : MessageStream.t; back : Back.t; scheme : option Scheme.t; head_taken : bool }.
#[global] Instance eta : Eta t := fun r => mk (r.(stream)) (r.(back)) (r.(scheme)) (r.(head_taken)).
End Exchange.
Module LocalOpenWait.
Record t := mk {
  live : bool;
  submitted : option Z;
  early : option OpenFailure.t;
  scheme : Scheme.t;
  affinity : option (Key.t * string);
}.
#[global] Instance eta : Eta t := fun r => mk (r.(live)) (r.(submitted)) (r.(early)) (r.(scheme)) (r.(affinity)).
Definition is_ready (filled : bool) (self : t) : bool := is_some self.(early) || is_some self.(submitted) && filled.
End LocalOpenWait.
(** The receipt of an exchange: the driver's cell, the carrier's answer, or at once. *)
Module XFinish.
Inductive t := Cell (end_ : Z) | Remote (key : Z * Z) | Ready (value : ExchangeEnd.t).
End XFinish.

Section exchange.
Context {E R : Type} `{!Ports E} `{!ExchangeIo E} `{!RemoteCalls R}.
Variable source : Z -> nat -> Z.
Abbreviation world := (XWorld.t E R).
Import MessageStream.

Definition start_exchange_stream (io : Z) (binding : BindingId.t) (sample : option ((Key.t * string) * ConnectionId.t)) : MessageStream.t :=
  new (StreamKind.Local (Some io) binding sample).
(** [LocalOpening::wait] for the binding [b]: [slot] is the number of the new slot. *)
Definition open_wait (fuel : nat) (slot : Z) (b : BindingShared.t) (limits : Capacity.t) (auth : AuthScope) (tag : string)
    (spec : ExchangeSpec.t) (w : world) : LocalOpenWait.t * world :=
  let made submitted early := LocalOpenWait.mk true submitted early spec.(ExchangeSpec.key).(Key.scheme) (Affinity.key_of spec) in
  match Host.refused b with
  | Some failure => (made None (Some failure), w)
  | None =>
      let request := PoolRequest.new spec.(ExchangeSpec.key) spec.(ExchangeSpec.identity)
        (Owner.mk b.(BindingShared.session) b.(BindingShared.operation)) in
      let request := request <| PoolRequest.tag := Some tag |> <| PoolRequest.limits := Some limits |>
                             <| PoolRequest.prefer := Affinity.preferred spec w.(XWorld.affinity) |> in
      let '(r, s) := Instance_.submit source fuel slot request b.(BindingShared.id) spec auth w.(XWorld.inst) in
      (match r with
       | Ok _ => made (Some slot) None
       | Err error => made None (Some (OpenFailure.Pool error))
       end, w <| XWorld.inst := s |>)
  end.
Definition poll_taken (slot waker : Z) (s : InstanceState.t E) : option Opened * InstanceState.t E :=
  match s.(InstanceState.slots) !! slot with
  | None => (None, s)
  | Some c =>
      let '(answer, c) := Slot.poll_take waker c in
      (answer, s <| InstanceState.slots := if is_some answer then delete slot s.(InstanceState.slots) else <[slot := c]> s.(InstanceState.slots) |>)
  end.
(** [LocalOpenWait::poll]; [record] is the binding's record of disposals. *)
Definition poll_open (waker record : Z) (b : BindingShared.t) (self : LocalOpenWait.t) (w : world)
    : option (result Exchange.t OpenFailure.t) * LocalOpenWait.t * world :=
  match self.(LocalOpenWait.early), self.(LocalOpenWait.live), self.(LocalOpenWait.submitted) with
  | Some failure, _, _ => (Some (Err failure), self <| LocalOpenWait.early := None |>, w)
  | None, true, Some slot =>
      match Host.refused b with
      | Some failure => (Some (Err failure), self, w)
      | None =>
          let w := on_inst (Instance_.wait waker) w in
          let '(answer, s) := poll_taken slot waker w.(XWorld.inst) in
          let w := w <| XWorld.inst := s |> in
          match answer with
          | None => (None, self, w)
          | Some (Err failure) => (Some (Err failure), self <| LocalOpenWait.submitted := None |>, w)
          | Some (Ok (io, lease, reused)) =>
              let sample := option_map (fun at_ => (at_, lease.(LeaseId.connection))) self.(LocalOpenWait.affinity) in
              (Some (Ok (Exchange.mk (start_exchange_stream io b.(BindingShared.id) sample)
                           (Back.Local (Some (LeaseGuard.mk (Some lease) record)) reused)
                           (Some self.(LocalOpenWait.scheme)) false)),
               self <| LocalOpenWait.submitted := None |> <| LocalOpenWait.live := false |> <| LocalOpenWait.affinity := None |>, w)
          end
      end
  | None, _, _ => (Some (Err OpenFailure.Cancelled), self, w)
  end.
Definition drop_open (fuel : nat) (self : LocalOpenWait.t) (w : world) : world :=
  match self.(LocalOpenWait.submitted), self.(LocalOpenWait.live) with
  | Some slot, true => on_inst (Instance_.abandon source fuel slot) w
  | _, _ => w
  end.

(** The exchange of a carrier-backed opening that was answered. *)
Definition remote_exchange (key : Z * Z) (reused : bool) : Exchange.t :=
  Exchange.mk (new (StreamKind.Remote key)) (Back.Remote reused true) None false.

(** [LeaseGuard::give_back], also when the guard is dropped. *)
Definition give_back (fuel : nat) (disposition : Disposition.t) (guard : LeaseGuard.t) (s : InstanceState.t E) : InstanceState.t E :=
  match guard.(LeaseGuard.lease) with
  | None => s
  | Some lease =>
      let '(ticket, s) := Instance_.release source fuel lease disposition s in
      match ticket with
      | Some ticket => Instance_.note_cleanup guard.(LeaseGuard.cleanups) ticket s
      | None => s
      end
  end.
Definition drop_guard (fuel : nat) (guard : option LeaseGuard.t) (w : world) : world :=
  match guard with Some guard => on_inst (give_back fuel Disposition.Discarded guard) w | None => w end.

(** A poll of [ResponseHead]. *)
Definition poll_head (waker : Z) (self : Exchange.t) (w : world)
    : option (result HttpResponseHead.t XStreamError.t) * Exchange.t * world :=
  match self.(Exchange.scheme) with
  | Some Scheme.Ssh => (Some (Err XStreamError.WrongScheme), self, w)
  | None => (Some (Err (XStreamError.Io IoKind.Unsupported)), self, w)
  | Some Scheme.Https =>
      if self.(Exchange.head_taken) then (Some (Err XStreamError.WrongState), self, w)
      else
        let '(polled, w) := poll_local waker (fun io => poll_response_head io waker) self.(Exchange.stream) w in
        (polled, match polled with Some (Ok _) => self <| Exchange.head_taken := true |> | _ => self end, w)
  end.
Definition reused (self : Exchange.t) : bool :=
  match self.(Exchange.back) with Back.Local _ reused | Back.Remote reused _ => reused end.

(** The receipt of an exchange that had no adapter exchange to ask. *)
Definition discarded : ExchangeEnd.t := ExchangeEnd.mk Disposition.Discarded CleanupStatus.Complete None Effect.None.
(** [Exchange::finish]; [end_] is the number of the new receipt.  What is left of the
    exchange goes at the end, its hold on the binding with it ([Host.live_drop]). *)
Definition finish (fuel : nat) (end_ : Z) (self : Exchange.t) (w : world) : XFinish.t * world :=
  let cancelled := is_some_and (local_binding self.(Exchange.stream)) (fun b => is_cancelled b (env w)) in
  match self.(Exchange.back) with
  | Back.Remote _ live =>
      match live, self.(Exchange.stream).(kind) with
      | true, StreamKind.Remote key => (XFinish.Remote key, w <| XWorld.remote := remote_finish key w.(XWorld.remote) |>)
      | _, _ => (XFinish.Ready discarded, w)
      end
  | Back.Local lease _ =>
      let '(stream, w) := if cancelled then (self.(Exchange.stream), w) else sample_affinity self.(Exchange.stream) w in
      match (take_io stream).1, lease with
      | Some io, Some (LeaseGuard.mk (Some id) record) =>
          if cancelled then
            let w := set_env (abort_io io (env w)) w in
            let effect := effect_of io (env w) in
            (XFinish.Cell end_, on_inst (Instance_.discard source fuel id end_ record effect) w)
          else (XFinish.Cell end_, on_inst (Instance_.settle_exchange source fuel io id end_ record) w)
      | _, lease => (XFinish.Ready discarded, drop_guard fuel lease w)
      end
  end.
(** A poll of the receipt. *)
Definition poll_receipt (waker : Z) (self : XFinish.t) (w : world) : option ExchangeEnd.t * world :=
  match self with
  | XFinish.Ready value => (Some value, w)
  | XFinish.Remote key => let '(r, remote) := remote_end key waker w.(XWorld.remote) in (r, w <| XWorld.remote := remote |>)
  | XFinish.Cell end_ =>
      match w.(XWorld.inst).(InstanceState.ends) !! end_ with
      | None => (None, w)
      | Some c =>
          let '(answer, c) := Cell.poll waker c in
          (answer, on_inst (fun s => s <| InstanceState.ends := <[end_ := c]> s.(InstanceState.ends) |>) w)
      end
  end.
(** [Exchange::abort]; a carrier-backed exchange is cancelled by the drop of its hold. *)
Definition abort (fuel : nat) (self : Exchange.t) (w : world) : world :=
  let w := match (take_io self.(Exchange.stream)).1 with Some io => set_env (abort_io io (env w)) w | None => w end in
  match self.(Exchange.back), self.(Exchange.stream).(kind) with
  | Back.Local lease _, _ => drop_guard fuel lease w
  | Back.Remote _ true, StreamKind.Remote key => w <| XWorld.remote := remote_drop key w.(XWorld.remote) |>
  | _, _ => w
  end.
(** The drop of an exchange that was neither finished nor aborted. *)
Definition drop_exchange (fuel : nat) (self : Exchange.t) (w : world) : world :=
  let w := match self.(Exchange.back), self.(Exchange.stream).(kind) with
           | Back.Local (Some _) _, StreamKind.Local (Some io) _ _ => set_env (abort_io io (env w)) w
           | _, _ => w
           end in
  match self.(Exchange.back), self.(Exchange.stream).(kind) with
  | Back.Local lease _, _ => drop_guard fuel lease w
  | Back.Remote _ true, StreamKind.Remote key => w <| XWorld.remote := remote_drop key w.(XWorld.remote) |>
  | _, _ => w
  end.
End exchange.

(** ** What a stream took *)

(** [ExchangeIo::poll_write]: a prefix is accepted, and a poll that is pending has accepted
    nothing; of one that fails the port says nothing.  [sent] is what the exchange has
    accepted so far. *)
Class IoLaws (E : Type) `{!ExchangeIo E} := {
  sent : Z -> E -> list byte;
  sent_write : forall io waker data e, data <> [] ->
    let '(polled, e') := poll_write_io io waker data e in
    match polled with
    | Some (Ok count) => (count <= length data)%nat /\ sent io e' = sent io e ++ take count data
    | Some (Err _) => True
    | None => sent io e' = sent io e
    end;
}.

Section accounts.
Context {E R : Type} `{!Ports E} `{!ExchangeIo E} `{!IoLaws E} `{!RemoteCalls R}.
Abbreviation world := (XWorld.t E R).
Import MessageStream.

(** A [write_all] that is polled, while the world around it moves, until it is ready or
    dropped. *)
Fixpoint write_all_run (polls : list ((world -> world) * Z)) (data : list byte) (taken : nat) (self : MessageStream.t) (w : world)
    : option (result unit XStreamError.t) * nat * MessageStream.t * world :=
  match polls with
  | [] => (None, taken, self, w)
  | (moves, waker) :: polls =>
      let '(r, taken, self, w) := poll_write_all waker data taken self (moves w) in
      match r with Some _ => (r, taken, self, w) | None => write_all_run polls data taken self w end
  end.

(** What one turn, one poll or a whole run did to the stream and to [taken], and what the
    exchange, which was [e], has accepted when it is [e']. *)
Definition accounted (io : Z) (data : list byte) (taken taken' : nat) (self self' : MessageStream.t) (e e' : E) : Prop :=
  (taken <= taken' <= length data)%nat /\ self'.(kind) = self.(kind)
  /\ sent io e' = sent io e ++ take (taken' - taken) (drop taken data)
  /\ self'.(accepted) = as_u64 (self.(accepted) + Z.of_nat (taken' - taken)).
(** The last poll of the adapter was made in [e], with the data that is left, and failed. *)
Definition poll_failed (io : Z) (data : list byte) (taken : nat) (e e' : E) (r : option (result unit XStreamError.t)) : Prop :=
  exists waker kind, r = Some (Err (XStreamError.Io kind)) /\ poll_write_io io waker (drop taken data) e = (Some (Err kind), e').
(** The accounts hold at the end, or they held up to the poll that failed. *)
Definition outcome (io : Z) (data : list byte) (taken taken' : nat) (self self' : MessageStream.t) (e e' : E)
    (r : option (result unit XStreamError.t)) : Prop :=
  exists e1, accounted io data taken taken' self self' e e1 /\ (e1 = e' \/ poll_failed io data taken' e1 e' r).
Lemma accounted_same io data taken self e e' :
  in_u64 self.(accepted) -> (taken <= length data)%nat -> sent io e' = sent io e -> accounted io data taken taken self self e e'.
Proof.
  unfold in_u64. intros Hu Ht Hs. unfold accounted. rewrite Nat.sub_diag, take_0, app_nil_r, Z.add_0_r. norm_int. split_and!; [lia..|done|done|done].
Qed.
Lemma accounted_trans io data t1 t2 t3 s1 s2 s3 e1 e2 e3 :
  accounted io data t1 t2 s1 s2 e1 e2 -> accounted io data t2 t3 s2 s3 e2 e3 -> accounted io data t1 t3 s1 s3 e1 e3.
Proof.
  intros (H1 & K1 & S1 & A1) (H2 & K2 & S2 & A2). unfold accounted. split_and!; [lia..|congruence| |].
  - rewrite S2, S1, <- app_assoc. f_equal. replace (drop t2 data) with (drop (t2 - t1) (drop t1 data)) by (rewrite drop_drop; f_equal; lia).
    replace (t3 - t1)%nat with ((t2 - t1) + (t3 - t2))%nat by lia. apply take_take_drop.
  - rewrite A2, A1. unfold as_u64. rewrite Zplus_mod_idemp_l. f_equal. lia.
Qed.
Lemma outcome_exact io data t1 t2 s1 s2 e e' r : accounted io data t1 t2 s1 s2 e e' -> outcome io data t1 t2 s1 s2 e e' r.
Proof. intros H. exists e'. by split; [|left]. Qed.
Lemma outcome_trans io data t1 t2 t3 s1 s2 s3 e1 e2 e3 r :
  accounted io data t1 t2 s1 s2 e1 e2 -> outcome io data t2 t3 s2 s3 e2 e3 r -> outcome io data t1 t3 s1 s3 e1 e3 r.
Proof. intros Ha (e & Hb & He). exists e. by split; [eapply accounted_trans|]. Qed.
(** A future that is still pending has not failed. *)
Lemma outcome_pending io data t1 t2 s1 s2 e e' : outcome io data t1 t2 s1 s2 e e' None -> accounted io data t1 t2 s1 s2 e e'.
Proof. intros (e1 & Ha & [-> | (? & ? & ? & _)]); done. Qed.
Lemma poll_write_accounted io binding sample waker data taken self w :
  self.(kind) = StreamKind.Local (Some io) binding sample -> in_u64 self.(accepted) -> (taken < length data)%nat ->
  let '(polled, self', w') := poll_write waker (drop taken data) self w in
  match polled with
  | Some (Ok count) => accounted io data taken (taken + count) self self' (env w) (env w')
  | Some (Err error) => outcome io data taken taken self self' (env w) (env w') (Some (Err error))
  | None => accounted io data taken taken self self' (env w) (env w')
  end.
Proof.
  intros Hk Hu Ht. unfold poll_write. assert (Hne : drop taken data <> []).
  { intros He%(f_equal length). rewrite length_drop in He. cbn in He. lia. }
  destruct (drop taken data) as [|b l] eqn:Hd; [done|]. rewrite <- Hd in *. clear Hd. unfold poll_local. rewrite Hk. cbn.
  assert (Henv : env (on_inst (Instance_.wait waker) w) = env w) by (unfold env, on_inst, Instance_.wait; cbn; by destruct (existsb _ _)).
  unfold MessageStream.io. rewrite Hk. set (w1 := on_inst (Instance_.wait waker) w) in *.
  destruct (is_cancelled binding (env w1)); [apply outcome_exact, accounted_same; [done|lia|by rewrite Henv]|].
  rewrite Henv. pose proof (sent_write io waker (drop taken data) (env w) Hne) as Hs.
  destruct (poll_write_io io waker (drop taken data) (env w)) as [[[count|k]|] e] eqn:Hp; cbn.
  - destruct Hs as [Hc Hs]. rewrite length_drop in Hc. unfold accounted. cbn. replace (taken + count - taken)%nat with count by lia.
    split_and!; [lia..|done|exact Hs|done].
  - exists (env w). split; [apply accounted_same; [done|lia|done]|]. right. by exists waker, k.
  - apply accounted_same; [done|lia|exact Hs].
Qed.
Lemma write_all_loop_accounted io binding sample fuel waker data taken self w :
  self.(kind) = StreamKind.Local (Some io) binding sample -> in_u64 self.(accepted) -> (taken <= length data)%nat ->
  (length data - taken <= fuel)%nat ->
  let '(r, taken', self', w') := write_all_loop fuel waker data taken self w in
  outcome io data taken taken' self self' (env w) (env w') r /\ (r = Some (Ok tt) <-> taken' = length data).
Proof.
  induction fuel as [|fuel IH] in taken, self, w |- *; intros Hk Hu Ht Hf; cbn -[Nat.ltb]; destruct (Nat.ltb_spec taken (length data)) as [Hlt|Hge]; try lia; cbv beta iota.
  - split; [by apply outcome_exact, accounted_same|]. split; [lia|done].
  - pose proof (poll_write_accounted io binding sample waker data taken self w Hk Hu Hlt) as Ha.
    destruct (poll_write waker (drop taken data) self w) as [[polled self1] w1].
    destruct polled as [[[|count]|error]|].
    + rewrite Nat.add_0_r in Ha. split; [by apply outcome_exact|]. split; [done|lia].
    + assert (Hu1 : in_u64 self1.(accepted)) by (destruct Ha as (_ & _ & _ & ->); apply as_u64_range).
      assert (Hk1 : self1.(kind) = StreamKind.Local (Some io) binding sample) by (destruct Ha as (_ & -> & _); done).
      assert (Hr : (taken + S count <= length data)%nat) by (destruct Ha; lia).
      specialize (IH (taken + S count)%nat self1 w1 Hk1 Hu1 Hr ltac:(lia)).
      destruct (write_all_loop fuel waker data (taken + S count) self1 w1) as [[[r taken'] self'] w']. destruct IH as [Ha' Hiff].
      split; [by eapply outcome_trans|done].
    + split; [done|]. split; [done|lia].
    + split; [by apply outcome_exact|]. split; [done|lia].
  - split; [by apply outcome_exact, accounted_same|]. split; [lia|done].
Qed.
(** The same of a whole run, from any point of the data. *)
Lemma write_all_run_accounted io binding sample data polls : forall taken self w,
  self.(kind) = StreamKind.Local (Some io) binding sample -> in_u64 self.(accepted) -> (taken <= length data)%nat ->
  Forall (fun p => forall w, sent io (env (p.1 w)) = sent io (env w)) polls ->
  let '(r, taken', self', w') := write_all_run polls data taken self w in
  outcome io data taken taken' self self' (env w) (env w') r /\ (polls <> [] -> r = Some (Ok tt) <-> taken' = length data).
Proof.
  induction polls as [|[moves waker] polls IH]; intros taken self w Hk Hu Ht Hm; cbn.
  - split; [by apply outcome_exact, accounted_same|done].
  - apply list.Forall_cons in Hm as [Hmoves Hm]. cbn in Hmoves. unfold poll_write_all.
    pose proof (write_all_loop_accounted io binding sample (length data) waker data taken self (moves w) Hk Hu Ht ltac:(lia)) as Hl.
    destruct (write_all_loop (length data) waker data taken self (moves w)) as [[[r taken1] self1] w1]. destruct Hl as [Ha Hiff].
    eapply outcome_trans in Ha; [|apply accounted_same; [exact Hu|exact Ht|apply Hmoves]].
    destruct r as [r|]; [by split|]. apply outcome_pending in Ha.
    assert (Hk1 : self1.(kind) = StreamKind.Local (Some io) binding sample) by (destruct Ha as (_ & -> & _); done).
    assert (Hu1 : in_u64 self1.(accepted)) by (destruct Ha as (_ & _ & _ & ->); apply as_u64_range).
    specialize (IH taken1 self1 w1 Hk1 Hu1 ltac:(destruct Ha; lia) Hm).
    destruct (write_all_run polls data taken1 self1 w1) as [[[r taken'] self'] w'] eqn:Hr. destruct IH as [Ha' Hiff'].
    split; [by eapply outcome_trans|]. intros _. destruct polls as [|p polls]; [|by apply Hiff']. cbn in Hr. injection Hr as <- <- _ _. exact Hiff.
Qed.
(** As many turns as there are bytes left are enough: more change nothing. *)
Lemma write_all_fuel more waker data : forall fuel taken self w, (length data - taken <= fuel)%nat ->
  write_all_loop (fuel + more) waker data taken self w = write_all_loop fuel waker data taken self w.
Proof.
  induction fuel as [|fuel IH]; intros taken self w Hf.
  - cbn -[Nat.ltb]. destruct (Nat.ltb_spec taken (length data)); [lia|]. destruct more; cbn -[Nat.ltb]; destruct (Nat.ltb_spec taken (length data)); try lia; done.
  - cbn -[Nat.ltb]. destruct (Nat.ltb_spec taken (length data)); [|done]. destruct (poll_write _ _ _ _) as [[[[[|n]|]|] ?] ?]; [done| |done|done].
    apply IH. lia.
Qed.

(** C28: a dropped [write_all] of a local stream can be resumed from the stream's own
    count.  However often the future is polled, with whatever happens around it that does
    not write to its exchange, and wherever it ends, [accepted] has grown by [taken] and
    the future is done exactly when all of the data was taken.  Unless the adapter failed,
    the exchange has accepted exactly the first [taken] bytes of the data after what it
    had accepted before.  When the adapter failed, it had accepted exactly these bytes when
    the poll that failed was made, and that poll was given the bytes after them: what a
    failing poll itself took is the adapter's own. *)
Theorem write_all_accounted io binding sample polls data self w :
  self.(kind) = StreamKind.Local (Some io) binding sample -> in_u64 self.(accepted) -> polls <> [] ->
  Forall (fun p => forall w, sent io (env (p.1 w)) = sent io (env w)) polls ->
  let '(r, taken, self', w') := write_all_run polls data 0 self w in
  (taken <= length data)%nat
  /\ (progress self' w').(StreamProgress.accepted_write) = as_u64 ((progress self w).(StreamProgress.accepted_write) + Z.of_nat taken)
  /\ (r = Some (Ok tt) <-> taken = length data)
  /\ exists e, sent io e = sent io (env w) ++ take taken data
      /\ (e = env w' \/ poll_failed io data taken e (env w') r).
Proof.
  intros Hk Hu Hne Hm. pose proof (write_all_run_accounted io binding sample data polls 0 self w Hk Hu ltac:(lia) Hm) as Hr.
  destruct (write_all_run polls data 0 self w) as [[[r taken] self'] w']. destruct Hr as [(e & (H1 & _ & H3 & H4) & He) Hiff].
  rewrite Nat.sub_0_r, drop_0 in H3. rewrite Nat.sub_0_r in H4. cbn. split_and!; [lia|done|by apply Hiff|]. by exists e.
Qed.

(** A response head is handed over once: from then on every poll is [WrongState]. *)
Fixpoint head_run (polls : list ((world -> world) * Z)) (self : Exchange.t) (w : world)
    : list (option (result HttpResponseHead.t XStreamError.t)) :=
  match polls with
  | [] => []
  | (moves, waker) :: polls => let '(answer, self, w) := poll_head waker self (moves w) in answer :: head_run polls self w
  end.
Lemma head_gone polls self w :
  self.(Exchange.scheme) = Some Scheme.Https -> self.(Exchange.head_taken) = true ->
  Forall (fun answer => answer = Some (Err XStreamError.WrongState)) (head_run polls self w).
Proof.
  intros Hs Ht. induction polls as [|[moves waker] polls IH] in w |- *; cbn; [constructor|]. unfold poll_head. rewrite Hs, Ht. constructor; [done|apply IH].
Qed.
Lemma head_once polls self w i j head :
  head_run polls self w !! i = Some (Some (Ok head)) -> (i < j)%nat -> (j < length polls)%nat ->
  head_run polls self w !! j = Some (Some (Err XStreamError.WrongState)).
Proof.
  induction polls as [|[moves waker] polls IH] in self, w, i, j |- *; cbn [head_run length]; [lia|]. intros Hi Hij Hj.
  destruct (poll_head waker self (moves w)) as [[answer self1] w1] eqn:Hp. destruct j as [|j]; [lia|]. rewrite lookup_cons.
  destruct i as [|i]; [|eapply (IH self1 w1 i j); [done|lia|lia]]. cbn in Hi. injection Hi as ->.
  assert (Hlen : forall self w, length (head_run polls self w) = length polls).
  { clear. induction polls as [|[m k] l IH]; intros self w; cbn; [done|]. destruct (poll_head k self (m w)) as [[? ?] ?]. cbn. by rewrite IH. }
  assert (Hd : self1.(Exchange.scheme) = Some Scheme.Https /\ self1.(Exchange.head_taken) = true).
  { unfold poll_head in Hp. destruct (self.(Exchange.scheme)) as [[]|] eqn:Hs; try done. destruct (self.(Exchange.head_taken)); [done|].
    destruct (poll_local _ _ _ _) as [polled w2]. injection Hp as -> <- _. done. }
  destruct Hd as [Hs Ht]. destruct (lookup_lt_is_Some_2 (head_run polls self1 w1) j) as [a Ha]; [rewrite Hlen; lia|].
  rewrite Ha. f_equal. pose proof (head_gone polls self1 w1 Hs Ht) as Hf. by apply (Forall_lookup_1 _ _ _ _ Hf Ha).
Qed.
End accounts.

(** ** Samples *)

(** An exchange whose peer gives room for a few bytes at a time, and whose adapter loses
    the peer when it is told to: the poll that finds this out may have sent a byte. *)
Record Pipe := mk_pipe { taken_in : list byte; room_left : nat; broken : bool }.
#[export] Instance pipe_ports : Ports Pipe := {|
  clock_now := fun e => (0, e);
  clock_epoch := fun e => (0, e);
  connect := fun _ e => e;
  cancel_connect := fun _ e => e;
  close := fun _ e => e;
  start_exchange := fun _ _ _ e => (Ok 0, e);
  authorize_reuse := fun _ e => (true, e);
  cancel_reuse := fun _ e => e;
  poll_completion := fun e => (None, e);
  poll_finish := fun _ e => (Some Disposition.Reusable, e);
  effect_of := fun _ _ => Effect.None;
  abort_io := fun _ e => e;
  is_cancelled := fun _ _ => false;
|}.
#[export] Instance pipe_io : ExchangeIo Pipe := {|
  poll_read_io := fun _ _ _ e => (None, e);
  poll_write_io := fun _ _ data e =>
    if e.(broken) then (Some (Err IoKind.Other), mk_pipe (e.(taken_in) ++ take 1 data) 0 true)
    else match Nat.min e.(room_left) (length data) with
         | O => (None, e)
         | n => (Some (Ok n), mk_pipe (e.(taken_in) ++ take n data) (e.(room_left) - n) false)
         end;
  poll_flush_io := fun _ _ e => (Some (Ok tt), e);
  poll_shutdown_io := fun _ _ e => (Some (Ok tt), e);
  poll_response_head := fun _ _ e => (None, e);
  connection_bound := fun _ _ => false;
  peer_confirmed := fun _ _ => None;
|}.
#[export, refine] Instance pipe_laws : IoLaws Pipe := {| sent := fun _ e => e.(taken_in); sent_write := _ |}.
Proof.
  intros io waker data e Hne. cbn. destruct (e.(broken)); [done|]. destruct (Nat.min e.(room_left) (length data)) as [|n] eqn:Hm; [done|]. cbn. split; [lia|done].
Defined.
#[export] Instance no_remote : RemoteCalls unit := {|
  remote_write := fun _ _ r => (Err XStreamError.Closed, r);
  remote_read := fun _ _ r => (Err XStreamError.Closed, r);
  remote_finish := fun _ r => r;
  remote_end := fun _ _ r => (None, r);
  remote_drop := fun _ r => r;
|}.
Definition pipe_world : option (XWorld.t Pipe unit) :=
  match (Instance_.new 0 (mk_pipe [] 0 false)).1 with
  | Ok s => Some (XWorld.mk s [] tt [])
  | Err _ => None
  end.
(** Room for [n] more bytes. *)
Definition gives (n : nat) (w : XWorld.t Pipe unit) : XWorld.t Pipe unit :=
  MessageStream.set_env (mk_pipe (MessageStream.env w).(taken_in) ((MessageStream.env w).(room_left) + n) (MessageStream.env w).(broken)) w.
Definition breaks (w : XWorld.t Pipe unit) : XWorld.t Pipe unit :=
  MessageStream.set_env (mk_pipe (MessageStream.env w).(taken_in) 0 true) w.
Definition pipe_stream : MessageStream.t := MessageStream.new (StreamKind.Local (Some 0) (BindingId.mk 1 1) None).
Definition hello : list byte := bytes_of "hello".
Definition pipe_run (polls : list ((XWorld.t Pipe unit -> XWorld.t Pipe unit) * Z)) :=
  option_map (fun w => let '(r, taken, self, w) := write_all_run polls hello 0 pipe_stream w in
                       (r, taken, self.(MessageStream.accepted), (MessageStream.env w).(taken_in))) pipe_world.
Lemma pipe_dropped : pipe_run [(gives 3, 7); (gives 0, 7)] = Some (None, 3%nat, 3, bytes_of "hel").
Proof. vm_compute. reflexivity. Qed.
Lemma pipe_done : pipe_run [(gives 3, 7); (gives 4, 7)] = Some (Some (Ok tt), 5%nat, 5, hello).
Proof. vm_compute. reflexivity. Qed.
Lemma pipe_broken : pipe_run [(gives 3, 7); (breaks, 7)]
  = Some (Some (Err (XStreamError.Io IoKind.Other)), 3%nat, 3, bytes_of "hell").
Proof. vm_compute. reflexivity. Qed.
(** A future that is dropped, and one whose adapter fails: the poll that fails is given the
    bytes after the three that were counted. *)
Lemma write_all_accounted_witness :
  exists w, pipe_world = Some w /\
  (let '(r, taken, self, w') := write_all_run [(gives 3, 7); (gives 0, 7)] hello 0 pipe_stream w in
   r = None /\ taken = 3%nat /\ exists e, sent 0 e = sent 0 (MessageStream.env w) ++ take taken hello
     /\ (e = MessageStream.env w' \/ poll_failed 0 hello taken e (MessageStream.env w') r))
  /\ (let '(r, taken, self, w') := write_all_run [(gives 3, 7); (breaks, 7)] hello 0 pipe_stream w in
      r = Some (Err (XStreamError.Io IoKind.Other)) /\ taken = 3%nat /\ exists e, sent 0 e = sent 0 (MessageStream.env w) ++ take taken hello
     /\ (e = MessageStream.env w' \/ poll_failed 0 hello taken e (MessageStream.env w') r)).
Proof.
  eexists. split; [vm_compute; reflexivity|].
  split; match goal with |- context [write_all_run ?polls hello 0 pipe_stream ?w] =>
    pose proof (write_all_accounted 0 (BindingId.mk 1 1) None polls hello pipe_stream w eq_refl ltac:(unfold in_u64; cbn; lia) ltac:(done)
      ltac:(repeat constructor)) as H;
    destruct (write_all_run polls hello 0 pipe_stream w) as [[[r taken] self] w'] eqn:Hrun end;
    (split_and!; [| |apply H]); vm_compute in Hrun; injection Hrun as <- <- _ _; reflexivity.
Defined.
